(* ===== verification/_CoqProject ===== *)
-Q . S2P
Prelude.v
Types.v
Masks.v
Slots.v
Sha256.v
Graph.v
Verdict.v
Breaker.v
FrameCache.v
Rate.v
RateFacts.v
Handler.v
HandlerFacts.v
HandlerSafety.v
Json.v
JsonFacts.v
JsonSkip.v
JsonTrip.v
ReplyText.v
Reply.v
ReplyFacts.v
WsFrame.v
WsMem.v
WsFrameFacts.v
WsSession.v
WsRoom.v
WsSessionFacts.v
WsEvents.v
WsRefine.v
WsQuiet.v
WsEnds.v
WsVerdict.v
WsLimits.v
WsWitness.v
DsSet.v
DsSetFacts.v
DsStrFacts.v
DsLive.v
DsLiveFacts.v
DsPack.v
DsPackFacts.v
DsSnapFacts.v
DsWitness.v
DsPublish.v
Select.v
SelectFacts.v
DsHit.v
DsZone.v
DsZoneFacts.v
ApplyArgs.v
Apply.v
ApplyHeaders.v
ApplyQuery.v
ApplyFacts.v
Link.v
LinkFacts.v
Nats.v
NatsFacts.v
NatsStream.v
NatsRun.v
NatsReply.v
Redis.v
RedisFacts.v
RedisRun.v
RedisStream.v
RedisPair.v
