(* ===== verification/Prelude.v ===== *)
(** * A model of the Placitum node

    The node is an nginx module in C (src/module/src).  It holds every request
    of a protected location, asks a set of inspectors about it over a message
    bus, in waves, collects their replies until a deadline, resolves a verdict
    and applies it: the request goes on, is changed, is refused or is sent
    elsewhere.  The frames of a WebSocket go the same way.  Before and beside
    the inspectors stand local means that need no answer from outside: rate
    limits, datasets of addresses and strings, circuit breakers and a cache of
    frame verdicts, all in memory that the workers share.

    ** Parts, files and how they correspond to the code

    Paths are those under src/module/src; definitions have the names of the C
    functions and types where they have one.

    - ngx_http_waf.h, local/ngx_http_waf_local.h: Types.v has the enumerations
      and the structures of the request path.  Records hold the fields that
      the modelled code reads or writes.
    - runtime/ngx_http_waf_slot.c: Slots.v.  [Table] is the table of wait
      slots with its free chain, [Rid] the request ids and their spelling,
      [Ray] the ray of a request.
    - core/ngx_http_waf_graph.c: Graph.v; mask walks: Masks.v.
    - runtime/ngx_http_waf_verdict.c: Verdict.v; [Names] has the name tables.
    - runtime/ngx_http_waf_handler.c and the engine-independent part of
      bus/ngx_http_waf_bus.c: Handler.v.  The state is a worker, [world]: the
      slot table, the breakers and the requests by address.  HandlerFacts.v
      and HandlerSafety.v have its invariants and guarantees.
    - local/ngx_http_waf_breaker.c: Breaker.v, sequentially ([Breaker]) and as
      atomic accesses of concurrent workers ([Race]).
    - local/ngx_http_waf_frame_cache.c: FrameCache.v.
    - local/ngx_http_waf_rate.c and the operands of local/ngx_http_waf_select.c
      it uses: Rate.v, RateFacts.v.
    - body/ngx_http_waf_sha256.c: Sha256.v.
    - codec/ngx_http_waf_json.c: Json.v (writer, pull parser, skipper), with
      JsonFacts.v, JsonSkip.v and JsonTrip.v.
    - codec/ngx_http_waf_msg_reply.c: ReplyText.v (words, text checks,
      redirects) and Reply.v (the sections of a reply), with ReplyFacts.v.
    - stream/ngx_http_waf_frame.c: WsFrame.v (buffer and parser of one
      direction), WsSession.v (both directions, inspection, the pump), with
      WsMem.v, WsFrameFacts.v, WsRoom.v, WsSessionFacts.v, WsEvents.v,
      WsRefine.v, WsQuiet.v, WsEnds.v, WsVerdict.v, WsLimits.v and
      WsWitness.v.
    - local/ngx_http_waf_dataset.c and local/ngx_http_waf_ds_live.c: DsSet.v
      (built sets of networks and strings), DsLive.v (the overlay of entries
      that come and go), DsPack.v (packages, snapshots, ticks), DsPublish.v
      (publication of a set against readers without a lock), with
      DsSetFacts.v, DsStrFacts.v, DsLiveFacts.v, DsPackFacts.v, DsSnapFacts.v
      and DsWitness.v.
    - local/ngx_http_waf_select.c: Select.v (operands, conditions, the list
      of local checks; datasets come in through the interface [DatasetOps]),
      SelectFacts.v.  Asking a dataset, and the slots of the shared zone when
      a configuration is loaded (the rest of local/ngx_http_waf_dataset.c):
      DsHit.v, DsZone.v, DsZoneFacts.v.
    - runtime/ngx_http_waf_apply.c: Apply.v (denial, redirect, body, headers,
      cookies), ApplyArgs.v (the editing of a query string), with
      ApplyHeaders.v, ApplyQuery.v and ApplyFacts.v.
    - net/ngx_http_waf_link.c: Link.v, LinkFacts.v: a connection with its
      buffers, and the loop that the parsers of both protocols share.
    - bus/ngx_http_waf_bus_nats.c: Nats.v, with NatsFacts.v, NatsStream.v (the
      stream as lines and messages), NatsRun.v and NatsReply.v.
    - body/drv_redis.c: Redis.v, with RedisFacts.v, RedisRun.v, RedisStream.v
      (the stream as answers) and RedisPair.v.
    This file has what they share: record update, machine integers, byte
    strings, lists indexed by [Z], and the tactics and hints for them.

    ** How the code is modelled

    A C structure is a record and an assignment a record update.  Integers are
    [Z] with the wrap-around of their width written out ([u8], [u32], [u64],
    [s64]).  Pointers into a buffer are offsets, pointers to objects that are
    shared are addresses into a store.  Functions that fail return an option
    or a return code, as in C.  Code of nginx and of the C library is a
    parameter with a type class that says what is relied on ([RbTree],
    [RbWalk], [QSort], [PtoCidr], [NgxString]), each with an instance; the
    outcomes of allocations, of the network and of calls that leave the model
    are inputs, drawn from streams or records of outcomes, so that a theorem
    holds for all of them.  Where processes interleave (Breaker.v, DsPack.v,
    DsPublish.v) the model has a step for each region under a lock or each
    atomic access.  Log lines and flags that only print a warning once are
    left out everywhere.

    ** What the theorems show

    - The handler: from the start of a worker and for any order of entries,
      replies, absences and timers the state stays well formed, a request that
      waits has its deadline armed, requests do not touch each other, slots
      are neither leaked nor handed out twice, a dead request id resolves to
      nothing, a reply counts once, a failure once recorded stays one, a
      missed deadline blocks where neither timeouts nor body failures pass,
      waves come to an end, and a request is let through only for a reason.
    - The verdict of a phase is the one of an abstract specification.
    - Replies: the parser ends on every payload and accepts only what is
      within bounds; redirects stay within the allowed hosts; the skipper
      accepts exactly JSON; strings and integers survive a round trip.
    - WebSocket frames: the parser refines an abstract machine over a byte
      stream; without reassembly, or with messages of at most 65535 bytes from
      the server, buffers stay in bounds under any events, and the events end
      unless a frame of 2^63 bytes is announced; a refused frame is not sent;
      frames survive a round trip.
    - Local means: the breaker admits one probe under any interleaving; the
      rate store stays consistent, is a leaky bucket per key and bounds what
      passes; a cache hit goes back to an insertion for the same frame.
    - Datasets: a built set contains exactly its networks or strings; the
      overlay is a finite map with the right checksum and counters; a package
      is applied record by record, additions being lost only for want of room
      or memory, or not at all; a snapshot leaves exactly its
      entries and the bans taken meanwhile; a reader never sees a freed set.
    - Loading a configuration gives every dataset a slot of its own and keeps
      the one it had; a ban is found until it is over; a list of checks is
      decided by its first rule that holds.
    - Applying a verdict: a request that is denied is refused and one that is
      redirected goes where its reply says; a body is replaced only by the one
      announced; headers that no reply may touch stay; the query string has
      exactly the edits asked for, within its buffer.
    - The bus and the store: whatever the pieces in which bytes arrive and
      whatever happens in between, the calls made are those of the whole
      stream; a request that is published gets its own answer back; every
      operation of the store ends exactly once, with the answer to its own
      command.
    - Limits the code has: theorems of kind error exhibit inputs on which it
      does not do what it means to.

    ** Bounds and fuel

    A loop that is not structural runs on fuel, and a lemma shows that the
    fuel given is enough: for the skipper and the parsers of replies the
    length of the text, for the frame parser the bytes of the buffer, for the
    pump the answers its peers have still to give and the size of its buffer
    ([WsEnds.enough]), for
    records of a package the bytes left, for the answers of the bus and of
    the store the bytes that are buffered, for the regions of a snapshot twice
    its bytes plus the entries of the overlay, for a publication the 4096
    looks at the readers and nine steps, for a bisection the number of
    ranges, for a probe the size of its table, for a wave the number of
    waves.

    ** Not modelled

    - The writer of requests, the audit and the preview of bodies: assembly of
      messages for other services.
    - The response filters: they change the buffers of nginx; their outcomes
      are inputs of the handler.
    - The placement of bodies before a store is asked (the rest of
      body/ngx_http_waf_body.c), and drivers without a store.
    - Directives, options and the merging of configurations, the start of
      workers, the variables of nginx, the module's tables: glue to nginx.
    - Of the datasets: directives, the delivery over the bus
      (local/ngx_http_waf_ds_stream.c) and the event a ban publishes.
    - Of the bus and the store: the text of the CONNECT line is a parameter,
      and the calls that a completed operation makes may start operations but
      not tear others down.
*)
From stdpp Require Export base list numbers strings.
#[local] Open Scope Z_scope.

(** * Record update

    [r <| f := v |>] is the C assignment [r->f = v] on a record value and
    [r <| f ::= g |>] the read-modify-write [r->f = g(r->f)].  A record type
    opts in by declaring its [Eta] instance, the constructor applied to all
    projections; the updater of a field is then found by pattern abstraction
    of that term over the field. *)

Class Eta (R : Type) := eta : R -> R.
Class Updater {R T : Type} (proj : R -> T) := upd : (T -> T) -> R -> R.
Arguments upd {R T} proj {_} _ _ /.
#[export] Hint Mode Eta + : typeclass_instances.
#[export] Hint Mode Updater + + + : typeclass_instances.

Ltac solve_updater R T proj :=
  let inst := constr:(_ : Eta R) in
  let body := eval hnf in inst in
  lazymatch body with
  | (fun r => @?b r) =>
      let t := constr:(fun (g : T -> T) (r : R) =>
                 ltac:(let e := eval cbv beta in (b r) in
                       let e' := eval pattern (proj r) in e in
                       lazymatch e' with
                       | ?k (proj r) => let z := eval cbv beta in (k (g (proj r))) in
                                         exact z
                       end)) in
      exact t
  end.

#[export] Hint Extern 1 (@Updater ?R ?T ?proj) =>
  (solve_updater R T proj) : typeclass_instances.

Declare Scope waf_scope.
Delimit Scope waf_scope with waf.
Notation "r <| f ::= g |>" := (upd f g r)
  (at level 1, f at level 0, left associativity, format "r  <| f  ::=  g |>") : waf_scope.
Notation "r <| f := v |>" := (upd f (fun _ => v) r)
  (at level 1, f at level 0, left associativity, format "r  <| f  :=  v |>") : waf_scope.
#[global] Open Scope waf_scope.


(** * Return codes

    The codes of [ngx_core.h] that the module passes around, and the sum used
    by the request handlers, which may also return an HTTP status. *)

Inductive ngx_rc := NGX_OK | NGX_ERROR | NGX_AGAIN | NGX_DONE | NGX_DECLINED.

#[export] Instance ngx_rc_eq_dec : EqDecision ngx_rc.
Proof. solve_decision. Defined.

Definition rc_ok (r : ngx_rc) : bool := bool_decide (r = NGX_OK).

(** * Machine integers

    A [w]-bit unsigned value is a [Z] in [0, 2^w); every C operation that can
    leave the range is wrapped where the source computes it. *)

Definition u8  (x : Z) : Z := x mod 2 ^ 8.
Definition u32 (x : Z) : Z := x mod 2 ^ 32.
Definition u64 (x : Z) : Z := x mod 2 ^ 64.
(** [(ngx_int_t) x] and [(ngx_msec_int_t) x] on a 64-bit platform. *)
Definition s64 (x : Z) : Z := (x + 2 ^ 63) mod 2 ^ 64 - 2 ^ 63.

Definition is_u8  (x : Z) : Prop := 0 <= x < 2 ^ 8.
Definition is_u32 (x : Z) : Prop := 0 <= x < 2 ^ 32.
Definition is_u64 (x : Z) : Prop := 0 <= x < 2 ^ 64.
Definition is_s64 (x : Z) : Prop := - 2 ^ 63 <= x < 2 ^ 63.

Create HintDb waf.
Create Rewrite HintDb waf_bits.
Create Rewrite HintDb waf_len.
Create Rewrite HintDb waf_phase.

Ltac wordlia :=
  unfold is_u8, is_u32, is_u64, is_s64, u8, u32, u64, s64 in *;
  try Z.to_euclidean_division_equations; lia.

Lemma u64_range x : is_u64 (u64 x).
Proof. unfold is_u64, u64. apply Z.mod_pos_bound. lia. Qed.
Lemma u32_range x : is_u32 (u32 x).
Proof. unfold is_u32, u32. apply Z.mod_pos_bound. lia. Qed.
Lemma u8_range x : is_u8 (u8 x).
Proof. unfold is_u8, u8. apply Z.mod_pos_bound. lia. Qed.
Lemma s64_range x : is_s64 (s64 x).
Proof. wordlia. Qed.
Lemma u64_small x : is_u64 x -> u64 x = x.
Proof. unfold is_u64, u64. intros. apply Z.mod_small; lia. Qed.
Lemma u32_small x : is_u32 x -> u32 x = x.
Proof. unfold is_u32, u32. intros. apply Z.mod_small; lia. Qed.
Lemma u8_small x : is_u8 x -> u8 x = x.
Proof. unfold is_u8, u8. intros. apply Z.mod_small; lia. Qed.
Lemma s64_small x : is_s64 x -> s64 x = x.
Proof. wordlia. Qed.
Lemma s64_u64 x : s64 (u64 x) = s64 x.
Proof. wordlia. Qed.
Lemma u64_idemp x : u64 (u64 x) = u64 x.
Proof. apply u64_small, u64_range. Qed.

#[export] Hint Resolve u64_range u32_range u8_range s64_range : waf.

(** The signed difference [(ngx_msec_int_t) (a - b)] of two millisecond
    clocks; it is the true difference whenever that fits 63 bits, also when
    the clock itself has wrapped. *)
Definition msec_diff (a b : Z) : Z := s64 (a - b).

Lemma msec_diff_shift a d : is_s64 d -> msec_diff (u64 (a + d)) a = d.
Proof. unfold msec_diff; wordlia. Qed.

Lemma msec_diff_refl a : msec_diff a a = 0.
Proof. unfold msec_diff; wordlia. Qed.

Lemma msec_diff_u64_l a b : msec_diff (u64 a) b = msec_diff a b.
Proof. unfold msec_diff; wordlia. Qed.

(** * 64-bit masks

    [ngx_http_waf_mask_t] is a [uint64_t] with one bit per inspector. *)

Definition bnot64 (x : Z) : Z := Z.lxor x (Z.ones 64).
Definition bit (i : Z) : Z := u64 (Z.shiftl 1 i).

Lemma is_u64_testbit x i : is_u64 x -> 64 <= i -> Z.testbit x i = false.
Proof.
  intros Hx Hi. unfold is_u64 in Hx.
  destruct (Z.eq_dec x 0) as [->|]; [apply Z.testbit_0_l|].
  apply Z.bits_above_log2; [lia|].
  assert (Z.log2 x < 64) by (apply Z.log2_lt_pow2; lia). lia.
Qed.

Lemma testbit_is_u64 x :
  0 <= x -> (forall i, 64 <= i -> Z.testbit x i = false) -> is_u64 x.
Proof.
  intros H0 H. split; [done|].
  destruct (Z.eq_dec x 0) as [->|]; [lia|].
  apply Z.log2_lt_pow2; [lia|].
  destruct (Z.lt_ge_cases (Z.log2 x) 64) as [|Hge]; [done|].
  specialize (H _ Hge). rewrite Z.bit_log2 in H; [done|lia].
Qed.

Lemma testbit_bnot64 x i :
  0 <= i < 64 -> Z.testbit (bnot64 x) i = negb (Z.testbit x i).
Proof.
  intros Hi. unfold bnot64. rewrite Z.lxor_spec, Z.ones_spec_low by lia.
  by destruct (Z.testbit x i).
Qed.

Lemma testbit_bit i j : 0 <= i < 64 -> 0 <= j -> Z.testbit (bit i) j = (i =? j).
Proof.
  intros Hi Hj. unfold bit. rewrite u64_small.
  - rewrite Z.shiftl_1_l. apply Z.pow2_bits_eqb. lia.
  - rewrite Z.shiftl_1_l. split; [apply Z.pow_nonneg; lia|].
    apply Z.pow_lt_mono_r; lia.
Qed.

Lemma land_u64 x y : is_u64 x -> 0 <= y -> is_u64 (Z.land x y).
Proof.
  intros Hx Hy. apply testbit_is_u64; [apply Z.land_nonneg; unfold is_u64 in *; lia|].
  intros i Hi. by rewrite Z.land_spec, (is_u64_testbit x).
Qed.
Lemma lor_u64 x y : is_u64 x -> is_u64 y -> is_u64 (Z.lor x y).
Proof.
  intros Hx Hy. apply testbit_is_u64; [apply Z.lor_nonneg; unfold is_u64 in *; lia|].
  intros i Hi. by rewrite Z.lor_spec, !is_u64_testbit.
Qed.
Lemma bnot64_u64 x : is_u64 x -> is_u64 (bnot64 x).
Proof.
  intros Hx. apply testbit_is_u64.
  - apply Z.lxor_nonneg. unfold is_u64 in *. rewrite Z.ones_equiv. lia.
  - intros i Hi. unfold bnot64. by rewrite Z.lxor_spec, Z.ones_spec_high, is_u64_testbit.
Qed.
Lemma bit_u64 i : is_u64 (bit i).
Proof. apply u64_range. Qed.
Lemma zero_u64 : is_u64 0.
Proof. unfold is_u64; lia. Qed.
Lemma is_u64_nonneg x : is_u64 x -> 0 <= x.
Proof. unfold is_u64; lia. Qed.

#[export] Hint Resolve land_u64 lor_u64 bnot64_u64 bit_u64 zero_u64 is_u64_nonneg : waf.
#[export] Hint Rewrite Z.land_spec Z.lor_spec Z.testbit_0_l : waf_bits.
#[export] Hint Rewrite testbit_bnot64 testbit_bit using lia : waf_bits.

(** Two masks are equal when they agree on the 64 inspector positions. *)
Lemma mask_ext x y :
  is_u64 x -> is_u64 y ->
  (forall i, 0 <= i < 64 -> Z.testbit x i = Z.testbit y i) -> x = y.
Proof.
  intros Hx Hy H. apply Z.bits_inj'. intros i Hi.
  destruct (Z.lt_ge_cases i 64); [apply H; lia|].
  by rewrite !is_u64_testbit.
Qed.

(** Equality of mask expressions, bit by bit. *)
Ltac mask_solve :=
  apply mask_ext; [eauto 10 with waf ..|];
  let i := fresh "i" in let Hi := fresh "Hi" in
  intros i Hi; autorewrite with waf_bits;
  repeat match goal with |- context [Z.testbit ?x i] => destruct (Z.testbit x i) end;
  try done.

(** The test [m & bit(i)] of the C code. *)
Definition has_bit (m i : Z) : bool := negb (Z.land m (bit i) =? 0).

Lemma has_bit_testbit m i : is_u64 m -> 0 <= i < 64 -> has_bit m i = Z.testbit m i.
Proof.
  intros Hm Hi. unfold has_bit.
  destruct (Z.testbit m i) eqn:E.
  - destruct (Z.eqb_spec (Z.land m (bit i)) 0) as [H0|]; [|done].
    assert (Hb : Z.testbit (Z.land m (bit i)) i = true).
    { autorewrite with waf_bits. by rewrite E, Z.eqb_refl. }
    rewrite H0, Z.testbit_0_l in Hb. done.
  - destruct (Z.eqb_spec (Z.land m (bit i)) 0) as [|H0]; [done|]. exfalso. apply H0.
    apply mask_ext; [eauto with waf ..|]. intros j Hj. autorewrite with waf_bits.
    destruct (Z.eqb_spec i j) as [->|]; [by rewrite E|].
    by rewrite andb_false_r.
Qed.

(** Bit fields: a value below [2^n] under a shifted one. *)
Lemma land_shiftl_small v n d :
  0 <= n -> 0 <= d < 2 ^ n -> Z.land (Z.shiftl v n) d = 0.
Proof.
  intros Hn Hd. apply Z.bits_inj'. intros i Hi. rewrite Z.land_spec, Z.testbit_0_l.
  destruct (Z.lt_ge_cases i n).
  - by rewrite Z.shiftl_spec_low.
  - destruct (Z.eq_dec d 0) as [->|]; [by rewrite Z.testbit_0_l, andb_false_r|].
    rewrite (Z.bits_above_log2 d), andb_false_r; [done|lia|].
    assert (Z.log2 d < n) by (apply Z.log2_lt_pow2; lia). lia.
Qed.

Lemma lor_shiftl v n d :
  0 <= n -> 0 <= d < 2 ^ n -> Z.lor (Z.shiftl v n) d = v * 2 ^ n + d.
Proof.
  intros Hn Hd. pose proof (Z.add_lor_land (Z.shiftl v n) d) as H.
  rewrite land_shiftl_small in H by done.
  rewrite Z.shiftl_mul_pow2 in * by done. lia.
Qed.

(** * Arrays

    [elts[i]] for an in-range index; out of range the model reads the default
    and writes nothing, and every use is guarded as the source guards it. *)

Definition aget {A} (d : A) (l : list A) (i : Z) : A :=
  if i <? 0 then d else nth (Z.to_nat i) l d.
Definition aset {A} (l : list A) (i : Z) (x : A) : list A :=
  if i <? 0 then l else <[Z.to_nat i := x]> l.
Definition zlen {A} (l : list A) : Z := Z.of_nat (length l).

Lemma zlen_nonneg {A} (l : list A) : 0 <= zlen l.
Proof. unfold zlen; lia. Qed.
Lemma zlen_nil {A} : zlen (@nil A) = 0.
Proof. done. Qed.
Lemma zlen_cons {A} (x : A) l : zlen (x :: l) = 1 + zlen l.
Proof. unfold zlen; cbn [length]; lia. Qed.
Lemma zlen_app {A} (l k : list A) : zlen (l ++ k) = zlen l + zlen k.
Proof. unfold zlen. rewrite length_app. lia. Qed.
Lemma zlen_snoc {A} (l : list A) x : zlen (l ++ [x]) = zlen l + 1.
Proof. unfold zlen. rewrite length_app. cbn. lia. Qed.
Lemma zlen_aset {A} (l : list A) i x : zlen (aset l i x) = zlen l.
Proof. unfold zlen, aset. destruct (i <? 0); [done|]. by rewrite length_insert. Qed.

Lemma aget_lookup {A} (d : A) l i :
  0 <= i -> aget d l i = default d (l !! Z.to_nat i).
Proof.
  intros. unfold aget. destruct (Z.ltb_spec i 0); [lia|].
  apply nth_lookup.
Qed.
Lemma aget_aset_eq {A} (d : A) l i x :
  0 <= i < zlen l -> aget d (aset l i x) i = x.
Proof.
  unfold zlen. intros. rewrite aget_lookup by lia. unfold aset.
  destruct (Z.ltb_spec i 0); [lia|]. by rewrite list_lookup_insert_eq by lia.
Qed.
Lemma aget_aset_ne {A} (d : A) l i j x :
  i <> j -> aget d (aset l i x) j = aget d l j.
Proof.
  intros Hne. unfold aset. destruct (Z.ltb_spec i 0); [done|].
  unfold aget. destruct (Z.ltb_spec j 0); [done|].
  rewrite !nth_lookup, list_lookup_insert_ne; [done|lia].
Qed.

Lemma aget_aset_cases {A} (d : A) l i j x :
  aget d (aset l i x) j = x \/ aget d (aset l i x) j = aget d l j.
Proof.
  destruct (Z.eq_dec i j) as [<-|Hne]; [|right; by apply aget_aset_ne].
  destruct (Z.ltb_spec i 0) as [Hn|Hn]; [right; unfold aset; by rewrite (proj2 (Z.ltb_lt i 0))|].
  destruct (Z.ltb_spec i (zlen l)); [left; by apply aget_aset_eq|right].
  unfold aset, zlen in *. replace (i <? 0) with false by lia. by rewrite list_insert_ge by lia.
Qed.

#[export] Hint Rewrite @zlen_nil @zlen_cons @zlen_app @zlen_aset : waf_len.

(** * Byte strings

    [ngx_str_t] is a length and a pointer; the model keeps the bytes. *)

Abbreviation bytes := (list Z).
Definition is_bytes (s : bytes) : Prop := Forall is_u8 s.

Definition lit (s : string) : bytes :=
  map (fun c => Z.of_N (Ascii.N_of_ascii c)) (String.list_ascii_of_string s).

Arguments lit _%_string_scope.

(** [len ==] and [ngx_memcmp(..) == 0] (or [ngx_strncmp] on the whole
    length): equality of byte strings. *)
Definition bytes_eqb (a b : bytes) : bool := bool_decide (a = b).

Lemma bytes_eqb_eq a b : bytes_eqb a b = true <-> a = b.
Proof. unfold bytes_eqb. by rewrite bool_decide_eq_true. Qed.

(** [static const u_char hex[] = "0123456789abcdef"]. *)
Definition hex : bytes := Eval compute in lit "0123456789abcdef".
Definition hex_digit (d : Z) : Z := aget 0 hex d.

(** * Allocation outcomes

    Pools and slabs belong to nginx, not to this code base: a caller sees
    only whether an allocation succeeds.  A function that allocates draws the
    outcomes of its calls, in order, from a stream; an exhausted stream
    stands for success. *)

Definition alloc_stream := list bool.
Definition alloc (o : alloc_stream) : bool * alloc_stream :=
  match o with [] => (true, []) | b :: o' => (b, o') end.

(** * Loops *)

(** [for (i = from; i < from + n; i++)] over the indices, with a state. *)
Fixpoint for_upto {S} (n : nat) (from : Z) (body : Z -> S -> S) (s : S) : S :=
  match n with
  | O => s
  | Datatypes.S k => for_upto k (from + 1) body (body from s)
  end.

Definition for_range {S} (n : Z) (body : Z -> S -> S) (s : S) : S :=
  for_upto (Z.to_nat n) 0 body s.

Lemma for_upto_inv {S} (P : Z -> S -> Prop) n from body s :
  P from s ->
  (forall i s, from <= i < from + Z.of_nat n -> P i s -> P (i + 1) (body i s)) ->
  P (from + Z.of_nat n) (for_upto n from body s).
Proof.
  revert from s. induction n as [|n IH]; intros from s H0 Hs.
  - rewrite Nat2Z.inj_0, Z.add_0_r. done.
  - cbn. replace (from + Z.of_nat (Datatypes.S n)) with (from + 1 + Z.of_nat n) by lia.
    apply IH; [apply Hs; [lia|done]|]. intros i s' Hi. apply Hs. lia.
Qed.

Lemma for_range_inv {S} (P : Z -> S -> Prop) n body s :
  0 <= n -> P 0 s ->
  (forall i s, 0 <= i < n -> P i s -> P (i + 1) (body i s)) ->
  P n (for_range n body s).
Proof.
  intros Hn H0 Hs. unfold for_range.
  pose proof (for_upto_inv P (Z.to_nat n) 0 body s) as H.
  rewrite Z.add_0_l, Z2Nat.id in H by lia. auto.
Qed.

(** Loops whose bodies agree on the range. *)
Lemma for_range_ext {S} (f g : Z -> S -> S) n s :
  (forall i s, 0 <= i < n -> f i s = g i s) -> for_range n f s = for_range n g s.
Proof.
  intros Hfg. unfold for_range.
  assert (H : forall m k s, 0 <= k -> k + Z.of_nat m <= Z.max n 0 -> for_upto m k f s = for_upto m k g s).
  { induction m as [|m IH]; intros k x Hk Hm; cbn; [done|].
    rewrite Hfg by lia. apply IH; lia. }
  apply H; lia.
Qed.
