(* ===== verification/Types.v ===== *)
(** The enumerations and structures of ngx_http_waf.h that the decision path
    works on.  A C array indexed by a phase is a function of the phase; a
    record holds the fields the modelled code reads or writes. *)
From S2P Require Import Prelude.
#[local] Open Scope Z_scope.

Definition NGX_HTTP_WAF_MAX_INSPECTORS : Z := 64.
Definition NGX_HTTP_WAF_MAX_WAVE : Z := 64.
Definition NGX_HTTP_WAF_SCORE_MAX : Z := 100.
Definition NGX_HTTP_WAF_MARKERS_MAX : Z := 16.
Definition NGX_HTTP_WAF_SESSIONS_MAX : Z := 8.
Definition NGX_HTTP_WAF_REWRITE_MAX_DEPTH : Z := 8.
(** [((ngx_uint_t) -1)]. *)
Definition NGX_HTTP_WAF_ACTION_ALL : Z := 2 ^ 64 - 1.

Inductive verdict_e := V_ALLOW | V_SCORE | V_REDIRECT | V_DENY | V_ERROR.

Inductive phase_e := PHASE_REQUEST | PHASE_RESPONSE | PHASE_FRAME_C2S | PHASE_FRAME_S2C.

Inductive state_e :=
  | ST_INIT | ST_NEED_BODY | ST_READING_BODY | ST_PLACING_META | ST_FETCHING_FORM
  | ST_FINISH | ST_WAITING | ST_NEXT_WAVE | ST_ALLOW | ST_REDIRECT | ST_DENY
  | ST_FAILED | ST_DONE.

Inductive code_e :=
  | CODE_NONE | CODE_LOCAL_LIST | CODE_LOCAL_RATE | CODE_INSPECTOR | CODE_SCORE
  | CODE_FAIL_TIMEOUT | CODE_FAIL_ABSENT | CODE_FAIL_BUS | CODE_FAIL_BODY
  | CODE_FAIL_INSPECTOR | CODE_FAIL_OVERLOAD | CODE_LOCAL_UPGRADE.

Inductive entry_state_e :=
  | ENTRY_ANSWERED | ENTRY_TIMEOUT | ENTRY_ABSENT | ENTRY_SKIPPED | ENTRY_OFF.

Inductive policy_e := POLICY_PASS | POLICY_BLOCK | POLICY_TRIM.

Inductive exc_e :=
  | EXC_TIMEOUT | EXC_ABSENT | EXC_BUS | EXC_BODY | EXC_INSPECTOR | EXC_OVERLOAD.

Inductive deny_mode_e := DENY_FAST | DENY_DETERMINISTIC.

Inductive body_need_e := BODY_NONE | BODY_META | BODY_PREVIEW | BODY_FULL.

Inductive mode_e := MODE_ACTIVE | MODE_PASSIVE | MODE_OFF | MODE_VOTE.

Inductive resume_e := RESUME_OFF | RESUME_PREFER | RESUME_REQUIRE.

Inductive do_e :=
  | DO_CHALLENGE | DO_THRESHOLD | DO_SKIP | DO_REAUTH | DO_NOTE | DO_MUTATE
  | DO_ACTIVE | DO_PASSIVE | DO_OFF | DO_VOTE | DO_AUDIT | DO_ARCHIVE | DO_MARK
  | DO_SCORE.

Inductive apply_e :=
  | APPLY_REQUEST | APPLY_IP | APPLY_ASN | APPLY_SESSION | APPLY_CONN | APPLY_RESPONSE.

Inductive set_e := SET_NONE | SET_ON | SET_OFF.

#[export] Instance verdict_e_eq_dec : EqDecision verdict_e.
Proof. solve_decision. Defined.
#[export] Instance phase_e_eq_dec : EqDecision phase_e.
Proof. solve_decision. Defined.
#[export] Instance state_e_eq_dec : EqDecision state_e.
Proof. solve_decision. Defined.
#[export] Instance code_e_eq_dec : EqDecision code_e.
Proof. solve_decision. Defined.
#[export] Instance entry_state_e_eq_dec : EqDecision entry_state_e.
Proof. solve_decision. Defined.
#[export] Instance policy_e_eq_dec : EqDecision policy_e.
Proof. solve_decision. Defined.
#[export] Instance exc_e_eq_dec : EqDecision exc_e.
Proof. solve_decision. Defined.
#[export] Instance deny_mode_e_eq_dec : EqDecision deny_mode_e.
Proof. solve_decision. Defined.
#[export] Instance body_need_e_eq_dec : EqDecision body_need_e.
Proof. solve_decision. Defined.
#[export] Instance mode_e_eq_dec : EqDecision mode_e.
Proof. solve_decision. Defined.
#[export] Instance resume_e_eq_dec : EqDecision resume_e.
Proof. solve_decision. Defined.
#[export] Instance do_e_eq_dec : EqDecision do_e.
Proof. solve_decision. Defined.
#[export] Instance apply_e_eq_dec : EqDecision apply_e.
Proof. solve_decision. Defined.
#[export] Instance set_e_eq_dec : EqDecision set_e.
Proof. solve_decision. Defined.

(** [x == K] for the enumerations. *)
Notation "x ==? y" := (bool_decide (x = y)) (at level 70) : waf_scope.

(** ** Phases *)

Definition phase_num (p : phase_e) : Z :=
  match p with
  | PHASE_REQUEST => 0 | PHASE_RESPONSE => 1 | PHASE_FRAME_C2S => 2 | PHASE_FRAME_S2C => 3
  end.

(** The phases in the order of the C loops over [0 .. NGX_HTTP_WAF_NPHASE). *)
Definition all_phases : list phase_e :=
  [PHASE_REQUEST; PHASE_RESPONSE; PHASE_FRAME_C2S; PHASE_FRAME_S2C].

(** [for (p = phase + 1; p < NGX_HTTP_WAF_NPHASE; p++)]. *)
Definition later_phases (p : phase_e) : list phase_e :=
  drop (Z.to_nat (phase_num p + 1)) all_phases.

Lemma later_phases_spec p q : q ∈ later_phases p <-> phase_num p < phase_num q.
Proof.
  rewrite <- (bool_decide_spec (q ∈ later_phases p)), <- (bool_decide_spec (phase_num p < phase_num q)).
  by destruct p, q; vm_compute.
Qed.

Definition NGX_HTTP_WAF_PH_BIT (p : phase_e) : Z := Z.shiftl 1 (phase_num p).
Definition NGX_HTTP_WAF_PH_ALL : Z := Z.shiftl 1 4 - 1.

Definition ngx_http_waf_phase_is_frame (p : phase_e) : bool :=
  (p ==? PHASE_FRAME_C2S) || (p ==? PHASE_FRAME_S2C).

Definition pset {A} (f : phase_e -> A) (p : phase_e) (x : A) : phase_e -> A :=
  fun q => if decide (q = p) then x else f q.

Lemma pset_eq {A} (f : phase_e -> A) p x : pset f p x p = x.
Proof. unfold pset. by destruct (decide (p = p)). Qed.
Lemma pset_ne {A} (f : phase_e -> A) p q x : q <> p -> pset f p x q = f q.
Proof. intros. unfold pset. by destruct (decide (q = p)). Qed.
#[export] Hint Rewrite @pset_eq : waf_phase.

(** ** Configuration *)

Record inspector_t := mkInspector {
  in_name : bytes;
  in_subject : bytes;
  in_profile : bytes;
  in_index : Z;
  in_breaker : bool;
  in_breaker_threshold : Z;
  in_breaker_window : Z;
  in_breaker_probe : Z
}.

(** [conds] is the list of conditions of the binding, [None] for [NULL]; the
    type of a condition is left to the caller. *)
Record binding_t {cond : Type} := mkBinding {
  b_name : bytes;
  b_index : Z;
  b_wave : Z;
  b_timeout : Z;
  b_mode : mode_e;
  b_phase : phase_e;
  b_resume : resume_e;
  b_keep : bool;
  b_conds : option (list cond)
}.
Arguments binding_t : clear implicits.
Arguments mkBinding {cond}.

Record wave_t := mkWave {
  w_passive : Z;
  w_vote : Z;
  w_all : Z;
  w_off : Z;
  w_body_need : body_need_e;
  w_obj_need : Z
}.
#[export] Instance eta_wave_t : Eta wave_t := fun r =>
  mkWave r.(w_passive) r.(w_vote) r.(w_all) r.(w_off) r.(w_body_need) r.(w_obj_need).

(** The part of [ngx_http_waf_shoot_conf_t] that shapes the waves; only the
    limit of the body is read there. *)
Record shoot_t := mkShoot { sh_capture : Z; sh_capture_limit_body : Z }.

Definition NGX_HTTP_WAF_OBJ_HEADERS : Z := 0.
Definition NGX_HTTP_WAF_OBJ_ARGS : Z := 1.
Definition NGX_HTTP_WAF_OBJ_BODY : Z := 2.
Definition NGX_HTTP_WAF_OBJ_BIT (i : Z) : Z := Z.shiftl 1 i.
Definition NGX_HTTP_WAF_CAPTURE_LIMIT_WHOLE : Z := 0.

Record loc_conf {cond : Type} := mkLocConf {
  lc_enable : bool;
  lc_has_children : bool;
  lc_inspects : phase_e -> option (list (binding_t cond));
  lc_waves : phase_e -> option (list wave_t);
  lc_deadline : phase_e -> Z;
  lc_exception : phase_e -> exc_e -> policy_e;
  lc_exception_response : phase_e -> exc_e -> bytes;
  lc_deny_mode : phase_e -> deny_mode_e;
  lc_score_deny : phase_e -> Z;
  lc_shoot : phase_e -> shoot_t;
  lc_actions_max : Z
}.
Arguments loc_conf : clear implicits.
Arguments mkLocConf {cond}.

(** ** Replies and actions *)

Record control_t := mkControl { ctl_active : Z; ctl_passive : Z; ctl_off : Z; ctl_vote : Z }.
#[export] Instance eta_control_t : Eta control_t := fun r =>
  mkControl r.(ctl_active) r.(ctl_passive) r.(ctl_off) r.(ctl_vote).

(** [ngx_http_waf_ovr_part_t]; per-object arrays are lists of length 3. *)
Record ovr_part := mkOvr {
  o_set : set_e;
  o_ttl : option Z;
  o_when : option Z;
  o_named : Z;
  o_off : Z;
  o_has_limit : Z;
  o_limit : list Z;
  o_source : list Z
}.
#[export] Instance eta_ovr_part : Eta ovr_part := fun r =>
  mkOvr r.(o_set) r.(o_ttl) r.(o_when) r.(o_named) r.(o_off) r.(o_has_limit)
        r.(o_limit) r.(o_source).

Record audit_ovr := mkAuditOvr { ao_audit : ovr_part; ao_archive : ovr_part }.
#[export] Instance eta_audit_ovr : Eta audit_ovr := fun r =>
  mkAuditOvr r.(ao_audit) r.(ao_archive).

Record action_t := mkAction {
  a_verb : do_e;
  a_to : Z;
  a_to_phases : Z;
  a_code : bytes;
  a_apply : apply_e;
  a_delta : option Z;
  a_value : Z;
  a_counter : bytes;
  a_group : bytes;
  a_set : set_e;
  a_marker : bytes;
  a_spec : ovr_part;
  a_from : Z;
  a_phase : phase_e;
  a_wave : Z;
  a_passive : bool;
  a_has_value : bool
}.
#[export] Instance eta_action_t : Eta action_t := fun r =>
  mkAction r.(a_verb) r.(a_to) r.(a_to_phases) r.(a_code) r.(a_apply) r.(a_delta)
    r.(a_value) r.(a_counter) r.(a_group) r.(a_set) r.(a_marker) r.(a_spec)
    r.(a_from) r.(a_phase) r.(a_wave) r.(a_passive) r.(a_has_value).

Record session_t := mkSession {
  ss_source : bytes;
  ss_kind : bytes;
  ss_user : bytes;
  ss_id : bytes;
  ss_groups : bytes;
  ss_issued : Z;
  ss_expires : Z;
  ss_by : Z;
  ss_verified : bool;
  ss_passive : bool
}.
#[export] Instance eta_session_t : Eta session_t := fun r =>
  mkSession r.(ss_source) r.(ss_kind) r.(ss_user) r.(ss_id) r.(ss_groups)
    r.(ss_issued) r.(ss_expires) r.(ss_by) r.(ss_verified) r.(ss_passive).

(** [rewrite_sha256] is present when [rewrite_sha256_set] is. *)
Record reply_t := mkReply {
  r_verdict : verdict_e;
  r_score : Z;
  r_overload : bool;
  r_actions : list action_t;
  r_sessions : list session_t;
  r_rewrite_key : bytes;
  r_rewrite_size : Z;
  r_rewrite_sha256 : option bytes;
  r_rewrite_has : bool;
  r_rewrite_body : bool;
  r_latency : Z;
  r_order : Z;
  r_wave : Z;
  r_state : entry_state_e;
  r_received : bool;
  r_passive : bool;
  r_vote : bool
}.
#[export] Instance eta_reply_t : Eta reply_t := fun r =>
  mkReply r.(r_verdict) r.(r_score) r.(r_overload) r.(r_actions) r.(r_sessions)
    r.(r_rewrite_key) r.(r_rewrite_size) r.(r_rewrite_sha256) r.(r_rewrite_has)
    r.(r_rewrite_body) r.(r_latency) r.(r_order) r.(r_wave) r.(r_state)
    r.(r_received) r.(r_passive) r.(r_vote).

(** An entry zeroed by [ngx_pcalloc]. *)
Definition reply0 : reply_t :=
  mkReply V_ALLOW 0 false [] [] [] 0 None false false 0 0 0 ENTRY_ANSWERED false false false.

(** The locator of a stored body version: what a rewrite changes. *)
Record locator_t := mkLocator {
  l_store : bytes;
  l_driver : bytes;
  l_key : bytes;
  l_inline : bytes;
  l_size : Z;
  l_declared_size : Z;
  l_sha256 : bytes;
  l_expires_at : Z;
  l_encoding : bytes;
  l_hint : bytes;
  l_offset : Z;
  l_unavailable : Z;
  l_has_sha256 : bool;
  l_complete : bool;
  l_truncated : bool
}.
#[export] Instance eta_locator_t : Eta locator_t := fun r =>
  mkLocator r.(l_store) r.(l_driver) r.(l_key) r.(l_inline) r.(l_size)
    r.(l_declared_size) r.(l_sha256) r.(l_expires_at) r.(l_encoding) r.(l_hint)
    r.(l_offset) r.(l_unavailable) r.(l_has_sha256) r.(l_complete) r.(l_truncated).
Definition locator0 : locator_t := mkLocator [] [] [] [] 0 0 (replicate 32 0) 0 [] [] 0 0 false false false.

(** ** Context of one phase and of a request *)

Record phase_ctx := mkPhaseCtx {
  ph_wave : Z;
  ph_due : Z;
  ph_replies : option (list reply_t);
  ph_got : Z;
  ph_personal : Z;
  ph_skipped : Z;
  ph_controlled : Z;
  ph_score : Z;
  ph_shadow : Z;
  ph_order : Z;
  ph_verdict : verdict_e;
  ph_decisive : option Z;
  ph_fail : code_e;
  ph_code : code_e;
  ph_cond_off : Z;
  ph_cond_settled : bool;
  ph_published : Z;
  ph_wave_published : Z;
  ph_locator : option locator_t;
  ph_live : option locator_t;
  ph_stale : option (list bytes);
  ph_rewrite_depth : Z;
  ph_rewrite_last : Z;
  ph_rewrite_applied : Z;
  ph_body_policy : option policy_e;
  ph_by_score : bool;
  ph_fail_blocked : bool;
  ph_body_ready : bool;
  ph_body_discarded : bool;
  ph_meta_settled : bool;
  ph_agent_settled : bool;
  ph_agent_after_body : bool
}.
#[export] Instance eta_phase_ctx : Eta phase_ctx := fun r =>
  mkPhaseCtx r.(ph_wave) r.(ph_due) r.(ph_replies) r.(ph_got) r.(ph_personal)
    r.(ph_skipped) r.(ph_controlled) r.(ph_score) r.(ph_shadow) r.(ph_order)
    r.(ph_verdict) r.(ph_decisive) r.(ph_fail) r.(ph_code) r.(ph_cond_off)
    r.(ph_cond_settled) r.(ph_published) r.(ph_wave_published) r.(ph_locator) r.(ph_live)
    r.(ph_stale) r.(ph_rewrite_depth)
    r.(ph_rewrite_last) r.(ph_rewrite_applied) r.(ph_body_policy) r.(ph_by_score)
    r.(ph_fail_blocked) r.(ph_body_ready) r.(ph_body_discarded) r.(ph_meta_settled)
    r.(ph_agent_settled) r.(ph_agent_after_body).

(** A phase context zeroed with the context; [body_policy] of the request
    phase is then set to [NGX_HTTP_WAF_POLICY_UNSET], here [None]. *)
Definition phase_ctx0 : phase_ctx :=
  mkPhaseCtx 0 0 None 0 0 0 0 0 0 0 V_ALLOW None CODE_NONE CODE_NONE 0 false 0 0 None None None
    0 0 0 None false false false false false false false.

(** [c_conn] is the control block of the frame connection
    ([ngx_http_waf_frame_control]), [None] when there is none; the arrays of
    actions, sessions and markers are [None] until they are created; [c_mem]
    holds the outcomes of the coming pool allocations. *)
Record ctx_t := mkCtx {
  c_state : state_e;
  c_phase : phase_e;
  c_phases : phase_e -> phase_ctx;
  c_actions : option (list action_t);
  c_sessions : option (list session_t);
  c_markers : option (list bytes);
  c_ctl : phase_e -> control_t;
  c_conn : option (phase_e -> control_t);
  c_ovr_request : audit_ovr;
  c_ovr_response : audit_ovr;
  c_mem : alloc_stream
}.
#[export] Instance eta_ctx_t : Eta ctx_t := fun r =>
  mkCtx r.(c_state) r.(c_phase) r.(c_phases) r.(c_actions) r.(c_sessions) r.(c_markers)
    r.(c_ctl) r.(c_conn) r.(c_ovr_request) r.(c_ovr_response) r.(c_mem).

(** [ctx->ph], the context of the current phase, and updates through it. *)
Definition ph (c : ctx_t) : phase_ctx := c.(c_phases) c.(c_phase).
Definition on_ph (f : phase_ctx -> phase_ctx) (c : ctx_t) : ctx_t :=
  c <| c_phases := pset c.(c_phases) c.(c_phase) (f (ph c)) |>.

Lemma ph_on_ph f c : ph (on_ph f c) = f (ph c).
Proof. unfold ph at 1, on_ph. cbn. apply pset_eq. Qed.
#[export] Hint Rewrite ph_on_ph : waf_phase.

(** One pool allocation of the request. *)
Definition pool_alloc (c : ctx_t) : bool * ctx_t :=
  let '(b, o) := alloc c.(c_mem) in (b, c <| c_mem := o |>).
