(* ===== verification/Masks.v ===== *)
(** Walking the set bits of an inspector mask: the loop
    [while (mask) { index = lowest_bit(mask); mask &= ~bit; ... }] of
    handler.c, bus.c and frame.c, and [ngx_http_waf_lowest_bit] of
    ngx_http_waf.h. *)
From S2P Require Import Prelude.
#[local] Open Scope Z_scope.

Module Masks.

(** The portable loop [while ((mask & 1) == 0) { mask >>= 1; n++; }]; a
    nonzero 64-bit mask leaves it within 64 turns. *)
Fixpoint lowest_bit_loop (fuel : nat) (mask n : Z) : Z :=
  match fuel with
  | O => n
  | S k => if Z.land mask 1 =? 0 then lowest_bit_loop k (Z.shiftr mask 1) (n + 1) else n
  end.
Definition ngx_http_waf_lowest_bit (mask : Z) : Z := lowest_bit_loop 64 mask 0.

(** The loop over a mask with the body [f index state]. *)
Fixpoint mask_loop {S} (fuel : nat) (f : Z -> S -> S) (mask : Z) (s : S) : S :=
  match fuel with
  | O => s
  | Datatypes.S k =>
      if mask =? 0 then s
      else
        let index := ngx_http_waf_lowest_bit mask in
        mask_loop k f (Z.land mask (bnot64 (bit index))) (f index s)
  end.
Definition while_mask {S} (f : Z -> S -> S) (mask : Z) (s : S) : S := mask_loop 64 f mask s.

(** The positions of the set bits, in increasing order. *)
Definition bits (mask : Z) : list Z := filter (fun i => Z.testbit mask i = true) (seqZ 0 64).

Lemma elem_of_bits mask i : i ∈ bits mask <-> 0 <= i < 64 /\ Z.testbit mask i = true.
Proof. unfold bits. rewrite list_elem_of_filter, elem_of_seqZ. intuition lia. Qed.

Lemma land_1_testbit m : (Z.land m 1 =? 0) = negb (Z.testbit m 0).
Proof.
  change 1 with (Z.ones 1). rewrite Z.land_ones, Z.bit0_odd by lia.
  change (2 ^ 1) with 2. rewrite Zmod_odd. by destruct (Z.odd m).
Qed.

Lemma lowest_bit_loop_spec k fuel m n :
  0 <= k < Z.of_nat fuel -> Z.testbit m k = true -> (forall j, 0 <= j < k -> Z.testbit m j = false) ->
  lowest_bit_loop fuel m n = n + k.
Proof.
  revert k m n. induction fuel as [|fuel IH]; intros k m n Hk Ht Hlow; [lia|]. cbn.
  rewrite land_1_testbit. destruct (Z.testbit m 0) eqn:E0; cbn [negb].
  - destruct (Z.eq_dec k 0) as [->|]; [lia|]. rewrite (Hlow 0) in E0 by lia. done.
  - assert (k <> 0) by (intros ->; congruence).
    rewrite (IH (k - 1)); [lia|lia| |].
    + rewrite Z.shiftr_spec by lia. by replace (k - 1 + 1) with k by lia.
    + intros j Hj. rewrite Z.shiftr_spec by lia. apply Hlow. lia.
Qed.

Lemma filter_ext_in {A} (P Q : A -> Prop) `{!forall x, Decision (P x), !forall x, Decision (Q x)} (l : list A) :
  (forall x, x ∈ l -> P x <-> Q x) -> filter P l = filter Q l.
Proof.
  induction l as [|x l IH]; intros Hpq; [done|].
  assert (IH' : filter P l = filter Q l) by (apply IH; intros; apply Hpq; by constructor).
  assert (Hx : P x <-> Q x) by (apply Hpq; constructor).
  destruct (decide (P x)); [rewrite !filter_cons_True by tauto|rewrite !filter_cons_False by tauto];
    by rewrite IH'.
Qed.

(** The filtered range from [k] on. *)
Definition bits_from (k mask : Z) : list Z :=
  filter (fun i => Z.testbit mask i = true) (seqZ k (64 - k)).

Lemma bits_from_clear j k m :
  0 <= k -> j < k -> 0 <= j ->
  bits_from k (Z.land m (bnot64 (bit j))) = bits_from k m.
Proof.
  intros Hk Hj Hj0. unfold bits_from. apply filter_ext_in.
  intros i Hi%elem_of_seqZ. autorewrite with waf_bits.
  destruct (Z.eqb_spec j i); [lia|]. by rewrite andb_true_r.
Qed.

Lemma seqZ_from k : 0 <= k < 64 -> seqZ k (64 - k) = k :: seqZ (k + 1) (64 - (k + 1)).
Proof.
  intros Hk. replace (64 - k) with (Z.succ (64 - (k + 1))) by lia.
  rewrite seqZ_cons by lia. f_equal. f_equal; lia.
Qed.

Lemma bits_from_step k m :
  0 <= k < 64 ->
  bits_from k m = if Z.testbit m k then k :: bits_from (k + 1) m else bits_from (k + 1) m.
Proof.
  intros Hk. unfold bits_from. rewrite (seqZ_from k Hk).
  destruct (Z.testbit m k) eqn:E; [by rewrite filter_cons_True|by rewrite filter_cons_False by congruence].
Qed.

Lemma bits_from_nil k m :
  is_u64 m -> 0 <= k -> bits_from k m = [] -> (forall j, 0 <= j < k -> Z.testbit m j = false) -> m = 0.
Proof.
  intros Hm Hk He Hlow. apply mask_ext; [done|apply zero_u64|]. intros i Hi. rewrite Z.testbit_0_l.
  destruct (Z.lt_ge_cases i k); [apply Hlow; lia|]. destruct (Z.testbit m i) eqn:E; [|done].
  assert (Hin : i ∈ bits_from k m) by (apply list_elem_of_filter; rewrite elem_of_seqZ; split; [done|lia]).
  rewrite He in Hin. by apply not_elem_of_nil in Hin.
Qed.

(** The first element of the range is the lowest bit. *)
Lemma bits_from_head k m i l :
  0 <= k <= 64 -> (forall j, 0 <= j < k -> Z.testbit m j = false) -> bits_from k m = i :: l ->
  k <= i < 64 /\ Z.testbit m i = true /\ (forall j, 0 <= j < i -> Z.testbit m j = false) /\
  l = bits_from (i + 1) m.
Proof.
  intros [Hk0 Hk]. remember (Z.to_nat (64 - k)) as n eqn:En. revert k Hk0 Hk En.
  induction n as [|n IH]; intros k Hk0 Hk En Hlow.
  { unfold bits_from. by replace (64 - k) with 0 by lia. }
  rewrite bits_from_step by lia. destruct (Z.testbit m k) eqn:E.
  - intros [= <- <-]. split_and!; [lia|lia|done|done|done].
  - intros H. edestruct (IH (k + 1)) as (? & ? & ? & ?); try done; try lia; [|split_and!; try done; lia].
    intros j Hj. destruct (Z.eq_dec j k) as [->|]; [done|]. apply Hlow. lia.
Qed.

Lemma mask_loop_bits {S} (f : Z -> S -> S) n k m s :
  is_u64 m -> 0 <= k <= 64 -> 64 - k <= Z.of_nat n -> (forall j, 0 <= j < k -> Z.testbit m j = false) ->
  mask_loop n f m s = foldl (fun s i => f i s) s (bits_from k m).
Proof.
  revert k m s. induction n as [|n IH]; intros k m s Hm Hk Hn Hlow; cbn [mask_loop].
  { unfold bits_from. by replace (64 - k) with 0 by lia. }
  destruct (bits_from k m) as [|i l] eqn:E.
  { rewrite (bits_from_nil k m) by (done || lia). done. }
  destruct (bits_from_head k m i l Hk Hlow E) as (Hi & Hti & Hbelow & ->).
  destruct (Z.eqb_spec m 0) as [->|_]; [by rewrite Z.testbit_0_l in Hti|].
  assert (Hlb : ngx_http_waf_lowest_bit m = i).
  { unfold ngx_http_waf_lowest_bit. rewrite (lowest_bit_loop_spec i); [done|lia|done|done]. }
  rewrite Hlb. cbn [foldl]. rewrite (IH (i + 1)); [by rewrite bits_from_clear by lia|eauto with waf|lia|lia|].
  intros j Hj. autorewrite with waf_bits. destruct (Z.eqb_spec i j) as [->|]; [by rewrite andb_false_r|].
  rewrite Hbelow by lia. done.
Qed.

(** The loop runs its body once per set bit, in increasing order, and ends. *)
Lemma while_mask_bits {S} (f : Z -> S -> S) m s :
  is_u64 m -> while_mask f m s = foldl (fun s i => f i s) s (bits m).
Proof. intros Hm. unfold while_mask. apply (mask_loop_bits f 64 0); [done|lia|lia|lia]. Qed.

Lemma while_mask_inv {S} (P : S -> Prop) (f : Z -> S -> S) m s :
  is_u64 m -> P s -> (forall i s, 0 <= i < 64 -> Z.testbit m i = true -> P s -> P (f i s)) ->
  P (while_mask f m s).
Proof.
  intros Hm Hs Hf. rewrite while_mask_bits by done.
  assert (Hall : forall i, i ∈ bits m -> forall s, P s -> P (f i s))
    by (intros i [Hi Ht]%elem_of_bits s'; by apply Hf).
  revert s Hs. induction (bits m) as [|i l IH]; intros s Hs; cbn; [done|].
  apply IH; [intros; apply Hall; [by constructor|done]|]. apply Hall; [by constructor|done].
Qed.

End Masks.
