(* ===== verification/Slots.v ===== *)
(** The wait-slot table of a worker (runtime/ngx_http_waf_slot.c): the free
    list threaded through the slots, request ids built from a slot's
    generation and index, their textual form, and the ray (UUID) of a
    request.

    The table and the contexts that own slots form one state, [worker]: a
    context is named by its address and the part of it these functions touch
    is its [link].  [waf_slot_step] lets the operations interleave in any order
    in which the request handler may call them. *)
From stdpp Require Import base list numbers gmap relations.
From S2P Require Import Prelude.
#[local] Open Scope Z_scope.

Definition NGX_HTTP_WAF_SLOT_NIL : Z := 2 ^ 64 - 1.
Definition NGX_HTTP_WAF_SLOT_INDEX_BITS : Z := 24.
Definition NGX_HTTP_WAF_SLOT_INDEX_MASK : Z := 2 ^ 24 - 1.
Definition NGX_HTTP_WAF_SLOT_GEN_BITS : Z := 64 - 24.
Definition NGX_HTTP_WAF_SLOT_GEN_MASK : Z := 2 ^ 40 - 1.
Definition NGX_HTTP_WAF_RID_HEX_LEN : Z := 16.

(** ** Textual request ids *)
Module Rid.

(** The loop [for (i = 15; i >= 0; i--)] stores the low nibble at the end of
    the buffer first, so the digits accumulate in front. *)
Fixpoint hex64_loop (n : nat) (v : Z) (dst : bytes) : bytes :=
  match n with
  | O => dst
  | S k => hex64_loop k (Z.shiftr v 4) (hex_digit (Z.land v 15) :: dst)
  end.

Definition ngx_http_waf_hex64 (v : Z) : bytes := hex64_loop 16 v [].

Definition ngx_http_waf_rid_hex (rid : Z) : bytes := ngx_http_waf_hex64 rid.

(** One step of the parser's loop; [None] is the [NGX_ERROR] return. *)
Definition rid_digit (v c : Z) : option Z :=
  if (48 <=? c) && (c <=? 57) then Some (Z.lor (u64 (Z.shiftl v 4)) (c - 48))
  else if (97 <=? c) && (c <=? 102) then Some (Z.lor (u64 (Z.shiftl v 4)) (c - 97 + 10))
  else None.

Fixpoint rid_parse_loop (s : bytes) (v : Z) : option Z :=
  match s with
  | [] => Some v
  | c :: s' => v' ← rid_digit v c; rid_parse_loop s' v'
  end.

Definition ngx_http_waf_rid_parse (s : bytes) : option Z :=
  if negb (zlen s =? NGX_HTTP_WAF_RID_HEX_LEN) then None
  else rid_parse_loop s 0.

(** *** Lemmas *)

Lemma rid_digit_value v d :
  0 <= v < 2 ^ 60 -> 0 <= d < 16 -> rid_digit v (hex_digit d) = Some (16 * v + d).
Proof.
  intros Hv Hd. unfold rid_digit.
  assert (Hs : u64 (Z.shiftl v 4) = Z.shiftl v 4).
  { apply u64_small. rewrite Z.shiftl_mul_pow2 by lia. unfold is_u64. lia. }
  rewrite Hs.
  assert (Hc : d < 10 /\ hex_digit d = 48 + d \/ 10 <= d /\ hex_digit d = 87 + d).
  { assert (d = 0 \/ d = 1 \/ d = 2 \/ d = 3 \/ d = 4 \/ d = 5 \/ d = 6 \/ d = 7 \/ d = 8 \/
            d = 9 \/ d = 10 \/ d = 11 \/ d = 12 \/ d = 13 \/ d = 14 \/ d = 15) by lia.
    destruct_or!; subst; (by left) || (by right). }
  destruct Hc as [[? ->]|[? ->]].
  - replace ((48 <=? 48 + d) && (48 + d <=? 57)) with true by lia.
    f_equal. replace (48 + d - 48) with d by lia. rewrite lor_shiftl by lia. lia.
  - replace ((48 <=? 87 + d) && (87 + d <=? 57)) with false by lia.
    replace ((97 <=? 87 + d) && (87 + d <=? 102)) with true by lia.
    f_equal. replace (87 + d - 97 + 10) with d by lia. rewrite lor_shiftl by lia. lia.
Qed.

Lemma rid_digit_Some v c v' :
  0 <= v < 2 ^ 60 -> rid_digit v c = Some v' ->
  exists d, 0 <= d < 16 /\ c = hex_digit d /\ v' = 16 * v + d.
Proof.
  intros Hv H.
  assert (Hd : exists d, 0 <= d < 16 /\ c = hex_digit d).
  { unfold rid_digit in H.
    destruct ((48 <=? c) && (c <=? 57)) eqn:E1.
    - exists (c - 48). split; [lia|].
      assert (c = 48 \/ c = 49 \/ c = 50 \/ c = 51 \/ c = 52 \/ c = 53 \/ c = 54 \/ c = 55 \/
              c = 56 \/ c = 57) by lia. destruct_or!; subst; done.
    - destruct ((97 <=? c) && (c <=? 102)) eqn:E2; [|done].
      exists (c - 87). split; [lia|].
      assert (c = 97 \/ c = 98 \/ c = 99 \/ c = 100 \/ c = 101 \/ c = 102) by lia.
      destruct_or!; subst; done. }
  destruct Hd as (d & Hd & ->). exists d. split_and!; try done; try lia.
  rewrite rid_digit_value in H by done. by inversion H.
Qed.

Lemma hex64_loop_app n v dst : hex64_loop n v dst = hex64_loop n v [] ++ dst.
Proof.
  revert v dst. induction n as [|n IH]; intros v dst; [done|].
  cbn. rewrite IH, (IH _ [_]), <- app_assoc. done.
Qed.

Lemma hex64_loop_length n v dst : length (hex64_loop n v dst) = (n + length dst)%nat.
Proof. revert v dst. induction n as [|n IH]; intros; [done|]. cbn. rewrite IH. cbn. lia. Qed.

Lemma rid_parse_loop_app s t v :
  rid_parse_loop (s ++ t) v = (rid_parse_loop s v ≫= rid_parse_loop t).
Proof.
  revert v. induction s as [|c s IH]; intros v; [done|].
  cbn. destruct (rid_digit v c); cbn; [apply IH|done].
Qed.

(** The digits of [n] nibbles read back as those nibbles appended to what was
    read before; [16^n] copies of the prefix must still fit 64 bits. *)
Lemma rid_parse_hex_loop n v p :
  0 <= p -> 0 <= v < 16 ^ Z.of_nat n -> p * 16 ^ Z.of_nat n + v < 2 ^ 64 ->
  rid_parse_loop (hex64_loop n v []) p = Some (p * 16 ^ Z.of_nat n + v).
Proof.
  revert v p. induction n as [|n IH]; intros v p Hp Hv Hb.
  - cbn. f_equal. change (16 ^ Z.of_nat 0) with 1 in *. lia.
  - cbn [hex64_loop]. rewrite hex64_loop_app, rid_parse_loop_app.
    rewrite Nat2Z.inj_succ, Z.pow_succ_r in * by lia.
    change 15 with (Z.ones 4). rewrite Z.land_ones, Z.shiftr_div_pow2 by lia.
    change (2 ^ 4) with 16.
    pose proof (Z.div_mod v 16 ltac:(lia)) as Hdm.
    pose proof (Z.mod_pos_bound v 16 ltac:(lia)).
    assert (0 <= v / 16) by (apply Z.div_pos; lia).
    assert (0 < 16 ^ Z.of_nat n) by (apply Z.pow_pos_nonneg; lia).
    rewrite IH by (try split; nia). cbn. rewrite rid_digit_value by (try split; nia).
    cbn. f_equal. nia.
Qed.

Lemma rid_parse_loop_inv n s p v :
  length s = n -> 0 <= p -> p * 16 ^ Z.of_nat n + (16 ^ Z.of_nat n - 1) < 2 ^ 64 ->
  rid_parse_loop s p = Some v ->
  exists w, 0 <= w < 16 ^ Z.of_nat n /\ v = p * 16 ^ Z.of_nat n + w /\
            s = hex64_loop n w [].
Proof.
  revert s p v. induction n as [|n IH]; intros s p v Hl Hp Hb H.
  - destruct s; [|done]. exists 0. change (16 ^ Z.of_nat 0) with 1. cbn in *.
    simplify_eq. split_and!; (lia || done).
  - destruct s as [|x s0] using rev_ind; [done|]. clear IHs0.
    rewrite length_app in Hl. cbn in Hl.
    rewrite Nat2Z.inj_succ, Z.pow_succ_r in * by lia.
    assert (0 < 16 ^ Z.of_nat n) by (apply Z.pow_pos_nonneg; lia).
    rewrite rid_parse_loop_app in H.
    destruct (rid_parse_loop s0 p) as [u|] eqn:Eu; [|done]. cbn in H.
    apply IH in Eu as (w & Hw & -> & ->); [|lia|lia|nia].
    destruct (rid_digit _ x) as [v'|] eqn:Ev; [|done]. cbn in H. simplify_eq.
    apply rid_digit_Some in Ev as (d & Hd & -> & ->); [|nia].
    exists (16 * w + d). split_and!; [nia|nia|nia|].
    cbn [hex64_loop]. rewrite (hex64_loop_app n _ [_]).
    change 15 with (Z.ones 4). rewrite Z.land_ones, Z.shiftr_div_pow2 by lia.
    change (2 ^ 4) with 16.
    rewrite (Z.mul_comm 16 w), Z.div_add_l, (Z.div_small d) by lia.
    replace ((w * 16 + d) mod 16) with d
      by (rewrite Z.add_comm, Z.mod_add, Z.mod_small; lia).
    by rewrite Z.add_0_r.
Qed.

Lemma rid_hex_parse rid :
  is_u64 rid -> ngx_http_waf_rid_parse (ngx_http_waf_rid_hex rid) = Some rid.
Proof.
  unfold ngx_http_waf_rid_parse, ngx_http_waf_rid_hex, ngx_http_waf_hex64,
    NGX_HTTP_WAF_RID_HEX_LEN, is_u64.
  intros H. unfold zlen. rewrite hex64_loop_length. cbn [length Nat.add negb Z.eqb].
  rewrite (rid_parse_hex_loop 16); cbn; (lia || done).
Qed.

(** Every 64-bit request id survives the trip through its 16-digit
    textual form, and the parser accepts nothing else: a text parses only to
    the id whose printed form it is. *)
Theorem rid_hex_parse_roundtrip :
  (forall rid, is_u64 rid -> ngx_http_waf_rid_parse (ngx_http_waf_rid_hex rid) = Some rid) /\
  (forall s rid, ngx_http_waf_rid_parse s = Some rid ->
                 is_u64 rid /\ s = ngx_http_waf_rid_hex rid).
Proof.
  split; [apply rid_hex_parse|].
  unfold ngx_http_waf_rid_parse, ngx_http_waf_rid_hex, ngx_http_waf_hex64,
    NGX_HTTP_WAF_RID_HEX_LEN, is_u64.
  intros s rid. destruct (Z.eqb_spec (zlen s) 16) as [Hl|]; [|done]. cbn [negb].
  intros H. apply (rid_parse_loop_inv 16) in H as (w & Hw & -> & ->);
    [|unfold zlen in Hl; lia|lia|cbn; lia].
  cbn in Hw |- *. split; [lia|done].
Qed.

End Rid.

(** ** The slot table *)
Module Table.
Import Rid.

(** [ngx_http_waf_slot_t]; the owner pointer [ctx] is the address of the
    context, [None] being [NULL]. *)
Record slot := mkSlot {
  gen : Z;
  next_free : Z;
  sctx : option Z;
  swave : Z;
  got : Z;
  denied : Z;
  awaited : Z;
  published : Z
}.
#[export] Instance eta_slot : Eta slot := fun r =>
  mkSlot r.(gen) r.(next_free) r.(sctx) r.(swave) r.(got) r.(denied) r.(awaited) r.(published).

(** [ngx_http_waf_slot_table_t]. *)
Record slot_table := mkTable {
  slots : list slot;
  nslots : Z;
  free_head : Z;
  seq : Z
}.
#[export] Instance eta_slot_table : Eta slot_table := fun r =>
  mkTable r.(slots) r.(nslots) r.(free_head) r.(seq).

(** The fields of [ngx_http_waf_ctx_t] that the table reads and writes; the
    last one is [deadline.timer_set]. *)
Record link := mkLink {
  c_slot : Z;
  c_rid : Z;
  c_rid_hex : bytes;
  c_timer_set : bool
}.
#[export] Instance eta_link : Eta link := fun r =>
  mkLink r.(c_slot) r.(c_rid) r.(c_rid_hex) r.(c_timer_set).

(** A zeroed slot ([ngx_pcalloc]) and a fresh context. *)
Definition slot0 : slot := mkSlot 0 0 None 0 0 0 0 0.
Definition link0 : link := mkLink NGX_HTTP_WAF_SLOT_NIL 0 (replicate 16 45) false.

Record worker := mkWorker { tbl : slot_table; links : gmap Z link }.
#[export] Instance eta_worker : Eta worker := fun r => mkWorker r.(tbl) r.(links).

Definition the_link (w : worker) (c : Z) : link := default link0 (w.(links) !! c).
Definition set_link (c : Z) (f : link -> link) (w : worker) : worker :=
  w <| links ::= insert c (f (the_link w c)) |>.
Definition the_slot (w : worker) (i : Z) : slot := aget slot0 w.(tbl).(slots) i.
Definition set_slot (i : Z) (f : slot -> slot) (w : worker) : worker :=
  w <| tbl ::= fun t => t <| slots ::= fun l => aset l i (f (aget slot0 l i)) |> |>.

(** [rnd] and [pid] are [ngx_random()] and [ngx_pid], [mem] the outcome of
    [ngx_pcalloc] and [seeded] the outcome of [ngx_http_waf_ray_seed]. *)
Definition ngx_http_waf_slot_table_init (n rnd pid : Z) (mem seeded : bool)
    : ngx_rc * option slot_table :=
  if (n =? 0) || (NGX_HTTP_WAF_SLOT_INDEX_MASK <? n) then (NGX_ERROR, None)
  else if negb mem then (NGX_ERROR, None)
  else
    let l := map (fun i => slot0 <| gen := 0 |> <| next_free := Z.of_nat i + 1 |>)
                 (List.seq 0 (Z.to_nat n)) in
    let l := aset l (n - 1) ((aget slot0 l (n - 1)) <| next_free := NGX_HTTP_WAF_SLOT_NIL |>) in
    let t := mkTable l n 0
               (Z.land (Z.lxor (u64 (Z.shiftl (u64 rnd) 32)) (u64 pid))
                       NGX_HTTP_WAF_SLOT_GEN_MASK) in
    if negb seeded then (NGX_ERROR, Some t) else (NGX_OK, Some t).

(** The do-while loop; its second turn cannot read zero again, so two turns
    of fuel are enough ([next_gen_spec]). *)
Fixpoint next_gen_loop (fuel : nat) (s : Z) : Z :=
  match fuel with
  | O => s
  | S k =>
      let s' := Z.land (u64 (s + 1)) NGX_HTTP_WAF_SLOT_GEN_MASK in
      if s' =? 0 then next_gen_loop k s' else s'
  end.

Definition ngx_http_waf_next_gen (t : slot_table) : Z * slot_table :=
  let g := next_gen_loop 2 t.(seq) in (g, t <| seq := g |>).

Definition ngx_http_waf_slot_release (index : Z) (w : worker) : worker :=
  let s := the_slot w index in
  if s.(gen) =? 0 then w
  else
    let w1 := match s.(sctx) with
              | Some c => if (the_link w c).(c_slot) =? index
                          then set_link c (fun l => l <| c_slot := NGX_HTTP_WAF_SLOT_NIL |>) w
                          else w
              | None => w
              end in
    let w2 := set_slot index (fun s => s <| gen := 0 |> <| sctx := None |>
                                         <| next_free := w.(tbl).(free_head) |>) w1 in
    w2 <| tbl ::= fun t => t <| free_head := index |> |>.

(** [wave] is [ctx->ph->wave], [now] is [ngx_current_msec] and [cln] the
    outcome of [ngx_pool_cleanup_add]. *)
Definition ngx_http_waf_slot_acquire (c wave now : Z) (cln : bool) (w : worker)
    : option Z * worker :=
  if w.(tbl).(free_head) =? NGX_HTTP_WAF_SLOT_NIL then (None, w)
  else
    let index := w.(tbl).(free_head) in
    let w := w <| tbl ::= fun t => t <| free_head := (aget slot0 t.(slots) index).(next_free) |> |> in
    let '(g, t) := ngx_http_waf_next_gen w.(tbl) in
    let w := w <| tbl := t |> in
    let w := set_slot index (fun s => s <| next_free := NGX_HTTP_WAF_SLOT_NIL |>
               <| gen := g |> <| sctx := Some c |> <| swave := wave |> <| got := 0 |>
               <| denied := 0 |> <| awaited := 0 |> <| published := now |>) w in
    let rid := Z.lor (u64 (Z.shiftl g NGX_HTTP_WAF_SLOT_INDEX_BITS)) index in
    let w := set_link c (fun l => l <| c_slot := index |> <| c_rid := rid |>
               <| c_rid_hex := ngx_http_waf_rid_hex rid |>) w in
    if negb cln then (None, ngx_http_waf_slot_release index w)
    else (Some index, w).

(** The result is the index of the slot, [None] for [NULL]. *)
Definition ngx_http_waf_slot_lookup (rid : Z) (w : worker) : option Z :=
  let index := Z.land rid NGX_HTTP_WAF_SLOT_INDEX_MASK in
  if w.(tbl).(nslots) <=? index then None
  else
    let s := the_slot w index in
    if negb (s.(gen) =? Z.shiftr rid NGX_HTTP_WAF_SLOT_INDEX_BITS) then None
    else match s.(sctx) with None => None | Some _ => Some index end.

Definition ngx_http_waf_slot_detach (c : Z) (w : worker) : worker :=
  let w := if (the_link w c).(c_timer_set)
           then set_link c (fun l => l <| c_timer_set := false |>) w else w in
  let l := the_link w c in
  if w.(tbl).(nslots) <=? l.(c_slot) then w
  else
    let w := if (the_slot w l.(c_slot)).(gen)
                =? Z.shiftr l.(c_rid) NGX_HTTP_WAF_SLOT_INDEX_BITS
             then ngx_http_waf_slot_release l.(c_slot) w else w in
    set_link c (fun l => l <| c_slot := NGX_HTTP_WAF_SLOT_NIL |>) w.

(** *** The generation counter *)

Definition gen_succ (s : Z) : Z := if s =? 2 ^ 40 - 1 then 1 else s + 1.
Definition is_gen (s : Z) : Prop := 0 <= s < 2 ^ 40.

Lemma next_gen_spec s : is_gen s -> next_gen_loop 2 s = gen_succ s.
Proof.
  unfold is_gen, gen_succ. intros Hs. cbn [next_gen_loop].
  unfold NGX_HTTP_WAF_SLOT_GEN_MASK. change (2 ^ 40 - 1) with (Z.ones 40).
  rewrite u64_small by (unfold is_u64; lia).
  rewrite !Z.land_ones by lia. change (Z.ones 40) with (2 ^ 40 - 1).
  destruct (Z.eqb_spec s (2 ^ 40 - 1)) as [->|Hne]; [done|].
  rewrite Z.mod_small by lia. by destruct (Z.eqb_spec (s + 1) 0); [lia|].
Qed.

Lemma gen_succ_range s : is_gen s -> 1 <= gen_succ s < 2 ^ 40.
Proof. unfold is_gen, gen_succ. destruct (Z.eqb_spec s (2 ^ 40 - 1)); lia. Qed.

(** How many steps of the counter lead from [s] to the generation [g]. *)
Definition gen_dist (s g : Z) : Z := if s <? g then g - s else g - s + (2 ^ 40 - 1).

Lemma gen_dist_succ s g :
  is_gen s -> 1 <= g < 2 ^ 40 -> 1 < gen_dist s g ->
  gen_dist (gen_succ s) g = gen_dist s g - 1.
Proof.
  unfold is_gen, gen_dist, gen_succ. intros.
  repeat case_match; lia.
Qed.

Lemma gen_dist_one s g :
  is_gen s -> 1 <= g < 2 ^ 40 -> gen_succ s = g -> gen_dist s g = 1.
Proof. unfold is_gen, gen_dist, gen_succ. intros. repeat case_match; lia. Qed.

(** *** The invariant *)

Definition rid_of (g i : Z) : Z := Z.lor (u64 (Z.shiftl g NGX_HTTP_WAF_SLOT_INDEX_BITS)) i.

(** [fl] is the list of indices threaded through [next_free] from [head]. *)
Fixpoint chain (l : list slot) (head : Z) (fl : list Z) : Prop :=
  match fl with
  | [] => head = NGX_HTTP_WAF_SLOT_NIL
  | i :: fl' => head = i /\ 0 <= i < zlen l /\ chain l (aget slot0 l i).(next_free) fl'
  end.

(** The free list holds exactly the slots of generation 0, without
    repetition; a busy slot and its owner point at each other and the owner's
    request id names the slot and its generation. *)
Record wf (w : worker) : Prop := {
  wf_n : w.(tbl).(nslots) = zlen w.(tbl).(slots);
  wf_bound : 0 < w.(tbl).(nslots) <= NGX_HTTP_WAF_SLOT_INDEX_MASK;
  wf_seq : is_gen w.(tbl).(seq);
  wf_free : exists fl, NoDup fl /\ chain w.(tbl).(slots) w.(tbl).(free_head) fl /\
      forall i, 0 <= i < w.(tbl).(nslots) -> (i ∈ fl <-> (the_slot w i).(gen) = 0);
  wf_gen : forall i, 0 <= i < w.(tbl).(nslots) -> is_gen (the_slot w i).(gen);
  wf_busy : forall i, 0 <= i < w.(tbl).(nslots) -> (the_slot w i).(gen) <> 0 ->
      exists c, (the_slot w i).(sctx) = Some c;
  wf_owner : forall i c, 0 <= i < w.(tbl).(nslots) -> (the_slot w i).(sctx) = Some c ->
      (the_slot w i).(gen) <> 0 /\ (the_link w c).(c_slot) = i /\
      (the_link w c).(c_rid) = rid_of (the_slot w i).(gen) i;
  wf_link : forall c, (the_link w c).(c_slot) = NGX_HTTP_WAF_SLOT_NIL \/
      (0 <= (the_link w c).(c_slot) < w.(tbl).(nslots) /\
       (the_slot w (the_link w c).(c_slot)).(sctx) = Some c)
}.

Lemma chain_aset l i x h fl :
  i ∉ fl -> chain l h fl -> chain (aset l i x) h fl.
Proof.
  revert h. induction fl as [|j fl IH]; intros h Hi; cbn; [done|].
  intros (-> & Hj & Hc). rewrite zlen_aset. apply not_elem_of_cons in Hi as [Hij Hi].
  rewrite aget_aset_ne by done. auto.
Qed.

Lemma the_slot_set_slot_eq w i f :
  0 <= i < zlen w.(tbl).(slots) -> the_slot (set_slot i f w) i = f (the_slot w i).
Proof. intros H. unfold the_slot, set_slot. cbn. by rewrite aget_aset_eq. Qed.
Lemma the_slot_set_slot_ne w i j f : i <> j -> the_slot (set_slot i f w) j = the_slot w j.
Proof. intros H. unfold the_slot, set_slot. cbn. by rewrite aget_aset_ne. Qed.
Lemma the_link_set_link_eq w c f : the_link (set_link c f w) c = f (the_link w c).
Proof. unfold the_link at 1, set_link. cbn. by rewrite lookup_insert_eq. Qed.
Lemma the_link_set_link_ne w c d f : c <> d -> the_link (set_link c f w) d = the_link w d.
Proof. intros. unfold the_link, set_link. cbn. by rewrite lookup_insert_ne. Qed.

Lemma nil_not_index w i : wf w -> 0 <= i < w.(tbl).(nslots) -> i <> NGX_HTTP_WAF_SLOT_NIL.
Proof.
  intros [] Hi. unfold NGX_HTTP_WAF_SLOT_INDEX_MASK, NGX_HTTP_WAF_SLOT_NIL in *. lia.
Qed.

(** Packing and unpacking of a request id. *)
Lemma rid_of_value g i :
  is_gen g -> 0 <= i <= NGX_HTTP_WAF_SLOT_INDEX_MASK -> rid_of g i = g * 2 ^ 24 + i.
Proof.
  unfold is_gen, rid_of, NGX_HTTP_WAF_SLOT_INDEX_MASK, NGX_HTTP_WAF_SLOT_INDEX_BITS.
  intros Hg Hi. rewrite u64_small; [apply lor_shiftl; lia|].
  rewrite Z.shiftl_mul_pow2 by lia. unfold is_u64. lia.
Qed.

Lemma rid_of_index g i :
  is_gen g -> 0 <= i <= NGX_HTTP_WAF_SLOT_INDEX_MASK ->
  Z.land (rid_of g i) NGX_HTTP_WAF_SLOT_INDEX_MASK = i.
Proof.
  intros Hg Hi. rewrite rid_of_value by done.
  unfold NGX_HTTP_WAF_SLOT_INDEX_MASK in *. change (2 ^ 24 - 1) with (Z.ones 24).
  rewrite Z.land_ones, Z.add_comm, Z.mod_add, Z.mod_small by lia. done.
Qed.

Lemma rid_of_gen g i :
  is_gen g -> 0 <= i <= NGX_HTTP_WAF_SLOT_INDEX_MASK ->
  Z.shiftr (rid_of g i) NGX_HTTP_WAF_SLOT_INDEX_BITS = g.
Proof.
  intros Hg Hi. rewrite rid_of_value by done.
  unfold NGX_HTTP_WAF_SLOT_INDEX_MASK, NGX_HTTP_WAF_SLOT_INDEX_BITS in *.
  rewrite Z.shiftr_div_pow2, Z.div_add_l, Z.div_small by lia. lia.
Qed.

Lemma lookup_rid_of w g i :
  wf w -> is_gen g -> 0 <= i < w.(tbl).(nslots) ->
  ngx_http_waf_slot_lookup (rid_of g i) w =
    if (the_slot w i).(gen) =? g
    then match (the_slot w i).(sctx) with None => None | Some _ => Some i end else None.
Proof.
  intros Hw Hg Hi. pose proof (wf_bound _ Hw).
  unfold ngx_http_waf_slot_lookup. rewrite rid_of_index, rid_of_gen by (done || lia).
  replace (nslots (tbl w) <=? i) with false by lia.
  by destruct (gen (the_slot w i) =? g).
Qed.

(** *** Preservation *)

(** [w'] differs from [w] at most in slot [i] and in context [c]. *)
Record frame (w w' : worker) (i c : Z) : Prop := {
  fr_n : w'.(tbl).(nslots) = w.(tbl).(nslots);
  fr_len : zlen w'.(tbl).(slots) = zlen w.(tbl).(slots);
  fr_slot : forall j, j <> i -> the_slot w' j = the_slot w j;
  fr_link : forall d, d <> c -> the_link w' d = the_link w d
}.

(** Slot [i] and context [c] agree: both released, or bound to each other. *)
Definition bound_pair (w : worker) (i c : Z) : Prop :=
  ((the_slot w i).(sctx) = None /\ (the_slot w i).(gen) = 0 /\
   (the_link w c).(c_slot) = NGX_HTTP_WAF_SLOT_NIL) \/
  ((the_slot w i).(sctx) = Some c /\ 1 <= (the_slot w i).(gen) < 2 ^ 40 /\
   (the_link w c).(c_slot) = i /\ (the_link w c).(c_rid) = rid_of (the_slot w i).(gen) i).

Definition free_ok (w : worker) : Prop :=
  exists fl, NoDup fl /\ chain w.(tbl).(slots) w.(tbl).(free_head) fl /\
    forall i, 0 <= i < w.(tbl).(nslots) -> (i ∈ fl <-> (the_slot w i).(gen) = 0).

Lemma wf_bound_pair w i c :
  wf w -> 0 <= i < w.(tbl).(nslots) -> (the_slot w i).(sctx) = Some c -> bound_pair w i c.
Proof.
  intros Hw Hi Hc. right. destruct (wf_owner _ Hw i c Hi Hc) as (? & ? & ?).
  pose proof (wf_gen _ Hw i Hi) as Hg. unfold is_gen in Hg. split_and!; (done || lia).
Qed.

Lemma wf_frame w w' i c :
  wf w -> 0 <= i < w.(tbl).(nslots) -> frame w w' i c ->
  bound_pair w i c -> bound_pair w' i c -> is_gen w'.(tbl).(seq) -> free_ok w' -> wf w'.
Proof.
  intros Hw Hi [Hn Hlen Hs Hl] Hb Hb' Hseq Hfree.
  pose proof (fun j => nil_not_index _ j Hw) as Hnil.
  destruct Hw. split; try done; try congruence; rewrite Hn.
  - intros j Hj. destruct (decide (j = i)) as [->|]; [|rewrite Hs; auto].
    unfold is_gen. destruct Hb' as [(_ & ? & _)|(_ & ? & _)]; lia.
  - intros j Hj. destruct (decide (j = i)) as [->|]; [|rewrite Hs; auto].
    destruct Hb' as [(_ & ? & _)|(? & _)]; [done|eauto].
  - intros j d Hj Hd. destruct (decide (j = i)) as [->|].
    + destruct Hb' as [(? & _)|(Hd' & ? & ? & ?)]; [congruence|].
      rewrite Hd in Hd'. simplify_eq. split_and!; (done || lia).
    + rewrite Hs in Hd |- * by done. destruct (wf_owner0 j d Hj Hd) as (? & ? & ?).
      rewrite Hl; [done|]. intros ->.
      destruct Hb as [(_ & _ & ?)|(_ & _ & ? & _)]; [|congruence].
      apply (Hnil j); congruence.
  - intros d. destruct (decide (d = c)) as [->|].
    + destruct Hb' as [(_ & _ & ?)|(? & _ & He & _)]; [by left|right].
      rewrite He. done.
    + rewrite Hl by done. destruct (wf_link0 d) as [?|[? Hd]]; [by left|right].
      split; [done|]. rewrite Hs; [done|]. intros He. rewrite He in Hd.
      destruct Hb as [(? & _)|(? & _)]; congruence.
Qed.

Lemma release_frame w i c :
  (the_slot w i).(gen) <> 0 -> (the_slot w i).(sctx) = Some c ->
  (the_link w c).(c_slot) = i -> 0 <= i < zlen w.(tbl).(slots) ->
  let w' := ngx_http_waf_slot_release i w in
  frame w w' i c /\ bound_pair w' i c /\ w'.(tbl).(seq) = w.(tbl).(seq) /\
  (the_slot w' i).(gen) = 0 /\ w'.(tbl).(free_head) = i /\ (the_slot w' i).(next_free) = w.(tbl).(free_head) /\
  w'.(tbl).(slots) = aset w.(tbl).(slots) i (the_slot w' i).
Proof.
  intros Hg Hc Hl Hi w'. subst w'. unfold ngx_http_waf_slot_release.
  destruct (Z.eqb_spec (gen (the_slot w i)) 0); [done|].
  rewrite Hc, Hl, Z.eqb_refl. unfold bound_pair.
  set (w1 := set_link c _ w). set (f := fun s : slot => _). set (w2 := _ <| tbl ::= _ |>).
  assert (He : the_slot w2 i = f (the_slot w i)) by (apply (the_slot_set_slot_eq w1); done).
  assert (Hc' : the_link w2 c = (the_link w c) <| c_slot := NGX_HTTP_WAF_SLOT_NIL |>)
    by (apply (the_link_set_link_eq w)).
  rewrite He, Hc'. split_and!; try done; [|by left].
  split; cbn -[the_slot the_link]; try done; [apply zlen_aset|..].
  - intros j Hj. apply (the_slot_set_slot_ne w1); done.
  - intros d Hd. apply (the_link_set_link_ne w); done.
Qed.

Lemma release_wf w i :
  wf w -> 0 <= i < w.(tbl).(nslots) -> wf (ngx_http_waf_slot_release i w).
Proof.
  intros Hw Hi. destruct (decide (gen (the_slot w i) = 0)) as [He|Hg].
  { unfold ngx_http_waf_slot_release. by rewrite He. }
  destruct (wf_busy _ Hw i Hi Hg) as [c Hc].
  destruct (wf_owner _ Hw i c Hi Hc) as (_ & Hl & _).
  destruct (release_frame w i c Hg Hc Hl) as (Hf & Hb & Hseq & H0 & Hh & Hnf & Hsl);
    [by rewrite <- (wf_n _ Hw)|].
  apply (wf_frame w _ i c); try done; [by apply wf_bound_pair|by rewrite Hseq; apply wf_seq|].
  destruct (wf_free _ Hw) as (fl & Hnd & Hch & Hfl).
  assert (Hni : i ∉ fl) by (rewrite Hfl; done).
  exists (i :: fl). split_and!; [by constructor| |].
  - cbn. rewrite (fr_len _ _ _ _ Hf), <- (wf_n _ Hw). split_and!; try lia.
    change (aget slot0 (slots (tbl (ngx_http_waf_slot_release i w))) i)
      with (the_slot (ngx_http_waf_slot_release i w) i).
    rewrite Hnf, Hsl. by apply chain_aset.
  - rewrite (fr_n _ _ _ _ Hf). intros j Hj. rewrite elem_of_cons.
    destruct (decide (j = i)) as [->|Hne]; [tauto|].
    rewrite (fr_slot _ _ _ _ Hf) by done. rewrite <- Hfl by done. tauto.
Qed.

(** The state left by a successful acquisition of the head of the free list. *)
Lemma acquire_frame c wave now w :
  wf w -> w.(tbl).(free_head) <> NGX_HTTP_WAF_SLOT_NIL ->
  (the_link w c).(c_slot) = NGX_HTTP_WAF_SLOT_NIL ->
  let i := w.(tbl).(free_head) in
  let w' := snd (ngx_http_waf_slot_acquire c wave now true w) in
  0 <= i < w.(tbl).(nslots) /\ (the_slot w i).(gen) = 0 /\
  frame w w' i c /\ bound_pair w i c /\
  w'.(tbl).(seq) = gen_succ w.(tbl).(seq) /\
  w'.(tbl).(free_head) = (the_slot w i).(next_free) /\
  w'.(tbl).(slots) = aset w.(tbl).(slots) i (the_slot w' i) /\
  the_slot w' i = mkSlot (gen_succ w.(tbl).(seq)) NGX_HTTP_WAF_SLOT_NIL (Some c) wave 0 0 0 now /\
  the_link w' c = mkLink i (rid_of (gen_succ w.(tbl).(seq)) i)
    (ngx_http_waf_rid_hex (rid_of (gen_succ w.(tbl).(seq)) i)) (the_link w c).(c_timer_set).
Proof.
  intros Hw Hh Hl i w'.
  assert (Hi : 0 <= i < nslots (tbl w) /\ gen (the_slot w i) = 0).
  { destruct (wf_free _ Hw) as ([|j fl] & _ & Hch & Hfl); cbn in Hch; [done|].
    destruct Hch as (<- & Hr & _). rewrite <- (wf_n _ Hw) in Hr. subst i.
    split; [done|]. apply Hfl; [done|]. left. }
  destruct Hi as [Hi Hg]. assert (Hlen : 0 <= i < zlen (slots (tbl w))) by (by rewrite <- (wf_n _ Hw)).
  subst w'. unfold ngx_http_waf_slot_acquire.
  rewrite (proj2 (Z.eqb_neq _ _) Hh). cbn [negb snd]. unfold ngx_http_waf_next_gen.
  cbn -[next_gen_loop set_link set_slot the_slot the_link ngx_http_waf_rid_hex].
  rewrite next_gen_spec by (by apply wf_seq). fold i.
  match goal with |- context [set_slot i _ ?x] => set (w1 := x) end.
  set (f := fun s : slot => _). set (g := fun l : link => _).
  change (slots (tbl (set_link c g (set_slot i f w1))))
    with (aset (slots (tbl w)) i (f (the_slot w i))).
  assert (He : the_slot (set_link c g (set_slot i f w1)) i = f (the_slot w i))
    by (apply (the_slot_set_slot_eq w1); done).
  assert (Hc' : the_link (set_link c g (set_slot i f w1)) c = g (the_link w c))
    by (apply (the_link_set_link_eq (set_slot i f w1))).
  rewrite He, Hc'. split_and!; try done; try apply Hi.
  - split; try done; [apply zlen_aset|..].
    + intros j Hj. apply (the_slot_set_slot_ne w1); done.
    + intros d Hd. apply (the_link_set_link_ne (set_slot i f w1)); done.
  - left. split_and!; try done. destruct (sctx (the_slot w i)) as [d|] eqn:Ed; [|done].
    exfalso. by destruct (wf_owner _ Hw i d Hi Ed) as (? & _).
Qed.

Lemma acquire_true_wf c wave now w :
  wf w -> (the_link w c).(c_slot) = NGX_HTTP_WAF_SLOT_NIL ->
  wf (snd (ngx_http_waf_slot_acquire c wave now true w)).
Proof.
  intros Hw Hl. destruct (decide (free_head (tbl w) = NGX_HTTP_WAF_SLOT_NIL)) as [He|Hh].
  { unfold ngx_http_waf_slot_acquire. by rewrite He. }
  destruct (acquire_frame c wave now w Hw Hh Hl)
    as (Hi & Hg & Hf & Hb & Hseq & Hfh & Hsl & Hs & Hlk).
  pose proof (gen_succ_range _ (wf_seq _ Hw)) as Hr.
  apply (wf_frame w _ (free_head (tbl w)) c); try done.
  - right. rewrite Hs, Hlk. done.
  - rewrite Hseq. unfold is_gen. lia.
  - destruct (wf_free _ Hw) as ([|j fl] & Hnd & Hch & Hfl); cbn in Hch; [done|].
    destruct Hch as (Hj & Hjr & Hch). apply NoDup_cons in Hnd as [Hni Hnd]. subst j.
    exists fl. split_and!; [done| |].
    + rewrite Hfh, Hsl. by apply chain_aset.
    + rewrite (fr_n _ _ _ _ Hf). intros j Hj.
      destruct (decide (j = free_head (tbl w))) as [->|Hne].
      * rewrite Hs. cbn. split; [done|lia].
      * rewrite (fr_slot _ _ _ _ Hf) by done. rewrite <- Hfl by done.
        rewrite elem_of_cons. tauto.
Qed.

Lemma acquire_false c wave now w :
  w.(tbl).(free_head) <> NGX_HTTP_WAF_SLOT_NIL ->
  ngx_http_waf_slot_acquire c wave now false w =
  (None, ngx_http_waf_slot_release w.(tbl).(free_head)
           (snd (ngx_http_waf_slot_acquire c wave now true w))).
Proof. intros Hh. unfold ngx_http_waf_slot_acquire. by rewrite (proj2 (Z.eqb_neq _ _) Hh). Qed.

Lemma acquire_wf c wave now cln w :
  wf w -> (the_link w c).(c_slot) = NGX_HTTP_WAF_SLOT_NIL ->
  wf (snd (ngx_http_waf_slot_acquire c wave now cln w)).
Proof.
  intros Hw Hl. destruct cln; [by apply acquire_true_wf|].
  destruct (decide (free_head (tbl w) = NGX_HTTP_WAF_SLOT_NIL)) as [He|Hh].
  { unfold ngx_http_waf_slot_acquire. by rewrite He. }
  rewrite acquire_false by done. apply release_wf; [by apply acquire_true_wf|].
  destruct (acquire_frame c wave now w Hw Hh Hl) as (Hi & _ & [Hn _ _ _] & _).
  by rewrite Hn.
Qed.

(** Two workers that agree on everything the invariant reads. *)
Lemma wf_same w w' :
  wf w -> w'.(tbl).(nslots) = w.(tbl).(nslots) ->
  zlen w'.(tbl).(slots) = zlen w.(tbl).(slots) ->
  w'.(tbl).(seq) = w.(tbl).(seq) -> w'.(tbl).(free_head) = w.(tbl).(free_head) ->
  (forall i, (the_slot w' i).(gen) = (the_slot w i).(gen) /\
             (the_slot w' i).(sctx) = (the_slot w i).(sctx) /\
             (the_slot w' i).(next_free) = (the_slot w i).(next_free)) ->
  (forall c, (the_link w' c).(c_slot) = (the_link w c).(c_slot) /\
             (the_link w' c).(c_rid) = (the_link w c).(c_rid)) -> wf w'.
Proof.
  intros [] Hn Hlen Hseq Hfh Hs Hl. split; rewrite ?Hn, ?Hlen, ?Hseq; try done.
  - destruct wf_free0 as (fl & Hnd & Hch & Hfl). exists fl. split_and!; [done| |].
    + rewrite Hfh. clear -Hch Hlen Hs. revert Hch. generalize (free_head (tbl w)).
      induction fl as [|j fl IH]; intros h; cbn; [done|]. intros (-> & ? & Hc).
      rewrite Hlen. split_and!; try lia.
      change (aget slot0 (slots (tbl w')) j) with (the_slot w' j).
      destruct (Hs j) as (_ & _ & ->). by apply IH.
    + intros j Hj. destruct (Hs j) as (-> & _ & _). auto.
  - intros j Hj. destruct (Hs j) as (-> & _ & _). auto.
  - intros j Hj. destruct (Hs j) as (-> & -> & _). auto.
  - intros j d Hj. destruct (Hs j) as (-> & -> & _). destruct (Hl d) as (-> & ->). auto.
  - intros d. destruct (Hl d) as (-> & _). destruct (Hs (c_slot (the_link w d))) as (_ & -> & _).
    auto.
Qed.

Lemma set_link_wf w c f :
  wf w -> (forall l, (f l).(c_slot) = l.(c_slot) /\ (f l).(c_rid) = l.(c_rid)) ->
  wf (set_link c f w).
Proof.
  intros Hw Hf. apply (wf_same w); try done.
  intros d. destruct (decide (c = d)) as [<-|].
  - rewrite the_link_set_link_eq. auto.
  - by rewrite the_link_set_link_ne.
Qed.

Lemma set_slot_wf w i f :
  wf w -> 0 <= i < w.(tbl).(nslots) ->
  (forall s, (f s).(gen) = s.(gen) /\ (f s).(sctx) = s.(sctx) /\
             (f s).(next_free) = s.(next_free)) ->
  wf (set_slot i f w).
Proof.
  intros Hw Hi Hf. apply (wf_same w); try done; [apply zlen_aset|].
  intros j. destruct (decide (i = j)) as [<-|].
  - rewrite the_slot_set_slot_eq by (by rewrite <- (wf_n _ Hw)). auto.
  - by rewrite the_slot_set_slot_ne.
Qed.

Lemma detach_wf w c : wf w -> wf (ngx_http_waf_slot_detach c w).
Proof.
  intros Hw. unfold ngx_http_waf_slot_detach.
  set (w1 := if c_timer_set _ then _ else w).
  assert (Hw1 : wf w1) by (subst w1; case_match; [by apply set_link_wf|done]). clearbody w1.
  clear Hw w. destruct (Z.leb_spec (nslots (tbl w1)) (c_slot (the_link w1 c))); [done|].
  destruct (wf_link _ Hw1 c) as [Hn|[Hi Hc]].
  { pose proof (wf_bound _ Hw1). unfold NGX_HTTP_WAF_SLOT_INDEX_MASK, NGX_HTTP_WAF_SLOT_NIL in *.
    lia. }
  set (i := c_slot (the_link w1 c)) in *.
  destruct (wf_owner _ Hw1 i c Hi Hc) as (Hg & _ & Hr). pose proof (wf_bound _ Hw1).
  rewrite Hr, rid_of_gen, Z.eqb_refl by (try apply wf_gen; (done || lia)).
  destruct (release_frame w1 i c) as (Hf & [(_ & _ & Hb)|(_ & Hb & _)] & _ & Hz & _);
    try done; [by rewrite <- (wf_n _ Hw1)| |lia].
  apply (wf_same (ngx_http_waf_slot_release i w1)); try done; [by apply release_wf|].
  intros d. destruct (decide (c = d)) as [<-|].
  - by rewrite the_link_set_link_eq, Hb.
  - by rewrite the_link_set_link_ne.
Qed.

(** *** The table at start-up *)

Definition free_from (k n : nat) : Z := if decide (k = n) then NGX_HTTP_WAF_SLOT_NIL else Z.of_nat k.

Lemma chain_init l (n k : nat) :
  length l = n -> (k <= n)%nat ->
  (forall j, (j < n)%nat -> (aget slot0 l (Z.of_nat j)).(next_free) = free_from (S j) n) ->
  chain l (free_from k n) (map Z.of_nat (List.seq k (n - k))).
Proof.
  intros Hl Hk Hn. remember (n - k)%nat as m eqn:Em. revert k Hk Em.
  induction m as [|m IH]; intros k Hk Em; cbn; unfold free_from at 1.
  - destruct (decide (k = n)); [done|lia].
  - destruct (decide (k = n)); [lia|]. unfold zlen. rewrite Hl. split_and!; try lia.
    rewrite Hn by lia. apply IH; lia.
Qed.

Lemma slot_table_init_wf n rnd pid mem seeded t :
  0 <= n -> ngx_http_waf_slot_table_init n rnd pid mem seeded = (NGX_OK, Some t) ->
  wf (mkWorker t ∅).
Proof.
  unfold ngx_http_waf_slot_table_init. intros Hn0.
  destruct ((n =? 0) || _) eqn:E; [done|]. destruct mem; [|done]. destruct seeded; [|done].
  cbn [negb]. set (l0 := map _ _). intros H. inversion_clear H.
  assert (Hb : 0 < n <= NGX_HTTP_WAF_SLOT_INDEX_MASK) by lia. clear E Hn0.
  assert (Hl0 : length l0 = Z.to_nat n) by (unfold l0; by rewrite length_map, length_seq).
  assert (Hz0 : zlen l0 = n) by (unfold zlen; lia).
  set (l := aset l0 _ _).
  assert (Hz : zlen l = n) by (unfold l; by rewrite zlen_aset).
  assert (H0 : forall j, (j < Z.to_nat n)%nat ->
      aget slot0 l0 (Z.of_nat j) = slot0 <| next_free := Z.of_nat j + 1 |>).
  { intros j Hj. rewrite aget_lookup by lia. unfold l0. rewrite Nat2Z.id, list_lookup_fmap.
    by rewrite lookup_seq_lt. }
  assert (Hs : forall j, (j < Z.to_nat n)%nat ->
      aget slot0 l (Z.of_nat j) = slot0 <| next_free := free_from (S j) (Z.to_nat n) |>).
  { intros j Hj. unfold l, free_from. destruct (decide (S j = Z.to_nat n)).
    - replace (n - 1) with (Z.of_nat j) by lia. rewrite aget_aset_eq by lia. by rewrite H0.
    - rewrite aget_aset_ne, H0 by lia. cbn -[Z.of_nat]. f_equal. lia. }
  assert (Hs' : forall i, 0 <= i < n -> exists f,
      the_slot (mkWorker (mkTable l n 0 0) ∅) i = slot0 <| next_free := f |>).
  { intros i Hi. unfold the_slot; cbn. replace i with (Z.of_nat (Z.to_nat i)) by lia.
    rewrite Hs by lia. eauto. }
  split; cbn -[the_slot the_link]; try done.
  all: try (intros i; intros; destruct (Hs' i) as [f Hf]; [done|];
    change (the_slot _ i) with (the_slot (mkWorker (mkTable l n 0 0) ∅) i) in *;
    by rewrite Hf in * ).
  - unfold is_gen, NGX_HTTP_WAF_SLOT_GEN_MASK. change (2 ^ 40 - 1) with (Z.ones 40).
    rewrite Z.land_ones by lia. apply Z.mod_pos_bound. lia.
  - exists (map Z.of_nat (List.seq 0 (Z.to_nat n))). split_and!.
    + apply NoDup_fmap_2; [apply _|apply NoDup_seq].
    + replace 0 with (free_from 0 (Z.to_nat n)) at 1
        by (unfold free_from; destruct (decide (0%nat = Z.to_nat n)); lia).
      rewrite <- (Nat.sub_0_r (Z.to_nat n)) at 2. apply chain_init; [unfold zlen in Hz; lia|lia|].
      intros j Hj. by rewrite Hs.
    + intros i Hi. destruct (Hs' i Hi) as [f Hf].
      change (the_slot _ i) with (the_slot (mkWorker (mkTable l n 0 0) ∅) i). rewrite Hf.
      split; [done|intros _]. apply list_elem_of_fmap. exists (Z.to_nat i).
      rewrite elem_of_seq. lia.
  - intros c. by left.
Qed.

(** *** Interleavings

    One call of a table operation by any context of the worker, labelled with
    the number of generations it consumes.  [ngx_http_waf_ensure_slot]
    acquires only for a context that holds no slot; the handlers write the
    reply masks of a slot and arm timers in between. *)

Inductive waf_slot_step : Z -> worker -> worker -> Prop :=
  | st_acquire c wave now cln w :
      (the_link w c).(c_slot) = NGX_HTTP_WAF_SLOT_NIL ->
      waf_slot_step (if w.(tbl).(free_head) =? NGX_HTTP_WAF_SLOT_NIL then 0 else 1)
        w (snd (ngx_http_waf_slot_acquire c wave now cln w))
  | st_release i w :
      0 <= i < w.(tbl).(nslots) -> waf_slot_step 0 w (ngx_http_waf_slot_release i w)
  | st_detach c w : waf_slot_step 0 w (ngx_http_waf_slot_detach c w)
  | st_timer c b w :
      waf_slot_step 0 w (set_link c (fun l => l <| c_timer_set := b |>) w)
  | st_masks i g d a p w :
      0 <= i < w.(tbl).(nslots) ->
      waf_slot_step 0 w (set_slot i (fun s => s <| got := g |> <| denied := d |>
                               <| awaited := a |> <| published := p |>) w).

Inductive waf_slot_steps : Z -> worker -> worker -> Prop :=
  | sts_refl w : waf_slot_steps 0 w w
  | sts_step n m w1 w2 w3 :
      waf_slot_step n w1 w2 -> waf_slot_steps m w2 w3 -> waf_slot_steps (n + m) w1 w3.

Lemma slot_step_wf n w w' : waf_slot_step n w w' -> wf w -> wf w'.
Proof.
  destruct 1; intros Hw; auto using acquire_wf, release_wf, detach_wf, set_link_wf.
  by apply set_slot_wf.
Qed.

Lemma slot_step_label n w w' : waf_slot_step n w w' -> 0 <= n.
Proof. destruct 1; try case_match; lia. Qed.

(** C37: whatever the order in which requests acquire, release and detach, a
    table that [slot_table_init] set up keeps its free list exact (the free
    slots, each once), every busy slot bound to one live context and that
    context's request id naming the slot and its generation. *)
Theorem slot_table_invariant n rnd pid mem seeded t k w :
  0 <= n -> ngx_http_waf_slot_table_init n rnd pid mem seeded = (NGX_OK, Some t) ->
  waf_slot_steps k (mkWorker t ∅) w -> wf w.
Proof.
  intros Hn Hi Hs. apply slot_table_init_wf in Hi; [|done].
  revert Hi. generalize (mkWorker t ∅) as w0, k, w, Hs. clear.
  induction 1 as [|n m w1 w2 w3 Hst _ IH]; [done|]. eauto using slot_step_wf.
Qed.

(** When a slot is free, acquisition hands out a free one, whose printed
    request id parses back and looks it up, and every other pending request
    keeps its slot. *)
Theorem slot_acquire_spec c wave now w i w' :
  wf w -> (the_link w c).(c_slot) = NGX_HTTP_WAF_SLOT_NIL ->
  ngx_http_waf_slot_acquire c wave now true w = (Some i, w') ->
  (the_slot w i).(gen) = 0 /\ (the_slot w' i).(sctx) = Some c /\
  ngx_http_waf_rid_parse (the_link w' c).(c_rid_hex) = Some (the_link w' c).(c_rid) /\
  ngx_http_waf_slot_lookup (the_link w' c).(c_rid) w' = Some i /\
  (forall rid j, ngx_http_waf_slot_lookup rid w = Some j ->
                 ngx_http_waf_slot_lookup rid w' = Some j).
Proof.
  intros Hw Hl Ha.
  assert (Hh : free_head (tbl w) <> NGX_HTTP_WAF_SLOT_NIL).
  { intros He. unfold ngx_http_waf_slot_acquire in Ha. by rewrite He in Ha. }
  assert (Hi : i = free_head (tbl w)).
  { unfold ngx_http_waf_slot_acquire in Ha. rewrite (proj2 (Z.eqb_neq _ _) Hh) in Ha.
    cbn [negb] in Ha. unfold ngx_http_waf_next_gen in Ha. by inversion Ha. }
  pose proof (acquire_true_wf c wave now w Hw Hl) as Hw'.
  destruct (acquire_frame c wave now w Hw Hh Hl) as (Hir & Hg & Hf & _ & _ & _ & _ & Hs & Hk).
  rewrite Ha in *. cbn [snd] in *. subst i. set (i := free_head (tbl w)) in *.
  pose proof (gen_succ_range _ (wf_seq _ Hw)) as Hr. pose proof (wf_bound _ Hw) as Hb.
  rewrite Hk, Hs. cbn -[ngx_http_waf_rid_hex ngx_http_waf_rid_parse].
  split_and!; try done.
  - apply rid_hex_parse. rewrite rid_of_value by (unfold is_gen; lia).
    unfold is_u64, NGX_HTTP_WAF_SLOT_INDEX_MASK in *. lia.
  - rewrite lookup_rid_of by (done || (unfold is_gen; lia) || by rewrite (fr_n _ _ _ _ Hf)).
    rewrite Hs. cbn. by rewrite Z.eqb_refl.
  - intros rid j. unfold ngx_http_waf_slot_lookup. rewrite (fr_n _ _ _ _ Hf).
    set (k := Z.land rid _). destruct (nslots (tbl w) <=? k) eqn:Ek; [done|].
    destruct (decide (k = i)) as [->|]; [|by rewrite (fr_slot _ _ _ _ Hf)].
    destruct (sctx (the_slot w i)) eqn:Ec; [|by case_match].
    by destruct (wf_owner _ Hw i _ Hir Ec).
Qed.

(** acquisition is refused exactly when every slot is taken. *)
Theorem slot_acquire_refused c wave now w :
  wf w ->
  (fst (ngx_http_waf_slot_acquire c wave now true w) = None <->
   forall i, 0 <= i < w.(tbl).(nslots) -> (the_slot w i).(gen) <> 0).
Proof.
  intros Hw. destruct (wf_free _ Hw) as (fl & _ & Hch & Hfl).
  unfold ngx_http_waf_slot_acquire, ngx_http_waf_next_gen.
  destruct (Z.eqb_spec (free_head (tbl w)) NGX_HTTP_WAF_SLOT_NIL) as [He|Hne]; cbn [fst negb].
  - split; [intros _ i Hi H0|done]. apply Hfl in H0; [|done].
    destruct fl as [|j fl]; [by apply elem_of_nil in H0|]. cbn in Hch.
    destruct Hch as (Hj & Hr & _). rewrite <- (wf_n _ Hw) in Hr.
    apply (nil_not_index _ _ Hw Hr). congruence.
  - split; [done|]. intros H. exfalso. destruct fl as [|j fl]; cbn in Hch; [done|].
    destruct Hch as (Hj & Hr & _). rewrite <- (wf_n _ Hw) in Hr.
    apply (H j Hr). apply Hfl; [done|]. left.
Qed.

(** *** Stale request ids *)

Lemma release_gen w i j :
  wf w -> 0 <= i < w.(tbl).(nslots) ->
  let w' := ngx_http_waf_slot_release i w in
  w'.(tbl).(seq) = w.(tbl).(seq) /\ w'.(tbl).(nslots) = w.(tbl).(nslots) /\
  ((the_slot w' j).(gen) = (the_slot w j).(gen) \/ (the_slot w' j).(gen) = 0).
Proof.
  intros Hw Hi w'. subst w'. destruct (decide (gen (the_slot w i) = 0)) as [He|Hg].
  { unfold ngx_http_waf_slot_release. rewrite He. auto. }
  destruct (wf_busy _ Hw i Hi Hg) as [c Hc].
  destruct (wf_owner _ Hw i c Hi Hc) as (_ & Hl & _).
  destruct (release_frame w i c Hg Hc Hl) as (Hf & _ & Hseq & Hz & _);
    [by rewrite <- (wf_n _ Hw)|].
  split_and!; [done|apply Hf|].
  destruct (decide (j = i)) as [->|]; [by right|left]. by rewrite (fr_slot _ _ _ _ Hf).
Qed.

(** What one call can do to the counter and to the generation of a slot. *)
Lemma slot_step_gen n w w' j :
  waf_slot_step n w w' -> wf w ->
  w'.(tbl).(nslots) = w.(tbl).(nslots) /\
  (n = 0 /\ w'.(tbl).(seq) = w.(tbl).(seq) \/
   n = 1 /\ w'.(tbl).(seq) = gen_succ w.(tbl).(seq)) /\
  ((the_slot w' j).(gen) = (the_slot w j).(gen) \/ (the_slot w' j).(gen) = 0 \/
   n = 1 /\ (the_slot w' j).(gen) = gen_succ w.(tbl).(seq)).
Proof.
  destruct 1 as [c wave now cln w Hl|i w Hi|c w| |i g d a p w Hi]; intros Hw.
  - destruct (Z.eqb_spec (free_head (tbl w)) NGX_HTTP_WAF_SLOT_NIL) as [He|Hh].
    { unfold ngx_http_waf_slot_acquire. rewrite He. cbn. auto. }
    pose proof (acquire_true_wf c wave now w Hw Hl) as Hw'.
    destruct (acquire_frame c wave now w Hw Hh Hl) as (Hi & _ & Hf & _ & Hseq & _ & _ & Hs & _).
    assert (Hj : forall j, gen (the_slot (snd (ngx_http_waf_slot_acquire c wave now true w)) j)
              = gen (the_slot w j) \/
              gen (the_slot (snd (ngx_http_waf_slot_acquire c wave now true w)) j)
              = gen_succ (seq (tbl w))).
    { intros k. destruct (decide (k = free_head (tbl w))) as [->|]; [right; by rewrite Hs|left].
      by rewrite (fr_slot _ _ _ _ Hf). }
    destruct cln; [split_and!; [apply Hf|auto|destruct (Hj j); auto]|].
    rewrite acquire_false by done. cbn [snd].
    destruct (release_gen _ (free_head (tbl w)) j Hw') as (-> & -> & Hr);
      [by rewrite (fr_n _ _ _ _ Hf)|].
    split_and!; [apply Hf|auto|]. destruct Hr as [->| ->]; [|auto]. destruct (Hj j); auto.
  - destruct (release_gen w i j Hw Hi) as (-> & -> & [->| ->]); auto.
  - unfold ngx_http_waf_slot_detach. set (w1 := if c_timer_set _ then _ else w).
    assert (Hw1 : wf w1) by (subst w1; case_match; [by apply set_link_wf|done]).
    assert (Hss : tbl w1 = tbl w) by (subst w1; by case_match).
    assert (Hts : the_slot w1 j = the_slot w j) by (unfold the_slot; by rewrite Hss).
    destruct (Z.leb_spec (nslots (tbl w1)) (c_slot (the_link w1 c))) as [|Hlt];
      [rewrite Hss, Hts; auto|].
    case_match; cbn -[the_slot the_link ngx_http_waf_slot_release];
      [|unfold the_slot in *; cbn; rewrite Hss in *; auto].
    change (the_slot (set_link c _ ?x) j) with (the_slot x j).
    destruct (release_gen w1 (c_slot (the_link w1 c)) j Hw1) as (-> & -> & Hr).
    { destruct (wf_link _ Hw1 c) as [Hn|[Hi _]]; [|done]. pose proof (wf_bound _ Hw1).
      rewrite Hn in *. unfold NGX_HTTP_WAF_SLOT_INDEX_MASK, NGX_HTTP_WAF_SLOT_NIL in *. lia. }
    rewrite Hss, Hts in *. split_and!; [done|auto|]. destruct Hr; auto.
  - cbn. auto.
  - cbn -[the_slot]. split_and!; [done|auto|left].
    destruct (decide (i = j)) as [<-|]; [|by rewrite the_slot_set_slot_ne].
    by rewrite the_slot_set_slot_eq by (by rewrite <- (wf_n _ Hw)).
Qed.

Lemma slot_steps_gen n w w' i g :
  waf_slot_steps n w w' -> wf w -> 1 <= g < 2 ^ 40 -> n < gen_dist w.(tbl).(seq) g ->
  wf w' /\ w'.(tbl).(nslots) = w.(tbl).(nslots) /\
  gen_dist w'.(tbl).(seq) g = gen_dist w.(tbl).(seq) g - n /\
  ((the_slot w i).(gen) <> g -> (the_slot w' i).(gen) <> g).
Proof.
  induction 1 as [w|n m w1 w2 w3 Hst Hsts IH]; intros Hw Hg Hn; [split_and!; (done || lia)|].
  assert (0 <= m) by (clear -Hsts; induction Hsts; [lia|]; pose proof (slot_step_label _ _ _ H); lia).
  pose proof (wf_seq _ Hw) as Hsq.
  destruct (slot_step_gen n w1 w2 i Hst Hw) as (Hnn & Hseq & Hgi).
  assert (Hd : gen_dist (seq (tbl w2)) g = gen_dist (seq (tbl w1)) g - n).
  { destruct Hseq as [(-> & ->)|(-> & ->)]; [lia|]. apply gen_dist_succ; [done..|lia]. }
  destruct IH as (Hw3 & Hn3 & Hd3 & Hk); [by eapply slot_step_wf|done|lia|].
  split_and!; [done|congruence|lia|]. intros Hne. apply Hk.
  destruct Hgi as [->|[->|(-> & ->)]]; [done|lia|].
  intros He. apply gen_dist_one in He; [lia|done..].
Qed.

(** C34: once a request id has died (its slot was released or taken over), a
    late reply carrying it finds nothing, for as long as fewer than 2^40 - 1
    slots are acquired counting from the acquisition that issued the id, in
    any interleaving of table operations. *)
Theorem stale_rid_never_resolves c wave now w0 i w1 n w2 m w3 :
  wf w0 -> (the_link w0 c).(c_slot) = NGX_HTTP_WAF_SLOT_NIL ->
  ngx_http_waf_slot_acquire c wave now true w0 = (Some i, w1) ->
  let rid := (the_link w1 c).(c_rid) in
  waf_slot_steps n w1 w2 -> ngx_http_waf_slot_lookup rid w2 = None ->
  waf_slot_steps m w2 w3 -> n + m < 2 ^ 40 - 1 -> ngx_http_waf_slot_lookup rid w3 = None.
Proof.
  intros Hw0 Hl Ha rid Hs12 Hnone Hs23 Hnm.
  assert (Hh : free_head (tbl w0) <> NGX_HTTP_WAF_SLOT_NIL).
  { intros He. unfold ngx_http_waf_slot_acquire in Ha. by rewrite He in Ha. }
  pose proof (acquire_true_wf c wave now w0 Hw0 Hl) as Hw1.
  destruct (acquire_frame c wave now w0 Hw0 Hh Hl) as (Hir & _ & Hf & _ & Hseq & _ & _ & Hs & Hk).
  rewrite Ha in *. cbn [snd] in *. subst rid. rewrite Hk in *. cbn [c_rid] in *.
  set (k := free_head (tbl w0)) in *. set (g := gen_succ (seq (tbl w0))) in *.
  pose proof (gen_succ_range _ (wf_seq _ Hw0)) as Hg. fold g in Hg.
  rewrite <- (fr_n _ _ _ _ Hf) in Hir.
  assert (Hd1 : gen_dist (seq (tbl w1)) g = 2 ^ 40 - 1)
    by (rewrite Hseq; unfold gen_dist; case_match; lia).
  assert (0 <= m) by (clear -Hs23; induction Hs23; [lia|]; pose proof (slot_step_label _ _ _ H); lia).
  destruct (slot_steps_gen n w1 w2 k g Hs12 Hw1 Hg ltac:(lia)) as (Hw2 & Hn2 & Hd2 & _).
  rewrite lookup_rid_of in Hnone by (done || (unfold is_gen; lia) || by rewrite Hn2).
  assert (Hne : gen (the_slot w2 k) <> g).
  { intros He. rewrite He, Z.eqb_refl in Hnone.
    destruct (wf_busy _ Hw2 k) as [d Hd]; [by rewrite Hn2|lia|]. by rewrite Hd in Hnone. }
  destruct (slot_steps_gen m w2 w3 k g Hs23 Hw2 Hg ltac:(lia)) as (Hw3 & Hn3 & _ & Hk3).
  rewrite lookup_rid_of by (done || (unfold is_gen; lia) || by rewrite Hn3, Hn2).
  by rewrite (proj2 (Z.eqb_neq _ _) (Hk3 Hne)).
Qed.

(** *** Concrete runs *)

Definition demo_table : slot_table :=
  Eval vm_compute in default (mkTable [] 0 0 0) (snd (ngx_http_waf_slot_table_init 2 7 99 true true)).
Definition demo : worker := mkWorker demo_table ∅.

Lemma demo_wf : wf demo.
Proof. apply (slot_table_init_wf 2 7 99 true true); [lia|vm_compute; reflexivity]. Qed.

Lemma slot_table_invariant_witness :
  wf (snd (ngx_http_waf_slot_acquire 1000 0 5 true demo)).
Proof.
  apply (slot_table_invariant 2 7 99 true true demo_table (1 + 0)).
  - lia.
  - vm_compute. reflexivity.
  - eapply sts_step; [|apply sts_refl].
    apply (st_acquire 1000 0 5 true demo). vm_compute. reflexivity.
Defined.

Lemma slot_acquire_spec_witness :
  let w' := snd (ngx_http_waf_slot_acquire 1000 0 5 true demo) in
  ngx_http_waf_slot_lookup (the_link w' 1000).(c_rid) w' = Some 0.
Proof.
  destruct (slot_acquire_spec 1000 0 5 demo 0
              (snd (ngx_http_waf_slot_acquire 1000 0 5 true demo)))
    as (_ & _ & _ & H & _); [exact demo_wf|vm_compute; reflexivity|vm_compute; reflexivity|].
  exact H.
Defined.

Lemma slot_acquire_refused_witness :
  exists w, wf w /\ fst (ngx_http_waf_slot_acquire 1002 0 5 true w) = None.
Proof.
  pose (w1 := snd (ngx_http_waf_slot_acquire 1000 0 5 true demo)).
  pose (w2 := snd (ngx_http_waf_slot_acquire 1001 0 5 true w1)).
  assert (Hw1 : wf w1) by (apply acquire_wf; [exact demo_wf|vm_compute; reflexivity]).
  assert (Hw2 : wf w2) by (apply acquire_wf; [exact Hw1|vm_compute; reflexivity]).
  exists w2. split; [exact Hw2|].
  apply (slot_acquire_refused 1002 0 5 w2 Hw2). intros i Hi.
  assert (Hn : nslots (tbl w2) = 2) by (vm_compute; reflexivity). rewrite Hn in Hi.
  assert (i = 0 \/ i = 1) as [->| ->] by lia; vm_compute; discriminate.
Defined.

Lemma stale_rid_never_resolves_witness :
  let w1 := snd (ngx_http_waf_slot_acquire 1000 0 5 true demo) in
  let w2 := ngx_http_waf_slot_release 0 w1 in
  let w3 := snd (ngx_http_waf_slot_acquire 1001 0 6 true w2) in
  ngx_http_waf_slot_lookup (the_link w1 1000).(c_rid) w3 = None /\
  (the_slot w3 0).(sctx) = Some 1001.
Proof.
  intros w1 w2 w3. split; [|vm_compute; reflexivity].
  apply (stale_rid_never_resolves 1000 0 5 demo 0 w1 (0 + 0) w2 (1 + 0) w3).
  - exact demo_wf.
  - vm_compute. reflexivity.
  - vm_compute. reflexivity.
  - eapply sts_step; [|apply sts_refl]. apply (st_release 0 w1).
    assert (Hn : nslots (tbl w1) = 2) by (vm_compute; reflexivity). rewrite Hn. lia.
  - vm_compute. reflexivity.
  - eapply sts_step; [|apply sts_refl]. apply (st_acquire 1001 0 6 true w2).
    vm_compute. reflexivity.
  - vm_compute. reflexivity.
Defined.

End Table.

(** ** The ray of a request: a version-4 UUID *)
Module Ray.

(** The worker's statics: the seed, the fallback counter and the descriptor
    of /dev/urandom ([None] is -1). *)
Record ray_state := mkRay {
  seed_bytes : bytes;
  fallback : Z;
  ray_fd : option Z
}.
#[export] Instance eta_ray_state : Eta ray_state := fun r =>
  mkRay r.(seed_bytes) r.(fallback) r.(ray_fd).

(** What the kernel answers during one call: the bytes of [getrandom] and of
    [read] when they return 16 of them, and the descriptor [open] returns. *)
Record entropy := mkEntropy {
  e_getrandom : option bytes;
  e_open : option Z;
  e_read : option bytes
}.

Definition ngx_http_waf_random16 (fd : option Z) (e : entropy) : option bytes :=
  match e.(e_getrandom) with
  | Some b => Some b
  | None => match fd with Some _ => e.(e_read) | None => None end
  end.

Definition ngx_http_waf_ray_seed (s : ray_state) (e : entropy) : ngx_rc * ray_state :=
  match ngx_http_waf_random16 s.(ray_fd) e with
  | None =>
      match e.(e_open) with
      | None => (NGX_ERROR, s <| ray_fd := None |>)
      | Some fd =>
          let s := s <| ray_fd := Some fd |> in
          match e.(e_read) with
          | None => (NGX_ERROR, s)
          | Some b => (NGX_OK, s <| seed_bytes := b |>)
          end
      end
  | Some b =>
      let s := s <| seed_bytes := b |> in
      match s.(ray_fd) with
      | None => (NGX_OK, s <| ray_fd := e.(e_open) |>)
      | Some _ => (NGX_OK, s)
      end
  end.

Definition uuid_dash (i : Z) : bool := (i =? 4) || (i =? 6) || (i =? 8) || (i =? 10).

Definition ngx_http_waf_uuid_fmt (raw : bytes) : bytes :=
  for_range 16 (fun i dst =>
    let dst := if uuid_dash i then dst ++ [45] else dst in
    dst ++ [hex_digit (Z.shiftr (aget 0 raw i) 4)] ++ [hex_digit (Z.land (aget 0 raw i) 15)]) [].

(** The 8 bytes of the counter as the little-endian machine stores them. *)
Definition u64_mem (x : Z) : bytes := map (fun i => u8 (Z.shiftr x (8 * Z.of_nat i))) (seq 0 8).

(** [md5] is [ngx_md5] of nginx. *)
Definition ngx_http_waf_ray_next (md5 : bytes -> bytes) (s : ray_state) (e : entropy)
    : bytes * ray_state :=
  let '(raw, s) :=
    match ngx_http_waf_random16 s.(ray_fd) e with
    | Some b => (b, s)
    | None => let s := s <| fallback ::= fun n => u64 (n + 1) |> in
              (md5 (s.(seed_bytes) ++ u64_mem s.(fallback)), s)
    end in
  let raw := aset raw 6 (Z.lor (Z.land (aget 0 raw 6) 15) 64) in
  let raw := aset raw 8 (Z.lor (Z.land (aget 0 raw 8) 63) 128) in
  (ngx_http_waf_uuid_fmt raw, s).

(** *** The shape of a ray *)

Definition is_hex (c : Z) : Prop := c ∈ hex.
Definition uuid_pos (p : nat) (c : Z) : Prop :=
  match p with
  | 8%nat | 13%nat | 18%nat | 23%nat => c = 45
  | 14%nat => c = 52
  | 19%nat => c ∈ [56; 57; 97; 98]
  | _ => is_hex c
  end.

Definition raw16 (b : bytes) : Prop := length b = 16%nat /\ is_bytes b.

Lemma hex_digit_hex d : 0 <= d < 16 -> is_hex (hex_digit d).
Proof.
  intros H. unfold is_hex, hex_digit, aget. destruct (Z.ltb_spec d 0); [lia|].
  apply list_elem_of_In, nth_In. cbn. lia.
Qed.

Lemma byte_nibbles b :
  is_u8 b -> is_hex (hex_digit (Z.shiftr b 4)) /\ is_hex (hex_digit (Z.land b 15)).
Proof.
  unfold is_u8. intros Hb. change 15 with (Z.ones 4).
  rewrite Z.shiftr_div_pow2, Z.land_ones by lia.
  split; apply hex_digit_hex; [|apply Z.mod_pos_bound; lia].
  split; [apply Z.div_pos; lia|apply Z.div_lt_upper_bound; lia].
Qed.

(** Bytes 6 and 8 after the version and variant bits are forced. *)
Lemma version_nibble b : is_u8 b -> hex_digit (Z.shiftr (Z.lor (Z.land b 15) 64) 4) = 52.
Proof.
  intros _. rewrite Z.shiftr_lor, Z.shiftr_land. change (Z.shiftr 15 4) with 0.
  rewrite Z.land_0_r. done.
Qed.

Lemma variant_nibble b :
  is_u8 b -> hex_digit (Z.shiftr (Z.lor (Z.land b 63) 128) 4) ∈ [56; 57; 97; 98].
Proof.
  unfold is_u8. intros Hb. rewrite Z.shiftr_lor, Z.shiftr_land. change (Z.shiftr 63 4) with (Z.ones 2).
  rewrite Z.land_ones by lia. pose proof (Z.mod_pos_bound (Z.shiftr b 4) (2 ^ 2) ltac:(lia)) as H.
  change (2 ^ 2) with 4 in *.
  assert (Z.shiftr b 4 mod 4 = 0 \/ Z.shiftr b 4 mod 4 = 1 \/ Z.shiftr b 4 mod 4 = 2 \/
          Z.shiftr b 4 mod 4 = 3) as Hc by lia.
  destruct Hc as [->|[->|[->| ->]]]; apply list_elem_of_In; vm_compute; tauto.
Qed.

Lemma masked_u8 b m v : is_u8 b -> is_u8 m -> is_u8 v -> is_u8 (Z.lor (Z.land b m) v).
Proof.
  unfold is_u8. intros Hb Hm Hv.
  assert (H0 : 0 <= Z.land b m) by (apply Z.land_nonneg; lia).
  split; [apply Z.lor_nonneg; lia|].
  destruct (Z.eq_dec (Z.lor (Z.land b m) v) 0) as [->|]; [lia|].
  apply Z.log2_lt_pow2; [assert (0 <= Z.lor (Z.land b m) v) by (apply Z.lor_nonneg; lia); lia|].
  rewrite Z.log2_lor by lia.
  assert (Z.log2 m < 8 /\ Z.log2 v < 8) as [? ?].
  { split; (destruct (Z.eq_dec m 0), (Z.eq_dec v 0); subst; try (cbn; lia); apply Z.log2_lt_pow2; lia). }
  pose proof (Z.log2_land b m ltac:(lia) ltac:(lia)). lia.
Qed.

Lemma Forall_imap_lookup (q : bytes) (P : nat -> Z -> Prop) :
  Forall (uncurry P) (imap pair q) -> forall i c, q !! i = Some c -> P i c.
Proof.
  intros Hq i c Hi. rewrite Forall_lookup in Hq.
  apply (Hq i (i, c)). by rewrite list_lookup_imap, Hi.
Qed.

Section ray.
Context (md5 : bytes -> bytes).
(** MD5 digests are 16 bytes long. *)
Hypothesis md5_len : forall s, raw16 (md5 s).

(** Whatever the entropy sources answer, a ray is 36 characters in the
    8-4-4-4-12 form of a version-4 UUID with the RFC variant, in lowercase
    hexadecimal. *)
Theorem ray_is_uuid4 s e :
  (forall b, e.(e_getrandom) = Some b -> raw16 b) ->
  (forall b, e.(e_read) = Some b -> raw16 b) ->
  let ray := fst (ngx_http_waf_ray_next md5 s e) in
  length ray = 36%nat /\ forall p c, ray !! p = Some c -> uuid_pos p c.
Proof.
  intros Hg Hr. unfold ngx_http_waf_ray_next.
  set (p := match ngx_http_waf_random16 _ _ with Some _ => _ | None => _ end).
  assert (Hp : raw16 (fst p)).
  { unfold p. destruct (ngx_http_waf_random16 _ _) as [b|] eqn:E; cbn; [|apply md5_len].
    unfold ngx_http_waf_random16 in E. repeat case_match; simplify_eq; auto. }
  destruct p as [raw s']. cbn [fst] in *. destruct Hp as [Hl Hb].
  do 16 (destruct raw as [|? raw]; [done|]). destruct raw; [|done].
  unfold is_bytes in Hb. rewrite !Forall_cons in Hb. destruct_and!.
  cbn -[hex_digit Z.lor Z.land Z.shiftr]. split; [done|].
  apply Forall_imap_lookup. cbn -[hex_digit Z.lor Z.land Z.shiftr].
  repeat (apply Forall_cons; split); try apply Forall_nil; cbn -[hex_digit Z.lor Z.land Z.shiftr hex].
  all: lazymatch goal with
       | |- True => exact I
       | |- 45 = 45 => reflexivity
       | |- _ = 52 => apply version_nibble; assumption
       | |- _ ∈ _ => apply variant_nibble; assumption
       | |- _ => apply byte_nibbles; first [assumption|apply masked_u8; (assumption || (unfold is_u8; lia))]
       end.
Qed.
End ray.

Lemma ray_is_uuid4_witness :
  let e := mkEntropy None None None in
  length (fst (ngx_http_waf_ray_next (fun _ => replicate 16 255) (mkRay [] 0 None) e)) = 36%nat.
Proof.
  apply (ray_is_uuid4 (fun _ => replicate 16 255)).
  - intros s. split; [reflexivity|]. unfold is_bytes, is_u8. apply Forall_replicate. lia.
  - intros b H. discriminate H.
  - intros b H. discriminate H.
Defined.

End Ray.
