(* ===== verification/Sha256.v ===== *)
(** SHA-256 as body/ngx_http_waf_sha256.c computes it, and its equivalence
    with the FIPS 180-4 definition: the streaming context with its 64-byte
    block buffer against one-shot padding and a fold of the compression
    function. *)
From stdpp Require Import base list numbers.
From S2P Require Import Prelude.
#[local] Open Scope Z_scope.

Module Sha256.

(** A line of the table in the source, four 32-bit words, from their
    concatenation. *)
Definition k_line (x : Z) : list Z :=
  map (fun i => Z.land (Z.shiftr x (96 - 32 * Z.of_nat i)) 0xffffffff) (seq 0 4).

Definition ngx_http_waf_sha256_k : list Z := Eval vm_compute in concat [
  k_line 0x428a2f98_71374491_b5c0fbcf_e9b5dba5;
  k_line 0x3956c25b_59f111f1_923f82a4_ab1c5ed5;
  k_line 0xd807aa98_12835b01_243185be_550c7dc3;
  k_line 0x72be5d74_80deb1fe_9bdc06a7_c19bf174;
  k_line 0xe49b69c1_efbe4786_0fc19dc6_240ca1cc;
  k_line 0x2de92c6f_4a7484aa_5cb0a9dc_76f988da;
  k_line 0x983e5152_a831c66d_b00327c8_bf597fc7;
  k_line 0xc6e00bf3_d5a79147_06ca6351_14292967;
  k_line 0x27b70a85_2e1b2138_4d2c6dfc_53380d13;
  k_line 0x650a7354_766a0abb_81c2c92e_92722c85;
  k_line 0xa2bfe8a1_a81a664b_c24b8b70_c76c51a3;
  k_line 0xd192e819_d6990624_f40e3585_106aa070;
  k_line 0x19a4c116_1e376c08_2748774c_34b0bcb5;
  k_line 0x391c0cb3_4ed8aa4a_5b9cca4f_682e6ff3;
  k_line 0x748f82ee_78a5636f_84c87814_8cc70208;
  k_line 0x90befffa_a4506ceb_bef9a3f7_c67178f2 ].

(** The macros, on [uint32_t] operands. *)
Definition ngx_http_waf_ror (x n : Z) : Z :=
  Z.lor (Z.shiftr x n) (u32 (Z.shiftl x (32 - n))).
Definition ngx_http_waf_s0 (x : Z) : Z :=
  Z.lxor (Z.lxor (ngx_http_waf_ror x 2) (ngx_http_waf_ror x 13)) (ngx_http_waf_ror x 22).
Definition ngx_http_waf_s1 (x : Z) : Z :=
  Z.lxor (Z.lxor (ngx_http_waf_ror x 6) (ngx_http_waf_ror x 11)) (ngx_http_waf_ror x 25).
Definition ngx_http_waf_g0 (x : Z) : Z :=
  Z.lxor (Z.lxor (ngx_http_waf_ror x 7) (ngx_http_waf_ror x 18)) (Z.shiftr x 3).
Definition ngx_http_waf_g1 (x : Z) : Z :=
  Z.lxor (Z.lxor (ngx_http_waf_ror x 17) (ngx_http_waf_ror x 19)) (Z.shiftr x 10).

(** [ngx_http_waf_sha256_t]; the block is always 64 bytes long. *)
Record sha256_t := mkSha { sh_bytes : Z; sh_h : list Z; sh_block : bytes; sh_used : Z }.
#[export] Instance eta_sha256_t : Eta sha256_t := fun r =>
  mkSha r.(sh_bytes) r.(sh_h) r.(sh_block) r.(sh_used).

(** [ngx_memcpy(buf + off, src, len src)] and [ngx_memzero(buf + off, n)]. *)
Definition memcpy_at (buf : bytes) (off : Z) (src : bytes) : bytes :=
  take (Z.to_nat off) buf ++ src ++ drop (Z.to_nat off + length src) buf.
Definition memzero_at (buf : bytes) (off n : Z) : bytes :=
  memcpy_at buf off (replicate (Z.to_nat n) 0).

(** The context's [block] is whatever it held before the initialisation. *)
Definition ngx_http_waf_sha256_init (sha : sha256_t) : sha256_t :=
  sha <| sh_bytes := 0 |> <| sh_used := 0 |>
      <| sh_h := [0x6a09e667; 0xbb67ae85; 0x3c6ef372; 0xa54ff53a;
                  0x510e527f; 0x9b05688c; 0x1f83d9ab; 0x5be0cd19] |>.

Definition word_at (p : bytes) (i : Z) : Z :=
  Z.lor (Z.lor (Z.lor (u32 (Z.shiftl (aget 0 p (i * 4)) 24))
                      (u32 (Z.shiftl (aget 0 p (i * 4 + 1)) 16)))
               (u32 (Z.shiftl (aget 0 p (i * 4 + 2)) 8)))
        (aget 0 p (i * 4 + 3)).

(** The message schedule [w[64]], filled by the two loops. *)
Definition schedule (p : bytes) : list Z :=
  let w := for_range 16 (fun i w => w ++ [word_at p i]) [] in
  for_upto 48 16 (fun i w =>
    w ++ [u32 (ngx_http_waf_g1 (aget 0 w (i - 2)) + aget 0 w (i - 7)
               + ngx_http_waf_g0 (aget 0 w (i - 15)) + aget 0 w (i - 16))]) w.

(** The eight working variables a..h. *)
Record regs := mkRegs { ra : Z; rb : Z; rc : Z; rd : Z; re : Z; rf : Z; rg : Z; rh : Z }.

Definition round (w : list Z) (i : Z) (v : regs) : regs :=
  let '(mkRegs a b c d e f g h) := v in
  let t1 := u32 (h + ngx_http_waf_s1 e
                 + Z.lxor (Z.land e f) (Z.land (Z.lxor e (Z.ones 32)) g)
                 + aget 0 ngx_http_waf_sha256_k i + aget 0 w i) in
  let t2 := u32 (ngx_http_waf_s0 a
                 + Z.lxor (Z.lxor (Z.land a b) (Z.land a c)) (Z.land b c)) in
  mkRegs (u32 (t1 + t2)) a b c (u32 (d + t1)) e f g.

Definition compress (h : list Z) (p : bytes) : list Z :=
  let w := schedule p in
  let v := for_range 64 (round w)
             (mkRegs (aget 0 h 0) (aget 0 h 1) (aget 0 h 2) (aget 0 h 3)
                     (aget 0 h 4) (aget 0 h 5) (aget 0 h 6) (aget 0 h 7)) in
  [u32 (aget 0 h 0 + v.(ra)); u32 (aget 0 h 1 + v.(rb)); u32 (aget 0 h 2 + v.(rc));
   u32 (aget 0 h 3 + v.(rd)); u32 (aget 0 h 4 + v.(re)); u32 (aget 0 h 5 + v.(rf));
   u32 (aget 0 h 6 + v.(rg)); u32 (aget 0 h 7 + v.(rh))].

Definition ngx_http_waf_sha256_block (sha : sha256_t) (p : bytes) : sha256_t :=
  sha <| sh_h := compress sha.(sh_h) p |>.

(** [while (len >= 64)]: the fuel bounds the number of whole blocks. *)
Fixpoint update_blocks (fuel : nat) (sha : sha256_t) (data : bytes) : sha256_t * bytes :=
  match fuel with
  | O => (sha, data)
  | S k => if 64 <=? zlen data
           then update_blocks k (ngx_http_waf_sha256_block sha (take 64 data)) (drop 64 data)
           else (sha, data)
  end.

Definition update_tail (sha : sha256_t) (data : bytes) : sha256_t :=
  let '(sha, data) := update_blocks (length data) sha data in
  if zlen data =? 0 then sha
  else sha <| sh_block ::= fun b => memcpy_at b 0 data |> <| sh_used := zlen data |>.

Definition ngx_http_waf_sha256_update (sha : sha256_t) (data : bytes) : sha256_t :=
  let sha := sha <| sh_bytes ::= fun n => u64 (n + zlen data) |> in
  if negb (sha.(sh_used) =? 0) then
    let take_ := 64 - sha.(sh_used) in
    if zlen data <? take_ then
      sha <| sh_block ::= fun b => memcpy_at b sha.(sh_used) data |>
          <| sh_used ::= fun u => u + zlen data |>
    else
      let sha := sha <| sh_block ::=
                   fun b => memcpy_at b sha.(sh_used) (take (Z.to_nat take_) data) |> in
      let sha := ngx_http_waf_sha256_block sha sha.(sh_block) in
      update_tail (sha <| sh_used := 0 |>) (drop (Z.to_nat take_) data)
  else update_tail sha data.

Definition be32 (x : Z) : bytes :=
  [u8 (Z.shiftr x 24); u8 (Z.shiftr x 16); u8 (Z.shiftr x 8); u8 x].
Definition be64 (x : Z) : bytes :=
  [u8 (Z.shiftr x 56); u8 (Z.shiftr x 48); u8 (Z.shiftr x 40); u8 (Z.shiftr x 32);
   u8 (Z.shiftr x 24); u8 (Z.shiftr x 16); u8 (Z.shiftr x 8); u8 x].

Definition ngx_http_waf_sha256_final (sha : sha256_t) : sha256_t * bytes :=
  let bits := u64 (sha.(sh_bytes) * 8) in
  let used := sha.(sh_used) in
  let sha := sha <| sh_block ::= fun b => memcpy_at b used [0x80] |> in
  let used := used + 1 in
  let '(sha, used) :=
    if 56 <? used then
      let sha := sha <| sh_block ::= fun b => memzero_at b used (64 - used) |> in
      (ngx_http_waf_sha256_block sha sha.(sh_block), 0)
    else (sha, used) in
  let sha := sha <| sh_block ::= fun b => memzero_at b used (56 - used) |> in
  let sha := sha <| sh_block ::= fun b => memcpy_at b 56 (be64 bits) |> in
  let sha := ngx_http_waf_sha256_block sha sha.(sh_block) in
  (sha, flat_map be32 sha.(sh_h)).

(** ** FIPS 180-4 *)

Definition H0 : list Z := [0x6a09e667; 0xbb67ae85; 0x3c6ef372; 0xa54ff53a;
                           0x510e527f; 0x9b05688c; 0x1f83d9ab; 0x5be0cd19].

(** The padded message: the 1 bit, zeros up to 8 bytes short of a multiple of
    64, and the length in bits. *)
Definition pad (m : bytes) : bytes :=
  m ++ [0x80] ++ replicate (Z.to_nat ((55 - zlen m) mod 64)) 0 ++ be64 (u64 (u64 (zlen m) * 8)).

(** The compression function folded over [q] 64-byte blocks. *)
Fixpoint blocks (q : nat) (h : list Z) (m : bytes) : list Z :=
  match q with
  | O => h
  | S k => blocks k (compress h (take 64 m)) (drop 64 m)
  end.

Definition sha256 (m : bytes) : bytes :=
  flat_map be32 (blocks (length (pad m) / 64) H0 (pad m)).

(** ** Buffers *)

Lemma memcpy_at_length b off src :
  0 <= off -> off + zlen src <= zlen b -> length (memcpy_at b off src) = length b.
Proof.
  unfold memcpy_at, zlen. intros. rewrite !length_app, length_take, length_drop. lia.
Qed.

Lemma memcpy_at_take b off src :
  0 <= off -> off + zlen src <= zlen b ->
  take (Z.to_nat off + length src) (memcpy_at b off src) = take (Z.to_nat off) b ++ src.
Proof.
  unfold memcpy_at, zlen. intros.
  rewrite app_assoc, take_app_length'; [done|].
  rewrite length_app, length_take. lia.
Qed.

(** Writing up to the end of the buffer leaves the kept prefix and the data. *)
Lemma memcpy_at_full b off src t :
  take (Z.to_nat off) b = t -> 0 <= off -> off + zlen src = zlen b ->
  memcpy_at b off src = t ++ src.
Proof.
  intros <- H1 H2. unfold memcpy_at, zlen in *.
  rewrite (drop_ge b), app_nil_r by lia. done.
Qed.

(** ** The fold *)

Lemma blocks_app q1 q2 h a b :
  length a = (64 * q1)%nat -> blocks (q1 + q2) h (a ++ b) = blocks q2 (blocks q1 h a) b.
Proof.
  revert h a. induction q1 as [|q1 IH]; intros h a Ha.
  { destruct a; [done|cbn in Ha; lia]. }
  cbn [Nat.add blocks]. rewrite take_app_le, drop_app_le by lia.
  apply IH. rewrite length_drop. lia.
Qed.

Lemma blocks_one h b : length b = 64%nat -> blocks 1 h b = compress h b.
Proof. intros Hb. cbn. by rewrite take_ge by lia. Qed.

(** Appending one complete block to a message of whole blocks. *)
Lemma blocks_snoc q h a b :
  length a = (64 * q)%nat -> length b = 64%nat ->
  blocks (S q) h (a ++ b) = compress (blocks q h a) b.
Proof.
  intros Ha Hb. replace (S q) with (q + 1)%nat by lia.
  by rewrite blocks_app, blocks_one.
Qed.

Lemma update_blocks_spec fuel sha data :
  (length data <= fuel * 64)%nat ->
  exists q whole rest,
    data = whole ++ rest /\ length whole = (64 * q)%nat /\ (length rest < 64)%nat /\
    update_blocks fuel sha data = (sha <| sh_h := blocks q sha.(sh_h) whole |>, rest).
Proof.
  revert sha data. induction fuel as [|fuel IH]; intros sha data Hf.
  { exists O, [], []. destruct data; [|cbn in Hf; lia]. split_and!; cbn; try lia; try done.
    by destruct sha. }
  cbn [update_blocks]. destruct (Z.leb_spec 64 (zlen data)) as [Hge|Hlt]; unfold zlen in *.
  - destruct (IH (ngx_http_waf_sha256_block sha (take 64 data)) (drop 64 data))
      as (q & whole & rest & Hd & Hw & Hr & ->); [rewrite length_drop; lia|].
    exists (S q), (take 64 data ++ whole), rest. split_and!.
    + by rewrite <- app_assoc, <- Hd, take_drop.
    + rewrite length_app, length_take, Hw. lia.
    + done.
    + cbn -[compress take drop]. f_equal. f_equal.
      by rewrite take_app_length', drop_app_length' by (rewrite length_take; lia).
  - exists O, [], data. split_and!; cbn; try lia; try done. by destruct sha.
Qed.

(** ** The streaming context *)

(** [sha] has absorbed the message [m]: its whole blocks are folded into the
    chaining value and the rest waits in the block buffer. *)
Definition absorbed (sha : sha256_t) (m : bytes) : Prop :=
  exists q whole tail,
    m = whole ++ tail /\ length whole = (64 * q)%nat /\ (length tail < 64)%nat /\
    sha.(sh_h) = blocks q H0 whole /\ sha.(sh_used) = zlen tail /\
    take (length tail) sha.(sh_block) = tail /\ length sha.(sh_block) = 64%nat /\
    sha.(sh_bytes) = u64 (zlen m).

Lemma absorbed_init sha :
  length sha.(sh_block) = 64%nat -> absorbed (ngx_http_waf_sha256_init sha) [].
Proof. intros Hb. exists O, [], []. cbn. split_and!; (done || lia). Qed.

(** The part of [update] after the buffer has been emptied. *)
Lemma absorbed_tail sha whole q data bytes :
  length whole = (64 * q)%nat -> sha.(sh_h) = blocks q H0 whole ->
  sha.(sh_used) = 0 -> length sha.(sh_block) = 64%nat ->
  sha.(sh_bytes) = u64 bytes -> bytes = zlen (whole ++ data) ->
  absorbed (update_tail sha data) (whole ++ data).
Proof.
  intros Hw Hh Hu Hb Hn ->. unfold update_tail.
  destruct (update_blocks_spec (length data) sha data) as (q' & w & r & Hd & Hwl & Hr & ->); [lia|].
  exists (q + q')%nat, (whole ++ w), r. subst data.
  assert (Hlen : length (whole ++ w) = (64 * (q + q'))%nat) by (rewrite length_app; lia).
  destruct (Z.eqb_spec (zlen r) 0) as [Hz|Hz].
  - destruct r; [|unfold zlen in Hz; cbn in Hz; lia]. cbn -[compress].
    rewrite !app_nil_r in *. split_and!; try done; try lia.
    by rewrite blocks_app, <- Hh.
  - cbn -[compress take]. split_and!; try done; try lia.
    + by rewrite app_assoc.
    + by rewrite blocks_app, <- Hh.
    + apply (memcpy_at_take _ 0); unfold zlen; lia.
    + rewrite memcpy_at_length; unfold zlen; lia.
Qed.

Lemma absorbed_update sha m data :
  absorbed sha m -> absorbed (ngx_http_waf_sha256_update sha data) (m ++ data).
Proof.
  intros (q & whole & tail & -> & Hw & Ht & Hh & Hu & Hbt & Hb & Hn).
  unfold ngx_http_waf_sha256_update. cbn -[update_tail ngx_http_waf_sha256_block].
  assert (Hn' : u64 (sh_bytes sha + zlen data) = u64 (zlen ((whole ++ tail) ++ data))).
  { rewrite Hn, (zlen_app _ data). unfold u64. rewrite Z.add_mod_idemp_l by lia. done. }
  destruct (Z.eqb_spec (sh_used sha) 0) as [Hz|Hz]; cbn [negb].
  - destruct tail; [|rewrite Hu in Hz; unfold zlen in Hz; cbn in Hz; lia].
    rewrite app_nil_r in *. by apply (absorbed_tail _ whole q data (zlen (whole ++ data))).
  - rewrite Hu in *. destruct (Z.ltb_spec (zlen data) (64 - zlen tail)) as [Hlt|Hge].
    + exists q, whole, (tail ++ data). unfold zlen in *.
      cbn -[compress take]. rewrite length_app. split_and!; try done; try lia.
      * by rewrite app_assoc.
      * replace (length tail) with (Z.to_nat (Z.of_nat (length tail))) at 1 by lia.
        rewrite memcpy_at_take by (unfold zlen; lia). by rewrite Nat2Z.id, Hbt.
      * rewrite memcpy_at_length; unfold zlen; lia.
    + set (t := Z.to_nat (64 - zlen tail)).
      assert (Htl : length (take t data) = t) by (rewrite length_take; unfold t, zlen in *; lia).
      rewrite (memcpy_at_full _ _ _ tail) by
        (rewrite ?Hbt; unfold zlen in *; rewrite ?Nat2Z.id, ?Htl; unfold t; lia || done).
      assert (Hblk : length (tail ++ take t data) = 64%nat)
        by (rewrite length_app, Htl; unfold t, zlen in *; lia).
      replace ((whole ++ tail) ++ data) with ((whole ++ tail ++ take t data) ++ drop t data)
        by (rewrite <- !app_assoc, take_drop; done).
      apply (absorbed_tail _ _ (S q) _ (zlen ((whole ++ tail) ++ data))); cbn -[compress blocks].
      * rewrite length_app, Hblk. lia.
      * by rewrite Hh, blocks_snoc.
      * done.
      * done.
      * done.
      * f_equal. rewrite <- !app_assoc, take_drop. done.
Qed.

(** ** Finalisation *)

Lemma be64_length x : length (be64 x) = 8%nat.
Proof. done. Qed.

(** The number of padding zeros, by the fill level of the last block. *)
Lemma pad_zeros (n u q : nat) :
  n = (64 * q + u)%nat -> (u < 64)%nat ->
  Z.to_nat ((55 - Z.of_nat n) mod 64) = (if decide (u < 56)%nat then 55 - u else 119 - u)%nat.
Proof.
  intros -> Hu.
  replace (55 - Z.of_nat (64 * q + u)) with (55 - Z.of_nat u + - Z.of_nat q * 64) by lia.
  rewrite Z.mod_add by lia. destruct (decide (u < 56)%nat).
  - rewrite Z.mod_small; lia.
  - rewrite <- (Z.mod_add _ 1), Z.mod_small; lia.
Qed.

(** Zeroing and length bytes after a prefix [t] of the block. *)
Lemma final_block b t used bits :
  take (Z.to_nat used) b = t -> 0 <= used <= 56 -> length b = 64%nat ->
  memcpy_at (memzero_at b used (56 - used)) 56 (be64 bits) =
  t ++ replicate (Z.to_nat (56 - used)) 0 ++ be64 bits.
Proof.
  intros Ht Hu Hb. unfold memzero_at. set (z := replicate _ 0).
  assert (Hz : length z = Z.to_nat (56 - used)) by (unfold z; by rewrite length_replicate).
  rewrite app_assoc. apply memcpy_at_full; unfold zlen; rewrite ?memcpy_at_length, ?Hb, ?be64_length;
    unfold zlen; rewrite ?Hb, ?Hz; try lia.
  replace (Z.to_nat 56) with (Z.to_nat used + length z)%nat by lia.
  rewrite memcpy_at_take by (unfold zlen; lia). by rewrite Ht.
Qed.

(** The fold over a padded message, by the number of blocks the padding
    takes. *)
Lemma pad_fold_two whole tail q bits :
  length whole = (64 * q)%nat -> (56 <= length tail < 64)%nat ->
  let m := whole ++ tail ++ [128] ++ replicate (119 - length tail) 0 ++ be64 bits in
  blocks (length m / 64) H0 m =
  compress (compress (blocks q H0 whole) (tail ++ [128] ++ replicate (63 - length tail) 0))
           (replicate 56 0 ++ be64 bits).
Proof.
  intros Hw Ht m. set (b2 := tail ++ [128] ++ replicate (63 - length tail) 0).
  assert (Hl2 : length b2 = 64%nat)
    by (unfold b2; rewrite !length_app, length_replicate; cbn; lia).
  assert (Hm : m = (whole ++ b2) ++ (replicate 56 0 ++ be64 bits)).
  { unfold m, b2. replace (119 - length tail)%nat with (63 - length tail + 56)%nat by lia.
    by rewrite replicate_add, <- !app_assoc. }
  rewrite Hm. replace (_ / 64)%nat with (S q + 1)%nat.
  - rewrite blocks_app by (rewrite length_app; lia). rewrite (blocks_snoc q _ whole b2) by done. by rewrite blocks_one.
  - rewrite !length_app, Hw, Hl2, length_replicate, be64_length.
    replace (64 * q + 64 + (56 + 8))%nat with ((q + 2) * 64)%nat by lia.
    rewrite Nat.div_mul by lia. lia.
Qed.

Lemma pad_fold_one whole tail q bits :
  length whole = (64 * q)%nat -> (length tail < 56)%nat ->
  let m := whole ++ tail ++ [128] ++ replicate (55 - length tail) 0 ++ be64 bits in
  blocks (length m / 64) H0 m =
  compress (blocks q H0 whole) (tail ++ [128] ++ replicate (55 - length tail) 0 ++ be64 bits).
Proof.
  intros Hw Ht m. unfold m. set (b := tail ++ _).
  assert (Hl : length b = 64%nat)
    by (unfold b; rewrite !length_app, length_replicate, be64_length; cbn; lia).
  replace (_ / 64)%nat with (S q); [by rewrite blocks_snoc|].
  rewrite length_app, Hw, Hl. replace (64 * q + 64)%nat with ((q + 1) * 64)%nat by lia.
  rewrite Nat.div_mul by lia. lia.
Qed.

Lemma final_absorbed sha m :
  absorbed sha m -> snd (ngx_http_waf_sha256_final sha) = sha256 m.
Proof.
  intros (q & whole & tail & -> & Hw & Ht & Hh & Hu & Hbt & Hb & Hn).
  unfold ngx_http_waf_sha256_final, sha256, pad. rewrite Hn, Hu.
  set (bits := u64 (u64 (zlen (whole ++ tail)) * 8)).
  rewrite <- app_assoc.
  assert (Hz := pad_zeros (length (whole ++ tail)) (length tail) q).
  change (Z.of_nat (length (whole ++ tail))) with (zlen (whole ++ tail)) in Hz.
  rewrite Hz by (rewrite ?length_app; lia). clear Hz.
  set (b1 := memcpy_at (sh_block sha) (zlen tail) [128]).
  assert (Hb1 : length b1 = 64%nat) by (unfold b1; rewrite memcpy_at_length; unfold zlen; cbn; lia).
  assert (Ht1 : take (Z.to_nat (zlen tail + 1)) b1 = tail ++ [128]).
  { replace (Z.to_nat (zlen tail + 1)) with (Z.to_nat (zlen tail) + length [128%Z])%nat
      by (unfold zlen; cbn; lia).
    unfold b1. rewrite memcpy_at_take by (unfold zlen; cbn; lia).
    unfold zlen. by rewrite Nat2Z.id, Hbt. }
  destruct (decide (length tail < 56)%nat) as [Hc|Hc].
  - rewrite (pad_fold_one _ _ q) by done. rewrite (proj2 (Z.ltb_ge _ _)) by (unfold zlen; lia).
    cbn -[compress be64 memcpy_at memzero_at app]. fold b1. rewrite Hh.
    apply (f_equal (flat_map be32)), (f_equal2 compress); [reflexivity|].
    rewrite (final_block b1 (tail ++ [128])) by (done || unfold zlen; lia).
    rewrite <- app_assoc. do 4 f_equal. unfold zlen. lia.
  - rewrite (pad_fold_two _ _ q) by (done || lia). rewrite (proj2 (Z.ltb_lt _ _)) by (unfold zlen; lia).
    cbn -[compress be64 memcpy_at memzero_at app]. fold b1.
    assert (Hb2 : memzero_at b1 (zlen tail + 1) (64 - (zlen tail + 1))
                  = tail ++ [128] ++ replicate (63 - length tail) 0).
    { unfold memzero_at. rewrite app_assoc. rewrite (memcpy_at_full _ _ _ (tail ++ [128]));
        [|done|unfold zlen; lia|unfold zlen; rewrite length_replicate; lia].
      do 2 f_equal. unfold zlen. lia. }
    rewrite Hb2, Hh. apply (f_equal (flat_map be32)), (f_equal2 compress); [reflexivity|].
    rewrite (final_block _ []) by
      (done || lia || (rewrite !length_app, length_replicate; cbn; lia)). done.
Qed.

(** C38: however a message is cut into pieces on its way through [update], the
    digest is the one of the whole message: padded as FIPS 180-4 prescribes and
    compressed block by block. *)
Theorem sha256_streaming ctx chunks :
  length ctx.(sh_block) = 64%nat ->
  snd (ngx_http_waf_sha256_final
         (foldl ngx_http_waf_sha256_update (ngx_http_waf_sha256_init ctx) chunks))
  = sha256 (concat chunks).
Proof.
  intros Hb. apply final_absorbed.
  assert (H : forall s m, absorbed s m ->
            absorbed (foldl ngx_http_waf_sha256_update s chunks) (m ++ concat chunks)).
  { induction chunks as [|c chunks IH]; intros s m Hs; cbn; [by rewrite app_nil_r|].
    rewrite app_assoc. apply IH. by apply absorbed_update. }
  apply (H _ []), absorbed_init, Hb.
Qed.

(** The FIPS 180-4 test vector for "abc", in two pieces. *)
Lemma sha256_streaming_witness :
  snd (ngx_http_waf_sha256_final
         (foldl ngx_http_waf_sha256_update
            (ngx_http_waf_sha256_init (mkSha 0 [] (replicate 64 170) 0)) [lit "a"; lit "bc"]))
  = [0xba;0x78;0x16;0xbf;0x8f;0x01;0xcf;0xea;0x41;0x41;0x40;0xde;0x5d;0xae;0x22;0x23;
     0xb0;0x03;0x61;0xa3;0x96;0x17;0x7a;0x9c;0xb4;0x10;0xff;0x61;0xf2;0x00;0x15;0xad].
Proof.
  rewrite (sha256_streaming (mkSha 0 [] (replicate 64 170) 0)); [|reflexivity].
  vm_compute. reflexivity.
Defined.

End Sha256.
