(* ===== verification/Graph.v ===== *)
(** The inspection graph of a location (core/ngx_http_waf_graph.c): which
    inspectors are bound to which phase and wave, whether an action can still
    reach its addressee, the configuration check of the keep/resume pairs and
    the construction of the waves of a phase. *)
From S2P Require Import Prelude Types.
#[local] Open Scope Z_scope.

Module Graph.
Section graph.
Context {cond : Type}.
Implicit Types (wlcf : loc_conf cond) (b : binding_t cond).

Definition ngx_http_waf_binding_find wlcf (index : Z) (phase : phase_e)
    : option (binding_t cond) :=
  match wlcf.(lc_inspects) phase with
  | None => None
  | Some l => List.find (fun b => b.(b_index) =? index) l
  end.

Definition ngx_http_waf_action_deliverable wlcf (to : Z) (phase : phase_e) (wave : Z) : bool :=
  if match ngx_http_waf_binding_find wlcf to phase with
     | Some b => wave <? b.(b_wave)
     | None => false
     end
  then true
  else existsb (fun p => match ngx_http_waf_binding_find wlcf to p with
                         | Some _ => true | None => false end) (later_phases phase).

Definition ngx_http_waf_resume_wanted wlcf (index : Z) (phase : phase_e) : bool :=
  if negb (phase ==? PHASE_REQUEST) then false
  else match ngx_http_waf_binding_find wlcf index phase with
       | Some b => b.(b_keep)
       | None => false
       end.

(** [None] is [NGX_HTTP_WAF_NPHASE]. *)
Definition ngx_http_waf_resume_phase wlcf (index : Z) (phase : phase_e) : option phase_e :=
  List.find (fun later => match ngx_http_waf_binding_find wlcf index later with
                          | Some b => negb (b.(b_resume) ==? RESUME_OFF)
                          | None => false
                          end) (later_phases phase).

Definition list_of (l : option (list (binding_t cond))) : list (binding_t cond) := default [] l.

(** The body of the loop over the locations: the first error returns. *)
Definition check_resume_conf wlcf : bool :=
  if wlcf.(lc_has_children) || negb wlcf.(lc_enable) then true
  else
    forallb (fun b =>
        if negb b.(b_keep) then true
        else match ngx_http_waf_resume_phase wlcf b.(b_index) PHASE_REQUEST with
             | None => false | Some _ => true end)
      (list_of (wlcf.(lc_inspects) PHASE_REQUEST))
    && forallb (fun phase =>
         forallb (fun b =>
             if b.(b_resume) ==? RESUME_OFF then true
             else match ngx_http_waf_binding_find wlcf b.(b_index) PHASE_REQUEST with
                  | None => false
                  | Some rb => rb.(b_keep)
                  end)
           (list_of (wlcf.(lc_inspects) phase)))
       (later_phases PHASE_REQUEST).

Definition ngx_http_waf_check_resume_pairs (loc_confs : option (list (loc_conf cond))) : ngx_rc :=
  match loc_confs with
  | None => NGX_OK
  | Some l => if forallb check_resume_conf l then NGX_OK else NGX_ERROR
  end.

(** *** Construction of the waves *)

Definition wave0 : wave_t := mkWave 0 0 0 0 BODY_NONE 0.

Definition open_wave (sh : shoot_t) (first : bool) : wave_t :=
  let w := wave0 <| w_obj_need := sh.(sh_capture) |> in
  let cap_body := negb (Z.land sh.(sh_capture) (NGX_HTTP_WAF_OBJ_BIT NGX_HTTP_WAF_OBJ_BODY) =? 0) in
  if first && cap_body then
    if sh.(sh_capture_limit_body) =? NGX_HTTP_WAF_CAPTURE_LIMIT_WHOLE
    then w <| w_body_need := BODY_FULL |>
    else w <| w_body_need := BODY_PREVIEW |>
  else w.

Definition add_binding (w : wave_t) b : wave_t :=
  let bt := bit b.(b_index) in
  let w := w <| w_all ::= fun m => Z.lor m bt |> in
  match b.(b_mode) with
  | MODE_OFF => w <| w_off ::= fun m => Z.lor m bt |>
  | MODE_PASSIVE => w <| w_passive ::= fun m => Z.lor m bt |>
  | MODE_VOTE => w <| w_vote ::= fun m => Z.lor m bt |>
  | MODE_ACTIVE => w
  end.

(** State of the loops: the waves pushed so far (the last one is open while
    its number is being collected), [first], and whether an allocation
    failed. *)
Record build_st := mkBuild { bs_waves : list wave_t; bs_first : bool; bs_mem : alloc_stream; bs_failed : bool }.

(** One turn of the inner loop; [w] is the open wave, [None] for [NULL]. *)
Definition build_inner (sh : shoot_t) (phase : phase_e) (wave : Z)
    (acc : option wave_t * build_st) b : option wave_t * build_st :=
  let '(w, st) := acc in
  if st.(bs_failed) then acc
  else if negb (b.(b_phase) ==? phase) || negb (b.(b_wave) =? wave) then acc
  else match w with
       | Some w => (Some (add_binding w b), st)
       | None =>
           let '(ok, mem) := alloc st.(bs_mem) in
           if ok then (Some (add_binding (open_wave sh st.(bs_first)) b),
                       mkBuild st.(bs_waves) false mem false)
           else (None, mkBuild st.(bs_waves) st.(bs_first) mem true)
       end.

Definition build_outer (sh : shoot_t) (phase : phase_e) (bs : list (binding_t cond))
    (wave : Z) (st : build_st) : build_st :=
  let '(w, st) := foldl (build_inner sh phase wave) (None, st) bs in
  match w with
  | Some w => mkBuild (st.(bs_waves) ++ [w]) st.(bs_first) st.(bs_mem) st.(bs_failed)
  | None => st
  end.

(** The profiles the location ends up with, and its waves ([None] when an
    allocation fails). *)
Definition ngx_http_waf_waves_build (insp : list inspector_t) (mem : alloc_stream)
    wlcf (phase : phase_e) : list bytes * option (list wave_t) :=
  let profiles := map in_profile insp in
  let '(ok, mem) := alloc mem in
  if negb ok then (profiles, None)
  else match wlcf.(lc_inspects) phase with
       | None | Some [] => (profiles, Some [])
       | Some bs =>
           let st := for_range (NGX_HTTP_WAF_MAX_WAVE + 1)
                       (build_outer (wlcf.(lc_shoot) phase) phase bs)
                       (mkBuild [] true mem false) in
           (profiles, if st.(bs_failed) then None else Some st.(bs_waves))
       end.

(** *** What the loops compute *)

Definition in_wave (phase : phase_e) (n : Z) b : bool :=
  (b.(b_phase) ==? phase) && (b.(b_wave) =? n).
Definition phase_members (phase : phase_e) (bs : list (binding_t cond)) (n : Z) : list (binding_t cond) :=
  List.filter (in_wave phase n) bs.

(** The wave numbers in use, in increasing order. *)
Definition wave_numbers (phase : phase_e) (bs : list (binding_t cond)) (m : nat) : list Z :=
  List.filter (fun n => existsb (in_wave phase n) bs) (map Z.of_nat (seq 0 m)).

Definition build_one (sh : shoot_t) (phase : phase_e) (bs : list (binding_t cond))
    (k : nat) (n : Z) : wave_t :=
  foldl add_binding (open_wave sh (bool_decide (k = 0%nat))) (phase_members phase bs n).

Lemma build_inner_failed sh phase n bs w st :
  st.(bs_failed) = true -> foldl (build_inner sh phase n) (w, st) bs = (w, st).
Proof. intros Hf. induction bs as [|b bs IH]; cbn; [done|]. by rewrite Hf. Qed.

Lemma build_inner_open sh phase n bs w st :
  st.(bs_failed) = false ->
  foldl (build_inner sh phase n) (Some w, st) bs =
  (Some (foldl add_binding w (phase_members phase bs n)), st).
Proof.
  intros Hf. revert w. induction bs as [|b bs IH]; intros w; cbn; [done|].
  rewrite Hf, <- negb_andb. fold (in_wave phase n b).
  destruct (in_wave phase n b); cbn; apply IH.
Qed.

Lemma build_inner_closed sh phase n bs st w st' :
  foldl (build_inner sh phase n) (None, st) bs = (w, st') -> st'.(bs_failed) = false ->
  st'.(bs_waves) = st.(bs_waves) /\ st.(bs_failed) = false /\
  if existsb (in_wave phase n) bs
  then w = Some (foldl add_binding (open_wave sh st.(bs_first)) (phase_members phase bs n)) /\
       st'.(bs_first) = false
  else w = None /\ st'.(bs_first) = st.(bs_first).
Proof.
  intros H Hf. assert (Hf0 : st.(bs_failed) = false).
  { destruct (bs_failed st) eqn:E; [|done]. rewrite build_inner_failed in H by done. congruence. }
  induction bs as [|b bs IH]; cbn in *; [simplify_eq; by split_and!|].
  rewrite Hf0, <- negb_andb in H. fold (in_wave phase n b) in H.
  destruct (in_wave phase n b); cbn in *; [|by apply IH].
  destruct (alloc (bs_mem st)) as [[] mem].
  - rewrite build_inner_open in H by done. simplify_eq. by split_and!.
  - rewrite build_inner_failed in H by done. simplify_eq.
Qed.

Lemma wave_numbers_S phase bs m :
  wave_numbers phase bs (S m) = wave_numbers phase bs m ++
    (if existsb (in_wave phase (Z.of_nat m)) bs then [Z.of_nat m] else []).
Proof. unfold wave_numbers. rewrite seq_S, map_app, List.filter_app. cbn. by case_match. Qed.

Lemma build_loop sh phase bs mem m :
  let st := for_upto m 0 (build_outer sh phase bs) (mkBuild [] true mem false) in
  st.(bs_failed) = false ->
  st.(bs_waves) = imap (build_one sh phase bs) (wave_numbers phase bs m) /\
  st.(bs_first) = bool_decide (wave_numbers phase bs m = []).
Proof.
  cbn zeta. set (st0 := mkBuild [] true mem false).
  pose (P := fun (i : Z) st => bs_failed st = false ->
    bs_waves st = imap (build_one sh phase bs) (wave_numbers phase bs (Z.to_nat i)) /\
    bs_first st = bool_decide (wave_numbers phase bs (Z.to_nat i) = [])).
  assert (HP : P (0 + Z.of_nat m) (for_upto m 0 (build_outer sh phase bs) st0)).
  { apply for_upto_inv; [done|]. intros i st Hi IH. unfold P, build_outer.
    destruct (foldl _ _ bs) as [w st'] eqn:E. intros Hf.
    assert (Hf' : bs_failed st' = false) by (by destruct w).
    apply build_inner_closed in E as (Hw & Hf0 & E); [|done]. destruct (IH Hf0) as [Hws Hfs].
    replace (Z.to_nat (i + 1)) with (S (Z.to_nat i)) by lia.
    rewrite wave_numbers_S, Z2Nat.id by lia.
    destruct (existsb _ bs); destruct E as [-> ->]; cbn; [|by rewrite !app_nil_r, Hw].
    rewrite imap_app, Hw, Hws. cbn. split.
    - do 2 f_equal. unfold build_one. rewrite Hfs, Nat.add_0_r. f_equal. f_equal.
      by destruct (wave_numbers phase bs (Z.to_nat i)).
    - by destruct (wave_numbers phase bs (Z.to_nat i)). }
  rewrite Z.add_0_l in HP. unfold P in HP. by rewrite Nat2Z.id in HP.
Qed.

(** The loops fail only when an allocation did. *)
Definition from_mem (mem : alloc_stream) (st : build_st) : Prop :=
  (st.(bs_failed) = true -> false ∈ mem) /\ (forall a, a ∈ st.(bs_mem) -> a ∈ mem).

Lemma alloc_In mem ok mem' : alloc mem = (ok, mem') ->
  (ok = false -> false ∈ mem) /\ (forall a, a ∈ mem' -> a ∈ mem).
Proof.
  destruct mem as [|a l]; cbn; intros H; simplify_eq; (split; [|by try right]); [done|].
  intros ->. by left.
Qed.

Lemma build_inner_mem mem sh phase n bs w st :
  from_mem mem st -> from_mem mem (foldl (build_inner sh phase n) (w, st) bs).2.
Proof.
  revert w st. induction bs as [|b bs IH]; intros w st Hst; cbn [foldl]; [done|].
  unfold build_inner at 2. destruct (bs_failed st) eqn:Ef; [by apply IH|].
  destruct (negb _ || _); [by apply IH|]. destruct w as [w|]; [by apply IH|].
  destruct (alloc (bs_mem st)) as [ok mem'] eqn:E. apply alloc_In in E as [E1 E2].
  destruct Hst as [_ Hst]. destruct ok; apply IH; split; cbn; auto.
Qed.

Lemma build_mem sh phase bs mem m :
  from_mem mem (for_upto m 0 (build_outer sh phase bs) (mkBuild [] true mem false)).
Proof.
  apply (for_upto_inv (fun _ => from_mem mem)); [split; [done|auto]|].
  intros i st _ Hst. unfold build_outer. pose proof (build_inner_mem mem sh phase i bs None st Hst) as H.
  destruct (foldl _ _ _) as [[w|] st']; exact H.
Qed.

(** *** Masks of a wave *)

Definition index_ok b : Prop := 0 <= b.(b_index) < 64.
Definition has_mode (bs : list (binding_t cond)) (i : Z) (m : mode_e) : bool :=
  existsb (fun b => (b.(b_index) =? i) && (b.(b_mode) ==? m)) bs.
Definition has_index (bs : list (binding_t cond)) (i : Z) : bool :=
  existsb (fun b => b.(b_index) =? i) bs.

Lemma foldl_add_binding bs w i :
  Forall index_ok bs -> 0 <= i ->
  let w' := foldl add_binding w bs in
  Z.testbit w'.(w_all) i = Z.testbit w.(w_all) i || has_index bs i /\
  Z.testbit w'.(w_off) i = Z.testbit w.(w_off) i || has_mode bs i MODE_OFF /\
  Z.testbit w'.(w_passive) i = Z.testbit w.(w_passive) i || has_mode bs i MODE_PASSIVE /\
  Z.testbit w'.(w_vote) i = Z.testbit w.(w_vote) i || has_mode bs i MODE_VOTE /\
  w'.(w_body_need) = w.(w_body_need) /\ w'.(w_obj_need) = w.(w_obj_need).
Proof.
  intros Hb Hi. revert w. induction Hb as [|b bs Hx _ IH]; intros w w'.
  { subst w'. cbn. by rewrite !orb_false_r. }
  subst w'. cbn [foldl]. destruct (IH (add_binding w b)) as (-> & -> & -> & -> & -> & ->).
  unfold add_binding. unfold index_ok in Hx.
  destruct (b_mode b) eqn:Em; cbn; rewrite ?Z.lor_spec, ?testbit_bit, Em by lia;
    destruct (b_index b =? i); cbn; rewrite ?orb_false_r, ?orb_true_r, ?orb_true_l;
    by destruct (Z.testbit (w_all w) i), (Z.testbit (w_off w) i), (Z.testbit (w_passive w) i),
         (Z.testbit (w_vote w) i).
Qed.

Lemma existsb_members phase bs n (f : binding_t cond -> bool) :
  existsb f (phase_members phase bs n) = existsb (fun b => in_wave phase n b && f b) bs.
Proof.
  unfold phase_members. induction bs as [|b bs IH]; cbn; [done|].
  destruct (in_wave phase n b); cbn; by rewrite IH.
Qed.

(** The waves of a phase are the wave numbers in use in increasing order;
    wave [n] holds exactly the inspectors bound with that number, its off,
    passive and vote masks are the modes of its bindings, every wave asks for
    the captured objects and only the first one for the body, in full or as a
    prefix by the capture limit.  The construction fails only when memory
    does. *)
Theorem waves_build_spec insp mem wlcf phase bs :
  wlcf.(lc_inspects) phase = Some bs -> Forall index_ok bs ->
  let ns := wave_numbers phase bs 65 in
  match snd (ngx_http_waf_waves_build insp mem wlcf phase) with
  | None => false ∈ mem
  | Some ws =>
  length ws = length ns /\
  forall k w n, ws !! k = Some w -> ns !! k = Some n ->
    (forall i, 0 <= i ->
       Z.testbit w.(w_all) i = existsb (fun b => in_wave phase n b && (b.(b_index) =? i)) bs /\
       Z.testbit w.(w_off) i =
         existsb (fun b => in_wave phase n b && ((b.(b_index) =? i) && (b.(b_mode) ==? MODE_OFF))) bs /\
       Z.testbit w.(w_passive) i =
         existsb (fun b => in_wave phase n b && ((b.(b_index) =? i) && (b.(b_mode) ==? MODE_PASSIVE))) bs /\
       Z.testbit w.(w_vote) i =
         existsb (fun b => in_wave phase n b && ((b.(b_index) =? i) && (b.(b_mode) ==? MODE_VOTE))) bs) /\
    w.(w_obj_need) = (wlcf.(lc_shoot) phase).(sh_capture) /\
    w.(w_body_need) =
      (if (k =? 0)%nat && negb (Z.land (wlcf.(lc_shoot) phase).(sh_capture)
                                  (NGX_HTTP_WAF_OBJ_BIT NGX_HTTP_WAF_OBJ_BODY) =? 0)
       then if (wlcf.(lc_shoot) phase).(sh_capture_limit_body) =? NGX_HTTP_WAF_CAPTURE_LIMIT_WHOLE
            then BODY_FULL else BODY_PREVIEW
       else BODY_NONE)
  end.
Proof.
  intros Hbs Hok ns. destruct (snd _) as [ws|] eqn:Hb; unfold ngx_http_waf_waves_build in Hb;
    destruct (alloc mem) as [[] mem'] eqn:Em; rewrite ?Hbs in Hb; cbn [negb] in Hb; try done;
    apply alloc_In in Em as [Em1 Em2]; [| |by apply Em1]; last first.
  { destruct bs as [|b0 bs0]; [done|]. cbn [snd] in Hb. destruct (bs_failed _) eqn:Ef in Hb; [|done].
    apply Em2, (proj1 (build_mem (lc_shoot wlcf phase) phase (b0 :: bs0) mem' 65) Ef). }
  assert (Hws : ws = imap (build_one (lc_shoot wlcf phase) phase bs) ns).
  { destruct bs as [|b0 bs0]; [cbn in Hb; by simplify_eq|]. cbn [snd] in Hb. unfold for_range in Hb.
    destruct (bs_failed _) eqn:Ef in Hb; [done|]. simplify_eq.
    by apply build_loop in Ef as [-> _]. }
  subst ws. split; [apply length_imap|]. intros k w n Hw Hn.
  rewrite list_lookup_imap, Hn in Hw. cbn in Hw. simplify_eq.
  unfold build_one. set (w0 := open_wave _ _).
  assert (Hm : Forall index_ok (phase_members phase bs n)).
  { unfold phase_members. rewrite Forall_forall in *. intros b Hin. apply Hok.
    apply list_elem_of_In in Hin. apply List.filter_In in Hin as [Hin _]. by apply list_elem_of_In. }
  assert (Hz : w_all w0 = 0 /\ w_off w0 = 0 /\ w_passive w0 = 0 /\ w_vote w0 = 0)
    by (unfold w0, open_wave; repeat case_match; done).
  destruct Hz as (Ha & Ho & Hp & Hv). split_and!.
  - intros i Hi. destruct (foldl_add_binding (phase_members phase bs n) w0 i Hm Hi)
      as (-> & -> & -> & -> & _). rewrite Ha, Ho, Hp, Hv, !Z.testbit_0_l. cbn.
    unfold has_index, has_mode. by rewrite !existsb_members.
  - destruct (foldl_add_binding (phase_members phase bs n) w0 0 Hm) as (_ & _ & _ & _ & _ & ->); [lia|].
    unfold w0, open_wave. by repeat case_match.
  - destruct (foldl_add_binding (phase_members phase bs n) w0 0 Hm) as (_ & _ & _ & _ & -> & _); [lia|].
    unfold w0, open_wave. replace (bool_decide (k = 0%nat)) with (k =? 0)%nat
      by (destruct (Nat.eqb_spec k 0); by case_bool_decide).
    by repeat case_match.
Qed.

(** *** Keep and resume *)

Lemma binding_find_Some wlcf index phase b :
  ngx_http_waf_binding_find wlcf index phase = Some b ->
  b ∈ list_of (wlcf.(lc_inspects) phase) /\ b.(b_index) = index.
Proof.
  unfold ngx_http_waf_binding_find, list_of. destruct (lc_inspects wlcf phase); [|done]. cbn.
  intros H. apply find_some in H as [H1 H2]. rewrite list_elem_of_In. split; [done|lia].
Qed.

(** What the check demands of one location. *)
Definition resume_pairs_ok wlcf : Prop :=
  (forall b, b ∈ list_of (wlcf.(lc_inspects) PHASE_REQUEST) -> b.(b_keep) = true ->
     exists later b', later <> PHASE_REQUEST /\
       ngx_http_waf_binding_find wlcf b.(b_index) later = Some b' /\ b'.(b_resume) <> RESUME_OFF) /\
  (forall phase b, phase <> PHASE_REQUEST -> b ∈ list_of (wlcf.(lc_inspects) phase) ->
     b.(b_resume) <> RESUME_OFF ->
     exists rb, ngx_http_waf_binding_find wlcf b.(b_index) PHASE_REQUEST = Some rb /\
                rb.(b_keep) = true).

Lemma check_resume_conf_spec wlcf :
  check_resume_conf wlcf = true <->
  (wlcf.(lc_enable) = true -> wlcf.(lc_has_children) = false -> resume_pairs_ok wlcf).
Proof.
  assert (Hlater : forall p, p ∈ later_phases PHASE_REQUEST <-> p <> PHASE_REQUEST).
  { intros p. rewrite later_phases_spec. by destruct p. }
  unfold check_resume_conf, resume_pairs_ok.
  destruct (lc_enable wlcf), (lc_has_children wlcf); cbn -[later_phases]; try done.
  rewrite andb_true_iff, !forallb_forall. setoid_rewrite <- list_elem_of_In.
  setoid_rewrite forallb_forall. setoid_rewrite <- list_elem_of_In.
  split; [intros [H1 H2] _ _; split|intros H; destruct H as [H1 H2]; [done..|split]].
  - intros b Hb Hk. specialize (H1 b Hb). rewrite Hk in H1. cbn [negb] in H1.
    destruct (ngx_http_waf_resume_phase _ _ _) as [later|] eqn:E; [|done].
    apply find_some in E as [E1 E2]. rewrite <- list_elem_of_In, Hlater in E1.
    exists later. case_match; [|done]. apply negb_true_iff, bool_decide_eq_false in E2. eauto.
  - intros phase b Hp Hb Hr. specialize (H2 phase (proj2 (Hlater phase) Hp) b Hb).
    rewrite bool_decide_eq_false_2 in H2 by done. case_match; [eauto|done].
  - intros b Hb. destruct (b_keep b) eqn:Ek; [|done]. cbn [negb].
    destruct (H1 b Hb Ek) as (later & b' & Hl & Hf & Hr).
    destruct (ngx_http_waf_resume_phase _ _ _) eqn:E; [done|].
    apply find_none with (x := later) in E; [|by apply list_elem_of_In, Hlater].
    rewrite Hf in E. by apply negb_false_iff, bool_decide_eq_true in E.
  - intros phase Hp b Hb. destruct (b_resume b ==? RESUME_OFF) eqn:Er; [done|].
    apply bool_decide_eq_false in Er.
    destruct (H2 phase b) as (rb & -> & Hk); [by apply Hlater|done..].
Qed.

(** The configuration check passes exactly when, in every enabled leaf
    location, an inspector that keeps its state on the request is resumed by
    some later phase and an inspector that resumes in a later phase has a
    request binding that keeps the state. *)
Theorem check_resume_pairs_spec (confs : list (loc_conf cond)) :
  ngx_http_waf_check_resume_pairs (Some confs) = NGX_OK <->
  forall wlcf, wlcf ∈ confs -> wlcf.(lc_enable) = true -> wlcf.(lc_has_children) = false ->
    resume_pairs_ok wlcf.
Proof.
  unfold ngx_http_waf_check_resume_pairs.
  setoid_rewrite <- check_resume_conf_spec. setoid_rewrite list_elem_of_In.
  rewrite <- forallb_forall. by case_match.
Qed.

(** an action is deliverable exactly when its addressee is still to be
    called: in a later wave of this phase, or in any later phase. *)
Theorem action_deliverable_spec wlcf to phase wave :
  ngx_http_waf_action_deliverable wlcf to phase wave = true <->
  (exists b, ngx_http_waf_binding_find wlcf to phase = Some b /\ wave < b.(b_wave)) \/
  (exists p b, phase_num phase < phase_num p /\ ngx_http_waf_binding_find wlcf to p = Some b).
Proof.
  unfold ngx_http_waf_action_deliverable.
  assert (Hex : existsb (fun p => match ngx_http_waf_binding_find wlcf to p with
                          | Some _ => true | None => false end) (later_phases phase) = true <->
      exists p b, phase_num phase < phase_num p /\ ngx_http_waf_binding_find wlcf to p = Some b).
  { rewrite existsb_exists. setoid_rewrite <- list_elem_of_In. setoid_rewrite later_phases_spec. split.
    - intros (p & Hp & H). case_match; [eauto|done].
    - intros (p & b & Hp & H). exists p. by rewrite H. }
  rewrite <- Hex. clear Hex.
  destruct (ngx_http_waf_binding_find wlcf to phase) as [b|].
  - destruct (Z.ltb_spec wave (b_wave b)); split; intros; eauto.
    destruct H0 as [(b' & ? & ?)|]; [simplify_eq; lia|done].
  - split; [auto|]. intros [(b & ? & _)|]; done.
Qed.


End graph.

(** *** A concrete graph: one inspector on wave 0, two on wave 2 *)

Definition demo_binding (i wave : Z) (m : mode_e) : binding_t unit :=
  mkBinding [] i wave 0 m PHASE_REQUEST RESUME_OFF false None.
Definition demo_bindings : list (binding_t unit) :=
  [demo_binding 1 2 MODE_PASSIVE; demo_binding 3 0 MODE_ACTIVE; demo_binding 5 2 MODE_OFF].
Definition demo_conf : loc_conf unit :=
  mkLocConf true false
    (fun p => if p ==? PHASE_REQUEST then Some demo_bindings else None) (fun _ => None)
    (fun _ => 50) (fun _ _ => POLICY_PASS) (fun _ _ => []) (fun _ => DENY_FAST) (fun _ => 0)
    (fun _ => mkShoot 4 0) 16.

Lemma waves_build_spec_witness :
  exists ws, snd (ngx_http_waf_waves_build [] [] demo_conf PHASE_REQUEST) = Some ws /\
    length ws = 2%nat /\
    exists w, ws !! 1%nat = Some w /\ Z.testbit w.(w_passive) 1 = true /\ Z.testbit w.(w_off) 5 = true.
Proof.
  assert (Hok : Forall index_ok demo_bindings)
    by (unfold demo_bindings, index_ok; repeat apply Forall_cons_2; try apply Forall_nil_2; cbn; lia).
  pose proof (waves_build_spec [] [] demo_conf PHASE_REQUEST demo_bindings eq_refl Hok) as H.
  destruct (snd (ngx_http_waf_waves_build [] [] demo_conf PHASE_REQUEST)) as [ws|] eqn:E;
    [|destruct (proj1 (elem_of_nil false) H)].
  destruct H as [Hlen Hk]. exists ws. split; [reflexivity|]. split; [exact Hlen|].
  destruct (lookup_lt_is_Some_2 ws 1) as [w Hw]; [rewrite Hlen; vm_compute; lia|].
  exists w. split; [exact Hw|]. destruct (Hk 1%nat w 2 Hw) as [Hbits _]; [vm_compute; reflexivity|].
  destruct (Hbits 1 ltac:(lia)) as (_ & _ & H1 & _). destruct (Hbits 5 ltac:(lia)) as (_ & H5 & _).
  split; [rewrite H1|rewrite H5]; vm_compute; reflexivity.
Defined.
End Graph.
