(* ===== verification/Verdict.v ===== *)
(** Accounting of replies, merging of what inspectors ask for, the effective
    mode of an inspector in a wave and the resolution of a phase's verdict
    (runtime/ngx_http_waf_verdict.c).

    Log lines and the once-per-location warning flags are not modelled. *)
From S2P Require Import Prelude Types Graph.
#[local] Open Scope Z_scope.

(** ** Names *)
Module Names.

Definition ngx_http_waf_verdict_names : list bytes :=
  [lit "allow"; lit "score"; lit "redirect"; lit "deny"; lit "error"].
Definition ngx_http_waf_phase_names : list bytes :=
  [lit "request"; lit "response"; lit "frame"; lit "frame"].
Definition ngx_http_waf_do_names : list bytes :=
  [lit "challenge"; lit "threshold"; lit "skip"; lit "reauth"; lit "note"; lit "mutate";
   lit "active"; lit "passive"; lit "off"; lit "vote"; lit "audit"; lit "archive";
   lit "mark"; lit "score"].
Definition ngx_http_waf_apply_names : list bytes :=
  [lit "request"; lit "ip"; lit "asn"; lit "session"; lit "conn"; lit "response"].
Definition ngx_http_waf_code_names : list bytes :=
  [lit ""; lit "local_list"; lit "local_rate"; lit "inspector"; lit "score";
   lit "fail_timeout"; lit "fail_absent"; lit "fail_bus"; lit "fail_body";
   lit "fail_inspector"; lit "fail_overload"; lit "local_upgrade"].
Definition ngx_http_waf_exc_names : list bytes :=
  [lit "timeout"; lit "absent"; lit "bus"; lit "body"; lit "inspector"; lit "overload"].
Definition ngx_http_waf_deny_scope_names : list bytes :=
  [lit ""; lit "address"; lit "network"; lit "country"; lit "asn"; lit "session"; lit "request"].
Definition ngx_http_waf_entry_state_names : list bytes :=
  [lit ""; lit "timeout"; lit "absent"; lit "skipped"; lit "off"].

(** The accessors take the raw [ngx_uint_t] and clamp it. *)
Definition ngx_http_waf_verdict_name (v : Z) : bytes :=
  aget [] ngx_http_waf_verdict_names (if 4 <? v then 0 else v).
Definition ngx_http_waf_do_name (v : Z) : bytes :=
  aget [] ngx_http_waf_do_names (if 13 <? v then 13 else v).
Definition ngx_http_waf_apply_name (v : Z) : bytes :=
  aget [] ngx_http_waf_apply_names (if 5 <? v then 0 else v).
Definition ngx_http_waf_phase_name (v : Z) : bytes :=
  aget [] ngx_http_waf_phase_names (if 4 <=? v then 0 else v).
Definition ngx_http_waf_to_phase_name (phases : Z) : bytes :=
  if phases =? NGX_HTTP_WAF_PH_BIT PHASE_REQUEST then aget [] ngx_http_waf_phase_names 0
  else if phases =? NGX_HTTP_WAF_PH_BIT PHASE_RESPONSE then aget [] ngx_http_waf_phase_names 1
  else lit "frame".
Definition ngx_http_waf_code_name (v : Z) : bytes :=
  aget [] ngx_http_waf_code_names (if 11 <? v then 0 else v).
Definition ngx_http_waf_exc_name (v : Z) : bytes :=
  aget [] ngx_http_waf_exc_names (if 6 <=? v then 0 else v).
Definition ngx_http_waf_deny_scope_name (v : Z) : bytes :=
  aget [] ngx_http_waf_deny_scope_names (if 6 <? v then 0 else v).
Definition ngx_http_waf_entry_state_name (v : Z) : bytes :=
  aget [] ngx_http_waf_entry_state_names (if 4 <? v then 0 else v).

Definition ngx_http_waf_exc_of (code : code_e) : exc_e :=
  match code with
  | CODE_FAIL_ABSENT => EXC_ABSENT
  | CODE_FAIL_BUS => EXC_BUS
  | CODE_FAIL_BODY => EXC_BODY
  | CODE_FAIL_INSPECTOR => EXC_INSPECTOR
  | CODE_FAIL_OVERLOAD => EXC_OVERLOAD
  | _ => EXC_TIMEOUT
  end.

(** [for (i = SCOPE_ADDRESS; i <= SCOPE_REQUEST; i++)] with its early return. *)
Fixpoint scope_scan (word : bytes) (i : Z) (names : list bytes) : Z :=
  match names with
  | [] => 0
  | n :: names' => if bytes_eqb word n then i else scope_scan word (i + 1) names'
  end.

Definition ngx_http_waf_deny_scope_parse (word : bytes) : Z :=
  scope_scan word 1 (drop 1 ngx_http_waf_deny_scope_names).

(** the scope words parse back to the scope they name, and a word that
    is not one of the six names no scope. *)
Theorem deny_scope_roundtrip :
  (forall s, 1 <= s <= 6 -> ngx_http_waf_deny_scope_parse (ngx_http_waf_deny_scope_name s) = s) /\
  (forall w, ngx_http_waf_deny_scope_parse w <> 0 ->
             ngx_http_waf_deny_scope_name (ngx_http_waf_deny_scope_parse w) = w) /\
  (forall w, 0 <= ngx_http_waf_deny_scope_parse w <= 6).
Proof.
  split_and!.
  - intros s Hs. assert (s = 1 \/ s = 2 \/ s = 3 \/ s = 4 \/ s = 5 \/ s = 6) as Hc by lia.
    destruct_or!; subst; vm_compute; reflexivity.
  - intros w. unfold ngx_http_waf_deny_scope_parse. cbn [drop ngx_http_waf_deny_scope_names scope_scan].
    repeat (case_match; [apply bytes_eqb_eq in H; intros _; subst w; reflexivity|clear H]). done.
  - intros w. unfold ngx_http_waf_deny_scope_parse. cbn [drop ngx_http_waf_deny_scope_names scope_scan].
    repeat case_match; lia.
Qed.

End Names.

(** ** The verdict of a phase *)
Module Verdict.
Import Graph.

Section verdict.
Context {cond : Type}.
(** The location's configuration and [wmcf->inspectors.nelts]. *)
Context (wlcf : loc_conf cond) (ninsp : Z).

(** *** Replies of the current phase *)

Definition get_reply (c : ctx_t) (i : Z) : reply_t :=
  aget reply0 (default [] (ph c).(ph_replies)) i.
Definition set_reply (i : Z) (f : reply_t -> reply_t) (c : ctx_t) : ctx_t :=
  on_ph (fun p => p <| ph_replies ::= fmap (fun l => aset l i (f (aget reply0 l i))) |>) c.

Definition ngx_http_waf_score_deny_at (c : ctx_t) : Z := wlcf.(lc_score_deny) c.(c_phase).

(** [reply] is [&ctx->ph->replies[index]] at the only call. *)
Definition ngx_http_waf_account (index : Z) (c : ctx_t) : ctx_t :=
  let c := on_ph (fun p => p <| ph_order ::= fun n => u64 (n + 1) |>) c in
  let c := set_reply index (fun r => r <| r_order := (ph c).(ph_order) |>) c in
  let r := get_reply c index in
  if (r.(r_verdict) ==? V_REDIRECT) && negb (c.(c_phase) ==? PHASE_REQUEST) then
    set_reply index (fun r => r <| r_verdict := V_ALLOW |>) c
  else
    let vote_deny := r.(r_vote) && (r.(r_verdict) ==? V_DENY) in
    let c := if vote_deny
             then set_reply index (fun r => r <| r_score := NGX_HTTP_WAF_SCORE_MAX |>) c else c in
    if negb vote_deny && negb (r.(r_verdict) ==? V_SCORE) then c
    else
      let r := get_reply c index in
      if r.(r_score) <=? 0 then c
      else if r.(r_passive) then on_ph (fun p => p <| ph_shadow ::= fun s => s + r.(r_score) |>) c
      else on_ph (fun p => p <| ph_score ::= fun s => s + r.(r_score) |>) c.

(** *** Markers *)

Definition ngx_http_waf_markers_add (a : action_t) (c : ctx_t) : ngx_rc * ctx_t :=
  if zlen a.(a_marker) =? 0 then (NGX_DECLINED, c)
  else
    let '(ok, c) := match c.(c_markers) with
                    | Some _ => (true, c)
                    | None => let '(ok, c) := pool_alloc c in
                              (ok, if ok then c <| c_markers := Some [] |> else c)
                    end in
    if negb ok then (NGX_ERROR, c)
    else
      let live := default [] c.(c_markers) in
      if existsb (fun m => bytes_eqb m a.(a_marker)) live then (NGX_OK, c)
      else if NGX_HTTP_WAF_MARKERS_MAX <=? zlen live then (NGX_DECLINED, c)
      else
        let '(ok, c) := pool_alloc c in
        if negb ok then (NGX_ERROR, c)
        else (NGX_OK, c <| c_markers := Some (live ++ [a.(a_marker)]) |>).

(** *** Score actions *)

Definition ngx_http_waf_score_apply (a : action_t) (c : ctx_t) : ngx_rc * ctx_t :=
  if a.(a_passive) then (NGX_DECLINED, c)
  else if bool_decide ((ph c).(ph_replies) = None) || (ninsp <=? a.(a_from)) then (NGX_DECLINED, c)
  else
    let was := (get_reply c a.(a_from)).(r_score) in
    let now := was + a.(a_value) in
    let now := if NGX_HTTP_WAF_SCORE_MAX <? now then NGX_HTTP_WAF_SCORE_MAX
               else if now <? - NGX_HTTP_WAF_SCORE_MAX then - NGX_HTTP_WAF_SCORE_MAX else now in
    let applied := now - was in
    let applied := if (ph c).(ph_score) + applied <? 0 then - (ph c).(ph_score) else applied in
    let c := set_reply a.(a_from) (fun r => r <| r_score := was + applied |>) c in
    (NGX_OK, on_ph (fun p => p <| ph_score ::= fun s => s + applied |>) c).

(** *** Control actions *)

Definition ngx_http_waf_control_set (ctl : control_t) (verb : do_e) (bt : Z) : control_t :=
  let ctl := ctl <| ctl_active ::= fun m => Z.land m (bnot64 bt) |>
                 <| ctl_passive ::= fun m => Z.land m (bnot64 bt) |>
                 <| ctl_off ::= fun m => Z.land m (bnot64 bt) |>
                 <| ctl_vote ::= fun m => Z.land m (bnot64 bt) |> in
  match verb with
  | DO_ACTIVE => ctl <| ctl_active ::= fun m => Z.lor m bt |>
  | DO_PASSIVE => ctl <| ctl_passive ::= fun m => Z.lor m bt |>
  | DO_OFF => ctl <| ctl_off ::= fun m => Z.lor m bt |>
  | DO_VOTE => ctl <| ctl_vote ::= fun m => Z.lor m bt |>
  | _ => ctl
  end.

Definition ngx_http_waf_do_control (v : do_e) : bool :=
  match v with DO_ACTIVE | DO_PASSIVE | DO_OFF | DO_VOTE => true | _ => false end.
Definition ngx_http_waf_do_audit (v : do_e) : bool :=
  match v with DO_AUDIT | DO_ARCHIVE => true | _ => false end.
Definition ngx_http_waf_do_mark (v : do_e) : bool := v ==? DO_MARK.
Definition ngx_http_waf_do_score (v : do_e) : bool := v ==? DO_SCORE.

Definition phase_bit_set (phases : Z) (p : phase_e) : bool :=
  negb (Z.land phases (NGX_HTTP_WAF_PH_BIT p) =? 0).

Definition ngx_http_waf_control_apply (a : action_t) (c : ctx_t) : ngx_rc * ctx_t :=
  let phases := if negb (a.(a_to_phases) =? 0) then a.(a_to_phases) else NGX_HTTP_WAF_PH_ALL in
  let refused :=
    if a.(a_to) =? NGX_HTTP_WAF_ACTION_ALL then true
    else if a.(a_passive) then true
    else if (a.(a_apply) ==? APPLY_CONN) && negb (ngx_http_waf_phase_is_frame c.(c_phase)) then true
    else negb (existsb (fun p => phase_bit_set phases p &&
                 bool_decide (is_Some (ngx_http_waf_binding_find wlcf a.(a_to) p))) all_phases) in
  if refused then (NGX_DECLINED, c)
  else
    let bt := bit a.(a_to) in
    let has_conn := (a.(a_apply) ==? APPLY_CONN) && bool_decide (is_Some c.(c_conn)) in
    (NGX_OK,
     foldl (fun c p =>
       if negb (phase_bit_set phases p) then c
       else
         let c := c <| c_ctl ::= fun f => pset f p (ngx_http_waf_control_set (f p) a.(a_verb) bt) |> in
         if has_conn
         then c <| c_conn ::= fmap (fun f => pset f p (ngx_http_waf_control_set (f p) a.(a_verb) bt)) |>
         else c) c all_phases).

(** *** Audit overrides *)

Definition ngx_http_waf_audit_ovr_set (ovr : audit_ovr) (a : action_t) : audit_ovr :=
  let part := a.(a_spec) <| o_set := a.(a_set) |> in
  if a.(a_verb) ==? DO_AUDIT then ovr <| ao_audit := part |> else ovr <| ao_archive := part |>.

Definition ngx_http_waf_audit_ovr_apply (a : action_t) (c : ctx_t) : ngx_rc * ctx_t :=
  if (a.(a_apply) ==? APPLY_RESPONSE) && ngx_http_waf_phase_is_frame c.(c_phase)
  then (NGX_DECLINED, c)
  else if a.(a_apply) ==? APPLY_RESPONSE
       then (NGX_OK, c <| c_ovr_response ::= fun o => ngx_http_waf_audit_ovr_set o a |>)
       else (NGX_OK, c <| c_ovr_request ::= fun o => ngx_http_waf_audit_ovr_set o a |>).

(** *** Merging the actions of a reply *)

(** Same sender, addressee, verb and key: the later action replaces the
    earlier one. *)
Definition same_action (x y : action_t) : bool :=
  (x.(a_from) =? y.(a_from)) && (x.(a_to) =? y.(a_to)) && (x.(a_to_phases) =? y.(a_to_phases))
  && (x.(a_verb) ==? y.(a_verb)) && (x.(a_apply) ==? y.(a_apply))
  && bytes_eqb x.(a_code) y.(a_code) && bytes_eqb x.(a_counter) y.(a_counter)
  && bytes_eqb x.(a_group) y.(a_group) && bytes_eqb x.(a_marker) y.(a_marker).

Fixpoint find_index {A} (f : A -> bool) (l : list A) : option nat :=
  match l with
  | [] => None
  | x :: l' => if f x then Some O else S <$> find_index f l'
  end.

(** [if (applies && apply(ctx, a) != NGX_OK) continue;] *)
Definition gate (applies : bool) (f : ctx_t -> ngx_rc * ctx_t)
    (k : ctx_t -> ctx_t * bool) (c : ctx_t) : ctx_t * bool :=
  if applies then let '(rc, c) := f c in if rc_ok rc then k c else (c, false) else k c.

(** Storing the accepted action; the flag is the early [return]. *)
Definition store_action (found : option nat) (a : action_t) (c : ctx_t) : ctx_t * bool :=
  match found with
  | Some j => (c <| c_actions ::= fmap (fun l => <[j := a]> l) |>, false)
  | None => let '(ok, c) := pool_alloc c in
            if ok then (c <| c_actions ::= fmap (fun l => l ++ [a]) |>, false) else (c, true)
  end.

Definition merge_action (index wave : Z) (i : nat) (c : ctx_t) : ctx_t * bool :=
  let reply := get_reply c index in
  match reply.(r_actions) !! i with
  | None => (c, false)
  | Some a =>
      let a := a <| a_from := index |> <| a_phase := c.(c_phase) |> <| a_wave := wave |>
                 <| a_passive := reply.(r_passive) |> in
      let c := set_reply index (fun r => r <| r_actions ::= fun l => <[i := a]> l |>) c in
      let live := default [] c.(c_actions) in
      let found := find_index (fun x => same_action x a) live in
      if bool_decide (found = None) && (wlcf.(lc_actions_max) <=? zlen live) then (c, false)
      else
        gate (ngx_http_waf_do_control a.(a_verb)) (ngx_http_waf_control_apply a) (
        gate (ngx_http_waf_do_audit a.(a_verb)) (ngx_http_waf_audit_ovr_apply a) (fun c =>
        let c := if ngx_http_waf_do_mark a.(a_verb) then snd (ngx_http_waf_markers_add a c) else c in
        gate (ngx_http_waf_do_score a.(a_verb)) (ngx_http_waf_score_apply a)
             (store_action found a) c)) c
  end.

Fixpoint merge_loop (index wave : Z) (i n : nat) (c : ctx_t) : ctx_t :=
  match n with
  | O => c
  | S k => let '(c, stop) := merge_action index wave i c in
           if stop then c else merge_loop index wave (S i) k c
  end.

Definition ngx_http_waf_actions_merge (index wave : Z) (c : ctx_t) : ctx_t :=
  let n := length (get_reply c index).(r_actions) in
  if (n =? 0)%nat then c
  else if wlcf.(lc_actions_max) =? 0 then c
  else
    let '(ok, c) := match c.(c_actions) with
                    | Some _ => (true, c)
                    | None => let '(ok, c) := pool_alloc c in
                              (ok, if ok then c <| c_actions := Some [] |> else c)
                    end in
    if ok then merge_loop index wave 0 n c else c.

(** *** Sessions *)

Definition NGX_HTTP_WAF_SESSION_TEXT : Z := 64 + 16 + 256 + 128 + 256.

(** [reuse]: the target already owns a buffer.  The copy keeps every field of
    [src]; only the storage of its strings differs. *)
Definition ngx_http_waf_session_copy (src : session_t) (reuse : bool) (c : ctx_t)
    : option session_t * ctx_t :=
  if NGX_HTTP_WAF_SESSION_TEXT <? zlen src.(ss_source) + zlen src.(ss_kind) + zlen src.(ss_user)
                                  + zlen src.(ss_id) + zlen src.(ss_groups)
  then (None, c)
  else if reuse then (Some src, c)
  else let '(ok, c) := pool_alloc c in (if ok then Some src else None, c).

Definition same_session (x y : session_t) : bool :=
  (x.(ss_by) =? y.(ss_by)) && bytes_eqb x.(ss_source) y.(ss_source) && bytes_eqb x.(ss_id) y.(ss_id).

Definition merge_session (index : Z) (i : nat) (c : ctx_t) : ctx_t * bool :=
  let reply := get_reply c index in
  match reply.(r_sessions) !! i with
  | None => (c, false)
  | Some s =>
      let s := s <| ss_by := index |> <| ss_passive := reply.(r_passive) |> in
      let c := set_reply index (fun r => r <| r_sessions ::= fun l => <[i := s]> l |>) c in
      let live := default [] c.(c_sessions) in
      match find_index (fun x => same_session x s) live with
      | Some j =>
          let '(r, c) := ngx_http_waf_session_copy s true c in
          (match r with
           | Some s' => c <| c_sessions ::= fmap (fun l => <[j := s']> l) |>
           | None => c
           end, false)
      | None =>
          if NGX_HTTP_WAF_SESSIONS_MAX <=? zlen live then (c, false)
          else
            let '(ok, c) := pool_alloc c in
            if negb ok then (c, true)
            else let '(r, c) := ngx_http_waf_session_copy s false c in
                 (match r with
                  | Some s' => c <| c_sessions ::= fmap (fun l => l ++ [s']) |>
                  | None => c
                  end, false)
      end
  end.

Fixpoint sessions_loop (index : Z) (i n : nat) (c : ctx_t) : ctx_t :=
  match n with
  | O => c
  | S k => let '(c, stop) := merge_session index i c in
           if stop then c else sessions_loop index (S i) k c
  end.

Definition ngx_http_waf_sessions_merge (index : Z) (c : ctx_t) : ctx_t :=
  let n := length (get_reply c index).(r_sessions) in
  if (n =? 0)%nat then c
  else
    let '(ok, c) := match c.(c_sessions) with
                    | Some _ => (true, c)
                    | None => let '(ok, c) := pool_alloc c in
                              (ok, if ok then c <| c_sessions := Some [] |> else c)
                    end in
    if ok then sessions_loop index 0 n c else c.

(** *** The effective masks of a wave *)

Definition ctl_of (c : ctx_t) : control_t := c.(c_ctl) c.(c_phase).

Definition ngx_http_waf_wave_off (c : ctx_t) (w : wave_t) : Z :=
  let ctl := ctl_of c in
  Z.lor (Z.land w.(w_all) ctl.(ctl_off))
        (Z.land w.(w_off) (bnot64 (Z.lor (Z.lor ctl.(ctl_active) ctl.(ctl_passive)) ctl.(ctl_vote)))).

Definition ngx_http_waf_wave_passive (c : ctx_t) (w : wave_t) : Z :=
  let ctl := ctl_of c in
  let live := Z.land w.(w_all) (bnot64 (ngx_http_waf_wave_off c w)) in
  Z.land (Z.lor ctl.(ctl_passive)
            (Z.land w.(w_passive) (bnot64 (Z.lor ctl.(ctl_active) ctl.(ctl_vote))))) live.

Definition ngx_http_waf_wave_vote (c : ctx_t) (w : wave_t) : Z :=
  let ctl := ctl_of c in
  let live := Z.land w.(w_all) (bnot64 (ngx_http_waf_wave_off c w)) in
  Z.land (Z.lor ctl.(ctl_vote)
            (Z.land w.(w_vote) (bnot64 (Z.lor ctl.(ctl_active) ctl.(ctl_passive))))) live.

Definition ngx_http_waf_wave_mandatory (c : ctx_t) (w : wave_t) : Z :=
  let live := Z.land w.(w_all) (bnot64 (ngx_http_waf_wave_off c w)) in
  Z.land live (bnot64 (ngx_http_waf_wave_passive c w)).

Definition ngx_http_waf_wave_gating (c : ctx_t) (w : wave_t) : Z :=
  Z.land (ngx_http_waf_wave_mandatory c w) (bnot64 (ngx_http_waf_wave_vote c w)).

(** *** Resolution *)

(** One turn of the loop of [ngx_http_waf_pick]; the state is the best index
    so far with its order. *)
Definition pick_step (c : ctx_t) (verdict : verdict_e) (i : Z) (best : option (Z * Z)) : option (Z * Z) :=
  let r := get_reply c i in
  if negb r.(r_received) || negb (r.(r_verdict) ==? verdict) then best
  else if r.(r_passive) || r.(r_vote) then best
  else match best with
       | None => Some (i, r.(r_order))
       | Some (_, o) =>
           if (wlcf.(lc_deny_mode) c.(c_phase) ==? DENY_FAST) && (r.(r_order) <? o)
           then Some (i, r.(r_order)) else best
       end.

Definition ngx_http_waf_pick (c : ctx_t) (verdict : verdict_e) : option Z :=
  match (ph c).(ph_replies) with
  | None => None
  | Some _ => fst <$> for_range ninsp (pick_step c verdict) None
  end.

Definition ngx_http_waf_resolve_verdict (c : ctx_t) : ctx_t :=
  let c := on_ph (fun p => p <| ph_decisive := None |> <| ph_by_score := false |>
                             <| ph_code := CODE_NONE |>) c in
  match ngx_http_waf_pick c V_DENY with
  | Some i =>
      on_ph (fun p => p <| ph_verdict := V_DENY |> <| ph_decisive := Some i |>
                        <| ph_code := CODE_INSPECTOR |>) c <| c_state := ST_DENY |>
  | None =>
      let threshold := ngx_http_waf_score_deny_at c in
      if (0 <? threshold) && (threshold <=? (ph c).(ph_score)) then
        on_ph (fun p => p <| ph_verdict := V_DENY |> <| ph_by_score := true |>
                          <| ph_code := CODE_SCORE |>) c <| c_state := ST_DENY |>
      else match ngx_http_waf_pick c V_REDIRECT with
           | Some i =>
               on_ph (fun p => p <| ph_verdict := V_REDIRECT |> <| ph_decisive := Some i |>
                                 <| ph_code := CODE_INSPECTOR |>) c <| c_state := ST_REDIRECT |>
           | None =>
               let c := on_ph (fun p => p <| ph_verdict := V_ALLOW |>) c in
               c <| c_state := if (ph c).(ph_fail) ==? CODE_NONE then ST_ALLOW else ST_FAILED |>
           end
  end.

(** *** The effective mode of an inspector *)

(** What a control block says about an inspector, if anything, and what the
    configuration of the wave says. *)
Definition ctl_mode (ctl : control_t) (i : Z) : option mode_e :=
  if Z.testbit ctl.(ctl_off) i then Some MODE_OFF
  else if Z.testbit ctl.(ctl_passive) i then Some MODE_PASSIVE
  else if Z.testbit ctl.(ctl_vote) i then Some MODE_VOTE
  else if Z.testbit ctl.(ctl_active) i then Some MODE_ACTIVE else None.
Definition wave_mode (w : wave_t) (i : Z) : mode_e :=
  if Z.testbit w.(w_off) i then MODE_OFF
  else if Z.testbit w.(w_passive) i then MODE_PASSIVE
  else if Z.testbit w.(w_vote) i then MODE_VOTE else MODE_ACTIVE.
Definition effective_mode (c : ctx_t) (w : wave_t) (i : Z) : mode_e :=
  default (wave_mode w i) (ctl_mode (ctl_of c) i).

Definition b2z (b : bool) : Z := if b then 1 else 0.

(** At most one mode per inspector. *)
Record ctl_wf (ctl : control_t) : Prop := {
  ctl_u64 : is_u64 ctl.(ctl_active) /\ is_u64 ctl.(ctl_passive) /\
            is_u64 ctl.(ctl_off) /\ is_u64 ctl.(ctl_vote);
  ctl_one : forall i, 0 <= i < 64 ->
    b2z (Z.testbit ctl.(ctl_active) i) + b2z (Z.testbit ctl.(ctl_passive) i)
    + b2z (Z.testbit ctl.(ctl_off) i) + b2z (Z.testbit ctl.(ctl_vote) i) <= 1
}.
Record wave_wf (w : wave_t) : Prop := {
  wave_u64 : is_u64 w.(w_all) /\ is_u64 w.(w_passive) /\ is_u64 w.(w_off) /\ is_u64 w.(w_vote);
  wave_one : forall i, 0 <= i < 64 ->
    b2z (Z.testbit w.(w_passive) i) + b2z (Z.testbit w.(w_off) i) + b2z (Z.testbit w.(w_vote) i)
    <= b2z (Z.testbit w.(w_all) i)
}.

Ltac bool_cases :=
  repeat match goal with
         | |- context [Z.testbit ?x ?i] => destruct (Z.testbit x i)
         | H : context [Z.testbit ?x ?i] |- _ => destruct (Z.testbit x i)
         end.

Lemma wave_masks_spec c w i :
  ctl_wf (ctl_of c) -> wave_wf w -> 0 <= i < 64 ->
  let m := effective_mode c w i in let a := Z.testbit w.(w_all) i in
  Z.testbit (ngx_http_waf_wave_off c w) i = a && (m ==? MODE_OFF) /\
  Z.testbit (ngx_http_waf_wave_passive c w) i = a && (m ==? MODE_PASSIVE) /\
  Z.testbit (ngx_http_waf_wave_vote c w) i = a && (m ==? MODE_VOTE) /\
  Z.testbit (ngx_http_waf_wave_mandatory c w) i = a && ((m ==? MODE_ACTIVE) || (m ==? MODE_VOTE)) /\
  Z.testbit (ngx_http_waf_wave_gating c w) i = a && (m ==? MODE_ACTIVE).
Proof.
  intros [_ Hc] [_ Hw] Hi. specialize (Hc i Hi). specialize (Hw i Hi).
  unfold ngx_http_waf_wave_gating, ngx_http_waf_wave_mandatory, ngx_http_waf_wave_vote,
    ngx_http_waf_wave_passive, ngx_http_waf_wave_off, effective_mode, ctl_mode, wave_mode.
  autorewrite with waf_bits. revert Hc Hw.
  bool_cases; cbn [b2z negb andb orb default from_option]; intros; try lia; split_and!; reflexivity.
Qed.

(** Every inspector of a wave has one effective mode, the one a control
    action chose for it in this phase or else the configured one; the off,
    passive and vote masks are the inspectors of that mode, the gating mask
    the active ones, and the mandatory mask the active and voting ones. *)
Theorem wave_effective_modes c w i :
  ctl_wf (ctl_of c) -> wave_wf w -> 0 <= i < 64 -> Z.testbit w.(w_all) i = true ->
  let m := default (wave_mode w i) (ctl_mode (ctl_of c) i) in
  (Z.testbit (ngx_http_waf_wave_off c w) i = true <-> m = MODE_OFF) /\
  (Z.testbit (ngx_http_waf_wave_passive c w) i = true <-> m = MODE_PASSIVE) /\
  (Z.testbit (ngx_http_waf_wave_vote c w) i = true <-> m = MODE_VOTE) /\
  (Z.testbit (ngx_http_waf_wave_gating c w) i = true <-> m = MODE_ACTIVE) /\
  (Z.testbit (ngx_http_waf_wave_mandatory c w) i = true <-> m = MODE_ACTIVE \/ m = MODE_VOTE).
Proof.
  intros Hc Hw Hi Ha. destruct (wave_masks_spec c w i Hc Hw Hi) as (-> & -> & -> & -> & ->).
  unfold effective_mode. rewrite Ha. cbn [andb].
  rewrite !bool_decide_eq_true, orb_true_iff, !bool_decide_eq_true. tauto.
Qed.

(** *** Control actions *)

Definition verb_mode (v : do_e) : option mode_e :=
  match v with
  | DO_ACTIVE => Some MODE_ACTIVE | DO_PASSIVE => Some MODE_PASSIVE
  | DO_OFF => Some MODE_OFF | DO_VOTE => Some MODE_VOTE | _ => None
  end.

Lemma control_set_spec ctl verb k :
  ctl_wf ctl -> 0 <= k < 64 ->
  let ctl' := ngx_http_waf_control_set ctl verb (bit k) in
  ctl_wf ctl' /\ ctl_mode ctl' k = verb_mode verb /\
  forall i, 0 <= i < 64 -> i <> k -> ctl_mode ctl' i = ctl_mode ctl i.
Proof.
  intros [(Ha & Hp & Ho & Hv) Hone] Hk. unfold ngx_http_waf_control_set, ctl_mode. split_and!.
  - split; [destruct verb; cbn; split_and!; eauto 10 with waf|]. intros i Hi. specialize (Hone i Hi).
    destruct verb; cbn; autorewrite with waf_bits;
      destruct (k =? i); bool_cases; cbn in *; lia.
  - destruct verb; cbn; autorewrite with waf_bits; rewrite Z.eqb_refl; by bool_cases.
  - intros i Hi Hne. assert ((k =? i) = false) as He by lia.
    destruct verb; cbn; autorewrite with waf_bits; rewrite He; by bool_cases.
Qed.

Lemma foldl_phases {A} (f : A -> phase_e -> A) (P : A -> Prop) l x :
  P x -> (forall x p, P x -> P (f x p)) -> P (foldl f x l).
Proof. intros Hx Hf. revert x Hx. induction l; cbn; auto. Qed.

(** The control block of every phase after an accepted action. *)
Lemma control_apply_ctl a c c' p :
  ngx_http_waf_control_apply a c = (NGX_OK, c') ->
  let phases := if negb (a.(a_to_phases) =? 0) then a.(a_to_phases) else NGX_HTTP_WAF_PH_ALL in
  c'.(c_phase) = c.(c_phase) /\
  c'.(c_ctl) p = if phase_bit_set phases p
                 then ngx_http_waf_control_set (c.(c_ctl) p) a.(a_verb) (bit a.(a_to))
                 else c.(c_ctl) p.
Proof.
  unfold ngx_http_waf_control_apply. case_match; [done|]. intros H0. simplify_eq. cbn zeta.
  set (phases := if negb _ then _ else _). set (hc := _ && _).
  unfold all_phases. cbn [foldl].
  destruct (phase_bit_set phases PHASE_REQUEST) eqn:E0, (phase_bit_set phases PHASE_RESPONSE) eqn:E1,
    (phase_bit_set phases PHASE_FRAME_C2S) eqn:E2, (phase_bit_set phases PHASE_FRAME_S2C) eqn:E3;
    destruct hc; cbn [negb]; (split; [done|]); destruct p;
    rewrite ?E0, ?E1, ?E2, ?E3; done.
Qed.

(** Why a control action is accepted: it has an addressee, its sender is not
    passive, one that holds for a connection comes from a frame phase, and the
    addressee is called in an addressed phase. *)
Definition control_accepted (a : action_t) (c : ctx_t) (phases : Z) : Prop :=
  a.(a_to) <> NGX_HTTP_WAF_ACTION_ALL /\ a.(a_passive) = false /\
  (a.(a_apply) = APPLY_CONN -> ngx_http_waf_phase_is_frame c.(c_phase) = true) /\
  exists p b, phase_bit_set phases p = true /\ ngx_http_waf_binding_find wlcf a.(a_to) p = Some b.

Lemma control_apply_rc a c :
  let phases := if negb (a.(a_to_phases) =? 0) then a.(a_to_phases) else NGX_HTTP_WAF_PH_ALL in
  (control_accepted a c phases /\ fst (ngx_http_waf_control_apply a c) = NGX_OK) \/
  (~ control_accepted a c phases /\ ngx_http_waf_control_apply a c = (NGX_DECLINED, c)).
Proof.
  unfold ngx_http_waf_control_apply, control_accepted. cbn zeta.
  set (phases := if negb _ then _ else _). destruct (Z.eqb_spec (a_to a) NGX_HTTP_WAF_ACTION_ALL) as [He|Hne].
  { right. split; [|done]. by intros (? & _). }
  destruct (a_passive a); [right; split; [by intros (_ & ? & _)|done]|].
  destruct (_ && negb _) eqn:Ec in |- *.
  { apply andb_true_iff in Ec as [?%bool_decide_eq_true ?%negb_true_iff]. right. split; [|done].
    intros (_ & _ & Hf & _). rewrite Hf in *; done. }
  destruct (existsb _ _) eqn:Ex; cbn [negb].
  - left. split; [|done]. split_and!; [done|done| |].
    + intros Ha. rewrite Ha in Ec. by destruct (ngx_http_waf_phase_is_frame _).
    + apply existsb_exists in Ex as (p & _ & [Hp [b Hb]%bool_decide_eq_true]%andb_true_iff). eauto.
  - right. split; [|done]. intros (_ & _ & _ & p & b & Hp & Hb).
    apply not_true_iff_false in Ex. apply Ex, existsb_exists. exists p. split; [destruct p; cbn; tauto|].
    rewrite Hp, Hb. done.
Qed.

(** A control action is accepted exactly when it has an addressee that is
    called in an addressed phase, its sender is not passive and a hold on the
    connection comes from a frame; then it puts its addressee, and nobody
    else, into the requested mode in exactly the addressed phases and keeps
    the modes of every control block exclusive.  A refused one changes
    nothing. *)
Theorem control_apply_spec a c :
  (forall p, ctl_wf (c.(c_ctl) p)) -> (a.(a_to) <> NGX_HTTP_WAF_ACTION_ALL -> 0 <= a.(a_to) < 64) ->
  let '(rc, c') := ngx_http_waf_control_apply a c in
  let phases := if negb (a.(a_to_phases) =? 0) then a.(a_to_phases) else NGX_HTTP_WAF_PH_ALL in
  (control_accepted a c phases -> rc = NGX_OK /\
   forall p, ctl_wf (c'.(c_ctl) p) /\
     (phase_bit_set phases p = true -> ctl_mode (c'.(c_ctl) p) a.(a_to) = verb_mode a.(a_verb)) /\
     (phase_bit_set phases p = false -> c'.(c_ctl) p = c.(c_ctl) p) /\
     (forall i, 0 <= i < 64 -> i <> a.(a_to) -> ctl_mode (c'.(c_ctl) p) i = ctl_mode (c.(c_ctl) p) i)) /\
  (~ control_accepted a c phases -> rc = NGX_DECLINED /\ c' = c).
Proof.
  intros Hwf Hto. pose proof (control_apply_rc a c) as Hrc. cbn zeta in Hrc.
  destruct (ngx_http_waf_control_apply a c) as [rc c'] eqn:E. cbn zeta.
  destruct Hrc as [[Hacc Hrc]|[Hno Hrc]]; (split; [intros Hc|intros Hc]); try done; [|by simplify_eq].
  cbn in Hrc. subst rc. split; [done|]. intros p.
  destruct (control_apply_ctl a c c' p E) as [_ ->].
  destruct (control_set_spec (c_ctl c p) (a_verb a) (a_to a) (Hwf p) (Hto (proj1 Hc))) as (Hw & Hm & Hi).
  destruct (phase_bit_set _ p); split_and!; try done; auto.
Qed.

(** *** Resolution *)

(** A reply that may decide the phase: received, with that verdict, and
    neither passive nor a mere vote. *)
Definition candidate (c : ctx_t) (v : verdict_e) (i : Z) : Prop :=
  let r := get_reply c i in
  r.(r_received) = true /\ r.(r_verdict) = v /\ r.(r_passive) = false /\ r.(r_vote) = false.

(** [i] comes before [j] in the order the deny mode prescribes: by arrival,
    then by index, or by index alone. *)
Definition precedes (c : ctx_t) (i j : Z) : Prop :=
  if wlcf.(lc_deny_mode) c.(c_phase) ==? DENY_FAST then
    (get_reply c i).(r_order) < (get_reply c j).(r_order) \/
    (get_reply c i).(r_order) = (get_reply c j).(r_order) /\ i <= j
  else i <= j.

Definition chosen (c : ctx_t) (v : verdict_e) (i : Z) : Prop :=
  0 <= i < ninsp /\ candidate c v i /\
  forall j, 0 <= j < ninsp -> candidate c v j -> precedes c i j.
Definition nobody (c : ctx_t) (v : verdict_e) : Prop :=
  forall j, 0 <= j < ninsp -> candidate c v j -> False.

(** The loop of [pick] after [k] turns. *)
Definition pick_inv (c : ctx_t) (v : verdict_e) (k : Z) (best : option (Z * Z)) : Prop :=
  match best with
  | None => forall j, 0 <= j < k -> candidate c v j -> False
  | Some (i, o) => 0 <= i < k /\ candidate c v i /\ o = (get_reply c i).(r_order) /\
      forall j, 0 <= j < k -> candidate c v j -> precedes c i j
  end.

Lemma pick_step_inv c v k best :
  0 <= k -> pick_inv c v k best -> pick_inv c v (k + 1) (pick_step c v k best).
Proof.
  intros Hk H. unfold pick_step.
  assert (Hext : forall P : Z -> Prop, (forall j, 0 <= j < k -> P j) -> P k ->
            forall j, 0 <= j < k + 1 -> P j).
  { intros P H1 H2 j Hj. destruct (Z.eq_dec j k) as [->|]; [done|apply H1; lia]. }
  assert (Hskip : ~ candidate c v k -> pick_inv c v (k + 1) best).
  { intros Hn. unfold pick_inv in *. destruct best as [[i o]|].
    - destruct H as (? & ? & ? & H). split_and!; try done; try lia.
      by apply (Hext (fun j => candidate c v j -> precedes c i j)).
    - by apply (Hext (fun j => candidate c v j -> False)). }
  destruct (r_received (get_reply c k)) eqn:Er; cbn [negb orb];
    [|apply Hskip; intros (? & ? & ? & ?); congruence].
  destruct (bool_decide_reflect (r_verdict (get_reply c k) = v)) as [Hv|Hv]; cbn [negb];
    [|apply Hskip; intros (? & ? & ? & ?); congruence].
  destruct (r_passive (get_reply c k)) eqn:Ep; cbn [orb];
    [apply Hskip; intros (? & ? & ? & ?); congruence|].
  destruct (r_vote (get_reply c k)) eqn:Evt;
    [apply Hskip; intros (? & ? & ? & ?); congruence|].
  assert (Hc : candidate c v k) by done. clear Hskip.
  destruct best as [[i o]|]; cbn in H.
  - destruct H as (Hi & Hci & -> & H).
    assert (Hcase : forall b m o, b = k /\ o = r_order (get_reply c k) \/ b = i /\ o = m ->
      (precedes c b k) -> (precedes c b i) -> m = r_order (get_reply c i) ->
      pick_inv c v (k + 1) (Some (b, o))).
    { intros b m o Hb Hbk Hbi ->. cbn. split_and!; [lia|lia|by destruct_or!; destruct_and?; subst ..|].
      apply (Hext (fun j => candidate c v j -> precedes c b j)); [|done].
      intros j Hj Hcj. specialize (H j Hj Hcj). revert H Hbi. unfold precedes.
      destruct (_ ==? DENY_FAST); lia. }
    destruct (_ ==? DENY_FAST) eqn:Em; cbn [andb];
      [destruct (Z.ltb_spec (r_order (get_reply c k)) (r_order (get_reply c i)))|];
      eapply Hcase; eauto; unfold precedes; rewrite Em; lia.
  - cbn. split_and!; [lia|lia|done|done|].
    apply (Hext (fun j => candidate c v j -> precedes c k j)); [intros j Hj Hcj; by destruct (H j)|].
    intros _. unfold precedes. case_match; lia.
Qed.

Lemma pick_spec c v :
  0 <= ninsp -> (ph c).(ph_replies) <> None ->
  match ngx_http_waf_pick c v with Some i => chosen c v i | None => nobody c v end.
Proof.
  intros Hn Hr. unfold ngx_http_waf_pick. destruct (ph_replies (ph c)); [|done].
  pose proof (for_range_inv (pick_inv c v) ninsp (pick_step c v) None Hn) as H.
  destruct (for_range ninsp _ None) as [[i o]|]; cbn in *.
  - destruct H as (Hi & Hc & _ & H); [intros; lia|intros; apply pick_step_inv; [lia|done]|].
    by unfold chosen.
  - unfold nobody. apply H; [intros; lia|intros; apply pick_step_inv; [lia|done]].
Qed.

Lemma pick_no_replies c v :
  (ph c).(ph_replies) = None -> ngx_http_waf_pick c v = None /\ nobody c v.
Proof.
  intros Hr. unfold ngx_http_waf_pick, nobody, candidate, get_reply. rewrite Hr. split; [done|].
  intros j Hj. unfold aget. cbn. by destruct (j <? 0), (Z.to_nat j); intros (? & _).
Qed.

Lemma pick_correct c v :
  0 <= ninsp ->
  match ngx_http_waf_pick c v with Some i => chosen c v i | None => nobody c v end.
Proof.
  intros Hn. destruct (ph_replies (ph c)) eqn:Er; [apply pick_spec; by rewrite ?Er|].
  by destruct (pick_no_replies c v Er) as [-> ?].
Qed.

(** Resolution reads the replies, which the resets do not touch. *)
Lemma get_reply_on_ph f c i :
  (f (ph c)).(ph_replies) = (ph c).(ph_replies) -> get_reply (on_ph f c) i = get_reply c i.
Proof. intros H. unfold get_reply. by rewrite ph_on_ph, H. Qed.

Lemma pick_on_ph f c v :
  (f (ph c)).(ph_replies) = (ph c).(ph_replies) ->
  ngx_http_waf_pick (on_ph f c) v = ngx_http_waf_pick c v.
Proof.
  intros H. unfold ngx_http_waf_pick. rewrite ph_on_ph, H. case_match; [|done]. f_equal.
  unfold for_range. generalize (@None (Z * Z)), 0, (Z.to_nat ninsp).
  intros b k n. revert b k. induction n as [|n IH]; intros b k; cbn; [done|].
  rewrite IH. f_equal. unfold pick_step. by rewrite get_reply_on_ph by congruence.
Qed.

(** What a resolution leaves in the phase context. *)
Definition outcome (c : ctx_t) : verdict_e * state_e * code_e * option Z * bool :=
  ((ph c).(ph_verdict), c.(c_state), (ph c).(ph_code), (ph c).(ph_decisive), (ph c).(ph_by_score)).

Definition score_denies (c : ctx_t) : Prop :=
  0 < wlcf.(lc_score_deny) c.(c_phase) <= (ph c).(ph_score).

(** The precedence of the decision: a gating deny, then the score threshold,
    then a gating redirect, then the failure policy, then allow. *)
Inductive resolution (c : ctx_t) : verdict_e * state_e * code_e * option Z * bool -> Prop :=
  | res_deny i : chosen c V_DENY i ->
      resolution c (V_DENY, ST_DENY, CODE_INSPECTOR, Some i, false)
  | res_score : nobody c V_DENY -> score_denies c ->
      resolution c (V_DENY, ST_DENY, CODE_SCORE, None, true)
  | res_redirect i : nobody c V_DENY -> ~ score_denies c -> chosen c V_REDIRECT i ->
      resolution c (V_REDIRECT, ST_REDIRECT, CODE_INSPECTOR, Some i, false)
  | res_fail : nobody c V_DENY -> ~ score_denies c -> nobody c V_REDIRECT ->
      (ph c).(ph_fail) <> CODE_NONE ->
      resolution c (V_ALLOW, ST_FAILED, CODE_NONE, None, false)
  | res_allow : nobody c V_DENY -> ~ score_denies c -> nobody c V_REDIRECT ->
      (ph c).(ph_fail) = CODE_NONE ->
      resolution c (V_ALLOW, ST_ALLOW, CODE_NONE, None, false).

(** C17: the verdict of a phase is the one the precedence rules give. *)
Theorem resolve_verdict_spec c :
  0 <= ninsp -> resolution c (outcome (ngx_http_waf_resolve_verdict c)).
Proof.
  intros Hn. unfold ngx_http_waf_resolve_verdict. set (f := fun p : phase_ctx => _).
  assert (Hf : forall v, ngx_http_waf_pick (on_ph f c) v = ngx_http_waf_pick c v)
    by (intros v; by apply pick_on_ph).
  rewrite !Hf. pose proof (pick_correct c V_DENY Hn) as Hd.
  pose proof (pick_correct c V_REDIRECT Hn) as Hr.
  assert (Hs : score_denies c <->
    (0 <? ngx_http_waf_score_deny_at (on_ph f c)) &&
    (ngx_http_waf_score_deny_at (on_ph f c) <=? (ph (on_ph f c)).(ph_score)) = true).
  { rewrite ph_on_ph. unfold score_denies, ngx_http_waf_score_deny_at. cbn. lia. }
  destruct (ngx_http_waf_pick c V_DENY) as [i|].
  { unfold outcome. cbn. rewrite pset_eq. cbn. rewrite pset_eq. by apply res_deny. }
  destruct (_ && _) eqn:Et in Hs |- *.
  { unfold outcome. cbn. rewrite pset_eq. cbn. rewrite pset_eq. apply res_score; [done|by apply Hs]. }
  assert (Hns : ~ score_denies c) by (rewrite Hs; done).
  destruct (ngx_http_waf_pick c V_REDIRECT) as [i|].
  { unfold outcome. cbn. rewrite pset_eq. cbn. rewrite pset_eq. by apply res_redirect. }
  unfold outcome. cbn. unfold ph. cbn. rewrite !pset_eq. cbn. rewrite ?pset_eq. cbn.
  destruct (bool_decide_reflect (ph_fail (ph c) = CODE_NONE)) as [He|He].
  - rewrite bool_decide_eq_true_2 by done. by apply res_allow.
  - rewrite bool_decide_eq_false_2 by done. by apply res_fail.
Qed.

(** *** What a request collects *)

Definition action_key (a : action_t) :=
  (a.(a_from), a.(a_to), a.(a_to_phases), a.(a_verb), a.(a_apply),
   (a.(a_code), a.(a_counter), a.(a_group), a.(a_marker))).
Definition session_key (s : session_t) := (s.(ss_by), s.(ss_source), s.(ss_id)).

Lemma same_action_key x y : same_action x y = true <-> action_key x = action_key y.
Proof.
  unfold same_action, action_key. rewrite !andb_true_iff, !Z.eqb_eq, !bool_decide_eq_true, !bytes_eqb_eq.
  split; [intros H; destruct_and!; congruence|]. intros H; simplify_eq; split_and!; congruence.
Qed.
Lemma same_session_key x y : same_session x y = true <-> session_key x = session_key y.
Proof.
  unfold same_session, session_key. rewrite !andb_true_iff, Z.eqb_eq, !bytes_eqb_eq.
  split; [intros H; destruct_and!; congruence|]. intros H; simplify_eq; split_and!; congruence.
Qed.

Lemma find_index_Some {A} (f : A -> bool) l j :
  find_index f l = Some j -> exists x, l !! j = Some x /\ f x = true.
Proof.
  revert j. induction l as [|x l IH]; intros j; cbn; [done|].
  destruct (f x) eqn:E; [intros; simplify_eq; by exists x|].
  destruct (find_index f l) as [k|]; cbn; [|done]. intros; simplify_eq. apply (IH k eq_refl).
Qed.
Lemma find_index_None {A} (f : A -> bool) l :
  find_index f l = None -> forall x, x ∈ l -> f x = false.
Proof.
  induction l as [|x l IH]; cbn; intros H y Hy; [by apply not_elem_of_nil in Hy|].
  destruct (f x) eqn:E; [done|]. apply elem_of_cons in Hy as [->|Hy]; [done|].
  apply IH; [|done]. by destruct (find_index f l).
Qed.

(** A list of at most [m] entries with distinct keys stays one when an entry
    replaces the one of its key, and when a new key is appended below the
    bound. *)
Definition keyed {A K} (key : A -> K) (m : Z) (l : list A) : Prop :=
  zlen l <= m /\ NoDup (key <$> l).

Lemma keyed_replace {A K} (key : A -> K) m l j x y :
  keyed key m l -> l !! j = Some x -> key x = key y -> keyed key m (<[j := y]> l).
Proof.
  intros [Hl Hn] Hj Hk. split; [unfold zlen in *; by rewrite length_insert|].
  rewrite list_fmap_insert, list_insert_id; [done|]. by rewrite list_lookup_fmap, Hj, <- Hk.
Qed.
Lemma keyed_append {A K} (key : A -> K) m l y :
  keyed key m l -> zlen l < m -> (forall x, x ∈ l -> key x <> key y) -> keyed key m (l ++ [y]).
Proof.
  intros [Hl Hn] Hm Hk. split; [rewrite zlen_app, zlen_cons, zlen_nil; lia|].
  rewrite fmap_app. apply NoDup_app. split_and!; [done| |apply NoDup_singleton].
  intros k Hin. cbn. rewrite list_elem_of_singleton. intros ->.
  apply list_elem_of_fmap in Hin as (x & Hx & Hin). by apply (Hk x).
Qed.
Lemma keyed_nil {A K} (key : A -> K) m : 0 <= m -> keyed key m [].
Proof. split; [rewrite zlen_nil; lia|constructor]. Qed.

(** The invariant of the collected actions, sessions and markers and of the
    score. *)
Record bag_wf (c : ctx_t) : Prop := {
  bag_actions : keyed action_key wlcf.(lc_actions_max) (default [] c.(c_actions));
  bag_sessions : keyed session_key NGX_HTTP_WAF_SESSIONS_MAX (default [] c.(c_sessions));
  bag_markers : keyed id NGX_HTTP_WAF_MARKERS_MAX (default [] c.(c_markers));
  bag_score : 0 <= (ph c).(ph_score);
  bag_range : forall i, - NGX_HTTP_WAF_SCORE_MAX <= (get_reply c i).(r_score) <= NGX_HTTP_WAF_SCORE_MAX
}.

(** Contexts that agree on what the invariant reads. *)
Record same_bags (c c' : ctx_t) : Prop := {
  sb_actions : default [] c'.(c_actions) = default [] c.(c_actions);
  sb_sessions : default [] c'.(c_sessions) = default [] c.(c_sessions);
  sb_markers : default [] c'.(c_markers) = default [] c.(c_markers);
  sb_score : (ph c').(ph_score) = (ph c).(ph_score);
  sb_range : forall i, (get_reply c' i).(r_score) = (get_reply c i).(r_score)
}.

#[local] Instance same_bags_preorder : PreOrder same_bags.
Proof.
  split; [by intros c; constructor|]. intros x y z [] []. constructor; intros; congruence.
Qed.
Lemma bag_wf_same c c' : same_bags c c' -> bag_wf c -> bag_wf c'.
Proof. intros [Ha Hs Hm Hp Hr] []. constructor; intros; rewrite ?Ha, ?Hs, ?Hm, ?Hp, ?Hr; auto. Qed.

(** Reading back a reply after writing one. *)
Lemma get_set_reply i f c j :
  get_reply (set_reply i f c) j = get_reply c j \/
  i = j /\ get_reply (set_reply i f c) j = f (get_reply c i).
Proof.
  unfold get_reply, set_reply. rewrite ph_on_ph. cbn. destruct (ph_replies (ph c)) as [l|]; cbn; [|by left].
  destruct (Z.eq_dec i j) as [->|]; [|left; by rewrite aget_aset_ne].
  destruct (decide (0 <= j < zlen l)); [right; by rewrite aget_aset_eq|]. left.
  unfold aset, aget. destruct (Z.ltb_spec j 0); [done|].
  rewrite list_insert_ge; [done|]. unfold zlen in *; lia.
Qed.
Lemma set_reply_same i f c :
  (forall r, r_score (f r) = r_score r) -> same_bags c (set_reply i f c).
Proof.
  intros Hf. constructor; try done.
  - unfold set_reply. by rewrite ph_on_ph.
  - intros j. destruct (get_set_reply i f c j) as [->|[<- ->]]; auto.
Qed.
Lemma pool_alloc_same c b c' : pool_alloc c = (b, c') -> same_bags c c' /\ c_actions c' = c_actions c
  /\ c_sessions c' = c_sessions c /\ c_markers c' = c_markers c.
Proof.
  unfold pool_alloc. destruct (alloc (c_mem c)). intros; simplify_eq. split; [by constructor|done].
Qed.

(** A part of the merge: it keeps the invariant and the stored actions. *)
Definition keeps (c c' : ctx_t) : Prop :=
  (bag_wf c -> bag_wf c') /\ c'.(c_actions) = c.(c_actions).

Lemma keeps_same c c' : same_bags c c' -> c'.(c_actions) = c.(c_actions) -> keeps c c'.
Proof. split; [by apply bag_wf_same|done]. Qed.
Lemma keeps_trans x y z : keeps x y -> keeps y z -> keeps x z.
Proof. intros [H1 E1] [H2 E2]. split; [auto|congruence]. Qed.

Lemma keeps_refl c : keeps c c.
Proof. by apply keeps_same. Qed.

Lemma control_apply_keeps a c : keeps c (snd (ngx_http_waf_control_apply a c)).
Proof.
  unfold ngx_http_waf_control_apply. cbn zeta. set (refused := if _ =? _ then true else _).
  destruct refused; [apply keeps_refl|]. cbn [snd].
  apply foldl_phases; [apply keeps_refl|]. intros c' p Hk. eapply keeps_trans; [exact Hk|].
  repeat case_match; (apply keeps_same; [by constructor|done]).
Qed.
Lemma audit_ovr_apply_keeps a c : keeps c (snd (ngx_http_waf_audit_ovr_apply a c)).
Proof.
  unfold ngx_http_waf_audit_ovr_apply. repeat case_match; (apply keeps_same; [by constructor|done]).
Qed.

Lemma markers_add_keeps a c : keeps c (snd (ngx_http_waf_markers_add a c)).
Proof.
  unfold ngx_http_waf_markers_add. case_match; [by apply keeps_same|].
  destruct (match c_markers c with Some _ => _ | None => _ end) as [ok c1] eqn:E1.
  assert (Hs1 : same_bags c c1 /\ c_actions c1 = c_actions c).
  { destruct (c_markers c) eqn:Em; [by simplify_eq|].
    destruct (pool_alloc c) as [b c2] eqn:Ea. apply pool_alloc_same in Ea as ([] & E2 & E3 & E4).
    simplify_eq. destruct ok; (split; [constructor|]); try done. cbn. by rewrite Em. }
  destruct Hs1 as [Hs1 Ha1]. destruct ok; cbn [negb]; [|by apply keeps_same].
  destruct (existsb _ _) eqn:Ex; [by apply keeps_same|].
  destruct (Z.leb_spec NGX_HTTP_WAF_MARKERS_MAX (zlen (default [] (c_markers c1)))); [by apply keeps_same|].
  destruct (pool_alloc c1) as [ok2 c2] eqn:Ea. apply pool_alloc_same in Ea as (Hs2 & Ha2 & _ & Hm2).
  destruct ok2; cbn [negb snd]; [|apply keeps_same; [by etrans|congruence]].
  split; [|cbn; congruence]. intros Hwf.
  assert (Hwf2 : bag_wf c2) by (by apply (bag_wf_same c1), (bag_wf_same c)).
  destruct Hwf2. constructor; try done. cbn. apply keyed_append; [by rewrite <- Hm2|done|].
  intros x Hx Heq. unfold id in Heq. subst x. apply not_true_iff_false in Ex. apply Ex, existsb_exists.
  eexists. split; [by apply list_elem_of_In|]. by apply bytes_eqb_eq.
Qed.

Lemma score_apply_keeps a c : keeps c (snd (ngx_http_waf_score_apply a c)).
Proof.
  unfold ngx_http_waf_score_apply. case_match; [by apply keeps_same|].
  case_match; [by apply keeps_same|]. cbn zeta.
  set (was := r_score _). set (now := if _ <? was + a_value a then _ else _).
  set (applied := if _ <? 0 then _ else _). cbn [snd].
  split; [|done]. intros []. pose proof (bag_range0 (a_from a)) as Hw. fold was in Hw.
  assert (Hnow : - NGX_HTTP_WAF_SCORE_MAX <= now <= NGX_HTTP_WAF_SCORE_MAX)
    by (unfold now, NGX_HTTP_WAF_SCORE_MAX; repeat case_match; lia).
  assert (Happ : 0 <= ph_score (ph c) + applied /\
                 - NGX_HTTP_WAF_SCORE_MAX <= was + applied <= NGX_HTTP_WAF_SCORE_MAX)
    by (unfold applied; case_match; lia).
  set (c1 := set_reply _ _ _).
  assert (Hs1 : ph_score (ph c1) = ph_score (ph c)) by (unfold c1, set_reply; by rewrite ph_on_ph).
  constructor; try done.
  - rewrite ph_on_ph. change (0 <= ph_score (ph c1) + applied). lia.
  - intros i. rewrite get_reply_on_ph by done. unfold c1.
    destruct (get_set_reply (a_from a) (fun r => r <| r_score := was + applied |>) c i) as [->|[<- ->]];
      [auto|cbn; lia].
Qed.

Lemma gate_keeps b f k c0 c (Q : ctx_t * bool -> Prop) :
  (forall c, keeps c (snd (f c))) -> keeps c0 c ->
  (forall c1, keeps c0 c1 -> Q (c1, false)) -> (forall c1, keeps c0 c1 -> Q (k c1)) ->
  Q (gate b f k c).
Proof.
  intros Hf H0 H1 H2. unfold gate. destruct b; [|by apply H2].
  specialize (Hf c). destruct (f c) as [rc c1]. cbn in Hf.
  assert (keeps c0 c1) by (by eapply keeps_trans). destruct (rc_ok rc); auto.
Qed.

Lemma store_action_wf found a c :
  bag_wf c -> 
  match found with
  | Some j => exists x, default [] c.(c_actions) !! j = Some x /\ action_key x = action_key a
  | None => zlen (default [] c.(c_actions)) < wlcf.(lc_actions_max) /\
            forall x, x ∈ default [] c.(c_actions) -> action_key x <> action_key a
  end -> is_Some c.(c_actions) -> bag_wf (fst (store_action found a c)).
Proof.
  intros Hwf Hf [l Hl]. unfold store_action. destruct found as [j|].
  - destruct Hf as (x & Hx & Hk). destruct Hwf. constructor; try done. cbn. rewrite Hl in *. cbn in *.
    by apply (keyed_replace _ _ _ _ x).
  - destruct Hf as [Hm Hk]. destruct (pool_alloc c) as [ok c1] eqn:Ea.
    apply pool_alloc_same in Ea as (Hs & Ha & _). apply (bag_wf_same _ _ Hs) in Hwf.
    destruct ok; [|done]. destruct Hwf. constructor; try done.
    cbn. rewrite Ha, Hl in *. cbn in *. by apply keyed_append.
Qed.

(** The merge has an array to store into, and the invariant. *)
Definition merging (c : ctx_t) : Prop := bag_wf c /\ is_Some c.(c_actions).

Lemma store_action_merging found a c : merging c -> is_Some (c_actions (fst (store_action found a c))).
Proof.
  intros [_ [l Hl]]. unfold store_action. destruct found; cbn; [rewrite Hl; by eexists|].
  destruct (pool_alloc c) as [ok c1] eqn:Ea. apply pool_alloc_same in Ea as (_ & Ha & _).
  destruct ok; cbn; rewrite Ha, Hl; by eexists.
Qed.

Lemma merge_action_wf index wave i c :
  merging c -> merging (fst (merge_action index wave i c)).
Proof.
  intros Hm. unfold merge_action. destruct (_ !! i) as [a0|]; [|done]. cbn zeta.
  set (a := upd a_passive _ _). set (c1 := set_reply _ _ _).
  assert (Hm1 : merging c1).
  { destruct Hm as [Hwf Hs]. split; [|done]. revert Hwf. by apply bag_wf_same, set_reply_same. }
  clearbody c1 a. set (found := find_index _ _).
  destruct (_ && _) eqn:Efull; [done|].
  assert (Hst : forall c2, keeps c1 c2 -> merging c2 /\ merging (fst (store_action found a c2))).
  { intros c2 [Hk Ha]. destruct Hm1 as [Hwf Hs]. assert (Hm2 : merging c2) by (by split; [auto|rewrite Ha]).
    split; [done|]. split; [|by apply store_action_merging]. apply store_action_wf; [apply Hm2| |apply Hm2].
    rewrite Ha. destruct found as [j|] eqn:Ef.
    - apply find_index_Some in Ef as (x & Hx & Hsame). exists x. split; [done|]. by apply same_action_key.
    - split; [unfold bool_decide in Efull; cbn in Efull; lia|]. intros x Hx Hk'.
      apply same_action_key in Hk'. by rewrite (find_index_None _ _ Ef x Hx) in Hk'. }
  clearbody found. pose (Q := fun x : ctx_t * bool => merging (fst x)).
  assert (Hq : forall c2, keeps c1 c2 -> Q (c2, false)) by (intros c2 Hk; apply (Hst c2 Hk)).
  apply (gate_keeps _ _ _ c1 _ Q); [apply control_apply_keeps|apply keeps_refl|done|].
  intros c2 Hc2. apply (gate_keeps _ _ _ c1 _ Q); [apply audit_ovr_apply_keeps|done|done|].
  intros c3 Hc3. apply (gate_keeps _ _ _ c1 _ Q); [apply score_apply_keeps| |done|].
  - case_match; [|done]. eapply keeps_trans; [done|apply markers_add_keeps].
  - intros c4 Hc4. apply (Hst c4 Hc4).
Qed.

Lemma merge_loop_wf index wave n i c : merging c -> merging (merge_loop index wave i n c).
Proof.
  revert i c. induction n as [|n IH]; intros i c Hm; [done|]. cbn.
  apply (merge_action_wf index wave i) in Hm. destruct (merge_action index wave i c) as [c' stop]. cbn in Hm.
  destruct stop; auto.
Qed.

Lemma actions_merge_wf index wave c :
  bag_wf c -> bag_wf (ngx_http_waf_actions_merge index wave c).
Proof.
  intros Hwf. unfold ngx_http_waf_actions_merge. case_match; [done|]. case_match; [done|].
  destruct (match c_actions c with Some _ => _ | None => _ end) as [ok c1] eqn:E1.
  assert (Hm : bag_wf c1 /\ (ok = true -> is_Some (c_actions c1))).
  { destruct (c_actions c) eqn:Ea; [simplify_eq; rewrite Ea; by eauto|].
    destruct (pool_alloc c) as [b c2] eqn:Ep. apply pool_alloc_same in Ep as (Hs & Ha & _).
    apply (bag_wf_same _ _ Hs) in Hwf. simplify_eq. destruct ok; [|done]. cbn. split; [|by eauto].
    destruct Hwf. constructor; try done. cbn. by rewrite Ha, Ea in bag_actions0. }
  destruct Hm as [Hw Hs]. destruct ok; [|done]. apply merge_loop_wf. by split; auto.
Qed.

(** *** Sessions *)

Definition joining (c : ctx_t) : Prop := bag_wf c /\ is_Some c.(c_sessions).

Lemma session_copy_spec src reuse c r c' :
  ngx_http_waf_session_copy src reuse c = (r, c') ->
  (r = None \/ r = Some src) /\ same_bags c c' /\ c_sessions c' = c_sessions c.
Proof.
  unfold ngx_http_waf_session_copy. case_match; [intros; simplify_eq; split_and!; [by left|reflexivity|done]|].
  case_match; [intros; simplify_eq; split_and!; [by right|reflexivity|done]|].
  destruct (pool_alloc c) as [ok c1] eqn:Ea. apply pool_alloc_same in Ea as (? & _ & ? & _).
  intros; simplify_eq. split; [case_match; auto|done].
Qed.

Lemma joining_same c c' : same_bags c c' -> c_sessions c' = c_sessions c -> joining c -> joining c'.
Proof. intros Hs He [Hw Hi]. split; [by eapply bag_wf_same|by rewrite He]. Qed.

Lemma joining_store c f :
  joining c -> (forall l, c.(c_sessions) = Some l -> keyed session_key NGX_HTTP_WAF_SESSIONS_MAX (f l)) ->
  joining (c <| c_sessions ::= fmap f |>).
Proof.
  intros [[] [l Hl]] Hf. split; [|cbn; rewrite Hl; by eexists]. constructor; try done.
  cbn. rewrite Hl. by apply Hf.
Qed.

Lemma merge_session_wf index i c : joining c -> joining (fst (merge_session index i c)).
Proof.
  intros Hj. unfold merge_session. destruct (_ !! i) as [s0|]; [|done]. cbn zeta.
  set (s := upd ss_passive _ _). set (c1 := set_reply _ _ _).
  assert (Hj1 : joining c1) by (eapply joining_same; [by apply set_reply_same|done|done]).
  clearbody c1 s. clear Hj. destruct (proj2 Hj1) as [l Hl]. rewrite Hl. cbn [default from_option]. unfold id.
  destruct (find_index _ _) as [j|] eqn:Ef.
  - destruct (ngx_http_waf_session_copy s true c1) as [r c2] eqn:Ec.
    apply session_copy_spec in Ec as (Hr & Hs & He). pose proof (joining_same _ _ Hs He Hj1) as Hj2.
    destruct r as [s'|]; [|done]. destruct Hr as [|[= ->]]; [done|]. apply joining_store; [done|].
    intros l'. rewrite He, Hl. intros [= <-]. apply find_index_Some in Ef as (x & Hx & Hk).
    apply (keyed_replace _ _ _ _ x); [|done|by apply same_session_key].
    pose proof (bag_sessions _ (proj1 Hj1)) as Hb. by rewrite Hl in Hb.
  - destruct (Z.leb_spec NGX_HTTP_WAF_SESSIONS_MAX (zlen l)); [done|].
    destruct (pool_alloc c1) as [ok c2] eqn:Ea. apply pool_alloc_same in Ea as (Hs & _ & He & _).
    pose proof (joining_same _ _ Hs He Hj1) as Hj2. destruct ok; cbn [negb]; [|done].
    destruct (ngx_http_waf_session_copy s false c2) as [r c3] eqn:Ec.
    apply session_copy_spec in Ec as (Hr & Hs' & He'). pose proof (joining_same _ _ Hs' He' Hj2) as Hj3.
    destruct r as [s'|]; [|done]. destruct Hr as [|[= ->]]; [done|]. apply joining_store; [done|].
    intros l'. rewrite He', He, Hl. intros [= <-]. apply keyed_append; [|done|].
    + pose proof (bag_sessions _ (proj1 Hj1)) as Hb. by rewrite Hl in Hb.
    + intros x Hx Hk. apply same_session_key in Hk. by rewrite (find_index_None _ _ Ef x Hx) in Hk.
Qed.

Lemma sessions_loop_wf index n i c : joining c -> joining (sessions_loop index i n c).
Proof.
  revert i c. induction n as [|n IH]; intros i c Hm; [done|]. cbn.
  apply (merge_session_wf index i) in Hm. destruct (merge_session index i c) as [c' stop]. cbn in Hm.
  destruct stop; auto.
Qed.

Lemma sessions_merge_wf index c : bag_wf c -> bag_wf (ngx_http_waf_sessions_merge index c).
Proof.
  intros Hwf. unfold ngx_http_waf_sessions_merge. case_match; [done|].
  destruct (match c_sessions c with Some _ => _ | None => _ end) as [ok c1] eqn:E1.
  assert (Hm : bag_wf c1 /\ (ok = true -> is_Some (c_sessions c1))).
  { destruct (c_sessions c) eqn:Ea; [simplify_eq; rewrite Ea; by eauto|].
    destruct (pool_alloc c) as [b c2] eqn:Ep. apply pool_alloc_same in Ep as (Hs & _ & Ha & _).
    apply (bag_wf_same _ _ Hs) in Hwf. simplify_eq. destruct ok; [|done]. cbn. split; [|by eauto].
    destruct Hwf. constructor; try done. cbn. by rewrite Ha, Ea in bag_sessions0. }
  destruct Hm as [Hw Hs]. destruct ok; [|done]. apply sessions_loop_wf. by split; auto.
Qed.

Lemma account_wf index c : bag_wf c -> bag_wf (ngx_http_waf_account index c).
Proof.
  intros Hwf. unfold ngx_http_waf_account. cbn zeta.
  set (c1 := on_ph _ c). set (c2 := set_reply index _ c1).
  assert (Hwf2 : bag_wf c2).
  { revert Hwf. apply bag_wf_same. trans c1; [|by apply set_reply_same].
    unfold c1. constructor; try done; intros; by rewrite ?ph_on_ph, ?get_reply_on_ph. }
  clearbody c2. clear c1 Hwf.
  case_match; [revert Hwf2; by apply bag_wf_same, set_reply_same|].
  set (vd := _ && (_ ==? V_DENY)).
  set (c3 := if vd then set_reply index _ c2 else c2).
  assert (Hwf3 : bag_wf c3).
  { unfold c3. destruct vd; [|done]. destruct Hwf2. constructor; try done.
    - unfold set_reply. by rewrite ph_on_ph.
    - intros i. edestruct (get_set_reply index) as [->|[_ ->]]; [done|].
      cbn. unfold NGX_HTTP_WAF_SCORE_MAX. lia. }
  clearbody c3. clear Hwf2. case_match; [done|].
  destruct (Z.leb_spec (r_score (get_reply c3 index)) 0); [done|]. destruct Hwf3.
  case_match; constructor; try done; intros; rewrite ?ph_on_ph, ?get_reply_on_ph by done; try done.
  change (0 <= ph_score (ph c3) + r_score (get_reply c3 index)). lia.
Qed.

(** Whatever the replies ask for, a request holds at most
    [lc_actions_max] actions, [NGX_HTTP_WAF_SESSIONS_MAX] sessions and
    [NGX_HTTP_WAF_MARKERS_MAX] markers, one per key, its score never falls
    below zero and no reply's score leaves the range of one reply; also when
    allocations fail. *)
Theorem collected_bounded index wave c :
  bag_wf c ->
  bag_wf (ngx_http_waf_account index c) /\
  bag_wf (ngx_http_waf_actions_merge index wave c) /\
  bag_wf (ngx_http_waf_sessions_merge index c).
Proof.
  intros Hwf. split_and!; [by apply account_wf|by apply actions_merge_wf|by apply sessions_merge_wf].
Qed.

(** *** Replies that cannot decide *)

Definition muted (r : reply_t) : Prop :=
  r.(r_received) = false \/ r.(r_passive) = true \/ r.(r_vote) = true.

Lemma pick_step_muted c v i best : muted (get_reply c i) -> pick_step c v i best = best.
Proof.
  unfold pick_step. intros [->|[->| ->]]; cbn; [done|by case_match|].
  rewrite orb_true_r. by case_match.
Qed.

Lemma for_range_id {S} (f : Z -> S -> S) n s :
  (forall i s, 0 <= i < n -> f i s = s) -> for_range n f s = s.
Proof.
  intros Hf. destruct (decide (0 <= n)) as [Hn|Hn]; [|unfold for_range; by rewrite Z2Nat.nonpos by lia].
  apply (for_range_inv (fun _ x => x = s)); [done|done|]. intros i x Hi ->. by apply Hf.
Qed.

Lemma pick_loop c v : ngx_http_waf_pick c v = fst <$> for_range ninsp (pick_step c v) None.
Proof.
  unfold ngx_http_waf_pick. destruct (ph_replies (ph c)) eqn:E; [done|].
  rewrite for_range_id; [done|]. intros i b Hi. apply pick_step_muted. left.
  unfold get_reply. rewrite E. unfold aget. cbn. by destruct (i <? 0), (Z.to_nat i).
Qed.

(** A reply that was not received, is passive or only votes has no part
    in the resolution: with the score and the recorded failure unchanged, no
    change of such replies changes the verdict, state, code or decisive
    inspector of the phase. *)
Theorem muted_replies_cannot_decide c c' :
  c'.(c_phase) = c.(c_phase) -> (ph c').(ph_score) = (ph c).(ph_score) ->
  (ph c').(ph_fail) = (ph c).(ph_fail) ->
  (forall i, 0 <= i < ninsp ->
     get_reply c' i = get_reply c i \/ muted (get_reply c' i) /\ muted (get_reply c i)) ->
  outcome (ngx_http_waf_resolve_verdict c') = outcome (ngx_http_waf_resolve_verdict c).
Proof.
  intros Hp Hs Hf Hr.
  assert (Hpick : forall v, ngx_http_waf_pick c' v = ngx_http_waf_pick c v).
  { intros v. rewrite !pick_loop. f_equal. apply for_range_ext. intros i b Hi.
    destruct (Hr i Hi) as [He|[H1 H2]]; [|by rewrite !pick_step_muted].
    unfold pick_step. by rewrite He, Hp. }
  assert (Hout : forall c, outcome (ngx_http_waf_resolve_verdict c) =
    match ngx_http_waf_pick c V_DENY with
    | Some i => (V_DENY, ST_DENY, CODE_INSPECTOR, Some i, false)
    | None =>
        let t := lc_score_deny wlcf (c_phase c) in
        if (0 <? t) && (t <=? ph_score (ph c)) then (V_DENY, ST_DENY, CODE_SCORE, None, true)
        else match ngx_http_waf_pick c V_REDIRECT with
             | Some i => (V_REDIRECT, ST_REDIRECT, CODE_INSPECTOR, Some i, false)
             | None => (V_ALLOW, if ph_fail (ph c) ==? CODE_NONE then ST_ALLOW else ST_FAILED,
                        CODE_NONE, None, false)
             end
    end).
  { clear. intros c. unfold ngx_http_waf_resolve_verdict, ngx_http_waf_score_deny_at, outcome.
    cbn zeta. rewrite !pick_on_ph, !ph_on_ph by done. cbn.
    repeat case_match; unfold ph; cbn; by rewrite !pset_eq. }
  by rewrite !Hout, !Hpick, Hp, Hs, Hf.
Qed.

End verdict.

(** ** A request with three inspectors *)

Definition demo_wave : wave_t := mkWave 1 2 7 0 BODY_NONE 0.
Definition demo_binding (i : Z) (m : mode_e) : binding_t unit :=
  mkBinding (lit "i") i 0 50 m PHASE_REQUEST RESUME_OFF false None.
Definition demo_lc : loc_conf unit :=
  mkLocConf true false
    (fun p => if p ==? PHASE_REQUEST
              then Some [demo_binding 0 MODE_PASSIVE; demo_binding 1 MODE_VOTE; demo_binding 2 MODE_ACTIVE]
              else None)
    (fun p => if p ==? PHASE_REQUEST then Some [demo_wave] else None)
    (fun _ => 100) (fun _ _ => POLICY_BLOCK) (fun _ _ => []) (fun _ => DENY_FAST) (fun _ => 50)
    (fun _ => mkShoot 0 0) 4.
Definition ovr0 : ovr_part := mkOvr SET_NONE None None 0 0 0 [0; 0; 0] [0; 0; 0].
Definition demo_action (v : do_e) (to : Z) : action_t :=
  mkAction v to 0 [] APPLY_REQUEST None 5 [] [] SET_NONE (lit "bot") ovr0 0 PHASE_REQUEST 0 false true.
Definition demo_reply (v : verdict_e) (passive vote : bool) : reply_t :=
  reply0 <| r_verdict := v |> <| r_received := true |> <| r_passive := passive |> <| r_vote := vote |>
         <| r_actions := [demo_action DO_MARK 0; demo_action DO_SCORE 1; demo_action DO_OFF 1] |>.
Definition demo_ctx (v0 : verdict_e) : ctx_t :=
  mkCtx ST_WAITING PHASE_REQUEST
    (fun _ => phase_ctx0 <| ph_replies := Some [demo_reply v0 true false; demo_reply V_ALLOW false true;
                                                demo_reply V_REDIRECT false false] |>)
    None None None (fun _ => mkControl 0 0 0 0) None (mkAuditOvr ovr0 ovr0) (mkAuditOvr ovr0 ovr0) [].

Lemma wave_effective_modes_witness :
  (Z.testbit (ngx_http_waf_wave_passive (demo_ctx V_DENY) demo_wave) 0 = true <-> MODE_PASSIVE = MODE_PASSIVE).
Proof.
  refine (proj1 (proj2 (wave_effective_modes (demo_ctx V_DENY) demo_wave 0 _ _ _ _))).
  - split; [vm_compute; intuition congruence|]. intros i _. cbn. by rewrite !Z.testbit_0_l.
  - split; [vm_compute; intuition congruence|]. intros i Hi. cbn -[Z.testbit].
    assert (i = 0 \/ i = 1 \/ i = 2 \/ 3 <= i) as Hc by lia.
    destruct Hc as [->|[->|[->|Hge]]]; [vm_compute; congruence..|].
    rewrite !(Z.bits_above_log2 _ i) by (cbn; lia). cbn. lia.
  - lia.
  - reflexivity.
Defined.

Lemma control_apply_spec_witness :
  let '(rc, c') := ngx_http_waf_control_apply demo_lc (demo_action DO_OFF 2) (demo_ctx V_ALLOW) in
  rc = NGX_OK /\ ctl_mode (c_ctl c' PHASE_REQUEST) 2 = Some MODE_OFF.
Proof.
  pose proof (control_apply_spec demo_lc (demo_action DO_OFF 2) (demo_ctx V_ALLOW)) as H.
  assert (H1 : forall p, ctl_wf (c_ctl (demo_ctx V_ALLOW) p)).
  { intros p. split; [vm_compute; intuition congruence|]. intros i _. cbn. by rewrite !Z.testbit_0_l. }
  assert (H2 : a_to (demo_action DO_OFF 2) <> NGX_HTTP_WAF_ACTION_ALL -> 0 <= a_to (demo_action DO_OFF 2) < 64)
    by (cbn; lia).
  specialize (H H1 H2). destruct (ngx_http_waf_control_apply _ _ _) as [rc c'] eqn:E.
  destruct H as [H _]. destruct H as [-> Hp].
  - split_and!; [vm_compute; discriminate|reflexivity|discriminate|].
    exists PHASE_REQUEST. eexists. split; vm_compute; reflexivity.
  - split; [reflexivity|]. exact (proj1 (proj2 (Hp PHASE_REQUEST)) eq_refl).
Defined.

Lemma resolve_verdict_spec_witness :
  resolution demo_lc 3 (demo_ctx V_DENY) (V_REDIRECT, ST_REDIRECT, CODE_INSPECTOR, Some 2, false).
Proof.
  apply (resolve_verdict_spec demo_lc 3 (demo_ctx V_DENY)). lia.
Defined.

Lemma collected_bounded_witness :
  zlen (default [] (c_actions (ngx_http_waf_actions_merge demo_lc 3 2 0 (demo_ctx V_DENY)))) = 3 /\
  bag_wf demo_lc (ngx_http_waf_actions_merge demo_lc 3 2 0 (demo_ctx V_DENY)).
Proof.
  split; [reflexivity|]. apply (collected_bounded demo_lc 3 2 0 (demo_ctx V_DENY)). constructor.
  - apply keyed_nil. cbn. lia.
  - apply keyed_nil. unfold NGX_HTTP_WAF_SESSIONS_MAX. lia.
  - apply keyed_nil. unfold NGX_HTTP_WAF_MARKERS_MAX. lia.
  - cbn. lia.
  - intros i. unfold get_reply, NGX_HTTP_WAF_SCORE_MAX, aget. cbn.
    destruct (i <? 0); [cbn; lia|]. destruct (Z.to_nat i) as [|[|[|[|]]]]; cbn; lia.
Defined.

Lemma muted_replies_cannot_decide_witness :
  outcome (ngx_http_waf_resolve_verdict demo_lc 3 (demo_ctx V_DENY)) =
  outcome (ngx_http_waf_resolve_verdict demo_lc 3 (demo_ctx V_ALLOW)).
Proof.
  apply (muted_replies_cannot_decide demo_lc 3 (demo_ctx V_ALLOW) (demo_ctx V_DENY)); try reflexivity.
  intros i Hi. destruct (Z.eq_dec i 0) as [->|]; [right; split; right; by left|left].
  assert (i = 1 \/ i = 2) as [->| ->] by lia; reflexivity.
Defined.

End Verdict.
