(* ===== verification/Breaker.v ===== *)
(** The circuit breaker of an inspector (local/ngx_http_waf_breaker.c), which
    lives in memory shared by all workers.

    [Breaker] has the operations as the worker that runs them sees them, with
    nothing in between; [Race] has [ngx_http_waf_breaker_allow] cut at its
    accesses to the shared words, run by any number of workers. *)
From stdpp Require Import relations.
From S2P Require Import Prelude Types.
#[local] Open Scope Z_scope.

Module Breaker.

Definition NGX_HTTP_WAF_BREAKER_CLOSED : Z := 0.
Definition NGX_HTTP_WAF_BREAKER_HALF : Z := 1.
Definition NGX_HTTP_WAF_BREAKER_OPEN : Z := 2.
Definition NGX_HTTP_WAF_BREAKER_MIN_SAMPLES : Z := 20.

(** [ngx_http_waf_breaker_t]: six [ngx_atomic_t] words. *)
Record breaker_t := mkBreaker {
  bk_tag : Z;
  bk_state : Z;
  bk_probe_at : Z;
  bk_epoch : Z;
  bk_attempts : Z;
  bk_failures : Z
}.
#[export] Instance eta_breaker_t : Eta breaker_t := fun r =>
  mkBreaker r.(bk_tag) r.(bk_state) r.(bk_probe_at) r.(bk_epoch) r.(bk_attempts) r.(bk_failures).

Definition breaker0 : breaker_t := mkBreaker 0 0 0 0 0 0.

(** The breakers of the zone; [None] when there is no zone
    ([ngx_http_waf_shm() == NULL]). *)
Definition zone := option (list breaker_t).

Section breaker.
(** [ngx_crc32_short], of nginx. *)
Context (crc32 : bytes -> Z).

Definition at_breaker (index : Z) (f : breaker_t -> breaker_t) (z : zone) : zone :=
  (fun l => aset l index (f (aget breaker0 l index))) <$> z.
Definition the_breaker (z : zone) (index : Z) : breaker_t :=
  aget breaker0 (default [] z) index.

(** [true] when the function returns the breaker of [index], [false] for
    [NULL]. *)
Definition ngx_http_waf_breaker_get (index : Z) (insp : inspector_t) (z : zone) : bool * zone :=
  if negb insp.(in_breaker) || (NGX_HTTP_WAF_MAX_INSPECTORS <=? index) then (false, z)
  else match z with
  | None => (false, z)
  | Some _ =>
      let tag := crc32 insp.(in_name) in
      (true,
       if negb ((the_breaker z index).(bk_tag) =? tag) then
         at_breaker index (fun b =>
           b <| bk_tag := tag |> <| bk_state := NGX_HTTP_WAF_BREAKER_CLOSED |>
             <| bk_probe_at := 0 |> <| bk_epoch := 0 |>
             <| bk_attempts := 0 |> <| bk_failures := 0 |>) z
       else z)
  end.

(** [now] is [ngx_current_msec]. *)
Definition ngx_http_waf_breaker_allow (now index : Z) (insp : inspector_t) (z : zone)
    : ngx_rc * zone :=
  let '(ok, z) := ngx_http_waf_breaker_get index insp z in
  if negb ok then (NGX_OK, z)
  else
    let b := the_breaker z index in
    if b.(bk_state) =? NGX_HTTP_WAF_BREAKER_CLOSED then (NGX_OK, z)
    else
      let probe := b.(bk_probe_at) in
      if 0 <=? msec_diff now probe then
        (NGX_OK,
         at_breaker index (fun b =>
           b <| bk_probe_at := u64 (now + insp.(in_breaker_probe)) |>
             <| bk_state := NGX_HTTP_WAF_BREAKER_HALF |>) z)
      else (NGX_DECLINED, z).

Definition ngx_http_waf_breaker_open (insp : inspector_t) (now : Z) (b : breaker_t) : breaker_t :=
  b <| bk_probe_at := u64 (now + insp.(in_breaker_probe)) |> <| bk_epoch := now |>
    <| bk_attempts := 0 |> <| bk_failures := 0 |> <| bk_state := NGX_HTTP_WAF_BREAKER_OPEN |>.

Definition ngx_http_waf_breaker_close (now : Z) (b : breaker_t) : breaker_t :=
  b <| bk_epoch := now |> <| bk_attempts := 0 |> <| bk_failures := 0 |>
    <| bk_state := NGX_HTTP_WAF_BREAKER_CLOSED |>.

(** The part of [ngx_http_waf_breaker_result] after the breaker was found. *)
Definition count_result (now : Z) (insp : inspector_t) (timed_out : bool) (b : breaker_t) : breaker_t :=
  let b := if s64 insp.(in_breaker_window) <=? msec_diff now b.(bk_epoch)
           then b <| bk_epoch := now |> <| bk_attempts := 0 |> <| bk_failures := 0 |> else b in
  let b := b <| bk_attempts ::= fun n => u64 (n + 1) |> in
  if timed_out then b <| bk_failures ::= fun n => u64 (n + 1) |> else b.

Definition judge (now : Z) (insp : inspector_t) (timed_out : bool) (b : breaker_t) : breaker_t :=
  if b.(bk_state) =? NGX_HTTP_WAF_BREAKER_HALF then
    if timed_out then ngx_http_waf_breaker_open insp now b else ngx_http_waf_breaker_close now b
  else if b.(bk_state) =? NGX_HTTP_WAF_BREAKER_OPEN then b
  else if (b.(bk_attempts) <? NGX_HTTP_WAF_BREAKER_MIN_SAMPLES) || (b.(bk_failures) =? 0) then b
  else if insp.(in_breaker_threshold) <=? u64 (b.(bk_failures) * 10000) / b.(bk_attempts)
       then ngx_http_waf_breaker_open insp now b else b.

Definition ngx_http_waf_breaker_result (now index : Z) (insp : inspector_t) (timed_out : bool)
    (z : zone) : zone :=
  let '(ok, z) := ngx_http_waf_breaker_get index insp z in
  if negb ok then z
  else at_breaker index (fun b => judge now insp timed_out (count_result now insp timed_out b)) z.

(** *** Reading a breaker back *)

(** The breaker of [index] exists and belongs to [insp]. *)
Definition bound (index : Z) (insp : inspector_t) (z : zone) : Prop :=
  insp.(in_breaker) = true /\ 0 <= index < NGX_HTTP_WAF_MAX_INSPECTORS /\
  (exists l, z = Some l /\ index < zlen l) /\
  (the_breaker z index).(bk_tag) = crc32 insp.(in_name).

Lemma get_bound index insp z : bound index insp z -> ngx_http_waf_breaker_get index insp z = (true, z).
Proof.
  intros (Hb & Hi & (l & -> & Hl) & Ht). unfold ngx_http_waf_breaker_get. rewrite Hb, Ht, Z.eqb_refl.
  by destruct (Z.leb_spec NGX_HTTP_WAF_MAX_INSPECTORS index); [lia|].
Qed.

Lemma the_at_breaker index insp f z :
  bound index insp z -> the_breaker (at_breaker index f z) index = f (the_breaker z index).
Proof.
  intros (_ & Hi & (l & -> & Hl) & _). unfold the_breaker. cbn. by rewrite aget_aset_eq by lia.
Qed.

Lemma at_breaker_bound index insp f z :
  bound index insp z -> (forall b, (f b).(bk_tag) = b.(bk_tag)) ->
  bound index insp (at_breaker index f z).
Proof.
  intros Hb Hf. pose proof (the_at_breaker index insp f z Hb) as He.
  destruct Hb as (? & ? & (l & -> & ?) & Ht). split_and!; try done; [lia|lia| |].
  - eexists. split; [done|]. by rewrite zlen_aset.
  - by rewrite He, Hf.
Qed.

Lemma judge_tag now insp t b : (judge now insp t b).(bk_tag) = b.(bk_tag).
Proof. unfold judge, ngx_http_waf_breaker_open, ngx_http_waf_breaker_close. by repeat case_match. Qed.
Lemma count_tag now insp t b : (count_result now insp t b).(bk_tag) = b.(bk_tag).
Proof. unfold count_result. by repeat case_match. Qed.
Lemma count_state now insp t b : (count_result now insp t b).(bk_state) = b.(bk_state).
Proof. unfold count_result. by repeat case_match. Qed.

Lemma result_spec now index insp t z :
  bound index insp z ->
  bound index insp (ngx_http_waf_breaker_result now index insp t z) /\
  the_breaker (ngx_http_waf_breaker_result now index insp t z) index =
    judge now insp t (count_result now insp t (the_breaker z index)).
Proof.
  intros Hb. unfold ngx_http_waf_breaker_result. rewrite get_bound by done. cbn [negb].
  split; [apply at_breaker_bound; [done|]|by eapply the_at_breaker].
  intros b. by rewrite judge_tag, count_tag.
Qed.

(** *** When a breaker opens *)

(** The threshold, in ten-thousandths, over [n] results of which [f] timed
    out. *)
Definition trips (insp : inspector_t) (n f : Z) : Prop :=
  NGX_HTTP_WAF_BREAKER_MIN_SAMPLES <= n /\ 0 < f /\ insp.(in_breaker_threshold) <= f * 10000 / n.
Definition timeouts (rs : list (Z * bool)) : Z := zlen (filter (fun r => r.2 = true) rs).

Definition results (index : Z) (insp : inspector_t) (rs : list (Z * bool)) (z : zone) : zone :=
  foldl (fun z r => ngx_http_waf_breaker_result r.1 index insp r.2 z) z rs.

(** A breaker that just started a window at [epoch]. *)
Definition fresh (epoch : Z) (b : breaker_t) : Prop :=
  b.(bk_state) = NGX_HTTP_WAF_BREAKER_CLOSED /\ b.(bk_epoch) = epoch /\
  b.(bk_attempts) = 0 /\ b.(bk_failures) = 0.

Definition in_window (epoch : Z) (insp : inspector_t) (r : Z * bool) : Prop :=
  msec_diff r.1 epoch < s64 insp.(in_breaker_window).

Lemma timeouts_snoc rs r :
  timeouts (rs ++ [r]) = timeouts rs + (if r.2 then 1 else 0).
Proof.
  unfold timeouts. rewrite filter_app, zlen_app. f_equal.
  destruct r as [t []]; [rewrite filter_cons_True|rewrite filter_cons_False]; done.
Qed.
Lemma timeouts_bound rs : 0 <= timeouts rs <= zlen rs.
Proof.
  unfold timeouts, zlen. pose proof (length_filter (fun r : Z * bool => r.2 = true) rs). lia.
Qed.

(** The state of the breaker after the results [rs] of one window: still
    closed with the exact counts, or open. *)
Definition counted (epoch : Z) (insp : inspector_t) (rs : list (Z * bool)) (b : breaker_t) : Prop :=
  (b.(bk_state) = NGX_HTTP_WAF_BREAKER_CLOSED /\ b.(bk_epoch) = epoch /\
   b.(bk_attempts) = zlen rs /\ b.(bk_failures) = timeouts rs /\
   forall k, (k <= length rs)%nat -> ~ trips insp (Z.of_nat k) (timeouts (take k rs))) \/
  (b.(bk_state) = NGX_HTTP_WAF_BREAKER_OPEN /\
   exists k, (k <= length rs)%nat /\ trips insp (Z.of_nat k) (timeouts (take k rs))).

#[local] Instance trips_dec insp n f : Decision (trips insp n f).
Proof. unfold trips. apply _. Defined.

Lemma judge_closed now insp t b :
  b.(bk_state) = NGX_HTTP_WAF_BREAKER_CLOSED -> 0 <= b.(bk_failures) < 2 ^ 50 ->
  (trips insp b.(bk_attempts) b.(bk_failures) -> judge now insp t b = ngx_http_waf_breaker_open insp now b) /\
  (~ trips insp b.(bk_attempts) b.(bk_failures) -> judge now insp t b = b).
Proof.
  intros Hs Hf. unfold judge, trips. rewrite Hs. cbn.
  rewrite u64_small by (unfold is_u64; lia). split; intros H;
    repeat match goal with |- context [if ?c then _ else _] => destruct c eqn:? end; try done; lia.
Qed.

Lemma counted_step epoch insp rs r b :
  zlen rs < 2 ^ 50 - 1 -> in_window epoch insp r -> counted epoch insp rs b ->
  counted epoch insp (rs ++ [r]) (judge r.1 insp r.2 (count_result r.1 insp r.2 b)).
Proof.
  intros Hlen Hw [(Hs & He & Ha & Hf & Hno)|(Hs & k & Hk & Ht)]; last first.
  { right. split.
    - unfold judge. rewrite count_state, Hs. change (bk_state (count_result r.1 insp r.2 b) = 2).
      by rewrite count_state, Hs.
    - exists k. rewrite length_app. split; [lia|]. by rewrite take_app_le. }
  assert (Hc : count_result r.1 insp r.2 b =
    b <| bk_attempts := zlen rs + 1 |> <| bk_failures := timeouts (rs ++ [r]) |>).
  { pose proof (timeouts_bound rs). pose proof (zlen_nonneg rs). unfold count_result, in_window in *.
    rewrite He, timeouts_snoc.
    destruct (Z.leb_spec (s64 insp.(in_breaker_window)) (msec_diff r.1 epoch)); [lia|].
    destruct b; cbn in Ha, Hf |- *; subst.
    destruct r.2; cbn; rewrite !u64_small by (unfold is_u64; lia); [done|by rewrite Z.add_0_r]. }
  pose proof (timeouts_bound (rs ++ [r])) as Hb. rewrite zlen_snoc in Hb.
  rewrite Hc. clear Hc. set (b' := upd bk_failures _ _).
  destruct (judge_closed r.1 insp r.2 b') as [H1 H2]; [done|cbn; lia|].
  assert (Hfull : take (length rs + 1) (rs ++ [r]) = rs ++ [r])
    by (apply take_ge; rewrite length_app; cbn; lia).
  destruct (decide (trips insp (bk_attempts b') (bk_failures b'))) as [Ht|Hn].
  - rewrite H1 by done. right. split; [done|]. exists (length rs + 1)%nat. rewrite length_app. split; [done|].
    rewrite Hfull. replace (Z.of_nat (length rs + 1)) with (bk_attempts b') by (cbn; unfold zlen; lia). done.
  - rewrite H2 by done. left. cbn. rewrite zlen_snoc. split_and!; try done.
    intros k Hk. rewrite length_app in Hk. cbn in Hk.
    destruct (decide (k = length rs + 1)%nat) as [->|].
    + rewrite Hfull. replace (Z.of_nat (length rs + 1)) with (bk_attempts b') by (cbn; unfold zlen; lia). done.
    + rewrite take_app_le by lia. apply Hno. lia.
Qed.

Lemma results_counted epoch index insp rs z :
  bound index insp z -> fresh epoch (the_breaker z index) -> zlen rs < 2 ^ 50 ->
  Forall (in_window epoch insp) rs ->
  bound index insp (results index insp rs z) /\
  counted epoch insp rs (the_breaker (results index insp rs z) index).
Proof.
  intros Hb (Hs & He & Ha & Hf). induction rs as [|r rs IH] using rev_ind; intros Hlen Hw.
  - split; [done|]. left. split_and!; try done. intros k Hk [H _]. cbn in Hk.
    unfold NGX_HTTP_WAF_BREAKER_MIN_SAMPLES in H. lia.
  - rewrite zlen_snoc in Hlen. apply Forall_app in Hw as [Hw Hr].
    rewrite Forall_singleton in Hr. destruct IH as [Hb' Hc]; [lia|done|].
    unfold results. rewrite foldl_app. cbn. fold (results index insp rs z).
    destruct (result_spec r.1 index insp r.2 _ Hb') as [Hb2 He2]. split; [done|].
    rewrite He2. apply counted_step; [lia|done|done].
Qed.

(** Within one window of the breaker, counting from its start, the
    breaker stays closed as long as no number of results reached both the
    minimum sample and the configured share of timeouts, and once it did the
    breaker is open. *)
Theorem breaker_trips_at_threshold epoch index insp rs z :
  bound index insp z -> fresh epoch (the_breaker z index) -> zlen rs < 2 ^ 50 ->
  Forall (in_window epoch insp) rs ->
  let b := the_breaker (results index insp rs z) index in
  (b.(bk_state) = NGX_HTTP_WAF_BREAKER_CLOSED <->
   forall k, (k <= length rs)%nat -> ~ trips insp (Z.of_nat k) (timeouts (take k rs))) /\
  (b.(bk_state) = NGX_HTTP_WAF_BREAKER_OPEN <->
   exists k, (k <= length rs)%nat /\ trips insp (Z.of_nat k) (timeouts (take k rs))).
Proof.
  intros Hb Hf Hl Hw b. destruct (results_counted epoch index insp rs z Hb Hf Hl Hw) as [_ Hc].
  fold b in Hc. destruct Hc as [(Hs & _ & _ & _ & Hn)|(Hs & k & Hk & Ht)]; rewrite Hs.
  - split; [done|]. split; [done|]. intros (k & Hk & Ht). by destruct (Hn k Hk).
  - split; [|split; [by eauto|done]]. split; [done|]. intros Hn. by destruct (Hn k Hk).
Qed.

(** *** An open breaker *)

(** The write of an admitted probe. *)
Definition start_probe (now : Z) (insp : inspector_t) (b : breaker_t) : breaker_t :=
  b <| bk_probe_at := u64 (now + insp.(in_breaker_probe)) |>
    <| bk_state := NGX_HTTP_WAF_BREAKER_HALF |>.

Lemma allow_open now index insp z :
  bound index insp z -> (the_breaker z index).(bk_state) <> NGX_HTTP_WAF_BREAKER_CLOSED ->
  ngx_http_waf_breaker_allow now index insp z =
    if 0 <=? msec_diff now (the_breaker z index).(bk_probe_at)
    then (NGX_OK, at_breaker index (start_probe now insp) z) else (NGX_DECLINED, z).
Proof.
  intros Hb Hs. unfold ngx_http_waf_breaker_allow. rewrite get_bound by done. cbn [negb].
  by apply Z.eqb_neq in Hs as ->.
Qed.

(** An open breaker refuses every attempt before its probe time and
    admits the first one at or after it, as the probe, moving the probe time
    on by the interval so that the next attempt within the interval is refused
    again; the result of the probe closes the breaker with cleared counters, or
    opens it for another interval. *)
Theorem breaker_probe_cycle now now' index insp z :
  bound index insp z -> (the_breaker z index).(bk_state) <> NGX_HTTP_WAF_BREAKER_CLOSED ->
  0 <= now - now' < in_breaker_probe insp -> in_breaker_probe insp < 2 ^ 63 ->
  let z1 := (ngx_http_waf_breaker_allow now' index insp z).2 in
  let probe_at := (the_breaker z index).(bk_probe_at) in
  (msec_diff now' probe_at < 0 -> ngx_http_waf_breaker_allow now' index insp z = (NGX_DECLINED, z)) /\
  (0 <= msec_diff now' probe_at ->
   (ngx_http_waf_breaker_allow now' index insp z).1 = NGX_OK /\
   (the_breaker z1 index).(bk_state) = NGX_HTTP_WAF_BREAKER_HALF /\
   ngx_http_waf_breaker_allow now index insp z1 = (NGX_DECLINED, z1) /\
   let ok := the_breaker (ngx_http_waf_breaker_result now index insp false z1) index in
   let ko := the_breaker (ngx_http_waf_breaker_result now index insp true z1) index in
   fresh now ok /\
   ko.(bk_state) = NGX_HTTP_WAF_BREAKER_OPEN /\ ko.(bk_probe_at) = u64 (now + in_breaker_probe insp)).
Proof.
  intros Hb Hs Hn Hp z1 probe_at. unfold z1. clear z1. rewrite (allow_open now') by done. fold probe_at.
  destruct (Z.leb_spec 0 (msec_diff now' probe_at)); (split; [intros; done || lia|intros; try lia]).
  set (z1 := at_breaker _ _ _). cbn [fst snd].
  assert (Hb1 : bound index insp z1) by (by apply at_breaker_bound).
  pose proof (the_at_breaker index insp (start_probe now' insp) z Hb) as He. fold z1 in He.
  destruct (result_spec now index insp false z1 Hb1) as [_ ->].
  destruct (result_spec now index insp true z1 Hb1) as [_ ->].
  unfold judge. rewrite !count_state, allow_open, He by (done || by rewrite He). cbn -[u64 Z.leb].
  assert (msec_diff now (u64 (now' + in_breaker_probe insp)) < 0) as Hlt by (unfold msec_diff; wordlia).
  split_and!; try done.
  by destruct (Z.leb_spec 0 (msec_diff now (u64 (now' + in_breaker_probe insp)))); [lia|].
Qed.

End breaker.

(** ** An inspector with its breaker *)

Definition demo_insp : inspector_t := mkInspector (lit "av") (lit "waf.av") [] 3 true 5000 10000 1000.
Definition demo_zone (state : Z) : zone :=
  Some (aset (replicate 64 breaker0) 3 (mkBreaker 2 state 1000 0 0 0)).
Definition demo_results : list (Z * bool) := (fun n => (Z.of_nat n, Nat.even n)) <$> seq 0 20.

Lemma demo_bound st : bound zlen 3 demo_insp (demo_zone st).
Proof.
  split_and!; [done|done|done| |done]. eexists. split; [done|]. by rewrite zlen_aset.
Qed.

Lemma breaker_trips_at_threshold_witness :
  (the_breaker (results zlen 3 demo_insp demo_results (demo_zone 0)) 3).(bk_state)
  = NGX_HTTP_WAF_BREAKER_OPEN.
Proof.
  apply (breaker_trips_at_threshold zlen 0 3 demo_insp demo_results (demo_zone 0)).
  - apply demo_bound.
  - done.
  - vm_compute. done.
  - unfold demo_results. apply Forall_fmap, Forall_seq. intros j Hj. unfold in_window, msec_diff. cbn.
    wordlia.
  - exists 20%nat. split; [vm_compute; lia|]. vm_compute. intuition congruence.
Defined.

Lemma breaker_probe_cycle_witness :
  (ngx_http_waf_breaker_allow zlen 1000 3 demo_insp (demo_zone 2)).1 = NGX_OK.
Proof.
  apply (breaker_probe_cycle zlen 1500 1000 3 demo_insp (demo_zone 2)).
  - apply demo_bound.
  - done.
  - cbn. lia.
  - cbn. lia.
  - vm_compute. congruence.
Defined.

End Breaker.

(** ** Many workers asking at once *)
Module Race.
Import Breaker.

(** Where a worker is inside [ngx_http_waf_breaker_allow]: before reading the
    tag, before the exchange of the tag, before the [n]-th write of the reset,
    before reading the state, before reading the probe time, before the
    exchange of the probe time, before the write of the state, returned. *)
Inductive pc :=
  | P_tag | P_tag_cas (old : Z) | P_reset (n : nat) | P_state | P_probe
  | P_cas (probe : Z) | P_half | P_done (rc : ngx_rc).

(** A worker has its own [ngx_current_msec]. *)
Record thread := mkThread { t_now : Z; t_pc : pc }.

Section race.
Context (tag interval : Z).

(** One access to the shared words. *)
Definition micro (now : Z) (p : pc) (b : breaker_t) : pc * breaker_t :=
  match p with
  | P_tag => (if b.(bk_tag) =? tag then P_state else P_tag_cas b.(bk_tag), b)
  | P_tag_cas old => if b.(bk_tag) =? old then (P_reset 0, b <| bk_tag := tag |>) else (P_state, b)
  | P_reset 0 => (P_reset 1, b <| bk_state := NGX_HTTP_WAF_BREAKER_CLOSED |>)
  | P_reset 1 => (P_reset 2, b <| bk_probe_at := 0 |>)
  | P_reset 2 => (P_reset 3, b <| bk_epoch := 0 |>)
  | P_reset 3 => (P_reset 4, b <| bk_attempts := 0 |>)
  | P_reset _ => (P_state, b <| bk_failures := 0 |>)
  | P_state => (if b.(bk_state) =? NGX_HTTP_WAF_BREAKER_CLOSED then P_done NGX_OK else P_probe, b)
  | P_probe => (if 0 <=? msec_diff now b.(bk_probe_at) then P_cas b.(bk_probe_at)
                else P_done NGX_DECLINED, b)
  | P_cas probe => if b.(bk_probe_at) =? probe
                   then (P_half, b <| bk_probe_at := u64 (now + interval) |>)
                   else (P_done NGX_DECLINED, b)
  | P_half => (P_done NGX_OK, b <| bk_state := NGX_HTTP_WAF_BREAKER_HALF |>)
  | P_done rc => (P_done rc, b)
  end.

(** Some worker that has not returned makes its next access. *)
Inductive race_step : breaker_t * list thread -> breaker_t * list thread -> Prop :=
  | race_step_intro i t b ths :
      ths !! i = Some t -> (forall rc, t.(t_pc) <> P_done rc) ->
      race_step (b, ths) (snd (micro t.(t_now) t.(t_pc) b),
                          <[i := mkThread t.(t_now) (fst (micro t.(t_now) t.(t_pc) b))]> ths).

Definition admitted (t : thread) : Prop := t.(t_pc) = P_half \/ t.(t_pc) = P_done NGX_OK.

Section invariant.
(** The probe time at the start and the interval the clocks are in. *)
Context (p0 T : Z).
Hypothesis Hint : 0 < interval <= 2 ^ 62.

Definition due (now : Z) : Prop := 0 <= msec_diff now p0.
Definition clock_ok (t : thread) : Prop := T <= t.(t_now) < T + interval.

Definition early (t : thread) : Prop :=
  match t.(t_pc) with
  | P_tag | P_state | P_probe => True
  | P_cas p => p = p0 /\ due t.(t_now)
  | P_done NGX_DECLINED => ~ due t.(t_now)
  | _ => False
  end.
Definition late (t : thread) : Prop :=
  match t.(t_pc) with
  | P_tag | P_state | P_probe | P_done NGX_DECLINED => True
  | P_cas p => p = p0
  | _ => False
  end.

(** Nobody got the probe yet, or exactly one worker did. *)
Definition race_inv (st : breaker_t * list thread) : Prop :=
  let '(b, ths) := st in
  b.(bk_tag) = tag /\ b.(bk_state) <> NGX_HTTP_WAF_BREAKER_CLOSED /\ Forall clock_ok ths /\
  (b.(bk_probe_at) = p0 /\ (forall i t, ths !! i = Some t -> early t) \/
   exists w tw, ths !! w = Some tw /\ admitted tw /\ due tw.(t_now) /\
     b.(bk_probe_at) = u64 (tw.(t_now) + interval) /\
     forall i t, i <> w -> ths !! i = Some t -> late t).

Lemma moved_probe now : due now -> u64 (now + interval) <> p0.
Proof. unfold due, msec_diff. intros H <-. revert H. wordlia. Qed.
Lemma not_due_again now now' :
  T <= now < T + interval -> T <= now' < T + interval -> msec_diff now (u64 (now' + interval)) < 0.
Proof. unfold msec_diff. wordlia. Qed.

(** The access of a worker that has not been admitted. *)
Lemma micro_early b t :
  b.(bk_tag) = tag -> b.(bk_state) <> NGX_HTTP_WAF_BREAKER_CLOSED -> b.(bk_probe_at) = p0 ->
  early t -> (forall rc, t.(t_pc) <> P_done rc) ->
  let p := fst (micro t.(t_now) t.(t_pc) b) in let b' := snd (micro t.(t_now) t.(t_pc) b) in
  b' = b /\ early (mkThread t.(t_now) p) \/
  p = P_half /\ due t.(t_now) /\ b' = b <| bk_probe_at := u64 (t.(t_now) + interval) |>.
Proof.
  intros Ht Hs Hp He Hd. apply Z.eqb_neq in Hs. unfold early in *.
  destruct t as [now p]; cbn in *.
  destruct p; cbn; rewrite ?Ht, ?Z.eqb_refl, ?Hs, ?Hp; try done; try (by left).
  - left. split; [done|]. destruct (Z.leb_spec 0 (msec_diff now p0)); unfold due; cbn; [done|lia].
  - destruct He as [-> He]. rewrite Z.eqb_refl. by right.
Qed.
Lemma micro_late b t now_w :
  b.(bk_tag) = tag -> b.(bk_state) <> NGX_HTTP_WAF_BREAKER_CLOSED ->
  b.(bk_probe_at) = u64 (now_w + interval) -> due now_w ->
  T <= now_w < T + interval -> clock_ok t -> late t -> (forall rc, t.(t_pc) <> P_done rc) ->
  snd (micro t.(t_now) t.(t_pc) b) = b /\ late (mkThread t.(t_now) (fst (micro t.(t_now) t.(t_pc) b))).
Proof.
  intros Ht Hs Hp Hw Hcw Hc Hl Hd. apply Z.eqb_neq in Hs. unfold late in *.
  destruct t as [now p]; cbn in *.
  destruct p; cbn; rewrite ?Ht, ?Z.eqb_refl, ?Hs, ?Hp; try done.
  - pose proof (not_due_again now now_w Hc Hcw).
    by destruct (Z.leb_spec 0 (msec_diff now (u64 (now_w + interval)))); [lia|].
  - subst probe. pose proof (moved_probe now_w Hw) as Hne. by apply Z.eqb_neq in Hne as ->.
Qed.

Lemma race_inv_step st st' : race_inv st -> race_step st st' -> race_inv st'.
Proof.
  intros Hinv Hstep. destruct Hstep as [i t b ths Hi Hd]. destruct Hinv as (Ht & Hs & Hc & Hcase).
  pose proof (Forall_lookup_1 _ _ _ _ Hc Hi) as Hci.
  set (p' := fst _). set (b' := snd _).
  assert (Hc' : Forall clock_ok (<[i := mkThread (t_now t) p']> ths)) by (by apply Forall_insert).
  assert (Hlt : (i < length ths)%nat) by (by eapply lookup_lt_Some).
  destruct Hcase as [[Hp He]|(w & tw & Hw & Hadm & Hdue & Hp & Hl)].
  - destruct (micro_early b t Ht Hs Hp (He i t Hi) Hd) as [[Eb Ep]|(Ep & Hdue & Eb)];
      fold p' b' in Ep, Eb; rewrite Eb in *; (split_and!; [done..|]).
    + left. split; [done|]. intros j tj [(<- & <- & _)|[_ Hj]]%list_lookup_insert_Some; [done|by eapply He].
    + right. exists i, (mkThread (t_now t) p'). rewrite list_lookup_insert_eq by done. rewrite Ep.
      split_and!; [done|by left|done|done|]. intros j tj Hne. rewrite list_lookup_insert_ne by done.
      intros Hj%He. unfold early, late in *. destruct (t_pc tj); try done; [by destruct Hj|by destruct rc].
  - destruct (decide (i = w)) as [->|Hne].
    + rewrite Hw in Hi. simplify_eq. destruct Hadm as [Hh|Hok]; [|by destruct (Hd NGX_OK)].
      subst b' p'. rewrite Hh in *. cbn in *. split_and!; [done..|]. right.
      eexists w, _. rewrite list_lookup_insert_eq by done. split_and!; [done|by right|done|done|].
      intros j tj Hne. rewrite list_lookup_insert_ne by done. by apply Hl.
    + pose proof (Forall_lookup_1 _ _ _ _ Hc Hw) as Hcw.
      destruct (micro_late b t (t_now tw) Ht Hs Hp Hdue Hcw Hci (Hl i t Hne Hi) Hd) as [Eb Ep].
      fold p' b' in Ep, Eb. rewrite Eb in *. split_and!; [done..|]. right. exists w, tw.
      rewrite list_lookup_insert_ne by done. split_and!; [done..|].
      intros j tj Hj [(<- & <- & _)|[_ Hj']]%list_lookup_insert_Some; [done|by eapply Hl].
Qed.

End invariant.

(** C39: when any number of workers ask an open breaker at the same time, in
    any interleaving of their accesses and with clocks that lie within one
    probe interval, at most one is admitted; and when all have returned and one
    of them was at or past the probe time, exactly one was. *)
Theorem single_probe p0 T b ths b' ths' :
  0 < interval <= 2 ^ 62 -> b.(bk_tag) = tag -> b.(bk_state) <> NGX_HTTP_WAF_BREAKER_CLOSED ->
  b.(bk_probe_at) = p0 ->
  Forall (fun t => T <= t.(t_now) < T + interval /\ t.(t_pc) = P_tag) ths ->
  rtc race_step (b, ths) (b', ths') ->
  (forall i j t t', ths' !! i = Some t -> ths' !! j = Some t' -> admitted t -> admitted t' -> i = j) /\
  ((forall i t, ths' !! i = Some t -> exists rc, t.(t_pc) = P_done rc) ->
   (exists t, t ∈ ths' /\ 0 <= msec_diff t.(t_now) p0) ->
   exists t, t ∈ ths' /\ t.(t_pc) = P_done NGX_OK).
Proof.
  intros Hint Ht Hs Hp Hths Hrun.
  assert (H0 : race_inv p0 T (b, ths)).
  { split_and!; try done; [by eapply Forall_impl; [exact Hths|]; cbn; intros t []|]. left. split; [done|].
    intros i t Hi. destruct (Forall_lookup_1 _ _ _ _ Hths Hi) as [_ Hpc]. unfold early. by rewrite Hpc. }
  assert (Hinv : race_inv p0 T (b', ths')).
  { remember (b', ths') as st' eqn:E. clear E. revert H0. induction Hrun; [done|].
    intros H0. apply IHHrun. by eapply race_inv_step. }
  clear H0 Hths Hrun. destruct Hinv as (_ & _ & _ & [[_ He]|(w & tw & Hw & Hadm & Hdue & _ & Hl)]).
  - split.
    + intros i j t t' Hi _ Ha. specialize (He i t Hi). unfold early in He. by destruct Ha as [Ha|Ha]; rewrite Ha in He.
    + intros Hdone (t & Hin & Hdue). apply list_elem_of_lookup in Hin as [i Hi].
      destruct (Hdone i t Hi) as [rc Hrc]. specialize (He i t Hi). unfold early in He. rewrite Hrc in He.
      by destruct rc.
  - assert (Hone : forall i t, ths' !! i = Some t -> admitted t -> i = w).
    { intros i t Hi Ha. destruct (decide (i = w)) as [|Hne]; [done|]. specialize (Hl i t Hne Hi).
      unfold late in Hl. by destruct Ha as [Ha|Ha]; rewrite Ha in Hl. }
    split; [|intros Hdone _].
    { intros i j t t' Hi Hj Ha Ha'. by rewrite (Hone i t Hi Ha), (Hone j t' Hj Ha'). }
    exists tw. split; [by eapply list_elem_of_lookup_2|]. destruct (Hdone w tw Hw) as [rc Hrc].
    by destruct Hadm as [Ha|Ha]; [rewrite Ha in Hrc|].
Qed.

End race.

Definition demo_breaker : breaker_t := mkBreaker 7 NGX_HTTP_WAF_BREAKER_OPEN 100 0 0 0.
Definition demo_threads : list thread := [mkThread 100 P_tag; mkThread 105 P_tag].

(** Both workers read the probe time before the first exchange. *)
Lemma single_probe_witness :
  exists b' ths', rtc (race_step 7 50) (demo_breaker, demo_threads) (b', ths') /\
  (t_pc <$> ths') = [P_half; P_cas 100] /\
  forall i j t t', ths' !! i = Some t -> ths' !! j = Some t' -> admitted t -> admitted t' -> i = j.
Proof.
  assert (Hstep : forall i t b ths, ths !! i = Some t -> (forall rc, t_pc t <> P_done rc) ->
    race_step 7 50 (b, ths) (snd (micro 7 50 (t_now t) (t_pc t) b),
      <[i := mkThread (t_now t) (fst (micro 7 50 (t_now t) (t_pc t) b))]> ths)) by apply race_step_intro.
  assert (Hrun : exists st, rtc (race_step 7 50) (demo_breaker, demo_threads) st /\
                            (t_pc <$> st.2) = [P_half; P_cas 100]).
  { eexists. split.
    - eapply rtc_l; [by apply (Hstep 0%nat (mkThread 100 P_tag))|].
      eapply rtc_l; [by apply (Hstep 1%nat (mkThread 105 P_tag))|].
      eapply rtc_l; [by apply (Hstep 0%nat (mkThread 100 P_state))|].
      eapply rtc_l; [by apply (Hstep 1%nat (mkThread 105 P_state))|].
      eapply rtc_l; [by apply (Hstep 0%nat (mkThread 100 P_probe))|].
      eapply rtc_l; [by apply (Hstep 1%nat (mkThread 105 P_probe))|].
      eapply rtc_l; [by apply (Hstep 0%nat (mkThread 100 (P_cas 100)))|]. apply rtc_refl.
    - reflexivity. }
  destruct Hrun as ([b' ths'] & Hrun & Hpc). exists b', ths'. split; [done|]. split; [done|].
  refine (proj1 (single_probe 7 50 100 100 demo_breaker demo_threads b' ths' _ _ _ _ _ Hrun)); try done.
  repeat constructor; cbn; lia.
Defined.

End Race.
