(* ===== verification/FrameCache.v ===== *)
(** The cache of frame verdicts in the shared zone
    (local/ngx_http_waf_frame_cache.c): a table of 4096 entries, probed at 8
    neighbouring places, that remembers which frames were allowed and until
    when.  Every access is made under the mutex of the zone, so that the
    accesses of all workers form one sequence. *)
From stdpp Require Import base list numbers.
From S2P Require Import Prelude.
#[local] Open Scope Z_scope.

Module FrameCache.

Definition NGX_HTTP_WAF_FCACHE_ENTRIES : Z := 4096.
Definition NGX_HTTP_WAF_FCACHE_PROBE : Z := 8.

Record fcache_entry := mkEntry {
  fe_digest : bytes;
  fe_route : Z;
  fe_phase : Z;
  fe_opcode : Z;
  fe_pad : Z;
  fe_expires : Z
}.
#[export] Instance eta_fcache_entry : Eta fcache_entry := fun r =>
  mkEntry r.(fe_digest) r.(fe_route) r.(fe_phase) r.(fe_opcode) r.(fe_pad) r.(fe_expires).
Definition fcache_entry0 : fcache_entry := mkEntry (replicate 16 0) 0 0 0 0 0.

(** [shm->fcache]: [None] without a zone or without a cache in it. *)
Definition fcache := option (list fcache_entry).

Definition ngx_http_waf_fcache_slot (digest : bytes) : Z :=
  let d i sh := u64 (Z.shiftl (aget 0 digest i) sh) in
  let h := Z.lor (Z.lor (Z.lor (d 0 56) (d 1 48)) (Z.lor (d 2 40) (d 3 32)))
                 (Z.lor (Z.lor (d 4 24) (d 5 16)) (Z.lor (d 6 8) (d 7 0))) in
  Z.land h (NGX_HTTP_WAF_FCACHE_ENTRIES - 1).

(** [wanted] is the static variable that [ngx_http_waf_fcache_want] sets,
    [mem] the outcome of [ngx_slab_calloc]. *)
Definition ngx_http_waf_fcache_want (on : bool) : bool := on.
Definition fresh_entries : list fcache_entry :=
  replicate (Z.to_nat NGX_HTTP_WAF_FCACHE_ENTRIES) fcache_entry0.
Definition ngx_http_waf_fcache_init (wanted mem : bool) (fc : fcache) : ngx_rc * fcache :=
  if negb wanted || bool_decide (is_Some fc) then (NGX_OK, fc)
  else if mem then (NGX_OK, Some fresh_entries)
  else (NGX_ERROR, None).

(** What a frame is looked up by; [sha256] is read for 16 bytes. *)
Record fcache_key := mkKey { k_route : Z; k_phase : Z; k_opcode : Z; k_sha256 : bytes }.

Definition probe_at (slot i : Z) : Z := Z.land (slot + i) (NGX_HTTP_WAF_FCACHE_ENTRIES - 1).

Definition same_key (k : fcache_key) (e : fcache_entry) : bool :=
  (e.(fe_route) =? k.(k_route)) && (e.(fe_phase) =? k.(k_phase)) && (e.(fe_opcode) =? k.(k_opcode))
  && bytes_eqb e.(fe_digest) (take 16 k.(k_sha256)).

(** The loop of the lookup, [n] turns from [i]. *)
Fixpoint lookup_loop (n : nat) (i : Z) (now slot : Z) (k : fcache_key) (es : list fcache_entry)
    : ngx_rc * list fcache_entry :=
  match n with
  | O => (NGX_DECLINED, es)
  | S n =>
      let p := probe_at slot i in
      let e := aget fcache_entry0 es p in
      if e.(fe_expires) =? 0 then lookup_loop n (i + 1) now slot k es
      else if negb (same_key k e) then lookup_loop n (i + 1) now slot k es
      else if msec_diff e.(fe_expires) now <=? 0
      then lookup_loop n (i + 1) now slot k (aset es p (e <| fe_expires := 0 |>))
      else (NGX_OK, es)
  end.

Definition ngx_http_waf_fcache_lookup (now : Z) (k : fcache_key) (fc : fcache) : ngx_rc * fcache :=
  match fc with
  | None => (NGX_DECLINED, fc)
  | Some es =>
      let slot := ngx_http_waf_fcache_slot k.(k_sha256) in
      let '(rc, es) := lookup_loop (Z.to_nat NGX_HTTP_WAF_FCACHE_PROBE) 0 now slot k es in
      (rc, Some es)
  end.

(** The loop of the insertion: the place of the victim, with the places of the
    first reusable entry and of the live one that expires first so far. *)
Fixpoint insert_loop (n : nat) (i : Z) (now slot : Z) (k : fcache_key) (es : list fcache_entry)
    (empty soonest : option Z) : option Z :=
  match n with
  | O => match empty with Some p => Some p | None => soonest end
  | S n =>
      let p := probe_at slot i in
      let e := aget fcache_entry0 es p in
      if negb (e.(fe_expires) =? 0) && same_key k e then Some p
      else if (e.(fe_expires) =? 0) || (msec_diff e.(fe_expires) now <=? 0)
      then insert_loop n (i + 1) now slot k es (match empty with None => Some p | _ => empty end) soonest
      else
        let soonest := match soonest with
                       | None => Some p
                       | Some q => if msec_diff e.(fe_expires) (aget fcache_entry0 es q).(fe_expires) <? 0
                                   then Some p else soonest
                       end in
        insert_loop n (i + 1) now slot k es empty soonest
  end.

Definition insert_victim (now : Z) (k : fcache_key) (es : list fcache_entry) : option Z :=
  insert_loop (Z.to_nat NGX_HTTP_WAF_FCACHE_PROBE) 0 now (ngx_http_waf_fcache_slot k.(k_sha256)) k es None None.

Definition new_entry (now ttl : Z) (k : fcache_key) : fcache_entry :=
  mkEntry (take 16 k.(k_sha256)) k.(k_route) (u8 k.(k_phase)) (u8 k.(k_opcode)) 0 (u64 (now + ttl)).

Definition ngx_http_waf_fcache_insert (now ttl : Z) (k : fcache_key) (fc : fcache) : fcache :=
  match fc with
  | None => None
  | Some es =>
      if ttl =? 0 then Some es
      else match insert_victim now k es with
           | Some v => Some (aset es v (new_entry now ttl k))
           | None => Some es
           end
  end.

(** ** What the cache holds *)

(** The accesses to the cache, in the order of the mutex. *)
Inductive cache_access :=
  | Lookup (now : Z) (k : fcache_key)
  | Insert (now ttl : Z) (k : fcache_key).

Definition perform (fc : fcache) (a : cache_access) : fcache :=
  match a with
  | Lookup now k => snd (ngx_http_waf_fcache_lookup now k fc)
  | Insert now ttl k => ngx_http_waf_fcache_insert now ttl k fc
  end.

(** An allowed frame of this key was put in with a time to live that has not
    passed at [now]. *)
Definition justified (h : list cache_access) (now : Z) (k : fcache_key) : Prop :=
  exists t ttl k', Insert t ttl k' ∈ h /\ ttl <> 0 /\
    k'.(k_route) = k.(k_route) /\ u8 k'.(k_phase) = k.(k_phase) /\ u8 k'.(k_opcode) = k.(k_opcode) /\
    take 16 k'.(k_sha256) = take 16 k.(k_sha256) /\ 0 < msec_diff (u64 (t + ttl)) now.

(** Every entry in use is the one some insertion wrote. *)
Definition from_history (h : list cache_access) (es : list fcache_entry) : Prop :=
  forall p, (aget fcache_entry0 es p).(fe_expires) <> 0 ->
    exists t ttl k, Insert t ttl k ∈ h /\ ttl <> 0 /\ aget fcache_entry0 es p = new_entry t ttl k.

Lemma same_key_spec k e :
  same_key k e = true <->
  fe_route e = k_route k /\ fe_phase e = k_phase k /\ fe_opcode e = k_opcode k /\
  fe_digest e = take 16 (k_sha256 k).
Proof.
  unfold same_key. rewrite !andb_true_iff, !Z.eqb_eq, bytes_eqb_eq. tauto.
Qed.

(** A write at one place keeps [from_history] when the written entry does. *)
Lemma from_history_aset h es p e :
  from_history h es ->
  (fe_expires e <> 0 -> exists t ttl k, Insert t ttl k ∈ h /\ ttl <> 0 /\ e = new_entry t ttl k) ->
  from_history h (aset es p e).
Proof.
  intros Hh He q. destruct (aget_aset_cases fcache_entry0 es p q e) as [->| ->]; [done|apply Hh].
Qed.

Lemma lookup_loop_spec h n i now slot k es :
  from_history h es ->
  let '(rc, es') := lookup_loop n i now slot k es in
  from_history h es' /\ zlen es' = zlen es /\ (rc = NGX_OK -> justified h now k).
Proof.
  revert i es. induction n as [|n IH]; intros i es Hh; [done|]. cbn [lookup_loop]. cbn zeta.
  set (e := aget fcache_entry0 es (probe_at slot i)).
  destruct (Z.eqb_spec (fe_expires e) 0) as [|Hne]; [by apply IH|].
  destruct (same_key k e) eqn:Ek; cbn [negb]; [|by apply IH].
  destruct (Z.leb_spec (msec_diff (fe_expires e) now) 0) as [Hle|Hlt].
  - assert (Hh' : from_history h (aset es (probe_at slot i) (e <| fe_expires := 0 |>)))
      by (by apply from_history_aset).
    specialize (IH (i + 1) _ Hh'). destruct (lookup_loop _ _ _ _ _ _) as [rc es'].
    by rewrite zlen_aset in IH.
  - split_and!; [done|done|]. intros _. apply same_key_spec in Ek as (H1 & H2 & H3 & H4).
    destruct (Hh _ Hne) as (t & ttl & k' & Hin & Httl & He). fold e in He. rewrite He in *.
    by exists t, ttl, k'.
Qed.

Lemma from_history_mono h h' es : (forall a, a ∈ h -> a ∈ h') -> from_history h es -> from_history h' es.
Proof. intros Hs Hh p Hp. destruct (Hh p Hp) as (t & ttl & k & Hin & H). exists t, ttl, k. auto. Qed.

Lemma perform_history h a es :
  from_history h es ->
  exists es', perform (Some es) a = Some es' /\ from_history (h ++ [a]) es' /\ zlen es' = zlen es.
Proof.
  intros Hh. assert (Hm : from_history (h ++ [a]) es)
    by (eapply from_history_mono; [|done]; intros b Hb; apply elem_of_app; by left).
  destruct a as [now k|now ttl k]; cbn.
  - pose proof (lookup_loop_spec _ (Z.to_nat NGX_HTTP_WAF_FCACHE_PROBE) 0 now
      (ngx_http_waf_fcache_slot (k_sha256 k)) k es Hm) as H.
    destruct (lookup_loop _ _ _ _ _ _) as [rc es']. exists es'. by destruct H as (? & ? & _).
  - destruct (Z.eqb_spec ttl 0) as [|Httl]; [by exists es|].
    destruct (insert_victim now k es) as [v|]; [|by exists es].
    eexists. split; [done|]. rewrite zlen_aset. split; [|done].
    apply from_history_aset; [done|]. intros _. exists now, ttl, k. split; [|done].
    apply elem_of_app. right. by apply list_elem_of_singleton.
Qed.

Lemma performs_history h es0 :
  from_history [] es0 ->
  exists es, foldl perform (Some es0) h = Some es /\ from_history h es /\ zlen es = zlen es0.
Proof.
  intros H0. induction h as [|a h IH] using rev_ind; [by exists es0|].
  destruct IH as (es & He & Hh & Hl). rewrite foldl_snoc, He.
  destruct (perform_history h a es Hh) as (es' & -> & Hh' & Hl'). exists es'. by rewrite Hl', Hl.
Qed.

Lemma fresh_history : from_history [] fresh_entries.
Proof.
  intros p Hp. destruct Hp. unfold aget. destruct (p <? 0); [reflexivity|]. unfold fresh_entries.
  rewrite nth_lookup. destruct (replicate _ _ !! _) as [e|] eqn:E; [|reflexivity]. apply lookup_replicate in E as [-> _]. reflexivity.
Qed.

Lemma init_cases wanted mem fc0 :
  ngx_http_waf_fcache_init wanted mem None = (NGX_OK, fc0) -> fc0 = None \/ fc0 = Some fresh_entries.
Proof.
  unfold ngx_http_waf_fcache_init. rewrite bool_decide_eq_false_2 by (by intros []). rewrite orb_false_r.
  destruct wanted, mem; intros E; injection E; intros; subst; auto.
Qed.

(** The cache answers for a frame only while an allowed frame of the same
    route, phase, opcode and digest is remembered: every hit goes back to an
    insertion whose time to live has not passed, whatever lookups and
    insertions of any worker came in between. *)
Theorem fcache_hit_justified wanted mem fc0 h now k :
  ngx_http_waf_fcache_init wanted mem None = (NGX_OK, fc0) ->
  fst (ngx_http_waf_fcache_lookup now k (foldl perform fc0 h)) = NGX_OK -> justified h now k.
Proof.
  intros [->| ->]%init_cases.
  { replace (foldl perform None h) with (@None (list fcache_entry))
      by (clear; induction h as [|[] h IH]; cbn; auto). discriminate. }
  destruct (performs_history h fresh_entries fresh_history) as (es & -> & Hh & _). cbn.
  pose proof (lookup_loop_spec h (Z.to_nat NGX_HTTP_WAF_FCACHE_PROBE) 0 now
    (ngx_http_waf_fcache_slot (k_sha256 k)) k es Hh) as H.
  destruct (lookup_loop _ _ _ _ _ _) as [rc es']. apply H.
Qed.

(** ** Where an insertion goes *)

Lemma probe_at_mod slot i : probe_at slot i = (slot + i) mod 4096.
Proof. unfold probe_at, NGX_HTTP_WAF_FCACHE_ENTRIES. change (4096 - 1) with (Z.ones 12). by rewrite Z.land_ones by lia. Qed.

Lemma probe_at_range slot i : 0 <= probe_at slot i < 4096.
Proof. rewrite probe_at_mod. apply Z.mod_pos_bound. lia. Qed.

Lemma probe_at_inj slot i j : 0 <= i < 8 -> 0 <= j < 8 -> probe_at slot i = probe_at slot j -> i = j.
Proof. rewrite !probe_at_mod. intros. Z.div_mod_to_equations. lia. Qed.

Section insertion.
Context (now : Z) (k : fcache_key) (es : list fcache_entry).
Let at_ (p : Z) : fcache_entry := aget fcache_entry0 es p.
Let home : Z := ngx_http_waf_fcache_slot k.(k_sha256).

Definition hits (j : Z) : Prop :=
  fe_expires (aget fcache_entry0 es (probe_at (ngx_http_waf_fcache_slot k.(k_sha256)) j)) <> 0 /\
  same_key k (aget fcache_entry0 es (probe_at (ngx_http_waf_fcache_slot k.(k_sha256)) j)) = true.
Definition reusable (e : fcache_entry) : bool := (fe_expires e =? 0) || (msec_diff (fe_expires e) now <=? 0).
Definition unwrapped : Prop := forall p, 0 <= fe_expires (aget fcache_entry0 es p) < 2 ^ 62.

(** The victim of an insertion: the first entry of the key, or else a reusable
    entry, or else the one that expires first. *)
Lemma insert_loop_spec n i empty soonest :
  (forall p, empty = Some p -> reusable (at_ p) = true) ->
  (forall q, soonest = Some q -> reusable (at_ q) = false) ->
  match insert_loop n i now home k es empty soonest with
  | None => n = 0%nat /\ empty = None /\ soonest = None
  | Some v =>
      (exists j, i <= j < i + Z.of_nat n /\ v = probe_at home j /\ hits j /\
                 forall j', i <= j' < j -> ~ hits j') \/
      (forall j, i <= j < i + Z.of_nat n -> ~ hits j) /\
      (Some v = empty \/ Some v = soonest \/ exists j, i <= j < i + Z.of_nat n /\ v = probe_at home j) /\
      (unwrapped -> reusable (at_ v) = false -> empty = None /\
       (forall j, i <= j < i + Z.of_nat n ->
          reusable (at_ (probe_at home j)) = false /\ fe_expires (at_ v) <= fe_expires (at_ (probe_at home j))) /\
       (forall q, soonest = Some q -> fe_expires (at_ v) <= fe_expires (at_ q)))
  end.
Proof.
  revert i empty soonest. induction n as [|n IH]; intros i empty soonest He Hs.
  { cbn. destruct empty as [p|].
    - right. split_and!; [lia|by left|]. intros _ Hr. rewrite (He p eq_refl) in Hr. done.
    - destruct soonest as [q|]; [|done]. right. split_and!; [lia|right; by left|]. intros _ _.
      split_and!; [done|lia|]. intros q' [= <-]. lia. }
  cbn [insert_loop]. cbn zeta. fold (at_ (probe_at home i)).
  destruct (negb _ && _) eqn:Eh.
  { left. exists i. apply andb_true_iff in Eh as [?%negb_true_iff ?]. split_and!; [lia|lia|done| |lia].
    split; [fold home; fold (at_ (probe_at home i)); lia|done]. }
  assert (Hni : ~ hits i).
  { intros [H1 H2]. fold home in H1, H2. fold (at_ (probe_at home i)) in H1, H2.
    rewrite H2, andb_true_r in Eh. apply negb_false_iff in Eh. lia. }
  assert (Hno : forall j, i <= j < i + Z.of_nat (S n) -> ~ (i + 1 <= j < i + 1 + Z.of_nat n) -> j = i) by lia.
  fold (reusable (at_ (probe_at home i))).
  destruct (reusable (at_ (probe_at home i))) eqn:Er.
  - specialize (IH (i + 1) (match empty with None => Some (probe_at home i) | _ => empty end) soonest).
    destruct (insert_loop _ _ _ _ _ _ _ _) as [v|].
    2: { destruct IH as (_ & H & _); [by destruct empty; intros p [= <-]; auto|done|]. by destruct empty. }
    destruct IH as [(j & Hj & Hv & Hh & Hf)|(Hn & Hw & Hl)];
      [by destruct empty; intros p [= <-]; auto|done| |].
    + left. exists j. split_and!; [lia|lia|done|done|]. intros j' Hj'.
      destruct (Z.eq_dec j' i) as [->|]; [done|]. apply Hf. lia.
    + right. split_and!.
      * intros j Hj. destruct (Z.eq_dec j i) as [->|]; [done|]. apply Hn. lia.
      * destruct Hw as [Hw|[Hw|(j & Hj & Hw)]]; [|auto|right; right; exists j; split; [lia|done]].
        destruct empty; [by left|]. simplify_eq. right. right. exists i. split; [lia|done].
      * intros Hu Hr. destruct (Hl Hu Hr) as (H & _). by destruct empty.
  - set (s' := match soonest with Some _ => _ | None => _ end).
    assert (Hs' : forall q, s' = Some q -> reusable (at_ q) = false).
    { intros q. unfold s'. destruct soonest as [q'|]; [|by intros [= <-]].
      destruct (_ <? _); intros [= <-]; auto. }
    specialize (IH (i + 1) empty s' He Hs'). destruct (insert_loop _ _ _ _ _ _ _ _) as [v|].
    2: { destruct IH as (_ & _ & H). unfold s' in H. by repeat case_match. }
    destruct IH as [(j & Hj & Hv & Hh & Hf)|(Hn & Hw & Hl)].
    + left. exists j. split_and!; [lia|lia|done|done|]. intros j' Hj'.
      destruct (Z.eq_dec j' i) as [->|]; [done|]. apply Hf. lia.
    + right. split_and!.
      * intros j Hj. destruct (Z.eq_dec j i) as [->|]; [done|]. apply Hn. lia.
      * destruct Hw as [Hw|[Hw|(j & Hj & Hw)]]; [by left| |right; right; exists j; split; [lia|done]].
        unfold s' in Hw. destruct soonest as [q|]; [destruct (_ <? _)|]; simplify_eq; auto;
          right; right; exists i; (split; [lia|done]).
      * intros Hu Hr. destruct (Hl Hu Hr) as (Hem & Hall & Hq). split; [done|].
        assert (Hi : fe_expires (at_ v) <= fe_expires (at_ (probe_at home i)) /\
                     forall q, soonest = Some q -> fe_expires (at_ v) <= fe_expires (at_ q)).
        { unfold s' in Hq. destruct soonest as [q|]; [|split; [by apply Hq|done]].
          pose proof (Hu q) as Huq. pose proof (Hu (probe_at home i)) as Hui. fold (at_ q) in Huq, Hq.
          fold (at_ (probe_at home i)) in Hui. revert Hq. unfold msec_diff at 1.
          rewrite s64_small by (unfold is_s64; lia).
          destruct (Z.ltb_spec (fe_expires (at_ (probe_at home i)) - fe_expires (at_ q)) 0); intros Hq.
          - specialize (Hq _ eq_refl). split; [lia|]. intros ? [= <-]. lia.
          - specialize (Hq _ eq_refl). split; [lia|]. by intros ? [= <-]. }
        split; [|exact (proj2 Hi)]. intros j Hj. destruct (Z.eq_dec j i) as [->|]; [split; [done|exact (proj1 Hi)]|].
        apply Hall. lia.
Qed.

(** An insertion always finds a place, at one of the 8 probes, and no entry of
    the key comes before it. *)
Lemma insert_victim_place :
  exists j, 0 <= j < 8 /\ insert_victim now k es = Some (probe_at home j) /\
    forall j', 0 <= j' < j -> ~ hits j'.
Proof.
  unfold insert_victim. fold home.
  pose proof (insert_loop_spec (Z.to_nat NGX_HTTP_WAF_FCACHE_PROBE) 0 None None
                ltac:(discriminate) ltac:(discriminate)) as H.
  change (Z.of_nat (Z.to_nat NGX_HTTP_WAF_FCACHE_PROBE)) with 8 in H.
  destruct (insert_loop _ _ _ _ _ _ _ _) as [v|]; [|destruct H as [H _]; discriminate H].
  destruct H as [(j & Hj & -> & _ & Hf)|(Hn & [Hw|[Hw|(j & Hj & ->)]] & _)]; try discriminate Hw.
  - exists j. split_and!; [lia|lia|done|]. intros j' Hj'. apply Hf. lia.
  - exists j. split_and!; [lia|lia|done|]. intros j' Hj'. apply Hn. lia.
Qed.

End insertion.

(** A lookup passes over what does not hit and ends at the first entry that
    hits and is alive. *)
Lemma lookup_loop_first n i now slot k es j :
  i <= j < i + Z.of_nat n ->
  (forall j', i <= j' < j -> (fe_expires (aget fcache_entry0 es (probe_at slot j')) =? 0) = true \/
                             same_key k (aget fcache_entry0 es (probe_at slot j')) = false) ->
  let e := aget fcache_entry0 es (probe_at slot j) in
  fe_expires e <> 0 -> same_key k e = true -> 0 < msec_diff (fe_expires e) now ->
  lookup_loop n i now slot k es = (NGX_OK, es).
Proof.
  revert i. induction n as [|n IH]; intros i Hj Hbefore e He Hk Hm; [lia|]. cbn [lookup_loop]. cbn zeta.
  destruct (Z.eq_dec i j) as [->|Hne].
  - fold e. rewrite Hk. cbn [negb]. replace (fe_expires e =? 0) with false by lia.
    by replace (msec_diff (fe_expires e) now <=? 0) with false by lia.
  - assert (Hr : lookup_loop n (i + 1) now slot k es = (NGX_OK, es)).
    { apply IH; [lia| |done|done|done]. intros j' Hj'. apply Hbefore. lia. }
    destruct (Hbefore i ltac:(lia)) as [-> | ->]; [done|]. cbn [negb]. by destruct (_ =? 0).
Qed.

(** An allowed frame that is put in is found for the whole of its time to
    live, and the lookup leaves the cache as it is. *)
Theorem fcache_insert_lookup now ttl k es now' :
  zlen es = NGX_HTTP_WAF_FCACHE_ENTRIES -> is_u8 k.(k_phase) -> is_u8 k.(k_opcode) ->
  0 <= now <= now' -> now' < now + ttl -> now + ttl < 2 ^ 63 ->
  let fc := ngx_http_waf_fcache_insert now ttl k (Some es) in
  ngx_http_waf_fcache_lookup now' k fc = (NGX_OK, fc).
Proof.
  intros Hl Hp Ho Hnow Hlt Hw. cbn zeta. unfold ngx_http_waf_fcache_insert.
  replace (ttl =? 0) with false by lia.
  destruct (insert_victim_place now k es) as (j & Hj & -> & Hf). cbn [ngx_http_waf_fcache_lookup].
  set (slot := ngx_http_waf_fcache_slot (k_sha256 k)) in *.
  assert (Hv : aget fcache_entry0 (aset es (probe_at slot j) (new_entry now ttl k)) (probe_at slot j)
               = new_entry now ttl k).
  { apply aget_aset_eq. rewrite Hl. apply probe_at_range. }
  rewrite (lookup_loop_first _ 0 now' slot k _ j); [done|change (Z.of_nat _) with 8; lia| | | |].
  - intros j' Hj'. rewrite aget_aset_ne by (intros E; apply probe_at_inj in E; lia).
    specialize (Hf j' Hj'). unfold hits in Hf. fold slot in Hf.
    destruct (Z.eqb_spec (fe_expires (aget fcache_entry0 es (probe_at slot j'))) 0); [by left|right].
    destruct (same_key _ _); [by destruct Hf|done].
  - rewrite Hv. cbn. rewrite u64_small by (unfold is_u64; lia). lia.
  - rewrite Hv. apply same_key_spec. cbn. by rewrite !u8_small.
  - rewrite Hv. cbn. rewrite u64_small by (unfold is_u64; lia). unfold msec_diff.
    rewrite s64_small by (unfold is_s64; lia). lia.
Qed.

Definition alive (now : Z) (e : fcache_entry) : Prop := e.(fe_expires) <> 0 /\ now < e.(fe_expires).

(** An insertion always remembers its frame, and it displaces a verdict
    of another frame that is still alive only when all 8 places of the frame
    are taken by live verdicts, and then the one that would expire first. *)
Theorem fcache_eviction now ttl k es :
  zlen es = NGX_HTTP_WAF_FCACHE_ENTRIES -> unwrapped es -> 0 <= now < 2 ^ 62 -> 0 < ttl ->
  exists es' v, ngx_http_waf_fcache_insert now ttl k (Some es) = Some es' /\
    aget fcache_entry0 es' v = new_entry now ttl k /\
    (forall p, p <> v -> aget fcache_entry0 es' p = aget fcache_entry0 es p) /\
    (alive now (aget fcache_entry0 es v) -> same_key k (aget fcache_entry0 es v) = false ->
     forall j, 0 <= j < NGX_HTTP_WAF_FCACHE_PROBE ->
       let e := aget fcache_entry0 es (probe_at (ngx_http_waf_fcache_slot k.(k_sha256)) j) in
       alive now e /\ fe_expires (aget fcache_entry0 es v) <= fe_expires e).
Proof.
  intros Hl Hu Hnow Httl. set (slot := ngx_http_waf_fcache_slot (k_sha256 k)).
  destruct (insert_victim_place now k es) as (jv & Hjv & Hv & _). fold slot in Hv.
  exists (aset es (probe_at slot jv) (new_entry now ttl k)), (probe_at slot jv).
  unfold ngx_http_waf_fcache_insert. replace (ttl =? 0) with false by lia. rewrite Hv.
  split; [done|]. split; [apply aget_aset_eq; rewrite Hl; apply probe_at_range|].
  split; [intros p Hp; by apply aget_aset_ne|].
  assert (Hr : forall p, reusable now (aget fcache_entry0 es p) = false <-> alive now (aget fcache_entry0 es p)).
  { intros p. specialize (Hu p). unfold reusable, alive, msec_diff. rewrite s64_small by (unfold is_s64; lia). lia. }
  intros Ha Hk j Hj. cbn zeta.
  unfold insert_victim in Hv. fold slot in Hv.
  pose proof (insert_loop_spec now k es (Z.to_nat NGX_HTTP_WAF_FCACHE_PROBE) 0 None None
                ltac:(discriminate) ltac:(discriminate)) as H.
  fold slot in H. rewrite Hv in H.
  destruct H as [(j1 & Hj1 & E & [_ Hh] & _)|(_ & _ & H)].
  { fold slot in Hh. rewrite <- E in Hh. congruence. }
  destruct (H Hu (proj2 (Hr _) Ha)) as (_ & Hall & _). fold slot. rewrite <- Hr. apply Hall.
  change (Z.of_nat (Z.to_nat NGX_HTTP_WAF_FCACHE_PROBE)) with NGX_HTTP_WAF_FCACHE_PROBE. lia.
Qed.

(** ** A frame that is put in and found *)

Definition demo_key : fcache_key := mkKey 7 2 1 (replicate 32 17).

Lemma fcache_hit_justified_witness :
  justified [Insert 100 50 demo_key; Lookup 120 demo_key] 149 demo_key.
Proof.
  apply (fcache_hit_justified true true (Some fresh_entries)); vm_compute; reflexivity.
Defined.

Lemma fcache_insert_lookup_witness :
  fst (ngx_http_waf_fcache_lookup 149 demo_key (ngx_http_waf_fcache_insert 100 50 demo_key (Some fresh_entries))) = NGX_OK.
Proof.
  rewrite (fcache_insert_lookup 100 50 demo_key fresh_entries 149); [reflexivity|vm_compute; reflexivity| | |lia..];
    vm_compute; intuition discriminate.
Defined.

Lemma fcache_eviction_witness :
  exists es', ngx_http_waf_fcache_insert 100 50 demo_key (Some fresh_entries) = Some es'.
Proof.
  destruct (fcache_eviction 100 50 demo_key fresh_entries) as (es' & _ & H & _).
  - vm_compute. reflexivity.
  - intros p. destruct (Z.eq_dec (fe_expires (aget fcache_entry0 fresh_entries p)) 0) as [->|Hne]; [lia|].
    destruct (fresh_history p Hne) as (t & ttl & k & Hin & _). destruct (proj1 (elem_of_nil _) Hin).
  - lia.
  - lia.
  - exists es'. exact H.
Defined.

End FrameCache.
