(* ===== verification/Rate.v ===== *)
(** The local rate limits in the shared zone (local/ngx_http_waf_rate.c): one
    leaky bucket per rule and key, found through a red-black tree and kept in
    a queue of least recent use, within a budget of bytes.

    The nodes live in a store by address; the tree and the queue hold
    addresses, so that a bucket changed through one is changed for the other.
    The balancing of the tree, the slab allocator, [ngx_memn2cmp] and
    [ngx_crc32_short] are nginx's: the first three are parameters with what
    nginx documents of them, the outcomes of allocations are inputs. *)
From stdpp Require Import gmap sorting.
From S2P Require Import Prelude Types.
#[local] Open Scope Z_scope.

Module Rate.

Definition NGX_HTTP_WAF_RATE_KEY_MAX : Z := 255.
Definition NGX_HTTP_WAF_RATE_EVICT : Z := 16.

(** [rn_hash] is the key of the tree node, [rn_data] the [len] bytes at
    [data]. *)
Record rate_node := mkNode {
  rn_hash : Z;
  rn_sig : Z;
  rn_data : bytes;
  rn_last : Z;
  rn_excess : Z;
  rn_rate : Z
}.
#[export] Instance eta_rate_node : Eta rate_node := fun r =>
  mkNode r.(rn_hash) r.(rn_sig) r.(rn_data) r.(rn_last) r.(rn_excess) r.(rn_rate).

Inductive rate_mode_e := RATE_PEEK | RATE_GATE | RATE_DEBT.
Inductive rate_count_e := RATE_REQUESTS | RATE_WAVES | RATE_FRAMES.
#[export] Instance rate_mode_e_eq_dec : EqDecision rate_mode_e.
Proof. solve_decision. Defined.
#[export] Instance rate_count_e_eq_dec : EqDecision rate_count_e.
Proof. solve_decision. Defined.

(** A tree of node addresses; [Leaf] is the sentinel. *)
Inductive tree := Leaf | Bin (l : tree) (a : Z) (r : tree).

Fixpoint inorder (t : tree) : list Z :=
  match t with Leaf => [] | Bin l a r => inorder l ++ a :: inorder r end.

(** The rate part of [ngx_http_waf_shm_t]; the head of [rt_lru] is the most
    recently used node.  [rt_next] is an address nothing was allocated at
    yet, [rt_mem] the outcomes of the slab allocator. *)
Record rate_store := mkStore {
  rt_nodes : gmap Z rate_node;
  rt_tree : tree;
  rt_lru : list Z;
  rt_bytes : Z;
  rt_next : Z;
  rt_mem : alloc_stream
}.
#[export] Instance eta_rate_store : Eta rate_store := fun r =>
  mkStore r.(rt_nodes) r.(rt_tree) r.(rt_lru) r.(rt_bytes) r.(rt_next) r.(rt_mem).
Definition rate_store0 (mem : alloc_stream) : rate_store := mkStore ∅ Leaf [] 0 0 mem.

Definition node0 : rate_node := mkNode 0 0 [] 0 0 0.
Definition node_at (st : rate_store) (a : Z) : rate_node := default node0 (st.(rt_nodes) !! a).

(** The fields of [ngx_http_waf_rate_rule_t] that accounting reads; [rr_md5]:
    [hash == NGX_HTTP_WAF_DS_HASH_MD5]; [rr_list] is the dataset of list=. *)
Record rate_rule := mkRule {
  rr_rate : Z;
  rr_burst : Z;
  rr_count : rate_count_e;
  rr_action : policy_e;
  rr_response : bytes;
  rr_list : option Z;
  rr_list_ttl : Z;
  rr_md5 : bool;
  rr_sig : Z
}.

(** *** Time and size *)

Definition ngx_http_waf_rate_elapsed (now last : Z) : Z :=
  let ms := msec_diff now last in
  if ms <? -60000 then 1 else if ms <? 0 then 0 else ms.

(** [offsetof(ngx_rbtree_node_t, color) + offsetof(ngx_http_waf_rate_node_t,
    data)] where a pointer has 8 bytes. *)
Definition NODE_HEADER : Z := 32 + 52.

Fixpoint charge_loop (fuel : nat) (size charge : Z) : Z :=
  match fuel with
  | O => charge
  | S fuel => if charge <? size then charge_loop fuel size (Z.shiftl charge 1) else charge
  end.
Definition ngx_http_waf_rate_charge (len : Z) : Z := charge_loop 64 (NODE_HEADER + len) 8.

(** What drained from a bucket of this rate in [ms] milliseconds. *)
Definition drained (rate ms : Z) : Z := s64 (u64 (rate * ms) / 1000).

Section rate.
Context (memn2cmp : bytes -> bytes -> Z).
Context (rebalance : tree -> tree) (rb_delete : tree -> Z -> tree).

(** *** The tree *)

(** The descent for a node that is being inserted. *)
Definition goes_left (node temp : rate_node) : bool :=
  if node.(rn_hash) <? temp.(rn_hash) then true
  else if temp.(rn_hash) <? node.(rn_hash) then false
  else if negb (node.(rn_sig) =? temp.(rn_sig)) then node.(rn_sig) <? temp.(rn_sig)
  else memn2cmp node.(rn_data) temp.(rn_data) <? 0.

Fixpoint ngx_http_waf_rate_insert_value (st : rate_store) (t : tree) (a : Z) : tree :=
  match t with
  | Leaf => Bin Leaf a Leaf
  | Bin l b r => if goes_left (node_at st a) (node_at st b)
                 then Bin (ngx_http_waf_rate_insert_value st l a) b r
                 else Bin l b (ngx_http_waf_rate_insert_value st r a)
  end.

Fixpoint lookup_tree (st : rate_store) (t : tree) (sig : Z) (key : bytes) (hash : Z) : option Z :=
  match t with
  | Leaf => None
  | Bin l a r =>
      let rn := node_at st a in
      if hash <? rn.(rn_hash) then lookup_tree st l sig key hash
      else if rn.(rn_hash) <? hash then lookup_tree st r sig key hash
      else if rn.(rn_sig) =? sig then
        let rc := memn2cmp key rn.(rn_data) in
        if rc =? 0 then Some a
        else if rc <? 0 then lookup_tree st l sig key hash else lookup_tree st r sig key hash
      else if sig <? rn.(rn_sig) then lookup_tree st l sig key hash else lookup_tree st r sig key hash
  end.

Definition ngx_http_waf_rate_lookup (st : rate_store) (rule : rate_rule) (key : bytes) (hash : Z)
    : option Z := lookup_tree st st.(rt_tree) rule.(rr_sig) key hash.

(** *** Freeing and making room *)

Definition ngx_http_waf_rate_free (a : Z) (st : rate_store) : rate_store :=
  let charge := ngx_http_waf_rate_charge (zlen (node_at st a).(rn_data)) in
  st <| rt_lru ::= filter (fun b => b <> a) |> <| rt_tree ::= fun t => rb_delete t a |>
     <| rt_nodes ::= delete a |>
     <| rt_bytes ::= fun b => if charge <? b then b - charge else 0 |>.

(** [n] turns of the loop. *)
Fixpoint expire_loop (n : nat) (now : Z) (force : bool) (st : rate_store) : rate_store :=
  match n with
  | O => st
  | S n =>
      match last st.(rt_lru) with
      | None => st
      | Some a =>
          let rn := node_at st a in
          let excess := s64 (s64 rn.(rn_excess)
                             - drained rn.(rn_rate) (ngx_http_waf_rate_elapsed now rn.(rn_last))) in
          if negb force && (0 <? excess) then st
          else expire_loop n now false (ngx_http_waf_rate_free a st)
      end
  end.
Definition ngx_http_waf_rate_expire (now : Z) (force : bool) (st : rate_store) : rate_store :=
  expire_loop 2 now force st.

Fixpoint evict_loop (n : nat) (now charge rate_max : Z) (st : rate_store) : rate_store :=
  match n with
  | O => st
  | S n => if (rate_max <? st.(rt_bytes) + charge) && negb (bool_decide (st.(rt_lru) = []))
           then evict_loop n now charge rate_max (ngx_http_waf_rate_expire now true st)
           else st
  end.

Definition slab_alloc (st : rate_store) : bool * rate_store :=
  let '(ok, mem) := alloc st.(rt_mem) in (ok, st <| rt_mem := mem |>).

Definition ngx_http_waf_rate_insert (now rate_max : Z) (rule : rate_rule) (key : bytes)
    (hash excess : Z) (st : rate_store) : ngx_rc * rate_store :=
  let charge := ngx_http_waf_rate_charge (zlen key) in
  let st := ngx_http_waf_rate_expire now false st in
  let st := evict_loop (Z.to_nat NGX_HTTP_WAF_RATE_EVICT) now charge rate_max st in
  let '(node, st) :=
    if st.(rt_bytes) + charge <=? rate_max then
      let '(ok, st) := slab_alloc st in
      if ok then (true, st) else slab_alloc (ngx_http_waf_rate_expire now true st)
    else (false, st) in
  if negb node then (NGX_ERROR, st)
  else
    let a := st.(rt_next) in
    let rn := mkNode hash rule.(rr_sig) key now excess rule.(rr_rate) in
    let st := st <| rt_bytes ::= fun b => b + charge |> <| rt_next ::= fun n => n + 1 |>
                 <| rt_nodes ::= insert a rn |> in
    let st := st <| rt_tree := rebalance (ngx_http_waf_rate_insert_value st st.(rt_tree) a) |> in
    (NGX_OK, st <| rt_lru ::= cons a |>).

(** *** Accounting *)

Context (crc32 : bytes -> Z).

Definition key_hash (rule : rate_rule) (key : bytes) : Z := Z.lxor (crc32 key) rule.(rr_sig).

(** The result, the excess that is reported, and the store. *)
Definition ngx_http_waf_rate_account (now rate_max : Z) (rule : rate_rule) (key : bytes)
    (mode : rate_mode_e) (st : rate_store) : ngx_rc * Z * rate_store :=
  let hash := key_hash rule key in
  match ngx_http_waf_rate_lookup st rule key hash with
  | None =>
      let st := if mode ==? RATE_PEEK then st
                else snd (ngx_http_waf_rate_insert now rate_max rule key hash
                            (if mode ==? RATE_DEBT then 1000 else 0) st) in
      (NGX_OK, 0, st)
  | Some a =>
      let st := st <| rt_lru ::= fun q => a :: filter (fun b => b <> a) q |> in
      let rn := node_at st a in
      let ms := ngx_http_waf_rate_elapsed now rn.(rn_last) in
      let value := s64 (s64 rn.(rn_excess) - drained rule.(rr_rate) ms
                        + (if mode ==? RATE_PEEK then 0 else 1000)) in
      let value := if value <? 0 then 0 else value in
      let stamp (rn : rate_node) := if ms =? 0 then rn else rn <| rn_last := now |> in
      let write (x : Z) := st <| rt_nodes ::= insert a (stamp (rn <| rn_excess := x |>)) |> in
      let fits := value <=? s64 rule.(rr_burst) in
      match mode with
      | RATE_PEEK => (if fits then NGX_OK else NGX_DECLINED, value, st)
      | RATE_GATE => if fits then (NGX_OK, value, write value) else (NGX_DECLINED, value, st)
      | RATE_DEBT =>
          if fits then (NGX_OK, value, write value)
          else let limit := s64 (rule.(rr_burst) + rule.(rr_rate)) in
               (NGX_DECLINED, value, write (if limit <? value then limit else value))
      end
  end.

(** *** The rules of a request *)

(** [operand rule]: the value of [ngx_http_waf_operand_single], [None] when it
    has none; [md5_hex]: [ngx_http_waf_md5_hex]. *)
Context (operand : rate_rule -> option bytes) (cond_test : rate_rule -> bool) (md5_hex : bytes -> bytes).

Definition ngx_http_waf_rate_key (rule : rate_rule) : option (bytes * bytes) :=
  match operand rule with
  | None => None
  | Some raw =>
      if zlen raw =? 0 then None
      else if rule.(rr_md5) then Some (raw, md5_hex raw)
      else if NGX_HTTP_WAF_RATE_KEY_MAX <? zlen raw then None
      else Some (raw, raw)
  end.

(** What a refusing rule leaves behind: its response, and the entry it puts
    into its list (dataset, key and time to live). *)
Record refusal := mkRefusal { rf_response : bytes; rf_put : option (Z * bytes * Z) }.

(** [None] for the zone: [scf == NULL] or [scf->shm == NULL]. *)
Fixpoint rate_check_loop (now rate_max : Z) (frame : bool) (rules : list rate_rule)
    (st : rate_store) : ngx_rc * option refusal * rate_store :=
  match rules with
  | [] => (NGX_OK, None, st)
  | rule :: rules =>
      if (if frame then negb (rule.(rr_count) ==? RATE_FRAMES) else rule.(rr_count) ==? RATE_FRAMES)
         || negb (cond_test rule)
      then rate_check_loop now rate_max frame rules st
      else
        match ngx_http_waf_rate_key rule with
        | None => rate_check_loop now rate_max frame rules st
        | Some (raw, key) =>
            let mode := if rule.(rr_count) ==? RATE_WAVES then RATE_PEEK else RATE_GATE in
            let '(rc, _, st) := ngx_http_waf_rate_account now rate_max rule key mode st in
            if rc_ok rc then rate_check_loop now rate_max frame rules st
            else if rule.(rr_action) ==? POLICY_BLOCK then
              (NGX_DECLINED,
               Some (mkRefusal rule.(rr_response)
                       ((fun d => (d, raw, rule.(rr_list_ttl))) <$> rule.(rr_list))), st)
            else rate_check_loop now rate_max frame rules st
        end
  end.
Definition ngx_http_waf_rate_check (now rate_max : Z) (phase : phase_e)
    (rules : option (list rate_rule)) (zone : option rate_store)
    : ngx_rc * option refusal * option rate_store :=
  match rules, zone with
  | Some rules, Some st =>
      let '(rc, rf, st) := rate_check_loop now rate_max (ngx_http_waf_phase_is_frame phase) rules st in
      (rc, rf, Some st)
  | _, _ => (NGX_OK, None, zone)
  end.

Definition charge_rule (now rate_max : Z) (st : rate_store) (rule : rate_rule) : rate_store :=
  if negb (rule.(rr_count) ==? RATE_WAVES) || negb (cond_test rule) then st
  else match ngx_http_waf_rate_key rule with
       | None => st
       | Some (_, key) => snd (ngx_http_waf_rate_account now rate_max rule key RATE_DEBT st)
       end.
Definition ngx_http_waf_rate_charge_wave (now rate_max : Z)
    (rules : option (list rate_rule)) (zone : option rate_store) : option rate_store :=
  match rules, zone with
  | Some rules, Some st => Some (foldl (charge_rule now rate_max) st rules)
  | _, _ => zone
  end.

End rate.
End Rate.
