(* ===== verification/RateFacts.v ===== *)
(** What the local rate limits promise: the tree, the queue and the budget of
    bytes stay consistent, accounting is the step of a leaky bucket, and a
    bucket that is kept bounds the requests that pass. *)
From stdpp Require Import gmap sorting.
From S2P Require Import Prelude Types Rate.
Import Rate.
#[local] Open Scope Z_scope.

Module RateFacts.

(** What the code relies on of nginx: [ngx_memn2cmp] orders byte strings,
    inserting into and deleting from a red-black tree keeps the in-order
    sequence but for the node in question. *)
Class RbTree (memn2cmp : bytes -> bytes -> Z) (rebalance : tree -> tree) (rb_delete : tree -> Z -> tree) := {
  cmp_eq : forall x y, memn2cmp x y = 0 <-> x = y;
  cmp_anti : forall x y, memn2cmp x y < 0 <-> 0 < memn2cmp y x;
  cmp_trans : forall x y z, memn2cmp x y < 0 -> memn2cmp y z < 0 -> memn2cmp x z < 0;
  rebalance_inorder : forall t, inorder (rebalance t) = inorder t;
  rb_delete_inorder : forall t a, inorder (rb_delete t a) = filter (fun b => b <> a) (inorder t)
}.

#[local] Arguments ngx_http_waf_rate_charge : simpl never.

Section facts.
Context {memn2cmp : bytes -> bytes -> Z} {rebalance : tree -> tree} {rb_delete : tree -> Z -> tree}.
Context `{!RbTree memn2cmp rebalance rb_delete}.
Context (crc32 : bytes -> Z).

#[local] Abbreviation lt_node n m := (goes_left memn2cmp n m = true).

(** ** The order of the nodes *)

Definition same_node (n m : rate_node) : Prop :=
  n.(rn_hash) = m.(rn_hash) /\ n.(rn_sig) = m.(rn_sig) /\ n.(rn_data) = m.(rn_data).

Lemma lt_node_spec n m :
  lt_node n m <->
  n.(rn_hash) < m.(rn_hash) \/ n.(rn_hash) = m.(rn_hash) /\
    (n.(rn_sig) < m.(rn_sig) \/ n.(rn_sig) = m.(rn_sig) /\ memn2cmp n.(rn_data) m.(rn_data) < 0).
Proof.
  unfold goes_left. destruct (Z.ltb_spec (rn_hash n) (rn_hash m)); [split; [lia|done]|].
  destruct (Z.ltb_spec (rn_hash m) (rn_hash n)); [split; [done|lia]|].
  destruct (Z.eqb_spec (rn_sig n) (rn_sig m)); cbn [negb]; lia.
Qed.

Lemma cmp_refl x : memn2cmp x x = 0.
Proof. by apply cmp_eq. Qed.

Lemma lt_node_irrefl n : ~ lt_node n n.
Proof. rewrite lt_node_spec, cmp_refl. lia. Qed.

Lemma lt_node_trans n m o : lt_node n m -> lt_node m o -> lt_node n o.
Proof.
  rewrite !lt_node_spec.
  intros [?|[? [?|[? H1]]]] [?|[? [?|[? H2]]]]; try lia.
  right. split; [lia|]. right. split; [lia|]. eapply cmp_trans; eassumption.
Qed.

Lemma lt_node_cases n m : lt_node n m \/ same_node n m \/ lt_node m n.
Proof.
  rewrite !lt_node_spec. unfold same_node.
  destruct (Ztrichotomy (rn_hash n) (rn_hash m)) as [|[|]]; [lia| |lia].
  destruct (Ztrichotomy (rn_sig n) (rn_sig m)) as [|[|]]; [lia| |lia].
  destruct (Ztrichotomy (memn2cmp (rn_data n) (rn_data m)) 0) as [|[He|Hg]]; [lia| |].
  - apply cmp_eq in He. tauto.
  - assert (memn2cmp (rn_data m) (rn_data n) < 0) by (apply cmp_anti; lia). lia.
Qed.

Lemma lt_not_same n m : lt_node n m -> ~ same_node n m.
Proof. rewrite lt_node_spec. intros H (H1 & H2 & H3). rewrite H3, cmp_refl in H. lia. Qed.

(** ** Search trees *)

Definition sorted (st : rate_store) (l : list Z) : Prop :=
  StronglySorted (fun a b => lt_node (node_at st a) (node_at st b)) l.

Definition probe (sig : Z) (key : bytes) (hash : Z) : rate_node := mkNode hash sig key 0 0 0.

Lemma lookup_tree_step st l a r sig key hash :
  let p := probe sig key hash in
  lookup_tree memn2cmp st (Bin l a r) sig key hash =
    if goes_left memn2cmp p (node_at st a) then lookup_tree memn2cmp st l sig key hash
    else if goes_left memn2cmp (node_at st a) p then lookup_tree memn2cmp st r sig key hash
    else Some a.
Proof.
  cbn zeta. cbn [lookup_tree]. unfold goes_left. cbn [probe rn_hash rn_sig rn_data].
  set (rn := node_at st a). destruct (Z.ltb_spec hash (rn_hash rn)); [done|].
  destruct (Z.ltb_spec (rn_hash rn) hash); [done|].
  replace (sig =? rn_sig rn) with (rn_sig rn =? sig) by apply Z.eqb_sym.
  destruct (Z.eqb_spec (rn_sig rn) sig) as [Hs|Hs]; cbn [negb].
  - destruct (Z.eqb_spec (memn2cmp key (rn_data rn)) 0) as [He|He].
    + apply cmp_eq in He as ->. by rewrite cmp_refl.
    + destruct (Z.ltb_spec (memn2cmp key (rn_data rn)) 0); [done|].
      replace (memn2cmp (rn_data rn) key <? 0) with true; [done|]. symmetry. apply Z.ltb_lt, cmp_anti. lia.
  - destruct (Z.ltb_spec sig (rn_sig rn)); [done|]. by replace (rn_sig rn <? sig) with true by lia.
Qed.

Lemma lookup_tree_spec st t sig key hash :
  sorted st (inorder t) ->
  match lookup_tree memn2cmp st t sig key hash with
  | Some a => a ∈ inorder t /\ same_node (node_at st a) (probe sig key hash)
  | None => forall a, a ∈ inorder t -> ~ same_node (node_at st a) (probe sig key hash)
  end.
Proof.
  set (p := probe sig key hash). induction t as [|l IHl a r IHr]; intros Hs.
  { cbn. intros a Ha. by apply elem_of_nil in Ha. }
  rewrite lookup_tree_step. fold p. cbn [inorder] in *.
  apply StronglySorted_app in Hs as (Hla & Hl & Hr). apply StronglySorted_inv in Hr as [Hr Har].
  specialize (IHl Hl). specialize (IHr Hr). rewrite Forall_forall in Har.
  assert (Hap : forall b, same_node (node_at st b) p -> forall n, (lt_node n (node_at st b) <-> lt_node n p) /\
                                                             (lt_node (node_at st b) n <-> lt_node p n)).
  { intros b (H1 & H2 & H3) n. rewrite !lt_node_spec, H1, H2, H3. done. }
  destruct (goes_left memn2cmp p (node_at st a)) eqn:E1.
  - destruct (lookup_tree _ _ l _ _ _) as [b|]; [destruct IHl; split; [apply elem_of_app; by left|done]|].
    intros b [Hb|[->|Hb]%elem_of_cons]%elem_of_app Hsame; [by eapply IHl| |].
    + apply (lt_not_same p (node_at st a)); [done|]. destruct Hsame as (? & ? & ?). by split_and!.
    + apply (lt_node_irrefl (node_at st a)). eapply lt_node_trans; [|exact E1].
      apply (Hap b Hsame). by apply Har.
  - destruct (goes_left memn2cmp (node_at st a) p) eqn:E2.
    + destruct (lookup_tree _ _ r _ _ _) as [b|];
        [destruct IHr; split; [apply elem_of_app; right; by right|done]|].
      intros b [Hb|[->|Hb]%elem_of_cons]%elem_of_app Hsame; [| |by eapply IHr].
      * apply (lt_node_irrefl (node_at st a)). eapply lt_node_trans; [exact E2|].
        apply (Hap b Hsame). apply Hla; [done|by left].
      * by apply (lt_not_same (node_at st a) p).
    + split; [apply elem_of_app; right; by left|].
      destruct (lt_node_cases (node_at st a) p) as [?|[?|?]]; [congruence|done|congruence].
Qed.

Lemma insert_value_perm st t a : inorder (ngx_http_waf_rate_insert_value memn2cmp st t a) ≡ₚ a :: inorder t.
Proof.
  induction t as [|l IHl b r IHr]; cbn; [done|]. destruct (goes_left _ _ _); cbn.
  - rewrite IHl. done.
  - rewrite IHr. rewrite <- !Permutation_middle. by constructor.
Qed.

Lemma insert_value_sorted st t a :
  sorted st (inorder t) -> (forall b, b ∈ inorder t -> ~ same_node (node_at st a) (node_at st b)) ->
  sorted st (inorder (ngx_http_waf_rate_insert_value memn2cmp st t a)).
Proof.
  induction t as [|l IHl b r IHr]; intros Hs Hn; cbn [inorder ngx_http_waf_rate_insert_value] in *.
  { apply StronglySorted_app. split_and!; [intros ?? H; by apply elem_of_nil in H|constructor|].
    constructor; constructor. }
  apply StronglySorted_app in Hs as (Hlb & Hl & Hbr). apply StronglySorted_inv in Hbr as [Hr Hb].
  rewrite Forall_forall in Hb.
  assert (Hnb : ~ same_node (node_at st a) (node_at st b)) by (apply Hn, elem_of_app; right; by left).
  destruct (goes_left memn2cmp (node_at st a) (node_at st b)) eqn:E; cbn [inorder]; apply StronglySorted_app.
  - split_and!.
    + intros x y Hx Hy. rewrite insert_value_perm in Hx. apply elem_of_cons in Hx as [->|Hx]; [|by apply Hlb].
      apply elem_of_cons in Hy as [->|Hy]; [done|]. eapply lt_node_trans; [exact E|]. by apply Hb.
    + apply IHl; [done|]. intros c Hc. apply Hn, elem_of_app. by left.
    + constructor; [done|]. by apply Forall_forall.
  - assert (E' : lt_node (node_at st b) (node_at st a))
      by (destruct (lt_node_cases (node_at st a) (node_at st b)) as [?|[?|?]]; [congruence|done|done]).
    split_and!.
    + intros x y Hx [->|Hy]%elem_of_cons; [apply Hlb; [done|by left]|]. rewrite insert_value_perm in Hy.
      apply elem_of_cons in Hy as [->|Hy]; [|apply Hlb; [done|by right]].
      eapply lt_node_trans; [|exact E']. apply Hlb; [done|by left].
    + done.
    + constructor.
      * apply IHr; [done|]. intros c Hc. apply Hn, elem_of_app. right. by right.
      * apply Forall_forall. intros c Hc. rewrite insert_value_perm in Hc.
        apply elem_of_cons in Hc as [->|Hc]; [done|by apply Hb].
Qed.

(** ** The invariant of the store *)

Definition charge_of (st : rate_store) (a : Z) : Z := ngx_http_waf_rate_charge (zlen (node_at st a).(rn_data)).
Definition total (st : rate_store) (l : list Z) : Z := foldr (fun a x => charge_of st a + x) 0 l.

Record rate_inv (rate_max : Z) (st : rate_store) : Prop := {
  ri_sorted : sorted st (inorder st.(rt_tree));
  ri_perm : inorder st.(rt_tree) ≡ₚ st.(rt_lru);
  ri_dom : forall a, a ∈ st.(rt_lru) <-> is_Some (st.(rt_nodes) !! a);
  ri_next : forall a, a ∈ st.(rt_lru) -> a < st.(rt_next);
  ri_hash : forall a, a ∈ st.(rt_lru) ->
    (node_at st a).(rn_hash) = Z.lxor (crc32 (node_at st a).(rn_data)) (node_at st a).(rn_sig);
  ri_bytes : st.(rt_bytes) = total st st.(rt_lru);
  ri_max : st.(rt_bytes) <= rate_max
}.

Lemma charge_loop_pos n size c : 0 < c -> 0 < charge_loop n size c.
Proof.
  revert c. induction n as [|n IH]; intros c Hc; cbn [charge_loop]; [done|].
  destruct (c <? size); [|done]. apply IH. rewrite Z.shiftl_mul_pow2 by lia. lia.
Qed.
Lemma charge_pos len : 0 < ngx_http_waf_rate_charge len.
Proof. apply charge_loop_pos. lia. Qed.

Lemma total_perm st l l' : l ≡ₚ l' -> total st l = total st l'.
Proof. unfold total. induction 1; cbn; lia. Qed.

Lemma total_nonneg st l : 0 <= total st l.
Proof.
  unfold total. induction l as [|a l IH]; cbn [foldr]; [lia|].
  pose proof (charge_pos (zlen (rn_data (node_at st a)))). unfold charge_of at 1. lia.
Qed.

Lemma total_ext st st' l :
  (forall a, a ∈ l -> (node_at st' a).(rn_data) = (node_at st a).(rn_data)) -> total st' l = total st l.
Proof.
  intros H. unfold total. induction l as [|a l IH]; cbn; [done|]. unfold charge_of at 1 3.
  rewrite (H a) by (by left). rewrite IH; [done|]. intros b Hb. apply H. by right.
Qed.

Lemma inv_nodup rate_max st : rate_inv rate_max st -> NoDup st.(rt_lru).
Proof.
  intros Hi. rewrite <- (ri_perm _ _ Hi). pose proof (ri_sorted _ _ Hi) as Hs. unfold sorted in Hs.
  induction Hs as [|a l Hs IH Ha]; [constructor|]. constructor; [|done]. intros Hin.
  rewrite Forall_forall in Ha. by apply (lt_node_irrefl (node_at st a)), Ha.
Qed.

Lemma perm_filter_out (l : list Z) a : NoDup l -> a ∈ l -> l ≡ₚ a :: filter (fun b => b <> a) l.
Proof.
  induction 1 as [|b l Hb Hn IH]; intros Ha; [by apply elem_of_nil in Ha|].
  rewrite filter_cons. destruct (decide (b <> a)) as [Hne|He].
  - apply elem_of_cons in Ha as [->|Ha]; [done|]. rewrite (IH Ha) at 1. by rewrite Permutation_swap.
  - assert (b = a) as -> by (destruct (decide (b = a)); done). constructor.
    clear -Hb. induction l as [|c l IH]; [done|]. rewrite filter_cons_True by (intros ->; apply Hb; by left).
    constructor. apply IH. intros H. apply Hb. by right.
Qed.

Lemma sorted_ext st st' l :
  (forall a, a ∈ l -> same_node (node_at st' a) (node_at st a)) -> sorted st l -> sorted st' l.
Proof.
  intros He Hs. unfold sorted in *. induction Hs as [|a l Hs IH Ha]; [constructor|]. constructor.
  - apply IH. intros b Hb. apply He. by right.
  - rewrite Forall_forall in *. intros b Hb. specialize (Ha b Hb).
    destruct (He a ltac:(by left)) as (A1 & A2 & A3). destruct (He b ltac:(by right)) as (B1 & B2 & B3).
    rewrite lt_node_spec in *. by rewrite A1, A2, A3, B1, B2, B3.
Qed.

Lemma sorted_filter st (P : Z -> Prop) `{forall x, Decision (P x)} l : sorted st l -> sorted st (filter P l).
Proof.
  intros Hs. unfold sorted in *. induction Hs as [|a l Hs IH Ha]; [constructor|]. rewrite filter_cons.
  destruct (decide (P a)); [|done]. constructor; [done|]. rewrite Forall_forall in *.
  intros b [_ Hb]%list_elem_of_filter. by apply Ha.
Qed.

(** Changes that keep the keys of the nodes, the order of use aside. *)
Lemma inv_touch rate_max st st' :
  rate_inv rate_max st -> st'.(rt_tree) = st.(rt_tree) -> st'.(rt_lru) ≡ₚ st.(rt_lru) ->
  st'.(rt_bytes) = st.(rt_bytes) -> st'.(rt_next) = st.(rt_next) ->
  (forall a, is_Some (st'.(rt_nodes) !! a) <-> is_Some (st.(rt_nodes) !! a)) ->
  (forall a, a ∈ st.(rt_lru) -> same_node (node_at st' a) (node_at st a)) ->
  rate_inv rate_max st'.
Proof.
  intros Hi Ht Hl Hb Hn Hd Hs. pose proof (ri_perm _ _ Hi) as Hp. constructor; rewrite ?Ht, ?Hb, ?Hn.
  - eapply sorted_ext; [|apply Hi]. intros a Ha. apply Hs. by rewrite <- Hp.
  - by rewrite Hl.
  - intros a. rewrite Hl, Hd. apply Hi.
  - intros a. rewrite Hl. apply Hi.
  - intros a. rewrite Hl. intros Ha. destruct (Hs a Ha) as (-> & -> & ->). by apply Hi.
  - rewrite (total_perm st' _ _ Hl), (ri_bytes _ _ Hi). symmetry. apply total_ext. intros a Ha. by apply Hs.
  - apply Hi.
Qed.

(** ** Freeing *)

Lemma node_at_delete st st' a b :
  st'.(rt_nodes) = delete a st.(rt_nodes) -> b <> a -> node_at st' b = node_at st b.
Proof. intros H Hne. unfold node_at. by rewrite H, lookup_delete_ne. Qed.

Lemma free_inv rate_max st a :
  rate_inv rate_max st -> a ∈ st.(rt_lru) ->
  let st' := ngx_http_waf_rate_free rb_delete a st in
  rate_inv rate_max st' /\ st'.(rt_bytes) < st.(rt_bytes) /\
  st'.(rt_lru) = filter (fun b => b <> a) st.(rt_lru) /\
  (forall b, b <> a -> node_at st' b = node_at st b).
Proof.
  intros Hi Ha st'. pose proof (ri_perm _ _ Hi) as Hp. pose proof (inv_nodup _ _ Hi) as Hnd.
  assert (Hat : forall b, b <> a -> node_at st' b = node_at st b) by (intros; by apply (node_at_delete st st' a b)).
  assert (Hpf : st.(rt_lru) ≡ₚ a :: filter (fun b => b <> a) st.(rt_lru)) by (by apply perm_filter_out).
  assert (Htot : total st st.(rt_lru) = charge_of st a + total st (filter (fun b => b <> a) st.(rt_lru)))
    by (rewrite (total_perm _ _ _ Hpf); done).
  assert (Hb : st'.(rt_bytes) = total st (filter (fun b => b <> a) st.(rt_lru))).
  { unfold st', ngx_http_waf_rate_free. cbn. fold (charge_of st a). rewrite (ri_bytes _ _ Hi), Htot.
    pose proof (total_nonneg st (filter (fun b => b <> a) (rt_lru st))).
    destruct (Z.ltb_spec (charge_of st a) (charge_of st a + total st (filter (fun b => b <> a) (rt_lru st)))); lia. }
  assert (Hc : 0 < charge_of st a) by apply charge_pos.
  split_and!; [|rewrite Hb, (ri_bytes _ _ Hi); lia|done|done].
  assert (Hin : forall b, b ∈ filter (fun b => b <> a) (rt_lru st) -> b <> a /\ b ∈ rt_lru st)
    by (intros b; by rewrite list_elem_of_filter).
  constructor.
  - cbn. rewrite rb_delete_inorder. eapply sorted_ext; [|apply sorted_filter, Hi].
    intros b [Hne _]%list_elem_of_filter. by rewrite Hat.
  - cbn. rewrite rb_delete_inorder. by rewrite Hp.
  - intros b. cbn. rewrite list_elem_of_filter, (ri_dom _ _ Hi). destruct (decide (b = a)) as [->|].
    + rewrite lookup_delete_eq. split; [by intros []|by intros []].
    + rewrite lookup_delete_ne by done. tauto.
  - intros b Hbin. apply Hin in Hbin as [_ Hbin]. by apply Hi.
  - intros b Hbin. apply Hin in Hbin as [Hne Hbin]. rewrite Hat by done. by apply Hi.
  - rewrite Hb. symmetry. apply total_ext. intros b [Hne _]%Hin. by rewrite Hat.
  - rewrite Hb. pose proof (ri_max _ _ Hi). rewrite (ri_bytes _ _ Hi) in *. lia.
Qed.

(** [st'] is [st] with some nodes freed. *)
Record shrunk (st st' : rate_store) : Prop := {
  sk_lru : forall a, a ∈ st'.(rt_lru) -> a ∈ st.(rt_lru);
  sk_node : forall a, a ∈ st'.(rt_lru) -> node_at st' a = node_at st a;
  sk_bytes : st'.(rt_bytes) <= st.(rt_bytes);
  sk_next : st'.(rt_next) = st.(rt_next)
}.
#[local] Instance shrunk_preorder : PreOrder shrunk.
Proof.
  split; [by constructor|]. intros st1 st2 st3 [A1 A2 A3 A4] [B1 B2 B3 B4]. constructor; [auto| |lia|congruence].
  intros a Ha. rewrite B2 by done. auto.
Qed.

Lemma expire_inv rate_max n now force st :
  rate_inv rate_max st ->
  rate_inv rate_max (expire_loop rb_delete n now force st) /\ shrunk st (expire_loop rb_delete n now force st).
Proof.
  revert force st. induction n as [|n IH]; intros force st Hi; [done|]. cbn [expire_loop].
  destruct (last (rt_lru st)) as [a|] eqn:El; [|done]. cbn zeta. destruct (negb force && _); [done|].
  destruct (free_inv rate_max st a Hi) as (Hi' & Hb & Hl & Hn); [by apply last_Some_elem_of|].
  destruct (IH false _ Hi') as [Hi2 Hs2]. split; [done|].
  trans (ngx_http_waf_rate_free rb_delete a st); [|done].
  constructor; [| |lia|done]; intros b; rewrite Hl, list_elem_of_filter; intros [Hne Hbin]; [done|by apply Hn].
Qed.

Lemma evict_inv rate_max n now charge m st :
  rate_inv rate_max st ->
  rate_inv rate_max (evict_loop rb_delete n now charge m st) /\ shrunk st (evict_loop rb_delete n now charge m st).
Proof.
  revert st. induction n as [|n IH]; intros st Hi; [done|]. cbn [evict_loop].
  destruct (_ && _); [|done]. destruct (expire_inv rate_max 2 now true st Hi) as [Hi1 Hs1].
  destruct (IH _ Hi1) as [Hi2 Hs2]. split; [done|]. by trans (ngx_http_waf_rate_expire rb_delete now true st).
Qed.

(** ** Buckets *)

(** The bucket of a rule's signature and a key. *)
Definition bucket (st : rate_store) (sig : Z) (key : bytes) : option rate_node :=
  node_at st <$> lookup_tree memn2cmp st st.(rt_tree) sig key (Z.lxor (crc32 key) sig).

Lemma sorted_unique st l a b :
  sorted st l -> a ∈ l -> b ∈ l -> same_node (node_at st a) (node_at st b) -> a = b.
Proof.
  intros Hs. unfold sorted in Hs. induction Hs as [|c l Hs IH Hc]; intros Ha Hb Hab; [by apply elem_of_nil in Ha|].
  rewrite Forall_forall in Hc.
  apply elem_of_cons in Ha as [->|Ha]; apply elem_of_cons in Hb as [->|Hb]; [done| | |by apply IH].
  - destruct (lt_not_same _ _ (Hc b Hb) Hab).
  - destruct Hab as (? & ? & ?). destruct (lt_not_same _ _ (Hc a Ha)). by split_and!.
Qed.

Lemma bucket_Some rate_max st sig key n :
  rate_inv rate_max st ->
  bucket st sig key = Some n <->
  exists a, a ∈ st.(rt_lru) /\ node_at st a = n /\ n.(rn_sig) = sig /\ n.(rn_data) = key.
Proof.
  intros Hi. unfold bucket.
  pose proof (lookup_tree_spec st (rt_tree st) sig key (Z.lxor (crc32 key) sig) (ri_sorted _ _ Hi)) as Hl.
  assert (Hp : forall a, a ∈ inorder (rt_tree st) <-> a ∈ rt_lru st) by (intros a; by rewrite (ri_perm _ _ Hi)).
  assert (Hh : forall a, a ∈ rt_lru st -> rn_sig (node_at st a) = sig -> rn_data (node_at st a) = key ->
               same_node (node_at st a) (probe sig key (Z.lxor (crc32 key) sig))).
  { intros a Ha Hs Hd. pose proof (ri_hash _ _ Hi a Ha) as H. rewrite Hs, Hd in H. by split_and!. }
  destruct (lookup_tree _ _ _ _ _ _) as [b|]; cbn; (split; [intros [= <-]|intros (a & Ha & <- & Hs & Hd)]).
  - destruct Hl as [Hb (_ & Hs & Hd)]. exists b. by rewrite <- Hp.
  - destruct Hl as [Hb (B1 & B2 & B3)]. destruct (Hh a Ha Hs Hd) as (A1 & A2 & A3). do 2 f_equal.
    apply (sorted_unique st (inorder (rt_tree st))); [apply Hi|done|by apply Hp|]. split_and!; congruence.
  - destruct (Hl a); [by apply Hp|by apply Hh].
Qed.

Lemma shrunk_bucket rate_max st st' sig key :
  rate_inv rate_max st -> rate_inv rate_max st' -> shrunk st st' ->
  bucket st' sig key = bucket st sig key \/ bucket st' sig key = None.
Proof.
  intros Hi Hi' Hs. destruct (bucket st' sig key) as [n|] eqn:E; [left|by right]. symmetry.
  apply (bucket_Some _ _ _ _ _ Hi') in E as (a & Ha & <- & H1 & H2).
  apply (bucket_Some _ _ _ _ _ Hi). exists a. rewrite (sk_node _ _ Hs a Ha) in *.
  split; [by apply (sk_lru _ _ Hs)|done].
Qed.

(** ** Inserting *)

(** The last steps of an insertion, once there is room. *)
Definition add_node (rn : rate_node) (charge : Z) (st : rate_store) : rate_store :=
  let a := st.(rt_next) in
  let st := st <| rt_bytes ::= fun b => b + charge |> <| rt_next ::= fun n => n + 1 |>
               <| rt_nodes ::= insert a rn |> in
  let st := st <| rt_tree := rebalance (ngx_http_waf_rate_insert_value memn2cmp st st.(rt_tree) a) |> in
  st <| rt_lru ::= cons a |>.

Lemma node_at_add rn charge st a :
  node_at (add_node rn charge st) a = if decide (a = st.(rt_next)) then rn else node_at st a.
Proof.
  unfold node_at, add_node. cbn. destruct (decide (a = rt_next st)) as [->|]; [by rewrite lookup_insert_eq|].
  by rewrite lookup_insert_ne.
Qed.

Lemma insert_value_ext st st' t a :
  (forall b, node_at st' b = node_at st b) ->
  ngx_http_waf_rate_insert_value memn2cmp st' t a = ngx_http_waf_rate_insert_value memn2cmp st t a.
Proof. intros H. induction t as [|l IHl b r IHr]; cbn; [done|]. by rewrite !H, IHl, IHr. Qed.

Lemma add_inv rate_max rn st :
  rate_inv rate_max st -> bucket st rn.(rn_sig) rn.(rn_data) = None ->
  rn.(rn_hash) = Z.lxor (crc32 rn.(rn_data)) rn.(rn_sig) ->
  let charge := ngx_http_waf_rate_charge (zlen rn.(rn_data)) in
  st.(rt_bytes) + charge <= rate_max ->
  let st' := add_node rn charge st in
  rate_inv rate_max st' /\ bucket st' rn.(rn_sig) rn.(rn_data) = Some rn /\
  (forall sig key, (sig, key) <> (rn.(rn_sig), rn.(rn_data)) -> bucket st' sig key = bucket st sig key).
Proof.
  intros Hi Hnew Hh charge Hmax st'. set (a := st.(rt_next)).
  assert (Hfresh : forall b, b ∈ rt_lru st -> b <> a) by (intros b Hb ->; apply (ri_next _ _ Hi) in Hb; subst a; lia).
  assert (Hat : forall b, node_at st' b = if decide (b = a) then rn else node_at st b) by apply node_at_add.
  assert (Hold : forall b, b ∈ rt_lru st -> node_at st' b = node_at st b)
    by (intros b Hb; rewrite Hat, decide_False by (by apply Hfresh); done).
  assert (Hin : forall b, b ∈ inorder (rt_tree st) <-> b ∈ rt_lru st) by (intros b; by rewrite (ri_perm _ _ Hi)).
  set (stx := st <| rt_bytes ::= fun b => b + charge |> <| rt_next ::= fun n => n + 1 |>
                 <| rt_nodes ::= insert a rn |>).
  assert (Htree : inorder (rt_tree st') = inorder (ngx_http_waf_rate_insert_value memn2cmp st' (rt_tree st) a)).
  { change (rt_tree st') with (rebalance (ngx_http_waf_rate_insert_value memn2cmp stx (rt_tree st) a)).
    rewrite rebalance_inorder. by rewrite (insert_value_ext st' stx). }
  assert (Hinv : rate_inv rate_max st').
  { constructor.
    - rewrite Htree. apply insert_value_sorted.
      + eapply sorted_ext; [|apply Hi]. intros b Hb. by rewrite Hold by (by apply Hin).
      + intros b Hb Hsame. apply Hin in Hb. rewrite Hat, decide_True in Hsame by done. rewrite Hold in Hsame by done.
        destruct Hsame as (_ & H1 & H2).
        assert (E : bucket st (rn_sig rn) (rn_data rn) = Some (node_at st b))
          by (apply (bucket_Some rate_max); [done|]; exists b; split_and!; congruence).
        congruence.
    - rewrite Htree, insert_value_perm. cbn. by rewrite (ri_perm _ _ Hi).
    - intros b. cbn. rewrite elem_of_cons, (ri_dom _ _ Hi). destruct (decide (b = a)) as [->|].
      + rewrite lookup_insert_eq. split; [by eexists|by left].
      + rewrite lookup_insert_ne by done. split; [by intros [->|]|by right].
    - intros b [->|Hb]%elem_of_cons; cbn; [lia|]. apply (ri_next _ _ Hi) in Hb. lia.
    - intros b [->|Hb]%elem_of_cons; [by rewrite Hat, decide_True|]. rewrite Hold by done. by apply Hi.
    - cbn [rt_lru st' add_node upd]. change (rt_lru st') with (a :: rt_lru st).
      change (rt_bytes st') with (rt_bytes st + charge). unfold total. cbn [foldr].
      unfold charge_of at 1. rewrite Hat, decide_True by done. fold charge.
      change (foldr _ 0 (rt_lru st)) with (total st' (rt_lru st)). rewrite (ri_bytes _ _ Hi), (total_ext st st'); [lia|].
      intros b Hb. by rewrite Hold.
    - done. }
  split_and!; [done| |].
  - apply (bucket_Some rate_max); [done|]. exists a. rewrite Hat, decide_True by done.
    split_and!; [by left|done|done|done].
  - intros sig key Hne. apply option_eq. intros n. rewrite !(bucket_Some rate_max) by done.
    split; intros (b & Hb & Hn & H1 & H2).
    + apply elem_of_cons in Hb as [->|Hb]; [rewrite Hat, decide_True in Hn by done; subst; done|].
      rewrite Hold in Hn by done. by exists b.
    + exists b. rewrite Hold by done. split; [by right|done].
Qed.

Lemma slab_inv rate_max st :
  rate_inv rate_max st -> rate_inv rate_max (slab_alloc st).2 /\ shrunk st (slab_alloc st).2.
Proof.
  intros Hi. unfold slab_alloc. destruct (alloc (rt_mem st)) as [ok mem]. cbn.
  split; [by eapply inv_touch|by constructor].
Qed.

Lemma insert_after_expire rate_max now rule key hash excess st0 :
  rate_inv rate_max st0 ->
  let st := ngx_http_waf_rate_expire rb_delete now false st0 in
  bucket st rule.(rr_sig) key = None -> hash = Z.lxor (crc32 key) rule.(rr_sig) ->
  let st' := (ngx_http_waf_rate_insert memn2cmp rebalance rb_delete now rate_max rule key hash excess st0).2 in
  rate_inv rate_max st' /\
  (bucket st' rule.(rr_sig) key = None \/
   bucket st' rule.(rr_sig) key = Some (mkNode hash rule.(rr_sig) key now excess rule.(rr_rate))) /\
  (forall sig k, (sig, k) <> (rule.(rr_sig), key) ->
     bucket st' sig k = bucket st sig k \/ bucket st' sig k = None).
Proof.
  intros Hi0 st Hnone Hh. cbn zeta. unfold ngx_http_waf_rate_insert. fold st.
  set (charge := ngx_http_waf_rate_charge (zlen key)).
  assert (Hi : rate_inv rate_max st) by (by apply expire_inv). clearbody st. clear st0 Hi0.
  destruct (evict_inv rate_max (Z.to_nat NGX_HTTP_WAF_RATE_EVICT) now charge rate_max st Hi) as [Hi2 Hs].
  set (st2 := evict_loop _ _ _ _ _ st) in *. clearbody st2.
  assert (Hfail : forall st3, rate_inv rate_max st3 -> shrunk st st3 ->
    rate_inv rate_max st3 /\ bucket st3 (rr_sig rule) key = None /\
    (forall sig k, bucket st3 sig k = bucket st sig k \/ bucket st3 sig k = None)).
  { intros st3 H3 H3s. split_and!; [done| |intros; by apply (shrunk_bucket rate_max)].
    destruct (shrunk_bucket rate_max st st3 (rr_sig rule) key Hi H3 H3s); congruence. }
  assert (Hadd : forall st3, rate_inv rate_max st3 -> shrunk st st3 -> rt_bytes st3 + charge <= rate_max ->
    let st' := add_node (mkNode hash (rr_sig rule) key now excess (rr_rate rule)) charge st3 in
    rate_inv rate_max st' /\ bucket st' (rr_sig rule) key = Some (mkNode hash (rr_sig rule) key now excess (rr_rate rule)) /\
    (forall sig k, (sig, k) <> (rr_sig rule, key) -> bucket st' sig k = bucket st sig k \/ bucket st' sig k = None)).
  { intros st3 H3 H3s H3b. destruct (Hfail st3 H3 H3s) as (_ & Hn3 & Ho3).
    destruct (add_inv rate_max (mkNode hash (rr_sig rule) key now excess (rr_rate rule)) st3 H3 Hn3 Hh H3b)
      as (Ha & Hb & Hc). split_and!; [done|done|]. intros sig k Hne. rewrite Hc by done. apply Ho3. }
  assert (Hboth : forall (b : bool) st3, rate_inv rate_max st3 -> shrunk st st3 ->
    (b = true -> rt_bytes st3 + charge <= rate_max) ->
    let st' := (if negb b then (NGX_ERROR, st3)
      else (NGX_OK, add_node (mkNode hash (rr_sig rule) key now excess (rr_rate rule)) charge st3)).2 in
    rate_inv rate_max st' /\
    (bucket st' (rr_sig rule) key = None \/
     bucket st' (rr_sig rule) key = Some (mkNode hash (rr_sig rule) key now excess (rr_rate rule))) /\
    (forall sig k, (sig, k) <> (rr_sig rule, key) -> bucket st' sig k = bucket st sig k \/ bucket st' sig k = None)).
  { intros [] st3 H3 H3s H3b; cbn zeta; cbn [negb snd].
    - destruct (Hadd st3 H3 H3s (H3b eq_refl)) as (? & ? & ?). auto.
    - destruct (Hfail st3 H3 H3s) as (? & ? & ?). auto. }
  destruct (Z.leb_spec (rt_bytes st2 + charge) rate_max) as [Hroom|_]; [|by apply (Hboth false)].
  destruct (slab_inv rate_max st2 Hi2) as [Hi3 Hs3]. destruct (slab_alloc st2) as [ok st3]. cbn [snd] in Hi3, Hs3.
  assert (Hs' : shrunk st st3) by (by trans st2). pose proof (sk_bytes _ _ Hs3).
  destruct ok; [apply (Hboth true); [done|done|lia]|].
  destruct (expire_inv rate_max 2 now true st3 Hi3) as [Hi4 Hs4].
  destruct (slab_inv rate_max _ Hi4) as [Hi5 Hs5].
  change (expire_loop rb_delete 2 now true st3) with (ngx_http_waf_rate_expire rb_delete now true st3) in *.
  pose proof (sk_bytes _ _ Hs4). pose proof (sk_bytes _ _ Hs5).
  destruct (slab_alloc (ngx_http_waf_rate_expire rb_delete now true st3)) as [ok st5]. cbn [snd] in *.
  apply (Hboth ok); [done| |lia]. trans st3; [done|]. by trans (ngx_http_waf_rate_expire rb_delete now true st3).
Qed.

Lemma insert_spec rate_max now rule key hash excess st :
  rate_inv rate_max st -> bucket st rule.(rr_sig) key = None -> hash = Z.lxor (crc32 key) rule.(rr_sig) ->
  let st' := (ngx_http_waf_rate_insert memn2cmp rebalance rb_delete now rate_max rule key hash excess st).2 in
  rate_inv rate_max st' /\
  (bucket st' rule.(rr_sig) key = None \/
   bucket st' rule.(rr_sig) key = Some (mkNode hash rule.(rr_sig) key now excess rule.(rr_rate))) /\
  (forall sig k, (sig, k) <> (rule.(rr_sig), key) ->
     bucket st' sig k = bucket st sig k \/ bucket st' sig k = None).
Proof.
  intros Hi Hnone Hh. destruct (expire_inv rate_max 2 now false st Hi) as [Hi1 Hs1].
  change (expire_loop rb_delete 2 now false st) with (ngx_http_waf_rate_expire rb_delete now false st) in *.
  pose proof (fun sig k => shrunk_bucket rate_max st _ sig k Hi Hi1 Hs1) as Hsh.
  destruct (insert_after_expire rate_max now rule key hash excess st Hi) as (H1 & H2 & H3); [|done|].
  { destruct (Hsh (rr_sig rule) key); congruence. }
  split_and!; [done|done|]. intros sig k Hne. destruct (H3 sig k Hne) as [->|]; [apply Hsh|by right].
Qed.

(** ** Accounting as a leaky bucket *)

(** What a bucket holds at [now], counted in thousandths of a request, with
    [inc] more; without the wrap-around of machine integers. *)
Definition level (rule : rate_rule) (now inc : Z) (n : rate_node) : Z :=
  Z.max 0 (n.(rn_excess) - rule.(rr_rate) * ngx_http_waf_rate_elapsed now n.(rn_last) / 1000 + inc).

Definition filled (now x : Z) (n : rate_node) : rate_node :=
  let n := n <| rn_excess := x |> in
  if ngx_http_waf_rate_elapsed now n.(rn_last) =? 0 then n else n <| rn_last := now |>.

(** The step of the bucket: a look, a request that is let in while the bucket
    has room, or a charge that fills it beyond its brim by up to a second. *)
Definition leak (mode : rate_mode_e) (rule : rate_rule) (now : Z) (n : rate_node) : ngx_rc * rate_node :=
  let v := level rule now (if mode ==? RATE_PEEK then 0 else 1000) n in
  let room := v <=? rule.(rr_burst) in
  (if room then NGX_OK else NGX_DECLINED,
   match mode with
   | RATE_PEEK => n
   | RATE_GATE => if room then filled now v n else n
   | RATE_DEBT => filled now (if room then v else Z.min v (rule.(rr_burst) + rule.(rr_rate))) n
   end).

Definition rule_ok (rule : rate_rule) : Prop := 0 <= rule.(rr_rate) < 2 ^ 31 /\ 0 <= rule.(rr_burst) < 2 ^ 60.
Definition node_ok (now : Z) (n : rate_node) : Prop :=
  0 <= n.(rn_excess) < 2 ^ 61 /\ msec_diff now n.(rn_last) < 2 ^ 32.

Lemma elapsed_range now last : 0 <= ngx_http_waf_rate_elapsed now last /\
  (msec_diff now last < 2 ^ 32 -> ngx_http_waf_rate_elapsed now last < 2 ^ 32).
Proof. unfold ngx_http_waf_rate_elapsed. destruct (_ <? -60000); [lia|]. destruct (Z.ltb_spec (msec_diff now last) 0); lia. Qed.

Lemma drained_small rule now n :
  rule_ok rule -> node_ok now n ->
  let ms := ngx_http_waf_rate_elapsed now n.(rn_last) in
  drained rule.(rr_rate) ms = rule.(rr_rate) * ms / 1000 /\ 0 <= rule.(rr_rate) * ms / 1000 < 2 ^ 62.
Proof.
  intros [Hr _] [_ Hm]. cbn zeta. destruct (elapsed_range now (rn_last n)) as [H0 H1]. specialize (H1 Hm).
  set (ms := ngx_http_waf_rate_elapsed now (rn_last n)) in *.
  assert (0 <= rr_rate rule * ms < 2 ^ 63) by nia.
  assert (0 <= rr_rate rule * ms / 1000 < 2 ^ 62) by (Z.div_mod_to_equations; lia).
  unfold drained. rewrite u64_small by (unfold is_u64; lia). rewrite s64_small by (unfold is_s64; lia). done.
Qed.

(** A node that is used goes to the head of the queue and may be rewritten. *)
Definition used (a : Z) (n : rate_node) (st st' : rate_store) : Prop :=
  st'.(rt_tree) = st.(rt_tree) /\ st'.(rt_lru) = a :: filter (fun b => b <> a) st.(rt_lru) /\
  st'.(rt_bytes) = st.(rt_bytes) /\ st'.(rt_next) = st.(rt_next) /\
  (st'.(rt_nodes) = st.(rt_nodes) /\ n = node_at st a \/ st'.(rt_nodes) = <[a := n]> st.(rt_nodes)).

Lemma used_inv rate_max a n st st' :
  rate_inv rate_max st -> a ∈ st.(rt_lru) -> same_node n (node_at st a) -> used a n st st' ->
  rate_inv rate_max st' /\ bucket st' n.(rn_sig) n.(rn_data) = Some n /\
  (forall sig k, (sig, k) <> (n.(rn_sig), n.(rn_data)) -> bucket st' sig k = bucket st sig k).
Proof.
  intros Hi Ha Hsame (Ht & Hl & Hb & Hn & Hnodes).
  assert (Hp : rt_lru st' ≡ₚ rt_lru st)
    by (rewrite Hl; symmetry; apply perm_filter_out; [by eapply inv_nodup|done]).
  assert (Hat : forall b, node_at st' b = if decide (b = a) then n else node_at st b).
  { intros b. unfold node_at. destruct Hnodes as [[-> ->]| ->].
    - by destruct (decide (b = a)) as [->|].
    - destruct (decide (b = a)) as [->|]; [by rewrite lookup_insert_eq|by rewrite lookup_insert_ne]. }
  assert (Hi' : rate_inv rate_max st').
  { apply (inv_touch _ st); try done.
    - intros b. destruct Hnodes as [[-> _]| ->]; [done|]. destruct (decide (b = a)) as [->|].
      + rewrite lookup_insert_eq. split; [intros _; by apply (ri_dom _ _ Hi)|by eexists].
      + by rewrite lookup_insert_ne.
    - intros b _. rewrite Hat. destruct (decide (b = a)) as [->|]; [done|by split_and!]. }
  assert (Hin : forall b, b ∈ rt_lru st' <-> b ∈ rt_lru st) by (intros b; by rewrite Hp).
  split_and!; [done| |].
  - apply (bucket_Some rate_max); [done|]. exists a. rewrite Hin, Hat, decide_True by done. done.
  - intros sig k Hne. apply option_eq. intros m. rewrite !(bucket_Some rate_max) by done.
    split; intros (b & Hb' & Hm & H1 & H2); exists b; rewrite Hat, Hin in *;
      (destruct (decide (b = a)) as [->|]; [|done]); subst m; [by subst|].
    destruct Hsame as (_ & E1 & E2). destruct Hne. by rewrite E1, E2, <- H1, <- H2.
Qed.

(** The part of accounting that does not depend on the clock. *)
Lemma account_shape now rate_max rule key mode st :
  rate_inv rate_max st ->
  let '(rc, ex, st') := ngx_http_waf_rate_account memn2cmp rebalance rb_delete crc32 now rate_max rule key mode st in
  match bucket st rule.(rr_sig) key with
  | Some n => exists a n', a ∈ st.(rt_lru) /\ node_at st a = n /\ same_node n' n /\ used a n' st st' /\
      n.(rn_sig) = rule.(rr_sig) /\ n.(rn_data) = key /\
      (rule_ok rule -> node_ok now n -> (rc, n') = leak mode rule now n)
  | None => rc = NGX_OK /\
      st' = if mode ==? RATE_PEEK then st
            else snd (ngx_http_waf_rate_insert memn2cmp rebalance rb_delete now rate_max rule key
                        (key_hash crc32 rule key) (if mode ==? RATE_DEBT then 1000 else 0) st)
  end.
Proof.
  intros Hi. unfold ngx_http_waf_rate_account, bucket, ngx_http_waf_rate_lookup, key_hash.
  pose proof (lookup_tree_spec st (rt_tree st) (rr_sig rule) key (Z.lxor (crc32 key) (rr_sig rule)) (ri_sorted _ _ Hi)) as Hl.
  destruct (lookup_tree _ _ _ _ _ _) as [a|]; [|done]. cbn [fmap option_fmap option_map].
  destruct Hl as [Ha (_ & Hs & Hd)]. rewrite (ri_perm _ _ Hi) in Ha.
  set (q := st <| rt_lru ::= _ |>). change (node_at q a) with (node_at st a).
  set (n := node_at st a) in *. set (ms := ngx_http_waf_rate_elapsed now (rn_last n)).
  set (v := s64 _). set (value := if v <? 0 then 0 else v).
  assert (Hv : rule_ok rule -> node_ok now n ->
    value = level rule now (if mode ==? RATE_PEEK then 0 else 1000) n /\
    0 <= value < 2 ^ 62 /\ s64 (rr_burst rule) = rr_burst rule /\
    s64 (rr_burst rule + rr_rate rule) = rr_burst rule + rr_rate rule).
  { intros Hr Hn. destruct (drained_small rule now n Hr Hn) as [Hdr Hdb]. fold ms in Hdr, Hdb.
    destruct Hr as [Hr1 Hr2]. destruct Hn as [Hn _]. unfold value, v, level. fold ms. rewrite Hdr.
    rewrite (s64_small (rn_excess n)) by (unfold is_s64; lia).
    rewrite !s64_small by (unfold is_s64; destruct (mode ==? RATE_PEEK); lia).
    assert (Hinc : 0 <= (if mode ==? RATE_PEEK then 0 else 1000) <= 1000) by (destruct (mode ==? RATE_PEEK); lia).
    revert Hinc. generalize (if mode ==? RATE_PEEK then 0 else 1000). intros inc Hinc.
    destruct (Z.ltb_spec (rn_excess n - rr_rate rule * ms / 1000 + inc) 0); split_and!; try done; lia. }
  assert (Hw : forall x, same_node (filled now x n) n /\
    used a (filled now x n) st (q <| rt_nodes ::= insert a
      (if ms =? 0 then n <| rn_excess := x |> else (n <| rn_excess := x |>) <| rn_last := now |>) |>)).
  { intros x. split; [unfold filled; destruct (_ =? 0); done|].
    split_and!; try done. right. unfold filled. change (rn_last (n <| rn_excess := x |>)) with (rn_last n). fold ms. done. }
  assert (Hkeep : used a n st q) by (split_and!; try done; by left).
  assert (Hself : same_node n n) by (by split_and!).
  destruct mode; cbn zeta iota; change (RATE_PEEK ==? RATE_PEEK) with true in *;
    change (RATE_GATE ==? RATE_PEEK) with false in *; change (RATE_DEBT ==? RATE_PEEK) with false in *; cbn iota in *.
  - exists a, n. split_and!; try done. intros Hr Hn. destruct (Hv Hr Hn) as (Ev & _ & Eb & _). rewrite Eb, Ev.
    unfold leak. done.
  - destruct (value <=? s64 (rr_burst rule)) eqn:Ef.
    + exists a, (filled now value n). destruct (Hw value). split_and!; try done.
      intros Hr Hn. destruct (Hv Hr Hn) as (Ev & _ & Eb & _). rewrite Eb, Ev in Ef. unfold leak.
      change (RATE_GATE ==? RATE_PEEK) with false. cbn iota zeta. by rewrite Ef, Ev.
    + exists a, n. split_and!; try done.
      intros Hr Hn. destruct (Hv Hr Hn) as (Ev & _ & Eb & _). rewrite Eb, Ev in Ef. unfold leak.
      change (RATE_GATE ==? RATE_PEEK) with false. cbn iota zeta. by rewrite Ef.
  - destruct (value <=? s64 (rr_burst rule)) eqn:Ef.
    + exists a, (filled now value n). destruct (Hw value). split_and!; try done.
      intros Hr Hn. destruct (Hv Hr Hn) as (Ev & _ & Eb & _). rewrite Eb, Ev in Ef. unfold leak.
      change (RATE_DEBT ==? RATE_PEEK) with false. cbn iota zeta. by rewrite Ef, Ev.
    + set (x := if s64 (rr_burst rule + rr_rate rule) <? value then _ else value).
      exists a, (filled now x n). destruct (Hw x). split_and!; try done.
      intros Hr Hn. destruct (Hv Hr Hn) as (Ev & _ & Eb & El). rewrite Eb, Ev in Ef. unfold leak.
      change (RATE_DEBT ==? RATE_PEEK) with false. cbn iota zeta. rewrite Ef. do 2 f_equal. unfold x. rewrite El, <- Ev.
      destruct (Z.ltb_spec (rr_burst rule + rr_rate rule) value); lia.
Qed.

#[local] Abbreviation account := (ngx_http_waf_rate_account memn2cmp rebalance rb_delete crc32).

Lemma account_spec now rate_max rule key mode st :
  rate_inv rate_max st ->
  let '(rc, _, st') := account now rate_max rule key mode st in
  rate_inv rate_max st' /\
  match bucket st rule.(rr_sig) key with
  | Some n =>
      (rule_ok rule -> node_ok now n ->
       rc = fst (leak mode rule now n) /\ bucket st' rule.(rr_sig) key = Some (snd (leak mode rule now n))) /\
      (forall sig k, (sig, k) <> (rule.(rr_sig), key) -> bucket st' sig k = bucket st sig k)
  | None => rc = NGX_OK /\
      (bucket st' rule.(rr_sig) key = None \/
       mode <> RATE_PEEK /\
       bucket st' rule.(rr_sig) key =
         Some (mkNode (key_hash crc32 rule key) rule.(rr_sig) key now
                 (if mode ==? RATE_DEBT then 1000 else 0) rule.(rr_rate))) /\
      (forall sig k, (sig, k) <> (rule.(rr_sig), key) ->
         bucket st' sig k = bucket st sig k \/ bucket st' sig k = None)
  end.
Proof.
  intros Hi. pose proof (account_shape now rate_max rule key mode st Hi) as H.
  destruct (account now rate_max rule key mode st) as [[rc ex] st'].
  destruct (bucket st (rr_sig rule) key) as [n|] eqn:Eb.
  - destruct H as (a & n' & Ha & Hn & Hsame & Hused & Hs & Hd & Hleak).
    destruct (used_inv rate_max a n' st st' Hi Ha) as (Hi' & Hb & Ho); [by rewrite Hn|done|].
    destruct Hsame as (_ & S1 & S2). rewrite S1, S2, Hs, Hd in Hb, Ho. split_and!; [done| |done].
    intros Hr Hnode. specialize (Hleak Hr Hnode). rewrite <- Hleak. done.
  - destruct H as [-> ->]. destruct (decide (mode = RATE_PEEK)) as [->|Hne].
    + change (RATE_PEEK ==? RATE_PEEK) with true. split_and!; [done|done|by left|by left].
    + rewrite (bool_decide_eq_false_2 (mode = RATE_PEEK)) by done.
      destruct (insert_spec rate_max now rule key (key_hash crc32 rule key) (if mode ==? RATE_DEBT then 1000 else 0) st Hi Eb eq_refl)
        as (Hi' & Hb & Ho). split_and!; [done|done| |done]. destruct Hb as [Hb|Hb]; [by left|right]. by split.
Qed.

(** Accounting for a rule and a key is the step of a leaky bucket on the
    bucket of that rule and key, which starts empty (with the charge, for a
    debt) when there is none; the buckets of other keys are left alone, or
    freed when room is made for a new one. *)
Theorem rate_account_bucket now rate_max rule key mode st :
  rate_inv rate_max st -> rule_ok rule ->
  (forall n, bucket st rule.(rr_sig) key = Some n -> node_ok now n) ->
  let '(rc, _, st') := ngx_http_waf_rate_account memn2cmp rebalance rb_delete crc32 now rate_max rule key mode st in
  match bucket st rule.(rr_sig) key with
  | Some n => rc = fst (leak mode rule now n) /\ bucket st' rule.(rr_sig) key = Some (snd (leak mode rule now n)) /\
      (forall sig k, (sig, k) <> (rule.(rr_sig), key) -> bucket st' sig k = bucket st sig k)
  | None => rc = NGX_OK /\
      (bucket st' rule.(rr_sig) key = None \/
       mode <> RATE_PEEK /\
       bucket st' rule.(rr_sig) key =
         Some (mkNode (key_hash crc32 rule key) rule.(rr_sig) key now
                 (if mode ==? RATE_DEBT then 1000 else 0) rule.(rr_rate))) /\
      (forall sig k, (sig, k) <> (rule.(rr_sig), key) ->
         bucket st' sig k = bucket st sig k \/ bucket st' sig k = None)
  end.
Proof.
  intros Hi Hr Hn. pose proof (account_spec now rate_max rule key mode st Hi) as H.
  destruct (account now rate_max rule key mode st) as [[rc ex] st']. destruct H as [_ H].
  destruct (bucket st (rr_sig rule) key) as [n|]; [|done]. destruct H as [H1 H2].
  destruct (H1 Hr (Hn n eq_refl)). done.
Qed.

(** ** Sequences of accesses *)

Lemma account_inv now rate_max rule key mode st :
  rate_inv rate_max st -> rate_inv rate_max (account now rate_max rule key mode st).2.
Proof.
  intros Hi. pose proof (account_spec now rate_max rule key mode st Hi) as H.
  destruct (account now rate_max rule key mode st) as [[rc ex] st']. apply H.
Qed.

Section accesses.
Context (md5_hex : bytes -> bytes).

(** An access of a request to the zone: a check of its rules, or the charge of
    a wave; with the outcomes of its operands and conditions. *)
Inductive rate_access :=
  | Check (now : Z) (phase : phase_e) (rules : option (list rate_rule))
          (operand : rate_rule -> option bytes) (cond_test : rate_rule -> bool)
  | Wave (now : Z) (rules : option (list rate_rule))
         (operand : rate_rule -> option bytes) (cond_test : rate_rule -> bool).

Definition rate_perform (rate_max : Z) (zone : option rate_store) (x : rate_access) : option rate_store :=
  match x with
  | Check now phase rules operand cond_test =>
      snd (ngx_http_waf_rate_check memn2cmp rebalance rb_delete crc32 operand cond_test md5_hex
             now rate_max phase rules zone)
  | Wave now rules operand cond_test =>
      ngx_http_waf_rate_charge_wave memn2cmp rebalance rb_delete crc32 operand cond_test md5_hex
        now rate_max rules zone
  end.

Lemma check_loop_inv rate_max operand cond_test now frame rules st :
  rate_inv rate_max st ->
  rate_inv rate_max (rate_check_loop memn2cmp rebalance rb_delete crc32 operand cond_test md5_hex
                       now rate_max frame rules st).2.
Proof.
  revert st. induction rules as [|rule rules IH]; intros st Hi; [done|]. cbn [rate_check_loop].
  destruct (_ || _); [by apply IH|]. destruct (ngx_http_waf_rate_key _ _ _) as [[raw key]|]; [|by apply IH].
  cbn zeta. set (mode := if rr_count rule ==? RATE_WAVES then RATE_PEEK else RATE_GATE).
  pose proof (account_inv now rate_max rule key mode st Hi) as Hi'.
  destruct (account now rate_max rule key mode st) as [[rc ex] st']. cbn [snd] in Hi'.
  destruct (rc_ok rc); [by apply IH|]. destruct (_ ==? POLICY_BLOCK); [done|by apply IH].
Qed.

Lemma charge_wave_inv rate_max operand cond_test now rules st :
  rate_inv rate_max st ->
  rate_inv rate_max (foldl (charge_rule memn2cmp rebalance rb_delete crc32 operand cond_test md5_hex now rate_max) st rules).
Proof.
  revert st. induction rules as [|rule rules IH]; intros st Hi; [done|]. cbn [foldl]. apply IH.
  unfold charge_rule. destruct (_ || _); [done|]. destruct (ngx_http_waf_rate_key _ _ _) as [[raw key]|]; [|done].
  by apply account_inv.
Qed.

Lemma rate_inv0 rate_max mem : 0 <= rate_max -> rate_inv rate_max (rate_store0 mem).
Proof.
  intros Hm. constructor; cbn; try done; try constructor; try (intros a Ha; by apply elem_of_nil in Ha).
  - intros Ha. by apply elem_of_nil in Ha.
  - rewrite lookup_empty. by intros [].
Qed.

(** Whatever checks and charges come, of any worker, with any keys and
    clocks and with allocations failing or not, the tree stays a search tree
    of exactly the nodes of the queue, each bound to its key, and the bytes
    counted are those of the nodes and within the budget. *)
Theorem rate_store_invariant rate_max mem xs :
  0 <= rate_max ->
  exists st, foldl (rate_perform rate_max) (Some (rate_store0 mem)) xs = Some st /\ rate_inv rate_max st.
Proof.
  intros Hm. induction xs as [|x xs IH] using rev_ind; [exists (rate_store0 mem); split; [done|by apply rate_inv0]|].
  destruct IH as (st & E & Hi). rewrite foldl_snoc, E.
  destruct x as [now phase [rules|] operand ct|now [rules|] operand ct]; cbn; [| |by eexists; split; [|apply charge_wave_inv]|]; try by exists st.
  pose proof (check_loop_inv rate_max operand ct now (ngx_http_waf_phase_is_frame phase) rules st Hi) as H.
  destruct (rate_check_loop _ _ _ _ _ _ _ _ _ _ _) as [[rc rf] st']. by exists st'.
Qed.

End accesses.

(** ** The limit *)

(** One call of accounting: the clock, the rule, the key and the mode. *)
Definition call : Type := Z * rate_rule * bytes * rate_mode_e.

(** How many calls for this rule and key were let in. *)
Fixpoint let_in (rate_max : Z) (rule : rate_rule) (key : bytes) (cs : list call) (st : rate_store) : Z :=
  match cs with
  | [] => 0
  | (now, r, k, m) :: cs =>
      let '(rc, _, st') := ngx_http_waf_rate_account memn2cmp rebalance rb_delete crc32 now rate_max r k m st in
      (if bool_decide ((r.(rr_sig), k) = (rule.(rr_sig), key)) && (m ==? RATE_GATE) && rc_ok rc then 1 else 0)
      + let_in rate_max rule key cs st'
  end.

(** The bucket of the rule and the key is in the store after every call. *)
Fixpoint kept (rate_max : Z) (rule : rate_rule) (key : bytes) (cs : list call) (st : rate_store) : Prop :=
  match cs with
  | [] => True
  | (now, r, k, m) :: cs =>
      let st' := snd (ngx_http_waf_rate_account memn2cmp rebalance rb_delete crc32 now rate_max r k m st) in
      is_Some (bucket st' rule.(rr_sig) key) /\ kept rate_max rule key cs st'
  end.

(** The calls come in the order of their clocks, from [t] to [t1], and those
    for the rule and the key are checks, not charges. *)
Fixpoint gated (rule : rate_rule) (key : bytes) (t t1 : Z) (cs : list call) : Prop :=
  match cs with
  | [] => t <= t1
  | (now, r, k, m) :: cs => t <= now /\ gated rule key now t1 cs /\
      ((r.(rr_sig), k) = (rule.(rr_sig), key) -> r = rule /\ m <> RATE_DEBT)
  end.

Lemma gated_le rule key t t1 cs : gated rule key t t1 cs -> t <= t1.
Proof. revert t. induction cs as [|[[[now r] k] m] cs IH]; intros t; cbn; [done|]. intros (H1 & H2 & _). apply IH in H2. lia. Qed.

Lemma elapsed_forward now last :
  0 <= last <= now -> now < 2 ^ 62 -> ngx_http_waf_rate_elapsed now last = now - last /\ msec_diff now last = now - last.
Proof.
  intros H1 H2. assert (msec_diff now last = now - last) as E by (unfold msec_diff; apply s64_small; unfold is_s64; lia).
  unfold ngx_http_waf_rate_elapsed. rewrite E. split; [|done].
  destruct (Z.ltb_spec (now - last) (-60000)); [lia|]. destruct (Z.ltb_spec (now - last) 0); lia.
Qed.

(** A gate or a look on a bucket: what it admits it adds. *)
Lemma leak_gate rule now n mode :
  rule_ok rule -> 0 <= n.(rn_excess) < 2 ^ 61 -> 0 <= n.(rn_last) <= now -> now < n.(rn_last) + 2 ^ 32 -> now < 2 ^ 62 ->
  mode <> RATE_DEBT ->
  let n' := snd (leak mode rule now n) in
  if (mode ==? RATE_GATE) && rc_ok (fst (leak mode rule now n))
  then 0 <= n'.(rn_excess) <= rule.(rr_burst) /\ n'.(rn_last) = now /\
       1000 * n.(rn_excess) + 1000000 <= 1000 * n'.(rn_excess) + rule.(rr_rate) * (now - n.(rn_last))
  else n' = n.
Proof.
  intros [Hr Hb] He Hl Hw Hn Hm. destruct (elapsed_forward now (rn_last n) Hl Hn) as [El _].
  cbn zeta. unfold leak. destruct mode; [done| |done].
  change (RATE_GATE ==? RATE_GATE) with true. change (RATE_GATE ==? RATE_PEEK) with false. cbn iota zeta.
  set (v := level rule now 1000 n). destruct (Z.leb_spec v (rr_burst rule)) as [Hv|Hv]; [|done].
  change (rc_ok NGX_OK) with true. cbn [andb fst snd].
  assert (Hlev : 1000 * n.(rn_excess) + 1000000 <= 1000 * v + rr_rate rule * (now - rn_last n)).
  { unfold v, level. rewrite El. pose proof (Z.mul_div_le (rr_rate rule * (now - rn_last n)) 1000 ltac:(lia)). lia. }
  assert (0 <= v) by (unfold v, level; lia).
  unfold filled. change (rn_last (n <| rn_excess := v |>)) with (rn_last n). rewrite El.
  destruct (Z.eqb_spec (now - rn_last n) 0); cbn; split_and!; lia.
Qed.

Lemma let_in_bound rate_max rule key t1 cs t n st :
  rate_inv rate_max st -> rule_ok rule -> bucket st rule.(rr_sig) key = Some n ->
  0 <= n.(rn_excess) < 2 ^ 61 -> 0 <= n.(rn_last) <= t -> t1 < n.(rn_last) + 2 ^ 32 -> t1 < 2 ^ 62 ->
  gated rule key t t1 cs -> kept rate_max rule key cs st ->
  let m := let_in rate_max rule key cs st in
  m = 0 \/ 0 < m /\ 1000000 * m + 1000 * n.(rn_excess) <= 1000 * rule.(rr_burst) + rule.(rr_rate) * (t1 - n.(rn_last)).
Proof.
  intros Hi Hr. revert t n st Hi. induction cs as [|[[[now r] k] mode] cs IH]; intros t n st Hi Hb He Hl Hw H62 Hg Hk;
    [by left|]. cbn [let_in gated kept] in *. destruct Hg as (Ht & Hg & Hown). destruct Hk as [Hk Hkept].
  pose proof (gated_le _ _ _ _ _ Hg) as Hle. cbn zeta.
  pose proof (account_spec now rate_max r k mode st Hi) as Ha.
  destruct (account now rate_max r k mode st) as [[rc ex] st']. cbn [snd] in Hk, Hkept. destruct Ha as [Hi' Ha].
  destruct (decide ((rr_sig r, k) = (rr_sig rule, key))) as [Hsame|Hne].
  - rewrite (bool_decide_eq_true_2 _ Hsame). destruct (Hown Hsame) as [-> Hmode]. simplify_eq.
    rewrite Hb in Ha. destruct Ha as [Ha _].
    destruct (elapsed_forward now (rn_last n) ltac:(lia) ltac:(lia)) as [_ Em].
    destruct (Ha Hr ltac:(split; [done|lia])) as [-> Hb'].
    pose proof (leak_gate rule now n mode Hr He ltac:(lia) ltac:(lia) ltac:(lia) Hmode) as Hleak. cbn zeta in Hleak.
    rewrite andb_true_l. destruct ((mode ==? RATE_GATE) && _) eqn:Eg.
    + destruct Hleak as (He' & Hl' & Hadd). destruct Hr as [Hr1 Hr2].
      specialize (IH now _ st' Hi' Hb' ltac:(lia) ltac:(lia) ltac:(lia) H62 Hg Hkept). cbn zeta in IH.
      right. rewrite Hl' in IH. split; [destruct IH; lia|]. destruct IH as [->|[_ IH]]; nia.
    + rewrite Hleak in Hb'. rewrite Z.add_0_l. apply (IH now n st'); try done; lia.
  - rewrite bool_decide_eq_false_2 by done. cbn [andb]. rewrite Z.add_0_l.
    assert (Hb' : bucket st' (rr_sig rule) key = Some n).
    { destruct (bucket st (rr_sig r) k) as [n'|].
      - destruct Ha as [_ Ho]. rewrite Ho by congruence. done.
      - destruct Ha as (_ & _ & Ho). destruct (Ho (rr_sig rule) key ltac:(congruence)) as [E|E]; [by rewrite E|].
        rewrite E in Hk. by destruct Hk. }
    apply (IH now n st'); try done; lia.
Qed.

(** C40: while the bucket of a key stays in the store, at most
    burst + rate * time requests of it are let in after the one that made the
    bucket (in thousandths of a request and milliseconds), whatever other keys
    are accounted for in between. *)
Theorem rate_limit_bound rate_max rule key cs t1 n st :
  rate_inv rate_max st -> rule_ok rule -> bucket st rule.(rr_sig) key = Some n ->
  0 <= n.(rn_excess) < 2 ^ 61 -> 0 <= n.(rn_last) -> t1 < n.(rn_last) + 2 ^ 32 -> t1 < 2 ^ 62 ->
  gated rule key n.(rn_last) t1 cs -> kept rate_max rule key cs st ->
  1000000 * let_in rate_max rule key cs st
    <= 1000 * rule.(rr_burst) + rule.(rr_rate) * (t1 - n.(rn_last)).
Proof.
  intros Hi Hr Hb He Hl Hw H62 Hg Hk. pose proof (gated_le _ _ _ _ _ Hg).
  destruct (let_in_bound rate_max rule key t1 cs (rn_last n) n st Hi Hr Hb He ltac:(lia) Hw H62 Hg Hk) as [->|[_ H2]];
    [|lia]. destruct Hr. nia.
Qed.

(** Making room for a new key frees the least recently used bucket as
    soon as it has drained, however recently it was used: so the bucket that a
    first request makes, which is empty, is gone at the next new key. *)
Theorem rate_forgets_drained now rate_max rule key st a n :
  rate_inv rate_max st -> last st.(rt_lru) = Some a -> node_at st a = n ->
  n.(rn_excess) = 0 -> 0 <= n.(rn_rate) < 2 ^ 31 -> msec_diff now n.(rn_last) < 2 ^ 32 ->
  bucket st rule.(rr_sig) key = None -> (rule.(rr_sig), key) <> (n.(rn_sig), n.(rn_data)) ->
  let '(rc, _, st') := ngx_http_waf_rate_account memn2cmp rebalance rb_delete crc32 now rate_max rule key RATE_GATE st in
  bucket st n.(rn_sig) n.(rn_data) = Some n /\ bucket st' n.(rn_sig) n.(rn_data) = None.
Proof.
  intros Hi Hlast Hn He Hr Hms Hnew Hne.
  assert (Ha : a ∈ rt_lru st) by (by apply last_Some_elem_of).
  pose proof (account_shape now rate_max rule key RATE_GATE st Hi) as H.
  destruct (account now rate_max rule key RATE_GATE st) as [[rc ex] st']. rewrite Hnew in H. destruct H as [_ ->].
  split; [apply (bucket_Some rate_max); [done|]; by exists a|].
  change (RATE_GATE ==? RATE_PEEK) with false. change (RATE_GATE ==? RATE_DEBT) with false. cbn iota.
  (* the first expiry takes it away *)
  set (st1 := ngx_http_waf_rate_expire rb_delete now false st).
  destruct (free_inv rate_max st a Hi Ha) as (Hif & _ & Hlf & Hnf).
  assert (E1 : st1 = expire_loop rb_delete 1 now false (ngx_http_waf_rate_free rb_delete a st)).
  { unfold st1, ngx_http_waf_rate_expire. cbn [expire_loop]. rewrite Hlast, Hn. cbn zeta.
    destruct (elapsed_range now (rn_last n)) as [H0 H1]. specialize (H1 Hms).
    set (ms := ngx_http_waf_rate_elapsed now (rn_last n)) in *.
    assert (0 <= rn_rate n * ms < 2 ^ 63) by nia.
    assert (0 <= rn_rate n * ms / 1000 < 2 ^ 62) by (Z.div_mod_to_equations; lia).
    unfold drained. rewrite He, u64_small by (unfold is_u64; lia).
    rewrite (s64_small 0), (s64_small (_ / 1000)), s64_small by (unfold is_s64; lia).
    by replace (0 <? 0 - rn_rate n * ms / 1000) with false by lia. }
  destruct (expire_inv rate_max 1 now false _ Hif) as [Hi1 Hs1]. rewrite <- E1 in Hi1, Hs1.
  assert (Hgone : bucket st1 (rn_sig n) (rn_data n) = None).
  { destruct (bucket st1 (rn_sig n) (rn_data n)) as [m|] eqn:Em; [|done].
    apply (bucket_Some _ _ _ _ _ Hi1) in Em as (b & Hb & <- & Hbs & Hbd).
    rewrite (sk_node _ _ Hs1 b Hb) in Hbs, Hbd. apply (sk_lru _ _ Hs1) in Hb. rewrite Hlf in Hb.
    apply list_elem_of_filter in Hb as [Hba Hb]. rewrite Hnf in Hbs, Hbd by done. destruct Hba.
    apply (sorted_unique st (inorder (rt_tree st))); [apply Hi|by rewrite (ri_perm _ _ Hi)..|].
    split_and!; [|congruence|congruence]. rewrite !(ri_hash _ _ Hi) by done. congruence. }
  (* and the insertion starts from there *)
  assert (Hkey : bucket st1 (rr_sig rule) key = None).
  { destruct (expire_inv rate_max 2 now false st Hi) as [_ Hs].
    destruct (shrunk_bucket rate_max st st1 (rr_sig rule) key Hi Hi1 Hs); congruence. }
  destruct (insert_after_expire rate_max now rule key (key_hash crc32 rule key) 0 st Hi Hkey eq_refl) as (_ & _ & Ho).
  destruct (Ho (rn_sig n) (rn_data n)) as [E|E]; [congruence| |done]. by rewrite E.
Qed.

End facts.

(** ** A concrete tree *)

Fixpoint lex (x y : bytes) : Z :=
  match x, y with
  | [], [] => 0
  | [], _ => -1
  | _, [] => 1
  | a :: x, b :: y => if a <? b then -1 else if b <? a then 1 else lex x y
  end.
Definition of_list (l : list Z) : tree := foldr (fun a t => Bin Leaf a t) Leaf l.
Definition plain_delete (t : tree) (a : Z) : tree := of_list (filter (fun b => b <> a) (inorder t)).

#[export] Instance plain_tree : RbTree lex id plain_delete.
Proof.
  constructor.
  - induction x as [|a x IH]; intros [|b y]; cbn; try done.
    destruct (Z.ltb_spec a b), (Z.ltb_spec b a); [lia|split; [done|intros [=]; lia]..|].
    rewrite IH. split; [intros ->; f_equal; lia|by intros [=]].
  - induction x as [|a x IH]; intros [|b y]; cbn; try done.
    destruct (Z.ltb_spec a b), (Z.ltb_spec b a); [lia|lia|lia|]. apply IH.
  - induction x as [|a x IH]; intros [|b y] [|c z]; cbn; try done.
    destruct (Z.ltb_spec a b), (Z.ltb_spec b a), (Z.ltb_spec b c), (Z.ltb_spec c b), (Z.ltb_spec a c), (Z.ltb_spec c a);
      try lia; try done. apply IH.
  - done.
  - intros t a. unfold plain_delete. induction (filter _ _) as [|b l IH]; [done|]. cbn. f_equal. apply IH.
Qed.

(** One request a second, no burst; keys "a" and "b". *)
Definition demo_rule : rate_rule := mkRule 1000 0 RATE_REQUESTS POLICY_BLOCK [] None 0 false 5.
Definition demo_account (now : Z) (key : bytes) (st : rate_store) : ngx_rc * Z * rate_store :=
  ngx_http_waf_rate_account lex id plain_delete zlen now 4096 demo_rule key RATE_GATE st.
Definition demo_a : rate_store := snd (demo_account 100 (lit "a") (rate_store0 [])).

(** Two clients that take turns are never limited: each request of the one
    frees the bucket of the other. *)
Fixpoint turns (n : nat) (now : Z) (x y : bytes) (st : rate_store) : list ngx_rc :=
  match n with
  | O => []
  | S n => let '(rc, _, st) := demo_account now x st in rc :: turns n (now + 1) y x st
  end.
Lemma turns_escape_the_limit : turns 40 100 (lit "a") (lit "b") (rate_store0 []) = replicate 40 NGX_OK.
Proof. vm_compute. reflexivity. Qed.
(** One client alone is limited. *)
Lemma alone_is_limited :
  turns 3 100 (lit "a") (lit "a") (rate_store0 []) = [NGX_OK; NGX_DECLINED; NGX_DECLINED].
Proof. vm_compute. reflexivity. Qed.

Lemma demo_inv : rate_inv (memn2cmp := lex) zlen 4096 demo_a.
Proof. apply account_inv, rate_inv0. lia. Qed.

Lemma rate_store_invariant_witness :
  exists st, rate_perform (memn2cmp := lex) (rebalance := id) (rb_delete := plain_delete) zlen id 4096 (Some (rate_store0 []))
    (Check 100 PHASE_REQUEST (Some [demo_rule]) (fun _ => Some (lit "a")) (fun _ => true)) = Some st /\
    st.(rt_lru) = [0] /\ st.(rt_bytes) = 128 /\ rate_inv (memn2cmp := lex) zlen 4096 st.
Proof.
  destruct (rate_store_invariant (memn2cmp := lex) (rebalance := id) (rb_delete := plain_delete) zlen id 4096 []
    [Check 100 PHASE_REQUEST (Some [demo_rule]) (fun _ => Some (lit "a")) (fun _ => true)]) as (st & E & Hi); [lia|].
  exists st. cbn [foldl] in E. split; [exact E|]. vm_compute in E. injection E as <-. split; [reflexivity|].
  split; [reflexivity|exact Hi].
Defined.

Lemma demo_bucket : bucket (memn2cmp := lex) zlen demo_a 5 (lit "a") = Some (mkNode 4 5 (lit "a") 100 0 1000).
Proof. vm_compute. reflexivity. Qed.

Lemma rate_account_bucket_witness :
  fst (fst (demo_account 2100 (lit "a") demo_a)) = NGX_OK /\ fst (fst (demo_account 600 (lit "a") demo_a)) = NGX_DECLINED.
Proof.
  assert (H : forall now, 100 <= now < 10000 ->
    fst (fst (demo_account now (lit "a") demo_a)) = fst (leak RATE_GATE demo_rule now (mkNode 4 5 (lit "a") 100 0 1000))).
  { intros now Hnow.
    assert (Hb : forall n, bucket (memn2cmp := lex) zlen demo_a (rr_sig demo_rule) (lit "a") = Some n -> node_ok now n).
    { intros n. change (rr_sig demo_rule) with 5. rewrite demo_bucket. intros [= <-]. split; [cbn; lia|].
      cbn [rn_last]. rewrite (proj2 (elapsed_forward now 100 ltac:(lia) ltac:(lia))). lia. }
    pose proof (rate_account_bucket (rebalance := id) (rb_delete := plain_delete) zlen now 4096 demo_rule (lit "a") RATE_GATE
      demo_a demo_inv ltac:(split; cbn; lia) Hb) as H.
    change (rr_sig demo_rule) with 5 in H. rewrite demo_bucket in H. unfold demo_account.
    destruct (ngx_http_waf_rate_account _ _ _ _ _ _ _ _ _ _) as [[rc ex] st']. exact (proj1 H). }
  rewrite !H by lia. split; vm_compute; reflexivity.
Defined.

Lemma rate_limit_bound_witness :
  let cs := [(600, demo_rule, lit "a", RATE_GATE); (1100, demo_rule, lit "a", RATE_GATE);
             (1200, demo_rule, lit "a", RATE_GATE); (2500, demo_rule, lit "a", RATE_GATE)] in
  let n := let_in (memn2cmp := lex) (rebalance := id) (rb_delete := plain_delete) zlen 4096 demo_rule (lit "a") cs demo_a in
  n = 2 /\ 1000000 * n <= 1000 * 0 + 1000 * (2500 - 100).
Proof.
  split; [vm_compute; reflexivity|].
  apply (rate_limit_bound (memn2cmp := lex) (rebalance := id) (rb_delete := plain_delete) zlen 4096 demo_rule (lit "a") _ 2500
           (mkNode 4 5 (lit "a") 100 0 1000) demo_a demo_inv).
  - split; cbn; lia.
  - exact demo_bucket.
  - cbn. lia.
  - cbn. lia.
  - cbn. lia.
  - lia.
  - cbn. repeat split; try lia; discriminate.
  - vm_compute. repeat split; by eexists.
Defined.

Lemma rate_forgets_drained_witness :
  bucket (memn2cmp := lex) zlen (snd (demo_account 101 (lit "b") demo_a)) 5 (lit "a") = None.
Proof.
  pose proof (rate_forgets_drained (rebalance := id) (rb_delete := plain_delete) zlen 101 4096 demo_rule (lit "b") demo_a 0
    (mkNode 4 5 (lit "a") 100 0 1000) demo_inv) as H.
  unfold demo_account. destruct (ngx_http_waf_rate_account _ _ _ _ _ _ _ _ _ _) as [[rc ex] st'].
  refine (proj2 (H _ _ _ _ _ _ _)); try (vm_compute; reflexivity).
  - cbn. lia.
  - discriminate.
Defined.

End RateFacts.
