(* ===== verification/Handler.v ===== *)
(** The life of a request in a worker: waves, replies, deadlines and the way
    back into the phases of nginx (runtime/ngx_http_waf_handler.c), and the
    part of the bus that asks inspectors and hands over what they answer
    (bus/ngx_http_waf_bus.c).

    A [world] is one worker: its slot table, the breakers it shares with the
    other workers, and the requests it serves, by the address of their
    context.  Every C function is a function on worlds.  Calls that leave the
    modelled code (the phase engine, the publication of a message, the audit)
    are appended to the [q_calls] of the request; their outcomes, which the C
    code reads, come in the record [ext]. *)
From stdpp Require Import gmap.
From S2P Require Import Prelude Types Masks Slots Graph Verdict Breaker.
#[local] Open Scope Z_scope.

Module Handler.
Import Masks Rid Table Graph Names Verdict Breaker.

Inductive how_e := FINISH_APPLY | FINISH_OVERRIDES | FINISH_FAIL.

(** Calls into code outside the model. *)
Inductive call_e :=
  | CALL_RUN_PHASES | CALL_RESPONSE_RESUME | CALL_FRAME_RESUME
  | CALL_CHARGE_WAVE | CALL_PUBLISH (index : Z) (personal : bool) | CALL_READ_BODY
  | CALL_DISCARD_BODY | CALL_LOG_VERDICT | CALL_DEBUG.

(** A result of a handler: a code of nginx or an HTTP status. *)
Inductive hrc := RC (rc : ngx_rc) | HTTP (status : Z).

#[export] Instance how_e_eq_dec : EqDecision how_e.
Proof. solve_decision. Defined.
#[export] Instance call_e_eq_dec : EqDecision call_e.
Proof. solve_decision. Defined.
#[export] Instance hrc_eq_dec : EqDecision hrc.
Proof. solve_decision. Defined.

(** One request: its context and the fields of [ngx_http_waf_ctx_t] that only
    the handler uses; [q_timer] is the delay of the armed deadline. *)
Record req := mkReq {
  q_ctx : ctx_t;
  q_waiting : bool;
  q_how : how_e;
  q_by_local : bool;
  q_local_rule : bytes;
  q_local_response : bytes;
  q_exception_response : bytes;
  q_timer : Z;
  q_calls : list call_e
}.
#[export] Instance eta_req : Eta req := fun r =>
  mkReq r.(q_ctx) r.(q_waiting) r.(q_how) r.(q_by_local) r.(q_local_rule) r.(q_local_response)
    r.(q_exception_response) r.(q_timer) r.(q_calls).

Definition ovr_part0 : ovr_part := mkOvr SET_NONE None None 0 0 0 [0; 0; 0] [0; 0; 0].
Definition ctx0 (p : phase_e) : ctx_t :=
  mkCtx ST_INIT p (fun _ => phase_ctx0) None None None (fun _ => mkControl 0 0 0 0) None
    (mkAuditOvr ovr_part0 ovr_part0) (mkAuditOvr ovr_part0 ovr_part0) [].
(** A context right after [ngx_pcalloc] and [ngx_http_waf_phase_enter]. *)
Definition req0 : req := mkReq (ctx0 PHASE_REQUEST) false FINISH_APPLY false [] [] [] 0 [].

Record world := mkWorld { wd_tab : worker; wd_zone : zone; wd_reqs : gmap Z req }.
#[export] Instance eta_world : Eta world := fun r => mkWorld r.(wd_tab) r.(wd_zone) r.(wd_reqs).

Definition rq (w : world) (c : Z) : req := default req0 (w.(wd_reqs) !! c).
Definition cx (w : world) (c : Z) : ctx_t := (rq w c).(q_ctx).
Definition on_rq (c : Z) (f : req -> req) (w : world) : world :=
  w <| wd_reqs ::= insert c (f (rq w c)) |>.
Definition on_ctx (c : Z) (f : ctx_t -> ctx_t) (w : world) : world :=
  on_rq c (fun q => q <| q_ctx ::= f |>) w.
Definition call (c : Z) (k : call_e) (w : world) : world :=
  on_rq c (fun q => q <| q_calls ::= fun l => l ++ [k] |>) w.
Definition on_tab (f : worker -> worker) (w : world) : world := w <| wd_tab ::= f |>.
Definition sl (w : world) (si : Z) : slot := the_slot w.(wd_tab) si.
Definition on_slot (si : Z) (f : slot -> slot) (w : world) : world := on_tab (set_slot si f) w.

Definition set_state (s : state_e) (x : ctx_t) : ctx_t := x <| c_state := s |>.
Definition set_fail (k : code_e) (x : ctx_t) : ctx_t := on_ph (fun p => p <| ph_fail := k |>) x.

(** What the code outside the model answers during one entry into the
    handler: the clock, the outcome of [ngx_pool_cleanup_add], of the two
    placements in the store, of reading the client body (an HTTP status, or
    [None]), whether the bus is configured, which inspectors are asked on a
    personal subject and for which the request message was built and
    published, the outcome of the body
    phases of responses and frames, of the agent's wish for the body, of the
    two fetches before an answer and of applying it; at the entry of a new
    request also whether its context could be made, the outcomes of its pool
    allocations, its [Upgrade] header and the outcome and the rule of the
    dataset and rate checks. *)
Record ext := mkExt {
  e_now : Z;
  e_cleanup : bool;
  e_meta_place : ngx_rc;
  e_body_place : ngx_rc;
  e_read_body : option Z;
  e_bus : bool;
  e_personal : Z -> bool;
  e_resume_ask : Z -> bool;
  e_message : Z -> bool;
  e_publish : Z -> bool;
  e_response_body : hrc;
  e_frame_body : hrc;
  e_agent_needs_body : bool;
  e_form_again : bool;
  e_send_again : bool;
  e_apply : hrc;
  e_overrides : hrc;
  e_fail_status : Z;
  e_frame_finish : hrc;
  e_ctx_alloc : bool;
  e_ctx_set : bool;
  e_upgrade : option bytes;
  e_shm : bool;
  e_dataset : ngx_rc;
  e_dataset_rule : bytes * bytes;
  e_rate : ngx_rc;
  e_rate_rule : bytes * bytes;
  e_mem : alloc_stream
}.

Section handler.
Context {cond : Type}.
(** The location of each request, [wmcf->inspectors] and [ngx_crc32_short]. *)
Context (conf : Z -> loc_conf cond) (inspectors : list inspector_t) (crc32 : bytes -> Z).
(** [wlcf->require_upgrade == 1] and [wlcf->require_upgrade_response]. *)
Context (require_upgrade : Z -> bool) (require_upgrade_response : Z -> bytes).

(** [ngx_http_waf_cond_test] on the conditions of a binding of the request. *)
Context (cond_test : Z -> list cond -> bool).

Definition ninsp : Z := zlen inspectors.

(** *** Waves *)

Definition ngx_http_waf_wave_count (c : Z) (x : ctx_t) : Z :=
  match (conf c).(lc_waves) x.(c_phase) with None => 0 | Some l => zlen l end.

Definition ngx_http_waf_current_wave (c : Z) (x : ctx_t) : option wave_t :=
  match (conf c).(lc_waves) x.(c_phase) with
  | None => None
  | Some l => if zlen l <=? (ph x).(ph_wave) then None else l !! Z.to_nat (ph x).(ph_wave)
  end.

Definition ngx_http_waf_body_wave_need (c : Z) (x : ctx_t) (wave : Z) : body_need_e :=
  match (conf c).(lc_waves) x.(c_phase) with
  | None => BODY_NONE
  | Some l => if zlen l <=? wave then BODY_NONE
              else default BODY_NONE (w_body_need <$> l !! Z.to_nat wave)
  end.

Definition ngx_http_waf_meta_wave_need (c : Z) (x : ctx_t) (wave : Z) : Z :=
  let meta := Z.lor (NGX_HTTP_WAF_OBJ_BIT NGX_HTTP_WAF_OBJ_HEADERS)
                    (NGX_HTTP_WAF_OBJ_BIT NGX_HTTP_WAF_OBJ_ARGS) in
  match (conf c).(lc_waves) x.(c_phase) with
  | None => 0
  | Some l => if wave <? zlen l
              then Z.land (default 0 (w_obj_need <$> l !! Z.to_nat wave)) meta else 0
  end.

Definition ngx_http_waf_wave_needs_body (c : Z) (x : ctx_t) (wave : Z) : bool :=
  negb (ngx_http_waf_body_wave_need c x wave ==? BODY_NONE).

(** *** Bindings switched off by their conditions *)

Definition ngx_http_waf_cond_off (c : Z) (x : ctx_t) : Z * ctx_t :=
  if (ph x).(ph_cond_settled) then ((ph x).(ph_cond_off), x)
  else
    let off := match (conf c).(lc_inspects) x.(c_phase) with
               | None => 0
               | Some l => foldl (fun off b =>
                   match b.(b_conds) with
                   | None => off
                   | Some conds => if cond_test c conds then off else Z.lor off (bit b.(b_index))
                   end) 0 l
               end in
    (off, on_ph (fun p => p <| ph_cond_settled := true |> <| ph_cond_off := off |>) x).

Definition ngx_http_waf_waves_pending (c : Z) (x : ctx_t) : bool * ctx_t :=
  match (conf c).(lc_waves) x.(c_phase) with
  | None | Some [] => (false, x)
  | Some l =>
      let '(off, x) := ngx_http_waf_cond_off c x in
      (if off =? 0 then true else existsb (fun wv => negb (Z.land wv.(w_all) (bnot64 off) =? 0)) l, x)
  end.

Definition ngx_http_waf_wave_closed (s : slot) : bool :=
  Z.land s.(got) s.(awaited) =? s.(awaited).

Definition ngx_http_waf_wave_advances (c : Z) (x : ctx_t) (s : slot) : bool :=
  if ngx_http_waf_wave_count c x <=? (ph x).(ph_wave) + 1 then false
  else if negb ((ph x).(ph_fail) ==? CODE_NONE) then false
  else
    let threshold := ngx_http_waf_score_deny_at (conf c) x in
    if (0 <? threshold) && (threshold <=? (ph x).(ph_score)) then false
    else match ngx_http_waf_current_wave c x with
         | Some wave => Z.land s.(denied) (ngx_http_waf_wave_gating x wave) =? 0
         | None => true
         end.

(** *** Breakers of the inspectors in a mask *)

Definition ngx_http_waf_breaker_account (e : ext) (mask : Z) (timed_out : bool) (w : world) : world :=
  while_mask (fun index w =>
    if ninsp <=? index then w
    else match inspectors !! Z.to_nat index with
         | Some insp => w <| wd_zone ::= ngx_http_waf_breaker_result crc32 e.(e_now) index insp timed_out |>
         | None => w
         end) mask w.

(** *** Failure policy *)

Definition ngx_http_waf_exception_policy (c : Z) (x : ctx_t) : exc_e * policy_e :=
  let exc := ngx_http_waf_exc_of (ph x).(ph_fail) in
  let policy := (conf c).(lc_exception) x.(c_phase) exc in
  (exc, if exc ==? EXC_BODY then default policy (ph x).(ph_body_policy) else policy).

Definition ngx_http_waf_fail_pass (c : Z) (x : ctx_t) : ctx_t :=
  if negb (x.(c_state) ==? ST_FAILED)
     || negb ((ngx_http_waf_exception_policy c x).2 ==? POLICY_PASS) then x
  else set_state ST_ALLOW x.

(** *** Body versions *)

(** The conditions of the scan for a rewritten body. *)
Definition rewrites (mask : Z) (x : ctx_t) (i : Z) : bool :=
  let r := get_reply x i in
  has_bit mask i && r.(r_received) && negb r.(r_passive) && negb r.(r_vote)
  && r.(r_rewrite_has) && r.(r_rewrite_body) && negb (r.(r_verdict) ==? V_DENY).

(** [None] once a second rewriter was met, else the rewriter so far. *)
Definition rewrite_scan (mask : Z) (x : ctx_t) : option (option Z) :=
  for_range ninsp (fun i acc =>
    match acc with
    | None => None
    | Some found => if rewrites mask x i
                    then match found with Some _ => None | None => Some (Some i) end
                    else acc
    end) (Some None).

Definition fail_body (x : ctx_t) : ctx_t := set_fail CODE_FAIL_BODY x.

(** The superseded version goes to the list of stale keys, which is created
    on first use; [None] when an allocation failed. *)
Definition push_stale (x : ctx_t) : option ctx_t * ctx_t :=
  match (ph x).(ph_live) with
  | None => (Some x, x)
  | Some live =>
      let '(ok, x) := match (ph x).(ph_stale) with
                      | Some _ => (true, x)
                      | None => let '(ok, x) := pool_alloc x in
                                (ok, if ok then on_ph (fun p => p <| ph_stale := Some [] |>) x else x)
                      end in
      if negb ok then (None, x)
      else
        let '(ok, x) := pool_alloc x in
        if negb ok then (None, x)
        else let x := on_ph (fun p => p <| ph_stale ::= fmap (fun l => l ++ [live.(l_key)]) |>) x in
             (Some x, x)
  end.

Definition ngx_http_waf_store_locator_live (x : ctx_t) : option locator_t :=
  match (ph x).(ph_live) with Some l => Some l | None => (ph x).(ph_locator) end.

Definition ngx_http_waf_rewrite_settle (mask : Z) (x : ctx_t) : ctx_t :=
  match (ph x).(ph_replies) with
  | None => x
  | Some _ =>
      match rewrite_scan mask x with
      | None => fail_body x
      | Some None => x
      | Some (Some found) =>
          if NGX_HTTP_WAF_REWRITE_MAX_DEPTH <=? (ph x).(ph_rewrite_depth) then fail_body x
          else
            let reply := get_reply x found in
            match ngx_http_waf_store_locator_live x with
            | None => x
            | Some from =>
                let '(ok, x) := pool_alloc x in
                if negb ok then fail_body x
                else
                  let live := from <| l_key := reply.(r_rewrite_key) |> <| l_size := reply.(r_rewrite_size) |>
                                   <| l_truncated := false |> <| l_inline := [] |>
                                   <| l_sha256 := default (replicate 32 0) reply.(r_rewrite_sha256) |> in
                  match push_stale x with
                  | (None, x) => fail_body x
                  | (Some x, _) =>
                      on_ph (fun p => p <| ph_live := Some live |> <| ph_rewrite_last := found |>
                        <| ph_rewrite_depth ::= fun n => n + 1 |>
                        <| ph_rewrite_applied ::= fun m => Z.lor m (bit found) |>) x
                  end
            end
      end
  end.

(** *** Deadlines *)

(** The earliest of the phase's deadline and the timeouts of the inspectors
    that are still awaited. *)
Definition deadline_at (c : Z) (x : ctx_t) (s : slot) : Z :=
  while_mask (fun index at_ =>
    match ngx_http_waf_binding_find (conf c) index x.(c_phase) with
    | None => at_
    | Some b => if b.(b_timeout) =? 0 then at_
                else let until := u64 (s.(published) + b.(b_timeout)) in
                     if msec_diff until at_ <? 0 then until else at_
    end) (Z.land s.(awaited) (bnot64 s.(got))) (ph x).(ph_due).

Definition ngx_http_waf_deadline_arm (e : ext) (c si : Z) (w : world) : world :=
  let left := msec_diff (deadline_at c (cx w c) (sl w si)) e.(e_now) in
  let w := on_tab (set_link c (fun l => l <| c_timer_set := true |>)) w in
  on_rq c (fun q => q <| q_timer := if 0 <? left then left else 0 |>) w.

Definition ngx_http_waf_deadline_stop (c : Z) (w : world) : world :=
  if (the_link w.(wd_tab) c).(c_timer_set)
  then on_tab (set_link c (fun l => l <| c_timer_set := false |>)) w else w.

(** *** Closing a wave *)

Definition ngx_http_waf_return_to_phases (c : Z) (w : world) : world :=
  match (cx w c).(c_phase) with
  | PHASE_RESPONSE => call c CALL_RESPONSE_RESUME w
  | PHASE_FRAME_C2S | PHASE_FRAME_S2C => call c CALL_FRAME_RESUME w
  | PHASE_REQUEST => call c CALL_RUN_PHASES (on_rq c (fun q => q <| q_waiting := false |>) w)
  end.

(** Releasing the slot, resolving and applying [policy pass]; the caller
    decides how the request goes on. *)
Definition conclude_ctx (c si : Z) (w : world) : world :=
  let w := ngx_http_waf_deadline_stop c w in
  let w := on_tab (ngx_http_waf_slot_release si) w in
  let w := on_ctx c (ngx_http_waf_resolve_verdict (conf c) ninsp) w in
  on_ctx c (ngx_http_waf_fail_pass c) w.

Definition ngx_http_waf_conclude (c si : Z) (w : world) : world :=
  ngx_http_waf_return_to_phases c (conclude_ctx c si w).

Definition ngx_http_waf_settle (c si : Z) (w : world) : world :=
  if negb (rq w c).(q_waiting) then w
  else if negb (ngx_http_waf_wave_closed (sl w si)) then w
  else
    let w := on_ctx c (ngx_http_waf_rewrite_settle (sl w si).(got)) w in
    if ngx_http_waf_wave_advances c (cx w c) (sl w si) then
      let w := on_tab (ngx_http_waf_slot_release si) w in
      let w := on_ctx c (fun x => set_state ST_NEXT_WAVE (on_ph (fun p => p <| ph_wave ::= fun n => n + 1 |>) x)) w in
      ngx_http_waf_return_to_phases c w
    else ngx_http_waf_conclude c si w.

Definition ngx_http_waf_resume (c si : Z) (w : world) : world :=
  match (sl w si).(sctx) with
  | None => w
  | Some _ =>
      let w := on_ctx c (ngx_http_waf_rewrite_settle (sl w si).(got)) w in
      ngx_http_waf_conclude c si w
  end.

(** *** A reply *)

Definition store_reply (e : ext) (c si index : Z) (wave : wave_t) (reply : reply_t) (s : slot) (x : ctx_t) : ctx_t :=
  match (ph x).(ph_replies) with
  | None => x
  | Some _ =>
      let x := set_reply index (fun _ =>
        reply <| r_received := true |> <| r_state := ENTRY_ANSWERED |>
              <| r_passive := has_bit (ngx_http_waf_wave_passive x wave) index |>
              <| r_vote := has_bit (ngx_http_waf_wave_vote x wave) index |>
              <| r_latency := u64 (e.(e_now) - s.(published)) |> <| r_wave := s.(swave) |>) x in
      let x := ngx_http_waf_account index x in
      let x := ngx_http_waf_actions_merge (conf c) ninsp index s.(swave) x in
      ngx_http_waf_sessions_merge index x
  end.

Definition ngx_http_waf_on_reply (e : ext) (c si index : Z) (reply : reply_t) (w : world) : world :=
  match ngx_http_waf_current_wave c (cx w c) with
  | None => w
  | Some wave =>
      if negb (has_bit wave.(w_all) index) then w
      else if has_bit (sl w si).(got) index then w
      else
        let w := on_slot si (fun s => s <| got ::= fun m => Z.lor m (bit index) |>) w in
        let w := on_ctx c (on_ph (fun p => p <| ph_got ::= fun m => Z.lor m (bit index) |>)) w in
        let w := ngx_http_waf_breaker_account e (bit index) (reply.(r_verdict) ==? V_ERROR) w in
        let w := on_ctx c (store_reply e c si index wave reply (sl w si)) w in
        match reply.(r_verdict) with
        | V_ERROR =>
            if has_bit (ngx_http_waf_wave_gating (cx w c) wave) index then
              let w := on_ctx c (set_fail (if reply.(r_overload) then CODE_FAIL_OVERLOAD
                                           else CODE_FAIL_INSPECTOR)) w in
              ngx_http_waf_resume c si w
            else ngx_http_waf_settle c si w
        | V_DENY | V_REDIRECT =>
            let w := on_slot si (fun s => s <| denied ::= fun m => Z.lor m (bit index) |>) w in
            if ((conf c).(lc_deny_mode) (cx w c).(c_phase) ==? DENY_FAST)
               && has_bit (ngx_http_waf_wave_gating (cx w c) wave) index
            then ngx_http_waf_resume c si w
            else ngx_http_waf_settle c si w
        | _ => ngx_http_waf_settle c si w
        end
  end.

(** *** Inspectors that give no verdict *)

Definition entry_state (index : Z) (st : entry_state_e) (x : ctx_t) : ctx_t :=
  set_reply index (fun r => r <| r_state := st |>) x.

Definition ngx_http_waf_omit (c si mask : Z) (st : entry_state_e) (w : world) : world :=
  let w := on_ctx c (on_ph (fun p => if st ==? ENTRY_SKIPPED
                                     then p <| ph_skipped ::= fun m => Z.lor m mask |>
                                     else p <| ph_controlled ::= fun m => Z.lor m mask |>)) w in
  let w := on_slot si (fun s => s <| got ::= fun m => Z.lor m mask |>) w in
  while_mask (fun index w => on_ctx c (entry_state index st) w) mask w.

Definition ngx_http_waf_skip (c si index : Z) (code : code_e) (w : world) : world :=
  match ngx_http_waf_current_wave c (cx w c) with
  | None => w
  | Some wave =>
      if negb (has_bit wave.(w_all) index) || has_bit (sl w si).(got) index then w
      else
        let w := on_slot si (fun s => s <| got ::= fun m => Z.lor m (bit index) |>) w in
        let w := on_ctx c (on_ph (fun p => p <| ph_skipped ::= fun m => Z.lor m (bit index) |>)) w in
        let w := on_ctx c (entry_state index (if code ==? CODE_FAIL_ABSENT then ENTRY_ABSENT
                                              else ENTRY_SKIPPED)) w in
        let w := if has_bit (ngx_http_waf_wave_mandatory (cx w c) wave) index
                 then on_ctx c (set_fail code) w else w in
        ngx_http_waf_settle c si w
  end.

(** *** Deadlines that pass *)

Definition ngx_http_waf_fail (e : ext) (c si : Z) (w : world) : world :=
  let s := sl w si in
  let w := ngx_http_waf_breaker_account e (Z.land s.(awaited) (bnot64 s.(got))) true w in
  let all_in := match ngx_http_waf_current_wave c (cx w c) with
                | Some wave => Z.land (sl w si).(got) (ngx_http_waf_wave_mandatory (cx w c) wave)
                               =? ngx_http_waf_wave_mandatory (cx w c) wave
                | None => false
                end in
  let w := if all_in then w else on_ctx c (set_fail CODE_FAIL_TIMEOUT) w in
  ngx_http_waf_resume c si w.

(** One turn of the loop of [ngx_http_waf_expire]. *)
Definition expire_one (e : ext) (c : Z) (s : slot) (index : Z) (st : Z * ctx_t) : Z * ctx_t :=
  let '(expired, x) := st in
  match ngx_http_waf_binding_find (conf c) index x.(c_phase) with
  | None => st
  | Some b =>
      if (b.(b_timeout) =? 0) || (0 <? msec_diff (u64 (s.(published) + b.(b_timeout))) e.(e_now)) then st
      else (Z.lor expired (bit index), entry_state index ENTRY_TIMEOUT x)
  end.

Definition ngx_http_waf_expire (e : ext) (c si : Z) (w : world) : world :=
  match ngx_http_waf_current_wave c (cx w c) with
  | None => ngx_http_waf_fail e c si w
  | Some wave =>
      let s := sl w si in
      let '(expired, x) := while_mask (expire_one e c s) (Z.land s.(awaited) (bnot64 s.(got))) (0, cx w c) in
      let w := on_ctx c (fun _ => x) w in
      if expired =? 0 then ngx_http_waf_deadline_arm e c si w
      else
        let w := ngx_http_waf_breaker_account e expired true w in
        let w := on_slot si (fun s => s <| got ::= fun m => Z.lor m expired |>) w in
        let w := if negb (Z.land expired (ngx_http_waf_wave_mandatory (cx w c) wave) =? 0)
                 then on_ctx c (set_fail CODE_FAIL_TIMEOUT) w else w in
        if ngx_http_waf_wave_closed (sl w si) then ngx_http_waf_settle c si w
        else ngx_http_waf_deadline_arm e c si w
  end.

(** The timer was removed from the tree when it fired. *)
Definition ngx_http_waf_on_deadline (e : ext) (c : Z) (w : world) : world :=
  let w := on_tab (set_link c (fun l => l <| c_timer_set := false |>)) w in
  if negb (rq w c).(q_waiting) then w
  else match ngx_http_waf_slot_lookup (the_link w.(wd_tab) c).(c_rid) w.(wd_tab) with
       | None => w
       | Some si =>
           if 0 <? msec_diff (ph (cx w c)).(ph_due) e.(e_now) then ngx_http_waf_expire e c si w
           else ngx_http_waf_fail e c si w
       end.

(** *** The slot of a request *)

Definition ngx_http_waf_ensure_slot (e : ext) (c : Z) (w : world) : option Z * world :=
  if negb ((the_link w.(wd_tab) c).(c_slot) =? NGX_HTTP_WAF_SLOT_NIL)
  then (ngx_http_waf_slot_lookup (the_link w.(wd_tab) c).(c_rid) w.(wd_tab), w)
  else
    let '(r, t) := ngx_http_waf_slot_acquire c (ph (cx w c)).(ph_wave) e.(e_now) e.(e_cleanup) w.(wd_tab) in
    (r, w <| wd_tab := t |>).

Definition ngx_http_waf_slot_drop (c : Z) (w : world) : world :=
  if (the_link w.(wd_tab) c).(c_slot) =? NGX_HTTP_WAF_SLOT_NIL then w
  else
    let w := match ngx_http_waf_slot_lookup (the_link w.(wd_tab) c).(c_rid) w.(wd_tab) with
             | Some si => on_tab (ngx_http_waf_slot_release si) w
             | None => w
             end in
    on_tab (set_link c (fun l => l <| c_slot := NGX_HTTP_WAF_SLOT_NIL |>)) w.

(** *** Finishing *)

Definition ngx_http_waf_discard_body (c : Z) (w : world) : world :=
  if (ph (cx w c)).(ph_body_ready) || (ph (cx w c)).(ph_body_discarded) then w
  else call c CALL_DISCARD_BODY (on_ctx c (on_ph (fun p => p <| ph_body_discarded := true |>)) w).

Definition ngx_http_waf_finish_done (e : ext) (c : Z) (w : world) : hrc * world :=
  let w := on_ctx c (set_state ST_DONE) w in
  if ngx_http_waf_phase_is_frame (cx w c).(c_phase) then (e.(e_frame_finish), w)
  else match (rq w c).(q_how) with
  | FINISH_APPLY =>
      let w := on_ctx c (set_state ST_FETCHING_FORM) w in
      if e.(e_form_again) || e.(e_send_again) then (RC NGX_DONE, w)
      else
        let w := on_ctx c (set_state ST_DONE) w in
        let rc := e.(e_apply) in
        (rc, if negb (rc ==? RC NGX_DECLINED) && negb (rc ==? RC NGX_DONE)
             then ngx_http_waf_discard_body c w else w)
  | FINISH_OVERRIDES => (e.(e_overrides), call c CALL_LOG_VERDICT w)
  | FINISH_FAIL =>
      let w := call c CALL_LOG_VERDICT w in
      let w := ngx_http_waf_discard_body c w in
      (HTTP e.(e_fail_status), call c CALL_DEBUG w)
  end.

(** The branch [NGX_HTTP_WAF_ST_NEED_BODY] of [ngx_http_waf_access]; the body
    handler runs as an event of its own, [ngx_http_waf_body_ready]. *)
Definition access_need_body (e : ext) (c : Z) (w : world) : hrc * world :=
  let w := on_ctx c (set_state ST_READING_BODY) w in
  let w := call c CALL_READ_BODY w in
  match e.(e_read_body) with Some status => (HTTP status, w) | None => (RC NGX_DONE, w) end.

Definition ngx_http_waf_finish (e : ext) (c : Z) (how : how_e) (w : world) : hrc * world :=
  let w := ngx_http_waf_deadline_stop c w in
  let w := ngx_http_waf_slot_drop c w in
  let w := on_rq c (fun q => q <| q_how := how |>) w in
  if negb (ph (cx w c)).(ph_agent_settled) then
    if e.(e_agent_needs_body) then
      let w := on_ctx c (fun x => set_state ST_NEED_BODY (on_ph (fun p => p <| ph_agent_after_body := true |>) x)) w in
      access_need_body e c w
    else
      let w := on_ctx c (on_ph (fun p => p <| ph_agent_settled := true |>)) w in
      ngx_http_waf_finish_done e c w
  else ngx_http_waf_finish_done e c w.

Definition ngx_http_waf_fail_policy (e : ext) (c : Z) (w : world) : hrc * world :=
  let w := on_ctx c (set_state ST_DONE) w in
  let '(exc, policy) := ngx_http_waf_exception_policy c (cx w c) in
  if policy ==? POLICY_PASS then ngx_http_waf_finish e c FINISH_APPLY w
  else
    let w := on_ctx c (on_ph (fun p => p <| ph_code := p.(ph_fail) |> <| ph_fail_blocked := true |>)) w in
    let w := on_rq c (fun q => q <| q_exception_response :=
               (conf c).(lc_exception_response) (cx w c).(c_phase) exc |>) w in
    ngx_http_waf_finish e c FINISH_FAIL w.

Definition ngx_http_waf_phase_apply (e : ext) (c : Z) (w : world) : hrc * world :=
  match (cx w c).(c_state) with
  | ST_ALLOW | ST_DENY | ST_REDIRECT =>
      ngx_http_waf_finish e c FINISH_APPLY (on_ctx c (set_state ST_DONE) w)
  | _ => ngx_http_waf_fail_policy e c w
  end.

Definition ngx_http_waf_local_deny (e : ext) (c : Z) (rule response : bytes) (code : code_e) (w : world)
    : hrc * world :=
  let w := on_rq c (fun q => q <| q_by_local := true |> <| q_local_rule := rule |>
                               <| q_local_response := response |>) w in
  let w := on_ctx c (fun x => set_state ST_DONE
             (on_ph (fun p => p <| ph_code := code |> <| ph_verdict := V_DENY |>) x)) w in
  ngx_http_waf_finish e c FINISH_APPLY w.

(** *** Publishing a wave *)

(** One turn of the loop; [None] is the early [return NGX_ERROR]. *)
Definition publish_one (e : ext) (c si : Z) (index : Z) (st : option Z * world) : option Z * world :=
  let '(n, w) := st in
  match n with
  | None => st
  | Some published =>
      match inspectors !! Z.to_nat index with
      | None => st
      | Some insp =>
          let w := on_ctx c (on_ph (fun p => p <| ph_published ::= fun m => Z.lor m (bit index) |>)) w in
          let '(rc, z) := ngx_http_waf_breaker_allow crc32 e.(e_now) index insp w.(wd_zone) in
          let w := w <| wd_zone := z |> in
          if negb (rc_ok rc) then (Some published, ngx_http_waf_skip c si index CODE_FAIL_TIMEOUT w)
          else if ((cx w c).(c_phase) ==? PHASE_REQUEST)
                  && ngx_http_waf_resume_wanted (conf c) index (cx w c).(c_phase)
                  && negb (e.(e_resume_ask) index) then (None, w)
          else if negb (e.(e_message) index) then (None, w)
          else
            let w := call c (CALL_PUBLISH index (e.(e_personal) index)) w in
            if negb (e.(e_publish) index) then (None, w)
            else
              let w := if e.(e_personal) index
                       then on_ctx c (on_ph (fun p => p <| ph_personal ::= fun m => Z.lor m (bit index) |>)) w
                       else w in
              (Some (published + 1), w)
      end
  end.

Definition omit_nonzero (c si mask : Z) (st : entry_state_e) (w : world) : world :=
  if negb (mask =? 0) then ngx_http_waf_omit c si mask st w else w.

Definition ngx_http_waf_bus_publish_wave (e : ext) (c si : Z) (w : world) : ngx_rc * world :=
  if negb e.(e_bus) then (NGX_ERROR, w)
  else match ngx_http_waf_current_wave c (cx w c) with
  | None => (NGX_ERROR, w)
  | Some wave =>
      let '(cond_off, x) := ngx_http_waf_cond_off c (cx w c) in
      let w := on_ctx c (fun _ => x) w in
      let off := Z.land (Z.land cond_off wave.(w_all)) (bnot64 (sl w si).(got)) in
      let w := omit_nonzero c si off ENTRY_SKIPPED w in
      let off := Z.land (ngx_http_waf_wave_off (cx w c) wave) (bnot64 (sl w si).(got)) in
      let w := omit_nonzero c si off ENTRY_OFF w in
      let x := cx w c in
      let pending := Z.land wave.(w_all) (bnot64 (sl w si).(got)) in
      let w := on_slot si (fun s => s <| awaited :=
                 Z.land (Z.lor (ngx_http_waf_wave_mandatory x wave) (ngx_http_waf_wave_passive x wave))
                        (bnot64 s.(got)) |>) w in
      let w := on_ctx c (on_ph (fun p => p <| ph_wave_published := (sl w si).(published) |>)) w in
      match while_mask (publish_one e c si) pending (Some 0, w) with
      | (None, w) => (NGX_ERROR, w)
      | (Some published, w) =>
          if (published =? 0)
             && negb (Z.land (ngx_http_waf_wave_mandatory (cx w c) wave) (bnot64 (sl w si).(got)) =? 0)
          then (NGX_ERROR, w) else (NGX_OK, w)
      end
  end.

(** *** Starting a wave *)

(** [ctx->ph->fail = code; ctx->state = ST_FAILED; return fail_policy(ctx)] *)
Definition fail_with (e : ext) (c : Z) (code : code_e) (w : world) : hrc * world :=
  ngx_http_waf_fail_policy e c (on_ctx c (fun x => set_state ST_FAILED (set_fail code x)) w).

Definition release_and_fail (e : ext) (c si : Z) (code : code_e) (w : world) : hrc * world :=
  fail_with e c code (on_tab (ngx_http_waf_slot_release si) w).

(** The two placements in the store before a wave; [inl] is an early return. *)
Definition place_meta (e : ext) (c si wave : Z) (w : world) : (hrc * world) + world :=
  if negb (ph (cx w c)).(ph_meta_settled) && negb (ngx_http_waf_meta_wave_need c (cx w c) wave =? 0) then
    let w := on_ctx c (on_ph (fun p => p <| ph_meta_settled := true |>)) w in
    match e.(e_meta_place) with
    | NGX_AGAIN => inl (RC NGX_DONE, on_ctx c (set_state ST_PLACING_META) w)
    | NGX_OK => inr w
    | _ => inl (release_and_fail e c si CODE_FAIL_BODY w)
    end
  else inr w.

Definition place_body (e : ext) (c si wave : Z) (w : world) : (hrc * world) + world :=
  if ngx_http_waf_wave_needs_body c (cx w c) wave then
    if negb (ph (cx w c)).(ph_body_ready) then
      let w := on_ctx c (set_state ST_NEED_BODY) w in
      inl (if (cx w c).(c_phase) ==? PHASE_RESPONSE then e.(e_response_body) else e.(e_frame_body), w)
    else if (cx w c).(c_phase) ==? PHASE_REQUEST then
      match e.(e_body_place) with
      | NGX_AGAIN => inl (RC NGX_DONE, on_ctx c (set_state ST_PLACING_META) w)
      | NGX_OK => inr w
      | _ => inl (release_and_fail e c si CODE_FAIL_BODY w)
      end
    else inr w
  else inr w.

(** [ngx_pcalloc] of the replies, the deadline of the phase and the time of
    publication. *)
Definition prepare_wave (e : ext) (c si : Z) (w : world) : (hrc * world) + world :=
  let '(ok, x) :=
    match (ph (cx w c)).(ph_replies) with
    | Some _ => (true, cx w c)
    | None => if ninsp =? 0 then (true, cx w c)
              else let '(ok, x) := pool_alloc (cx w c) in
                   (ok, if ok then on_ph (fun p => p <| ph_replies := Some (replicate (length inspectors) reply0) |>) x else x)
    end in
  let w := on_ctx c (fun _ => x) w in
  if negb ok then inl (HTTP 500, on_tab (ngx_http_waf_slot_release si) w)
  else
    let w := on_ctx c (fun x => if (ph x).(ph_due) =? 0
               then on_ph (fun p => p <| ph_due := u64 (e.(e_now) + (conf c).(lc_deadline) x.(c_phase)) |>) x
               else x) w in
    inr (on_slot si (fun s => s <| published := e.(e_now) |>) w).

(** The function calls itself for the next wave while waves close at once;
    [fuel] bounds the number of waves and [None] marks a run that used it up
    ([wave_start_total]). *)
Fixpoint wave_start (fuel : nat) (e : ext) (c wave : Z) (w : world) : option (hrc * world) :=
  match fuel with
  | O => None
  | S fuel =>
      let w := on_ctx c (on_ph (fun p => p <| ph_wave := wave |>)) w in
      if ((cx w c).(c_phase) ==? PHASE_REQUEST) && negb (ph (cx w c)).(ph_body_ready)
         && ngx_http_waf_wave_needs_body c (cx w c) wave
      then Some (access_need_body e c (on_ctx c (set_state ST_NEED_BODY) w))
      else
        let '(slot, w) := ngx_http_waf_ensure_slot e c w in
        match slot with
        | None => Some (fail_with e c CODE_FAIL_BUS w)
        | Some si =>
            match place_meta e c si wave w with
            | inl r => Some r
            | inr w =>
            match place_body e c si wave w with
            | inl r => Some r
            | inr w =>
            match prepare_wave e c si w with
            | inl r => Some r
            | inr w =>
                let '(rc, w) := ngx_http_waf_bus_publish_wave e c si w in
                if negb (rc_ok rc) then Some (release_and_fail e c si CODE_FAIL_BUS w)
                else
                  let w := if negb (ngx_http_waf_phase_is_frame (cx w c).(c_phase))
                           then call c CALL_CHARGE_WAVE w else w in
                  if ngx_http_waf_wave_closed (sl w si) then
                    let w := on_ctx c (ngx_http_waf_rewrite_settle (sl w si).(got)) w in
                    if ngx_http_waf_wave_advances c (cx w c) (sl w si)
                    then wave_start fuel e c (wave + 1) (on_tab (ngx_http_waf_slot_release si) w)
                    else Some (ngx_http_waf_phase_apply e c (conclude_ctx c si w))
                  else
                    let w := ngx_http_waf_deadline_arm e c si w in
                    let w := on_ctx c (set_state ST_WAITING) w in
                    Some (RC NGX_DONE, on_rq c (fun q => q <| q_waiting := true |>) w)
            end end end
        end
  end.

(** Enough turns for every wave of the phase. *)
Definition wave_fuel (c wave : Z) (w : world) : nat :=
  S (Z.to_nat (ngx_http_waf_wave_count c (cx w c) - wave)).

Definition ngx_http_waf_wave_start (e : ext) (c wave : Z) (w : world) : hrc * world :=
  default (RC NGX_ERROR, w) (wave_start (wave_fuel c wave w) e c wave w).

(** *** Entering the access phase *)

Definition ngx_http_waf_local_checks (e : ext) (c : Z) (w : world) : hrc * world :=
  if negb e.(e_shm) then (RC NGX_DECLINED, w)
  else match e.(e_dataset) with
  | NGX_ERROR => ngx_http_waf_local_deny e c e.(e_dataset_rule).1 e.(e_dataset_rule).2 CODE_LOCAL_LIST w
  | NGX_DONE => (RC NGX_DECLINED, w)
  | NGX_OK =>
      let w := on_ctx c (fun x => set_state ST_DONE (on_ph (fun p => p <| ph_verdict := V_ALLOW |>) x)) w in
      ngx_http_waf_finish e c FINISH_OVERRIDES w
  | _ => if bool_decide (e.(e_rate) = NGX_DECLINED)
         then ngx_http_waf_local_deny e c e.(e_rate_rule).1 e.(e_rate_rule).2 CODE_LOCAL_RATE w
         else (RC NGX_DECLINED, w)
  end.

(** [ngx_strncasecmp] folds ASCII letters. *)
Definition lower (ch : Z) : Z := if (65 <=? ch) && (ch <=? 90) then Z.lor ch 32 else ch.

(** Without the stripping of the extensions a handshake offers. *)
Definition ngx_http_waf_handshake_guard (e : ext) (c : Z) (w : world) : hrc * world :=
  if negb (require_upgrade c) then (RC NGX_DECLINED, w)
  else if match e.(e_upgrade) with
          | Some v => (zlen v =? 9) && bytes_eqb (map lower v) (lit "websocket")
          | None => false
          end
  then (RC NGX_DECLINED, w)
  else ngx_http_waf_local_deny e c (lit "require_upgrade") (require_upgrade_response c) CODE_LOCAL_UPGRADE w.

(** The first entry of a request, once its context was made. *)
Definition access_made (e : ext) (c : Z) (w : world) : hrc * world :=
  if negb e.(e_ctx_set) then (HTTP 500, w)
  else
    let '(rc, w) := ngx_http_waf_handshake_guard e c w in
    if negb (rc ==? RC NGX_DECLINED) then (rc, w)
    else
      let '(rc, w) := ngx_http_waf_local_checks e c w in
      if negb (rc ==? RC NGX_DECLINED) then (rc, w)
      else
        let '(pending, w) :=
          if ngx_http_waf_wave_count c (cx w c) =? 0 then (false, w)
          else let '(p, x) := ngx_http_waf_waves_pending c (cx w c) in (p, on_ctx c (fun _ => x) w) in
        if negb pending
        then ngx_http_waf_finish e c FINISH_OVERRIDES (on_ctx c (set_state ST_DONE) w)
        else ngx_http_waf_wave_start e c 0 w.

(** The context is zeroed, entered in the request phase and given a slot
    index of none and a request id of dashes. *)
Definition make_ctx (e : ext) (c : Z) (w : world) : world :=
  on_tab (set_link c (fun _ => link0))
    (on_rq c (fun _ => req0 <| q_ctx ::= fun x => x <| c_mem := e.(e_mem) |> |>) w).

Definition access_new (e : ext) (c : Z) (w : world) : hrc * world :=
  if negb e.(e_ctx_alloc) then (HTTP 500, w) else access_made e c (make_ctx e c w).

(** [main]: the request is not a subrequest. *)
Definition ngx_http_waf_access (e : ext) (main : bool) (c : Z) (w : world) : hrc * world :=
  if negb main then (RC NGX_DECLINED, w)
  else if negb (conf c).(lc_enable) then (RC NGX_DECLINED, w)
  else match w.(wd_reqs) !! c with
  | None => access_new e c w
  | Some q =>
      match q.(q_ctx).(c_state) with
      | ST_WAITING => (RC NGX_DONE, w)
      | ST_NEED_BODY => access_need_body e c w
      | ST_READING_BODY => (RC NGX_DECLINED, on_ctx c (set_state ST_DONE) w)
      | ST_PLACING_META | ST_FETCHING_FORM => (RC NGX_DONE, w)
      | ST_FINISH => ngx_http_waf_finish_done e c w
      | ST_NEXT_WAVE => ngx_http_waf_wave_start e c (ph (cx w c)).(ph_wave) w
      | ST_DONE => (RC NGX_DECLINED, w)
      | _ => ngx_http_waf_phase_apply e c w
      end
  end.

(** The result of the handler of the phase: an error or a status is final. *)
Definition ngx_http_waf_access_handler (e : ext) (main : bool) (c : Z) (w : world) : hrc * world :=
  let '(rc, w) := ngx_http_waf_access e main c w in
  match rc with
  | RC NGX_ERROR => (RC NGX_DONE, w)
  | HTTP s => if 300 <=? s then (RC NGX_DONE, w) else (rc, w)
  | _ => (rc, w)
  end.

Definition ngx_http_waf_phase_resume (e : ext) (c : Z) (w : world) : hrc * world :=
  match (cx w c).(c_state) with
  | ST_NEXT_WAVE => ngx_http_waf_wave_start e c (ph (cx w c)).(ph_wave) w
  | ST_FINISH => ngx_http_waf_finish_done e c w
  | _ => ngx_http_waf_phase_apply e c w
  end.

(** *** Coming back from the body and the form *)

Definition ngx_http_waf_body_resumed (c : Z) (rc : ngx_rc) (w : world) : world :=
  match (cx w c).(c_state) with
  | ST_NEED_BODY | ST_READING_BODY | ST_PLACING_META =>
      if (ph (cx w c)).(ph_agent_after_body) then
        let w := on_ctx c (fun x => set_state ST_FINISH (on_ph (fun p =>
                   p <| ph_agent_after_body := false |> <| ph_agent_settled := true |>) x)) w in
        ngx_http_waf_return_to_phases c w
      else
        let w := if negb (rc_ok rc) then
                   let w := ngx_http_waf_slot_drop c w in
                   on_ctx c (fun x => set_state ST_FAILED (set_fail CODE_FAIL_BODY x)) w
                 else on_ctx c (set_state ST_NEXT_WAVE) w in
        ngx_http_waf_return_to_phases c w
  | _ => w
  end.

Definition ngx_http_waf_body_ready (c : Z) (w : world) : world :=
  match w.(wd_reqs) !! c with
  | None => w
  | Some _ =>
      let w := on_ctx c (on_ph (fun p => p <| ph_body_ready := true |>)) w in
      ngx_http_waf_body_resumed c NGX_OK w
  end.

Definition ngx_http_waf_form_resumed (c : Z) (w : world) : world :=
  if negb ((cx w c).(c_state) ==? ST_FETCHING_FORM) then w
  else ngx_http_waf_return_to_phases c (on_ctx c (set_state ST_FINISH) w).

(** *** What the bus delivers *)

(** [reply] is the parsed payload, [None] when [ngx_http_waf_msg_reply]
    refuses it. *)
Definition ngx_http_waf_bus_dispatch (e : ext) (rid inspector : Z) (reply : option reply_t) (w : world) : world :=
  match ngx_http_waf_slot_lookup rid w.(wd_tab) with
  | None => w
  | Some si =>
      match (sl w si).(sctx) with
      | None => w
      | Some c =>
          if ninsp <=? inspector then w
          else match reply with
               | None => w
               | Some r => ngx_http_waf_on_reply e c si inspector r w
               end
      end
  end.

Definition ngx_http_waf_bus_absent (e : ext) (rid inspector : Z) (w : world) : world :=
  match ngx_http_waf_slot_lookup rid w.(wd_tab) with
  | None => w
  | Some si =>
      match (sl w si).(sctx) with
      | None => w
      | Some c =>
          if ninsp <=? inspector then w
          else if negb (has_bit (ph (cx w c)).(ph_personal) inspector)
                  || has_bit (ph (cx w c)).(ph_got) inspector
          then ngx_http_waf_skip c si inspector CODE_FAIL_ABSENT w
          else
            let w := on_ctx c (on_ph (fun p =>
                       p <| ph_personal ::= fun m => Z.land m (bnot64 (bit inspector)) |>)) w in
            match ngx_http_waf_binding_find (conf c) inspector (cx w c).(c_phase) with
            | Some b =>
                if negb (b.(b_resume) ==? RESUME_PREFER)
                then ngx_http_waf_skip c si inspector CODE_FAIL_ABSENT w
                else if negb (e.(e_message) inspector)
                then ngx_http_waf_skip c si inspector CODE_FAIL_BUS w
                else
                  let w := call c (CALL_PUBLISH inspector false) w in
                  if negb (e.(e_publish) inspector)
                  then ngx_http_waf_skip c si inspector CODE_FAIL_BUS w else w
            | None => ngx_http_waf_skip c si inspector CODE_FAIL_ABSENT w
            end
      end
  end.

End handler.
End Handler.
