(* ===== verification/HandlerFacts.v ===== *)
(** Invariants of the request handler: what a request's own events may change,
    that requests do not disturb each other, that slots are never leaked, that
    a recorded failure is not forgotten and that every wave ends. *)
From stdpp Require Import gmap relations.
From S2P Require Import Prelude Types Masks Slots Graph Verdict Breaker Handler.
#[local] Open Scope Z_scope.

Module HandlerFacts.
Import Masks Rid Table Graph Names Verdict Breaker Handler.

Section facts.
Context {cond : Type}.
Context (conf : Z -> loc_conf cond) (inspectors : list inspector_t) (crc32 : bytes -> Z).
Context (require_upgrade : Z -> bool) (require_upgrade_response : Z -> bytes).
Context (cond_test : Z -> list cond -> bool).
Abbreviation ninsp := (Handler.ninsp inspectors).

(** ** How a context evolves *)

(** The chain of body versions: at most eight, the live one present exactly
    when there is one, and every superseded one listed for removal. *)
Definition versions_wf (p : phase_ctx) : Prop :=
  0 <= p.(ph_rewrite_depth) <= NGX_HTTP_WAF_REWRITE_MAX_DEPTH /\
  (p.(ph_live) = None <-> p.(ph_rewrite_depth) = 0) /\
  zlen (default [] p.(ph_stale)) = Z.max 0 (p.(ph_rewrite_depth) - 1).

Record evolves (wlcf : loc_conf cond) (x x' : ctx_t) : Prop := {
  ev_phase : x'.(c_phase) = x.(c_phase);
  ev_other : forall p, p <> x.(c_phase) -> x'.(c_phases) p = x.(c_phases) p;
  ev_fail : (ph x).(ph_fail) <> CODE_NONE -> (ph x').(ph_fail) <> CODE_NONE;
  ev_bags : bag_wf wlcf x -> bag_wf wlcf x';
  ev_versions : versions_wf (ph x) -> versions_wf (ph x')
}.

#[export] Instance evolves_preorder wlcf : PreOrder (evolves wlcf).
Proof.
  split; [by intros x; constructor|]. intros x y z [] []. constructor; auto; [congruence|].
  intros p Hp. rewrite ev_other1 by congruence. auto.
Qed.

(** The fields of a phase context that the invariants read. *)
Record ph_keeps (p p' : phase_ctx) : Prop := {
  pk_fail : p.(ph_fail) <> CODE_NONE -> p'.(ph_fail) <> CODE_NONE;
  pk_score : p'.(ph_score) = p.(ph_score);
  pk_replies : p'.(ph_replies) = p.(ph_replies);
  pk_live : p'.(ph_live) = p.(ph_live);
  pk_stale : p'.(ph_stale) = p.(ph_stale);
  pk_depth : p'.(ph_rewrite_depth) = p.(ph_rewrite_depth)
}.

Lemma ph_keeps_refl p : ph_keeps p p.
Proof. by constructor. Qed.

(** The fields of a context outside the phase that the invariants read. *)
Definition same_rest (x x' : ctx_t) : Prop :=
  x'.(c_actions) = x.(c_actions) /\ x'.(c_sessions) = x.(c_sessions) /\ x'.(c_markers) = x.(c_markers).

Lemma evolves_keeps wlcf x x' :
  x'.(c_phase) = x.(c_phase) -> (forall p, p <> x.(c_phase) -> x'.(c_phases) p = x.(c_phases) p) ->
  ph_keeps (ph x) (ph x') -> same_rest x x' -> evolves wlcf x x'.
Proof.
  intros Hp Ho [Hf Hs Hr Hl Hst Hd] (Ha & Hse & Hm). constructor; auto.
  - intros []. constructor; rewrite ?Ha, ?Hse, ?Hm, ?Hs; auto.
    intros i. unfold get_reply. rewrite Hr. apply bag_range0.
  - unfold versions_wf. by rewrite Hl, Hst, Hd.
Qed.

Lemma on_ph_other f x p : p <> x.(c_phase) -> (on_ph f x).(c_phases) p = x.(c_phases) p.
Proof. intros Hp. unfold on_ph. cbn. by rewrite pset_ne. Qed.

Lemma evolves_on_ph wlcf f x : ph_keeps (ph x) (f (ph x)) -> evolves wlcf x (on_ph f x).
Proof.
  intros Hf. apply evolves_keeps; [done| |by rewrite ph_on_ph|done]. intros p. apply on_ph_other.
Qed.
Lemma evolves_state wlcf s x : evolves wlcf x (set_state s x).
Proof. by apply evolves_keeps. Qed.
Lemma evolves_fail wlcf k x : k <> CODE_NONE -> evolves wlcf x (set_fail k x).
Proof. intros Hk. by apply evolves_on_ph. Qed.
Lemma evolves_entry wlcf i st x : evolves wlcf x (entry_state i st x).
Proof.
  constructor; try done.
  - intros p. apply on_ph_other.
  - unfold entry_state, set_reply. by rewrite ph_on_ph.
  - apply bag_wf_same. by apply set_reply_same.
  - unfold entry_state, set_reply. by rewrite ph_on_ph.
Qed.
Lemma evolves_alloc wlcf x b x' : pool_alloc x = (b, x') -> evolves wlcf x x'.
Proof. unfold pool_alloc. destruct (alloc _). intros; simplify_eq. by apply evolves_keeps. Qed.

(** Operations of the verdict that leave the phase alone but for replies and
    score. *)
Record ph_quiet (x x' : ctx_t) : Prop := {
  pq_phase : x'.(c_phase) = x.(c_phase);
  pq_state : x'.(c_state) = x.(c_state);
  pq_other : forall p, p <> x.(c_phase) -> x'.(c_phases) p = x.(c_phases) p;
  pq_fail : (ph x').(ph_fail) = (ph x).(ph_fail);
  pq_live : (ph x').(ph_live) = (ph x).(ph_live);
  pq_stale : (ph x').(ph_stale) = (ph x).(ph_stale);
  pq_depth : (ph x').(ph_rewrite_depth) = (ph x).(ph_rewrite_depth);
  pq_wave : (ph x').(ph_wave) = (ph x).(ph_wave)
}.

#[export] Instance ph_quiet_preorder : PreOrder ph_quiet.
Proof.
  split; [by intros x; constructor|]. intros x y z [] []. constructor; try congruence.
  intros p Hp. rewrite pq_other1 by congruence. auto.
Qed.

Lemma evolves_quiet wlcf x x' : ph_quiet x x' -> (bag_wf wlcf x -> bag_wf wlcf x') -> evolves wlcf x x'.
Proof. intros [] Hb. constructor; auto; [congruence|]. unfold versions_wf. congruence. Qed.

Lemma quiet_on_ph f x :
  (f (ph x)).(ph_fail) = (ph x).(ph_fail) -> (f (ph x)).(ph_live) = (ph x).(ph_live) ->
  (f (ph x)).(ph_stale) = (ph x).(ph_stale) ->
  (f (ph x)).(ph_rewrite_depth) = (ph x).(ph_rewrite_depth) ->
  (f (ph x)).(ph_wave) = (ph x).(ph_wave) -> ph_quiet x (on_ph f x).
Proof. intros. constructor; rewrite ?ph_on_ph; try done. intros p. apply on_ph_other. Qed.
Lemma quiet_set_reply i f x : ph_quiet x (set_reply i f x).
Proof. by apply quiet_on_ph. Qed.
Lemma quiet_fields x x' :
  x'.(c_phase) = x.(c_phase) -> x'.(c_state) = x.(c_state) -> x'.(c_phases) = x.(c_phases) -> ph_quiet x x'.
Proof. intros Hp Hst Hs. constructor; unfold ph; rewrite ?Hs, ?Hp; done. Qed.
Lemma quiet_alloc x b x' : pool_alloc x = (b, x') -> ph_quiet x x'.
Proof. unfold pool_alloc. destruct (alloc _). intros; simplify_eq. by apply quiet_fields. Qed.

Lemma quiet_account i x : ph_quiet x (ngx_http_waf_account i x).
Proof.
  unfold ngx_http_waf_account. cbn zeta. set (x1 := on_ph _ x). set (x2 := set_reply i _ x1).
  assert (H2 : ph_quiet x x2) by (trans x1; [by apply quiet_on_ph|apply quiet_set_reply]). clearbody x2.
  case_match; [trans x2; [done|apply quiet_set_reply]|]. set (vd := _ && (_ ==? V_DENY)).
  set (x3 := if vd then set_reply i _ x2 else x2).
  assert (H3 : ph_quiet x x3) by (unfold x3; case_match; [trans x2; [done|apply quiet_set_reply]|done]).
  clearbody x3. repeat case_match; try done; (trans x3; [done|by apply quiet_on_ph]).
Qed.

Lemma quiet_control (wlcf : loc_conf cond) a x : ph_quiet x (snd (ngx_http_waf_control_apply wlcf a x)).
Proof.
  unfold ngx_http_waf_control_apply. cbn zeta. set (refused := if _ =? _ then true else _).
  destruct refused; [done|]. cbn [snd]. apply foldl_phases; [done|]. intros y p Hy. trans y; [done|].
  repeat case_match; by apply quiet_fields.
Qed.
Lemma quiet_audit a x : ph_quiet x (snd (ngx_http_waf_audit_ovr_apply a x)).
Proof. unfold ngx_http_waf_audit_ovr_apply. repeat case_match; by apply quiet_fields. Qed.
Lemma quiet_markers a x : ph_quiet x (snd (ngx_http_waf_markers_add a x)).
Proof.
  unfold ngx_http_waf_markers_add. case_match; [done|].
  destruct (match c_markers x with Some _ => _ | None => _ end) as [ok x1] eqn:E1.
  assert (H1 : ph_quiet x x1).
  { destruct (c_markers x); [by simplify_eq|]. destruct (pool_alloc x) as [b x2] eqn:Ea. simplify_eq.
    trans x2; [by eapply quiet_alloc|]. destruct ok; by apply quiet_fields. }
  destruct ok; cbn [negb]; [|done]. destruct (existsb _ _); [done|]. destruct (_ <=? _); [done|].
  destruct (pool_alloc x1) as [ok2 x2] eqn:Ea. apply quiet_alloc in Ea. trans x1; [done|].
  destruct ok2; cbn; [trans x2; [done|by apply quiet_fields]|done].
Qed.
Lemma quiet_score n a x : ph_quiet x (snd (ngx_http_waf_score_apply n a x)).
Proof.
  unfold ngx_http_waf_score_apply. repeat case_match; try done; cbn [snd];
    (etrans; [apply quiet_set_reply|by apply quiet_on_ph]).
Qed.

Lemma quiet_gate b f k x0 x :
  (forall x, ph_quiet x (snd (f x))) -> (forall x, ph_quiet x (fst (k x))) ->
  ph_quiet x0 x -> ph_quiet x0 (fst (gate b f k x)).
Proof.
  intros Hf Hk H0. trans x; [done|]. unfold gate. destruct b; [|apply Hk].
  specialize (Hf x). destruct (f x) as [rc y]. cbn in Hf. case_match; [|done]. trans y; [done|apply Hk].
Qed.
Lemma quiet_store found a x : ph_quiet x (fst (store_action found a x)).
Proof.
  unfold store_action. destruct found; [by apply quiet_fields|].
  destruct (pool_alloc x) as [ok y] eqn:E. apply quiet_alloc in E.
  destruct ok; cbn; [trans y; [done|by apply quiet_fields]|done].
Qed.

Lemma quiet_merge_action (wlcf : loc_conf cond) n index wave i x :
  ph_quiet x (fst (merge_action wlcf n index wave i x)).
Proof.
  unfold merge_action. destruct (_ !! i) as [a0|]; [|done]. cbn zeta.
  set (a := upd a_passive _ _). set (x1 := set_reply _ _ _).
  assert (H1 : ph_quiet x x1) by apply quiet_set_reply. clearbody x1.
  case_match; [done|]. apply quiet_gate; [apply quiet_control| |done].
  intros y. apply quiet_gate; [apply quiet_audit| |done].
  intros z. apply quiet_gate; [apply quiet_score|apply quiet_store|].
  case_match; [apply quiet_markers|done].
Qed.
Lemma quiet_merge_loop (wlcf : loc_conf cond) n index wave k i x :
  ph_quiet x (merge_loop wlcf n index wave i k x).
Proof.
  revert i x. induction k as [|k IH]; intros i x; cbn; [done|].
  pose proof (quiet_merge_action wlcf n index wave i x) as Hm.
  destruct (merge_action wlcf n index wave i x) as [y []]; cbn in Hm; [done|]. trans y; auto.
Qed.
Lemma quiet_actions_merge (wlcf : loc_conf cond) n index wave x :
  ph_quiet x (ngx_http_waf_actions_merge wlcf n index wave x).
Proof.
  unfold ngx_http_waf_actions_merge. case_match; [done|]. case_match; [done|].
  destruct (match c_actions x with Some _ => _ | None => _ end) as [ok x1] eqn:E1.
  assert (H1 : ph_quiet x x1).
  { destruct (c_actions x); [by simplify_eq|]. destruct (pool_alloc x) as [b x2] eqn:Ea. simplify_eq.
    trans x2; [by eapply quiet_alloc|]. destruct ok; by apply quiet_fields. }
  destruct ok; [|done]. trans x1; [done|apply quiet_merge_loop].
Qed.

Lemma quiet_session_copy s b x : ph_quiet x (snd (ngx_http_waf_session_copy s b x)).
Proof.
  unfold ngx_http_waf_session_copy. case_match; [done|]. destruct b; [done|].
  destruct (pool_alloc x) as [ok y] eqn:E. by eapply quiet_alloc.
Qed.
Lemma quiet_merge_session index i x : ph_quiet x (fst (merge_session index i x)).
Proof.
  unfold merge_session. destruct (_ !! i) as [s0|]; [|done]. cbn zeta.
  set (s := upd ss_passive _ _). set (x1 := set_reply _ _ _).
  assert (H1 : ph_quiet x x1) by apply quiet_set_reply. clearbody x1.
  destruct (find_index _ _) as [j|].
  - pose proof (quiet_session_copy s true x1) as Hc. destruct (ngx_http_waf_session_copy s true x1) as [r x2].
    cbn in Hc. trans x1; [done|]. trans x2; [done|]. destruct r; by apply quiet_fields.
  - case_match; [done|]. destruct (pool_alloc x1) as [ok x2] eqn:Ea. apply quiet_alloc in Ea.
    destruct ok; cbn [negb]; [|by trans x1].
    pose proof (quiet_session_copy s false x2) as Hc. destruct (ngx_http_waf_session_copy s false x2) as [r x3].
    cbn in Hc. trans x1; [done|]. trans x2; [done|]. trans x3; [done|]. destruct r; by apply quiet_fields.
Qed.
Lemma quiet_sessions_loop index k i x : ph_quiet x (sessions_loop index i k x).
Proof.
  revert i x. induction k as [|k IH]; intros i x; cbn; [done|].
  pose proof (quiet_merge_session index i x) as Hm.
  destruct (merge_session index i x) as [y []]; cbn in Hm; [done|]. trans y; auto.
Qed.
Lemma quiet_sessions_merge index x : ph_quiet x (ngx_http_waf_sessions_merge index x).
Proof.
  unfold ngx_http_waf_sessions_merge. case_match; [done|].
  destruct (match c_sessions x with Some _ => _ | None => _ end) as [ok x1] eqn:E1.
  assert (H1 : ph_quiet x x1).
  { destruct (c_sessions x); [by simplify_eq|]. destruct (pool_alloc x) as [b x2] eqn:Ea. simplify_eq.
    trans x2; [by eapply quiet_alloc|]. destruct ok; by apply quiet_fields. }
  destruct ok; [|done]. trans x1; [done|apply quiet_sessions_loop].
Qed.

(** ** The operations on a context *)

Definition reply_ok (r : reply_t) : Prop :=
  - NGX_HTTP_WAF_SCORE_MAX <= r.(r_score) <= NGX_HTTP_WAF_SCORE_MAX.

Lemma quiet_store_reply e c si index wave reply s x :
  ph_quiet x (store_reply conf inspectors e c si index wave reply s x).
Proof.
  unfold store_reply. destruct (ph_replies (ph x)); [|done]. cbn zeta.
  etrans; [|apply quiet_sessions_merge]. etrans; [|apply quiet_actions_merge].
  etrans; [apply quiet_set_reply|apply quiet_account].
Qed.

Lemma evolves_store_reply e c si index wave reply s x :
  reply_ok reply -> evolves (conf c) x (store_reply conf inspectors e c si index wave reply s x).
Proof.
  intros Hr. apply evolves_quiet; [apply quiet_store_reply|]. unfold store_reply.
  destruct (ph_replies (ph x)) eqn:Er; [|done].
  set (f := fun _ : reply_t => _). set (x1 := set_reply index f x).
  set (x2 := ngx_http_waf_account index x1). set (x3 := ngx_http_waf_actions_merge _ _ _ _ x2).
  - intros Hwf. apply sessions_merge_wf, actions_merge_wf, account_wf.
    destruct Hwf. constructor; try done.
    + unfold x1, set_reply. by rewrite ph_on_ph.
    + intros i. destruct (get_set_reply index f x i) as [E|[_ E]]; fold x1 in E; rewrite E; [done|apply Hr].
Qed.

Lemma evolves_resolve c x : evolves (conf c) x (ngx_http_waf_resolve_verdict (conf c) ninsp x).
Proof.
  unfold ngx_http_waf_resolve_verdict. set (f := fun p : phase_ctx => _).
  trans (on_ph f x); [by apply evolves_on_ph|].
  destruct (ngx_http_waf_pick _ _ _ V_DENY).
  { etrans; [apply (evolves_state _ ST_DENY)|]. by apply evolves_on_ph. }
  case_match. { etrans; [apply (evolves_state _ ST_DENY)|]. by apply evolves_on_ph. }
  destruct (ngx_http_waf_pick _ _ _ V_REDIRECT).
  { etrans; [apply (evolves_state _ ST_REDIRECT)|]. by apply evolves_on_ph. }
  etrans; [|apply evolves_state]. by apply evolves_on_ph.
Qed.
Lemma evolves_fail_pass c x : evolves (conf c) x (ngx_http_waf_fail_pass conf c x).
Proof. unfold ngx_http_waf_fail_pass. case_match; [done|apply evolves_state]. Qed.

(** The stale list grows by the superseded key; nothing else of the phase
    changes. *)
Lemma push_stale_spec x r x' :
  push_stale x = (r, x') ->
  (r = None \/ r = Some x') /\ x'.(c_phase) = x.(c_phase) /\ same_rest x x' /\
  (forall p, p <> x.(c_phase) -> x'.(c_phases) p = x.(c_phases) p) /\
  (exists st, ph x' = (ph x) <| ph_stale := st |>) /\
  (zlen (default [] (ph x').(ph_stale)) =
   zlen (default [] (ph x).(ph_stale)) + match r, (ph x).(ph_live) with Some _, Some _ => 1 | _, _ => 0 end).
Proof.
  unfold push_stale. destruct (ph_live (ph x)) as [live|]; last first.
  { intros [= <- <-]. split_and!; try done; [by right|by exists (ph_stale (ph x)); destruct (ph x)|lia]. }
  destruct (match ph_stale (ph x) with Some _ => _ | None => _ end) as [ok x1] eqn:E1.
  assert (H1 : x1.(c_phase) = x.(c_phase) /\ same_rest x x1 /\
    (forall p, p <> x.(c_phase) -> x1.(c_phases) p = x.(c_phases) p) /\
    (exists st, ph x1 = (ph x) <| ph_stale := st |>) /\
    default [] (ph x1).(ph_stale) = default [] (ph x).(ph_stale) /\
    (ok = true -> is_Some (ph x1).(ph_stale))).
  { destruct (ph_stale (ph x)) as [st|] eqn:Es.
    - simplify_eq. rewrite Es. split_and!; try done. by exists (Some st); destruct (ph x1); cbn in *; subst.
    - unfold pool_alloc in E1. destruct (alloc (c_mem x)) as [b o]. destruct b; simplify_eq.
      + split_and!; try done; [intros p Hp; by rewrite on_ph_other|by rewrite ph_on_ph; eexists|..].
        * by rewrite ph_on_ph.
        * rewrite ph_on_ph. by eexists.
      + split_and!; try done; [exists None; unfold ph; cbn|unfold ph; cbn].
        * unfold ph in Es. by destruct (c_phases x (c_phase x)); cbn in *; subst.
        * unfold ph in Es. by rewrite Es. }
  destruct H1 as (Hp & Hr & Ho & (st & Hst) & Hd & Hs). destruct ok; cbn [negb]; last first.
  { intros [= <- <-]. split_and!; try done; [by left|by exists st|rewrite Hd; lia]. }
  specialize (Hs eq_refl). destruct Hs as [l Hl]. destruct (pool_alloc x1) as [ok2 x2] eqn:Ea.
  unfold pool_alloc in Ea. destruct (alloc (c_mem x1)) as [b o]. simplify_eq. destruct ok2; cbn [negb].
  - intros [= <- <-]. split_and!; try done; [by right| | |].
    + intros p Hp'. rewrite on_ph_other; [by apply Ho|by cbn; rewrite Hp].
    + rewrite ph_on_ph. unfold ph at 2. cbn. fold (ph x1). rewrite Hst. by eexists.
    + rewrite ph_on_ph. unfold ph at 1. cbn. fold (ph x1). rewrite Hl. cbn. rewrite zlen_snoc.
      rewrite Hl in Hd. cbn in Hd. unfold id in Hd. by rewrite Hd.
  - intros [= <- <-]. split_and!; try done; [by left|by exists st|].
    unfold ph at 1. cbn. fold (ph x1). rewrite Hd. lia.
Qed.

Lemma push_stale_state x : c_state (snd (push_stale x)) = c_state x.
Proof. unfold push_stale, pool_alloc. repeat (case_match; simplify_eq; try done). Qed.

Lemma bag_wf_rest (wlcf : loc_conf cond) x x' :
  same_rest x x' -> (ph x').(ph_score) = (ph x).(ph_score) -> (ph x').(ph_replies) = (ph x).(ph_replies) ->
  bag_wf wlcf x -> bag_wf wlcf x'.
Proof.
  intros (Ha & Hs & Hm) Hsc Hr []. constructor; rewrite ?Ha, ?Hs, ?Hm, ?Hsc; auto.
  intros i. unfold get_reply. rewrite Hr. apply bag_range0.
Qed.

Lemma evolves_rewrite_settle wlcf mask x :
  evolves wlcf x (ngx_http_waf_rewrite_settle inspectors mask x).
Proof.
  unfold ngx_http_waf_rewrite_settle. destruct (ph_replies (ph x)); [|done].
  destruct (rewrite_scan _ _ _) as [[found|]|]; [|done|by apply evolves_fail].
  destruct (Z.leb_spec NGX_HTTP_WAF_REWRITE_MAX_DEPTH (ph_rewrite_depth (ph x))); [by apply evolves_fail|].
  unfold ngx_http_waf_store_locator_live. destruct (match ph_live (ph x) with Some _ => _ | None => _ end); [|done].
  destruct (pool_alloc x) as [ok x1] eqn:Ea.
  assert (Hx1 : evolves wlcf x x1) by (by eapply evolves_alloc).
  assert (Hph : ph x1 = ph x) by (unfold pool_alloc in Ea; destruct (alloc _); by simplify_eq).
  clear Ea. trans x1; [done|]. rewrite <- Hph in *. clear Hx1 Hph.
  destruct ok; cbn [negb]; [|by apply evolves_fail]. set (live := upd l_sha256 _ _). clearbody live.
  destruct (push_stale x1) as [r x2] eqn:Ep. apply push_stale_spec in Ep as (Hr & Hp & Hrest & Ho & (st & Hst) & Hz).
  destruct r as [x3|].
  - destruct Hr as [|[= ->]]; [done|]. constructor; try done.
    + intros p Hp'. rewrite on_ph_other; [by apply Ho|by rewrite Hp].
    + rewrite ph_on_ph, Hst. done.
    + apply bag_wf_rest; [done|by rewrite ph_on_ph, Hst..].
    + unfold versions_wf. rewrite !ph_on_ph, Hst in *. cbn in *. intros (Hd & Hl & Hs).
      split_and!; [lia|lia|split; [done|lia]|]. rewrite Hz, Hs.
      destruct (ph_live (ph x1)) as [l'|]; [|replace (ph_rewrite_depth (ph x1)) with 0 by (symmetry; by apply Hl); lia].
      assert (ph_rewrite_depth (ph x1) <> 0) by (intros H0; by apply Hl in H0). lia.
  - trans x2; [|by apply evolves_fail]. constructor; try done.
    + by rewrite Hst.
    + apply bag_wf_rest; [done|by rewrite Hst..].
    + unfold versions_wf. rewrite Hz, Hst. cbn. intros (? & ? & ?). split_and!; try done; lia.
Qed.

Lemma evolves_cond_off c x : evolves (conf c) x (snd (ngx_http_waf_cond_off conf cond_test c x)).
Proof. unfold ngx_http_waf_cond_off. case_match; [done|]. by apply evolves_on_ph. Qed.
Lemma evolves_waves_pending c x : evolves (conf c) x (snd (ngx_http_waf_waves_pending conf cond_test c x)).
Proof.
  unfold ngx_http_waf_waves_pending. destruct (lc_waves _ _) as [[|]|]; try done.
  pose proof (evolves_cond_off c x) as H. destruct (ngx_http_waf_cond_off _ _ _ _). done.
Qed.

(** ** What the events of one request may change *)

(** Slot [si] is held by request [c]. *)
Definition owned (w : world) (si c : Z) : Prop :=
  0 <= si < w.(wd_tab).(tbl).(nslots) /\ (sl w si).(sctx) = Some c.

(** Steps that keep the slots where they are. *)
Inductive soft (c : Z) : world -> world -> Prop :=
  | soft_rq f w :
      evolves (conf c) (cx w c) (q_ctx (f (rq w c))) -> q_waiting (f (rq w c)) = q_waiting (rq w c) ->
      soft c w (on_rq c f w)
  | soft_zone z w : soft c w (w <| wd_zone := z |>)
  | soft_timer b w : soft c w (on_tab (set_link c (fun l => l <| c_timer_set := b |>)) w)
  | soft_masks si f w :
      owned w si c ->
      (forall s, (f s).(gen) = s.(gen) /\ (f s).(sctx) = s.(sctx) /\ (f s).(next_free) = s.(next_free)) ->
      soft c w (on_slot si f w).

(** All steps of request [c]. *)
Inductive step (c : Z) : world -> world -> Prop :=
  | step_soft w w' : soft c w w' -> step c w w'
  | step_wait b w : step c w (on_rq c (fun q => q <| q_waiting := b |>) w)
  | step_release si w : owned w si c -> step c w (on_tab (ngx_http_waf_slot_release si) w)
  | step_acquire wave now cln w :
      (the_link w.(wd_tab) c).(c_slot) = NGX_HTTP_WAF_SLOT_NIL ->
      step c w (w <| wd_tab := snd (ngx_http_waf_slot_acquire c wave now cln w.(wd_tab)) |>)
  | step_nil f w :
      (the_link w.(wd_tab) c).(c_slot) = NGX_HTTP_WAF_SLOT_NIL ->
      (forall l, (f l).(c_slot) = NGX_HTTP_WAF_SLOT_NIL) -> step c w (on_tab (set_link c f) w).

Definition softs (c : Z) : world -> world -> Prop := rtc (soft c).
Definition steps (c : Z) : world -> world -> Prop := rtc (step c).

Lemma softs_steps c w w' : softs c w w' -> steps c w w'.
Proof. induction 1; [apply rtc_refl|]. eapply rtc_l; [by apply step_soft|done]. Qed.

(** ** Reading a world back *)

Lemma rq_on_rq_eq c f w : rq (on_rq c f w) c = f (rq w c).
Proof. unfold rq at 1, on_rq. cbn. by rewrite lookup_insert_eq. Qed.
Lemma rq_on_rq_ne c d f w : c <> d -> rq (on_rq c f w) d = rq w d.
Proof. intros. unfold rq, on_rq. cbn. by rewrite lookup_insert_ne. Qed.
Lemma rq_on_tab f w c : rq (on_tab f w) c = rq w c.
Proof. done. Qed.
Lemma cx_on_ctx c f w : cx (on_ctx c f w) c = f (cx w c).
Proof. unfold cx, on_ctx. by rewrite rq_on_rq_eq. Qed.
Lemma waiting_on_ctx c f w : q_waiting (rq (on_ctx c f w) c) = q_waiting (rq w c).
Proof. unfold on_ctx. by rewrite rq_on_rq_eq. Qed.

Lemma soft_ctx c f w : evolves (conf c) (cx w c) (f (cx w c)) -> soft c w (on_ctx c f w).
Proof. intros He. unfold on_ctx. apply soft_rq; [exact He|done]. Qed.
Lemma soft_call c k w : soft c w (call c k w).
Proof. unfold call. by apply soft_rq. Qed.

(** A soft step keeps the binding of slots and requests. *)
Lemma soft_tab c w w' :
  soft c w w' -> wf w.(wd_tab) ->
  wf w'.(wd_tab) /\ w'.(wd_tab).(tbl).(nslots) = w.(wd_tab).(tbl).(nslots) /\
  (forall si, (sl w' si).(sctx) = (sl w si).(sctx) /\ (sl w' si).(gen) = (sl w si).(gen)) /\
  (forall d, (the_link w'.(wd_tab) d).(c_slot) = (the_link w.(wd_tab) d).(c_slot) /\
             (the_link w'.(wd_tab) d).(c_rid) = (the_link w.(wd_tab) d).(c_rid)) /\
  q_waiting (rq w' c) = q_waiting (rq w c) /\ evolves (conf c) (cx w c) (cx w' c).
Proof.
  intros Hs Hwf. destruct Hs as [f w He Hq|z w|b w|si f w Ho Hf].
  - split_and!; try done; unfold cx; by rewrite rq_on_rq_eq.
  - by split_and!.
  - split_and!; try done; [by apply set_link_wf|]. intros d. cbn.
    destruct (decide (c = d)) as [<-|]; [by rewrite the_link_set_link_eq|by rewrite the_link_set_link_ne].
  - destruct Ho as [Hi _]. split_and!; try done; [by apply set_slot_wf|]. intros sj. unfold sl. cbn.
    destruct (decide (si = sj)) as [<-|]; [|by rewrite the_slot_set_slot_ne].
    rewrite the_slot_set_slot_eq by (by rewrite <- (wf_n _ Hwf)). split; apply Hf.
Qed.

(** The facts of [soft_tab], for runs. *)
Lemma softs_tab c w w' :
  softs c w w' -> wf w.(wd_tab) ->
  wf w'.(wd_tab) /\ w'.(wd_tab).(tbl).(nslots) = w.(wd_tab).(tbl).(nslots) /\
  (forall si, (sl w' si).(sctx) = (sl w si).(sctx) /\ (sl w' si).(gen) = (sl w si).(gen)) /\
  (forall d, (the_link w'.(wd_tab) d).(c_slot) = (the_link w.(wd_tab) d).(c_slot) /\
             (the_link w'.(wd_tab) d).(c_rid) = (the_link w.(wd_tab) d).(c_rid)) /\
  q_waiting (rq w' c) = q_waiting (rq w c) /\ evolves (conf c) (cx w c) (cx w' c).
Proof.
  induction 1 as [|x y z Hs _ IH]; intros Hwf; [by split_and!|].
  apply soft_tab in Hs as (Hwf' & Hn & Hc & Hl & Hq & He); [|done].
  destruct (IH Hwf') as (? & Hn' & Hc' & Hl' & Hq' & He').
  split_and!; [done|congruence|intros si; destruct (Hc si), (Hc' si); split; congruence| |congruence|by etrans].
  intros d. destruct (Hl d), (Hl' d). split; congruence.
Qed.
Lemma softs_owned c w w' si : softs c w w' -> wf w.(wd_tab) -> owned w si c -> owned w' si c.
Proof.
  intros Hs Hwf [Hi Ho]. destruct (softs_tab c w w' Hs Hwf) as (_ & Hn & Hc & _). split; [by rewrite Hn|].
  by rewrite (proj1 (Hc si)).
Qed.

(** What an event of [c] leaves alone: the other requests, their request ids
    and the slots they hold. *)
Record isolated (c : Z) (w w' : world) : Prop := {
  iso_rq : forall d, d <> c -> w'.(wd_reqs) !! d = w.(wd_reqs) !! d;
  iso_link : forall d, d <> c -> the_link w'.(wd_tab) d = the_link w.(wd_tab) d;
  iso_slot : forall si d, d <> c -> (sl w si).(sctx) = Some d -> sl w' si = sl w si
}.
#[export] Instance isolated_preorder c : PreOrder (isolated c).
Proof.
  split; [by intros w; constructor|]. intros x y z [] []. constructor.
  - intros d Hd. by rewrite iso_rq1, iso_rq0.
  - intros d Hd. by rewrite iso_link1, iso_link0.
  - intros si d Hd Hs. rewrite <- (iso_slot0 si d Hd Hs). apply (iso_slot1 si d Hd). by rewrite iso_slot0 with (d := d).
Qed.

Lemma isolated_frame c i w t :
  frame w.(wd_tab) t i c -> (forall d, d <> c -> (sl w i).(sctx) <> Some d) ->
  isolated c w (w <| wd_tab := t |>).
Proof.
  intros [_ _ Hs Hl] Hi. constructor; [done|apply Hl|]. intros si d Hd Hsc. unfold sl. cbn.
  destruct (decide (si = i)) as [->|]; [by destruct (Hi d)|by apply Hs].
Qed.

Lemma release_owned w si c :
  wf w.(wd_tab) -> owned w si c ->
  let w' := on_tab (ngx_http_waf_slot_release si) w in
  wf w'.(wd_tab) /\ isolated c w w' /\ (the_link w'.(wd_tab) c).(c_slot) = NGX_HTTP_WAF_SLOT_NIL.
Proof.
  intros Hwf [Hi Ho] w'. destruct (wf_owner _ Hwf si c Hi Ho) as (Hg & Hl & _).
  destruct (release_frame w.(wd_tab) si c Hg Ho Hl) as (Hf & Hb & _ & H0 & _);
    [by rewrite <- (wf_n _ Hwf)|].
  split_and!; [by apply release_wf| |].
  - apply (isolated_frame c si w _ Hf). intros d Hd. rewrite Ho. congruence.
  - destruct Hb as [(_ & _ & ?)|(_ & Hg' & _)]; [done|lia].
Qed.

Lemma acquire_isolated c wave now cln w :
  wf w.(wd_tab) -> (the_link w.(wd_tab) c).(c_slot) = NGX_HTTP_WAF_SLOT_NIL ->
  let t := snd (ngx_http_waf_slot_acquire c wave now cln w.(wd_tab)) in
  wf t /\ isolated c w (w <| wd_tab := t |>).
Proof.
  intros Hwf Hl t. split; [by apply acquire_wf|]. unfold t. clear t.
  destruct (decide (free_head (tbl (wd_tab w)) = NGX_HTTP_WAF_SLOT_NIL)) as [Hh|Hh].
  { unfold ngx_http_waf_slot_acquire. rewrite Hh. cbn. by destruct w. }
  destruct (acquire_frame c wave now (wd_tab w) Hwf Hh Hl) as (Hi & Hg & Hf & Hb & _ & _ & _ & Hs & _).
  set (i := free_head (tbl (wd_tab w))) in *.
  set (t1 := snd (ngx_http_waf_slot_acquire c wave now true (wd_tab w))) in *.
  assert (Hno : forall d, d <> c -> (sl w i).(sctx) <> Some d).
  { intros d _ Hd. by destruct (wf_owner _ Hwf i d Hi Hd). }
  assert (H1 : isolated c w (w <| wd_tab := t1 |>)) by (by apply (isolated_frame c i)).
  destruct cln; [done|]. rewrite acquire_false by done. cbn [snd]. fold t1 i. trans (w <| wd_tab := t1 |>); [done|].
  refine (proj1 (proj2 (release_owned (w <| wd_tab := t1 |>) i c _ _))); [by apply acquire_true_wf|].
  split; [change (0 <= i < nslots (tbl t1)); by rewrite (fr_n _ _ _ _ Hf)|].
  change ((the_slot t1 i).(sctx) = Some c). by rewrite Hs.
Qed.

Lemma set_link_nil_wf c f t :
  wf t -> (the_link t c).(c_slot) = NGX_HTTP_WAF_SLOT_NIL ->
  (forall l, (f l).(c_slot) = NGX_HTTP_WAF_SLOT_NIL) -> wf (set_link c f t).
Proof.
  intros Hwf Hl Hf. pose proof (fun i => nil_not_index t i Hwf) as Hnil. destruct Hwf. constructor; try done.
  - intros i d Hi Hs. destruct (wf_owner0 i d Hi Hs) as (Hg & Hd & Hr).
    assert (c <> d) by (intros ->; apply (Hnil i Hi); congruence).
    rewrite the_link_set_link_ne by done. done.
  - intros d. destruct (decide (c = d)) as [<-|]; [left; by rewrite the_link_set_link_eq|].
    rewrite the_link_set_link_ne by done. apply wf_link0.
Qed.

Lemma step_wf_isolated c w w' : step c w w' -> wf w.(wd_tab) -> wf w'.(wd_tab) /\ isolated c w w'.
Proof.
  intros Hs Hwf. destruct Hs as [w w' Hs|b w|si w Ho|wave now cln w Hl|f w Hl Hf].
  - split; [by apply (soft_tab c w w')|]. destruct Hs as [f w _ _|z w|b w|si f w [Hi Ho] Hf].
    + constructor; try done. intros d Hd. cbn. by rewrite lookup_insert_ne.
    + by constructor.
    + constructor; try done. intros d Hd. cbn. by rewrite the_link_set_link_ne.
    + constructor; try done. intros sj d Hd Hsc. unfold sl in *. cbn.
      destruct (decide (si = sj)) as [<-|]; [congruence|by rewrite the_slot_set_slot_ne].
  - split; [done|]. constructor; try done. intros d Hd. cbn. by rewrite lookup_insert_ne.
  - split; apply (release_owned w si c Hwf Ho).
  - by apply acquire_isolated.
  - split; [|constructor; try done; intros d Hd; cbn; by rewrite the_link_set_link_ne].
    by apply set_link_nil_wf.
Qed.
Lemma steps_wf_isolated c w w' : steps c w w' -> wf w.(wd_tab) -> wf w'.(wd_tab) /\ isolated c w w'.
Proof.
  induction 1 as [|x y z Hs _ IH]; [done|]. intros Hwf.
  apply step_wf_isolated in Hs as [Hwf' Hi]; [|done]. destruct (IH Hwf') as [? ?]. split; [done|by etrans].
Qed.

Lemma steps_evolves c w w' : steps c w w' -> wf w.(wd_tab) -> evolves (conf c) (cx w c) (cx w' c).
Proof.
  induction 1 as [|x y z Hs _ IH]; [done|]. intros Hwf. trans (cx y c); [|apply IH; by apply (step_wf_isolated c x)].
  destruct Hs as [w w' Hs|b w| | |]; try done; [by apply (soft_tab c w w')|].
  unfold cx. by rewrite rq_on_rq_eq.
Qed.

(** ** The functions of the handler as steps *)

Lemma while_mask_preserves {S} (P : S -> Prop) (f : Z -> S -> S) m s :
  P s -> (forall i s, P s -> P (f i s)) -> P (while_mask f m s).
Proof.
  intros Hs Hf. unfold while_mask. revert m s Hs. generalize 64%nat.
  induction n as [|n IH]; intros m s Hs; cbn; [done|]. case_match; auto.
Qed.

(** A request that waits is in the waiting state and holds its slot. *)
Definition placed (c : Z) (w : world) : Prop :=
  q_waiting (rq w c) = true ->
  (cx w c).(c_state) = ST_WAITING /\ (the_link w.(wd_tab) c).(c_slot) <> NGX_HTTP_WAF_SLOT_NIL.
Definition armed (c : Z) (w : world) : Prop := (the_link w.(wd_tab) c).(c_timer_set) = true.
(** And its deadline is armed, so that it does not wait for ever. *)
Definition ticking (c : Z) (w : world) : Prop := q_waiting (rq w c) = true -> armed c w.
Definition parked (c : Z) (w : world) : Prop := placed c w /\ ticking c w.

(** A run of soft steps that leaves the state and the wave of the request
    alone and does not stop its deadline. *)
Definition calm (c : Z) (w w' : world) : Prop :=
  softs c w w' /\ (cx w' c).(c_state) = (cx w c).(c_state) /\ (ph (cx w' c)).(ph_wave) = (ph (cx w c)).(ph_wave) /\
  (armed c w -> armed c w').
#[export] Instance calm_preorder c : PreOrder (calm c).
Proof.
  split; [by split; [apply rtc_refl|]|]. intros x y z (H1 & E1 & F1 & G1) (H2 & E2 & F2 & G2).
  split_and!; [by etrans|congruence|congruence|auto].
Qed.

Lemma softs_placed c w w' : softs c w w' -> (cx w' c).(c_state) = (cx w c).(c_state) -> wf w.(wd_tab) -> placed c w -> placed c w'.
Proof.
  intros Hs He Hwf Hp Hq. destruct (softs_tab c w w' Hs Hwf) as (_ & _ & _ & Hl & Hw & _).
  destruct (Hl c) as [-> _]. rewrite He. apply Hp. congruence.
Qed.
Lemma calm_parked c w w' : calm c w w' -> wf w.(wd_tab) -> parked c w -> parked c w'.
Proof.
  intros (Hs & He & _ & Ha) Hwf [Hp Ht]. split; [by eapply softs_placed|]. unfold ticking.
  destruct (softs_tab c w w' Hs Hwf) as (_ & _ & _ & _ & -> & _). auto.
Qed.

Lemma calm_ctx c f w :
  evolves (conf c) (cx w c) (f (cx w c)) -> (f (cx w c)).(c_state) = (cx w c).(c_state) ->
  (ph (f (cx w c))).(ph_wave) = (ph (cx w c)).(ph_wave) -> calm c w (on_ctx c f w).
Proof. intros He Hs Hw. split; [apply rtc_once; by apply soft_ctx|by rewrite cx_on_ctx]. Qed.
Lemma calm_on_ph c f w :
  ph_keeps (ph (cx w c)) (f (ph (cx w c))) -> (f (ph (cx w c))).(ph_wave) = (ph (cx w c)).(ph_wave) ->
  calm c w (on_ctx c (on_ph f) w).
Proof. intros Hf Hw. apply calm_ctx; [by apply evolves_on_ph|done|by rewrite ph_on_ph]. Qed.
Lemma calm_call c k w : calm c w (call c k w).
Proof. split; [apply rtc_once, soft_call|]. unfold cx, call. by rewrite rq_on_rq_eq. Qed.
Lemma calm_masks c si f w :
  owned w si c ->
  (forall s, (f s).(gen) = s.(gen) /\ (f s).(sctx) = s.(sctx) /\ (f s).(next_free) = s.(next_free)) ->
  calm c w (on_slot si f w).
Proof. intros Ho Hf. split; [apply rtc_once; by apply soft_masks|done]. Qed.
Lemma calm_denied c si i w :
  owned w si c -> calm c w (on_slot si (fun s => s <| denied ::= fun m => Z.lor m (bit i) |>) w).
Proof. intros Ho. by apply calm_masks. Qed.
Lemma calm_fail c k w : k <> CODE_NONE -> calm c w (on_ctx c (set_fail k) w).
Proof. intros Hk. apply calm_ctx; [by apply evolves_fail|done|]. unfold set_fail. by rewrite ph_on_ph. Qed.
Lemma calm_entry c i st w : calm c w (on_ctx c (entry_state i st) w).
Proof. apply calm_ctx; [apply evolves_entry|done|]. unfold entry_state, set_reply. by rewrite ph_on_ph. Qed.
Lemma calm_timer c w : calm c w (on_tab (set_link c (fun l => l <| c_timer_set := true |>)) w).
Proof. split; [apply rtc_once, soft_timer|]. split_and!; [done|done|]. intros _. unfold armed. cbn. by rewrite the_link_set_link_eq. Qed.
Lemma calm_zone c z w : calm c w (w <| wd_zone := z |>).
Proof. split; [apply rtc_once, soft_zone|done]. Qed.

Lemma calm_breaker e c mask t w : calm c w (ngx_http_waf_breaker_account inspectors crc32 e mask t w).
Proof.
  unfold ngx_http_waf_breaker_account. apply while_mask_preserves; [done|]. intros i w' Hc. trans w'; [done|].
  repeat case_match; try done. apply (calm_zone c _ w').
Qed.
Lemma calm_arm e c si w : calm c w (ngx_http_waf_deadline_arm conf e c si w).
Proof.
  unfold ngx_http_waf_deadline_arm. cbn zeta. etrans; [apply (calm_timer c)|].
  split; [apply rtc_once; by apply soft_rq|]. unfold cx. by rewrite rq_on_rq_eq.
Qed.
Lemma arm_armed e c si w : armed c (ngx_http_waf_deadline_arm conf e c si w).
Proof. unfold armed, ngx_http_waf_deadline_arm. cbn. by rewrite the_link_set_link_eq. Qed.
Lemma softs_stop c w : softs c w (ngx_http_waf_deadline_stop c w).
Proof. unfold ngx_http_waf_deadline_stop. case_match; [apply rtc_once, soft_timer|apply rtc_refl]. Qed.
Lemma rewrite_settle_state mask x :
  c_state (ngx_http_waf_rewrite_settle inspectors mask x) = c_state x /\
  ph_wave (ph (ngx_http_waf_rewrite_settle inspectors mask x)) = ph_wave (ph x) /\
  ph_body_policy (ph (ngx_http_waf_rewrite_settle inspectors mask x)) = ph_body_policy (ph x).
Proof.
  unfold ngx_http_waf_rewrite_settle, fail_body, set_fail. destruct (ph_replies (ph x)); [|done].
  destruct (rewrite_scan _ _ _) as [[found|]|]; [|done|by rewrite ph_on_ph].
  case_match; [by rewrite ph_on_ph|]. destruct (ngx_http_waf_store_locator_live x); [|done].
  unfold pool_alloc. destruct (alloc (c_mem x)) as [[] o]; cbn [negb]; [|by rewrite ph_on_ph].
  set (x1 := upd c_mem _ x). change (c_state x) with (c_state x1). change (ph x) with (ph x1). clearbody x1.
  destruct (push_stale x1) as [r x2] eqn:Ep. pose proof (push_stale_state x1) as Hst. rewrite Ep in Hst.
  apply push_stale_spec in Ep as (Hr & _ & _ & _ & (st & Hp) & _). cbn in Hst.
  destruct r; [destruct Hr as [|[= ->]]; [done|]|]; rewrite ph_on_ph, Hp; by split_and!.
Qed.
Lemma calm_rewrite c mask w : calm c w (on_ctx c (ngx_http_waf_rewrite_settle inspectors mask) w).
Proof. apply calm_ctx; [apply evolves_rewrite_settle|apply rewrite_settle_state..]. Qed.

(** What an entry into the handler may rely on, for a request in its request
    phase that holds slot [si], and what it guarantees; the deadline is not
    armed while it is being handled. *)
Record ready (c si : Z) (w : world) : Prop := {
  rd_wf : wf w.(wd_tab);
  rd_phase : (cx w c).(c_phase) = PHASE_REQUEST;
  rd_placed : placed c w;
  rd_owned : owned w si c
}.
Definition fine (c : Z) (w w' : world) : Prop := steps c w w' /\ parked c w'.

Lemma ready_calm c si w w' : calm c w w' -> ready c si w -> ready c si w'.
Proof.
  intros Hc []. destruct (softs_tab c w w' (proj1 Hc) rd_wf0) as (? & _ & _ & _ & _ & He).
  constructor; [done|by rewrite (ev_phase _ _ _ He)|by eapply softs_placed; [apply Hc|apply Hc|..]|].
  eapply softs_owned; [apply Hc|done|done].
Qed.
Lemma ticking_calm c w w' : calm c w w' -> wf w.(wd_tab) -> ticking c w -> ticking c w'.
Proof. intros (Hs & _ & _ & Ha) Hwf Ht. unfold ticking. destruct (softs_tab c w w' Hs Hwf) as (_ & _ & _ & _ & -> & _). auto. Qed.
Lemma fine_calm c w w1 w2 : calm c w w1 -> fine c w1 w2 -> fine c w w2.
Proof. intros [Hs _] [Ht Hp]. split; [|done]. etrans; [by apply softs_steps|done]. Qed.
Lemma calm_fine c si w w' : calm c w w' -> ready c si w -> ticking c w -> fine c w w'.
Proof. intros Hc [] Ht. split; [by apply softs_steps, Hc|by eapply calm_parked]. Qed.
(** The deadline is armed again. *)
Lemma arm_fine e c si w : ready c si w -> fine c w (ngx_http_waf_deadline_arm conf e c si w).
Proof.
  intros []. pose proof (calm_arm e c si w) as Hc. split; [by apply softs_steps, Hc|].
  split; [by eapply softs_placed; [apply Hc|apply Hc|..]|intros _; apply arm_armed].
Qed.
Lemma idle_parked c w : q_waiting (rq w c) = false -> parked c w.
Proof. intros Hq. split; intros Ht; congruence. Qed.

(** Carries a calm prefix [w -> w1] over to the goal. *)
Ltac calm_step H :=
  match goal with
  | Hr : ready ?c ?si ?w |- fine ?c ?w _ =>
      let T := fresh "T" in
      pose proof H as T; eapply fine_calm; [exact T|];
      try (match goal with Ht : ticking c w |- _ => apply (ticking_calm c _ _ T (rd_wf _ _ _ Hr)) in Ht end);
      apply (ready_calm c si _ _ T) in Hr; clear T
  end.

Lemma return_steps c w : steps c w (ngx_http_waf_return_to_phases c w).
Proof.
  unfold ngx_http_waf_return_to_phases. case_match; try (apply rtc_once, step_soft, soft_call).
  eapply rtc_l; [apply (step_wait c false)|]. apply rtc_once, step_soft, soft_call.
Qed.
Lemma return_idle c w :
  (cx w c).(c_phase) = PHASE_REQUEST -> q_waiting (rq (ngx_http_waf_return_to_phases c w) c) = false.
Proof.
  intros Hp. unfold ngx_http_waf_return_to_phases, call. rewrite Hp. by rewrite !rq_on_rq_eq.
Qed.
Lemma return_fine c w0 w :
  wf w0.(wd_tab) -> (cx w0 c).(c_phase) = PHASE_REQUEST -> steps c w0 w ->
  fine c w0 (ngx_http_waf_return_to_phases c w).
Proof.
  intros Hwf Hp Hs. split; [etrans; [done|apply return_steps]|]. apply idle_parked, return_idle.
  by rewrite (ev_phase _ _ _ (steps_evolves c w0 w Hs Hwf)).
Qed.

Lemma conclude_ctx_steps c si w :
  wf w.(wd_tab) -> owned w si c -> steps c w (conclude_ctx conf inspectors c si w).
Proof.
  intros Hwf Ho. unfold conclude_ctx. cbn zeta. pose proof (softs_stop c w) as Hs.
  etrans; [by apply softs_steps|]. eapply rtc_l; [by eapply step_release, softs_owned|].
  eapply rtc_l; [apply step_soft, soft_ctx, evolves_resolve|].
  apply rtc_once, step_soft, soft_ctx, evolves_fail_pass.
Qed.
Lemma conclude_fine c si w : ready c si w -> fine c w (ngx_http_waf_conclude conf inspectors c si w).
Proof. intros []. apply return_fine; [done|done|by apply conclude_ctx_steps]. Qed.

Lemma settle_idle c si w : q_waiting (rq w c) = false -> ngx_http_waf_settle conf inspectors c si w = w.
Proof. intros Hq. unfold ngx_http_waf_settle. by rewrite Hq. Qed.
Lemma settle_closed_fine c si w :
  ready c si w -> ngx_http_waf_wave_closed (sl w si) = true -> fine c w (ngx_http_waf_settle conf inspectors c si w).
Proof.
  intros Hr Hcl. unfold ngx_http_waf_settle. rewrite Hcl. destruct (q_waiting (rq w c)) eqn:Hq; cbn [negb];
    [|split; [apply rtc_refl|by apply idle_parked]]. cbn zeta. calm_step (calm_rewrite c (got (sl w si)) w). revert Hr.
  generalize (on_ctx c (ngx_http_waf_rewrite_settle inspectors (got (sl w si))) w). intros w1 Hr.
  case_match; [|by apply conclude_fine]. destruct Hr. apply return_fine; [done|done|].
  eapply rtc_l; [by apply step_release|]. apply rtc_once, step_soft, soft_ctx.
  etrans; [|apply evolves_state]. by apply evolves_on_ph.
Qed.
Lemma settle_fine c si w : ready c si w -> ticking c w -> fine c w (ngx_http_waf_settle conf inspectors c si w).
Proof.
  intros Hr Ht. destruct (ngx_http_waf_wave_closed (sl w si)) eqn:Hcl; [by apply settle_closed_fine|].
  unfold ngx_http_waf_settle. rewrite Hcl. case_match; by apply (calm_fine c si).
Qed.
Lemma resume_fine c si w : ready c si w -> fine c w (ngx_http_waf_resume conf inspectors c si w).
Proof.
  intros Hr. unfold ngx_http_waf_resume. rewrite (proj2 (rd_owned _ _ _ Hr)). cbn zeta.
  calm_step (calm_rewrite c (got (sl w si)) w). by apply conclude_fine.
Qed.

Lemma on_reply_fine e c si index reply w :
  ready c si w -> ticking c w -> reply_ok reply ->
  fine c w (ngx_http_waf_on_reply conf inspectors crc32 e c si index reply w).
Proof.
  intros Hr Ht Hok. unfold ngx_http_waf_on_reply. destruct (ngx_http_waf_current_wave _ _ _) as [wave|];
    [|by apply (calm_fine c si)].
  case_match; [by apply (calm_fine c si)|]. case_match; [by apply (calm_fine c si)|]. cbn zeta.
  set (w1 := on_slot si _ w). assert (H1 : calm c w w1) by (apply calm_masks; [apply Hr|done]).
  set (w2 := on_ctx c _ w1). assert (H2 : calm c w1 w2) by (by apply calm_on_ph).
  set (w3 := ngx_http_waf_breaker_account _ _ _ _ _ w2). assert (H3 : calm c w2 w3) by apply calm_breaker.
  set (w4 := on_ctx c _ w3).
  assert (H4 : calm c w3 w4).
  { pose proof (quiet_store_reply e c si index wave reply (sl w3 si) (cx w3 c)) as [].
    by apply calm_ctx; [by apply evolves_store_reply|..]. }
  assert (Hc : calm c w w4) by (trans w1; [done|]; trans w2; [done|]; by trans w3).
  calm_step Hc. clearbody w4. clear -Hr Ht.
  assert (Hd : forall w5, ready c si w5 -> ticking c w5 ->
    fine c w5 (if (lc_deny_mode (conf c) (c_phase (cx w5 c)) ==? DENY_FAST)
                  && has_bit (ngx_http_waf_wave_gating (cx w5 c) wave) index
               then ngx_http_waf_resume conf inspectors c si w5
               else ngx_http_waf_settle conf inspectors c si w5)).
  { intros w5 H5 T5. case_match; [by apply resume_fine|by apply settle_fine]. }
  destruct (r_verdict reply); try (by apply settle_fine).
  - calm_step (calm_denied c si index w4 (rd_owned _ _ _ Hr)). by apply Hd.
  - calm_step (calm_denied c si index w4 (rd_owned _ _ _ Hr)). by apply Hd.
  - case_match; [|by apply settle_fine].
    assert (Hf : calm c w4 (on_ctx c (set_fail (if r_overload reply then CODE_FAIL_OVERLOAD
                                                 else CODE_FAIL_INSPECTOR)) w4))
      by (apply calm_fail; by destruct (r_overload reply)).
    calm_step Hf. by apply resume_fine.
Qed.

Lemma calm_omit c si mask st w :
  owned w si c -> calm c w (ngx_http_waf_omit c si mask st w).
Proof.
  intros Ho. unfold ngx_http_waf_omit. cbn zeta. set (w1 := on_ctx c _ w).
  assert (H1 : calm c w w1) by (apply calm_on_ph; by case_match).
  set (w2 := on_slot si _ w1).
  assert (H2 : calm c w1 w2) by (by apply calm_masks).
  trans w1; [done|]. apply while_mask_preserves; [done|]. intros i w' Hc. trans w'; [done|apply calm_entry].
Qed.

(** The marking of an inspector that gives no verdict. *)
Definition skip_mark (c si index : Z) (code : code_e) (wave : wave_t) (w : world) : world :=
  let w := on_slot si (fun s => s <| got ::= fun m => Z.lor m (bit index) |>) w in
  let w := on_ctx c (on_ph (fun p => p <| ph_skipped ::= fun m => Z.lor m (bit index) |>)) w in
  let w := on_ctx c (entry_state index (if code ==? CODE_FAIL_ABSENT then ENTRY_ABSENT
                                        else ENTRY_SKIPPED)) w in
  if has_bit (ngx_http_waf_wave_mandatory (cx w c) wave) index then on_ctx c (set_fail code) w else w.

Lemma calm_skip_mark c si index code wave w :
  owned w si c -> code <> CODE_NONE -> calm c w (skip_mark c si index code wave w).
Proof.
  intros Ho Hc. unfold skip_mark. cbn zeta.
  set (w1 := on_slot si _ w). assert (H1 : calm c w w1) by (by apply calm_masks).
  set (w2 := on_ctx c _ w1). assert (H2 : calm c w1 w2) by (by apply calm_on_ph).
  set (w3 := on_ctx c _ w2). assert (H3 : calm c w2 w3) by apply calm_entry.
  trans w1; [done|]. trans w2; [done|]. trans w3; [done|]. case_match; [by apply calm_fail|done].
Qed.
Lemma skip_fine c si index code w :
  ready c si w -> ticking c w -> code <> CODE_NONE -> fine c w (ngx_http_waf_skip conf inspectors c si index code w).
Proof.
  intros Hr Ht Hc. unfold ngx_http_waf_skip.
  destruct (ngx_http_waf_current_wave _ _ _) as [wave|]; [|by apply (calm_fine c si)].
  case_match; [by apply (calm_fine c si)|].
  calm_step (calm_skip_mark c si index code wave w (rd_owned _ _ _ Hr) Hc). by apply settle_fine.
Qed.
Lemma calm_skip c si index code w :
  owned w si c -> wf w.(wd_tab) -> q_waiting (rq w c) = false -> code <> CODE_NONE ->
  calm c w (ngx_http_waf_skip conf inspectors c si index code w).
Proof.
  intros Ho Hwf Hq Hc. unfold ngx_http_waf_skip.
  destruct (ngx_http_waf_current_wave _ _ _) as [wave|]; [|done]. case_match; [done|].
  pose proof (calm_skip_mark c si index code wave w Ho Hc) as Hm.
  change (calm c w (ngx_http_waf_settle conf inspectors c si (skip_mark c si index code wave w))).
  rewrite settle_idle; [done|]. destruct (softs_tab c _ _ (proj1 Hm) Hwf) as (_ & _ & _ & _ & -> & _). done.
Qed.

Lemma fail_fine e c si w : ready c si w -> fine c w (ngx_http_waf_fail conf inspectors crc32 e c si w).
Proof.
  intros Hr. unfold ngx_http_waf_fail. cbn zeta.
  set (w1 := ngx_http_waf_breaker_account _ _ _ _ _ _). assert (H1 : calm c w w1) by apply calm_breaker.
  calm_step H1. clearbody w1. set (all_in := match _ with Some _ => _ | None => _ end).
  destruct all_in; [by apply resume_fine|].
  calm_step (calm_fail c CODE_FAIL_TIMEOUT w1 ltac:(done)). by apply resume_fine.
Qed.

Lemma expire_loop_spec e c s mask x :
  let x' := snd (while_mask (expire_one conf e c s) mask (0, x)) in
  evolves (conf c) x x' /\ c_state x' = c_state x /\ ph_wave (ph x') = ph_wave (ph x).
Proof.
  cbn zeta. apply (while_mask_preserves (fun st : Z * ctx_t => evolves (conf c) x (snd st) /\
    c_state (snd st) = c_state x /\ ph_wave (ph (snd st)) = ph_wave (ph x))).
  - by split.
  - intros i [ex y] (He & Hs & Hw). cbn [snd] in *. unfold expire_one. destruct (ngx_http_waf_binding_find _ _ _); [|done].
    destruct (_ || _); [done|]. cbn [snd]. split_and!; [|done|].
    + trans y; [done|apply evolves_entry].
    + unfold entry_state, set_reply. by rewrite ph_on_ph.
Qed.

Lemma expire_fine e c si w : ready c si w -> fine c w (ngx_http_waf_expire conf inspectors crc32 e c si w).
Proof.
  intros Hr. unfold ngx_http_waf_expire.
  destruct (ngx_http_waf_current_wave _ _ _) as [wave|]; [|by apply fail_fine].
  pose proof (expire_loop_spec e c (sl w si) (Z.land (sl w si).(awaited) (bnot64 (sl w si).(got))) (cx w c)) as Hx.
  destruct (while_mask _ _ _) as [expired x]. cbn in Hx. destruct Hx as (He & Hs & Hw).
  assert (H0 : calm c w (on_ctx c (fun _ => x) w)) by (by apply calm_ctx).
  set (w1 := on_ctx c _ w) in *. calm_step H0. clearbody w1.
  case_match; [by apply arm_fine|]. cbn zeta.
  set (w2 := ngx_http_waf_breaker_account _ _ _ _ _ w1). assert (H2 : calm c w1 w2) by apply calm_breaker.
  calm_step H2. clearbody w2.
  set (w3 := on_slot si _ w2). assert (H3 : calm c w2 w3) by (apply calm_masks; [apply Hr|done]).
  calm_step H3. clearbody w3. set (w4 := if negb (_ =? 0) then _ else w3).
  assert (H4 : calm c w3 w4) by (unfold w4; case_match; [by apply calm_fail|done]).
  calm_step H4. clearbody w4.
  case_match; [by apply settle_closed_fine|by apply arm_fine].
Qed.

(** ** Slots of a request *)

(** A request that holds a slot finds it by its request id. *)
Lemma lookup_own c w :
  wf w.(wd_tab) -> (the_link w.(wd_tab) c).(c_slot) <> NGX_HTTP_WAF_SLOT_NIL ->
  ngx_http_waf_slot_lookup (the_link w.(wd_tab) c).(c_rid) w.(wd_tab) = Some (the_link w.(wd_tab) c).(c_slot) /\
  owned w (the_link w.(wd_tab) c).(c_slot) c.
Proof.
  intros Hwf Hl. destruct (wf_link _ Hwf c) as [|[Hi Hs]]; [done|].
  destruct (wf_owner _ Hwf _ _ Hi Hs) as (_ & _ & Hrid). split; [|done].
  rewrite Hrid, lookup_rid_of by (done || by apply wf_gen). by rewrite Z.eqb_refl, Hs.
Qed.

Lemma on_deadline_fine e c w :
  wf w.(wd_tab) -> (cx w c).(c_phase) = PHASE_REQUEST -> parked c w ->
  fine c w (ngx_http_waf_on_deadline conf inspectors crc32 e c w).
Proof.
  intros Hwf Hp [Hk _]. unfold ngx_http_waf_on_deadline. cbn zeta.
  set (w1 := on_tab _ w). assert (H1 : softs c w w1) by apply rtc_once, soft_timer.
  destruct (softs_tab c w w1 H1 Hwf) as (Hwf1 & _ & _ & _ & Hq1 & He).
  assert (Hk1 : placed c w1) by (by eapply softs_placed).
  assert (Hf : forall w2, fine c w1 w2 -> fine c w w2) by (intros w2 [Hs Hp2]; split; [etrans; [by apply softs_steps|]|]; done).
  apply Hf. clearbody w1. destruct (q_waiting (rq w1 c)) eqn:Hq; cbn [negb]; [|by split; [apply rtc_refl|apply idle_parked]].
  destruct (Hk1 Hq) as [_ Hl]. destruct (lookup_own c w1 Hwf1 Hl) as [-> Ho].
  assert (Hr : ready c (c_slot (the_link (wd_tab w1) c)) w1) by (constructor; try done; by rewrite (ev_phase _ _ _ He)).
  case_match; [by apply expire_fine|by apply fail_fine].
Qed.

Lemma ensure_slot_spec e c w r w' :
  wf w.(wd_tab) -> ngx_http_waf_ensure_slot e c w = (r, w') ->
  steps c w w' /\ rq w' c = rq w c /\
  match r with Some si => owned w' si c | None => True end.
Proof.
  intros Hwf. unfold ngx_http_waf_ensure_slot.
  destruct (Z.eqb_spec (the_link w.(wd_tab) c).(c_slot) NGX_HTTP_WAF_SLOT_NIL) as [Hn|Hn]; cbn [negb].
  - destruct (ngx_http_waf_slot_acquire _ _ _ _ _) as [r0 t] eqn:Ea. intros [= <- <-].
    assert (Ht : t = snd (ngx_http_waf_slot_acquire c (ph (cx w c)).(ph_wave) e.(e_now) e.(e_cleanup) w.(wd_tab)))
      by (by rewrite Ea).
    split_and!; [rewrite Ht; by apply rtc_once, step_acquire|done|].
    destruct r0 as [si|]; [|done].
    destruct (decide (free_head (tbl (wd_tab w)) = NGX_HTTP_WAF_SLOT_NIL)) as [Hh|Hh];
      [unfold ngx_http_waf_slot_acquire in Ea; rewrite Hh in Ea; done|].
    destruct (e_cleanup e); [|by rewrite acquire_false in Ea].
    destruct (acquire_frame c (ph (cx w c)).(ph_wave) e.(e_now) (wd_tab w) Hwf Hh Hn)
      as (Hi & _ & Hf & _ & _ & _ & _ & Hs & _).
    rewrite Ea in Hf, Hs. cbn in Hf, Hs.
    assert (si = free_head (tbl (wd_tab w))) as ->.
    { unfold ngx_http_waf_slot_acquire, ngx_http_waf_next_gen in Ea. apply Z.eqb_neq in Hh. rewrite Hh in Ea.
      cbn [negb] in Ea. by apply (f_equal fst) in Ea; cbn in Ea; simplify_eq. }
    split; [cbn; by rewrite (fr_n _ _ _ _ Hf)|]. unfold sl. cbn. by rewrite Hs.
  - intros [= <- <-]. destruct (lookup_own c w Hwf Hn) as [-> Ho]. split_and!; [apply rtc_refl|done|done].
Qed.

Lemma slot_drop_spec c w :
  wf w.(wd_tab) ->
  steps c w (ngx_http_waf_slot_drop c w) /\ rq (ngx_http_waf_slot_drop c w) c = rq w c /\
  (the_link (ngx_http_waf_slot_drop c w).(wd_tab) c).(c_slot) = NGX_HTTP_WAF_SLOT_NIL.
Proof.
  intros Hwf. unfold ngx_http_waf_slot_drop.
  destruct (Z.eqb_spec (the_link w.(wd_tab) c).(c_slot) NGX_HTTP_WAF_SLOT_NIL) as [Hn|Hn].
  { split_and!; [apply rtc_refl|done|done]. }
  destruct (lookup_own c w Hwf Hn) as [-> Ho]. cbn zeta.
  destruct (release_owned w _ c Hwf Ho) as (_ & _ & Hl). split_and!; [|done|].
  - eapply rtc_l; [by apply step_release|]. by apply rtc_once, step_nil.
  - cbn. by rewrite the_link_set_link_eq.
Qed.

(** ** Finishing *)

Lemma softs_ctx c f w : evolves (conf c) (cx w c) (f (cx w c)) -> softs c w (on_ctx c f w).
Proof. intros He. by apply rtc_once, soft_ctx. Qed.
Lemma softs_state c s w : softs c w (on_ctx c (set_state s) w).
Proof. apply softs_ctx, evolves_state. Qed.
Lemma softs_calm c w w' : calm c w w' -> softs c w w'.
Proof. by intros []. Qed.
Lemma softs_rq c f w :
  q_ctx (f (rq w c)) = q_ctx (rq w c) -> q_waiting (f (rq w c)) = q_waiting (rq w c) -> softs c w (on_rq c f w).
Proof. intros He Hq. apply rtc_once, soft_rq; [by rewrite He|done]. Qed.

Lemma softs_discard c w : softs c w (ngx_http_waf_discard_body c w).
Proof.
  unfold ngx_http_waf_discard_body. case_match; [apply rtc_refl|].
  etrans; [|apply softs_calm, calm_call]. apply softs_calm. by apply calm_on_ph.
Qed.
Lemma softs_finish_done e c w : softs c w (snd (ngx_http_waf_finish_done e c w)).
Proof.
  unfold ngx_http_waf_finish_done. cbn zeta. etrans; [apply (softs_state c ST_DONE)|].
  generalize (on_ctx c (set_state ST_DONE) w). intros w1. case_match; [apply rtc_refl|].
  destruct (q_how (rq w1 c)).
  - case_match; [apply softs_state|]. cbn [snd].
    etrans; [apply (softs_state c ST_FETCHING_FORM)|]. etrans; [apply (softs_state c ST_DONE)|].
    case_match; [apply softs_discard|apply rtc_refl].
  - apply softs_calm, calm_call.
  - cbn [snd]. etrans; [apply softs_calm, calm_call|]. etrans; [apply softs_discard|apply softs_calm, calm_call].
Qed.
Lemma softs_need_body e c w : softs c w (snd (access_need_body e c w)).
Proof.
  unfold access_need_body. cbn zeta. etrans; [apply (softs_state c ST_READING_BODY)|].
  case_match; apply softs_calm, calm_call.
Qed.

(** Runs of a request that is not waiting, and stays so. *)
Definition idle_run (c : Z) (w w' : world) : Prop :=
  steps c w w' /\ (q_waiting (rq w c) = false -> q_waiting (rq w' c) = false).
#[export] Instance idle_run_preorder c : PreOrder (idle_run c).
Proof. split; [by intros w; split; [apply rtc_refl|]|]. intros x y z [H1 E1] [H2 E2]. split; [by etrans|auto]. Qed.
Lemma softs_idle c w w' : wf w.(wd_tab) -> softs c w w' -> idle_run c w w'.
Proof.
  intros Hwf Hs. split; [by apply softs_steps|].
  destruct (softs_tab c w w' Hs Hwf) as (_ & _ & _ & _ & -> & _). done.
Qed.
Lemma idle_wf c w w' : idle_run c w w' -> wf w.(wd_tab) -> wf w'.(wd_tab).
Proof. intros [Hs _] Hwf. by apply (steps_wf_isolated c w w'). Qed.
Lemma idle_rq c w w' : steps c w w' -> rq w' c = rq w c -> idle_run c w w'.
Proof. intros Hs He. split; [done|]. by rewrite He. Qed.

(** The request keeps neither a slot nor an armed deadline. *)
Definition unbound (c : Z) (w : world) : Prop :=
  (the_link w.(wd_tab) c).(c_slot) = NGX_HTTP_WAF_SLOT_NIL /\ (the_link w.(wd_tab) c).(c_timer_set) = false.

Lemma release_timer si c t : (the_link (ngx_http_waf_slot_release si t) c).(c_timer_set) = (the_link t c).(c_timer_set).
Proof.
  unfold ngx_http_waf_slot_release. case_match; [done|]. destruct (sctx _) as [d|]; [|done]. case_match; [|done].
  change (the_link (_ <| tbl ::= _ |>) c) with (the_link (set_link d (fun l => l <| c_slot := NGX_HTTP_WAF_SLOT_NIL |>) t) c).
  destruct (decide (d = c)) as [->|]; [by rewrite the_link_set_link_eq|by rewrite the_link_set_link_ne].
Qed.
Lemma slot_drop_timer c w :
  (the_link (ngx_http_waf_slot_drop c w).(wd_tab) c).(c_timer_set) = (the_link w.(wd_tab) c).(c_timer_set).
Proof.
  unfold ngx_http_waf_slot_drop. case_match; [done|]. cbn zeta. cbn. rewrite the_link_set_link_eq. cbn.
  destruct (ngx_http_waf_slot_lookup _ _) as [si|]; [|done]. apply release_timer.
Qed.

(** Parts of the handler that do not touch the slot table. *)
Definition tab_same (w w' : world) : Prop := w'.(wd_tab) = w.(wd_tab).
Lemma tab_finish_done e c w : tab_same w (snd (ngx_http_waf_finish_done e c w)).
Proof. unfold tab_same, ngx_http_waf_finish_done, ngx_http_waf_discard_body. by repeat case_match. Qed.

Lemma finish_spec e c how w :
  wf w.(wd_tab) ->
  idle_run c w (snd (ngx_http_waf_finish e c how w)) /\ unbound c (snd (ngx_http_waf_finish e c how w)).
Proof.
  intros Hwf. unfold ngx_http_waf_finish. cbn zeta.
  set (w1 := ngx_http_waf_deadline_stop c w).
  assert (H1 : idle_run c w w1) by (apply softs_idle; [done|apply softs_stop]).
  assert (Ht1 : (the_link w1.(wd_tab) c).(c_timer_set) = false).
  { unfold w1, ngx_http_waf_deadline_stop. destruct (c_timer_set (the_link (wd_tab w) c)) eqn:E; [|done].
    cbn. by rewrite the_link_set_link_eq. }
  pose proof (idle_wf _ _ _ H1 Hwf) as Hwf1. clearbody w1.
  destruct (slot_drop_spec c w1 Hwf1) as (Hs2 & Hq2 & Hl2). pose proof (slot_drop_timer c w1) as Ht2.
  set (w2 := ngx_http_waf_slot_drop c w1) in *.
  assert (H2 : idle_run c w1 w2) by (by apply idle_rq). pose proof (idle_wf _ _ _ H2 Hwf1) as Hwf2.
  clearbody w2. set (w3 := on_rq c _ w2).
  assert (H3 : idle_run c w2 w3) by (apply softs_idle; [done|by apply softs_rq]).
  assert (Hw3 : wf w3.(wd_tab)) by (by eapply idle_wf).
  assert (Hu : unbound c w3) by (split; [done|by rewrite <- Ht1, <- Ht2]).
  assert (Hpre : idle_run c w w3) by (trans w1; [done|]; by trans w2). clearbody w3.
  assert (Hfd : forall w4, idle_run c w3 w4 -> tab_same w3 w4 ->
     idle_run c w (snd (ngx_http_waf_finish_done e c w4)) /\ unbound c (snd (ngx_http_waf_finish_done e c w4))).
  { intros w4 H4 Ht. split; [|unfold unbound; rewrite tab_finish_done, Ht; exact Hu].
    trans w3; [done|]. trans w4; [done|]. apply softs_idle; [by eapply idle_wf|apply softs_finish_done]. }
  destruct (ph_agent_settled (ph (cx w3 c))); cbn [negb]; [by apply Hfd|]. destruct (e_agent_needs_body e).
  - set (w4 := on_ctx c _ w3). split.
    + trans w3; [done|]. apply softs_idle; [done|].
      etrans; [|apply softs_need_body]. apply softs_ctx. etrans; [|apply evolves_state]. by apply evolves_on_ph.
    + unfold access_need_body. cbn zeta. case_match; exact Hu.
  - apply Hfd; [|done]. apply softs_idle; [done|]. apply softs_calm. by apply calm_on_ph.
Qed.

Lemma fail_policy_spec e c w :
  wf w.(wd_tab) ->
  idle_run c w (snd (ngx_http_waf_fail_policy conf e c w)) /\ unbound c (snd (ngx_http_waf_fail_policy conf e c w)).
Proof.
  intros Hwf. unfold ngx_http_waf_fail_policy. cbn zeta. set (w1 := on_ctx c _ w).
  assert (H1 : idle_run c w w1) by (apply softs_idle; [done|apply softs_state]).
  pose proof (idle_wf _ _ _ H1 Hwf) as Hwf1. clearbody w1.
  destruct (ngx_http_waf_exception_policy _ _ _) as [exc pol]. case_match.
  { destruct (finish_spec e c FINISH_APPLY w1 Hwf1) as [Hf Hu]. split; [by trans w1|done]. }
  set (w2 := on_ctx c _ w1). assert (H2 : softs c w1 w2) by (apply softs_calm; by apply calm_on_ph).
  set (w3 := on_rq c _ w2). assert (H3 : softs c w2 w3) by (by apply softs_rq).
  assert (H13 : idle_run c w1 w3) by (apply softs_idle; [done|by etrans]).
  destruct (finish_spec e c FINISH_FAIL w3 (idle_wf _ _ _ H13 Hwf1)) as [Hf Hu].
  split; [trans w1; [done|]; by trans w3|done].
Qed.

Lemma phase_apply_spec e c w :
  wf w.(wd_tab) ->
  idle_run c w (snd (ngx_http_waf_phase_apply conf e c w)) /\ unbound c (snd (ngx_http_waf_phase_apply conf e c w)).
Proof.
  intros Hwf. unfold ngx_http_waf_phase_apply.
  assert (Hd : idle_run c w (on_ctx c (set_state ST_DONE) w)) by (apply softs_idle; [done|apply softs_state]).
  destruct (finish_spec e c FINISH_APPLY _ (idle_wf _ _ _ Hd Hwf)) as [Hf Hu].
  destruct (c_state (cx w c)); try (by apply fail_policy_spec); (split; [by etrans|done]).
Qed.

Lemma local_deny_spec e c rule response code w :
  wf w.(wd_tab) -> idle_run c w (snd (ngx_http_waf_local_deny e c rule response code w)).
Proof.
  intros Hwf. unfold ngx_http_waf_local_deny. cbn zeta. set (w1 := on_rq c _ w).
  assert (H1 : softs c w w1) by (by apply softs_rq).
  set (w2 := on_ctx c _ w1).
  assert (H2 : softs c w1 w2)
    by (apply softs_ctx; etrans; [|apply evolves_state]; by apply evolves_on_ph).
  assert (H : idle_run c w w2) by (apply softs_idle; [done|by etrans]).
  trans w2; [done|]. apply finish_spec. by eapply idle_wf.
Qed.

(** ** Publishing and starting a wave *)

Lemma calm_idle_owned c si w w' :
  calm c w w' -> wf w.(wd_tab) -> owned w si c -> q_waiting (rq w c) = false ->
  wf w'.(wd_tab) /\ owned w' si c /\ q_waiting (rq w' c) = false.
Proof.
  intros Hc Hwf Ho Hq. destruct (softs_tab c w w' (proj1 Hc) Hwf) as (? & _ & _ & _ & E & _).
  split_and!; [done|eapply softs_owned; [apply Hc|done|done]|by rewrite E].
Qed.

Lemma calm_publish_one e c si index n w :
  wf w.(wd_tab) -> owned w si c -> q_waiting (rq w c) = false ->
  calm c w (snd (publish_one conf inspectors crc32 e c si index (n, w))).
Proof.
  intros Hwf Ho Hq. unfold publish_one. destruct n as [n|]; [|done].
  destruct (inspectors !! Z.to_nat index) as [insp|]; [|done].
  set (w1 := on_ctx c _ w). assert (H1 : calm c w w1) by (by apply calm_on_ph).
  destruct (calm_idle_owned c si w w1 H1 Hwf Ho Hq) as (Hwf1 & Ho1 & Hq1). clearbody w1.
  trans w1; [done|]. clear H1. destruct (ngx_http_waf_breaker_allow _ _ _ _ _) as [rc z].
  assert (H2 : calm c w1 (w1 <| wd_zone := z |>)) by apply calm_zone.
  set (w2 := w1 <| wd_zone := z |>) in *.
  destruct (calm_idle_owned c si w1 w2 H2 Hwf1 Ho1 Hq1) as (Hwf2 & Ho2 & Hq2). clearbody w2.
  trans w2; [done|]. clear H2.
  case_match; [by apply calm_skip|]. case_match; [done|]. case_match; [done|].
  set (w3 := call c _ w2). assert (H3 : calm c w2 w3) by apply calm_call.
  case_match; [done|]. cbn [snd]. trans w3; [done|]. case_match; [by apply calm_on_ph|done].
Qed.

Lemma calm_publish_wave e c si w :
  wf w.(wd_tab) -> owned w si c -> q_waiting (rq w c) = false ->
  calm c w (snd (ngx_http_waf_bus_publish_wave conf inspectors crc32 cond_test e c si w)).
Proof.
  intros Hwf Ho Hq. unfold ngx_http_waf_bus_publish_wave. case_match; [done|].
  destruct (ngx_http_waf_current_wave _ _ _) as [wave|]; [|done].
  destruct (ngx_http_waf_cond_off _ _ _ _) as [coff x] eqn:Ex.
  set (w1 := on_ctx c (fun _ => x) w).
  assert (H1 : calm c w w1).
  { pose proof (evolves_cond_off c (cx w c)) as He. rewrite Ex in He. cbn in He.
    unfold ngx_http_waf_cond_off in Ex. apply calm_ctx; [done|..];
      destruct (ph_cond_settled _); simplify_eq; rewrite ?ph_on_ph; done. }
  destruct (calm_idle_owned c si w w1 H1 Hwf Ho Hq) as (Hwf1 & Ho1 & Hq1). clearbody w1.
  trans w1; [done|]. clear H1 Ex Hwf Ho Hq.
  assert (Hom : forall m st v, owned v si c -> calm c v (omit_nonzero c si m st v))
    by (intros m st v Hv; unfold omit_nonzero; case_match; [by apply calm_omit|done]).
  set (w2 := omit_nonzero c si _ ENTRY_SKIPPED w1). assert (H2 : calm c w1 w2) by (by apply Hom).
  destruct (calm_idle_owned c si w1 w2 H2 Hwf1 Ho1 Hq1) as (Hwf2 & Ho2 & Hq2). clearbody w2. trans w2; [done|].
  set (w3 := omit_nonzero c si _ ENTRY_OFF w2). assert (H3 : calm c w2 w3) by (by apply Hom).
  destruct (calm_idle_owned c si w2 w3 H3 Hwf2 Ho2 Hq2) as (Hwf3 & Ho3 & Hq3). clearbody w3. trans w3; [done|].
  set (w4 := on_slot si _ w3). assert (H4 : calm c w3 w4) by (by apply calm_masks).
  destruct (calm_idle_owned c si w3 w4 H4 Hwf3 Ho3 Hq3) as (Hwf4 & Ho4 & Hq4). trans w4; [done|].
  set (w5 := on_ctx c _ w4). assert (H5 : calm c w4 w5) by (by apply calm_on_ph).
  destruct (calm_idle_owned c si w4 w5 H5 Hwf4 Ho4 Hq4) as (Hwf5 & Ho5 & Hq5). trans w5; [done|].
  set (m := Z.land (w_all wave) _). clearbody w5 m.
  assert (Hl : calm c w5 (snd (while_mask (publish_one conf inspectors crc32 e c si) m (Some 0, w5)))).
  { apply (while_mask_preserves (fun st : option Z * world => calm c w5 (snd st))); [done|].
    intros i [n v] Hv. cbn [snd] in Hv.
    destruct (calm_idle_owned c si w5 v Hv Hwf5 Ho5 Hq5) as (? & ? & ?). trans v; [done|]. by apply calm_publish_one. }
  destruct (while_mask _ _ _) as [[n|] v]; [by case_match|done].
Qed.

(** What the parts of [wave_start] leave behind: the request stops here,
    not waiting, or goes on with its slot. *)
Definition stop_or_go (c si : Z) (w : world) (r : (hrc * world) + world) : Prop :=
  match r with
  | inl (_, w') => idle_run c w w'
  | inr w' => calm c w w'
  end.

Lemma fail_with_idle e c code w :
  wf w.(wd_tab) -> code <> CODE_NONE -> idle_run c w (snd (fail_with conf e c code w)).
Proof.
  intros Hwf Hc. unfold fail_with. set (w1 := on_ctx c _ w).
  assert (H1 : idle_run c w w1).
  { apply softs_idle; [done|]. apply softs_ctx. etrans; [|apply evolves_state]. by apply evolves_fail. }
  trans w1; [done|]. apply fail_policy_spec. by eapply idle_wf.
Qed.
Lemma release_idle c si w : owned w si c -> idle_run c w (on_tab (ngx_http_waf_slot_release si) w).
Proof. intros Ho. by apply idle_rq; [apply rtc_once, step_release|]. Qed.
Lemma release_and_fail_idle e c si code w :
  wf w.(wd_tab) -> owned w si c -> code <> CODE_NONE -> idle_run c w (snd (release_and_fail conf e c si code w)).
Proof.
  intros Hwf Ho Hc. unfold release_and_fail. etrans; [by apply release_idle|].
  apply fail_with_idle; [|done]. by apply (release_owned w si c).
Qed.

Lemma place_meta_spec e c si wave w :
  wf w.(wd_tab) -> owned w si c -> stop_or_go c si w (place_meta conf e c si wave w).
Proof.
  intros Hwf Ho. unfold place_meta. destruct (_ && _); [|unfold stop_or_go; reflexivity].
  set (w1 := on_ctx c _ w).
  assert (H1 : calm c w w1) by (by apply calm_on_ph).
  destruct (softs_tab c w w1 (proj1 H1) Hwf) as (Hwf1 & _).
  assert (Ho1 : owned w1 si c) by (eapply softs_owned; [apply H1|done|done]).
  assert (Hi : idle_run c w w1) by (apply softs_idle; [done|apply H1]). clearbody w1.
  assert (Hf : stop_or_go c si w (inl (release_and_fail conf e c si CODE_FAIL_BODY w1))).
  { pose proof (release_and_fail_idle e c si CODE_FAIL_BODY w1 Hwf1 Ho1) as H. unfold stop_or_go.
    destruct (release_and_fail _ _ _ _ _ _). trans w1; [done|by apply H]. }
  destruct (e_meta_place e); try done; unfold stop_or_go. trans w1; [done|]. apply softs_idle; [done|apply softs_state].
Qed.

Lemma place_body_spec e c si wave w :
  wf w.(wd_tab) -> owned w si c -> stop_or_go c si w (place_body conf e c si wave w).
Proof.
  intros Hwf Ho. unfold place_body. destruct (ngx_http_waf_wave_needs_body _ _ _ _); [|unfold stop_or_go; reflexivity].
  destruct (ph_body_ready _); cbn [negb]; [|unfold stop_or_go; apply softs_idle; [done|apply softs_state]].
  destruct (_ ==? PHASE_REQUEST); [|unfold stop_or_go; reflexivity].
  assert (Hf : stop_or_go c si w (inl (release_and_fail conf e c si CODE_FAIL_BODY w))).
  { pose proof (release_and_fail_idle e c si CODE_FAIL_BODY w Hwf Ho) as H. unfold stop_or_go.
    destruct (release_and_fail _ _ _ _ _ _). by apply H. }
  destruct (e_body_place e); try done; unfold stop_or_go. apply softs_idle; [done|apply softs_state].
Qed.

Lemma prepare_wave_spec e c si w :
  wf w.(wd_tab) -> owned w si c -> stop_or_go c si w (prepare_wave conf inspectors e c si w).
Proof.
  intros Hwf Ho. unfold prepare_wave.
  destruct (match ph_replies _ with Some _ => _ | None => _ end) as [ok x] eqn:Ex.
  assert (H1 : calm c w (on_ctx c (fun _ => x) w)).
  { destruct (ph_replies (ph (cx w c))) eqn:Er; [simplify_eq; by apply calm_ctx|].
    destruct (_ =? 0); [simplify_eq; by apply calm_ctx|].
    destruct (pool_alloc (cx w c)) as [b y] eqn:Ea. pose proof (evolves_alloc (conf c) _ _ _ Ea) as Hy.
    unfold pool_alloc in Ea. destruct (alloc _) as [b' o]. simplify_eq.
    destruct ok; [|by apply calm_ctx]. apply calm_ctx; [|done|by rewrite ph_on_ph].
    etrans; [exact Hy|]. apply evolves_quiet; [by apply quiet_on_ph|]. intros []. constructor; try done.
    - by rewrite ph_on_ph.
    - intros i. unfold get_reply, aget. rewrite ph_on_ph. cbn. destruct (i <? 0); [cbn; unfold NGX_HTTP_WAF_SCORE_MAX; lia|].
      rewrite nth_lookup. destruct (replicate _ _ !! _) as [r|] eqn:El; cbn;
        [apply lookup_replicate in El as [-> _]|]; cbn; unfold NGX_HTTP_WAF_SCORE_MAX; lia. }
  set (w1 := on_ctx c (fun _ => x) w) in *.
  destruct (softs_tab c w w1 (proj1 H1) Hwf) as (Hwf1 & _).
  assert (Ho1 : owned w1 si c) by (eapply softs_owned; [apply H1|done|done]). clearbody w1.
  destruct ok; cbn [negb]; unfold stop_or_go; last first.
  { etrans; [apply softs_idle; [done|apply H1]|]. by apply release_idle. }
  trans w1; [done|]. set (w2 := on_ctx c _ w1).
  assert (H2 : calm c w1 w2).
  { clear Ex. apply calm_ctx; destruct (ph_due _ =? 0); try done; [by apply evolves_on_ph|by rewrite ph_on_ph]. }
  trans w2; [done|]. apply calm_masks; [|done]. eapply softs_owned; [apply H2|done|done].
Qed.

(** The outcome of starting a wave. *)
Definition started (c : Z) (w : world) (r : option (hrc * world)) : Prop :=
  match r with Some (_, w') => fine c w w' | None => True end.

Lemma idle_fine c w w' : idle_run c w w' -> q_waiting (rq w c) = false -> fine c w w'.
Proof. intros [Hs Hi] Hq. split; [done|]. by apply idle_parked, Hi. Qed.
Lemma started_idle c w p : q_waiting (rq w c) = false -> idle_run c w (snd p) -> started c w (Some p).
Proof. intros Hq Hi. destruct p as [rc w']. by apply idle_fine. Qed.
Lemma started_after c w w1 r :
  steps c w w1 -> started c w1 r -> started c w r.
Proof. intros Hs Hst. destruct r as [[rc w']|]; [|done]. destruct Hst as [Ht Hp]. split; [by etrans|done]. Qed.

(** The last part of [wave_start], after the message was published. *)
Lemma wave_published_spec e c si w (next : world -> option (hrc * world)) :
  wf w.(wd_tab) -> owned w si c -> q_waiting (rq w c) = false ->
  (forall w', wf w'.(wd_tab) -> q_waiting (rq w' c) = false -> started c w' (next w')) ->
  started c w
    (if ngx_http_waf_wave_closed (sl w si) then
       let w := on_ctx c (ngx_http_waf_rewrite_settle inspectors (sl w si).(got)) w in
       if ngx_http_waf_wave_advances conf c (cx w c) (sl w si)
       then next (on_tab (ngx_http_waf_slot_release si) w)
       else Some (ngx_http_waf_phase_apply conf e c (conclude_ctx conf inspectors c si w))
     else
       let w := ngx_http_waf_deadline_arm conf e c si w in
       let w := on_ctx c (set_state ST_WAITING) w in
       Some (RC NGX_DONE, on_rq c (fun q => q <| q_waiting := true |>) w)).
Proof.
  intros Hwf Ho Hq Hnext. destruct (ngx_http_waf_wave_closed (sl w si)); cbn zeta.
  - pose proof (calm_rewrite c (got (sl w si)) w) as H1. set (w1 := on_ctx c _ w) in *.
    destruct (calm_idle_owned c si w w1 H1 Hwf Ho Hq) as (Hwf1 & Ho1 & Hq1). clearbody w1.
    apply (started_after c w w1); [by apply softs_steps, H1|].
    case_match.
    + destruct (release_owned w1 si c Hwf1 Ho1) as (Hwf2 & _). eapply started_after; [by apply rtc_once, step_release|].
      by apply Hnext.
    + pose proof (conclude_ctx_steps c si w1 Hwf1 Ho1) as Hs. set (w2 := conclude_ctx _ _ _ _ w1) in *.
      assert (Hwf2 : wf w2.(wd_tab)) by (by apply (steps_wf_isolated c w1 w2)).
      assert (Hq2 : q_waiting (rq w2 c) = false).
      { unfold w2, conclude_ctx. rewrite !waiting_on_ctx. unfold ngx_http_waf_deadline_stop. by case_match. }
      eapply started_after; [exact Hs|]. apply started_idle; [done|]. by apply phase_apply_spec.
  - pose proof (calm_arm e c si w) as H1. set (w1 := ngx_http_waf_deadline_arm _ _ _ _ w) in *.
    destruct (calm_idle_owned c si w w1 H1 Hwf Ho Hq) as (Hwf1 & [Hi1 Ho1] & Hq1).
    assert (Ha1 : armed c w1) by apply arm_armed. clearbody w1. split; [|split; [|intros _; exact Ha1]].
    + etrans; [by apply softs_steps, H1|]. eapply rtc_l; [apply step_soft, soft_ctx, evolves_state|].
      apply rtc_once, step_wait.
    + intros _. unfold cx. rewrite rq_on_rq_eq. cbn.
      assert (He : cx (on_ctx c (set_state ST_WAITING) w1) c = set_state ST_WAITING (cx w1 c)) by apply cx_on_ctx.
      unfold cx in He. rewrite He. split; [done|]. destruct (wf_owner _ Hwf1 si c Hi1 Ho1) as (_ & -> & _).
      by apply (nil_not_index (wd_tab w1)).
Qed.

Lemma wave_count_evolves c x x' :
  evolves (conf c) x x' -> ngx_http_waf_wave_count conf c x' = ngx_http_waf_wave_count conf c x.
Proof. intros He. unfold ngx_http_waf_wave_count. by rewrite (ev_phase _ _ _ He). Qed.

(** [wave_start] keeps the rules of the request, and a run with a turn per
    remaining wave ends. *)
Definition ends (fuel : nat) (c wave : Z) (w : world) (r : option (hrc * world)) : Prop :=
  (0 < fuel)%nat -> ngx_http_waf_wave_count conf c (cx w c) - wave <= Z.of_nat fuel -> is_Some r.

Lemma wave_start_spec fuel e c wave w :
  wf w.(wd_tab) -> q_waiting (rq w c) = false ->
  started c w (wave_start conf inspectors crc32 cond_test fuel e c wave w) /\
  ends fuel c wave w (wave_start conf inspectors crc32 cond_test fuel e c wave w).
Proof.
  revert wave w. induction fuel as [|fuel IH]; intros wave w Hwf Hq; [split; [done|intros H; lia]|].
  cbn [wave_start]. set (w1 := on_ctx c _ w).
  assert (H1 : softs c w w1) by (apply softs_ctx; by apply evolves_on_ph).
  destruct (softs_tab c w w1 H1 Hwf) as (Hwf1 & _ & _ & _ & Hq1 & He1). rewrite Hq in Hq1.
  assert (Hw1 : ph_wave (ph (cx w1 c)) = wave) by (unfold w1; by rewrite cx_on_ctx, ph_on_ph). clearbody w1.
  assert (Hsome : forall p, idle_run c w1 (snd p) ->
    started c w (Some p) /\ ends (S fuel) c wave w (Some p)).
  { intros p Hp. split; [|by intros _ _]. eapply started_after; [by apply softs_steps|]. by apply started_idle. }
  case_match.
  { apply Hsome. etrans; [|]; [|apply softs_idle, softs_need_body]; [apply softs_idle; [done|apply softs_state]|].
    by apply (softs_tab c w1 _ (softs_state c ST_NEED_BODY w1)). }
  destruct (ngx_http_waf_ensure_slot e c w1) as [slot w2] eqn:Es.
  destruct (ensure_slot_spec e c w1 slot w2 Hwf1 Es) as (Hs2 & Er2 & Ho2).
  assert (Hi2 : idle_run c w1 w2) by (by apply idle_rq). pose proof (idle_wf _ _ _ Hi2 Hwf1) as Hwf2.
  destruct slot as [si|]; [|apply Hsome; trans w2; [done|by apply fail_with_idle]].
  assert (Hgo : forall w' r, steps c w2 w' -> q_waiting (rq w' c) = false ->
    started c w' r /\ (ngx_http_waf_wave_count conf c (cx w c) - wave <= Z.of_nat (S fuel) -> is_Some r) ->
    started c w r /\ ends (S fuel) c wave w r).
  { intros w' r Hs' Hq' [Hst Hen]. split; [|by intros _ Hf; apply Hen].
    eapply started_after; [|exact Hst]. etrans; [by apply softs_steps|]. etrans; [apply Hi2|done]. }
  assert (Hq2 : q_waiting (rq w2 c) = false) by (by rewrite Er2).
  pose proof (place_meta_spec e c si wave w2 Hwf2 Ho2) as Hm.
  destruct (place_meta _ _ _ _ _ w2) as [[rc w']|w3]; [apply Hsome; by trans w2|]. cbn in Hm.
  destruct (calm_idle_owned c si w2 w3 Hm Hwf2 Ho2 Hq2) as (Hwf3 & Ho3 & Hq3).
  assert (Hi3 : idle_run c w1 w3) by (trans w2; [done|]; apply softs_idle; [done|apply Hm]).
  pose proof (place_body_spec e c si wave w3 Hwf3 Ho3) as Hb.
  destruct (place_body _ _ _ _ _ w3) as [[rc w']|w4]; [apply Hsome; by trans w3|]. cbn in Hb.
  destruct (calm_idle_owned c si w3 w4 Hb Hwf3 Ho3 Hq3) as (Hwf4 & Ho4 & Hq4).
  assert (Hi4 : idle_run c w1 w4) by (trans w3; [done|]; apply softs_idle; [done|apply Hb]).
  pose proof (prepare_wave_spec e c si w4 Hwf4 Ho4) as Hp.
  destruct (prepare_wave _ _ _ _ _ w4) as [[rc w']|w5]; [apply Hsome; by trans w4|]. cbn in Hp.
  destruct (calm_idle_owned c si w4 w5 Hp Hwf4 Ho4 Hq4) as (Hwf5 & Ho5 & Hq5).
  assert (Hi5 : idle_run c w1 w5) by (trans w4; [done|]; apply softs_idle; [done|apply Hp]).
  pose proof (calm_publish_wave e c si w5 Hwf5 Ho5 Hq5) as Hpub.
  destruct (ngx_http_waf_bus_publish_wave _ _ _ _ _ _ _ w5) as [rc w6]. cbn [snd] in Hpub.
  destruct (calm_idle_owned c si w5 w6 Hpub Hwf5 Ho5 Hq5) as (Hwf6 & Ho6 & Hq6).
  assert (Hi6 : idle_run c w1 w6) by (trans w5; [done|]; apply softs_idle; [done|apply Hpub]).
  destruct (negb (rc_ok rc)); [apply Hsome; trans w6; [done|by apply release_and_fail_idle]|].
  assert (H26 : calm c w2 w6) by (trans w3; [done|]; trans w4; [done|]; by trans w5).
  set (w7 := if negb _ then call c _ w6 else w6).
  assert (H27 : calm c w2 w7) by (trans w6; [done|]; unfold w7; case_match; [apply calm_call|done]).
  clearbody w7. clear dependent w3 w4 w5 w6.
  destruct (calm_idle_owned c si w2 w7 H27 Hwf2 Ho2 Hq2) as (Hwf7 & Ho7 & Hq7).
  assert (Hw7 : ph_wave (ph (cx w7 c)) = wave).
  { destruct H27 as (_ & _ & -> & _). unfold cx. rewrite Er2. done. }
  assert (Hcount : ngx_http_waf_wave_count conf c (cx w7 c) = ngx_http_waf_wave_count conf c (cx w c)).
  { apply wave_count_evolves. trans (cx w1 c); [done|]. trans (cx w2 c); [unfold cx; by rewrite Er2|].
    by apply (softs_tab c w2 w7 (proj1 H27)). }
  apply (Hgo w7); [by apply softs_steps, H27|done|]. split.
  - apply wave_published_spec; [done|done|done|]. intros w' Hw' Hq'. by apply IH.
  - intros Hfuel. destruct (ngx_http_waf_wave_closed (sl w7 si)); [|by eexists]. cbn zeta.
    pose proof (calm_rewrite c (got (sl w7 si)) w7) as Hrw. set (w8 := on_ctx c _ w7) in *.
    destruct (calm_idle_owned c si w7 w8 Hrw Hwf7 Ho7 Hq7) as (Hwf8 & Ho8 & Hq8).
    destruct (ngx_http_waf_wave_advances conf c (cx w8 c) (sl w8 si)) eqn:Ea; [|by eexists].
    destruct (release_owned w8 si c Hwf8 Ho8) as (Hwf9 & _).
    assert (Hc8 : ngx_http_waf_wave_count conf c (cx w8 c) = ngx_http_waf_wave_count conf c (cx w c)).
    { rewrite <- Hcount. apply wave_count_evolves. by apply (softs_tab c w7 w8 (proj1 Hrw)). }
    assert (Hw8 : ph_wave (ph (cx w8 c)) = wave) by (destruct Hrw as (_ & _ & -> & _); done).
    unfold ngx_http_waf_wave_advances in Ea. rewrite Hw8, Hc8 in Ea.
    destruct (Z.leb_spec (ngx_http_waf_wave_count conf c (cx w c)) (wave + 1)); [done|].
    apply (IH (wave + 1) _ Hwf9 Hq8); [lia|].
    change (ngx_http_waf_wave_count conf c (cx w8 c) - (wave + 1) <= Z.of_nat fuel). lia.
Qed.

(** ** Entries into the handler *)

Lemma wave_start_fine e c wave w :
  wf w.(wd_tab) -> q_waiting (rq w c) = false ->
  fine c w (snd (ngx_http_waf_wave_start conf inspectors crc32 cond_test e c wave w)).
Proof.
  intros Hwf Hq. unfold ngx_http_waf_wave_start.
  destruct (wave_start_spec (wave_fuel conf c wave w) e c wave w Hwf Hq) as [Hs _].
  destruct (wave_start _ _ _ _ _ _ _ _ _) as [[rc w']|]; [done|].
  split; [apply rtc_refl|by apply idle_parked].
Qed.

Lemma finish_idle e c how w : wf w.(wd_tab) -> idle_run c w (snd (ngx_http_waf_finish e c how w)).
Proof. intros Hwf. by apply finish_spec. Qed.

Lemma guard_idle e c w :
  wf w.(wd_tab) ->
  idle_run c w (snd (ngx_http_waf_handshake_guard require_upgrade require_upgrade_response e c w)).
Proof.
  intros Hwf. unfold ngx_http_waf_handshake_guard.
  repeat case_match; try done; by apply local_deny_spec.
Qed.
Lemma local_checks_idle e c w : wf w.(wd_tab) -> idle_run c w (snd (ngx_http_waf_local_checks e c w)).
Proof.
  intros Hwf. unfold ngx_http_waf_local_checks. destruct (e_shm e); cbn [negb snd]; [|reflexivity].
  assert (Hr : idle_run c w (snd (if bool_decide (e_rate e = NGX_DECLINED)
    then ngx_http_waf_local_deny e c (e_rate_rule e).1 (e_rate_rule e).2 CODE_LOCAL_RATE w
    else (RC NGX_DECLINED, w)))) by (case_match; [by apply local_deny_spec|reflexivity]).
  destruct (e_dataset e); [|by apply local_deny_spec|exact Hr|cbn [snd]; reflexivity|exact Hr].
  cbn zeta. set (w1 := on_ctx c _ w).
  assert (H1 : idle_run c w w1).
  { apply softs_idle; [done|]. apply softs_ctx. etrans; [|apply evolves_state]. by apply evolves_on_ph. }
  trans w1; [done|]. apply finish_idle. by eapply idle_wf.
Qed.

Lemma fine_after c w w1 w2 : idle_run c w w1 -> fine c w1 w2 -> fine c w w2.
Proof. intros [Hs _] [Ht Hp]. split; [by etrans|done]. Qed.

Lemma make_ctx_idle e c w :
  wf w.(wd_tab) -> w.(wd_reqs) !! c = None ->
  (the_link w.(wd_tab) c).(c_slot) = NGX_HTTP_WAF_SLOT_NIL ->
  idle_run c w (make_ctx e c w) /\ q_waiting (rq (make_ctx e c w) c) = false.
Proof.
  intros Hwf Hn Hl. assert (Hrq : rq w c = req0) by (unfold rq; by rewrite Hn). unfold make_ctx.
  set (w1 := on_rq c _ w).
  assert (H1 : idle_run c w w1).
  { apply softs_idle; [done|]. apply rtc_once, soft_rq; [|by rewrite Hrq]. unfold cx. rewrite Hrq. by apply evolves_keeps. }
  split; [|rewrite rq_on_tab; unfold w1; by rewrite rq_on_rq_eq].
  trans w1; [done|]. apply idle_rq; [by apply rtc_once, step_nil|done].
Qed.

Lemma access_made_fine e c w :
  wf w.(wd_tab) -> q_waiting (rq w c) = false ->
  fine c w (snd (access_made conf inspectors crc32 require_upgrade require_upgrade_response cond_test e c w)).
Proof.
  intros Hwf Hq. unfold access_made.
  destruct (e_ctx_set e); cbn [negb]; [|split; [apply rtc_refl|by apply idle_parked]].
  pose proof (guard_idle e c w Hwf) as Hg. destruct (ngx_http_waf_handshake_guard _ _ _ _ _) as [rc w3]. cbn in Hg.
  case_match; [by apply idle_fine|].
  pose proof (idle_wf _ _ _ Hg Hwf) as Hwf3. pose proof (proj2 Hg Hq) as Hq3. eapply fine_after; [exact Hg|].
  pose proof (local_checks_idle e c w3 Hwf3) as Hk. destruct (ngx_http_waf_local_checks _ _ _) as [rc' w4]. cbn in Hk.
  case_match; [by apply idle_fine|].
  pose proof (idle_wf _ _ _ Hk Hwf3) as Hwf4. pose proof (proj2 Hk Hq3) as Hq4. eapply fine_after; [exact Hk|].
  destruct (if _ =? 0 then (false, w4) else _) as [pending w5] eqn:Ep.
  assert (H5 : idle_run c w4 w5).
  { destruct (_ =? 0); [by simplify_eq|]. pose proof (evolves_waves_pending c (cx w4 c)) as He.
    destruct (ngx_http_waf_waves_pending _ _ _ _) as [p x]. simplify_eq. apply softs_idle; [done|by apply softs_ctx]. }
  pose proof (idle_wf _ _ _ H5 Hwf4) as Hwf5. pose proof (proj2 H5 Hq4) as Hq5. eapply fine_after; [exact H5|].
  destruct pending; cbn [negb]; [by apply wave_start_fine|]. apply idle_fine; [|done].
  assert (Hd : idle_run c w5 (on_ctx c (set_state ST_DONE) w5)) by (apply softs_idle; [done|apply softs_state]).
  etrans; [exact Hd|]. apply finish_idle. by eapply idle_wf.
Qed.

(** Nothing takes the context of a request away. *)
Lemma steps_exists c w w' : steps c w w' -> is_Some (w.(wd_reqs) !! c) -> is_Some (w'.(wd_reqs) !! c).
Proof.
  induction 1 as [|x y z Hs _ IH]; [done|]. intros Hx. apply IH.
  destruct Hs as [x y [f v _ _|z' v|b v|si f v _ _]|b v|si v _|wv now cln v _|f v _ _]; try done;
    cbn; rewrite lookup_insert_eq; by eexists.
Qed.

Lemma access_new_fine e c w :
  wf w.(wd_tab) -> w.(wd_reqs) !! c = None ->
  (the_link w.(wd_tab) c).(c_slot) = NGX_HTTP_WAF_SLOT_NIL ->
  let w' := snd (access_new conf inspectors crc32 require_upgrade require_upgrade_response cond_test e c w) in
  fine c w w' /\ (is_Some (w'.(wd_reqs) !! c) \/ w' = w).
Proof.
  intros Hwf Hn Hl. cbn zeta. unfold access_new. destruct (e_ctx_alloc e); cbn [negb snd]; last first.
  { split; [|by right]. split; [apply rtc_refl|apply idle_parked]. unfold rq. by rewrite Hn. }
  destruct (make_ctx_idle e c w Hwf Hn Hl) as [Hi Hq]. pose proof (idle_wf _ _ _ Hi Hwf) as Hwf1.
  assert (Hf : fine c (make_ctx e c w) (snd (access_made conf inspectors crc32 require_upgrade
    require_upgrade_response cond_test e c (make_ctx e c w)))) by (by apply access_made_fine).
  split; [by eapply fine_after|]. left. eapply steps_exists; [apply Hf|].
  cbn. rewrite lookup_insert_eq. by eexists.
Qed.

Lemma access_fine e main c w :
  wf w.(wd_tab) -> parked c w ->
  (w.(wd_reqs) !! c = None -> (the_link w.(wd_tab) c).(c_slot) = NGX_HTTP_WAF_SLOT_NIL) ->
  let w' := snd (ngx_http_waf_access conf inspectors crc32 require_upgrade require_upgrade_response cond_test e main c w) in
  fine c w w' /\ (is_Some (w'.(wd_reqs) !! c) \/ w' = w).
Proof.
  intros Hwf Hk Hnew. cbn zeta. unfold ngx_http_waf_access.
  assert (Hid : fine c w w /\ (is_Some (w.(wd_reqs) !! c) \/ w = w)) by (by split; [split; [apply rtc_refl|]|right]).
  destruct main; cbn [negb]; [|exact Hid]. destruct (lc_enable (conf c)); cbn [negb]; [|exact Hid].
  destruct (wd_reqs w !! c) as [q|] eqn:Eq; [|by apply access_new_fine; auto].
  assert (Hq : q = rq w c) by (unfold rq; by rewrite Eq). rewrite Hq.
  change (q_ctx (rq w c)) with (cx w c).
  assert (Hx : forall w', fine c w w' -> fine c w w' /\ (is_Some (w'.(wd_reqs) !! c) \/ w' = w)).
  { intros w' Hf. split; [done|]. left. eapply steps_exists; [apply Hf|]. rewrite Eq. by eexists. }
  destruct (decide (c_state (cx w c) = ST_WAITING)) as [Hs|Hs]; [rewrite Hs; apply Hx, Hid|].
  assert (Hidle : q_waiting (rq w c) = false).
  { destruct (q_waiting (rq w c)) eqn:E; [|done]. by destruct (proj1 Hk E). }
  assert (Happ : fine c w (snd (ngx_http_waf_phase_apply conf e c w))).
  { apply idle_fine; [by apply phase_apply_spec|done]. }
  apply Hx. destruct (c_state (cx w c)); try (exact Happ); try (apply Hid).
  - apply idle_fine; [|done]. apply softs_idle; [done|apply softs_need_body].
  - apply idle_fine; [|done]. apply softs_idle; [done|apply softs_state].
  - apply idle_fine; [|done]. apply softs_idle; [done|apply softs_finish_done].
  - by apply wave_start_fine.
Qed.

Lemma body_resumed_fine c rc w :
  wf w.(wd_tab) -> (cx w c).(c_phase) = PHASE_REQUEST -> parked c w ->
  fine c w (ngx_http_waf_body_resumed c rc w).
Proof.
  intros Hwf Hp Hk. unfold ngx_http_waf_body_resumed.
  assert (Hid : fine c w w) by (by split; [apply rtc_refl|]).
  set (r := if ph_agent_after_body _ then _ else _).
  assert (Hr : fine c w r); [|by destruct (c_state (cx w c))]. unfold r.
  destruct (ph_agent_after_body _).
  { apply return_fine; [done|done|]. apply softs_steps, softs_ctx. etrans; [|apply evolves_state]. by apply evolves_on_ph. }
  cbn zeta. apply return_fine; [done|done|]. destruct (negb (rc_ok rc)); [|apply softs_steps, softs_state].
  destruct (slot_drop_spec c w Hwf) as (Hs & _ & _). etrans; [exact Hs|].
  apply softs_steps, softs_ctx. etrans; [|apply evolves_state]. by apply evolves_fail.
Qed.

Lemma body_ready_fine c w :
  wf w.(wd_tab) -> (cx w c).(c_phase) = PHASE_REQUEST -> parked c w -> fine c w (ngx_http_waf_body_ready c w).
Proof.
  intros Hwf Hp Hk. unfold ngx_http_waf_body_ready. destruct (wd_reqs w !! c); [|by split; [apply rtc_refl|]].
  cbn zeta. set (w1 := on_ctx c _ w). assert (H1 : calm c w w1) by (by apply calm_on_ph).
  destruct (softs_tab c w w1 (proj1 H1) Hwf) as (Hwf1 & _ & _ & _ & _ & He). eapply fine_calm; [exact H1|].
  apply body_resumed_fine; [done|by rewrite (ev_phase _ _ _ He)|by eapply calm_parked].
Qed.

Lemma form_resumed_fine c w :
  wf w.(wd_tab) -> (cx w c).(c_phase) = PHASE_REQUEST -> parked c w -> fine c w (ngx_http_waf_form_resumed c w).
Proof.
  intros Hwf Hp Hk. unfold ngx_http_waf_form_resumed. case_match; [by split; [apply rtc_refl|]|].
  apply return_fine; [done|done|]. apply softs_steps, softs_state.
Qed.

Lemma bus_absent_fine e c si rid i w :
  ngx_http_waf_slot_lookup rid w.(wd_tab) = Some si -> ready c si w -> ticking c w ->
  fine c w (ngx_http_waf_bus_absent conf inspectors e rid i w).
Proof.
  intros Hl Hr Ht. unfold ngx_http_waf_bus_absent. rewrite Hl.
  assert (Ho : (sl w si).(sctx) = Some c) by (apply (rd_owned _ _ _ Hr)). rewrite Ho.
  case_match; [by apply (calm_fine c si)|]. case_match; [by apply skip_fine|].
  set (w1 := on_ctx c _ w). assert (H1 : calm c w w1) by (by apply calm_on_ph). calm_step H1. clearbody w1.
  destruct (ngx_http_waf_binding_find _ _ _) as [b|]; [|by apply skip_fine].
  case_match; [by apply skip_fine|]. case_match; [by apply skip_fine|]. cbn zeta.
  calm_step (calm_call c (CALL_PUBLISH i false) w1).
  case_match; [by apply skip_fine|by apply (calm_fine c si)].
Qed.

(** ** The worker as a transition system *)

(** What holds of every request of a worker between events; one that is gone
    has neither a slot nor a timer left that would come back to its memory. *)
Record req_inv (w : world) (c : Z) : Prop := {
  ri_phase : (cx w c).(c_phase) = PHASE_REQUEST;
  ri_parked : parked c w;
  ri_bags : bag_wf (conf c) (cx w c);
  ri_versions : versions_wf (ph (cx w c));
  ri_absent : w.(wd_reqs) !! c = None -> unbound c w
}.
Definition world_inv (w : world) : Prop := wf w.(wd_tab) /\ forall c, req_inv w c.

(** The request ends: its pool is destroyed, which runs
    [ngx_http_waf_slot_detach]. *)
Definition close_request (c : Z) (w : world) : world :=
  on_tab (ngx_http_waf_slot_detach c) w <| wd_reqs ::= delete c |>.

(** The events of one worker, each labelled with the request it is for; the
    replies are those [ngx_http_waf_msg_reply] accepted, whose score is within
    the range of one reply. *)
Inductive event : Z -> world -> world -> Prop :=
  | ev_access e main c w :
      event c w (snd (ngx_http_waf_access conf inspectors crc32 require_upgrade
                        require_upgrade_response cond_test e main c w))
  | ev_reply e rid si i reply c w :
      ngx_http_waf_slot_lookup rid w.(wd_tab) = Some si -> (sl w si).(sctx) = Some c ->
      match reply with Some r => reply_ok r | None => True end ->
      event c w (ngx_http_waf_bus_dispatch conf inspectors crc32 e rid i reply w)
  | ev_stale e rid i reply c w :
      ngx_http_waf_slot_lookup rid w.(wd_tab) = None ->
      event c w (ngx_http_waf_bus_dispatch conf inspectors crc32 e rid i reply w)
  | ev_no_responders e rid si i c w :
      ngx_http_waf_slot_lookup rid w.(wd_tab) = Some si -> (sl w si).(sctx) = Some c ->
      event c w (ngx_http_waf_bus_absent conf inspectors e rid i w)
  | ev_deadline e c w :
      is_Some (w.(wd_reqs) !! c) -> event c w (ngx_http_waf_on_deadline conf inspectors crc32 e c w)
  | ev_body_ready c w :
      is_Some (w.(wd_reqs) !! c) -> event c w (ngx_http_waf_body_ready c w)
  | ev_body_resumed rc c w :
      is_Some (w.(wd_reqs) !! c) -> event c w (ngx_http_waf_body_resumed c rc w)
  | ev_form c w :
      is_Some (w.(wd_reqs) !! c) -> event c w (ngx_http_waf_form_resumed c w)
  | ev_close c w : event c w (close_request c w).

Inductive events : world -> world -> Prop :=
  | events_nil w : events w w
  | events_cons c w1 w2 w3 : event c w1 w2 -> events w2 w3 -> events w1 w3.

Lemma lookup_in_range rid t si :
  ngx_http_waf_slot_lookup rid t = Some si -> si < t.(tbl).(nslots).
Proof.
  unfold ngx_http_waf_slot_lookup. intros H. repeat case_match; simplify_eq. lia.
Qed.
Lemma owner_ready w rid si c :
  world_inv w -> ngx_http_waf_slot_lookup rid w.(wd_tab) = Some si -> (sl w si).(sctx) = Some c -> ready c si w /\ ticking c w.
Proof.
  intros [Hwf Hr] Hl Hs. destruct (Hr c). split; [|apply ri_parked0]. constructor; try done; [apply ri_parked0|]. split; [|done].
  split; [|by eapply lookup_in_range].
  destruct (Z.le_gt_cases 0 si); [done|]. unfold sl, the_slot, aget in Hs.
  by destruct (Z.ltb_spec si 0); [|lia].
Qed.
Lemma owner_exists w si c : world_inv w -> owned w si c -> is_Some (w.(wd_reqs) !! c).
Proof.
  intros [Hwf Hr] [Hi Ho]. destruct (wd_reqs w !! c) eqn:E; [by eexists|].
  destruct (ri_absent _ _ (Hr c) E) as [Hn _]. destruct (wf_owner _ Hwf si c Hi Ho) as (_ & Hl & _).
  exfalso. apply (nil_not_index _ si Hwf Hi). congruence.
Qed.

(** A fine run of an existing request keeps the invariant. *)
Lemma fine_inv c w w' :
  world_inv w -> fine c w w' -> is_Some (w'.(wd_reqs) !! c) \/ w' = w -> world_inv w'.
Proof.
  intros [Hwf Hr] [Hs Hp] [He|He]; [|by subst]. destruct (steps_wf_isolated c w w' Hs Hwf) as [Hwf' Hi].
  pose proof (steps_evolves c w w' Hs Hwf) as Hev. split; [done|]. intros d.
  destruct (decide (d = c)) as [->|Hne].
  - destruct (Hr c), Hev. constructor; auto; [congruence|]. intros Hn. rewrite Hn in He. by destruct He.
  - destruct (Hr d), Hi. assert (Hrq : rq w' d = rq w d) by (unfold rq; by rewrite iso_rq0).
    assert (Hcx : cx w' d = cx w d) by (unfold cx; by rewrite Hrq).
    constructor; rewrite ?Hcx; auto; [|unfold unbound; rewrite iso_rq0, iso_link0 by done; auto].
    unfold parked, placed, ticking, armed. rewrite Hrq, Hcx, iso_link0 by done. auto.
Qed.

Lemma detach_isolated c w :
  wf w.(wd_tab) ->
  let w' := on_tab (ngx_http_waf_slot_detach c) w in
  isolated c w w' /\ unbound c w'.
Proof.
  intros Hwf. cbn zeta. unfold ngx_http_waf_slot_detach, on_tab. cbn [upd].
  set (t1 := if c_timer_set _ then _ else _). set (w1 := w <| wd_tab := t1 |>).
  assert (H1 : softs c w w1).
  { unfold w1, t1. case_match; [apply rtc_once, (soft_timer c false)|]. destruct w. apply rtc_refl. }
  destruct (softs_tab c w w1 H1 Hwf) as (Hwf1 & _ & _ & Hl1 & _).
  assert (Hi1 : isolated c w w1) by (by apply steps_wf_isolated; [apply softs_steps|]).
  assert (Ht1 : c_timer_set (the_link (wd_tab w1) c) = false).
  { unfold w1, t1. cbn. destruct (c_timer_set (the_link (wd_tab w) c)) eqn:E; [by rewrite the_link_set_link_eq|done]. }
  change t1 with w1.(wd_tab). clearbody w1. clear t1 H1 Hl1.
  destruct (wf_link _ Hwf1 c) as [Hn|[Hi Hs]].
  - pose proof (wf_bound _ Hwf1) as Hb. rewrite Hn.
    replace (nslots (tbl (wd_tab w1)) <=? NGX_HTTP_WAF_SLOT_NIL) with true
      by (unfold NGX_HTTP_WAF_SLOT_INDEX_MASK, NGX_HTTP_WAF_SLOT_NIL in *; lia).
    split; [|by split]. destruct Hi1. by constructor.
  - set (si := c_slot (the_link (wd_tab w1) c)) in *.
    replace (nslots (tbl (wd_tab w1)) <=? si) with false by lia.
    destruct (wf_owner _ Hwf1 si c Hi Hs) as (_ & _ & Hr). rewrite Hr, rid_of_gen, Z.eqb_refl; cycle 1.
    { by apply wf_gen. }
    { pose proof (wf_bound _ Hwf1). lia. }
    destruct (release_owned w1 si c Hwf1 (conj Hi Hs)) as (Hwf2 & Hi2 & Hl2).
    split; [|split; cbn; rewrite the_link_set_link_eq; [done|cbn; by rewrite release_timer]].
    destruct Hi1 as [A1 A2 A3], Hi2 as [B1 B2 B3]. constructor.
    + intros d Hd. done.
    + intros d Hd. cbn. rewrite the_link_set_link_ne by done. change (the_link (ngx_http_waf_slot_release si (wd_tab w1)) d)
        with (the_link (wd_tab (on_tab (ngx_http_waf_slot_release si) w1)) d). by rewrite B2, A2.
    + intros sj d Hd Hsj. change (sl (on_tab (ngx_http_waf_slot_release si) w1) sj = sl w sj).
      rewrite (B3 sj d Hd); [by apply (A3 sj d Hd)|]. by rewrite (A3 sj d Hd).
Qed.

Lemma bag_wf0 c p : 0 <= (conf c).(lc_actions_max) -> bag_wf (conf c) (ctx0 p).
Proof.
  intros H. constructor.
  - by apply keyed_nil.
  - apply keyed_nil. unfold NGX_HTTP_WAF_SESSIONS_MAX. lia.
  - apply keyed_nil. unfold NGX_HTTP_WAF_MARKERS_MAX. lia.
  - cbn. lia.
  - intros i. unfold get_reply, aget, NGX_HTTP_WAF_SCORE_MAX. cbn. destruct (i <? 0), (Z.to_nat i); cbn; lia.
Qed.

Section invariant.
(** [waf_actions_max] is an [ngx_uint_t]. *)
Hypothesis actions_max_unsigned : forall c, 0 <= (conf c).(lc_actions_max).

Lemma absent_inv c w : w.(wd_reqs) !! c = None -> unbound c w -> req_inv w c.
Proof.
  intros Hn Hl. assert (Hrq : rq w c = req0) by (unfold rq; by rewrite Hn).
  constructor; unfold cx; rewrite ?Hrq; try done; [apply idle_parked; by rewrite Hrq|by apply bag_wf0].
Qed.

(** An event runs steps of its request, or ends it. *)
Lemma event_fine c w w' :
  event c w w' -> world_inv w ->
  fine c w w' /\ (is_Some (w'.(wd_reqs) !! c) \/ w' = w) \/ w' = close_request c w.
Proof.
  intros Hev Hw. pose proof Hw as [Hwf Hr].
  assert (Hlive : forall w1, is_Some (w.(wd_reqs) !! c) -> fine c w w1 ->
    fine c w w1 /\ (is_Some (w1.(wd_reqs) !! c) \/ w1 = w) \/ w1 = close_request c w).
  { intros w1 He Hf. left. split; [done|]. left. eapply steps_exists; [apply Hf|done]. }
  destruct Hev as [e main c w|e rid si i reply c w Hl Ho Hok|e rid i reply c w Hl|e rid si i c w Hl Ho
    |e c w He|c w He|rc c w He|c w He|c w]; destruct (Hr c).
  - left. apply access_fine; [done|done|]. intros Hn. by apply ri_absent0.
  - destruct (owner_ready w rid si c Hw Hl Ho) as [Hrd Htk].
    assert (Hex : is_Some (wd_reqs w !! c)) by (eapply owner_exists; [done|apply Hrd]).
    apply Hlive; [done|]. unfold ngx_http_waf_bus_dispatch. rewrite Hl, Ho.
    destruct (_ <=? i); [by apply (calm_fine c si)|].
    destruct reply; [by apply on_reply_fine|by apply (calm_fine c si)].
  - unfold ngx_http_waf_bus_dispatch. rewrite Hl. left. split; [by split; [apply rtc_refl|]|by right].
  - destruct (owner_ready w rid si c Hw Hl Ho) as [Hrd Htk].
    assert (Hex : is_Some (wd_reqs w !! c)) by (eapply owner_exists; [done|apply Hrd]).
    apply Hlive; [done|]. by apply (bus_absent_fine e c si).
  - apply Hlive; [done|]. by apply on_deadline_fine.
  - apply Hlive; [done|]. by apply body_ready_fine.
  - apply Hlive; [done|]. by apply body_resumed_fine.
  - apply Hlive; [done|]. by apply form_resumed_fine.
  - by right.
Qed.

Lemma close_isolated_inv c w : world_inv w -> world_inv (close_request c w) /\ isolated c w (close_request c w).
Proof.
  intros [Hwf Hr]. destruct (detach_isolated c w Hwf) as [[I1 I2 I3] Hn].
  assert (Hiso : isolated c w (close_request c w)).
  { constructor; [|done|done]. intros d Hd. cbn. by rewrite lookup_delete_ne. }
  split; [|done]. split; [cbn; by apply detach_wf|]. intros d. destruct (decide (d = c)) as [->|Hne].
  - apply absent_inv; [cbn; by rewrite lookup_delete_eq|done].
  - destruct (Hr d), Hiso as [J1 J2 J3].
    assert (Hrq : rq (close_request c w) d = rq w d) by (unfold rq; by rewrite J1).
    assert (Hcx : cx (close_request c w) d = cx w d) by (unfold cx; by rewrite Hrq).
    constructor; rewrite ?Hcx; auto; [|unfold unbound; rewrite J1, J2 by done; auto].
    unfold parked, placed, ticking, armed. rewrite Hrq, Hcx, J2 by done. auto.
Qed.

Lemma event_isolated_inv c w w' : event c w w' -> world_inv w -> world_inv w' /\ isolated c w w'.
Proof.
  intros Hev Hw. destruct (event_fine c w w' Hev Hw) as [[Hf He]| ->]; [|by apply close_isolated_inv].
  split; [by eapply fine_inv|]. apply steps_wf_isolated; [apply Hf|apply Hw].
Qed.

(** C1: from the start of a worker, whatever events arrive in whatever order,
    its slot table stays exact; every waiting request holds a slot that its
    request id finds and has its deadline armed; a context that is gone holds
    neither a slot nor a timer; and every request stays within the bounds on
    actions, sessions, markers, score and body versions. *)
Theorem worker_invariant n rnd pid mem seeded t z w :
  0 <= n -> ngx_http_waf_slot_table_init n rnd pid mem seeded = (NGX_OK, Some t) ->
  events (mkWorld (mkWorker t ∅) z ∅) w -> world_inv w.
Proof.
  intros Hn Hi Hev. apply slot_table_init_wf in Hi; [|done].
  assert (H0 : world_inv (mkWorld (mkWorker t ∅) z ∅)).
  { split; [done|]. intros c. by apply absent_inv. }
  revert H0. induction Hev as [|c w1 w2 w3 He _ IH]; [done|]. intros H1. apply IH.
  by apply (event_isolated_inv c w1 w2).
Qed.

(** C18: an event of one request changes nothing of another: its context, its
    request id, its deadline and the slot it holds are left as they are. *)
Theorem requests_isolated c d si w w' :
  world_inv w -> event c w w' -> d <> c ->
  w'.(wd_reqs) !! d = w.(wd_reqs) !! d /\ the_link w'.(wd_tab) d = the_link w.(wd_tab) d /\
  ((sl w si).(sctx) = Some d -> sl w' si = sl w si).
Proof.
  intros Hw Hev Hd. destruct (event_isolated_inv c w w' Hev Hw) as [_ []]. split_and!; auto.
  intros Hs. by apply (iso_slot0 si d).
Qed.

End invariant.

End facts.

(** ** A worker with two slots *)

Definition demo_conf : Z -> loc_conf unit := fun _ => demo_lc.
Definition demo_inspectors : list inspector_t :=
  [mkInspector (lit "a") (lit "waf.a") [] 0 false 0 0 0; mkInspector (lit "b") (lit "waf.b") [] 1 false 0 0 0;
   mkInspector (lit "c") (lit "waf.c") [] 2 false 0 0 0].
Definition demo_ext (now : Z) : ext :=
  mkExt now true NGX_OK NGX_OK None true (fun _ => false) (fun _ => true) (fun _ => true) (fun _ => true)
    (RC NGX_OK) (RC NGX_OK) false false false (RC NGX_DECLINED) (RC NGX_DECLINED) 503 (RC NGX_OK)
    true true None true NGX_DECLINED ([], []) NGX_OK ([], []) [].
Definition demo_table : slot_table :=
  default (mkTable [] 0 0 0) (snd (ngx_http_waf_slot_table_init 2 5 9 true true)).
Definition demo_w0 : world := mkWorld (mkWorker demo_table ∅) None ∅.
Definition demo_access (now : Z) : world -> world :=
  fun w => snd (ngx_http_waf_access demo_conf demo_inspectors zlen (fun _ => false) (fun _ => [])
                  (fun _ _ => true) (demo_ext now) true 7 w).
(** Request 7 has published its first wave and waits. *)
Definition demo_w1 : world := demo_access 1000 demo_w0.

Definition demo_event := event demo_conf demo_inspectors zlen (fun _ => false) (fun _ => []) (fun _ _ => true).

Lemma demo_inv0 : world_inv demo_conf demo_w0.
Proof.
  split; [by apply (slot_table_init_wf 2 5 9 true true); [lia|]|].
  intros c. apply absent_inv; [|done|done]. intros. cbn. lia.
Qed.
Lemma demo_inv1 : world_inv demo_conf demo_w1.
Proof.
  eapply (event_isolated_inv demo_conf demo_inspectors zlen (fun _ => false) (fun _ => []) (fun _ _ => true)).
  - intros. cbn. lia.
  - apply ev_access.
  - apply demo_inv0.
Qed.

Lemma worker_invariant_witness : q_waiting (rq demo_w1 7) = true /\ world_inv demo_conf demo_w1.
Proof.
  split; [vm_compute; reflexivity|].
  apply (worker_invariant demo_conf demo_inspectors zlen (fun _ => false) (fun _ => []) (fun _ _ => true)
           ltac:(intros; cbn; lia) 2 5 9 true true demo_table None demo_w1).
  - lia.
  - reflexivity.
  - eapply events_cons; [apply (ev_access _ _ _ _ _ _ (demo_ext 1000) true 7 demo_w0)|apply events_nil].
Defined.

(** Request 8 enters; request 7 keeps its slot. *)
Lemma requests_isolated_witness :
  let w' := snd (ngx_http_waf_access demo_conf demo_inspectors zlen (fun _ => false) (fun _ => [])
                   (fun _ _ => true) (demo_ext 1001) true 8 demo_w1) in
  q_waiting (rq w' 8) = true /\ sl w' 0 = sl demo_w1 0.
Proof.
  split; [vm_compute; reflexivity|].
  apply (requests_isolated demo_conf demo_inspectors zlen (fun _ => false) (fun _ => []) (fun _ _ => true)
           ltac:(intros; cbn; lia) 8 7 0 demo_w1); [apply demo_inv1|apply ev_access|lia|].
  vm_compute. reflexivity.
Defined.

End HandlerFacts.
