(* ===== verification/HandlerSafety.v ===== *)
(** What the handler promises to a request: it is let through only for a
    reason, a failure blocks unless the configuration passes it, a missed
    deadline is a failure, a reply counts once, the deadline covers every
    awaited inspector, waves end, body versions form a chain, and a finished
    request holds nothing. *)
From stdpp Require Import gmap relations.
From S2P Require Import Prelude Types Masks Slots Graph Verdict Breaker Handler HandlerFacts.
#[local] Open Scope Z_scope.

Module HandlerSafety.
Import Masks Rid Table Graph Names Verdict Breaker Handler HandlerFacts.

Section safety.
Context {cond : Type}.
Context (conf : Z -> loc_conf cond) (inspectors : list inspector_t) (crc32 : bytes -> Z).
Context (require_upgrade : Z -> bool) (require_upgrade_response : Z -> bytes).
Context (cond_test : Z -> list cond -> bool).
Abbreviation ninsp := (Handler.ninsp inspectors).

(** Goals that compare constants of the state enumeration. *)
Ltac by_state :=
  change (ST_DENY ==? ST_FAILED) with false; change (ST_REDIRECT ==? ST_FAILED) with false;
  change (ST_ALLOW ==? ST_FAILED) with false; change (ST_FAILED ==? ST_FAILED) with true;
  cbn [negb orb]; intuition congruence.

Lemma ninsp_nonneg : 0 <= ninsp.
Proof. apply zlen_nonneg. Qed.

(** ** Why a request is let through *)

(** Resolution and [policy pass] together, as [conclude] runs them. *)
Definition decided (c : Z) (x : ctx_t) : ctx_t :=
  ngx_http_waf_fail_pass conf c (ngx_http_waf_resolve_verdict (conf c) ninsp x).

(** The resolution as a table. *)
Lemma resolve_table c x :
  let x' := ngx_http_waf_resolve_verdict (conf c) ninsp x in
  x'.(c_phase) = x.(c_phase) /\ (ph x').(ph_fail) = (ph x).(ph_fail) /\
  (ph x').(ph_body_policy) = (ph x).(ph_body_policy) /\
  x'.(c_state) =
    match ngx_http_waf_pick (conf c) ninsp x V_DENY with
    | Some _ => ST_DENY
    | None =>
        let t := lc_score_deny (conf c) (c_phase x) in
        if (0 <? t) && (t <=? ph_score (ph x)) then ST_DENY
        else match ngx_http_waf_pick (conf c) ninsp x V_REDIRECT with
             | Some _ => ST_REDIRECT
             | None => if ph_fail (ph x) ==? CODE_NONE then ST_ALLOW else ST_FAILED
             end
    end.
Proof.
  unfold ngx_http_waf_resolve_verdict, ngx_http_waf_score_deny_at. cbn zeta.
  rewrite !pick_on_ph, !ph_on_ph by done. cbn.
  repeat case_match; unfold ph; cbn; rewrite !pset_eq; try (by split_and!); congruence.
Qed.

Lemma policy_resolve c x :
  ngx_http_waf_exception_policy conf c (ngx_http_waf_resolve_verdict (conf c) ninsp x) =
  ngx_http_waf_exception_policy conf c x.
Proof.
  destruct (resolve_table c x) as (Hp & Hf & Hb & _). unfold ngx_http_waf_exception_policy. by rewrite Hp, Hf, Hb.
Qed.

Lemma decided_state c x :
  c_state (decided c x) =
    let s := c_state (ngx_http_waf_resolve_verdict (conf c) ninsp x) in
    if negb (s ==? ST_FAILED) || negb ((ngx_http_waf_exception_policy conf c x).2 ==? POLICY_PASS)
    then s else ST_ALLOW.
Proof. unfold decided, ngx_http_waf_fail_pass. rewrite policy_resolve. by case_match. Qed.

(** C2: a concluded phase ends in the allowing state exactly when no gating
    inspector denied or redirected, the score stayed below the threshold, and
    either nothing failed or the policy for that failure is pass; it ends in
    the failed state exactly when nothing decided and the policy is not pass. *)
Theorem allowed_only_for_a_reason c x :
  (c_state (decided c x) = ST_ALLOW <->
   nobody ninsp x V_DENY /\ ~ score_denies (conf c) x /\ nobody ninsp x V_REDIRECT /\
   ((ph x).(ph_fail) = CODE_NONE \/ (ngx_http_waf_exception_policy conf c x).2 = POLICY_PASS)) /\
  (c_state (decided c x) = ST_FAILED <->
   nobody ninsp x V_DENY /\ ~ score_denies (conf c) x /\ nobody ninsp x V_REDIRECT /\
   (ph x).(ph_fail) <> CODE_NONE /\ (ngx_http_waf_exception_policy conf c x).2 <> POLICY_PASS).
Proof.
  rewrite decided_state. destruct (resolve_table c x) as (_ & _ & _ & ->). cbn zeta.
  pose proof (pick_correct (conf c) ninsp x V_DENY ninsp_nonneg) as Hd.
  pose proof (pick_correct (conf c) ninsp x V_REDIRECT ninsp_nonneg) as Hr.
  assert (Hex : forall v i, chosen (conf c) ninsp x v i -> ~ nobody ninsp x v).
  { intros v i (Hi & Hc & _) Hn. by apply (Hn i). }
  unfold score_denies. set (t := lc_score_deny (conf c) (c_phase x)).
  set (pol := (ngx_http_waf_exception_policy conf c x).2).
  destruct (ngx_http_waf_pick _ _ _ V_DENY) as [i|]; [apply Hex in Hd; by_state|].
  destruct ((0 <? t) && (t <=? ph_score (ph x))) eqn:Et.
  { assert (Hs : 0 < t <= ph_score (ph x)) by lia. by_state. }
  assert (Hs : ~ 0 < t <= ph_score (ph x)) by lia.
  destruct (ngx_http_waf_pick _ _ _ V_REDIRECT) as [i|]; [apply Hex in Hr; by_state|].
  destruct (bool_decide_reflect (ph_fail (ph x) = CODE_NONE)) as [Hf|Hf]; [by_state|].
  destruct (bool_decide_reflect (pol = POLICY_PASS)) as [Hp|Hp]; by_state.
Qed.

(** ** A failure blocks *)

(** Neither a timeout nor a failure of the body passes in the phase. *)
Definition blocks_late (c : Z) (x : ctx_t) : Prop :=
  (conf c).(lc_exception) x.(c_phase) EXC_TIMEOUT <> POLICY_PASS /\
  default ((conf c).(lc_exception) x.(c_phase) EXC_BODY) (ph x).(ph_body_policy) <> POLICY_PASS.

Lemma blocks_policy c x : blocks_late c x -> (ph x).(ph_fail) = CODE_FAIL_TIMEOUT \/ (ph x).(ph_fail) = CODE_FAIL_BODY ->
  (ngx_http_waf_exception_policy conf c x).2 <> POLICY_PASS.
Proof. intros [Ht Hb] Hf. unfold ngx_http_waf_exception_policy. by destruct Hf as [-> | ->]. Qed.

(** The versions of a body leave the failure as it is or replace it by one of
    the body. *)
Lemma rewrite_settle_fail mask x :
  (ph (ngx_http_waf_rewrite_settle inspectors mask x)).(ph_fail) = (ph x).(ph_fail) \/
  (ph (ngx_http_waf_rewrite_settle inspectors mask x)).(ph_fail) = CODE_FAIL_BODY.
Proof.
  unfold ngx_http_waf_rewrite_settle, fail_body, set_fail. destruct (ph_replies (ph x)); [|by left].
  destruct (rewrite_scan _ _ _) as [[found|]|]; [|by left|right; by rewrite ph_on_ph].
  case_match; [right; by rewrite ph_on_ph|]. destruct (ngx_http_waf_store_locator_live x); [|by left].
  unfold pool_alloc. destruct (alloc (c_mem x)) as [[] o]; cbn [negb]; [|right; by rewrite ph_on_ph].
  set (x1 := upd c_mem _ x). change (ph x) with (ph x1). clearbody x1.
  destruct (push_stale x1) as [r x2] eqn:Ep. apply push_stale_spec in Ep as (Hr & _ & _ & _ & (st & Hp) & _).
  destruct r; [destruct Hr as [|[= ->]]; [done|]; left|right]; by rewrite ph_on_ph, ?Hp.
Qed.

Lemma decided_blocks c x :
  (ph x).(ph_fail) <> CODE_NONE -> (ngx_http_waf_exception_policy conf c x).2 <> POLICY_PASS ->
  c_state (decided c x) = ST_DENY \/ c_state (decided c x) = ST_REDIRECT \/ c_state (decided c x) = ST_FAILED.
Proof.
  intros Hf Hp. rewrite decided_state. destruct (resolve_table c x) as (_ & _ & _ & ->). cbn zeta.
  rewrite (bool_decide_eq_false_2 _ Hf), (bool_decide_eq_false_2 _ Hp), orb_true_r.
  repeat case_match; auto.
Qed.

(** C3: once a failure was recorded for the phase of a request, no later
    event of any request takes it back, as long as the request lives. *)
Theorem failure_is_sticky c c0 w w' :
  world_inv conf w ->
  event conf inspectors crc32 require_upgrade require_upgrade_response cond_test c0 w w' ->
  is_Some (w'.(wd_reqs) !! c) ->
  (ph (cx w c)).(ph_fail) <> CODE_NONE -> (ph (cx w' c)).(ph_fail) <> CODE_NONE.
Proof.
  intros Hw Hev Hex Hf. destruct (event_fine _ _ _ _ _ _ _ _ _ Hev Hw) as [[[Hs _] _]| ->].
  - destruct (decide (c0 = c)) as [->|Hne].
    + by apply (ev_fail _ _ _ (steps_evolves _ _ _ _ Hs (proj1 Hw))).
    + destruct (steps_wf_isolated _ _ _ _ Hs (proj1 Hw)) as [_ [Hrq _ _]].
      unfold cx, rq. rewrite Hrq by done. exact Hf.
  - cbn in Hex. destruct (decide (c0 = c)) as [->|Hne]; [rewrite lookup_delete_eq in Hex; by destruct Hex|].
    unfold cx, rq. cbn. rewrite lookup_delete_ne by done. exact Hf.
Qed.

(** What a conclusion leaves of a request in its request phase. *)
Lemma conclude_spec c si w :
  wf w.(wd_tab) -> owned w si c -> (cx w c).(c_phase) = PHASE_REQUEST ->
  let w' := ngx_http_waf_conclude conf inspectors c si w in
  cx w' c = decided c (cx w c) /\ q_waiting (rq w' c) = false /\
  (the_link w'.(wd_tab) c).(c_slot) = NGX_HTTP_WAF_SLOT_NIL.
Proof.
  intros Hwf Ho Hp. cbn zeta. unfold ngx_http_waf_conclude, conclude_ctx. cbn zeta.
  pose proof (softs_stop conf c w) as Hst. set (w1 := ngx_http_waf_deadline_stop c w) in *.
  assert (Hcx : cx w1 c = cx w c) by (unfold w1, ngx_http_waf_deadline_stop; by case_match).
  destruct (softs_tab conf c w w1 Hst Hwf) as (Hwf1 & _).
  assert (Ho1 : owned w1 si c) by (eapply softs_owned; [apply Hst|done|done]).
  destruct (release_owned w1 si c Hwf1 Ho1) as (_ & _ & Hl). set (w2 := on_tab _ w1) in *.
  set (w4 := on_ctx c (ngx_http_waf_fail_pass conf c) (on_ctx c _ w2)).
  assert (H4 : cx w4 c = decided c (cx w c)).
  { unfold w4. rewrite !cx_on_ctx. change (cx w2 c) with (cx w1 c). by rewrite Hcx. }
  assert (Hp4 : c_phase (cx w4 c) = PHASE_REQUEST).
  { rewrite H4. unfold decided, ngx_http_waf_fail_pass. rewrite policy_resolve.
    destruct (resolve_table c (cx w c)) as (Hr & _). case_match; cbn; by rewrite Hr. }
  split_and!; [|by apply return_idle|].
  - rewrite <- H4. unfold ngx_http_waf_return_to_phases. rewrite Hp4. unfold cx, call. by rewrite !rq_on_rq_eq.
  - unfold ngx_http_waf_return_to_phases. rewrite Hp4. exact Hl.
Qed.

Lemma missing_bit got m i :
  is_u64 m -> 0 <= i < 64 -> Z.testbit m i = true -> Z.testbit got i = false -> (Z.land got m =? m) = false.
Proof.
  intros Hm Hi Ht Hg. apply Z.eqb_neq. intros He. apply (f_equal (fun z => Z.testbit z i)) in He.
  rewrite Z.land_spec, Ht, Hg in He. done.
Qed.

Lemma breaker_account_frame e mask t w :
  let w' := ngx_http_waf_breaker_account inspectors crc32 e mask t w in
  w'.(wd_tab) = w.(wd_tab) /\ w'.(wd_reqs) = w.(wd_reqs).
Proof.
  cbn zeta. unfold ngx_http_waf_breaker_account.
  apply (while_mask_preserves (fun v : world => v.(wd_tab) = w.(wd_tab) /\ v.(wd_reqs) = w.(wd_reqs))); [done|].
  intros i v Hv. by repeat case_match.
Qed.

(** C4: when the deadline of the phase passes while an inspector that must
    answer has not, and the policies of the phase pass neither a timeout nor a
    failure of the body, the request is not let through: it ends denied,
    redirected or failed, no longer waiting and without its slot.  The policy
    for the body matters because a body that two inspectors rewrote replaces
    the recorded timeout ([body_failure_hides_timeout]). *)
Theorem missed_deadline_blocks e c i wave w :
  wf w.(wd_tab) -> (cx w c).(c_phase) = PHASE_REQUEST -> parked c w -> q_waiting (rq w c) = true ->
  ngx_http_waf_current_wave conf c (cx w c) = Some wave ->
  0 <= i < 64 -> is_u64 (ngx_http_waf_wave_mandatory (cx w c) wave) ->
  Z.testbit (ngx_http_waf_wave_mandatory (cx w c) wave) i = true ->
  Z.testbit (sl w (the_link w.(wd_tab) c).(c_slot)).(got) i = false ->
  msec_diff (ph (cx w c)).(ph_due) e.(e_now) <= 0 -> blocks_late c (cx w c) ->
  let w' := ngx_http_waf_on_deadline conf inspectors crc32 e c w in
  (c_state (cx w' c) = ST_DENY \/ c_state (cx w' c) = ST_REDIRECT \/ c_state (cx w' c) = ST_FAILED) /\
  q_waiting (rq w' c) = false /\ (the_link w'.(wd_tab) c).(c_slot) = NGX_HTTP_WAF_SLOT_NIL.
Proof.
  intros Hwf Hp Hk Hq Hw Hi Hu Hm Hg Hdue Hb. destruct (proj1 Hk Hq) as [_ Hl]. cbn zeta.
  unfold ngx_http_waf_on_deadline. cbn zeta. set (w1 := on_tab _ w) in *.
  assert (Ht : softs conf c w w1) by apply rtc_once, soft_timer. destruct (softs_tab conf c w w1 Ht Hwf) as (Hwf1 & _ & _ & Hl1 & _).
  change (rq w1 c) with (rq w c). rewrite Hq. cbn [negb].
  assert (Hl1' : c_slot (the_link (wd_tab w1) c) <> NGX_HTTP_WAF_SLOT_NIL) by (by rewrite (proj1 (Hl1 c))).
  destruct (lookup_own c w1 Hwf1 Hl1') as [-> Ho1]. rewrite (proj1 (Hl1 c)) in *.
  set (si := c_slot (the_link (wd_tab w) c)) in *. change (cx w1 c) with (cx w c).
  replace (0 <? msec_diff (ph_due (ph (cx w c))) (e_now e)) with false by lia.
  unfold ngx_http_waf_fail. cbn zeta.
  pose proof (calm_breaker conf inspectors crc32 e c (Z.land (awaited (sl w1 si)) (bnot64 (got (sl w1 si)))) true w1) as Hc2.
  pose proof (breaker_account_frame e (Z.land (awaited (sl w1 si)) (bnot64 (got (sl w1 si)))) true w1) as [Ht2 Hr2].
  set (w2 := ngx_http_waf_breaker_account _ _ _ _ _ w1) in *.
  assert (Hcx2 : cx w2 c = cx w c) by (unfold cx, rq; by rewrite Hr2).
  assert (Hsl2 : sl w2 si = sl w si) by (unfold sl; by rewrite Ht2). rewrite Hcx2, Hsl2, Hw.
  rewrite (missing_bit _ _ i Hu Hi Hm Hg). set (w3 := on_ctx c (set_fail CODE_FAIL_TIMEOUT) w2).
  assert (Hwf3 : wf (wd_tab w3)) by (change (wf (wd_tab w2)); by rewrite Ht2).
  assert (Ho3 : owned w3 si c) by (unfold owned, sl; change (wd_tab w3) with (wd_tab w2); by rewrite Ht2).
  assert (Hcx3 : cx w3 c = set_fail CODE_FAIL_TIMEOUT (cx w c)) by (unfold w3; by rewrite cx_on_ctx, Hcx2).
  unfold ngx_http_waf_resume. rewrite (proj2 Ho3). cbn zeta. set (w4 := on_ctx c _ w3).
  assert (Hcx4 : cx w4 c = ngx_http_waf_rewrite_settle inspectors (got (sl w3 si)) (cx w3 c))
    by (unfold w4; by rewrite cx_on_ctx).
  pose proof (evolves_rewrite_settle inspectors (conf c) (got (sl w3 si)) (cx w3 c)) as He4.
  assert (Hp4 : c_phase (cx w4 c) = PHASE_REQUEST) by (rewrite Hcx4, (ev_phase _ _ _ He4), Hcx3; done).
  destruct (conclude_spec c si w4 Hwf3 Ho3 Hp4) as (Hd & Hq' & Hl'). rewrite Hd. split_and!; [|done|done].
  apply decided_blocks; rewrite Hcx4.
  - apply (ev_fail _ _ _ He4). rewrite Hcx3. unfold set_fail. by rewrite ph_on_ph.
  - assert (Hf3 : ph_fail (ph (cx w3 c)) = CODE_FAIL_TIMEOUT) by (rewrite Hcx3; unfold set_fail; by rewrite ph_on_ph).
    apply blocks_policy; [|rewrite <- Hf3; apply rewrite_settle_fail]. unfold blocks_late. rewrite (ev_phase _ _ _ He4).
    destruct (rewrite_settle_state inspectors (got (sl w3 si)) (cx w3 c)) as (_ & _ & ->).
    rewrite Hcx3. unfold set_fail. rewrite ph_on_ph. exact Hb.
Qed.

(** ** A reply counts once *)

(** The slot of [c] is gone, or still there with the inspector's bit set, in
    the same wave. *)
Definition answered (c si i rid : Z) (w w' : world) : Prop :=
  ngx_http_waf_slot_lookup rid w'.(wd_tab) = None \/
  (ngx_http_waf_slot_lookup rid w'.(wd_tab) = Some si /\ (sl w' si).(sctx) = Some c /\
   has_bit (sl w' si).(got) i = true /\
   ngx_http_waf_current_wave conf c (cx w' c) = ngx_http_waf_current_wave conf c (cx w c)).

Lemma lookup_same rid t t' :
  t'.(tbl).(nslots) = t.(tbl).(nslots) ->
  (forall si, (the_slot t' si).(sctx) = (the_slot t si).(sctx) /\ (the_slot t' si).(gen) = (the_slot t si).(gen)) ->
  ngx_http_waf_slot_lookup rid t' = ngx_http_waf_slot_lookup rid t.
Proof.
  intros Hn Hs. unfold ngx_http_waf_slot_lookup. rewrite Hn. destruct (_ <=? _); [done|].
  destruct (Hs (Z.land rid NGX_HTTP_WAF_SLOT_INDEX_MASK)) as [-> ->]. done.
Qed.

Lemma calm_lookup c rid w w' :
  calm conf c w w' -> wf w.(wd_tab) ->
  ngx_http_waf_slot_lookup rid w'.(wd_tab) = ngx_http_waf_slot_lookup rid w.(wd_tab).
Proof.
  intros Hc Hwf. destruct (softs_tab conf c w w' (proj1 Hc) Hwf) as (_ & Hn & Hs & _). by apply lookup_same.
Qed.
Lemma calm_wave c w w' :
  calm conf c w w' -> wf w.(wd_tab) ->
  ngx_http_waf_current_wave conf c (cx w' c) = ngx_http_waf_current_wave conf c (cx w c).
Proof.
  intros Hc Hwf. destruct (softs_tab conf c w w' (proj1 Hc) Hwf) as (_ & _ & _ & _ & _ & He).
  destruct Hc as (_ & _ & Hw & _). unfold ngx_http_waf_current_wave. by rewrite (ev_phase _ _ _ He), Hw.
Qed.

(** A released slot is not found by the request id it had. *)
Lemma release_lookup w si c rid :
  wf w.(wd_tab) -> owned w si c -> ngx_http_waf_slot_lookup rid w.(wd_tab) = Some si ->
  ngx_http_waf_slot_lookup rid (ngx_http_waf_slot_release si w.(wd_tab)) = None.
Proof.
  intros Hwf [Hi Ho] Hl. destruct (wf_owner _ Hwf si c Hi Ho) as (Hg & Hs & _).
  destruct (release_frame w.(wd_tab) si c Hg Ho Hs) as (Hf & _ & _ & H0 & _); [by rewrite <- (wf_n _ Hwf)|].
  unfold ngx_http_waf_slot_lookup in *. rewrite (fr_n _ _ _ _ Hf).
  destruct (_ <=? _); [done|]. set (k := Z.land rid _) in *.
  destruct (Z.eqb_spec (gen (the_slot (wd_tab w) k)) (Z.shiftr rid NGX_HTTP_WAF_SLOT_INDEX_BITS)) as [Hge|]; [|done].
  cbn [negb] in Hl. assert (k = si) as -> by (destruct (sctx (the_slot (wd_tab w) k)); by simplify_eq).
  rewrite H0. destruct (Z.eqb_spec 0 (Z.shiftr rid NGX_HTTP_WAF_SLOT_INDEX_BITS)); [congruence|done].
Qed.

Lemma return_tab c w : (ngx_http_waf_return_to_phases c w).(wd_tab) = w.(wd_tab).
Proof. unfold ngx_http_waf_return_to_phases. by case_match. Qed.
Lemma stop_lookup c rid w : 
  ngx_http_waf_slot_lookup rid (ngx_http_waf_deadline_stop c w).(wd_tab) = ngx_http_waf_slot_lookup rid w.(wd_tab).
Proof. unfold ngx_http_waf_deadline_stop. by case_match. Qed.
Lemma conclude_lookup w si c rid :
  wf w.(wd_tab) -> owned w si c -> ngx_http_waf_slot_lookup rid w.(wd_tab) = Some si ->
  ngx_http_waf_slot_lookup rid (ngx_http_waf_conclude conf inspectors c si w).(wd_tab) = None.
Proof.
  intros Hwf Ho Hl. unfold ngx_http_waf_conclude. rewrite return_tab. unfold conclude_ctx. cbn [wd_tab on_ctx on_rq upd].
  pose proof (softs_stop conf c w) as Hc.
  apply (release_lookup (ngx_http_waf_deadline_stop c w) si c).
  - by apply (softs_tab conf c w _ Hc).
  - eapply softs_owned; [apply Hc|done|done].
  - by rewrite stop_lookup.
Qed.

Lemma settle_answered w0 w si c i rid :
  wf w.(wd_tab) -> owned w si c -> ngx_http_waf_slot_lookup rid w.(wd_tab) = Some si ->
  has_bit (sl w si).(got) i = true ->
  ngx_http_waf_current_wave conf c (cx w c) = ngx_http_waf_current_wave conf c (cx w0 c) ->
  answered c si i rid w0 (ngx_http_waf_settle conf inspectors c si w) /\
  answered c si i rid w0 (ngx_http_waf_resume conf inspectors c si w).
Proof.
  intros Hwf Ho Hl Hg Hw.
  assert (Hstay : answered c si i rid w0 w) by (right; split_and!; [done|apply Ho|done|done]).
  pose proof (calm_rewrite conf inspectors c (got (sl w si)) w) as Hc.
  assert (Hconc : answered c si i rid w0 (ngx_http_waf_conclude conf inspectors c si
            (on_ctx c (ngx_http_waf_rewrite_settle inspectors (got (sl w si))) w))).
  { left. apply conclude_lookup; [done|done|done]. }
  split.
  - unfold ngx_http_waf_settle. case_match; [done|]. case_match; [done|]. cbn zeta. case_match; [|done].
    left. rewrite return_tab. change (wd_tab (on_ctx c _ ?v)) with (wd_tab v). by apply (release_lookup w si c).
  - unfold ngx_http_waf_resume. by rewrite (proj2 Ho).
Qed.

Lemma has_bit_lor m i : is_u64 m -> 0 <= i < 64 -> has_bit (Z.lor m (bit i)) i = true.
Proof.
  intros Hm Hi. rewrite has_bit_testbit by eauto with waf. autorewrite with waf_bits.
  by rewrite Z.eqb_refl, orb_true_r.
Qed.

(** The slot waits for inspector [i]: it is of the current wave and has not
    answered. *)
Definition expects (c si i : Z) (w : world) : Prop :=
  exists wave, ngx_http_waf_current_wave conf c (cx w c) = Some wave /\
    has_bit wave.(w_all) i = true /\ has_bit (sl w si).(got) i = false.

Lemma on_reply_answered e c si i r rid w :
  wf w.(wd_tab) -> owned w si c -> ngx_http_waf_slot_lookup rid w.(wd_tab) = Some si -> 0 <= i < 64 ->
  is_u64 (sl w si).(got) -> reply_ok r ->
  ngx_http_waf_on_reply conf inspectors crc32 e c si i r w = w /\ ~ expects c si i w \/
  expects c si i w /\ answered c si i rid w (ngx_http_waf_on_reply conf inspectors crc32 e c si i r w).
Proof.
  intros Hwf Ho Hl Hi Hu Hok. unfold ngx_http_waf_on_reply.
  destruct (ngx_http_waf_current_wave conf c (cx w c)) as [wave|] eqn:Ew;
    [|left; split; [done|intros (? & ? & _); congruence]].
  destruct (has_bit (w_all wave) i) eqn:Ea; cbn [negb];
    [|left; split; [done|intros (? & ? & ? & _); congruence]].
  destruct (has_bit (got (sl w si)) i) eqn:Eg; [left; split; [done|intros (? & ? & ? & ?); congruence]|].
  right. split; [by exists wave|]. cbn zeta.
  set (w1 := on_slot si _ w). assert (H1 : calm conf c w w1) by (by apply calm_masks).
  assert (Hg1 : has_bit (sl w1 si).(got) i = true).
  { unfold w1, sl, on_slot, on_tab. cbn [wd_tab upd].
    rewrite the_slot_set_slot_eq by (rewrite <- (wf_n _ Hwf); apply Ho). cbn. by apply has_bit_lor. }
  set (w2 := on_ctx c _ w1). assert (H2 : calm conf c w1 w2) by (by apply calm_on_ph).
  pose proof (breaker_account_frame e (bit i) (r_verdict r ==? V_ERROR) w2) as [Ht3 _].
  set (w3 := ngx_http_waf_breaker_account _ _ _ _ _ w2) in *.
  assert (H3 : calm conf c w2 w3) by apply calm_breaker.
  set (w4 := on_ctx c _ w3).
  assert (H4 : calm conf c w3 w4).
  { pose proof (quiet_store_reply conf inspectors e c si i wave r (sl w3 si) (cx w3 c)) as [].
    by apply calm_ctx; [by apply evolves_store_reply|..]. }
  assert (Hc : calm conf c w w4) by (trans w1; [done|]; trans w2; [done|]; by trans w3).
  assert (Hg4 : has_bit (sl w4 si).(got) i = true).
  { unfold sl. change (wd_tab w4) with (wd_tab w3). rewrite Ht3. exact Hg1. }
  clearbody w4. clear w1 w2 w3 H1 H2 H3 H4 Hg1 Ht3.
  assert (Hall : forall v, calm conf c w v -> has_bit (sl v si).(got) i = true ->
    answered c si i rid w (ngx_http_waf_settle conf inspectors c si v) /\
    answered c si i rid w (ngx_http_waf_resume conf inspectors c si v)).
  { intros v Hv Hg. apply settle_answered; [by apply (softs_tab conf c w v (proj1 Hv))| | |done|by apply calm_wave].
    - eapply softs_owned; [apply Hv|done|done].
    - by rewrite (calm_lookup c rid w v). }
  destruct (Hall w4 Hc Hg4) as [Hs Hr].
  assert (Hd : forall b : bool, answered c si i rid w
    (let v := on_slot si (fun s => s <| denied ::= fun m => Z.lor m (bit i) |>) w4 in
     if b then ngx_http_waf_resume conf inspectors c si v else ngx_http_waf_settle conf inspectors c si v)).
  { intros b. cbn zeta. set (v := on_slot si _ w4).
    assert (Hwf4 : wf w4.(wd_tab)) by (by apply (softs_tab conf c w w4 (proj1 Hc))).
    assert (Ho4 : owned w4 si c) by (eapply softs_owned; [apply Hc|done|done]).
    assert (Hv : calm conf c w v) by (trans w4; [done|]; by apply calm_denied).
    assert (Hgv : has_bit (sl v si).(got) i = true).
    { unfold v, sl, on_slot, on_tab. cbn [wd_tab upd].
      rewrite the_slot_set_slot_eq by (rewrite <- (wf_n _ Hwf4); apply Ho4). exact Hg4. }
    destruct (Hall v Hv Hgv), b; done. }
  destruct (r_verdict r); try done; try (apply Hd).
  case_match; [|done]. set (v := on_ctx c _ w4).
  assert (Hv : calm conf c w v) by (trans w4; [done|]; apply calm_fail; by destruct (r_overload r)).
  by destruct (Hall v Hv Hg4).
Qed.

Lemma dispatch_owned e rid i reply si c w :
  ngx_http_waf_slot_lookup rid w.(wd_tab) = Some si -> (sl w si).(sctx) = Some c ->
  ngx_http_waf_bus_dispatch conf inspectors crc32 e rid i reply w =
    if ninsp <=? i then w
    else match reply with
         | None => w
         | Some r => ngx_http_waf_on_reply conf inspectors crc32 e c si i r w
         end.
Proof. intros Hl Ho. unfold ngx_http_waf_bus_dispatch. by rewrite Hl, Ho. Qed.

(** The first reply of an inspector that is waited for has an effect. *)
Lemma answered_differs c si i rid w w' :
  ngx_http_waf_slot_lookup rid w.(wd_tab) = Some si -> expects c si i w ->
  answered c si i rid w w' -> w' <> w.
Proof.
  intros Hl (wave & _ & _ & Hg) [Hn|(_ & _ & Hg' & _)] ->; congruence.
Qed.

(** C36: a reply of an inspector to a request id counts exactly once: it has an
    effect when the slot of the id waits for that inspector, and only then;
    whatever arrives afterwards for the same inspector and id changes nothing,
    and neither does a reply from an inspector the worker does not know or one
    the decoder refused. *)
Theorem reply_counts_once e e' rid i r r' si c w :
  wf w.(wd_tab) -> ngx_http_waf_slot_lookup rid w.(wd_tab) = Some si -> owned w si c ->
  is_u64 (sl w si).(got) -> 0 <= i < 64 -> reply_ok r ->
  let once := ngx_http_waf_bus_dispatch conf inspectors crc32 e rid i (Some r) w in
  (once <> w <-> i < ninsp /\ expects c si i w) /\
  ngx_http_waf_bus_dispatch conf inspectors crc32 e' rid i None w = w /\
  (once <> w -> ngx_http_waf_bus_dispatch conf inspectors crc32 e' rid i r' once = once).
Proof.
  intros Hwf Hl Ho Hu Hi Hok. cbn zeta. rewrite !(dispatch_owned _ rid i _ si c w Hl (proj2 Ho)).
  destruct (Z.leb_spec ninsp i) as [|Hn].
  { split_and!; [|done|done]. split; [done|]. intros [? _]. lia. }
  destruct (on_reply_answered e c si i r rid w Hwf Ho Hl Hi Hu Hok) as [[-> Hx]|[Hx Ha]].
  { split_and!; [|done|done]. split; [done|]. by intros [_ ?]. }
  pose proof (answered_differs _ _ _ _ _ _ Hl Hx Ha) as Hne.
  set (w' := ngx_http_waf_on_reply _ _ _ _ _ _ _ _ _) in *. split_and!; [done|done|]. intros _.
  unfold ngx_http_waf_bus_dispatch. destruct Ha as [->|(-> & -> & Hg & Hw)]; [done|].
  replace (ninsp <=? i) with false by lia. destruct r' as [r'|]; [|done].
  unfold ngx_http_waf_on_reply. destruct (ngx_http_waf_current_wave conf c (cx w' c)); [|done].
  rewrite Hg. by case_match.
Qed.

(** ** Waves end and finished requests hold nothing *)

(** C35: starting a wave always comes to a result: the self-call for waves
    that close at once runs at most once per configured wave. *)
Theorem wave_start_total e c wave w :
  wf w.(wd_tab) -> q_waiting (rq w c) = false ->
  exists r, wave_start conf inspectors crc32 cond_test (wave_fuel conf c wave w) e c wave w = Some r /\
            ngx_http_waf_wave_start conf inspectors crc32 cond_test e c wave w = r.
Proof.
  intros Hwf Hq.
  destruct (wave_start_spec conf inspectors crc32 cond_test (wave_fuel conf c wave w) e c wave w Hwf Hq) as [_ Hen].
  unfold ends in Hen. destruct Hen as [r Hr]; [unfold wave_fuel; lia|unfold wave_fuel; lia|].
  exists r. split; [done|]. unfold ngx_http_waf_wave_start. by rewrite Hr.
Qed.

(** However a request is finished (applied, overridden or failed), it
    keeps neither a slot nor an armed deadline, and the slot table stays
    exact. *)
Theorem finished_holds_nothing e c how w :
  wf w.(wd_tab) ->
  let a := snd (ngx_http_waf_finish e c how w) in
  let b := snd (ngx_http_waf_fail_policy conf e c w) in
  let d := snd (ngx_http_waf_phase_apply conf e c w) in
  (unbound c a /\ wf a.(wd_tab)) /\ (unbound c b /\ wf b.(wd_tab)) /\ (unbound c d /\ wf d.(wd_tab)).
Proof.
  intros Hwf. cbn zeta.
  destruct (finish_spec conf e c how w Hwf) as [Ha Hu].
  destruct (fail_policy_spec conf e c w Hwf) as [Hb Hv].
  destruct (phase_apply_spec conf e c w Hwf) as [Hd Hx].
  split_and!; try done; by eapply idle_wf.
Qed.

(** ** The deadline of a wave *)

(** No clock value of the wave has wrapped. *)
Definition clocks_ok (c : Z) (x : ctx_t) (s : slot) : Prop :=
  0 <= (ph x).(ph_due) < 2 ^ 62 /\ 0 <= s.(published) < 2 ^ 61 /\
  forall i b, ngx_http_waf_binding_find (conf c) i x.(c_phase) = Some b -> 0 <= b.(b_timeout) < 2 ^ 61.

(** The personal deadline of inspector [i], if it has one. *)
Definition personal (c : Z) (x : ctx_t) (s : slot) (i t : Z) : Prop :=
  exists b, ngx_http_waf_binding_find (conf c) i x.(c_phase) = Some b /\ b.(b_timeout) <> 0 /\
            t = s.(published) + b.(b_timeout).

Lemma deadline_fold c x s l a :
  clocks_ok c x s -> 0 <= a < 2 ^ 62 ->
  let f := fun at_ i =>
    match ngx_http_waf_binding_find (conf c) i x.(c_phase) with
    | None => at_
    | Some b => if b.(b_timeout) =? 0 then at_
                else let until := u64 (s.(published) + b.(b_timeout)) in
                     if msec_diff until at_ <? 0 then until else at_
    end in
  let r := foldl f a l in
  0 <= r < 2 ^ 62 /\ r <= a /\ (forall i t, i ∈ l -> personal c x s i t -> r <= t) /\
  (r = a \/ exists i t, i ∈ l /\ personal c x s i t /\ r = t).
Proof.
  intros (Hdue & Hpub & Hb) Ha. revert a Ha.
  induction l as [|i l IH]; intros a Ha; cbn [foldl].
  { cbn zeta. split_and!; [lia|lia|lia| |by left]. intros i t Hi. by apply not_elem_of_nil in Hi. }
  cbn zeta in *. set (a' := match ngx_http_waf_binding_find _ _ _ with Some _ => _ | None => _ end).
  assert (Ha' : 0 <= a' < 2 ^ 62 /\ a' <= a /\ (forall t, personal c x s i t -> a' <= t) /\
                (a' = a \/ exists t, personal c x s i t /\ a' = t)).
  { unfold a', personal. destruct (ngx_http_waf_binding_find (conf c) i (c_phase x)) as [b|] eqn:E; last first.
    { split_and!; [lia|lia|lia|intros t (b & ? & _); done|by left]. }
    specialize (Hb i b E). destruct (Z.eqb_spec (b_timeout b) 0) as [H0|H0].
    { split_and!; [lia|lia|lia| |by left]. intros t (b' & ? & ? & _). simplify_eq. }
    rewrite u64_small by (unfold is_u64; lia).
    assert (Hd : msec_diff (published s + b_timeout b) a = published s + b_timeout b - a)
      by (unfold msec_diff; apply s64_small; unfold is_s64; lia).
    rewrite Hd. destruct (Z.ltb_spec (published s + b_timeout b - a) 0).
    - split_and!; [lia|lia|lia| |]. { intros t (b' & ? & ? & ->). simplify_eq. lia. }
      right. eexists. split; [by exists b|done].
    - split_and!; [lia|lia|lia| |by left]. intros t (b' & ? & ? & ->). simplify_eq. lia. }
  destruct Ha' as (Hr' & Hle & Hall & Hwho). clearbody a'. destruct (IH a' Hr') as (H1 & H2 & H3 & H4).
  split_and!; [lia|lia|lia| |].
  - intros j t [->|Hj]%elem_of_cons Hp; [specialize (Hall t Hp); lia|by apply (H3 j)].
  - destruct H4 as [H4|(j & t & Hj & Hp & ->)]; [|right; exists j, t; by split; [right|]].
    destruct Hwho as [->|(t & Hp & ->)]; [by left|]. right. exists i, t. split_and!; [by left|done|done].
Qed.

Definition still_awaited (s : slot) (i : Z) : Prop :=
  0 <= i < 64 /\ Z.testbit s.(awaited) i = true /\ Z.testbit s.(got) i = false.

Lemma still_awaited_bits s i :
  is_u64 s.(got) -> i ∈ bits (Z.land s.(awaited) (bnot64 s.(got))) <-> still_awaited s i.
Proof.
  intros Hg. rewrite elem_of_bits. split.
  - intros [Hi Ht]. autorewrite with waf_bits in Ht. apply andb_true_iff in Ht as [? ?%negb_true_iff]. done.
  - intros (Hi & Ht & Hf). split; [done|]. autorewrite with waf_bits. by rewrite Ht, Hf.
Qed.

Lemma deadline_at_spec c x s :
  clocks_ok c x s -> is_u64 s.(got) -> is_u64 s.(awaited) ->
  let r := deadline_at conf c x s in
  0 <= r < 2 ^ 62 /\ r <= (ph x).(ph_due) /\
  (forall i t, still_awaited s i -> personal c x s i t -> r <= t) /\
  (r = (ph x).(ph_due) \/ exists i t, still_awaited s i /\ personal c x s i t /\ r = t).
Proof.
  intros Hc Hg Ha. cbn zeta. unfold deadline_at. rewrite while_mask_bits by eauto with waf.
  destruct (deadline_fold c x s (bits (Z.land s.(awaited) (bnot64 s.(got)))) (ph_due (ph x)) Hc) as (H0 & H1 & H2 & H3);
    [apply Hc|].
  split; [exact H0|]. split; [exact H1|]. split.
  - intros i t Hi. by apply H2, still_awaited_bits.
  - destruct H3 as [H3|(i & t & Hi & Hpt & Hr)]; [by left|right]. exists i, t. by rewrite <- still_awaited_bits.
Qed.

(** The timer of a wave is set to the earliest of the phase's deadline
    and the personal timeouts of the inspectors that are still awaited (at
    once, when that has passed): it is not later than any of them and is one
    of them. *)
Theorem deadline_is_earliest e c si w :
  let x := cx w c in
  let s := sl w si in
  clocks_ok c x s -> is_u64 s.(got) -> is_u64 s.(awaited) -> 0 <= e.(e_now) < 2 ^ 62 ->
  let w' := ngx_http_waf_deadline_arm conf e c si w in
  (the_link w'.(wd_tab) c).(c_timer_set) = true /\
  exists at_, (rq w' c).(q_timer) = Z.max 0 (at_ - e.(e_now)) /\
    at_ <= (ph x).(ph_due) /\ (forall i t, still_awaited s i -> personal c x s i t -> at_ <= t) /\
    (at_ = (ph x).(ph_due) \/ exists i t, still_awaited s i /\ personal c x s i t /\ at_ = t).
Proof.
  intros x s Hc Hg Ha Hnow. cbn zeta.
  destruct (deadline_at_spec c x s Hc Hg Ha) as (H0 & H1).
  split; [unfold ngx_http_waf_deadline_arm; cbn; by rewrite the_link_set_link_eq|].
  exists (deadline_at conf c x s). split; [|exact H1].
  unfold ngx_http_waf_deadline_arm. rewrite rq_on_rq_eq. cbn [q_timer upd].
  fold x s. generalize dependent (deadline_at conf c x s). intros r Hr _.
  unfold msec_diff. rewrite s64_small by (unfold is_s64; lia).
  destruct (Z.ltb_spec 0 (r - e_now e)); lia.
Qed.

(** ** Versions of a body *)

Lemma rewrite_scan_spec mask x :
  match rewrite_scan inspectors mask x with
  | None => exists i j, 0 <= i < j /\ j < ninsp /\ rewrites mask x i = true /\ rewrites mask x j = true
  | Some None => forall i, 0 <= i < ninsp -> rewrites mask x i = false
  | Some (Some i) => 0 <= i < ninsp /\ rewrites mask x i = true /\
      forall j, 0 <= j < ninsp -> rewrites mask x j = true -> j = i
  end.
Proof.
  unfold rewrite_scan.
  apply (for_range_inv (fun k acc => match acc with
    | None => exists i j, 0 <= i < j /\ j < ninsp /\ rewrites mask x i = true /\ rewrites mask x j = true
    | Some None => forall i, 0 <= i < k -> rewrites mask x i = false
    | Some (Some i) => 0 <= i < k /\ rewrites mask x i = true /\
        forall j, 0 <= j < k -> rewrites mask x j = true -> j = i
    end)); [apply ninsp_nonneg|intros; lia|].
  intros k [[i|]|] Hk H; [| |done].
  - destruct H as (Hi & Hri & Hu). destruct (rewrites mask x k) eqn:E.
    + exists i, k. split_and!; (done || lia).
    + split_and!; [lia|lia|done|]. intros j Hj Hrj. destruct (Z.eq_dec j k) as [->|]; [congruence|]. apply Hu; [lia|done].
  - destruct (rewrites mask x k) eqn:E.
    + split_and!; [lia|lia|done|]. intros j Hj Hrj. destruct (Z.eq_dec j k) as [->|]; [done|].
      rewrite H in Hrj by lia. done.
    + intros j Hj. destruct (Z.eq_dec j k) as [->|]; [done|]. apply H. lia.
Qed.

Lemma pool_alloc_ok x : x.(c_mem) = [] -> pool_alloc x = (true, x).
Proof. intros H. unfold pool_alloc. rewrite H. cbn. destruct x. cbn in *. by subst. Qed.

Lemma push_stale_ok x :
  x.(c_mem) = [] ->
  exists x', push_stale x = (Some x', x') /\
    ph x' = (ph x) <| ph_stale := match (ph x).(ph_live) with
                                  | Some l => Some (default [] (ph x).(ph_stale) ++ [l.(l_key)])
                                  | None => (ph x).(ph_stale)
                                  end |>.
Proof.
  intros Hm. unfold push_stale. destruct (ph_live (ph x)) as [l|] eqn:El.
  - destruct (ph_stale (ph x)) as [st|] eqn:Es.
    + rewrite pool_alloc_ok by done. cbn [negb]. eexists. split; [done|]. rewrite ph_on_ph.
      destruct (ph x); cbn in *; by subst.
    + rewrite pool_alloc_ok by done. set (x1 := on_ph _ x).
      assert (H1 : ph x1 = (ph x) <| ph_stale := Some [] |>) by apply ph_on_ph.
      assert (Hm1 : c_mem x1 = []) by done. clearbody x1. rewrite pool_alloc_ok by done. cbn [negb].
      eexists. split; [done|]. rewrite ph_on_ph, H1. by destruct (ph x).
  - eexists. split; [done|]. by destruct (ph x).
Qed.

(** The body of a wave is taken from its one gating rewriter, as the next
    version of the chain, with the version it replaces put on the list of
    stale objects; two rewriters in a wave, or a ninth version, are a body
    failure; without a rewriter, or without a body in the store, nothing
    changes. *)
Theorem rewrite_makes_next_version mask x :
  (ph x).(ph_replies) <> None -> x.(c_mem) = [] ->
  let x' := ngx_http_waf_rewrite_settle inspectors mask x in
  let R i := 0 <= i < ninsp /\ rewrites mask x i = true in
  ((forall i, ~ R i) -> x' = x) /\
  (forall i j, R i -> R j -> i <> j -> x' = fail_body x) /\
  (forall i, R i -> (forall j, R j -> j = i) ->
   (NGX_HTTP_WAF_REWRITE_MAX_DEPTH <= (ph x).(ph_rewrite_depth) -> x' = fail_body x) /\
   ((ph x).(ph_rewrite_depth) < NGX_HTTP_WAF_REWRITE_MAX_DEPTH ->
    match ngx_http_waf_store_locator_live x with
    | None => x' = x
    | Some from =>
        (ph x').(ph_live) =
          Some (from <| l_key := (get_reply x i).(r_rewrite_key) |> <| l_size := (get_reply x i).(r_rewrite_size) |>
                     <| l_truncated := false |> <| l_inline := [] |>
                     <| l_sha256 := default (replicate 32 0) (get_reply x i).(r_rewrite_sha256) |>) /\
        (ph x').(ph_rewrite_depth) = (ph x).(ph_rewrite_depth) + 1 /\
        default [] (ph x').(ph_stale) =
          default [] (ph x).(ph_stale) ++ match (ph x).(ph_live) with Some l => [l.(l_key)] | None => [] end /\
        (ph x').(ph_fail) = (ph x).(ph_fail)
    end)).
Proof.
  intros Hrep Hmem. cbn zeta. unfold ngx_http_waf_rewrite_settle.
  destruct (ph_replies (ph x)); [|done]. clear Hrep.
  pose proof (rewrite_scan_spec mask x) as Hs. destruct (rewrite_scan inspectors mask x) as [[k|]|].
  - destruct Hs as (Hk & Hrk & Hu). split_and!.
    { intros Hno. by destruct (Hno k). }
    { intros i j [Hi Hri] [Hj Hrj] Hne. destruct Hne. by rewrite (Hu i), (Hu j). }
    intros i [Hi Hri] _. rewrite (Hu i Hi Hri). clear i Hi Hri.
    destruct (Z.leb_spec NGX_HTTP_WAF_REWRITE_MAX_DEPTH (ph_rewrite_depth (ph x))); (split; [done || lia|]); [lia|].
    intros _. destruct (ngx_http_waf_store_locator_live x) as [from|]; [|done].
    rewrite pool_alloc_ok by done. cbn [negb].
    destruct (push_stale_ok x Hmem) as (x' & -> & Hx'). rewrite ph_on_ph, Hx'.
    destruct (ph x); cbn. split_and!; [reflexivity..| |reflexivity].
    destruct ph_live; cbn; [done|by rewrite app_nil_r].
  - split; [done|]. split; [|]; intros i; [intros j|]; intros [Hi Hri]; rewrite Hs in Hri by done; done.
  - destruct Hs as (a & b & Hab & Hb & Ha' & Hb').
    assert (Ra : 0 <= a < ninsp) by lia. assert (Rb : 0 <= b < ninsp) by lia. split_and!.
    + intros Hno. by destruct (Hno a).
    + done.
    + intros i _ Hu. assert (a = i) by (by apply Hu). assert (b = i) by (by apply Hu). lia.
Qed.

End safety.

(** ** The waiting request of [HandlerFacts] *)

Definition demo_rid : Z := (the_link demo_w1.(wd_tab) 7).(c_rid).
Definition demo_dispatch (now i : Z) (r : reply_t) (w : world) : world :=
  ngx_http_waf_bus_dispatch demo_conf demo_inspectors zlen (demo_ext now) demo_rid i (Some r) w.
(** Inspector 2, which is active, could not inspect: the wave ends in failure. *)
Definition demo_w2 : world := demo_dispatch 1010 2 (reply0 <| r_verdict := V_ERROR |>) demo_w1.

Lemma demo_ok (v : verdict_e) : reply_ok (reply0 <| r_verdict := v |>).
Proof. unfold reply_ok, NGX_HTTP_WAF_SCORE_MAX. cbn. lia. Qed.

Lemma demo_event2 : demo_event 7 demo_w1 demo_w2.
Proof.
  apply (ev_reply _ _ _ _ _ _ (demo_ext 1010) demo_rid 0 2 (Some (reply0 <| r_verdict := V_ERROR |>)) 7 demo_w1);
    [vm_compute; reflexivity|vm_compute; reflexivity|apply demo_ok].
Qed.
Lemma demo_inv2 : world_inv demo_conf demo_w2.
Proof.
  eapply (event_isolated_inv demo_conf demo_inspectors zlen (fun _ => false) (fun _ => []) (fun _ _ => true)).
  - intros. cbn. lia.
  - apply demo_event2.
  - apply demo_inv1.
Qed.

Lemma failure_is_sticky_witness :
  (cx demo_w2 7).(c_state) = ST_FAILED /\ (ph (cx (demo_access 1020 demo_w2) 7)).(ph_fail) <> CODE_NONE.
Proof.
  split; [vm_compute; reflexivity|].
  apply (failure_is_sticky demo_conf demo_inspectors zlen (fun _ => false) (fun _ => []) (fun _ _ => true)
           7 7 demo_w2 (demo_access 1020 demo_w2)).
  - apply demo_inv2.
  - apply ev_access.
  - vm_compute. by eexists.
  - vm_compute. discriminate.
Defined.

Lemma missed_deadline_blocks_witness :
  let w' := ngx_http_waf_on_deadline demo_conf demo_inspectors zlen (demo_ext 5000) 7 demo_w1 in
  c_state (cx w' 7) = ST_DENY \/ c_state (cx w' 7) = ST_REDIRECT \/ c_state (cx w' 7) = ST_FAILED.
Proof.
  refine (proj1 (missed_deadline_blocks demo_conf demo_inspectors zlen (demo_ext 5000) 7 2 demo_wave demo_w1
            _ _ _ _ _ _ _ _ _ _ _)).
  - apply demo_inv1.
  - vm_compute. reflexivity.
  - apply demo_inv1.
  - vm_compute. reflexivity.
  - vm_compute. reflexivity.
  - lia.
  - vm_compute. intuition discriminate.
  - vm_compute. reflexivity.
  - vm_compute. reflexivity.
  - vm_compute. discriminate.
  - split; [done|vm_compute; discriminate].
Defined.

Lemma reply_counts_once_witness :
  let once := demo_dispatch 1010 0 (reply0 <| r_verdict := V_DENY |>) demo_w1 in
  (sl once 0).(got) = 1 /\ demo_dispatch 1011 0 (reply0 <| r_verdict := V_ALLOW |>) once = once.
Proof.
  split; [vm_compute; reflexivity|].
  refine (proj2 (proj2 (reply_counts_once demo_conf demo_inspectors zlen (demo_ext 1010) (demo_ext 1011) demo_rid 0
            (reply0 <| r_verdict := V_DENY |>) _ 0 7 demo_w1 _ _ _ _ _ _)) _).
  - apply demo_inv1.
  - vm_compute. reflexivity.
  - split; vm_compute; intuition discriminate.
  - vm_compute. intuition discriminate.
  - lia.
  - apply demo_ok.
  - intros H. apply (f_equal (fun w => (sl w 0).(got))) in H. vm_compute in H. discriminate H.
Defined.

Lemma wave_start_total_witness :
  exists r, ngx_http_waf_wave_start demo_conf demo_inspectors zlen (fun _ _ => true) (demo_ext 1) 7 0 demo_w0 = r.
Proof.
  destruct (wave_start_total demo_conf demo_inspectors zlen (fun _ _ => true) (demo_ext 1) 7 0 demo_w0) as (r & _ & Hr).
  - apply demo_inv0.
  - reflexivity.
  - by exists r.
Defined.

Lemma finished_holds_nothing_witness :
  unbound 7 (snd (ngx_http_waf_finish (demo_ext 1) 7 FINISH_APPLY demo_w1)).
Proof.
  exact (proj1 (proj1 (finished_holds_nothing demo_conf (demo_ext 1) 7 FINISH_APPLY demo_w1 (proj1 demo_inv1)))).
Defined.

Lemma deadline_is_earliest_witness :
  let w' := ngx_http_waf_deadline_arm demo_conf (demo_ext 1020) 7 0 demo_w1 in
  (the_link w'.(wd_tab) 7).(c_timer_set) = true /\ (rq w' 7).(q_timer) = 30.
Proof.
  split; [|vm_compute; reflexivity].
  refine (proj1 (deadline_is_earliest demo_conf (demo_ext 1020) 7 0 demo_w1 _ _ _ _)).
  - split; [vm_compute; intuition discriminate|]. split; [vm_compute; intuition discriminate|].
    intros i b [Hin _]%binding_find_Some. replace (c_phase (cx demo_w1 7)) with PHASE_REQUEST in Hin by (vm_compute; reflexivity).
    cbn in Hin. repeat (apply elem_of_cons in Hin as [->|Hin]; [cbn; lia|]). by apply not_elem_of_nil in Hin.
  - vm_compute. intuition discriminate.
  - vm_compute. intuition discriminate.
  - cbn. lia.
Defined.

(** Inspector 2 rewrote the body the store holds under "k0". *)
Definition demo_locator : locator_t :=
  locator0 <| l_key := lit "k0" |> <| l_size := 10 |> <| l_sha256 := replicate 32 7 |>
           <| l_has_sha256 := true |> <| l_complete := true |>.
Definition demo_rewrite : ctx_t :=
  on_ph (fun p => p <| ph_locator := Some demo_locator |>
    <| ph_replies := Some [reply0; reply0;
         reply0 <| r_received := true |> <| r_rewrite_has := true |> <| r_rewrite_body := true |>
                <| r_rewrite_key := lit "k1" |> <| r_rewrite_size := 12 |>] |>) (ctx0 PHASE_REQUEST).

Lemma rewrite_makes_next_version_witness :
  exists live, (ph (ngx_http_waf_rewrite_settle demo_inspectors 4 demo_rewrite)).(ph_live) = Some live /\
               live.(l_key) = lit "k1".
Proof.
  destruct (rewrite_makes_next_version demo_inspectors 4 demo_rewrite) as (_ & _ & H).
  - discriminate.
  - reflexivity.
  - destruct (H 2) as [_ H2].
    + vm_compute. intuition discriminate.
    + intros j [Hj Hr]. assert (j = 0 \/ j = 1 \/ j = 2) as [->|[->| ->]]
        by (change (Handler.ninsp demo_inspectors) with 3 in Hj; lia); vm_compute in Hr |- *; congruence.
    + eexists. split; [exact (proj1 (H2 ltac:(vm_compute; reflexivity)))|reflexivity].
Defined.

(** The digest flag of the replaced version is carried over: a version whose
    rewriter sent no digest is announced with a digest, and the digest is 32
    zero bytes. *)
Lemma rewrite_announces_zero_digest :
  exists live, (ph (ngx_http_waf_rewrite_settle demo_inspectors 4 demo_rewrite)).(ph_live) = Some live /\
    (get_reply demo_rewrite 2).(r_rewrite_sha256) = None /\
    live.(l_has_sha256) = true /\ live.(l_sha256) = replicate 32 0.
Proof. eexists. split_and!; vm_compute; reflexivity. Qed.

(** Three inspectors must answer, timeouts block and failures of the body pass.
    Two of them rewrite the body, the third does not answer: once the deadline
    has passed the recorded timeout is replaced by a failure of the body, and
    the request is let through without the verdict it had to wait for. *)
Definition late_wave : wave_t := mkWave 0 0 7 0 BODY_NONE 0.
Definition late_lc : loc_conf unit :=
  mkLocConf true false
    (fun p => if p ==? PHASE_REQUEST
              then Some [demo_binding 0 MODE_ACTIVE; demo_binding 1 MODE_ACTIVE; demo_binding 2 MODE_ACTIVE] else None)
    (fun p => if p ==? PHASE_REQUEST then Some [late_wave] else None)
    (fun _ => 100) (fun _ exc => if exc ==? EXC_BODY then POLICY_PASS else POLICY_BLOCK) (fun _ _ => []) (fun _ => DENY_FAST)
    (fun _ => 50) (fun _ => mkShoot 0 0) 4.
Definition late_conf : Z -> loc_conf unit := fun _ => late_lc.
Definition late_start : world :=
  snd (ngx_http_waf_access late_conf demo_inspectors zlen (fun _ => false) (fun _ => []) (fun _ _ => true) (demo_ext 1000) true 7 demo_w0).
Definition late_reply : reply_t :=
  reply0 <| r_verdict := V_ALLOW |> <| r_rewrite_has := true |> <| r_rewrite_body := true |> <| r_rewrite_key := lit "k" |>.
Definition late_answer (i : Z) (w : world) : world :=
  ngx_http_waf_bus_dispatch late_conf demo_inspectors zlen (demo_ext 1010) (the_link w.(wd_tab) 7).(c_rid) i (Some late_reply) w.
Definition late_world : world := late_answer 1 (late_answer 0 late_start).

Theorem body_failure_hides_timeout :
  let w' := ngx_http_waf_on_deadline late_conf demo_inspectors zlen (demo_ext 5000) 7 late_world in
  q_waiting (rq late_world 7) = true /\ (sl late_world (the_link late_world.(wd_tab) 7).(c_slot)).(got) = 3 /\
  late_lc.(lc_exception) PHASE_REQUEST EXC_TIMEOUT = POLICY_BLOCK /\
  (ph (cx w' 7)).(ph_fail) = CODE_FAIL_BODY /\ c_state (cx w' 7) = ST_ALLOW.
Proof. vm_compute. by split_and!. Qed.

End HandlerSafety.
