(* ===== verification/Json.v ===== *)
(** The JSON codec of codec/ngx_http_waf_json.c: the bounded writer [jw], the
    pull parser [jp] and the skipper of unknown values.

    A parser is a function of the parser state: its result is a value
    ([NGX_OK]), a failure ([NGX_ERROR], with the message left in [jp_error]) or
    [RFuel], which stands for a loop that did not come to its end within the
    fuel of the model; JsonFacts.v shows that it never is the result.  The
    pair of pointers [pos] and [end] is the list of the bytes between them. *)
From S2P Require Import Prelude.
#[local] Open Scope Z_scope.

Module Json.

Definition NGX_HTTP_WAF_JSON_MAX_DEPTH : nat := 16.

(** ** UTF-8 *)

(** [ngx_http_waf_utf8_encode]: the bytes stored at [p]. *)
Definition ngx_http_waf_utf8_encode (u : Z) : bytes :=
  if u <? 0x80 then [u8 u]
  else if u <? 0x800 then
    [u8 (Z.lor 0xc0 (Z.shiftr u 6)); u8 (Z.lor 0x80 (Z.land u 0x3f))]
  else if u <? 0x10000 then
    [u8 (Z.lor 0xe0 (Z.shiftr u 12)); u8 (Z.lor 0x80 (Z.land (Z.shiftr u 6) 0x3f));
     u8 (Z.lor 0x80 (Z.land u 0x3f))]
  else
    [u8 (Z.lor 0xf0 (Z.shiftr u 18)); u8 (Z.lor 0x80 (Z.land (Z.shiftr u 12) 0x3f));
     u8 (Z.lor 0x80 (Z.land (Z.shiftr u 6) 0x3f)); u8 (Z.lor 0x80 (Z.land u 0x3f))].

(** The continuation bytes: [inl] the length of the sequence, [inr bad]. *)
Fixpoint utf8_cont (need i : nat) (lo hi : Z) (p : bytes) : nat + nat :=
  match need with
  | O => inl i
  | S k =>
      match p with
      | [] => inr i
      | c :: p' => if (c <? lo) || (hi <? c) then inr i else utf8_cont k (S i) 0x80 0xbf p'
      end
  end.

Definition ngx_http_waf_utf8_valid (p : bytes) : nat + nat :=
  match p with
  | [] => inr 1%nat
  | c :: p' =>
      if c <? 0x80 then inl 1%nat
      else if (0xc2 <=? c) && (c <=? 0xdf) then utf8_cont 1 1 0x80 0xbf p'
      else if c =? 0xe0 then utf8_cont 2 1 0xa0 0xbf p'
      else if (0xe1 <=? c) && (c <=? 0xef) then
        utf8_cont 2 1 0x80 (if c =? 0xed then 0x9f else 0xbf) p'
      else if c =? 0xf0 then utf8_cont 3 1 0x90 0xbf p'
      else if (0xf1 <=? c) && (c <=? 0xf3) then utf8_cont 3 1 0x80 0xbf p'
      else if c =? 0xf4 then utf8_cont 3 1 0x80 0x8f p'
      else inr 1%nat
  end.

(** ** The writer

    [jw_out] is what lies between [start] and [pos], [jw_room] the distance
    [end - pos]. *)

Record jw_t := mkJw { jw_out : bytes; jw_room : Z; jw_overflow : bool }.
#[export] Instance eta_jw_t : Eta jw_t := fun r =>
  mkJw r.(jw_out) r.(jw_room) r.(jw_overflow).

Definition ngx_http_waf_jw_init (size : Z) : jw_t := mkJw [] size false.

(** The stores [*jw->pos++ = c]. *)
Definition jw_put (d : bytes) (w : jw_t) : jw_t :=
  w <| jw_out ::= (fun o => o ++ d) |> <| jw_room ::= (fun r => r - zlen d) |>.

Definition ngx_http_waf_jw_raw (d : bytes) (w : jw_t) : jw_t :=
  if w.(jw_room) <? zlen d then w <| jw_overflow := true |> else jw_put d w.

(** The escape of a control character, with its literal in [jw_lit]. *)
Definition ctl_escape (c : Z) : option bytes :=
  if c =? 10 then Some (lit "\n") else if c =? 13 then Some (lit "\r")
  else if c =? 9 then Some (lit "\t") else if c =? 8 then Some (lit "\b")
  else if c =? 12 then Some (lit "\f") else None.

(** The stores guarded by a test of the room; [None] is the early return. *)
Definition put_or_stop (d : bytes) (w : jw_t) : jw_t * bool :=
  if w.(jw_room) <? zlen d then (w <| jw_overflow := true |>, false) else (jw_put d w, true).

(** One turn of the loop of [jw_string] at a byte below 0x80. *)
Definition jw_char (c : Z) (w : jw_t) : jw_t * bool :=
  if (c =? 34) || (c =? 92) then put_or_stop [92; c] w
  else if 0x20 <=? c then put_or_stop [c] w
  else match ctl_escape c with
       | Some l => (ngx_http_waf_jw_raw l w, true)
       | None => put_or_stop [92; 117; 48; 48; hex_digit (Z.land (Z.shiftr c 4) 0xf);
                              hex_digit (Z.land c 0xf)] w
       end.

(** The loop of [jw_string]; the flag says whether it ran to its end.  Every
    turn takes at least one byte, so the length of the data is fuel enough. *)
Fixpoint jw_string_loop (fuel : nat) (data : bytes) (w : jw_t) : jw_t * bool :=
  match fuel, data with
  | _, [] => (w, true)
  | O, _ => (w, false)
  | S f, c :: rest =>
      if 0x80 <=? c then
        match ngx_http_waf_utf8_valid data with
        | inl n => jw_string_loop f (drop n data) (ngx_http_waf_jw_raw (take n data) w)
        | inr bad => jw_string_loop f (drop bad data) (ngx_http_waf_jw_raw [0xef; 0xbf; 0xbd] w)
        end
      else
        match jw_char c w with
        | (w, true) => jw_string_loop f rest w
        | (w, false) => (w, false)
        end
  end.

Definition ngx_http_waf_jw_string (data : bytes) (w : jw_t) : jw_t :=
  let w := ngx_http_waf_jw_raw [34] w in
  match jw_string_loop (length data) data w with
  | (w, true) => ngx_http_waf_jw_raw [34] w
  | (w, false) => w
  end.

(** [ngx_sprintf] is nginx's: what the writer relies on is that ["%i"] prints
    an [ngx_int_t] in decimal, stated where it is used. *)
Definition ngx_http_waf_jw_int (sprintf_i : Z -> bytes) (v : Z) (w : jw_t) : jw_t :=
  ngx_http_waf_jw_raw (sprintf_i v) w.

(** ** The parser *)

Record jp_t := mkJp {
  jp_pos : bytes;
  jp_error : option string;
  jp_first : bool;
  jp_mem : alloc_stream
}.
#[export] Instance eta_jp_t : Eta jp_t := fun r =>
  mkJp r.(jp_pos) r.(jp_error) r.(jp_first) r.(jp_mem).

Inductive res (A : Type) := ROk (a : A) | RErr | RFuel.
Arguments ROk {A} a.
Arguments RErr {A}.
Arguments RFuel {A}.

Definition parser (A : Type) : Type := jp_t -> res A * jp_t.

#[export] Instance parser_ret : MRet parser := fun A a p => (ROk a, p).
#[export] Instance parser_bind : MBind parser := fun A B f m p =>
  match m p with
  | (ROk a, p') => f a p'
  | (RErr, p') => (RErr, p')
  | (RFuel, p') => (RFuel, p')
  end.

(** [return NGX_ERROR], without and with a message. *)
Definition perr {A} : parser A := fun p => (RErr, p).
Definition perror {A} (msg : string) : parser A := fun p => (RErr, p <| jp_error := Some msg |>).
Definition pfuel {A} : parser A := fun p => (RFuel, p).
Definition pget : parser jp_t := fun p => (ROk p, p).
Definition pset_pos (s : bytes) : parser unit := fun p => (ROk tt, p <| jp_pos := s |>).
Definition pset_first (b : bool) : parser unit := fun p => (ROk tt, p <| jp_first := b |>).
(** [if (!b) { return NGX_ERROR; }]. *)
Definition pguard (b : bool) : parser unit := if b then mret tt else perr.
(** One allocation from the pool of the parser; [NULL] is an error of its
    caller. *)
Definition palloc : parser bool := fun p =>
  let '(b, o) := alloc p.(jp_mem) in (ROk b, p <| jp_mem := o |>).
(** The byte at [pos], [None] at the end. *)
Definition ppeek : parser (option Z) := fun p => (ROk (head p.(jp_pos)), p).
(** [jp->pos++]. *)
Definition padvance : parser unit := fun p => (ROk tt, p <| jp_pos ::= drop 1 |>).
(** [if (f(jp) != NGX_OK) { ... }]: the failure of [m] as a value. *)
Definition ptry {A} (m : parser A) : parser (option A) := fun p =>
  match m p with
  | (ROk a, p') => (ROk (Some a), p')
  | (RErr, p') => (ROk None, p')
  | (RFuel, p') => (RFuel, p')
  end.

Definition ngx_http_waf_jp_init (payload : bytes) (mem : alloc_stream) : jp_t :=
  mkJp payload None false mem.

Definition is_ws (c : Z) : bool := (c =? 32) || (c =? 9) || (c =? 13) || (c =? 10).

Fixpoint ws_drop (s : bytes) : bytes :=
  match s with
  | c :: s' => if is_ws c then ws_drop s' else s
  | [] => []
  end.

Definition ngx_http_waf_jp_ws : parser unit := fun p => (ROk tt, p <| jp_pos ::= ws_drop |>).

Definition ngx_http_waf_jp_open (open : Z) : parser unit :=
  ngx_http_waf_jp_ws;;
  c ← ppeek;
  if bool_decide (c = Some open) then padvance;; pset_first true
  else perror "expected object or array".

Definition ngx_http_waf_jp_object : parser unit := ngx_http_waf_jp_open 123.
Definition ngx_http_waf_jp_array : parser unit := ngx_http_waf_jp_open 91.

(** [true] is [NGX_OK] and [false] is [NGX_DONE]. *)
Definition ngx_http_waf_jp_next (close : Z) : parser bool :=
  ngx_http_waf_jp_ws;;
  p ← pget;
  match p.(jp_pos) with
  | [] => perror "truncated message"
  | c :: _ =>
      if c =? close then padvance;; pset_first false;; mret false
      else if p.(jp_first) then pset_first false;; mret true
      else if negb (c =? 44) then perror "expected comma"
      else
        padvance;; ngx_http_waf_jp_ws;;
        c ← ppeek;
        if bool_decide (c = Some close) then perror "trailing comma" else mret true
  end.

(** *** Strings *)

Definition hex_val (c : Z) : option Z :=
  if (48 <=? c) && (c <=? 57) then Some (c - 48)
  else if (97 <=? c) && (c <=? 102) then Some (c - 97 + 10)
  else if (65 <=? c) && (c <=? 70) then Some (c - 65 + 10)
  else None.

Fixpoint hex4_loop (n : nat) (v : Z) : parser Z :=
  match n with
  | O => mret v
  | S k =>
      c ← ppeek; padvance;;
      match hex_val (default 0 c) with
      | Some d => hex4_loop k (u32 (u32 (Z.shiftl v 4) + d))
      | None => perror "invalid \u escape"
      end
  end.

Definition ngx_http_waf_jp_hex4 : parser Z :=
  p ← pget;
  if zlen p.(jp_pos) <? 4 then perror "truncated \u escape" else hex4_loop 4 0.

(** The escapes of one character. *)
Definition simple_escape (c : Z) : option Z :=
  if c =? 34 then Some 34 else if c =? 92 then Some 92 else if c =? 47 then Some 47
  else if c =? 98 then Some 8 else if c =? 102 then Some 12 else if c =? 110 then Some 10
  else if c =? 114 then Some 13 else if c =? 116 then Some 9 else None.

(** The code point of a [\u] escape whose first four digits are [cp]. *)
Definition escape_cp (cp : Z) : parser Z :=
  if (0xdc00 <=? cp) && (cp <=? 0xdfff) then mret 0xfffd
  else if (0xd800 <=? cp) && (cp <=? 0xdbff) then
    save ← pget;
    if (6 <=? zlen save.(jp_pos)) && bool_decide (take 2 save.(jp_pos) = [92; 117]) then
      padvance;; padvance;;
      low ← ngx_http_waf_jp_hex4;
      if (0xdc00 <=? low) && (low <=? 0xdfff) then
        mret (0x10000 + Z.shiftl (cp - 0xd800) 10 + (low - 0xdc00))
      else pset_pos save.(jp_pos);; mret 0xfffd
    else mret 0xfffd
  else mret cp.

(** The bytes left in [unit]; called with [pos < end]. *)
Definition ngx_http_waf_jp_unit : parser bytes :=
  p ← pget;
  match p.(jp_pos) with
  | [] => perr
  | c :: _ =>
      if c <? 0x20 then perror "control character in string"
      else if 0x80 <=? c then
        match ngx_http_waf_utf8_valid p.(jp_pos) with
        | inr _ => perror "invalid UTF-8 in string"
        | inl n => pset_pos (drop n p.(jp_pos));; mret (take n p.(jp_pos))
        end
      else
        padvance;;
        if negb (c =? 92) then mret [c] else
        e ← ppeek;
        match e with
        | None => perror "unterminated string"
        | Some e =>
            padvance;;
            match simple_escape e with
            | Some u => mret [u]
            | None =>
                if negb (e =? 117) then perror "unknown escape sequence" else
                cp ← ngx_http_waf_jp_hex4;
                cp ← escape_cp cp;
                mret (ngx_http_waf_utf8_encode cp)
            end
        end
  end.

(** The loop of [jp_string_buf]: [out] is what is in the buffer, [room] what
    is left of it; once a unit did not fit, nothing more is stored. *)
Fixpoint string_loop (fuel : nat) (room : Z) (full : bool) (out : bytes) : parser (option bytes) :=
  match fuel with
  | O => pfuel
  | S f =>
      c ← ppeek;
      match c with
      | None => perror "unterminated string"
      | Some c =>
          if c =? 34 then padvance;; mret (if full then None else Some out)
          else
            u ← ngx_http_waf_jp_unit;
            if full || (room <? zlen u) then string_loop f room true out
            else string_loop f (room - zlen u) full (out ++ u)
      end
  end.

(** [None] is [NGX_DECLINED], the string does not fit the buffer. *)
Definition ngx_http_waf_jp_string_buf (size : Z) : parser (option bytes) :=
  ngx_http_waf_jp_ws;;
  p ← pget;
  match p.(jp_pos) with
  | c :: rest =>
      if c =? 34 then padvance;; string_loop (S (length rest)) size false []
      else perror "expected string"
  | [] => perror "expected string"
  end.

(** The scan for the closing quote in [jp_string]: its distance from the
    first byte, [None] when [p] reaches [end]. *)
Fixpoint quote_scan (s : bytes) (n : Z) : option Z :=
  match s with
  | [] => None
  | c :: s' =>
      if c =? 34 then Some n
      else if c =? 92 then match s' with [] => None | _ :: s'' => quote_scan s'' (n + 2) end
      else quote_scan s' (n + 1)
  end.

(** [None] is the [NGX_DECLINED] of [jp_string_buf]. *)
Definition jp_string_rc : parser (option bytes) :=
  ngx_http_waf_jp_ws;;
  p ← pget;
  match p.(jp_pos) with
  | c :: rest =>
      if c =? 34 then
        match quote_scan rest 0 with
        | None => perror "unterminated string"
        | Some size =>
            dst ← palloc;
            if (dst : bool) then ngx_http_waf_jp_string_buf size else perror "no memory"
        end
      else perror "expected string"
  | [] => perror "expected string"
  end.

(** Every caller tests [!= NGX_OK]. *)
Definition ngx_http_waf_jp_string : parser bytes :=
  r ← jp_string_rc;
  match r with Some s => mret s | None => perr end.

Definition ngx_http_waf_jp_string_skip : parser unit :=
  ngx_http_waf_jp_string_buf 0;; mret tt.

(** ** Structure *)

(** [None] is [NGX_DONE]. *)
Definition ngx_http_waf_jp_member : parser (option bytes) :=
  rc ← ngx_http_waf_jp_next 125;
  if (rc : bool) then
    key ← ngx_http_waf_jp_string;
    ngx_http_waf_jp_ws;;
    c ← ppeek;
    if bool_decide (c = Some 58) then padvance;; ngx_http_waf_jp_ws;; mret (Some key)
    else perror "expected colon after member name"
  else mret None.

Definition ngx_http_waf_jp_element : parser bool :=
  rc ← ngx_http_waf_jp_next 93;
  if (rc : bool) then ngx_http_waf_jp_ws;; mret true else mret false.

Definition ngx_http_waf_jp_end : parser unit :=
  ngx_http_waf_jp_ws;;
  p ← pget;
  match p.(jp_pos) with
  | [] => mret tt
  | _ => perror "trailing data after the document"
  end.

(** ** Scalars *)

Definition NGX_MAX_INT_T_VALUE : Z := 2 ^ 63 - 1.

Definition is_digit (c : Z) : bool := (48 <=? c) && (c <=? 57).

(** The loop over the digits: the value and the number of digits. *)
Fixpoint int_loop (s : bytes) (v digits : Z) : parser (Z * Z) :=
  match s with
  | c :: s' =>
      if negb (is_digit c) then mret (v, digits)
      else if (digits =? 1) && (v =? 0) then perror "leading zero in number"
      else
        let d := c - 48 in
        if (u64 (NGX_MAX_INT_T_VALUE - d)) / 10 <? v then perror "number out of range"
        else padvance;; int_loop s' (u64 (v * 10 + d)) (digits + 1)
  | [] => mret (v, digits)
  end.

Definition ngx_http_waf_jp_int : parser Z :=
  ngx_http_waf_jp_ws;;
  c ← ppeek;
  let negative := bool_decide (c = Some 45) in
  (if negative then padvance else mret tt);;
  p ← pget;
  '(v, digits) ← int_loop p.(jp_pos) 0 0;
  if digits =? 0 then perror "expected integer" else
  c ← ppeek;
  if bool_decide (c = Some 46) || bool_decide (c = Some 101) || bool_decide (c = Some 69) then
    perror "expected integer, got fractional number"
  else mret (if negative then s64 (- s64 v) else s64 v).

(** [None] is the silent [NGX_ERROR]. *)
Definition ngx_http_waf_jp_literal (l : bytes) : parser bool :=
  p ← pget;
  if bool_decide (take (length l) p.(jp_pos) = l) then
    pset_pos (drop (length l) p.(jp_pos));; mret true
  else mret false.

Definition ngx_http_waf_jp_bool : parser bool :=
  ngx_http_waf_jp_ws;;
  t ← ngx_http_waf_jp_literal (lit "true");
  if (t : bool) then mret true else
  f ← ngx_http_waf_jp_literal (lit "false");
  if (f : bool) then mret false else perror "expected boolean".

Definition ngx_http_waf_jp_null : parser bool :=
  ngx_http_waf_jp_ws;; ngx_http_waf_jp_literal (lit "null").

(** ** Skipping a value *)

Definition ngx_http_waf_jp_key_skip : parser unit :=
  ngx_http_waf_jp_string_skip;;
  ngx_http_waf_jp_ws;;
  c ← ppeek;
  if bool_decide (c = Some 58) then padvance else perror "expected colon after member name".

Fixpoint digits_drop (s : bytes) : bytes :=
  match s with
  | c :: s' => if is_digit c then digits_drop s' else s
  | [] => []
  end.

Definition ngx_http_waf_jp_digits : parser unit :=
  p ← pget;
  pset_pos (digits_drop p.(jp_pos));;
  if match p.(jp_pos) with c :: _ => is_digit c | [] => false end then mret tt
  else perror "invalid number".

Definition ngx_http_waf_jp_number_skip : parser unit :=
  c ← ppeek;
  (if bool_decide (c = Some 45) then padvance else mret tt);;
  c ← ppeek;
  (if bool_decide (c = Some 48) then padvance else ngx_http_waf_jp_digits);;
  c ← ppeek;
  (if bool_decide (c = Some 46) then padvance;; ngx_http_waf_jp_digits else mret tt);;
  c ← ppeek;
  if bool_decide (c = Some 101) || bool_decide (c = Some 69) then
    padvance;;
    c ← ppeek;
    (if bool_decide (c = Some 43) || bool_decide (c = Some 45) then padvance else mret tt);;
    ngx_http_waf_jp_digits
  else mret tt.

(** The [switch] of [jp_skip] on the first byte of a value.  The stack of
    closing brackets has its top first; the flag is [true] for the [continue]
    into a container and [false] for the [break] after a whole value. *)
Definition skip_value (stack : list Z) : parser (list Z * bool) :=
  ngx_http_waf_jp_ws;;
  c ← ppeek;
  match c with
  | None => perror "truncated value"
  | Some c =>
      if (c =? 123) || (c =? 91) then
        if Nat.eqb (length stack) NGX_HTTP_WAF_JSON_MAX_DEPTH then
          perror "message nested too deeply"
        else
          let close := if c =? 123 then 125 else 93 in
          padvance;; ngx_http_waf_jp_ws;;
          n ← ppeek;
          if bool_decide (n = Some close) then padvance;; mret (stack, false)
          else
            (if c =? 123 then ngx_http_waf_jp_key_skip else mret tt);;
            mret (close :: stack, true)
      else if c =? 34 then ngx_http_waf_jp_string_skip;; mret (stack, false)
      else if (c =? 116) || (c =? 102) then ngx_http_waf_jp_bool;; mret (stack, false)
      else if c =? 110 then
        b ← ngx_http_waf_jp_null;
        if (b : bool) then mret (stack, false) else perror "unexpected value"
      else if negb (c =? 45) && negb (is_digit c) then perror "unexpected character"
      else ngx_http_waf_jp_number_skip;; mret (stack, false)
  end.

(** The inner loop after a value: it closes containers until one goes on with
    a comma; an empty stack is [return NGX_OK]. *)
Fixpoint skip_after (stack : list Z) : parser (list Z) :=
  match stack with
  | [] => mret []
  | close :: stack' =>
      ngx_http_waf_jp_ws;;
      c ← ppeek;
      match c with
      | None => perror "truncated value"
      | Some c =>
          if c =? close then padvance;; skip_after stack'
          else if negb (c =? 44) then perror "expected comma"
          else
            padvance;;
            (if close =? 125 then ngx_http_waf_jp_key_skip else mret tt);;
            mret stack
      end
  end.

Fixpoint skip_loop (fuel : nat) (stack : list Z) : parser unit :=
  match fuel with
  | O => pfuel
  | S f =>
      '(stack, inside) ← skip_value stack;
      if (inside : bool) then skip_loop f stack
      else
        stack ← skip_after stack;
        match stack with
        | [] => mret tt
        | _ => skip_loop f stack
        end
  end.

Definition ngx_http_waf_jp_skip : parser unit :=
  p ← pget; skip_loop (S (length p.(jp_pos))) [].

(** ** Loops over members and elements

    [for ( ;; ) { rc = jp_member(jp, &key); if (rc == NGX_DONE) break; ... }]
    with the body as a parser on the state of the loop; every caller of the
    codec walks objects and arrays this way. *)

Fixpoint members_loop {S} (fuel : nat) (body : bytes -> S -> parser S) (s : S) : parser S :=
  match fuel with
  | O => pfuel
  | Datatypes.S f =>
      k ← ngx_http_waf_jp_member;
      match k with
      | None => mret s
      | Some key => s ← body key s; members_loop f body s
      end
  end.

Definition members {S} (body : bytes -> S -> parser S) (s : S) : parser S :=
  p ← pget; members_loop (Datatypes.S (length p.(jp_pos))) body s.

Fixpoint elements_loop {S} (fuel : nat) (body : S -> parser S) (s : S) : parser S :=
  match fuel with
  | O => pfuel
  | Datatypes.S f =>
      more ← ngx_http_waf_jp_element;
      if (more : bool) then s ← body s; elements_loop f body s else mret s
  end.

Definition elements {S} (body : S -> parser S) (s : S) : parser S :=
  p ← pget; elements_loop (Datatypes.S (length p.(jp_pos))) body s.

End Json.
