(* ===== verification/JsonFacts.v ===== *)
(** Facts about the JSON codec: every parser takes a prefix of its input and
    comes to a result within its fuel; decoding never needs more room than the
    text takes; the skipper accepts exactly the JSON values nested at most
    sixteen deep; what the writer prints, the parser reads back. *)
From Stdlib Require Import Wf_nat.
From S2P Require Import Prelude Json.
Import Json.
#[local] Open Scope Z_scope.

Module JsonFacts.

(** * Parsers take a prefix and never run out of fuel *)

(** [p'] is [p] after at least [k] more bytes were taken. *)
Definition takes (k : nat) (p p' : jp_t) : Prop :=
  exists u, p.(jp_pos) = u ++ p'.(jp_pos) /\ (k <= length u)%nat.

Definition wb_at {A} (k : nat) (m : parser A) (p : jp_t) : Prop :=
  match m p with
  | (ROk _, p') => takes k p p'
  | (RErr, p') => takes 0 p p'
  | (RFuel, _) => False
  end.

(** [m] is well behaved: it returns, and takes at least [k] bytes when it
    succeeds. *)
Definition wb {A} (k : nat) (m : parser A) : Prop := forall p, wb_at k m p.

Lemma wb_elim {A} k (m : parser A) p : wb k m -> wb_at k m p.
Proof. intros H. apply H. Qed.

Create HintDb wb.

Lemma takes_refl p : takes 0 p p.
Proof. by exists []. Qed.
Lemma takes_same p p' : p.(jp_pos) = p'.(jp_pos) -> takes 0 p p'.
Proof. intros H. exists []. by rewrite H. Qed.
Lemma takes_trans i j p q r : takes i p q -> takes j q r -> takes (i + j) p r.
Proof.
  intros (u & Hu & Hi) (v & Hv & Hj). exists (u ++ v).
  rewrite Hu, Hv, app_assoc, length_app. split; [done|lia].
Qed.
Lemma takes_weaken i j p q : takes i p q -> (j <= i)%nat -> takes j p q.
Proof. intros (u & Hu & Hi) ?. exists u. split; [done|lia]. Qed.
Lemma takes_length k p q : takes k p q -> (length q.(jp_pos) + k <= length p.(jp_pos))%nat.
Proof. intros (u & -> & ?). rewrite length_app. lia. Qed.

Lemma wb_at_bind {A B} i j (m : parser A) (f : A -> parser B) p :
  wb_at i m p -> (forall a p', m p = (ROk a, p') -> takes i p p' -> wb_at j (f a) p') ->
  wb_at (i + j) (m ≫= f) p.
Proof.
  unfold wb_at, mbind, parser_bind. intros Hm Hf.
  destruct (m p) as [[a| |] p'] eqn:E; [|done|done].
  specialize (Hf a p' eq_refl Hm).
  destruct (f a p') as [[b| |] p'']; [by eapply takes_trans| |done].
  eapply takes_weaken; [by eapply takes_trans|lia].
Qed.

(** [m] run after [i] bytes were taken. *)
Lemma wb_after {A} i k (m : parser A) p q : takes i p q -> wb_at k m q ->
  match m q with
  | (ROk _, p') => takes (i + k) p p'
  | (RErr, p') => takes 0 p p'
  | (RFuel, _) => False
  end.
Proof.
  unfold wb_at. intros Ht. destruct (m q) as [[a| |] r]; [by apply takes_trans| |done].
  intros H. eapply takes_weaken; [by eapply takes_trans|lia].
Qed.

Lemma wb_weaken {A} i j (m : parser A) p : wb_at i m p -> (j <= i)%nat -> wb_at j m p.
Proof.
  unfold wb_at. destruct (m p) as [[a| |] p']; [|done|done].
  intros. by eapply takes_weaken.
Qed.

(** The usual use: nothing is known of the intermediate value. *)
Lemma wb_bind {A B} i j k (m : parser A) (f : A -> parser B) :
  wb i m -> (forall a, wb j (f a)) -> (k <= i + j)%nat -> wb k (m ≫= f).
Proof.
  intros Hm Hf Hk p. eapply wb_weaken; [|exact Hk].
  apply wb_at_bind; [apply Hm|]. intros. apply Hf.
Qed.

Lemma wb_bind0 {A B} j (m : parser A) (f : A -> parser B) :
  wb 0 m -> (forall a, wb j (f a)) -> wb j (m ≫= f).
Proof. intros. by eapply (wb_bind 0 j). Qed.
Lemma wb_bind_l {A B} i (m : parser A) (f : A -> parser B) :
  wb i m -> (forall a, wb 0 (f a)) -> wb i (m ≫= f).
Proof. intros. eapply (wb_bind i 0); [done|done|lia]. Qed.

Lemma wb_ret {A} (a : A) : wb 0 (mret a).
Proof. intros p. apply takes_refl. Qed.
Lemma wb_perr {A} k : wb k (perr : parser A).
Proof. intros p. apply takes_refl. Qed.
Lemma wb_perror {A} k msg : wb k (perror msg : parser A).
Proof. intros p. by apply takes_same. Qed.
Lemma wb_pget : wb 0 pget.
Proof. intros p. apply takes_refl. Qed.
Lemma wb_ppeek : wb 0 ppeek.
Proof. intros p. apply takes_refl. Qed.
Lemma wb_pset_first b : wb 0 (pset_first b).
Proof. intros p. by apply takes_same. Qed.
Lemma wb_pguard b : wb 0 (pguard b).
Proof. destruct b; [apply wb_ret|apply wb_perr]. Qed.
Lemma wb_palloc : wb 0 palloc.
Proof.
  intros p. unfold wb_at, palloc. destruct (alloc p.(jp_mem)). by apply takes_same.
Qed.
Lemma wb_padvance : wb 0 padvance.
Proof.
  intros p. exists (take 1 p.(jp_pos)). cbn. split; [by rewrite take_drop|lia].
Qed.
(** After a byte was seen, [pos++] takes it. *)
Lemma wb_padvance_at p c rest : p.(jp_pos) = c :: rest -> wb_at 1 padvance p.
Proof. intros E. exists [c]. cbn. rewrite E. by split; [|cbn; lia]. Qed.

Lemma ws_drop_suffix s : exists u, s = u ++ ws_drop s /\ Forall (fun c => is_ws c = true) u.
Proof.
  induction s as [|c s (u & E & Hu)]; cbn; [by exists []|].
  destruct (is_ws c) eqn:Ec; [|by exists []].
  exists (c :: u). split; [cbn; by rewrite <- E|by constructor].
Qed.
Lemma wb_ws : wb 0 ngx_http_waf_jp_ws.
Proof.
  intros p. destruct (ws_drop_suffix p.(jp_pos)) as (u & E & _). exists u. cbn. split; [done|lia].
Qed.

#[export] Hint Resolve wb_ret wb_perr wb_perror wb_pget wb_ppeek wb_pset_first wb_pguard
  wb_palloc wb_padvance wb_ws : wb.

(** Decomposes a parser written in the monad. *)
Ltac wb_step :=
  lazymatch goal with
  | |- wb 0 (_ ≫= _) => apply wb_bind0; [|intros ?]
  | |- wb _ (if ?b then _ else _) => destruct b
  | |- wb _ (match ?x with _ => _ end) => destruct x
  | |- wb _ _ => solve [eauto with wb]
  end.
Ltac wb_auto := repeat wb_step.

(** A parser that looks at the next byte [c] and then takes it. *)
Lemma wb_peek_take {B} k (f : option Z -> parser B) p :
  (forall c, c = head p.(jp_pos) -> wb_at k (f c) p) -> wb_at k (ppeek ≫= f) p.
Proof. intros H. apply (wb_at_bind 0 k); [apply wb_ppeek|]. intros a p' [= <- <-] _. by apply H. Qed.

Lemma wb_get_take {B} k (f : jp_t -> parser B) p : wb_at k (f p) p -> wb_at k (pget ≫= f) p.
Proof. intros H. apply (wb_at_bind 0 k); [apply wb_pget|]. by intros a p' [= <- <-] _. Qed.

Lemma wb_ws_bind {B} k (f : unit -> parser B) p :
  (forall q, wb_at k (f tt) q) -> wb_at k (ngx_http_waf_jp_ws ≫= f) p.
Proof. intros H. apply (wb_at_bind 0 k); [apply wb_ws|]. by intros [] p' _ _. Qed.

Lemma wb_advance_bind {B} p c rest (f : unit -> parser B) :
  p.(jp_pos) = c :: rest -> wb 0 (f tt) -> wb_at 1 (padvance ≫= f) p.
Proof.
  intros E Hf. apply (wb_at_bind 1 0); [by eapply wb_padvance_at|]. intros [] p' _ _. apply Hf.
Qed.

Lemma wb_peek_some {B} k p (f : Z -> parser B) msg :
  (forall c rest, p.(jp_pos) = c :: rest -> wb_at k (f c) p) ->
  wb_at k (c ← ppeek; match c with None => perror msg | Some c => f c end) p.
Proof.
  intros H. apply wb_peek_take. intros c ->. destruct (jp_pos p) as [|c rest] eqn:E; cbn [head].
  - apply wb_elim, wb_perror.
  - by eapply H.
Qed.

Lemma wb_open c : wb 1 (ngx_http_waf_jp_open c).
Proof.
  intros p. apply wb_ws_bind. intros q. apply wb_peek_take. intros o ->.
  case_bool_decide as H; [|apply wb_elim, wb_perror].
  destruct (jp_pos q) as [|x rest] eqn:E; [done|].
  eapply wb_advance_bind; [done|]. apply wb_pset_first.
Qed.

Lemma wb_next c : wb 0 (ngx_http_waf_jp_next c).
Proof. unfold ngx_http_waf_jp_next. wb_auto. Qed.

(** ** Strings *)

Lemma wb_pset_pos_at (s : bytes) k p : (exists u, p.(jp_pos) = u ++ s /\ (k <= length u)%nat) ->
  wb_at k (pset_pos s) p.
Proof. intros (u & E & Hk). by exists u. Qed.

Lemma wb_hex4_loop n v : wb 0 (hex4_loop n v).
Proof. revert v. induction n as [|n IH]; intros v; cbn; wb_auto. Qed.
Lemma wb_hex4 : wb 0 ngx_http_waf_jp_hex4.
Proof. unfold ngx_http_waf_jp_hex4. apply wb_bind0; [apply wb_pget|]. intros p. destruct (_ <? _); [apply wb_perror|apply wb_hex4_loop]. Qed.
#[export] Hint Resolve wb_open wb_next wb_hex4 : wb.

Lemma wb_escape_cp cp : wb 0 (escape_cp cp).
Proof.
  unfold escape_cp. wb_step; [wb_auto|]. wb_step; [|wb_auto].
  intros save. apply wb_get_take. destruct (_ && _); [|apply wb_elim, wb_ret].
  (* the position saved before the second escape is restored *)
  unfold wb_at, mbind, parser_bind. cbn [padvance].
  pose proof (wb_hex4 (save <| jp_pos ::= drop 1 |> <| jp_pos ::= drop 1 |>)) as Hh.
  unfold wb_at in Hh. cbn -[ngx_http_waf_jp_hex4 drop] in *.
  assert (Hd : takes 0 save (mkJp (drop 1 (drop 1 (jp_pos save))) (jp_error save) (jp_first save) (jp_mem save))).
  { exists (take 2 (jp_pos save)). cbn. rewrite drop_drop, take_drop. split; [done|lia]. }
  destruct (ngx_http_waf_jp_hex4 _) as [[low| |] p']; [|by eapply (takes_trans 0 0)|done].
  destruct (_ && _); cbn; [by eapply (takes_trans 0 0)|by apply takes_same].
Qed.

(** * UTF-8 *)

(** A Unicode scalar value. *)
Definition scalar (u : Z) : Prop := 0 <= u <= 0x10ffff /\ ~ (0xd800 <= u <= 0xdfff).

Lemma lor_field a n d : 0 <= n -> 0 <= d < 2 ^ n -> Z.lor (a * 2 ^ n) d = a * 2 ^ n + d.
Proof. intros. rewrite <- Z.shiftl_mul_pow2 by done. rewrite lor_shiftl by done. by rewrite Z.shiftl_mul_pow2. Qed.

Lemma land_3f u : Z.land u 0x3f = u mod 64.
Proof. change 0x3f with (Z.ones 6). by rewrite Z.land_ones by lia. Qed.

Lemma cont_byte u : u8 (Z.lor 0x80 (Z.land u 0x3f)) = 0x80 + u mod 64.
Proof.
  rewrite land_3f. change 0x80 with (2 * 2 ^ 6).
  pose proof (Z.mod_pos_bound u 64). rewrite lor_field by lia. apply u8_small. unfold is_u8. lia.
Qed.

Lemma lead_byte a n u : 0 <= n -> 0 <= a -> 0 <= u < 2 ^ n -> (a + 1) * 2 ^ n <= 2 ^ 8 ->
  u8 (Z.lor (a * 2 ^ n) u) = a * 2 ^ n + u.
Proof. intros. rewrite lor_field by lia. apply u8_small. unfold is_u8. nia. Qed.

(** The encoding as arithmetic. *)
Lemma utf8_encode_arith u : 0 <= u <= 0x10ffff ->
  ngx_http_waf_utf8_encode u =
    (if u <? 0x80 then [u]
     else if u <? 0x800 then [0xc0 + u / 64; 0x80 + u mod 64]
     else if u <? 0x10000 then [0xe0 + u / 4096; 0x80 + (u / 64) mod 64; 0x80 + u mod 64]
     else [0xf0 + u / 262144; 0x80 + (u / 4096) mod 64; 0x80 + (u / 64) mod 64; 0x80 + u mod 64]).
Proof.
  intros Hu. unfold ngx_http_waf_utf8_encode. rewrite !cont_byte.
  rewrite !Z.shiftr_div_pow2 by lia. change (2 ^ 6) with 64. change (2 ^ 12) with 4096.
  change (2 ^ 18) with 262144.
  destruct (Z.ltb_spec u 0x80); [f_equal; apply u8_small; unfold is_u8; lia|].
  destruct (Z.ltb_spec u 0x800).
  { change 0xc0 with (6 * 2 ^ 5) at 1. rewrite lead_byte; [done|..]; try lia.
    change (2 ^ 5) with 32. Z.to_euclidean_division_equations; lia. }
  destruct (Z.ltb_spec u 0x10000).
  { change 0xe0 with (14 * 2 ^ 4) at 1. rewrite lead_byte; [done|..]; try lia.
    change (2 ^ 4) with 16. Z.to_euclidean_division_equations; lia. }
  change 0xf0 with (30 * 2 ^ 3) at 1. rewrite lead_byte; [done|..]; try lia.
  change (2 ^ 3) with 8. Z.to_euclidean_division_equations; lia.
Qed.

Ltac ltb_lia :=
  repeat match goal with
  | |- context [?a =? ?b] => destruct (Z.eqb_spec a b); try lia
  | |- context [?a <? ?b] => destruct (Z.ltb_spec a b); try lia
  | |- context [?a <=? ?b] => destruct (Z.leb_spec a b); try lia
  end; cbn [andb orb negb].

(** The encoding of a scalar value is found well formed, whatever follows. *)
Lemma utf8_valid_encode u rest : scalar u ->
  ngx_http_waf_utf8_valid (ngx_http_waf_utf8_encode u ++ rest) =
    inl (length (ngx_http_waf_utf8_encode u)).
Proof.
  intros [Hu Hs]. rewrite utf8_encode_arith by lia.
  destruct (Z.ltb_spec u 0x80); [cbn; destruct (Z.ltb_spec u 0x80); [done|lia]|].
  destruct (Z.ltb_spec u 0x800).
  { cbn -[Z.div Z.modulo Z.add]. 
    assert (2 <= u / 64 <= 31) by (Z.to_euclidean_division_equations; lia).
    pose proof (Z.mod_pos_bound u 64). ltb_lia; done. }
  destruct (Z.ltb_spec u 0x10000).
  { cbn -[Z.div Z.modulo Z.add].
    pose proof (Z.mod_pos_bound u 64). pose proof (Z.mod_pos_bound (u / 64) 64).
    assert (0 <= u / 4096 <= 15) by (Z.to_euclidean_division_equations; lia).
    assert (u / 4096 = 0 -> 32 <= (u / 64) mod 64) by (Z.to_euclidean_division_equations; lia).
    assert (u / 4096 = 13 -> (u / 64) mod 64 <= 31) by (Z.to_euclidean_division_equations; lia).
    ltb_lia; done. }
  cbn -[Z.div Z.modulo Z.add].
  pose proof (Z.mod_pos_bound u 64). pose proof (Z.mod_pos_bound (u / 64) 64).
  pose proof (Z.mod_pos_bound (u / 4096) 64).
  assert (0 <= u / 262144 <= 4) by (Z.to_euclidean_division_equations; lia).
  assert (u / 262144 = 0 -> 16 <= (u / 4096) mod 64) by (Z.to_euclidean_division_equations; lia).
  assert (u / 262144 = 4 -> (u / 4096) mod 64 <= 15) by (Z.to_euclidean_division_equations; lia).
  ltb_lia; done.
Qed.

(** A lead byte and its ranges for the next byte, as the chain of tests reads
    them. *)
Lemma utf8_cont_inv need i lo hi p n :
  utf8_cont need i lo hi p = inl n ->
  n = (need + i)%nat /\
  exists t rest, p = t ++ rest /\ length t = need /\
    Forall (fun c => 0x80 <= c <= 0xbf) (drop 1 t) /\
    match t with c :: _ => lo <= c <= hi | [] => True end.
Proof.
  revert i lo hi p. induction need as [|k IH]; intros i lo hi p; cbn.
  { intros [= <-]. split; [done|]. exists [], p. by repeat split. }
  destruct p as [|c p']; [done|].
  destruct ((c <? lo) || (hi <? c)) eqn:E; [done|]. intros H.
  destruct (IH _ _ _ _ H) as (-> & t & rest & -> & Ht & Hf & Hh).
  split; [lia|]. exists (c :: t), rest. cbn. rewrite Ht. repeat split; try lia.
  destruct t; [constructor|]. constructor; [lia|done].
Qed.

(** The sequence at the head of [s] encodes a scalar value beyond ASCII. *)
Definition encoded (s : bytes) (n : nat) : Prop :=
  exists u rest, scalar u /\ 0x80 <= u /\ s = ngx_http_waf_utf8_encode u ++ rest /\
    n = length (ngx_http_waf_utf8_encode u).

Lemma encoded_intro u c t rest :
  scalar u -> 0x80 <= u -> ngx_http_waf_utf8_encode u = c :: t ->
  encoded (c :: t ++ rest) (S (length t)).
Proof. intros ? ? E. exists u, rest. by rewrite E. Qed.

Ltac euclid := Z.to_euclidean_division_equations; lia.

Lemma utf8_two c p n : 0xc2 <= c <= 0xdf -> utf8_cont 1 1 0x80 0xbf p = inl n -> encoded (c :: p) n.
Proof.
  intros Hr Hk. destruct (utf8_cont_inv _ _ _ _ _ _ Hk) as (-> & t & rest & -> & Hl & _ & Hh).
  destruct t as [|b [|]]; cbn in Hl; try lia.
  apply (encoded_intro ((c - 0xc0) * 64 + (b - 0x80)) c [b]); [unfold scalar; lia|lia|].
  rewrite utf8_encode_arith by lia. ltb_lia. repeat (apply (f_equal2 cons); [euclid|]). done.
Qed.

Lemma utf8_three c p n lo hi :
  0xe0 <= c <= 0xef -> 0x80 <= lo -> hi <= 0xbf -> (c = 0xe0 -> 0xa0 <= lo) ->
  (c = 0xed -> hi <= 0x9f) -> utf8_cont 2 1 lo hi p = inl n -> encoded (c :: p) n.
Proof.
  intros Hr Hlo Hhi H0 Hd Hk.
  destruct (utf8_cont_inv _ _ _ _ _ _ Hk) as (-> & t & rest & -> & Hl & Hf & Hh).
  destruct t as [|b1 [|b2 [|]]]; cbn in Hl; try lia. inversion_clear Hf.
  apply (encoded_intro ((c - 0xe0) * 4096 + (b1 - 0x80) * 64 + (b2 - 0x80)) c [b1; b2]);
    [unfold scalar; lia|lia|].
  rewrite utf8_encode_arith by lia. ltb_lia. repeat (apply (f_equal2 cons); [euclid|]). done.
Qed.

Lemma utf8_four c p n lo hi :
  0xf0 <= c <= 0xf4 -> 0x80 <= lo -> hi <= 0xbf -> (c = 0xf0 -> 0x90 <= lo) ->
  (c = 0xf4 -> hi <= 0x8f) -> utf8_cont 3 1 lo hi p = inl n -> encoded (c :: p) n.
Proof.
  intros Hr Hlo Hhi H0 Hd Hk.
  destruct (utf8_cont_inv _ _ _ _ _ _ Hk) as (-> & t & rest & -> & Hl & Hf & Hh).
  destruct t as [|b1 [|b2 [|b3 [|]]]]; cbn in Hl; try lia.
  inversion_clear Hf as [|? ? ? Hf']. inversion_clear Hf'.
  apply (encoded_intro ((c - 0xf0) * 262144 + (b1 - 0x80) * 4096 + (b2 - 0x80) * 64 + (b3 - 0x80))
           c [b1; b2; b3]); [unfold scalar; lia|lia|].
  rewrite utf8_encode_arith by lia. ltb_lia. repeat (apply (f_equal2 cons); [euclid|]). done.
Qed.

(** A sequence found well formed is the encoding of a scalar value: no
    overlong form, no surrogate, nothing beyond U+10FFFF. *)
Lemma utf8_valid_inv c p n :
  ngx_http_waf_utf8_valid (c :: p) = inl n -> 0x80 <= c -> encoded (c :: p) n.
Proof.
  intros H Hc. cbn -[utf8_cont] in H. revert H.
  destruct (Z.ltb_spec c 0x80); [lia|].
  destruct ((0xc2 <=? c) && (c <=? 0xdf)) eqn:E2; [apply utf8_two; lia|].
  destruct (Z.eqb_spec c 0xe0); [apply utf8_three; lia|].
  destruct ((0xe1 <=? c) && (c <=? 0xef)) eqn:E3.
  { destruct (Z.eqb_spec c 0xed); apply utf8_three; lia. }
  destruct (Z.eqb_spec c 0xf0); [apply utf8_four; lia|].
  destruct ((0xf1 <=? c) && (c <=? 0xf3)) eqn:E4; [apply utf8_four; lia|].
  destruct (Z.eqb_spec c 0xf4); [apply utf8_four; lia|done].
Qed.

(** The ill-formed prefix is not empty and lies within the input. *)
Lemma utf8_cont_bad need i lo hi p n :
  utf8_cont need i lo hi p = inr n -> (i <= n <= i + length p)%nat.
Proof.
  revert i lo hi p. induction need as [|k IH]; intros i lo hi p; cbn; [done|].
  destruct p as [|c p']; [intros [= <-]; cbn; lia|].
  destruct (_ || _); [intros [= <-]; cbn; lia|]. intros H. apply IH in H. cbn. lia.
Qed.
Lemma utf8_valid_bad c p n :
  ngx_http_waf_utf8_valid (c :: p) = inr n -> (1 <= n <= length (c :: p))%nat.
Proof.
  cbn -[utf8_cont]. repeat (destruct (_ : bool); [try done; apply utf8_cont_bad|]).
  intros [= <-]. lia.
Qed.

Lemma utf8_encode_len u : (1 <= length (ngx_http_waf_utf8_encode u) <= 4)%nat.
Proof.
  unfold ngx_http_waf_utf8_encode.
  destruct (_ <? _); [cbn; lia|]. destruct (_ <? _); [cbn; lia|].
  destruct (_ <? _); cbn; lia.
Qed.

Lemma utf8_encode_high u : 0x80 <= u <= 0x10ffff ->
  Forall (fun c => 0x80 <= c) (ngx_http_waf_utf8_encode u).
Proof.
  intros Hu. rewrite utf8_encode_arith by lia.
  pose proof (Z.mod_pos_bound u 64). pose proof (Z.mod_pos_bound (u / 64) 64).
  pose proof (Z.mod_pos_bound (u / 4096) 64).
  assert (0 <= u / 64) by (apply Z.div_pos; lia). assert (0 <= u / 4096) by (apply Z.div_pos; lia).
  assert (0 <= u / 262144) by (apply Z.div_pos; lia).
  ltb_lia; repeat constructor; lia.
Qed.

(** * The units of a string *)

Lemma mkJp_eta p : mkJp p.(jp_pos) p.(jp_error) p.(jp_first) p.(jp_mem) = p.
Proof. by destruct p. Qed.

Lemma hex_val_range c d : hex_val c = Some d -> 0 <= d < 16 /\ c <> 34 /\ c <> 92.
Proof.
  unfold hex_val. destruct ((48 <=? c) && (c <=? 57)) eqn:?; [intros [= <-]; lia|].
  destruct ((97 <=? c) && (c <=? 102)) eqn:?; [intros [= <-]; lia|].
  destruct ((65 <=? c) && (c <=? 70)) eqn:?; [intros [= <-]; lia|done].
Qed.

(** [h] are four hexadecimal digits of value [v]. *)
Definition hex4 (h : bytes) (v : Z) : Prop :=
  exists a b c d x y z w, h = [a; b; c; d] /\ hex_val a = Some x /\ hex_val b = Some y /\
    hex_val c = Some z /\ hex_val d = Some w /\ v = ((x * 16 + y) * 16 + z) * 16 + w.

Lemma hex4_range h v : hex4 h v -> 0 <= v < 0x10000.
Proof.
  intros (a & b & c & d & x & y & z & w & _ & Ha & Hb & Hc & Hd & ->).
  apply hex_val_range in Ha, Hb, Hc, Hd. lia.
Qed.

Lemma hex_push v d : 0 <= v < 4096 -> 0 <= d < 16 -> u32 (u32 (Z.shiftl v 4) + d) = v * 16 + d.
Proof. intros. rewrite Z.shiftl_mul_pow2 by lia. rewrite !u32_small; unfold is_u32; rewrite ?u32_small; unfold is_u32; lia. Qed.

Lemma hex4_loop_step k v c s e f m :
  hex4_loop (S k) v (mkJp (c :: s) e f m) =
  match hex_val c with
  | Some d => hex4_loop k (u32 (u32 (Z.shiftl v 4) + d)) (mkJp s e f m)
  | None => (RErr, mkJp s (Some "invalid \u escape") f m)
  end.
Proof.
  change (hex4_loop (S k) v (mkJp (c :: s) e f m)) with
    (match hex_val c with
     | Some d => hex4_loop k (u32 (u32 (Z.shiftl v 4) + d))
     | None => perror "invalid \u escape"
     end (mkJp s e f m)).
  by destruct (hex_val c).
Qed.

Lemma hex4_four a b c d s e f m :
  ngx_http_waf_jp_hex4 (mkJp (a :: b :: c :: d :: s) e f m) =
  hex4_loop 4 0 (mkJp (a :: b :: c :: d :: s) e f m).
Proof.
  unfold ngx_http_waf_jp_hex4, mbind, parser_bind. cbn [pget jp_pos]. rewrite !zlen_cons.
  pose proof (zlen_nonneg s). destruct (Z.ltb_spec (1 + (1 + (1 + (1 + zlen s)))) 4); [lia|done].
Qed.

Lemma hex4_run p h v rest : hex4 h v ->
  ngx_http_waf_jp_hex4 (p <| jp_pos := h ++ rest |>) = (ROk v, p <| jp_pos := rest |>).
Proof.
  intros (a & b & c & d & x & y & z & w & -> & Ha & Hb & Hc & Hd & ->).
  cbn [upd app]. rewrite hex4_four.
  apply hex_val_range in Ha as Ra. apply hex_val_range in Hb as Rb.
  apply hex_val_range in Hc as Rc. apply hex_val_range in Hd as Rd.
  rewrite !hex4_loop_step, Ha, (hex_push 0), hex4_loop_step, Hb, hex_push, hex4_loop_step, Hc,
    hex_push, hex4_loop_step, Hd, hex_push by lia. done.
Qed.

Lemma hex4_inv p v p' : ngx_http_waf_jp_hex4 p = (ROk v, p') ->
  exists h, hex4 h v /\ p.(jp_pos) = h ++ p'.(jp_pos) /\ p' = p <| jp_pos := p'.(jp_pos) |>.
Proof.
  intros H. destruct p as [s e f m].
  assert (Hs : exists a b c d r, s = a :: b :: c :: d :: r).
  { unfold ngx_http_waf_jp_hex4, mbind, parser_bind in H. cbn [pget jp_pos] in H.
    destruct (Z.ltb_spec (zlen s) 4); [done|].
    destruct s as [|a [|b [|c [|d r]]]]; unfold zlen in *; cbn in *; try lia. eauto 10. }
  destruct Hs as (a & b & c & d & r & ->). rewrite hex4_four, hex4_loop_step in H.
  destruct (hex_val a) as [x|] eqn:Ha; [|done]. rewrite hex4_loop_step in H.
  destruct (hex_val b) as [y|] eqn:Hb; [|done]. rewrite hex4_loop_step in H.
  destruct (hex_val c) as [z|] eqn:Hc; [|done]. rewrite hex4_loop_step in H.
  destruct (hex_val d) as [w|] eqn:Hd; [|done].
  apply hex_val_range in Ha as Ra. apply hex_val_range in Hb as Rb.
  apply hex_val_range in Hc as Rc. apply hex_val_range in Hd as Rd.
  rewrite (hex_push 0 x), (hex_push _ y), (hex_push _ z), (hex_push _ w) in H by lia. injection H as <- <-.
  exists [a; b; c; d]. split; [|done]. by exists a, b, c, d, x, y, z, w.
Qed.

Definition high_sur (u : Z) : Prop := 0xd800 <= u <= 0xdbff.
Definition low_sur (u : Z) : Prop := 0xdc00 <= u <= 0xdfff.

(** A piece of text and the bytes it stands for. *)
Inductive chunk : bytes -> bytes -> Prop :=
  | ch_plain c : 0x20 <= c < 0x80 -> c <> 34 -> c <> 92 -> chunk [c] [c]
  | ch_utf8 u : scalar u -> 0x80 <= u ->
      chunk (ngx_http_waf_utf8_encode u) (ngx_http_waf_utf8_encode u)
  | ch_esc e c : simple_escape e = Some c -> chunk [92; e] [c]
  | ch_uni h u : hex4 h u -> scalar u -> chunk (92 :: 117 :: h) (ngx_http_waf_utf8_encode u)
  | ch_lone h u : hex4 h u -> high_sur u \/ low_sur u ->
      chunk (92 :: 117 :: h) (ngx_http_waf_utf8_encode 0xfffd)
  | ch_pair h1 u1 h2 u2 : hex4 h1 u1 -> hex4 h2 u2 -> high_sur u1 -> low_sur u2 ->
      chunk (92 :: 117 :: h1 ++ 92 :: 117 :: h2)
        (ngx_http_waf_utf8_encode (0x10000 + (u1 - 0xd800) * 1024 + (u2 - 0xdc00))).

(** What the second half of a [\u] escape does. *)
Lemma escape_cp_inv cp h p u p' :
  hex4 h cp -> escape_cp cp p = (ROk u, p') ->
  exists t, chunk (92 :: 117 :: h ++ t) (ngx_http_waf_utf8_encode u) /\
    p.(jp_pos) = t ++ p'.(jp_pos) /\ p' = p <| jp_pos := p'.(jp_pos) |>.
Proof.
  intros Hh. pose proof (hex4_range _ _ Hh). unfold escape_cp.
  assert (Hsame : p = p <| jp_pos := p.(jp_pos) |>) by (cbn; by rewrite mkJp_eta).
  destruct ((0xdc00 <=? cp) && (cp <=? 0xdfff)) eqn:El.
  { intros [= <- <-]. exists []. rewrite app_nil_r. split; [|done].
    eapply ch_lone; [done|]. unfold low_sur. lia. }
  destruct ((0xd800 <=? cp) && (cp <=? 0xdbff)) eqn:Eh.
  2: { intros [= <- <-]. exists []. rewrite app_nil_r. split; [|done].
       apply ch_uni; [done|]. unfold scalar. lia. }
  assert (Hlone : chunk (92 :: 117 :: h ++ []) (ngx_http_waf_utf8_encode 0xfffd)).
  { rewrite app_nil_r. eapply ch_lone; [done|]. unfold high_sur. lia. }
  unfold mbind at 1, parser_bind at 1. cbn [pget].
  destruct ((6 <=? zlen (jp_pos p)) && _) eqn:E; [|intros [= <- <-]; by exists []].
  apply andb_true_iff in E as [_ E]. apply bool_decide_eq_true in E.
  destruct (jp_pos p) as [|x [|y s]] eqn:Ep; try done. injection E as -> ->.
  unfold mbind, parser_bind. cbn -[ngx_http_waf_jp_hex4 drop Z.shiftl].
  rewrite Ep. cbn [drop].
  destruct (ngx_http_waf_jp_hex4 _) as [[low| |] q] eqn:Eq; [|done|done].
  apply hex4_inv in Eq as (h2 & Hh2 & Hs & Hq). rewrite drop_0 in Hs. cbn [jp_pos] in Hs.
  destruct q as [qs qe qf qm]. cbn in Hs, Hq. injection Hq as -> -> ->.
  destruct ((0xdc00 <=? low) && (low <=? 0xdfff)) eqn:E2; intros [= <- <-].
  - exists (92 :: 117 :: h2). rewrite Z.shiftl_mul_pow2 by lia. split; [|split].
    + apply ch_pair; [done|done|unfold high_sur; lia|unfold low_sur; lia].
    + cbn. by rewrite Hs.
    + done.
  - by exists [].
Qed.

(** The cases of [jp_unit]. *)
Lemma unit_utf8 c s e f m : 0x80 <= c ->
  ngx_http_waf_jp_unit (mkJp (c :: s) e f m) =
  match ngx_http_waf_utf8_valid (c :: s) with
  | inr _ => (RErr, mkJp (c :: s) (Some "invalid UTF-8 in string") f m)
  | inl n => (ROk (take n (c :: s)), mkJp (drop n (c :: s)) e f m)
  end.
Proof.
  intros Hc. unfold ngx_http_waf_jp_unit, mbind, parser_bind. cbn [pget jp_pos].
  ltb_lia. by destruct (ngx_http_waf_utf8_valid (c :: s)).
Qed.

Lemma unit_plain c s e f m : 0x20 <= c < 0x80 -> c <> 92 ->
  ngx_http_waf_jp_unit (mkJp (c :: s) e f m) = (ROk [c], mkJp s e f m).
Proof.
  intros Hc Hn. unfold ngx_http_waf_jp_unit, mbind, parser_bind. cbn [pget jp_pos padvance].
  ltb_lia. done.
Qed.

Lemma unit_escape c s e f m :
  ngx_http_waf_jp_unit (mkJp (92 :: c :: s) e f m) =
  match simple_escape c with
  | Some u => (ROk [u], mkJp s e f m)
  | None =>
      if negb (c =? 117) then (RErr, mkJp s (Some "unknown escape sequence") f m)
      else (cp ← ngx_http_waf_jp_hex4; cp ← escape_cp cp; mret (ngx_http_waf_utf8_encode cp))
             (mkJp s e f m)
  end.
Proof.
  unfold ngx_http_waf_jp_unit, mbind, parser_bind. cbn -[simple_escape ngx_http_waf_jp_hex4 escape_cp].
  destruct (simple_escape c); [done|]. by destruct (c =? 117).
Qed.

Lemma unit_inv p u p' :
  head p.(jp_pos) <> Some 34 -> ngx_http_waf_jp_unit p = (ROk u, p') ->
  exists t, chunk t u /\ p.(jp_pos) = t ++ p'.(jp_pos) /\ p' = p <| jp_pos := p'.(jp_pos) |>.
Proof.
  destruct p as [[|c s] e f m]; cbn [jp_pos head]; [done|]. intros Hq.
  assert (c <> 34) by congruence.
  destruct (Z.lt_ge_cases c 0x20).
  { unfold ngx_http_waf_jp_unit, mbind, parser_bind. cbn [pget jp_pos]. by ltb_lia. }
  destruct (Z.lt_ge_cases c 0x80).
  2: { rewrite unit_utf8 by done. destruct (ngx_http_waf_utf8_valid (c :: s)) eqn:E; [|done].
       apply utf8_valid_inv in E as (v & rest & Hv & Hv2 & -> & ->); [|done].
       rewrite take_app_length, drop_app_length. intros [= <- <-].
       exists (ngx_http_waf_utf8_encode v). split; [by constructor|done]. }
  destruct (Z.eq_dec c 92) as [->|].
  2: { rewrite unit_plain by (try lia; done). intros [= <- <-]. exists [c]. split; [by constructor|done]. }
  destruct s as [|x s]; [done|]. rewrite unit_escape.
  destruct (simple_escape x) eqn:Ex; [intros [= <- <-]; exists [92; x]; split; [by constructor|done]|].
  destruct (Z.eqb_spec x 117) as [->|]; cbn [negb]; [|done].
  unfold mbind, parser_bind.
  destruct (ngx_http_waf_jp_hex4 _) as [[cp| |] q] eqn:Eh; [|done|done].
  apply hex4_inv in Eh as (h & Hh & Hs & Hq').
  destruct (escape_cp cp q) as [[v| |] r] eqn:Ee; [|done|done]. intros [= <- <-].
  apply (escape_cp_inv _ h) in Ee as (t & Ht & Hs2 & Hr); [|done].
  exists (92 :: 117 :: h ++ t). split; [done|]. split.
  - cbn [jp_pos] in Hs. rewrite Hs, Hs2. cbn. by rewrite app_assoc.
  - rewrite Hq' in Hr. done.
Qed.

(** ** What a chunk is *)

Lemma simple_escape_cases e c : simple_escape e = Some c -> 0 <= c < 0x80.
Proof.
  unfold simple_escape. intros H. repeat (destruct (_ =? _) in H; [injection H as <-; lia|]). done.
Qed.

(** No escape decodes to more bytes than it takes in the text, and a unit
    always fits the four bytes of its buffer. *)
Lemma chunk_len t u : chunk t u -> (1 <= length u <= length t /\ length u <= 4)%nat.
Proof.
  intros H. destruct H as [| |e c He|h u Hh|h u Hh|h1 u1 h2 u2 H1 H2]; cbn; try lia.
  - pose proof (utf8_encode_len u). lia.
  - pose proof (utf8_encode_len u). destruct Hh as (?&?&?&?&?&?&?&?&->&_). cbn. lia.
  - pose proof (utf8_encode_len 0xfffd). destruct Hh as (?&?&?&?&?&?&?&?&->&_). cbn. lia.
  - pose proof (utf8_encode_len (0x10000 + (u1 - 0xd800) * 1024 + (u2 - 0xdc00))).
    rewrite length_app. destruct H1 as (?&?&?&?&?&?&?&?&->&_). cbn. lia.
Qed.

Lemma quote_scan_shift s n : quote_scan s n = (fun k => k + n) <$> quote_scan s 0.
Proof.
  revert s n. induction s as [s IH] using (induction_ltof1 _ (@length Z)); unfold ltof in IH.
  intros n. destruct s as [|c s]; [done|]. cbn.
  destruct (c =? 34); [done|]. destruct (c =? 92).
  - destruct s as [|x s]; [done|]. rewrite (IH s ltac:(cbn; lia) (n + 2)), (IH s ltac:(cbn; lia) (0 + 2)).
    destruct (quote_scan s 0); cbn; [f_equal; lia|done].
  - rewrite (IH s ltac:(cbn; lia) (n + 1)), (IH s ltac:(cbn; lia) (0 + 1)).
    destruct (quote_scan s 0); cbn; [f_equal; lia|done].
Qed.

Lemma quote_scan_ge s n k : quote_scan s n = Some k -> n <= k.
Proof.
  revert n. induction s as [s IH] using (induction_ltof1 _ (@length Z)); unfold ltof in IH.
  intros n. destruct s as [|c s]; [done|]. cbn. destruct (c =? 34); [intros [= <-]; lia|].
  destruct (c =? 92).
  - destruct s as [|x s]; [done|]. intros H. apply IH in H; cbn; lia.
  - intros H. apply IH in H; cbn; lia.
Qed.

Lemma quote_scan_plain t s n : Forall (fun c => c <> 34 /\ c <> 92) t ->
  quote_scan (t ++ s) n = quote_scan s (n + zlen t).
Proof.
  intros H. revert n. induction H as [|c t [H1 H2] _ IH]; intros n; cbn.
  - by rewrite zlen_nil, Z.add_0_r.
  - ltb_lia. rewrite IH, zlen_cons. f_equal; lia.
Qed.

Lemma hex4_no_quote h v : hex4 h v -> Forall (fun c => c <> 34 /\ c <> 92) h /\ zlen h = 4.
Proof.
  intros (a & b & c & d & x & y & z & w & -> & Ha & Hb & Hc & Hd & _).
  apply hex_val_range in Ha, Hb, Hc, Hd. split; [repeat constructor; tauto|done].
Qed.

Lemma quote_scan_uni h v s n : hex4 h v -> quote_scan (92 :: 117 :: h ++ s) n = quote_scan s (n + 6).
Proof. intros [H1 H2]%hex4_no_quote. cbn. rewrite quote_scan_plain, H2 by done. f_equal; lia. Qed.

Lemma chunk_quote_scan t u s n : chunk t u -> quote_scan (t ++ s) n = quote_scan s (n + zlen t).
Proof.
  intros H. destruct H as [c|u Hu Hu2|e c He|h u Hh|h u Hh|h1 u1 h2 u2 H1 H2].
  - by apply quote_scan_plain; repeat constructor.
  - apply quote_scan_plain. eapply Forall_impl; [apply utf8_encode_high; unfold scalar in Hu; lia|].
    cbn. lia.
  - done.
  - cbn [app]. rewrite (quote_scan_uni h u) by done. apply hex4_no_quote in Hh as [_ Hl].
    rewrite !zlen_cons, Hl. f_equal; lia.
  - cbn [app]. rewrite (quote_scan_uni h u) by done. apply hex4_no_quote in Hh as [_ Hl].
    rewrite !zlen_cons, Hl. f_equal; lia.
  - cbn [app]. rewrite <- !app_assoc. cbn [app]. rewrite (quote_scan_uni h1 u1), (quote_scan_uni h2 u2) by done.
    apply hex4_no_quote in H1 as [_ Hl1]. apply hex4_no_quote in H2 as [_ Hl2].
    rewrite !zlen_cons, zlen_app, !zlen_cons, Hl1, Hl2. f_equal; lia.
Qed.

(** * Strings *)

Lemma wb_unit p : wb_at 0 ngx_http_waf_jp_unit p.
Proof.
  revert p. change (wb 0 ngx_http_waf_jp_unit). intros [s e f m].
  destruct s as [|c s]; [by apply takes_same|].
  destruct (Z.lt_ge_cases c 0x20).
  { unfold wb_at, ngx_http_waf_jp_unit, mbind, parser_bind. cbn [pget jp_pos].
    ltb_lia. by apply takes_same. }
  destruct (Z.lt_ge_cases c 0x80).
  2: { unfold wb_at. rewrite unit_utf8 by done.
       destruct (ngx_http_waf_utf8_valid (c :: s)) as [n|]; [|by apply takes_same].
       exists (take n (c :: s)). cbn [jp_pos]. rewrite take_drop. split; [done|lia]. }
  destruct (Z.eq_dec c 92) as [->|].
  2: { unfold wb_at. rewrite unit_plain by (try lia; done). exists [c]. split; [done|lia]. }
  destruct s as [|x s]; [exists [92]; split; [done|lia]|].
  assert (Ht : forall err, takes 0 (mkJp (92 :: x :: s) e f m) (mkJp s err f m)).
  { intros err. exists [92; x]. split; [done|lia]. }
  unfold wb_at. rewrite unit_escape. destruct (simple_escape x); [apply Ht|].
  destruct (negb _); [apply Ht|].
  apply (wb_after 0 0 _ _ _ (Ht e)). apply wb_elim, wb_bind0; [apply wb_hex4|]. intros cp.
  apply wb_bind0; [apply wb_escape_cp|]. intros. apply wb_ret.
Qed.

(** The text between the quotes, piece by piece. *)
Definition spells (text out : bytes) : Prop :=
  exists ts us, Forall2 chunk ts us /\ text = concat ts /\ out = concat us.

Lemma spells_nil : spells [] [].
Proof. by exists [], []. Qed.
Lemma spells_cons t u text out : chunk t u -> spells text out -> spells (t ++ text) (u ++ out).
Proof. intros Hc (ts & us & Hf & -> & ->). exists (t :: ts), (u :: us). split; [by constructor|done]. Qed.

Lemma spells_len text out : spells text out -> zlen out <= zlen text.
Proof.
  intros (ts & us & Hf & -> & ->). induction Hf as [|t u ts us Hc _ IH]; [done|].
  apply chunk_len in Hc. cbn. rewrite !zlen_app. unfold zlen in *. lia.
Qed.

Lemma spells_quote_scan text out s n : spells text out -> quote_scan (text ++ 34 :: s) n = Some (n + zlen text).
Proof.
  intros (ts & us & Hf & -> & _). revert n. induction Hf as [|t u ts us Hc _ IH]; intros n.
  - cbn. f_equal. unfold zlen. cbn. lia.
  - cbn [concat]. rewrite <- app_assoc, (chunk_quote_scan _ _ _ _ Hc), IH, zlen_app. f_equal; lia.
Qed.

Lemma string_loop_step f room full out p :
  string_loop (S f) room full out p =
  match p.(jp_pos) with
  | [] => (RErr, p <| jp_error := Some "unterminated string" |>)
  | c :: s =>
      if c =? 34 then (ROk (if full then None else Some out), p <| jp_pos := s |>)
      else match ngx_http_waf_jp_unit p with
           | (ROk u, p') =>
               if full || (room <? zlen u) then string_loop f room true out p'
               else string_loop f (room - zlen u) full (out ++ u) p'
           | (RErr, p') => (RErr, p')
           | (RFuel, p') => (RFuel, p')
           end
  end.
Proof.
  destruct p as [[|c s] e g m]; [done|]. cbn -[ngx_http_waf_jp_unit].
  unfold mbind, parser_bind. cbn -[ngx_http_waf_jp_unit]. destruct (c =? 34); [done|].
  destruct (ngx_http_waf_jp_unit _) as [[u| |] q]; [|done|done].
  by destruct (full || (room <? zlen u)).
Qed.

(** The result of the loop: [NGX_DECLINED] when the decoded text is longer
    than the room. *)
Definition string_result (room : Z) (full : bool) (out more : bytes) : option bytes :=
  if full || (room <? zlen more) then None else Some (out ++ more).

Lemma string_loop_inv fuel room full out p r p' : 0 <= room ->
  string_loop fuel room full out p = (ROk r, p') ->
  exists text more, spells text more /\ p.(jp_pos) = text ++ 34 :: p'.(jp_pos) /\
    p' = p <| jp_pos := p'.(jp_pos) |> /\ r = string_result room full out more.
Proof.
  intros Hr. revert room full out p Hr. induction fuel as [|f IH]; intros room full out p Hr; [done|].
  rewrite string_loop_step. destruct (jp_pos p) as [|c s] eqn:Ep; [done|].
  destruct (Z.eqb_spec c 34) as [->|Hc].
  { intros [= <- <-]. exists [], []. split; [apply spells_nil|]. split; [done|]. split; [done|].
    unfold string_result. rewrite zlen_nil, app_nil_r. destruct full; [done|].
    destruct (Z.ltb_spec room 0); [lia|done]. }
  destruct (ngx_http_waf_jp_unit p) as [[u| |] q] eqn:Eu; [|done|done].
  apply unit_inv in Eu as (t & Ht & Hp & Hq); [|rewrite Ep; cbn; congruence].
  rewrite Ep in Hp. pose proof (zlen_nonneg u).
  assert (Hgo : forall room' full' out', 0 <= room' ->
            string_loop f room' full' out' q = (ROk r, p') ->
            (forall more, string_result room' full' out' more = string_result room full out (u ++ more)) ->
            exists text more, spells text more /\ c :: s = text ++ 34 :: jp_pos p' /\
              p' = p <| jp_pos := p'.(jp_pos) |> /\ r = string_result room full out more).
  { intros room' full' out' Hr' Hl Heq. apply IH in Hl as (text & more & Hs & Hp2 & Hq2 & ->); [|done].
    exists (t ++ text), (u ++ more). split; [by apply spells_cons|]. split; [|split].
    - by rewrite Hp, Hp2, app_assoc.
    - rewrite Hq in Hq2. done.
    - apply Heq. }
  destruct (full || (room <? zlen u)) eqn:Ef; intros Hl; eapply Hgo; try exact Hl; try lia; intros more.
  - unfold string_result. cbn [orb]. rewrite zlen_app. pose proof (zlen_nonneg more).
    destruct full; [done|]. cbn [orb] in *. destruct (Z.ltb_spec room (zlen u + zlen more)); [done|lia].
  - unfold string_result. rewrite zlen_app. apply orb_false_iff in Ef as [-> Ef]. cbn [orb].
    destruct (Z.ltb_spec (room - zlen u) (zlen more)), (Z.ltb_spec room (zlen u + zlen more)); try lia; [done|].
    by rewrite app_assoc.
Qed.

Lemma wb_string_loop fuel room full out p : (length p.(jp_pos) < fuel)%nat ->
  wb_at 1 (string_loop fuel room full out) p.
Proof.
  revert room full out p. induction fuel as [|f IH]; intros room full out p Hf; [lia|].
  unfold wb_at. rewrite string_loop_step. destruct (jp_pos p) as [|c s] eqn:Ep; [by apply takes_same|].
  destruct (Z.eqb_spec c 34) as [->|Hc]; [exists [34]; rewrite Ep; split; [done|cbn; lia]|].
  pose proof (wb_unit p) as Hw. unfold wb_at in Hw.
  destruct (ngx_http_waf_jp_unit p) as [[u| |] q] eqn:Eu; [|done|done].
  apply unit_inv in Eu as (t & Ht & Hp & Hq); [|rewrite Ep; cbn; congruence].
  apply chunk_len in Ht. apply takes_length in Hw as Hl.
  assert (length (jp_pos q) < f)%nat.
  { rewrite Hp in Ep. rewrite <- Ep, length_app in Hf. lia. }
  destruct (_ || _); apply (wb_after 0 1 _ _ _ Hw), IH; lia.
Qed.

Lemma ws_drop_idem s : ws_drop (ws_drop s) = ws_drop s.
Proof. induction s as [|c s IH]; [done|]. cbn. destruct (is_ws c) eqn:E; [done|]. cbn. by rewrite E. Qed.

Lemma string_buf_eq size p :
  ngx_http_waf_jp_string_buf size p =
  match ws_drop p.(jp_pos) with
  | c :: rest =>
      if c =? 34 then string_loop (S (length rest)) size false [] (p <| jp_pos := rest |>)
      else (RErr, p <| jp_pos := c :: rest |> <| jp_error := Some "expected string" |>)
  | [] => (RErr, p <| jp_pos := [] |> <| jp_error := Some "expected string" |>)
  end.
Proof.
  unfold ngx_http_waf_jp_string_buf, mbind, parser_bind. cbn [ngx_http_waf_jp_ws pget jp_pos upd].
  destruct (ws_drop (jp_pos p)) as [|c rest]; [done|]. by destruct (c =? 34).
Qed.

Lemma wb_string_buf size : wb 1 (ngx_http_waf_jp_string_buf size).
Proof.
  intros p. unfold wb_at. rewrite string_buf_eq.
  destruct (ws_drop_suffix p.(jp_pos)) as (u & E & _).
  destruct (ws_drop (jp_pos p)) as [|c rest]; [exists u; split; [done|lia]|].
  destruct (Z.eqb_spec c 34) as [->|]; [|exists u; split; [done|lia]].
  apply (wb_after 0 1).
  - exists (u ++ [34]). cbn. rewrite E, <- app_assoc. split; [done|lia].
  - apply wb_string_loop. cbn. lia.
Qed.

Lemma wb_string_rc : wb 1 jp_string_rc.
Proof.
  unfold jp_string_rc. apply (wb_bind 0 1); [apply wb_ws| |lia]. intros _.
  apply (wb_bind 0 1); [apply wb_pget| |lia]. intros p.
  destruct (jp_pos p) as [|c rest]; [apply wb_perror|]. destruct (c =? 34); [|apply wb_perror].
  destruct (quote_scan rest 0); [|apply wb_perror].
  apply (wb_bind 0 1); [apply wb_palloc| |lia]. intros [|]; [apply wb_string_buf|apply wb_perror].
Qed.

Lemma wb_string : wb 1 ngx_http_waf_jp_string.
Proof.
  apply (wb_bind_l 1); [apply wb_string_rc|]. intros [s|]; [apply wb_ret|apply wb_perr].
Qed.
Lemma wb_string_skip : wb 1 ngx_http_waf_jp_string_skip.
Proof. apply (wb_bind_l 1); [apply wb_string_buf|]. intros. apply wb_ret. Qed.

(** What [jp_string] reads: white space, and a string in quotes.  The buffer
    it allocates, the distance to the closing quote, is always enough: it never
    returns [NGX_DECLINED]. *)
Lemma string_rc_inv p r p' : jp_string_rc p = (ROk r, p') ->
  exists w text s, p.(jp_pos) = w ++ 34 :: text ++ 34 :: p'.(jp_pos) /\
    Forall (fun c => is_ws c = true) w /\ spells text s /\ r = Some s /\ p'.(jp_first) = p.(jp_first).
Proof.
  unfold jp_string_rc, mbind, parser_bind. cbn [ngx_http_waf_jp_ws pget upd jp_pos].
  destruct (ws_drop_suffix p.(jp_pos)) as (w & Ew & Hw).
  pose proof (ws_drop_idem p.(jp_pos)) as Hid.
  destruct (ws_drop (jp_pos p)) as [|c rest] eqn:Ed; [done|].
  destruct (Z.eqb_spec c 34) as [->|]; [|done].
  destruct (quote_scan rest 0) as [size|] eqn:Eq; [|done].
  unfold palloc. cbn [jp_mem]. destruct (alloc (jp_mem p)) as [[|] o]; [|done].
  rewrite string_buf_eq. cbn [upd jp_pos]. rewrite Hid. cbn [Z.eqb Pos.eqb]. intros H.
  pose proof (quote_scan_ge _ _ _ Eq).
  apply string_loop_inv in H as (text & s & Hs & Hp & Hp' & ->); [|done]. cbn [jp_pos upd] in Hp.
  exists w, text, s. split; [by rewrite Ew, <- Hp|]. split; [done|]. split; [done|].
  rewrite Hp in Eq. rewrite (spells_quote_scan _ _ _ _ Hs) in Eq. injection Eq as <-.
  split; [|by rewrite Hp'].
  unfold string_result. apply spells_len in Hs. destruct (Z.ltb_spec (0 + zlen text) (zlen s)); [lia|done].
Qed.

#[export] Hint Resolve wb_unit wb_string_buf wb_string wb_string_skip : wb.
Lemma wb_string0 : wb 0 ngx_http_waf_jp_string.
Proof. intros p. eapply wb_weaken; [apply wb_string|lia]. Qed.
Lemma wb_string_skip0 : wb 0 ngx_http_waf_jp_string_skip.
Proof. intros p. eapply wb_weaken; [apply wb_string_skip|lia]. Qed.
Lemma wb_open0 c : wb 0 (ngx_http_waf_jp_open c).
Proof. intros p. eapply wb_weaken; [apply wb_open|lia]. Qed.
#[export] Hint Resolve wb_string0 wb_string_skip0 wb_open0 : wb.

(** A member takes at least its name; an element may take nothing itself. *)
Lemma wb_member p : wb_at 0 ngx_http_waf_jp_member p /\
  match ngx_http_waf_jp_member p with (ROk (Some _), p') => takes 1 p p' | _ => True end.
Proof.
  assert (Hw : wb 0 ngx_http_waf_jp_member).
  { unfold ngx_http_waf_jp_member. wb_auto. }
  split; [apply Hw|]. unfold ngx_http_waf_jp_member, mbind, parser_bind.
  pose proof (wb_next 125 p) as Hn. unfold wb_at in Hn.
  destruct (ngx_http_waf_jp_next 125 p) as [[[|]| |] q]; [|done|done|done].
  pose proof (wb_string q) as Hs. unfold wb_at in Hs.
  destruct (ngx_http_waf_jp_string q) as [[key| |] r]; [|done|done].
  pose proof (takes_trans _ _ _ _ _ Hn Hs) as Ht. cbn [ngx_http_waf_jp_ws].
  assert (H0 : wb_at 0 (c ← ppeek; if bool_decide (c = Some 58) then padvance;; ngx_http_waf_jp_ws;; mret (Some key)
      else perror "expected colon after member name") (r <| jp_pos ::= ws_drop |>)).
  { apply wb_elim. wb_auto. }
  apply (wb_after 1 0 _ p) in H0; [|exact (takes_trans _ 0 _ _ _ Ht (wb_ws r))].
  unfold mbind, parser_bind in H0.
  destruct (ppeek _) as [[c| |] r2]; [|done|done].
  destruct (bool_decide _); [|done]. exact H0.
Qed.

Lemma wb_element : wb 0 ngx_http_waf_jp_element.
Proof. unfold ngx_http_waf_jp_element. wb_auto. Qed.
Lemma wb_end : wb 0 ngx_http_waf_jp_end.
Proof. unfold ngx_http_waf_jp_end. wb_auto. Qed.
#[export] Hint Resolve wb_element wb_end : wb.

(** ** Loops over members and elements *)

Lemma wb_members_loop {S} fuel (body : bytes -> S -> parser S) s p :
  (forall key s, wb 0 (body key s)) -> (length p.(jp_pos) < fuel)%nat ->
  wb_at 0 (members_loop fuel body s) p.
Proof.
  intros Hb. revert s p. induction fuel as [|f IH]; intros s p Hf; [lia|].
  cbn [members_loop]. unfold wb_at, mbind at 1, parser_bind at 1.
  destruct (wb_member p) as [Hw Ht]. unfold wb_at in Hw.
  destruct (ngx_http_waf_jp_member p) as [[[key|]| |] q]; [|done|done|done].
  apply (wb_after 0 0 _ _ _ Hw). apply takes_length in Ht.
  apply (wb_at_bind 0 0); [apply Hb|]. intros s' q' _ Hq. apply takes_length in Hq. apply IH. lia.
Qed.

Lemma wb_members {S} (body : bytes -> S -> parser S) s :
  (forall key s, wb 0 (body key s)) -> wb 0 (members body s).
Proof. intros Hb p. apply wb_get_take. apply wb_members_loop; [done|lia]. Qed.

Lemma wb_elements_loop {S} fuel (body : S -> parser S) s p :
  (forall s, wb 1 (body s)) -> (length p.(jp_pos) < fuel)%nat ->
  wb_at 0 (elements_loop fuel body s) p.
Proof.
  intros Hb. revert s p. induction fuel as [|f IH]; intros s p Hf; [lia|].
  cbn [elements_loop]. unfold wb_at, mbind at 1, parser_bind at 1.
  pose proof (wb_element p) as Hw. unfold wb_at in Hw.
  destruct (ngx_http_waf_jp_element p) as [[[|]| |] q]; [|done|done|done].
  apply (wb_after 0 0 _ _ _ Hw). apply takes_length in Hw.
  apply (wb_weaken 1); [|lia]. apply (wb_at_bind 1 0); [apply Hb|].
  intros s' q' _ Hq. apply takes_length in Hq. apply IH. lia.
Qed.

(** The body of a loop over elements takes the element it is called for. *)
Lemma wb_elements {S} (body : S -> parser S) s :
  (forall s, wb 1 (body s)) -> wb 0 (elements body s).
Proof. intros Hb p. apply wb_get_take. apply wb_elements_loop; [done|lia]. Qed.

(** * Numbers and literals *)

Lemma wb_int_loop s v d p : p.(jp_pos) = s -> wb_at 0 (int_loop s v d) p.
Proof.
  revert v d p. induction s as [|c s IH]; intros v d p Hp; cbn [int_loop]; [apply takes_refl|].
  destruct (negb _); [apply takes_refl|]. destruct (_ && _); [by apply takes_same|].
  destruct (_ <? _); [by apply takes_same|].
  apply (wb_at_bind 0 0); [apply wb_padvance|]. intros [] q [= <-] _. apply IH. cbn. by rewrite Hp.
Qed.

(** A number has at least one digit. *)
Lemma int_loop_inv s v d p v' d' p' : p.(jp_pos) = s ->
  int_loop s v d p = (ROk (v', d'), p') ->
  exists ds, s = ds ++ p'.(jp_pos) /\ Forall (fun c => is_digit c = true) ds /\
    d' = d + zlen ds /\ p' = p <| jp_pos := p'.(jp_pos) |>.
Proof.
  revert v d p. induction s as [|c s IH]; intros v d p Hp; cbn [int_loop].
  { intros [= <- <- <-]. exists []. destruct p; cbn in Hp |- *; subst. rewrite zlen_nil, Z.add_0_r. by split_and!. }
  destruct (is_digit c) eqn:Ec; cbn [negb].
  2: { intros [= <- <- <-]. exists []. destruct p; cbn in Hp |- *; subst. rewrite zlen_nil, Z.add_0_r. by split_and!. }
  destruct (_ && _); [done|]. destruct (_ <? _); [done|].
  unfold mbind, parser_bind. cbn [padvance]. intros H.
  apply IH in H as (ds & -> & Hds & -> & Hq); [|cbn; by rewrite Hp].
  exists (c :: ds). split; [done|]. split; [by constructor|]. rewrite zlen_cons. split; [lia|].
  rewrite Hq. done.
Qed.

Lemma wb_int : wb 1 ngx_http_waf_jp_int.
Proof.
  intros p. apply wb_ws_bind. intros q. apply wb_peek_take. intros c _.
  apply (wb_at_bind 0 1); [destruct (bool_decide _); apply wb_elim; [apply wb_padvance|apply wb_ret]|].
  intros [] r _ _. apply wb_get_take.
  apply (wb_weaken (0 + 1)); [|lia]. unfold wb_at, mbind at 1, parser_bind at 1.
  pose proof (wb_int_loop _ 0 0 r eq_refl) as Hw. unfold wb_at in Hw.
  destruct (int_loop (jp_pos r) 0 0 r) as [[[v d]| |] x] eqn:E; [|done|done].
  apply int_loop_inv in E as (ds & Hr & _ & -> & _); [|done].
  destruct (Z.eqb_spec (0 + zlen ds) 0); [by eapply (takes_trans 0 0); [|apply takes_same]|].
  assert (Ht : takes 1 r x).
  { exists ds. split; [done|]. destruct ds; [done|cbn; lia]. }
  apply (wb_after 1 0 _ _ _ Ht). apply wb_elim. apply wb_bind0; [apply wb_ppeek|]. intros ?.
  destruct (_ || _); auto with wb.
Qed.

Lemma wb_literal l : wb 0 (ngx_http_waf_jp_literal l).
Proof.
  intros p. apply wb_get_take. destruct (bool_decide _); [|apply takes_refl].
  exists (take (length l) (jp_pos p)). cbn. rewrite take_drop. split; [done|lia].
Qed.
#[export] Hint Resolve wb_literal wb_int : wb.

Lemma wb_null : wb 0 ngx_http_waf_jp_null.
Proof. unfold ngx_http_waf_jp_null. wb_auto. Qed.

(** A literal that matches is taken. *)
Lemma literal_inv l p b p' : ngx_http_waf_jp_literal l p = (ROk b, p') ->
  if b then p.(jp_pos) = l ++ p'.(jp_pos) /\ p' = p <| jp_pos := p'.(jp_pos) |>
  else p' = p.
Proof.
  unfold ngx_http_waf_jp_literal, mbind, parser_bind. cbn [pget].
  case_bool_decide as H; intros [= <- <-]; [|done]. cbn. split; [|done].
  rewrite <- H at 1. by rewrite take_drop.
Qed.

Lemma wb_bool : wb 1 ngx_http_waf_jp_bool.
Proof.
  intros p. apply wb_ws_bind. intros q. unfold wb_at, mbind at 1, parser_bind at 1.
  pose proof (wb_literal (lit "true") q) as H1. unfold wb_at in H1.
  destruct (ngx_http_waf_jp_literal _ q) as [[[|]| |] r] eqn:E1; [| |done|done].
  { apply literal_inv in E1 as [E1 _]. exists (lit "true"). split; [done|]. cbn. lia. }
  apply literal_inv in E1 as ->. unfold mbind, parser_bind.
  pose proof (wb_literal (lit "false") q) as H2. unfold wb_at in H2.
  destruct (ngx_http_waf_jp_literal _ q) as [[[|]| |] r] eqn:E2; [| |done|done].
  { apply literal_inv in E2 as [E2 _]. exists (lit "false"). split; [done|]. cbn. lia. }
  apply literal_inv in E2 as ->. by apply takes_same.
Qed.

(** Decoding a string stays in the memory it allocates.  [jp_string]
    allocates the distance to the closing quote, and its decoder never needs
    more: it comes to an error or to the decoded string, never to
    [NGX_DECLINED]; what it reads is the quoted text of that string, unit by
    unit, and no unit is longer than the four bytes of its buffer. *)
Theorem jp_string_fits p :
  match jp_string_rc p with
  | (ROk (Some s), q) => exists w text ts us, p.(jp_pos) = w ++ 34 :: text ++ 34 :: q.(jp_pos) /\
      Forall (fun c => is_ws c = true) w /\ Forall2 chunk ts us /\ text = concat ts /\ s = concat us /\
      zlen s <= zlen text /\ Forall (fun u => (1 <= length u <= 4)%nat) us
  | (ROk None, _) => False
  | (RErr, q) => exists u, p.(jp_pos) = u ++ q.(jp_pos)
  | (RFuel, _) => False
  end.
Proof.
  pose proof (wb_string_rc p) as Hw. unfold wb_at in Hw.
  destruct (jp_string_rc p) as [[r| |] q] eqn:E; [|destruct Hw as (u & ? & _); by exists u|done].
  apply string_rc_inv in E as (w & text & s & Hp & Hws & Hs & -> & _).
  pose proof (spells_len _ _ Hs). destruct Hs as (ts & us & Hf & -> & ->).
  exists w, (concat ts), ts, us. split_and!; try done.
  clear -Hf. induction Hf as [|t u ts us Hc _ IH]; [constructor|].
  constructor; [|done]. apply chunk_len in Hc. lia.
Qed.

End JsonFacts.
