(* ===== verification/JsonSkip.v ===== *)
(** The skipper of values, [ngx_http_waf_jp_skip], against the grammar of
    JSON: it terminates, and it accepts exactly the values nested at most
    sixteen deep. *)
From Stdlib Require Import Wf_nat.
From S2P Require Import Prelude Json JsonFacts.
Import Json JsonFacts.
#[local] Open Scope Z_scope.

Module JsonSkip.

(** * The grammar *)

Definition ws (w : bytes) : Prop := Forall (fun c => is_ws c = true) w.

Definition digits1 (ds : bytes) : Prop := ds <> [] /\ Forall (fun c => is_digit c = true) ds.

Definition sign_text (s : bytes) : Prop := s = [] \/ s = [45].
Definition int_text (s : bytes) : Prop := s = [48] \/ (digits1 s /\ head s <> Some 48).
Definition frac_text (s : bytes) : Prop := s = [] \/ exists ds, s = 46 :: ds /\ digits1 ds.
Definition exp_text (s : bytes) : Prop :=
  s = [] \/ exists e sg ds, s = e :: sg ++ ds /\ (e = 101 \/ e = 69) /\
    (sg = [] \/ sg = [43] \/ sg = [45]) /\ digits1 ds.

Definition number (s : bytes) : Prop :=
  exists sg i fr ex, s = sg ++ i ++ fr ++ ex /\ sign_text sg /\ int_text i /\ frac_text fr /\ exp_text ex.

Definition quoted (s : bytes) : Prop := exists text out, s = 34 :: text ++ [34] /\ spells text out.

(** The name of a member with its colon; an element of an array has none. *)
Definition key_text (close : Z) (k : bytes) : Prop :=
  if close =? 125 then exists w1 s w2, k = w1 ++ s ++ w2 ++ [58] /\ ws w1 /\ quoted s /\ ws w2
  else k = [].

Definition brackets (o c : Z) : Prop := (o = 123 /\ c = 125) \/ (o = 91 /\ c = 93).

(** [json d v]: [v] is a value nested at most [d] deep.  [items c d t]: [t] is
    the rest of a container after its first name, up to its bracket [c]. *)
Inductive json : nat -> bytes -> Prop :=
  | j_string d s : quoted s -> json d s
  | j_true d : json d (lit "true")
  | j_false d : json d (lit "false")
  | j_null d : json d (lit "null")
  | j_number d s : number s -> json d s
  | j_empty d o c w : brackets o c -> ws w -> json (S d) (o :: w ++ [c])
  | j_container d o c w k t : brackets o c -> ws w -> key_text c k -> items c d t ->
      json (S d) (o :: w ++ k ++ t)
with items : Z -> nat -> bytes -> Prop :=
  | i_last c d w v w' : ws w -> json d v -> ws w' -> items c d (w ++ v ++ w' ++ [c])
  | i_more c d w v w' k t : ws w -> json d v -> ws w' -> key_text c k -> items c d t ->
      items c d (w ++ v ++ w' ++ 44 :: k ++ t).

Scheme json_mind := Induction for json Sort Prop
  with items_mind := Induction for items Sort Prop.

(** * The skipper returns *)

Lemma wb_key_skip : wb 0 ngx_http_waf_jp_key_skip.
Proof. unfold ngx_http_waf_jp_key_skip. wb_auto. Qed.

Lemma digits_drop_spec s : exists ds, s = ds ++ digits_drop s /\ Forall (fun c => is_digit c = true) ds /\
  (ds = [] <-> match s with c :: _ => is_digit c | [] => false end = false) /\
  match digits_drop s with c :: _ => is_digit c = false | [] => True end.
Proof.
  induction s as [|c s (ds & E & Hf & Hn & Hh)]; cbn; [by exists []|].
  destruct (is_digit c) eqn:Ec.
  - exists (c :: ds). cbn. rewrite <- E. split_and!; [done|by constructor|done|done].
  - exists []. by split_and!.
Qed.

Lemma wb_digits : wb 0 ngx_http_waf_jp_digits.
Proof.
  intros p. apply wb_get_take. destruct (digits_drop_spec p.(jp_pos)) as (ds & E & _).
  apply (wb_at_bind 0 0); [exists ds; split; [done|lia]|]. intros [] q _ _.
  destruct (jp_pos p) as [|c s]; [apply wb_elim, wb_perror|].
  destruct (is_digit c); [apply wb_elim, wb_ret|apply wb_elim, wb_perror].
Qed.
#[export] Hint Resolve wb_key_skip wb_digits wb_null : wb.

Lemma wb_number_skip : wb 0 ngx_http_waf_jp_number_skip.
Proof. unfold ngx_http_waf_jp_number_skip. wb_auto. Qed.
#[export] Hint Resolve wb_number_skip : wb.

Lemma wb_skip_after st : wb 0 (skip_after st).
Proof.
  induction st as [|c st IH]; cbn [skip_after]; [apply wb_ret|]. wb_auto.
Qed.

(** * What a successful step has read *)

Lemma bind_ok {A B} (m : parser A) (f : A -> parser B) p b p' :
  (m ≫= f) p = (ROk b, p') -> exists a q, m p = (ROk a, q) /\ f a q = (ROk b, p').
Proof. unfold mbind, parser_bind. destruct (m p) as [[a| |] q]; [eauto|done|done]. Qed.

(** From [p] to [q] exactly the text [u] was read. *)
Definition eats (p : jp_t) (u : bytes) (q : jp_t) : Prop :=
  p.(jp_pos) = u ++ q.(jp_pos) /\ q = p <| jp_pos := q.(jp_pos) |>.

Lemma eats_nil p : eats p [] p.
Proof. split; [done|]. cbn. by rewrite mkJp_eta. Qed.
Lemma eats_app p u q v r : eats p u q -> eats q v r -> eats p (u ++ v) r.
Proof.
  intros [H1 H2] [H3 H4]. split; [by rewrite H1, H3, app_assoc|]. rewrite H2 in H4. done.
Qed.

Lemma ws_inv p a q : ngx_http_waf_jp_ws p = (ROk a, q) -> exists w, ws w /\ eats p w q /\
  match q.(jp_pos) with c :: _ => is_ws c = false | [] => True end.
Proof.
  intros [= <- <-]. destruct (ws_drop_suffix p.(jp_pos)) as (w & E & Hw).
  exists w. split; [done|]. split; [split; [done|done]|]. cbn.
  induction (jp_pos p) as [|c s IH] in |- *; cbn; [done|]. destruct (is_ws c) eqn:Ec; [done|]. by rewrite Ec.
Qed.

Lemma peek_inv p c q : ppeek p = (ROk c, q) -> q = p /\ c = head p.(jp_pos).
Proof. by intros [= <- <-]. Qed.

Lemma advance_inv c s p a q : p.(jp_pos) = c :: s -> padvance p = (ROk a, q) -> eats p [c] q.
Proof. intros E [= _ <-]. split; cbn; by rewrite E. Qed.

(** [c] was seen, and is taken. *)
Lemma peeked c p : Some c = head p.(jp_pos) -> exists s, p.(jp_pos) = c :: s.
Proof. destruct (jp_pos p); [done|]. intros [= ->]. eauto. Qed.

Lemma advance_peeked c p a q : Some c = head p.(jp_pos) -> padvance p = (ROk a, q) -> eats p [c] q.
Proof. intros [s Hs]%peeked. by apply (advance_inv c s). Qed.

Ltac mstep H :=
  let x := fresh "x" in let q := fresh "q" in let E := fresh "E" in
  apply bind_ok in H as (x & q & E & H).

Lemma string_skip_inv p a q : ngx_http_waf_jp_string_skip p = (ROk a, q) ->
  exists w s, ws w /\ quoted s /\ eats p (w ++ s) q.
Proof.
  intros H. mstep H. injection H as _ <-. rewrite string_buf_eq in E.
  destruct (ws_drop_suffix p.(jp_pos)) as (w & Ew & Hw).
  destruct (ws_drop (jp_pos p)) as [|c rest]; [done|].
  destruct (Z.eqb_spec c 34) as [->|]; [|done].
  apply string_loop_inv in E as (text & s & Hs & Hp & Hq & _); [|lia]. cbn [upd jp_pos] in Hp.
  exists w, (34 :: text ++ [34]). split; [done|]. split; [by exists text, s|].
  split; [|by rewrite Hq]. rewrite Ew, Hp, <- !app_assoc. cbn. by rewrite <- app_assoc.
Qed.

Lemma key_skip_inv p a q : ngx_http_waf_jp_key_skip p = (ROk a, q) ->
  exists k, key_text 125 k /\ eats p k q.
Proof.
  intros H. mstep H. apply string_skip_inv in E as (w & s & Hw & Hs & He).
  mstep H. apply ws_inv in E as (w2 & Hw2 & He2 & _). mstep H. apply peek_inv in E as [-> ->].
  case_bool_decide as Hc; [|done]. apply (advance_peeked 58) in H; [|done].
  exists ((w ++ s) ++ w2 ++ [58]). split; [exists w, s, w2; by rewrite <- app_assoc|].
  eapply eats_app; [done|]. by eapply eats_app.
Qed.

Lemma digits_inv p a q : ngx_http_waf_jp_digits p = (ROk a, q) ->
  exists ds, digits1 ds /\ eats p ds q.
Proof.
  intros H. mstep H. injection E as <- <-. mstep H. injection E as _ <-.
  destruct (digits_drop_spec p.(jp_pos)) as (ds & E & Hf & Hn & _).
  destruct (match jp_pos p with c :: _ => is_digit c | [] => false end); [|done].
  injection H as _ <-. exists ds. split; [|by split]. split; [|done]. intros Hd. apply Hn in Hd. done.
Qed.

Lemma either_peeked o a b :
  bool_decide (o = Some a) || bool_decide (o = Some b) = true ->
  exists e : Z, (e = a \/ e = b) /\ Some e = o.
Proof. intros [H|H]%orb_true_iff; apply bool_decide_eq_true in H; eauto. Qed.

Lemma exp_sign_inv p a q :
  (if bool_decide (head p.(jp_pos) = Some 43) || bool_decide (head p.(jp_pos) = Some 45)
   then padvance else mret tt) p = (ROk a, q) ->
  exists sg, (sg = [] \/ sg = [43] \/ sg = [45]) /\ eats p sg q.
Proof.
  destruct (bool_decide (head p.(jp_pos) = Some 43) || bool_decide (head p.(jp_pos) = Some 45)) eqn:Hc.
  - apply either_peeked in Hc as (e & He & Hh). intros H. exists [e].
    split; [by destruct He as [-> | ->]; tauto|]. by eapply advance_peeked.
  - intros [= _ <-]. exists []. split; [tauto|apply eats_nil].
Qed.

Lemma exp_inv p a q :
  (c ← ppeek;
   if bool_decide (c = Some 101) || bool_decide (c = Some 69) then
     padvance;;
     c ← ppeek;
     (if bool_decide (c = Some 43) || bool_decide (c = Some 45) then padvance else mret tt);;
     ngx_http_waf_jp_digits
   else mret tt) p = (ROk a, q) ->
  exists ex, exp_text ex /\ eats p ex q.
Proof.
  intros H. mstep H. apply peek_inv in E as [-> ->].
  destruct (bool_decide (head p.(jp_pos) = Some 101) || bool_decide (head p.(jp_pos) = Some 69)) eqn:Hc.
  2: { injection H as _ <-. exists []. split; [by left|apply eats_nil]. }
  apply either_peeked in Hc as (e & He & Hh). mstep H. apply (advance_peeked e) in E; [|done].
  mstep H. apply peek_inv in E0 as [-> ->]. mstep H.
  apply exp_sign_inv in E0 as (g & Hg & Heg). apply digits_inv in H as (ds & Hds & Hed).
  exists (e :: g ++ ds). split; [right; by exists e, g, ds|].
  apply (eats_app _ [e] q0); [done|]. by eapply eats_app.
Qed.

Lemma number_inv p a q : ngx_http_waf_jp_number_skip p = (ROk a, q) ->
  exists s, number s /\ eats p s q.
Proof.
  intros H. mstep H. apply peek_inv in E as [-> ->].
  mstep H. assert (Hs : exists sg, sign_text sg /\ eats p sg q0).
  { case_bool_decide as Hc; [|injection E as _ <-; exists []; split; [by left|apply eats_nil]].
    exists [45]. split; [by right|]. by eapply advance_peeked. }
  clear E. destruct Hs as (sg & Hsg & Hes). mstep H. apply peek_inv in E as [-> ->].
  mstep H. assert (Hi : exists i, int_text i /\ eats q0 i q1).
  { case_bool_decide as Hc; [exists [48]; split; [by left|by eapply advance_peeked]|].
    apply digits_inv in E as (ds & Hds & He). exists ds. split; [|done]. right. split; [done|].
    destruct He as [He _]. rewrite He in Hc. destruct ds; [by destruct Hds as [[] _]|]. exact Hc. }
  clear E. destruct Hi as (i & Hi & Hei). mstep H. apply peek_inv in E as [-> ->].
  mstep H. assert (Hf : exists fr, frac_text fr /\ eats q1 fr q2).
  { case_bool_decide as Hc; [|injection E as _ <-; exists []; split; [by left|apply eats_nil]].
    mstep E. apply (advance_peeked 46) in E0; [|done]. apply digits_inv in E as (ds & Hds & He).
    exists (46 :: ds). split; [right; eauto|]. by apply (eats_app _ [46] q3). }
  clear E. destruct Hf as (fr & Hfr & Hef). apply exp_inv in H as Hx.
  destruct Hx as (ex & Hex & Hee). exists (sg ++ i ++ fr ++ ex). split; [by exists sg, i, fr, ex|].
  eapply eats_app; [done|]. eapply eats_app; [done|]. by eapply eats_app.
Qed.

Lemma literal_true l p q : ngx_http_waf_jp_literal l p = (ROk true, q) -> eats p l q.
Proof. intros H. by apply literal_inv in H. Qed.

Lemma bool_inv p b q : ngx_http_waf_jp_bool p = (ROk b, q) ->
  exists w s, ws w /\ (s = lit "true" \/ s = lit "false") /\ eats p (w ++ s) q.
Proof.
  intros H. mstep H. apply ws_inv in E as (w & Hw & He & _). mstep H. destruct x0.
  - injection H as _ <-. apply literal_true in E. exists w, (lit "true").
    split; [done|]. split; [by left|]. by eapply eats_app.
  - apply literal_inv in E as ->. mstep H. destruct x0; [|done]. injection H as _ <-.
    apply literal_true in E. exists w, (lit "false"). split; [done|]. split; [by right|]. by eapply eats_app.
Qed.

(** ** A value *)

Definition close_ok (st : list Z) : Prop := Forall (fun c => c = 125 \/ c = 93) st.

(** The budget of nesting under a stack. *)
Definition budget (st : list Z) : nat := NGX_HTTP_WAF_JSON_MAX_DEPTH - length st.

(** White space before a token that starts with none is not part of it. *)
Lemma eats_no_ws p w s q c r :
  eats p (w ++ s) q -> p.(jp_pos) = c :: r -> is_ws c = false -> ws w -> eats p s q.
Proof.
  intros [H1 H2] Hp Hc Hw. destruct Hw as [|x w Hx _]; [done|].
  rewrite Hp in H1. injection H1 as -> _. congruence.
Qed.

(** What one turn of the switch has read: a whole value, or the opening of a
    container up to its first value. *)
Definition value_read (st : list Z) (p : jp_t) (st' : list Z) (b : bool) (q : jp_t) : Prop :=
  exists w u, ws w /\ eats p (w ++ u) q /\
  (if b then
     exists o c w' k, brackets o c /\ ws w' /\ key_text c k /\ u = o :: w' ++ k /\ st' = c :: st /\
       (length st < NGX_HTTP_WAF_JSON_MAX_DEPTH)%nat
   else st' = st /\ json (budget st) u).

Lemma container_read st w p q0 c s st' b q :
  ws w -> eats p w q0 -> q0.(jp_pos) = c :: s -> (c =? 123) || (c =? 91) = true ->
  (length st < NGX_HTTP_WAF_JSON_MAX_DEPTH)%nat ->
  (let close := if c =? 123 then 125 else 93 in
   padvance;; ngx_http_waf_jp_ws;;
   n ← ppeek;
   if bool_decide (n = Some close) then padvance;; mret (st, false)
   else (if c =? 123 then ngx_http_waf_jp_key_skip else mret tt);; mret (close :: st, true)) q0
    = (ROk (st', b), q) ->
  value_read st p st' b q.
Proof.
  cbn zeta. intros Hw He Ep Ec Hd H. exists w. set (close := if c =? 123 then 125 else 93) in *.
  assert (Hb : brackets c close).
  { unfold close. destruct (Z.eqb_spec c 123) as [->|]; [by left|right; lia]. }
  mstep H. apply (advance_inv c s) in E; [|done].
  mstep H. apply ws_inv in E0 as (w2 & Hw2 & He2 & _). mstep H. apply peek_inv in E0 as [-> ->].
  assert (Hpre : forall u r, eats q2 u r -> eats p (w ++ c :: w2 ++ u) r).
  { intros u r Hu. eapply eats_app; [done|]. apply (eats_app _ [c] q1); [done|]. by eapply eats_app. }
  case_bool_decide as Hc; mstep H; injection H as <- <- <-.
  - apply (advance_peeked close) in E0; [|by symmetry]. exists (c :: w2 ++ [close]).
    split; [done|]. split; [by apply Hpre|]. split; [done|]. unfold budget.
    destruct (NGX_HTTP_WAF_JSON_MAX_DEPTH - length st)%nat eqn:Eb; [lia|]. by constructor.
  - assert (Hk : exists k, key_text close k /\ eats q2 k q3).
    { unfold close. destruct (c =? 123); [by eapply key_skip_inv|]. injection E0 as _ <-.
      exists []. split; [done|apply eats_nil]. }
    destruct Hk as (k & Hk & Hek). exists (c :: w2 ++ k). split; [done|]. split; [by apply Hpre|].
    exists c, close, w2, k. by split_and!.
Qed.

Lemma leaf_read {A} st w p q0 st' b q (m : parser A) :
  ws w -> eats p w q0 -> (m;; mret (st, false)) q0 = (ROk (st', b), q) ->
  (forall a r, m q0 = (ROk a, r) -> exists u, eats q0 u r /\ json (budget st) u) ->
  value_read st p st' b q.
Proof.
  intros Hw He Hm Hu. mstep Hm. injection Hm as <- <- <-. destruct (Hu _ _ E) as (u & Hu1 & Hu2).
  exists w, u. split; [done|]. split; [by eapply eats_app|done].
Qed.

Lemma skip_value_inv st p st' b q :
  (length st <= NGX_HTTP_WAF_JSON_MAX_DEPTH)%nat ->
  skip_value st p = (ROk (st', b), q) -> value_read st p st' b q.
Proof.
  intros Hd H. mstep H. apply ws_inv in E as (w & Hw & He & Hns). mstep H. apply peek_inv in E as [-> ->].
  destruct (jp_pos q0) as [|c s] eqn:Ep; cbn [head] in H; [done|].
  destruct ((c =? 123) || (c =? 91)) eqn:Ec.
  { destruct (Nat.eqb_spec (length st) NGX_HTTP_WAF_JSON_MAX_DEPTH); [done|].
    eapply container_read; try done. lia. }
  destruct (Z.eqb_spec c 34) as [->|].
  { eapply leaf_read; [done|done|exact H|]. intros a r Hr.
    apply string_skip_inv in Hr as (w2 & u & Hw2 & Hu & Heu).
    exists u. split; [by eapply eats_no_ws|by apply j_string]. }
  destruct ((c =? 116) || (c =? 102)).
  { eapply leaf_read; [done|done|exact H|]. intros a r Hr. apply bool_inv in Hr as (w2 & u & Hw2 & Hu & Heu).
    exists u. split; [by eapply eats_no_ws|]. destruct Hu as [-> | ->]; [apply j_true|apply j_false]. }
  destruct (c =? 110).
  { mstep H. destruct x0; [|done]. injection H as <- <- <-.
    mstep E. apply ws_inv in E0 as (w2 & Hw2 & He2 & _). apply literal_true in E.
    exists w, (lit "null"). split; [done|]. split; [|split; [done|apply j_null]].
    eapply eats_app; [done|]. eapply eats_no_ws; [by eapply eats_app|done|done|done]. }
  destruct (negb _ && negb _); [done|].
  eapply leaf_read; [done|done|exact H|]. intros a r Hr. apply number_inv in Hr as (u & Hu & Heu).
  exists u. split; [done|by apply j_number].
Qed.

(** ** What follows a value under a stack *)

Inductive closes : list Z -> bytes -> Prop :=
  | cl_nil : closes [] []
  | cl_close c st w s : ws w -> closes st s -> closes (c :: st) (w ++ c :: s)
  | cl_more c st w k w' v s : ws w -> key_text c k -> ws w' -> json (budget (c :: st)) v ->
      closes (c :: st) s -> closes (c :: st) (w ++ 44 :: k ++ w' ++ v ++ s).

Lemma skip_after_inv st p st' q : close_ok st -> skip_after st p = (ROk st', q) ->
  exists s, eats p s q /\
  match st' with
  | [] => closes st s
  | c :: _ => (exists pre, st = pre ++ st') /\
      forall w v s', ws w -> json (budget st') v -> closes st' s' -> closes st (s ++ w ++ v ++ s')
  end.
Proof.
  revert p. induction st as [|c st IH]; intros p Hok H.
  { injection H as <- <-. exists []. split; [apply eats_nil|constructor]. }
  inversion_clear Hok as [|? ? Hc Hok']. cbn [skip_after] in H.
  mstep H. apply ws_inv in E as (w & Hw & He & _). mstep H. apply peek_inv in E as [-> ->].
  destruct (jp_pos q0) as [|x0 s0] eqn:Ep; cbn [head] in H; [done|].
  destruct (Z.eqb_spec x0 c) as [->|].
  { mstep H. apply (advance_inv c s0) in E; [|done]. apply IH in H as (s & Hes & Hs); [|done].
    exists (w ++ c :: s). split; [eapply eats_app; [done|]; by apply (eats_app _ [c] q1)|].
    destruct st' as [|c' st']; [by constructor|]. destruct Hs as [[pre ->] Hs].
    split; [by exists (c :: pre)|]. intros w2 v s' Hw2 Hv Hs'.
    rewrite <- app_assoc. constructor; [done|]. by apply Hs. }
  destruct (Z.eqb_spec x0 44) as [->|]; cbn [negb] in H; [|done].
  mstep H. apply (advance_inv 44 s0) in E; [|done]. mstep H. injection H as <- <-.
  assert (Hk : exists k, key_text c k /\ eats q1 k q2).
  { unfold key_text. destruct (c =? 125); [by eapply key_skip_inv|]. injection E0 as _ <-.
    exists []. split; [done|apply eats_nil]. }
  destruct Hk as (k & Hk & Hek). exists (w ++ 44 :: k).
  split; [eapply eats_app; [done|]; by apply (eats_app _ [44] q1)|].
  split; [by exists []|]. intros w2 v s' Hw2 Hv Hs'. rewrite <- app_assoc. cbn [app].
  rewrite <- ?app_assoc. by constructor.
Qed.

(** The text that closes the innermost container, apart from the rest. *)
Lemma closes_split c st s : closes (c :: st) s ->
  exists s1 s2, s = s1 ++ s2 /\ closes st s2 /\
    forall w v, ws w -> json (budget (c :: st)) v -> items c (budget (c :: st)) (w ++ v ++ s1).
Proof.
  intros H. remember (c :: st) as st' eqn:Est. induction H as [|c' st0 w s Hw Hs IH|c' st0 w k w' v s Hw Hk Hw' Hv Hs IH]; [done| |].
  - injection Est as -> ->. exists (w ++ [c]), s. rewrite <- app_assoc. split; [done|]. split; [done|].
    intros w2 v Hw2 Hv. by apply i_last.
  - injection Est as -> ->. destruct (IH eq_refl) as (s1 & s2 & -> & Hs2 & Hi).
    exists (w ++ 44 :: k ++ w' ++ v ++ s1), s2. split; [|split; [done|]].
    + rewrite <- !app_assoc. cbn [app]. by rewrite <- !app_assoc.
    + intros w2 v2 Hw2 Hv2. apply i_more; [done|done|done|done|]. by apply Hi.
Qed.

Lemma skip_loop_inv f st p q : close_ok st -> (length st <= NGX_HTTP_WAF_JSON_MAX_DEPTH)%nat ->
  skip_loop f st p = (ROk tt, q) ->
  exists w v s, ws w /\ json (budget st) v /\ closes st s /\ eats p (w ++ v ++ s) q.
Proof.
  revert st p. induction f as [|f IH]; intros st p Hok Hd H; [done|]. cbn [skip_loop] in H.
  mstep H. destruct x as [st' b].
  apply skip_value_inv in E as (w & u & Hw & He & Hu); [|done]. destruct b.
  - destruct Hu as (o & c & w' & k & Hb & Hw' & Hk & -> & -> & Hlt).
    apply IH in H as (w2 & v & s & Hw2 & Hv & Hs & He2); [| |cbn; lia].
    2: { constructor; [|done]. destruct Hb as [[_ ->]|[_ ->]]; tauto. }
    apply closes_split in Hs as (s1 & s2 & -> & Hs2 & Hi).
    exists w, (o :: w' ++ k ++ w2 ++ v ++ s1), s2. split; [done|]. split; [|split; [done|]].
    + replace (budget st) with (S (budget (c :: st))) by (unfold budget; cbn [length]; lia).
      apply (j_container _ o c); auto.
    + pose proof (eats_app _ _ _ _ _ He He2) as Hx. cbn [app] in Hx |- *.
      rewrite <- !app_assoc in Hx. cbn [app] in Hx. rewrite <- ?app_assoc in Hx. repeat (rewrite <- !app_assoc; cbn [app]). exact Hx.
  - destruct Hu as [-> Hu]. mstep H. apply skip_after_inv in E as (s & Hes & Hs); [|done].
    destruct x as [|c st'].
    + injection H as <-. exists w, u, s. split_and!; try done.
      rewrite app_assoc. by eapply eats_app.
    + destruct Hs as [[pre ->] Hs]. apply IH in H as (w2 & v & s' & Hw2 & Hv & Hs' & He2).
      * exists w, u, (s ++ w2 ++ v ++ s'). split_and!; [done|done|by apply Hs|].
        rewrite app_assoc. eapply eats_app; [done|]. by eapply eats_app.
      * unfold close_ok in *. by apply Forall_app in Hok as [_ ?].
      * rewrite length_app in Hd. lia.
Qed.

(** What was skipped is one value, nested at most sixteen deep. *)
Lemma skip_sound p q : ngx_http_waf_jp_skip p = (ROk tt, q) ->
  exists w v, ws w /\ json NGX_HTTP_WAF_JSON_MAX_DEPTH v /\ eats p (w ++ v) q.
Proof.
  intros H. mstep H. injection E as <- <-.
  apply skip_loop_inv in H as (w & v & s & Hw & Hv & Hs & He); [|constructor|cbn; lia].
  inversion Hs; subst. rewrite app_nil_r in He. by exists w, v.
Qed.

(** ** Every turn takes a byte *)

Lemma number_head s : number s -> exists c t, s = c :: t /\ (c = 45 \/ is_digit c = true).
Proof.
  intros (sg & i & fr & ex & -> & Hs & Hi & _). destruct Hs as [-> | ->]; [|cbn; eauto].
  destruct Hi as [-> |[[Hn Hd] _]]; [cbn; eauto|]. destruct Hd as [|c i Hc _]; [done|]. cbn. eauto.
Qed.

(** The first byte of a value. *)
Lemma json_head d v : json d v ->
  exists c t, v = c :: t /\ is_ws c = false /\ c <> 93 /\ c <> 125.
Proof.
  intros H. destruct H as [d s (text & out & -> & _)|d|d|d|d s Hn|d o c w [[-> ->]|[-> ->]] _|d o c w k t [[-> ->]|[-> ->]] _ _ _];
    try (by eauto).
  - by eexists 34, _.
  - by eexists 116, _.
  - by eexists 102, _.
  - by eexists 110, _.
  - apply number_head in Hn as (c & t & -> & Hc). exists c, t. split; [done|].
    unfold is_digit, is_ws in *. destruct Hc as [->|Hc]; [done|]. lia.
  - by eexists 123, _.
  - by eexists 91, _.
  - by eexists 123, _.
  - by eexists 91, _.
Qed.

Lemma wb_skip_value st : (length st <= NGX_HTTP_WAF_JSON_MAX_DEPTH)%nat -> wb 1 (skip_value st).
Proof.
  intros Hd p.
  assert (Hw : wb 0 (skip_value st)).
  { unfold skip_value. apply wb_bind0; [apply wb_ws|]. intros _. apply wb_bind0; [apply wb_ppeek|].
    intros [c|]; [|apply wb_perror].
    assert (Hbool : wb 0 ngx_http_waf_jp_bool) by (intros ?; eapply wb_weaken; [apply wb_bool|lia]).
    wb_auto. }
  specialize (Hw p). unfold wb_at in *.
  destruct (skip_value st p) as [[[st' b]| |] q] eqn:E; [|done|done].
  apply skip_value_inv in E as (w & u & _ & [He _] & Hu); [|done]. exists (w ++ u). split; [done|].
  rewrite length_app. destruct b.
  - destruct Hu as (o & c & w' & k & _ & _ & _ & -> & _). cbn. lia.
  - destruct Hu as [_ Hu]. apply json_head in Hu as (c & t & -> & _). cbn. lia.
Qed.

(** A stack the skipper can have. *)
Definition stack_ok (st : list Z) : Prop :=
  close_ok st /\ (length st <= NGX_HTTP_WAF_JSON_MAX_DEPTH)%nat.

Lemma skip_value_stack st p st' b q : stack_ok st -> skip_value st p = (ROk (st', b), q) -> stack_ok st'.
Proof.
  intros [Hok Hd] H. apply skip_value_inv in H as (w & u & _ & _ & Hu); [|done]. destruct b.
  - destruct Hu as (o & c & _ & _ & Hb & _ & _ & _ & -> & Hl). split; [|cbn; lia].
    constructor; [|done]. destruct Hb as [[_ ->]|[_ ->]]; tauto.
  - destruct Hu as [-> _]. done.
Qed.
Lemma skip_after_stack st p st' q : stack_ok st -> skip_after st p = (ROk st', q) -> stack_ok st'.
Proof.
  intros [Hok Hd] H. apply skip_after_inv in H as (s & _ & Hs); [|done].
  destruct st' as [|c st']; [split; [constructor|cbn; lia]|]. destruct Hs as [[pre ->] _].
  unfold close_ok in Hok. apply Forall_app in Hok as [_ ?]. rewrite length_app in Hd. split; [done|lia].
Qed.

Lemma wb_skip_loop f st p : stack_ok st -> (length p.(jp_pos) < f)%nat -> wb_at 1 (skip_loop f st) p.
Proof.
  revert st p. induction f as [|f IH]; intros st p Hok Hf; [lia|]. cbn [skip_loop].
  apply (wb_at_bind 1 0); [apply wb_skip_value; apply Hok|]. intros [st' b] q E Ht.
  apply takes_length in Ht. apply skip_value_stack in E as Hok'; [|done].
  destruct b; [eapply wb_weaken; [apply IH; [done|lia]|lia]|].
  apply (wb_at_bind 0 0); [apply wb_skip_after|]. intros st2 r E2 Ht2. apply takes_length in Ht2.
  apply skip_after_stack in E2; [|done].
  destruct st2; [apply wb_elim, wb_ret|]. eapply wb_weaken; [apply IH; [done|lia]|lia].
Qed.

(** Skipping always comes to a result and takes at least a byte. *)
Lemma wb_skip : wb 1 ngx_http_waf_jp_skip.
Proof. intros p. apply wb_get_take. apply wb_skip_loop; [split; [constructor|cbn; lia]|lia]. Qed.

(** ** The loop without its fuel *)

Definition run (st : list Z) (p : jp_t) : res unit * jp_t :=
  skip_loop (S (length p.(jp_pos))) st p.

Lemma skip_loop_fuel f f' st p : stack_ok st ->
  (length p.(jp_pos) < f)%nat -> (length p.(jp_pos) < f')%nat -> skip_loop f st p = skip_loop f' st p.
Proof.
  revert f' st p. induction f as [|f IH]; intros [|f'] st p Hok Hf Hf'; try lia.
  cbn [skip_loop]. unfold mbind, parser_bind.
  pose proof (wb_skip_value st (proj2 Hok) p) as Hw. unfold wb_at in Hw.
  destruct (skip_value st p) as [[[st' b]| |] q] eqn:E; [|done|done].
  apply takes_length in Hw. apply skip_value_stack in E as Hok'; [|done].
  destruct b; [apply IH; [done|lia|lia]|].
  pose proof (wb_skip_after st' q) as Hw2. unfold wb_at in Hw2.
  destruct (skip_after st' q) as [[st2| |] r] eqn:E2; [|done|done].
  apply takes_length in Hw2. apply skip_after_stack in E2; [|done].
  destruct st2; [done|]. apply IH; [done|lia|lia].
Qed.

(** The rest of the loop after a whole value. *)
Definition finish (st : list Z) (p : jp_t) : res unit * jp_t :=
  match skip_after st p with
  | (ROk [], q) => (ROk tt, q)
  | (ROk st', q) => run st' q
  | (RErr, q) => (RErr, q)
  | (RFuel, q) => (RFuel, q)
  end.

Lemma run_value st p st' b q : stack_ok st -> skip_value st p = (ROk (st', b), q) ->
  run st p = if b then run st' q else finish st' q.
Proof.
  intros Hok E. unfold run at 1. cbn [skip_loop]. unfold mbind, parser_bind. rewrite E.
  pose proof (wb_skip_value st (proj2 Hok) p) as Hw. unfold wb_at in Hw. rewrite E in Hw.
  apply takes_length in Hw. apply skip_value_stack in E as Hok'; [|done].
  destruct b; [apply skip_loop_fuel; [done|lia|lia]|]. unfold finish.
  pose proof (wb_skip_after st' q) as Hw2. unfold wb_at in Hw2.
  destruct (skip_after st' q) as [[st2| |] r] eqn:E2; [|done|done].
  apply takes_length in Hw2. apply skip_after_stack in E2; [|done].
  destruct st2; [done|]. apply skip_loop_fuel; [done|lia|lia].
Qed.

(** * Every value is skipped *)

Section Complete.
Context (e : option string) (g : bool) (m : alloc_stream).

Local Abbreviation at_ s := (mkJp s e g m).

Definition no_ws (rest : bytes) : Prop :=
  match rest with c :: _ => is_ws c = false | [] => True end.

Lemma ws_drop_run w rest : ws w -> no_ws rest -> ws_drop (w ++ rest) = rest.
Proof.
  intros Hw Hr. induction Hw as [|c w Hc _ IH]; cbn; [|by rewrite Hc].
  destruct rest as [|c rest]; [done|]. cbn in *. by rewrite Hr.
Qed.

Lemma ws_run w rest : ws w -> no_ws rest -> ngx_http_waf_jp_ws (at_ (w ++ rest)) = (ROk tt, at_ rest).
Proof.
  intros Hw Hr. unfold ngx_http_waf_jp_ws. cbn [upd jp_pos jp_error jp_first jp_mem]. by rewrite ws_drop_run.
Qed.

Lemma ws_none s : no_ws s -> ngx_http_waf_jp_ws (at_ s) = (ROk tt, at_ s).
Proof. apply (ws_run []). constructor. Qed.

(** A character of a string as it is written. *)
Inductive schar : bytes -> Prop :=
  | sc_plain c : 0x20 <= c < 0x80 -> c <> 34 -> c <> 92 -> schar [c]
  | sc_utf8 u : scalar u -> 0x80 <= u -> schar (ngx_http_waf_utf8_encode u)
  | sc_esc x c : simple_escape x = Some c -> schar [92; x]
  | sc_uni h u : hex4 h u -> schar (92 :: 117 :: h).

Lemma spells_schars text out : spells text out -> exists ts, Forall schar ts /\ text = concat ts.
Proof.
  intros (ts & us & Hf & -> & _). induction Hf as [|t u ts us Hc _ (ts' & Hts & E)]; [by exists []|].
  cbn [concat]. rewrite E.
  assert (H1 : schar t -> exists ts0, Forall schar ts0 /\ t ++ concat ts' = concat ts0).
  { intros Ht. exists (t :: ts'). split; [by constructor|done]. }
  destruct Hc as [c|u Hu Hu2|x c Hx|h u Hh|h u Hh|h1 u1 h2 u2 Hh1 Hh2];
    try (apply H1; econstructor; eassumption).
  exists ((92 :: 117 :: h1) :: (92 :: 117 :: h2) :: ts'). split.
  - constructor; [by econstructor|]. constructor; [by econstructor|done].
  - cbn. rewrite <- !app_assoc. done.
Qed.

Lemma utf8_encode_cons u : scalar u -> 0x80 <= u ->
  exists c s, ngx_http_waf_utf8_encode u = c :: s /\ 0x80 <= c.
Proof.
  intros Hu Hu2. pose proof (utf8_encode_high u ltac:(unfold scalar in Hu; lia)) as Hh.
  pose proof (utf8_encode_len u). destruct Hh as [|y s Hy]; [cbn in *; lia|eauto].
Qed.

Lemma hex4_at h u rest : hex4 h u -> ngx_http_waf_jp_hex4 (at_ (h ++ rest)) = (ROk u, at_ rest).
Proof. apply (hex4_run (at_ [])). Qed.

Lemma unit_utf8_at u rest : scalar u -> 0x80 <= u ->
  ngx_http_waf_jp_unit (at_ (ngx_http_waf_utf8_encode u ++ rest)) = (ROk (ngx_http_waf_utf8_encode u), at_ rest).
Proof.
  intros Hu Hu2. pose proof (utf8_valid_encode u rest Hu) as Hv.
  destruct (utf8_encode_cons u Hu Hu2) as (c & s & Es & Hc). rewrite Es in *. cbn [app] in *.
  rewrite unit_utf8, Hv by done. change (c :: s ++ rest) with ((c :: s) ++ rest).
  by rewrite take_app_length, drop_app_length.
Qed.

(** A high surrogate takes the escape after it along when that is a low one. *)
Lemma escape_schar u ts rest : Forall schar ts ->
  exists v ts', escape_cp u (at_ (concat ts ++ 34 :: rest)) = (ROk v, at_ (concat ts' ++ 34 :: rest)) /\
    Forall schar ts' /\ (length ts' <= length ts)%nat.
Proof.
  intros Hts. unfold escape_cp. destruct ((0xdc00 <=? u) && (u <=? 0xdfff)); [by exists 0xfffd, ts|].
  destruct ((0xd800 <=? u) && (u <=? 0xdbff)); [|by exists u, ts].
  unfold mbind, parser_bind. cbn [pget jp_pos].
  destruct (_ && _) eqn:Ec; [|by exists 0xfffd, ts].
  apply andb_true_iff in Ec as [_ Ec]. apply bool_decide_eq_true in Ec.
  destruct Hts as [|t2 ts Ht2 Hts]; [done|].
  assert (Hu2 : exists h2 u2, t2 = 92 :: 117 :: h2 /\ hex4 h2 u2).
  { destruct Ht2 as [c Hc H34 H92|v Hv Hv2|x c Hx|h2 u2 Hh2]; [| | |eauto].
    - cbn in Ec. congruence.
    - destruct (utf8_encode_cons v Hv Hv2) as (c & s & Es & Hc). cbn [concat] in Ec. rewrite Es in Ec.
      injection Ec as -> _. lia.
    - cbn in Ec. injection Ec as ->. done. }
  destruct Hu2 as (h2 & u2 & -> & Hh2). cbn [concat app padvance jp_pos upd jp_error jp_first jp_mem drop].
  rewrite !drop_0, <- !app_assoc, (hex4_at h2 u2) by done. destruct (_ && _).
  - exists (0x10000 + Z.shiftl (u - 0xd800) 10 + (u2 - 0xdc00)), ts. split; [done|]. split; [done|cbn; lia].
  - exists 0xfffd, ((92 :: 117 :: h2) :: ts). split; [|split; [|done]].
    + cbn [pset_pos upd concat jp_error jp_first jp_mem app]. by rewrite <- app_assoc.
    + constructor; [by econstructor|done].
Qed.

(** One unit of a string of characters is read, or two. *)
Lemma unit_schar t ts rest : Forall schar (t :: ts) ->
  exists u ts', ngx_http_waf_jp_unit (at_ (concat (t :: ts) ++ 34 :: rest)) =
    (ROk u, at_ (concat ts' ++ 34 :: rest)) /\ Forall schar ts' /\ (length ts' <= length ts)%nat.
Proof.
  intros H. inversion_clear H as [|? ? Ht Hts]. cbn [concat]. rewrite <- app_assoc.
  destruct Ht as [c Hc H34 H92|u Hu Hu2|x c Hx|h u Hh].
  - exists [c], ts. cbn [app]. by rewrite unit_plain by lia.
  - exists (ngx_http_waf_utf8_encode u), ts. by rewrite unit_utf8_at.
  - exists [c], ts. cbn [app]. rewrite unit_escape, Hx. done.
  - destruct (escape_schar u ts rest Hts) as (v & ts' & Hv & H1 & H2).
    exists (ngx_http_waf_utf8_encode v), ts'. split; [|done].
    cbn [app]. rewrite unit_escape. cbn [simple_escape Z.eqb Pos.eqb negb].
    unfold mbind, parser_bind. by rewrite (hex4_at h u), Hv.
Qed.

Lemma schar_head t s : schar t -> head (t ++ s) <> Some 34 /\ t ++ s <> [].
Proof.
  intros Ht. destruct Ht as [c Hc H34 H92|v Hv Hv2|x c Hx|h v Hh]; [cbn; by split; [congruence|]| |done|done].
  destruct (utf8_encode_cons v Hv Hv2) as (c & s' & -> & Hc). cbn. split; [|done]. intros [= ->]. lia.
Qed.

Lemma string_loop_run f room full o ts rest : Forall schar ts ->
  (length (concat ts ++ 34%Z :: rest) < f)%nat ->
  exists r, string_loop f room full o (at_ (concat ts ++ 34 :: rest)) = (ROk r, at_ rest).
Proof.
  revert ts room full o. induction f as [|f IH]; intros ts room full o Hts Hf; [lia|].
  rewrite string_loop_step. destruct ts as [|t ts]; [cbn; eauto|].
  destruct (unit_schar t ts rest Hts) as (u & ts' & Hu & Hts' & Hl).
  assert (Hh : head (concat (t :: ts) ++ 34 :: rest) <> Some 34 /\ concat (t :: ts) ++ 34 :: rest <> []).
  { inversion_clear Hts. cbn [concat]. rewrite <- app_assoc. by apply schar_head. }
  cbn [jp_pos]. destruct (concat (t :: ts) ++ 34 :: rest) as [|c s] eqn:Es; [by destruct Hh|].
  destruct (Z.eqb_spec c 34) as [->|]; [by destruct Hh|]. rewrite <- Es in *. rewrite Hu.
  pose proof (wb_unit (at_ (concat (t :: ts) ++ 34 :: rest))) as Hw. unfold wb_at in Hw. rewrite Hu in Hw.
  apply unit_inv in Hu as (tx & Htx & Hp & _); [|rewrite Es; cbn; congruence].
  apply chunk_len in Htx. cbn [jp_pos] in Hp.
  assert (length (concat ts' ++ 34%Z :: rest) < f)%nat by (rewrite Hp, length_app in Hf; lia).
  destruct (full || _); by apply IH.
Qed.

Lemma string_skip_run w s rest : ws w -> quoted s ->
  ngx_http_waf_jp_string_skip (at_ (w ++ s ++ rest)) = (ROk tt, at_ rest).
Proof.
  intros Hw (text & out & -> & Hs). apply spells_schars in Hs as (ts & Hts & ->).
  unfold ngx_http_waf_jp_string_skip. unfold mbind at 1, parser_bind at 1. rewrite string_buf_eq.
  cbn [jp_pos]. rewrite ws_drop_run by done. cbn [app]. cbn [Z.eqb Pos.eqb upd jp_error jp_first jp_mem].
  rewrite <- app_assoc. cbn [app].
  destruct (string_loop_run (S (length (concat ts ++ 34 :: rest))) 0 false [] ts rest Hts ltac:(lia)) as (r & ->).
  done.
Qed.

Lemma key_skip_run k rest : key_text 125 k ->
  ngx_http_waf_jp_key_skip (at_ (k ++ rest)) = (ROk tt, at_ rest).
Proof.
  intros (w1 & s & w2 & -> & Hw1 & Hs & Hw2). unfold ngx_http_waf_jp_key_skip, mbind, parser_bind.
  rewrite <- !app_assoc. rewrite string_skip_run by done. rewrite ws_run by done. done.
Qed.

(** *** Numbers *)

Definition head_in (s : bytes) (cs : list Z) : bool :=
  match s with c :: _ => bool_decide (c ∈ cs) | [] => false end.
Definition head_digit (s : bytes) : bool :=
  match s with c :: _ => is_digit c | [] => false end.

(** What follows does not go on with a number. *)
Definition ends_number (rest : bytes) : Prop :=
  head_digit rest = false /\ head rest <> Some 46 /\ head rest <> Some 101 /\ head rest <> Some 69.

Lemma digits_run ds rest : digits1 ds -> head_digit rest = false ->
  ngx_http_waf_jp_digits (at_ (ds ++ rest)) = (ROk tt, at_ rest).
Proof.
  intros [Hn Hd] Hr. unfold ngx_http_waf_jp_digits, mbind, parser_bind. cbn [pget jp_pos pset_pos upd jp_error jp_first jp_mem].
  assert (Hdrop : digits_drop (ds ++ rest) = rest).
  { clear Hn. induction Hd as [|c ds Hc _ IH]; cbn; [|by rewrite Hc].
    destruct rest as [|c rest]; [done|]. cbn in *. by rewrite Hr. }
  rewrite Hdrop. destruct Hd as [|c ds Hc _]; [done|]. cbn [app]. by rewrite Hc.
Qed.

Lemma peek_bind {A} s (k : option Z -> parser A) : (ppeek ≫= k) (at_ s) = k (head s) (at_ s).
Proof. done. Qed.

(** An optional byte of a number. *)
Lemma opt_run (c : Z) s (sg : bytes) :
  sg = [] /\ head s <> Some c \/ sg = [c] ->
  (if bool_decide (head (sg ++ s) = Some c) then padvance else mret tt) (at_ (sg ++ s)) = (ROk tt, at_ s).
Proof.
  intros [[-> H]| ->]; cbn [app head]; case_bool_decide; try done.
Qed.

Lemma exp_run ex rest : exp_text ex -> ends_number rest ->
  (c ← ppeek;
   if bool_decide (c = Some 101) || bool_decide (c = Some 69) then
     padvance;;
     c ← ppeek;
     (if bool_decide (c = Some 43) || bool_decide (c = Some 45) then padvance else mret tt);;
     ngx_http_waf_jp_digits
   else mret tt) (at_ (ex ++ rest)) = (ROk tt, at_ rest).
Proof.
  intros Hex (Hr & H46 & H101 & H69). rewrite peek_bind. destruct Hex as [->|(x & sg & ds & -> & Hx & Hsg & Hds)].
  { cbn [app]. rewrite !bool_decide_eq_false_2 by done. done. }
  cbn [app head]. assert (Hb : bool_decide (Some x = Some 101) || bool_decide (Some x = Some 69) = true).
  { by destruct Hx as [-> | ->]. }
  rewrite Hb. unfold mbind at 1, parser_bind at 1. cbn [padvance upd jp_pos jp_error jp_first jp_mem drop].
  rewrite drop_0, peek_bind, <- app_assoc.
  assert (Hd : exists c s, ds ++ rest = c :: s /\ is_digit c = true).
  { destruct Hds as [Hn Hf]. destruct Hf as [|c ds Hc _]; [done|]. cbn. eauto. }
  destruct Hd as (c & s & Es & Hc). unfold mbind at 1, parser_bind at 1.
  destruct Hsg as [-> |[-> | ->]]; cbn [app head].
  - rewrite Es. cbn [head]. unfold is_digit in Hc. rewrite !bool_decide_eq_false_2 by (intros [= ->]; lia).
    cbn [orb mret parser_ret]. rewrite <- Es. by apply digits_run.
  - by apply (digits_run ds rest).
  - by apply (digits_run ds rest).
Qed.

Lemma exp_head ex rest : exp_text ex -> ends_number rest ->
  head_digit (ex ++ rest) = false /\ head (ex ++ rest) <> Some 46.
Proof.
  intros Hex (Hr & H46 & _). destruct Hex as [->|(x & sg & ds & -> & [-> | ->] & _)]; [done|done|done].
Qed.

Lemma frac_head fr s : frac_text fr -> head_digit s = false -> head_digit (fr ++ s) = false.
Proof. intros [->|(ds & -> & _)] H; done. Qed.

Lemma int_head i s : int_text i -> head (i ++ s) <> Some 45.
Proof.
  intros [-> |[[Hn Hd] _]]; [done|]. destruct Hd as [|c i Hc _]; [done|]. cbn. intros [= ->]. done.
Qed.

Lemma number_run s rest : number s -> ends_number rest ->
  ngx_http_waf_jp_number_skip (at_ (s ++ rest)) = (ROk tt, at_ rest).
Proof.
  intros (sg & i & fr & ex & -> & Hsg & Hi & Hfr & Hex) He. rewrite <- !app_assoc.
  destruct (exp_head ex rest Hex He) as [Hd H46]. pose proof (frac_head fr _ Hfr Hd) as Hd2.
  unfold ngx_http_waf_jp_number_skip. rewrite peek_bind. unfold mbind at 1, parser_bind at 1.
  rewrite opt_run; [|destruct Hsg as [-> | ->]; [left; split; [done|by apply int_head]|by right]].
  rewrite peek_bind. unfold mbind at 1, parser_bind at 1.
  assert (Hint : (if bool_decide (head (i ++ fr ++ ex ++ rest) = Some 48) then padvance else ngx_http_waf_jp_digits)
                   (at_ (i ++ fr ++ ex ++ rest)) = (ROk tt, at_ (fr ++ ex ++ rest))).
  { destruct Hi as [-> |[Hds Hz]]; [done|]. rewrite bool_decide_eq_false_2; [by apply digits_run|].
    destruct Hds as [Hn _]. destruct i; [done|exact Hz]. }
  rewrite Hint, peek_bind. unfold mbind at 1, parser_bind at 1.
  assert (Hf : (if bool_decide (head (fr ++ ex ++ rest) = Some 46) then padvance;; ngx_http_waf_jp_digits else mret tt)
                 (at_ (fr ++ ex ++ rest)) = (ROk tt, at_ (ex ++ rest))).
  { destruct Hfr as [->|(ds & -> & Hds)]; cbn [app head]; [by rewrite bool_decide_eq_false_2|].
    rewrite bool_decide_eq_true_2 by done. unfold mbind, parser_bind. cbn [padvance upd jp_pos jp_error jp_first jp_mem drop].
    rewrite drop_0. by apply digits_run. }
  rewrite Hf. by apply exp_run.
Qed.

(** *** Values *)

(** What may follow a value: only a number asks for an end. *)
Definition delimited (v rest : bytes) : Prop := number v -> ends_number rest.

Lemma skip_value_at st w v rest : ws w -> no_ws (v ++ rest) ->
  skip_value st (at_ (w ++ v ++ rest)) = skip_value st (at_ (v ++ rest)).
Proof.
  intros Hw Hn. unfold skip_value, mbind, parser_bind. rewrite ws_run by done.
  by rewrite ws_none.
Qed.

Lemma literal_run l rest : ngx_http_waf_jp_literal l (at_ (l ++ rest)) = (ROk true, at_ rest).
Proof.
  unfold ngx_http_waf_jp_literal, mbind, parser_bind. cbn [pget jp_pos].
  rewrite take_app_length, drop_app_length, bool_decide_eq_true_2 by done. done.
Qed.

Lemma json_no_ws d v rest : json d v -> no_ws (v ++ rest).
Proof. intros (c & t & -> & H & _)%json_head. done. Qed.

Definition is_leaf (v : bytes) : Prop :=
  quoted v \/ v = lit "true" \/ v = lit "false" \/ v = lit "null" \/ number v.

Lemma leaf_run st v rest : is_leaf v -> delimited v rest ->
  skip_value st (at_ (v ++ rest)) = (ROk (st, false), at_ rest).
Proof.
  intros Hv Hd. destruct Hv as [Hq|[->|[->|[->|Hn]]]].
  - pose proof (string_skip_run [] v rest ltac:(constructor) Hq) as Hr. cbn [app] in Hr.
    destruct Hq as (text & out & -> & Hs). unfold skip_value, mbind at 1 2, parser_bind at 1 2.
    rewrite ws_none by done. cbn [ppeek head jp_pos app]. cbn [Z.eqb Pos.eqb orb].
    cbn [app] in Hr. unfold mbind, parser_bind. by rewrite Hr.
  - done.
  - done.
  - done.
  - pose proof (number_run v rest Hn (Hd Hn)) as Hr. apply number_head in Hn as (c & t & -> & Hc).
    assert (Hnw : no_ws ((c :: t) ++ rest)).
    { cbn. unfold is_digit, is_ws in *. destruct Hc as [->|Hc]; [done|lia]. }
    unfold skip_value, mbind at 1 2, parser_bind at 1 2.
    rewrite ws_none by done. cbn [ppeek head jp_pos app].
    assert (Hneq : forall k, k <> 45 -> is_digit k = false -> (c =? k) = false).
    { intros k H1 H2. destruct (Z.eqb_spec c k) as [->|]; [|done]. destruct Hc; congruence. }
    rewrite !Hneq by done. cbn [orb].
    assert (Hb : negb (c =? 45) && negb (is_digit c) = false).
    { destruct Hc as [-> | ->]; [done|]. by destruct (c =? 45). }
    rewrite Hb. unfold mbind, parser_bind. cbn [app] in Hr. by rewrite Hr.
Qed.

Lemma brackets_close o c : brackets o c -> (if o =? 123 then 125 else 93) = c /\ (o =? 123) || (o =? 91) = true /\
  (c = 125 \/ c = 93) /\ (c =? 125) = (o =? 123) /\ is_ws o = false /\ is_ws c = false /\ c <> 44.
Proof. intros [[-> ->]|[-> ->]]; repeat split; tauto || done. Qed.

Lemma ws_drop_app w s : ws w -> ws_drop (w ++ s) = ws_drop s.
Proof. intros Hw. induction Hw as [|c w Hc _ IH]; [done|]. cbn. by rewrite Hc. Qed.

Lemma bind_same {A B} (a : parser A) (f : A -> parser B) p p' : a p = a p' -> (a ≫= f) p = (a ≫= f) p'.
Proof. unfold mbind, parser_bind. by intros ->. Qed.

Lemma run_ws st s s' : stack_ok st -> ws_drop s = ws_drop s' -> run st (at_ s) = run st (at_ s').
Proof.
  intros Hok E. unfold run. cbn [jp_pos].
  rewrite (skip_loop_fuel _ (S (length s + length s')) st (at_ s) Hok) by (cbn [jp_pos]; lia).
  rewrite (skip_loop_fuel _ (S (length s + length s')) st (at_ s') Hok) by (cbn [jp_pos]; lia).
  cbn [skip_loop].
  assert (Hv : skip_value st (at_ s) = skip_value st (at_ s')).
  { apply bind_same. unfold ngx_http_waf_jp_ws. cbn [upd jp_pos jp_error jp_first jp_mem]. by rewrite E. }
  unfold mbind, parser_bind. by rewrite Hv.
Qed.

(** Into a container, up to its first value. *)
Lemma container_run st o c w k t :
  brackets o c -> ws w -> key_text c k -> (length st < NGX_HTTP_WAF_JSON_MAX_DEPTH)%nat ->
  (exists x s, ws_drop t = x :: s /\ x <> c) ->
  exists s, skip_value st (at_ (o :: w ++ k ++ t)) = (ROk (c :: st, true), at_ s) /\ ws_drop s = ws_drop t.
Proof.
  intros Hb Hw Hk Hl (x & s & Ht & Hx). destruct (brackets_close o c Hb) as (Hc & Ho & Hc2 & Hc3 & Hwo & Hwc & _).
  unfold skip_value, mbind at 1 2, parser_bind at 1 2. rewrite ws_none by exact Hwo.
  cbn [ppeek head jp_pos]. rewrite Ho.
  destruct (Nat.eqb_spec (length st) NGX_HTTP_WAF_JSON_MAX_DEPTH); [lia|]. rewrite Hc.
  unfold mbind at 1 2 3, parser_bind at 1 2 3. cbn [padvance upd jp_pos jp_error jp_first jp_mem drop].
  rewrite drop_0. unfold key_text in Hk. rewrite Hc3 in Hk. destruct (o =? 123).
  - subst c. destruct Hk as (w1 & q & w2 & -> & Hw1 & Hq & Hw2). exists t. split; [|done].
    destruct Hq as (text & out & -> & Hs). rewrite <- !app_assoc.
    rewrite (app_assoc w w1), ws_run; [|apply Forall_app; by split|done].
    cbn [ppeek head jp_pos app]. rewrite bool_decide_eq_false_2 by done.
    unfold mbind, parser_bind.
    pose proof (key_skip_run ((34 :: text ++ [34]) ++ w2 ++ [58]) t) as Hr.
    rewrite <- !app_assoc in Hr. cbn [app] in Hr. rewrite Hr; [done|].
    exists [], (34 :: text ++ [34]), w2. split; [done|]. split; [constructor|]. split; [by exists text, out|done].
  - subst c k. cbn [app]. exists (ws_drop t). split; [|apply ws_drop_idem].
    unfold ngx_http_waf_jp_ws. cbn [upd jp_pos jp_error jp_first jp_mem].
    rewrite ws_drop_app by done. cbn [ppeek jp_pos]. rewrite Ht. cbn [head].
    rewrite bool_decide_eq_false_2 by congruence. done.
Qed.

Lemma empty_run st o c w rest : brackets o c -> ws w -> (length st < NGX_HTTP_WAF_JSON_MAX_DEPTH)%nat ->
  skip_value st (at_ ((o :: w ++ [c]) ++ rest)) = (ROk (st, false), at_ rest).
Proof.
  intros Hb Hw Hl. destruct (brackets_close o c Hb) as (Hc & Ho & Hc2 & Hc3 & Hwo & Hwc & _).
  cbn [app]. rewrite <- app_assoc.
  unfold skip_value, mbind at 1 2, parser_bind at 1 2. rewrite ws_none by exact Hwo.
  cbn [ppeek head jp_pos]. rewrite Ho.
  destruct (Nat.eqb_spec (length st) NGX_HTTP_WAF_JSON_MAX_DEPTH); [lia|]. rewrite Hc.
  unfold mbind, parser_bind. cbn [padvance upd jp_pos jp_error jp_first jp_mem drop].
  rewrite drop_0, ws_run by done. cbn [ppeek head jp_pos app]. rewrite bool_decide_eq_true_2 by done. done.
Qed.

Lemma finish_close c st w rest : (c = 125 \/ c = 93) -> ws w ->
  finish (c :: st) (at_ (w ++ c :: rest)) = finish st (at_ rest).
Proof.
  intros Hc Hw. unfold finish. cbn [skip_after]. unfold mbind, parser_bind.
  rewrite ws_run; [|done|by destruct Hc as [-> | ->]]. cbn [ppeek head jp_pos]. rewrite Z.eqb_refl. done.
Qed.

Lemma finish_more c st w k t : (c = 125 \/ c = 93) -> ws w -> key_text c k ->
  finish (c :: st) (at_ (w ++ 44 :: k ++ t)) = run (c :: st) (at_ t).
Proof.
  intros Hc Hw Hk. unfold finish. cbn [skip_after]. unfold mbind, parser_bind.
  rewrite ws_run by done. cbn [ppeek head jp_pos]. destruct (Z.eqb_spec 44 c); [lia|]. cbn [Z.eqb Pos.eqb negb].
  cbn [padvance upd jp_pos jp_error jp_first jp_mem drop]. rewrite drop_0.
  destruct (Z.eqb_spec c 125) as [->|Hne]; [by rewrite key_skip_run|].
  unfold key_text in Hk. destruct (Z.eqb_spec c 125); [done|]. subst k. done.
Qed.

Lemma ends_after w x s : ws w -> (x = 44 \/ x = 125 \/ x = 93) -> ends_number (w ++ x :: s).
Proof.
  intros Hw Hx. destruct Hw as [|c w Hc _]; cbn.
  - unfold ends_number, is_digit. cbn. unfold is_digit. repeat split; try lia; intros [= ->]; lia.
  - unfold ends_number, is_ws in *. cbn. unfold is_digit. repeat split; try lia; intros [= ->]; lia.
Qed.

Lemma items_first c d t rest : items c d t -> (c = 125 \/ c = 93) ->
  exists x s, ws_drop (t ++ rest) = x :: s /\ x <> c.
Proof.
  intros H Hc. assert (Hg : forall w v r, ws w -> json d v -> exists x s, ws_drop (w ++ v ++ r) = x :: s /\ x <> c).
  { intros w v r Hw Hv. rewrite ws_drop_app by done. apply json_head in Hv as (x & s & -> & Hx & H1 & H2).
    exists x, (s ++ r). cbn. rewrite Hx. split; [done|]. destruct Hc; congruence. }
  destruct H; rewrite <- !app_assoc; by apply Hg.
Qed.

Lemma leaf_done st w v rest : is_leaf v -> (exists d, json d v) -> ws w -> stack_ok st -> delimited v rest ->
  run st (at_ (w ++ v ++ rest)) = finish st (at_ rest).
Proof.
  intros Hl [d Hj] Hw Hok Hd. rewrite (run_value st _ st false (at_ rest)); [done|done|].
  rewrite skip_value_at; [by apply leaf_run|done|by eapply json_no_ws].
Qed.

Lemma json_run d v : json d v -> forall st w rest, ws w -> close_ok st ->
  (length st + d <= NGX_HTTP_WAF_JSON_MAX_DEPTH)%nat -> delimited v rest ->
  run st (at_ (w ++ v ++ rest)) = finish st (at_ rest).
Proof.
  apply (json_mind (fun d v _ => forall st w rest, ws w -> close_ok st ->
    (length st + d <= NGX_HTTP_WAF_JSON_MAX_DEPTH)%nat -> delimited v rest ->
    run st (at_ (w ++ v ++ rest)) = finish st (at_ rest))
    (fun c d t _ => forall st rest, (c = 125 \/ c = 93) -> close_ok st ->
    (length (c :: st) + d <= NGX_HTTP_WAF_JSON_MAX_DEPTH)%nat ->
    run (c :: st) (at_ (t ++ rest)) = finish st (at_ rest))); clear d v.
  - intros d s Hq st w rest Hw Hok Hd Hdel. apply leaf_done; [by left|exists d; by apply j_string|done|split; [done|lia]|done].
  - intros d st w rest Hw Hok Hd Hdel. apply leaf_done; [unfold is_leaf; tauto|exists d; by apply j_true|done|split; [done|lia]|done].
  - intros d st w rest Hw Hok Hd Hdel. apply leaf_done; [unfold is_leaf; tauto|exists d; by apply j_false|done|split; [done|lia]|done].
  - intros d st w rest Hw Hok Hd Hdel. apply leaf_done; [unfold is_leaf; tauto|exists d; by apply j_null|done|split; [done|lia]|done].
  - intros d s Hn st w rest Hw Hok Hd Hdel. apply leaf_done; [unfold is_leaf; tauto|exists d; by apply j_number|done|split; [done|lia]|done].
  - intros d o c w' Hb Hw' st w rest Hw Hok Hd Hdel.
    rewrite (run_value st _ st false (at_ rest)); [done|split; [done|lia]|].
    rewrite skip_value_at; [apply empty_run; [done|done|lia]|done|].
    by destruct (brackets_close o c Hb) as (_ & _ & _ & _ & Hwo & _).
  - intros d o c w' k t Hb Hw' Hk Hi IH st w rest Hw Hok Hd Hdel.
    destruct (brackets_close o c Hb) as (_ & _ & Hc & _ & Hwo & _).
    destruct (container_run st o c w' k (t ++ rest) Hb Hw' Hk ltac:(lia) (items_first c d t rest Hi Hc)) as (s & Hs & Hws).
    rewrite (run_value st _ (c :: st) true (at_ s)); [|split; [done|lia]|].
    + rewrite <- (IH st rest Hc Hok) by (cbn [length]; lia).
      apply run_ws; [|done]. split; [by constructor|cbn [length]; lia].
    + rewrite skip_value_at; [|done|exact Hwo]. cbn [app]. by rewrite <- !app_assoc.
  - intros c d w v w' Hw Hv IH Hw' st rest Hc Hok Hd. rewrite <- !app_assoc. cbn [app].
    rewrite IH; [by apply finish_close|done|by constructor|done|]. intros _. apply ends_after; [done|tauto].
  - intros c d w v w' k t Hw Hv IH Hw' Hk Hi IHi st rest Hc Hok Hd. rewrite <- !app_assoc. cbn [app]. rewrite <- app_assoc.
    rewrite IH; [|done|by constructor|done|].
    + rewrite finish_more by done. by apply IHi.
    + intros _. apply ends_after; [done|tauto].
Qed.

(** Every value nested at most sixteen deep is skipped, up to its end. *)
Lemma skip_complete w v rest : ws w -> json NGX_HTTP_WAF_JSON_MAX_DEPTH v -> delimited v rest ->
  ngx_http_waf_jp_skip (at_ (w ++ v ++ rest)) = (ROk tt, at_ rest).
Proof. intros Hw Hv Hd. apply (json_run _ _ Hv [] w rest); [done|constructor|done|done]. Qed.

End Complete.

(** The skipper of unknown values accepts exactly JSON.  It always comes to
    a result; what it skips is white space and one JSON value nested at most
    sixteen deep, and it stops right after it; and every such value is skipped
    up to its end, a number when no further digit, point or exponent follows. *)
Theorem jp_skip_exact p :
  (ngx_http_waf_jp_skip p).1 <> RFuel /\
  (forall q, ngx_http_waf_jp_skip p = (ROk tt, q) ->
     exists w v, ws w /\ json NGX_HTTP_WAF_JSON_MAX_DEPTH v /\ p.(jp_pos) = w ++ v ++ q.(jp_pos)) /\
  (forall w v rest, p.(jp_pos) = w ++ v ++ rest -> ws w -> json NGX_HTTP_WAF_JSON_MAX_DEPTH v ->
     delimited v rest -> ngx_http_waf_jp_skip p = (ROk tt, p <| jp_pos := rest |>)).
Proof.
  split; [|split].
  - pose proof (wb_skip p) as Hw. unfold wb_at in Hw.
    by destruct (ngx_http_waf_jp_skip p) as [[[]| |] q].
  - intros q H. apply skip_sound in H as (w & v & Hw & Hv & [He _]). exists w, v.
    by rewrite app_assoc.
  - intros w v rest E Hw Hv Hd. destruct p as [s e g m]. cbn in E. subst s. by apply skip_complete.
Qed.

End JsonSkip.
