(* ===== verification/JsonTrip.v ===== *)
(** What the writer of the JSON codec prints, its parser reads back: strings,
    with ill-formed UTF-8 replaced by U+FFFD, and integers. *)
From S2P Require Import Prelude Json JsonFacts JsonSkip.
Import Json JsonFacts JsonSkip.
#[local] Open Scope Z_scope.

Module JsonTrip.

(** * The writer stays in its buffer *)

(** Both the bytes written and the room left are accounted for. *)
Definition fits (size : Z) (w : jw_t) : Prop := 0 <= w.(jw_room) /\ zlen w.(jw_out) + w.(jw_room) = size.

Lemma jw_raw_fits size d w : fits size w -> fits size (ngx_http_waf_jw_raw d w).
Proof.
  unfold fits, ngx_http_waf_jw_raw. intros H. destruct (Z.ltb_spec (jw_room w) (zlen d)); cbn; [done|].
  rewrite zlen_app. lia.
Qed.
Lemma put_or_stop_fits size d w : fits size w -> fits size (put_or_stop d w).1.
Proof.
  unfold fits, put_or_stop. intros H. destruct (Z.ltb_spec (jw_room w) (zlen d)); cbn; [done|].
  rewrite zlen_app. lia.
Qed.
Lemma jw_char_fits size c w : fits size w -> fits size (jw_char c w).1.
Proof.
  intros H. unfold jw_char. destruct (_ || _); [by apply put_or_stop_fits|].
  destruct (_ <=? _); [by apply put_or_stop_fits|].
  destruct (ctl_escape c); [by apply jw_raw_fits|by apply put_or_stop_fits].
Qed.
Lemma jw_loop_fits size f data w : fits size w -> fits size (jw_string_loop f data w).1.
Proof.
  revert data w. induction f as [|f IH]; intros [|c data] w H; cbn [jw_string_loop]; try done.
  destruct (_ <=? _).
  - destruct (ngx_http_waf_utf8_valid _); apply IH; by apply jw_raw_fits.
  - pose proof (jw_char_fits size c w H). destruct (jw_char c w) as [w' [|]]; [by apply IH|done].
Qed.
Lemma jw_string_fits size data w : fits size w -> fits size (ngx_http_waf_jw_string data w).
Proof.
  intros H. unfold ngx_http_waf_jw_string.
  pose proof (jw_loop_fits size (length data) data _ (jw_raw_fits size [34] w H)).
  destruct (jw_string_loop _ _ _) as [w' [|]]; [by apply jw_raw_fits|done].
Qed.

(** * What it writes *)

(** The pieces the writer prints: [chunk] without surrogates. *)
Inductive tidy : bytes -> bytes -> Prop :=
  | td_plain c : 0x20 <= c < 0x80 -> c <> 34 -> c <> 92 -> tidy [c] [c]
  | td_utf8 u : scalar u -> 0x80 <= u -> tidy (ngx_http_waf_utf8_encode u) (ngx_http_waf_utf8_encode u)
  | td_esc e c : simple_escape e = Some c -> tidy [92; e] [c]
  | td_uni h u : hex4 h u -> 0 <= u < 0x20 -> tidy (92 :: 117 :: h) [u].

Lemma tidy_chunk t u : tidy t u -> chunk t u.
Proof.
  intros H. destruct H as [c|u|e c He|h u Hh Hu]; [by constructor|by constructor|by constructor|].
  replace [u] with (ngx_http_waf_utf8_encode u); [apply ch_uni; [done|unfold scalar; lia]|].
  rewrite utf8_encode_arith by lia. destruct (Z.ltb_spec u 0x80); [done|lia].
Qed.

Definition tidies (text out : bytes) : Prop :=
  exists ts us, Forall2 tidy ts us /\ text = concat ts /\ out = concat us.

Lemma tidies_cons t u text out : tidy t u -> tidies text out -> tidies (t ++ text) (u ++ out).
Proof. intros Hc (ts & us & Hf & -> & ->). exists (t :: ts), (u :: us). split; [by constructor|done]. Qed.
Lemma tidies_spells text out : tidies text out -> spells text out.
Proof.
  intros (ts & us & Hf & -> & ->). exists ts, us. split; [|done].
  eapply Forall2_impl; [done|]. apply tidy_chunk.
Qed.

(** [s] is [data] with every ill-formed sequence replaced by U+FFFD. *)
Inductive scrubbed : bytes -> bytes -> Prop :=
  | sb_nil : scrubbed [] []
  | sb_good u d s : scalar u -> scrubbed d s ->
      scrubbed (ngx_http_waf_utf8_encode u ++ d) (ngx_http_waf_utf8_encode u ++ s)
  | sb_bad c d n s : ngx_http_waf_utf8_valid (c :: d) = inr n -> scrubbed (drop n (c :: d)) s ->
      scrubbed (c :: d) ([0xef; 0xbf; 0xbd] ++ s).

(** Well-formed text is left as it is. *)
Definition utf8_text (d : bytes) : Prop := exists us, Forall scalar us /\ d = concat (map ngx_http_waf_utf8_encode us).

Lemma encode_ascii u : 0 <= u < 0x80 -> ngx_http_waf_utf8_encode u = [u].
Proof. intros. rewrite utf8_encode_arith by lia. destruct (Z.ltb_spec u 0x80); [done|lia]. Qed.

Lemma encode_inj u v d d' : scalar u -> scalar v ->
  ngx_http_waf_utf8_encode u ++ d = ngx_http_waf_utf8_encode v ++ d' ->
  ngx_http_waf_utf8_encode u = ngx_http_waf_utf8_encode v /\ d = d'.
Proof.
  intros Hu Hv E. pose proof (utf8_valid_encode u d Hu) as H1. pose proof (utf8_valid_encode v d' Hv) as H2.
  rewrite E, H2 in H1. injection H1 as H1. by apply app_inj_1 in E.
Qed.

Lemma scrubbed_text d s : utf8_text d -> scrubbed d s -> s = d.
Proof.
  intros (us & Hus & ->) H. remember (concat _) as d eqn:E. revert us Hus E.
  induction H as [|u d s Hu Hs IH|c d n s Hb Hs IH]; intros us Hus E; [done| |].
  - destruct Hus as [|v us Hv Hus].
    { pose proof (utf8_encode_len u). destruct (ngx_http_waf_utf8_encode u); [cbn in *; lia|done]. }
    cbn [map concat] in E. apply encode_inj in E as [_ E]; [|done|done]. by rewrite (IH us Hus E).
  - exfalso. destruct Hus as [|v us Hv Hus]; [done|]. cbn [map concat] in E.
    rewrite E, utf8_valid_encode in Hb by done. done.
Qed.

(** ** Overflow is never taken back *)

Lemma jw_raw_ok d w : (ngx_http_waf_jw_raw d w).(jw_overflow) = false ->
  ngx_http_waf_jw_raw d w = jw_put d w /\ w.(jw_overflow) = false.
Proof. unfold ngx_http_waf_jw_raw. by destruct (_ <? _). Qed.

Lemma put_or_stop_ok d w w' b : put_or_stop d w = (w', b) -> w'.(jw_overflow) = false ->
  w' = jw_put d w /\ b = true /\ w.(jw_overflow) = false.
Proof. unfold put_or_stop. destruct (_ <? _); intros [= <- <-]; [done|]. cbn. done. Qed.

Definition all_below (n : nat) (f : Z -> bool) : bool := forallb f (map Z.of_nat (seq 0 n)).
Lemma all_below_spec n f c : all_below n f = true -> 0 <= c < Z.of_nat n -> f c = true.
Proof.
  unfold all_below. rewrite forallb_forall. intros H Hc. apply H. apply in_map_iff.
  exists (Z.to_nat c). split; [lia|]. apply in_seq. lia.
Qed.

(** The four digits after [\u] for a control character spell it. *)
Lemma control_hex c : 0 <= c < 0x20 ->
  hex4 [48; 48; hex_digit (Z.land (Z.shiftr c 4) 0xf); hex_digit (Z.land c 0xf)] c.
Proof.
  intros Hc.
  assert (H : match hex_val (hex_digit (Z.land (Z.shiftr c 4) 0xf)), hex_val (hex_digit (Z.land c 0xf)) with
              | Some a, Some b => c =? a * 16 + b | _, _ => false end = true).
  { apply (all_below_spec 32 (fun c => match hex_val (hex_digit (Z.land (Z.shiftr c 4) 0xf)),
      hex_val (hex_digit (Z.land c 0xf)) with Some a, Some b => c =? a * 16 + b | _, _ => false end)); [|lia].
    by vm_compute. }
  destruct (hex_val (hex_digit (Z.land (Z.shiftr c 4) 0xf))) as [a|] eqn:Ea; [|done].
  destruct (hex_val (hex_digit (Z.land c 0xf))) as [b|] eqn:Eb; [|done]. apply Z.eqb_eq in H.
  exists 48, 48, (hex_digit (Z.land (Z.shiftr c 4) 0xf)), (hex_digit (Z.land c 0xf)), 0, 0, a, b.
  split_and!; [done|done|done|done|done|lia].
Qed.

Lemma ctl_escape_tidy c l : ctl_escape c = Some l -> tidy l [c].
Proof.
  unfold ctl_escape.
  destruct (Z.eqb_spec c 10) as [->|]; [intros [= <-]; exact (td_esc 110 10 eq_refl)|].
  destruct (Z.eqb_spec c 13) as [->|]; [intros [= <-]; exact (td_esc 114 13 eq_refl)|].
  destruct (Z.eqb_spec c 9) as [->|]; [intros [= <-]; exact (td_esc 116 9 eq_refl)|].
  destruct (Z.eqb_spec c 8) as [->|]; [intros [= <-]; exact (td_esc 98 8 eq_refl)|].
  destruct (Z.eqb_spec c 12) as [->|]; [intros [= <-]; exact (td_esc 102 12 eq_refl)|done].
Qed.

Lemma jw_char_ok c w w' b : 0 <= c < 0x80 -> jw_char c w = (w', b) -> w'.(jw_overflow) = false ->
  b = true /\ w.(jw_overflow) = false /\ exists t, tidy t [c] /\ w' = jw_put t w.
Proof.
  intros Hc. unfold jw_char. destruct ((c =? 34) || (c =? 92)) eqn:E1.
  { intros H Ho. apply put_or_stop_ok in H as (-> & -> & Hw); [|done]. split; [done|]. split; [done|].
    exists [92; c]. split; [|done]. apply td_esc. assert (c = 34 \/ c = 92) as [-> | ->] by lia; done. }
  destruct (Z.leb_spec 0x20 c).
  { intros H1 Ho. apply put_or_stop_ok in H1 as (-> & -> & Hw); [|done]. split; [done|]. split; [done|].
    exists [c]. split; [|done]. apply td_plain; lia. }
  destruct (ctl_escape c) as [l|] eqn:El.
  { intros [= <- <-] Ho. apply jw_raw_ok in Ho as [-> Hw]. split; [done|]. split; [done|].
    exists l. split; [by apply ctl_escape_tidy|done]. }
  intros H1 Ho. apply put_or_stop_ok in H1 as (-> & -> & Hw); [|done]. split; [done|]. split; [done|].
  eexists. split; [|done]. apply td_uni; [apply control_hex; lia|lia].
Qed.

Lemma jw_loop_ok f data w w' b : is_bytes data -> (length data <= f)%nat ->
  jw_string_loop f data w = (w', b) -> w'.(jw_overflow) = false ->
  b = true /\ w.(jw_overflow) = false /\ exists text s, w'.(jw_out) = w.(jw_out) ++ text /\
    tidies text s /\ scrubbed data s.
Proof.
  revert data w. induction f as [|f IH]; intros [|c data] w Hb Hf; cbn [jw_string_loop];
    try (cbn in Hf; lia);
    try (intros [= <- <-] Ho; split; [done|]; split; [done|]; exists [], []; rewrite app_nil_r;
         split; [done|]; split; [by exists [], []|constructor]).
  intros H Ho. inversion_clear Hb as [|? ? Hc Hb'].
  destruct (Z.leb_spec 0x80 c) as [Hge|Hlt].
  - pose proof (utf8_valid_inv c data) as Hinv.
    destruct (ngx_http_waf_utf8_valid (c :: data)) as [n|n] eqn:Ev.
    + destruct (Hinv n eq_refl Hge) as (u & rest & Hu & Hu2 & E & ->). rewrite E in *.
      rewrite take_app_length, drop_app_length in H.
      pose proof (utf8_encode_len u). rewrite length_app in Hf.
      apply IH in H as (-> & Hw & text & s & Hout & Ht & Hs); [| |lia|done].
      2: { assert (Hall : is_bytes (c :: data)) by by constructor. rewrite E in Hall.
           by apply Forall_app in Hall as [_ ?]. }
      apply jw_raw_ok in Hw as [Hput Hw]. rewrite Hput in Hout. split; [done|]. split; [done|].
      exists (ngx_http_waf_utf8_encode u ++ text), (ngx_http_waf_utf8_encode u ++ s). cbn in Hout.
      rewrite app_assoc. split; [done|]. split; [apply tidies_cons; [by apply td_utf8|done]|by apply sb_good].
    + pose proof (utf8_valid_bad _ _ _ Ev) as Hn.
      apply IH in H as (-> & Hw & text & s & Hout & Ht & Hs); [| |rewrite length_drop; cbn [length] in *; lia|done].
      2: { by apply Forall_drop; constructor. }
      apply jw_raw_ok in Hw as [Hput Hw]. rewrite Hput in Hout. split; [done|]. split; [done|].
      exists ([0xef; 0xbf; 0xbd] ++ text), ([0xef; 0xbf; 0xbd] ++ s). cbn in Hout.
      split; [by rewrite Hout, <- app_assoc|]. split; [|by eapply sb_bad].
      apply tidies_cons; [|done]. apply (td_utf8 0xfffd); unfold scalar; lia.
  - destruct (jw_char c w) as [w1 b1] eqn:Ej. unfold is_u8 in Hc.
    assert (Hgo : forall w2, jw_string_loop f data w2 = (w', b) -> w2.(jw_overflow) = false /\ b = true /\
              exists text s, w'.(jw_out) = w2.(jw_out) ++ text /\ tidies text s /\ scrubbed data s).
    { intros w2 H2. apply IH in H2 as (-> & Hw & Hx); [|done|cbn in Hf; lia|done]. done. }
    destruct b1; [|injection H as -> ->; apply jw_char_ok in Ej as [? _]; [done|lia|done]].
    apply Hgo in H as (Hw1 & -> & text & s & Hout & Ht & Hs).
    apply jw_char_ok in Ej as (_ & Hw & t & Htd & ->); [|lia|done]. split; [done|]. split; [done|].
    exists (t ++ text), ([c] ++ s). cbn in Hout. rewrite app_assoc. split; [done|].
    split; [by apply tidies_cons|]. rewrite <- (encode_ascii c) by lia.
    change (c :: data) with ([c] ++ data). rewrite <- (encode_ascii c) at 1 by lia.
    apply sb_good; [unfold scalar; lia|done].
Qed.

(** ** Room enough *)

Lemma jw_raw_room d w : zlen d <= w.(jw_room) -> ngx_http_waf_jw_raw d w = jw_put d w.
Proof. intros H. unfold ngx_http_waf_jw_raw. destruct (Z.ltb_spec (jw_room w) (zlen d)); [lia|done]. Qed.
Lemma put_or_stop_room d w : zlen d <= w.(jw_room) -> put_or_stop d w = (jw_put d w, true).
Proof. intros H. unfold put_or_stop. destruct (Z.ltb_spec (jw_room w) (zlen d)); [lia|done]. Qed.

Lemma jw_char_room c w : 6 <= w.(jw_room) -> exists t, jw_char c w = (jw_put t w, true) /\ zlen t <= 6.
Proof.
  intros H. assert (Hp : forall t, zlen t <= 6 ->
    exists t', put_or_stop t w = (jw_put t' w, true) /\ zlen t' <= 6).
  { intros t Ht. exists t. split; [apply put_or_stop_room; lia|done]. }
  unfold jw_char. destruct (_ || _); [by apply Hp|]. destruct (_ <=? _); [by apply Hp|].
  destruct (ctl_escape c) as [l|] eqn:E; [|by apply Hp].
  exists l. assert (zlen l <= 6); [|split; [rewrite jw_raw_room; [done|lia]|done]].
  unfold ctl_escape in E. repeat case_match; by simplify_eq.
Qed.

Lemma jw_loop_room f data w : (length data <= f)%nat -> 6 * zlen data <= w.(jw_room) ->
  exists w', jw_string_loop f data w = (w', true) /\ w'.(jw_overflow) = w.(jw_overflow) /\
    w.(jw_room) - 6 * zlen data <= w'.(jw_room).
Proof.
  assert (Hput : forall t w, (jw_put t w).(jw_room) = w.(jw_room) - zlen t) by done.
  revert data w. induction f as [|f IH]; intros [|c data] w Hf Hr; cbn [jw_string_loop];
    try (exists w; split; [done|]; split; [done|]; rewrite (@zlen_nil Z); lia); try (cbn in Hf; lia).
  assert (Hgo : forall t d, zlen t <= 6 -> zlen d <= zlen data -> (length d <= f)%nat ->
            exists w', jw_string_loop f d (jw_put t w) = (w', true) /\ w'.(jw_overflow) = w.(jw_overflow) /\
              w.(jw_room) - 6 * zlen (c :: data) <= w'.(jw_room)).
  { intros t d Ht Hd Hl. rewrite zlen_cons in *. destruct (IH d (jw_put t w) Hl) as (w' & H1 & H2 & H3); [rewrite Hput; lia|].
    exists w'. rewrite Hput in H3. split; [done|]. split; [done|lia]. }
  rewrite zlen_cons in Hr. pose proof (zlen_nonneg data). cbn [length] in Hf.
  destruct (Z.leb_spec 0x80 c).
  - destruct (ngx_http_waf_utf8_valid (c :: data)) as [n|n] eqn:Ev.
    + destruct (utf8_valid_inv _ _ _ Ev ltac:(done)) as (u & rest & Hu & Hu2 & E & ->). rewrite E.
      rewrite take_app_length, drop_app_length. pose proof (utf8_encode_len u) as Hl.
      assert (Hlen : length (c :: data) = (length (ngx_http_waf_utf8_encode u) + length rest)%nat) by by rewrite E, length_app.
      cbn [length] in Hlen. unfold zlen in *. rewrite <- E.
      rewrite jw_raw_room by (unfold zlen; lia). apply Hgo; unfold zlen; lia.
    + apply utf8_valid_bad in Ev. rewrite jw_raw_room by (rewrite ?zlen_cons, (@zlen_nil Z); cbn; lia).
      apply Hgo; [done| |]; unfold zlen; rewrite ?length_drop; cbn [length] in *; lia.
  - destruct (jw_char_room c w) as (t & -> & Ht); [lia|]. apply Hgo; [done|lia|lia].
Qed.

Lemma jw_string_room data w : w.(jw_overflow) = false -> 6 * zlen data + 2 <= w.(jw_room) ->
  (ngx_http_waf_jw_string data w).(jw_overflow) = false.
Proof.
  intros Ho Hr. pose proof (zlen_nonneg data). unfold ngx_http_waf_jw_string.
  rewrite jw_raw_room by (rewrite ?zlen_cons, (@zlen_nil Z); cbn; lia).
  destruct (jw_loop_room (length data) data (jw_put [34] w)) as (w' & -> & Ho' & Hr'); [done|cbn; change (zlen [34]) with 1; lia|].
  cbn in Ho', Hr'. change (zlen [34]) with 1 in Hr'. rewrite jw_raw_room by (rewrite ?zlen_cons, (@zlen_nil Z); cbn; lia). cbn. congruence.
Qed.

(** * Reading it back *)

Section Read.
Context (e : option string) (g : bool) (m m' : alloc_stream) (Halloc : alloc m = (true, m')).

Lemma tidy_run t u rest : tidy t u ->
  ngx_http_waf_jp_unit (mkJp (t ++ rest) e g m') = (ROk u, mkJp rest e g m').
Proof.
  intros [c Hc H34 H92|v Hv Hv2|x c Hx|h v Hh Hv].
  - by apply unit_plain.
  - by apply unit_utf8_at.
  - cbn [app]. by rewrite unit_escape, Hx.
  - cbn [app]. rewrite unit_escape. cbn [simple_escape Z.eqb Pos.eqb negb]. unfold mbind, parser_bind.
    rewrite (hex4_at e g m' h v) by done. unfold escape_cp.
    destruct (Z.leb_spec 0xdc00 v); [lia|]. destruct (Z.leb_spec 0xd800 v); [lia|]. cbn.
    by rewrite encode_ascii by lia.
Qed.

Lemma tidy_cons t u s : tidy t u -> exists c r, t ++ s = c :: r /\ c <> 34.
Proof.
  intros H. apply tidy_chunk in H as Hc. apply chunk_len in Hc.
  destruct H as [c Hc' H34 H92|v Hv Hv2|x c Hx|h v Hh Hv]; [by exists c, s| |by exists 92, (x :: s)|by eexists 92, _].
  destruct (utf8_encode_cons v Hv Hv2) as (c & r & -> & H). exists c, (r ++ s). split; [done|lia].
Qed.

Lemma string_loop_tidy f room o text s rest : tidies text s -> zlen s <= room ->
  (length (text ++ 34%Z :: rest) < f)%nat ->
  string_loop f room false o (mkJp (text ++ 34 :: rest) e g m') = (ROk (Some (o ++ s)), mkJp rest e g m').
Proof.
  intros (ts & us & Hf & -> & ->). revert f room o. induction Hf as [|t u ts us Ht _ IH]; intros f room o Hr Hl.
  - destruct f as [|f]; [cbn in Hl; lia|]. rewrite string_loop_step. cbn. by rewrite app_nil_r.
  - destruct f as [|f]; [lia|]. rewrite string_loop_step. cbn [concat jp_pos] in *. rewrite <- app_assoc in *.
    rewrite zlen_app in Hr. pose proof (zlen_nonneg (concat us)).
    destruct (tidy_cons t u (concat ts ++ 34 :: rest) Ht) as (c & r & E & Hc).
    rewrite E. destruct (Z.eqb_spec c 34); [done|]. rewrite <- E, (tidy_run t u) by done.
    cbn [orb]. destruct (Z.ltb_spec room (zlen u)); [lia|].
    apply tidy_chunk in Ht. apply chunk_len in Ht. rewrite length_app in Hl.
    rewrite IH by lia. by rewrite <- app_assoc.
Qed.

Lemma jp_string_tidy pre text s rest : ws pre -> tidies text s ->
  ngx_http_waf_jp_string (mkJp (pre ++ 34 :: text ++ 34 :: rest) e g m) = (ROk s, mkJp rest e g m').
Proof.
  intros Hpre Ht. unfold ngx_http_waf_jp_string, jp_string_rc, mbind, parser_bind.
  rewrite ws_run by done. cbn [pget jp_pos]. cbn [Z.eqb Pos.eqb].
  rewrite (spells_quote_scan text s) by by apply tidies_spells.
  unfold palloc. cbn [jp_mem]. rewrite Halloc. rewrite string_buf_eq. cbn [upd jp_pos jp_error jp_first].
  change (34 :: text ++ 34 :: rest) with ([] ++ 34 :: text ++ 34 :: rest).
  rewrite ws_drop_run by (constructor || done). cbn [Z.eqb Pos.eqb upd jp_pos jp_error jp_first jp_mem].
  rewrite (string_loop_tidy _ _ [] text s rest); [done|done| |lia].
  apply tidies_spells in Ht. apply spells_len in Ht. lia.
Qed.

End Read.

(** What the writer appended is the quoted text of the string. *)
Lemma jw_string_out data w : is_bytes data -> (ngx_http_waf_jw_string data w).(jw_overflow) = false ->
  exists text s, (ngx_http_waf_jw_string data w).(jw_out) = w.(jw_out) ++ 34 :: text ++ [34] /\
    tidies text s /\ scrubbed data s.
Proof.
  intros Hb. unfold ngx_http_waf_jw_string.
  destruct (jw_string_loop (length data) data (ngx_http_waf_jw_raw [34] w)) as [w1 b] eqn:E. intros Ho.
  assert (Ho1 : w1.(jw_overflow) = false).
  { destruct b; [apply jw_raw_ok in Ho as [_ ?]; done|done]. }
  apply jw_loop_ok in E as (-> & Hw & text & s & Hout & Ht & Hs); [|done|done|done].
  apply jw_raw_ok in Ho as [-> _]. apply jw_raw_ok in Hw as [Hput _]. rewrite Hput in Hout.
  exists text, s. split; [|done]. cbn. rewrite Hout. cbn. by rewrite <- !app_assoc.
Qed.

(** JSON strings survive the codec.  Whatever bytes are written, the writer
    stays within its buffer and needs at most six bytes for one and two for the
    quotes; when it did not run out of room, the parser reads the text back, with
    the rest of the input left, as the same bytes with every ill-formed UTF-8
    sequence replaced by U+FFFD, which are the bytes themselves when the text
    was well formed. *)
Theorem json_string_roundtrip data w size e g mem mem' pre rest :
  is_bytes data -> fits size w -> w.(jw_overflow) = false -> alloc mem = (true, mem') -> ws pre ->
  let w' := ngx_http_waf_jw_string data w in
  fits size w' /\ (6 * zlen data + 2 <= w.(jw_room) -> w'.(jw_overflow) = false) /\
  (w'.(jw_overflow) = false ->
   exists text s, w'.(jw_out) = w.(jw_out) ++ text /\ scrubbed data s /\
     (utf8_text data -> s = data) /\
     ngx_http_waf_jp_string (mkJp (pre ++ text ++ rest) e g mem) = (ROk s, mkJp rest e g mem')).
Proof.
  intros Hb Hf Ho Ha Hp w'. split; [by apply jw_string_fits|]. split; [by apply jw_string_room|].
  intros Ho'. destruct (jw_string_out data w Hb Ho') as (text & s & Hout & Ht & Hs).
  exists (34 :: text ++ [34]), s. split; [done|]. split; [done|]. split.
  - intros Hu. by eapply scrubbed_text.
  - cbn [app]. rewrite <- app_assoc. by apply jp_string_tidy.
Qed.

Lemma json_string_roundtrip_witness :
  exists w, w = ngx_http_waf_jw_init 64 /\
  let w' := ngx_http_waf_jw_string [97; 10; 0xff; 0xc3; 0xa9] w in
  fits 64 w' /\ (6 * zlen [97; 10; 0xff; 0xc3; 0xa9] + 2 <= w.(jw_room) -> w'.(jw_overflow) = false) /\
  (w'.(jw_overflow) = false ->
   exists text s, w'.(jw_out) = w.(jw_out) ++ text /\ scrubbed [97; 10; 0xff; 0xc3; 0xa9] s /\
     (utf8_text [97; 10; 0xff; 0xc3; 0xa9] -> s = [97; 10; 0xff; 0xc3; 0xa9]) /\
     ngx_http_waf_jp_string (mkJp ([32] ++ text ++ [44]) None false []) = (ROk s, mkJp [44] None false [])).
Proof.
  exists (ngx_http_waf_jw_init 64). split; [done|].
  apply (json_string_roundtrip [97; 10; 0xff; 0xc3; 0xa9] (ngx_http_waf_jw_init 64) 64 None false [] [] [32] [44]).
  - repeat constructor; unfold is_u8; lia.
  - by split; vm_compute.
  - done.
  - done.
  - by repeat constructor.
Defined.

(** * Integers *)

(** The decimal digits of a natural number, and the text of an integer. *)
Fixpoint udec (f : nat) (v : Z) : bytes :=
  match f with
  | O => [48 + v mod 10]
  | S f => if v <? 10 then [48 + v] else udec f (v / 10) ++ [48 + v mod 10]
  end.
Definition decimal (v : Z) : bytes := if v <? 0 then 45 :: udec 20 (- v) else udec 20 v.

(** The value of a text of digits. *)
Definition digits_val (v : Z) (ds : bytes) : Z := fold_left (fun v c => v * 10 + (c - 48)) ds v.

Lemma digits_val_app v ds ds' : digits_val v (ds ++ ds') = digits_val (digits_val v ds) ds'.
Proof. apply fold_left_app. Qed.

Lemma digits_val_ge ds v : Forall (fun c => is_digit c = true) ds -> 0 <= v -> v <= digits_val v ds.
Proof.
  intros H. revert v. induction H as [|c ds Hc _ IH]; intros v Hv; [done|]. unfold is_digit in Hc.
  cbn. unfold digits_val in IH. etrans; [|apply IH]; lia.
Qed.

Lemma udec_spec f v : 0 <= v < 10 ^ (Z.of_nat f + 1) ->
  Forall (fun c => is_digit c = true) (udec f v) /\ digits_val 0 (udec f v) = v /\
  (zlen (udec f v) = 1 \/ exists c ds, udec f v = c :: ds /\ c <> 48).
Proof.
  revert v. induction f as [|f IH]; intros v Hv.
  { change (10 ^ (Z.of_nat 0 + 1)) with 10 in Hv. cbn [udec]. rewrite Z.mod_small by lia.
    split_and!; [|cbn; lia|by left]. constructor; [unfold is_digit; lia|constructor]. }
  cbn [udec]. destruct (Z.ltb_spec v 10).
  { split_and!; [|cbn; lia|by left]. constructor; [unfold is_digit; lia|constructor]. }
  assert (Hq : 0 <= v / 10 < 10 ^ (Z.of_nat f + 1)).
  { split; [apply Z.div_pos; lia|]. apply Z.div_lt_upper_bound; [lia|].
    replace (Z.of_nat (S f) + 1) with (Z.succ (Z.of_nat f + 1)) in Hv by lia.
    rewrite Z.pow_succ_r in Hv by lia. lia. }
  destruct (IH _ Hq) as (Hd & Hval & Hz). pose proof (Z.mod_pos_bound v 10 ltac:(lia)).
  split_and!.
  - apply Forall_app. split; [done|]. constructor; [unfold is_digit; lia|constructor].
  - rewrite digits_val_app, Hval. cbn. pose proof (Z.div_mod v 10). lia.
  - right. destruct Hz as [Hz|(c & ds & -> & Hc)]; [|by exists c, (ds ++ [48 + v mod 10])].
    destruct (udec f (v / 10)) as [|c [|d l]]; [done| |rewrite !zlen_cons in Hz; pose proof (zlen_nonneg l); lia].
    exists c, [48 + v mod 10]. split; [done|]. cbn in Hval. intros ->.
    assert (1 <= v / 10) by (apply Z.div_le_lower_bound; lia). lia.
Qed.

(** The loop over the digits computes their value, as long as it stays in the
    range of [ngx_int_t] and has no leading zero. *)
Lemma int_loop_run ds v n rest e g m :
  Forall (fun c => is_digit c = true) ds -> 0 <= v -> digits_val v ds <= NGX_MAX_INT_T_VALUE ->
  ~ (n = 1 /\ v = 0 /\ ds <> []) -> (n = 0 -> match ds with 48 :: _ :: _ => False | _ => True end) -> 0 <= n ->
  int_loop (ds ++ rest) v n (mkJp (ds ++ rest) e g m) =
  int_loop rest (digits_val v ds) (n + zlen ds) (mkJp rest e g m).
Proof.
  intros Hds. revert v n. induction Hds as [|c ds Hc Hds IH]; intros v n Hv Hm Hz Hl Hn.
  { cbn. by rewrite zlen_nil, Z.add_0_r. }
  cbn [app int_loop]. rewrite Hc. cbn [negb]. unfold is_digit in Hc.
  destruct ((n =? 1) && (v =? 0)) eqn:E; [exfalso; apply Hz; split_and!; [lia|lia|done]|].
  cbn in Hm. pose proof (digits_val_ge ds (v * 10 + (c - 48)) Hds ltac:(lia)) as Hge.
  unfold digits_val in Hge. unfold NGX_MAX_INT_T_VALUE in *.
  rewrite u64_small by (unfold is_u64; lia).
  destruct (Z.ltb_spec ((2 ^ 63 - 1 - (c - 48)) / 10) v) as [Hlt|_].
  { exfalso. assert (v <= (2 ^ 63 - 1 - (c - 48)) / 10); [|lia].
    apply Z.div_le_lower_bound; lia. }
  unfold mbind, parser_bind. cbn [padvance upd jp_pos jp_error jp_first jp_mem drop]. rewrite drop_0.
  rewrite u64_small by (unfold is_u64; lia). rewrite IH; [|lia|done| | |lia].
  - cbn. rewrite zlen_cons. f_equal. lia.
  - intros (Hn1 & Hv0 & Hne). assert (n = 0) by lia. subst n. specialize (Hl eq_refl).
    assert (c = 48) by lia. subst c. destruct ds; done.
  - intros ?. lia.
Qed.

(** The value of the digits is beyond the range: refused. *)
Lemma int_loop_over ds v n rest e g m :
  Forall (fun c => is_digit c = true) ds -> 0 <= v <= NGX_MAX_INT_T_VALUE ->
  NGX_MAX_INT_T_VALUE < digits_val v ds ->
  exists q, int_loop (ds ++ rest) v n (mkJp (ds ++ rest) e g m) = (RErr, q).
Proof.
  intros Hds. revert v n. induction Hds as [|c ds Hc Hds IH]; intros v n Hv Hm; [cbn in Hm; lia|].
  cbn [app int_loop]. rewrite Hc. cbn [negb]. unfold is_digit in Hc.
  destruct ((n =? 1) && (v =? 0)); [by eexists|]. cbn in Hm. unfold NGX_MAX_INT_T_VALUE in *.
  rewrite u64_small by (unfold is_u64; lia).
  destruct (Z.ltb_spec ((2 ^ 63 - 1 - (c - 48)) / 10) v) as [Hlt|Hle]; [by eexists|].
  assert (v * 10 + (c - 48) <= 2 ^ 63 - 1).
  { pose proof (Z.mul_div_le (2 ^ 63 - 1 - (c - 48)) 10). lia. }
  unfold mbind, parser_bind. cbn [padvance upd jp_pos jp_error jp_first jp_mem drop]. rewrite drop_0.
  rewrite u64_small by (unfold is_u64; lia). apply IH; [lia|exact Hm].
Qed.

(** The digits of a magnitude up to 2^63, and what the loop makes of them. *)
Lemma udec_loop v rest e g m : 0 <= v <= 2 ^ 63 -> ends_number rest ->
  if v <? 2 ^ 63 then
    int_loop (udec 20 v ++ rest) 0 0 (mkJp (udec 20 v ++ rest) e g m) =
      (ROk (v, zlen (udec 20 v)), mkJp rest e g m)
  else exists q, int_loop (udec 20 v ++ rest) 0 0 (mkJp (udec 20 v ++ rest) e g m) = (RErr, q).
Proof.
  intros Hv (Hr & _). destruct (udec_spec 20 v) as (Hd & Hval & Hz).
  { split; [lia|]. apply (Z.le_lt_trans _ (2 ^ 63)); [lia|reflexivity]. }
  destruct (Z.ltb_spec v (2 ^ 63)).
  - rewrite int_loop_run; [|done|lia| | | |lia].
    + rewrite Hval, Z.add_0_l. destruct rest as [|c rest]; [done|]. cbn [int_loop]. cbn in Hr. by rewrite Hr.
    + rewrite Hval. unfold NGX_MAX_INT_T_VALUE. lia.
    + intros (? & _). lia.
    + intros _. destruct Hz as [Hz|(c & ds & -> & Hc)].
      * destruct (udec 20 v) as [|c [|d ds]]; [done| |].
        -- by repeat case_match.
        -- rewrite !zlen_cons in Hz. pose proof (zlen_nonneg ds). lia.
      * by repeat case_match.
  - apply int_loop_over; [done|unfold NGX_MAX_INT_T_VALUE; lia|]. rewrite Hval. unfold NGX_MAX_INT_T_VALUE. lia.
Qed.

Lemma udec_cons v rest : 0 <= v <= 2 ^ 63 -> exists c s, udec 20 v ++ rest = c :: s /\ is_digit c = true.
Proof.
  intros Hv. destruct (udec_spec 20 v) as (Hd & _ & Hz).
  { split; [lia|]. apply (Z.le_lt_trans _ (2 ^ 63)); [lia|reflexivity]. }
  destruct Hd as [|c ds Hc _]; [|by exists c, (ds ++ rest)].
  destruct Hz as [Hz|(c & ds & ? & _)]; done.
Qed.

(** The part of [jp_int] after the sign. *)
Definition int_tail (neg : bool) : parser Z :=
  p ← pget;
  '(v, digits) ← int_loop p.(jp_pos) 0 0;
  if digits =? 0 then perror "expected integer" else
  c ← ppeek;
  if bool_decide (c = Some 46) || bool_decide (c = Some 101) || bool_decide (c = Some 69) then
    perror "expected integer, got fractional number"
  else mret (if neg then s64 (- s64 v) else s64 v).

Lemma int_tail_at v (neg : bool) e g m rest : 0 <= v <= 2 ^ 63 -> ends_number rest ->
  let r := int_tail neg (mkJp (udec 20 v ++ rest) e g m) in
  if v <? 2 ^ 63 then r = (ROk (if neg then - v else v), mkJp rest e g m) else exists q, r = (RErr, q).
Proof.
  intros Hv He. cbn zeta. pose proof (udec_loop v rest e g m Hv He) as Hl. destruct He as (_ & H46 & H101 & H69).
  unfold int_tail, mbind, parser_bind. cbn [pget jp_pos]. destruct (Z.ltb_spec v (2 ^ 63)).
  2: { destruct Hl as [q ->]. by exists q. }
  rewrite Hl. destruct (Z.eqb_spec (zlen (udec 20 v)) 0) as [Hz|_].
  { destruct (udec_cons v [] ltac:(lia)) as (c & s & E & _). rewrite app_nil_r in E.
    rewrite E, zlen_cons in Hz. pose proof (zlen_nonneg s). lia. }
  cbn [ppeek jp_pos]. rewrite !bool_decide_eq_false_2 by done. cbn [orb].
  rewrite !(s64_small v) by (unfold is_s64; lia).
  destruct neg; [rewrite s64_small by (unfold is_s64; lia)|]; done.
Qed.

Lemma jp_int_sign v e g m pre rest : - 2 ^ 63 <= v <= 2 ^ 63 -> ws pre ->
  ngx_http_waf_jp_int (mkJp (pre ++ decimal v ++ rest) e g m) =
  int_tail (v <? 0) (mkJp (udec 20 (Z.abs v) ++ rest) e g m).
Proof.
  intros Hv Hp. unfold ngx_http_waf_jp_int, decimal. unfold mbind at 1, parser_bind at 1.
  destruct (udec_cons (Z.abs v) rest ltac:(lia)) as (c & s & Ec & Hc).
  assert (Hn : c <> 45 /\ is_ws c = false) by (unfold is_digit, is_ws in *; lia).
  destruct (Z.ltb_spec v 0).
  - replace (- v) with (Z.abs v) by lia. cbn [app]. by rewrite ws_run.
  - replace (udec 20 v) with (udec 20 (Z.abs v)) by (f_equal; lia).
    rewrite ws_run; [|done|rewrite Ec; apply Hn]. rewrite peek_bind, Ec. cbn [head].
    rewrite bool_decide_eq_false_2 by (destruct Hn; congruence). done.
Qed.

Lemma jp_int_at v e g m pre rest : is_s64 v -> ws pre -> ends_number rest ->
  let r := ngx_http_waf_jp_int (mkJp (pre ++ decimal v ++ rest) e g m) in
  if bool_decide (v = - 2 ^ 63) then exists q, r = (RErr, q) else r = (ROk v, mkJp rest e g m).
Proof.
  intros Hs Hp He. unfold is_s64 in Hs. cbn zeta. rewrite jp_int_sign by (lia || done).
  pose proof (int_tail_at (Z.abs v) (v <? 0) e g m rest ltac:(lia) He) as Ht. cbn zeta in Ht. revert Ht.
  destruct (Z.ltb_spec (Z.abs v) (2 ^ 63)).
  - rewrite bool_decide_eq_false_2 by lia. intros ->. do 2 f_equal. destruct (Z.ltb_spec v 0); lia.
  - by rewrite bool_decide_eq_true_2 by lia.
Qed.

(** Integers survive the codec.  With "%i" printing an integer in decimal,
    every integer but the least one is read back from what was written, up to
    whatever follows it; the least one is written too, and refused as out of
    range. *)
Theorem json_int_roundtrip sprintf_i v w e g mem pre rest :
  (forall v, is_s64 v -> sprintf_i v = decimal v) -> is_s64 v ->
  (ngx_http_waf_jw_int sprintf_i v w).(jw_overflow) = false -> ws pre -> ends_number rest ->
  exists text, (ngx_http_waf_jw_int sprintf_i v w).(jw_out) = w.(jw_out) ++ text /\
    let r := ngx_http_waf_jp_int (mkJp (pre ++ text ++ rest) e g mem) in
    if bool_decide (v = - 2 ^ 63) then exists q, r = (RErr, q) else r = (ROk v, mkJp rest e g mem).
Proof.
  intros Hspr Hv Ho Hp He. apply jw_raw_ok in Ho as [Hput _]. exists (decimal v).
  unfold ngx_http_waf_jw_int. rewrite Hput, Hspr by done. split; [done|]. by apply jp_int_at.
Qed.

Lemma json_int_roundtrip_witness :
  exists text, (ngx_http_waf_jw_int decimal (-705) (ngx_http_waf_jw_init 64)).(jw_out) = [] ++ text /\
    let r := ngx_http_waf_jp_int (mkJp ([32] ++ text ++ [125]) None false []) in
    if bool_decide (-705 = - 2 ^ 63) then exists q, r = (RErr, q) else r = (ROk (-705), mkJp [125] None false []).
Proof.
  apply (json_int_roundtrip decimal (-705) (ngx_http_waf_jw_init 64) None false [] [32] [125]).
  - done.
  - unfold is_s64. lia.
  - by vm_compute.
  - by repeat constructor.
  - by split_and!.
Defined.

End JsonTrip.
