(* ===== verification/ReplyText.v ===== *)
(** The words, text checks and redirect addresses of an inspector's reply
    (codec/ngx_http_waf_msg_reply.c): keyword tables, the [*_clean] predicates
    that guard every text taken over from a reply, and the parser and matcher of
    redirect addresses. *)
From S2P Require Import Prelude Types.
#[local] Open Scope Z_scope.

(** The string functions of nginx that the checks call: a comparison of [n]
    bytes without regard to case, and the parser of a decimal number, whose
    failure is [None]. *)
Class NgxString := {
  ngx_strncasecmp_eq : bytes -> bytes -> nat -> bool;
  ngx_atoi : bytes -> option Z;
  ngx_hextoi : bytes -> option Z
}.

(** ASCII letters in lower case. *)
Definition lower (c : Z) : Z := if (65 <=? c) && (c <=? 90) then c + 32 else c.
Definition lowers (s : bytes) : bytes := map lower s.

Definition digit (c : Z) : bool := (48 <=? c) && (c <=? 57).
Definition dec_value (s : bytes) : Z := fold_left (fun v c => v * 10 + (c - 48)) s 0.

(** The value of a hexadecimal digit in either case. *)
Definition xdigit (c : Z) : option Z :=
  if digit c then Some (c - 48)
  else if (97 <=? lower c) && (lower c <=? 102) then Some (lower c - 97 + 10) else None.

(** What nginx documents of them.  [ngx_strncasecmp] takes two strings that
    share a NUL for equal from there on; the hosts of the configuration and the
    addresses that [ngx_http_waf_url_clean] lets through have none. *)
Class NgxStringLaws `{NgxString} : Prop := {
  ngx_strncasecmp_spec a b n : (n <= length a)%nat -> (n <= length b)%nat ->
    ngx_strncasecmp_eq a b n = true <-> lowers (take n a) = lowers (take n b);
  ngx_atoi_spec s n : ngx_atoi s = Some n -> Forall (fun c => digit c = true) s /\ s <> [] /\ n = dec_value s;
  ngx_hextoi_spec a b : ngx_hextoi [a; b] =
    match xdigit a, xdigit b with Some x, Some y => Some (x * 16 + y) | _, _ => None end
}.

Module ReplyText.
Section ReplyText.
Context `{NgxString}.

(** ** Keywords *)

Definition ngx_http_waf_verdicts : list (bytes * verdict_e) :=
  [(lit "allow", V_ALLOW); (lit "score", V_SCORE); (lit "redirect", V_REDIRECT);
   (lit "deny", V_DENY); (lit "error", V_ERROR)].

Definition ngx_http_waf_do_verbs : list (bytes * do_e) :=
  [(lit "challenge", DO_CHALLENGE); (lit "threshold", DO_THRESHOLD); (lit "skip", DO_SKIP);
   (lit "reauth", DO_REAUTH); (lit "note", DO_NOTE); (lit "mutate", DO_MUTATE);
   (lit "active", DO_ACTIVE); (lit "passive", DO_PASSIVE); (lit "off", DO_OFF);
   (lit "vote", DO_VOTE); (lit "audit", DO_AUDIT); (lit "archive", DO_ARCHIVE);
   (lit "mark", DO_MARK); (lit "score", DO_SCORE)].

Definition ngx_http_waf_apply_axes : list (bytes * apply_e) :=
  [(lit "request", APPLY_REQUEST); (lit "ip", APPLY_IP); (lit "asn", APPLY_ASN);
   (lit "session", APPLY_SESSION); (lit "conn", APPLY_CONN); (lit "response", APPLY_RESPONSE)].

Definition NGX_HTTP_WAF_PH_FRAME : Z :=
  Z.lor (NGX_HTTP_WAF_PH_BIT PHASE_FRAME_C2S) (NGX_HTTP_WAF_PH_BIT PHASE_FRAME_S2C).

Definition ngx_http_waf_to_phases : list (bytes * Z) :=
  [(lit "request", NGX_HTTP_WAF_PH_BIT PHASE_REQUEST);
   (lit "response", NGX_HTTP_WAF_PH_BIT PHASE_RESPONSE);
   (lit "frame", NGX_HTTP_WAF_PH_FRAME)].

(** The values of [ngx_http_waf_samesite_e]. *)
Definition ngx_http_waf_same_site : list (bytes * Z) :=
  [(lit "Lax", 1); (lit "Strict", 2); (lit "None", 3)].

Fixpoint ngx_http_waf_keyword {A} (kw : list (bytes * A)) (name : bytes) : option A :=
  match kw with
  | [] => None
  | (k, v) :: kw' => if bytes_eqb k name then Some v else ngx_http_waf_keyword kw' name
  end.

Definition ngx_http_waf_forbidden_headers : list bytes :=
  map lit ["host"; "authorization"; "cookie"; "content-length"; "transfer-encoding";
           "content-encoding"; "connection"; "upgrade"; "keep-alive"; "proxy-authenticate";
           "proxy-authorization"; "te"; "trailer"]%string.

Definition ngx_http_waf_header_forbidden (name : bytes) : bool :=
  existsb (fun f => Nat.eqb (length f) (length name) && ngx_strncasecmp_eq f name (length name))
    ngx_http_waf_forbidden_headers.

(** The names and suffixes of [ngx_http_waf_objs]. *)
Definition ngx_http_waf_objs : list (bytes * bytes) :=
  [(lit "headers", lit "hdr"); (lit "args", lit "arg"); (lit "body", [])].

Fixpoint obj_scan (name : bytes) (i : Z) (objs : list (bytes * bytes)) : option Z :=
  match objs with
  | [] => None
  | (n, _) :: objs' => if bytes_eqb name n then Some i else obj_scan name (i + 1) objs'
  end.
Definition ngx_http_waf_obj_find (name : bytes) : option Z := obj_scan name 0 ngx_http_waf_objs.

Definition NGX_HTTP_WAF_META_COUNT : nat := 2.
Definition ngx_http_waf_obj_suffix_reserved (suffix : bytes) : bool :=
  existsb (fun o => bytes_eqb suffix o.2) (take NGX_HTTP_WAF_META_COUNT ngx_http_waf_objs).

Definition ngx_http_waf_body_phase_tag_name (p : phase_e) : bytes :=
  match p with
  | PHASE_REQUEST => lit "req" | PHASE_RESPONSE => lit "rsp"
  | PHASE_FRAME_C2S | PHASE_FRAME_S2C => lit "frm"
  end.

(** ** Text checks *)

Definition is_lower (c : Z) : bool := (97 <=? c) && (c <=? 122).
Definition is_upper (c : Z) : bool := (65 <=? c) && (c <=? 90).
Definition is_alnum (c : Z) : bool := is_lower c || is_upper c || digit c.

Definition NGX_HTTP_WAF_ACTION_CODE_MAX : Z := 64.
Definition NGX_HTTP_WAF_ACTION_CNT_MAX : Z := 64.
Definition NGX_HTTP_WAF_ACTION_MARKER_MAX : Z := 128.
Definition NGX_HTTP_WAF_MUTATE_NAME_MAX : Z := 64.
Definition NGX_HTTP_WAF_DENY_SUBJECT_MAX : Z := 64.

Definition ngx_http_waf_value_clean (s : bytes) : bool :=
  forallb (fun c => negb ((c =? 13) || (c =? 10) || (c =? 0))) s.

Definition ngx_http_waf_arg_clean (s : bytes) (name : bool) : bool :=
  if name && (zlen s =? 0) then false
  else forallb (fun c => negb ((c <=? 32) || (c =? 0x7f) || (c =? 38) || (c =? 35)
                               || (name && (c =? 61)))) s.

Definition ngx_http_waf_text_clean (s : bytes) (max : Z) : bool :=
  if max <? zlen s then false else forallb (fun c => negb ((c <? 0x20) || (c =? 0x7f))) s.

(** The characters after the first of a group name, and those of a key. *)
Definition key_char (c : Z) : bool := is_lower c || digit c || (c =? 95) || (c =? 45).

Definition ngx_http_waf_group_clean (s : bytes) : bool :=
  match s with
  | [] => false
  | c :: s' =>
      if NGX_HTTP_WAF_MUTATE_NAME_MAX <? zlen s then false
      else if negb (is_lower c || (c =? 95)) then false
      else forallb key_char s'
  end.

(** The loop of [counter_clean] with [i > 0] for all bytes but the first. *)
Definition ngx_http_waf_counter_clean (s : bytes) : bool :=
  match s with
  | [] => false
  | c :: s' =>
      if NGX_HTTP_WAF_ACTION_CNT_MAX <? zlen s then false
      else is_alnum c && forallb (fun c => is_alnum c || (c =? 46) || (c =? 95) || (c =? 45)) s'
  end.

Definition ngx_http_waf_code_clean (s : bytes) : bool :=
  match s with
  | [] => false
  | c :: s' =>
      if NGX_HTTP_WAF_ACTION_CODE_MAX <? zlen s then false
      else if negb (is_upper c) then false
      else forallb (fun c => is_upper c || digit c || (c =? 95)) s'
  end.

Definition ngx_http_waf_marker_clean (s : bytes) : bool :=
  if (zlen s =? 0) || negb (ngx_http_waf_text_clean s NGX_HTTP_WAF_ACTION_MARKER_MAX) then false
  else if (aget 0 s 0 =? 32) || (aget 0 s (zlen s - 1) =? 32) then false
  else true.

Definition ngx_http_waf_cookie_value_clean (s : bytes) : bool :=
  let quoted := (2 <=? zlen s) && (aget 0 s 0 =? 34) && (aget 0 s (zlen s - 1) =? 34) in
  let inner := if quoted then take (length s - 2) (drop 1 s) else s in
  forallb (fun c => negb ((c <=? 0x20) || (0x7f <=? c) || (c =? 34) || (c =? 44) || (c =? 59)
                          || (c =? 92))) inner.

Definition ngx_http_waf_cookie_path_clean (s : bytes) : bool :=
  forallb (fun c => negb ((c <? 0x20) || (0x7f <=? c) || (c =? 59))) s.

Definition ngx_http_waf_token_clean (s : bytes) : bool :=
  if (zlen s =? 0) || (128 <? zlen s) then false
  else forallb (fun c => is_alnum c || (c =? 45) || (c =? 95) || (c =? 46) || (c =? 126)) s.

Definition ngx_http_waf_subject_clean (s : bytes) : bool :=
  if (zlen s =? 0) || (NGX_HTTP_WAF_DENY_SUBJECT_MAX <? zlen s) then false
  else forallb (fun c => is_alnum c || (c =? 45) || (c =? 95) || (c =? 46) || (c =? 58) || (c =? 47)) s.

Definition url_bad_char (c : Z) : bool :=
  (c <=? 32) || (0x7f <=? c) || (c =? 92) || (c =? 34) || (c =? 60) || (c =? 62) || (c =? 94)
  || (c =? 96) || (c =? 123) || (c =? 125) || (c =? 124).

Definition ngx_http_waf_url_clean (url : bytes) (max : Z) : bool :=
  if (zlen url =? 0) || (max <? zlen url) then false
  else forallb (fun c => negb (url_bad_char c)) url.

Definition ngx_http_waf_apply_allowed (verb : do_e) (axis : apply_e) : bool :=
  match verb with
  | DO_REAUTH => axis ==? APPLY_SESSION
  | DO_NOTE => match axis with APPLY_REQUEST | APPLY_IP | APPLY_ASN | APPLY_SESSION => true | _ => false end
  | DO_ACTIVE | DO_PASSIVE | DO_OFF | DO_VOTE => (axis ==? APPLY_REQUEST) || (axis ==? APPLY_CONN)
  | DO_AUDIT | DO_ARCHIVE => (axis ==? APPLY_REQUEST) || (axis ==? APPLY_RESPONSE)
  | _ => axis ==? APPLY_REQUEST
  end.

(** ** Names in the log: at most 64 bytes are shown, in at most 259. *)

Definition NGX_HTTP_WAF_SHOWN_MAX : nat := 64.
Definition NGX_HTTP_WAF_SHOWN_LEN : Z := Z.of_nat NGX_HTTP_WAF_SHOWN_MAX * 4 + 3.

Definition shown_char (c : Z) : bytes :=
  if (0x20 <=? c) && (c <? 0x7f) && negb (c =? 34) && negb (c =? 92) then [c]
  else [92; 120; hex_digit (Z.shiftr c 4); hex_digit (Z.land c 0xf)].

Definition ngx_http_waf_shown (s : bytes) : bytes :=
  concat (map shown_char (take NGX_HTTP_WAF_SHOWN_MAX s))
  ++ (if Nat.ltb NGX_HTTP_WAF_SHOWN_MAX (length s) then lit "..." else []).

(** ** Redirect addresses *)

Record url_t := mkUrl { u_scheme : bytes; u_host : bytes; u_path : bytes; u_port : Z }.
#[export] Instance eta_url_t : Eta url_t := fun r =>
  mkUrl r.(u_scheme) r.(u_host) r.(u_path) r.(u_port).

Record redirect_allow_t := mkRedirectAllow {
  ra_scheme : bytes;
  ra_host : bytes;
  ra_path : bytes;
  ra_port : Z;
  ra_wildcard : bool
}.

(** The [while] over the authority: its bytes and the rest, [None] at ['@']. *)
Fixpoint host_scan (s : bytes) : option (bytes * bytes) :=
  match s with
  | [] => Some ([], [])
  | c :: s' =>
      if (c =? 47) || (c =? 63) || (c =? 35) then Some ([], s)
      else if c =? 64 then None
      else '(h, rest) ← host_scan s'; Some (c :: h, rest)
  end.

(** [ngx_strlchr]: what precedes the first ['c'] and what follows it. *)
Fixpoint cut_at (c : Z) (s : bytes) : option (bytes * bytes) :=
  match s with
  | [] => None
  | x :: s' => if x =? c then Some ([], s') else '(a, b) ← cut_at c s'; Some (x :: a, b)
  end.

(** The port after the first colon of the authority. *)
Definition host_port (host : bytes) (port : Z) : option (bytes * Z) :=
  match cut_at 58 host with
  | None => Some (host, port)
  | Some (name, num) =>
      match ngx_atoi num with
      | Some n => if (n <? 1) || (65535 <? n) then None
                  else if zlen name =? 0 then None else Some (name, n)
      | None => None
      end
  end.

(** The part after the scheme. *)
Definition url_authority (scheme : bytes) (port : Z) (p : bytes) : option url_t :=
  '(host, rest) ← host_scan p;
  if (zlen host =? 0) || (aget 0 host 0 =? 91) then None else
  '(name, port) ← host_port host port;
  Some (mkUrl scheme name (match rest with [] => lit "/" | _ => rest end) port).

Definition ngx_http_waf_url_parse (url : bytes) : option url_t :=
  match url with
  | [] => None
  | c :: url' =>
      if c =? 47 then
        if bool_decide (head url' = Some 47) then None else Some (mkUrl [] [] url 0)
      else if (7 <? zlen url) && ngx_strncasecmp_eq url (lit "http://") 7 then
        url_authority (lit "http") 80 (drop 7 url)
      else if (8 <? zlen url) && ngx_strncasecmp_eq url (lit "https://") 8 then
        url_authority (lit "https") 443 (drop 8 url)
      else None
  end.

Definition ngx_http_waf_host_matches (allow : redirect_allow_t) (host : bytes) : bool :=
  if negb allow.(ra_wildcard) then
    Nat.eqb (length allow.(ra_host)) (length host)
    && ngx_strncasecmp_eq allow.(ra_host) host (length host)
  else if zlen host <=? zlen allow.(ra_host) + 1 then false
  else
    let n := (length host - length allow.(ra_host))%nat in
    (aget 0 host (Z.of_nat n - 1) =? 46)
    && ngx_strncasecmp_eq allow.(ra_host) (drop n host) (length allow.(ra_host)).

Definition ngx_http_waf_prefix_bounded (s prefix : bytes) : bool :=
  if zlen prefix =? 0 then true
  else if (zlen s <? zlen prefix) || negb (bytes_eqb (take (length prefix) s) prefix) then false
  else if zlen s =? zlen prefix then true
  else if aget 0 prefix (zlen prefix - 1) =? 47 then true
  else let c := aget 0 s (zlen prefix) in (c =? 47) || (c =? 63) || (c =? 35).

(** One turn of the loop over the patterns. *)
Definition allow_matches (u : url_t) (a : redirect_allow_t) : bool :=
  if xorb (zlen a.(ra_scheme) =? 0) (zlen u.(u_scheme) =? 0) then false
  else if negb (zlen u.(u_scheme) =? 0)
          && (negb (bytes_eqb a.(ra_scheme) u.(u_scheme)) || negb (a.(ra_port) =? u.(u_port))
              || negb (ngx_http_waf_host_matches a u.(u_host))) then false
  else ngx_http_waf_prefix_bounded u.(u_path) a.(ra_path).

Definition ngx_http_waf_redirect_allowed (redirect_allow : option (list redirect_allow_t)) (url : bytes) : bool :=
  match redirect_allow with
  | None => false
  | Some allow =>
      match ngx_http_waf_url_parse url with
      | None => false
      | Some u => existsb (allow_matches u) allow
      end
  end.

(** ** Keys of a rewritten body

    [live] is the key of [ngx_http_waf_store_locator_live(ctx, phase, obj)],
    [None] when there is no such locator. *)

Definition suffix_ok (s : bytes) : bool := forallb key_char s && negb (ngx_http_waf_obj_suffix_reserved s).

(** The key is [prefix] followed by a suffix of 1 to 32 bytes; [None] when it
    is not of this form at all. *)
Definition key_under (prefix key : bytes) : option bytes :=
  if (zlen key <=? zlen prefix) || (zlen prefix + 32 <? zlen key)
     || negb (bytes_eqb (take (length prefix) key) prefix) then None
  else Some (drop (length prefix) key).

Definition ngx_http_waf_rewrite_key_clean (node_id rid_hex : bytes) (phase : phase_e)
    (live : option bytes) (key : bytes) : bool :=
  match match live with
        | Some k => if zlen k =? 0 then None else key_under (k ++ [58]) key
        | None => None
        end with
  | Some suffix => suffix_ok suffix
  | None =>
      match key_under (node_id ++ [58] ++ rid_hex ++ [58] ++ ngx_http_waf_body_phase_tag_name phase ++ [58]) key with
      | Some suffix => suffix_ok suffix
      | None => false
      end
  end.

End ReplyText.
End ReplyText.
