(* ===== verification/Reply.v ===== *)
(** The parser of an inspector's reply, [ngx_http_waf_msg_reply] of
    codec/ngx_http_waf_msg_reply.c.  Every section is a parser of the JSON
    codec that fills the reply; a failing parser is [NGX_ERROR].  The texts of
    the [err] parameter and of the log are left out. *)
From S2P Require Import Prelude Types Json Graph Verdict ReplyText.
Import Graph Verdict ReplyText Json.
#[local] Open Scope Z_scope.

Module Reply.

Definition NGX_HTTP_WAF_PROTOCOL_VERSION : Z := 2.
Definition NGX_HTTP_WAF_DENY_RETRY_MAX : Z := 2592000.
Definition NGX_HTTP_WAF_DELTA_MAX : Z := 1000.
Definition NGX_HTTP_WAF_VALUE_MAX : Z := 1000.
Definition NGX_HTTP_WAF_POINTS_MAX : Z := 100.
Definition NGX_HTTP_WAF_ACTION_TTL_MAX : Z := 315360000.
Definition NGX_HTTP_WAF_ACTION_LIMIT_MAX : Z := Z.shiftl 1 30.
Definition NGX_HTTP_WAF_MUTATE_GROUPS_MAX : Z := 16.
Definition NGX_HTTP_WAF_SESSIONS_REPLY_MAX : Z := 4.
Definition NGX_HTTP_WAF_SESSION_USER_MAX : Z := 256.
Definition NGX_HTTP_WAF_SESSION_ID_MAX : Z := 128.
Definition NGX_HTTP_WAF_SESSION_SOURCE_MAX : Z := 64.
Definition NGX_HTTP_WAF_SESSION_KIND_MAX : Z := 16.
Definition NGX_HTTP_WAF_SESSION_GROUPS_MAX : Z := 256.
Definition NGX_MAX_SIZE_T_VALUE : Z := 2 ^ 63 - 1.
Definition NGX_HTTP_MOVED_TEMPORARILY : Z := 302.
Definition NGX_HTTP_SEE_OTHER : Z := 303.
Definition NGX_HTTP_TEMPORARY_REDIRECT : Z := 307.
(** [ngx_http_waf_source_e]. *)
Definition NGX_HTTP_WAF_SOURCE_STORE : Z := 1.
Definition NGX_HTTP_WAF_SOURCE_ORIGINAL : Z := 2.

Record cookie_t := mkCookie {
  ck_name : bytes;
  ck_value : bytes;
  ck_path : bytes;
  ck_max_age : Z;
  ck_max_age_set : bool
}.
#[export] Instance eta_cookie_t : Eta cookie_t := fun r =>
  mkCookie r.(ck_name) r.(ck_value) r.(ck_path) r.(ck_max_age) r.(ck_max_age_set).

(** [ngx_http_waf_reply_t] as the parser fills it: all fields of the reply
    that come from the message.  An array is [None] until it is created. *)
Record msg_t := mkMsg {
  m_verdict : verdict_e;
  m_score : Z;
  m_reason_code : bytes;
  m_reason_scope : Z;
  m_reason_subject : bytes;
  m_reason_retry : Z;
  m_response_name : bytes;
  m_redirect_url : bytes;
  m_status : Z;
  m_headers_set : option (list (bytes * bytes));
  m_headers_unset : option (list bytes);
  m_cookies : option (list cookie_t);
  m_sessions : option (list session_t);
  m_args_set : option (list (bytes * bytes));
  m_args_unset : option (list bytes);
  m_overload : bool;
  m_actions : option (list action_t);
  m_rewrite_key : bytes;
  m_rewrite_size : Z;
  m_rewrite_sha256 : bytes;
  m_rewrite_groups : option (list bytes);
  m_rewrite_content_type : bytes;
  m_rewrite_has : bool;
  m_rewrite_body : bool;
  m_rewrite_sha256_set : bool;
  m_no_cache : bool
}.
#[export] Instance eta_msg_t : Eta msg_t := fun r =>
  mkMsg r.(m_verdict) r.(m_score) r.(m_reason_code) r.(m_reason_scope) r.(m_reason_subject)
    r.(m_reason_retry) r.(m_response_name) r.(m_redirect_url) r.(m_status) r.(m_headers_set)
    r.(m_headers_unset) r.(m_cookies) r.(m_sessions) r.(m_args_set) r.(m_args_unset)
    r.(m_overload) r.(m_actions) r.(m_rewrite_key) r.(m_rewrite_size) r.(m_rewrite_sha256)
    r.(m_rewrite_groups) r.(m_rewrite_content_type) r.(m_rewrite_has) r.(m_rewrite_body)
    r.(m_rewrite_sha256_set) r.(m_no_cache).

(** The reply zeroed, with [score = -1]. *)
Definition msg0 : msg_t :=
  mkMsg V_ALLOW (-1) [] 0 [] 0 [] [] 0 None None None None None None false None [] 0
    (replicate 32 0) None [] false false false false.

Section Reply.
Context `{NgxString} {cond : Type}.

(** What the parser reads of the configuration and of the request. *)
Record env_t := mkEnv {
  e_inspectors : list inspector_t;
  e_reply_max : Z;
  e_header_value_max : Z;
  e_node_id : bytes;
  e_wlcf : loc_conf cond;
  e_action_max : Z;
  e_redirect_allow : option (list redirect_allow_t);
  e_args_cap : Z;
  e_phase : phase_e;
  e_rid_hex : bytes;
  e_live_key : option bytes;
  e_now : Z
}.

Context (e : env_t).

(** [key.len == n && ngx_strncmp(key.data, "...", n) == 0]. *)
Definition key_is (key : bytes) (s : string) : bool := bytes_eqb key (lit s).

(** [if (a == NULL) { a = ngx_array_create(..); } x = ngx_array_push(a)]. *)
Definition array_push {A} (a : option (list A)) (x : A) : parser (option (list A)) :=
  l ← match a with
      | Some l => mret l
      | None => ok ← palloc; if (ok : bool) then mret [] else perr
      end;
  ok ← palloc;
  if (ok : bool) then mret (Some (l ++ [x])) else perr.

(** [if (f(jp, &x) != NGX_OK || !check(x)) { return NGX_ERROR; }]. *)
Definition string_such (ok : bytes -> bool) : parser bytes :=
  s ← ngx_http_waf_jp_string; pguard (ok s);; mret s.
Definition int_such (ok : Z -> bool) : parser Z :=
  n ← ngx_http_waf_jp_int; pguard (ok n);; mret n.

(** ** continue *)

Definition ngx_http_waf_reply_continue (c : bytes * Z) : parser (bytes * Z) :=
  ngx_http_waf_jp_object;;
  members (fun key c =>
    if key_is key "subject" then s ← ngx_http_waf_jp_string; mret (s, c.2)
    else if key_is key "ttl_ms" then n ← ngx_http_waf_jp_int; mret (c.1, n)
    else ngx_http_waf_jp_skip;; mret c) c.

(** ** reason *)

Definition ngx_http_waf_reply_optional : parser unit := fun p =>
  ngx_http_waf_jp_skip (p <| jp_error := None |>).

(** A field whose wrong type is passed over. *)
Definition optional_field {A} (m : parser A) : parser (option A) :=
  save ← pget;
  r ← ptry m;
  match r with
  | Some a => mret (Some a)
  | None => pset_pos save.(jp_pos);; ngx_http_waf_reply_optional;; mret None
  end.

Definition ngx_http_waf_reply_reason (m : msg_t) : parser msg_t :=
  ngx_http_waf_jp_object;;
  members (fun key m =>
    if key_is key "code" then
      v ← string_such (fun s => ngx_http_waf_text_clean s NGX_MAX_SIZE_T_VALUE);
      mret (m <| m_reason_code := v |>)
    else if key_is key "class" then
      v ← ngx_http_waf_jp_string;
      mret (if bytes_eqb v (lit "overload") then m <| m_overload := true |> else m)
    else if key_is key "scope" then
      v ← optional_field ngx_http_waf_jp_string;
      mret (match v with
            | Some v => m <| m_reason_scope := Names.ngx_http_waf_deny_scope_parse v |>
            | None => m
            end)
    else if key_is key "subject" then
      v ← optional_field ngx_http_waf_jp_string;
      mret (match v with
            | Some v => if ngx_http_waf_subject_clean v then m <| m_reason_subject := v |> else m
            | None => m
            end)
    else if key_is key "retry" then
      n ← optional_field ngx_http_waf_jp_int;
      mret (match n with
            | Some n => if (0 <? n) && (n <=? NGX_HTTP_WAF_DENY_RETRY_MAX)
                        then m <| m_reason_retry := n |> else m
            | None => m
            end)
    else ngx_http_waf_jp_skip;; mret m) m.

(** ** response and redirect *)

Definition ngx_http_waf_reply_response (m : msg_t) : parser msg_t :=
  ngx_http_waf_jp_object;;
  members (fun key m =>
    if key_is key "name" then
      v ← string_such ngx_http_waf_token_clean; mret (m <| m_response_name := v |>)
    else ngx_http_waf_jp_skip;; mret m) m.

Definition redirect_status (n : Z) : bool :=
  (n =? NGX_HTTP_MOVED_TEMPORARILY) || (n =? NGX_HTTP_SEE_OTHER) || (n =? NGX_HTTP_TEMPORARY_REDIRECT).

Definition ngx_http_waf_reply_redirect (m : msg_t) : parser msg_t :=
  ngx_http_waf_jp_object;;
  m ← members (fun key m =>
    if key_is key "url" then
      v ← ngx_http_waf_jp_string; mret (m <| m_redirect_url := v |>)
    else if key_is key "status" then
      n ← int_such redirect_status; mret (m <| m_status := n |>)
    else ngx_http_waf_jp_skip;; mret m) m;
  mret (if m.(m_status) =? 0 then m <| m_status := NGX_HTTP_SEE_OTHER |> else m).

(** ** args and headers *)

Definition args_set_body (name : bytes) (m : msg_t) : parser msg_t :=
  value ← ngx_http_waf_jp_string;
  pguard (ngx_http_waf_arg_clean name true && ngx_http_waf_arg_clean value false
          && (zlen value <=? e.(e_args_cap)));;
  a ← array_push m.(m_args_set) (name, value);
  mret (m <| m_args_set := a |>).

Definition args_unset_body (m : msg_t) : parser msg_t :=
  name ← string_such (fun s => ngx_http_waf_arg_clean s true);
  a ← array_push m.(m_args_unset) name;
  mret (m <| m_args_unset := a |>).

Definition ngx_http_waf_reply_args (m : msg_t) : parser msg_t :=
  ngx_http_waf_jp_object;;
  m ← members (fun key m =>
    if key_is key "set" then ngx_http_waf_jp_object;; members args_set_body m
    else if key_is key "unset" then ngx_http_waf_jp_array;; elements args_unset_body m
    else ngx_http_waf_jp_skip;; mret m) m;
  match m.(m_args_set), m.(m_args_unset) with
  | None, None => mret m
  | _, _ =>
      if negb (e.(e_phase) ==? PHASE_REQUEST) then
        mret (m <| m_args_set := None |> <| m_args_unset := None |>)
      else mret m
  end.

(** A name or value that is refused is left out of the reply. *)
Definition headers_set_body (name : bytes) (m : msg_t) : parser msg_t :=
  value ← ngx_http_waf_jp_string;
  if negb (ngx_http_waf_token_clean name) then mret m
  else if ngx_http_waf_header_forbidden name then mret m
  else if negb (ngx_http_waf_value_clean value) || (e.(e_header_value_max) <? zlen value) then mret m
  else
    a ← array_push m.(m_headers_set) (name, value);
    mret (m <| m_headers_set := a |>).

Definition headers_unset_body (m : msg_t) : parser msg_t :=
  name ← ngx_http_waf_jp_string;
  if negb (ngx_http_waf_token_clean name) then mret m
  else if ngx_http_waf_header_forbidden name then mret m
  else
    a ← array_push m.(m_headers_unset) name;
    mret (m <| m_headers_unset := a |>).

Definition ngx_http_waf_reply_headers (m : msg_t) : parser msg_t :=
  ngx_http_waf_jp_object;;
  members (fun key m =>
    if key_is key "set" then ngx_http_waf_jp_object;; members headers_set_body m
    else if key_is key "unset" then ngx_http_waf_jp_array;; elements headers_unset_body m
    else ngx_http_waf_jp_skip;; mret m) m.

(** ** rewrite *)

(** The 32 calls [ngx_hextoi(value.data + i * 2, 2)]. *)
Fixpoint sha256_hex (n : nat) (s : bytes) : option bytes :=
  match n with
  | O => Some []
  | S k =>
      match ngx_hextoi (take 2 s) with
      | Some b => '(rest) ← sha256_hex k (drop 2 s); Some (u8 b :: rest)
      | None => None
      end
  end.

(** The reply with [body], [has_key] and [has_size]. *)
Definition rewrite_body_member (key : bytes) (s : msg_t * bool * bool) : parser (msg_t * bool * bool) :=
  let '(m, has_key, has_size) := s in
  if key_is key "key" then
    v ← string_such (ngx_http_waf_rewrite_key_clean e.(e_node_id) e.(e_rid_hex) e.(e_phase) e.(e_live_key));
    mret (m <| m_rewrite_key := v |>, true, has_size)
  else if key_is key "size" then
    n ← int_such (fun n => 0 <=? n);
    mret (m <| m_rewrite_size := n |> <| m_rewrite_body := true |>, has_key, true)
  else if key_is key "sha256" then
    v ← string_such (fun s => zlen s =? 64);
    match sha256_hex 32 v with
    | Some d => mret (m <| m_rewrite_sha256 := d |> <| m_rewrite_sha256_set := true |>, has_key, has_size)
    | None => perr
    end
  else ngx_http_waf_jp_skip;; mret s.

Definition rewrite_group_body (m : msg_t) : parser msg_t :=
  v ← string_such ngx_http_waf_group_clean;
  a ← match m.(m_rewrite_groups) with
      | Some l => mret l
      | None => ok ← palloc; if (ok : bool) then mret [] else perr
      end;
  pguard (zlen a <? NGX_HTTP_WAF_MUTATE_GROUPS_MAX);;
  ok ← palloc;
  if (ok : bool) then mret (m <| m_rewrite_groups := Some (a ++ [v]) |>) else perr.

Definition rewrite_member (key : bytes) (s : msg_t * bool * bool * bool) :
    parser (msg_t * bool * bool * bool) :=
  let '(m, body, has_key, has_size) := s in
  if key_is key "body" then
    ngx_http_waf_jp_object;;
    '(m, has_key, has_size) ← members rewrite_body_member (m, has_key, has_size);
    mret (m, true, has_key, has_size)
  else if key_is key "content_type" then
    v ← string_such (fun s => negb (zlen s =? 0) && ngx_http_waf_text_clean s 128);
    mret (m <| m_rewrite_content_type := v |>, body, has_key, has_size)
  else if key_is key "groups" then
    ngx_http_waf_jp_array;;
    m ← elements rewrite_group_body m;
    mret (m, body, has_key, has_size)
  else ngx_http_waf_jp_skip;; mret s.

Definition ngx_http_waf_reply_rewrite (m : msg_t) : parser msg_t :=
  ngx_http_waf_jp_object;;
  '(m, body, has_key, has_size) ← members rewrite_member (m, false, false, false);
  pguard (negb (body && negb (has_key && has_size)));;
  mret (m <| m_rewrite_has := true |>).

(** ** actions *)

Definition ovr_none : ovr_part := mkOvr SET_NONE None None 0 0 0 [0; 0; 0] [0; 0; 0].

(** [ngx_memzero(&action)], with [to] and [from] set. *)
Definition action0 (index : Z) : action_t :=
  mkAction DO_CHALLENGE NGX_HTTP_WAF_ACTION_ALL 0 [] APPLY_REQUEST None 0 [] [] SET_NONE [] ovr_none
    index PHASE_REQUEST 0 false false.

Definition on_spec (f : ovr_part -> ovr_part) (a : action_t) : action_t := a <| a_spec ::= f |>.

Definition object_member (obj : Z) (key : bytes) (spec : ovr_part) : parser ovr_part :=
  let bit := NGX_HTTP_WAF_OBJ_BIT obj in
  if key_is key "set" then
    v ← ngx_http_waf_jp_string;
    if bytes_eqb v (lit "off") then mret (spec <| o_off ::= Z.lor bit |>)
    else if bytes_eqb v (lit "on") then mret spec else perr
  else if key_is key "limit" then
    n ← int_such (fun n => (0 <=? n) && (n <=? NGX_HTTP_WAF_ACTION_LIMIT_MAX));
    mret (if n =? 0 then spec
          else spec <| o_limit ::= (fun l => aset l obj n) |> <| o_has_limit ::= Z.lor bit |>)
  else if key_is key "source" then
    v ← ngx_http_waf_jp_string;
    if bytes_eqb v (lit "store") then
      mret (spec <| o_source ::= (fun l => aset l obj NGX_HTTP_WAF_SOURCE_STORE) |>)
    else if bytes_eqb v (lit "original") then
      mret (spec <| o_source ::= (fun l => aset l obj NGX_HTTP_WAF_SOURCE_ORIGINAL) |>)
    else perr
  else ngx_http_waf_jp_skip;; mret spec.

Definition ngx_http_waf_reply_object_spec (obj : Z) (spec : ovr_part) : parser ovr_part :=
  ngx_http_waf_jp_object;;
  members (object_member obj) (spec <| o_named ::= Z.lor (NGX_HTTP_WAF_OBJ_BIT obj) |>).

(** The locals of the loop over one action. *)
Record act_st := mkActSt { as_action : action_t; as_to : bytes; as_verb : bool; as_apply : bool }.
#[export] Instance eta_act_st : Eta act_st := fun r =>
  mkActSt r.(as_action) r.(as_to) r.(as_verb) r.(as_apply).

Definition on_action (f : action_t -> action_t) (s : act_st) : act_st := s <| as_action ::= f |>.

(** The bits [1u << V_ALLOW] and [1u << V_DENY]. *)
Definition when_word (v : bytes) : option Z :=
  if bytes_eqb v (lit "allow") then Some (Z.shiftl 1 0)
  else if bytes_eqb v (lit "deny") then Some (Z.shiftl 1 3) else None.

Definition when_body (w : Z) : parser Z :=
  v ← ngx_http_waf_jp_string;
  match when_word v with Some b => mret (Z.lor w b) | None => perr end.

Definition keyword_field {A} (kw : list (bytes * A)) : parser A :=
  v ← ngx_http_waf_jp_string;
  match ngx_http_waf_keyword kw v with Some x => mret x | None => perr end.

Definition in_range (m n : Z) : bool := (- m <=? n) && (n <=? m).

Definition action_member (key : bytes) (s : act_st) : parser act_st :=
  if key_is key "do" then
    v ← keyword_field ngx_http_waf_do_verbs;
    mret (on_action (fun a => a <| a_verb := v |>) s <| as_verb := true |>)
  else if key_is key "to" then
    v ← ngx_http_waf_jp_string; mret (s <| as_to := v |>)
  else if key_is key "code" then
    v ← string_such ngx_http_waf_code_clean; mret (on_action (fun a => a <| a_code := v |>) s)
  else if key_is key "apply" then
    v ← keyword_field ngx_http_waf_apply_axes;
    mret (on_action (fun a => a <| a_apply := v |>) s <| as_apply := true |>)
  else if key_is key "phase" then
    v ← keyword_field ngx_http_waf_to_phases; mret (on_action (fun a => a <| a_to_phases := v |>) s)
  else if key_is key "delta" then
    n ← int_such (in_range NGX_HTTP_WAF_DELTA_MAX);
    mret (on_action (fun a => a <| a_delta := Some n |>) s)
  else if key_is key "value" then
    n ← int_such (in_range NGX_HTTP_WAF_VALUE_MAX);
    mret (on_action (fun a => a <| a_value := n |> <| a_has_value := true |>) s)
  else if key_is key "counter" then
    v ← string_such ngx_http_waf_counter_clean; mret (on_action (fun a => a <| a_counter := v |>) s)
  else if key_is key "group" then
    v ← string_such ngx_http_waf_counter_clean; mret (on_action (fun a => a <| a_group := v |>) s)
  else if key_is key "marker" then
    v ← string_such ngx_http_waf_marker_clean; mret (on_action (fun a => a <| a_marker := v |>) s)
  else if key_is key "set" then
    v ← ngx_http_waf_jp_string;
    if bytes_eqb v (lit "on") then mret (on_action (fun a => a <| a_set := SET_ON |>) s)
    else if bytes_eqb v (lit "off") then mret (on_action (fun a => a <| a_set := SET_OFF |>) s)
    else perr
  else if key_is key "ttl" then
    n ← int_such (fun n => (0 <=? n) && (n <=? NGX_HTTP_WAF_ACTION_TTL_MAX));
    mret (on_action (on_spec (fun p => p <| o_ttl := Some n |>)) s)
  else if key_is key "when" then
    ngx_http_waf_jp_array;;
    w ← elements when_body 0;
    pguard (negb (w =? 0));;
    mret (on_action (on_spec (fun p => p <| o_when := Some w |>)) s)
  else
    match ngx_http_waf_obj_find key with
    | Some obj =>
        spec ← ngx_http_waf_reply_object_spec obj s.(as_action).(a_spec);
        mret (on_action (fun a => a <| a_spec := spec |>) s)
    | None => ngx_http_waf_jp_skip;; mret s
    end.

(** [action.spec.has_ttl || action.spec.has_when || action.spec.named != 0]. *)
Definition spec_used (p : ovr_part) : bool :=
  bool_decide (is_Some p.(o_ttl)) || bool_decide (is_Some p.(o_when)) || negb (p.(o_named) =? 0).

(** The checks of the fields an action may have with its verb. *)
Definition verb_fields_ok (a : action_t) (to : bytes) : bool :=
  let none_set := a.(a_set) ==? SET_NONE in
  if a.(a_verb) ==? DO_MUTATE then negb ((zlen a.(a_group) =? 0) || none_set)
  else if negb (zlen a.(a_group) =? 0) then false
  else if ngx_http_waf_do_audit a.(a_verb) then
    negb none_set
    && negb ((a.(a_set) ==? SET_OFF) && spec_used a.(a_spec))
    && negb ((a.(a_verb) ==? DO_AUDIT)
             && (bool_decide (is_Some a.(a_spec).(o_ttl)) || bool_decide (is_Some a.(a_spec).(o_when))))
    && negb ((a.(a_apply) ==? APPLY_RESPONSE)
             && negb (Z.land a.(a_spec).(o_named) (NGX_HTTP_WAF_OBJ_BIT NGX_HTTP_WAF_OBJ_ARGS) =? 0))
    && (zlen to =? 0)
  else if ngx_http_waf_do_mark a.(a_verb) then
    negb (zlen a.(a_marker) =? 0) && (zlen to =? 0) && none_set && negb (spec_used a.(a_spec))
  else if ngx_http_waf_do_score a.(a_verb) then
    a.(a_has_value) && negb (a.(a_value) =? 0) && in_range NGX_HTTP_WAF_POINTS_MAX a.(a_value)
    && (zlen to =? 0) && none_set && negb (spec_used a.(a_spec))
  else none_set && negb (spec_used a.(a_spec)).

Definition control_ok (a : action_t) (to : bytes) : bool :=
  if ngx_http_waf_do_control a.(a_verb) then
    negb (zlen to =? 0)
    && negb ((a.(a_apply) ==? APPLY_CONN) && negb (ngx_http_waf_phase_is_frame e.(e_phase)))
    && negb ((a.(a_apply) ==? APPLY_CONN) && negb (a.(a_to_phases) =? 0)
             && (Z.land a.(a_to_phases) NGX_HTTP_WAF_PH_FRAME =? 0))
  else a.(a_to_phases) =? 0.

(** All the checks after the members of an action were read. *)
Definition action_ok (s : act_st) : bool :=
  let a := s.(as_action) in
  s.(as_verb) && s.(as_apply) && ngx_http_waf_apply_allowed a.(a_verb) a.(a_apply)
  && negb ((a.(a_verb) ==? DO_THRESHOLD) && negb (bool_decide (is_Some a.(a_delta))))
  && negb (negb (zlen a.(a_counter) =? 0) && negb (a.(a_verb) ==? DO_NOTE))
  && negb (negb (zlen a.(a_marker) =? 0) && negb (ngx_http_waf_do_mark a.(a_verb)))
  && verb_fields_ok a s.(as_to) && control_ok a s.(as_to).

Fixpoint inspector_scan (name : bytes) (i : Z) (l : list inspector_t) : option Z :=
  match l with
  | [] => None
  | x :: l' => if bytes_eqb x.(in_name) name then Some i else inspector_scan name (i + 1) l'
  end.
Definition ngx_http_waf_inspector_find (name : bytes) : option Z := inspector_scan name 0 e.(e_inspectors).

(** [wlcf->dead_action_warned] only keeps a warning from being repeated and is
    left out with the log. *)
Definition action_body (index : Z) (m : msg_t) : parser msg_t :=
  begin ← pget;
  ngx_http_waf_jp_object;;
  st ← members action_member (mkActSt (action0 index) [] false false);
  pguard (action_ok st);;
  p ← pget;
  if e.(e_action_max) <? zlen begin.(jp_pos) - zlen p.(jp_pos) then mret m else
  let store a := l ← array_push m.(m_actions) a; mret (m <| m_actions := l |>) in
  if zlen st.(as_to) =? 0 then store st.(as_action)
  else
    match ngx_http_waf_inspector_find st.(as_to) with
    | None => mret m
    | Some dst => store (st.(as_action) <| a_to := dst |>)
    end.

Definition ngx_http_waf_reply_actions (index : Z) (m : msg_t) : parser msg_t :=
  if e.(e_wlcf).(lc_actions_max) =? 0 then ngx_http_waf_jp_skip;; mret m
  else ngx_http_waf_jp_array;; elements (action_body index) m.

(** ** cookies *)

Definition cookie_member (key : bytes) (c : cookie_t) : parser cookie_t :=
  if key_is key "name" then
    v ← string_such ngx_http_waf_token_clean; mret (c <| ck_name := v |>)
  else if key_is key "value" then
    v ← string_such ngx_http_waf_cookie_value_clean; mret (c <| ck_value := v |>)
  else if key_is key "path" then
    v ← string_such ngx_http_waf_cookie_path_clean; mret (c <| ck_path := v |>)
  else if key_is key "domain" then ngx_http_waf_jp_string;; mret c
  else if key_is key "max_age" then
    n ← int_such (fun n => 0 <=? n);
    mret (c <| ck_max_age := n |> <| ck_max_age_set := true |>)
  else if key_is key "http_only" || key_is key "secure" then ngx_http_waf_jp_bool;; mret c
  else if key_is key "same_site" then keyword_field ngx_http_waf_same_site;; mret c
  else ngx_http_waf_jp_skip;; mret c.

Definition cookie_body (m : msg_t) : parser msg_t :=
  ngx_http_waf_jp_object;;
  c ← members cookie_member (mkCookie [] [] [] 0 false);
  if zlen c.(ck_name) =? 0 then mret m
  else a ← array_push m.(m_cookies) c; mret (m <| m_cookies := a |>).

Definition ngx_http_waf_reply_cookies (m : msg_t) : parser msg_t :=
  ngx_http_waf_jp_array;; elements cookie_body m.

(** ** sessions *)

(** One name of [groups]: [g] is what lies in the buffer of 256 bytes. *)
Definition session_group_body (g : bytes) : parser bytes :=
  item ← string_such (fun s => ngx_http_waf_text_clean s NGX_HTTP_WAF_SESSION_GROUPS_MAX
                               && negb (zlen s =? 0) && negb (bool_decide (44 ∈ s)));
  let comma := negb (zlen g =? 0) in
  if NGX_HTTP_WAF_SESSION_GROUPS_MAX - zlen g <? zlen item + (if comma then 1 else 0) then perr
  else mret (g ++ (if comma then [44] else []) ++ item).

Definition text_field (max : Z) : parser bytes := string_such (fun s => ngx_http_waf_text_clean s max).

Definition session_member (key : bytes) (s : session_t) : parser session_t :=
  if key_is key "source" then
    v ← text_field NGX_HTTP_WAF_SESSION_SOURCE_MAX; mret (s <| ss_source := v |>)
  else if key_is key "kind" then
    v ← text_field NGX_HTTP_WAF_SESSION_KIND_MAX; mret (s <| ss_kind := v |>)
  else if key_is key "user" then
    v ← text_field NGX_HTTP_WAF_SESSION_USER_MAX; mret (s <| ss_user := v |>)
  else if key_is key "id" then
    v ← text_field NGX_HTTP_WAF_SESSION_ID_MAX; mret (s <| ss_id := v |>)
  else if key_is key "verified" then
    b ← ngx_http_waf_jp_bool; mret (s <| ss_verified := b |>)
  else if key_is key "issued" then
    n ← int_such (fun n => 0 <=? n); mret (s <| ss_issued := n |>)
  else if key_is key "expires" then
    n ← int_such (fun n => 0 <=? n); mret (s <| ss_expires := n |>)
  else if key_is key "groups" then
    ngx_http_waf_jp_array;;
    buf ← palloc;
    if (buf : bool) then g ← elements session_group_body []; mret (s <| ss_groups := g |>) else perr
  else ngx_http_waf_jp_skip;; mret s.

Definition session0 : session_t := mkSession [] [] [] [] [] 0 0 0 false false.

Definition session_body (m : msg_t) : parser msg_t :=
  pguard (match m.(m_sessions) with
          | Some l => negb (NGX_HTTP_WAF_SESSIONS_REPLY_MAX <=? zlen l)
          | None => true
          end);;
  ngx_http_waf_jp_object;;
  s ← members session_member session0;
  if (zlen s.(ss_source) =? 0) || (zlen s.(ss_kind) =? 0) then mret m
  else a ← array_push m.(m_sessions) s; mret (m <| m_sessions := a |>).

Definition ngx_http_waf_reply_sessions (m : msg_t) : parser msg_t :=
  ngx_http_waf_jp_array;; elements session_body m.

(** ** The continuation an inspector offers *)

Record cont_t := mkCont { ct_subject : bytes; ct_size : Z; ct_expires : Z }.

Definition cont0 : cont_t := mkCont [] 0 0.

(** [ctx->cont], [None] until it is allocated. *)
Definition ngx_http_waf_resume_keep (index : Z) (subject : bytes) (ttl : Z)
    (cont : option (list cont_t)) : parser (option (list cont_t)) :=
  l ← match cont with
      | Some l => mret l
      | None => ok ← palloc;
                if (ok : bool) then mret (replicate (length e.(e_inspectors)) cont0) else perr
      end;
  let c := aget cont0 l index in
  size ← (if c.(ct_size) <? zlen subject then
            ok ← palloc; if (ok : bool) then mret (zlen subject) else perr
          else mret c.(ct_size));
  mret (Some (aset l index (mkCont subject size (u64 (e.(e_now) + ttl))))).

Definition insp (index : Z) : inspector_t :=
  aget (mkInspector [] [] [] 0 false 0 0 0) e.(e_inspectors) index.

(** A subject that cannot be published or lies outside the inspector's own is
    not kept. *)
Definition ngx_http_waf_reply_resume (index : Z) (subject : bytes) (ttl : Z)
    (cont : option (list cont_t)) : parser (option (list cont_t)) :=
  let own := (insp index).(in_subject) in
  if negb (e.(e_phase) ==? PHASE_REQUEST) then mret cont
  else if existsb (fun c => (c <=? 32) || (c =? 42) || (c =? 62) || (c =? 0x7f)) subject then mret cont
  else if (zlen subject <=? zlen own) || negb (bytes_eqb (take (length own) subject) own)
          || negb (aget 0 subject (zlen own) =? 46) then mret cont
  else ngx_http_waf_resume_keep index subject ttl cont.

(** ** The reply *)

(** The locals of [ngx_http_waf_msg_reply]. *)
Record reply_st := mkReplySt {
  rs_msg : msg_t;
  rs_version : Z;
  rs_verdict : option verdict_e;
  rs_cont : bytes * Z
}.
#[export] Instance eta_reply_st : Eta reply_st := fun r =>
  mkReplySt r.(rs_msg) r.(rs_version) r.(rs_verdict) r.(rs_cont).

(** A section that fills the reply. *)
Definition section (f : msg_t -> parser msg_t) (s : reply_st) : parser reply_st :=
  m ← f s.(rs_msg); mret (s <| rs_msg := m |>).

Definition reply_member (index : Z) (key : bytes) (s : reply_st) : parser reply_st :=
  if key_is key "v" then
    n ← int_such (fun n => 0 <? n); mret (s <| rs_version := n |>)
  else if key_is key "rid" then
    string_such (fun v => bytes_eqb v e.(e_rid_hex));; mret s
  else if key_is key "inspector" then
    string_such (fun v => bytes_eqb v (insp index).(in_name));; mret s
  else if key_is key "verdict" then
    v ← keyword_field ngx_http_waf_verdicts; mret (s <| rs_verdict := Some v |>)
  else if key_is key "score" then
    n ← int_such (fun n => (0 <=? n) && (n <=? NGX_HTTP_WAF_SCORE_MAX));
    mret (s <| rs_msg ::= (fun m => m <| m_score := n |>) |>)
  else if key_is key "reason" then section ngx_http_waf_reply_reason s
  else if key_is key "response" then section ngx_http_waf_reply_response s
  else if key_is key "redirect" then section ngx_http_waf_reply_redirect s
  else if key_is key "headers" then section ngx_http_waf_reply_headers s
  else if key_is key "args" then section ngx_http_waf_reply_args s
  else if key_is key "rewrite" then section ngx_http_waf_reply_rewrite s
  else if key_is key "continue" then
    c ← ngx_http_waf_reply_continue s.(rs_cont); mret (s <| rs_cont := c |>)
  else if key_is key "cookies" then section ngx_http_waf_reply_cookies s
  else if key_is key "sessions" then section ngx_http_waf_reply_sessions s
  else if key_is key "actions" then section (ngx_http_waf_reply_actions index) s
  else if key_is key "cache" then
    b ← ngx_http_waf_jp_bool; mret (s <| rs_msg ::= (fun m => m <| m_no_cache := negb b |>) |>)
  else ngx_http_waf_jp_skip;; mret s.

Definition ngx_http_waf_do_module (v : do_e) : bool :=
  match v with
  | DO_CHALLENGE | DO_THRESHOLD | DO_SKIP | DO_REAUTH | DO_NOTE | DO_MUTATE => false
  | _ => true
  end.

(** The actions an erring inspector may still have. *)
Definition error_actions (a : option (list action_t)) : option (list action_t) :=
  match a with
  | None => None
  | Some l =>
      match List.filter (fun a => ngx_http_waf_do_module a.(a_verb)
                                  && negb (ngx_http_waf_do_score a.(a_verb))) l with
      | [] => None
      | l' => Some l'
      end
  end.

(** The reply with verdict [error]: nothing of it acts on the request. *)
Definition error_reply (m : msg_t) : msg_t :=
  m <| m_score := 0 |> <| m_response_name := [] |> <| m_redirect_url := [] |>
    <| m_rewrite_key := [] |> <| m_rewrite_content_type := [] |> <| m_status := 0 |>
    <| m_rewrite_has := false |> <| m_rewrite_body := false |> <| m_rewrite_size := 0 |>
    <| m_rewrite_groups := None |> <| m_headers_set := None |> <| m_headers_unset := None |>
    <| m_args_set := None |> <| m_args_unset := None |> <| m_cookies := None |>
    <| m_actions ::= error_actions |>.

(** What follows the reading of the message. *)
Definition reply_finish (index : Z) (s : reply_st) (cont : option (list cont_t)) :
    parser (msg_t * option (list cont_t)) :=
  pguard (negb (s.(rs_version) =? 0));;
  pguard (s.(rs_version) =? NGX_HTTP_WAF_PROTOCOL_VERSION);;
  match s.(rs_verdict) with
  | None => perr
  | Some v =>
      let v := if (v ==? V_REDIRECT) && negb (e.(e_phase) ==? PHASE_REQUEST) then V_ALLOW else v in
      let m := s.(rs_msg) <| m_verdict := v |> in
      if v ==? V_ERROR then
        pguard (negb (zlen m.(m_reason_code) =? 0));; mret (error_reply m, cont)
      else
        m ← (if v ==? V_SCORE then pguard (0 <=? m.(m_score));; mret m
             else mret (m <| m_score := 0 |>));
        m ← (if v ==? V_REDIRECT then
               pguard (negb (zlen m.(m_redirect_url) =? 0));;
               pguard (ngx_http_waf_url_clean m.(m_redirect_url) e.(e_header_value_max));;
               pguard (ngx_http_waf_redirect_allowed e.(e_redirect_allow) m.(m_redirect_url));;
               mret m
             else mret (m <| m_status := 0 |> <| m_redirect_url := [] |>));
        cont ← (if negb (zlen s.(rs_cont).1 =? 0) && (0 <? s.(rs_cont).2) then
                  ngx_http_waf_reply_resume index s.(rs_cont).1 s.(rs_cont).2 cont
                else mret cont);
        mret (m, cont)
  end.

(** The parser of the whole message. *)
Definition reply_parser (index : Z) (cont : option (list cont_t)) : parser (msg_t * option (list cont_t)) :=
  ngx_http_waf_jp_object;;
  s ← members (reply_member index) (mkReplySt msg0 0 None ([], 0));
  ngx_http_waf_jp_end;;
  reply_finish index s cont.

(** [mem] are the outcomes of the allocations from the pool of the request. *)
Definition ngx_http_waf_msg_reply (index : Z) (payload : bytes) (cont : option (list cont_t))
    (mem : alloc_stream) : res (msg_t * option (list cont_t)) :=
  if zlen e.(e_inspectors) <=? index then RErr
  else if e.(e_reply_max) <? zlen payload then RErr
  else (reply_parser index cont (ngx_http_waf_jp_init payload mem)).1.

(** The reply as the handler takes it over from the message; the fields of
    arrival (latency, order, wave and the like) are still zero. *)
Definition reply_of (m : msg_t) : reply_t :=
  reply0 <| r_verdict := m.(m_verdict) |> <| r_score := m.(m_score) |>
    <| r_overload := m.(m_overload) |> <| r_actions := default [] m.(m_actions) |>
    <| r_sessions := default [] m.(m_sessions) |> <| r_rewrite_key := m.(m_rewrite_key) |>
    <| r_rewrite_size := m.(m_rewrite_size) |>
    <| r_rewrite_sha256 := if m.(m_rewrite_sha256_set) then Some m.(m_rewrite_sha256) else None |>
    <| r_rewrite_has := m.(m_rewrite_has) |> <| r_rewrite_body := m.(m_rewrite_body) |>.

End Reply.
End Reply.
