(* ===== verification/ReplyFacts.v ===== *)
(** Facts about the parser of an inspector's reply: it comes to a result on
    every payload, what it accepts is within the bounds the rest of the module
    relies on, and a redirect it lets through goes where the configuration
    allows. *)
From S2P Require Import Prelude Types Json JsonFacts JsonSkip Graph Verdict ReplyText Reply HandlerFacts.
Import JsonFacts JsonSkip Graph Verdict ReplyText Json Reply.
#[local] Open Scope Z_scope.

Module ReplyFacts.
Section ReplyFacts.
Context `{NgxString} {cond : Type} (e : env_t (cond := cond)).

(** * The parser returns *)

Lemma wb_skip0 : wb 0 ngx_http_waf_jp_skip.
Proof. intros p. eapply wb_weaken; [apply wb_skip|lia]. Qed.
Lemma wb_int0 : wb 0 ngx_http_waf_jp_int.
Proof. intros p. eapply wb_weaken; [apply wb_int|lia]. Qed.
Lemma wb_bool0 : wb 0 ngx_http_waf_jp_bool.
Proof. intros p. eapply wb_weaken; [apply wb_bool|lia]. Qed.
Lemma wb_object0 : wb 0 ngx_http_waf_jp_object.
Proof. apply wb_open0. Qed.
Lemma wb_array0 : wb 0 ngx_http_waf_jp_array.
Proof. apply wb_open0. Qed.

Lemma wb_string_such ok : wb 1 (string_such ok).
Proof. apply wb_bind_l; [apply wb_string|]. intros s. apply wb_bind0; [apply wb_pguard|]. intros _. apply wb_ret. Qed.
Lemma wb_string_such0 ok : wb 0 (string_such ok).
Proof. intros p. eapply wb_weaken; [apply wb_string_such|lia]. Qed.
Lemma wb_int_such ok : wb 0 (int_such ok).
Proof. apply wb_bind0; [apply wb_int0|]. intros s. apply wb_bind0; [apply wb_pguard|]. intros _. apply wb_ret. Qed.
Lemma wb_keyword_field {A} (kw : list (bytes * A)) : wb 0 (keyword_field kw).
Proof. apply wb_bind0; [apply wb_string0|]. intros s. destruct (ngx_http_waf_keyword kw s); auto with wb. Qed.
Lemma wb_array_push {A} (a : option (list A)) x : wb 0 (array_push a x).
Proof.
  unfold array_push. apply wb_bind0; [|intros l; wb_auto]. destruct a; wb_auto.
Qed.

#[local] Hint Resolve wb_skip0 wb_int0 wb_bool0 wb_object0 wb_array0 wb_string_such0 wb_int_such
  wb_keyword_field wb_array_push wb_members wb_elements : wb.

(** A failed optional field is read again from where it started. *)
Lemma wb_optional_field {A} (m : parser A) : wb 0 m -> wb 0 (optional_field m).
Proof.
  intros Hm p. apply wb_get_take. specialize (Hm p). unfold wb_at, mbind, parser_bind, ptry in *.
  destruct (m p) as [[a| |] q]; [done| |done]. cbn [pset_pos upd jp_pos jp_error jp_first jp_mem].
  pose proof (wb_skip0 (mkJp (jp_pos p) None (jp_first q) (jp_mem q))) as Hs. unfold wb_at in Hs.
  unfold ngx_http_waf_reply_optional. cbn [upd jp_pos jp_error jp_first jp_mem].
  assert (Hp : forall r, takes 0 (mkJp (jp_pos p) None (jp_first q) (jp_mem q)) r -> takes 0 p r) by done.
  destruct (ngx_http_waf_jp_skip _) as [[[]| |] r]; [by apply Hp|by apply Hp|done].
Qed.
#[local] Hint Resolve wb_optional_field : wb.

Ltac wb_sec := repeat first [ wb_step | apply wb_members; intros ? ? | progress intros ].

Lemma wb_continue c : wb 0 (ngx_http_waf_reply_continue c).
Proof. unfold ngx_http_waf_reply_continue. wb_sec. Qed.
Lemma wb_reason m : wb 0 (ngx_http_waf_reply_reason m).
Proof. unfold ngx_http_waf_reply_reason. wb_sec. Qed.
Lemma wb_response m : wb 0 (ngx_http_waf_reply_response m).
Proof. unfold ngx_http_waf_reply_response. wb_sec. Qed.
Lemma wb_redirect m : wb 0 (ngx_http_waf_reply_redirect m).
Proof. unfold ngx_http_waf_reply_redirect. wb_sec. Qed.

(** Bodies of loops over elements take their element. *)
Ltac wb1 := apply wb_bind_l; [solve [apply wb_string_such | apply wb_string | apply wb_open]|intros ?; wb_sec].

Lemma wb_args m : wb 0 (ngx_http_waf_reply_args e m).
Proof.
  assert (forall m, wb 1 (args_unset_body m)) by (intros ?; unfold args_unset_body; wb1).
  assert (forall n m, wb 0 (args_set_body e n m)) by (intros ? ?; unfold args_set_body; wb_sec).
  unfold ngx_http_waf_reply_args. wb_sec.
Qed.
Lemma wb_headers m : wb 0 (ngx_http_waf_reply_headers e m).
Proof.
  assert (forall m, wb 1 (headers_unset_body m)) by (intros ?; unfold headers_unset_body; wb1).
  assert (forall n m, wb 0 (headers_set_body e n m)) by (intros ? ?; unfold headers_set_body; wb_sec).
  unfold ngx_http_waf_reply_headers. wb_sec.
Qed.

Lemma wb_rewrite m : wb 0 (ngx_http_waf_reply_rewrite e m).
Proof.
  assert (forall m, wb 1 (rewrite_group_body m)) by (intros ?; unfold rewrite_group_body; wb1).
  assert (forall k s, wb 0 (rewrite_body_member e k s)).
  { intros k [[? ?] ?]. unfold rewrite_body_member. wb_sec. }
  assert (forall k s, wb 0 (rewrite_member e k s)).
  { intros k [[[? ?] ?] ?]. unfold rewrite_member. wb_sec. }
  unfold ngx_http_waf_reply_rewrite. wb_sec.
Qed.

Lemma wb_object_spec obj spec : wb 0 (ngx_http_waf_reply_object_spec obj spec).
Proof.
  assert (forall k s, wb 0 (object_member obj k s)) by (intros ? ?; unfold object_member; wb_sec).
  unfold ngx_http_waf_reply_object_spec. wb_sec.
Qed.

Lemma wb_action_member k s : wb 0 (action_member k s).
Proof.
  assert (forall w, wb 1 (when_body w)).
  { intros w. unfold when_body. wb1. }
  pose proof wb_object_spec. unfold action_member. wb_sec.
Qed.

Lemma wb_actions index m : wb 0 (ngx_http_waf_reply_actions e index m).
Proof.
  assert (forall m, wb 1 (action_body e index m)).
  { intros m'. unfold action_body. apply (wb_bind 0 1); [apply wb_pget| |lia]. intros begin.
    pose proof wb_action_member. wb1. }
  unfold ngx_http_waf_reply_actions. wb_sec.
Qed.

Lemma wb_cookies m : wb 0 (ngx_http_waf_reply_cookies m).
Proof.
  assert (forall k c, wb 0 (cookie_member k c)) by (intros ? ?; unfold cookie_member; wb_sec).
  assert (forall m, wb 1 (cookie_body m)) by (intros ?; unfold cookie_body; wb1).
  unfold ngx_http_waf_reply_cookies. wb_sec.
Qed.

Lemma wb_sessions m : wb 0 (ngx_http_waf_reply_sessions m).
Proof.
  assert (forall g, wb 1 (session_group_body g)) by (intros ?; unfold session_group_body; wb1).
  assert (forall k c, wb 0 (session_member k c)) by (intros ? ?; unfold session_member, text_field; wb_sec).
  assert (forall m, wb 1 (session_body m)).
  { intros ?; unfold session_body. apply (wb_bind 0 1); [apply wb_pguard| |lia]. intros _. wb1. }
  unfold ngx_http_waf_reply_sessions. wb_sec.
Qed.

Lemma wb_resume index s ttl c : wb 0 (ngx_http_waf_reply_resume e index s ttl c).
Proof. unfold ngx_http_waf_reply_resume, ngx_http_waf_resume_keep. wb_sec. Qed.

Lemma wb_reply_parser index cont : wb 0 (reply_parser e index cont).
Proof.
  pose proof wb_reason. pose proof wb_response. pose proof wb_redirect. pose proof wb_headers.
  pose proof wb_args. pose proof wb_rewrite. pose proof wb_continue. pose proof wb_cookies.
  pose proof wb_sessions. pose proof wb_actions. pose proof wb_resume.
  assert (forall f s, (forall m, wb 0 (f m)) -> wb 0 (section f s)).
  { intros f s Hf. unfold section. apply wb_bind0; [apply Hf|]. intros. apply wb_ret. }
  assert (forall k s, wb 0 (reply_member e index k s)).
  { intros k s. unfold reply_member. wb_sec. }
  assert (forall s, wb 0 (reply_finish e index s cont)).
  { intros s. unfold reply_finish. wb_sec. }
  unfold reply_parser. wb_sec.
Qed.

(** * What an accepted reply has *)

Definition holds {A} (m : parser A) (Q : A -> Prop) : Prop :=
  forall p a p', m p = (ROk a, p') -> Q a.

Lemma holds_any {A} (m : parser A) : holds m (fun _ => True).
Proof. done. Qed.
Lemma holds_ret {A} (a : A) (Q : A -> Prop) : Q a -> holds (mret a) Q.
Proof. by intros Hq p a' p' [= <- <-]. Qed.
Lemma holds_perr {A} (Q : A -> Prop) : holds perr Q.
Proof. done. Qed.
Lemma holds_bind {A B} (m : parser A) (f : A -> parser B) R Q :
  holds m R -> (forall a, R a -> holds (f a) Q) -> holds (m ≫= f) Q.
Proof. intros Hm Hf p b p' Hb. apply bind_ok in Hb as (a & q & Ha & Hb). eapply Hf; [by eapply Hm|done]. Qed.
Lemma holds_bind_any {A B} (m : parser A) (f : A -> parser B) Q :
  (forall a, holds (f a) Q) -> holds (m ≫= f) Q.
Proof. intros Hf. eapply holds_bind; [apply holds_any|]. auto. Qed.
Lemma holds_weaken {A} (m : parser A) (Q R : A -> Prop) : holds m Q -> (forall a, Q a -> R a) -> holds m R.
Proof. intros Hm Hq p a p' Ha. by eapply Hq, Hm. Qed.
Lemma holds_guard b : holds (pguard b) (fun _ => b = true).
Proof. destruct b; [by apply holds_ret|done]. Qed.
Lemma holds_string_such ok : holds (string_such ok) (fun s => ok s = true).
Proof.
  apply holds_bind_any. intros s. eapply holds_bind; [apply holds_guard|]. intros ? ?. by apply holds_ret.
Qed.
Lemma holds_int_such ok : holds (int_such ok) (fun s => ok s = true).
Proof.
  apply holds_bind_any. intros s. eapply holds_bind; [apply holds_guard|]. intros ? ?. by apply holds_ret.
Qed.
Lemma holds_array_push {A} (a : option (list A)) x :
  holds (array_push a x) (fun o => o = Some (default [] a ++ [x])).
Proof.
  eapply (holds_bind _ _ (fun l => l = default [] a)).
  { destruct a; [by apply holds_ret|]. apply holds_bind_any. intros [|]; [by apply holds_ret|done]. }
  intros l ->. apply holds_bind_any. intros [|]; [by apply holds_ret|done].
Qed.

Lemma holds_members {S} (body : bytes -> S -> parser S) (I : S -> Prop) s :
  (forall key s, I s -> holds (body key s) I) -> I s -> holds (members body s) I.
Proof.
  intros Hb Hs. apply holds_bind_any. intros p. generalize (Datatypes.S (length (jp_pos p))) as f.
  intros f. revert s Hs. induction f as [|f IH]; intros s Hs; [done|]. cbn [members_loop].
  apply holds_bind_any. intros [key|]; [|by apply holds_ret].
  eapply holds_bind; [by apply Hb|]. intros s' Hs'. by apply IH.
Qed.
Lemma holds_elements {S} (body : S -> parser S) (I : S -> Prop) s :
  (forall s, I s -> holds (body s) I) -> I s -> holds (elements body s) I.
Proof.
  intros Hb Hs. apply holds_bind_any. intros p. generalize (Datatypes.S (length (jp_pos p))) as f.
  intros f. revert s Hs. induction f as [|f IH]; intros s Hs; [done|]. cbn [elements_loop].
  apply holds_bind_any. intros [|]; [|by apply holds_ret].
  eapply holds_bind; [by apply Hb|]. intros s' Hs'. by apply IH.
Qed.

Definition header_name_ok (n : bytes) : Prop :=
  ngx_http_waf_token_clean n = true /\ ngx_http_waf_header_forbidden n = false.
Definition header_ok (h : bytes * bytes) : Prop :=
  header_name_ok h.1 /\ ngx_http_waf_value_clean h.2 = true /\ zlen h.2 <= e.(e_header_value_max).
Definition arg_ok (a : bytes * bytes) : Prop :=
  ngx_http_waf_arg_clean a.1 true = true /\ ngx_http_waf_arg_clean a.2 false = true /\
  zlen a.2 <= e.(e_args_cap).
Definition cookie_ok (c : cookie_t) : Prop :=
  (c.(ck_name) = [] \/ ngx_http_waf_token_clean c.(ck_name) = true) /\
  ngx_http_waf_cookie_value_clean c.(ck_value) = true /\
  ngx_http_waf_cookie_path_clean c.(ck_path) = true /\ 0 <= c.(ck_max_age).

Definition text_ok (max : Z) (s : bytes) : Prop := ngx_http_waf_text_clean s max = true.
Record session_ok (s : session_t) : Prop := mkSessionOk {
  sok_source : text_ok NGX_HTTP_WAF_SESSION_SOURCE_MAX s.(ss_source);
  sok_kind : text_ok NGX_HTTP_WAF_SESSION_KIND_MAX s.(ss_kind);
  sok_user : text_ok NGX_HTTP_WAF_SESSION_USER_MAX s.(ss_user);
  sok_id : text_ok NGX_HTTP_WAF_SESSION_ID_MAX s.(ss_id);
  sok_groups : zlen s.(ss_groups) <= NGX_HTTP_WAF_SESSION_GROUPS_MAX;
  sok_issued : 0 <= s.(ss_issued);
  sok_expires : 0 <= s.(ss_expires)
}.

(** The fields of an action on their own. *)
Record action_part (index : Z) (a : action_t) : Prop := mkActionPart {
  aok_from : a.(a_from) = index;
  aok_to : a.(a_to) = NGX_HTTP_WAF_ACTION_ALL;
  aok_code : a.(a_code) = [] \/ ngx_http_waf_code_clean a.(a_code) = true;
  aok_counter : a.(a_counter) = [] \/ ngx_http_waf_counter_clean a.(a_counter) = true;
  aok_group : a.(a_group) = [] \/ ngx_http_waf_counter_clean a.(a_group) = true;
  aok_marker : a.(a_marker) = [] \/ ngx_http_waf_marker_clean a.(a_marker) = true;
  aok_delta : forall d, a.(a_delta) = Some d -> - NGX_HTTP_WAF_DELTA_MAX <= d <= NGX_HTTP_WAF_DELTA_MAX;
  aok_value : - NGX_HTTP_WAF_VALUE_MAX <= a.(a_value) <= NGX_HTTP_WAF_VALUE_MAX;
  aok_ttl : forall t, a.(a_spec).(o_ttl) = Some t -> 0 <= t <= NGX_HTTP_WAF_ACTION_TTL_MAX
}.

(** An accepted action: its fields, the checks of their combination with the
    addressee [to] it named, and the inspector that name stands for. *)
Definition action_wf (index : Z) (a : action_t) : Prop :=
  exists a0 to, action_part index a0 /\ action_ok e (mkActSt a0 to true true) = true /\
    ((to = [] /\ a = a0) \/
     (exists dst, to <> [] /\ 0 <= dst < zlen e.(e_inspectors) /\
        (aget (mkInspector [] [] [] 0 false 0 0 0) e.(e_inspectors) dst).(in_name) = to /\
        a = a0 <| a_to := dst |>)).

Definition array {A} (o : option (list A)) : list A := default [] o.

Record msg_wf (index : Z) (m : msg_t) : Prop := mkMsgWf {
  w_score : -1 <= m.(m_score) <= NGX_HTTP_WAF_SCORE_MAX;
  w_retry : 0 <= m.(m_reason_retry) <= NGX_HTTP_WAF_DENY_RETRY_MAX;
  w_response : m.(m_response_name) = [] \/ ngx_http_waf_token_clean m.(m_response_name) = true;
  w_status : m.(m_status) = 0 \/ redirect_status m.(m_status) = true;
  w_headers : Forall header_ok (array m.(m_headers_set));
  w_unset : Forall header_name_ok (array m.(m_headers_unset));
  w_args : Forall arg_ok (array m.(m_args_set));
  w_args_unset : Forall (fun n => ngx_http_waf_arg_clean n true = true) (array m.(m_args_unset));
  w_cookies : Forall cookie_ok (array m.(m_cookies));
  w_sessions : Forall session_ok (array m.(m_sessions));
  w_nsessions : zlen (array m.(m_sessions)) <= NGX_HTTP_WAF_SESSIONS_REPLY_MAX;
  w_actions : Forall (action_wf index) (array m.(m_actions));
  w_key : m.(m_rewrite_key) = [] \/
    ngx_http_waf_rewrite_key_clean e.(e_node_id) e.(e_rid_hex) e.(e_phase) e.(e_live_key) m.(m_rewrite_key) = true;
  w_size : 0 <= m.(m_rewrite_size);
  w_groups : Forall (fun g => ngx_http_waf_group_clean g = true) (array m.(m_rewrite_groups));
  w_ngroups : zlen (array m.(m_rewrite_groups)) <= NGX_HTTP_WAF_MUTATE_GROUPS_MAX;
  w_sha : length m.(m_rewrite_sha256) = 32%nat;
  w_ctype : m.(m_rewrite_content_type) = [] \/ text_ok 128 m.(m_rewrite_content_type);
  w_code : text_ok NGX_MAX_SIZE_T_VALUE m.(m_reason_code);
  w_subject : m.(m_reason_subject) = [] \/ ngx_http_waf_subject_clean m.(m_reason_subject) = true
}.

Lemma msg0_wf index : msg_wf index msg0.
Proof. constructor; cbn; try constructor; try done; unfold NGX_HTTP_WAF_DENY_RETRY_MAX; try lia. Qed.

Lemma Forall_snoc {A} (P : A -> Prop) (l : list A) x : Forall P l -> P x -> Forall P (l ++ [x]).
Proof. intros. apply Forall_app. by repeat constructor. Qed.

(** One step of a section: binds, checks and case distinctions; what is left
    is the invariant of a changed reply. *)
Ltac hstep :=
  lazymatch goal with
  | |- holds (if ?b then _ else _) _ => destruct b eqn:?
  | |- holds (match ?x with _ => _ end) _ => destruct x eqn:?
  | |- holds (mret _) _ => apply holds_ret
  | |- holds perr _ => apply holds_perr
  | |- holds (pguard _ ≫= _) _ => eapply holds_bind; [apply holds_guard|cbv beta; intros ? ?]
  | |- holds (string_such _ ≫= _) _ => eapply holds_bind; [apply holds_string_such|cbv beta; intros ? ?]
  | |- holds (int_such _ ≫= _) _ => eapply holds_bind; [apply holds_int_such|cbv beta; intros ? ?]
  | |- holds (array_push _ _ ≫= _) _ => eapply holds_bind; [apply holds_array_push|cbv beta; intros ? ->]
  | |- holds (members _ _) _ => apply holds_members; [intros ? ? ?|]
  | |- holds (elements _ _) _ => apply holds_elements; [intros ? ?|]
  | |- holds (members _ _ ≫= _) _ => fail
  | |- holds (elements _ _ ≫= _) _ => fail
  | |- holds (ngx_http_waf_reply_object_spec _ _ ≫= _) _ => fail
  | |- holds (_ ≫= _) _ => apply holds_bind_any; intros ?
  end.
Ltac hsteps := repeat hstep.
(** The redirect and the query string, and the object of a rewritten body:
    only their own sections change them. *)
Definition fra (m : msg_t) := (m.(m_redirect_url), m.(m_status), m.(m_args_set), m.(m_args_unset)).
Definition obj (m : msg_t) := (m.(m_rewrite_body), m.(m_rewrite_key), m.(m_rewrite_has)).

(** [m] comes from [m0] by other sections. *)
Definition grown (index : Z) (m0 m : msg_t) : Prop := msg_wf index m /\ fra m = fra m0 /\ obj m = obj m0.

Lemma grown_refl index m : msg_wf index m -> grown index m m.
Proof. by split. Qed.

(** The invariant of a reply in which fields changed. *)
Ltac wf_upd :=
  match goal with
  | Hm : grown _ _ ?m |- grown _ _ _ => destruct Hm as ([] & ? & ?); split; [constructor; cbn; auto|by split]
  | Hm : msg_wf _ ?m |- msg_wf _ _ => destruct Hm; constructor; cbn; auto
  end.
Ltac wf_done := repeat case_match; try done; try (by apply grown_refl); try (wf_upd; try lia).

Lemma reason_wf index m : msg_wf index m -> holds (ngx_http_waf_reply_reason m) (grown index m).
Proof. intros Hm. unfold ngx_http_waf_reply_reason. hsteps; wf_done. Qed.
Lemma response_wf index m : msg_wf index m -> holds (ngx_http_waf_reply_response m) (grown index m).
Proof. intros Hm. unfold ngx_http_waf_reply_response. hsteps; wf_done. Qed.

Lemma headers_wf index m : msg_wf index m -> holds (ngx_http_waf_reply_headers e m) (grown index m).
Proof.
  intros Hm. unfold ngx_http_waf_reply_headers, headers_set_body, headers_unset_body. hsteps; wf_done.
  - apply Forall_snoc; [done|].
    match goal with E : negb (ngx_http_waf_value_clean _) || _ = false |- _ =>
      apply orb_false_iff in E as [Hv Hl]; apply negb_false_iff in Hv end.
    split; [|cbn; split; [done|lia]]. split; cbn; [by apply negb_false_iff|done].
  - apply Forall_snoc; [done|]. split; [by apply negb_false_iff|done].
Qed.

Lemma cookies_wf index m : msg_wf index m -> holds (ngx_http_waf_reply_cookies m) (grown index m).
Proof.
  intros Hm. unfold ngx_http_waf_reply_cookies, cookie_body. hsteps; [|wf_done].
  eapply (holds_bind _ _ cookie_ok).
  - apply holds_members; [|by split_and!; [left|..]]. intros key c (H1 & H2 & H3 & H4).
    unfold cookie_member. hsteps; unfold cookie_ok; cbn; split_and!; auto; lia.
  - intros c Hc. hsteps; wf_done. by apply Forall_snoc.
Qed.

Lemma session_member_ok key s : session_ok s -> holds (session_member key s) session_ok.
Proof.
  intros Hs. unfold session_member, text_field. hsteps; try done;
    try (destruct Hs; constructor; cbn; auto; lia).
  eapply (holds_bind _ _ (fun g => zlen g <= NGX_HTTP_WAF_SESSION_GROUPS_MAX)).
  - apply holds_elements; [|by vm_compute]. intros g Hg. unfold session_group_body.
    eapply holds_bind; [apply holds_string_such|]. intros item _. hsteps. rewrite !zlen_app.
    destruct (negb _); rewrite ?zlen_cons, ?(@zlen_nil Z); lia.
  - intros g Hg. apply holds_ret. destruct Hs; constructor; cbn; auto.
Qed.

Lemma sessions_wf index m : msg_wf index m -> holds (ngx_http_waf_reply_sessions m) (grown index m).
Proof.
  intros Hm. unfold ngx_http_waf_reply_sessions, session_body. hsteps; [|wf_done].
  eapply (holds_bind _ _ session_ok).
  - apply holds_members; [intros; by apply session_member_ok|]. by constructor; cbn.
  - intros s' Hs. hsteps; [done|]. wf_upd; [by apply Forall_snoc|].
    rewrite zlen_app, zlen_cons, (@zlen_nil session_t). unfold array in *.
    match goal with Hg : match m_sessions ?x with _ => _ end = true |- _ =>
      destruct (m_sessions x); cbn in Hg |- *; [lia|by vm_compute] end.
Qed.

(** A reply that replaces the body names the object it is in, and the other
    way round, and is one that rewrites. *)
Definition object_named (m : msg_t) : Prop :=
  (m.(m_rewrite_body) = true <-> m.(m_rewrite_key) <> []) /\
  (m.(m_rewrite_body) = true -> m.(m_rewrite_has) = true).

Lemma object_named_same m m' : obj m' = obj m -> object_named m -> object_named m'.
Proof. unfold obj, object_named. by intros [= -> -> ->]. Qed.

(** What holds between the sections: a redirect address has a status with it,
    only the request phase changes the query string, and a rewritten body has
    its object. *)
Definition good (index : Z) (m : msg_t) : Prop :=
  msg_wf index m /\ (m.(m_redirect_url) <> [] -> m.(m_status) <> 0) /\
  (e.(e_phase) <> PHASE_REQUEST -> m.(m_args_set) = None /\ m.(m_args_unset) = None) /\ object_named m.

Lemma good_grown index m m' : good index m -> grown index m m' -> good index m'.
Proof.
  intros (_ & Hu & Ha & Ho) (Hw & Hf & Hk). unfold fra in Hf. injection Hf as H1 H2 H3 H4.
  split; [done|]. rewrite H1, H2, H3, H4. split_and!; [done|done|by eapply object_named_same].
Qed.

Lemma redirect_good index m : good index m -> holds (ngx_http_waf_reply_redirect m) (good index).
Proof.
  intros (Hw & Hu & Ha & Ho). unfold ngx_http_waf_reply_redirect. apply holds_bind_any. intros _.
  eapply (holds_bind _ _ (fun m' => msg_wf index m' /\ m'.(m_args_set) = m.(m_args_set) /\
                                    m'.(m_args_unset) = m.(m_args_unset) /\ obj m' = obj m)).
  - apply holds_members; [|done]. intros key m' (H1 & H2 & H3 & H4). hsteps; try done.
    + split; [destruct H1; constructor; cbn; auto|done].
    + split; [destruct H1; constructor; cbn; auto|done].
  - intros m' (H1 & H2 & H3 & H4%object_named_same); [|done]. apply holds_ret. rewrite <- H2, <- H3 in Ha.
    destruct (Z.eqb_spec (m_status m') 0).
    + split; [destruct H1; constructor; cbn; auto|]. by split; cbn; [|].
    + by split_and!.
Qed.

Lemma args_good index m : good index m -> holds (ngx_http_waf_reply_args e m) (good index).
Proof.
  intros (Hw & Hu & Ha & Ho). unfold ngx_http_waf_reply_args. apply holds_bind_any. intros _.
  eapply (holds_bind _ _ (fun m' => msg_wf index m' /\ m'.(m_redirect_url) = m.(m_redirect_url) /\
                                    m'.(m_status) = m.(m_status) /\ obj m' = obj m)).
  - apply holds_members; [|done]. intros key m' Hm'. unfold args_set_body, args_unset_body.
    assert (Hupd : forall x a u, msg_wf index x /\ x.(m_redirect_url) = m.(m_redirect_url) /\ x.(m_status) = m.(m_status) /\ obj x = obj m ->
      Forall arg_ok (array a) -> Forall (fun n => ngx_http_waf_arg_clean n true = true) (array u) ->
      let y := x <| m_args_set := a |> <| m_args_unset := u |> in
      msg_wf index y /\ y.(m_redirect_url) = m.(m_redirect_url) /\ y.(m_status) = m.(m_status) /\ obj y = obj m).
    { intros x a u (Hx & ? & ? & ?) Hs Hus. split; [destruct Hx; constructor; cbn; auto|done]. }
    hsteps; try done.
    + match goal with Hg : _ && _ && _ = true |- _ => apply andb_true_iff in Hg as [[Hn Hv]%andb_true_iff Hc] end.
      apply (Hupd s _ (m_args_unset s)); [done| |by destruct H0 as [[] _]].
      apply Forall_snoc; [by destruct H0 as [[] _]|]. split_and!; cbn; [done|done|lia].
    + apply (Hupd s (m_args_set s)); [done|by destruct H0 as [[] _]|].
      apply Forall_snoc; [by destruct H0 as [[] _]|done].
  - intros m' (H1 & H2 & H3 & H4%object_named_same); [|done]. rewrite <- H2, <- H3 in Hu.
    assert (Hcut : good index (m' <| m_args_set := None |> <| m_args_unset := None |>)).
    { split; [destruct H1; constructor; cbn; auto; constructor|]. by split. }
    assert (Hkeep : e.(e_phase) = PHASE_REQUEST -> good index m') by (by intros E; split; [|split; [|split]]).
    destruct (m_args_set m') eqn:E1, (m_args_unset m') eqn:E2; hsteps;
      try (match goal with Hb : negb (bool_decide _) = true |- _ => exact Hcut end);
      try (apply Hkeep; match goal with Hb : negb (bool_decide _) = false |- _ =>
             by apply negb_false_iff, bool_decide_eq_true in Hb end).
    by split_and!.
Qed.

Lemma sha256_hex_len n s d : sha256_hex n s = Some d -> length d = n.
Proof.
  revert s d. induction n as [|n IH]; intros s d; cbn; [by intros [= <-]|].
  destruct (ngx_hextoi (take 2 s)); [|done]. destruct (sha256_hex n (drop 2 s)) eqn:E; [|done].
  intros [= <-]. cbn. by rewrite (IH _ _ E).
Qed.

Lemma key_clean_named node rid ph live key : ngx_http_waf_rewrite_key_clean node rid ph live key = true -> key <> [].
Proof.
  assert (Hu : forall pre, key_under pre [] = None).
  { intros pre. unfold key_under. pose proof (zlen_nonneg pre). rewrite (@zlen_nil Z).
    by destruct (Z.leb_spec 0 (zlen pre)); [|lia]. }
  intros Hc ->. unfold ngx_http_waf_rewrite_key_clean in Hc. rewrite Hu in Hc.
  destruct live as [k|]; [rewrite Hu in Hc|]; by repeat case_match.
Qed.

(** Inside the section: what [has_key] and [has_size] say of the reply. *)
Definition rewriting (index : Z) (m0 m : msg_t) (hk hs : bool) : Prop :=
  msg_wf index m /\ fra m = fra m0 /\
  (if hk then m.(m_rewrite_key) <> [] else m.(m_rewrite_key) = m0.(m_rewrite_key)) /\
  (if hs then m.(m_rewrite_body) = true else m.(m_rewrite_body) = m0.(m_rewrite_body)) /\
  m.(m_rewrite_has) = m0.(m_rewrite_has).

Lemma rewrite_body_member_ok index m0 key m hk hs : rewriting index m0 m hk hs ->
  holds (rewrite_body_member e key (m, hk, hs)) (fun s => rewriting index m0 s.1.1 s.1.2 s.2).
Proof.
  intros (Hw & Hf & Hk & Hs & Hh). unfold rewrite_body_member. hsteps; try done; cbn;
    (split; [destruct Hw; constructor; cbn; auto; try lia|split_and!; cbn; try done]).
  - by eapply key_clean_named.
  - by eapply sha256_hex_len.
Qed.

Lemma rewrite_group_body_ok index m0 m hk hs : rewriting index m0 m hk hs ->
  holds (rewrite_group_body m) (fun m => rewriting index m0 m hk hs).
Proof.
  intros (Hw & Hf & Hk & Hs & Hh). unfold rewrite_group_body.
  eapply holds_bind; [apply holds_string_such|cbv beta; intros g Hg].
  eapply (holds_bind _ _ (fun l => l = default [] m.(m_rewrite_groups))).
  { destruct (m_rewrite_groups m); [by apply holds_ret|]. apply holds_bind_any. intros [|]; [by apply holds_ret|done]. }
  intros l ->. hsteps. split; [|done]. destruct Hw; constructor; cbn; auto; [by apply Forall_snoc|].
  rewrite zlen_app, zlen_cons, (@zlen_nil bytes). lia.
Qed.

(** A rewritten body has a key and a size. *)
Lemma rewrite_good index m : good index m -> holds (ngx_http_waf_reply_rewrite e m) (good index).
Proof.
  intros (Hm & Hu & Ha & Ho). unfold ngx_http_waf_reply_rewrite. apply holds_bind_any. intros _.
  eapply (holds_bind _ _ (fun s => rewriting index m s.1.1.1 s.1.2 s.2 /\
                                   (s.1.1.2 = false -> s.1.2 = false /\ s.2 = false))).
  - apply holds_members; [|by split]. intros key [[[m1 body] hk] hs] [H1 Hb]. cbn in H1, Hb. unfold rewrite_member.
    hsteps; try done.
    + eapply (holds_bind _ _ (fun s => rewriting index m s.1.1 s.1.2 s.2)); [|intros [[m2 ?] ?] H2; by apply holds_ret].
      apply holds_members; [|done]. intros key' [[m2 hk'] hs'] H2. by apply rewrite_body_member_ok.
    + cbn. split; [|done]. destruct H1 as (Hw & H1). split; [|done]. destruct Hw; constructor; cbn; auto.
      right. by match goal with Hc : _ && _ = true |- _ => apply andb_true_iff in Hc as [_ ?] end.
    + eapply (holds_bind _ _ (fun m2 => rewriting index m m2 hk hs)); [|intros m2 H2; by apply holds_ret].
      apply holds_elements; [|done]. intros m2 H2. by apply rewrite_group_body_ok.
  - intros [[[m1 body] hk] hs] [(Hw & Hf & Hk & Hs & Hh) Hb]. cbn in *. hsteps.
    unfold fra in Hf. injection Hf as H1 H2 H3 H4.
    split; [destruct Hw; constructor; cbn; auto|]. cbn. rewrite H1, H2, H3, H4. split_and!; [done|done|].
    split; cbn; [|done]. destruct body; cbn in *; [by destruct hk, hs|].
    destruct Hb as [-> ->]; [done|]. rewrite Hk, Hs. apply Ho.
Qed.

Lemma object_spec_ttl obj spec : holds (ngx_http_waf_reply_object_spec obj spec) (fun s => s.(o_ttl) = spec.(o_ttl)).
Proof.
  unfold ngx_http_waf_reply_object_spec, object_member. hsteps; try done. by case_match.
Qed.

Lemma action_member_ok index key s : action_part index s.(as_action) ->
  holds (action_member key s) (fun s => action_part index s.(as_action)).
Proof.
  intros Hs. unfold action_member, keyword_field.
  hsteps; try done; try (destruct Hs; constructor; cbn; auto; unfold in_range in *; lia).
  - destruct Hs; constructor; cbn; auto. intros d [= <-]. unfold in_range in *. lia.
  - destruct Hs; constructor; cbn; auto. intros d [= <-]. lia.
  - apply holds_bind_any. intros w. hsteps. destruct Hs; constructor; cbn; auto.
  - eapply holds_bind; [apply object_spec_ttl|]. cbv beta. intros spec Ht. apply holds_ret.
    destruct Hs; constructor; cbn; auto. by rewrite Ht.
Qed.

Lemma inspector_scan_spec name i l d : inspector_scan name i l = Some d ->
  i <= d < i + zlen l /\ (aget (mkInspector [] [] [] 0 false 0 0 0) l (d - i)).(in_name) = name.
Proof.
  revert i. induction l as [|x l IH]; intros i; cbn; [done|]. rewrite zlen_cons. pose proof (zlen_nonneg l).
  destruct (bytes_eqb (in_name x) name) eqn:E.
  - intros [= <-]. rewrite Z.sub_diag. split; [lia|]. by apply bytes_eqb_eq.
  - intros [H1 H2]%IH. split; [lia|]. rewrite <- H2. unfold aget.
    destruct (Z.ltb_spec (d - i) 0); [lia|]. destruct (Z.ltb_spec (d - (i + 1)) 0); [lia|].
    replace (Z.to_nat (d - i)) with (Datatypes.S (Z.to_nat (d - (i + 1)))) by lia. done.
Qed.

Lemma actions_wf index m : msg_wf index m -> holds (ngx_http_waf_reply_actions e index m) (grown index m).
Proof.
  intros Hm. unfold ngx_http_waf_reply_actions. hsteps; [wf_done| |wf_done]. unfold action_body. hsteps.
  eapply (holds_bind _ _ (fun s => action_part index s.(as_action))).
  - apply holds_members; [intros; by apply action_member_ok|]. by constructor; cbn; auto.
  - intros [act to v ap] Ha. cbn in Ha. eapply holds_bind; [apply holds_guard|cbv beta; intros _u Hok].
    assert (v = true /\ ap = true) as [-> ->].
    { unfold action_ok in Hok. cbn in Hok. destruct v, ap; [done|..]; by cbn in Hok. }
    assert (Hadd : forall a, action_wf index a -> grown index m
              (s <| m_actions := Some (default [] s.(m_actions) ++ [a]) |>)).
    { intros a' Hwf. wf_upd. by apply Forall_snoc. }
    hsteps; try done; cbn in *.
    + apply Hadd. exists act, to. split; [done|]. split; [done|]. left.
      destruct to; [done|]. rewrite zlen_cons in *. pose proof (zlen_nonneg to). lia.
    + apply Hadd. exists act, to. split; [done|]. split; [done|]. right. exists z.
      apply inspector_scan_spec in Heqo as [Hr Hn]. rewrite Z.sub_0_r in Hn.
      split; [by intros ->|]. split; [lia|]. done.
Qed.

Lemma reply_member_good index key s : good index s.(rs_msg) ->
  holds (reply_member e index key s) (fun s => good index s.(rs_msg)).
Proof.
  intros Hg. pose proof (proj1 Hg) as Hw.
  assert (Hsec : forall f, holds (f s.(rs_msg)) (good index) ->
            holds (section f s) (fun s => good index s.(rs_msg))).
  { intros f Hf. eapply holds_bind; [exact Hf|]. intros m' Hm'. by apply holds_ret. }
  assert (Hgrow : forall f, holds (f s.(rs_msg)) (grown index s.(rs_msg)) ->
            holds (section f s) (fun s => good index s.(rs_msg))).
  { intros f Hf. apply Hsec. eapply holds_weaken; [exact Hf|]. intros m'. by apply good_grown. }
  unfold reply_member. hsteps; try done;
    try (apply Hgrow; first [by apply reason_wf|by apply response_wf|by apply headers_wf
                            |by apply cookies_wf|by apply sessions_wf|by apply actions_wf]);
    try (apply Hsec; first [by apply redirect_good|by apply args_good|by apply rewrite_good]).
  - apply (good_grown _ _ _ Hg). split; [|done]. destruct Hw; constructor; cbn; auto. lia.
  - apply (good_grown _ _ _ Hg). split; [|done]. destruct Hw; constructor; cbn; auto.
Qed.

Lemma good0 index : good index msg0.
Proof. split; [apply msg0_wf|]. by split. Qed.

Lemma error_actions_sub (P : action_t -> Prop) a :
  Forall P (array a) -> Forall P (array (error_actions a)) /\
  Forall (fun a => ngx_http_waf_do_module a.(a_verb) = true /\ ngx_http_waf_do_score a.(a_verb) = false)
    (array (error_actions a)).
Proof.
  destruct a as [l|]; cbn; [|by split; constructor]. intros Hl.
  assert (Hf : Forall P (List.filter (fun a => ngx_http_waf_do_module (a_verb a) && negb (ngx_http_waf_do_score (a_verb a))) l) /\
    Forall (fun a => ngx_http_waf_do_module a.(a_verb) = true /\ ngx_http_waf_do_score a.(a_verb) = false)
      (List.filter (fun a => ngx_http_waf_do_module (a_verb a) && negb (ngx_http_waf_do_score (a_verb a))) l)).
  { induction Hl as [|a l Ha _ [IH1 IH2]]; cbn; [by split|].
    destruct (ngx_http_waf_do_module (a_verb a)) eqn:E1; cbn; [|done].
    destruct (ngx_http_waf_do_score (a_verb a)) eqn:E2; cbn; [done|]. by split; constructor. }
  destruct (List.filter _ l); [by split; constructor|done].
Qed.

(** What a reply with verdict [error] leaves. *)
Definition inert (m : msg_t) : Prop :=
  m.(m_reason_code) <> [] /\ m.(m_response_name) = [] /\ m.(m_rewrite_has) = false /\
  m.(m_rewrite_body) = false /\ m.(m_rewrite_groups) = None /\ m.(m_headers_set) = None /\
  m.(m_headers_unset) = None /\ m.(m_args_set) = None /\ m.(m_args_unset) = None /\ m.(m_cookies) = None /\
  Forall (fun a => ngx_http_waf_do_module a.(a_verb) = true /\ ngx_http_waf_do_score a.(a_verb) = false)
    (array m.(m_actions)).

(** The outcome of the whole message. *)
Record admissible (index : Z) (m : msg_t) : Prop := mkAdmissible {
  ad_wf : msg_wf index m;
  ad_score : 0 <= m.(m_score) /\ (m.(m_verdict) <> V_SCORE -> m.(m_score) = 0);
  ad_redirect : if m.(m_verdict) ==? V_REDIRECT then
      e.(e_phase) = PHASE_REQUEST /\ redirect_status m.(m_status) = true /\
      ngx_http_waf_url_clean m.(m_redirect_url) e.(e_header_value_max) = true /\
      ngx_http_waf_redirect_allowed e.(e_redirect_allow) m.(m_redirect_url) = true
    else m.(m_status) = 0 /\ m.(m_redirect_url) = [];
  ad_error : m.(m_verdict) = V_ERROR -> inert m;
  ad_args : e.(e_phase) <> PHASE_REQUEST -> m.(m_args_set) = None /\ m.(m_args_unset) = None;
  ad_rewrite : object_named m
}.

Lemma zlen_nonzero (s : bytes) : negb (zlen s =? 0) = true -> s <> [].
Proof. by intros Hz ->. Qed.

Lemma error_reply_admissible index m v : good index m -> m.(m_verdict) = v -> v = V_ERROR ->
  m.(m_reason_code) <> [] -> admissible index (error_reply m).
Proof.
  intros (Hw & Hu & Ha & Ho) Hv -> Hc. destruct Hw.
  destruct (error_actions_sub (action_wf index) (m_actions m)) as [Hs1 Hs2]; [done|].
  unfold error_reply. constructor; cbn.
  - constructor; cbn; auto; try constructor; try lia; try done.
  - split; [lia|done].
  - rewrite Hv. done.
  - intros _. unfold inert. cbn. by split_and!.
  - done.
  - done.
Qed.

Lemma reply_finish_admissible index s cont : good index s.(rs_msg) ->
  holds (reply_finish e index s cont) (fun r => admissible index r.1).
Proof.
  intros Hg. unfold reply_finish. hstep. hstep. destruct (rs_verdict s) as [v|]; [|apply holds_perr].
  cbv zeta. set (v' := if (v ==? V_REDIRECT) && _ then V_ALLOW else v). destruct (v' ==? V_ERROR) eqn:Heqb.
  - apply bool_decide_eq_true in Heqb. hsteps.
    apply (error_reply_admissible _ _ V_ERROR); [|exact Heqb|done|by apply zlen_nonzero].
    destruct Hg as (Hw & Hu & Ha & Ho). split; [destruct Hw; constructor; cbn; auto|done].
  - destruct Hg as (Hw & Hu & Ha & Ho). apply bool_decide_eq_false in Heqb.
    set (m := (rs_msg s) <| m_verdict := v' |>).
    eapply (holds_bind _ _ (fun m' => msg_wf index m' /\ fra m' = fra m /\ obj m' = obj m /\ m'.(m_verdict) = v' /\
        0 <= m'.(m_score) /\ (v' <> V_SCORE -> m'.(m_score) = 0))).
    { hsteps.
      - apply bool_decide_eq_true in Heqb0. split_and!; [destruct Hw; constructor; cbn; auto|done|done|done|lia|done].
      - split_and!; [destruct Hw; constructor; cbn; auto; unfold NGX_HTTP_WAF_SCORE_MAX; lia|done|done|done|done|done]. }
    intros m1 (Hw1 & Hf & Hk & Hv & Hs0 & Hs). apply object_named_same in Hk; [|done]. unfold fra in Hf. injection Hf as Hf1 Hf2 Hf3 Hf4.
    eapply (holds_bind _ _ (fun m' => admissible index m')).
    { hsteps.
      - apply bool_decide_eq_true in Heqb0. constructor; [done|by rewrite Hv| | |by rewrite Hf3, Hf4|done].
        + rewrite Hv, bool_decide_eq_true_2 by done. split_and!; [| |done|done].
          2: { destruct (w_status _ _ Hw1) as [Hst|]; [|done].
               match goal with Hz : negb (zlen (m_redirect_url _) =? 0) = true |- _ =>
                 apply zlen_nonzero in Hz; rewrite Hf1 in Hz; rewrite Hf2 in Hst; by apply Hu in Hz end. }
          unfold v' in Heqb0. destruct (decide (e_phase e = PHASE_REQUEST)); [done|].
          exfalso. rewrite (bool_decide_eq_false_2 (e_phase e = PHASE_REQUEST)) in Heqb0 by done.
          cbn in Heqb0. rewrite andb_true_r in Heqb0. case_bool_decide; done.
        + rewrite Hv. intros ->. done.
      - apply bool_decide_eq_false in Heqb0. constructor; cbn.
        + destruct Hw1; constructor; cbn; auto.
        + by rewrite Hv.
        + rewrite Hv, bool_decide_eq_false_2 by done. done.
        + rewrite Hv. intros ->. done.
        + by rewrite Hf3, Hf4.
        + done. }
    intros m2 Hm2. apply holds_bind_any. intros c. by apply holds_ret.
Qed.

(** C15: Whatever an inspector sends, the parser comes to a result, and the
    replies it accepts are admissible: the score is within 0..100 and only the
    verdict score has one; a redirect is left only on the request phase, with a
    status of 302, 303 or 307 and an address the configuration allows; a reply
    with verdict error changes nothing of the request and keeps only actions on
    the module itself; a reply that replaces the body names an object of this
    request for it, and only such a reply does; the content type of the new body
    is clean text of at most 128 bytes; every other text, list and number of the
    reply passed its check and its bound; such a reply is one the request handler
    may take in. *)
Theorem reply_admissible index payload cont mem :
  match ngx_http_waf_msg_reply e index payload cont mem with
  | ROk (m, _) => admissible index m /\ HandlerFacts.reply_ok (reply_of m) /\ index < zlen e.(e_inspectors)
  | RErr => True
  | RFuel => False
  end.
Proof.
  unfold ngx_http_waf_msg_reply. destruct (Z.leb_spec (zlen (e_inspectors e)) index); [done|].
  destruct (_ <? _); [done|].
  pose proof (wb_reply_parser index cont (ngx_http_waf_jp_init payload mem)) as Hw. unfold wb_at in Hw.
  destruct (reply_parser e index cont _) as [[[m c]| |] q] eqn:E; [|done|done]. cbn [fst].
  assert (Hh : holds (reply_parser e index cont) (fun r => admissible index r.1)).
  { unfold reply_parser. apply holds_bind_any. intros _.
    eapply holds_bind; [apply (holds_members _ (fun s => good index s.(rs_msg)))|].
    - intros key s Hs. by apply reply_member_good.
    - apply good0.
    - cbv beta. intros s Hs. apply holds_bind_any. intros _. by apply reply_finish_admissible. }
  apply Hh in E. cbn in E. split; [done|]. split; [|done].
  destruct E as [Hm [Hs _] _ _ _ _]. destruct Hm. unfold HandlerFacts.reply_ok, reply_of. cbn.
  unfold NGX_HTTP_WAF_SCORE_MAX in *. lia.
Qed.

End ReplyFacts.

(** * Where a redirect may go *)

Section Redirect.
Context `{NgxStringLaws}.

(** [path] lies under [prefix], at a boundary of a path. *)
Definition path_under (prefix path : bytes) : Prop :=
  prefix = [] \/ path = prefix \/
  exists rest c, path = prefix ++ c :: rest /\
    (aget 0 prefix (zlen prefix - 1) = 47 \/ c = 47 \/ c = 63 \/ c = 35).

Definition host_under (a : redirect_allow_t) (host : bytes) : Prop :=
  if a.(ra_wildcard) then
    exists sub h, host = sub ++ 46 :: h /\ sub <> [] /\ lowers h = lowers a.(ra_host)
  else lowers host = lowers a.(ra_host).

(** [host] is an authority of [url] without user information: it is followed
    by the path, and the port it names, if any, is [port]. *)
Definition authority (url : bytes) (prefix : string) (default_port : Z) (host : bytes) (port : Z) (path : bytes) : Prop :=
  exists scheme num, lowers scheme = lit prefix /\
    ((url = scheme ++ host ++ path /\ port = default_port) \/
     (url = scheme ++ host ++ 58 :: num ++ path /\ Forall (fun c => digit c = true) num /\
      port = dec_value num /\ 1 <= port <= 65535)) /\
    host <> [] /\ Forall (fun c => c <> 47 /\ c <> 63 /\ c <> 35 /\ c <> 64 /\ c <> 58) host /\
    match path with c :: _ => c = 47 \/ c = 63 \/ c = 35 | [] => True end.

Lemma prefix_bounded_spec s prefix : ngx_http_waf_prefix_bounded s prefix = true -> path_under prefix s.
Proof.
  unfold ngx_http_waf_prefix_bounded, path_under. destruct (Z.eqb_spec (zlen prefix) 0) as [Hz|Hz].
  { left. destruct prefix as [|x pre]; [done|]. rewrite zlen_cons in Hz. pose proof (zlen_nonneg pre). lia. }
  destruct (Z.ltb_spec (zlen s) (zlen prefix)); [done|]. cbn [orb].
  destruct (bytes_eqb (take (length prefix) s) prefix) eqn:E; cbn [negb]; [|done].
  apply bytes_eqb_eq in E. assert (Hs : s = prefix ++ drop (length prefix) s) by (by rewrite <- E at 1; rewrite take_drop).
  destruct (drop (length prefix) s) as [|c rest] eqn:Ed.
  { rewrite app_nil_r in Hs. intros _. tauto. }
  assert (Hlen : zlen s = zlen prefix + zlen (c :: rest)) by (rewrite Hs at 1; apply zlen_app).
  rewrite zlen_cons in Hlen. pose proof (zlen_nonneg rest).
  destruct (Z.eqb_spec (zlen s) (zlen prefix)); [lia|]. intros Hc. right; right. exists rest, c. split; [done|].
  assert (Hget : aget 0 s (zlen prefix) = c).
  { rewrite Hs. unfold aget, zlen. rewrite Nat2Z.id. destruct (Z.ltb_spec (Z.of_nat (length prefix)) 0); [lia|].
    by rewrite app_nth2, Nat.sub_diag by lia. }
  destruct (Z.eqb_spec (aget 0 prefix (zlen prefix - 1)) 47); [tauto|]. rewrite Hget in Hc. right. lia.
Qed.

Lemma host_matches_spec a host : ngx_http_waf_host_matches a host = true -> host_under a host.
Proof.
  unfold ngx_http_waf_host_matches, host_under. destruct (ra_wildcard a); cbn [negb].
  - destruct (Z.leb_spec (zlen host) (zlen (ra_host a) + 1)) as [|Hlt]; [done|].
    intros [Hd Hc]%andb_true_iff. unfold zlen in *.
    set (n := (length host - length (ra_host a))%nat) in *.
    apply ngx_strncasecmp_spec in Hc; [|done|rewrite length_drop; lia].
    rewrite (take_ge (ra_host a)), (take_ge (drop n host)) in Hc by (rewrite ?length_drop; lia).
    apply Z.eqb_eq in Hd. unfold aget in Hd. destruct (Z.ltb_spec (Z.of_nat n - 1) 0); [lia|].
    replace (Z.to_nat (Z.of_nat n - 1)) with (n - 1)%nat in Hd by lia.
    exists (take (n - 1) host), (drop n host). split; [|split; [|done]].
    + rewrite <- (take_drop (n - 1) host) at 1. f_equal.
      destruct (drop (n - 1) host) as [|c r] eqn:Ed.
      { apply (f_equal length) in Ed. rewrite length_drop in Ed. cbn in Ed. lia. }
      assert (c = 46) as ->.
      { assert (nth 0 (drop (n - 1) host) 0 = 46); [|rewrite Ed in *; done].
        rewrite <- Hd. rewrite (nth_lookup (drop _ _)), lookup_drop, nth_lookup. by rewrite Nat.add_0_r. }
      f_equal. replace n with (S (n - 1))%nat by lia. rewrite <- Nat.add_1_r, <- drop_drop, Ed. done.
    + intros Hn. apply (f_equal length) in Hn. rewrite length_take in Hn. cbn in Hn. lia.
  - intros [Hl Hc]%andb_true_iff. apply Nat.eqb_eq in Hl.
    apply ngx_strncasecmp_spec in Hc; [|lia|lia].
    by rewrite (take_ge (ra_host a)), (take_ge host) in Hc by lia.
Qed.

Lemma host_scan_spec p h rest : host_scan p = Some (h, rest) ->
  p = h ++ rest /\ Forall (fun c => c <> 47 /\ c <> 63 /\ c <> 35 /\ c <> 64) h /\
  match rest with c :: _ => c = 47 \/ c = 63 \/ c = 35 | [] => True end.
Proof.
  revert h. induction p as [|c p IH]; intros h; cbn; [by intros [= <- <-]|].
  destruct ((c =? 47) || (c =? 63) || (c =? 35)) eqn:E1; [intros [= <- <-]; split_and!; [done|done|lia]|].
  destruct (c =? 64) eqn:E2; [done|]. destruct (host_scan p) as [[h' r']|] eqn:E; [|done].
  intros [= <- <-]. destruct (IH _ eq_refl) as (-> & Hf & Hr). split_and!; [done| |done].
  constructor; [lia|done].
Qed.

Lemma cut_at_spec x s a b : cut_at x s = Some (a, b) -> s = a ++ x :: b /\ Forall (fun c => c <> x) a.
Proof.
  revert a. induction s as [|c s IH]; intros a; cbn; [done|].
  destruct (Z.eqb_spec c x) as [->|]; [intros [= <- <-]; by split|].
  destruct (cut_at x s) as [[a' b']|] eqn:E; [|done]. intros [= <- <-].
  destruct (IH _ eq_refl) as [-> Hf]. split; [done|by constructor].
Qed.
Lemma cut_at_none x s : cut_at x s = None -> Forall (fun c => c <> x) s.
Proof.
  induction s as [|c s IH]; cbn; [by constructor|]. destruct (Z.eqb_spec c x); [done|].
  destruct (cut_at x s) as [[a b]|]; [done|]. constructor; auto.
Qed.

Lemma url_authority_spec scheme text prefix dport p u :
  lowers text = lit prefix -> url_authority scheme dport p = Some u ->
  exists path, u.(u_scheme) = scheme /\ authority (text ++ p) prefix dport u.(u_host) u.(u_port) path /\
    u.(u_path) = match path with [] => lit "/" | _ => path end.
Proof.
  intros Ht. unfold url_authority. destruct (host_scan p) as [[h rest]|] eqn:Es; [|done].
  cbn [mbind option_bind]. apply host_scan_spec in Es as (-> & Hf & Hr).
  destruct ((zlen h =? 0) || (aget 0 h 0 =? 91)) eqn:Hb; [done|].
  apply orb_false_iff in Hb as [Hne%Z.eqb_neq _].
  unfold host_port. destruct (cut_at 58 h) as [[name num]|] eqn:Ec.
  - destruct (ngx_atoi num) as [n|] eqn:En; [|done].
    destruct ((n <? 1) || (65535 <? n)) eqn:Er; [done|].
    destruct (Z.eqb_spec (zlen name) 0) as [|Hn0]; [done|]. intros [= <-]. exists rest. split; [done|]. split; [|done].
    apply cut_at_spec in Ec as [-> Hcol]. apply ngx_atoi_spec in En as (Hd & Hnn & ->).
    apply Forall_app in Hf as [Hf _]. exists text, num. split; [done|]. split; [|split; [|split; [|done]]].
    + right. cbn. rewrite <- app_assoc. cbn. split_and!; [done|done|done|lia|lia].
    + cbn. intros ->. done.
    + cbn. clear -Hf Hcol. induction Hf; [constructor|]. inversion_clear Hcol. constructor; [tauto|auto].
  - intros [= <-]. exists rest. split; [done|]. split; [|done]. apply cut_at_none in Ec.
    exists text, []. split; [done|]. split; [by left|]. split; [by cbn; intros ->|]. split; [|done].
    cbn. clear -Hf Ec. induction Hf; [constructor|]. inversion_clear Ec. constructor; [tauto|auto].
Qed.

Lemma url_parse_spec url u : ngx_http_waf_url_parse url = Some u ->
  (u.(u_scheme) = [] /\ u.(u_path) = url /\ exists rest, url = 47 :: rest /\ head rest <> Some 47) \/
  (exists prefix dport path, (u.(u_scheme) = lit "http" /\ prefix = "http://"%string /\ dport = 80 \/
                          u.(u_scheme) = lit "https" /\ prefix = "https://"%string /\ dport = 443) /\
     authority url prefix dport u.(u_host) u.(u_port) path /\
     u.(u_path) = match path with [] => lit "/" | _ => path end).
Proof.
  unfold ngx_http_waf_url_parse. destruct url as [|c url]; [done|].
  destruct (Z.eqb_spec c 47) as [->|].
  { case_bool_decide as Hh; [done|]. intros [= <-]. left. split_and!; [done|done|eauto]. }
  set (full := c :: url). intros Hp. right.
  assert (Hs : forall pre k, length (lit pre) = k -> (Z.of_nat k <? zlen full) = true ->
            lowers (lit pre) = lit pre -> ngx_strncasecmp_eq full (lit pre) k = true ->
            lowers (take k full) = lit pre).
  { intros pre k Hl Hn Hp' Hc. apply ngx_strncasecmp_spec in Hc; [|unfold zlen in *; lia|lia].
    rewrite (take_ge (lit pre)) in Hc by lia. by rewrite Hc. }
  destruct ((7 <? zlen full) && ngx_strncasecmp_eq full (lit "http://") 7) eqn:E1.
  - apply andb_true_iff in E1 as [En Ec]. pose proof (Hs "http://"%string 7%nat eq_refl En eq_refl Ec) as Hl.
    apply (url_authority_spec _ (take 7 full) "http://") in Hp as (path & H1 & H2 & H3); [|done].
    rewrite take_drop in H2. exists "http://"%string, 80, path. by split_and!; [left| |].
  - destruct ((8 <? zlen full) && ngx_strncasecmp_eq full (lit "https://") 8) eqn:E2; [|done].
    apply andb_true_iff in E2 as [En Ec]. pose proof (Hs "https://"%string 8%nat eq_refl En eq_refl Ec) as Hl.
    apply (url_authority_spec _ (take 8 full) "https://") in Hp as (path & H1 & H2 & H3); [|done].
    rewrite take_drop in H2. exists "https://"%string, 443, path. by split_and!; [right| |].
Qed.

(** C16: An address that [ngx_http_waf_redirect_allowed] lets through is one of
    two kinds: a path of this site, never a scheme-relative address, under the
    path of a pattern without scheme; or an http or https address without user
    information whose scheme, port and host are those of a pattern, the host
    itself or with a wildcard a name below it, with a path under the pattern's
    that ends at a boundary. *)
Theorem redirect_stays_allowed allow url :
  ngx_http_waf_redirect_allowed allow url = true ->
  exists l a, allow = Some l /\ a ∈ l /\
    ((a.(ra_scheme) = [] /\ path_under a.(ra_path) url /\ exists rest, url = 47 :: rest /\ head rest <> Some 47) \/
     (exists pre dport host path,
        (a.(ra_scheme) = lit "http" /\ pre = "http://"%string /\ dport = 80 \/
         a.(ra_scheme) = lit "https" /\ pre = "https://"%string /\ dport = 443) /\
        authority url pre dport host a.(ra_port) path /\ host_under a host /\
        path_under a.(ra_path) (match path with [] => lit "/" | _ => path end))).
Proof.
  unfold ngx_http_waf_redirect_allowed. destruct allow as [l|]; [|done].
  destruct (ngx_http_waf_url_parse url) as [u|] eqn:Eu; [|done].
  intros (a & Hin & Ha)%existsb_exists. exists l, a. split; [done|]. split; [by apply list_elem_of_In|].
  unfold allow_matches in Ha. destruct (xorb _ _) eqn:Ex; [done|].
  destruct (negb _ && _) eqn:Em; [done|]. apply prefix_bounded_spec in Ha.
  apply url_parse_spec in Eu as [(Hs & Hp & Hr)|(pre & dport & path & Hs & Hau & Hp)].
  - left. rewrite Hs in Ex. rewrite Hp in Ha. split; [|done].
    destruct (ra_scheme a) as [|x sc]; [done|]. rewrite zlen_cons in Ex. pose proof (zlen_nonneg sc).
    destruct (Z.eqb_spec (1 + zlen sc) 0); [lia|done].
  - right. exists pre, dport, (u_host u), path.
    assert (Hnz : (zlen (u_scheme u) =? 0) = false) by (by destruct Hs as [(-> & _)|(-> & _)]).
    rewrite Hnz in Em. cbn [negb andb] in Em.
    apply orb_false_iff in Em as [[E1 E2]%orb_false_iff E3].
    apply negb_false_iff, bytes_eqb_eq in E1. apply negb_false_iff, Z.eqb_eq in E2.
    apply negb_false_iff in E3. rewrite E1, E2. split; [done|]. split; [done|].
    split; [by apply host_matches_spec|]. by rewrite <- Hp.
Qed.

End Redirect.

(** Reference functions with the documented behaviour of nginx's. *)
#[export] Instance ngx_string_ref : NgxString := {|
  ngx_strncasecmp_eq a b n := bool_decide (lowers (take n a) = lowers (take n b));
  ngx_atoi s := if forallb digit s && negb (zlen s =? 0) then Some (dec_value s) else None;
  ngx_hextoi s :=
    match s with
    | [a; b] => match xdigit a, xdigit b with Some x, Some y => Some (x * 16 + y) | _, _ => None end
    | _ => None
    end
|}.
#[export] Instance ngx_string_ref_laws : NgxStringLaws.
Proof.
  constructor; [| |done].
  - intros a b n _ _. cbn. by rewrite bool_decide_eq_true.
  - intros s n. cbn. destruct (forallb digit s && negb (zlen s =? 0)) eqn:E; [|done]. intros [= <-].
    apply andb_true_iff in E as [E1 E2]. rewrite forallb_forall in E1. split_and!; [|by intros ->|done].
    apply Forall_forall. intros c Hc. apply E1. by apply list_elem_of_In.
Qed.

(** A pattern for the subdomains of a site and an address below it. *)
Definition demo_allow : list redirect_allow_t :=
  [mkRedirectAllow (lit "https") (lit "example.com") (lit "/login") 443 true].
Definition demo_url : bytes := lit "HTTPS://id.Example.com/login?next=1".

Lemma redirect_stays_allowed_witness :
  exists l a, Some demo_allow = Some l /\ a ∈ l /\
    ((a.(ra_scheme) = [] /\ path_under a.(ra_path) demo_url /\ exists rest, demo_url = 47 :: rest /\ head rest <> Some 47) \/
     (exists pre dport host path,
        (a.(ra_scheme) = lit "http" /\ pre = "http://"%string /\ dport = 80 \/
         a.(ra_scheme) = lit "https" /\ pre = "https://"%string /\ dport = 443) /\
        authority demo_url pre dport host a.(ra_port) path /\ host_under a host /\
        path_under a.(ra_path) (match path with [] => lit "/" | _ => path end))).
Proof. apply (redirect_stays_allowed (Some demo_allow) demo_url). by vm_compute. Defined.

(** A message with single quotes for double ones. *)
Definition json_lit (s : string) : bytes := map (fun c => if c =? 39 then 34 else c) (lit s).

Definition demo_env : env_t (cond := unit) :=
  mkEnv [mkInspector (lit "bot") (lit "waf.bot") [] 0 false 0 0 0] 4096 1024 (lit "n1")
    (mkLocConf true false (fun _ => None) (fun _ => None) (fun _ => 0) (fun _ _ => POLICY_PASS)
       (fun _ _ => []) (fun _ => DENY_FAST) (fun _ => 0) (fun _ => mkShoot 0 0) 8)
    1024 (Some demo_allow) 4096 PHASE_REQUEST (lit "0123456789abcdef") None 0.

(** Replies are accepted, and refused, as written. *)
Example reply_accepted :
  match ngx_http_waf_msg_reply demo_env 0
          (json_lit "{'v':2,'rid':'0123456789abcdef','inspector':'bot','verdict':'redirect','redirect':{'url':'https://a.example.com/login'},'headers':{'set':{'X-Bot':'1','Host':'evil'}},'actions':[{'do':'mark','apply':'request','marker':'seen'}]}")
          None [] with
  | ROk (m, _) => (m.(m_verdict), m.(m_status), m.(m_headers_set), a_marker <$> array m.(m_actions))
  | _ => (V_ERROR, 0, None, [])
  end = (V_REDIRECT, 303, Some [(lit "X-Bot", lit "1")], [lit "seen"]).
Proof. by vm_compute. Qed.
Example reply_refused :
  ngx_http_waf_msg_reply demo_env 0 (json_lit "{'v':2,'verdict':'redirect','redirect':{'url':'https://example.com.evil/login'}}") None [] = RErr.
Proof. by vm_compute. Qed.

End ReplyFacts.
