(* ===== verification/WsFrame.v ===== *)
(** The WebSocket frames of one direction of a connection
    (stream/ngx_http_waf_frame.c): the buffer the bytes arrive in, the parser
    that walks over the frames in place, the reassembly of fragmented
    messages, the limit on control frames and the modes of a direction.

    A buffer is the memory from [in->start] on; [d_size] is [end - start] and
    the pointers of the C code are offsets.  The list [d_mem] may be longer
    than [d_size]: a write past [end] changes the bytes that lie there.  Log
    lines and the flags that print a warning once are left out. *)
From S2P Require Import Prelude Types.
#[local] Open Scope Z_scope.

Module WsFrame.

Definition NGX_HTTP_WAF_WS_HEADER_MAX : Z := 14.
Definition NGX_HTTP_WAF_WS_CONTROL_MAX : Z := 125.
Definition NGX_HTTP_WAF_WS_REASON_MAX : Z := 123.
Definition NGX_HTTP_WAF_WS_OP_CONT : Z := 0.
Definition NGX_HTTP_WAF_WS_OP_TEXT : Z := 1.
Definition NGX_HTTP_WAF_WS_OP_BINARY : Z := 2.
Definition NGX_HTTP_WAF_WS_OP_CLOSE : Z := 8.
Definition NGX_HTTP_WAF_WS_OP_PING : Z := 9.
Definition NGX_HTTP_WAF_WS_OP_PONG : Z := 10.
Definition NGX_HTTP_WAF_WS_CLOSE_PROTOCOL : Z := 1002.
Definition NGX_HTTP_WAF_WS_CLOSE_POLICY : Z := 1008.
Definition NGX_HTTP_WAF_WS_CLOSE_TOO_BIG : Z := 1009.
Definition NGX_HTTP_WAF_WS_CLOSE_INTERNAL : Z := 1011.
Definition NGX_HTTP_WAF_FRAME_BUF_MIN : Z := 4096.
Definition NGX_HTTP_WAF_FRAME_PASS_BUF : Z := 16384.
Definition NGX_HTTP_WAF_FRAME_SLACK : Z := 8.

(** ** Memory *)

(** The [n] bytes at offset [a], and writing [s] there. *)
Definition slice (m : bytes) (a n : Z) : bytes := take (Z.to_nat n) (drop (Z.to_nat a) m).
Definition store (m : bytes) (a : Z) (s : bytes) : bytes :=
  take (Z.to_nat a) m ++ s ++ drop (Z.to_nat (a + zlen s)) m.
Definition memmove (m : bytes) (dst src n : Z) : bytes := store m dst (slice m src n).

(** ** Modes of a direction *)

Inductive fmode := FRAME_INSPECT | FRAME_JOURNAL | FRAME_PASS.
#[export] Instance fmode_eq_dec : EqDecision fmode.
Proof. solve_decision. Defined.

Inductive audit_frames_e := AUDIT_FRAMES_OFF | AUDIT_FRAMES_DENY | AUDIT_FRAMES_ALL.
#[export] Instance audit_frames_e_eq_dec : EqDecision audit_frames_e.
Proof. solve_decision. Defined.

(** What the code reads of the location. *)
Record fconf := mkFconf {
  wc_enable : bool;
  wc_inspected : phase_e -> bool;
  wc_body_limit : phase_e -> Z;
  wc_body_limit_policy : phase_e -> policy_e;
  wc_reassemble : bool;
  wc_control_rate : Z;
  wc_audit_frames : audit_frames_e;
  wc_audit_frames_sample : Z;
  wc_cache_ttl : phase_e -> Z;
  wc_send_store : phase_e -> bool;
  wc_exception_body : phase_e -> policy_e;
  wc_audit_enabled : bool
}.

Definition ngx_http_waf_frame_wanted (cf : fconf) : bool :=
  if cf.(wc_inspected) PHASE_FRAME_C2S || cf.(wc_inspected) PHASE_FRAME_S2C then true
  else cf.(wc_enable) && negb (cf.(wc_audit_frames) ==? AUDIT_FRAMES_OFF) && cf.(wc_audit_enabled).

(** [ovr] is [ctx->audit_ovr[NGX_HTTP_WAF_OVR_REQUEST].audit.set]. *)
Definition ngx_http_waf_frame_mode (cf : fconf) (ovr : set_e) (phase : phase_e) : fmode :=
  if cf.(wc_inspected) phase then FRAME_INSPECT
  else if negb cf.(wc_audit_enabled) || (cf.(wc_audit_frames) ==? AUDIT_FRAMES_OFF) then FRAME_PASS
  else if (cf.(wc_audit_frames) ==? AUDIT_FRAMES_ALL) || (ovr ==? SET_ON) then FRAME_JOURNAL
  else FRAME_PASS.

(** ** One direction *)

(** An output buffer: its memory, [pos] and [last]. *)
Record obuf := mkObuf { o_mem : bytes; o_pos : Z; o_last : Z }.
#[export] Instance eta_obuf : Eta obuf := fun r => mkObuf r.(o_mem) r.(o_pos) r.(o_last).

Record dir_t := mkDir {
  d_phase : phase_e;
  d_mode : fmode;
  d_mem : bytes;
  d_size : Z;
  d_pos : Z;
  d_last : Z;
  d_cleared : Z;
  d_held : Z;
  d_skip : Z;
  d_drop : Z;
  d_out : option obuf;
  d_seq : Z;
  d_inspected : Z;
  d_denied : Z;
  d_rewritten : Z;
  d_bytes : Z;
  d_opcode : Z;
  d_mask : bytes;
  d_fin : bool;
  d_masked : bool;
  d_held_seq : Z;
  d_fragments : Z;
  d_msg : bool;
  d_msg_skip : bool;
  d_msg_opcode : Z;
  d_msg_hlen : Z;
  d_msg_len : Z;
  d_msg_fragments : Z;
  d_msg_seq : Z;
  d_msg_key : bytes;
  d_reassembled : Z;
  d_ctrl_tokens : Z;
  d_ctrl_last : Z;
  d_ctrl_dropped : Z;
  d_cached : Z
}.
#[export] Instance eta_dir_t : Eta dir_t := fun r =>
  mkDir r.(d_phase) r.(d_mode) r.(d_mem) r.(d_size) r.(d_pos) r.(d_last) r.(d_cleared) r.(d_held)
    r.(d_skip) r.(d_drop) r.(d_out) r.(d_seq) r.(d_inspected) r.(d_denied) r.(d_rewritten)
    r.(d_bytes) r.(d_opcode) r.(d_mask) r.(d_fin) r.(d_masked) r.(d_held_seq) r.(d_fragments)
    r.(d_msg) r.(d_msg_skip) r.(d_msg_opcode) r.(d_msg_hlen) r.(d_msg_len) r.(d_msg_fragments)
    r.(d_msg_seq) r.(d_msg_key) r.(d_reassembled) r.(d_ctrl_tokens) r.(d_ctrl_last)
    r.(d_ctrl_dropped) r.(d_cached).

(** A direction zeroed with the connection. *)
Definition dir0 : dir_t :=
  mkDir PHASE_REQUEST FRAME_INSPECT [] 0 0 0 0 0 0 0 None 0 0 0 0 0 0 [0; 0; 0; 0] false false 0 0
    false false 0 0 0 0 0 [0; 0; 0; 0] 0 0 0 0 0.

(** [x++] on a [uint64_t]. *)
Definition inc (x : Z) : Z := u64 (x + 1).

(** The size of the buffer: room for the largest message, its header, the
    header of the fragment that follows and the slack. *)
Definition frame_buf_size (cf : fconf) (phase : phase_e) (mode : fmode) (rest : Z) : Z :=
  let size := if mode ==? FRAME_PASS
              then Z.max NGX_HTTP_WAF_FRAME_PASS_BUF (rest + NGX_HTTP_WAF_FRAME_SLACK)
              else u64 (cf.(wc_body_limit) phase + 2 * NGX_HTTP_WAF_WS_HEADER_MAX
                        + NGX_HTTP_WAF_FRAME_SLACK) in
  if size <? NGX_HTTP_WAF_FRAME_BUF_MIN then NGX_HTTP_WAF_FRAME_BUF_MIN else size.

(** [seed] holds the bytes that came with the handshake, [fresh] is the memory
    that was allocated, [None] when there was none.  The seed is copied over
    the start of it. *)
Definition ngx_http_waf_frame_dir_init (cf : fconf) (fresh : option bytes) (phase : phase_e)
    (mode : fmode) (seed : bytes) (d : dir_t) : ngx_rc * dir_t :=
  let size := frame_buf_size cf phase mode (zlen seed) in
  let d := d <| d_phase := phase |> <| d_mode := mode |> in
  match fresh with
  | None => (NGX_ERROR, d)
  | Some mem =>
      let d := d <| d_mem := mem |> <| d_size := size |> <| d_pos := 0 |> <| d_last := 0 |>
                 <| d_cleared := 0 |> in
      if negb (zlen seed =? 0) then
        if size <? zlen seed then (NGX_ERROR, d)
        else (NGX_OK, d <| d_mem := store mem 0 seed |> <| d_last := zlen seed |>)
      else (NGX_OK, d)
  end.

(** ** Control frames *)

Definition ngx_http_waf_frame_ctrl_allowed (cf : fconf) (now : Z) (d : dir_t) : bool * dir_t :=
  let rate := cf.(wc_control_rate) in
  if rate =? 0 then (true, d)
  else
    let d :=
      if d.(d_ctrl_last) =? 0 then d <| d_ctrl_tokens := rate |> <| d_ctrl_last := now |>
      else
        let ms := msec_diff now d.(d_ctrl_last) in
        let add := if 0 <? ms then u64 (rate * ms) / 1000 else 0 in
        if negb (add =? 0)
        then d <| d_ctrl_tokens := Z.min (u64 (d.(d_ctrl_tokens) + add)) rate |> <| d_ctrl_last := now |>
        else d in
    if 1000 <=? d.(d_ctrl_tokens) then (true, d <| d_ctrl_tokens ::= fun t => t - 1000 |>)
    else (false, d <| d_ctrl_dropped ::= inc |>).

(** [ngx_http_waf_frame_cut]: the [len] bytes at [p] leave the buffer. *)
Definition ngx_http_waf_frame_cut (p len : Z) (d : dir_t) : dir_t :=
  let tail := d.(d_last) - (p + len) in
  let d := if negb (tail =? 0) then d <| d_mem := memmove d.(d_mem) p (p + len) tail |> else d in
  d <| d_last ::= fun l => l - len |>.

(** [ngx_http_waf_frame_hoist]: the [len] bytes at [p] move before the held
    message. *)
Definition ngx_http_waf_frame_hoist (p len : Z) (d : dir_t) : dir_t :=
  let hold := p - d.(d_cleared) in
  let ctrl := slice d.(d_mem) p len in
  let m := memmove d.(d_mem) (d.(d_cleared) + len) d.(d_cleared) hold in
  d <| d_mem := store m d.(d_cleared) ctrl |>.

(** ** Reassembly *)

(** The loop that unmasks a fragment and masks it again with the key of the
    message, in place. *)
Definition remask (dst src : Z) (key msg_key : bytes) (off n : Z) (m : bytes) : bytes :=
  for_range n (fun i m =>
    aset m (dst + i) (Z.lxor (Z.lxor (aget 0 m (src + i)) (aget 0 key (Z.land i 3)))
                             (aget 0 msg_key (Z.land (off + i) 3)))) m.

Definition ngx_http_waf_frame_msg_append (p hlen plen : Z) (d : dir_t) : dir_t :=
  let dst := p in
  let src := p + hlen in
  let d := if d.(d_masked)
           then let key := slice d.(d_mem) (p + hlen - 4) 4 in
                d <| d_mem := remask dst src key d.(d_msg_key) d.(d_msg_len) plen d.(d_mem) |>
           else if negb (plen =? 0) then d <| d_mem := memmove d.(d_mem) dst src plen |> else d in
  let tail := d.(d_last) - (src + plen) in
  let d := if negb (tail =? 0) then d <| d_mem := memmove d.(d_mem) (dst + plen) (src + plen) tail |>
           else d in
  d <| d_last ::= fun l => l - hlen |>
    <| d_msg_len ::= fun l => l + plen |> <| d_msg_fragments ::= fun n => n + 1 |>.

Definition header_len (len : Z) (masked : bool) : Z :=
  2 + (if len <? 126 then 0 else if len <=? 65535 then 2 else 8) + (if masked then 4 else 0).

(** The bytes of a header: the first byte, the length and the key. *)
Definition header_bytes (b0 len : Z) (key : option bytes) : bytes :=
  let m := match key with Some _ => 128 | None => 0 end in
  [u8 b0]
  ++ (if len <? 126 then [Z.lor (u8 len) m]
      else if len <=? 65535 then [Z.lor 126 m; u8 (Z.shiftr len 8); u8 (Z.land len 255)]
      else Z.lor 127 m :: map (fun i => u8 (Z.land (Z.shiftr len (8 * (7 - i))) 255)) [0; 1; 2; 3; 4; 5; 6; 7])
  ++ default [] key.

Definition ngx_http_waf_frame_msg_seal (fin : bool) (d : dir_t) : Z * dir_t :=
  let len := d.(d_msg_len) in
  let hlen := header_len len d.(d_masked) in
  let payload := d.(d_cleared) + d.(d_msg_hlen) in
  let d := if negb (hlen =? d.(d_msg_hlen)) then
             let tail := d.(d_last) - payload in
             d <| d_mem := memmove d.(d_mem) (d.(d_cleared) + hlen) payload tail |>
               <| d_last := d.(d_last) - d.(d_msg_hlen) + hlen |>
           else d in
  let h := header_bytes (Z.lor (if fin then 128 else 0) d.(d_msg_opcode)) len
             (if d.(d_masked) then Some d.(d_msg_key) else None) in
  (hlen, d <| d_mem := store d.(d_mem) d.(d_cleared) h |> <| d_msg := false |>).

(** ** The parser *)

Record hdr := mkHdr {
  h_fin : bool;
  h_rsv : Z;
  h_opcode : Z;
  h_masked : bool;
  h_hlen : Z;
  h_plen : Z
}.

(** The length of a header from its second byte. *)
Definition hdr_len (b1 : Z) : Z :=
  let plen := Z.land b1 127 in
  2 + (if plen =? 126 then 2 else if plen =? 127 then 8 else 0)
    + (if negb (Z.land b1 128 =? 0) then 4 else 0).

(** [plen] after the extended length was read; [for (i = 0; i < 8; i++)
    plen = (plen << 8) | p[2 + i]]. *)
Definition hdr_plen (m : bytes) (p b1 : Z) : Z :=
  let plen := Z.land b1 127 in
  if plen =? 126 then Z.lor (Z.shiftl (aget 0 m (p + 2)) 8) (aget 0 m (p + 3))
  else if plen =? 127 then
    for_range 8 (fun i plen => Z.lor (u64 (Z.shiftl plen 8)) (aget 0 m (p + (2 + i)))) 0
  else plen.

(** The header at [p] once [avail] bytes cover it. *)
Definition parse_header (m : bytes) (p avail : Z) : option hdr :=
  if avail <? 2 then None
  else
    let b0 := aget 0 m p in
    let b1 := aget 0 m (p + 1) in
    let hlen := hdr_len b1 in
    if avail <? hlen then None
    else Some (mkHdr (negb (Z.land b0 128 =? 0)) (Z.land b0 112) (Z.land b0 15)
                 (negb (Z.land b1 128 =? 0)) hlen (hdr_plen m p b1)).

(** How one turn of the loop ends: it waits for bytes, goes on, closes the
    connection, or hands the payload at an offset to the inspection or to the
    journal, with the mask of the payload. *)
Inductive pout :=
  | PAgain
  | PContinue
  | PClose (code : Z) (reason why : bytes)
  | PInspect (at_ len : Z) (key : option bytes)
  | PJournal (at_ len : Z) (key : option bytes).

(** [jset] is the audit override that holds for the connection. *)
Definition ngx_http_waf_frame_journal_wanted (cf : fconf) (jset : set_e) (d : dir_t) : bool :=
  if jset ==? SET_ON then true
  else if negb (cf.(wc_audit_frames) ==? AUDIT_FRAMES_ALL) || (jset ==? SET_OFF) then false
  else (cf.(wc_audit_frames_sample) <=? 1) || (d.(d_seq) mod cf.(wc_audit_frames_sample) =? 0).

(** [(off_t) (hlen + plen)]: the sum is unsigned, [skip] is signed. *)
Definition skip_of (h : hdr) : Z := s64 (u64 (h.(h_hlen) + h.(h_plen))).

Definition pass_frame (h : hdr) (d : dir_t) : pout * dir_t :=
  (PContinue, d <| d_seq ::= inc |> <| d_skip := skip_of h |>).

(** A frame that is let through uninspected gives up the held message. *)
Definition pass_uninspected (assemble : bool) (h : hdr) (d : dir_t) : pout * dir_t :=
  let d :=
    if d.(d_msg) then
      let '(hlen, d) := ngx_http_waf_frame_msg_seal false d in
      d <| d_cleared ::= fun c => c + (hlen + d.(d_msg_len)) |> <| d_msg_skip := negb h.(h_fin) |>
    else if assemble && negb h.(h_fin) && negb (h.(h_opcode) =? NGX_HTTP_WAF_WS_OP_CONT)
    then d <| d_msg_skip := true |>
    else d in
  pass_frame h d.

(** A control frame that is complete. *)
Definition control_frame (cf : fconf) (now p hold : Z) (h : hdr) (d : dir_t) : pout * dir_t :=
  let len := h.(h_hlen) + h.(h_plen) in
  let d := d <| d_seq ::= inc |> in
  let '(ok, d) := if negb (h.(h_opcode) =? NGX_HTTP_WAF_WS_OP_CLOSE)
                  then ngx_http_waf_frame_ctrl_allowed cf now d else (true, d) in
  if negb ok then (PContinue, ngx_http_waf_frame_cut p len d)
  else
    let d := if negb (hold =? 0) then ngx_http_waf_frame_hoist p len d else d in
    (PContinue, d <| d_cleared ::= fun c => c + len |>).

Definition hold_frame (h : hdr) (d : dir_t) : dir_t :=
  d <| d_held := h.(h_hlen) + h.(h_plen) |> <| d_opcode := h.(h_opcode) |> <| d_fin := h.(h_fin) |>
    <| d_fragments := 1 |> <| d_held_seq := d.(d_seq) |>.

Definition frame_key (h : hdr) (p : Z) (d : dir_t) : option bytes :=
  if h.(h_masked) then Some (slice d.(d_mem) (p + h.(h_hlen) - 4) 4) else None.

(** A data frame within the limit, without rsv bits and complete. *)
Definition data_frame (cf : fconf) (jset : set_e) (assemble : bool) (p : Z) (h : hdr) (d : dir_t)
    : pout * dir_t :=
  let hlen := h.(h_hlen) in
  let plen := h.(h_plen) in
  let d := d <| d_seq ::= inc |> in
  if d.(d_mode) ==? FRAME_JOURNAL then
    if negb (ngx_http_waf_frame_journal_wanted cf jset d)
    then (PContinue, d <| d_cleared ::= fun c => c + (hlen + plen) |>)
    else (PJournal (p + hlen) plen (frame_key h p d), hold_frame h d)
  else if assemble && negb h.(h_fin) && negb (h.(h_opcode) =? NGX_HTTP_WAF_WS_OP_CONT) then
    let d := d <| d_msg := true |> <| d_msg_opcode := h.(h_opcode) |> <| d_msg_hlen := hlen |>
               <| d_msg_len := plen |> <| d_msg_fragments := 1 |> <| d_msg_seq := d.(d_seq) |> in
    (PContinue, match frame_key h p d with Some k => d <| d_msg_key := k |> | None => d end)
  else if d.(d_msg) then
    let d := ngx_http_waf_frame_msg_append p hlen plen d in
    if negb h.(h_fin) then (PContinue, d)
    else
      let '(hlen, d) := ngx_http_waf_frame_msg_seal true d in
      let plen := d.(d_msg_len) in
      let d := d <| d_held := hlen + plen |> <| d_opcode := d.(d_msg_opcode) |> <| d_fin := true |>
                 <| d_fragments := d.(d_msg_fragments) |> <| d_held_seq := d.(d_msg_seq) |>
                 <| d_reassembled ::= inc |> in
      (PInspect (d.(d_cleared) + hlen) plen (if h.(h_masked) then Some d.(d_msg_key) else None), d)
  else (PInspect (p + hlen) plen (frame_key h p d), hold_frame h d).

(** What a fragment means to the message that is being put together. *)
Definition fragment_check (assemble : bool) (h : hdr) (d : dir_t) : option (pout * dir_t) :=
  if assemble && (h.(h_opcode) =? NGX_HTTP_WAF_WS_OP_CONT) then
    if d.(d_msg_skip) then
      Some (pass_frame h (if h.(h_fin) then d <| d_msg_skip := false |> else d))
    else if negb d.(d_msg) then
      Some (PClose NGX_HTTP_WAF_WS_CLOSE_PROTOCOL (lit "unexpected continuation")
              (lit "continuation frame without a message"), d)
    else None
  else if assemble && (d.(d_msg) || d.(d_msg_skip)) then
    Some (PClose NGX_HTTP_WAF_WS_CLOSE_PROTOCOL (lit "message interrupted")
            (lit "data frame inside a fragmented message"), d)
  else None.

Definition too_big (d : dir_t) : pout :=
  if d.(d_msg)
  then PClose NGX_HTTP_WAF_WS_CLOSE_TOO_BIG (lit "message too big") (lit "message exceeds waf_body_limit")
  else PClose NGX_HTTP_WAF_WS_CLOSE_TOO_BIG (lit "frame too big") (lit "frame exceeds waf_body_limit").

(** From the check of the opcode on, for a frame that is not a control frame. *)
Definition data_turn (cf : fconf) (jset : set_e) (p avail : Z) (h : hdr) (d : dir_t) : pout * dir_t :=
  let assemble := cf.(wc_reassemble) && (d.(d_mode) ==? FRAME_INSPECT) in
  if NGX_HTTP_WAF_WS_OP_BINARY <? h.(h_opcode) then
    (PClose NGX_HTTP_WAF_WS_CLOSE_PROTOCOL (lit "reserved opcode") (lit "reserved data opcode"), d)
  else if d.(d_mode) ==? FRAME_PASS then pass_frame h d
  else match fragment_check assemble h d with
  | Some r => r
  | None =>
      let total := u64 (h.(h_plen) + (if d.(d_msg) then d.(d_msg_len) else 0)) in
      if cf.(wc_body_limit) d.(d_phase) <? total then
        if (cf.(wc_body_limit_policy) d.(d_phase) ==? POLICY_BLOCK) && (d.(d_mode) ==? FRAME_INSPECT)
        then (too_big d, d)
        else pass_uninspected assemble h d
      else if negb (h.(h_rsv) =? 0) then pass_uninspected assemble h d
      else if avail <? u64 (h.(h_hlen) + h.(h_plen)) then (PAgain, d)
      else data_frame cf jset assemble p h d
  end.

Definition bad_control (h : hdr) : bool :=
  negb h.(h_fin) || (NGX_HTTP_WAF_WS_CONTROL_MAX <? h.(h_plen))
  || (negb (h.(h_opcode) =? NGX_HTTP_WAF_WS_OP_CLOSE) && negb (h.(h_opcode) =? NGX_HTTP_WAF_WS_OP_PING)
      && negb (h.(h_opcode) =? NGX_HTTP_WAF_WS_OP_PONG)).

(** [d->msg ? d->msg_hlen + d->msg_len : 0]. *)
Definition hold_of (d : dir_t) : Z := if d.(d_msg) then d.(d_msg_hlen) + d.(d_msg_len) else 0.

(** One turn of the loop of [ngx_http_waf_frame_parse]. *)
Definition parse_turn (cf : fconf) (jset : set_e) (now : Z) (d : dir_t) : pout * dir_t :=
  let hold := hold_of d in
  let p := d.(d_cleared) + hold in
  let avail := d.(d_last) - p in
  if 0 <? d.(d_skip) then
    let take := Z.min d.(d_skip) avail in
    let d := d <| d_cleared ::= fun c => c + take |> <| d_skip ::= fun s => s - take |> in
    (if 0 <? d.(d_skip) then PAgain else PContinue, d)
  else match parse_header d.(d_mem) p avail with
  | None => (PAgain, d)
  | Some h =>
      if (Z.land (aget 0 d.(d_mem) (p + 1)) 127 =? 127) && negb (Z.land h.(h_plen) (2 ^ 63) =? 0) then
        (PClose NGX_HTTP_WAF_WS_CLOSE_PROTOCOL (lit "invalid length")
           (lit "frame length has the top bit set"), d)
      else if xorb h.(h_masked) d.(d_masked) then
        (if d.(d_masked)
         then PClose NGX_HTTP_WAF_WS_CLOSE_PROTOCOL (lit "unmasked frame") (lit "client frame is not masked")
         else PClose NGX_HTTP_WAF_WS_CLOSE_PROTOCOL (lit "masked frame") (lit "upstream frame is masked"), d)
      else if 8 <=? h.(h_opcode) then
        if bad_control h then
          (PClose NGX_HTTP_WAF_WS_CLOSE_PROTOCOL (lit "bad control frame") (lit "malformed control frame"), d)
        else if avail <? u64 (h.(h_hlen) + h.(h_plen)) then (PAgain, d)
        else control_frame cf now p hold h d
      else data_turn cf jset p avail h d
  end.

(** The loop; [None] when the fuel runs out before it is left. *)
Fixpoint parse_loop (fuel : nat) (cf : fconf) (jset : set_e) (now : Z) (d : dir_t)
    : option (pout * dir_t) :=
  match fuel with
  | O => None
  | S k => match parse_turn cf jset now d with
           | (PContinue, d) => parse_loop k cf jset now d
           | r => Some r
           end
  end.

(** Two turns for every byte that has not been passed, and one to wait. *)
Definition parse_fuel (d : dir_t) : nat :=
  Z.to_nat (2 * Z.max 0 (d.(d_last) - d.(d_cleared) - hold_of d) + 2).

End WsFrame.
