(* ===== verification/WsMem.v ===== *)
(** Reading and writing stretches of a frame buffer: what [slice] sees after
    [store], [memmove] and the masking loop, and the parts of a buffer that a
    direction is made of. *)
From S2P Require Import Prelude Types WsFrame.
#[local] Open Scope Z_scope.

Module WsMem.
Import WsFrame.

Create Rewrite HintDb ws_len.

Lemma zlen_take {A} (l : list A) n : zlen (take (Z.to_nat n) l) = Z.min (Z.max 0 n) (zlen l).
Proof. unfold zlen. rewrite length_take. lia. Qed.
Lemma zlen_drop {A} (l : list A) n : zlen (drop (Z.to_nat n) l) = Z.max 0 (zlen l - Z.max 0 n).
Proof. unfold zlen. rewrite length_drop. lia. Qed.
Lemma zlen_map {A B} (f : A -> B) l : zlen (map f l) = zlen l.
Proof. unfold zlen. by rewrite length_map. Qed.
Lemma zlen_imap {A B} (f : nat -> A -> B) l : zlen (imap f l) = zlen l.
Proof. unfold zlen. by rewrite length_imap. Qed.
Lemma zlen_slice m a n : 0 <= a -> 0 <= n -> a + n <= zlen m -> zlen (slice m a n) = n.
Proof. intros. unfold slice. rewrite zlen_take, zlen_drop. lia. Qed.
Lemma zlen_store m a s : 0 <= a <= zlen m -> zlen (store m a s) = Z.max (zlen m) (a + zlen s).
Proof.
  intros. unfold store. rewrite !zlen_app, zlen_take, zlen_drop.
  pose proof (zlen_nonneg s). lia.
Qed.
Lemma zlen_memmove m dst src n :
  0 <= dst <= zlen m -> 0 <= src -> 0 <= n -> src + n <= zlen m ->
  zlen (memmove m dst src n) = Z.max (zlen m) (dst + n).
Proof. intros. unfold memmove. by rewrite zlen_store, zlen_slice by lia. Qed.

Lemma slice_nil m a : slice m a 0 = [].
Proof. done. Qed.
Lemma slice_full m n : zlen m <= n -> slice m 0 n = m.
Proof. intros. unfold slice. rewrite drop_0. apply take_ge. unfold zlen in *. lia. Qed.

(** A stretch is two stretches in a row. *)
Lemma slice_split m a n k :
  0 <= a -> 0 <= n -> 0 <= k -> slice m a (n + k) = slice m a n ++ slice m (a + n) k.
Proof.
  intros. unfold slice. rewrite !Z2Nat.inj_add by lia.
  rewrite <- drop_drop. set (l := drop (Z.to_nat a) m).
  symmetry. apply take_take_drop.
Qed.

Lemma slice_slice m a n b k :
  0 <= a -> 0 <= b -> 0 <= k -> b + k <= n -> slice (slice m a n) b k = slice m (a + b) k.
Proof.
  intros. unfold slice. rewrite skipn_firstn_comm, take_take, drop_drop.
  f_equal; [lia|f_equal; lia].
Qed.

Lemma aget_slice m a n i : 0 <= a -> 0 <= i < n -> aget 0 (slice m a n) i = aget 0 m (a + i).
Proof.
  intros. rewrite !aget_lookup by lia. unfold slice.
  rewrite lookup_take_lt, lookup_drop by lia. do 2 f_equal. lia.
Qed.

Lemma slice_store_same m a s : 0 <= a <= zlen m -> slice (store m a s) a (zlen s) = s.
Proof.
  intros. unfold slice, store.
  assert (length (take (Z.to_nat a) m) = Z.to_nat a)
    by (rewrite length_take; unfold zlen in *; lia).
  rewrite drop_app_length' by lia. rewrite take_app_length'; [done|unfold zlen; lia].
Qed.

Lemma slice_store_at m a s n : 0 <= a <= zlen m -> zlen s = n -> slice (store m a s) a n = s.
Proof. intros ? <-. by apply slice_store_same. Qed.

Lemma slice_store_before m a s b n :
  0 <= b -> 0 <= n -> b + n <= a -> a <= zlen m -> slice (store m a s) b n = slice m b n.
Proof.
  intros. unfold slice, store.
  assert (length (take (Z.to_nat a) m) = Z.to_nat a)
    by (rewrite length_take; unfold zlen in *; lia).
  rewrite drop_app_le by lia.
  rewrite take_app_le by (rewrite length_drop; lia).
  rewrite skipn_firstn_comm, take_take. f_equal. lia.
Qed.

Lemma slice_store_after m a s b n :
  0 <= a <= zlen m -> a + zlen s <= b -> slice (store m a s) b n = slice m b n.
Proof.
  intros. unfold slice, store. f_equal.
  assert (length (take (Z.to_nat a) m) = Z.to_nat a)
    by (rewrite length_take; unfold zlen in *; lia).
  pose proof (zlen_nonneg s). unfold zlen in *.
  rewrite drop_app_ge by lia. rewrite drop_app_ge by lia. rewrite drop_drop. f_equal. lia.
Qed.

(** What was moved is found at its new place. *)
Lemma slice_memmove m dst src n :
  0 <= dst <= zlen m -> 0 <= src -> 0 <= n -> src + n <= zlen m ->
  slice (memmove m dst src n) dst n = slice m src n.
Proof.
  intros. unfold memmove.
  rewrite <- (zlen_slice m src n) at 2 by lia. by rewrite slice_store_same.
Qed.
Lemma slice_memmove_before m dst src n b k :
  0 <= b -> 0 <= k -> b + k <= dst -> dst <= zlen m ->
  slice (memmove m dst src n) b k = slice m b k.
Proof. intros. apply slice_store_before; lia. Qed.
Lemma slice_memmove_after m dst src n b k :
  0 <= dst <= zlen m -> 0 <= src -> 0 <= n -> src + n <= zlen m -> dst + n <= b ->
  slice (memmove m dst src n) b k = slice m b k.
Proof. intros. apply slice_store_after; [lia|]. rewrite zlen_slice; lia. Qed.

(** Writing in two pieces. *)
Lemma store_snoc m a s x :
  0 <= a -> a + zlen s < zlen m -> aset (store m a s) (a + zlen s) x = store m a (s ++ [x]).
Proof.
  intros Ha Hs. pose proof (zlen_nonneg s). unfold aset, store.
  destruct (Z.ltb_spec (a + zlen s) 0); [lia|].
  assert (Hl : length (take (Z.to_nat a) m) = Z.to_nat a)
    by (rewrite length_take; unfold zlen in *; lia).
  replace (Z.to_nat (a + zlen s)) with (length (take (Z.to_nat a) m ++ s) + 0)%nat
    by (rewrite length_app; unfold zlen; lia).
  rewrite app_assoc, insert_app_r, <- !app_assoc. do 2 f_equal.
  rewrite length_app, Hl, Nat.add_0_r, zlen_snoc.
  replace (Z.to_nat a + length s)%nat with (Z.to_nat (a + zlen s)) by (unfold zlen; lia).
  assert (Hlt : (Z.to_nat (a + zlen s) < length m)%nat) by (unfold zlen in *; lia).
  destruct (lookup_lt_is_Some_2 m _ Hlt) as [y Hy].
  rewrite (drop_S _ _ _ Hy). cbn. f_equal. f_equal. lia.
Qed.

Lemma store_nil m a : 0 <= a -> store m a [] = m.
Proof. intros. unfold store. cbn. rewrite zlen_nil, Z.add_0_r. apply take_drop. Qed.

(** ** Masks *)

(** [s] with the 4-byte key applied from position [off] of the payload on. *)
Definition xor_key (key : bytes) (off : Z) (s : bytes) : bytes :=
  imap (fun i b => Z.lxor b (aget 0 key (Z.land (off + Z.of_nat i) 3))) s.

Lemma zlen_xor_key key off s : zlen (xor_key key off s) = zlen s.
Proof. apply zlen_imap. Qed.
Lemma xor_key_app key off s t :
  xor_key key off (s ++ t) = xor_key key off s ++ xor_key key (off + zlen s) t.
Proof.
  unfold xor_key. rewrite imap_app. f_equal. apply imap_ext. intros i x _. cbn.
  do 3 f_equal. unfold zlen. lia.
Qed.
Lemma xor_key_lookup key off s i :
  xor_key key off s !! i = (fun b => Z.lxor b (aget 0 key (Z.land (off + Z.of_nat i) 3))) <$> s !! i.
Proof. apply list_lookup_imap. Qed.
Lemma xor_key_invol key off s : xor_key key off (xor_key key off s) = s.
Proof.
  apply list_eq. intros i. rewrite !xor_key_lookup. destruct (s !! i); [|done]. cbn.
  by rewrite Z.lxor_assoc, Z.lxor_nilpotent, Z.lxor_0_r.
Qed.

(** The in-place loop reads every byte before it is overwritten. *)
Lemma remask_spec dst src key mk off n m :
  0 <= dst -> dst <= src -> 0 <= n -> src + n <= zlen m ->
  remask dst src key mk off n m = store m dst (xor_key mk off (xor_key key 0 (slice m src n))).
Proof.
  intros Hd Hs Hn Hm. set (res := xor_key mk off (xor_key key 0 (slice m src n))).
  assert (Hr : zlen res = n) by (unfold res; rewrite !zlen_xor_key; apply zlen_slice; lia).
  unfold remask.
  cut (for_range n (fun i m0 => aset m0 (dst + i) (Z.lxor (Z.lxor (aget 0 m0 (src + i))
         (aget 0 key (Z.land i 3))) (aget 0 mk (Z.land (off + i) 3)))) m = store m dst (slice res 0 n)).
  { intros ->. by rewrite slice_full by lia. }
  apply (for_range_inv (fun i m' => m' = store m dst (slice res 0 i)));
    [lia|by rewrite slice_nil, store_nil|].
  intros i m' Hi ->.
  assert (Hl : zlen (slice res 0 i) = i) by (apply zlen_slice; lia).
  rewrite (slice_split res 0 i 1) by lia.
  set (x := Z.lxor _ _).
  enough (Hx : slice res (0 + i) 1 = [x]).
  { rewrite Hx, <- store_snoc by lia. by rewrite Hl. }
  unfold x. replace (aget 0 (store m dst (slice res 0 i)) (src + i)) with (aget 0 m (src + i)).
  - unfold slice at 1. assert (Hlt : (Z.to_nat (0 + i) < length res)%nat) by (unfold zlen in *; lia).
    destruct (lookup_lt_is_Some_2 res _ Hlt) as [y Hy]. rewrite (drop_S _ _ _ Hy). cbn [take].
    f_equal. unfold res in Hy. rewrite !xor_key_lookup in Hy.
    unfold slice in Hy. rewrite lookup_take_lt, lookup_drop in Hy by lia.
    rewrite aget_lookup by lia.
    replace (Z.to_nat (src + i)) with (Z.to_nat src + Z.to_nat (0 + i))%nat by lia.
    destruct (m !! _) as [b|]; [|done]. cbn in Hy. injection Hy as <-. cbn.
    rewrite Z2Nat.id by lia. by rewrite !Z.add_0_l.
  - rewrite <- (Z.add_0_r (src + i)).
    rewrite <- (aget_slice m (src + i) 1 0) by lia.
    rewrite <- (aget_slice (store _ _ _) (src + i) 1 0) by lia.
    rewrite slice_store_after by lia. done.
Qed.

End WsMem.
