(* ===== verification/WsFrameFacts.v ===== *)
(** The parser of frames stays inside its buffer and ends: well-formed
    directions, what a header can say, the effect of every operation on the
    pointers, the measure that makes the loop end and the potential that keeps
    the end of the data inside the buffer. *)
From stdpp Require Import relations.
From S2P Require Import Prelude Types WsFrame WsMem.
#[local] Open Scope Z_scope.

Module WsFrameFacts.
Import WsFrame WsMem.

(** ** Bytes *)

Lemma is_bytes_app s t : is_bytes (s ++ t) <-> is_bytes s /\ is_bytes t.
Proof. apply Forall_app. Qed.
Lemma is_bytes_slice m a n : is_bytes m -> is_bytes (slice m a n).
Proof. intros. unfold slice. by apply Forall_take, Forall_drop. Qed.
Lemma is_bytes_store m a s : is_bytes m -> is_bytes s -> is_bytes (store m a s).
Proof.
  intros. unfold store. apply is_bytes_app. split; [by apply Forall_take|].
  apply is_bytes_app. split; [done|by apply Forall_drop].
Qed.
Lemma is_bytes_memmove m dst src n : is_bytes m -> is_bytes (memmove m dst src n).
Proof. intros. apply is_bytes_store; [done|by apply is_bytes_slice]. Qed.
Lemma lxor_u8 x y : is_u8 x -> is_u8 y -> is_u8 (Z.lxor x y).
Proof.
  unfold is_u8. intros Hx Hy.
  assert (0 <= Z.lxor x y) by (apply Z.lxor_nonneg; lia). split; [done|].
  destruct (Z.eq_dec (Z.lxor x y) 0) as [->|]; [lia|].
  apply Z.log2_lt_pow2; [lia|].
  assert (Z.log2 x < 8) by (destruct (Z.eq_dec x 0) as [->|]; [done|apply Z.log2_lt_pow2; lia]).
  assert (Z.log2 y < 8) by (destruct (Z.eq_dec y 0) as [->|]; [done|apply Z.log2_lt_pow2; lia]).
  pose proof (Z.log2_lxor x y). lia.
Qed.
Lemma lor_u8 x y : is_u8 x -> is_u8 y -> is_u8 (Z.lor x y).
Proof.
  unfold is_u8. intros Hx Hy.
  assert (0 <= Z.lor x y) by (apply Z.lor_nonneg; lia). split; [done|].
  destruct (Z.eq_dec (Z.lor x y) 0) as [->|]; [lia|].
  apply Z.log2_lt_pow2; [lia|].
  assert (Z.log2 x < 8) by (destruct (Z.eq_dec x 0) as [->|]; [done|apply Z.log2_lt_pow2; lia]).
  assert (Z.log2 y < 8) by (destruct (Z.eq_dec y 0) as [->|]; [done|apply Z.log2_lt_pow2; lia]).
  rewrite Z.log2_lor by lia. lia.
Qed.
Lemma aget_u8 m i : is_bytes m -> is_u8 (aget 0 m i).
Proof.
  intros Hm. destruct (Z.ltb_spec i 0) as [Hi|Hi].
  - unfold aget. rewrite (proj2 (Z.ltb_lt i 0)) by lia. unfold is_u8; lia.
  - rewrite aget_lookup by lia. destruct (m !! Z.to_nat i) eqn:E; cbn; [|unfold is_u8; lia].
    by eapply Forall_lookup_1.
Qed.
Lemma is_bytes_xor_key key off s : is_bytes key -> is_bytes s -> is_bytes (xor_key key off s).
Proof.
  intros Hk Hs. apply Forall_lookup. intros i x. rewrite xor_key_lookup.
  intros (y & Hy & ->)%fmap_Some. apply lxor_u8; [by eapply Forall_lookup_1|by apply aget_u8].
Qed.
Lemma is_bytes_lit_u8 (l : list Z) : is_bytes (map u8 l).
Proof. apply Forall_fmap, Forall_true. intros. apply u8_range. Qed.
Lemma is_bytes_header b0 len key :
  0 <= len -> is_bytes (default [] key) -> is_bytes (header_bytes b0 len key).
Proof.
  intros Hl Hk. unfold header_bytes. set (m := match key with Some _ => 128 | None => 0 end).
  assert (Hm : is_u8 m) by (unfold m, is_u8; destruct key; lia).
  apply is_bytes_app. split; [by repeat constructor; apply u8_range|].
  apply is_bytes_app. split; [|done].
  destruct (_ <? _); [|destruct (_ <=? _)].
  - constructor; [|constructor]. apply lor_u8; [apply u8_range|done].
  - constructor; [apply lor_u8; [unfold is_u8; lia|done]|].
    constructor; [apply u8_range|]. constructor; [apply u8_range|constructor].
  - constructor; [apply lor_u8; [unfold is_u8; lia|done]|].
    apply Forall_fmap, Forall_true. intros. apply u8_range.
Qed.

#[export] Hint Resolve is_bytes_slice is_bytes_store is_bytes_memmove aget_u8 is_bytes_xor_key
  u8_range lor_u8 lxor_u8 : waf.

(** ** Headers *)

Lemma land_pow2_clear x : 0 <= x < 2 ^ 64 -> Z.land x (2 ^ 63) = 0 -> x < 2 ^ 63.
Proof.
  intros Hx H0. destruct (Z.lt_ge_cases x (2 ^ 63)) as [|Hge]; [done|].
  assert (Hb : Z.testbit x 63 = true).
  { replace 63 with (Z.log2 x); [apply Z.bit_log2; lia|]. apply Z.log2_unique; lia. }
  assert (Hc : Z.testbit (Z.land x (2 ^ 63)) 63 = true)
    by (rewrite Z.land_spec, Hb, Z.pow2_bits_true by lia; done).
  rewrite H0, Z.testbit_0_l in Hc. done.
Qed.

Lemma land_127_range x : 0 <= Z.land x 127 < 128.
Proof. change 127 with (Z.ones 7). rewrite Z.land_ones by lia. apply Z.mod_pos_bound. lia. Qed.

Lemma hdr_len_range b1 : 2 <= hdr_len b1 <= 14.
Proof. unfold hdr_len. repeat case_match; lia. Qed.

Lemma hdr_plen_range m p b1 : is_bytes m -> 0 <= hdr_plen m p b1 < 2 ^ 64.
Proof.
  intros Hm. unfold hdr_plen. pose proof (land_127_range b1). case_match; [|case_match].
  - pose proof (aget_u8 m (p + 2) Hm). pose proof (aget_u8 m (p + 3) Hm). unfold is_u8 in *.
    rewrite lor_shiftl by lia. lia.
  - assert (is_u64 (for_range 8 (fun i plen => Z.lor (u64 (Z.shiftl plen 8)) (aget 0 m (p + (2 + i)))) 0)).
    { apply (for_range_inv (fun _ x => is_u64 x)); [lia|apply zero_u64|].
      intros i x _ _. apply lor_u64; [apply u64_range|].
      pose proof (aget_u8 m (p + (2 + i)) Hm). unfold is_u8, is_u64 in *. lia. }
    done.
  - lia.
Qed.

(** A header is never shorter than the shortest one for its length. *)
Lemma hdr_plen_min m p b1 :
  is_bytes m -> header_len (hdr_plen m p b1) (negb (Z.land b1 128 =? 0)) <= hdr_len b1.
Proof.
  intros Hm. unfold header_len, hdr_len. pose proof (land_127_range b1).
  destruct (Z.eqb_spec (Z.land b1 127) 126) as [E|E].
  - assert (hdr_plen m p b1 <= 65535); [|repeat case_match; lia].
    unfold hdr_plen. rewrite E. cbn -[Z.lor Z.shiftl aget].
    pose proof (aget_u8 m (p + 2) Hm). pose proof (aget_u8 m (p + 3) Hm). unfold is_u8 in *.
    rewrite lor_shiftl by lia. lia.
  - destruct (Z.eqb_spec (Z.land b1 127) 127) as [E'|E']; [repeat case_match; lia|].
    assert (hdr_plen m p b1 = Z.land b1 127) as -> by (unfold hdr_plen; repeat case_match; lia).
    repeat case_match; lia.
Qed.

Record hdr_wf (m : bytes) (p avail : Z) (h : hdr) : Prop := {
  hw_hlen : 2 <= h.(h_hlen) <= 14;
  hw_avail : h.(h_hlen) <= avail;
  hw_plen : 0 <= h.(h_plen) < 2 ^ 64;
  hw_min : header_len h.(h_plen) h.(h_masked) <= h.(h_hlen);
  hw_top : (Z.land (aget 0 m (p + 1)) 127 =? 127) && negb (Z.land h.(h_plen) (2 ^ 63) =? 0) = false ->
           h.(h_plen) < 2 ^ 63;
  hw_op : 0 <= h.(h_opcode) < 16
}.

Lemma parse_header_wf m p avail h :
  is_bytes m -> parse_header m p avail = Some h -> hdr_wf m p avail h.
Proof.
  intros Hm. unfold parse_header. case_match; [done|]. case_match; [done|]. intros [= <-].
  split; cbn [h_hlen h_plen h_masked h_opcode].
  - apply hdr_len_range.
  - lia.
  - by apply hdr_plen_range.
  - by apply hdr_plen_min.
  - intros Hf. pose proof (hdr_plen_range m p (aget 0 m (p + 1)) Hm) as Hr.
    apply andb_false_iff in Hf as [Hf|Hf].
    + unfold hdr_plen in *. rewrite Hf in *. case_match; [|pose proof (land_127_range (aget 0 m (p + 1))); lia].
      pose proof (aget_u8 m (p + 2) Hm). pose proof (aget_u8 m (p + 3) Hm). unfold is_u8 in *.
      rewrite lor_shiftl by lia. lia.
    + apply land_pow2_clear; [done|]. lia.
  - change 15 with (Z.ones 4). rewrite Z.land_ones by lia. apply Z.mod_pos_bound. lia.
Qed.

Lemma header_len_range len masked : 2 <= header_len len masked <= 14.
Proof. unfold header_len. repeat case_match; lia. Qed.
Lemma zlen_header_bytes b0 len key :
  zlen (default [] key) = (match key with Some _ => 4 | None => 0 end) ->
  zlen (header_bytes b0 len key) = header_len len (match key with Some _ => true | None => false end).
Proof.
  intros Hk. unfold header_bytes, header_len. rewrite !zlen_app, Hk.
  destruct (len <? 126); [by destruct key|]. destruct (len <=? 65535); by destruct key.
Qed.

(** ** Well-formed directions *)

Record wf_of (pos cleared last : Z) (mem : bytes) (msg : bool) (mhlen mlen : Z) (masked : bool)
    (mode : fmode) (mskip : bool) (key : bytes) (opcode : Z) : Prop := {
  dw_pos : 0 <= pos <= cleared;
  dw_last : cleared + (if msg then mhlen + mlen else 0) <= last <= zlen mem;
  dw_msg : msg = true -> (if masked then 6 else 2) <= mhlen <= 14 /\ 0 <= mlen;
  dw_state : msg = true -> mode = FRAME_INSPECT /\ mskip = false;
  dw_bytes : is_bytes mem;
  dw_key : is_bytes key /\ zlen key = 4;
  dw_opcode : 0 <= opcode < 16
}.
Arguments dw_pos {_ _ _ _ _ _ _ _ _ _ _ _}.
Arguments dw_last {_ _ _ _ _ _ _ _ _ _ _ _}.
Arguments dw_msg {_ _ _ _ _ _ _ _ _ _ _ _}.
Arguments dw_state {_ _ _ _ _ _ _ _ _ _ _ _}.
Arguments dw_bytes {_ _ _ _ _ _ _ _ _ _ _ _}.
Arguments dw_key {_ _ _ _ _ _ _ _ _ _ _ _}.
Arguments dw_opcode {_ _ _ _ _ _ _ _ _ _ _ _}.

Definition dir_wf (d : dir_t) : Prop :=
  wf_of d.(d_pos) d.(d_cleared) d.(d_last) d.(d_mem) d.(d_msg) d.(d_msg_hlen) d.(d_msg_len) d.(d_masked)
    d.(d_mode) d.(d_msg_skip) d.(d_msg_key) d.(d_msg_opcode).

Lemma dir_last d : dir_wf d -> d.(d_cleared) + hold_of d <= d.(d_last) <= zlen d.(d_mem).
Proof. intros H. apply (dw_last H). Qed.

(** The place of the next frame, and the bytes from there on. *)
Definition next_of (d : dir_t) : Z := d.(d_cleared) + hold_of d.
Definition avail_of (d : dir_t) : Z := d.(d_last) - next_of d.

Lemma hold_nonneg d : dir_wf d -> 0 <= hold_of d.
Proof. intros H. unfold hold_of. pose proof (dw_msg H). destruct (d_msg d), (d_masked d); lia. Qed.

(** What a change of the memory keeps: the bytes before [a], and [n] bytes
    that stood at [b] and stand at [b'] now. *)
Definition keeps_below (m m' : bytes) (a : Z) : Prop :=
  forall b n, 0 <= b -> 0 <= n -> b + n <= a -> slice m' b n = slice m b n.
Definition moves (m m' : bytes) (b b' n : Z) : Prop :=
  forall k j, 0 <= k -> 0 <= j -> k + j <= n -> slice m' (b' + k) j = slice m (b + k) j.

Lemma moves_whole m m' b b' n : moves m m' b b' n -> 0 <= n -> slice m' b' n = slice m b n.
Proof. intros H Hn. pose proof (H 0 n) as H0. rewrite !Z.add_0_r in H0. apply H0; lia. Qed.
Lemma moves_of_slice m m' b b' n :
  0 <= b -> 0 <= b' -> slice m' b' n = slice m b n -> moves m m' b b' n.
Proof.
  intros Hb Hb' H k j Hk Hj Hkj.
  rewrite <- (slice_slice m' b' n), <- (slice_slice m b n) by lia. by rewrite H.
Qed.
Lemma memmove_below m dst src n : 0 <= dst <= zlen m -> keeps_below m (memmove m dst src n) dst.
Proof. intros H b k Hb Hk Hbk. apply slice_memmove_before; lia. Qed.
Lemma memmove_moves m dst src n :
  0 <= dst <= zlen m -> 0 <= src -> 0 <= n -> src + n <= zlen m -> moves m (memmove m dst src n) src dst n.
Proof. intros. apply moves_of_slice; [lia..|]. apply slice_memmove; lia. Qed.

Lemma cut_spec p len d :
  dir_wf d -> d.(d_cleared) <= p -> 0 <= len -> p + len <= d.(d_last) ->
  exists m', ngx_http_waf_frame_cut p len d = d <| d_mem := m' |> <| d_last := d.(d_last) - len |> /\
    is_bytes m' /\ zlen m' = zlen d.(d_mem) /\ keeps_below d.(d_mem) m' p /\
    moves d.(d_mem) m' (p + len) p (d.(d_last) - (p + len)).
Proof.
  intros Hd Hp Hl Hlast. pose proof (dw_pos Hd). pose proof (dir_last d Hd). pose proof (hold_nonneg d Hd).
  pose proof (dw_bytes Hd).
  unfold ngx_http_waf_frame_cut. destruct (Z.eqb_spec (d_last d - (p + len)) 0) as [E|E]; cbn [negb].
  - exists (d_mem d). split_and!; [by destruct d|done|done|by intros ????|].
    rewrite E. intros k j ???. replace j with 0 by lia. by rewrite !slice_nil.
  - eexists. split_and!; [by destruct d|by apply is_bytes_memmove| |apply memmove_below; lia|apply memmove_moves; lia].
    rewrite zlen_memmove by lia. lia.
Qed.

Lemma hoist_spec p len d :
  dir_wf d -> d.(d_cleared) <= p -> 0 <= len -> p + len <= d.(d_last) ->
  exists m', ngx_http_waf_frame_hoist p len d = d <| d_mem := m' |> /\
    is_bytes m' /\ zlen m' = zlen d.(d_mem) /\ keeps_below d.(d_mem) m' d.(d_cleared) /\
    slice m' d.(d_cleared) len = slice d.(d_mem) p len /\
    moves d.(d_mem) m' d.(d_cleared) (d.(d_cleared) + len) (p - d.(d_cleared)) /\
    (forall b n, p + len <= b -> slice m' b n = slice d.(d_mem) b n).
Proof.
  intros Hd Hp Hl Hlast. pose proof (dw_pos Hd). pose proof (dir_last d Hd). pose proof (hold_nonneg d Hd).
  pose proof (dw_bytes Hd). unfold ngx_http_waf_frame_hoist.
  set (c := d_cleared d) in *. set (m := d_mem d) in *.
  set (m1 := memmove m (c + len) c (p - c)).
  assert (Hm1 : zlen m1 = zlen m) by (unfold m1; rewrite zlen_memmove by lia; lia).
  assert (Hc : zlen (slice m p len) = len) by (apply zlen_slice; lia).
  eexists. split_and!; [done|apply is_bytes_store; [by apply is_bytes_memmove|by apply is_bytes_slice]|..].
  - rewrite zlen_store; lia.
  - intros b n Hb Hn Hbn. rewrite slice_store_before by lia. apply slice_memmove_before; lia.
  - apply slice_store_at; [lia|done].
  - apply moves_of_slice; [lia..|]. rewrite slice_store_after by lia. apply slice_memmove; lia.
  - intros b n Hb. rewrite slice_store_after by lia. apply slice_memmove_after; lia.
Qed.

(** The payload of a fragment in the masking of the message. *)
Definition fragment_bytes (p hlen plen : Z) (d : dir_t) : bytes :=
  if d.(d_masked)
  then xor_key d.(d_msg_key) d.(d_msg_len)
         (xor_key (slice d.(d_mem) (p + hlen - 4) 4) 0 (slice d.(d_mem) (p + hlen) plen))
  else slice d.(d_mem) (p + hlen) plen.

Lemma store_moves_after m a s b n :
  0 <= a <= zlen m -> a + zlen s <= b -> 0 <= b -> moves m (store m a s) b b n.
Proof. intros. apply moves_of_slice; [lia..|]. apply slice_store_after; lia. Qed.

Lemma zlen_fragment p hlen plen d :
  0 <= p + hlen -> 0 <= plen -> p + hlen + plen <= zlen d.(d_mem) -> zlen (fragment_bytes p hlen plen d) = plen.
Proof.
  intros. unfold fragment_bytes. case_match; rewrite ?zlen_xor_key; apply zlen_slice; lia.
Qed.

(** The first half of [ngx_http_waf_frame_msg_append]: the payload moves over
    its header. *)
Lemma append_payload p hlen plen d :
  dir_wf d -> 0 <= p -> 4 <= hlen \/ d.(d_masked) = false /\ 0 <= hlen -> 0 <= plen ->
  p + hlen + plen <= d.(d_last) ->
  (if d.(d_masked)
   then d <| d_mem := remask p (p + hlen) (slice d.(d_mem) (p + hlen - 4) 4) d.(d_msg_key) d.(d_msg_len)
                        plen d.(d_mem) |>
   else if negb (plen =? 0) then d <| d_mem := memmove d.(d_mem) p (p + hlen) plen |> else d)
  = d <| d_mem := store d.(d_mem) p (fragment_bytes p hlen plen d) |>.
Proof.
  intros Hd Hp Hh Hpl Hlast. pose proof (dir_last d Hd). unfold fragment_bytes.
  destruct (d_masked d) eqn:Em.
  - destruct Hh as [Hh|[? _]]; [|done]. rewrite remask_spec by lia. done.
  - destruct (Z.eqb_spec plen 0) as [->|]; cbn [negb]; [|done].
    rewrite slice_nil, store_nil by lia. by destruct d.
Qed.

Lemma append_spec p hlen plen d :
  dir_wf d -> d.(d_cleared) <= p -> 4 <= hlen \/ d.(d_masked) = false /\ 0 <= hlen -> 0 <= plen ->
  p + hlen + plen <= d.(d_last) ->
  exists m', ngx_http_waf_frame_msg_append p hlen plen d
             = d <| d_mem := m' |> <| d_last := d.(d_last) - hlen |>
                 <| d_msg_len := d.(d_msg_len) + plen |> <| d_msg_fragments := d.(d_msg_fragments) + 1 |> /\
    is_bytes m' /\ zlen m' = zlen d.(d_mem) /\ keeps_below d.(d_mem) m' p /\
    slice m' p plen = fragment_bytes p hlen plen d /\
    moves d.(d_mem) m' (p + hlen + plen) (p + plen) (d.(d_last) - (p + hlen + plen)).
Proof.
  intros Hd Hp Hh Hpl Hlast. pose proof (dw_pos Hd). pose proof (dir_last d Hd). pose proof (hold_nonneg d Hd).
  pose proof (dw_bytes Hd) as Hb. destruct (dw_key Hd) as [Hk _].
  unfold ngx_http_waf_frame_msg_append. rewrite append_payload by (done || lia).
  set (f := fragment_bytes p hlen plen d). set (m1 := store (d_mem d) p f).
  assert (Hf : zlen f = plen) by (apply zlen_fragment; lia).
  assert (Hbf : is_bytes f) by (unfold f, fragment_bytes; case_match; eauto 6 with waf).
  assert (Hm1 : zlen m1 = zlen (d_mem d)) by (unfold m1; rewrite zlen_store by lia; lia).
  assert (Hb1 : is_bytes m1) by (by apply is_bytes_store).
  change (d_last (d <| d_mem := m1 |>)) with (d_last d).
  change (d_mem (d <| d_mem := m1 |>)) with m1.
  assert (Hkeep : keeps_below (d_mem d) m1 p) by (intros b n ???; apply slice_store_before; lia).
  assert (Hsame : slice m1 p plen = f) by (apply slice_store_at; [lia|done]).
  destruct (Z.eqb_spec (d_last d - (p + hlen + plen)) 0) as [E|E]; cbn [negb].
  - exists m1. split_and!; [by destruct d|done..|].
    rewrite E. intros k j ???. replace j with 0 by lia. by rewrite !slice_nil.
  - exists (memmove m1 (p + plen) (p + hlen + plen) (d_last d - (p + hlen + plen))).
    split_and!; [by destruct d|by apply is_bytes_memmove|rewrite zlen_memmove by lia; lia|..].
    + intros b n ???. rewrite slice_memmove_before by lia. by apply Hkeep.
    + by rewrite slice_memmove_before by lia.
    + intros k j ???. rewrite (memmove_moves m1 (p + plen) (p + hlen + plen)) by lia.
      unfold m1. apply slice_store_after; lia.
Qed.

(** The header that [ngx_http_waf_frame_msg_seal] writes. *)
Definition seal_header (fin : bool) (d : dir_t) : bytes :=
  header_bytes (Z.lor (if fin then 128 else 0) d.(d_msg_opcode)) d.(d_msg_len)
    (if d.(d_masked) then Some d.(d_msg_key) else None).

Lemma zlen_seal_header fin d : dir_wf d -> zlen (seal_header fin d) = header_len d.(d_msg_len) d.(d_masked).
Proof.
  intros Hd. destruct (dw_key Hd). unfold seal_header.
  rewrite zlen_header_bytes; by destruct (d_masked d).
Qed.

Lemma seal_spec fin d :
  dir_wf d -> d.(d_msg) = true ->
  exists m', ngx_http_waf_frame_msg_seal fin d
    = (header_len d.(d_msg_len) d.(d_masked),
       d <| d_mem := m' |> <| d_last := d.(d_last) - d.(d_msg_hlen) + header_len d.(d_msg_len) d.(d_masked) |>
         <| d_msg := false |>) /\
    is_bytes m' /\
    zlen m' = Z.max (zlen d.(d_mem)) (d.(d_last) - d.(d_msg_hlen) + header_len d.(d_msg_len) d.(d_masked)) /\
    keeps_below d.(d_mem) m' d.(d_cleared) /\
    slice m' d.(d_cleared) (header_len d.(d_msg_len) d.(d_masked)) = seal_header fin d /\
    moves d.(d_mem) m' (d.(d_cleared) + d.(d_msg_hlen))
      (d.(d_cleared) + header_len d.(d_msg_len) d.(d_masked)) (d.(d_last) - (d.(d_cleared) + d.(d_msg_hlen))).
Proof.
  intros Hd Hmsg. pose proof (dw_pos Hd). pose proof (dir_last d Hd) as Hl.
  pose proof (dw_bytes Hd) as Hb. destruct (dw_msg Hd Hmsg) as [Hh Hlen]. destruct (dw_key Hd) as [Hk Hk4].
  unfold hold_of in Hl. rewrite Hmsg in Hl.
  pose proof (zlen_seal_header fin d Hd) as Hsh. pose proof (header_len_range (d_msg_len d) (d_masked d)).
  unfold ngx_http_waf_frame_msg_seal. fold (seal_header fin d).
  set (hl := header_len (d_msg_len d) (d_masked d)) in *. set (c := d_cleared d) in *.
  assert (Hbh : is_bytes (seal_header fin d)).
  { apply is_bytes_header; [done|]. destruct (d_masked d); [done|constructor]. }
  destruct (Z.eqb_spec hl (d_msg_hlen d)) as [E|E]; cbn [negb].
  - exists (store (d_mem d) c (seal_header fin d)). split; [rewrite E, Z.sub_add; by destruct d|].
    split_and!; [by apply is_bytes_store|rewrite zlen_store; lia|..].
    + intros b n ???. apply slice_store_before; lia.
    + apply slice_store_at; [lia|done].
    + rewrite E. apply store_moves_after; lia.
  - set (m1 := memmove (d_mem d) (c + hl) (c + d_msg_hlen d) (d_last d - (c + d_msg_hlen d))).
    assert (Hroom : c + hl <= zlen (d_mem d)).
    { unfold hl, header_len in *. repeat case_match; lia. }
    assert (Hh0 : 0 <= d_msg_hlen d) by (case_match; lia).
    assert (Hm1 : zlen m1 = Z.max (zlen (d_mem d)) (c + hl + (d_last d - (c + d_msg_hlen d))))
      by (unfold m1; rewrite zlen_memmove; lia).
    exists (store m1 c (seal_header fin d)).
    split_and!; [done|apply is_bytes_store; [by apply is_bytes_memmove|done]|rewrite zlen_store; lia|..].
    + intros b n ???. rewrite slice_store_before by lia. apply slice_memmove_before; lia.
    + apply slice_store_at; [lia|done].
    + intros k j ???. rewrite slice_store_after by lia. apply memmove_moves; lia.
Qed.

(** ** The turns of the loop *)

Definition frame_len (h : hdr) : Z := h.(h_hlen) + h.(h_plen).

(** The fields of a direction that was just updated. *)
Ltac dir_simpl := cbn [d_phase d_mode d_mem d_size d_pos d_last d_cleared d_held d_skip d_drop d_out d_seq
  d_masked d_msg d_msg_skip d_msg_opcode d_msg_hlen d_msg_len d_msg_key upd].
(** Arithmetic on the pointers of directions. *)
Ltac ptr_lia :=
  unfold avail_of, next_of, frame_len, hold_of in *; dir_simpl;
  repeat match goal with H : d_msg _ = _ |- _ => rewrite H in * end; lia.

Section turns.
Context (cf : fconf) (jset : set_e) (now : Z).

Definition assembling (d : dir_t) : bool := cf.(wc_reassemble) && (d.(d_mode) ==? FRAME_INSPECT).
Definition limit_of (d : dir_t) : Z := cf.(wc_body_limit) d.(d_phase).
(** The length of the message a frame would make. *)
Definition total_of (d : dir_t) (h : hdr) : Z := u64 (h.(h_plen) + (if d.(d_msg) then d.(d_msg_len) else 0)).

(** The frame the parser has come to, its header complete and acceptable. *)
Record frame_at (d : dir_t) (h : hdr) : Prop := {
  fa_skip : d.(d_skip) <= 0;
  fa_hdr : parse_header d.(d_mem) (next_of d) (avail_of d) = Some h;
  fa_plen : h.(h_plen) < 2 ^ 63;
  fa_masked : h.(h_masked) = d.(d_masked)
}.

(** Why a frame may pass uninspected: the direction is not inspected, the
    frame belongs to a message that is passed already, it is larger than the
    limit and that does not close, or it carries extension data. *)
Definition may_pass (d : dir_t) (h : hdr) : Prop :=
  d.(d_mode) = FRAME_PASS \/
  (assembling d = true /\ h.(h_opcode) = NGX_HTTP_WAF_WS_OP_CONT /\ d.(d_msg_skip) = true) \/
  (limit_of d < total_of d h /\
   (cf.(wc_body_limit_policy) d.(d_phase) <> POLICY_BLOCK \/ d.(d_mode) <> FRAME_INSPECT)) \/
  h.(h_rsv) <> 0.

(** A frame that is complete, within the limit and not to be passed. *)
Record taken (d : dir_t) (h : hdr) : Prop := {
  tk_at : frame_at d h;
  tk_op : h.(h_opcode) <= NGX_HTTP_WAF_WS_OP_BINARY;
  tk_len : frame_len h <= avail_of d;
  tk_limit : total_of d h <= limit_of d;
  tk_rsv : h.(h_rsv) = 0;
  tk_mode : d.(d_mode) <> FRAME_PASS
}.

(** The fields of the control frame limit and the sequence number. *)
Definition counted (d d1 : dir_t) : Prop :=
  exists q t l k, d1 = d <| d_seq := q |> <| d_ctrl_tokens := t |> <| d_ctrl_last := l |> <| d_ctrl_dropped := k |>.

Definition fragment_key (h : hdr) (d : dir_t) : dir_t :=
  match frame_key h (next_of d) d with Some k => d <| d_msg_key := k |> | None => d end.

Inductive turn (d : dir_t) : pout -> dir_t -> Prop :=
  | turn_short : d.(d_skip) <= 0 -> parse_header d.(d_mem) (next_of d) (avail_of d) = None -> turn d PAgain d
  | turn_partial_control h :
      frame_at d h -> 8 <= h.(h_opcode) -> h.(h_plen) <= NGX_HTTP_WAF_WS_CONTROL_MAX ->
      avail_of d < frame_len h -> turn d PAgain d
  | turn_partial_data h :
      frame_at d h -> h.(h_opcode) <= NGX_HTTP_WAF_WS_OP_BINARY -> total_of d h <= limit_of d ->
      d.(d_mode) <> FRAME_PASS -> avail_of d < frame_len h -> turn d PAgain d
  | turn_skip :
      0 < d.(d_skip) ->
      let take := Z.min d.(d_skip) (avail_of d) in
      turn d (if 0 <? d.(d_skip) - take then PAgain else PContinue)
        (d <| d_cleared := d.(d_cleared) + take |> <| d_skip := d.(d_skip) - take |>)
  | turn_close code reason why : turn d (PClose code reason why) d
  | turn_cut h d1 :
      frame_at d h -> 8 <= h.(h_opcode) -> h.(h_opcode) <> NGX_HTTP_WAF_WS_OP_CLOSE ->
      h.(h_plen) <= NGX_HTTP_WAF_WS_CONTROL_MAX ->
      frame_len h <= avail_of d -> counted d d1 ->
      turn d PContinue (ngx_http_waf_frame_cut (next_of d) (frame_len h) d1)
  | turn_control h d1 :
      frame_at d h -> 8 <= h.(h_opcode) -> h.(h_plen) <= NGX_HTTP_WAF_WS_CONTROL_MAX ->
      frame_len h <= avail_of d -> counted d d1 ->
      turn d PContinue
        ((if hold_of d =? 0 then d1 else ngx_http_waf_frame_hoist (next_of d) (frame_len h) d1)
           <| d_cleared := d.(d_cleared) + frame_len h |>)
  | turn_pass h b :
      frame_at d h -> h.(h_opcode) <= NGX_HTTP_WAF_WS_OP_BINARY -> may_pass d h ->
      d.(d_msg) = false ->
      turn d PContinue (d <| d_msg_skip := b |> <| d_seq := inc d.(d_seq) |> <| d_skip := skip_of h |>)
  | turn_pass_message h d1 hlen :
      frame_at d h -> h.(h_opcode) <= NGX_HTTP_WAF_WS_OP_BINARY -> may_pass d h -> d.(d_msg) = true ->
      ngx_http_waf_frame_msg_seal false d = (hlen, d1) ->
      turn d PContinue
        (d1 <| d_cleared := d.(d_cleared) + (hlen + d.(d_msg_len)) |> <| d_msg_skip := negb h.(h_fin) |>
            <| d_seq := inc d.(d_seq) |> <| d_skip := skip_of h |>)
  | turn_unjournaled h :
      taken d h -> d.(d_mode) = FRAME_JOURNAL ->
      turn d PContinue (d <| d_seq := inc d.(d_seq) |> <| d_cleared := d.(d_cleared) + frame_len h |>)
  | turn_journal h :
      taken d h -> d.(d_mode) = FRAME_JOURNAL ->
      turn d (PJournal (next_of d + h.(h_hlen)) h.(h_plen) (frame_key h (next_of d) d))
        (hold_frame h (d <| d_seq := inc d.(d_seq) |>))
  | turn_first h :
      taken d h -> assembling d = true -> h.(h_fin) = false -> h.(h_opcode) <> NGX_HTTP_WAF_WS_OP_CONT ->
      d.(d_msg) = false -> d.(d_msg_skip) = false ->
      turn d PContinue
        ((fragment_key h d) <| d_seq := inc d.(d_seq) |> <| d_msg := true |> <| d_msg_opcode := h.(h_opcode) |>
           <| d_msg_hlen := h.(h_hlen) |> <| d_msg_len := h.(h_plen) |> <| d_msg_fragments := 1 |>
           <| d_msg_seq := inc d.(d_seq) |>)
  | turn_append h :
      taken d h -> d.(d_mode) = FRAME_INSPECT -> h.(h_fin) = false -> d.(d_msg) = true ->
      turn d PContinue
        (ngx_http_waf_frame_msg_append (next_of d) h.(h_hlen) h.(h_plen) (d <| d_seq := inc d.(d_seq) |>))
  | turn_message h hlen d1 :
      taken d h -> d.(d_mode) = FRAME_INSPECT -> d.(d_msg) = true ->
      ngx_http_waf_frame_msg_seal true
        (ngx_http_waf_frame_msg_append (next_of d) h.(h_hlen) h.(h_plen) (d <| d_seq := inc d.(d_seq) |>))
        = (hlen, d1) ->
      turn d (PInspect (d1.(d_cleared) + hlen) d1.(d_msg_len)
                (if d.(d_masked) then Some d1.(d_msg_key) else None))
        (d1 <| d_held := hlen + d1.(d_msg_len) |> <| d_opcode := d1.(d_msg_opcode) |> <| d_fin := true |>
            <| d_fragments := d1.(d_msg_fragments) |> <| d_held_seq := d1.(d_msg_seq) |>
            <| d_reassembled := inc d1.(d_reassembled) |>)
  | turn_frame h :
      taken d h -> d.(d_mode) = FRAME_INSPECT -> d.(d_msg) = false ->
      turn d (PInspect (next_of d + h.(h_hlen)) h.(h_plen) (frame_key h (next_of d) d))
        (hold_frame h (d <| d_seq := inc d.(d_seq) |>)).

Lemma counted_seq d q : counted d (d <| d_seq := q |>).
Proof. exists q, d.(d_ctrl_tokens), d.(d_ctrl_last), d.(d_ctrl_dropped). by destruct d. Qed.

Lemma ctrl_counted d q b d1 :
  ngx_http_waf_frame_ctrl_allowed cf now (d <| d_seq := q |>) = (b, d1) -> counted d d1.
Proof.
  unfold ngx_http_waf_frame_ctrl_allowed, counted. intros H.
  repeat case_match; simplify_eq; destruct d; cbn; eauto.
Qed.

Lemma frame_len_u64 d h : dir_wf d -> frame_at d h -> u64 (h.(h_hlen) + h.(h_plen)) = frame_len h.
Proof.
  intros Hd Hf. pose proof (parse_header_wf _ _ _ _ (dw_bytes Hd) (fa_hdr d h Hf)) as Hh.
  pose proof (hw_hlen _ _ _ _ Hh). pose proof (hw_plen _ _ _ _ Hh). pose proof (fa_plen d h Hf).
  apply u64_small. unfold is_u64, frame_len. lia.
Qed.

Lemma control_frame_turn d h o d' :
  dir_wf d -> frame_at d h -> 8 <= h.(h_opcode) -> bad_control h = false -> frame_len h <= avail_of d ->
  control_frame cf now (next_of d) (hold_of d) h d = (o, d') -> turn d o d'.
Proof.
  intros Hd Hf Hop Hb Hl Hc. unfold bad_control in Hb.
  assert (Hp : h_plen h <= NGX_HTTP_WAF_WS_CONTROL_MAX).
  { apply orb_false_iff in Hb as [[_ Hb]%orb_false_iff _]. lia. }
  unfold control_frame in Hc.
  destruct (if negb (h_opcode h =? NGX_HTTP_WAF_WS_OP_CLOSE)
            then ngx_http_waf_frame_ctrl_allowed cf now (d <| d_seq ::= inc |>)
            else (true, d <| d_seq ::= inc |>)) as [ok d1] eqn:E.
  assert (Hd1 : counted d d1).
  { destruct (negb (h_opcode h =? NGX_HTTP_WAF_WS_OP_CLOSE)); [exact (ctrl_counted d (inc d.(d_seq)) ok d1 E)|].
    injection E as <- <-. apply counted_seq. }
  assert (Hcl : d_cleared d1 = d_cleared d) by (by destruct Hd1 as (?&?&?&?&->)).
  destruct ok; cbn [negb] in Hc; injection Hc as <- <-.
  - destruct (Z.eqb_spec (hold_of d) 0) as [Hz|Hz]; cbn [negb].
    + eapply eq_rect; [eapply (turn_control d h d1); done|]. rewrite (proj2 (Z.eqb_eq _ _) Hz).
      destruct Hd1 as (?&?&?&?&->). by destruct d.
    + eapply eq_rect; [eapply (turn_control d h d1); done|]. rewrite (proj2 (Z.eqb_neq _ _) Hz).
      destruct Hd1 as (?&?&?&?&->). by destruct d.
  - eapply turn_cut; try done. intros Ho. rewrite Ho in E. done.
Qed.

Lemma pass_frame_turn d h o d' :
  frame_at d h -> h.(h_opcode) <= NGX_HTTP_WAF_WS_OP_BINARY -> may_pass d h -> d.(d_msg) = false ->
  pass_frame h d = (o, d') -> turn d o d'.
Proof.
  intros Hf Ho Hp Hm [= <- <-]. pose proof (turn_pass d h d.(d_msg_skip) Hf Ho Hp Hm) as H. by destruct d.
Qed.

Lemma pass_uninspected_turn d h o d' :
  frame_at d h -> h.(h_opcode) <= NGX_HTTP_WAF_WS_OP_BINARY -> may_pass d h ->
  pass_uninspected (assembling d) h d = (o, d') -> turn d o d'.
Proof.
  intros Hf Ho Hp. unfold pass_uninspected. destruct (d_msg d) eqn:Hm.
  - destruct (ngx_http_waf_frame_msg_seal false d) as [hl d1] eqn:Es. intros [= <- <-].
    assert (Heq : d_cleared d1 = d_cleared d /\ d_seq d1 = d_seq d /\ d_msg_len d1 = d_msg_len d).
    { unfold ngx_http_waf_frame_msg_seal in Es. injection Es as _ <-. by case_match; destruct d. }
    destruct Heq as (E1 & E2 & E3).
    eapply eq_rect; [by eapply (turn_pass_message d h d1 hl)|]. rewrite <- E1, <- E2, <- E3. by destruct d1.
  - destruct (_ && _).
    + intros [= <- <-]. pose proof (turn_pass d h true Hf Ho Hp Hm) as H. by destruct d.
    + by apply pass_frame_turn.
Qed.

Lemma data_frame_turn d h o d' :
  dir_wf d -> taken d h ->
  (assembling d = true -> h.(h_opcode) <> NGX_HTTP_WAF_WS_OP_CONT ->
    d.(d_msg) = false /\ d.(d_msg_skip) = false) ->
  data_frame cf jset (assembling d) (next_of d) h d = (o, d') -> turn d o d'.
Proof.
  intros Hd Ht Hfr. pose proof (tk_at d h Ht) as Hf. unfold data_frame.
  change (d_mode (d <| d_seq ::= inc |>)) with (d_mode d).
  change (d_msg (d <| d_seq ::= inc |>)) with (d_msg d).
  destruct (bool_decide_reflect (d_mode d = FRAME_JOURNAL)) as [Hj|Hj].
  - case_match; intros [= <- <-].
    + eapply eq_rect; [by eapply (turn_unjournaled d h)|]. by destruct d.
    + pose proof (turn_journal d h Ht Hj) as H0. by destruct d.
  - assert (Hi : d_mode d = FRAME_INSPECT) by (pose proof (tk_mode d h Ht); by destruct (d_mode d)).
    destruct (assembling d && negb (h_fin h) && negb (h_opcode h =? NGX_HTTP_WAF_WS_OP_CONT)) eqn:Ea.
    + apply andb_prop in Ea as [[Ea1 Ea2]%andb_prop Ea3]. intros [= <- <-].
      assert (Hop : h_opcode h <> NGX_HTTP_WAF_WS_OP_CONT) by lia.
      destruct (Hfr Ea1 Hop) as [Hm Hsk].
      pose proof (turn_first d h Ht Ea1 (proj1 (negb_true_iff _) Ea2) Hop Hm Hsk) as H0.
      revert H0. unfold fragment_key, frame_key. destruct (h_masked h), d; exact (fun H => H).
    + clear Ea. destruct (d_msg d) eqn:Hm.
      * destruct (h_fin h) eqn:Hfin; cbn [negb].
        -- destruct (ngx_http_waf_frame_msg_seal true _) as [hl d1] eqn:Es. intros [= <- <-].
           rewrite (fa_masked d h Hf).
           change (d <| d_seq ::= inc |>) with (d <| d_seq := inc d.(d_seq) |>) in Es.
           pose proof (turn_message d h hl d1 Ht Hi Hm Es) as H0. by destruct d1.
        -- intros [= <- <-]. by apply turn_append.
      * intros [= <- <-]. pose proof (turn_frame d h Ht Hi Hm) as H0. by destruct d.
Qed.

(** The part of the turn after the fragment was found to fit its message. *)
Lemma limit_turn d h o d' :
  dir_wf d -> frame_at d h -> h.(h_opcode) <= NGX_HTTP_WAF_WS_OP_BINARY -> d.(d_mode) <> FRAME_PASS ->
  (assembling d = true -> h.(h_opcode) <> NGX_HTTP_WAF_WS_OP_CONT ->
    d.(d_msg) = false /\ d.(d_msg_skip) = false) ->
  (if limit_of d <? total_of d h then
     if (cf.(wc_body_limit_policy) d.(d_phase) ==? POLICY_BLOCK) && (d.(d_mode) ==? FRAME_INSPECT)
     then (too_big d, d) else pass_uninspected (assembling d) h d
   else if negb (h.(h_rsv) =? 0) then pass_uninspected (assembling d) h d
   else if avail_of d <? u64 (h.(h_hlen) + h.(h_plen)) then (PAgain, d)
   else data_frame cf jset (assembling d) (next_of d) h d) = (o, d') -> turn d o d'.
Proof.
  intros Hd Hf Hop Hm Hfr. rewrite (frame_len_u64 d h Hd Hf).
  destruct (Z.ltb_spec (limit_of d) (total_of d h)) as [Hlim|Hlim].
  - destruct ((cf.(wc_body_limit_policy) d.(d_phase) ==? POLICY_BLOCK) && (d_mode d ==? FRAME_INSPECT)) eqn:Eb.
    + unfold too_big. case_match; intros [= <- <-]; apply turn_close.
    + apply pass_uninspected_turn; try done. right. right. left. split; [done|].
      apply andb_false_iff in Eb as [Eb|Eb]; [left|right]; by apply bool_decide_eq_false in Eb.
  - destruct (Z.eqb_spec (h_rsv h) 0) as [Hr|Hr]; cbn [negb].
    + destruct (Z.ltb_spec (avail_of d) (frame_len h)).
      * intros [= <- <-]. by eapply turn_partial_data.
      * by apply data_frame_turn.
    + apply pass_uninspected_turn; try done. by do 3 right.
Qed.

Lemma data_turn_turn d h o d' :
  dir_wf d -> frame_at d h -> h.(h_opcode) < 8 ->
  data_turn cf jset (next_of d) (avail_of d) h d = (o, d') -> turn d o d'.
Proof.
  intros Hd Hf Ho. unfold data_turn. fold (assembling d).
  destruct (Z.ltb_spec NGX_HTTP_WAF_WS_OP_BINARY (h_opcode h)) as [|Hop];
    [by intros [= <- <-]; apply turn_close|].
  destruct (bool_decide_reflect (d_mode d = FRAME_PASS)) as [Hp|Hp].
  { apply pass_frame_turn; try done; [by left|]. destruct (d_msg d) eqn:Em; [|done].
    destruct (dw_state Hd Em) as [E _]. congruence. }
  unfold fragment_check. fold (limit_of d); fold (total_of d h).
  destruct (assembling d) eqn:Ea; cbn [andb]; [|rewrite <- Ea; by apply limit_turn; rewrite ?Ea].
  destruct (Z.eqb_spec (h_opcode h) NGX_HTTP_WAF_WS_OP_CONT) as [Hc|Hc].
  - destruct (d_msg_skip d) eqn:Ems; [|destruct (d_msg d) eqn:Em; cbn [negb]].
    + assert (Hm : d_msg d = false).
      { destruct (d_msg d) eqn:Em; [|done]. destruct (dw_state Hd Em). congruence. }
      assert (Hmp : may_pass d h) by (right; left; done).
      destruct (h_fin h).
      * intros [= <- <-]. pose proof (turn_pass d h false Hf Hop Hmp Hm) as H0. by destruct d.
      * by apply pass_frame_turn.
    + rewrite <- Ea. by apply limit_turn.
    + intros [= <- <-]. apply turn_close.
  - destruct (d_msg d || d_msg_skip d) eqn:Em; [intros [= <- <-]; apply turn_close|].
    apply orb_false_iff in Em as [Em Em']. rewrite <- Ea. by apply limit_turn.
Qed.

(** Every turn of the loop is one of the cases. *)
Lemma parse_turn_turn d o d' : dir_wf d -> parse_turn cf jset now d = (o, d') -> turn d o d'.
Proof.
  intros Hd. unfold parse_turn. fold (next_of d). fold (avail_of d).
  destruct (Z.ltb_spec 0 (d_skip d)) as [Hs|Hs].
  { intros [= <- <-]. pose proof (turn_skip d Hs) as H0. cbn in *. by destruct d. }
  destruct (parse_header _ _ _) as [h|] eqn:Eh; [|by intros [= <- <-]; apply turn_short].
  pose proof (parse_header_wf _ _ _ _ (dw_bytes Hd) Eh) as Hh.
  destruct (_ && _) eqn:Etop; [intros [= <- <-]; apply turn_close|].
  destruct (xorb (h_masked h) (d_masked d)) eqn:Em;
    [destruct (d_masked d); intros [= <- <-]; apply turn_close|].
  assert (Hf : frame_at d h).
  { split; [done|done|by apply (hw_top _ _ _ _ Hh)|by apply xorb_eq]. }
  destruct (Z.leb_spec 8 (h_opcode h)) as [Ho|Ho]; [|by apply data_turn_turn].
  destruct (bad_control h) eqn:Eb; [intros [= <- <-]; apply turn_close|].
  rewrite (frame_len_u64 d h Hd Hf).
  destruct (Z.ltb_spec (avail_of d) (frame_len h)).
  - intros [= <- <-]. eapply turn_partial_control; try done.
    unfold bad_control in Eb. apply orb_false_iff in Eb as [[_ Eb]%orb_false_iff _]. lia.
  - by apply control_frame_turn.
Qed.

(** ** What a turn keeps *)

Definition stays (d d' : dir_t) : Prop :=
  d'.(d_pos) = d.(d_pos) /\ d'.(d_size) = d.(d_size) /\ d'.(d_mode) = d.(d_mode) /\
  d'.(d_phase) = d.(d_phase) /\ d'.(d_masked) = d.(d_masked) /\ d'.(d_drop) = d.(d_drop) /\
  d'.(d_out) = d.(d_out).

Lemma frame_at_wf d h : dir_wf d -> frame_at d h -> hdr_wf d.(d_mem) (next_of d) (avail_of d) h.
Proof. intros Hd Hf. apply parse_header_wf; [apply (dw_bytes Hd)|apply (fa_hdr d h Hf)]. Qed.

Lemma frame_at_hlen d h :
  dir_wf d -> frame_at d h ->
  (if d.(d_masked) then 6 else 2) <= h.(h_hlen) <= 14 /\ 0 <= h.(h_plen) < 2 ^ 63 /\
  h.(h_hlen) <= avail_of d /\ header_len h.(h_plen) d.(d_masked) <= h.(h_hlen) /\ 0 <= h.(h_opcode) < 16.
Proof.
  intros Hd Hf. pose proof (frame_at_wf d h Hd Hf) as [H1 H2 H3 H4 _ H6]. rewrite (fa_masked d h Hf) in H4.
  pose proof (fa_plen d h Hf). split_and!; try lia.
  unfold header_len in H4. repeat case_match; lia.
Qed.

Lemma counted_wf d d1 : dir_wf d -> counted d d1 -> dir_wf d1.
Proof. intros Hd (?&?&?&?&->). destruct Hd. by split. Qed.

Lemma append_key_side d h :
  dir_wf d -> frame_at d h -> 4 <= h.(h_hlen) \/ d.(d_masked) = false /\ 0 <= h.(h_hlen).
Proof. intros Hd Hf. destruct (frame_at_hlen d h Hd Hf) as [H _]. destruct (d_masked d); [left; lia|right; lia]. Qed.

Lemma seq_wf d q : dir_wf d -> dir_wf (d <| d_seq := q |>).
Proof. intros Hd. eapply counted_wf, counted_seq. done. Qed.

Lemma append_wf d h :
  dir_wf d -> taken d h -> d.(d_msg) = true ->
  exists m', ngx_http_waf_frame_msg_append (next_of d) h.(h_hlen) h.(h_plen) (d <| d_seq := inc d.(d_seq) |>)
    = d <| d_seq := inc d.(d_seq) |> <| d_mem := m' |> <| d_last := d.(d_last) - h.(h_hlen) |>
        <| d_msg_len := d.(d_msg_len) + h.(h_plen) |> <| d_msg_fragments := d.(d_msg_fragments) + 1 |> /\
    is_bytes m' /\ zlen m' = zlen d.(d_mem).
Proof.
  intros Hd Ht Hm. pose proof (tk_at d h Ht) as Hf. pose proof (frame_at_hlen d h Hd Hf) as Hh.
  pose proof (tk_len d h Ht) as Hl. pose proof (append_key_side d h Hd Hf). pose proof (hold_nonneg d Hd).
  destruct (append_spec (next_of d) (h_hlen h) (h_plen h) (d <| d_seq := inc d.(d_seq) |>))
    as (m' & E & Hb & Hz & _); [by apply seq_wf|ptr_lia|done|lia|ptr_lia|].
  exists m'. split_and!; [exact E|done|exact Hz].
Qed.

Lemma after_append_wf d h :
  dir_wf d -> taken d h -> d.(d_msg) = true ->
  dir_wf (ngx_http_waf_frame_msg_append (next_of d) h.(h_hlen) h.(h_plen) (d <| d_seq := inc d.(d_seq) |>)).
Proof.
  intros Hd Ht Hm. destruct (frame_at_hlen d h Hd (tk_at d h Ht)) as (G1 & G2 & _).
  pose proof (tk_len d h Ht) as Hl. destruct (append_wf d h Hd Ht Hm) as (m' & -> & Hb & Hz).
  destruct Hd as [D1 D2 D3 D4 D5 D6 D7]. destruct (D3 Hm).
  split; dir_simpl; try done; unfold avail_of, next_of, frame_len, hold_of in *; rewrite Hm in *;
    [destruct (d_masked d); lia|intros; lia].
Qed.

Lemma seal_wf fin d hlen d1 :
  dir_wf d -> d.(d_msg) = true -> ngx_http_waf_frame_msg_seal fin d = (hlen, d1) ->
  hlen = header_len d.(d_msg_len) d.(d_masked) /\ stays d d1 /\ d1.(d_msg) = false /\
  d1.(d_msg_len) = d.(d_msg_len) /\ d1.(d_cleared) = d.(d_cleared) /\
  d1.(d_last) = d.(d_last) - d.(d_msg_hlen) + hlen /\ d1.(d_skip) = d.(d_skip) /\ d1.(d_seq) = d.(d_seq) /\
  zlen d1.(d_mem) = Z.max (zlen d.(d_mem)) d1.(d_last) /\
  is_bytes d1.(d_mem) /\ d1.(d_msg_key) = d.(d_msg_key) /\ d1.(d_msg_opcode) = d.(d_msg_opcode).
Proof.
  intros Hd Hm E. destruct (seal_spec fin d Hd Hm) as (m' & E' & Hb & Hz & _).
  rewrite E in E'. injection E' as -> ->. unfold stays. by split_and!.
Qed.

Lemma counted_fields d d1 : counted d d1 ->
  stays d d1 /\ hold_of d1 = hold_of d /\ d1.(d_cleared) = d.(d_cleared) /\ d1.(d_last) = d.(d_last) /\
  d1.(d_skip) = d.(d_skip) /\ d1.(d_mem) = d.(d_mem) /\ d1.(d_msg) = d.(d_msg) /\
  d1.(d_msg_len) = d.(d_msg_len) /\ d1.(d_msg_hlen) = d.(d_msg_hlen) /\ d1.(d_msg_skip) = d.(d_msg_skip) /\
  d1.(d_msg_key) = d.(d_msg_key) /\ d1.(d_msg_opcode) = d.(d_msg_opcode).
Proof. intros (?&?&?&?&->). unfold stays. by split_and!. Qed.

(** The direction after a control frame was removed, or let through. *)
Lemma cut_counted d d1 h :
  dir_wf d -> frame_at d h -> frame_len h <= avail_of d -> counted d d1 ->
  exists m', ngx_http_waf_frame_cut (next_of d) (frame_len h) d1
             = d1 <| d_mem := m' |> <| d_last := d.(d_last) - frame_len h |> /\
    is_bytes m' /\ zlen m' = zlen d.(d_mem) /\ keeps_below d.(d_mem) m' (next_of d) /\
    moves d.(d_mem) m' (next_of d + frame_len h) (next_of d) (avail_of d - frame_len h).
Proof.
  intros Hd Hf Hl Hc. pose proof (frame_at_hlen d h Hd Hf) as Hh. pose proof (hold_nonneg d Hd).
  assert (0 <= h_hlen h) by (destruct (d_masked d); lia).
  destruct (counted_fields d d1 Hc) as (_ & E1 & E2 & E3 & E4 & E5 & _).
  destruct (cut_spec (next_of d) (frame_len h) d1) as (m' & E & Hb & Hz & Hk & Hmv);
    [by eapply counted_wf|rewrite E2; ptr_lia|unfold frame_len; lia|rewrite E3; ptr_lia|].
  rewrite E3, E5 in *. exists m'. split_and!; try done.
  by replace (avail_of d - frame_len h) with (d_last d - (next_of d + frame_len h)) by (unfold avail_of; lia).
Qed.

Lemma control_counted d d1 h :
  dir_wf d -> frame_at d h -> frame_len h <= avail_of d -> counted d d1 ->
  exists m', (if hold_of d =? 0 then d1 else ngx_http_waf_frame_hoist (next_of d) (frame_len h) d1)
             = d1 <| d_mem := m' |> /\
    is_bytes m' /\ zlen m' = zlen d.(d_mem) /\ keeps_below d.(d_mem) m' d.(d_cleared) /\
    slice m' d.(d_cleared) (frame_len h) = slice d.(d_mem) (next_of d) (frame_len h) /\
    moves d.(d_mem) m' d.(d_cleared) (d.(d_cleared) + frame_len h) (hold_of d) /\
    (forall b n, next_of d + frame_len h <= b -> slice m' b n = slice d.(d_mem) b n).
Proof.
  intros Hd Hf Hl Hc. pose proof (frame_at_hlen d h Hd Hf) as Hh. pose proof (hold_nonneg d Hd).
  assert (0 <= h_hlen h) by (destruct (d_masked d); lia).
  destruct (counted_fields d d1 Hc) as (_ & E1 & E2 & E3 & E4 & E5 & _).
  destruct (Z.eqb_spec (hold_of d) 0) as [Hz|Hz].
  - exists (d_mem d). assert (En : next_of d = d_cleared d) by (unfold next_of; lia). rewrite En, Hz.
    split_and!; try done; [|apply (dw_bytes Hd)|].
    + rewrite <- E5. by destruct d1.
    + intros k j ???. replace j with 0 by lia. by rewrite !slice_nil.
  - destruct (hoist_spec (next_of d) (frame_len h) d1) as (m' & E & Hb & Hzl & Hk & Hs & Hmv & Ha);
      [by eapply counted_wf|rewrite E2; ptr_lia|unfold frame_len; lia|rewrite E3; ptr_lia|].
    rewrite E2, E5 in *. exists m'. split_and!; try done.
    by replace (hold_of d) with (next_of d - d_cleared d) by (unfold next_of; lia).
Qed.

Lemma frame_key_len d h k :
  dir_wf d -> frame_at d h -> frame_key h (next_of d) d = Some k -> is_bytes k /\ zlen k = 4.
Proof.
  intros Hd Hf. pose proof (frame_at_hlen d h Hd Hf) as Hh. pose proof (hold_nonneg d Hd).
  pose proof (dw_pos Hd). pose proof (dir_last d Hd). unfold frame_key. destruct (h_masked h) eqn:Em; [|by intros]. intros [= <-].
  rewrite <- (fa_masked d h Hf), Em in Hh.
  split; [apply is_bytes_slice, (dw_bytes Hd)|]. apply zlen_slice; unfold avail_of, next_of in *; lia.
Qed.

Lemma fragment_key_eq d h :
  dir_wf d -> frame_at d h ->
  exists k, fragment_key h d = d <| d_msg_key := k |> /\ is_bytes k /\ zlen k = 4.
Proof.
  intros Hd Hf. unfold fragment_key. destruct (frame_key h (next_of d) d) as [k|] eqn:E.
  - exists k. split; [done|]. by eapply frame_key_len.
  - exists (d_msg_key d). split; [by destruct d|]. apply (dw_key Hd).
Qed.

(** The fields that decide about well-formedness and progress after a turn. *)
Lemma turn_wf d o d' : dir_wf d -> turn d o d' -> dir_wf d' /\ stays d d'.
Proof.
  intros Hd Ht. pose proof (hold_nonneg d Hd) as Hh0. pose proof (dir_last d Hd) as Hlast.
  destruct Ht as [| | |Hs take| |h d1 Hf Ho Hnc Hpl Hl Hc|h d1 Hf Ho Hpl Hl Hc|h b Hf Ho Hp Hm
    |h d1 hl Hf Ho Hp Hm Es|h Ht Hj|h Ht Hj
    |h Ht Ha Hfin Hop Hm Hskip|h Ht Hi Hfin Hm|h hl d1 Ht Hi Hm Es|h Ht Hi Hm]; try done.
  - split; [|unfold stays; by split_and!]. destruct Hd as [D1 D2 D3 D4 D5 D6 D7].
    split; dir_simpl; try done; unfold take, avail_of, next_of, hold_of in *; lia.
  - destruct (cut_counted d d1 h Hd Hf Hl Hc) as (m' & -> & Hb & Hz & _).
    destruct (frame_at_hlen d h Hd Hf) as (G1 & G2 & _).
    destruct Hc as (?&?&?&?&->). split; [|unfold stays; by split_and!].
    destruct Hd as [D1 D2 D3 D4 D5 D6 D7]. split; dir_simpl; try done.
    unfold avail_of, next_of, frame_len, hold_of in *. destruct (d_masked d); lia.
  - destruct (control_counted d d1 h Hd Hf Hl Hc) as (m' & -> & Hb & Hz & _).
    destruct (frame_at_hlen d h Hd Hf) as (G1 & G2 & _).
    destruct Hc as (?&?&?&?&->). split; [|unfold stays; by split_and!].
    destruct Hd as [D1 D2 D3 D4 D5 D6 D7]. split; dir_simpl; try done;
      unfold avail_of, next_of, frame_len, hold_of in *; [destruct (d_masked d); lia|lia].
  - split; [|unfold stays; by split_and!]. destruct Hd as [D1 D2 D3 D4 D5 D6 D7].
    split; dir_simpl; try done; congruence.
  - destruct (seal_wf false d hl d1 Hd Hm Es) as (-> & S & E1 & E2 & E3 & E4 & E5 & E6 & E7 & E8 & E9 & E10).
    pose proof (header_len_range (d_msg_len d) (d_masked d)). split; [|exact S].
    destruct S as (S1&S2&S3&S4&S5&S6&S7). destruct Hd as [D1 D2 D3 D4 D5 D6 D7].
    destruct (D3 Hm) as [D3a D3b]. rewrite Hm in D2.
    split; dir_simpl; rewrite ?E1, ?E9, ?E10, ?S1; try done; lia.
  - destruct (frame_at_hlen d h Hd (tk_at d h Ht)) as (G1 & G2 & _). pose proof (tk_len d h Ht) as Hl.
    split; [|unfold stays; by split_and!]. destruct Hd as [D1 D2 D3 D4 D5 D6 D7].
    split; dir_simpl; try done; unfold avail_of, next_of, frame_len, hold_of in *; [destruct (d_masked d); lia|lia].
  - destruct (frame_at_hlen d h Hd (tk_at d h Ht)) as (G1 & G2 & G3 & G4 & G5). pose proof (tk_len d h Ht) as Hl.
    destruct (fragment_key_eq d h Hd (tk_at d h Ht)) as (k & -> & Hk & Hk4).
    split; [|unfold stays; by split_and!]. assert (Hz : hold_of d = 0) by (unfold hold_of; by rewrite Hm).
    destruct Hd as [D1 D2 D3 D4 D5 D6 D7].
    split; dir_simpl; try done; unfold avail_of, next_of, frame_len in *; try lia.
    intros _. split; [|exact Hskip]. unfold assembling in Ha.
    apply andb_prop in Ha as [_ Ha]. by apply bool_decide_eq_true in Ha.
  - destruct (frame_at_hlen d h Hd (tk_at d h Ht)) as (G1 & G2 & _). pose proof (tk_len d h Ht) as Hl.
    split; [by apply after_append_wf|]. destruct (append_wf d h Hd Ht Hm) as (m' & -> & Hb & Hz).
    unfold stays; by split_and!.
  - destruct (frame_at_hlen d h Hd (tk_at d h Ht)) as (G1 & G2 & _). pose proof (tk_len d h Ht) as Hl.
    destruct (append_wf d h Hd Ht Hm) as (m' & Ea & Hb & Hz). rewrite Ea in Es.
    set (da := _ <| d_msg_fragments := _ |>) in Es.
    assert (Hda : dir_wf da) by (unfold da; rewrite <- Ea; by apply after_append_wf).
    assert (Hma : d_msg da = true) by exact Hm.
    destruct (seal_wf true da hl d1 Hda Hma Es) as (-> & S & E1 & E2 & E3 & E4 & E5 & E6 & E7 & E8 & E9 & E10).
    split; [|exact S]. destruct S as (S1&S2&S3&S4&S5&S6&S7). destruct Hda as [D1 D2 D3 D4 D5 D6 D7].
    destruct (D3 Hma) as [D3a D3b]. rewrite Hma in D2.
    pose proof (header_len_range (d_msg_len da) (d_masked da)).
    split; dir_simpl; rewrite ?E1, ?E9, ?E10, ?S1, ?E3; try done; lia.
Qed.

(** ** The loop ends *)

(** Two for every byte ahead, and one when the next frame is still to be
    looked at. *)
Definition mu (d : dir_t) : Z := 2 * avail_of d + (if 0 <? d.(d_skip) then 0 else 1).

Lemma mu_nonneg d : dir_wf d -> 0 <= mu d.
Proof. intros Hd. pose proof (dir_last d Hd). unfold mu, avail_of, next_of. case_match; lia. Qed.

Lemma mu_bound d : mu d <= 2 * avail_of d + 1.
Proof. unfold mu. case_match; lia. Qed.
Lemma mu_passed d : 0 < d.(d_skip) -> mu d = 2 * avail_of d.
Proof. intros. unfold mu. rewrite (proj2 (Z.ltb_lt 0 _)); lia. Qed.
Lemma mu_waiting d : d.(d_skip) <= 0 -> mu d = 2 * avail_of d + 1.
Proof. intros. unfold mu. rewrite (proj2 (Z.ltb_ge 0 _)); lia. Qed.

(** A length that is passed over does not turn the count of bytes to skip
    negative. *)
Lemma skip_of_pos d h : dir_wf d -> frame_at d h -> frame_len h < 2 ^ 63 -> skip_of h = frame_len h.
Proof.
  intros Hd Hf Hl. destruct (frame_at_hlen d h Hd Hf) as (G1 & G2 & _).
  assert (0 < h_hlen h) by (destruct (d_masked d); lia).
  unfold skip_of. rewrite s64_u64. apply s64_small. unfold is_s64, frame_len in *. lia.
Qed.
Lemma skip_of_sign d h : dir_wf d -> frame_at d h -> frame_len h < 2 ^ 63 -> 0 < skip_of h.
Proof.
  intros Hd Hf Hl. destruct (frame_at_hlen d h Hd Hf) as (G1 & G2 & _). rewrite (skip_of_pos d h) by done.
  unfold frame_len. destruct (d_masked d); lia.
Qed.

(** A frame whose length with its header reaches 2^63. *)
Definition huge (d : dir_t) : Prop := exists h, frame_at d h /\ 2 ^ 63 <= frame_len h.

Lemma turn_progress d d' : dir_wf d -> turn d PContinue d' -> mu d' < mu d \/ huge d.
Proof.
  intros Hd Ht. pose proof (hold_nonneg d Hd) as Hh0. pose proof (dir_last d Hd) as Hlast.
  remember PContinue as o eqn:Eo.
  destruct Ht as [| | |Hs take| |h d1 Hf Ho Hnc Hpl Hl Hc|h d1 Hf Ho Hpl Hl Hc|h b Hf Ho Hp Hm
    |h d1 hl Hf Ho Hp Hm Es|h Ht Hj|h Ht Hj
    |h Ht Ha Hfin Hop Hm Hskip|h Ht Hi Hfin Hm|h hl d1 Ht Hi Hm Es|h Ht Hi Hm]; try done.
  - left. destruct (Z.ltb_spec 0 (d_skip d - take)); [done|]. rewrite (mu_passed d Hs).
    eapply Z.le_lt_trans; [apply mu_bound|].
    unfold take, avail_of, next_of, hold_of in *. dir_simpl. lia.
  - left. rewrite (mu_waiting d (fa_skip d h Hf)). destruct (frame_at_hlen d h Hd Hf) as (G1 & G2 & _).
    destruct (cut_counted d d1 h Hd Hf Hl Hc) as (m' & -> & _). destruct Hc as (?&?&?&?&->).
    eapply Z.le_lt_trans; [apply mu_bound|].
    unfold avail_of, next_of, frame_len, hold_of in *. dir_simpl. destruct (d_masked d); lia.
  - left. rewrite (mu_waiting d (fa_skip d h Hf)). destruct (frame_at_hlen d h Hd Hf) as (G1 & G2 & _).
    destruct (control_counted d d1 h Hd Hf Hl Hc) as (m' & -> & _). destruct Hc as (?&?&?&?&->).
    eapply Z.le_lt_trans; [apply mu_bound|].
    unfold avail_of, next_of, frame_len, hold_of in *. dir_simpl. destruct (d_masked d); lia.
  - destruct (Z.lt_ge_cases (frame_len h) (2 ^ 63)); [left|right; by exists h].
    rewrite (mu_waiting d (fa_skip d h Hf)). rewrite mu_passed by (by eapply skip_of_sign).
    unfold avail_of, next_of, hold_of. dir_simpl. lia.
  - destruct (Z.lt_ge_cases (frame_len h) (2 ^ 63)); [left|right; by exists h].
    destruct (seal_wf false d hl d1 Hd Hm Es) as (-> & S & E1 & E2 & E3 & E4 & _).
    rewrite (mu_waiting d (fa_skip d h Hf)). rewrite mu_passed by (by eapply skip_of_sign).
    unfold avail_of, next_of, hold_of. dir_simpl. rewrite Hm, E1. lia.
  - left. pose proof (tk_at d h Ht) as Hf. rewrite (mu_waiting d (fa_skip d h Hf)).
    destruct (frame_at_hlen d h Hd Hf) as (G1 & G2 & _). eapply Z.le_lt_trans; [apply mu_bound|].
    unfold avail_of, next_of, frame_len, hold_of in *. dir_simpl. destruct (d_masked d); lia.
  - left. pose proof (tk_at d h Ht) as Hf. rewrite (mu_waiting d (fa_skip d h Hf)).
    destruct (frame_at_hlen d h Hd Hf) as (G1 & G2 & _).
    destruct (fragment_key_eq d h Hd Hf) as (k & -> & _).
    eapply Z.le_lt_trans; [apply mu_bound|].
    unfold avail_of, next_of, frame_len, hold_of in *. dir_simpl. rewrite Hm in *. destruct (d_masked d); lia.
  - left. pose proof (tk_at d h Ht) as Hf. rewrite (mu_waiting d (fa_skip d h Hf)).
    destruct (frame_at_hlen d h Hd Hf) as (G1 & G2 & _).
    destruct (append_wf d h Hd Ht Hm) as (m' & -> & _). eapply Z.le_lt_trans; [apply mu_bound|].
    unfold avail_of, next_of, frame_len, hold_of in *. dir_simpl. rewrite Hm in *. destruct (d_masked d); lia.
Qed.

(** The states the loop comes through. *)
Definition goes_on (d d' : dir_t) : Prop := parse_turn cf jset now d = (PContinue, d').

Lemma parse_loop_ends n d :
  dir_wf d -> mu d < Z.of_nat n ->
  (forall d' h, rtc goes_on d d' -> frame_at d' h -> frame_len h < 2 ^ 63) ->
  exists o d', parse_loop n cf jset now d = Some (o, d') /\ o <> PContinue /\ dir_wf d' /\ stays d d' /\
    exists d1, rtc goes_on d d1 /\ dir_wf d1 /\ parse_turn cf jset now d1 = (o, d').
Proof.
  revert d. induction n as [|n IH]; intros d Hd Hn Hh; [pose proof (mu_nonneg d Hd); lia|].
  cbn [parse_loop]. destruct (parse_turn cf jset now d) as [o d'] eqn:E.
  pose proof (parse_turn_turn d o d' Hd E) as Ht. destruct (turn_wf d o d' Hd Ht) as [Hd' Hst].
  destruct o; try (eexists _, _; split; [done|]; split_and!; try done; by exists d; eauto using rtc_refl).
  assert (Hg : goes_on d d') by done.
  destruct (IH d') as (o & d2 & H1 & H2 & H3 & H4 & d1 & H5 & H6 & H7); try done.
  - destruct (turn_progress d d' Hd Ht) as [|(h & Hf & Hl)]; [lia|]. specialize (Hh d h (rtc_refl _ _) Hf). lia.
  - intros d2 h Hr. apply Hh. by eapply rtc_l.
  - exists o, d2. split_and!; try done.
    + unfold stays in *. intuition congruence.
    + exists d1. split_and!; try done. by eapply rtc_l.
Qed.

Lemma parse_fuel_enough d :
  dir_wf d ->
  (forall d' h, rtc goes_on d d' -> frame_at d' h -> frame_len h < 2 ^ 63) ->
  exists o d', parse_loop (parse_fuel d) cf jset now d = Some (o, d') /\ o <> PContinue /\ dir_wf d'.
Proof.
  intros Hd Hh. destruct (parse_loop_ends (parse_fuel d) d) as (o & d' & H1 & H2 & H3 & _); try done.
  - pose proof (mu_bound d). pose proof (dir_last d Hd). unfold parse_fuel, avail_of, next_of in *. lia.
  - by exists o, d'.
Qed.

(** A parser that does not leave its loop in time has come to such a frame. *)
Lemma parse_loop_huge n d : dir_wf d -> mu d < Z.of_nat n -> parse_loop n cf jset now d = None ->
  exists d', rtc goes_on d d' /\ huge d'.
Proof.
  revert d. induction n as [|n IH]; intros d Hd Hn; [pose proof (mu_nonneg d Hd); lia|].
  cbn [parse_loop]. destruct (parse_turn cf jset now d) as [o d'] eqn:E.
  pose proof (parse_turn_turn d o d' Hd E) as Ht. destruct (turn_wf d o d' Hd Ht) as [Hd' _].
  destruct o; try done. intros Hl. destruct (turn_progress d d' Hd Ht) as [Hmu|Hg]; [|by exists d].
  destruct (IH d' Hd' ltac:(lia) Hl) as (d2 & H1 & H2). exists d2. split; [by eapply rtc_l|done].
Qed.
Lemma parse_fuel_huge d : dir_wf d -> parse_loop (parse_fuel d) cf jset now d = None ->
  exists d', rtc goes_on d d' /\ huge d'.
Proof.
  intros Hd. apply parse_loop_huge; [done|]. pose proof (mu_bound d). pose proof (dir_last d Hd).
  unfold parse_fuel, avail_of, next_of in *. lia.
Qed.

(** A frame of a direction without reassembly, or a whole frame, whose length
    reaches 2^63 with its header and which is not refused for its size. *)
Record endless (d : dir_t) (h : hdr) : Prop := {
  en_at : frame_at d h;
  en_op : h.(h_opcode) <= NGX_HTTP_WAF_WS_OP_BINARY;
  en_len : 2 ^ 63 <= frame_len h;
  en_msg : d.(d_msg) = false;
  en_pass : d.(d_mode) = FRAME_PASS \/
    limit_of d < h.(h_plen) /\ (cf.(wc_body_limit_policy) d.(d_phase) <> POLICY_BLOCK \/ d.(d_mode) <> FRAME_INSPECT);
  en_whole : assembling d = false \/
    h.(h_fin) = true /\ h.(h_opcode) <> NGX_HTTP_WAF_WS_OP_CONT /\ d.(d_msg_skip) = false
}.

Lemma skip_of_neg d h : dir_wf d -> frame_at d h -> 2 ^ 63 <= frame_len h -> skip_of h < 0.
Proof.
  intros Hd Hf Hl. destruct (frame_at_hlen d h Hd Hf) as (G1 & G2 & _).
  unfold skip_of. rewrite s64_u64. unfold s64, frame_len in *.
  replace (h_hlen h + h_plen h + 2 ^ 63) with (h_hlen h + h_plen h - 2 ^ 63 + 1 * 2 ^ 64) by lia.
  rewrite Z.mod_add, Z.mod_small by lia. lia.
Qed.

Lemma endless_passes d h :
  dir_wf d -> endless d h -> data_turn cf jset (next_of d) (avail_of d) h d = pass_frame h d.
Proof.
  intros Hd [Hf Ho Hl Hm Hp Hw]. destruct (frame_at_hlen d h Hd Hf) as (G1 & G2 & _).
  unfold data_turn. fold (assembling d). rewrite (proj2 (Z.ltb_ge _ _)) by lia.
  destruct (bool_decide_reflect (d_mode d = FRAME_PASS)) as [|Hnp]; [done|].
  assert (fragment_check (assembling d) h d = None) as ->.
  { unfold fragment_check. destruct (assembling d); cbn [andb]; [|done].
    destruct Hw as [|(_ & Hc & Hs)]; [done|]. rewrite (proj2 (Z.eqb_neq _ _) Hc), Hm, Hs. done. }
  destruct Hp as [|[Hlim Hb]]; [done|]. rewrite Hm, Z.add_0_r, u64_small by (unfold is_u64; lia).
  fold (limit_of d). rewrite (proj2 (Z.ltb_lt _ _) Hlim).
  assert ((cf.(wc_body_limit_policy) d.(d_phase) ==? POLICY_BLOCK) && (d_mode d ==? FRAME_INSPECT) = false) as ->.
  { apply andb_false_iff. destruct Hb; [left|right]; by apply bool_decide_eq_false. }
  unfold pass_uninspected. rewrite Hm.
  destruct Hw as [->|(Hfin & _)]; [done|]. rewrite Hfin. by rewrite andb_false_r.
Qed.

(** The turn at a frame with an acceptable header. *)
Lemma parse_turn_at d h :
  dir_wf d -> frame_at d h ->
  parse_turn cf jset now d =
    if 8 <=? h.(h_opcode) then
      if bad_control h then
        (PClose NGX_HTTP_WAF_WS_CLOSE_PROTOCOL (lit "bad control frame") (lit "malformed control frame"), d)
      else if avail_of d <? u64 (h.(h_hlen) + h.(h_plen)) then (PAgain, d)
      else control_frame cf now (next_of d) (hold_of d) h d
    else data_turn cf jset (next_of d) (avail_of d) h d.
Proof.
  intros Hd Hf. destruct (frame_at_wf d h Hd Hf) as [G1 G2 G3 G4 G5 G6].
  unfold parse_turn. fold (next_of d). fold (avail_of d). rewrite (proj2 (Z.ltb_ge _ _) (fa_skip d h Hf)).
  rewrite (fa_hdr d h Hf). destruct (_ && negb (Z.land (h_plen h) (2 ^ 63) =? 0)) eqn:Et.
  - exfalso. apply andb_prop in Et as [_ Et]. pose proof (fa_plen d h Hf).
    assert (Z.land (h_plen h) (2 ^ 63) = 0); [|lia].
    apply Z.bits_inj'. intros i Hi. rewrite Z.land_spec, Z.testbit_0_l.
    destruct (Z.eq_dec i 63) as [->|]; [|by rewrite Z.pow2_bits_false, andb_false_r].
    destruct (Z.eq_dec (h_plen h) 0) as [->|]; [by rewrite Z.testbit_0_l|].
    rewrite (Z.bits_above_log2 (h_plen h)); [done|lia|apply Z.log2_lt_pow2; lia].
  - by rewrite (fa_masked d h Hf), xorb_nilpotent.
Qed.

Lemma endless_turn d h :
  dir_wf d -> endless d h ->
  exists d', parse_turn cf jset now d = (PContinue, d') /\ dir_wf d' /\ endless d' h.
Proof.
  intros Hd He. pose proof (en_at d h He) as Hf. destruct (frame_at_wf d h Hd Hf) as [G1 G2 G3 G4 G5 G6].
  exists (d <| d_seq ::= inc |> <| d_skip := skip_of h |>).
  assert (Hneg : skip_of h < 0) by (apply (skip_of_neg d); [done..|apply (en_len d h He)]).
  split_and!.
  - rewrite (parse_turn_at d h Hd Hf). pose proof (en_op d h He).
    rewrite (proj2 (Z.leb_gt _ _)) by (unfold NGX_HTTP_WAF_WS_OP_BINARY in *; lia).
    by rewrite endless_passes.
  - destruct Hd. by split.
  - destruct He as [[F1 F2 F3 F4] E2 E3 E4 E5 E6]. split; try done. split; try done. dir_simpl. lia.
Qed.

(** The parser never leaves its loop once it has come to such a frame: the
    count of bytes to skip is negative, so that nothing is skipped and the
    same header is read again. *)
Theorem endless_frame_hangs d h fuel :
  dir_wf d -> endless d h -> parse_loop fuel cf jset now d = None.
Proof.
  intros Hd He. revert d Hd He. induction fuel as [|n IH]; intros d Hd He; [done|].
  cbn [parse_loop]. destruct (endless_turn d h Hd He) as (d' & -> & Hd' & He'). by apply IH.
Qed.

End turns.

End WsFrameFacts.
