(* ===== verification/WsSession.v ===== *)
(** A connection after the handshake of a WebSocket
    (stream/ngx_http_waf_frame.c): two directions, at most one frame under
    inspection, and the pump that moves bytes from one peer to the other.

    The request handler, the store of bodies, the peers and the allocator are
    met through their answers, which are drawn in order from the streams of
    [env]: a call of the handler ends in a return code, in
    [ngx_http_waf_frame_finish], or in a nested [ngx_http_waf_frame_resume];
    [s_out] collects the bytes a peer was sent.  The part of the request the
    code works on is the [req] of the handler; its deadline timer and the body
    store entry of a frame ([ngx_http_waf_body_frame_end]) are left out, and so
    are logging, audit and the event and connection objects of nginx. *)
From S2P Require Import Prelude Types Masks Sha256 FrameCache Slots Graph Verdict Breaker Handler WsFrame WsMem.
#[local] Open Scope Z_scope.

Module WsSession.
Import Masks Verdict Handler WsFrame WsMem.

Inductive side := C2S | S2C.
#[export] Instance side_eq_dec : EqDecision side.
Proof. solve_decision. Defined.

(** The return codes that meet here: [NGX_ABORT], and those of the handler. *)
Inductive frc := FRC (rc : hrc) | NGX_ABORT.
#[export] Instance frc_eq_dec : EqDecision frc.
Proof. solve_decision. Defined.

(** ** What the code meets *)

Inductive hres :=
  | HRet (rc : hrc) (q : req)
  | HFinish (how : how_e) (q : req)
  | HResume (q : req).

(** [ngx_http_waf_store_get]: it answers later, fails, or has the object with
    a status. *)
Inductive store_ans := SA_AGAIN | SA_ERROR | SA_DONE (status : ngx_rc) (data : bytes).

Inductive send_ans := SND_NOT_READY | SND_SENT (n : Z) | SND_ERROR.
Inductive recv_ans := RCV_NOT_READY | RCV_DATA (s : bytes) | RCV_EOF | RCV_ERROR.

Record env := mkEnv {
  e_clock : Z;
  e_alloc : alloc_stream;
  e_handler : list hres;
  e_store : list store_ans;
  e_send : side -> list send_ans;
  e_recv : side -> list recv_ans
}.
#[export] Instance eta_env : Eta env := fun r =>
  mkEnv r.(e_clock) r.(e_alloc) r.(e_handler) r.(e_store) r.(e_send) r.(e_recv).

(** ** The connection *)

Record fc_t := mkFc {
  fc_c2s : dir_t;
  fc_s2c : dir_t;
  fc_cur : option side;
  fc_pool : bool;
  fc_body : bytes;
  fc_close_code : Z;
  fc_close_reason : bytes;
  fc_close_why : option bytes;
  fc_settled : bool;
  fc_fetching : bool;
  fc_in_stack : bool;
  fc_closing : bool;
  fc_rewrite_index : Z;
  fc_sha256 : bytes;
  fc_sha_set : bool;
  fc_cached : bool;
  fc_saved_actions : option (list action_t);
  fc_saved_markers : option (list bytes);
  fc_conn_ctl : phase_e -> control_t;
  fc_conn_audit : audit_ovr;
  fc_ctl_init : bool
}.
#[export] Instance eta_fc_t : Eta fc_t := fun r =>
  mkFc r.(fc_c2s) r.(fc_s2c) r.(fc_cur) r.(fc_pool) r.(fc_body) r.(fc_close_code) r.(fc_close_reason)
    r.(fc_close_why) r.(fc_settled) r.(fc_fetching) r.(fc_in_stack) r.(fc_closing) r.(fc_rewrite_index)
    r.(fc_sha256) r.(fc_sha_set) r.(fc_cached) r.(fc_saved_actions) r.(fc_saved_markers) r.(fc_conn_ctl)
    r.(fc_conn_audit) r.(fc_ctl_init).

(** [s_gone] is [ctx->frame == NULL] after the end of the session, [s_out] the
    bytes sent to the peer of each direction, [s_eof] that the source of the
    direction has ended, [s_final] the close frame sent at the end. *)
Record sess := mkSess {
  s_fc : fc_t;
  s_req : req;
  s_cache : FrameCache.fcache;
  s_env : env;
  s_out : side -> bytes;
  s_eof : side -> bool;
  s_gone : bool;
  s_final : option bytes
}.
#[export] Instance eta_sess : Eta sess := fun r =>
  mkSess r.(s_fc) r.(s_req) r.(s_cache) r.(s_env) r.(s_out) r.(s_eof) r.(s_gone) r.(s_final).

Definition sset {A} (f : side -> A) (s : side) (x : A) : side -> A :=
  fun t => if decide (t = s) then x else f t.

Definition dir_of (s : side) (fc : fc_t) : dir_t := match s with C2S => fc.(fc_c2s) | S2C => fc.(fc_s2c) end.
Definition on_dir (s : side) (f : dir_t -> dir_t) (fc : fc_t) : fc_t :=
  match s with C2S => fc <| fc_c2s ::= f |> | S2C => fc <| fc_s2c ::= f |> end.

Definition on_fc (f : fc_t -> fc_t) (x : sess) : sess := x <| s_fc ::= f |>.
Definition on_d (s : side) (f : dir_t -> dir_t) (x : sess) : sess := on_fc (on_dir s f) x.
Definition on_req (f : req -> req) (x : sess) : sess := x <| s_req ::= f |>.
Definition dir (s : side) (x : sess) : dir_t := dir_of s x.(s_fc).

(** *** Drawing an answer *)

Definition draw_alloc (x : sess) : bool * sess :=
  let '(b, o) := alloc x.(s_env).(e_alloc) in (b, x <| s_env ::= fun e => e <| e_alloc := o |> |>).
Definition draw_handler (x : sess) : hres * sess :=
  match x.(s_env).(e_handler) with
  | [] => (HRet (RC NGX_DONE) x.(s_req), x)
  | a :: l => (a, x <| s_env ::= fun e => e <| e_handler := l |> |>)
  end.
Definition draw_store (x : sess) : store_ans * sess :=
  match x.(s_env).(e_store) with
  | [] => (SA_ERROR, x)
  | a :: l => (a, x <| s_env ::= fun e => e <| e_store := l |> |>)
  end.
Definition draw_send (s : side) (x : sess) : send_ans * sess :=
  match x.(s_env).(e_send) s with
  | [] => (SND_NOT_READY, x)
  | a :: l => (a, x <| s_env ::= fun e => e <| e_send := sset e.(e_send) s l |> |>)
  end.
Definition draw_recv (s : side) (x : sess) : recv_ans * sess :=
  match x.(s_env).(e_recv) s with
  | [] => (RCV_NOT_READY, x)
  | a :: l => (a, x <| s_env ::= fun e => e <| e_recv := sset e.(e_recv) s l |> |>)
  end.

(** ** Attaching *)

(** A connection zeroed by [ngx_pcalloc]. *)
Definition fc0 : fc_t :=
  mkFc dir0 dir0 None false [] 0 [] None false false false false 0 [] false false None None
    (fun _ => mkControl 0 0 0 0) (mkAuditOvr ovr_part0 ovr_part0) false.

(** [fresh] is the memory of the buffers, in the order they are allocated;
    [seed] the bytes that came with the handshake.  [ctx->frame] is set on
    [NGX_OK] only; the hash of the route, the name of the connection and the
    subprotocol are not part of the model. *)
Definition ngx_http_waf_frame_attach (cf : fconf) (ovr : set_e) (fresh : side -> option bytes) (seed : side -> bytes)
    : ngx_rc * fc_t :=
  match ngx_http_waf_frame_dir_init cf (fresh C2S) PHASE_FRAME_C2S
          (ngx_http_waf_frame_mode cf ovr PHASE_FRAME_C2S) (seed C2S) dir0 with
  | (NGX_OK, c2s) =>
      match ngx_http_waf_frame_dir_init cf (fresh S2C) PHASE_FRAME_S2C
              (ngx_http_waf_frame_mode cf ovr PHASE_FRAME_S2C) (seed S2C) dir0 with
      | (NGX_OK, s2c) => (NGX_OK, fc0 <| fc_c2s := c2s <| d_masked := true |> |> <| fc_s2c := s2c |>)
      | (_, s2c) => (NGX_ERROR, fc0 <| fc_c2s := c2s |> <| fc_s2c := s2c |>)
      end
  | (_, c2s) => (NGX_ERROR, fc0 <| fc_c2s := c2s |>)
  end.

Section session.
Context (cf : fconf) (route_hash : Z).
(** [ngx_http_waf_deny_entry_pub]: whether the entry is of the type WebSocket,
    its code and its reason. *)
Context (deny_entry : req -> option (bool * Z * bytes)).
(** [reply->no_cache], or headers and cookies in the reply of an inspector. *)
Context (reply_marks : req -> Z -> bool).

(** ** Closing *)

Definition ngx_http_waf_frame_set_close (code : Z) (reason why : bytes) (fc : fc_t) : fc_t :=
  let len := if NGX_HTTP_WAF_WS_REASON_MAX <? zlen reason then NGX_HTTP_WAF_WS_REASON_MAX else zlen reason in
  fc <| fc_close_reason := take (Z.to_nat len) reason |> <| fc_close_code := code |>
     <| fc_close_why := Some why |> <| fc_closing := true |>.

Definition close_internal (why : bytes) (x : sess) : sess :=
  on_fc (ngx_http_waf_frame_set_close NGX_HTTP_WAF_WS_CLOSE_INTERNAL (lit "internal error") why) x.

(** The code of the reason: of the local rule, or of the decisive reply
    ([reason_of]). *)
Context (reason_of : req -> bytes).
Definition ngx_http_waf_frame_deny_close (x : sess) : sess :=
  let policy code reason := on_fc (ngx_http_waf_frame_set_close code reason (lit "policy")) x in
  let plain :=
    let q := x.(s_req) in
    let code := if q.(q_by_local) && negb (zlen q.(q_local_rule) =? 0) then Some q.(q_local_rule)
                else if match (ph q.(q_ctx)).(ph_decisive) with Some _ => negb (zlen (reason_of q) =? 0)
                        | None => false end
                then Some (reason_of q) else None in
    match code with
    | Some c => policy NGX_HTTP_WAF_WS_CLOSE_POLICY c
    | None => policy NGX_HTTP_WAF_WS_CLOSE_POLICY (lit "policy violation")
    end in
  match deny_entry x.(s_req) with
  | Some (true, code, reason) => if negb (code =? 0) then policy code reason else plain
  | _ => plain
  end.

(** ** One frame *)

(** The phase context of a frame: zeroed, then set. *)
Definition frame_phase0 : phase_ctx := phase_ctx0 <| ph_agent_settled := true |>.

(** The copy of a saved array in the pool of the frame. *)
Definition copy_array {A} (saved : option (list A)) (x : sess) : option (list A) * sess :=
  match saved with
  | Some (a :: l) =>
      let '(ok, x) := draw_alloc x in
      if negb ok then (None, x)
      else let '(ok, x) := draw_alloc x in (if ok then saved else Some [], x)
  | _ => (None, x)
  end.

(** The reset of the context for the phase of the frame. *)
Definition begin_ctx (s : side) (x : sess) : sess :=
  let phase := (dir s x).(d_phase) in
  let c := x.(s_req).(q_ctx) in
  let x := on_fc (fun fc => fc <| fc_saved_actions := c.(c_actions) |> <| fc_saved_markers := c.(c_markers) |>) x in
  let x := if x.(s_fc).(fc_ctl_init) then x
           else on_fc (fun fc => fc <| fc_conn_ctl := c.(c_ctl) |> <| fc_conn_audit := c.(c_ovr_request) |>
                                    <| fc_ctl_init := true |>) x in
  let '(actions, x) := copy_array c.(c_actions) x in
  let '(markers, x) := copy_array c.(c_markers) x in
  let c := c <| c_phases := pset c.(c_phases) phase frame_phase0 |> <| c_phase := phase |>
             <| c_state := ST_INIT |> <| c_actions := actions |> <| c_markers := markers |>
             <| c_ctl := x.(s_fc).(fc_conn_ctl) |> <| c_ovr_request := x.(s_fc).(fc_conn_audit) |> in
  on_req (fun q => q <| q_ctx := c |> <| q_waiting := false |> <| q_by_local := false |>
                     <| q_how := FINISH_APPLY |> <| q_local_rule := [] |> <| q_local_response := [] |>) x.

Definition ngx_http_waf_frame_begin (s : side) (payload : bytes) (key : option bytes) (x : sess)
    : ngx_rc * sess :=
  let '(ok, x) := draw_alloc x in
  if negb ok then (NGX_ERROR, close_internal (lit "frame pool allocation failed") x)
  else
    let '(ok, x) := draw_alloc x in
    if negb ok then (NGX_ERROR, close_internal (lit "frame copy allocation failed") x)
    else
      let copy := match key with Some k => xor_key k 0 payload | None => payload end in
      let x := match key with Some k => on_d s (fun d => d <| d_mask := take 4 k |>) x | None => x end in
      let x := on_fc (fun fc => fc <| fc_pool := true |> <| fc_body := copy |>) x in
      (NGX_OK, begin_ctx s x).

(** [ngx_http_waf_frame_control] offers the controls of the connection while a
    frame is under inspection. *)
Definition set_cur (s : side) (x : sess) : sess :=
  let x := on_fc (fun fc => fc <| fc_cur := Some s |> <| fc_settled := false |> <| fc_fetching := false |>
                               <| fc_cached := false |> <| fc_sha_set := false |> <| fc_in_stack := true |>) x in
  on_req (fun q => q <| q_ctx ::= fun c => c <| c_conn := Some x.(s_fc).(fc_conn_ctl) |> |>) x.

Definition ngx_http_waf_frame_end (x : sess) : sess :=
  let fc := x.(s_fc) in
  match fc.(fc_cur) with
  | Some s =>
      if negb fc.(fc_pool) then on_fc (fun fc => fc <| fc_cur := None |>) x
      else
        let phase := (dir s x).(d_phase) in
        let c := x.(s_req).(q_ctx) in
        let x := on_req (fun q => q <| q_ctx := c <| c_actions := fc.(fc_saved_actions) |>
                   <| c_markers := fc.(fc_saved_markers) |> <| c_conn := None |>
                   <| c_phases := pset c.(c_phases) phase frame_phase0 |> |>) x in
        on_fc (fun fc => fc <| fc_conn_ctl := default fc.(fc_conn_ctl) c.(c_conn) |>
                            <| fc_saved_actions := None |> <| fc_saved_markers := None |>
                            <| fc_pool := false |> <| fc_cur := None |>) x
  | None => on_fc (fun fc => fc <| fc_cur := None |>) x
  end.

(** A verdict may be remembered when every asked inspector allowed the frame
    and wanted nothing else. *)
Definition reply_plain (q : req) (index : Z) : bool :=
  let r := get_reply q.(q_ctx) index in
  r.(r_received) && negb (reply_marks q index) && negb r.(r_rewrite_has) && (r.(r_verdict) ==? V_ALLOW)
  && (zlen r.(r_actions) =? 0).

Definition ngx_http_waf_frame_cacheable (x : sess) : bool :=
  let fc := x.(s_fc) in
  let q := x.(s_req) in
  let p := ph q.(q_ctx) in
  if fc.(fc_cached) || negb fc.(fc_sha_set) || fc.(fc_closing) || q.(q_by_local)
     || match fc.(fc_cur) with Some s => negb ((dir s x).(d_drop) =? 0) | None => true end then false
  else if negb (p.(ph_verdict) ==? V_ALLOW) || negb (p.(ph_score) =? 0) || negb (p.(ph_shadow) =? 0)
          || negb (p.(ph_fail) ==? CODE_NONE) || p.(ph_fail_blocked) || negb (p.(ph_skipped) =? 0)
          || negb (p.(ph_controlled) =? 0) || (p.(ph_published) =? 0) || negb (p.(ph_got) =? p.(ph_published))
          || match p.(ph_replies) with Some _ => false | None => true end then false
  else while_mask (fun (index : Z) (ok : bool) => if ok then reply_plain q index else false) p.(ph_published) true.

Definition cache_key (s : side) (x : sess) : FrameCache.fcache_key :=
  FrameCache.mkKey route_hash (phase_num (dir s x).(d_phase)) (dir s x).(d_opcode) x.(s_fc).(fc_sha256).

Definition ngx_http_waf_frame_settle (rc_is_ok : bool) (x : sess) : sess :=
  let x := on_fc (fun fc => fc <| fc_settled := true |> <| fc_fetching := false |>) x in
  match x.(s_fc).(fc_cur) with
  | None => x
  | Some s =>
      let x := if rc_is_ok then x
               else
                 let x := if x.(s_fc).(fc_close_code) =? 0 then close_internal (lit "frame wave failed") x else x in
                 on_d s (fun d => d <| d_denied ::= inc |>) x in
      let x := if rc_is_ok && ngx_http_waf_frame_cacheable x
               then x <| s_cache ::= FrameCache.ngx_http_waf_fcache_insert x.(s_env).(e_clock)
                           (cf.(wc_cache_ttl) (dir s x).(d_phase)) (cache_key s x) |>
               else x in
      let x := if rc_is_ok
               then on_d s (fun d => d <| d_cleared ::= fun c => c + d.(d_held) |> <| d_held := 0 |>) x
               else x in
      ngx_http_waf_frame_end x
  end.

(** [ngx_http_waf_frame_finish], from the finish of the handler. *)
Definition ngx_http_waf_frame_finish (how : how_e) (x : sess) : frc * sess :=
  match x.(s_fc).(fc_cur) with
  | None => (FRC (RC NGX_OK), x)
  | Some _ =>
      match how with
      | FINISH_APPLY =>
          let v := (ph x.(s_req).(q_ctx)).(ph_verdict) in
          if (v ==? V_DENY) || (v ==? V_REDIRECT) then (NGX_ABORT, ngx_http_waf_frame_deny_close x)
          else (FRC (RC NGX_OK), x)
      | FINISH_OVERRIDES => (FRC (RC NGX_OK), x)
      | FINISH_FAIL =>
          (NGX_ABORT, on_fc (ngx_http_waf_frame_set_close NGX_HTTP_WAF_WS_CLOSE_INTERNAL
             (lit "inspection unavailable") (lit "no verdict, policy block")) x)
      end
  end.

(** *** Rewriting *)

Definition ngx_http_waf_frame_rewrite_fail (x : sess) : sess :=
  let deny := match x.(s_fc).(fc_cur) with
              | Some s => cf.(wc_exception_body) (dir s x).(d_phase) ==? POLICY_BLOCK
              | None => false
              end in
  if negb deny then x
  else
    let index := x.(s_fc).(fc_rewrite_index) in
    let x := on_req (fun q => q <| q_ctx ::= fun c =>
               set_state ST_DENY
                 (on_ph (fun p => p <| ph_verdict := V_DENY |> <| ph_decisive := Some index |>
                                    <| ph_code := CODE_INSPECTOR |>)
                    (set_reply index (fun r => r <| r_verdict := V_DENY |>) c)) |>) x in
    ngx_http_waf_frame_deny_close x.

(** The size of the buffer for rewritten frames. *)
Definition out_size (phase : phase_e) : Z :=
  let size := u64 (cf.(wc_body_limit) phase + NGX_HTTP_WAF_WS_HEADER_MAX) in
  if size <? NGX_HTTP_WAF_FRAME_BUF_MIN then NGX_HTTP_WAF_FRAME_BUF_MIN else size.

(** A digest with a context whose block holds zeros. *)
Definition digest (data : bytes) : bytes :=
  (Sha256.ngx_http_waf_sha256_final (Sha256.ngx_http_waf_sha256_update
    (Sha256.ngx_http_waf_sha256_init (Sha256.mkSha 0 [] (replicate 64 0) 0)) data)).2.

Definition ngx_http_waf_frame_swap (s : side) (data : bytes) (x : sess) : ngx_rc * sess :=
  let r := get_reply x.(s_req).(q_ctx) x.(s_fc).(fc_rewrite_index) in
  if negb (zlen data =? r.(r_rewrite_size)) then (NGX_ERROR, x)
  else if match r.(r_rewrite_sha256) with Some want => negb (bytes_eqb (digest data) want) | None => false end
  then (NGX_ERROR, x)
  else
    let d := dir s x in
    let '(out, x) := match d.(d_out) with
                     | Some o => (Some o, x)
                     | None => let '(ok, x) := draw_alloc x in
                               (if ok then Some (mkObuf (replicate (Z.to_nat (out_size d.(d_phase))) 0) 0 0) else None, x)
                     end in
    match out with
    | None => (NGX_ERROR, x)
    | Some o =>
        let x := on_d s (fun d => d <| d_out := Some o |>) x in
        let len := zlen data in
        let hlen := header_len len d.(d_masked) in
        if zlen o.(o_mem) <? hlen + len then (NGX_ERROR, x)
        else
          let key := if d.(d_masked) then Some d.(d_mask) else None in
          let frame := header_bytes (Z.lor (if d.(d_fin) then 128 else 0) d.(d_opcode)) len key
                       ++ (if d.(d_masked) then xor_key d.(d_mask) 0 data else data) in
          (NGX_OK, on_d s (fun d => d <| d_out := Some (mkObuf (store o.(o_mem) 0 frame) 0 (hlen + len)) |>
                                      <| d_drop := d.(d_held) |> <| d_held := 0 |> <| d_rewritten ::= inc |>) x)
    end.

(** [true] when the object is fetched and the frame has to wait for it. *)
Definition ngx_http_waf_frame_rewrite (x : sess) : bool * sess :=
  let p := ph x.(s_req).(q_ctx) in
  match x.(s_fc).(fc_cur), p.(ph_replies) with
  | Some s, Some _ =>
      let found := match p.(ph_live) with Some _ => p.(ph_rewrite_last) | None => NGX_HTTP_WAF_MAX_INSPECTORS end in
      if found =? NGX_HTTP_WAF_MAX_INSPECTORS then (false, x)
      else
        let r := get_reply x.(s_req).(q_ctx) found in
        let x := on_fc (fun fc => fc <| fc_rewrite_index := found |>) x in
        let phase := (dir s x).(d_phase) in
        let cap := cf.(wc_body_limit) phase in
        if negb (cf.(wc_send_store) phase) then (false, x)
        else if cap <? r.(r_rewrite_size) then (false, ngx_http_waf_frame_rewrite_fail x)
        else if match p.(ph_locator) with Some l => l.(l_truncated) | None => false end
        then (false, ngx_http_waf_frame_rewrite_fail x)
        else
          match draw_store x with
          | (SA_AGAIN, x) => (true, x)
          | (SA_DONE NGX_OK data, x) =>
              let '(rc, x) := ngx_http_waf_frame_swap s data x in
              (false, if rc_ok rc then x else ngx_http_waf_frame_rewrite_fail x)
          | (_, x) => (false, ngx_http_waf_frame_rewrite_fail x)
          end
  | _, _ => (false, x)
  end.

Definition ngx_http_waf_frame_apply (rc : frc) (x : sess) : sess :=
  if (rc ==? FRC (RC NGX_OK)) || (rc ==? FRC (RC NGX_DECLINED)) then
    let '(again, x) := ngx_http_waf_frame_rewrite x in
    if again then on_fc (fun fc => fc <| fc_fetching := true |>) x
    else ngx_http_waf_frame_settle (negb x.(s_fc).(fc_closing)) x
  else ngx_http_waf_frame_settle false x.

(** The call of the handler, with the finish it may come to. *)
Definition handler_rc (x : sess) : hres * sess * option frc :=
  let '(a, x) := draw_handler x in
  match a with
  | HRet rc q => (a, x <| s_req := q |>, Some (FRC rc))
  | HFinish how q => let '(rc, x) := ngx_http_waf_frame_finish how (x <| s_req := q |>) in (a, x, Some rc)
  | HResume q => (a, x <| s_req := q |>, None)
  end.

(** [ngx_http_waf_frame_resume] up to the pump: the answer of
    [ngx_http_waf_phase_resume], which may itself end in a nested resume, is
    applied.  [true] when something was applied. *)
Fixpoint resume_core (fuel : nat) (x : sess) : bool * sess :=
  let x := on_req (fun q => q <| q_waiting := false |>) x in
  if x.(s_gone) || x.(s_fc).(fc_settled) || match x.(s_fc).(fc_cur) with None => true | Some _ => false end
  then (false, x)
  else
    let '(_, x, rc) := handler_rc x in
    match rc, fuel with
    | Some rc, _ => if rc ==? FRC (RC NGX_DONE) then (false, x) else (true, ngx_http_waf_frame_apply rc x)
    | None, S n => resume_core n x
    | None, O => (false, x)
    end.

Definition ngx_http_waf_frame_outcome (rc : frc) (x : sess) : sess :=
  if rc ==? FRC (RC NGX_DONE) then x
  else if x.(s_fc).(fc_settled) then x
  else ngx_http_waf_frame_apply rc x.

(** A call of the handler from the parser: the frame is in the stack, so that
    a nested resume only applies. *)
Definition inspect_call (fuel : nat) (x : sess) : frc * sess :=
  let '(_, x, rc) := handler_rc x in
  match rc with
  | Some rc => (rc, x)
  | None => (FRC (RC NGX_DONE), (resume_core fuel x).2)
  end.

Definition out_of_stack (x : sess) : sess := on_fc (fun fc => fc <| fc_in_stack := false |>) x.

Definition ngx_http_waf_frame_inspect (fuel : nat) (s : side) (payload : bytes) (key : option bytes) (x : sess)
    : sess :=
  match ngx_http_waf_frame_begin s payload key x with
  | (NGX_OK, x) =>
      let x := on_d s (fun d => d <| d_inspected ::= inc |>) (set_cur s x) in
      let '(rc, x) := inspect_call fuel x in
      if negb (rc ==? FRC (RC NGX_DECLINED)) then ngx_http_waf_frame_outcome rc (out_of_stack x)
      else
        let '(hit, x) :=
          if negb (cf.(wc_cache_ttl) (dir s x).(d_phase) =? 0) then
            let x := on_fc (fun fc => fc <| fc_sha256 := digest fc.(fc_body) |> <| fc_sha_set := true |>) x in
            let '(rc, cache) := FrameCache.ngx_http_waf_fcache_lookup x.(s_env).(e_clock) (cache_key s x) x.(s_cache) in
            (rc_ok rc, x <| s_cache := cache |>)
          else (false, x) in
        if hit then
          let x := on_d s (fun d => d <| d_cached ::= inc |>) (on_fc (fun fc => fc <| fc_cached := true |>) x) in
          let x := on_req (fun q => q <| q_by_local := true |> <| q_local_rule := lit "FRAME_CACHE" |>
                     <| q_ctx ::= fun c => set_state ST_DONE (on_ph (fun p => p <| ph_verdict := V_ALLOW |>) c) |>) x in
          let '(rc, x) := inspect_call fuel x in
          ngx_http_waf_frame_outcome rc (out_of_stack x)
        else
          let '(rc, x) := inspect_call fuel x in
          ngx_http_waf_frame_outcome rc (out_of_stack x)
  | (_, x) => x
  end.

Definition ngx_http_waf_frame_journal (fuel : nat) (s : side) (payload : bytes) (key : option bytes) (x : sess)
    : sess :=
  match ngx_http_waf_frame_begin s payload key x with
  | (NGX_OK, x) =>
      let x := set_cur s x in
      let x := on_d s (fun d => d <| d_cleared ::= fun c => c + d.(d_held) |> <| d_held := 0 |>) x in
      let x := on_req (fun q => q <| q_ctx ::= fun c =>
                 set_state ST_DONE (on_ph (fun p => p <| ph_body_ready := true |> <| ph_agent_settled := true |>) c) |>) x in
      let '(rc, x) := inspect_call fuel x in
      ngx_http_waf_frame_outcome rc (out_of_stack x)
  | (_, x) => x
  end.

(** ** Parsing and pumping *)

(** The audit override that decides about the journal. *)
Definition journal_set (x : sess) : set_e :=
  if x.(s_fc).(fc_ctl_init) then x.(s_fc).(fc_conn_audit).(ao_audit).(o_set)
  else x.(s_req).(q_ctx).(c_ovr_request).(ao_audit).(o_set).

(** [None] when the loop of the parser does not end within [parse_fuel]. *)
Definition ngx_http_waf_frame_parse (fuel : nat) (s : side) (x : sess) : option (ngx_rc * sess) :=
  match parse_loop (parse_fuel (dir s x)) cf (journal_set x) x.(s_env).(e_clock) (dir s x) with
  | None => None
  | Some (o, d) =>
      let x := on_d s (fun _ => d) x in
      match o with
      | PAgain | PContinue => Some (NGX_AGAIN, x)
      | PClose code reason why => Some (NGX_OK, on_fc (ngx_http_waf_frame_set_close code reason why) x)
      | PInspect at_ len key => Some (NGX_OK, ngx_http_waf_frame_inspect fuel s (slice d.(d_mem) at_ len) key x)
      | PJournal at_ len key => Some (NGX_OK, ngx_http_waf_frame_journal fuel s (slice d.(d_mem) at_ len) key x)
      end
  end.

Definition out_pending (d : dir_t) : bool :=
  match d.(d_out) with Some o => negb (o.(o_pos) =? o.(o_last)) | None => false end.

Definition send_failed (s : side) (x : sess) : sess :=
  on_fc (fun fc => fc <| fc_close_why := Some (if s ==? C2S then lit "upstream send failed" else lit "client send failed") |>
                      <| fc_closing := true |>) x.

(** [dst->send] of the [n] bytes of a direction: what the peer has taken, or
    [None] for an error. *)
Definition peer_send (s : side) (data : bytes) (x : sess) : option Z * sess :=
  match draw_send s x with
  | (SND_NOT_READY, x) => (Some 0, x)
  | (SND_ERROR, x) => (None, x)
  | (SND_SENT n, x) =>
      let n := Z.max 0 (Z.min n (zlen data)) in
      (Some n, x <| s_out := sset x.(s_out) s (x.(s_out) s ++ take (Z.to_nat n) data) |>)
  end.

(** Sending what is cleared. *)
Definition send_cleared (s : side) (x : sess) : bool * sess :=
  let d := dir s x in
  let size := d.(d_cleared) - d.(d_pos) in
  if size =? 0 then (true, x)
  else match peer_send s (slice d.(d_mem) d.(d_pos) size) x with
       | (None, x) => (false, send_failed s x)
       | (Some n, x) => (true, on_d s (fun d => d <| d_pos ::= fun p => p + n |> <| d_bytes ::= fun b => b + n |>) x)
       end.

(** The original of a rewritten frame leaves the buffer. *)
Definition drop_original (d : dir_t) : dir_t :=
  if negb (d.(d_drop) =? 0) && (d.(d_pos) =? d.(d_cleared))
  then d <| d_pos := d.(d_pos) + d.(d_drop) |> <| d_cleared := d.(d_pos) + d.(d_drop) |> <| d_drop := 0 |>
  else d.

(** Sending a rewritten frame; [Some true] starts the loop again. *)
Definition send_rewritten (s : side) (x : sess) : option bool * sess :=
  let d := dir s x in
  match d.(d_out) with
  | Some o =>
      if negb (d.(d_drop) =? 0) || (o.(o_pos) =? o.(o_last)) then (Some false, x)
      else match peer_send s (slice o.(o_mem) o.(o_pos) (o.(o_last) - o.(o_pos))) x with
           | (None, x) => (None, send_failed s x)
           | (Some n, x) =>
               let whole := o.(o_pos) + n =? o.(o_last) in
               (Some whole,
                on_d s (fun d => d <| d_bytes ::= fun b => b + n |>
                  <| d_out := Some (if whole then o <| o_pos := 0 |> <| o_last := 0 |>
                                    else o <| o_pos := o.(o_pos) + n |>) |>) x)
           end
  | None => (Some false, x)
  end.

(** The rest of the data moves to the start of the buffer. *)
Definition compact (cur : option side) (s : side) (d : dir_t) : dir_t :=
  if (d.(d_pos) =? d.(d_cleared)) && negb (cur ==? Some s) && (d.(d_drop) =? 0) && negb (d.(d_pos) =? 0) then
    let rest := d.(d_last) - d.(d_pos) in
    let d := if negb (rest =? 0) then d <| d_mem := memmove d.(d_mem) 0 d.(d_pos) rest |> else d in
    d <| d_pos := 0 |> <| d_cleared := 0 |> <| d_last := rest |>
  else d.

(** The number of bytes that [src->recv] is asked for: a [size_t]. *)
Definition recv_size (d : dir_t) : Z :=
  let size := u64 (d.(d_size) - d.(d_last)) in
  if NGX_HTTP_WAF_FRAME_SLACK <? size then size - NGX_HTTP_WAF_FRAME_SLACK else 0.

(** [true] when bytes came in. *)
Definition receive (s : side) (x : sess) : bool * sess :=
  let size := recv_size (dir s x) in
  if size =? 0 then (false, x)
  else match draw_recv s x with
       | (RCV_DATA data, x) =>
           let data := map u8 (take (Z.to_nat size) data) in
           (negb (zlen data =? 0),
            on_d s (fun d => d <| d_mem := store d.(d_mem) d.(d_last) data |>
                               <| d_last ::= fun l => l + zlen data |>) x)
       | (RCV_NOT_READY, x) => (false, x)
       | (RCV_EOF, x) | (RCV_ERROR, x) => (false, x <| s_eof := sset x.(s_eof) s true |>)
       end.

(** One turn of the pump: [None] when the parser hangs, else whether the loop
    goes on. *)
Definition pump_turn (fuel : nat) (s : side) (x : sess) : option (bool * sess) :=
  let d := dir s x in
  let parse := (match x.(s_fc).(fc_cur) with None => true | Some _ => false end || (d.(d_mode) ==? FRAME_PASS))
               && (d.(d_drop) =? 0) && negb (out_pending d) in
  match (if parse then ngx_http_waf_frame_parse fuel s x else Some (NGX_AGAIN, x)) with
  | None => None
  | Some (rc, x) =>
      if x.(s_fc).(fc_closing) && parse then Some (false, x)
      else match send_cleared s x with
      | (false, x) => Some (false, x)
      | (true, x) =>
          match send_rewritten s (on_d s drop_original x) with
          | (None, x) => Some (false, x)
          | (Some true, x) => Some (true, x)
          | (Some false, x) =>
              let x := on_d s (compact x.(s_fc).(fc_cur) s) x in
              let '(got, x) := receive s x in
              if got then Some (true, x)
              else Some (rc_ok rc && match x.(s_fc).(fc_cur) with None => true | Some _ => false end, x)
          end
      end
  end.

Fixpoint ngx_http_waf_frame_pump (n fuel : nat) (s : side) (x : sess) : option sess :=
  match n with
  | O => None
  | S n => match pump_turn fuel s x with
           | None => None
           | Some (true, x) => ngx_http_waf_frame_pump n fuel s x
           | Some (false, x) => Some x
           end
  end.

(** ** The end of a session *)

(** The close frame that goes to the client. *)
Definition close_frame (fc : fc_t) : bytes :=
  let len := 2 + zlen fc.(fc_close_reason) in
  [Z.lor 128 NGX_HTTP_WAF_WS_OP_CLOSE; u8 len; u8 (Z.shiftr fc.(fc_close_code) 8);
   u8 (Z.land fc.(fc_close_code) 255)] ++ fc.(fc_close_reason).

(** The connection is released; the close frame is sent when there is a code
    and the client can be written to. *)
Definition ngx_http_waf_frame_finalize (x : sess) : sess :=
  let x := ngx_http_waf_frame_end x in
  let x := if negb (x.(s_fc).(fc_close_code) =? 0) then
             match draw_send S2C x with
             | (SND_NOT_READY, x) => x
             | (_, x) => x <| s_final := Some (close_frame x.(s_fc)) |>
             end
           else x in
  on_fc (fun fc => fc <| fc_closing := true |>) (x <| s_gone := true |>).

Definition ngx_http_waf_frame_idle (s : side) (x : sess) : bool :=
  let d := dir s x in
  negb (x.(s_fc).(fc_cur) ==? Some s) && (d.(d_drop) =? 0) && (d.(d_pos) =? d.(d_cleared))
  && negb (out_pending d).

Definition close_why (why : bytes) (x : sess) : sess := on_fc (fun fc => fc <| fc_close_why := Some why |>) x.

(** [armed] tells whether the events of the four ends could be set up. *)
Definition ngx_http_waf_frame_events (armed : bool) (x : sess) : sess :=
  if x.(s_eof) S2C && ngx_http_waf_frame_idle S2C x || x.(s_eof) C2S && ngx_http_waf_frame_idle C2S x
     || x.(s_eof) C2S && x.(s_eof) S2C
  then ngx_http_waf_frame_finalize (close_why (lit "peer closed") x)
  else if armed then x else ngx_http_waf_frame_finalize x.

(** A timeout that has fired. *)
Inductive timedout_e := TIMED_CLIENT | TIMED_UPSTREAM.

Definition after_pump (armed : bool) (x : sess) : sess :=
  if x.(s_fc).(fc_closing) then ngx_http_waf_frame_finalize x else ngx_http_waf_frame_events armed x.

(** [n] bounds the turns of the pump, [fuel] the nested resumes; [None] when a
    bound was too small or the parser hangs. *)
Definition ngx_http_waf_frame_process (n fuel : nat) (timed : option timedout_e) (armed : bool) (s : side) (x : sess)
    : option sess :=
  if x.(s_gone) || x.(s_fc).(fc_closing) then Some x
  else match timed with
  | Some TIMED_CLIENT => Some (ngx_http_waf_frame_finalize (close_why (lit "client timed out") x))
  | Some TIMED_UPSTREAM => Some (ngx_http_waf_frame_finalize (close_why (lit "upstream timed out") x))
  | None => after_pump armed <$> ngx_http_waf_frame_pump n fuel s x
  end.

Definition ngx_http_waf_frame_run (n fuel : nat) (armed : bool) (x : sess) : option sess :=
  match ngx_http_waf_frame_pump n fuel C2S x with
  | None => None
  | Some x =>
      if x.(s_fc).(fc_closing) then Some (ngx_http_waf_frame_finalize x)
      else after_pump armed <$> ngx_http_waf_frame_pump n fuel S2C x
  end.

Definition ngx_http_waf_frame_resume (n fuel : nat) (armed : bool) (x : sess) : option sess :=
  match resume_core fuel x with
  | (false, x) => Some x
  | (true, x) => if x.(s_fc).(fc_in_stack) || x.(s_fc).(fc_fetching) then Some x
                 else ngx_http_waf_frame_run n fuel armed x
  end.

(** The object of a rewrite has arrived, or cannot be had. *)
Definition ngx_http_waf_frame_fetched (n fuel : nat) (armed : bool) (status : ngx_rc) (data : bytes) (x : sess)
    : option sess :=
  match x.(s_fc).(fc_cur) with
  | Some s =>
      if x.(s_gone) || negb x.(s_fc).(fc_fetching) then Some x
      else
        let x := if status ==? NGX_OK then
                   let '(rc, x) := ngx_http_waf_frame_swap s data x in
                   if rc_ok rc then x else ngx_http_waf_frame_rewrite_fail x
                 else ngx_http_waf_frame_rewrite_fail x in
        let x := ngx_http_waf_frame_settle (negb x.(s_fc).(fc_closing)) x in
        if x.(s_fc).(fc_in_stack) then Some x
        else if x.(s_fc).(fc_closing) then Some (ngx_http_waf_frame_finalize x)
        else ngx_http_waf_frame_run n fuel armed x
  | None => Some x
  end.

End session.

End WsSession.
