(* ===== verification/WsRoom.v ===== *)
(** Room in the buffer of a direction: the data never run past the end of the
    buffer in a masked direction, without reassembly, or when no message needs
    the long header; a parser that waits has room for the frame it waits for. *)
From stdpp Require Import relations.
From S2P Require Import Prelude Types WsFrame WsMem WsFrameFacts.
#[local] Open Scope Z_scope.

Module WsRoom.
Import WsFrame WsMem WsFrameFacts.

Section room.
Context (cf : fconf) (jset : set_e) (now : Z).
(** [waf_body_limit] comes from [ngx_parse_size], a positive [ssize_t]. *)
Context (limit_fits : forall p, 0 <= cf.(wc_body_limit) p < 2 ^ 63).
Abbreviation turn := (WsFrameFacts.turn cf).
Abbreviation limit_of := (WsFrameFacts.limit_of cf).

(** What the header of the message being put together will still grow by. *)
Definition growth (d : dir_t) : Z :=
  if d.(d_msg) then Z.max 0 (header_len d.(d_msg_len) d.(d_masked) - d.(d_msg_hlen)) else 0.
Definition reach (d : dir_t) : Z := d.(d_last) + growth d.
Definition within (d : dir_t) : Prop :=
  d.(d_msg) = true -> d.(d_msg_len) <= limit_of d /\ cf.(wc_reassemble) = true.

(** The directions where the header of a message cannot outgrow the headers
    of its fragments. *)
Definition snug (d : dir_t) : Prop := d.(d_masked) = true \/ limit_of d <= 65535 \/ cf.(wc_reassemble) = false.

Lemma growth_range d : dir_wf d -> 0 <= growth d <= 8.
Proof.
  intros Hd. unfold growth. destruct (d_msg d) eqn:Hm; [|lia]. destruct (dw_msg Hd Hm) as [H1 H2].
  unfold header_len. repeat case_match; lia.
Qed.

Lemma total_small d h :
  dir_wf d -> within d -> frame_at d h -> total_of d h = h.(h_plen) + (if d.(d_msg) then d.(d_msg_len) else 0).
Proof.
  intros Hd Hw Hf. destruct (frame_at_hlen d h Hd Hf) as (G1 & G2 & _). unfold total_of. apply u64_small.
  unfold is_u64. destruct (d_msg d) eqn:Hm; [|lia]. destruct (dw_msg Hd Hm). destruct (Hw Hm) as [Hw' _].
  pose proof (limit_fits (d_phase d)). unfold WsFrameFacts.limit_of in *. lia.
Qed.

(** Appending a fragment removes its header, which covers what the header of
    the message grows by. *)
Lemma header_len_sum len plen masked hlen :
  0 <= len -> 0 <= plen -> header_len plen masked <= hlen -> masked = true \/ len + plen <= 65535 ->
  header_len (len + plen) masked <= header_len len masked + hlen.
Proof. intros. unfold header_len in *. destruct masked; repeat case_match; lia. Qed.

(** In general it may be four bytes short. *)
Lemma header_len_sum4 len plen masked hlen :
  0 <= len -> 0 <= plen -> header_len plen masked <= hlen ->
  header_len (len + plen) masked <= header_len len masked + hlen + 4.
Proof. intros. unfold header_len in *. destruct masked; repeat case_match; lia. Qed.

Lemma turn_room d o d' :
  dir_wf d -> within d -> snug d -> turn d o d' -> reach d' <= reach d /\ within d' /\ snug d'.
Proof.
  intros Hd Hw Hsn Ht. pose proof (hold_nonneg d Hd) as Hh0. pose proof (dir_last d Hd) as Hlast.
  pose proof (growth_range d Hd) as Hg.
  destruct Ht as [| | |Hs take| |h d1 Hf Ho Hnc Hpl Hl Hc|h d1 Hf Ho Hpl Hl Hc|h b Hf Ho Hp Hm
    |h d1 hl Hf Ho Hp Hm Es|h Ht Hj|h Ht Hj
    |h Ht Ha Hfin Hop Hm Hskip|h Ht Hi Hfin Hm|h hl d1 Ht Hi Hm Es|h Ht Hi Hm]; try done.
  - destruct (cut_counted d d1 h Hd Hf Hl Hc) as (m' & -> & _). destruct (frame_at_hlen d h Hd Hf) as (G1 & G2 & _).
    destruct Hc as (?&?&?&?&->). split; [|by split].
    unfold reach, growth, frame_len in *. dir_simpl. destruct (d_masked d); lia.
  - destruct (control_counted d d1 h Hd Hf Hl Hc) as (m' & -> & _). by destruct Hc as (?&?&?&?&->).
  - destruct (seal_wf false d hl d1 Hd Hm Es) as (-> & (S1&S2&S3&S4&S5&S6&S7) & E1 & E2 & E3 & E4 & _).
    split; [|split].
    + unfold reach, growth. dir_simpl. rewrite E1, E4, Hm. lia.
    + unfold within. dir_simpl. congruence.
    + unfold snug, WsFrameFacts.limit_of in *. dir_simpl. by rewrite S5, S4.
  - pose proof (tk_at cf d h Ht) as Hf. destruct (fragment_key_eq d h Hd Hf) as (k & -> & _).
    destruct (frame_at_hlen d h Hd Hf) as (G1 & G2 & G3 & G4 & _).
    pose proof (tk_limit cf d h Ht) as Hlim. rewrite total_small, Hm in Hlim by done.
    split; [|split; [|done]].
    + unfold reach, growth in *. dir_simpl. rewrite Hm in *. lia.
    + unfold within, WsFrameFacts.limit_of in *. dir_simpl. split; [lia|]. by apply andb_prop in Ha as [Ha _].
  - pose proof (tk_at cf d h Ht) as Hf. destruct (append_wf cf d h Hd Ht Hm) as (m' & -> & _).
    destruct (frame_at_hlen d h Hd Hf) as (G1 & G2 & G3 & G4 & _). destruct (dw_msg Hd Hm) as [M1 M2].
    pose proof (tk_limit cf d h Ht) as Hlim. rewrite total_small, Hm in Hlim by done.
    split; [|split; [|done]].
    + unfold reach, growth in *. dir_simpl. rewrite Hm in *.
      assert (header_len (d_msg_len d + h_plen h) (d_masked d)
              <= header_len (d_msg_len d) (d_masked d) + h_hlen h); [|destruct (d_masked d); lia].
      apply header_len_sum; [lia..|]. destruct Hsn as [|[|]]; [by left|right; lia|]. destruct (Hw Hm); congruence.
    + unfold within, WsFrameFacts.limit_of in *. dir_simpl. split; [lia|]. by destruct (Hw Hm).
  - pose proof (tk_at cf d h Ht) as Hf. destruct (append_wf cf d h Hd Ht Hm) as (m' & Ea & Hb & Hz).
    destruct (frame_at_hlen d h Hd Hf) as (G1 & G2 & G3 & G4 & _). destruct (dw_msg Hd Hm) as [M1 M2].
    pose proof (tk_limit cf d h Ht) as Hlim. rewrite total_small, Hm in Hlim by done.
    pose proof (after_append_wf cf d h Hd Ht Hm) as Hda. rewrite Ea in Es, Hda.
    set (da := _ <| d_msg_fragments := _ |>) in Es, Hda.
    assert (F1 : d_last da = d_last d - h_hlen h) by reflexivity.
    assert (F2 : d_msg_hlen da = d_msg_hlen d) by reflexivity.
    assert (F3 : d_msg_len da = d_msg_len d + h_plen h) by reflexivity.
    assert (F4 : d_masked da = d_masked d) by reflexivity.
    assert (F6 : d_msg da = true) by exact Hm.
    assert (F5 : d_phase da = d_phase d) by reflexivity.
    clearbody da.
    destruct (seal_wf true da hl d1 Hda) as (-> & (S1&S2&S3&S4&S5&S6&S7) & E1 & E2 & E3 & E4 & _);
      [exact F6|done|].
    set (d2 := _ <| d_reassembled := _ |>).
    assert (L1 : d_last d2 = d_last d1) by reflexivity.
    assert (L2 : d_msg d2 = d_msg d1) by reflexivity.
    assert (L3 : d_masked d2 = d_masked d1) by reflexivity.
    assert (L4 : d_phase d2 = d_phase d1) by reflexivity.
    clearbody d2. split; [|split].
    + unfold reach, growth. rewrite L1, L2, E1, E4, F1, F2, F3, F4, Hm.
      assert (header_len (d_msg_len d + h_plen h) (d_masked d)
              <= header_len (d_msg_len d) (d_masked d) + h_hlen h); [|destruct (d_masked d); lia].
      apply header_len_sum; [lia..|]. destruct Hsn as [|[|]]; [by left|right; lia|]. destruct (Hw Hm); congruence.
    + unfold within. congruence.
    + unfold snug, WsFrameFacts.limit_of in *. by rewrite L3, L4, S5, S4, F4, F5.
Qed.

(** A turn writes nothing past the end of the buffer. *)
Lemma turn_mem d o d' :
  dir_wf d -> within d -> snug d -> reach d <= zlen d.(d_mem) -> turn d o d' -> zlen d'.(d_mem) = zlen d.(d_mem).
Proof.
  intros Hd Hw Hsn Hr Ht. pose proof (turn_room d o d' Hd Hw Hsn Ht) as (Hr' & _).
  pose proof (turn_wf cf d o d' Hd Ht) as [Hd' _]. pose proof (growth_range d' Hd').
  unfold reach at 1 in Hr'.
  destruct Ht as [| | |Hs take| |h d1 Hf Ho Hnc Hpl Hl Hc|h d1 Hf Ho Hpl Hl Hc|h b Hf Ho Hp Hm
    |h d1 hl Hf Ho Hp Hm Es|h Ht Hj|h Ht Hj
    |h Ht Ha Hfin Hop Hm Hskip|h Ht Hi Hfin Hm|h hl d1 Ht Hi Hm Es|h Ht Hi Hm]; try done.
  - destruct (cut_counted d d1 h Hd Hf Hl Hc) as (m' & -> & _ & Hz & _). exact Hz.
  - destruct (control_counted d d1 h Hd Hf Hl Hc) as (m' & -> & _ & Hz & _). exact Hz.
  - destruct (seal_wf false d hl d1 Hd Hm Es) as (_ & _ & _ & _ & _ & _ & _ & _ & Hz & _).
    change (zlen (d_mem d1) = zlen (d_mem d)). rewrite Hz.
    change (d_last d1 + growth (d1 <| d_cleared := d_cleared d + (hl + d_msg_len d) |>
      <| d_msg_skip := negb (h_fin h) |> <| d_seq := inc (d_seq d) |> <| d_skip := skip_of h |>) <= reach d) in Hr'.
    lia.
  - destruct (fragment_key_eq d h Hd (tk_at cf d h Ht)) as (k & -> & _). done.
  - destruct (append_wf cf d h Hd Ht Hm) as (m' & -> & _ & Hz). exact Hz.
  - destruct (append_wf cf d h Hd Ht Hm) as (m' & Ea & Hb & Hz).
    pose proof (after_append_wf cf d h Hd Ht Hm) as Hda. rewrite Ea in Es, Hda.
    set (da := _ <| d_msg_fragments := _ |>) in Es, Hda.
    assert (F1 : zlen (d_mem da) = zlen (d_mem d)) by exact Hz.
    assert (F6 : d_msg da = true) by exact Hm. clearbody da.
    destruct (seal_wf true da hl d1 Hda F6 Es) as (_ & _ & _ & _ & _ & _ & _ & _ & Hz1 & _).
    set (d2 := _ <| d_reassembled := _ |>) in *.
    assert (L1 : d_last d2 = d_last d1) by reflexivity. change (zlen (d_mem d1) = zlen (d_mem d)).
    rewrite Hz1. clearbody d2. lia.
Qed.

(** A frame that is handed over lies in the buffer. *)
Lemma turn_held d o d' :
  dir_wf d -> turn d o d' ->
  match o with
  | PInspect _ _ _ | PJournal _ _ _ =>
      0 < d'.(d_held) /\ d'.(d_msg) = false /\ d'.(d_cleared) + d'.(d_held) <= d'.(d_last) /\ d'.(d_mode) <> FRAME_PASS
  | _ => d'.(d_held) = d.(d_held)
  end.
Proof.
  intros Hd Ht. pose proof (hold_nonneg d Hd) as Hh0.
  destruct Ht as [| | |Hs take| |h d1 Hf Ho Hnc Hpl Hl Hc|h d1 Hf Ho Hpl Hl Hc|h b Hf Ho Hp Hm
    |h d1 hl Hf Ho Hp Hm Es|h Ht Hj|h Ht Hj
    |h Ht Ha Hfin Hop Hm Hskip|h Ht Hi Hfin Hm|h hl d1 Ht Hi Hm Es|h Ht Hi Hm]; try done.
  - by destruct (0 <? _).
  - destruct (cut_counted d d1 h Hd Hf Hl Hc) as (m' & -> & _). by destruct Hc as (?&?&?&?&->).
  - destruct (control_counted d d1 h Hd Hf Hl Hc) as (m' & -> & _). by destruct Hc as (?&?&?&?&->).
  - unfold ngx_http_waf_frame_msg_seal in Es. injection Es as _ <-. by case_match.
  - assert (Hm : d_msg d = false).
    { destruct (d_msg d) eqn:Em; [|done]. destruct (dw_state Hd Em). congruence. }
    destruct (frame_at_hlen d h Hd (tk_at cf d h Ht)) as (G1 & G2 & _). pose proof (tk_len cf d h Ht).
    unfold hold_frame, avail_of, next_of, frame_len, hold_of in *. rewrite Hm in *. dir_simpl.
    split_and!; [destruct (d_masked d); lia|done|lia|congruence].
  - destruct (fragment_key_eq d h Hd (tk_at cf d h Ht)) as (k & -> & _). done.
  - destruct (append_wf cf d h Hd Ht Hm) as (m' & -> & _). done.
  - pose proof (after_append_wf cf d h Hd Ht Hm) as Hda.
    destruct (append_wf cf d h Hd Ht Hm) as (m' & Ea & Hb & Hz). rewrite Ea in Es, Hda.
    set (da := _ <| d_msg_fragments := _ |>) in Es, Hda.
    assert (F6 : d_msg da = true) by exact Hm. assert (F7 : d_mode da = d_mode d) by reflexivity. clearbody da.
    destruct (seal_wf true da hl d1 Hda F6 Es) as (-> & (S1&S2&S3&_) & E1 & E2 & E3 & E4 & _).
    pose proof (dir_last da Hda) as Hl. unfold hold_of in Hl. rewrite F6 in Hl. destruct (dw_msg Hda F6) as [_ M2].
    pose proof (header_len_range (d_msg_len da) (d_masked da)).
    split_and!; [change (0 < header_len (d_msg_len da) (d_masked da) + d_msg_len d1); lia|exact E1| |].
    + change (d_cleared d1 + (header_len (d_msg_len da) (d_masked da) + d_msg_len d1) <= d_last d1).
      rewrite E2, E3, E4. lia.
    + change (d_mode d1 <> FRAME_PASS). rewrite S3, F7. congruence.
  - destruct (frame_at_hlen d h Hd (tk_at cf d h Ht)) as (G1 & G2 & _). pose proof (tk_len cf d h Ht).
    unfold hold_frame, avail_of, next_of, frame_len, hold_of in *. rewrite Hm in *. dir_simpl.
    split_and!; [destruct (d_masked d); lia|done|lia|congruence].
Qed.

(** ** A direction with room *)

Record room (d : dir_t) : Prop := {
  rm_wf : dir_wf d;
  rm_within : within d;
  rm_snug : snug d;
  rm_reach : reach d <= d.(d_size);
  rm_mem : zlen d.(d_mem) = d.(d_size)
}.

Lemma turn_keeps_room d o d' : room d -> turn d o d' -> room d'.
Proof.
  intros [H1 H2 H3 H4 H5] Ht. destruct (turn_wf cf d o d' H1 Ht) as [Hd' (S1 & S2 & _)].
  destruct (turn_room d o d' H1 H2 H3 Ht) as (R1 & R2 & R3).
  pose proof (turn_mem d o d' H1 H2 H3 ltac:(lia) Ht).
  split; try done; rewrite S2; lia.
Qed.

Lemma parse_loop_room n d o d' :
  room d -> parse_loop n cf jset now d = Some (o, d') ->
  room d' /\ stays d d' /\
  match o with
  | PInspect _ _ _ | PJournal _ _ _ =>
      0 < d'.(d_held) /\ d'.(d_msg) = false /\ d'.(d_cleared) + d'.(d_held) <= d'.(d_last) /\ d'.(d_mode) <> FRAME_PASS
  | _ => d'.(d_held) = d.(d_held)
  end.
Proof.
  revert d. induction n as [|n IH]; intros d Hr; cbn [parse_loop]; [done|].
  destruct (parse_turn cf jset now d) as [o1 d1] eqn:E.
  pose proof (parse_turn_turn cf jset now d o1 d1 (rm_wf d Hr) E) as Ht.
  pose proof (turn_keeps_room d o1 d1 Hr Ht) as Hr1. destruct (turn_wf cf d o1 d1 (rm_wf d Hr) Ht) as [_ Hst].
  pose proof (turn_held d o1 d1 (rm_wf d Hr) Ht) as Hh.
  destruct o1 eqn:Eo; [by intros [= <- <-]| |by intros [= <- <-]|by intros [= <- <-]|by intros [= <- <-]].
  intros Hl. destruct (IH d1 Hr1 Hl) as (G1 & G2 & G3). split_and!; [done| |].
  - unfold stays in *. intuition congruence.
  - destruct o; (done || congruence).
Qed.

(** ** Waiting *)

(** The size that [ngx_http_waf_frame_dir_init] gives the buffer. *)
Definition sized (d : dir_t) : Prop := exists rest, d.(d_size) = frame_buf_size cf d.(d_phase) d.(d_mode) rest.

Lemma sized_room d :
  sized d -> NGX_HTTP_WAF_FRAME_BUF_MIN <= d.(d_size) /\ (d.(d_mode) <> FRAME_PASS -> limit_of d + 36 <= d.(d_size)).
Proof.
  intros [rest ->]. pose proof (limit_fits (d_phase d)) as Hl.
  unfold frame_buf_size, WsFrameFacts.limit_of, NGX_HTTP_WAF_WS_HEADER_MAX, NGX_HTTP_WAF_FRAME_SLACK in *.
  rewrite u64_small by (unfold is_u64; lia).
  split; [case_match; lia|]. intros Hm. rewrite bool_decide_eq_false_2 by done. case_match; lia.
Qed.

(** A parser that waits for the rest of a frame leaves room for it, unless it
    is a control frame too large to stand behind the held message: as soon as
    the cleared bytes are gone, the peer is asked for more. *)
Theorem waiting_parser_has_room d d' :
  dir_wf d -> within d -> sized d ->
  (forall h, frame_at d h -> 8 <= h.(h_opcode) -> hold_of d + frame_len h <= d.(d_size) - NGX_HTTP_WAF_FRAME_SLACK) ->
  parse_turn cf jset now d = (PAgain, d') ->
  d'.(d_last) - d'.(d_cleared) < d'.(d_size) - NGX_HTTP_WAF_FRAME_SLACK.
Proof.
  intros Hd Hw Hs Hctl Ht. pose proof (parse_turn_turn cf jset now d _ _ Hd Ht) as Hturn. clear Ht.
  destruct (sized_room d Hs) as [Hs1 Hs2]. pose proof (hold_nonneg d Hd) as Hh0.
  unfold NGX_HTTP_WAF_FRAME_SLACK, NGX_HTTP_WAF_FRAME_BUF_MIN in *.
  assert (Hhold : d_mode d <> FRAME_PASS /\ hold_of d <= limit_of d + 14 \/ d_mode d = FRAME_PASS /\ hold_of d = 0).
  { destruct (decide (d_mode d = FRAME_PASS)) as [E|E].
    - right. split; [done|]. unfold hold_of. destruct (d_msg d) eqn:Hm; [|done]. destruct (dw_state Hd Hm). congruence.
    - left. split; [done|]. unfold hold_of. destruct (d_msg d) eqn:Hm.
      + destruct (dw_msg Hd Hm). destruct (Hw Hm) as [Hw' _]. lia.
      + pose proof (limit_fits (d_phase d)). unfold WsFrameFacts.limit_of. lia. }
  remember PAgain as o eqn:Eo.
  destruct Hturn as [Hsk Hn|h Hf Ho Hpl Hav|h Hf Ho Hlim Hmode Hav|Hsk take| | | | | | | | | | | ]; try done.
  - unfold parse_header in Hn. pose proof (hdr_len_range (aget 0 (d_mem d) (next_of d + 1))).
    assert (avail_of d < 14) by (repeat case_match; first [done|lia]).
    unfold avail_of, next_of in *. destruct Hhold as [[E ?]|[E ?]]; [specialize (Hs2 E)|]; lia.
  - specialize (Hctl h Hf Ho). unfold avail_of, next_of in *. lia.
  - destruct (frame_at_hlen d h Hd Hf) as (G1 & G2 & _). rewrite total_small in Hlim by done.
    unfold avail_of, next_of, frame_len, hold_of in *.
    specialize (Hs2 Hmode). destruct (d_msg d) eqn:Hm; [destruct (dw_msg Hd Hm)|]; lia.
  - destruct (Z.ltb_spec 0 (d_skip d - take)) as [Htk|]; [|done]. dir_simpl.
    unfold take, avail_of, next_of in *. destruct Hhold as [[E ?]|[E ?]]; [specialize (Hs2 E)|]; lia.
Qed.

End room.

End WsRoom.
