(* ===== verification/WsSessionFacts.v ===== *)
(** Invariants of a WebSocket session: whatever the peers send, the handler
    answers and the allocator gives, the buffers of both directions keep their
    bounds. *)
From stdpp Require Import relations.
From S2P Require Import Prelude Types Masks Sha256 FrameCache Slots Graph Verdict Breaker Handler WsFrame.
From S2P Require Import WsMem WsFrameFacts WsRoom WsSession.
#[local] Open Scope Z_scope.

Module WsSessionFacts.
Import Masks Verdict Handler WsFrame WsMem WsFrameFacts WsRoom WsSession.

Section facts.
Context (cf : fconf) (route_hash : Z).
Context (deny_entry : req -> option (bool * Z * bytes)) (reply_marks : req -> Z -> bool) (reason_of : req -> bytes).
Context (limit_fits : forall p, 0 <= cf.(wc_body_limit) p < 2 ^ 63).

Abbreviation room := (WsRoom.room cf).
Abbreviation apply := (ngx_http_waf_frame_apply cf route_hash deny_entry reply_marks reason_of).
Abbreviation settle := (ngx_http_waf_frame_settle cf route_hash reply_marks).
Abbreviation resume_core := (WsSession.resume_core cf route_hash deny_entry reply_marks reason_of).
Abbreviation inspect := (ngx_http_waf_frame_inspect cf route_hash deny_entry reply_marks reason_of).
Abbreviation journal := (ngx_http_waf_frame_journal cf route_hash deny_entry reply_marks reason_of).
Abbreviation parse := (ngx_http_waf_frame_parse cf route_hash deny_entry reply_marks reason_of).
Abbreviation pump_turn := (WsSession.pump_turn cf route_hash deny_entry reply_marks reason_of).
Abbreviation pump := (ngx_http_waf_frame_pump cf route_hash deny_entry reply_marks reason_of).

(** ** The invariant *)

(** The fields of a direction the invariant speaks of. *)
Definition ptrs (d : dir_t) :=
  (d.(d_phase), d.(d_mode), d.(d_mem), d.(d_size), (d.(d_pos), d.(d_last), d.(d_cleared)), (d.(d_held), d.(d_drop)),
   (d.(d_masked), d.(d_msg), d.(d_msg_skip), d.(d_msg_opcode), d.(d_msg_hlen), d.(d_msg_len), d.(d_msg_key))).

(** A held frame lies in the buffer, and so does an original that is to be
    dropped. *)
Record lying (d : dir_t) : Prop := {
  ly_held : 0 <= d.(d_held);
  ly_drop : 0 <= d.(d_drop);
  ly_in : d.(d_held) <> 0 -> d.(d_drop) = 0 /\ d.(d_msg) = false /\ d.(d_cleared) + d.(d_held) <= d.(d_last) /\
            d.(d_mode) <> FRAME_PASS;
  ly_out : d.(d_drop) <> 0 -> d.(d_msg) = false /\ d.(d_cleared) + d.(d_drop) <= d.(d_last) /\ d.(d_mode) <> FRAME_PASS
}.

Definition closing (x : sess) : bool := x.(s_fc).(fc_closing).
Definition cur (x : sess) : option side := x.(s_fc).(fc_cur).
Definition code (x : sess) : Z := x.(s_fc).(fc_close_code).

Record sess_ok (x : sess) : Prop := {
  so_room : forall s, room (dir s x);
  so_lying : forall s, lying (dir s x);
  so_cur : closing x = false -> forall s, (dir s x).(d_held) <> 0 -> cur x = Some s;
  so_code : code x <> 0 -> closing x = true
}.

Lemma room_ptrs d d' : ptrs d' = ptrs d -> room d -> room d'.
Proof. destruct d, d'. intros H [K1 K2 K3 K4 K5]. injection H. intros. subst. by split. Qed.
Lemma lying_ptrs d d' : ptrs d' = ptrs d -> lying d -> lying d'.
Proof. destruct d, d'. intros H [K1 K2 K3 K4]. injection H. intros. subst. by split. Qed.

Lemma sess_ok_quiet x x' :
  sess_ok x -> (forall s, ptrs (dir s x') = ptrs (dir s x)) ->
  (closing x' = false -> closing x = false /\ cur x' = cur x) -> (code x' <> 0 -> closing x' = true) -> sess_ok x'.
Proof.
  intros [H1 H2 H3 H4] Hp Hc Hk. split.
  - intros s. apply (room_ptrs (dir s x)); [apply Hp|apply H1].
  - intros s. apply (lying_ptrs (dir s x)); [apply Hp|apply H2].
  - intros Hcl s Hh. destruct (Hc Hcl) as [Hc0 Hcur]. rewrite Hcur. apply H3; [done|].
    pose proof (Hp s) as E. injection E. congruence.
  - done.
Qed.

(** Only the answers, the request, the cache or the flags have changed. *)
Definition calm (x x' : sess) : Prop :=
  (forall s, ptrs (dir s x') = ptrs (dir s x)) /\ cur x' = cur x /\
  (closing x' = closing x /\ code x' = code x \/ closing x' = true).

Lemma calm_ok x x' : sess_ok x -> calm x x' -> sess_ok x'.
Proof.
  intros Hok (Hp & Hc & Hk). eapply sess_ok_quiet; [done|done|..].
  - destruct Hk as [[Hk _]|Hk]; rewrite Hk; [done|by intros].
  - destruct Hk as [[Hk Hk']|Hk]; rewrite Hk, ?Hk'; [apply (so_code x Hok)|done].
Qed.
Lemma calm_refl x : calm x x.
Proof. split_and!; auto. Qed.
Lemma calm_trans x y z : calm x y -> calm y z -> calm x z.
Proof.
  intros (A1 & A2 & A3) (B1 & B2 & B3). split_and!; [intros s; by rewrite B1|congruence|].
  destruct B3 as [[B3 B4]|]; [|by right]. rewrite B3, B4. done.
Qed.
Lemma calm_closing x x' : calm x x' -> closing x = true -> closing x' = true.
Proof. intros (_ & _ & [[H _]|]); congruence. Qed.

Lemma calm_req f x : calm x (on_req f x).
Proof. split_and!; auto. Qed.
Lemma calm_env e x : calm x (x <| s_env := e |>).
Proof. split_and!; auto. Qed.
Lemma calm_cache e x : calm x (x <| s_cache := e |>).
Proof. split_and!; auto. Qed.
Lemma calm_close c r y x : calm x (on_fc (ngx_http_waf_frame_set_close c r y) x).
Proof. split_and!; [by intros []|done|by right]. Qed.
Lemma calm_fc f x :
  (forall s, dir_of s (f x.(s_fc)) = dir_of s x.(s_fc)) -> (f x.(s_fc)).(fc_cur) = x.(s_fc).(fc_cur) ->
  (f x.(s_fc)).(fc_closing) = x.(s_fc).(fc_closing) ->
  (f x.(s_fc)).(fc_close_code) = x.(s_fc).(fc_close_code) -> calm x (on_fc f x).
Proof. intros H1 H2 H3 H4. split_and!; [|exact H2|by left]. intros s. unfold dir. cbn. by rewrite H1. Qed.
Lemma calm_d s f x : (forall d, ptrs (f d) = ptrs d) -> calm x (on_d s f x).
Proof. intros H. split_and!; [|by destruct s|left; by destruct s]. by intros []; destruct s; cbn; rewrite ?H. Qed.

Lemma calm_draw_alloc x b x' : draw_alloc x = (b, x') -> calm x x'.
Proof. unfold draw_alloc. destruct (alloc _). intros [= <- <-]. apply calm_env. Qed.
Lemma calm_draw_store x b x' : draw_store x = (b, x') -> calm x x'.
Proof. unfold draw_store. case_match; intros [= <- <-]; [apply calm_refl|apply calm_env]. Qed.
Lemma calm_draw_handler x b x' : draw_handler x = (b, x') -> calm x x'.
Proof. unfold draw_handler. case_match; intros [= <- <-]; [apply calm_refl|apply calm_env]. Qed.
Lemma calm_draw_send s x b x' : draw_send s x = (b, x') -> calm x x'.
Proof. unfold draw_send. case_match; intros [= <- <-]; [apply calm_refl|apply calm_env]. Qed.
Lemma calm_draw_recv s x b x' : draw_recv s x = (b, x') -> calm x x'.
Proof. unfold draw_recv. case_match; intros [= <- <-]; [apply calm_refl|apply calm_env]. Qed.

(** ** One frame *)

(** The invariant is kept, and a session that closes stays closing. *)
Definition still (x x' : sess) : Prop := sess_ok x' /\ (closing x = true -> closing x' = true).

Lemma calm_still x x' : sess_ok x -> calm x x' -> still x x'.
Proof. intros Hok Hc. split; [by eapply calm_ok|by apply calm_closing]. Qed.
Lemma still_trans x y z : still x y -> still y z -> still x z.
Proof. intros [A1 A2] [B1 B2]. split; auto. Qed.

Lemma calm_deny_close x : calm x (ngx_http_waf_frame_deny_close deny_entry reason_of x).
Proof. unfold ngx_http_waf_frame_deny_close. repeat case_match; apply calm_close. Qed.
Lemma calm_close_internal y x : calm x (close_internal y x).
Proof. apply calm_close. Qed.
Lemma calm_frame_finish how x r x' :
  ngx_http_waf_frame_finish deny_entry reason_of how x = (r, x') -> calm x x'.
Proof.
  unfold ngx_http_waf_frame_finish. repeat case_match; intros [= <- <-];
    first [apply calm_refl|apply calm_deny_close|apply calm_close].
Qed.
Lemma calm_rewrite_fail x : calm x (ngx_http_waf_frame_rewrite_fail cf deny_entry reason_of x).
Proof.
  unfold ngx_http_waf_frame_rewrite_fail. destruct (negb _); [apply calm_refl|].
  eapply calm_trans; [apply calm_req|apply calm_deny_close].
Qed.
Lemma calm_handler_rc x a x' r : handler_rc deny_entry reason_of x = (a, x', r) -> calm x x'.
Proof.
  unfold handler_rc. destruct (draw_handler x) as [a1 x1] eqn:E. apply calm_draw_handler in E.
  destruct a1 as [rc q|how q|q].
  - intros [= <- <- <-]. eapply calm_trans; [done|]. apply (calm_req (fun _ => q)).
  - destruct (ngx_http_waf_frame_finish _ _ _ _) as [r1 x2] eqn:Ef. intros [= <- <- <-].
    eapply calm_trans; [done|]. eapply calm_trans; [apply (calm_req (fun _ => q))|].
    by eapply calm_frame_finish.
  - intros [= <- <- <-]. eapply calm_trans; [done|]. apply (calm_req (fun _ => q)).
Qed.

Lemma dir_on_d s t f x : dir t (on_d s f x) = if decide (t = s) then f (dir s x) else dir t x.
Proof. by destruct s, t. Qed.
Lemma cur_on_d s f x : cur (on_d s f x) = cur x.
Proof. by destruct s. Qed.
Lemma closing_on_d s f x : closing (on_d s f x) = closing x.
Proof. by destruct s. Qed.
Lemma code_on_d s f x : code (on_d s f x) = code x.
Proof. by destruct s. Qed.

(** A direction changes in a way that keeps it sound. *)
Lemma on_d_ok s f x :
  sess_ok x -> room (f (dir s x)) -> lying (f (dir s x)) ->
  (closing x = false -> (f (dir s x)).(d_held) <> 0 -> cur x = Some s) -> still x (on_d s f x).
Proof.
  intros [H1 H2 H3 H4] Hr Hl Hc. split; [split|by rewrite closing_on_d].
  - intros t. rewrite dir_on_d. case_decide; [done|apply H1].
  - intros t. rewrite dir_on_d. case_decide; [done|apply H2].
  - rewrite closing_on_d, cur_on_d. intros Hcl t. rewrite dir_on_d. case_decide as E; [subst; auto|auto].
  - by rewrite closing_on_d, code_on_d.
Qed.

(** The held frame is cleared. *)
Definition clear_held (d : dir_t) : dir_t := d <| d_cleared ::= fun c => c + d.(d_held) |> <| d_held := 0 |>.

Lemma clear_held_room d : room d -> lying d -> room (clear_held d).
Proof.
  intros [R1 R2 R3 R4 R5] [L1 L2 L3 L4]. destruct (Z.eq_dec (d_held d) 0) as [E|E].
  - apply (room_ptrs d); [|by split]. unfold clear_held, ptrs. rewrite E. cbn. by rewrite Z.add_0_r.
  - destruct (L3 E) as (E1 & E2 & E3 & E4). split; try done.
    destruct R1 as [D1 D2 D3 D4 D5 D6 D7]. rewrite E2 in *. unfold clear_held.
    split; cbn; rewrite ?E2; (done || lia).
Qed.
Lemma clear_held_lying d : lying d -> lying (clear_held d).
Proof.
  intros [L1 L2 L3 L4]. split; try done. intros Hd. destruct (L4 Hd) as (E1 & E2 & E3).
  split_and!; [done| |done]. unfold clear_held. cbn.
  destruct (Z.eq_dec (d_held d) 0) as [->|E]; [lia|]. destruct (L3 E). done.
Qed.

Lemma end_ok x : sess_ok x -> (closing x = false -> forall s, (dir s x).(d_held) = 0) ->
  still x (ngx_http_waf_frame_end x).
Proof.
  intros Hok Hh. assert (Hd : forall s, dir s (ngx_http_waf_frame_end x) = dir s x).
  { unfold ngx_http_waf_frame_end. repeat case_match; by intros []. }
  assert (Hc : closing (ngx_http_waf_frame_end x) = closing x /\ code (ngx_http_waf_frame_end x) = code x).
  { unfold ngx_http_waf_frame_end. by repeat case_match. }
  destruct Hc as [Hc1 Hc2]. split; [split|by rewrite Hc1].
  - intros s. rewrite Hd. apply (so_room x Hok).
  - intros s. rewrite Hd. apply (so_lying x Hok).
  - intros Hcl s. rewrite Hd. rewrite Hc1 in Hcl. by rewrite Hh.
  - rewrite Hc1, Hc2. apply (so_code x Hok).
Qed.

Lemma settle_ok b x : sess_ok x -> (b = true -> closing x = false) -> still x (settle b x).
Proof.
  intros Hok Hb. unfold ngx_http_waf_frame_settle.
  set (x0 := on_fc _ x). assert (K0 : still x x0) by (apply calm_still; [done|by apply calm_fc]).
  assert (Hb0 : b = true -> closing x0 = false) by done. clearbody x0.
  eapply still_trans; [exact K0|]. destruct K0 as [Hok0 _]. clear Hb Hok x. rename x0 into x, Hb0 into Hb.
  destruct (fc_cur (s_fc x)) as [s|] eqn:Ecur; [|apply calm_still; [done|apply calm_refl]].
  destruct b.
  - specialize (Hb eq_refl). cbn [andb].
    set (x1 := if ngx_http_waf_frame_cacheable reply_marks x then _ else x).
    assert (K1 : calm x x1) by (unfold x1; case_match; [apply (calm_cache _ x)|apply calm_refl]).
    clearbody x1. pose proof (calm_ok x x1 Hok0 K1) as Hok1.
    assert (Hcur1 : cur x1 = Some s) by (destruct K1 as (_ & E & _); by rewrite E).
    assert (Hcl1 : closing x = true -> closing x1 = true) by (by apply calm_closing).
    eapply still_trans; [split; [exact Hok1|exact Hcl1]|].
    change (on_d s (fun d => d <| d_cleared ::= fun c => c + d.(d_held) |> <| d_held := 0 |>) x1)
      with (on_d s clear_held x1).
    pose proof (on_d_ok s clear_held x1 Hok1) as K2.
    specialize (K2 (clear_held_room _ (so_room x1 Hok1 s) (so_lying x1 Hok1 s))
                   (clear_held_lying _ (so_lying x1 Hok1 s)) (fun _ H => False_ind _ (H eq_refl))).
    eapply still_trans; [exact K2|]. apply end_ok; [apply K2|].
    rewrite closing_on_d. intros Hc t. rewrite dir_on_d. case_decide as Et; [done|].
    destruct (Z.eq_dec (d_held (dir t x1)) 0) as [|Hn]; [done|].
    pose proof (so_cur x1 Hok1 Hc t Hn). congruence.
  - cbn [andb]. set (x1 := on_d s _ _).
    assert (K1 : calm x x1).
    { eapply calm_trans; [|by apply calm_d]. case_match; [apply calm_close_internal|apply calm_refl]. }
    assert (Hc1 : closing x1 = true).
    { unfold x1. rewrite closing_on_d. destruct (Z.eqb_spec (fc_close_code (s_fc x)) 0) as [|Hn]; [done|].
      by apply (so_code x Hok0). }
    clearbody x1. eapply still_trans; [by apply calm_still|].
    apply end_ok; [by eapply calm_ok|congruence].
Qed.

(** A rewritten frame takes the place of the held one. *)
Lemma swap_ok s data x r x' :
  sess_ok x -> cur x = Some s -> ngx_http_waf_frame_swap cf s data x = (r, x') -> still x x' /\ cur x' = Some s.
Proof.
  intros Hok Hc. unfold ngx_http_waf_frame_swap.
  destruct (negb _); [intros [= <- <-]; split; [by apply calm_still, calm_refl|done]|].
  destruct (match r_rewrite_sha256 _ with Some _ => _ | None => _ end);
    [intros [= <- <-]; split; [by apply calm_still, calm_refl|done]|].
  set (d := dir s x). destruct (match d_out d with Some _ => _ | None => _ end) as [out x1] eqn:Eo.
  assert (K1 : calm x x1).
  { destruct (d_out d); [injection Eo as _ <-; apply calm_refl|].
    destruct (draw_alloc x) as [ok x2] eqn:E. injection Eo as _ <-. by eapply calm_draw_alloc. }
  assert (Hcur1 : cur x1 = Some s) by (destruct K1 as (_ & E & _); by rewrite E).
  pose proof (calm_still x x1 Hok K1) as Kk1.
  destruct out as [o|]; [|by intros [= <- <-]].
  set (x2 := on_d s _ x1). assert (K2 : still x x2).
  { eapply still_trans; [exact Kk1|]. apply calm_still; [apply Kk1|by apply calm_d]. }
  assert (Hcur2 : cur x2 = Some s) by (unfold x2; by rewrite cur_on_d).
  clearbody x2. destruct (zlen (o_mem o) <? _); [by intros [= <- <-]|]. intros [= <- <-].
  split; [|by rewrite cur_on_d].
  eapply still_trans; [exact K2|]. destruct K2 as [Hok2 _].
  destruct (so_lying x2 Hok2 s) as [L1 L2 L3 L4]. destruct (so_room x2 Hok2 s) as [R1 R2 R3 R4 R5].
  apply on_d_ok; [done|by split| |done].
  split; cbn; try done. intros Hh. by destruct (L3 Hh) as (? & ? & ? & ?).
Qed.

Lemma rewrite_ok x b x' :
  sess_ok x -> ngx_http_waf_frame_rewrite cf deny_entry reason_of x = (b, x') -> still x x'.
Proof.
  intros Hok. unfold ngx_http_waf_frame_rewrite.
  destruct (fc_cur (s_fc x)) as [s|] eqn:Ecur; [|by intros [= <- <-]; apply calm_still, calm_refl].
  destruct (ph_replies _); [|by intros [= <- <-]; apply calm_still, calm_refl].
  destruct (_ =? NGX_HTTP_WAF_MAX_INSPECTORS); [by intros [= <- <-]; apply calm_still, calm_refl|].
  set (x1 := on_fc _ x). assert (K1 : calm x x1) by (by apply calm_fc).
  assert (Hc1 : cur x1 = Some s) by done. clearbody x1.
  pose proof (calm_still x x1 Hok K1) as Kk. pose proof (calm_rewrite_fail x1) as Kf.
  assert (Kkf : still x (ngx_http_waf_frame_rewrite_fail cf deny_entry reason_of x1)).
  { eapply still_trans; [exact Kk|]. apply calm_still; [apply Kk|done]. }
  destruct (negb _); [by intros [= <- <-]|]. destruct (_ <? _); [by intros [= <- <-]|].
  destruct (match ph_locator _ with Some _ => _ | None => _ end); [by intros [= <- <-]|].
  destruct (draw_store x1) as [a x2] eqn:Ea. apply calm_draw_store in Ea.
  assert (K2 : still x x2) by (eapply still_trans; [exact Kk|]; apply calm_still; [apply Kk|done]).
  assert (Hc2 : cur x2 = Some s) by (destruct Ea as (_ & E & _); by rewrite E).
  assert (K2f : still x (ngx_http_waf_frame_rewrite_fail cf deny_entry reason_of x2)).
  { eapply still_trans; [exact K2|]. apply calm_still; [apply K2|apply calm_rewrite_fail]. }
  destruct a as [| |[] data]; try (by intros [= <- <-]).
  destruct (ngx_http_waf_frame_swap cf s data x2) as [r x3] eqn:Es.
  destruct (swap_ok s data x2 r x3 (proj1 K2) Hc2 Es) as [K3 _]. intros [= <- <-].
  eapply still_trans; [exact K2|]. destruct (rc_ok r); [exact K3|]. eapply still_trans; [exact K3|].
  apply calm_still; [apply K3|apply calm_rewrite_fail].
Qed.

Lemma apply_ok rc x : sess_ok x -> still x (apply rc x).
Proof.
  intros Hok. unfold ngx_http_waf_frame_apply. case_match; [|by apply settle_ok].
  destruct (ngx_http_waf_frame_rewrite _ _ _ _) as [again x1] eqn:E. apply rewrite_ok in E; [|done].
  eapply still_trans; [exact E|]. destruct E as [Hok1 _].
  destruct again; [apply calm_still; [done|by apply calm_fc]|].
  apply settle_ok; [done|]. unfold closing. by destruct (fc_closing _).
Qed.

Lemma resume_core_ok fuel x b x' : sess_ok x -> resume_core fuel x = (b, x') -> still x x'.
Proof.
  revert x. induction fuel as [|n IH]; intros x Hok; cbn [WsSession.resume_core];
    set (x1 := on_req _ x); pose proof (calm_still x x1 Hok (calm_req _ x)) as K1; clearbody x1;
    (destruct (_ || _); [by intros [= <- <-]|]);
    destruct (handler_rc _ _ x1) as [[a x2] rc] eqn:E; apply calm_handler_rc in E;
    (assert (K2 : still x x2) by (eapply still_trans; [exact K1|]; apply calm_still; [apply K1|done]));
    destruct rc as [rc|]; try (destruct (rc ==? _); intros [= <- <-]; [done|];
      eapply still_trans; [exact K2|]; apply apply_ok, K2).
  - by intros [= <- <-].
  - intros Hr. eapply still_trans; [exact K2|]. eapply IH; [apply K2|exact Hr].
Qed.

(** ** Taking a frame up *)

(** The invariant while the frame of direction [s] is being taken up. *)
Record nearly (s : side) (x : sess) : Prop := {
  ne_room : forall t, room (dir t x);
  ne_lying : forall t, lying (dir t x);
  ne_cur : closing x = false -> forall t, (dir t x).(d_held) <> 0 -> t = s;
  ne_code : code x <> 0 -> closing x = true
}.

Lemma nearly_calm s x x' : nearly s x -> calm x x' -> nearly s x'.
Proof.
  intros [H1 H2 H3 H4] (Hp & Hc & Hk). split.
  - intros t. apply (room_ptrs (dir t x)); auto.
  - intros t. apply (lying_ptrs (dir t x)); auto.
  - intros Hcl t Hh. destruct Hk as [[Hk _]|Hk]; [|congruence]. apply H3; [congruence|].
    pose proof (Hp t) as E. injection E. congruence.
  - destruct Hk as [[Hk Hk']|Hk]; rewrite Hk, ?Hk'; done.
Qed.

Lemma copy_array_calm {A} (l : option (list A)) x r x' : copy_array l x = (r, x') -> calm x x'.
Proof.
  unfold copy_array. destruct l as [[|a l]|]; try (intros [= <- <-]; apply calm_refl).
  destruct (draw_alloc x) as [ok x1] eqn:E1. apply calm_draw_alloc in E1. destruct ok; cbn [negb].
  - destruct (draw_alloc x1) as [ok x2] eqn:E2. apply calm_draw_alloc in E2.
    intros [= <- <-]. by eapply calm_trans.
  - by intros [= <- <-].
Qed.

Lemma begin_ctx_calm s x : calm x (begin_ctx s x).
Proof.
  unfold begin_ctx. set (x1 := on_fc _ x). assert (K1 : calm x x1) by (by apply calm_fc). clearbody x1.
  set (x2 := if fc_ctl_init (s_fc x1) then x1 else _).
  assert (K2 : calm x1 x2) by (unfold x2; case_match; [apply calm_refl|by apply calm_fc]). clearbody x2.
  destruct (copy_array _ x2) as [acts x3] eqn:E3. apply copy_array_calm in E3.
  destruct (copy_array _ x3) as [mks x4] eqn:E4. apply copy_array_calm in E4.
  eapply calm_trans; [exact K1|]. eapply calm_trans; [exact K2|]. eapply calm_trans; [exact E3|].
  eapply calm_trans; [exact E4|]. apply calm_req.
Qed.

Lemma begin_calm s payload key x rc x' :
  ngx_http_waf_frame_begin s payload key x = (rc, x') -> calm x x' /\ (rc <> NGX_OK -> closing x' = true).
Proof.
  unfold ngx_http_waf_frame_begin.
  destruct (draw_alloc x) as [ok x1] eqn:E1. apply calm_draw_alloc in E1. destruct ok; cbn [negb].
  2: { intros [= <- <-]. split; [|done]. eapply calm_trans; [exact E1|apply calm_close_internal]. }
  destruct (draw_alloc x1) as [ok x2] eqn:E2. apply calm_draw_alloc in E2.
  assert (K2 : calm x x2) by (by eapply calm_trans). destruct ok; cbn [negb].
  2: { intros [= <- <-]. split; [|done]. eapply calm_trans; [exact K2|apply calm_close_internal]. }
  intros [= <- <-]. split; [|done]. eapply calm_trans; [exact K2|].
  set (x3 := match key with Some k => on_d s _ x2 | None => x2 end).
  assert (K3 : calm x2 x3) by (unfold x3; destruct key; [by apply calm_d|apply calm_refl]). clearbody x3.
  eapply calm_trans; [exact K3|]. set (x4 := on_fc _ x3). assert (K4 : calm x3 x4) by (by apply calm_fc).
  clearbody x4. eapply calm_trans; [exact K4|]. apply begin_ctx_calm.
Qed.

Lemma set_cur_ok s x : nearly s x -> still x (set_cur s x).
Proof.
  intros [H1 H2 H3 H4]. split; [|done]. split.
  - intros t. apply (room_ptrs (dir t x)); [by destruct t|auto].
  - intros t. apply (lying_ptrs (dir t x)); [by destruct t|auto].
  - intros Hc t Hh. assert (t = s) as -> by (apply H3; [done|by destruct t]). done.
  - exact H4.
Qed.

Abbreviation inspect_call := (WsSession.inspect_call cf route_hash deny_entry reply_marks reason_of).
Abbreviation outcome := (ngx_http_waf_frame_outcome cf route_hash deny_entry reply_marks reason_of).

Lemma inspect_call_ok fuel x rc x' : sess_ok x -> inspect_call fuel x = (rc, x') -> still x x'.
Proof.
  intros Hok. unfold WsSession.inspect_call. destruct (handler_rc _ _ x) as [[a x2] r] eqn:E.
  apply calm_handler_rc in E. pose proof (calm_still x x2 Hok E) as K. destruct r; [by intros [= <- <-]|].
  destruct (resume_core fuel x2) as [b x3] eqn:Er. intros [= <- <-].
  eapply still_trans; [exact K|]. eapply resume_core_ok; [apply K|exact Er].
Qed.

Lemma outcome_ok rc x : sess_ok x -> still x (outcome rc (out_of_stack x)).
Proof.
  intros Hok. assert (K : still x (out_of_stack x)) by (apply calm_still; [done|by apply calm_fc]).
  unfold ngx_http_waf_frame_outcome. case_match; [done|]. case_match; [done|].
  eapply still_trans; [exact K|]. apply apply_ok, K.
Qed.

Lemma inspect_ok fuel s payload key x : nearly s x -> still x (inspect fuel s payload key x).
Proof.
  intros Hn. unfold ngx_http_waf_frame_inspect.
  destruct (ngx_http_waf_frame_begin s payload key x) as [rc x1] eqn:Eb.
  destruct (begin_calm _ _ _ _ _ _ Eb) as [K1 Hc1]. pose proof (nearly_calm s x x1 Hn K1) as Hn1.
  assert (Kbad : rc <> NGX_OK -> still x x1).
  { intros Hrc. specialize (Hc1 Hrc). destruct Hn1. split; [|by intros]. split; try done. congruence. }
  destruct rc; try (by apply Kbad).
  set (x2 := on_d s _ (set_cur s x1)).
  assert (K2 : still x x2).
  { pose proof (set_cur_ok s x1 Hn1) as K. split.
    - eapply calm_ok; [apply K|by apply calm_d].
    - intros Hc. unfold x2. rewrite closing_on_d. by apply K, (calm_closing x). }
  clearbody x2. destruct (inspect_call fuel x2) as [r x3] eqn:E3. apply inspect_call_ok in E3; [|apply K2].
  assert (K3 : still x x3) by (by eapply still_trans). clear E3.
  assert (Hend : forall y r, still x y -> still x (outcome r (out_of_stack y))).
  { intros y r' Ky. eapply still_trans; [exact Ky|]. apply outcome_ok, Ky. }
  case_match; [by apply Hend|].
  destruct (if negb _ then _ else (false, x3)) as [hit x4] eqn:E4.
  assert (K4 : still x x4).
  { eapply still_trans; [exact K3|]. destruct (negb (wc_cache_ttl cf _ =? 0)) in E4.
    - set (y := on_fc _ x3) in E4. assert (Ky : calm x3 y) by (by apply calm_fc). clearbody y.
      destruct (FrameCache.ngx_http_waf_fcache_lookup _ _ _) as [r2 cache]. injection E4 as _ <-.
      apply calm_still; [apply K3|]. eapply calm_trans; [exact Ky|apply calm_cache].
    - injection E4 as _ <-. apply calm_still; [apply K3|apply calm_refl]. }
  clear E4. destruct hit.
  - set (x5 := on_req _ _). assert (K5 : calm x4 x5).
    { eapply calm_trans; [|apply calm_req]. eapply calm_trans; [|by apply calm_d]. by apply calm_fc. }
    clearbody x5. destruct (inspect_call fuel x5) as [r5 x6] eqn:E6.
    assert (Kk5 : still x x5) by (eapply still_trans; [exact K4|]; apply calm_still; [apply K4|done]).
    apply inspect_call_ok in E6; [|apply Kk5]. apply Hend. by eapply still_trans.
  - destruct (inspect_call fuel x4) as [r5 x6] eqn:E6. apply inspect_call_ok in E6; [|apply K4].
    apply Hend. by eapply still_trans.
Qed.

Lemma journal_ok fuel s payload key x :
  nearly s x -> still x (journal fuel s payload key x).
Proof.
  intros Hn. unfold ngx_http_waf_frame_journal.
  destruct (ngx_http_waf_frame_begin s payload key x) as [rc x1] eqn:Eb.
  destruct (begin_calm _ _ _ _ _ _ Eb) as [K1 Hc1]. pose proof (nearly_calm s x x1 Hn K1) as Hn1.
  assert (Kbad : rc <> NGX_OK -> still x x1).
  { intros Hrc. specialize (Hc1 Hrc). destruct Hn1. split; [|by intros]. split; try done. congruence. }
  destruct rc; try (by apply Kbad).
  pose proof (set_cur_ok s x1 Hn1) as K2. set (x2 := set_cur s x1) in *.
  assert (K2' : still x x2) by (split; [apply K2|intros Hc; by apply K2, (calm_closing x)]). clearbody x2.
  change (on_d s (fun d => d <| d_cleared ::= fun c => c + d.(d_held) |> <| d_held := 0 |>) x2)
    with (on_d s clear_held x2).
  pose proof (on_d_ok s clear_held x2 (proj1 K2')
    (clear_held_room _ (so_room x2 (proj1 K2') s) (so_lying x2 (proj1 K2') s))
    (clear_held_lying _ (so_lying x2 (proj1 K2') s)) (fun _ H => False_ind _ (H eq_refl))) as K3.
  set (x3 := on_d s clear_held x2) in *. clearbody x3.
  set (x4 := on_req _ x3). assert (K4 : still x x4).
  { eapply still_trans; [exact K2'|]. eapply still_trans; [exact K3|]. apply calm_still; [apply K3|apply calm_req]. }
  clearbody x4. destruct (inspect_call fuel x4) as [r5 x6] eqn:E6. apply inspect_call_ok in E6; [|apply K4].
  eapply still_trans; [exact K4|]. eapply still_trans; [exact E6|]. apply outcome_ok, E6.
Qed.

(** ** The pump *)

(** What holds of a session that is about to end: its buffers are sound. *)
Definition ending (x : sess) : Prop := (forall t, room (dir t x)) /\ (code x <> 0 -> closing x = true) /\ closing x = true.

Lemma still_ok x x' : still x x' -> sess_ok x'.
Proof. by intros []. Qed.

Lemma parse_ok fuel s x rc x' :
  sess_ok x -> (closing x = false -> cur x = None \/ (dir s x).(d_mode) = FRAME_PASS) ->
  (dir s x).(d_drop) = 0 -> parse fuel s x = Some (rc, x') ->
  sess_ok x' \/ ending x'.
Proof.
  intros Hok Hcur Hdrop. unfold ngx_http_waf_frame_parse.
  destruct (parse_loop _ _ _ _ _) as [[o d]|] eqn:E; [|done].
  destruct (parse_loop_room cf _ _ limit_fits _ _ _ _ (so_room x Hok s) E) as (Hr & Hst & Hh).
  destruct Hst as (_ & _ & Hmode & _ & _ & Hdr & _). rewrite Hdrop in Hdr.
  assert (Hnone : d.(d_mode) <> FRAME_PASS -> closing x = false -> forall t, (dir t x).(d_held) = 0).
  { intros Hm Hc t. destruct (Z.eq_dec (d_held (dir t x)) 0) as [|Hn]; [done|].
    pose proof (so_cur x Hok Hc t Hn) as Ht. destruct (Hcur Hc) as [|Hp]; congruence. }
  assert (Hzero : closing x = false -> (dir s x).(d_held) = 0).
  { intros Hc. destruct (Z.eq_dec (d_held (dir s x)) 0) as [|Hn]; [done|].
    apply Hnone; [|done]. rewrite Hmode. by destruct (ly_in _ (so_lying x Hok s) Hn) as (_ & _ & _ & ?). }
  assert (Hquiet : d.(d_held) = (dir s x).(d_held) -> sess_ok (on_d s (fun _ => d) x) \/ ending (on_d s (fun _ => d) x)).
  { intros He. destruct (closing x) eqn:Hc.
    - right. split_and!; rewrite ?closing_on_d; try done.
      intros t. rewrite dir_on_d. case_decide; [done|apply (so_room x Hok)].
    - left. apply (still_ok x), on_d_ok; try done.
      + split; rewrite ?He, ?Hdr, ?Hzero; done.
      + rewrite He, Hzero by done. done. }
  assert (Hnear : 0 < d_held d /\ d_msg d = false /\ d_cleared d + d_held d <= d_last d /\ d_mode d <> FRAME_PASS ->
    nearly s (on_d s (fun _ => d) x)).
  { intros (N1 & N2 & N3 & N4). split; rewrite ?closing_on_d, ?code_on_d; try apply (so_code x Hok).
    - intros t. rewrite dir_on_d. case_decide; [done|apply (so_room x Hok)].
    - intros t. rewrite dir_on_d. case_decide; [|apply (so_lying x Hok)]. split; rewrite ?Hdr; (done || lia).
    - intros Hc t. rewrite dir_on_d. case_decide; [done|]. by rewrite Hnone. }
  destruct o; intros [= <- <-]; try (by apply Hquiet).
  - destruct (Hquiet Hh) as [H|H]; [left; eapply calm_ok; [exact H|apply calm_close]|right].
    destruct H as (H1 & H2 & H3). by split_and!.
  - left. by eapply still_ok, inspect_ok, Hnear.
  - left. by eapply still_ok, journal_ok, Hnear.
Qed.

Lemma peer_send_calm s data x n x' :
  peer_send s data x = (n, x') -> calm x x' /\ match n with Some n => 0 <= n <= zlen data | None => True end.
Proof.
  unfold peer_send. destruct (draw_send s x) as [a x1] eqn:E. apply calm_draw_send in E.
  pose proof (zlen_nonneg data). destruct a; intros [= <- <-]; (split; [|lia || done]); done.
Qed.

Lemma sent_room d n : room d -> 0 <= n <= d.(d_cleared) - d.(d_pos) ->
  room (d <| d_pos ::= fun p => p + n |> <| d_bytes ::= fun b => b + n |>).
Proof.
  intros [R1 R2 R3 R4 R5] Hn. split; try done. destruct R1 as [D1 D2 D3 D4 D5 D6 D7]. split; cbn; (done || lia).
Qed.

Lemma send_cleared_ok s x b x' : sess_ok x -> send_cleared s x = (b, x') -> still x x'.
Proof.
  intros Hok. unfold send_cleared. case_match; [by intros [= <- <-]; apply calm_still, calm_refl|].
  destruct (peer_send s _ x) as [[n|] x1] eqn:E; destruct (peer_send_calm _ _ _ _ _ E) as [K1 Hn];
    intros [= <- <-].
  - pose proof (so_room x Hok s) as Hr. destruct (dw_pos (rm_wf _ _ Hr)) as [P1 P2].
    pose proof (dir_last _ (rm_wf _ _ Hr)). pose proof (hold_nonneg _ (rm_wf _ _ Hr)).
    rewrite zlen_slice in Hn by lia. pose proof (calm_still x x1 Hok K1) as Kk.
    eapply still_trans; [exact Kk|]. destruct K1 as (Hp & _). pose proof (Hp s) as Hps.
    assert (Ep : d_pos (dir s x1) = d_pos (dir s x)) by (unfold ptrs in Hps; congruence).
    assert (Ec : d_cleared (dir s x1) = d_cleared (dir s x)) by (unfold ptrs in Hps; congruence).
    destruct (so_lying x1 (proj1 Kk) s). apply on_d_ok; [apply Kk| |by split|].
    + apply sent_room; [apply (so_room x1), Kk|]. by rewrite Ep, Ec.
    + intros Hc Hh. by apply (so_cur x1 (proj1 Kk) Hc s).
  - eapply still_trans; [by apply calm_still|]. apply calm_still; [by eapply calm_ok|].
    split_and!; [by intros []|done|by right].
Qed.

Lemma drop_original_ok s x : sess_ok x -> still x (on_d s drop_original x).
Proof.
  intros Hok. destruct (so_room x Hok s) as [R1 R2 R3 R4 R5]. destruct (so_lying x Hok s) as [L1 L2 L3 L4].
  assert (Hnop : drop_original (dir s x) = dir s x \/
    d_drop (dir s x) <> 0 /\ d_pos (dir s x) = d_cleared (dir s x)).
  { unfold drop_original. destruct (Z.eqb_spec (d_drop (dir s x)) 0); [by left|].
    destruct (Z.eqb_spec (d_pos (dir s x)) (d_cleared (dir s x))); [by right|by left]. }
  destruct Hnop as [E|[Hd Hp]].
  - apply on_d_ok; rewrite ?E; [done|by split|by split|]. intros Hc Hh. by apply (so_cur x Hok Hc s).
  - destruct (L4 Hd) as (E1 & E2 & E3).
    assert (E : drop_original (dir s x) = (dir s x) <| d_pos := (dir s x).(d_pos) + (dir s x).(d_drop) |>
       <| d_cleared := (dir s x).(d_pos) + (dir s x).(d_drop) |> <| d_drop := 0 |>).
    { unfold drop_original. by rewrite (proj2 (Z.eqb_neq _ _) Hd), (proj2 (Z.eqb_eq _ _) Hp). }
    assert (Hh0 : d_held (dir s x) = 0).
    { destruct (Z.eq_dec (d_held (dir s x)) 0) as [|Hn]; [done|]. by destruct (L3 Hn). }
    apply on_d_ok; rewrite ?E; [done| | |].
    + split; try done. destruct R1 as [D1 D2 D3 D4 D5 D6 D7]. rewrite E1 in *. split; cbn; rewrite ?E1; (done || lia).
    + split; cbn; rewrite ?Hh0; (done || lia).
    + cbn. by rewrite Hh0.
Qed.

Lemma send_rewritten_ok s x b x' : sess_ok x -> send_rewritten s x = (b, x') -> still x x'.
Proof.
  intros Hok. unfold send_rewritten. destruct (d_out (dir s x)) as [o|];
    [|by intros [= <- <-]; apply calm_still, calm_refl].
  destruct (_ || _); [by intros [= <- <-]; apply calm_still, calm_refl|].
  destruct (peer_send s _ x) as [[n|] x1] eqn:E; destruct (peer_send_calm _ _ _ _ _ E) as [K1 _];
    intros [= <- <-]; (eapply still_trans; [by apply calm_still|]); apply calm_still; try (by eapply calm_ok).
  - by apply calm_d.
  - split_and!; [by intros []|done|by right].
Qed.

Lemma compact_room d cu s : room d -> lying d -> room (compact cu s d) /\ lying (compact cu s d) /\
  (compact cu s d).(d_held) = d.(d_held).
Proof.
  intros [R1 R2 R3 R4 R5] [L1 L2 L3 L4]. unfold compact. case_match eqn:E; [|by split_and!; [split|split|]].
  apply andb_prop in E as [[[E1 E2]%andb_prop E3]%andb_prop E4]. apply Z.eqb_eq in E1, E3.
  pose proof (dw_pos R1). pose proof (dir_last d R1) as Hl. pose proof (hold_nonneg d R1).
  set (m := memmove (d_mem d) 0 (d_pos d) (d_last d - d_pos d)).
  assert (Hm : zlen m = zlen (d_mem d) /\ is_bytes m).
  { split; [unfold m; rewrite zlen_memmove; lia|apply is_bytes_memmove, (dw_bytes R1)]. }
  set (d1 := if negb (d_last d - d_pos d =? 0) then d <| d_mem := m |> else d).
  assert (Hd1 : exists m', d1 = d <| d_mem := m' |> /\ zlen m' = zlen (d_mem d) /\ is_bytes m').
  { unfold d1. destruct (negb (d_last d - d_pos d =? 0)); [exists m; destruct Hm; by split_and!|]. exists (d_mem d).
    split_and!; [by destruct d|done|apply (dw_bytes R1)]. }
  clearbody d1. destruct Hd1 as (m' & -> & Hz & Hb). split_and!; [| |done].
  - split; [|done|done| |].
    + destruct R1 as [D1 D2 D3 D4 D5 D6 D7]. split; cbn; (done || lia).
    + unfold reach, growth in *. cbn. lia.
    + change (zlen m' = d_size d). lia.
  - split; cbn; try done.
    intros Hh. destruct (L3 Hh) as (F1 & F2 & F3 & F4). split_and!; (done || lia).
Qed.

Lemma compact_ok s x : sess_ok x -> still x (on_d s (compact x.(s_fc).(fc_cur) s) x).
Proof.
  intros Hok. destruct (compact_room (dir s x) x.(s_fc).(fc_cur) s (so_room x Hok s) (so_lying x Hok s))
    as (H1 & H2 & H3).
  apply on_d_ok; try done. rewrite H3. intros Hc Hh. by apply (so_cur x Hok Hc s).
Qed.

(** The peer is asked for no more than the buffer has room for. *)
Lemma recv_size_room d : room d -> 0 <= recv_size d <= Z.max 0 (d.(d_size) - d.(d_last) - NGX_HTTP_WAF_FRAME_SLACK).
Proof.
  intros [R1 R2 R3 R4 R5]. pose proof (growth_range d R1). pose proof (dir_last d R1).
  pose proof (dw_pos R1). pose proof (hold_nonneg d R1). unfold reach in R4.
  assert (Hs : 0 <= d_size d - d_last d) by lia.
  assert (Hu : u64 (d_size d - d_last d) <= d_size d - d_last d) by (apply Z.mod_le; lia).
  pose proof (u64_range (d_size d - d_last d)). unfold is_u64 in *.
  unfold recv_size, NGX_HTTP_WAF_FRAME_SLACK. case_match; lia.
Qed.

Lemma received_room d got :
  room d -> is_bytes got -> zlen got <= recv_size d ->
  room (d <| d_mem := store d.(d_mem) d.(d_last) got |> <| d_last ::= fun l => l + zlen got |>).
Proof.
  intros Hr Hb Hg. pose proof (recv_size_room d Hr) as Hrs. destruct Hr as [R1 R2 R3 R4 R5].
  pose proof (growth_range d R1) as Hgr. pose proof (dir_last d R1). pose proof (dw_pos R1).
  pose proof (hold_nonneg d R1). pose proof (zlen_nonneg got). unfold NGX_HTTP_WAF_FRAME_SLACK in *.
  assert (Hz : zlen (store (d_mem d) (d_last d) got) = zlen (d_mem d)).
  { rewrite zlen_store; unfold reach in R4; lia. }
  split; [|done|done| |].
  - destruct R1 as [D1 D2 D3 D4 D5 D6 D7]. unfold reach in R4. split; cbn; try done; try lia. by apply is_bytes_store.
  - unfold reach. change (d_last d + zlen got + growth d <= d_size d). unfold reach in R4. lia.
  - cbn. congruence.
Qed.

Lemma receive_ok s x b x' : sess_ok x -> receive s x = (b, x') -> still x x'.
Proof.
  intros Hok. unfold receive. pose proof (recv_size_room _ (so_room x Hok s)) as Hrs.
  set (size := recv_size (dir s x)) in *. destruct (Z.eqb_spec size 0);
    [by intros [= <- <-]; apply calm_still, calm_refl|].
  destruct (draw_recv s x) as [a x1] eqn:E. apply calm_draw_recv in E. pose proof (calm_still x x1 Hok E) as K1.
  destruct a as [|data| |]; intros [= <- <-]; try done.
  - eapply still_trans; [exact K1|].
    assert (Hd1 : d_size (dir s x1) = d_size (dir s x) /\ d_last (dir s x1) = d_last (dir s x)).
    { destruct E as (Hp & _). specialize (Hp s). unfold ptrs in Hp. split; congruence. }
    destruct Hd1 as [E1 E2]. set (got := map u8 (take (Z.to_nat size) data)).
    assert (Hg : zlen got <= size) by (unfold got; rewrite zlen_map, zlen_take; lia).
    assert (Hb : is_bytes got) by apply is_bytes_lit_u8.
    assert (Hsz : recv_size (dir s x1) = size) by (unfold size, recv_size; by rewrite E1, E2).
    destruct (so_lying x1 (proj1 K1) s) as [L1 L2 L3 L4]. pose proof (zlen_nonneg got).
    apply on_d_ok; [apply K1| | |intros Hc Hh; by apply (so_cur x1 (proj1 K1) Hc s)].
    + apply received_room; [apply (so_room x1), K1|done|lia].
    + split; cbn; try done.
      * intros Hh. destruct (L3 Hh) as (F1 & F2 & F3 & F4). split_and!; (done || lia).
      * intros Hh. destruct (L4 Hh) as (F1 & F2 & F3). split_and!; (done || lia).
  - eapply still_trans; [exact K1|]. apply calm_still; [apply K1|]. split_and!; auto.
  - eapply still_trans; [exact K1|]. apply calm_still; [apply K1|]. split_and!; auto.
Qed.

End facts.

End WsSessionFacts.
