(* ===== verification/WsEvents.v ===== *)
(** A WebSocket session as a state machine of its events: every event keeps
    the buffers of both directions in bounds, and a session that has ended
    stays so. *)
From stdpp Require Import relations.
From S2P Require Import Prelude Types Masks Sha256 FrameCache Slots Graph Verdict Breaker Handler WsFrame.
From S2P Require Import WsMem WsFrameFacts WsRoom WsSession WsSessionFacts.
#[local] Open Scope Z_scope.

Module WsEvents.
Import Masks Verdict Handler WsFrame WsMem WsFrameFacts WsRoom WsSession WsSessionFacts.

Section events.
Context (cf : fconf) (route_hash : Z).
Context (deny_entry : req -> option (bool * Z * bytes)) (reply_marks : req -> Z -> bool) (reason_of : req -> bytes).
Context (limit_fits : forall p, 0 <= cf.(wc_body_limit) p < 2 ^ 63).

Abbreviation room := (WsRoom.room cf).
Abbreviation sess_ok := (WsSessionFacts.sess_ok cf).
Abbreviation still := (WsSessionFacts.still cf).
Abbreviation ending := (WsSessionFacts.ending cf).
Abbreviation pump_turn := (WsSession.pump_turn cf route_hash deny_entry reply_marks reason_of).
Abbreviation pump := (ngx_http_waf_frame_pump cf route_hash deny_entry reply_marks reason_of).
Abbreviation run := (ngx_http_waf_frame_run cf route_hash deny_entry reply_marks reason_of).
Abbreviation resume := (ngx_http_waf_frame_resume cf route_hash deny_entry reply_marks reason_of).
Abbreviation fetched := (ngx_http_waf_frame_fetched cf route_hash deny_entry reply_marks reason_of).
Abbreviation process := (ngx_http_waf_frame_process cf route_hash deny_entry reply_marks reason_of).

(** What nginx calls the module for: a read or write event or a timer of a
    connection, a verdict that has arrived and an object of the store that
    has. *)
Inductive event :=
  | EvProcess (timed : option timedout_e) (armed : bool) (s : side)
  | EvResume (armed : bool)
  | EvFetched (armed : bool) (status : ngx_rc) (data : bytes).

Definition handle (n fuel : nat) (ev : event) (x : sess) : option sess :=
  match ev with
  | EvProcess timed armed s => process n fuel timed armed s x
  | EvResume armed => resume n fuel armed x
  | EvFetched armed status data => fetched n fuel armed status data x
  end.

Fixpoint handle_all (n fuel : nat) (evs : list event) (x : sess) : option sess :=
  match evs with
  | [] => Some x
  | ev :: evs => x ← handle n fuel ev x; handle_all n fuel evs x
  end.

(** ** The pump *)

Lemma pump_turn_ok fuel s x b x' :
  sess_ok x -> pump_turn fuel s x = Some (b, x') -> sess_ok x' \/ ending x' /\ b = false.
Proof.
  intros Hok. unfold WsSession.pump_turn.
  set (p := ((match fc_cur (s_fc x) with None => true | Some _ => false end || (d_mode (dir s x) ==? FRAME_PASS))
               && (d_drop (dir s x) =? 0)) && negb (out_pending (dir s x))).
  destruct (if p then _ else _) as [[rc x1]|] eqn:Ep; [|done].
  assert (H1 : sess_ok x1 \/ ending x1 /\ p = true).
  { destruct p eqn:E; [|by injection Ep as _ <-; left].
    apply andb_prop in E as [[E1 E2]%andb_prop _].
    destruct (parse_ok cf route_hash deny_entry reply_marks reason_of limit_fits fuel s x rc x1 Hok); auto.
    - intros _. unfold cur. destruct (fc_cur (s_fc x)); [right|by left]. by apply bool_decide_eq_true in E1.
    - lia. }
  clear Ep. destruct (fc_closing (s_fc x1) && p) eqn:Ec.
  { intros [= <- <-]. destruct H1 as [H1|[H1 _]]; [by left|by right]. }
  assert (Hok1 : sess_ok x1).
  { destruct H1 as [H1|[(_ & _ & H1) ->]]; [done|]. unfold closing in H1. by rewrite H1 in Ec. }
  clear H1 Ec. destruct (send_cleared s x1) as [sent x2] eqn:E2.
  pose proof (send_cleared_ok cf s x1 sent x2 Hok1 E2) as [Hok2 _].
  destruct sent; [|intros [= <- <-]; by left].
  pose proof (drop_original_ok cf s x2 Hok2) as [Hok3 _]. set (x3 := on_d s drop_original x2) in *. clearbody x3.
  destruct (send_rewritten s x3) as [again x4] eqn:E4.
  pose proof (send_rewritten_ok cf s x3 again x4 Hok3 E4) as [Hok4 _].
  destruct again as [[]|]; [intros [= <- <-]; by left| |intros [= <- <-]; by left].
  pose proof (compact_ok cf s x4 Hok4) as [Hok5 _]. set (x5 := on_d s _ x4) in *. clearbody x5.
  destruct (receive s x5) as [got x6] eqn:E6. pose proof (receive_ok cf s x5 got x6 Hok5 E6) as [Hok6 _].
  destruct got; intros [= <- <-]; by left.
Qed.

Lemma pump_ok n fuel s x x' : sess_ok x -> pump n fuel s x = Some x' -> sess_ok x' \/ ending x'.
Proof.
  revert x. induction n as [|n IH]; intros x Hok; cbn [ngx_http_waf_frame_pump]; [done|].
  destruct (pump_turn fuel s x) as [[b x1]|] eqn:E; [|done].
  destruct (pump_turn_ok fuel s x b x1 Hok E) as [H1|[H1 ->]].
  - destruct b; [by apply IH|]. intros [= <-]. by left.
  - intros [= <-]. by right.
Qed.

(** ** Events *)

(** Between the events: the buffers are sound, and a live session is. *)
Definition sound (x : sess) : Prop := (forall s, room (dir s x)) /\ (x.(s_gone) = false -> sess_ok x).

Lemma finalize_dir x s : dir s (ngx_http_waf_frame_finalize x) = dir s x.
Proof.
  assert (He : dir s (ngx_http_waf_frame_end x) = dir s x).
  { unfold ngx_http_waf_frame_end. repeat case_match; by destruct s. }
  unfold ngx_http_waf_frame_finalize. set (y := ngx_http_waf_frame_end x) in *. clearbody y.
  destruct (negb (fc_close_code (s_fc y) =? 0)); [|by destruct s].
  unfold draw_send. destruct (e_send (s_env y) S2C) as [|[]]; by destruct s.
Qed.
Lemma finalize_gone x : s_gone (ngx_http_waf_frame_finalize x) = true.
Proof. done. Qed.

Lemma finalize_sound x : (forall s, room (dir s x)) -> sound (ngx_http_waf_frame_finalize x).
Proof. intros H. split; [intros s; rewrite finalize_dir; apply H|by rewrite finalize_gone]. Qed.

Lemma timeout_sound w x : (forall s, room (dir s x)) -> sound (ngx_http_waf_frame_finalize (close_why w x)).
Proof. intros H. apply finalize_sound. intros s. apply (room_ptrs cf (dir s x)); [by destruct s|apply H]. Qed.

Lemma sess_ok_sound x : sess_ok x -> sound x.
Proof. intros H. split; [apply (so_room cf x H)|done]. Qed.

Lemma after_pump_sound armed x : sess_ok x \/ ending x -> sound (after_pump armed x).
Proof.
  intros H. assert (Hr : forall s, room (dir s x)).
  { destruct H as [H|[H _]]; [apply (so_room cf x H)|done]. }
  unfold after_pump. destruct (fc_closing (s_fc x)) eqn:Ec; [by apply finalize_sound|].
  destruct H as [H|(_ & _ & H)]; [|unfold closing in H; congruence].
  unfold ngx_http_waf_frame_events. case_match; [by apply timeout_sound|].
  case_match; [by apply sess_ok_sound|by apply finalize_sound].
Qed.

Lemma run_sound n fuel armed x x' : sess_ok x -> run n fuel armed x = Some x' -> sound x'.
Proof.
  intros Hok. unfold ngx_http_waf_frame_run. destruct (pump n fuel C2S x) as [x1|] eqn:E1; [|done].
  pose proof (pump_ok n fuel C2S x x1 Hok E1) as H1. destruct (fc_closing (s_fc x1)) eqn:Ec.
  - intros [= <-]. apply finalize_sound. destruct H1 as [H1|[H1 _]]; [apply (so_room cf x1 H1)|done].
  - destruct H1 as [H1|(_ & _ & H1)]; [|unfold closing in H1; congruence].
    destruct (pump n fuel S2C x1) as [x2|] eqn:E2; [|done]. intros [= <-].
    apply after_pump_sound. by eapply pump_ok.
Qed.

Lemma process_sound n fuel timed armed s x x' : sound x -> process n fuel timed armed s x = Some x' -> sound x'.
Proof.
  intros [Hr Hok]. unfold ngx_http_waf_frame_process.
  destruct (s_gone x) eqn:Eg; cbn [orb]; [by intros [= <-]; split; [|congruence]|].
  specialize (Hok eq_refl). destruct (fc_closing (s_fc x)); [by intros [= <-]; apply sess_ok_sound|].
  destruct timed as [[]|]; [by intros [= <-]; apply timeout_sound..|].
  destruct (pump n fuel s x) as [x1|] eqn:E; [|done]. intros [= <-]. apply after_pump_sound. by eapply pump_ok.
Qed.

Abbreviation resume_core := (WsSession.resume_core cf route_hash deny_entry reply_marks reason_of).

Lemma resume_sound n fuel armed x x' : sound x -> resume n fuel armed x = Some x' -> sound x'.
Proof.
  intros [Hr Hok]. unfold ngx_http_waf_frame_resume. destruct (s_gone x) eqn:Eg.
  - assert (E : resume_core fuel x = (false, on_req (fun q => q <| q_waiting := false |>) x)).
    { destruct fuel; cbn [WsSession.resume_core]; cbn [s_gone on_req upd]; by rewrite Eg. }
    rewrite E. intros [= <-]. split; [intros s; apply (room_ptrs cf (dir s x)); [by destruct s|apply Hr]|]. cbn. congruence.
  - specialize (Hok eq_refl). destruct (resume_core fuel x) as [b x1] eqn:E.
    apply (resume_core_ok cf) in E as [Hok1 _]; [|done].
    destruct b; [|intros [= <-]; by apply sess_ok_sound].
    case_match; [intros [= <-]; by apply sess_ok_sound|by apply run_sound].
Qed.

Lemma fetched_sound n fuel armed status data x x' :
  sound x -> fetched n fuel armed status data x = Some x' -> sound x'.
Proof.
  intros [Hr Hok]. unfold ngx_http_waf_frame_fetched. destruct (fc_cur (s_fc x)) as [s|] eqn:Ec;
    [|by intros [= <-]; split]. destruct (s_gone x) eqn:Eg; cbn [orb]; [intros [= <-]; by split; [|congruence]|].
  specialize (Hok eq_refl). destruct (negb _); [intros [= <-]; by apply sess_ok_sound|].
  set (x1 := if status ==? NGX_OK then _ else _).
  assert (K1 : still x x1).
  { unfold x1. destruct (status ==? NGX_OK); [|apply calm_still; [done|apply calm_rewrite_fail]].
    destruct (ngx_http_waf_frame_swap cf s data x) as [rc y] eqn:Es.
    destruct (swap_ok cf s data x rc y Hok Ec Es) as [Ky _].
    destruct (rc_ok rc); [done|]. eapply still_trans; [exact Ky|]. apply calm_still; [apply Ky|apply calm_rewrite_fail]. }
  clearbody x1. set (x2 := ngx_http_waf_frame_settle _ _ _ _ _).
  assert (K2 : still x1 x2).
  { apply settle_ok; [apply K1|]. unfold closing. by destruct (fc_closing _). }
  clearbody x2. destruct (fc_in_stack _); [intros [= <-]; apply sess_ok_sound, K2|].
  destruct (fc_closing (s_fc x2)); [intros [= <-]; apply finalize_sound, (so_room cf), K2|].
  apply run_sound, K2.
Qed.

Lemma handle_sound n fuel ev x x' : sound x -> handle n fuel ev x = Some x' -> sound x'.
Proof.
  intros H. destruct ev; cbn [handle].
  - by apply process_sound.
  - by apply resume_sound.
  - by apply fetched_sound.
Qed.

Lemma handle_all_sound n fuel evs x x' : sound x -> handle_all n fuel evs x = Some x' -> sound x'.
Proof.
  revert x. induction evs as [|ev evs IH]; intros x Hs; cbn [handle_all]; [by intros [= <-]|].
  destruct (handle n fuel ev x) as [x1|] eqn:E; cbn; [|done]. apply IH. by eapply handle_sound.
Qed.

(** ** From the handshake on *)

(** The memory of a buffer as it comes from the pool. *)
Definition fresh_ok (ovr : set_e) (fresh : side -> option bytes) (seed : side -> bytes) : Prop :=
  forall s mem, fresh s = Some mem ->
    let phase := match s with C2S => PHASE_FRAME_C2S | S2C => PHASE_FRAME_S2C end in
    is_bytes mem /\ zlen mem = frame_buf_size cf phase (ngx_http_waf_frame_mode cf ovr phase) (zlen (seed s)).

Lemma dir_init_room mem phase mode seed masked d :
  ngx_http_waf_frame_dir_init cf mem phase mode seed dir0 = (NGX_OK, d) ->
  (forall m, mem = Some m -> is_bytes m /\ zlen m = frame_buf_size cf phase mode (zlen seed)) -> is_bytes seed ->
  masked = true \/ cf.(wc_body_limit) phase <= 65535 \/ cf.(wc_reassemble) = false ->
  room (d <| d_masked := masked |>) /\ lying d /\ d.(d_held) = 0.
Proof.
  intros Hi Hm Hs Hsn. unfold ngx_http_waf_frame_dir_init in Hi. destruct mem as [mem|]; [|done].
  destruct (Hm mem eq_refl) as [Hb Hz]. set (size := frame_buf_size _ _ _ _) in *. pose proof (zlen_nonneg seed).
  assert (Hk : is_bytes (repeat 0 4)) by (repeat constructor; lia).
  assert (H0 : 0 <= size) by (rewrite <- Hz; apply zlen_nonneg).
  destruct (Z.eqb_spec (zlen seed) 0) as [E0|E0]; cbn [negb] in Hi.
  - revert Hi. intros [= <-]. split; [|by split]. split.
    + split; cbn; try done; try lia.
    + done.
    + exact Hsn.
    + unfold reach, growth. cbn. lia.
    + exact Hz.
  - destruct (Z.ltb_spec size (zlen seed)); [done|]. revert Hi. intros [= <-]. split; [|by split].
    assert (Hz' : zlen (store mem 0 seed) = size) by (rewrite zlen_store; lia). split.
    + split; cbn; try done; try lia. by apply is_bytes_store.
    + done.
    + exact Hsn.
    + unfold reach, growth. cbn. lia.
    + exact Hz'.
Qed.

Lemma attach_sound ovr fresh seed x fc :
  ngx_http_waf_frame_attach cf ovr fresh seed = (NGX_OK, fc) -> x.(s_fc) = fc ->
  fresh_ok ovr fresh seed -> (forall s, is_bytes (seed s)) ->
  cf.(wc_body_limit) PHASE_FRAME_S2C <= 65535 \/ cf.(wc_reassemble) = false -> sound x.
Proof.
  intros Ha Hx Hf Hb Hl. apply sess_ok_sound. unfold ngx_http_waf_frame_attach in Ha.
  destruct (ngx_http_waf_frame_dir_init cf (fresh C2S) _ _ _ _) as [r1 c2s] eqn:E1; destruct r1; try done.
  destruct (ngx_http_waf_frame_dir_init cf (fresh S2C) _ _ _ _) as [r2 s2c] eqn:E2; destruct r2; try done.
  revert Ha. intros [= Efc]. rewrite <- Efc in Hx. clear Efc fc.
  destruct (dir_init_room _ _ _ _ true c2s E1 (Hf C2S) (Hb C2S) (or_introl eq_refl)) as (R1 & L1 & H1).
  destruct (dir_init_room _ _ _ _ false s2c E2 (Hf S2C) (Hb S2C) (or_intror Hl)) as (R2 & L2 & H2).
  assert (Hm2 : d_masked s2c = false).
  { unfold ngx_http_waf_frame_dir_init in E2. destruct (fresh S2C); [|done].
    by repeat case_match; simplify_eq. }
  split; unfold dir, dir_of, closing, code; rewrite Hx; cbn.
  - intros []; [exact R1|]. apply (room_ptrs cf (s2c <| d_masked := false |>)); [|done]. unfold ptrs. cbn. by rewrite Hm2.
  - intros []; [|exact L2]. by destruct L1.
  - intros _ []; cbn; congruence.
  - done.
Qed.

(** The pointers of a direction lie in its buffer, which keeps its size, and
    the peer is asked for no more than the rest of it. *)
Definition in_bounds (d : dir_t) : Prop :=
  zlen d.(d_mem) = d.(d_size) /\ 0 <= d.(d_pos) <= d.(d_cleared) /\ d.(d_cleared) <= d.(d_last) /\
  d.(d_last) + recv_size d <= d.(d_size).

Lemma room_in_bounds d : room d -> in_bounds d.
Proof.
  intros Hr. pose proof (recv_size_room cf d Hr). destruct Hr as [H1 H2 H3 H4 H5].
  pose proof (dw_pos H1). pose proof (dir_last d H1). pose proof (hold_nonneg d H1). pose proof (growth_range d H1).
  unfold in_bounds, reach, NGX_HTTP_WAF_FRAME_SLACK in *. split_and!; lia.
Qed.

End events.

End WsEvents.
