(* ===== verification/WsRefine.v ===== *)
(** The parser of a direction against an abstract machine that has a stream of
    bytes, a message that is being put together and nothing else: no buffer,
    no offsets, no masking in place.  Every turn of the parser is a step of
    the machine, and the bytes it clears are the ones the machine releases. *)
From stdpp Require Import relations.
From S2P Require Import Prelude Types WsFrame WsMem WsFrameFacts.
#[local] Open Scope Z_scope.

Module WsRefine.
Import WsFrame WsMem WsFrameFacts.

(** ** The abstract machine *)

(** The stream ahead, the message (opcode and text) under way, whether the
    fragments of a passed message are still to come, and the bytes that are
    left of a passed frame. *)
Record astate := mkA { a_in : bytes; a_msg : option (Z * bytes); a_passing : bool; a_skip : Z }.

Inductive aout :=
  | AWait
  | AOn
  | AClose (code : Z)
  | AInspect (opcode : Z) (text : bytes) (held : Z)
  | AJournal (opcode : Z) (text : bytes) (held : Z).

Definition unmask (key : option bytes) (s : bytes) : bytes :=
  match key with Some k => xor_key k 0 s | None => s end.

(** A frame with a text. *)
Definition frame_of (fin : bool) (opcode : Z) (key : option bytes) (text : bytes) : bytes :=
  header_bytes (Z.lor (if fin then 128 else 0) opcode) (zlen text) key ++ unmask key text.

Definition head_key (h : hdr) (s : bytes) : option bytes :=
  if h.(h_masked) then Some (slice s (h.(h_hlen) - 4) 4) else None.
(** The text of the frame at the head of a stream. *)
Definition text_of (h : hdr) (s : bytes) : bytes := unmask (head_key h s) (slice s h.(h_hlen) h.(h_plen)).

Definition front (n : Z) (s : bytes) : bytes := take (Z.to_nat n) s.
Definition rest (n : Z) (s : bytes) : bytes := drop (Z.to_nat n) s.

Section machine.
Context (cf : fconf) (mode : fmode) (phase : phase_e) (masked : bool).

Definition collects : bool := cf.(wc_reassemble) && (mode ==? FRAME_INSPECT).
Definition text_len (A : astate) : Z := match A.(a_msg) with Some (_, t) => zlen t | None => 0 end.
Definition over_limit (A : astate) (h : hdr) : Prop := cf.(wc_body_limit) phase < u64 (h.(h_plen) + text_len A).

(** The frame at the head of the stream: its header is there and acceptable. *)
Definition head (A : astate) (h : hdr) : Prop :=
  A.(a_skip) <= 0 /\ parse_header A.(a_in) 0 (zlen A.(a_in)) = Some h /\ h.(h_masked) = masked.
Definition whole (A : astate) (h : hdr) : Prop := head A h /\ frame_len h <= zlen A.(a_in).

(** The data frames that may pass without an inspection. *)
Definition passable (A : astate) (h : hdr) : Prop :=
  mode = FRAME_PASS \/ (collects = true /\ h.(h_opcode) = NGX_HTTP_WAF_WS_OP_CONT /\ A.(a_passing) = true) \/
  (over_limit A h /\ (cf.(wc_body_limit_policy) phase <> POLICY_BLOCK \/ mode <> FRAME_INSPECT)) \/ h.(h_rsv) <> 0.

(** The frames that are looked at. *)
Definition lookable (A : astate) (h : hdr) : Prop :=
  whole A h /\ h.(h_opcode) <= NGX_HTTP_WAF_WS_OP_BINARY /\ ~ over_limit A h /\ h.(h_rsv) = 0 /\ mode <> FRAME_PASS.

Inductive astep (A : astate) : bytes -> aout -> astate -> Prop :=
  | as_wait : astep A [] AWait A
  | as_close code : astep A [] (AClose code) A
  | as_skip n :
      0 < A.(a_skip) -> A.(a_msg) = None -> n = Z.min A.(a_skip) (zlen A.(a_in)) ->
      astep A (front n A.(a_in)) (if 0 <? A.(a_skip) - n then AWait else AOn)
        (mkA (rest n A.(a_in)) None A.(a_passing) (A.(a_skip) - n))
  | as_drop h :
      whole A h -> 8 <= h.(h_opcode) -> h.(h_opcode) <> NGX_HTTP_WAF_WS_OP_CLOSE ->
      astep A [] AOn (mkA (rest (frame_len h) A.(a_in)) A.(a_msg) A.(a_passing) A.(a_skip))
  | as_control h :
      whole A h -> 8 <= h.(h_opcode) ->
      astep A (front (frame_len h) A.(a_in)) AOn
        (mkA (rest (frame_len h) A.(a_in)) A.(a_msg) A.(a_passing) A.(a_skip))
  | as_pass h b :
      head A h -> h.(h_opcode) <= NGX_HTTP_WAF_WS_OP_BINARY -> passable A h -> A.(a_msg) = None ->
      astep A [] AOn (mkA A.(a_in) None b (skip_of h))
  | as_flush h opcode text key :
      head A h -> h.(h_opcode) <= NGX_HTTP_WAF_WS_OP_BINARY -> passable A h -> A.(a_msg) = Some (opcode, text) ->
      astep A (frame_of false opcode key text) AOn (mkA A.(a_in) None (negb h.(h_fin)) (skip_of h))
  | as_unlogged h :
      lookable A h -> mode = FRAME_JOURNAL ->
      astep A (front (frame_len h) A.(a_in)) AOn
        (mkA (rest (frame_len h) A.(a_in)) A.(a_msg) A.(a_passing) A.(a_skip))
  | as_journal h :
      lookable A h -> mode = FRAME_JOURNAL ->
      astep A [] (AJournal h.(h_opcode) (text_of h A.(a_in)) (frame_len h)) A
  | as_first h :
      lookable A h -> collects = true -> h.(h_fin) = false -> h.(h_opcode) <> NGX_HTTP_WAF_WS_OP_CONT ->
      A.(a_msg) = None -> A.(a_passing) = false ->
      astep A [] AOn (mkA (rest (frame_len h) A.(a_in)) (Some (h.(h_opcode), text_of h A.(a_in))) false A.(a_skip))
  | as_append h opcode text :
      lookable A h -> mode = FRAME_INSPECT -> h.(h_fin) = false -> A.(a_msg) = Some (opcode, text) ->
      astep A [] AOn
        (mkA (rest (frame_len h) A.(a_in)) (Some (opcode, text ++ text_of h A.(a_in))) A.(a_passing) A.(a_skip))
  | as_message h opcode text key :
      lookable A h -> mode = FRAME_INSPECT -> A.(a_msg) = Some (opcode, text) ->
      let text := text ++ text_of h A.(a_in) in
      let frame := frame_of true opcode key text in
      astep A [] (AInspect opcode text (zlen frame))
        (mkA (frame ++ rest (frame_len h) A.(a_in)) None A.(a_passing) A.(a_skip))
  | as_frame h :
      lookable A h -> mode = FRAME_INSPECT -> A.(a_msg) = None ->
      astep A [] (AInspect h.(h_opcode) (text_of h A.(a_in)) (frame_len h)) A.

(** Steps up to one that does not go on, with the bytes they release. *)
Inductive arun (A : astate) : bytes -> aout -> astate -> Prop :=
  | ar_end out o B : astep A out o B -> o <> AOn -> arun A out o B
  | ar_step out B out' o C : astep A out AOn B -> arun B out' o C -> arun A (out ++ out') o C.

End machine.

(** ** Abstraction *)

Definition unread (d : dir_t) : bytes := slice d.(d_mem) (next_of d) (avail_of d).
Definition msg_mask (d : dir_t) : option bytes := if d.(d_masked) then Some d.(d_msg_key) else None.
Definition msg_raw (d : dir_t) : bytes := slice d.(d_mem) (d.(d_cleared) + d.(d_msg_hlen)) d.(d_msg_len).
Definition msg_of (d : dir_t) : option (Z * bytes) :=
  if d.(d_msg) then Some (d.(d_msg_opcode), unmask (msg_mask d) (msg_raw d)) else None.
Definition abs (d : dir_t) : astate := mkA (unread d) (msg_of d) d.(d_msg_skip) d.(d_skip).
Definition out_of (o : pout) (d : dir_t) : aout :=
  match o with
  | PAgain => AWait
  | PContinue => AOn
  | PClose code _ _ => AClose code
  | PInspect at_ len key => AInspect d.(d_opcode) (unmask key (slice d.(d_mem) at_ len)) d.(d_held)
  | PJournal at_ len key => AJournal d.(d_opcode) (unmask key (slice d.(d_mem) at_ len)) d.(d_held)
  end.

(** The bytes that [d'] has cleared beyond [d]. *)
Definition cleared_since (d d' : dir_t) : bytes := slice d'.(d_mem) d.(d_cleared) (d'.(d_cleared) - d.(d_cleared)).

(** ** Headers and texts of a stream *)

Lemma parse_header_slice m p n :
  0 <= p -> parse_header (slice m p n) 0 n = parse_header m p n.
Proof.
  intros Hp. unfold parse_header. destruct (Z.ltb_spec n 2); [done|].
  rewrite !aget_slice by lia. rewrite Z.add_0_r, Z.add_0_l.
  destruct (Z.ltb_spec n (hdr_len (aget 0 m (p + 1)))) as [|Hl]; [done|].
  do 2 f_equal. unfold hdr_plen, hdr_len in *. set (b1 := aget 0 m (p + 1)) in *.
  destruct (Z.land b1 127 =? 126); [|destruct (Z.land b1 127 =? 127); [|done]].
  - assert (4 <= n) by (destruct (negb _); lia). by rewrite !aget_slice by lia.
  - assert (10 <= n) by (destruct (negb _); lia).
    apply for_range_ext. intros i x Hi. rewrite aget_slice by lia. done.
Qed.

Lemma text_of_slice h m p n :
  0 <= p -> frame_len h <= n -> 0 <= h.(h_plen) -> (if h.(h_masked) then 6 else 2) <= h.(h_hlen) ->
  text_of h (slice m p n) =
  unmask (if h.(h_masked) then Some (slice m (p + h.(h_hlen) - 4) 4) else None) (slice m (p + h.(h_hlen)) h.(h_plen)).
Proof.
  unfold text_of, head_key, frame_len. intros Hp Hn Hl Hh. destruct (h_masked h); cbn [unmask].
  - rewrite !slice_slice by lia. do 2 f_equal. lia.
  - by rewrite slice_slice by lia.
Qed.

Lemma rest_slice m p n k : 0 <= p -> 0 <= k <= n -> rest k (slice m p n) = slice m (p + k) (n - k).
Proof.
  intros Hp Hk. unfold rest, slice. rewrite skipn_firstn_comm, drop_drop. f_equal; [lia|]. f_equal. lia.
Qed.
Lemma front_slice m p n k : 0 <= k <= n -> front k (slice m p n) = slice m p k.
Proof. intros Hk. unfold front, slice. rewrite take_take. f_equal. lia. Qed.

Section refine.
Context (cf : fconf) (jset : set_e) (now : Z).
Abbreviation turn := (WsFrameFacts.turn cf).

(** A frame that is being skipped leaves no message open. *)
Definition skips_alone (d : dir_t) : Prop := 0 < d.(d_skip) -> d.(d_msg) = false.

Lemma unread_at d m c l hold :
  d.(d_mem) = m -> d.(d_cleared) = c -> d.(d_last) = l -> hold_of d = hold ->
  unread d = slice m (c + hold) (l - (c + hold)).
Proof. unfold unread, avail_of, next_of. by intros -> -> -> ->. Qed.
Lemma cleared_since_at d d' m c : d'.(d_mem) = m -> d'.(d_cleared) = c ->
  cleared_since d d' = slice m d.(d_cleared) (c - d.(d_cleared)).
Proof. unfold cleared_since. by intros -> ->. Qed.

Lemma zlen_unread d : dir_wf d -> zlen (unread d) = avail_of d.
Proof.
  intros Hd. pose proof (dw_pos Hd). pose proof (hold_nonneg d Hd). pose proof (dir_last d Hd).
  unfold unread. apply zlen_slice; unfold avail_of, next_of in *; lia.
Qed.

Lemma zlen_msg d : dir_wf d -> text_len (abs d) = if d.(d_msg) then d.(d_msg_len) else 0.
Proof.
  intros Hd. unfold text_len, abs, msg_of. cbn [a_msg]. destruct (d_msg d) eqn:Hm; [|done].
  pose proof (dw_pos Hd). pose proof (dir_last d Hd) as Hl. destruct (dw_msg Hd Hm) as [H1 H2].
  unfold hold_of in Hl. rewrite Hm in Hl.
  assert (E : zlen (msg_raw d) = d_msg_len d).
  { unfold msg_raw. apply zlen_slice; destruct (d_masked d); lia. }
  destruct (msg_mask d); cbn [unmask]; by rewrite ?zlen_xor_key.
Qed.

Abbreviation astep_of d := (astep cf d.(d_mode) d.(d_phase) d.(d_masked)).
Abbreviation arun_of d := (arun cf d.(d_mode) d.(d_phase) d.(d_masked)).

Lemma frame_at_head d h : dir_wf d -> frame_at d h -> head d.(d_masked) (abs d) h.
Proof.
  intros Hd [H1 H2 H3 H4]. split_and!; try done. cbn [abs a_in]. rewrite zlen_unread by done.
  unfold unread. rewrite parse_header_slice; [done|].
  pose proof (dw_pos Hd). pose proof (hold_nonneg d Hd). unfold next_of. lia.
Qed.
Lemma frame_at_whole d h : dir_wf d -> frame_at d h -> frame_len h <= avail_of d -> whole d.(d_masked) (abs d) h.
Proof. intros Hd Hf Hl. split; [by apply frame_at_head|]. cbn [abs a_in]. by rewrite zlen_unread. Qed.

Lemma over_limit_total d h : dir_wf d ->
  over_limit cf d.(d_phase) (abs d) h <-> limit_of cf d < total_of d h.
Proof. intros Hd. unfold over_limit, limit_of, total_of. by rewrite zlen_msg. Qed.

Lemma may_pass_passable d h : dir_wf d -> may_pass cf d h -> passable cf d.(d_mode) d.(d_phase) (abs d) h.
Proof.
  intros Hd H. unfold passable. rewrite over_limit_total by done. exact H.
Qed.

Lemma taken_lookable d h : dir_wf d -> taken cf d h -> lookable cf d.(d_mode) d.(d_phase) d.(d_masked) (abs d) h.
Proof.
  intros Hd [H1 H2 H3 H4 H5 H6]. split_and!; try done; [by apply frame_at_whole|]. rewrite over_limit_total by done. lia.
Qed.

(** The text of the next frame, from the buffer. *)
Lemma unread_text d h :
  dir_wf d -> frame_at d h -> frame_len h <= avail_of d ->
  text_of h (unread d) = unmask (frame_key h (next_of d) d) (slice d.(d_mem) (next_of d + h.(h_hlen)) h.(h_plen)).
Proof.
  intros Hd Hf Hl. destruct (frame_at_hlen d h Hd Hf) as (G1 & G2 & _). rewrite <- (fa_masked d h Hf) in G1.
  pose proof (dw_pos Hd). pose proof (hold_nonneg d Hd). unfold unread, frame_key.
  apply text_of_slice; unfold next_of; lia.
Qed.

(** ** The turns *)

(** A turn is a step of the machine, and the bytes cleared before stay. *)
Definition refines (d : dir_t) (o : pout) (d' : dir_t) : Prop :=
  astep_of d (abs d) (cleared_since d d') (out_of o d') (abs d') /\
  keeps_below d.(d_mem) d'.(d_mem) d.(d_cleared) /\ d.(d_cleared) <= d'.(d_cleared) /\ skips_alone d'.

Lemma keeps_below_refl m a : keeps_below m m a.
Proof. by intros ????. Qed.
Lemma cleared_since_same d d' : d'.(d_cleared) = d.(d_cleared) -> cleared_since d d' = [].
Proof. intros H. unfold cleared_since. rewrite H, Z.sub_diag. apply slice_nil. Qed.

Lemma msg_of_ext d d' :
  d'.(d_msg) = d.(d_msg) -> d'.(d_msg_opcode) = d.(d_msg_opcode) -> msg_mask d' = msg_mask d ->
  (d.(d_msg) = true -> msg_raw d' = msg_raw d) -> msg_of d' = msg_of d.
Proof.
  intros H1 H2 H3 H4. unfold msg_of. rewrite H1, H2, H3. destruct (d_msg d); [|done]. by rewrite H4.
Qed.

Lemma refine_skip d :
  dir_wf d -> skips_alone d -> 0 < d.(d_skip) ->
  refines d (if 0 <? d.(d_skip) - Z.min d.(d_skip) (avail_of d) then PAgain else PContinue)
    (d <| d_cleared := d.(d_cleared) + Z.min d.(d_skip) (avail_of d) |>
       <| d_skip := d.(d_skip) - Z.min d.(d_skip) (avail_of d) |>).
Proof.
  intros Hd Ha Hs. specialize (Ha Hs). pose proof (dw_pos Hd). pose proof (dir_last d Hd).
  assert (Hh : hold_of d = 0) by (unfold hold_of; by rewrite Ha).
  set (n := Z.min _ _). assert (Hn : 0 <= n <= avail_of d) by (unfold avail_of, next_of in *; lia).
  assert (Hnx : next_of d = d_cleared d) by (unfold next_of; lia).
  set (d' := _ <| d_skip := _ |>). assert (Hu : unread d' = rest n (unread d)).
  { rewrite (unread_at d' (d_mem d) (d_cleared d + n) (d_last d) (hold_of d)) by reflexivity.
    unfold unread. rewrite rest_slice by lia. f_equal; unfold avail_of, next_of; lia. }
  split_and!; [|apply keeps_below_refl|change (d_cleared d <= d_cleared d + n); lia|by intros _; exact Ha].
  assert (E : cleared_since d d' = front n (unread d)).
  { rewrite (cleared_since_at d d' (d_mem d) (d_cleared d + n)) by reflexivity.
    unfold unread. rewrite front_slice by lia. f_equal; lia. }
  rewrite E. assert (Eo : out_of (if 0 <? d_skip d - n then PAgain else PContinue) d'
    = if 0 <? a_skip (abs d) - n then AWait else AOn) by (cbn [abs a_skip]; by case_match).
  rewrite Eo. assert (Em : msg_of d = None) by (unfold msg_of; by rewrite Ha).
  assert (Ed : abs d' = mkA (rest n (a_in (abs d))) None (a_passing (abs d)) (a_skip (abs d) - n)).
  { unfold abs at 1. rewrite Hu. unfold msg_of. change (d_msg d') with (d_msg d). by rewrite Ha. }
  rewrite Ed. apply as_skip; cbn; [done|done|]. by rewrite zlen_unread.
Qed.

Lemma refine_cut d h d1 :
  dir_wf d -> frame_at d h -> 8 <= h.(h_opcode) -> h.(h_opcode) <> NGX_HTTP_WAF_WS_OP_CLOSE ->
  frame_len h <= avail_of d -> counted d d1 ->
  refines d PContinue (ngx_http_waf_frame_cut (next_of d) (frame_len h) d1).
Proof.
  intros Hd Hf Ho Hc Hl Hct. destruct (cut_counted d d1 h Hd Hf Hl Hct) as (m' & -> & Hb & Hz & Hk & Hmv).
  destruct (frame_at_hlen d h Hd Hf) as (G1 & G2 & _). pose proof (dw_pos Hd). pose proof (hold_nonneg d Hd).
  assert (Hfl : 0 <= frame_len h) by (unfold frame_len; destruct (d_masked d); lia).
  assert (Hkb : keeps_below (d_mem d) m' (d_cleared d)) by (intros b n ???; apply Hk; unfold next_of; lia).
  pose proof (dw_msg Hd) as Hmsg. pose proof (fa_skip d h Hf) as Hskip.
  destruct Hct as (q & t & l & k & ->). set (d' := _ <| d_last := _ |>).
  split_and!; [|exact Hkb|done|intros Hs; exfalso; change (0 < d_skip d) in Hs; lia].
  rewrite cleared_since_same by done.
  assert (Hu : unread d' = rest (frame_len h) (unread d)).
  { rewrite (unread_at d' m' (d_cleared d) (d_last d - frame_len h) (hold_of d)) by reflexivity.
    unfold unread. rewrite rest_slice by (unfold next_of; lia). rewrite <- (moves_whole _ _ _ _ _ Hmv) by lia.
    unfold avail_of, next_of. f_equal. lia. }
  assert (Hm : msg_of d' = msg_of d).
  { apply msg_of_ext; try done. intros E. destruct (Hmsg E). change (slice m' (d_cleared d + d_msg_hlen d) (d_msg_len d) = msg_raw d).
    apply Hk; [destruct (d_masked d); lia..|].
    unfold next_of, hold_of. rewrite E. lia. }
  assert (Ed : abs d' = mkA (rest (frame_len h) (a_in (abs d))) (a_msg (abs d)) (a_passing (abs d)) (a_skip (abs d)))
    by (unfold abs at 1; by rewrite Hu, Hm).
  rewrite Ed. apply as_drop; [by apply frame_at_whole|done..].
Qed.

Lemma refine_control d h d1 :
  dir_wf d -> frame_at d h -> 8 <= h.(h_opcode) -> frame_len h <= avail_of d -> counted d d1 ->
  refines d PContinue
    ((if hold_of d =? 0 then d1 else ngx_http_waf_frame_hoist (next_of d) (frame_len h) d1)
       <| d_cleared := d.(d_cleared) + frame_len h |>).
Proof.
  intros Hd Hf Ho Hl Hct. destruct (control_counted d d1 h Hd Hf Hl Hct) as (m' & -> & Hb & Hz & Hk & Hc & Hmv & Ha).
  destruct (frame_at_hlen d h Hd Hf) as (G1 & G2 & _). pose proof (dw_pos Hd). pose proof (hold_nonneg d Hd).
  assert (Hfl : 0 <= frame_len h) by (unfold frame_len; destruct (d_masked d); lia).
  pose proof (dw_msg Hd) as Hmsg. pose proof (fa_skip d h Hf) as Hskip.
  destruct Hct as (q & t & l & k & ->). set (d' := _ <| d_cleared := _ |>).
  split_and!; [|exact Hk|change (d_cleared d <= d_cleared d + frame_len h); lia|intros Hs; exfalso; change (0 < d_skip d) in Hs; lia].
  assert (Hu : unread d' = rest (frame_len h) (unread d)).
  { rewrite (unread_at d' m' (d_cleared d + frame_len h) (d_last d) (hold_of d)) by reflexivity.
    unfold unread. rewrite rest_slice by (unfold next_of; lia). rewrite <- Ha by lia.
    unfold avail_of, next_of. f_equal; lia. }
  assert (Hr : cleared_since d d' = front (frame_len h) (unread d)).
  { unfold unread. rewrite front_slice by lia. rewrite <- Hc.
    rewrite (cleared_since_at d d' m' (d_cleared d + frame_len h)) by reflexivity. f_equal. lia. }
  assert (Hm : msg_of d' = msg_of d).
  { apply msg_of_ext; try done. intros E. destruct (Hmsg E). change (slice m' (d_cleared d + frame_len h + d_msg_hlen d) (d_msg_len d) = msg_raw d).
    apply Hmv; [destruct (d_masked d); lia..|]. unfold hold_of. rewrite E. lia. }
  assert (Ed : abs d' = mkA (rest (frame_len h) (a_in (abs d))) (a_msg (abs d)) (a_passing (abs d)) (a_skip (abs d)))
    by (unfold abs at 1; by rewrite Hu, Hm).
  rewrite Ed, Hr. apply (as_control _ _ _ _ (abs d)); [by apply frame_at_whole|done].
Qed.

(** Turns that leave the memory and the pointers alone. *)
Lemma unread_same d d' : d'.(d_mem) = d.(d_mem) -> d'.(d_cleared) = d.(d_cleared) -> d'.(d_last) = d.(d_last) ->
  hold_of d' = hold_of d -> unread d' = unread d.
Proof. unfold unread, avail_of, next_of. by intros -> -> -> ->. Qed.

Lemma refine_pass d h b :
  dir_wf d -> frame_at d h -> h.(h_opcode) <= NGX_HTTP_WAF_WS_OP_BINARY -> may_pass cf d h -> d.(d_msg) = false ->
  refines d PContinue (d <| d_msg_skip := b |> <| d_seq := inc d.(d_seq) |> <| d_skip := skip_of h |>).
Proof.
  intros Hd Hf Ho Hp Hm. set (d' := _ <| d_skip := _ |>).
  split_and!; [|apply keeps_below_refl|done|by intros _].
  rewrite cleared_since_same by done.
  assert (Em : msg_of d = None) by (unfold msg_of; by rewrite Hm).
  assert (Ed : abs d' = mkA (a_in (abs d)) None b (skip_of h)).
  { unfold abs at 1. rewrite (unread_same d d') by done. change (msg_of d') with (msg_of d). by rewrite Em. }
  rewrite Ed. apply as_pass; [by apply frame_at_head|done|by apply may_pass_passable|done].
Qed.

(** What sealing leaves in the buffer: the frame with the text of the message,
    then the bytes ahead. *)
Lemma seal_abs fin d hl d1 :
  dir_wf d -> d.(d_msg) = true -> ngx_http_waf_frame_msg_seal fin d = (hl, d1) ->
  exists text, msg_of d = Some (d.(d_msg_opcode), text) /\ zlen text = d.(d_msg_len) /\
    slice d1.(d_mem) d.(d_cleared) (hl + d.(d_msg_len)) = frame_of fin d.(d_msg_opcode) (msg_mask d) text /\
    slice d1.(d_mem) (d.(d_cleared) + hl + d.(d_msg_len)) (avail_of d) = unread d /\
    unmask (msg_mask d) (slice d1.(d_mem) (d.(d_cleared) + hl) d.(d_msg_len)) = text /\
    keeps_below d.(d_mem) d1.(d_mem) d.(d_cleared) /\
    slice d1.(d_mem) d.(d_cleared) (hl + d.(d_msg_len) + avail_of d) =
      frame_of fin d.(d_msg_opcode) (msg_mask d) text ++ unread d.
Proof.
  intros Hd Hm Es. destruct (seal_spec fin d Hd Hm) as (m' & E & Hb & Hz & Hk & Hh & Hmv).
  rewrite Es in E. injection E as -> ->. cbn [d_mem upd].
  pose proof (dw_pos Hd). pose proof (dir_last d Hd) as Hl. destruct (dw_msg Hd Hm) as [M1 M2].
  pose proof (header_len_range (d_msg_len d) (d_masked d)). set (hl := header_len _ _) in *.
  assert (Hhold : hold_of d = d_msg_hlen d + d_msg_len d) by (unfold hold_of; by rewrite Hm).
  assert (Hmh : 0 <= d_msg_hlen d) by (destruct (d_masked d); lia).
  assert (Hraw : slice m' (d_cleared d + hl) (d_msg_len d) = msg_raw d).
  { pose proof (Hmv 0 (d_msg_len d)) as K. rewrite !Z.add_0_r in K. apply K; lia. }
  assert (Hrest : slice m' (d_cleared d + hl + d_msg_len d) (avail_of d) = unread d).
  { unfold unread, next_of, avail_of, next_of. rewrite Hhold, Z.add_assoc. apply Hmv; lia. }
  assert (Hlen : zlen (msg_raw d) = d_msg_len d).
  { unfold msg_raw. apply zlen_slice; lia. }
  assert (Hlt : zlen (unmask (msg_mask d) (msg_raw d)) = d_msg_len d).
  { destruct (msg_mask d); cbn [unmask]; by rewrite ?zlen_xor_key. }
  assert (Hframe : slice m' (d_cleared d) (hl + d_msg_len d)
    = frame_of fin (d_msg_opcode d) (msg_mask d) (unmask (msg_mask d) (msg_raw d))).
  { rewrite slice_split by lia. rewrite Hh, Hraw. unfold frame_of. rewrite Hlt. unfold seal_header.
    f_equal.
    destruct (msg_mask d); cbn [unmask]; by rewrite ?xor_key_invol. }
  exists (unmask (msg_mask d) (msg_raw d)). split_and!; try done.
  - unfold msg_of. by rewrite Hm.
  - by rewrite Hraw.
  - assert (0 <= avail_of d) by (unfold avail_of, next_of; lia).
    rewrite slice_split by lia. rewrite Hframe. f_equal. rewrite <- Hrest. f_equal; lia.
Qed.

Lemma refine_flush d h hl d1 :
  dir_wf d -> frame_at d h -> h.(h_opcode) <= NGX_HTTP_WAF_WS_OP_BINARY -> may_pass cf d h -> d.(d_msg) = true ->
  ngx_http_waf_frame_msg_seal false d = (hl, d1) ->
  refines d PContinue (d1 <| d_cleared := d.(d_cleared) + (hl + d.(d_msg_len)) |> <| d_msg_skip := negb h.(h_fin) |>
            <| d_seq := inc d.(d_seq) |> <| d_skip := skip_of h |>).
Proof.
  intros Hd Hf Ho Hp Hm Es. destruct (seal_abs false d hl d1 Hd Hm Es) as (text & T1 & T2 & T3 & T4 & T5 & T6 & _).
  destruct (seal_wf false d hl d1 Hd Hm Es) as (Ehl & _ & E1 & E2 & E3 & E4 & _).
  pose proof (header_len_range (d_msg_len d) (d_masked d)). destruct (dw_msg Hd Hm) as [M1 M2].
  set (d' := _ <| d_skip := _ |>).
  assert (F1 : hold_of d' = 0) by (change (hold_of d') with (hold_of d1); unfold hold_of; by rewrite E1).
  split_and!; [|exact T6|change (d_cleared d <= d_cleared d + (hl + d_msg_len d)); lia|by intros _].
  rewrite (cleared_since_at d d' (d_mem d1) (d_cleared d + (hl + d_msg_len d))) by reflexivity.
  replace (d_cleared d + (hl + d_msg_len d) - d_cleared d) with (hl + d_msg_len d) by lia. rewrite T3.
  assert (Ed : abs d' = mkA (a_in (abs d)) None (negb (h_fin h)) (skip_of h)).
  { unfold abs at 1. rewrite (unread_at d' (d_mem d1) (d_cleared d + (hl + d_msg_len d)) (d_last d1) 0) by done.
    assert (Em : msg_of d' = None) by (unfold msg_of; change (d_msg d') with (d_msg d1); by rewrite E1).
    rewrite Em. f_equal. cbn [abs a_in]. rewrite <- T4. f_equal; [lia|].
    unfold avail_of, next_of, hold_of. rewrite E4, Hm. lia. }
  rewrite Ed. by eapply as_flush; [apply frame_at_head|..|apply may_pass_passable|].
Qed.

(** The direction after a fragment was appended. *)
Lemma append_abs d h :
  dir_wf d -> taken cf d h -> d.(d_msg) = true ->
  let da := ngx_http_waf_frame_msg_append (next_of d) h.(h_hlen) h.(h_plen) (d <| d_seq := inc d.(d_seq) |>) in
  exists text, msg_of d = Some (d.(d_msg_opcode), text) /\
    msg_of da = Some (d.(d_msg_opcode), text ++ text_of h (unread d)) /\
    unread da = rest (frame_len h) (unread d) /\ keeps_below d.(d_mem) da.(d_mem) d.(d_cleared) /\
    da.(d_cleared) = d.(d_cleared) /\ da.(d_msg_skip) = d.(d_msg_skip) /\ da.(d_skip) = d.(d_skip) /\
    da.(d_msg) = true /\ da.(d_msg_opcode) = d.(d_msg_opcode) /\ da.(d_masked) = d.(d_masked).
Proof.
  intros Hd Ht Hm da. pose proof (tk_at cf d h Ht) as Hf. destruct (frame_at_hlen d h Hd Hf) as (G1 & G2 & _).
  pose proof (tk_len cf d h Ht) as Hl. pose proof (append_key_side d h Hd Hf). pose proof (hold_nonneg d Hd).
  pose proof (dw_pos Hd). destruct (dw_msg Hd Hm) as [M1 M2].
  assert (Hh0 : 0 <= h_hlen h) by (destruct (d_masked d); lia).
  assert (Hmh : 0 <= d_msg_hlen d) by (destruct (d_masked d); lia).
  assert (Hfl : 0 <= frame_len h) by (unfold frame_len; lia).
  destruct (append_spec (next_of d) (h_hlen h) (h_plen h) (d <| d_seq := inc d.(d_seq) |>))
    as (m' & E & Hb & Hz & Hk & Hfr & Hmv); [by apply seq_wf|ptr_lia|done|lia|ptr_lia|].
  fold da in E. change (d_mem (d <| d_seq := inc (d_seq d) |>)) with (d_mem d) in *.
  change (d_last (d <| d_seq := inc (d_seq d) |>)) with (d_last d) in *.
  assert (Hhold : hold_of d = d_msg_hlen d + d_msg_len d) by (unfold hold_of; by rewrite Hm).
  assert (Hnx : next_of d = d_cleared d + d_msg_hlen d + d_msg_len d) by (unfold next_of; lia).
  assert (Hraw : slice m' (d_cleared d + d_msg_hlen d) (d_msg_len d + h_plen h)
     = msg_raw d ++ fragment_bytes (next_of d) (h_hlen h) (h_plen h) d).
  { rewrite slice_split by lia. f_equal; [apply Hk; lia|]. rewrite <- Hnx. exact Hfr. }
  assert (Hlr : zlen (msg_raw d) = d_msg_len d).
  { pose proof (dir_last d Hd). unfold msg_raw. apply zlen_slice; lia. }
  exists (unmask (msg_mask d) (msg_raw d)). rewrite E. clear E da. set (dx := _ <| d_msg_fragments := _ |>).
  split_and!; try reflexivity; try done.
  - unfold msg_of. by rewrite Hm.
  - assert (Ex : msg_of dx = if d_msg d then Some (d_msg_opcode d,
      unmask (msg_mask d) (slice m' (d_cleared d + d_msg_hlen d) (d_msg_len d + h_plen h))) else None) by reflexivity.
    rewrite Ex, Hm. do 2 f_equal. rewrite Hraw, unread_text by done. unfold frame_key, fragment_bytes, msg_mask. rewrite (fa_masked d h Hf).
    destruct (d_masked d) eqn:Em; cbn [unmask]; [|done].
    rewrite xor_key_app, Hlr, Z.add_0_l. by rewrite xor_key_invol.
  - rewrite (unread_at dx m' (d_cleared d) (d_last d - h_hlen h) (hold_of d + h_plen h)); try reflexivity.
    2: { rewrite Hhold. change (hold_of dx) with (if d_msg d then d_msg_hlen d + (d_msg_len d + h_plen h) else 0).
         rewrite Hm. lia. }
    unfold unread. rewrite rest_slice by (unfold frame_len, avail_of in *; lia).
    pose proof (moves_whole _ _ _ _ _ Hmv) as Hw. replace (d_last d - (next_of d + h_hlen h + h_plen h))
      with (avail_of d - frame_len h) in Hw by (unfold avail_of, frame_len; lia).
    replace (next_of d + frame_len h) with (next_of d + h_hlen h + h_plen h) by (unfold frame_len; lia).
    rewrite <- Hw by lia. f_equal; unfold avail_of, frame_len, next_of; lia.
  - intros b n ???. apply Hk; lia.
Qed.

Lemma refine_first d h :
  dir_wf d -> taken cf d h -> assembling cf d = true -> h.(h_fin) = false ->
  h.(h_opcode) <> NGX_HTTP_WAF_WS_OP_CONT -> d.(d_msg) = false -> d.(d_msg_skip) = false ->
  refines d PContinue
    ((fragment_key h d) <| d_seq := inc d.(d_seq) |> <| d_msg := true |> <| d_msg_opcode := h.(h_opcode) |>
       <| d_msg_hlen := h.(h_hlen) |> <| d_msg_len := h.(h_plen) |> <| d_msg_fragments := 1 |>
       <| d_msg_seq := inc d.(d_seq) |>).
Proof.
  intros Hd Ht Ha Hfin Hop Hm Hsk. pose proof (tk_at cf d h Ht) as Hf. pose proof (tk_len cf d h Ht) as Hl.
  destruct (frame_at_hlen d h Hd Hf) as (G1 & G2 & _). pose proof (dw_pos Hd). pose proof (fa_skip d h Hf).
  assert (Hh : 0 <= h_hlen h) by (destruct (d_masked d); lia).
  assert (Hhold : hold_of d = 0) by (unfold hold_of; by rewrite Hm).
  pose proof (unread_text d h Hd Hf Hl) as Htx. pose proof (fa_masked d h Hf) as Hmk.
  assert (Hkey : exists k, fragment_key h d = d <| d_msg_key := k |> /\
    (if d.(d_masked) then Some k else None) = frame_key h (next_of d) d).
  { unfold fragment_key, frame_key. rewrite Hmk. destruct (d_masked d); [by eexists|].
    exists (d_msg_key d). by destruct d. }
  destruct Hkey as (k & -> & Hk). set (d' := _ <| d_msg_seq := _ |>).
  split_and!; [|apply keeps_below_refl|done|intros Hs; exfalso; change (0 < d_skip d) in Hs; lia].
  rewrite cleared_since_same by done.
  assert (Hu : unread d' = rest (frame_len h) (unread d)).
  { rewrite (unread_at d' (d_mem d) (d_cleared d) (d_last d) (frame_len h)) by reflexivity.
    unfold unread. rewrite rest_slice by (unfold frame_len, next_of in *; lia).
    unfold avail_of, next_of. rewrite Hhold, Z.add_0_r. f_equal; lia. }
  assert (Hmsg : msg_of d' = Some (h_opcode h, text_of h (unread d))).
  { rewrite Htx, <- Hk. unfold next_of. rewrite Hhold, Z.add_0_r. reflexivity. }
  assert (Em : msg_of d = None) by (unfold msg_of; by rewrite Hm).
  assert (Ed : abs d' = mkA (rest (frame_len h) (a_in (abs d))) (Some (h_opcode h, text_of h (a_in (abs d)))) false (a_skip (abs d))).
  { unfold abs at 1. rewrite Hu, Hmsg. change (d_msg_skip d') with (d_msg_skip d). by rewrite Hsk. }
  rewrite Ed. apply as_first; (by apply taken_lookable) || done.
Qed.

Lemma refine_append d h :
  dir_wf d -> taken cf d h -> d.(d_mode) = FRAME_INSPECT -> h.(h_fin) = false -> d.(d_msg) = true ->
  refines d PContinue
    (ngx_http_waf_frame_msg_append (next_of d) h.(h_hlen) h.(h_plen) (d <| d_seq := inc d.(d_seq) |>)).
Proof.
  intros Hd Ht Hi Hfin Hm. pose proof (fa_skip d h (tk_at cf d h Ht)).
  destruct (append_abs d h Hd Ht Hm) as (text & T1 & T2 & T3 & T4 & T5 & T6 & T7 & T8 & T9 & T10).
  set (da := ngx_http_waf_frame_msg_append _ _ _ _) in *. clearbody da.
  split_and!; [|exact T4|lia|intros Hs; lia]. rewrite cleared_since_same by done.
  assert (Ed : abs da = mkA (rest (frame_len h) (a_in (abs d)))
    (Some (d_msg_opcode d, text ++ text_of h (a_in (abs d)))) (a_passing (abs d)) (a_skip (abs d)))
    by (unfold abs at 1; by rewrite T2, T3, T6, T7).
  rewrite Ed. apply as_append; (by apply taken_lookable) || done.
Qed.

Lemma zlen_frame_of fin op (masked : bool) (key text : bytes) :
  zlen key = 4 -> zlen (frame_of fin op (if masked then Some key else None) text)
    = header_len (zlen text) masked + zlen text.
Proof.
  intros Hk. unfold frame_of. rewrite zlen_app, zlen_header_bytes by (by destruct masked).
  destruct masked; cbn [unmask]; by rewrite ?zlen_xor_key.
Qed.

Lemma seal_msg_skip fin d hl d1 : ngx_http_waf_frame_msg_seal fin d = (hl, d1) -> d1.(d_msg_skip) = d.(d_msg_skip).
Proof. unfold ngx_http_waf_frame_msg_seal. intros E. injection E as _ <-. by case_match. Qed.

(** The message that is handed over, by the fields of the direction. *)
Lemma refine_sealed d h hl d1 d' :
  dir_wf d -> taken cf d h -> d.(d_mode) = FRAME_INSPECT -> d.(d_msg) = true ->
  ngx_http_waf_frame_msg_seal true
    (ngx_http_waf_frame_msg_append (next_of d) h.(h_hlen) h.(h_plen) (d <| d_seq := inc d.(d_seq) |>)) = (hl, d1) ->
  d'.(d_mem) = d1.(d_mem) -> d'.(d_cleared) = d1.(d_cleared) -> d'.(d_last) = d1.(d_last) ->
  d'.(d_msg) = d1.(d_msg) -> d'.(d_msg_skip) = d1.(d_msg_skip) -> d'.(d_skip) = d1.(d_skip) ->
  d'.(d_opcode) = d1.(d_msg_opcode) -> d'.(d_held) = hl + d1.(d_msg_len) ->
  refines d
    (PInspect (d1.(d_cleared) + hl) d1.(d_msg_len) (if d.(d_masked) then Some d1.(d_msg_key) else None)) d'.
Proof.
  intros Hd Ht Hi Hm Es F1 F2 F3 F4 F5 F6 F7 F8. pose proof (fa_skip d h (tk_at cf d h Ht)) as Hsk.
  pose proof (after_append_wf cf d h Hd Ht Hm) as Hda.
  destruct (append_abs d h Hd Ht Hm) as (text & T1 & T2 & T3 & T4 & T5 & T6 & T7 & T8 & T9 & T10).
  set (da := ngx_http_waf_frame_msg_append _ _ _ _) in *. clearbody da.
  destruct (seal_abs true da hl d1 Hda T8 Es) as (text' & U1 & U2 & U3 & U4 & U5 & U6 & U7).
  assert (text' = text ++ text_of h (unread d)) as -> by congruence.
  pose proof (seal_msg_skip true da hl d1 Es) as V7.
  destruct (seal_wf true da hl d1 Hda T8 Es) as (V0 & (_ & _ & _ & _ & V1 & _) & V2 & V3 & V4 & V5 & V6 & _ & _ & _ & V8 & V9).
  destruct (dw_key Hda) as [_ Hk4].
  assert (Hmask : (if d_masked d then Some (d_msg_key d1) else None) = msg_mask da).
  { unfold msg_mask. by rewrite T10, V8. }
  assert (Hin : unread d' = frame_of true (d_msg_opcode d) (msg_mask da) (text ++ text_of h (unread d))
                            ++ rest (frame_len h) (unread d)).
  { rewrite (unread_at d' (d_mem d1) (d_cleared d1) (d_last d1) 0); try done; [|unfold hold_of; by rewrite F4, V2].
    rewrite <- T3, <- T9, <- U7, V4. f_equal; [lia|]. rewrite V5. unfold avail_of, next_of, hold_of. rewrite T8. lia. }
  assert (Hz : zlen (frame_of true (d_msg_opcode d) (msg_mask da) (text ++ text_of h (unread d))) = hl + d_msg_len da).
  { unfold msg_mask. rewrite zlen_frame_of by done. rewrite U2, V0. lia. }
  split_and!; [|rewrite F1; intros b n ???; rewrite U6 by lia; apply T4; lia|lia|by intros _; rewrite F4].
  rewrite cleared_since_same by congruence.
  assert (Ed : abs d' = mkA (frame_of true (d_msg_opcode d) (msg_mask da) (text ++ text_of h (a_in (abs d)))
     ++ rest (frame_len h) (a_in (abs d))) None (a_passing (abs d)) (a_skip (abs d))).
  { unfold abs at 1, msg_of. by rewrite Hin, F4, V2, F5, F6, V6, V7, T6, T7. }
  rewrite Ed, Hmask. cbn [out_of]. rewrite F7, F1, F8, V4, V3, U5, V9, T9, <- Hz.
  apply as_message; (by apply taken_lookable) || done.
Qed.

(** Frames that are handed over as they are, or cleared at once. *)
Lemma refine_held d h :
  dir_wf d -> taken cf d h ->
  abs (hold_frame h (d <| d_seq := inc d.(d_seq) |>)) = abs d /\
  unmask (frame_key h (next_of d) d) (slice d.(d_mem) (next_of d + h.(h_hlen)) h.(h_plen)) = text_of h (a_in (abs d)).
Proof.
  intros Hd Ht. split; [reflexivity|]. cbn [abs a_in]. by rewrite unread_text by (apply Ht || done).
Qed.

Lemma refine_unlogged d h :
  dir_wf d -> taken cf d h -> d.(d_mode) = FRAME_JOURNAL ->
  refines d PContinue (d <| d_seq := inc d.(d_seq) |> <| d_cleared := d.(d_cleared) + frame_len h |>).
Proof.
  intros Hd Ht Hj. pose proof (tk_at cf d h Ht) as Hf. pose proof (tk_len cf d h Ht) as Hl.
  destruct (frame_at_hlen d h Hd Hf) as (G1 & G2 & _). pose proof (dw_pos Hd). pose proof (fa_skip d h Hf).
  assert (Hfl : 0 <= frame_len h) by (unfold frame_len; destruct (d_masked d); lia).
  assert (Hm : d_msg d = false).
  { destruct (d_msg d) eqn:Em; [|done]. destruct (dw_state Hd Em). congruence. }
  assert (Hhold : hold_of d = 0) by (unfold hold_of; by rewrite Hm).
  set (d' := _ <| d_cleared := _ |>).
  split_and!; [|apply keeps_below_refl|change (d_cleared d <= d_cleared d + frame_len h); lia|by intros _].
  assert (Hu : unread d' = rest (frame_len h) (unread d)).
  { rewrite (unread_at d' (d_mem d) (d_cleared d + frame_len h) (d_last d) (hold_of d)) by reflexivity.
    unfold unread. rewrite rest_slice by (unfold next_of in *; lia).
    unfold avail_of, next_of. f_equal; lia. }
  assert (Hr : cleared_since d d' = front (frame_len h) (unread d)).
  { unfold unread. rewrite front_slice by lia.
    rewrite (cleared_since_at d d' (d_mem d) (d_cleared d + frame_len h)) by reflexivity.
    unfold next_of. f_equal; lia. }
  assert (Em : msg_of d' = msg_of d) by (unfold msg_of; change (d_msg d') with (d_msg d); by rewrite Hm).
  assert (Ed : abs d' = mkA (rest (frame_len h) (a_in (abs d))) (a_msg (abs d)) (a_passing (abs d)) (a_skip (abs d)))
    by (unfold abs at 1; by rewrite Hu, Em).
  rewrite Ed, Hr. apply (as_unlogged _ _ _ _ (abs d)); [by apply taken_lookable|done].
Qed.

Lemma turn_refines d o d' : dir_wf d -> skips_alone d -> turn d o d' -> refines d o d'.
Proof.
  intros Hd Hs Ht.
  assert (Hsame : forall o, astep_of d (abs d) [] (out_of o d) (abs d) -> refines d o d).
  { intros o0 H0. split_and!; [by rewrite cleared_since_same by done|apply keeps_below_refl|lia|done]. }
  assert (Hheld : forall h, taken cf d h -> skips_alone (hold_frame h (d <| d_seq := inc d.(d_seq) |>))).
  { intros h Hh Hp. pose proof (fa_skip d h (tk_at cf d h Hh)). change (0 < d_skip d) in Hp. lia. }
  destruct Ht as [| | |Hk take| |h d1 Hf Ho Hnc Hpl Hl Hc|h d1 Hf Ho Hpl Hl Hc|h b Hf Ho Hp Hm
    |h d1 hl Hf Ho Hp Hm Es|h Ht Hj|h Ht Hj
    |h Ht Ha Hfin Hop Hm Hskip|h Ht Hi Hfin Hm|h hl d1 Ht Hi Hm Es|h Ht Hi Hm].
  - apply Hsame, as_wait.
  - apply Hsame, as_wait.
  - apply Hsame, as_wait.
  - by apply refine_skip.
  - apply Hsame, as_close.
  - by apply refine_cut.
  - by apply refine_control.
  - by apply refine_pass.
  - by apply refine_flush.
  - by apply refine_unlogged.
  - destruct (refine_held d h Hd Ht) as [E1 E2]. split_and!; [|apply keeps_below_refl|done|by apply Hheld].
    rewrite E1, cleared_since_same by done. cbn [out_of]. set (d' := hold_frame _ _) in *.
    change (d_opcode d') with (h_opcode h). change (d_mem d') with (d_mem d). change (d_held d') with (frame_len h).
    rewrite E2. apply as_journal; [by apply taken_lookable|done].
  - by apply refine_first.
  - by apply refine_append.
  - eapply refine_sealed; try done.
  - destruct (refine_held d h Hd Ht) as [E1 E2]. split_and!; [|apply keeps_below_refl|done|by apply Hheld].
    rewrite E1, cleared_since_same by done. cbn [out_of]. set (d' := hold_frame _ _) in *.
    change (d_opcode d') with (h_opcode h). change (d_mem d') with (d_mem d). change (d_held d') with (frame_len h).
    rewrite E2. apply as_frame; [by apply taken_lookable|done|]. cbn [abs a_msg]. unfold msg_of. by rewrite Hm.
Qed.

(** The bytes cleared by two turns in a row. *)
Lemma cleared_since_trans d d1 d2 :
  dir_wf d -> d.(d_cleared) <= d1.(d_cleared) -> d1.(d_cleared) <= d2.(d_cleared) ->
  keeps_below d1.(d_mem) d2.(d_mem) d1.(d_cleared) ->
  cleared_since d d2 = cleared_since d d1 ++ cleared_since d1 d2.
Proof.
  intros Hd H1 H2 Hk. pose proof (dw_pos Hd). unfold cleared_since.
  replace (d_cleared d2 - d_cleared d) with ((d_cleared d1 - d_cleared d) + (d_cleared d2 - d_cleared d1)) by lia.
  rewrite slice_split by lia. rewrite Hk by lia. do 2 f_equal. lia.
Qed.

Lemma loop_refines n d o d' :
  dir_wf d -> skips_alone d -> parse_loop n cf jset now d = Some (o, d') ->
  arun_of d (abs d) (cleared_since d d') (out_of o d') (abs d') /\
  keeps_below d.(d_mem) d'.(d_mem) d.(d_cleared) /\ d.(d_cleared) <= d'.(d_cleared).
Proof.
  revert d. induction n as [|n IH]; intros d Hd Hs; cbn [parse_loop]; [done|].
  destruct (parse_turn cf jset now d) as [o1 d1] eqn:E.
  pose proof (parse_turn_turn cf jset now d o1 d1 Hd E) as Ht.
  destruct (turn_refines d o1 d1 Hd Hs Ht) as (R1 & R2 & R3 & R4).
  destruct (turn_wf cf d o1 d1 Hd Ht) as [Hd1 (_ & _ & S3 & S4 & S5 & _)].
  destruct o1; try (intros [= <- <-]; split_and!; [by apply ar_end|done|done]).
  intros Hl. destruct (IH d1 Hd1 R4 Hl) as (K1 & K2 & K3). split_and!; [|intros b k ???; rewrite K2 by lia; apply R2; lia|lia].
  rewrite (cleared_since_trans d d1 d') by done. eapply ar_step; [exact R1|]. by rewrite <- S3, <- S4, <- S5.
Qed.

(** C13: The parser implements the abstract machine: whatever the buffer
    holds, a run of its loop is a run of the machine on the stream ahead, what
    it clears is, byte for byte, what the machine releases (whole control
    frames, passed frames, and a held message as one frame when it gives up on
    it), and a frame or message handed to the inspection carries the unmasked
    text of its fragments in order; the loop ends when no length on the way
    reaches 2^63, and the bytes cleared before stay what they were. *)
Theorem frame_parser_refines d :
  dir_wf d -> skips_alone d ->
  (forall d' h, rtc (goes_on cf jset now) d d' -> frame_at d' h -> frame_len h < 2 ^ 63) ->
  exists o d', parse_loop (parse_fuel d) cf jset now d = Some (o, d') /\
    arun cf d.(d_mode) d.(d_phase) d.(d_masked) (abs d) (cleared_since d d') (out_of o d') (abs d') /\
    keeps_below d.(d_mem) d'.(d_mem) d.(d_cleared).
Proof.
  intros Hd Hs Hlen. destruct (parse_fuel_enough cf jset now d Hd Hlen) as (o & d' & E & _).
  exists o, d'. destruct (loop_refines _ _ _ _ Hd Hs E) as (H1 & H2 & _). by split_and!.
Qed.

End refine.

(** ** What is written can be read *)

Lemma land_255 x : Z.land x 255 = x mod 256.
Proof. change 255 with (Z.ones 8). rewrite Z.land_ones by lia. done. Qed.
Lemma byte_at x k : 0 <= k -> u8 (Z.land (Z.shiftr x k) 255) = x / 2 ^ k mod 256.
Proof. intros. rewrite land_255, Z.shiftr_div_pow2 by lia. unfold u8. apply Z.mod_mod. lia. Qed.

(** The bits of the second byte of a header. *)
Lemma second_byte n b : 0 <= n < 128 -> let m := if b : bool then 128 else 0 in
  Z.land (Z.lor n m) 127 = n /\ (Z.land (Z.lor n m) 128 =? 0) = negb b.
Proof.
  intros Hn m.
  assert (H : forallb (fun n => (Z.land (Z.lor n m) 127 =? n) && eqb (Z.land (Z.lor n m) 128 =? 0) (negb b))
                (map Z.of_nat (seq 0 128)) = true) by (unfold m; by destruct b; vm_compute).
  rewrite forallb_forall in H. specialize (H n).
  assert (Hin : In n (map Z.of_nat (seq 0 128))).
  { apply in_map_iff. exists (Z.to_nat n). split; [lia|]. apply in_seq. lia. }
  specialize (H Hin). apply andb_prop in H as [H1 H2]. split; [by apply Z.eqb_eq|]. by apply eqb_prop.
Qed.

(** The first byte: the flag and the opcode. *)
Lemma first_byte (fin : bool) op : 0 <= op < 16 -> let b := u8 (Z.lor (if fin then 128 else 0) op) in
  negb (Z.land b 128 =? 0) = fin /\ Z.land b 112 = 0 /\ Z.land b 15 = op.
Proof.
  intros Hop. cbn zeta.
  assert (H : forallb (fun op => let b := u8 (Z.lor (if fin then 128 else 0) op) in
      eqb (negb (Z.land b 128 =? 0)) fin && (Z.land b 112 =? 0) && (Z.land b 15 =? op))
    (map Z.of_nat (seq 0 16)) = true) by (by destruct fin; vm_compute).
  rewrite forallb_forall in H. specialize (H op).
  assert (Hin : In op (map Z.of_nat (seq 0 16))).
  { apply in_map_iff. exists (Z.to_nat op). split; [lia|]. apply in_seq. lia. }
  specialize (H Hin). apply andb_prop in H as [[H1 H2]%andb_prop H3]. apply eqb_prop in H1. apply Z.eqb_eq in H2, H3.
  by split_and!.
Qed.

(** The eight bytes of a length, read back. *)
Lemma push_byte x k : 0 <= x < 2 ^ 63 -> 8 <= k ->
  Z.lor (u64 (Z.shiftl (x / 2 ^ k) 8)) (x / 2 ^ (k - 8) mod 256) = x / 2 ^ (k - 8).
Proof.
  intros Hx Hk. rewrite Z.shiftl_mul_pow2 by lia.
  assert (Hd : x / 2 ^ k = x / 2 ^ (k - 8) / 256).
  { replace (2 ^ k) with (2 ^ (k - 8) * 256) by (change 256 with (2 ^ 8); rewrite <- Z.pow_add_r by lia; f_equal; lia).
    rewrite Z.div_div; [done|..]; [apply Z.pow_nonzero; lia|lia]. }
  rewrite Hd. set (y := x / 2 ^ (k - 8)).
  assert (Hy : 0 <= y < 2 ^ 63).
  { assert (1 <= 2 ^ (k - 8)) by (pose proof (Z.pow_pos_nonneg 2 (k - 8)); lia).
    unfold y. split; [apply Z.div_pos; lia|]. apply Z.div_lt_upper_bound; [lia|]. nia. }
  assert (Hq : 0 <= y / 256 * 2 ^ 8 <= y).
  { pose proof (Z.mul_div_le y 256). pose proof (Z.div_pos y 256). change (2 ^ 8) with 256. lia. }
  rewrite u64_small by (unfold is_u64; lia).
  rewrite <- Z.shiftl_mul_pow2, lor_shiftl by (lia || (change (2 ^ 8) with 256; apply Z.mod_pos_bound; lia)).
  change (2 ^ 8) with 256. pose proof (Z_div_mod_eq_full y 256). lia.
Qed.

Definition has_key (key : option bytes) : bool := match key with Some _ => true | None => false end.
Definition header_of (fin : bool) (op : Z) (key : option bytes) (len : Z) : hdr :=
  mkHdr fin 0 op (has_key key) (header_len len (has_key key)) len.

(** The header that [header_bytes] writes, in front of anything. *)
Lemma read_header (fin : bool) op key len t :
  0 <= op < 16 -> 0 <= len < 2 ^ 63 -> match key with Some k => zlen k = 4 | None => True end ->
  let s := header_bytes (Z.lor (if fin then 128 else 0) op) len key ++ t in
  parse_header s 0 (zlen s) = Some (header_of fin op key len).
Proof.
  intros Hop Hlen Hk s. set (b0 := Z.lor (if fin then 128 else 0) op).
  destruct (first_byte fin op Hop) as (B1 & B2 & B3). fold b0 in B1, B2, B3.
  assert (Hz : zlen s = header_len len (has_key key) + zlen t).
  { unfold s. rewrite zlen_app, zlen_header_bytes by (by destruct key). by destruct key. }
  pose proof (header_len_range len (has_key key)). pose proof (zlen_nonneg t).
  unfold parse_header. rewrite (proj2 (Z.ltb_ge _ _)) by lia.
  assert (E0 : aget 0 s 0 = u8 b0) by reflexivity. rewrite E0, B1, B2, B3.
  set (m := if has_key key then 128 else 0).
  assert (Hm : (match key with Some _ => 128 | None => 0 end) = m) by (by destruct key).
  set (code := if len <? 126 then len else if len <=? 65535 then 126 else 127).
  assert (Hcode : 0 <= code < 128) by (unfold code; repeat case_match; lia).
  assert (E1 : aget 0 s (0 + 1) = Z.lor code m).
  { unfold s, header_bytes, code. rewrite Hm. destruct (Z.ltb_spec len 126).
    - change (Z.lor (u8 len) m = Z.lor len m). unfold u8. by rewrite (Z.mod_small len) by lia.
    - by destruct (len <=? 65535). }
  destruct (second_byte code (has_key key) Hcode) as [C1 C2]. fold m in C1, C2.
  rewrite E1. assert (Hl : hdr_len (Z.lor code m) = header_len len (has_key key)).
  { unfold hdr_len, header_len. rewrite C1, C2, negb_involutive. unfold code.
    destruct (Z.ltb_spec len 126); [|by destruct (len <=? 65535)].
    rewrite (proj2 (Z.eqb_neq len 126)), (proj2 (Z.eqb_neq len 127)) by lia. done. }
  rewrite Hl, (proj2 (Z.ltb_ge _ _)) by lia. rewrite C2, negb_involutive. unfold header_of. do 2 f_equal.
  unfold hdr_plen. rewrite C1. unfold code. destruct (Z.ltb_spec len 126) as [H1|H1].
  { by rewrite (proj2 (Z.eqb_neq len 126)), (proj2 (Z.eqb_neq len 127)) by lia. }
  assert (Hs : s = header_bytes b0 len key ++ t) by reflexivity. unfold header_bytes in Hs.
  rewrite (proj2 (Z.ltb_ge len 126)) in Hs by lia. destruct (Z.leb_spec len 65535) as [H2|H2].
  - change (126 =? 126) with true. cbv iota.
    assert (F2 : aget 0 s (0 + 2) = u8 (Z.shiftr len 8)) by (by rewrite Hs).
    assert (F3 : aget 0 s (0 + 3) = u8 (Z.land len 255)) by (by rewrite Hs).
    assert (Hq : 0 <= len / 256 < 256) by (split; [apply Z.div_pos|apply Z.div_lt_upper_bound]; lia).
    rewrite F2, F3, land_255, Z.shiftr_div_pow2 by lia. change (2 ^ 8) with 256.
    change (u8 (len / 256)) with ((len / 256) mod 256). change (u8 (len mod 256)) with ((len mod 256) mod 256).
    rewrite Z.mod_mod, (Z.mod_small (len / 256)) by lia.
    rewrite lor_shiftl by (lia || (change (2 ^ 8) with 256; apply Z.mod_pos_bound; lia)).
    change (2 ^ 8) with 256. pose proof (Z_div_mod_eq_full len 256). lia.
  - change (127 =? 126) with false. change (127 =? 127) with true. cbv iota.
    assert (Fi : forall i, 0 <= i < 8 -> aget 0 s (0 + (2 + i)) = len / 2 ^ (8 * (7 - i)) mod 256).
    { intros i Hi. rewrite <- byte_at by lia. rewrite Hs.
      assert (i = 0 \/ i = 1 \/ i = 2 \/ i = 3 \/ i = 4 \/ i = 5 \/ i = 6 \/ i = 7) as Hc by lia.
      by repeat destruct Hc as [->|Hc]; [..|subst i]. }
    assert (Hloop : forall P : Z -> Z -> Prop, P 0 0 -> (forall i x, 0 <= i < 8 -> P i x ->
      P (i + 1) (Z.lor (u64 (Z.shiftl x 8)) (aget 0 s (0 + (2 + i))))) ->
      P 8 (for_range 8 (fun i plen => Z.lor (u64 (Z.shiftl plen 8)) (aget 0 s (0 + (2 + i)))) 0)).
    { intros P HP0 HPs. apply (for_range_inv P); [lia|done|]. intros i x Hi. by apply HPs. }
    specialize (Hloop (fun i x => x = len / 2 ^ (64 - 8 * i))). cbv beta in Hloop.
    rewrite Hloop; [by rewrite Z.div_1_r| |].
    + rewrite Z.div_small; [done|]. change (64 - 8 * 0) with 64. lia.
    + intros i x Hi ->. rewrite Fi by done. pose proof (push_byte len (64 - 8 * i) Hlen ltac:(lia)) as Hp.
      replace (64 - 8 * i - 8) with (8 * (7 - i)) in Hp by lia. rewrite Hp. f_equal. f_equal. lia.
Qed.

(** C33: A frame the module writes, a message put together from its fragments
    or a rewritten one, is read back by its own parser with the same flag,
    opcode, mask and length, and unmasks to the same text. *)
Theorem frame_roundtrip fin op key text t :
  0 <= op < 16 -> zlen text < 2 ^ 63 -> match key with Some k => zlen k = 4 | None => True end ->
  let s := frame_of fin op key text ++ t in
  let h := header_of fin op key (zlen text) in
  parse_header s 0 (zlen s) = Some h /\ text_of h s = text /\ rest (frame_len h) s = t.
Proof.
  intros Hop Hlen Hk s h. pose proof (zlen_nonneg text) as H0.
  set (hb := header_bytes (Z.lor (if fin then 128 else 0) op) (zlen text) key).
  assert (Hs : s = hb ++ (unmask key text ++ t)) by (unfold s, frame_of; by rewrite <- app_assoc).
  assert (Hhb : zlen hb = header_len (zlen text) (has_key key)) by (unfold hb; rewrite zlen_header_bytes by (by destruct key); by destruct key).
  pose proof (header_len_range (zlen text) (has_key key)) as Hr.
  assert (Hu : zlen (unmask key text) = zlen text) by (destruct key; cbn [unmask]; by rewrite ?zlen_xor_key).
  assert (Hpay : slice s (h_hlen h) (h_plen h) = unmask key text).
  { unfold slice. rewrite Hs. cbn [h h_hlen h_plen header_of]. rewrite <- Hhb. unfold zlen at 2. rewrite Nat2Z.id, drop_app_length.
    rewrite <- Hu. unfold zlen. by rewrite Nat2Z.id, take_app_length. }
  split_and!.
  - rewrite Hs. apply read_header; [done|lia|done].
  - unfold text_of. rewrite Hpay. unfold head_key. cbn [h h_masked header_of]. destruct key as [k|]; cbn [has_key]; [|done].
    assert (Hkey : slice s (h_hlen h - 4) 4 = k).
    { assert (Hsplit : exists p, hb = p ++ k /\ zlen p = h_hlen h - 4).
      { unfold hb, header_bytes. cbn [default]. eexists. rewrite app_assoc. split; [reflexivity|].
        rewrite zlen_app. cbn [h h_hlen header_of has_key]. unfold header_len.
        destruct (Z.ltb_spec (zlen text) 126); [done|]. by destruct (zlen text <=? 65535). }
      destruct Hsplit as (p & Ep & Hp). unfold slice. rewrite Hs, Ep, <- Hp, <- app_assoc. unfold zlen at 1.
      rewrite Nat2Z.id, drop_app_length. change (Z.to_nat 4) with 4%nat. assert (length k = 4%nat) as <- by (unfold zlen in Hk; lia).
      by rewrite take_app_length. }
    change (h_hlen (header_of fin op (Some k) (zlen text))) with (h_hlen h). rewrite Hkey. cbn [unmask]. apply xor_key_invol.
  - unfold rest. rewrite Hs, app_assoc. unfold frame_len. cbn [h h_hlen h_plen header_of]. rewrite <- Hhb, <- Hu, <- zlen_app.
    unfold zlen. by rewrite Nat2Z.id, drop_app_length.
Qed.

End WsRefine.
