(* ===== verification/WsQuiet.v ===== *)
(** The inspection of a frame from inside, for every answer of the handler, of
    the store and of the allocator: it sends nothing, asks neither peer for
    bytes, closes the session when it gives it a code, and only moves the held
    frame to the cleared bytes or to those that are dropped. *)
From S2P Require Import Prelude Types Masks Sha256 FrameCache Slots Graph Verdict Breaker Handler WsFrame.
From S2P Require Import WsMem WsFrameFacts WsRoom WsSession WsSessionFacts.
#[local] Open Scope Z_scope.

Module WsQuiet.
Import Masks Verdict Handler WsFrame WsMem WsFrameFacts WsRoom WsSession WsSessionFacts.

(** ** Operations that send nothing *)

(** A session with a close code is closing. *)
Definition coded (x : sess) : Prop := code x <> 0 -> closing x = true.

(** What of a direction the inspection leaves alone, and the bytes it has
    dealt with or is dealing with. *)
Definition shape (d : dir_t) :=
  (d.(d_phase), d.(d_mode), d.(d_size), d.(d_last), (d.(d_masked), d.(d_msg), d.(d_msg_hlen), d.(d_msg_len))).
Definition mass (d : dir_t) : Z := d.(d_cleared) + d.(d_drop) + d.(d_held).
Definition masses (x x' : sess) : Prop := forall s, mass (dir s x') = mass (dir s x).

(** No original waits to be dropped behind the frame under inspection. *)
Definition ready (x : sess) : Prop := forall s, cur x = Some s -> (dir s x).(d_drop) = 0.

Record hush (x x' : sess) : Prop := {
  mu_out : x'.(s_out) = x.(s_out);
  mu_send : x'.(s_env).(e_send) = x.(s_env).(e_send);
  mu_recv : x'.(s_env).(e_recv) = x.(s_env).(e_recv);
  mu_code : coded x -> coded x';
  mu_closing : closing x = true -> closing x' = true;
  mu_shape : forall s, shape (dir s x') = shape (dir s x)
}.
Definition loose (x x' : sess) : Prop := hush x x' /\ (ready x -> masses x x').
Definition mute (x x' : sess) : Prop := hush x x' /\ (ready x -> ready x' /\ masses x x').

Lemma hush_refl x : hush x x.
Proof. by split. Qed.
Lemma hush_trans x y z : hush x y -> hush y z -> hush x z.
Proof. intros [A1 A2 A3 A4 A5 A6] [B1 B2 B3 B4 B5 B6]. split; [congruence..|auto|auto|congruence]. Qed.
Lemma masses_trans x y z : masses x y -> masses y z -> masses x z.
Proof. intros A B s. by rewrite B. Qed.
Lemma mute_refl x : mute x x.
Proof. split; [apply hush_refl|]. by intros H; split. Qed.
Lemma mute_trans x y z : mute x y -> mute y z -> mute x z.
Proof.
  intros [A1 A2] [B1 B2]. split; [by eapply hush_trans|]. intros [C1 C2]%A2. destruct (B2 C1).
  split; [done|by eapply masses_trans].
Qed.
Lemma mute_loose x y : mute x y -> loose x y.
Proof. intros [A1 A2]. split; [done|]. by intros [? ?]%A2. Qed.
Lemma loose_trans x y z : mute x y -> loose y z -> loose x z.
Proof.
  intros [A1 A2] [B1 B2]. split; [by eapply hush_trans|]. intros [C1 C2]%A2. eapply masses_trans; [done|auto].
Qed.

(** A step that leaves both directions as they are. *)
Lemma mute_keep x x' :
  x'.(s_out) = x.(s_out) -> x'.(s_env).(e_send) = x.(s_env).(e_send) -> x'.(s_env).(e_recv) = x.(s_env).(e_recv) ->
  (coded x -> coded x') -> (closing x = true -> closing x' = true) -> (cur x' = cur x \/ cur x' = None) -> (forall s, ptrs (dir s x') = ptrs (dir s x)) -> mute x x'.
Proof.
  intros H1 H2 H3 H4 H4' Hc H5.
  assert (Hs : forall s, shape (dir s x') = shape (dir s x) /\ mass (dir s x') = mass (dir s x) /\
                         d_drop (dir s x') = d_drop (dir s x)).
  { intros s. pose proof (H5 s) as E. unfold ptrs in E. destruct (dir s x), (dir s x'). cbn in E. by simplify_eq. }
  split; [split; try done; intros s; apply Hs|]. intros Hr. split; [|intros s; apply Hs].
  intros s E. destruct (Hs s) as (_ & _ & ->). apply Hr. destruct Hc; congruence.
Qed.

(** A step that touches neither the pointers of a direction nor, but for
    closing, the flags of the session. *)
Ltac mute_done :=
  apply mute_keep; repeat match goal with s : side |- _ => destruct s end; try done; try (by intros []); try (by left); try (by right).

Lemma mute_draw_alloc x b x' : draw_alloc x = (b, x') -> mute x x'.
Proof. unfold draw_alloc. destruct (alloc _). intros [= <- <-]. mute_done. Qed.
Lemma mute_draw_handler x b x' : draw_handler x = (b, x') -> mute x x'.
Proof. unfold draw_handler. case_match; intros [= <- <-]; mute_done. Qed.
Lemma mute_draw_store x b x' : draw_store x = (b, x') -> mute x x'.
Proof. unfold draw_store. case_match; intros [= <- <-]; mute_done. Qed.
Lemma mute_d s f x : (forall d, ptrs (f d) = ptrs d) -> mute x (on_d s f x).
Proof. intros H. apply mute_keep; try done; [by destruct s..|left; by destruct s|]. by intros []; destruct s; cbn; rewrite ?H. Qed.
Lemma mute_on_req f x : mute x (on_req f x).
Proof. mute_done. Qed.
Lemma mute_close c r y x : mute x (on_fc (ngx_http_waf_frame_set_close c r y) x).
Proof. mute_done. Qed.
Lemma mute_end x : mute x (ngx_http_waf_frame_end x).
Proof. unfold ngx_http_waf_frame_end. repeat case_match; mute_done. Qed.

(** The held frame goes to the cleared bytes. *)
Lemma mute_clear s x : mute x (on_d s clear_held x).
Proof.
  split; [split; [done..| | |]; [by destruct s..|intros t; rewrite dir_on_d; case_decide; by subst]|].
  intros Hr. split; intros t; rewrite ?cur_on_d, dir_on_d; case_decide as E; subst; try done; [apply Hr..|].
  unfold mass, clear_held. cbn. lia.
Qed.
Lemma mute_copy_array {A} (l : option (list A)) x r x' : copy_array l x = (r, x') -> mute x x'.
Proof.
  unfold copy_array. destruct l as [[|a l]|]; try (intros [= <- <-]; apply mute_refl).
  destruct (draw_alloc x) as [[] x1] eqn:E1; cbn [negb]; apply mute_draw_alloc in E1; [|by intros [= <- <-]].
  destruct (draw_alloc x1) as [ok x2] eqn:E2. apply mute_draw_alloc in E2. intros [= <- <-]. eauto using mute_trans.
Qed.
Lemma mute_begin_ctx s x : mute x (begin_ctx s x).
Proof.
  unfold begin_ctx. set (x1 := on_fc _ x). set (x2 := if fc_ctl_init (s_fc x1) then x1 else _).
  assert (K2 : mute x x2) by (unfold x2; case_match; mute_done). clearbody x2.
  destruct (copy_array _ x2) as [acts x3] eqn:E3. apply mute_copy_array in E3.
  destruct (copy_array _ x3) as [mks x4] eqn:E4. apply mute_copy_array in E4.
  eapply mute_trans; [exact K2|]. eapply mute_trans; [exact E3|].
  eapply mute_trans; [exact E4|apply mute_on_req].
Qed.
Lemma mute_begin s payload key x rc x' : ngx_http_waf_frame_begin s payload key x = (rc, x') -> mute x x'.
Proof.
  unfold ngx_http_waf_frame_begin.
  destruct (draw_alloc x) as [[] x1] eqn:E1; cbn [negb]; apply mute_draw_alloc in E1;
    [|intros [= <- <-]; eapply mute_trans; [exact E1|apply mute_close]].
  destruct (draw_alloc x1) as [[] x2] eqn:E2; cbn [negb]; apply mute_draw_alloc in E2;
    [|intros [= <- <-]; eapply mute_trans; [exact E1|]; eapply mute_trans; [exact E2|apply mute_close]].
  intros [= <- <-]. eapply mute_trans; [exact E1|]. eapply mute_trans; [exact E2|].
  eapply mute_trans; [|apply mute_begin_ctx]. destruct key; mute_done.
Qed.

Section quiet.
Context (cf : fconf) (route_hash : Z).
Context (deny_entry : req -> option (bool * Z * bytes)) (reply_marks : req -> Z -> bool) (reason_of : req -> bytes).

Abbreviation apply := (ngx_http_waf_frame_apply cf route_hash deny_entry reply_marks reason_of).
Abbreviation settle := (ngx_http_waf_frame_settle cf route_hash reply_marks).
Abbreviation resume_core := (WsSession.resume_core cf route_hash deny_entry reply_marks reason_of).
Abbreviation inspect_call := (WsSession.inspect_call cf route_hash deny_entry reply_marks reason_of).
Abbreviation outcome := (ngx_http_waf_frame_outcome cf route_hash deny_entry reply_marks reason_of).
Abbreviation inspect := (ngx_http_waf_frame_inspect cf route_hash deny_entry reply_marks reason_of).
Abbreviation journal := (ngx_http_waf_frame_journal cf route_hash deny_entry reply_marks reason_of).
Abbreviation parse := (ngx_http_waf_frame_parse cf route_hash deny_entry reply_marks reason_of).
Abbreviation pump_turn := (WsSession.pump_turn cf route_hash deny_entry reply_marks reason_of).
Abbreviation finish := (ngx_http_waf_frame_finish deny_entry reason_of).
Abbreviation deny_close := (ngx_http_waf_frame_deny_close deny_entry reason_of).
Abbreviation rewrite_fail := (ngx_http_waf_frame_rewrite_fail cf deny_entry reason_of).

Lemma mute_deny_close x : mute x (deny_close x).
Proof. unfold ngx_http_waf_frame_deny_close. repeat case_match; apply mute_close. Qed.
Lemma mute_finish how x rc x' : finish how x = (rc, x') -> mute x x'.
Proof.
  unfold ngx_http_waf_frame_finish. repeat case_match; intros [= <- <-]; first [apply mute_deny_close|apply mute_close|apply mute_refl].
Qed.
Lemma mute_rewrite_fail x : mute x (rewrite_fail x).
Proof.
  unfold ngx_http_waf_frame_rewrite_fail. destruct (negb _); [apply mute_refl|].
  eapply mute_trans; [|apply mute_deny_close]. apply mute_on_req.
Qed.
Lemma loose_swap s data x rc x' : cur x = Some s -> ngx_http_waf_frame_swap cf s data x = (rc, x') ->
  loose x x' /\ (rc_ok rc = false -> mute x x').
Proof.
  intros Hc. assert (Hm : mute x x' -> loose x x' /\ (rc_ok rc = false -> mute x x')) by (split; [by apply mute_loose|done]).
  unfold ngx_http_waf_frame_swap. destruct (negb _); [intros [= <- <-]; apply Hm, mute_refl|].
  destruct (match r_rewrite_sha256 _ with Some _ => _ | None => _ end); [intros [= <- <-]; apply Hm, mute_refl|].
  destruct (match d_out _ with Some _ => _ | None => _ end) as [out x1] eqn:E.
  assert (K : mute x x1 /\ cur x1 = cur x).
  { destruct (d_out _); [injection E as _ <-; split; [apply mute_refl|done]|]. destruct (draw_alloc x) as [ok x2] eqn:E1.
    injection E as _ <-. split; [by eapply mute_draw_alloc|]. by destruct (calm_draw_alloc _ _ _ E1) as (_ & ? & _). }
  destruct K as [K Hc1]. destruct out as [o|]; [|intros [= <- <-]; by apply Hm]. set (x2 := on_d s _ x1).
  assert (K2 : mute x x2) by (eapply mute_trans; [exact K|by apply mute_d]).
  assert (Hc2 : cur x2 = Some s) by (unfold x2; rewrite cur_on_d; congruence). clearbody x2.
  destruct (_ <? _); intros [= <- <-]; [by apply Hm|]. split; [|done]. eapply loose_trans; [exact K2|].
  split; [split; [done..| | |]; [by destruct s..|intros t; rewrite dir_on_d; case_decide; by subst]|].
  intros Hr t. rewrite dir_on_d. case_decide as Et; [|done]. subst t. unfold mass. cbn. rewrite (Hr s Hc2). lia.
Qed.
Lemma loose_rewrite x b x' : ngx_http_waf_frame_rewrite cf deny_entry reason_of x = (b, x') ->
  loose x x' /\ (b = true -> mute x x').
Proof.
  assert (Hm : mute x x' -> loose x x' /\ (b = true -> mute x x')) by (split; [by apply mute_loose|done]).
  unfold ngx_http_waf_frame_rewrite.
  destruct (fc_cur (s_fc x)) as [s|] eqn:Ec; [|intros [= <- <-]; apply Hm, mute_refl].
  destruct (ph_replies _); [|intros [= <- <-]; apply Hm, mute_refl].
  destruct (_ =? _); [intros [= <- <-]; apply Hm, mute_refl|].
  set (x1 := on_fc _ x). assert (K1 : mute x x1) by mute_done.
  assert (Hc1 : cur x1 = Some s) by exact Ec. clearbody x1.
  assert (Kf : mute x (rewrite_fail x1)) by (eapply mute_trans; [exact K1|apply mute_rewrite_fail]).
  destruct (negb _); [intros [= <- <-]; by apply Hm|]. destruct (_ <? _); [intros [= <- <-]; by apply Hm|].
  destruct (match ph_locator _ with Some _ => _ | None => _ end); [intros [= <- <-]; by apply Hm|].
  destruct (draw_store x1) as [a x2] eqn:Ea.
  assert (Hc2 : cur x2 = Some s) by (destruct (calm_draw_store _ _ _ Ea) as (_ & -> & _); done). apply mute_draw_store in Ea.
  assert (K2 : mute x x2) by (eauto using mute_trans).
  assert (K2f : mute x (rewrite_fail x2)) by (eapply mute_trans; [exact K2|apply mute_rewrite_fail]).
  destruct a as [| |[] data]; try (intros [= <- <-]; by apply Hm).
  destruct (ngx_http_waf_frame_swap cf s data x2) as [r x3] eqn:Es. apply loose_swap in Es as [E1 E2]; [|done].
  intros [= <- <-]. destruct (rc_ok r); [split; [|done]|]; [exact (loose_trans _ _ _ K2 E1)|]. apply Hm.
  eapply mute_trans; [exact K2|]. eapply mute_trans; [by apply E2|apply mute_rewrite_fail].
Qed.
(** The settling of a frame leaves none under inspection. *)
Lemma settle_firm b x : hush x (settle b x) /\ masses x (settle b x) /\ ready (settle b x).
Proof.
  assert (Hn : forall y z, mute y z -> masses y z -> ready z -> hush y z /\ masses y z /\ ready z) by (by intros y z []).
  unfold ngx_http_waf_frame_settle. set (x1 := on_fc _ x).
  assert (K1 : mute x x1) by mute_done. assert (M1 : masses x x1) by (by intros []). clearbody x1.
  destruct (fc_cur (s_fc x1)) as [s|] eqn:Ec; [|apply Hn; [done..|]; by intros t; unfold cur; rewrite Ec].
  set (y := if b then on_d s _ _ else _).
  assert (K2 : mute x1 y /\ masses x1 y).
  { unfold y. destruct b; cbn [andb].
    - set (z := if ngx_http_waf_frame_cacheable _ _ then _ else x1).
      assert (Kz : mute x1 z /\ masses x1 z) by (unfold z; case_match; [split; [mute_done|by intros []]|split; [apply mute_refl|done]]).
      clearbody z. destruct Kz as [Kz Mz]. split; [eapply mute_trans; [exact Kz|apply mute_clear]|].
      eapply masses_trans; [exact Mz|]. intros t. rewrite dir_on_d. case_decide; [|done]. subst t. unfold mass. cbn. lia.
    - set (z := if _ =? 0 then _ else x1).
      assert (Kz : mute x1 z /\ masses x1 z) by (unfold z; case_match; (split; [first [apply mute_close|apply mute_refl]|by intros []])).
      clearbody z. destruct Kz as [Kz Mz]. split; [eapply mute_trans; [exact Kz|by apply mute_d]|].
      eapply masses_trans; [exact Mz|]. intros t. rewrite dir_on_d. by case_decide; subst. }
  clearbody y. destruct K2 as [K2 M2]. apply Hn.
  - eapply mute_trans; [exact K1|]. eapply mute_trans; [exact K2|apply mute_end].
  - eapply masses_trans; [exact M1|]. eapply masses_trans; [exact M2|].
    unfold ngx_http_waf_frame_end. repeat case_match; by intros [].
  - unfold ngx_http_waf_frame_end. repeat case_match; by intros t.
Qed.
Lemma mute_apply rc x : mute x (apply rc x).
Proof.
  unfold ngx_http_waf_frame_apply. case_match.
  - destruct (ngx_http_waf_frame_rewrite _ _ _ _) as [again x1] eqn:E. apply loose_rewrite in E as [[E1 E2] E3].
    destruct again; [eapply mute_trans; [by apply E3|mute_done]|].
    destruct (settle_firm (negb (fc_closing (s_fc x1))) x1) as (S1 & S2 & S3). split; [by eapply hush_trans|].
    intros Hr. split; [done|]. eapply masses_trans; [by apply E2|done].
  - destruct (settle_firm false x) as (S1 & S2 & S3). by split.
Qed.
Lemma mute_handler_rc x a x' r : handler_rc deny_entry reason_of x = (a, x', r) -> mute x x'.
Proof.
  unfold handler_rc. destruct (draw_handler x) as [a1 x1] eqn:E. apply mute_draw_handler in E.
  destruct a1 as [rc q|how q|q].
  - intros [= <- <- <-]. eapply mute_trans; [exact E|apply (mute_on_req (fun _ => q))].
  - destruct (finish _ _) as [r1 x2] eqn:Ef. apply mute_finish in Ef. intros [= <- <- <-].
    eapply mute_trans; [exact E|]. eapply mute_trans; [apply (mute_on_req (fun _ => q))|exact Ef].
  - intros [= <- <- <-]. eapply mute_trans; [exact E|apply (mute_on_req (fun _ => q))].
Qed.
Lemma mute_resume_core fuel x b x' : resume_core fuel x = (b, x') -> mute x x'.
Proof.
  revert x. induction fuel as [|n IH]; intros x; cbn [WsSession.resume_core];
    set (x1 := on_req _ x); (assert (K1 : mute x x1) by apply mute_on_req); clearbody x1;
    (destruct (_ || _); [by intros [= <- <-]|]);
    destruct (handler_rc _ _ x1) as [[a x2] rc] eqn:E; apply mute_handler_rc in E;
    (assert (K2 : mute x x2) by (eauto using mute_trans));
    destruct rc as [rc|]; try (destruct (rc ==? _); intros [= <- <-]; [done|];
      eapply mute_trans; [exact K2|apply mute_apply]).
  - by intros [= <- <-].
  - intros Hr. eapply mute_trans; [exact K2|]. by eapply IH.
Qed.
Lemma mute_inspect_call fuel x rc x' : inspect_call fuel x = (rc, x') -> mute x x'.
Proof.
  unfold WsSession.inspect_call. destruct (handler_rc _ _ x) as [[a x2] r] eqn:E. apply mute_handler_rc in E.
  destruct r; [by intros [= <- <-]|]. destruct (resume_core fuel x2) as [b x3] eqn:Er. apply mute_resume_core in Er.
  intros [= <- <-]. eauto using mute_trans.
Qed.
Lemma mute_outcome rc x : mute x (outcome rc (out_of_stack x)).
Proof.
  assert (K : mute x (out_of_stack x)) by mute_done.
  unfold ngx_http_waf_frame_outcome. case_match; [done|]. case_match; [done|].
  eapply mute_trans; [exact K|apply mute_apply].
Qed.

(** Taking a frame up while none is under inspection. *)
Definition takes (s : side) (x x' : sess) : Prop :=
  hush x x' /\ (cur x = None -> (dir s x).(d_drop) = 0 -> ready x' /\ masses x x').

Lemma takes_mute s x y z : takes s x y -> mute y z -> takes s x z.
Proof.
  intros [A1 A2] [B1 B2]. split; [by eapply hush_trans|]. intros Hc Hd. destruct (A2 Hc Hd) as [C1 C2].
  destruct (B2 C1). split; [done|by eapply masses_trans].
Qed.

Lemma takes_cur s payload key x rc x1 : ngx_http_waf_frame_begin s payload key x = (rc, x1) ->
  takes s x x1 /\ takes s x (set_cur s x1).
Proof.
  intros E. destruct (begin_calm _ _ _ _ _ _ E) as [(Hp & Hc & _) _]. apply mute_begin in E as [E1 E2].
  assert (Hr : cur x = None -> ready x) by (intros H0 t; congruence).
  split; [split; [done|]; intros H0 _; by apply E2, Hr|].
  split; [eapply hush_trans; [exact E1|]; split; try done; by intros []|].
  intros H0 Hd. destruct (E2 (Hr H0)) as [_ M]. split; [|intros t; rewrite <- M; by destruct t].
  intros t [= <-]. assert (E : d_drop (dir s (set_cur s x1)) = d_drop (dir s x1)) by (by destruct s).
  rewrite E, <- Hd. specialize (Hp s). unfold ptrs in Hp. destruct (dir s x), (dir s x1). cbn in *. by simplify_eq.
Qed.

Lemma takes_journal fuel s payload key x : takes s x (journal fuel s payload key x).
Proof.
  unfold ngx_http_waf_frame_journal. destruct (ngx_http_waf_frame_begin s payload key x) as [rc x1] eqn:Eb.
  destruct (takes_cur _ _ _ _ _ _ Eb) as [T0 T1]. destruct rc; try done. set (x2 := on_req _ _).
  assert (K2 : takes s x x2).
  { eapply takes_mute; [exact T1|]. eapply mute_trans; [apply mute_clear|apply mute_on_req]. }
  clearbody x2. destruct (inspect_call fuel x2) as [r x3] eqn:E3. apply mute_inspect_call in E3.
  eapply takes_mute; [exact K2|]. eapply mute_trans; [exact E3|apply mute_outcome].
Qed.

Lemma takes_inspect fuel s payload key x : takes s x (inspect fuel s payload key x).
Proof.
  unfold ngx_http_waf_frame_inspect. destruct (ngx_http_waf_frame_begin s payload key x) as [rc x1] eqn:Eb.
  destruct (takes_cur _ _ _ _ _ _ Eb) as [T0 T1]. destruct rc; try done. set (x2 := on_d s _ _).
  assert (K2 : takes s x x2) by (eapply takes_mute; [exact T1|by apply mute_d]). clearbody x2.
  destruct (inspect_call fuel x2) as [r x3] eqn:E3. apply mute_inspect_call in E3.
  eapply takes_mute; [exact K2|]. eapply mute_trans; [exact E3|]. clear E3 K2 T0 T1 Eb x x1 x2.
  assert (Hend : forall y y' r, mute x3 y -> inspect_call fuel y = (r, y') -> mute x3 (outcome r (out_of_stack y'))).
  { intros y y' r' Ky E. apply mute_inspect_call in E. eapply mute_trans; [exact Ky|]. eapply mute_trans; [exact E|].
    apply mute_outcome. }
  case_match; [apply mute_outcome|].
  destruct (if negb _ then _ else (false, x3)) as [hit x4] eqn:E4.
  assert (K4 : mute x3 x4).
  { destruct (negb (wc_cache_ttl cf _ =? 0)) in E4; [|injection E4 as _ <-; apply mute_refl].
    destruct (FrameCache.ngx_http_waf_fcache_lookup _ _ _) as [r2 cache]. injection E4 as _ <-. mute_done. }
  clear E4. destruct hit.
  - set (x5 := on_req _ _). assert (K5 : mute x3 x5).
    { eapply mute_trans; [exact K4|]. eapply mute_trans; [|apply mute_on_req].
      eapply mute_trans; [|by apply mute_d]. mute_done. }
    clearbody x5. destruct (inspect_call fuel x5) as [r5 x6] eqn:E6. by eapply Hend.
  - destruct (inspect_call fuel x4) as [r5 x6] eqn:E6. by eapply Hend.
Qed.

(** A call of the parser: the turns of its loop, and at most one frame that is
    taken up. *)
Lemma parse_quiet fuel s x rc x' : parse fuel s x = Some (rc, x') ->
  exists o d, parse_loop (parse_fuel (dir s x)) cf (journal_set x) x.(s_env).(e_clock) (dir s x) = Some (o, d) /\
    hush (on_d s (fun _ => d) x) x' /\
    match o with
    | PInspect _ _ _ | PJournal _ _ _ => takes s (on_d s (fun _ => d) x) x' /\ rc = NGX_OK
    | PClose _ _ _ => closing x' = true
    | PAgain | PContinue => x' = on_d s (fun _ => d) x /\ rc = NGX_AGAIN
    end.
Proof.
  unfold ngx_http_waf_frame_parse. destruct (parse_loop _ _ _ _ _) as [[o d]|]; [|done].
  intros E. exists o, d. split; [done|]. set (x1 := on_d s _ x) in *. clearbody x1.
  destruct o; injection E as <- <-; try (by split; [apply hush_refl|]).
  - split; [apply mute_close|done].
  - pose proof (takes_inspect fuel s (slice d.(d_mem) at_ len) key x1) as T. split; [apply T|done].
  - pose proof (takes_journal fuel s (slice d.(d_mem) at_ len) key x1) as T. split; [apply T|done].
Qed.

End quiet.

End WsQuiet.
