(* ===== verification/WsEnds.v ===== *)
(** The events of a WebSocket session come to an end, with the buffers of both
    directions in bounds: the turns of the pump are bounded by what the peers
    have still to say and by what stands in the buffer, and the only loop that
    is not left is that of the parser at a frame of 2^63 bytes. *)
From stdpp Require Import relations.
From S2P Require Import Prelude Types Masks Sha256 FrameCache Slots Graph Verdict Breaker Handler WsFrame.
From S2P Require Import WsMem WsFrameFacts WsRoom WsSession WsSessionFacts WsEvents WsQuiet.
#[local] Open Scope Z_scope.

Module WsEnds.
Import Masks Verdict Handler WsFrame WsMem WsFrameFacts WsRoom WsSession WsSessionFacts WsEvents WsQuiet.

(** ** What is left to do *)

(** The answers the peers of a direction have still to give. *)
Definition streams (s : side) (x : sess) : Z :=
  Z.of_nat (length (x.(s_env).(e_send) s) + length (x.(s_env).(e_recv) s)).
(** The bytes of the buffer that have not been dealt with. *)
Definition ahead (d : dir_t) : Z := reach d - mass d.
Definition turns_left (s : side) (x : sess) : Z := streams s x * ((dir s x).(d_size) + 1) + ahead (dir s x).

Lemma streams_nonneg s x : 0 <= streams s x.
Proof. unfold streams. lia. Qed.

(** The buffers keep their size and the peers have no more to say. *)
Record fades (x x' : sess) : Prop := {
  fd_size : forall t, (dir t x').(d_size) = (dir t x).(d_size);
  fd_streams : forall t, streams t x' <= streams t x
}.
Lemma fades_refl x : fades x x.
Proof. by split. Qed.
Lemma fades_trans x y z : fades x y -> fades y z -> fades x z.
Proof. intros [A1 A2] [B1 B2]. split; intros t; [congruence|]. specialize (A2 t). specialize (B2 t). lia. Qed.
Lemma hush_fades x x' : hush x x' -> fades x x'.
Proof.
  intros [H1 H2 H3 H4 H5 H6]. split; intros t.
  - specialize (H6 t). unfold shape in H6. congruence.
  - unfold streams. by rewrite H2, H3.
Qed.
Lemma hush_reach x x' s : hush x x' -> reach (dir s x') = reach (dir s x).
Proof.
  intros H. pose proof (mu_shape _ _ H s) as E. unfold shape in E. unfold reach, growth.
  destruct (dir s x), (dir s x'). cbn in *. by simplify_eq.
Qed.

(** A direction changes, and its buffer keeps its size. *)
Lemma on_d_fades s f x : (f (dir s x)).(d_size) = (dir s x).(d_size) -> fades x (on_d s f x).
Proof.
  intros H. split; intros t; [rewrite dir_on_d; case_decide; by subst|]. by destruct s.
Qed.

Lemma draw_send_fades s x a x' : draw_send s x = (a, x') ->
  fades x x' /\ (a <> SND_NOT_READY -> streams s x' < streams s x) /\ forall t, dir t x' = dir t x.
Proof.
  unfold draw_send. destruct (e_send (s_env x) s) as [|b l] eqn:E; intros [= <- <-].
  - split_and!; [apply fades_refl|done|done].
  - assert (Hs : forall t, streams t (x <| s_env ::= fun e => e <| e_send := sset e.(e_send) s l |> |>)
        = streams t x - (if decide (t = s) then 1 else 0)).
    { intros t. unfold streams, sset. cbn. case_decide; subst; [rewrite E; cbn; lia|lia]. }
    split_and!; [split; [by intros []|]|..]; [|intros _; rewrite Hs, decide_True by done; lia|by intros []].
    intros t. rewrite Hs. case_decide; lia.
Qed.
Lemma draw_recv_fades s x a x' : draw_recv s x = (a, x') ->
  fades x x' /\ (a <> RCV_NOT_READY -> streams s x' < streams s x) /\ forall t, dir t x' = dir t x.
Proof.
  unfold draw_recv. destruct (e_recv (s_env x) s) as [|b l] eqn:E; intros [= <- <-].
  - split_and!; [apply fades_refl|done|done].
  - assert (Hs : forall t, streams t (x <| s_env ::= fun e => e <| e_recv := sset e.(e_recv) s l |> |>)
        = streams t x - (if decide (t = s) then 1 else 0)).
    { intros t. unfold streams, sset. cbn. case_decide; subst; [rewrite E; cbn; lia|lia]. }
    split_and!; [split; [by intros []|]|..]; [|intros _; rewrite Hs, decide_True by done; lia|by intros []].
    intros t. rewrite Hs. case_decide; lia.
Qed.

(** ** The parts of a turn after the parser *)

Lemma peer_send_fades s data x n x' : peer_send s data x = (n, x') ->
  fades x x' /\ (forall t, dir t x' = dir t x) /\
  (match n with Some n => 0 < n | None => True end -> streams s x' < streams s x).
Proof.
  unfold peer_send. destruct (draw_send s x) as [a x1] eqn:E. destruct (draw_send_fades _ _ _ _ E) as (F & L & D).
  destruct a; intros [= <- <-]; (split_and!; [by destruct F; split|by intros t; rewrite <- D|]); (lia || (intros _; by apply L)).
Qed.

Lemma send_cleared_fades s x b x' : send_cleared s x = (b, x') ->
  fades x x' /\ ahead (dir s x') = ahead (dir s x).
Proof.
  unfold send_cleared. destruct (_ =? 0); [intros [= <- <-]; split; [apply fades_refl|done]|].
  destruct (peer_send s _ x) as [[n|] x1] eqn:E; destruct (peer_send_fades _ _ _ _ _ E) as (F & D & _);
    intros [= <- <-].
  - split; [eapply fades_trans; [exact F|by apply on_d_fades]|]. rewrite dir_on_d, decide_True, D by done. done.
  - split; [eapply fades_trans; [exact F|]; split; [by intros []|done]|].
    transitivity (ahead (dir s x1)); [by destruct s|by rewrite D].
Qed.

Lemma drop_original_ahead d : ahead (drop_original d) = ahead d /\ (drop_original d).(d_size) = d.(d_size).
Proof.
  unfold drop_original. destruct (negb (d_drop d =? 0)) eqn:Hd; cbn [andb]; [|done].
  destruct (Z.eqb_spec (d_pos d) (d_cleared d)) as [E|]; [|done]. split; [|done].
  unfold ahead, reach, growth, mass. cbn. lia.
Qed.

Lemma send_rewritten_fades s x b x' : send_rewritten s x = (b, x') ->
  fades x x' /\ ahead (dir s x') = ahead (dir s x) /\ (b = Some true -> streams s x' < streams s x).
Proof.
  unfold send_rewritten. destruct (d_out (dir s x)) as [o|]; [|intros [= <- <-]; split_and!; [apply fades_refl|done|done]].
  destruct (_ || _) eqn:Eo; [intros [= <- <-]; split_and!; [apply fades_refl|done|done]|].
  destruct (peer_send s _ x) as [[n|] x1] eqn:E; destruct (peer_send_fades _ _ _ _ _ E) as (F & D & L);
    pose proof (peer_send_calm _ _ _ _ _ E) as [_ Hn]; intros [= <- <-].
  - split_and!; [eapply fades_trans; [exact F|by apply on_d_fades]| |].
    + rewrite dir_on_d, decide_True, D by done. done.
    + intros [= Hw]. assert (H0 : 0 < n) by lia. specialize (L H0). by destruct s.
  - split_and!; [eapply fades_trans; [exact F|]; split; [by intros []|done]| |done].
    transitivity (ahead (dir s x1)); [by destruct s|by rewrite D].
Qed.

Lemma compact_ahead cu s d : ahead (compact cu s d) = ahead d /\ (compact cu s d).(d_size) = d.(d_size).
Proof.
  unfold compact. case_match eqn:E; [|done].
  apply andb_prop in E as [[[E1 E2]%andb_prop E3]%andb_prop E4]. apply Z.eqb_eq in E1, E3.
  unfold ahead, reach, growth, mass. destruct (negb (d_last d - d_pos d =? 0)); cbn; split; (done || lia).
Qed.

Lemma receive_fades s x b x' : receive s x = (b, x') ->
  fades x x' /\ (b = false -> ahead (dir s x') = ahead (dir s x)) /\ (b = true -> streams s x' < streams s x).
Proof.
  unfold receive. destruct (_ =? 0); [intros [= <- <-]; split_and!; [apply fades_refl|done|done]|].
  destruct (draw_recv s x) as [a x1] eqn:E. destruct (draw_recv_fades _ _ _ _ E) as (F & L & D).
  destruct a as [|data| |]; intros [= <- <-].
  - split_and!; [exact F|by rewrite D|done].
  - split_and!; [eapply fades_trans; [exact F|by apply on_d_fades]| |].
    + intros Hz. rewrite dir_on_d, decide_True, D by done. apply negb_false_iff, Z.eqb_eq in Hz.
      unfold ahead, reach, growth, mass. cbn. rewrite Hz. lia.
    + intros _. assert (streams s x1 < streams s x) by (by apply L). by destruct s.
  - split_and!; [eapply fades_trans; [exact F|]; split; [by intros []|done]| |done].
    intros _. transitivity (ahead (dir s x1)); [by destruct s|by rewrite D].
  - split_and!; [eapply fades_trans; [exact F|]; split; [by intros []|done]| |done].
    intros _. transitivity (ahead (dir s x1)); [by destruct s|by rewrite D].
Qed.

Section ends.
Context (cf : fconf) (route_hash : Z).
Context (deny_entry : req -> option (bool * Z * bytes)) (reply_marks : req -> Z -> bool) (reason_of : req -> bytes).
Context (limit_fits : forall p, 0 <= cf.(wc_body_limit) p < 2 ^ 63).

Abbreviation turn := (WsFrameFacts.turn cf).
Abbreviation room := (WsRoom.room cf).
Abbreviation sess_ok := (WsSessionFacts.sess_ok cf).
Abbreviation ending := (WsSessionFacts.ending cf).
Abbreviation sound := (WsEvents.sound cf).
Abbreviation parse := (ngx_http_waf_frame_parse cf route_hash deny_entry reply_marks reason_of).
Abbreviation pump_turn := (WsSession.pump_turn cf route_hash deny_entry reply_marks reason_of).
Abbreviation pump := (ngx_http_waf_frame_pump cf route_hash deny_entry reply_marks reason_of).
Abbreviation settle := (ngx_http_waf_frame_settle cf route_hash reply_marks).
Abbreviation rewrite_fail := (ngx_http_waf_frame_rewrite_fail cf deny_entry reason_of).
Abbreviation resume_core := (WsSession.resume_core cf route_hash deny_entry reply_marks reason_of).
Abbreviation run := (ngx_http_waf_frame_run cf route_hash deny_entry reply_marks reason_of).
Abbreviation handle := (WsEvents.handle cf route_hash deny_entry reply_marks reason_of).
Abbreviation handle_all := (WsEvents.handle_all cf route_hash deny_entry reply_marks reason_of).

(** ** The parser *)

Lemma turn_cleared d o d' : dir_wf d -> turn d o d' -> d.(d_cleared) <= d'.(d_cleared).
Proof.
  intros Hd Ht. pose proof (dir_last d Hd) as Hlast. pose proof (hold_nonneg d Hd).
  destruct Ht as [| | |Hs take| |h d1 Hf Ho Hnc Hpl Hl Hc|h d1 Hf Ho Hpl Hl Hc|h b Hf Ho Hp Hm
    |h d1 hl Hf Ho Hp Hm Es|h Ht Hj|h Ht Hj
    |h Ht Ha Hfin Hop Hm Hskip|h Ht Hi Hfin Hm|h hl d1 Ht Hi Hm Es|h Ht Hi Hm]; try done.
  - dir_simpl. unfold take, avail_of, next_of. lia.
  - destruct (cut_counted d d1 h Hd Hf Hl Hc) as (m' & -> & _). by destruct Hc as (?&?&?&?&->).
  - destruct (frame_at_hlen d h Hd Hf) as (G1 & G2 & _). unfold frame_len. dir_simpl. destruct (d_masked d); lia.
  - destruct (seal_wf false d hl d1 Hd Hm Es) as (-> & _). destruct (dw_msg Hd Hm).
    pose proof (header_len_range (d_msg_len d) (d_masked d)). dir_simpl. lia.
  - destruct (frame_at_hlen d h Hd (tk_at cf d h Ht)) as (G1 & G2 & _). unfold frame_len. dir_simpl.
    destruct (d_masked d); lia.
  - destruct (fragment_key_eq d h Hd (tk_at cf d h Ht)) as (k & -> & _). done.
  - destruct (append_wf cf d h Hd Ht Hm) as (m' & -> & _). done.
  - pose proof (after_append_wf cf d h Hd Ht Hm) as Hda.
    destruct (append_wf cf d h Hd Ht Hm) as (m' & Ea & Hb & Hz). rewrite Ea in Es, Hda.
    set (da := _ <| d_msg_fragments := _ |>) in Es, Hda.
    assert (F6 : d_msg da = true) by exact Hm. assert (F7 : d_cleared da = d_cleared d) by reflexivity. clearbody da.
    destruct (seal_wf true da hl d1 Hda F6 Es) as (_ & _ & _ & _ & E3 & _). dir_simpl. lia.
Qed.

Lemma parse_loop_reach jset now n d o d' :
  room d -> parse_loop n cf jset now d = Some (o, d') -> reach d' <= reach d /\ d.(d_cleared) <= d'.(d_cleared).
Proof.
  revert d. induction n as [|n IH]; intros d Hr; cbn [parse_loop]; [done|].
  destruct (parse_turn cf jset now d) as [o1 d1] eqn:E. destruct Hr as [R1 R2 R3 R4 R5].
  pose proof (parse_turn_turn cf jset now d o1 d1 R1 E) as Ht. pose proof (turn_cleared d o1 d1 R1 Ht).
  destruct (turn_room cf limit_fits d o1 d1 R1 R2 R3 Ht) as (T1 & _).
  assert (Hr1 : room d1) by (by eapply (turn_keeps_room cf limit_fits d); [split|]).
  destruct o1; try (intros [= <- <-]; done). intros Hl. destruct (IH d1 Hr1 Hl). lia.
Qed.

Lemma parse_fades fuel s x rc x' : sess_ok x -> parse fuel s x = Some (rc, x') -> fades x x'.
Proof.
  intros Hok Hp. apply parse_quiet in Hp as (o & d & El & Hh & _).
  destruct (parse_loop_room cf _ _ limit_fits _ _ _ _ (so_room cf x Hok s) El) as (_ & (_ & Hsz & _) & _).
  eapply fades_trans; [|by apply hush_fades]. by apply on_d_fades.
Qed.

(** A call of the parser leaves no more ahead of it, and less when it has
    handed a frame over that was dealt with at once. *)
Lemma parse_ahead fuel s x rc x' :
  sess_ok x -> cur x = None \/ (dir s x).(d_mode) = FRAME_PASS -> (dir s x).(d_drop) = 0 ->
  parse fuel s x = Some (rc, x') -> closing x' = false ->
  if rc_ok rc then ahead (dir s x') < ahead (dir s x) else ahead (dir s x') <= ahead (dir s x).
Proof.
  intros Hok Hcur Hdrop Hp Hcl. apply parse_quiet in Hp as (o & d & El & Hh & Ho).
  destruct (parse_loop_reach _ _ _ _ _ _ (so_room cf x Hok s) El) as [L1 L2].
  destruct (parse_loop_room cf _ _ limit_fits _ _ _ _ (so_room cf x Hok s) El) as (_ & Hst & Hheld).
  destruct Hst as (Hph & Hsz & Hmode & _ & _ & Hdr & _).
  assert (Hcl0 : closing x = false).
  { destruct (closing x) eqn:E; [|done]. pose proof (mu_closing _ _ Hh) as Hm. rewrite closing_on_d in Hm. by rewrite Hm in Hcl. }
  assert (Htake : takes s (on_d s (fun _ => d) x) x' -> 0 < d.(d_held) -> d.(d_mode) <> FRAME_PASS -> ahead (dir s x') < ahead (dir s x)).
  { intros [_ T] Hpos Hm. destruct Hcur as [Hcur|Hcur]; [|congruence].
    destruct T as [_ T]; [by rewrite cur_on_d|rewrite dir_on_d, decide_True by done; congruence|].
    specialize (T s). rewrite dir_on_d, decide_True in T by done.
    assert (Hz : (dir s x).(d_held) = 0).
    { destruct (Z.eq_dec (d_held (dir s x)) 0) as [|Hn]; [done|]. pose proof (so_cur cf x Hok Hcl0 s Hn). congruence. }
    unfold ahead. rewrite T, (hush_reach _ _ s Hh), dir_on_d, decide_True by done.
    unfold mass. rewrite Hdr, Hz. lia. }
  assert (Hsame : x' = on_d s (fun _ => d) x /\ rc = NGX_AGAIN -> d.(d_held) = (dir s x).(d_held) ->
    if rc_ok rc then ahead (dir s x') < ahead (dir s x) else ahead (dir s x') <= ahead (dir s x)).
  { intros [-> ->] He. change (rc_ok NGX_AGAIN) with false. rewrite dir_on_d, decide_True by done.
    unfold ahead, mass. rewrite Hdr, He. lia. }
  destruct o; [by apply Hsame|by apply Hsame|..].
  - congruence.
  - destruct Ho as [T ->], Hheld as (N1 & _ & _ & N4). by apply Htake.
  - destruct Ho as [T ->], Hheld as (N1 & _ & _ & N4). by apply Htake.
Qed.

(** ** The pump *)

Lemma ahead_range d : room d -> lying d -> 0 <= ahead d <= d.(d_size).
Proof.
  intros [R1 R2 R3 R4 R5] [L1 L2 L3 L4]. pose proof (dw_pos R1). pose proof (dir_last d R1). pose proof (hold_nonneg d R1).
  pose proof (growth_range d R1). unfold ahead, mass, reach in *.
  destruct (Z.eq_dec (d_held d) 0) as [E|E]; [|destruct (L3 E) as (F1 & F2 & F3 & _); lia].
  destruct (Z.eq_dec (d_drop d) 0) as [E'|E']; [|destruct (L4 E') as (F1 & F2 & _)]; lia.
Qed.

Lemma sess_ahead s x : sess_ok x -> 0 <= ahead (dir s x) <= (dir s x).(d_size).
Proof. intros H. apply ahead_range; [apply (so_room cf x H)|apply (so_lying cf x H)]. Qed.

(** Less ahead, or fewer answers to come. *)
Lemma fewer_turns s x x' :
  sess_ok x -> sess_ok x' -> fades x x' ->
  streams s x' < streams s x \/ ahead (dir s x') < ahead (dir s x) -> turns_left s x' < turns_left s x.
Proof.
  intros H1 H2 [F1 F2] Hd. pose proof (sess_ahead s x H1). pose proof (sess_ahead s x' H2) as R.
  specialize (F1 s). specialize (F2 s). rewrite F1 in R. unfold turns_left. rewrite F1. pose proof (streams_nonneg s x'). nia.
Qed.

(** A turn after which the pump goes on leaves fewer of them, and a turn that
    does not return has its parser before a frame of 2^63 bytes. *)
Definition at_huge (s : side) (x : sess) : Prop :=
  exists d, rtc (goes_on cf (journal_set x) x.(s_env).(e_clock)) (dir s x) d /\ huge d.

Lemma parse_huge fuel s x : sess_ok x -> parse fuel s x = None -> at_huge s x.
Proof.
  intros Hok. unfold ngx_http_waf_frame_parse. destruct (parse_loop _ _ _ _ _) as [[o d]|] eqn:E; [by destruct o|].
  intros _. by apply parse_fuel_huge; [apply (rm_wf cf), (so_room cf x Hok)|].
Qed.

Lemma pump_turn_none fuel s x : sess_ok x -> pump_turn fuel s x = None -> at_huge s x.
Proof.
  intros Hok. unfold WsSession.pump_turn. set (p := _ && negb (out_pending (dir s x))).
  destruct (if p then _ else _) as [[rc x1]|] eqn:Ep.
  - repeat case_match; done.
  - intros _. destruct p; [|done]. by eapply parse_huge.
Qed.

Lemma pump_turn_less fuel s x b x' :
  sess_ok x -> pump_turn fuel s x = Some (b, x') ->
  fades x x' /\ (b = true -> streams s x' < streams s x \/ ahead (dir s x') < ahead (dir s x)).
Proof.
  intros Hok. unfold WsSession.pump_turn.
  set (p := ((match fc_cur (s_fc x) with None => true | Some _ => false end || (d_mode (dir s x) ==? FRAME_PASS))
               && (d_drop (dir s x) =? 0)) && negb (out_pending (dir s x))).
  destruct (if p then _ else _) as [[rc x1]|] eqn:Ep; [|done].
  assert (H1 : fades x x1 /\ (fc_closing (s_fc x1) && p = false ->
    if rc_ok rc then ahead (dir s x1) < ahead (dir s x) else ahead (dir s x1) <= ahead (dir s x))).
  { destruct p eqn:E; [|injection Ep as <- <-; split; [apply fades_refl|intros _; apply Z.le_refl]].
    split; [by eapply parse_fades|]. intros Hc. rewrite andb_true_r in Hc.
    apply andb_prop in E as [[E1 E2]%andb_prop _]. eapply (parse_ahead fuel s x rc x1 Hok); [|lia|exact Ep|exact Hc].
    unfold cur. destruct (fc_cur (s_fc x)); [right|by left]. by apply bool_decide_eq_true in E1. }
  clear Ep. destruct H1 as [F1 H1]. destruct (fc_closing (s_fc x1) && p) eqn:Ec; [by intros [= <- <-]|].
  specialize (H1 eq_refl). clearbody p. clear Ec.
  destruct (send_cleared s x1) as [sent x2] eqn:E2. apply send_cleared_fades in E2 as [F2 A2].
  assert (G2 : fades x x2) by (by eapply fades_trans). destruct sent; [|by intros [= <- <-]].
  set (x3 := on_d s drop_original x2). destruct (drop_original_ahead (dir s x2)) as [A3 S3].
  assert (G3 : fades x x3) by (eapply fades_trans; [exact G2|by apply on_d_fades]).
  assert (A3' : ahead (dir s x3) = ahead (dir s x2)) by (unfold x3; by rewrite dir_on_d, decide_True). clearbody x3.
  destruct (send_rewritten s x3) as [again x4] eqn:E4. apply send_rewritten_fades in E4 as (F4 & A4 & L4).
  assert (G4 : fades x x4) by (by eapply fades_trans).
  destruct again as [[]|]; [| |by intros [= <- <-]].
  { intros [= <- <-]. split; [done|]. intros _. left. specialize (L4 eq_refl). pose proof (fd_streams _ _ G3 s). lia. }
  destruct (compact_ahead x4.(s_fc).(fc_cur) s (dir s x4)) as [A5 S5].
  set (x5 := on_d s (compact x4.(s_fc).(fc_cur) s) x4).
  assert (G5 : fades x x5) by (eapply fades_trans; [exact G4|by apply on_d_fades]).
  assert (A5' : ahead (dir s x5) = ahead (dir s x4)) by (unfold x5; by rewrite dir_on_d, decide_True). clearbody x5.
  destruct (receive s x5) as [got x6] eqn:E6. apply receive_fades in E6 as (F6 & A6 & L6).
  assert (G6 : fades x x6) by (by eapply fades_trans). destruct got; intros [= <- <-]; (split; [done|]).
  - intros _. left. specialize (L6 eq_refl). pose proof (fd_streams _ _ G5 s). lia.
  - intros [Hrc _]%andb_prop. rewrite Hrc in H1. right. specialize (A6 eq_refl). lia.
Qed.

Lemma pump_turn_progress fuel s x x' :
  sess_ok x -> pump_turn fuel s x = Some (true, x') -> sess_ok x' /\ fades x x' /\ turns_left s x' < turns_left s x.
Proof.
  intros Hok E. destruct (pump_turn_less fuel s x true x' Hok E) as [F L].
  destruct (pump_turn_ok cf route_hash deny_entry reply_marks reason_of limit_fits fuel s x true x' Hok E) as [Hk|[_ ?]]; [|done].
  split_and!; [done|done|]. apply fewer_turns; auto.
Qed.

(** The turns after which the pump goes on. *)
Definition turns_on (fuel : nat) (s : side) (x x' : sess) : Prop := pump_turn fuel s x = Some (true, x').

Lemma pump_ends n fuel s x :
  sess_ok x -> turns_left s x < Z.of_nat n ->
  match pump n fuel s x with
  | Some x' => (sess_ok x' \/ ending x') /\ fades x x'
  | None => exists y, rtc (turns_on fuel s) x y /\ sess_ok y /\ at_huge s y
  end.
Proof.
  revert x. induction n as [|n IH]; intros x Hok Hn.
  { pose proof (sess_ahead s x Hok). pose proof (streams_nonneg s x). unfold turns_left in Hn. nia. }
  cbn [ngx_http_waf_frame_pump]. destruct (pump_turn fuel s x) as [[[] x1]|] eqn:E.
  - destruct (pump_turn_progress fuel s x x1 Hok E) as (Hok1 & F & L). specialize (IH x1 Hok1 ltac:(lia)).
    destruct (pump n fuel s x1) as [x'|].
    + destruct IH. split; [done|by eapply fades_trans].
    + destruct IH as (y & R & H). exists y. split; [by eapply rtc_l|done].
  - destruct (pump_turn_less fuel s x false x1 Hok E) as [F _]. split; [|done].
    destruct (pump_turn_ok cf route_hash deny_entry reply_marks reason_of limit_fits fuel s x false x1 Hok E) as [|[]]; auto.
  - exists x. split_and!; [done|done|by eapply pump_turn_none].
Qed.

(** ** Events *)

(** Turns enough for the pump of either direction. *)
Definition enough (n : nat) (x : sess) : Prop :=
  forall s, (streams s x + 1) * ((dir s x).(d_size) + 1) <= Z.of_nat n.

Lemma room_size d : room d -> 0 <= d.(d_size).
Proof. intros Hr. rewrite <- (rm_mem cf d Hr). apply zlen_nonneg. Qed.
Lemma enough_turns n s x : sess_ok x -> enough n x -> turns_left s x < Z.of_nat n.
Proof.
  intros Hok He. specialize (He s). pose proof (sess_ahead s x Hok). pose proof (streams_nonneg s x).
  unfold turns_left. nia.
Qed.
Lemma enough_fades n x x' : (forall s, room (dir s x)) -> fades x x' -> enough n x -> enough n x'.
Proof.
  intros Hr [F1 F2] He s. specialize (He s). specialize (F1 s). specialize (F2 s). pose proof (room_size _ (Hr s)).
  rewrite F1. nia.
Qed.

Lemma finalize_fades x : fades x (ngx_http_waf_frame_finalize x).
Proof.
  unfold ngx_http_waf_frame_finalize. pose proof (hush_fades _ _ (proj1 (mute_end x))) as F1.
  set (y := ngx_http_waf_frame_end x) in *. clearbody y. eapply fades_trans; [exact F1|]. clear F1 x.
  destruct (negb _); [|split; [by intros []|done]].
  destruct (draw_send S2C y) as [a z] eqn:E. apply draw_send_fades in E as (F & _).
  eapply fades_trans; [exact F|]. destruct a; split; (by intros [] || done).
Qed.
Lemma close_why_fades w x : fades x (ngx_http_waf_frame_finalize (close_why w x)).
Proof. eapply fades_trans; [|apply finalize_fades]. split; [by intros []|done]. Qed.
Lemma after_pump_fades armed x : fades x (after_pump armed x).
Proof.
  unfold after_pump, ngx_http_waf_frame_events.
  repeat case_match; first [apply finalize_fades|apply close_why_fades|apply fades_refl].
Qed.

(** The directions [ngx_http_waf_frame_run] pumps, and the session each finds. *)
Inductive run_pumps (n fuel : nat) (x : sess) : side -> sess -> Prop :=
  | rp_first : run_pumps n fuel x C2S x
  | rp_second x1 : pump n fuel C2S x = Some x1 -> closing x1 = false -> run_pumps n fuel x S2C x1.

(** The session after an object has arrived. *)
Definition after_fetch (c : side) (status : ngx_rc) (data : bytes) (x : sess) : sess :=
  let x := if status ==? NGX_OK then
             let '(rc, x) := ngx_http_waf_frame_swap cf c data x in if rc_ok rc then x else rewrite_fail x
           else rewrite_fail x in
  settle (negb x.(s_fc).(fc_closing)) x.

(** An event starts the pump of direction [s] at session [y]. *)
Inductive pumped (n fuel : nat) : event -> sess -> side -> sess -> Prop :=
  | pumped_process armed s x : pumped n fuel (EvProcess None armed s) x s x
  | pumped_resume armed x x1 s y :
      resume_core fuel x = (true, x1) -> run_pumps n fuel x1 s y -> pumped n fuel (EvResume armed) x s y
  | pumped_fetched armed status data c x s y :
      cur x = Some c -> run_pumps n fuel (after_fetch c status data x) s y ->
      pumped n fuel (EvFetched armed status data) x s y.

(** One of the pumps that are started does not return: it comes to a session
    with its buffers in bounds whose parser comes to a frame of 2^63 bytes. *)
Definition stuck (fuel : nat) (starts : side -> sess -> Prop) : Prop :=
  exists s y0 y, starts s y0 /\ rtc (turns_on fuel s) y0 y /\ (forall t, in_bounds (dir t y)) /\ at_huge s y.

Lemma pump_stuck n fuel s x : sess_ok x -> enough n x ->
  match pump n fuel s x with
  | Some x' => fades x x'
  | None => exists y, rtc (turns_on fuel s) x y /\ (forall t, in_bounds (dir t y)) /\ at_huge s y
  end.
Proof.
  intros Hok He. pose proof (pump_ends n fuel s x Hok (enough_turns n s x Hok He)) as H.
  destruct (pump n fuel s x); [by destruct H|]. destruct H as (y & R & Hy & Hg). exists y. split_and!; [done| |done].
  intros t. apply (room_in_bounds cf), (so_room cf y Hy).
Qed.

Lemma run_ends n fuel armed x : sess_ok x -> enough n x ->
  match run n fuel armed x with
  | Some x' => fades x x'
  | None => stuck fuel (run_pumps n fuel x)
  end.
Proof.
  intros Hok He. unfold ngx_http_waf_frame_run. pose proof (pump_stuck n fuel C2S x Hok He) as H1.
  destruct (pump n fuel C2S x) as [x1|] eqn:E1.
  2: { destruct H1 as (y & R & H). exists C2S, x, y. split; [constructor|done]. }
  destruct (fc_closing (s_fc x1)) eqn:Ec; [eapply fades_trans; [exact H1|apply finalize_fades]|].
  assert (Hok1 : sess_ok x1).
  { destruct (pump_ok cf route_hash deny_entry reply_marks reason_of limit_fits n fuel C2S x x1 Hok E1) as [|(_ & _ & K)]; [done|].
    unfold closing in K. congruence. }
  pose proof (pump_stuck n fuel S2C x1 Hok1 (enough_fades n x x1 (so_room cf x Hok) H1 He)) as H2.
  destruct (pump n fuel S2C x1) as [x2|]; cbn.
  - eapply fades_trans; [exact H1|]. eapply fades_trans; [exact H2|apply after_pump_fades].
  - destruct H2 as (y & R & H). exists S2C, x1, y. split; [by constructor|done].
Qed.

Lemma stuck_mono fuel (P Q : side -> sess -> Prop) : (forall s y, P s y -> Q s y) -> stuck fuel P -> stuck fuel Q.
Proof. intros H (s & y0 & y & H1 & H2). exists s, y0, y. split; [by apply H|done]. Qed.

Lemma resume_ends n fuel armed x : sound x -> enough n x ->
  match handle n fuel (EvResume armed) x with
  | Some x' => fades x x'
  | None => stuck fuel (pumped n fuel (EvResume armed) x)
  end.
Proof.
  intros [Hr Hok] He. cbn [WsEvents.handle]. unfold ngx_http_waf_frame_resume.
  destruct (resume_core fuel x) as [b x1] eqn:E. pose proof E as Em. apply mute_resume_core in Em as [Em _].
  apply hush_fades in Em. destruct b; [|done]. destruct (_ || fc_fetching (s_fc x1)); [done|].
  destruct (s_gone x) eqn:Eg.
  { destruct fuel; cbn [WsSession.resume_core] in E; cbn [s_gone on_req upd] in E; rewrite Eg in E; by cbn [orb] in E. }
  destruct (resume_core_ok cf route_hash deny_entry reply_marks reason_of fuel x true x1 (Hok eq_refl) E) as [Hok1 _].
  pose proof (run_ends n fuel armed x1 Hok1 (enough_fades n x x1 Hr Em He)) as H1.
  destruct (run n fuel armed x1); [by eapply fades_trans|]. revert H1. apply stuck_mono. intros. by econstructor.
Qed.

Lemma after_fetch_ok c status data x : sess_ok x -> cur x = Some c ->
  sess_ok (after_fetch c status data x) /\ fades x (after_fetch c status data x).
Proof.
  intros Hok Hc. unfold after_fetch. set (x1 := if status ==? NGX_OK then _ else _).
  assert (K1 : sess_ok x1 /\ hush x x1).
  { unfold x1. pose proof (mute_rewrite_fail cf deny_entry reason_of) as Mf.
    pose proof (calm_rewrite_fail cf deny_entry reason_of) as Cf.
    destruct (status ==? NGX_OK); [|split; [by eapply calm_ok|apply Mf]].
    destruct (ngx_http_waf_frame_swap cf c data x) as [rc y] eqn:Es.
    destruct (swap_ok cf c data x rc y Hok Hc Es) as [[Ky _] _].
    destruct (loose_swap cf c data x rc y Hc Es) as [[L1 _] _].
    destruct (rc_ok rc); [done|]. split; [by eapply calm_ok|]. eapply hush_trans; [exact L1|apply Mf]. }
  clearbody x1. destruct K1 as [K1 M1]. destruct (settle_firm cf route_hash reply_marks (negb (fc_closing (s_fc x1))) x1) as (S1 & _).
  split; [|apply hush_fades; by eapply hush_trans]. eapply (settle_ok cf); [done|]. unfold closing. by destruct (fc_closing _).
Qed.

Lemma fetched_ends n fuel armed status data x : sound x -> enough n x ->
  match handle n fuel (EvFetched armed status data) x with
  | Some x' => fades x x'
  | None => stuck fuel (pumped n fuel (EvFetched armed status data) x)
  end.
Proof.
  intros [Hr Hok] He. cbn [WsEvents.handle]. unfold ngx_http_waf_frame_fetched.
  destruct (fc_cur (s_fc x)) as [c|] eqn:Ec; [|apply fades_refl].
  destruct (s_gone x); cbn [orb]; [apply fades_refl|]. destruct (negb _); [apply fades_refl|].
  destruct (after_fetch_ok c status data x (Hok eq_refl) Ec) as [K F].
  cbv zeta. fold (after_fetch c status data x).
  destruct (fc_in_stack _); [exact F|]. destruct (fc_closing (s_fc (after_fetch c status data x))); [eapply fades_trans; [exact F|apply finalize_fades]|].
  pose proof (run_ends n fuel armed _ K (enough_fades n x _ Hr F He)) as H1.
  destruct (run n fuel armed _); [by eapply fades_trans|]. revert H1. apply stuck_mono. intros. by econstructor.
Qed.

Lemma handle_ends n fuel ev x : sound x -> enough n x ->
  match handle n fuel ev x with
  | Some x' => sound x' /\ enough n x'
  | None => stuck fuel (pumped n fuel ev x)
  end.
Proof.
  intros Hs He. assert (H : match handle n fuel ev x with
    Some x' => fades x x' | None => stuck fuel (pumped n fuel ev x) end).
  { destruct ev as [timed armed s|armed|armed status data]; [|by apply resume_ends|by apply fetched_ends].
    cbn [WsEvents.handle]. unfold ngx_http_waf_frame_process. destruct Hs as [Hr Hok].
    destruct (s_gone x); cbn [orb]; [apply fades_refl|]. destruct (fc_closing (s_fc x)); [apply fades_refl|].
    destruct timed as [[]|]; [apply close_why_fades..|]. pose proof (pump_stuck n fuel s x (Hok eq_refl) He) as H1.
    destruct (pump n fuel s x); cbn; [eapply fades_trans; [exact H1|apply after_pump_fades]|].
    destruct H1 as (y & H1). exists s, x, y. split; [constructor|done]. }
  destruct (handle n fuel ev x) as [x'|] eqn:E; [|done].
  split; [by eapply handle_sound|]. exact (enough_fades n x x' (proj1 Hs) H He).
Qed.

(** C14: The events of a WebSocket session, in whatever order they come and
    whatever the peers send and the handler, the store and the allocator
    answer, leave the buffers of both directions in bounds: the pointers are in
    order and within the buffer, no write has gone past its end, and the next
    read asks for no more than fits.  Messages of the server are not put
    together from fragments, as is the default, or their limit is one that
    needs no eight-byte length ([unmasked_message_overruns] shows what happens
    otherwise).  Every event returns after a number of turns of the pump that
    the answers still to come and the buffers bound, but for one case: the
    parser has come to a frame that is 2^63 bytes long with its header
    ([endless_frame_hangs]), the buffers in bounds until then. *)
Theorem frame_buffers_in_bounds ovr fresh seed fc x n fuel evs :
  ngx_http_waf_frame_attach cf ovr fresh seed = (NGX_OK, fc) -> x.(s_fc) = fc ->
  fresh_ok cf ovr fresh seed -> (forall s, is_bytes (seed s)) ->
  cf.(wc_body_limit) PHASE_FRAME_S2C <= 65535 \/ cf.(wc_reassemble) = false ->
  enough n x ->
  match handle_all n fuel evs x with
  | Some x' => forall s, in_bounds (dir s x')
  | None => exists evs1 ev evs2 x1, evs = evs1 ++ ev :: evs2 /\ handle_all n fuel evs1 x = Some x1 /\
              (forall s, in_bounds (dir s x1)) /\ stuck fuel (pumped n fuel ev x1)
  end.
Proof.
  intros Ha Hx Hf Hb Hl. pose proof (attach_sound cf ovr fresh seed x fc Ha Hx Hf Hb Hl) as Hs.
  clear Ha Hx Hf Hb Hl. revert x Hs. induction evs as [|ev evs IH]; intros x Hs He; cbn [WsEvents.handle_all].
  { intros s. exact (room_in_bounds cf _ (proj1 Hs s)). }
  pose proof (handle_ends n fuel ev x Hs He) as H1. destruct (handle n fuel ev x) as [x1|] eqn:E; cbn.
  - destruct H1 as [Hs1 He1]. specialize (IH x1 Hs1 He1). destruct (handle_all n fuel evs x1); [done|].
    destruct IH as (evs1 & e & evs2 & x2 & -> & H2 & H3). exists (ev :: evs1), e, evs2, x2.
    split_and!; [done| |by destruct H3|by destruct H3]. cbn [WsEvents.handle_all]. by rewrite E.
  - exists [], ev, evs, x. split_and!; [done|done| |done]. intros s. exact (room_in_bounds cf _ (proj1 Hs s)).
Qed.

End ends.

End WsEnds.
