(* ===== verification/WsVerdict.v ===== *)
(** What the verdict does to a frame: a refused frame stays where it is and
    ends the session with a close code, an allowed one is cleared, and the
    turn that ends the session sends nothing. *)
From S2P Require Import Prelude Types Masks Sha256 FrameCache Slots Graph Verdict Breaker Handler WsFrame.
From S2P Require Import WsMem WsFrameFacts WsRoom WsSession WsSessionFacts WsQuiet.
#[local] Open Scope Z_scope.

Module WsVerdict.
Import Masks Verdict Handler WsFrame WsMem WsFrameFacts WsRoom WsSession WsSessionFacts WsQuiet.

Section verdict.
Context (cf : fconf) (route_hash : Z).
Context (deny_entry : req -> option (bool * Z * bytes)) (reply_marks : req -> Z -> bool) (reason_of : req -> bytes).

Abbreviation apply := (ngx_http_waf_frame_apply cf route_hash deny_entry reply_marks reason_of).
Abbreviation settle := (ngx_http_waf_frame_settle cf route_hash reply_marks).
Abbreviation pump_turn := (WsSession.pump_turn cf route_hash deny_entry reply_marks reason_of).
Abbreviation finish := (ngx_http_waf_frame_finish deny_entry reason_of).
Abbreviation deny_close := (ngx_http_waf_frame_deny_close deny_entry reason_of).

(** ** The turn that ends the session *)

Lemma code_peer_send s data x n x' : peer_send s data x = (n, x') -> code x' = code x.
Proof. unfold peer_send, draw_send. repeat case_match; intros; simplify_eq; done. Qed.

Lemma code_send_cleared s x b x' : send_cleared s x = (b, x') -> code x' = code x.
Proof.
  unfold send_cleared. destruct (_ =? 0); [by intros [= <- <-]|].
  destruct (peer_send s _ x) as [[n|] x1] eqn:E; apply code_peer_send in E; intros [= <- <-];
    [by rewrite code_on_d|exact E].
Qed.
Lemma code_send_rewritten s x b x' : send_rewritten s x = (b, x') -> code x' = code x.
Proof.
  unfold send_rewritten. destruct (d_out _) as [o|]; [|by intros [= <- <-]].
  destruct (_ || _); [by intros [= <- <-]|].
  destruct (peer_send s _ x) as [[n|] x1] eqn:E; apply code_peer_send in E; intros [= <- <-];
    [by rewrite code_on_d|exact E].
Qed.
Lemma code_receive s x b x' : receive s x = (b, x') -> code x' = code x.
Proof.
  unfold receive. destruct (_ =? 0); [by intros [= <- <-]|]. unfold draw_recv.
  destruct (e_recv (s_env x) s) as [|a l]; [by intros [= <- <-]|].
  destruct a; intros [= <- <-]; rewrite ?code_on_d; done.
Qed.

(** C20: When a turn of the pump gives a session a close code, whether for a
    refused frame, a protocol error or a missing verdict, the pump stops there
    and the turn has sent nothing to either peer.  This holds of any session,
    whatever its limits and the state of its buffers. *)
Theorem closing_turn_sends_nothing fuel s x b x' :
  code x = 0 -> pump_turn fuel s x = Some (b, x') -> code x' <> 0 ->
  b = false /\ closing x' = true /\ x'.(s_out) = x.(s_out).
Proof.
  intros Hc0. unfold WsSession.pump_turn. set (p := _ && negb (out_pending (dir s x))).
  destruct (if p then _ else _) as [[rc x1]|] eqn:Ep; [|done]. intros Ht Hc.
  assert (K1 : x1.(s_out) = x.(s_out) /\ coded x1).
  { destruct p; [|injection Ep as _ <-; split; [done|unfold coded; congruence]].
    apply parse_quiet in Ep as (o & d & _ & K & _). split; [apply (mu_out _ _ K)|]. apply (mu_code _ _ K).
    unfold coded. rewrite code_on_d. congruence. }
  destruct K1 as [K1 K2]. destruct (Z.eq_dec (code x1) 0) as [E|E].
  - exfalso. apply Hc. destruct (fc_closing (s_fc x1) && p); [by injection Ht as _ <-|].
    destruct (send_cleared s x1) as [[] x2] eqn:E2; apply code_send_cleared in E2; [|injection Ht as _ <-; congruence].
    destruct (send_rewritten s _) as [again x4] eqn:E4. apply code_send_rewritten in E4. rewrite code_on_d in E4.
    destruct again as [[]|]; [injection Ht as _ <-; congruence| |injection Ht as _ <-; congruence].
    destruct (receive s _) as [got x6] eqn:E6. apply code_receive in E6. rewrite code_on_d in E6.
    destruct got; injection Ht as _ <-; congruence.
  - assert (Hp : p = true) by (destruct p; [done|injection Ep as _ <-; congruence]).
    specialize (K2 E). unfold closing in K2. rewrite K2, Hp in Ht. cbn [andb] in Ht. injection Ht as <- <-. by split_and!.
Qed.

(** ** The verdict *)

(** The verdicts that refuse a frame. *)
Definition refuses (how : how_e) (q : req) : bool :=
  match how with
  | FINISH_APPLY => let v := (ph q.(q_ctx)).(ph_verdict) in (v ==? V_DENY) || (v ==? V_REDIRECT)
  | FINISH_OVERRIDES => false
  | FINISH_FAIL => true
  end.

Lemma set_close_code c r w x : code (on_fc (ngx_http_waf_frame_set_close c r w) x) = c.
Proof. done. Qed.

Lemma deny_close_spec x : code (deny_close x) <> 0 /\ closing (deny_close x) = true /\
  (forall s, dir s (deny_close x) = dir s x) /\ cur (deny_close x) = cur x.
Proof.
  unfold ngx_http_waf_frame_deny_close. destruct (deny_entry (s_req x)) as [[[[] c] r]|].
  - destruct (Z.eqb_spec c 0) as [E|E]; cbn [negb].
    + repeat case_match; split_and!; try done; by intros [].
    + split_and!; try done; by intros [].
  - repeat case_match; split_and!; try done; by intros [].
  - repeat case_match; split_and!; try done; by intros [].
Qed.

Lemma settle_refused s x :
  cur x = Some s -> code x <> 0 -> closing x = true ->
  let x' := settle false x in
  closing x' = true /\ code x' = code x /\ cur x' = None /\
  dir s x' = (dir s x) <| d_denied ::= inc |> /\ (forall t, t <> s -> dir t x' = dir t x).
Proof.
  intros Hcur Hc Hcl. unfold ngx_http_waf_frame_settle. cbn zeta.
  set (x1 := on_fc _ x). assert (E1 : fc_cur (s_fc x1) = Some s) by exact Hcur. rewrite E1.
  assert (E2 : (fc_close_code (s_fc x1) =? 0) = false) by (apply Z.eqb_neq; exact Hc). rewrite E2. cbn [andb].
  set (x2 := on_d s _ x1). unfold ngx_http_waf_frame_end.
  assert (E3 : fc_cur (s_fc x2) = Some s) by (unfold x2; destruct s; exact Hcur). rewrite E3.
  assert (D1 : dir s x2 = (dir s x) <| d_denied ::= inc |>) by (unfold x2; by destruct s).
  assert (D2 : forall t, t <> s -> dir t x2 = dir t x) by (unfold x2; intros []; by destruct s).
  assert (D3 : closing x2 = true /\ code x2 = code x) by (unfold x2; by destruct s). clearbody x2.
  destruct D3 as [D3 D4]. destruct (negb (fc_pool (s_fc x2))); split_and!; try done;
    by destruct s || (intros [] Ht; by rewrite <- D2).
Qed.

(** C19: A verdict that refuses a frame (deny, redirect, or no verdict under
    the blocking policy) closes the session with a nonzero code and leaves
    the frame where it is, held and not cleared; any other verdict, when no
    rewrite is wanted, clears exactly the held frame. *)
Theorem frame_verdict_gate how s x rc x1 :
  cur x = Some s -> closing x = false -> finish how x = (rc, x1) ->
  let x2 := apply rc x1 in
  (refuses how x.(s_req) = true ->
     closing x2 = true /\ code x2 <> 0 /\ dir s x2 = (dir s x) <| d_denied ::= inc |>) /\
  (refuses how x.(s_req) = false ->
     ngx_http_waf_frame_rewrite cf deny_entry reason_of x1 = (false, x1) ->
     closing x2 = false /\ cur x2 = None /\
     dir s x2 = (dir s x) <| d_cleared := (dir s x).(d_cleared) + (dir s x).(d_held) |> <| d_held := 0 |>).
Proof.
  intros Hcur Hcl Hf x2. unfold ngx_http_waf_frame_finish, cur in *. rewrite Hcur in Hf.
  assert (Hrefuse : forall y, rc = NGX_ABORT -> x1 = y -> code y <> 0 -> closing y = true -> cur y = Some s ->
    dir s y = dir s x -> closing x2 = true /\ code x2 <> 0 /\ dir s x2 = (dir s x) <| d_denied ::= inc |>).
  { intros y -> -> Hy1 Hy2 Hy3 Hy4. destruct (settle_refused s y Hy3 Hy1 Hy2) as (S1 & S2 & _ & S3 & _).
    unfold x2. split_and!; [exact S1|intros E; apply Hy1; rewrite <- S2; exact E|].
    transitivity ((dir s y) <| d_denied ::= inc |>); [exact S3|by rewrite Hy4]. }
  assert (Hallow : rc = FRC (RC NGX_OK) -> x1 = x ->
    ngx_http_waf_frame_rewrite cf deny_entry reason_of x1 = (false, x1) ->
    closing x2 = false /\ cur x2 = None /\
     dir s x2 = (dir s x) <| d_cleared := (dir s x).(d_cleared) + (dir s x).(d_held) |> <| d_held := 0 |>).
  { intros -> -> Hr. unfold x2, ngx_http_waf_frame_apply. cbn [orb]. rewrite Hr.
    unfold closing in Hcl. rewrite Hcl. cbn [negb].
    unfold ngx_http_waf_frame_settle. set (y1 := on_fc _ x). assert (E1 : fc_cur (s_fc y1) = Some s) by exact Hcur.
    rewrite E1. cbn [andb]. set (y2 := if ngx_http_waf_frame_cacheable _ y1 then _ else y1).
    assert (E2 : s_fc y2 = s_fc y1) by (unfold y2; by destruct (ngx_http_waf_frame_cacheable _ _)). clearbody y2.
    set (y3 := on_d s _ y2). assert (E3 : fc_cur (s_fc y3) = Some s) by (unfold y3; etransitivity; [apply cur_on_d|]; unfold cur; by rewrite E2).
    unfold ngx_http_waf_frame_end. rewrite E3.
    assert (E4 : fc_closing (s_fc y3) = false)
      by (unfold y3; etransitivity; [apply closing_on_d|]; unfold closing; by rewrite E2).
    assert (E5 : dir s y3 = (dir s x) <| d_cleared := (dir s x).(d_cleared) + (dir s x).(d_held) |> <| d_held := 0 |>).
    { unfold y3. rewrite dir_on_d, decide_True by done. unfold dir. by rewrite E2. }
    clearbody y3. destruct (negb (fc_pool (s_fc y3))); split_and!; try done; by destruct s. }
  unfold refuses. destruct how.
  - destruct (_ || _); revert Hf; intros [= Erc Ex].
    + split; [intros _|done]. destruct (deny_close_spec x) as (N1 & N2 & N3 & N4).
      apply (Hrefuse (deny_close x)); try done. by rewrite N4.
    + split; [done|]. intros _. by apply Hallow.
  - revert Hf; intros [= Erc Ex]. split; [done|]. intros _. by apply Hallow.
  - revert Hf; intros [= Erc Ex]. split; [intros _|done]. eapply Hrefuse; try done.
Qed.

End verdict.

End WsVerdict.
