(* ===== verification/WsLimits.v ===== *)
(** Limits of a WebSocket direction: the rate of control frames, and three
    inputs the buffer is too small for. *)
From S2P Require Import Prelude Types Handler WsFrame WsMem WsFrameFacts WsRoom WsSession.
#[local] Open Scope Z_scope.

Module WsLimits.
Import WsFrame WsMem WsFrameFacts WsRoom WsSession.

(** ** The directive [waf_frame_control_rate] *)

Inductive dir_rc := CONF_OK (rate : Z) | CONF_DUPLICATE | CONF_ERROR.

(** [atoi] stands for [ngx_atoi], [None] for [NGX_ERROR]; [set] tells that the
    location has a rate already.  The rate is in thousandths per second. *)
Definition ngx_http_waf_frame_control_rate (atoi : bytes -> option Z) (set : bool) (arg : bytes) : dir_rc :=
  if set then CONF_DUPLICATE
  else if bytes_eqb arg (lit "off") then CONF_OK 0
  else
    let n := zlen arg - 3 in
    let unit := slice arg n 3 in
    let scale := if (0 <? n) && bytes_eqb unit (lit "r/s") then Some 1
                 else if (0 <? n) && bytes_eqb unit (lit "r/m") then Some 60 else None in
    match scale with
    | None => CONF_ERROR
    | Some scale =>
        match atoi (slice arg 0 n) with
        | None => CONF_ERROR
        | Some n => if n <=? 0 then CONF_ERROR
                    else let rate := u64 (n * 1000) / scale in
                         if rate =? 0 then CONF_ERROR else CONF_OK rate
        end
    end.

(** ** The rate of control frames *)

Section rate.
Context (cf : fconf).

(** Asking at the given times; how many were let through. *)
Fixpoint ctrl_run (times : list Z) (d : dir_t) : Z * dir_t :=
  match times with
  | [] => (0, d)
  | now :: times =>
      let '(ok, d) := ngx_http_waf_frame_ctrl_allowed cf now d in
      let '(n, d) := ctrl_run times d in
      ((if ok then 1 else 0) + n, d)
  end.

(** Times in order between [t] and [t1]. *)
Fixpoint ordered (t : Z) (times : list Z) (t1 : Z) : Prop :=
  match times with
  | [] => t <= t1
  | a :: times => t <= a /\ ordered a times t1
  end.

Lemma ordered_end t times t1 : ordered t times t1 -> t <= t1.
Proof. revert t. induction times as [|a l IH]; intros t; cbn; [done|]. intros [H1 H2]. apply IH in H2. lia. Qed.

Lemma msec_diff_ordered a b : 0 <= b <= a -> a < 2 ^ 63 -> msec_diff a b = a - b.
Proof. intros. unfold msec_diff. apply s64_small. unfold is_s64. lia. Qed.

Lemma u64_le x : 0 <= x -> 0 <= u64 x <= x.
Proof. intros H. unfold u64. split; [apply Z.mod_pos_bound; lia|apply Z.mod_le; lia]. Qed.

Lemma div_add_le a b : 0 <= a -> 0 <= b -> a / 1000 + b / 1000 <= (a + b) / 1000.
Proof. intros. apply Z.div_le_lower_bound; [lia|]. pose proof (Z.mul_div_le a 1000). pose proof (Z.mul_div_le b 1000). lia. Qed.

(** One question at [now], after which [last] lies between its old value and
    [now]; the tokens grow by no more than the rate gives in that time. *)
Lemma ctrl_allowed_spec now d ok d' :
  0 < cf.(wc_control_rate) -> 0 < d.(d_ctrl_last) <= now -> now < 2 ^ 63 -> 0 <= d.(d_ctrl_tokens) ->
  ngx_http_waf_frame_ctrl_allowed cf now d = (ok, d') ->
  d.(d_ctrl_last) <= d'.(d_ctrl_last) <= now /\ 0 <= d'.(d_ctrl_tokens) /\
  d'.(d_ctrl_tokens) + (if ok then 1000 else 0)
    <= d.(d_ctrl_tokens) + cf.(wc_control_rate) * (d'.(d_ctrl_last) - d.(d_ctrl_last)) / 1000 /\
  (d'.(d_ctrl_tokens) + (if ok then 1000 else 0) <= Z.max d.(d_ctrl_tokens) cf.(wc_control_rate)).
Proof.
  intros Hr Hl Hn Ht. unfold ngx_http_waf_frame_ctrl_allowed. set (rate := wc_control_rate cf) in *.
  rewrite (proj2 (Z.eqb_neq rate 0)), (proj2 (Z.eqb_neq (d_ctrl_last d) 0)) by lia.
  rewrite msec_diff_ordered by lia. set (ms := now - d_ctrl_last d) in *.
  pose proof (u64_le (rate * ms)) as Hu. set (add := if 0 <? ms then u64 (rate * ms) / 1000 else 0).
  assert (Hadd : 0 <= add <= rate * ms / 1000).
  { assert (0 <= rate * ms) by nia. pose proof (Z.div_le_mono (u64 (rate * ms)) (rate * ms) 1000).
    pose proof (Z.div_pos (u64 (rate * ms)) 1000). pose proof (Z.div_pos (rate * ms) 1000).
    unfold add. case_match; lia. }
  clearbody add. destruct (Z.eqb_spec add 0) as [E|E]; cbn [negb].
  - destruct (Z.leb_spec 1000 (d_ctrl_tokens d)); intros [= <- <-]; cbn; rewrite Z.sub_diag, Z.mul_0_r, Zdiv_0_l; lia.
  - set (tk := Z.min (u64 (d_ctrl_tokens d + add)) rate).
    assert (Htk : 0 <= tk <= d_ctrl_tokens d + add /\ tk <= rate).
    { pose proof (u64_le (d_ctrl_tokens d + add)). unfold tk. lia. }
    cbn [d_ctrl_tokens upd]. fold tk. clearbody tk.
    destruct (Z.leb_spec 1000 tk); intros [= <- <-]; cbn; fold ms; lia.
Qed.

Lemma ctrl_run_bound t0 times t1 d n d' :
  0 < cf.(wc_control_rate) -> 0 < d.(d_ctrl_last) <= t0 -> t1 < 2 ^ 63 -> 0 <= d.(d_ctrl_tokens) ->
  ordered t0 times t1 -> ctrl_run times d = (n, d') ->
  1000 * n <= d.(d_ctrl_tokens) + cf.(wc_control_rate) * (t1 - d.(d_ctrl_last)) / 1000.
Proof.
  revert t0 d n. induction times as [|a times IH]; intros t0 d n Hr Hl Ht1 Ht; cbn [ctrl_run ordered].
  - intros Ho [= <- <-]. assert (0 <= wc_control_rate cf * (t1 - d_ctrl_last d)) by nia.
    pose proof (Z.div_pos (wc_control_rate cf * (t1 - d_ctrl_last d)) 1000). lia.
  - intros [Ha Ho]. pose proof (ordered_end _ _ _ Ho).
    destruct (ngx_http_waf_frame_ctrl_allowed cf a d) as [ok d1] eqn:E. destruct (ctrl_run times d1) as [k d2] eqn:Er.
    intros [= <- <-]. destruct (ctrl_allowed_spec a d ok d1) as (A1 & A2 & A3 & _); [done|lia|lia|done..|].
    specialize (IH a d1 k Hr ltac:(lia) Ht1 A2 Ho Er).
    pose proof (div_add_le (wc_control_rate cf * (d_ctrl_last d1 - d_ctrl_last d))
      (wc_control_rate cf * (t1 - d_ctrl_last d1)) ltac:(nia) ltac:(nia)) as Hd.
    rewrite <- Z.mul_add_distr_l in Hd.
    replace (d_ctrl_last d1 - d_ctrl_last d + (t1 - d_ctrl_last d1)) with (t1 - d_ctrl_last d) in Hd by lia.
    destruct ok; lia.
Qed.

(** The first question fills the bucket. *)
Lemma ctrl_first now d ok d' :
  0 < cf.(wc_control_rate) -> d.(d_ctrl_last) = 0 ->
  ngx_http_waf_frame_ctrl_allowed cf now d = (ok, d') ->
  d'.(d_ctrl_last) = now /\ d'.(d_ctrl_tokens) + (if ok then 1000 else 0) = cf.(wc_control_rate) /\
  (ok = true <-> 1000 <= cf.(wc_control_rate)).
Proof.
  intros Hr Hl. unfold ngx_http_waf_frame_ctrl_allowed.
  rewrite (proj2 (Z.eqb_neq (wc_control_rate cf) 0)), (proj2 (Z.eqb_eq (d_ctrl_last d) 0)) by lia.
  cbn [d_ctrl_tokens upd]. destruct (Z.leb_spec 1000 (wc_control_rate cf)); intros [= <- <-]; cbn;
    (split_and!; [done|lia|]); split; intros; (done || lia).
Qed.

(** The number of pings and pongs that a direction lets through in a
    stretch of time is bounded by the burst of one second and the configured
    rate over the stretch, whatever the times at which they arrive; neither
    the rounding of the refill nor a wrapped product gives more. *)
Theorem control_rate_bound t0 times t1 d n d' :
  0 < cf.(wc_control_rate) -> 0 < t0 -> t1 < 2 ^ 63 -> d.(d_ctrl_last) = 0 ->
  ordered t0 times t1 -> ctrl_run (t0 :: times) d = (n, d') ->
  1000 * n <= cf.(wc_control_rate) + cf.(wc_control_rate) * (t1 - t0) / 1000.
Proof.
  intros Hr Ht0 Ht1 Hl Ho. cbn [ctrl_run].
  destruct (ngx_http_waf_frame_ctrl_allowed cf t0 d) as [ok d1] eqn:E. destruct (ctrl_run times d1) as [k d2] eqn:Er.
  intros [= <- <-]. destruct (ctrl_first t0 d ok d1 Hr Hl E) as (A1 & A2 & A3).
  assert (0 <= d_ctrl_tokens d1) by (destruct ok; [|lia]; pose proof (proj1 A3 eq_refl); lia).
  pose proof (ctrl_run_bound t0 times t1 d1 k d2 Hr ltac:(lia) Ht1 ltac:(lia) Ho Er) as Hb.
  rewrite A1 in Hb. destruct ok; lia.
Qed.

Lemma slow_rate_run times t0 t1 d n d' :
  0 < cf.(wc_control_rate) < 1000 -> 0 < d.(d_ctrl_last) <= t0 -> t1 < 2 ^ 63 -> 0 <= d.(d_ctrl_tokens) < 1000 ->
  ordered t0 times t1 -> ctrl_run times d = (n, d') -> n = 0.
Proof.
  revert t0 d n. induction times as [|a times IH]; intros t0 d n Hr Hl Ht1 Ht; cbn [ctrl_run ordered].
  - by intros _ [= <- <-].
  - intros [Ha Ho]. pose proof (ordered_end _ _ _ Ho).
    destruct (ngx_http_waf_frame_ctrl_allowed cf a d) as [ok d1] eqn:E. destruct (ctrl_run times d1) as [k d2] eqn:Er.
    intros [= <- <-]. destruct (ctrl_allowed_spec a d ok d1) as (A1 & A2 & A3 & A4); [lia|lia|lia|lia|done|].
    destruct ok; [lia|]. rewrite (IH a d1 k) with (1 := Hr); [done|lia|done|lia|done|done].
Qed.

(** A rate below one frame a second, as [30r/m] is, is accepted by the
    directive and lets no ping or pong through, ever: the bucket holds at most
    one second of the rate, less than a frame costs. *)
Theorem slow_control_rate_drops_all atoi t0 times t1 d n d' :
  atoi (lit "30") = Some 30 ->
  ngx_http_waf_frame_control_rate atoi false (lit "30r/m") = CONF_OK cf.(wc_control_rate) ->
  0 < t0 -> t1 < 2 ^ 63 -> d.(d_ctrl_last) = 0 -> ordered t0 times t1 -> ctrl_run (t0 :: times) d = (n, d') -> n = 0.
Proof.
  intros Hat Hconf Ht0 Ht1 Hl Ho. assert (Hr : wc_control_rate cf = 500).
  { change (match atoi (lit "30") with
            | None => CONF_ERROR
            | Some n => if n <=? 0 then CONF_ERROR
                        else let rate := u64 (n * 1000) / 60 in if rate =? 0 then CONF_ERROR else CONF_OK rate
            end = CONF_OK (wc_control_rate cf)) in Hconf.
    rewrite Hat in Hconf. by injection Hconf as <-. }
  cbn [ctrl_run]. destruct (ngx_http_waf_frame_ctrl_allowed cf t0 d) as [ok d1] eqn:E.
  destruct (ctrl_run times d1) as [k d2] eqn:Er. intros [= <- <-].
  destruct (ctrl_first t0 d ok d1 ltac:(lia) Hl E) as (A1 & A2 & A3).
  destruct ok; [pose proof (proj1 A3 eq_refl); lia|]. by rewrite (slow_rate_run times t0 t1 d1 k d2) by (done || lia).
Qed.

End rate.

(** ** A message that outgrows the buffer *)

Section overrun.
Context (cf : fconf) (jset : set_e) (now : Z).

(** The last fragment of a message that is put together. *)
Lemma last_fragment_turn d h :
  dir_wf d -> taken cf d h -> cf.(wc_reassemble) = true -> d.(d_msg) = true ->
  h.(h_opcode) = NGX_HTTP_WAF_WS_OP_CONT -> h.(h_fin) = true ->
  exists o d', parse_turn cf jset now d = (o, d') /\ turn cf d o d' /\
    exists hl d1, o = PInspect (d1.(d_cleared) + hl) d1.(d_msg_len) (if h.(h_masked) then Some d1.(d_msg_key) else None) /\
      ngx_http_waf_frame_msg_seal true
        (ngx_http_waf_frame_msg_append (next_of d) h.(h_hlen) h.(h_plen) (d <| d_seq := inc d.(d_seq) |>)) = (hl, d1) /\
      d'.(d_last) = d1.(d_last) /\ d'.(d_size) = d1.(d_size).
Proof.
  intros Hd Ht Hre Hm Hop Hfin. pose proof (tk_at cf d h Ht) as Hf. destruct (dw_state Hd Hm) as [Hi Hsk].
  destruct (parse_turn cf jset now d) as [o d'] eqn:E. exists o, d'. split_and!; [done|by eapply parse_turn_turn|].
  rewrite (parse_turn_at cf jset now d h Hd Hf), Hop in E. cbn [Z.leb Z.compare NGX_HTTP_WAF_WS_OP_CONT] in E.
  unfold data_turn in E. rewrite Hop, Hi, Hre in E. unfold fragment_check in E. rewrite Hop, Hsk, Hm in E.
  change (NGX_HTTP_WAF_WS_OP_BINARY <? NGX_HTTP_WAF_WS_OP_CONT) with false in E.
  change (NGX_HTTP_WAF_WS_OP_CONT =? NGX_HTTP_WAF_WS_OP_CONT) with true in E.
  change (FRAME_INSPECT ==? FRAME_PASS) with false in E. change (FRAME_INSPECT ==? FRAME_INSPECT) with true in E.
  cbn [andb negb] in E. pose proof (tk_limit cf d h Ht) as Hl. unfold total_of in Hl. rewrite Hm in Hl.
  unfold limit_of in Hl. rewrite (proj2 (Z.ltb_ge _ _) Hl) in E. rewrite (tk_rsv cf d h Ht) in E. cbn [Z.eqb negb] in E.
  rewrite (frame_len_u64 d h Hd Hf), (proj2 (Z.ltb_ge _ _) (tk_len cf d h Ht)) in E.
  unfold data_frame in E. change (d_mode (d <| d_seq ::= inc |>)) with (d_mode d) in E.
  change (d_msg (d <| d_seq ::= inc |>)) with (d_msg d) in E. rewrite Hi, Hm, Hfin in E.
  change (FRAME_INSPECT ==? FRAME_JOURNAL) with false in E. cbn [andb negb] in E.
  destruct (ngx_http_waf_frame_msg_seal true _) as [hl d1] eqn:Es.
  injection E as <- <-. exists hl, d1. by split_and!.
Qed.

(** In a direction without masks, a message of two fragments with the
    shortest headers that, joined, needs the eight-byte length grows by four
    bytes as it is sealed.  With the buffer filled to its end the bytes behind
    it move past the end of the buffer, and the room for the next read, an
    unsigned difference, wraps to nearly 2^64. *)
Theorem unmasked_message_overruns d h :
  dir_wf d -> taken cf d h -> cf.(wc_reassemble) = true -> d.(d_masked) = false ->
  d.(d_msg) = true -> d.(d_msg_hlen) = 2 -> h.(h_hlen) = 4 ->
  h.(h_opcode) = NGX_HTTP_WAF_WS_OP_CONT -> h.(h_fin) = true -> 65535 < d.(d_msg_len) + h.(h_plen) ->
  d.(d_size) - 4 < d.(d_last) <= d.(d_size) ->
  exists o d', parse_turn cf jset now d = (o, d') /\ d'.(d_size) < d'.(d_last) /\ 2 ^ 63 < recv_size d'.
Proof.
  intros Hd Ht Hre Hmk Hm Hh2 Hh4 Hop Hfin Hlen Hlast.
  destruct (last_fragment_turn d h Hd Ht Hre Hm Hop Hfin) as (o & d' & E & Htn & hl & d1 & _ & Es & E1 & E2).
  exists o, d'. split; [done|]. pose proof (after_append_wf cf d h Hd Ht Hm) as Hda.
  destruct (append_wf cf d h Hd Ht Hm) as (m' & Ea & _). rewrite Ea in Es, Hda.
  set (da := _ <| d_msg_fragments := _ |>) in Es, Hda.
  assert (F1 : d_last da = d_last d - h_hlen h) by reflexivity.
  assert (F2 : d_msg_hlen da = d_msg_hlen d) by reflexivity.
  assert (F3 : d_msg_len da = d_msg_len d + h_plen h) by reflexivity.
  assert (F4 : d_masked da = d_masked d) by reflexivity.
  assert (F5 : d_size da = d_size d) by reflexivity.
  assert (F6 : d_msg da = true) by exact Hm. clearbody da.
  destruct (seal_wf true da hl d1 Hda F6 Es) as (V0 & (_ & V1 & _) & _ & _ & _ & V5 & _).
  assert (Hhl : hl = 10).
  { rewrite V0, F3, F4, Hmk. unfold header_len. rewrite (proj2 (Z.ltb_ge _ _)), (proj2 (Z.leb_gt _ _)) by lia. done. }
  assert (Hl' : d_last d' = d_last d + 4) by lia. assert (Hs' : d_size d' = d_size d) by congruence.
  split; [lia|]. unfold recv_size. rewrite Hl', Hs'.
  assert (Hu : u64 (d_size d - (d_last d + 4)) = 2 ^ 64 + (d_size d - (d_last d + 4))).
  { unfold u64. symmetry. apply (Z.mod_unique_pos _ _ (-1)); lia. }
  rewrite Hu. unfold NGX_HTTP_WAF_FRAME_SLACK. case_match; lia.
Qed.

End overrun.

(** ** A control frame that does not fit behind the held message *)

Section stall.
Context (cf : fconf) (route_hash : Z).
Context (deny_entry : Handler.req -> option (bool * Z * bytes)) (reply_marks : Handler.req -> Z -> bool)
  (reason_of : Handler.req -> bytes).
Abbreviation pump := (ngx_http_waf_frame_pump cf route_hash deny_entry reply_marks reason_of).

Lemma on_d_id s f x : f (dir s x) = dir s x -> on_d s f x = x.
Proof. destruct x as [fc ? ? ? ? ? ? ?], fc, s; unfold dir, dir_of, on_d, on_fc, on_dir; cbn; by intros ->. Qed.

Lemma parse_waits s fuel x :
  parse_turn cf (journal_set x) x.(s_env).(e_clock) (dir s x) = (PAgain, dir s x) ->
  ngx_http_waf_frame_parse cf route_hash deny_entry reply_marks reason_of fuel s x = Some (NGX_AGAIN, x).
Proof.
  intros E. unfold ngx_http_waf_frame_parse. destruct (parse_fuel (dir s x)) as [|k] eqn:Ek.
  - unfold parse_fuel in Ek. lia.
  - cbn [parse_loop]. rewrite E. by rewrite on_d_id.
Qed.

(** A control frame that does not fit in the buffer behind a message that
    is being put together stops the connection: the parser waits for the rest
    of the frame, the buffer has no room to receive it, and every run of the
    pump leaves the session as it is, whatever the peer has to send. *)
Theorem control_frame_stalls s x h n fuel :
  dir_wf (dir s x) -> frame_at (dir s x) h -> 8 <= h.(h_opcode) -> bad_control h = false ->
  avail_of (dir s x) < frame_len h -> recv_size (dir s x) = 0 ->
  (dir s x).(d_pos) = 0 -> (dir s x).(d_cleared) = 0 -> (dir s x).(d_drop) = 0 -> (dir s x).(d_out) = None ->
  x.(s_fc).(fc_cur) = None -> x.(s_fc).(fc_closing) = false ->
  pump (S n) fuel s x = Some x.
Proof.
  intros Hd Hf Hop Hb Hav Hrs Hp Hc Hdr Hout Hcur Hcl. cbn [ngx_http_waf_frame_pump].
  assert (Ht : parse_turn cf (journal_set x) x.(s_env).(e_clock) (dir s x) = (PAgain, dir s x)).
  { rewrite (parse_turn_at cf _ _ (dir s x) h Hd Hf), (proj2 (Z.leb_le _ _) Hop), Hb.
    by rewrite (frame_len_u64 (dir s x) h Hd Hf), (proj2 (Z.ltb_lt _ _) Hav). }
  unfold pump_turn. rewrite Hcur, Hdr. unfold out_pending. rewrite Hout. cbn [orb andb negb Z.eqb].
  rewrite parse_waits by done. rewrite Hcl. cbn [andb].
  unfold send_cleared. rewrite Hc, Hp. change (0 - 0 =? 0) with true. cbn match.
  rewrite (on_d_id s drop_original) by (unfold drop_original; by rewrite Hdr).
  unfold send_rewritten. rewrite Hout.
  rewrite (on_d_id s) by (unfold compact; by rewrite Hp, !andb_false_r).
  unfold receive. rewrite Hrs. cbn [Z.eqb rc_ok andb]. done.
Qed.

End stall.

End WsLimits.
