(* ===== verification/WsWitness.v ===== *)
(** Concrete sessions: the theorems on WebSocket frames applied to buffers and
    events that meet their hypotheses, and one run that inspects a refused
    frame twice. *)
From stdpp Require Import relations.
From S2P Require Import Prelude Types Masks Sha256 FrameCache Slots Graph Verdict Breaker Handler WsFrame.
From S2P Require Import WsMem WsFrameFacts WsRoom WsSession WsSessionFacts WsEvents WsRefine WsQuiet WsEnds WsVerdict WsLimits.
#[local] Open Scope Z_scope.

Module WsWitness.
Import Masks Verdict Handler WsFrame WsMem WsFrameFacts WsRoom WsSession WsSessionFacts WsEvents WsRefine WsQuiet WsEnds WsVerdict
  WsLimits.

Definition demo_cf (limit rate : Z) : fconf :=
  mkFconf true (fun _ => true) (fun _ => limit) (fun _ => POLICY_BLOCK) true rate AUDIT_FRAMES_OFF 1
    (fun _ => 0) (fun _ => false) (fun _ => POLICY_BLOCK) false.

(** A text frame of a client, "hi" under the key 1 2 3 4. *)
Definition hi_frame : bytes := [129; 130; 1; 2; 3; 4; 105; 107].

Definition demo_fresh (limit : Z) (s : side) : option bytes :=
  Some (replicate (Z.to_nat (Z.max 4096 (limit + 36))) 0).
Definition demo_seed (s : side) : bytes := match s with C2S => hi_frame | S2C => [] end.

Definition demo_env (handler : list hres) : env :=
  mkEnv 1000 [] handler [] (fun _ => []) (fun _ => []).
Definition demo_sess (handler : list hres) : sess :=
  mkSess (ngx_http_waf_frame_attach (demo_cf 1000 0) SET_NONE (demo_fresh 1000) demo_seed).2
    req0 None (demo_env handler) (fun _ => []) (fun _ => false) false None.

Definition no_entry (q : req) : option (bool * Z * bytes) := None.
Definition no_marks (q : req) (i : Z) : bool := false.
Definition no_reason (q : req) : bytes := [].

(** The request when the verdict on the frame is deny. *)
Definition denied_req : req :=
  req0 <| q_ctx := on_ph (fun p => p <| ph_verdict := V_DENY |>) (ctx0 PHASE_FRAME_C2S) |>.

Abbreviation demo_handle := (handle_all (demo_cf 1000 0) 7 no_entry no_marks no_reason).
Definition demo_answers : list hres :=
  [HRet (RC NGX_DONE) (req0 <| q_ctx := ctx0 PHASE_FRAME_C2S |>); HFinish FINISH_APPLY denied_req;
   HRet (RC NGX_DONE) (req0 <| q_ctx := ctx0 PHASE_FRAME_C2S |>)].
Definition demo_events : list event := [EvProcess None true C2S; EvResume true].

(** A frame that is refused after its verdict was waited for is parsed
    and handed to the inspection a second time before the session ends: of one
    frame two inspections are counted, and the answers of the handler are
    drawn three times. *)
Theorem refused_frame_inspected_again :
  match demo_handle 5 5 demo_events (demo_sess demo_answers) with
  | Some x => x.(s_gone) = true /\ x.(s_fc).(fc_close_code) = NGX_HTTP_WAF_WS_CLOSE_POLICY /\
      (dir C2S x).(d_denied) = 1 /\ (dir C2S x).(d_inspected) = 2 /\ (dir C2S x).(d_seq) = 2 /\
      x.(s_env).(e_handler) = [] /\ x.(s_out) C2S = []
  | None => False
  end.
Proof. vm_compute. by split_and!. Qed.

(** ** Applications *)

Lemma demo_limit_fits : forall p, 0 <= (demo_cf 1000 0).(wc_body_limit) p < 2 ^ 63.
Proof. intros p. cbn. lia. Qed.

Lemma is_bytes_zeros n : is_bytes (replicate n 0).
Proof. apply Forall_replicate. unfold is_u8. lia. Qed.
Lemma hi_frame_bytes : is_bytes hi_frame.
Proof. repeat (constructor; [unfold is_u8; lia|]). constructor. Qed.

Lemma demo_fresh_ok : fresh_ok (demo_cf 1000 0) SET_NONE (demo_fresh 1000) demo_seed.
Proof.
  intros s mem E. unfold demo_fresh in E. apply Some_inj in E. subst mem.
  split; [apply is_bytes_zeros|]. unfold zlen. rewrite length_replicate. by destruct s.
Qed.
Lemma demo_seed_bytes s : is_bytes (demo_seed s).
Proof. destruct s; [apply hi_frame_bytes|constructor]. Qed.

Lemma demo_sound handler : sound (demo_cf 1000 0) (demo_sess handler).
Proof.
  eapply (attach_sound (demo_cf 1000 0) SET_NONE (demo_fresh 1000) demo_seed (demo_sess handler));
    [|reflexivity|apply demo_fresh_ok|apply demo_seed_bytes|cbn; lia].
  by vm_compute.
Qed.

Lemma frame_buffers_in_bounds_witness :
  match demo_handle (Z.to_nat 5000) 5 demo_events (demo_sess demo_answers) with
  | Some x => forall s, in_bounds (dir s x)
  | None => False
  end.
Proof.
  assert (He : enough (Z.to_nat 5000) (demo_sess demo_answers)) by (intros []; by vm_compute).
  pose proof (frame_buffers_in_bounds (demo_cf 1000 0) 7 no_entry no_marks no_reason demo_limit_fits SET_NONE
    (demo_fresh 1000) demo_seed (demo_sess demo_answers).(s_fc) (demo_sess demo_answers) (Z.to_nat 5000) 5 demo_events
    ltac:(by vm_compute) eq_refl demo_fresh_ok demo_seed_bytes ltac:(cbn; lia) He) as H.
  destruct (demo_handle (Z.to_nat 5000) 5 demo_events (demo_sess demo_answers)) as [x|] eqn:E; [exact H|].
  by vm_compute in E.
Defined.

Definition demo_d : dir_t := dir C2S (demo_sess []).
Lemma demo_d_wf : dir_wf demo_d.
Proof. apply (rm_wf (demo_cf 1000 0)), (proj1 (demo_sound [])). Qed.

Lemma demo_d_lengths d' h :
  rtc (goes_on (demo_cf 1000 0) SET_NONE 1000) demo_d d' -> frame_at d' h -> frame_len h < 2 ^ 63.
Proof.
  intros Hr [_ Hh _ _]. inversion Hr as [|y z w Hg]; subst.
  - vm_compute in Hh. injection Hh as <-. by vm_compute.
  - unfold goes_on in Hg. exfalso. assert (K : match (parse_turn (demo_cf 1000 0) SET_NONE 1000 demo_d).1 with
      | PContinue => False | _ => True end) by (by vm_compute). by rewrite Hg in K.
Qed.

Lemma frame_parser_refines_witness :
  exists o d', parse_loop (parse_fuel demo_d) (demo_cf 1000 0) SET_NONE 1000 demo_d = Some (o, d') /\
    arun (demo_cf 1000 0) demo_d.(d_mode) demo_d.(d_phase) demo_d.(d_masked) (abs demo_d)
      (cleared_since demo_d d') (out_of o d') (abs d') /\
    keeps_below demo_d.(d_mem) d'.(d_mem) demo_d.(d_cleared).
Proof.
  apply (frame_parser_refines (demo_cf 1000 0) SET_NONE 1000 demo_d);
    [apply demo_d_wf|by vm_compute|apply demo_d_lengths].
Defined.

(** The session with the frame under inspection. *)
Definition waiting_sess : sess :=
  default (demo_sess []) (demo_handle 5 5 [EvProcess None true C2S] (demo_sess demo_answers)).

Lemma frame_verdict_gate_witness :
  exists rc x1, ngx_http_waf_frame_finish no_entry no_reason FINISH_FAIL waiting_sess = (rc, x1) /\
    let x2 := ngx_http_waf_frame_apply (demo_cf 1000 0) 7 no_entry no_marks no_reason rc x1 in
    closing x2 = true /\ code x2 <> 0 /\ dir C2S x2 = (dir C2S waiting_sess) <| d_denied ::= inc |>.
Proof.
  destruct (ngx_http_waf_frame_finish no_entry no_reason FINISH_FAIL waiting_sess) as [rc x1] eqn:E.
  exists rc, x1. split; [done|].
  assert (H1 : cur waiting_sess = Some C2S) by (by vm_compute).
  assert (H2 : closing waiting_sess = false) by (by vm_compute).
  exact (proj1 (frame_verdict_gate (demo_cf 1000 0) 7 no_entry no_marks no_reason FINISH_FAIL C2S waiting_sess rc x1
    H1 H2 E) eq_refl).
Defined.

Lemma closing_turn_sends_nothing_witness :
  exists x', WsSession.pump_turn (demo_cf 1000 0) 7 no_entry no_marks no_reason 5 C2S
      (demo_sess [HFinish FINISH_FAIL denied_req]) = Some (false, x') /\
    closing x' = true /\ x'.(s_out) = (demo_sess [HFinish FINISH_FAIL denied_req]).(s_out).
Proof.
  set (x := demo_sess [HFinish FINISH_FAIL denied_req]).
  destruct (WsSession.pump_turn (demo_cf 1000 0) 7 no_entry no_marks no_reason 5 C2S x) as [[b x']|] eqn:E;
    [|by vm_compute in E].
  assert (Hc : match WsSession.pump_turn (demo_cf 1000 0) 7 no_entry no_marks no_reason 5 C2S x with
    Some (_, x') => code x' <> 0 | None => False end) by (by vm_compute). rewrite E in Hc.
  destruct (closing_turn_sends_nothing (demo_cf 1000 0) 7 no_entry no_marks no_reason 5 C2S x b x')
    as (-> & H1 & H2); [done|exact E|exact Hc|].
  exists x'. split; [reflexivity|]. split; [exact H1|exact H2].
Defined.

Lemma control_rate_bound_witness :
  1000 * (ctrl_run (demo_cf 1000 2000) [1000; 1000; 1000; 1500; 1500] dir0).1 <= 2000 + 2000 * (1500 - 1000) / 1000.
Proof.
  destruct (ctrl_run (demo_cf 1000 2000) [1000; 1000; 1000; 1500; 1500] dir0) as [n d'] eqn:E.
  apply (control_rate_bound (demo_cf 1000 2000) 1000 [1000; 1000; 1500; 1500] 1500 dir0 n d');
    [cbn; lia|lia|lia|done|cbn; lia|exact E].
Defined.

(** A stand-in for [ngx_atoi] that knows one number. *)
Definition atoi30 (s : bytes) : option Z := if bytes_eqb s (lit "30") then Some 30 else None.

Lemma slow_control_rate_drops_all_witness : (ctrl_run (demo_cf 1000 500) [1000; 61000; 3600000] dir0).1 = 0.
Proof.
  destruct (ctrl_run (demo_cf 1000 500) [1000; 61000; 3600000] dir0) as [n d'] eqn:E.
  apply (slow_control_rate_drops_all (demo_cf 1000 500) atoi30 1000 [61000; 3600000] 3600000 dir0 n d');
    [done|done|lia|lia|done|cbn; lia|exact E].
Defined.

Lemma frame_roundtrip_witness :
  let s := frame_of true 1 (Some [1; 2; 3; 4]) [104; 105] ++ [129] in
  let h := header_of true 1 (Some [1; 2; 3; 4]) 2 in
  parse_header s 0 (zlen s) = Some h /\ text_of h s = [104; 105] /\ rest (frame_len h) s = [129].
Proof. apply (frame_roundtrip true 1 (Some [1; 2; 3; 4]) [104; 105] [129]); [lia|done|done]. Defined.

(** A server's frame of 2^63 - 1 bytes in a direction that passes. *)
Definition endless_d : dir_t :=
  dir0 <| d_phase := PHASE_FRAME_S2C |> <| d_mode := FRAME_PASS |>
       <| d_mem := [130; 127; 127; 255; 255; 255; 255; 255; 255; 255] |> <| d_size := 16384 |> <| d_last := 10 |>.
Definition endless_h : hdr := mkHdr true 0 2 false 10 (2 ^ 63 - 1).

Lemma zero_key : is_bytes [0; 0; 0; 0] /\ zlen [0; 0; 0; 0] = 4.
Proof. split; [|done]. repeat (constructor; [unfold is_u8; lia|]). constructor. Qed.
Lemma endless_d_wf : dir_wf endless_d.
Proof.
  split; try (cbn; lia || done).
  - repeat (constructor; [unfold is_u8; lia|]). constructor.
  - apply zero_key.
Qed.

Lemma endless_frame_hangs_witness : parse_loop 1000 (demo_cf 1000 0) SET_NONE 7 endless_d = None.
Proof.
  apply (endless_frame_hangs (demo_cf 1000 0) SET_NONE 7 endless_d endless_h 1000); [apply endless_d_wf|].
  split; [split; [done|by vm_compute|done|done]|done|done|done|by left|by left].
Defined.

(** A frame of five bytes of which three have come. *)
Definition partial_d : dir_t :=
  dir0 <| d_phase := PHASE_FRAME_S2C |> <| d_mem := [129; 5; 104; 105; 33] |> <| d_size := 4096 |> <| d_last := 5 |>.
Lemma partial_d_wf : dir_wf partial_d.
Proof.
  split; try (cbn; lia || done).
  - repeat (constructor; [unfold is_u8; lia|]). constructor.
  - apply zero_key.
Qed.

Lemma waiting_parser_has_room_witness :
  partial_d.(d_last) - partial_d.(d_cleared) < partial_d.(d_size) - NGX_HTTP_WAF_FRAME_SLACK.
Proof.
  apply (waiting_parser_has_room (demo_cf 1000 0) SET_NONE 7 demo_limit_fits partial_d partial_d);
    [apply partial_d_wf|done|by exists 0| |by vm_compute].
  intros h [_ Hh _ _] Hop. vm_compute in Hh. injection Hh as <-. cbn in Hop. lia.
Defined.

(** ** A buffer at its end *)

(** A fragment of 125 bytes, one of 65535 and thirty bytes more fill the
    buffer of a limit of 65660 bytes. *)
Definition zeros (n : Z) : bytes := replicate (Z.to_nat n) 0.
Lemma zlen_zeros n : 0 <= n -> zlen (zeros n) = n.
Proof. intros. unfold zlen, zeros. rewrite length_replicate. lia. Qed.

Definition full_mem : bytes := [1; 125] ++ zeros 125 ++ [128; 126; 255; 255] ++ zeros 65565.
Definition full_d : dir_t :=
  dir0 <| d_phase := PHASE_FRAME_S2C |> <| d_mem := full_mem |> <| d_size := 65696 |> <| d_last := 65696 |>
       <| d_msg := true |> <| d_msg_opcode := 1 |> <| d_msg_hlen := 2 |> <| d_msg_len := 125 |> <| d_msg_fragments := 1 |>.
Definition full_h : hdr := mkHdr true 0 0 false 4 65535.

Lemma full_mem_len : zlen full_mem = 65696.
Proof. unfold full_mem. rewrite !zlen_app, !zlen_zeros by lia. done. Qed.
Lemma full_mem_bytes : is_bytes full_mem.
Proof.
  unfold full_mem. rewrite !is_bytes_app. split_and!; try apply is_bytes_zeros;
    (repeat (constructor; [unfold is_u8; lia|]); constructor).
Qed.
Lemma full_d_wf : dir_wf full_d.
Proof.
  split; [| |done|done|apply full_mem_bytes|apply zero_key|].
  - change (0 <= 0 <= 0). lia.
  - change (127 <= 65696 <= zlen full_mem). rewrite full_mem_len. lia.
  - change (0 <= 1 < 16). lia.
Qed.
Lemma full_mem_header n : 4 <= n -> parse_header full_mem 127 n = Some full_h.
Proof.
  intros Hn. unfold parse_header. rewrite (proj2 (Z.ltb_ge _ _)) by lia.
  assert (E0 : aget 0 full_mem 127 = 128) by reflexivity.
  assert (E1 : aget 0 full_mem (127 + 1) = 126) by reflexivity.
  assert (E2 : aget 0 full_mem (127 + 2) = 255) by reflexivity.
  assert (E3 : aget 0 full_mem (127 + 3) = 255) by reflexivity.
  rewrite E0, E1. change (hdr_len 126) with 4. rewrite (proj2 (Z.ltb_ge _ _)) by lia.
  unfold hdr_plen. change (Z.land 126 127 =? 126) with true. cbv iota. by rewrite E2, E3.
Qed.
Lemma full_d_taken : taken (demo_cf 65660 0) full_d full_h.
Proof.
  split; [|done..]. split; [done| |done|done].
  change (parse_header full_mem 127 (65696 - 127) = Some full_h). by apply full_mem_header.
Qed.

Lemma unmasked_message_overruns_witness :
  exists o d', parse_turn (demo_cf 65660 0) SET_NONE 7 full_d = (o, d') /\ d'.(d_size) < d'.(d_last) /\
    2 ^ 63 < recv_size d'.
Proof.
  apply (unmasked_message_overruns (demo_cf 65660 0) SET_NONE 7 full_d full_h);
    [apply full_d_wf|apply full_d_taken|done|done|done|done|done|done|done|cbn; lia|cbn; lia].
Defined.

(** A fragment of 4000 bytes under a limit of 4060, and the start of a ping of
    125 bytes, up to the slack of the buffer. *)
Definition stall_d : dir_t :=
  dir0 <| d_phase := PHASE_FRAME_S2C |> <| d_size := 4096 |> <| d_last := 4088 |>
       <| d_mem := [1; 126; 15; 160] ++ zeros 4000 ++ [137; 125] ++ zeros 90 |>
       <| d_msg := true |> <| d_msg_opcode := 1 |> <| d_msg_hlen := 4 |> <| d_msg_len := 4000 |> <| d_msg_fragments := 1 |>.
Definition stall_sess : sess :=
  (demo_sess []) <| s_fc := fc0 <| fc_s2c := stall_d |> |>.
Definition stall_h : hdr := mkHdr true 0 9 false 2 125.

Lemma stall_d_wf : dir_wf stall_d.
Proof.
  split; [| |done|done| |apply zero_key|].
  - change (0 <= 0 <= 0). lia.
  - change (4004 <= 4088 <= zlen (d_mem stall_d)). cbn [stall_d d_mem upd]. rewrite !zlen_app, !zlen_zeros by lia.
    change (zlen [1; 126; 15; 160]) with 4. change (zlen [137; 125]) with 2. lia.
  - cbn [stall_d d_mem upd]. rewrite !is_bytes_app. split_and!; try apply is_bytes_zeros;
      (repeat (constructor; [unfold is_u8; lia|]); constructor).
  - change (0 <= 1 < 16). lia.
Qed.

Lemma control_frame_stalls_witness :
  ngx_http_waf_frame_pump (demo_cf 4060 0) 7 no_entry no_marks no_reason 1 5 S2C stall_sess = Some stall_sess.
Proof.
  apply (control_frame_stalls (demo_cf 4060 0) 7 no_entry no_marks no_reason S2C stall_sess stall_h 0 5);
    [apply stall_d_wf| |done|done|done|done|done|done|done|done|done|done].
  split; [done| |done|done]. by vm_compute.
Defined.

End WsWitness.
