(* ===== verification/DsSet.v ===== *)
(** The immutable sets of the local datasets (local/ngx_http_waf_dataset.c):
    an array of address ranges with the running maximum of their ends, and an
    open-addressing table over length-prefixed strings; how a configuration's
    entries become one, and how a value is looked up in it. *)
From S2P Require Import Prelude Types.
#[local] Open Scope Z_scope.

Module DsSet.

Definition NGX_HTTP_WAF_DS_ENTRY_MAX : Z := 4096.

Inductive ds_type_e := DS_CIDR | DS_STRING.
#[export] Instance ds_type_e_eq_dec : EqDecision ds_type_e.
Proof. solve_decision. Defined.

(** ** Ranges *)

Record ds_r4 := mkR4 { r4_start : Z; r4_end : Z }.
Record ds_r6 := mkR6 { r6_start : bytes; r6_end : bytes }.

(** [memcmp] over the whole of two areas of one size: the difference of the
    first bytes that differ. *)
Fixpoint memcmp (a b : bytes) : Z :=
  match a, b with
  | x :: a, y :: b => if x =? y then memcmp a b else x - y
  | _, _ => 0
  end.

Definition ngx_http_waf_ds_cmp_r4 (x y : ds_r4) : Z :=
  if negb (x.(r4_start) =? y.(r4_start)) then (if x.(r4_start) <? y.(r4_start) then -1 else 1)
  else if negb (x.(r4_end) =? y.(r4_end)) then (if y.(r4_end) <? x.(r4_end) then -1 else 1)
  else 0.

Definition ngx_http_waf_ds_cmp_r6 (x y : ds_r6) : Z :=
  let rc := memcmp x.(r6_start) y.(r6_start) in
  if negb (rc =? 0) then rc else - memcmp x.(r6_end) y.(r6_end).

(** What [ngx_ptocidr] leaves in an [ngx_cidr_t]: the bytes of the address
    and of the mask in network order, by family. *)
Inductive cidr_t :=
  | In4 (addr mask : bytes)
  | In6 (addr mask : bytes)
  | InOther.

(** The 32-bit number in network order at [p]. *)
Definition get_be32 (p : bytes) : Z :=
  Z.lor (Z.lor (Z.shiftl (aget 0 p 0) 24) (Z.shiftl (aget 0 p 1) 16))
        (Z.lor (Z.shiftl (aget 0 p 2) 8) (aget 0 p 3)).
Definition bnot32 (x : Z) : Z := Z.lxor x (Z.ones 32).
Definition bnot8 (x : Z) : Z := Z.lxor x (Z.ones 8).

(** An IPv4 address written as an IPv6 one, under a mask of 96 bits or more. *)
Definition mapped_cidr (a m : bytes) : bool :=
  (aget 0 a 10 =? 255) && (aget 0 a 11 =? 255) && (aget 0 m 10 =? 255) && (aget 0 m 11 =? 255)
  && for_range 10 (fun i ok => ok && ((aget 0 a i =? 0) && (aget 0 m i =? 255))) true.

Definition net4 (a m : bytes) : ds_r4 := mkR4 (get_be32 a) (Z.lor (get_be32 a) (bnot32 (get_be32 m))).
Definition net6 (a m : bytes) : ds_r6 := mkR6 a (zip_with (fun x y => Z.lor x (bnot8 y)) a m).

Section build.
Context (ptocidr : bytes -> option cidr_t).

(** [ngx_http_waf_ds_entry_cidr]: the arrays with the entry pushed, or an
    error; [None] of [ptocidr] is any result but [NGX_OK] and [NGX_DONE]. *)
Definition ngx_http_waf_ds_entry_cidr (text : bytes) (mem : alloc_stream)
    (r4 : list ds_r4) (r6 : list ds_r6) : ngx_rc * alloc_stream * list ds_r4 * list ds_r6 :=
  match ptocidr text with
  | None => (NGX_ERROR, mem, r4, r6)
  | Some InOther => (NGX_ERROR, mem, r4, r6)
  | Some (In6 a m) =>
      let '(ok, mem) := alloc mem in
      if mapped_cidr a m then
        if ok then (NGX_OK, mem, r4 ++ [net4 (drop 12 a) (drop 12 m)], r6)
        else (NGX_ERROR, mem, r4, r6)
      else if ok then (NGX_OK, mem, r4, r6 ++ [net6 a m]) else (NGX_ERROR, mem, r4, r6)
  | Some (In4 a m) =>
      let '(ok, mem) := alloc mem in
      if ok then (NGX_OK, mem, r4 ++ [net4 a m], r6) else (NGX_ERROR, mem, r4, r6)
  end.

Fixpoint entries_loop (items : list bytes) (mem : alloc_stream) (r4 : list ds_r4) (r6 : list ds_r6)
    : ngx_rc * alloc_stream * list ds_r4 * list ds_r6 :=
  match items with
  | [] => (NGX_OK, mem, r4, r6)
  | text :: items =>
      let '(rc, mem, r4, r6) := ngx_http_waf_ds_entry_cidr text mem r4 r6 in
      if rc_ok rc then entries_loop items mem r4 r6 else (NGX_ERROR, mem, r4, r6)
  end.

(** *** Sorting *)

(** [qsort cmp]: the C library's. *)
Context (qsort : forall {A : Type}, (A -> A -> Z) -> list A -> list A).

(** The elements after the one kept last, [elts[n - 1]]. *)
Fixpoint uniq_loop {A} (cmp : A -> A -> Z) (kept : A) (rest : list A) : list A :=
  match rest with
  | [] => []
  | e :: rest => if cmp kept e =? 0 then uniq_loop cmp kept rest else e :: uniq_loop cmp e rest
  end.
Definition ngx_http_waf_ds_sort_uniq {A} (cmp : A -> A -> Z) (a : list A) : list A :=
  if zlen a <? 2 then a
  else match qsort A cmp a with
       | [] => []
       | e :: rest => e :: uniq_loop cmp e rest
       end.

(** *** The set of ranges *)

(** [n4], [n6] are the lengths of the arrays. *)
Record cidr_set := mkCidrSet {
  v4_start : list Z;
  v4_cover : list Z;
  v6_start : list bytes;
  v6_cover : list bytes
}.

Fixpoint cover4 (first : bool) (cover : Z) (e4 : list ds_r4) : list Z :=
  match e4 with
  | [] => []
  | e :: e4 => let cover := if first || (cover <? e.(r4_end)) then e.(r4_end) else cover in
               cover :: cover4 false cover e4
  end.
Fixpoint cover6 (prev : option bytes) (e6 : list ds_r6) : list bytes :=
  match e6 with
  | [] => []
  | e :: e6 => let cover := match prev with
                            | None => e.(r6_end)
                            | Some p => if 0 <? memcmp e.(r6_end) p then e.(r6_end) else p
                            end in
               cover :: cover6 (Some cover) e6
  end.

(** [ok]: the outcome of [ngx_slab_calloc]. *)
Definition ngx_http_waf_ds_build_cidr (ok : bool) (r4 : list ds_r4) (r6 : list ds_r6) : option cidr_set :=
  if negb ok then None
  else Some (mkCidrSet (map r4_start r4) (cover4 true 0 r4) (map r6_start r6) (cover6 None r6)).

(** The number of leading elements that [below] holds of, by bisection. *)
Fixpoint bisect (fuel : nat) (below : Z -> bool) (lo hi : Z) : Z :=
  match fuel with
  | O => lo
  | S fuel =>
      if lo <? hi then
        let mid := lo + (hi - lo) / 2 in
        if below mid then bisect fuel below (mid + 1) hi else bisect fuel below lo mid
      else lo
  end.

Definition ngx_http_waf_ds_lookup_cidr (set : cidr_set) (fam : Z) (addr : bytes) : bool :=
  if fam =? 1 then
    let n6 := zlen set.(v6_start) in
    if n6 =? 0 then false
    else
      let lo := bisect (Z.to_nat n6) (fun mid => memcmp (aget [] set.(v6_start) mid) addr <=? 0) 0 n6 in
      if lo =? 0 then false else 0 <=? memcmp (aget [] set.(v6_cover) (lo - 1)) addr
  else
    let n4 := zlen set.(v4_start) in
    if n4 =? 0 then false
    else
      let a := get_be32 addr in
      let lo := bisect (Z.to_nat n4) (fun mid => aget 0 set.(v4_start) mid <=? a) 0 n4 in
      if lo =? 0 then false else a <=? aget 0 set.(v4_cover) (lo - 1).

(** *** The set of strings *)

Context (crc32_short : bytes -> Z).

(** [table] has [mask + 1] cells, each an offset into [blob] plus one or 0;
    the slab is zeroed, so that [blob] reads 0 beyond what was written. *)
Record str_set := mkStrSet {
  ss_entries : Z;
  ss_mask : Z;
  ss_table : list Z;
  ss_blob : bytes
}.
#[export] Instance eta_str_set : Eta str_set := fun r =>
  mkStrSet r.(ss_entries) r.(ss_mask) r.(ss_table) r.(ss_blob).

(** The [len] bytes at offset [off]. *)
Definition area (s : bytes) (off len : Z) : bytes := map (aget 0 s) (seqZ off len).

(** Whether the entry at a cell's offset is the value. *)
Definition entry_is (set : str_set) (off : Z) (data : bytes) : bool :=
  let entry := off - 1 in
  let elen := Z.shiftl (aget 0 set.(ss_blob) entry) 8 + aget 0 set.(ss_blob) (entry + 1) in
  (elen =? zlen data) && (memcmp (area set.(ss_blob) (entry + 2) (zlen data)) data =? 0).

(** [None]: the loop is still running after [fuel] cells. *)
Fixpoint probe_loop (fuel : nat) (set : str_set) (data : bytes) (i : Z) : option (bool * Z) :=
  match fuel with
  | O => None
  | S fuel =>
      let off := aget 0 set.(ss_table) i in
      if off =? 0 then Some (false, i)
      else if entry_is set off data then Some (true, i)
      else probe_loop fuel set data (Z.land (i + 1) set.(ss_mask))
  end.
Definition ngx_http_waf_ds_str_probe (set : str_set) (data : bytes) : option (bool * Z) :=
  probe_loop (length set.(ss_table)) set data (Z.land (crc32_short data) set.(ss_mask)).

Fixpoint table_size (fuel : nat) (table n : Z) : Z :=
  match fuel with
  | O => table
  | S fuel => if table <? n * 2 then table_size fuel (table * 2) n else table
  end.

Fixpoint blob_length (items : list bytes) (blob_len : Z) : option Z :=
  match items with
  | [] => Some blob_len
  | e :: items => if NGX_HTTP_WAF_DS_ENTRY_MAX <? zlen e then None
                  else blob_length items (blob_len + 2 + zlen e)
  end.

Definition str_add (item : bytes) (set : str_set) : option str_set :=
  let at_ := zlen set.(ss_blob) in
  let set := set <| ss_blob ::= fun b =>
      b ++ [u8 (Z.shiftr (zlen item) 8); u8 (Z.land (zlen item) 255)] ++ item |> in
  '(_, slot) ← ngx_http_waf_ds_str_probe set item;
  Some (set <| ss_table ::= fun t => aset t slot (u32 (u32 at_ + 1)) |>).

Fixpoint str_fill (items : list bytes) (set : str_set) : option str_set :=
  match items with
  | [] => Some set
  | e :: items => set ← str_add e set; str_fill items set
  end.

(** The inner [None] is a set that was not built, the outer one a probe that
    does not end. *)
Definition ngx_http_waf_ds_build_str (ok : bool) (items : list bytes) : option (option str_set) :=
  let n := zlen items in
  let table := table_size (length items) 8 n in
  match blob_length items 0 with
  | None => Some None
  | Some blob_len =>
      if 0xffffffff <=? blob_len then Some None
      else if negb ok then Some None
      else
        let set := mkStrSet 0 (table - 1) (replicate (Z.to_nat table) 0) [] in
        set ← str_fill items set;
        Some (Some (set <| ss_entries := n |>))
  end.

(** *** A dataset's set *)

Context (memn2cmp : bytes -> bytes -> Z).
Definition ngx_http_waf_ds_cmp_str (x y : bytes) : Z := memn2cmp x y.

Inductive ds_set := CidrSet (s : cidr_set) | StrSet (s : str_set).

(** The pool and the arrays are allocated in the order of the code: the pool,
    the arrays, the pushes, the set in the slab.  The result is the code and
    what [*out] is left as; [None]: it does not return. *)
Definition push_all (items : list bytes) (mem : alloc_stream) : bool * alloc_stream :=
  foldl (fun '(ok, mem) (_ : bytes) => if negb ok then (false, mem) else alloc mem) (true, mem) items.

Definition ngx_http_waf_ds_build (type : ds_type_e) (entries : list bytes) (mem : alloc_stream)
    : option (ngx_rc * option ds_set) :=
  if zlen entries =? 0 then Some (NGX_OK, None)
  else
    let '(pool, mem) := alloc mem in
    if negb pool then Some (NGX_ERROR, None)
    else if type ==? DS_CIDR then
      let '(a4, mem) := alloc mem in
      let '(a6, mem) := alloc mem in
      if negb a4 || negb a6 then Some (NGX_ERROR, None)
      else
        let '(rc, mem, r4, r6) := entries_loop entries mem [] [] in
        if negb (rc_ok rc) then Some (NGX_ERROR, None)
        else
          let r4 := ngx_http_waf_ds_sort_uniq ngx_http_waf_ds_cmp_r4 r4 in
          let r6 := ngx_http_waf_ds_sort_uniq ngx_http_waf_ds_cmp_r6 r6 in
          match ngx_http_waf_ds_build_cidr (fst (alloc mem)) r4 r6 with
          | None => Some (NGX_ERROR, None)
          | Some set => Some (NGX_OK, Some (CidrSet set))
          end
    else
      let '(astr, mem) := alloc mem in
      if negb astr then Some (NGX_ERROR, None)
      else
        let '(ok, mem) := push_all entries mem in
        if negb ok then Some (NGX_ERROR, None)
        else
          let str := ngx_http_waf_ds_sort_uniq ngx_http_waf_ds_cmp_str entries in
          set ← ngx_http_waf_ds_build_str (fst (alloc mem)) str;
          match set with
          | None => Some (NGX_ERROR, None)
          | Some set => Some (NGX_OK, Some (StrSet set))
          end.

End build.

(** ** The address of a value *)

Section addr.
(** nginx's [ngx_inet_addr] ([None]: INADDR_NONE; the four bytes in network
    order) and [ngx_inet6_addr]. *)
Context (inet_addr inet6_addr : bytes -> option bytes).

Definition mapped_addr (addr : bytes) : bool :=
  for_range 10 (fun i ok => ok && (aget 0 addr i =? 0)) true
  && (aget 0 addr 10 =? 255) && (aget 0 addr 11 =? 255).

Definition unmap (addr : bytes) : Z * bytes :=
  if mapped_addr addr then (0, take 4 (drop 12 addr)) else (1, addr).

(** The family and the address bytes ([addr[0..4)] for family 0). *)
Definition ngx_http_waf_ds_addr (value : bytes) (binary : bool) : option (Z * bytes) :=
  if binary then
    if zlen value =? 4 then Some (0, value)
    else if zlen value =? 16 then Some (unmap value)
    else None
  else
    match inet_addr value with
    | Some a => Some (0, a)
    | None => unmap <$> inet6_addr value
    end.

End addr.
End DsSet.
