(* ===== verification/DsSetFacts.v ===== *)
(** What the immutable sets promise: a set of ranges contains exactly the
    addresses of its networks, a set of strings exactly its entries, every
    probe of the string table ends, and a set is built whenever the entries
    are valid and there is memory. *)
From Stdlib Require Import Btauto.
From stdpp Require Import sets sorting.
From S2P Require Import Prelude Types DsSet.
Import DsSet.
#[local] Open Scope Z_scope.

Module DsSetFacts.

(** What the code relies on of the C library and of nginx. *)
Definition orders {A} (cmp : A -> A -> Z) (l : list A) : Prop :=
  (forall x y, x ∈ l -> y ∈ l -> (cmp x y <= 0 <-> 0 <= cmp y x)) /\
  (forall x y z, x ∈ l -> y ∈ l -> z ∈ l -> cmp x y <= 0 -> cmp y z <= 0 -> cmp x z <= 0).

Class QSort (qsort : forall A : Type, (A -> A -> Z) -> list A -> list A) := {
  qsort_perm : forall A cmp l, qsort A cmp l ≡ₚ l;
  qsort_sorted : forall A cmp l, orders cmp l -> StronglySorted (fun x y => cmp x y <= 0) (qsort A cmp l)
}.

(** The bytes of the mask of a prefix of [p] bits, as [ngx_ptocidr] writes
    them: byte [i] has its [p - 8 i] high bits set. *)
Definition mask_byte (p i : Z) : Z := 2 ^ 8 - 2 ^ (8 - Z.max 0 (Z.min 8 (p - 8 * i))).
Definition mask_bytes (n p : Z) : bytes := map (mask_byte p) (seqZ 0 n).

Definition network (n : Z) (a m : bytes) : Prop :=
  zlen a = n /\ is_bytes a /\ (exists p, 0 <= p <= 8 * n /\ m = mask_bytes n p) /\ zip_with Z.land a m = a.

Class PtoCidr (ptocidr : bytes -> option cidr_t) := {
  ptocidr_v4 : forall text a m, ptocidr text = Some (In4 a m) -> network 4 a m;
  ptocidr_v6 : forall text a m, ptocidr text = Some (In6 a m) -> network 16 a m
}.

(** ** Big-endian numbers *)

Fixpoint be_val (l : bytes) : Z :=
  match l with [] => 0 | x :: l => x * 2 ^ (8 * zlen l) + be_val l end.

Lemma pow_bytes {A} (l : list A) : 0 < 2 ^ (8 * zlen l).
Proof. apply Z.pow_pos_nonneg; [lia|]. pose proof (zlen_nonneg l). lia. Qed.

Lemma be_val_range l : is_bytes l -> 0 <= be_val l < 2 ^ (8 * zlen l).
Proof.
  induction 1 as [|x l Hx Hl IH]; [done|]. cbn [be_val]. rewrite zlen_cons.
  replace (8 * (1 + zlen l)) with (8 + 8 * zlen l) by lia. pose proof (zlen_nonneg l).
  rewrite Z.pow_add_r by lia. unfold is_u8 in Hx. nia.
Qed.

Lemma memcmp_val a b :
  zlen a = zlen b -> is_bytes a -> is_bytes b -> (memcmp a b ?= 0) = (be_val a ?= be_val b).
Proof.
  intros Hl Ha. revert b Hl. induction Ha as [|x a Hx Ha IH]; intros [|y b] Hl Hb;
    [done|by inversion Hl|by inversion Hl|]. rewrite !zlen_cons in Hl.
  apply Forall_cons in Hb as [Hy Hb]. assert (El : zlen a = zlen b) by lia.
  pose proof (be_val_range a Ha). pose proof (be_val_range b Hb). pose proof (pow_bytes b).
  specialize (IH b El Hb). cbn [memcmp be_val]. rewrite El in *. unfold is_u8 in *.
  destruct (Z.eqb_spec x y) as [->|Hne].
  - rewrite IH. rewrite Z.add_compare_mono_l. done.
  - destruct (Z.lt_total x y) as [Hlt|[|Hgt]]; [|done|].
    + rewrite (proj2 (Z.compare_lt_iff (x - y) 0)) by lia. symmetry. apply Z.compare_lt_iff. nia.
    + rewrite (proj2 (Z.compare_gt_iff (x - y) 0)) by lia. symmetry. apply Z.compare_gt_iff. nia.
Qed.

Lemma memcmp_le a b : zlen a = zlen b -> is_bytes a -> is_bytes b -> (memcmp a b <= 0 <-> be_val a <= be_val b).
Proof. intros. unfold Z.le. by rewrite memcmp_val. Qed.

Lemma memcmp_ge a b : zlen a = zlen b -> is_bytes a -> is_bytes b -> (0 <= memcmp a b <-> be_val b <= be_val a).
Proof.
  intros. rewrite <- (Z.ge_le_iff (memcmp a b)), <- (Z.ge_le_iff (be_val a)). unfold Z.ge. by rewrite memcmp_val.
Qed.

Lemma memcmp_eq a b : zlen a = zlen b -> (memcmp a b = 0 <-> a = b).
Proof.
  revert b. induction a as [|x a IH]; intros [|y b] Hl; cbn [memcmp];
    [done|by inversion Hl|by inversion Hl|]. rewrite !zlen_cons in Hl.
  destruct (Z.eqb_spec x y) as [->|Hne].
  - rewrite IH by lia. split; [by intros ->|by intros [= ->]].
  - split; [lia|]. intros [= ]. done.
Qed.

Lemma bits_above b n i : 0 <= b < 2 ^ n -> 0 <= n <= i -> Z.testbit b i = false.
Proof.
  intros Hb Hi. destruct (Z.eq_dec b 0) as [->|]; [apply Z.bits_0|].
  apply Z.bits_above_log2; [lia|]. assert (Z.log2 b < n) by (apply Z.log2_lt_pow2; lia). lia.
Qed.

Lemma lor_shift a b n : 0 <= n -> 0 <= b < 2 ^ n -> Z.lor (Z.shiftl a n) b = a * 2 ^ n + b.
Proof.
  intros Hn Hb. rewrite Z.shiftl_mul_pow2 by lia.
  assert (Hd : Z.land (a * 2 ^ n) b = 0).
  { apply Z.bits_inj'. intros i Hi. rewrite Z.land_spec, Z.bits_0. destruct (Z.lt_ge_cases i n).
    - by rewrite Z.mul_pow2_bits_low by lia.
    - rewrite (bits_above b n) by lia. apply andb_false_r. }
  by rewrite Z.add_nocarry_lxor, Z.lxor_lor by done.
Qed.

Lemma be32_list a b c d :
  get_be32 [a; b; c; d] = Z.lor (Z.lor (Z.shiftl a 24) (Z.shiftl b 16)) (Z.lor (Z.shiftl c 8) d).
Proof. reflexivity. Qed.

Lemma be32_val p : zlen p = 4 -> is_bytes p -> get_be32 p = be_val p.
Proof.
  intros Hl Hp. destruct p as [|a [|b [|c [|d [|? ?]]]]]; try (unfold zlen in Hl; cbn in Hl; lia).
  unfold is_bytes in Hp. rewrite !Forall_cons in Hp. destruct Hp as (Ha & Hb & Hc & Hd & _). unfold is_u8 in *.
  rewrite be32_list, (lor_shift c d) by lia. rewrite <- Z.lor_assoc, (lor_shift b) by lia. rewrite lor_shift by lia.
  change (be_val [a; b; c; d]) with (a * 2 ^ 24 + (b * 2 ^ 16 + (c * 2 ^ 8 + (d * 2 ^ 0 + 0)))). lia.
Qed.

(** ** Networks *)

(** One byte under a mask of [8 - k] bits. *)
Lemma land_mask x k : 0 <= k <= 8 -> is_u8 x -> Z.land x (2 ^ 8 - 2 ^ k) = 2 ^ k * (x / 2 ^ k).
Proof.
  intros Hk Hx. unfold is_u8 in Hx.
  replace (2 ^ 8 - 2 ^ k) with (Z.shiftl (Z.ones (8 - k)) k).
  2:{ rewrite Z.shiftl_mul_pow2, Z.ones_equiv by lia.
      replace (2 ^ 8) with (2 ^ (8 - k) * 2 ^ k) by (rewrite <- Z.pow_add_r by lia; f_equal; lia). lia. }
  rewrite (Z.mul_comm (2 ^ k)), <- Z.shiftr_div_pow2, <- Z.shiftl_mul_pow2 by lia.
  apply Z.bits_inj'. intros i Hi. rewrite Z.land_spec, !Z.shiftl_spec by lia.
  destruct (Z.lt_ge_cases i k).
  - rewrite !(Z.testbit_neg_r _ (i - k)) by lia. apply andb_false_r.
  - rewrite Z.shiftr_spec by lia. replace (i - k + k) with i by lia. rewrite Z.testbit_ones_nonneg by lia.
    destruct (Z.ltb_spec (i - k) (8 - k)); [apply andb_true_r|]. rewrite (bits_above x 8) by lia. done.
Qed.

Lemma bnot8_mask k : 0 <= k <= 8 -> bnot8 (2 ^ 8 - 2 ^ k) = 2 ^ k - 1.
Proof.
  intros Hk. assert (H : k = 0 \/ k = 1 \/ k = 2 \/ k = 3 \/ k = 4 \/ k = 5 \/ k = 6 \/ k = 7 \/ k = 8) by lia.
  by repeat (destruct H as [->|H]; [reflexivity|]); subst.
Qed.

Lemma lor_host a k : 0 <= k -> a mod 2 ^ k = 0 -> Z.lor a (2 ^ k - 1) = a + (2 ^ k - 1).
Proof.
  intros Hk Ha. assert (0 < 2 ^ k) by (apply Z.pow_pos_nonneg; lia).
  rewrite (Z.div_mod a (2 ^ k)) at 1 by lia. rewrite Ha, Z.add_0_r, (Z.mul_comm (2 ^ k)), <- Z.shiftl_mul_pow2 by lia.
  rewrite lor_shift by lia. rewrite (Z.div_mod a (2 ^ k)) at 2 by lia. lia.
Qed.

Lemma byte_net s a x :
  0 <= s <= 8 -> is_u8 a -> is_u8 x -> Z.land a (2 ^ 8 - 2 ^ (8 - s)) = a ->
  let e := Z.lor a (bnot8 (2 ^ 8 - 2 ^ (8 - s))) in
  (Z.land x (2 ^ 8 - 2 ^ (8 - s)) = a <-> a <= x <= e) /\ is_u8 e.
Proof.
  intros Hs Ha Hx Hm e. subst e. rewrite bnot8_mask by lia. rewrite !land_mask in * by (done || lia).
  set (k := 8 - s) in *. assert (0 < 2 ^ k) by (apply Z.pow_pos_nonneg; lia).
  assert (H0 : a mod 2 ^ k = 0) by (rewrite Z.mod_eq by lia; lia).
  rewrite lor_host by (done || lia). unfold is_u8 in *.
  assert (H8 : 2 ^ 8 = 2 ^ (8 - k) * 2 ^ k) by (rewrite <- Z.pow_add_r by lia; f_equal; lia).
  pose proof (Z.div_mod x (2 ^ k)) as Hd. pose proof (Z.mod_pos_bound x (2 ^ k)) as Hb.
  set (q := a / 2 ^ k) in *. set (r := x / 2 ^ k) in *. set (b := 2 ^ k) in *. set (c := 2 ^ (8 - k)) in *.
  assert (q < c) by nia. split; [|nia]. split; [nia|]. intros Hax. assert (r = q) by nia. nia.
Qed.

Lemma mask_bytes_cons n p : 0 <= n -> mask_bytes (1 + n) p = mask_byte p 0 :: mask_bytes n (p - 8).
Proof.
  intros Hn. unfold mask_bytes. rewrite seqZ_cons by lia. cbn [map]. f_equal.
  replace (Z.pred (1 + n)) with n by lia.
  replace (seqZ (Z.succ 0) n) with (Z.add 1 <$> seqZ 0 n) by (rewrite fmap_add_seqZ; done).
  change (map (mask_byte p) (Z.add 1 <$> seqZ 0 n)) with (mask_byte p <$> (Z.add 1 <$> seqZ 0 n)).
  rewrite <- list_fmap_compose.
  apply list_fmap_ext. intros i x _. cbn. unfold mask_byte. do 5 f_equal. lia.
Qed.

Lemma zlen_zip {A B C} (f : A -> B -> C) l k : zlen l = zlen k -> zlen (zip_with f l k) = zlen l.
Proof. unfold zlen. intros H. rewrite length_zip_with. lia. Qed.
Lemma zlen_mask n p : 0 <= n -> zlen (mask_bytes n p) = n.
Proof. intros. unfold zlen, mask_bytes. rewrite length_map, length_seqZ. lia. Qed.

Abbreviation host_end a m := (zip_with (fun x y => Z.lor x (bnot8 y)) a m).

(** Below a mask that has ended everything matches. *)
Lemma net_any a p x :
  p <= 0 -> zlen x = zlen a -> is_bytes a -> is_bytes x -> zip_with Z.land a (mask_bytes (zlen a) p) = a ->
  zip_with Z.land x (mask_bytes (zlen a) p) = a /\ be_val a = 0 /\
  is_bytes (host_end a (mask_bytes (zlen a) p)) /\
  be_val (host_end a (mask_bytes (zlen a) p)) = 2 ^ (8 * zlen a) - 1.
Proof.
  intros Hp Hl Ha. revert p x Hp Hl. induction Ha as [|a0 a Ha0 Ha IH]; intros p x Hp Hl Hx Hm.
  { destruct x; [|by inversion Hl]. by repeat split. }
  destruct x as [|x0 x]; [by inversion Hl|]. apply Forall_cons in Hx as [Hx0 Hx]. rewrite !zlen_cons in *.
  pose proof (zlen_nonneg a). rewrite mask_bytes_cons in * by lia. cbn [zip_with] in *.
  apply (inj2 cons) in Hm as [Hm0 Hm].
  assert (E0 : mask_byte p 0 = 0).
  { unfold mask_byte. by replace (Z.max 0 (Z.min 8 (p - 8 * 0))) with 0 by lia. }
  rewrite E0, Z.land_0_r in *. subst a0.
  destruct (IH (p - 8) x) as (I1 & I2 & I3 & I4); [lia|lia|done|done|].
  rewrite I1. cbn [be_val]. rewrite I2, I4, zlen_zip by (by rewrite zlen_mask).
  assert (El : Z.lor 0 (bnot8 0) = 255) by reflexivity. rewrite El.
  split_and!; [done|lia|by constructor|].
  replace (8 * (1 + zlen a)) with (8 + 8 * zlen a) by lia. rewrite Z.pow_add_r by lia. lia.
Qed.

Lemma net_range a p x :
  zlen x = zlen a -> is_bytes a -> is_bytes x -> zip_with Z.land a (mask_bytes (zlen a) p) = a ->
  is_bytes (host_end a (mask_bytes (zlen a) p)) /\
  (zip_with Z.land x (mask_bytes (zlen a) p) = a <->
   be_val a <= be_val x <= be_val (host_end a (mask_bytes (zlen a) p))).
Proof.
  intros Hl Ha. revert p x Hl. induction Ha as [|a0 a Ha0 Ha IH]; intros p x Hl Hx Hm.
  { destruct x; [|by inversion Hl]. by repeat split. }
  destruct x as [|x0 x]; [by inversion Hl|]. apply Forall_cons in Hx as [Hx0 Hx]. rewrite !zlen_cons in *.
  assert (El : zlen x = zlen a) by lia.
  pose proof (zlen_nonneg a). rewrite mask_bytes_cons in * by lia. cbn [zip_with] in *.
  apply (inj2 cons) in Hm as [Hm0 Hm]. unfold mask_byte in *. rewrite Z.mul_0_r, Z.sub_0_r in *.
  set (s := Z.max 0 (Z.min 8 p)) in *. assert (Hs : 0 <= s <= 8) by lia.
  destruct (byte_net s a0 x0 Hs Ha0 Hx0 Hm0) as [Hb He]. set (e0 := Z.lor a0 _) in *. cbn zeta in *.
  destruct (IH (p - 8) x El Hx Hm) as [Hbe IHx]. split; [by constructor|].
  cbn [be_val]. rewrite zlen_zip by (by rewrite zlen_mask). rewrite El.
  pose proof (be_val_range x Hx) as Rx. rewrite El in Rx. pose proof (be_val_range a Ha) as Ra.
  pose proof (be_val_range _ Hbe) as Re. rewrite zlen_zip in Re by (by rewrite zlen_mask).
  set (P := 2 ^ (8 * zlen a)) in *.
  transitivity (Z.land x0 (2 ^ 8 - 2 ^ (8 - s)) = a0 /\ zip_with Z.land x (mask_bytes (zlen a) (p - 8)) = a).
  { split; [intros Hc; by apply (inj2 cons) in Hc|by intros [-> ->]]. }
  rewrite Hb. destruct (Z.le_gt_cases 8 p) as [Hp|Hp].
  - assert (Ee : e0 = a0).
    { unfold e0. replace s with 8 by lia. change (bnot8 (2 ^ 8 - 2 ^ (8 - 8))) with 0. apply Z.lor_0_r. }
    clearbody e0 P. subst e0. rewrite IHx. split; [intros [? ?]; assert (x0 = a0) by lia; subst x0; lia|].
    intros ?. assert (x0 = a0) by nia. subst x0. lia.
  - destruct (net_any a (p - 8) x) as (N1 & N2 & _ & N4); [lia|done..|]. rewrite N1, N2, N4. fold P. 
    split; [intros [? _]; nia|]. intros ?. split; [nia|done].
Qed.

Lemma bnot_sub w x : 0 <= w -> 0 <= x < 2 ^ w -> Z.lxor x (Z.ones w) = 2 ^ w - 1 - x.
Proof.
  intros Hw Hx. pose proof (Z.ones_equiv w). replace (2 ^ w - 1) with (Z.ones w) by lia.
  rewrite (Z.sub_nocarry_ldiff (Z.ones w) x).
  - apply Z.bits_inj'. intros i Hi. rewrite Z.lxor_spec, Z.ldiff_spec, Z.testbit_ones_nonneg by lia.
    destruct (Z.ltb_spec i w); [by destruct (Z.testbit x i)|]. by rewrite (bits_above x w) by lia.
  - apply Z.bits_inj'. intros i Hi. rewrite Z.ldiff_spec, Z.testbit_ones_nonneg, Z.bits_0 by lia.
    destruct (Z.ltb_spec i w); [apply andb_false_r|]. by rewrite (bits_above x w) by lia.
Qed.

Lemma be32_lor a b : zlen a = 4 -> zlen b = 4 -> Z.lor (get_be32 a) (get_be32 b) = get_be32 (zip_with Z.lor a b).
Proof.
  intros Ha Hb. destruct a as [|a0 [|a1 [|a2 [|a3 [|? ?]]]]]; try (unfold zlen in Ha; cbn in Ha; lia).
  destruct b as [|b0 [|b1 [|b2 [|b3 [|? ?]]]]]; try (unfold zlen in Hb; cbn in Hb; lia).
  cbn [zip_with]. rewrite !be32_list, !Z.shiftl_lor. apply Z.bits_inj'. intros i Hi.
  rewrite !Z.lor_spec. btauto.
Qed.

Lemma be32_not m : zlen m = 4 -> is_bytes m -> bnot32 (get_be32 m) = get_be32 (map bnot8 m).
Proof.
  intros Hl Hm. assert (Hn : is_bytes (map bnot8 m)).
  { apply Forall_map. eapply Forall_impl; [exact Hm|]. intros x Hx. cbn. unfold bnot8, is_u8 in *.
    rewrite bnot_sub by lia. lia. }
  rewrite !be32_val by (done || by rewrite <- Hl; unfold zlen; rewrite length_map). unfold bnot32.
  pose proof (be_val_range m Hm) as Hr. rewrite Hl in Hr. rewrite bnot_sub by lia.
  destruct m as [|a [|b [|c [|d [|? ?]]]]]; try (unfold zlen in Hl; cbn in Hl; lia).
  unfold is_bytes in Hm. rewrite !Forall_cons in Hm. destruct Hm as (Ha & Hb & Hc & Hd & _). unfold is_u8 in *.
  change (be_val [a; b; c; d]) with (a * 2 ^ 24 + (b * 2 ^ 16 + (c * 2 ^ 8 + (d * 2 ^ 0 + 0)))).
  change (be_val (map bnot8 [a; b; c; d])) with
    (bnot8 a * 2 ^ 24 + (bnot8 b * 2 ^ 16 + (bnot8 c * 2 ^ 8 + (bnot8 d * 2 ^ 0 + 0)))).
  unfold bnot8. rewrite !bnot_sub by lia. lia.
Qed.

Lemma mask_is_bytes n p : is_bytes (mask_bytes n p).
Proof.
  apply Forall_map, Forall_forall. intros i _. unfold mask_byte. set (k := 8 - _).
  assert (0 <= k <= 8) by lia. assert (0 < 2 ^ k) by (apply Z.pow_pos_nonneg; lia).
  assert (2 ^ k <= 2 ^ 8) by (apply Z.pow_le_mono_r; lia). unfold is_u8. lia.
Qed.

(** The ranges of a network, and the addresses in them. *)
Lemma net4_spec a m x :
  network 4 a m -> zlen x = 4 -> is_bytes x ->
  (zip_with Z.land x m = a <-> (net4 a m).(r4_start) <= get_be32 x <= (net4 a m).(r4_end)).
Proof.
  intros (Hl & Ha & (p & Hp & ->) & Hm) Hx Hb. rewrite <- Hl in *.
  destruct (net_range a p x Hx Ha Hb Hm) as [Hbe ->]. unfold net4. cbn [r4_start r4_end].
  assert (Hz : zlen (mask_bytes (zlen a) p) = 4) by (rewrite zlen_mask; lia).
  rewrite be32_not by (done || apply mask_is_bytes).
  rewrite be32_lor by (done || by unfold zlen in *; rewrite length_map).
  replace (zip_with Z.lor a (map bnot8 (mask_bytes (zlen a) p))) with (host_end a (mask_bytes (zlen a) p))
    by (by rewrite (zip_with_fmap_r Z.lor bnot8)).
  rewrite !be32_val by (done || lia || (rewrite zlen_zip; lia)). done.
Qed.

Lemma net6_spec a m x :
  network 16 a m -> zlen x = 16 -> is_bytes x ->
  is_bytes (net6 a m).(r6_end) /\ zlen (net6 a m).(r6_end) = 16 /\
  (zip_with Z.land x m = a <-> be_val (net6 a m).(r6_start) <= be_val x <= be_val (net6 a m).(r6_end)).
Proof.
  intros (Hl & Ha & (p & Hp & ->) & Hm) Hx Hb. rewrite <- Hl in *.
  destruct (net_range a p x Hx Ha Hb Hm) as [Hbe Hi]. unfold net6. cbn [r6_start r6_end].
  split_and!; [done| |done]. rewrite zlen_zip by (rewrite zlen_mask; lia). done.
Qed.

(** ** Bisection over sorted ranges *)

Lemma bisect_spec below n fuel lo hi :
  (forall i j, 0 <= i <= j -> j < n -> below j = true -> below i = true) ->
  0 <= lo <= hi -> hi <= n -> hi - lo <= Z.of_nat fuel ->
  (forall i, 0 <= i < lo -> below i = true) -> (forall i, hi <= i < n -> below i = false) ->
  let r := bisect fuel below lo hi in
  0 <= r <= n /\ (forall i, 0 <= i < r -> below i = true) /\ (forall i, r <= i < n -> below i = false).
Proof.
  intros Hmono. revert lo hi. induction fuel as [|fuel IH]; intros lo hi Hlo Hhi Hf Hb Ha; cbn.
  - assert (lo = hi) by lia. subst. split_and!; [lia|lia|done|done].
  - destruct (Z.ltb_spec lo hi) as [Hlt|Hge].
    2:{ assert (lo = hi) by lia. subst. split_and!; [lia|lia|done|done]. }
    set (mid := lo + (hi - lo) / 2).
    assert (Hmid : lo <= mid < hi) by (unfold mid; Z.to_euclidean_division_equations; lia).
    destruct (below mid) eqn:E.
    + apply IH; [lia|lia|lia| |done]. intros i Hi. apply (Hmono i mid); [lia|lia|done].
    + apply IH; [lia|lia|lia|done|]. intros i Hi. destruct (below i) eqn:E'; [|done].
      rewrite <- E. symmetry. apply (Hmono mid i); [lia|lia|done].
Qed.

Lemma ssorted_lookup {A} (R : A -> A -> Prop) l i j x y :
  StronglySorted R l -> (i < j)%nat -> l !! i = Some x -> l !! j = Some y -> R x y.
Proof.
  intros Hs. revert i j. induction Hs as [|z l Hs IH Hz]; intros i j Hij Hx Hy; [done|].
  destruct j as [|j]; [lia|]. destruct i as [|i]; cbn in *; [|apply (IH i j); [lia|done|done]].
  injection Hx as ->. rewrite Forall_forall in Hz. apply Hz. by eapply list_elem_of_lookup_2.
Qed.

(** Searching the starts and comparing with the largest end before. *)
Lemma bisect_ranges {R} (st en : R -> Z) (l : list R) (a : Z) (below : Z -> bool) :
  StronglySorted (fun x y => st x <= st y) l ->
  (forall i e, l !! i = Some e -> below (Z.of_nat i) = (st e <=? a)) ->
  let r := bisect (length l) below 0 (zlen l) in
  0 <= r <= zlen l /\
  ((exists j e, Z.of_nat j < r /\ l !! j = Some e /\ a <= en e) <->
   exists e, e ∈ l /\ st e <= a <= en e).
Proof.
  intros Hs Hb.
  assert (Hle : forall i j x y, (i <= j)%nat -> l !! i = Some x -> l !! j = Some y -> st x <= st y).
  { intros i j x y Hij Hx Hy. destruct (decide (i = j)) as [->|Hne]; [naive_solver lia|].
    apply (ssorted_lookup (fun x y => st x <= st y) l i j); [done|lia|done|done]. }
  destruct (bisect_spec below (zlen l) (length l) 0 (zlen l)) as (Hr & Hlt & Hge);
    [|pose proof (zlen_nonneg l); lia|lia|unfold zlen; lia|lia|lia|].
  { intros i j Hij Hj. unfold zlen in Hj.
    destruct (lookup_lt_is_Some_2 l (Z.to_nat i) ltac:(lia)) as [x Hx].
    destruct (lookup_lt_is_Some_2 l (Z.to_nat j) ltac:(lia)) as [y Hy].
    pose proof (Hb _ _ Hx) as Ei. pose proof (Hb _ _ Hy) as Ej. rewrite Z2Nat.id in Ei, Ej by lia. rewrite Ei, Ej.
    pose proof (Hle (Z.to_nat i) (Z.to_nat j) x y ltac:(lia) Hx Hy). lia. }
  set (r := bisect _ _ _ _) in *. cbn zeta. split; [done|]. split.
  - intros (j & e & Hj & He & Ha). exists e. split; [by eapply list_elem_of_lookup_2|].
    pose proof (Hlt (Z.of_nat j) ltac:(lia)) as E. rewrite (Hb _ _ He) in E. lia.
  - intros (e & [j He]%list_elem_of_lookup & Ha). exists j, e. split; [|split; [done|lia]].
    destruct (Z.lt_ge_cases (Z.of_nat j) r) as [|Hn]; [done|].
    pose proof (Hge (Z.of_nat j)) as E. rewrite (Hb _ _ He) in E. apply lookup_lt_Some in He. unfold zlen in E. lia.
Qed.

Lemma cover4_spec (first : bool) (c : Z) (l : list ds_r4) (k : nat) (a : Z) :
  (k < length l)%nat ->
  (a <= aget 0 (cover4 first c l) (Z.of_nat k) <->
   (first = false /\ a <= c) \/ exists j e, (j <= k)%nat /\ l !! j = Some e /\ a <= e.(r4_end)).
Proof.
  rewrite aget_lookup, Nat2Z.id by lia. revert first c k. induction l as [|e l IH]; intros first c k Hk; [cbn in Hk; lia|].
  cbn [cover4]. set (c' := if first || (c <? r4_end e) then r4_end e else c).
  assert (Hc : a <= c' <-> (first = false /\ a <= c) \/ a <= r4_end e).
  { unfold c'. destruct first; cbn; [naive_solver|]. destruct (Z.ltb_spec c (r4_end e)); naive_solver lia. }
  destruct k as [|k]; cbn [lookup list_lookup default from_option]; [|rewrite IH by (cbn in Hk; lia)].
  - unfold id. rewrite Hc. split; (intros [?|H]; [by left|right]).
    + exists 0%nat, e. naive_solver lia.
    + destruct H as (j & x & Hj & Hx & ?). assert (j = 0%nat) by lia. subst j. by injection Hx as ->.
  - split.
    + intros [[_ [?|?]%Hc]|(j & x & Hj & Hx & ?)]; [by left|right..].
      * exists 0%nat, e. split_and!; [lia|done|done].
      * exists (S j), x. split_and!; [lia|done|done].
    + intros [?|(j & x & Hj & Hx & Hax)]; [left; split; [done|]; apply Hc; by left|].
      destruct j as [|j]; [injection Hx as ->; left; split; [done|]; apply Hc; by right|].
      right. exists j, x. split_and!; [lia|done|done].
Qed.

Definition r6_ok (e : ds_r6) : Prop :=
  is_bytes e.(r6_start) /\ zlen e.(r6_start) = 16 /\ is_bytes e.(r6_end) /\ zlen e.(r6_end) = 16.

Lemma cover6_spec (prev : option bytes) (l : list ds_r6) (k : nat) (a : Z) :
  Forall r6_ok l -> (forall p, prev = Some p -> is_bytes p /\ zlen p = 16) -> (k < length l)%nat ->
  let v := aget [] (cover6 prev l) (Z.of_nat k) in
  is_bytes v /\ zlen v = 16 /\
  (a <= be_val v <->
   (exists p, prev = Some p /\ a <= be_val p) \/ exists j e, (j <= k)%nat /\ l !! j = Some e /\ a <= be_val e.(r6_end)).
Proof.
  cbn zeta. rewrite aget_lookup, Nat2Z.id by lia. intros Hl. revert prev k.
  induction Hl as [|e l He Hl IH]; intros prev k Hp Hk; [cbn in Hk; lia|].
  cbn [cover6]. set (c' := match prev with
    | None => r6_end e | Some p => if 0 <? memcmp (r6_end e) p then r6_end e else p end).
  assert (Hc : is_bytes c' /\ zlen c' = 16 /\
               (a <= be_val c' <-> (exists p, prev = Some p /\ a <= be_val p) \/ a <= be_val (r6_end e))).
  { destruct He as (_ & _ & He & Hz). unfold c'. destruct prev as [p|]; [|naive_solver].
    destruct (Hp p eq_refl) as [Hbp Hzp]. pose proof (memcmp_le (r6_end e) p ltac:(lia) He Hbp).
    destruct (Z.ltb_spec 0 (memcmp (r6_end e) p)); naive_solver lia. }
  destruct Hc as (Hcb & Hcz & Hc).
  destruct k as [|k]; cbn [lookup list_lookup default from_option].
  - unfold id. split_and!; [done|done|]. rewrite Hc. split; (intros [?|H]; [by left|right]).
    + exists 0%nat, e. naive_solver lia.
    + destruct H as (j & x & Hj & Hx & ?). assert (j = 0%nat) by lia. subst j. by injection Hx as ->.
  - destruct (IH (Some c') k) as (I1 & I2 & I3); [by intros p [= <-]|cbn in Hk; lia|].
    split_and!; [done|done|]. rewrite I3. split.
    + intros [(p & [= <-] & [?|?]%Hc)|(j & x & Hj & Hx & ?)]; [by left|right..].
      * exists 0%nat, e. split_and!; [lia|done|done].
      * exists (S j), x. split_and!; [lia|done|done].
    + intros [?|(j & x & Hj & Hx & Hax)]; [left; exists c'; split; [done|]; apply Hc; by left|].
      destruct j as [|j]; [injection Hx as ->; left; exists c'; split; [done|]; apply Hc; by right|].
      right. exists j, x. split_and!; [lia|done|done].
Qed.

Lemma lookup4_spec l s6 c6 x :
  StronglySorted (fun a b => r4_start a <= r4_start b) l ->
  (ngx_http_waf_ds_lookup_cidr (mkCidrSet (map r4_start l) (cover4 true 0 l) s6 c6) 0 x = true <->
   exists e, e ∈ l /\ e.(r4_start) <= get_be32 x <= e.(r4_end)).
Proof.
  intros Hs. unfold ngx_http_waf_ds_lookup_cidr. cbn [v4_start v4_cover Z.eqb].
  assert (Hz : zlen (map r4_start l) = zlen l) by (unfold zlen; by rewrite length_map). rewrite Hz.
  destruct (Z.eqb_spec (zlen l) 0) as [E|E].
  { destruct l; [|rewrite zlen_cons in E; pose proof (zlen_nonneg l); lia].
    split; [done|]. intros (e & He & _). by apply elem_of_nil in He. }
  replace (Z.to_nat (zlen l)) with (length l) by (unfold zlen; lia).
  destruct (bisect_ranges r4_start r4_end l (get_be32 x) (fun mid => aget 0 (map r4_start l) mid <=? get_be32 x) Hs)
    as [Hr <-].
  { intros i e He. rewrite aget_lookup, Nat2Z.id by lia. f_equal.
    change (map r4_start l) with (r4_start <$> l). by rewrite list_lookup_fmap, He. }
  set (r := bisect _ _ _ _) in *. destruct (Z.eqb_spec r 0) as [->|Hr0].
  { split; [done|]. intros (j & e & Hj & _). lia. }
  replace (r - 1) with (Z.of_nat (Z.to_nat (r - 1))) by lia.
  rewrite Z.leb_le, cover4_spec by (unfold zlen in *; lia). split.
  - intros [[? _]|(j & e & Hj & He & Ha)]; [done|]. exists j, e. split_and!; [lia|done|done].
  - intros (j & e & Hj & He & Ha). right. exists j, e. split_and!; [lia|done|done].
Qed.

Lemma lookup6_spec l s4 c4 x :
  StronglySorted (fun a b => be_val (r6_start a) <= be_val (r6_start b)) l -> Forall r6_ok l ->
  zlen x = 16 -> is_bytes x ->
  (ngx_http_waf_ds_lookup_cidr (mkCidrSet s4 c4 (map r6_start l) (cover6 None l)) 1 x = true <->
   exists e, e ∈ l /\ be_val e.(r6_start) <= be_val x <= be_val e.(r6_end)).
Proof.
  intros Hs Hok Hx Hb. unfold ngx_http_waf_ds_lookup_cidr. cbn [v6_start v6_cover Z.eqb Pos.eqb].
  assert (Hz : zlen (map r6_start l) = zlen l) by (unfold zlen; by rewrite length_map). rewrite Hz.
  destruct (Z.eqb_spec (zlen l) 0) as [E|E].
  { destruct l; [|rewrite zlen_cons in E; pose proof (zlen_nonneg l); lia].
    split; [done|]. intros (e & He & _). by apply elem_of_nil in He. }
  replace (Z.to_nat (zlen l)) with (length l) by (unfold zlen; lia).
  destruct (bisect_ranges (fun e => be_val (r6_start e)) (fun e => be_val (r6_end e)) l (be_val x)
              (fun mid => memcmp (aget [] (map r6_start l) mid) x <=? 0) Hs) as [Hr <-].
  { intros i e He. rewrite aget_lookup, Nat2Z.id by lia. change (map r6_start l) with (r6_start <$> l).
    rewrite list_lookup_fmap, He. cbn. unfold id. rewrite Forall_lookup in Hok.
    destruct (Hok _ _ He) as (H1 & H2 & _). apply eq_true_iff_eq. rewrite !Z.leb_le. apply memcmp_le; [lia|done|done]. }
  set (r := bisect _ _ _ _) in *. destruct (Z.eqb_spec r 0) as [->|Hr0].
  { split; [done|]. intros (j & e & Hj & _). lia. }
  replace (r - 1) with (Z.of_nat (Z.to_nat (r - 1))) by lia.
  destruct (cover6_spec None l (Z.to_nat (r - 1)) (be_val x)) as (C1 & C2 & C3);
    [done|done|unfold zlen in *; lia|]. set (v := aget _ _ _) in *.
  rewrite Z.leb_le, memcmp_ge by (done || lia). rewrite C3. split.
  - intros [(? & ? & _)|(j & e & Hj & He & Ha)]; [done|]. exists j, e. split_and!; [lia|done|done].
  - intros (j & e & Hj & He & Ha). right. exists j, e. split_and!; [lia|done|done].
Qed.

(** ** The orders *)

Lemma cmp_r4_le x y :
  ngx_http_waf_ds_cmp_r4 x y <= 0 <->
  r4_start x < r4_start y \/ r4_start x = r4_start y /\ r4_end y <= r4_end x.
Proof.
  unfold ngx_http_waf_ds_cmp_r4. destruct (Z.eqb_spec (r4_start x) (r4_start y)); cbn [negb].
  - destruct (Z.eqb_spec (r4_end x) (r4_end y)); cbn [negb]; [lia|].
    destruct (Z.ltb_spec (r4_end y) (r4_end x)); lia.
  - destruct (Z.ltb_spec (r4_start x) (r4_start y)); lia.
Qed.

Lemma cmp_r4_anti x y : ngx_http_waf_ds_cmp_r4 x y = - ngx_http_waf_ds_cmp_r4 y x.
Proof.
  unfold ngx_http_waf_ds_cmp_r4. rewrite (Z.eqb_sym (r4_start y)), (Z.eqb_sym (r4_end y)).
  destruct (Z.eqb_spec (r4_start x) (r4_start y)); cbn [negb].
  - destruct (Z.eqb_spec (r4_end x) (r4_end y)); cbn [negb]; [lia|].
    destruct (Z.ltb_spec (r4_end y) (r4_end x)), (Z.ltb_spec (r4_end x) (r4_end y)); lia.
  - destruct (Z.ltb_spec (r4_start x) (r4_start y)), (Z.ltb_spec (r4_start y) (r4_start x)); lia.
Qed.

Lemma cmp_r4_orders l : orders ngx_http_waf_ds_cmp_r4 l.
Proof.
  split.
  - intros x y _ _. rewrite (cmp_r4_anti y x). lia.
  - intros x y z _ _ _. rewrite !cmp_r4_le. lia.
Qed.

Lemma cmp_r4_eq x y : ngx_http_waf_ds_cmp_r4 x y = 0 -> x = y.
Proof.
  intros H. pose proof (cmp_r4_le x y). pose proof (cmp_r4_le y x). pose proof (cmp_r4_anti x y).
  destruct x, y; cbn in *. f_equal; lia.
Qed.

Lemma cmp_r6_le x y :
  r6_ok x -> r6_ok y ->
  (ngx_http_waf_ds_cmp_r6 x y <= 0 <->
   be_val (r6_start x) < be_val (r6_start y) \/
   be_val (r6_start x) = be_val (r6_start y) /\ be_val (r6_end y) <= be_val (r6_end x)).
Proof.
  intros (X1 & X2 & X3 & X4) (Y1 & Y2 & Y3 & Y4). unfold ngx_http_waf_ds_cmp_r6. cbn zeta.
  pose proof (memcmp_le (r6_start x) (r6_start y) ltac:(lia) X1 Y1).
  pose proof (memcmp_ge (r6_start x) (r6_start y) ltac:(lia) X1 Y1).
  pose proof (memcmp_ge (r6_end x) (r6_end y) ltac:(lia) X3 Y3).
  destruct (Z.eqb_spec (memcmp (r6_start x) (r6_start y)) 0); cbn [negb]; lia.
Qed.

Lemma cmp_r6_ge x y :
  r6_ok x -> r6_ok y -> (0 <= ngx_http_waf_ds_cmp_r6 x y <-> ngx_http_waf_ds_cmp_r6 y x <= 0).
Proof.
  intros Hx Hy. rewrite (cmp_r6_le y x) by done. destruct Hx as (X1 & X2 & X3 & X4), Hy as (Y1 & Y2 & Y3 & Y4).
  unfold ngx_http_waf_ds_cmp_r6. cbn zeta.
  pose proof (memcmp_le (r6_start x) (r6_start y) ltac:(lia) X1 Y1).
  pose proof (memcmp_ge (r6_start x) (r6_start y) ltac:(lia) X1 Y1).
  pose proof (memcmp_le (r6_end x) (r6_end y) ltac:(lia) X3 Y3).
  destruct (Z.eqb_spec (memcmp (r6_start x) (r6_start y)) 0); cbn [negb]; lia.
Qed.

Lemma cmp_r6_orders l : Forall r6_ok l -> orders ngx_http_waf_ds_cmp_r6 l.
Proof.
  rewrite Forall_forall. intros Hl. split.
  - intros x y Hx Hy. symmetry. apply cmp_r6_ge; auto.
  - intros x y z Hx Hy Hz. rewrite !cmp_r6_le by auto. lia.
Qed.

Lemma cmp_r6_eq x y : r6_ok x -> r6_ok y -> ngx_http_waf_ds_cmp_r6 x y = 0 -> x = y.
Proof.
  intros (X1 & X2 & X3 & X4) (Y1 & Y2 & Y3 & Y4). unfold ngx_http_waf_ds_cmp_r6. cbn zeta.
  destruct (Z.eqb_spec (memcmp (r6_start x) (r6_start y)) 0) as [E|E]; cbn [negb]; [|done].
  intros E'. assert (E2 : memcmp (r6_end x) (r6_end y) = 0) by lia.
  apply memcmp_eq in E, E2; [|lia..]. destruct x, y; cbn in *. by subst.
Qed.

Section sorting.
Context {qsort : forall A : Type, (A -> A -> Z) -> list A -> list A} `{!QSort qsort}.

Lemma uniq_loop_elem {A} (cmp : A -> A -> Z) kept rest x :
  (forall a b, a ∈ kept :: rest -> b ∈ kept :: rest -> cmp a b = 0 -> a = b) ->
  (x ∈ kept :: uniq_loop cmp kept rest <-> x ∈ kept :: rest).
Proof.
  revert kept. induction rest as [|e rest IH]; intros kept Heq; [done|]. cbn [uniq_loop].
  destruct (Z.eqb_spec (cmp kept e) 0) as [E|E].
  - apply Heq in E; [subst e|by left|right; by left].
    rewrite IH by (intros a b Ha Hb; apply Heq; set_solver). set_solver.
  - rewrite elem_of_cons, IH by (intros a b Ha Hb; apply Heq; set_solver). set_solver.
Qed.

Lemma uniq_loop_sub {A} (cmp : A -> A -> Z) kept rest : uniq_loop cmp kept rest `sublist_of` rest.
Proof.
  revert kept. induction rest as [|e rest IH]; intros kept; cbn; [constructor|].
  destruct (_ =? 0); [by apply sublist_cons|by apply sublist_skip].
Qed.

Lemma sublist_sorted {A} (R : A -> A -> Prop) l k : l `sublist_of` k -> StronglySorted R k -> StronglySorted R l.
Proof.
  induction 1 as [|x l k Hl IH|x l k Hl IH]; intros Hk; [constructor| |]; apply StronglySorted_inv in Hk as [Hk Hx].
  - constructor; [by apply IH|]. rewrite Forall_forall in *. intros y Hy. apply Hx.
    eapply elem_of_submseteq; [exact Hy|]. by apply sublist_submseteq.
  - by apply IH.
Qed.

Lemma sort_uniq_elem {A} (cmp : A -> A -> Z) l x :
  (forall a b, a ∈ l -> b ∈ l -> cmp a b = 0 -> a = b) ->
  (x ∈ ngx_http_waf_ds_sort_uniq qsort cmp l <-> x ∈ l).
Proof.
  intros Heq. unfold ngx_http_waf_ds_sort_uniq. destruct (zlen l <? 2); [done|].
  pose proof (qsort_perm A cmp l) as Hp.
  destruct (qsort A cmp l) as [|e rest]; [by rewrite <- Hp|].
  rewrite uniq_loop_elem by (intros a b; rewrite Hp; apply Heq). by rewrite Hp.
Qed.

Lemma sort_uniq_sorted {A} (cmp : A -> A -> Z) l :
  orders cmp l -> StronglySorted (fun x y => cmp x y <= 0) (ngx_http_waf_ds_sort_uniq qsort cmp l).
Proof.
  intros Ho. unfold ngx_http_waf_ds_sort_uniq. destruct (Z.ltb_spec (zlen l) 2) as [Hl|Hl].
  { destruct l as [|x [|y l]]; [by repeat constructor..|]. rewrite !zlen_cons in Hl. pose proof (zlen_nonneg l). lia. }
  pose proof (qsort_sorted A cmp l Ho) as Hs.
  destruct (qsort A cmp l) as [|e rest]; [done|]. eapply sublist_sorted; [|exact Hs].
  apply sublist_skip, uniq_loop_sub.
Qed.

Lemma ssorted_impl {A} (R S : A -> A -> Prop) (l : list A) :
  (forall x y, x ∈ l -> y ∈ l -> R x y -> S x y) -> StronglySorted R l -> StronglySorted S l.
Proof.
  intros HRS Hl. induction Hl as [|x l Hl IH Hx]; constructor.
  - apply IH. intros a b Ha Hb. apply HRS; by right.
  - rewrite Forall_forall in *. intros y Hy. apply HRS; [by left|by right|by apply Hx].
Qed.

End sorting.

(** ** The networks of a dataset *)

Definition range4 (c : cidr_t) : option ds_r4 :=
  match c with
  | In4 a m => Some (net4 a m)
  | In6 a m => if mapped_cidr a m then Some (net4 (drop 12 a) (drop 12 m)) else None
  | InOther => None
  end.
Definition range6 (c : cidr_t) : option ds_r6 :=
  match c with In6 a m => if mapped_cidr a m then None else Some (net6 a m) | _ => None end.
Definition known (c : cidr_t) : bool := match c with InOther => false | _ => true end.

(** The IPv6 form of an IPv4 address. *)
Definition v4mapped (x : bytes) : bytes := replicate 10 0 ++ [255; 255] ++ x.

(** The addresses of a network: those that agree with it under its mask.  An
    IPv4 address is in an IPv6 network only when the network lies within the
    mapped range. *)
Definition cidr_has (c : cidr_t) (fam : Z) (x : bytes) : Prop :=
  match c with
  | In4 a m => fam = 0 /\ zip_with Z.land x m = a
  | In6 a m => if fam =? 0 then mapped_cidr a m = true /\ zip_with Z.land (v4mapped x) m = a
               else zip_with Z.land x m = a
  | InOther => False
  end.

(** What [ngx_http_waf_ds_addr] hands on: four bytes, or sixteen that are
    not a mapped IPv4 address. *)
Definition address (fam : Z) (x : bytes) : Prop :=
  is_bytes x /\ (fam = 0 /\ zlen x = 4 \/ fam = 1 /\ zlen x = 16 /\ mapped_addr x = false).

Lemma for_range_all (f : Z -> bool) n :
  0 <= n -> for_range n (fun i ok => ok && f i) true = true <-> forall i, 0 <= i < n -> f i = true.
Proof.
  intros Hn. apply (for_range_inv (fun k ok => ok = true <-> forall i, 0 <= i < k -> f i = true));
    [done|split; [lia|done]|].
  intros i ok Hir Hok. rewrite andb_true_iff, Hok. split.
  - intros [H1 H2] j Hj. destruct (Z.eq_dec j i) as [->|]; [done|]. apply H1. lia.
  - intros H. split; [intros j Hj|]; apply H; lia.
Qed.

Lemma mapped_cidr_spec a m :
  mapped_cidr a m = true <->
  (aget 0 a 10 = 255 /\ aget 0 a 11 = 255 /\ aget 0 m 10 = 255 /\ aget 0 m 11 = 255) /\
  forall i, 0 <= i < 10 -> aget 0 a i = 0 /\ aget 0 m i = 255.
Proof.
  unfold mapped_cidr. rewrite !andb_true_iff, !Z.eqb_eq.
  pose proof (for_range_all (fun i => (aget 0 a i =? 0) && (aget 0 m i =? 255)) 10) as H. cbn beta in H.
  rewrite H by lia. setoid_rewrite andb_true_iff. setoid_rewrite Z.eqb_eq. tauto.
Qed.

Lemma mapped_addr_spec x :
  mapped_addr x = true <->
  (aget 0 x 10 = 255 /\ aget 0 x 11 = 255) /\ forall i, 0 <= i < 10 -> aget 0 x i = 0.
Proof.
  unfold mapped_addr. rewrite !andb_true_iff, !Z.eqb_eq.
  pose proof (for_range_all (fun i => aget 0 x i =? 0) 10) as H. cbn beta in H.
  rewrite H by lia. setoid_rewrite Z.eqb_eq. tauto.
Qed.

Abbreviation pref96 := (replicate 10 0 ++ [255; 255]).

Lemma aget_take {A} (d : A) l k i : 0 <= i < k -> aget d (take (Z.to_nat k) l) i = aget d l i.
Proof. intros. rewrite !aget_lookup by lia. by rewrite lookup_take_lt by lia. Qed.

Lemma first12 (l k : bytes) :
  zlen l = 16 -> zlen k = 12 -> (forall i, 0 <= i < 12 -> aget 0 l i = aget 0 k i) -> l = k ++ drop 12 l.
Proof.
  intros Hl Hk H. rewrite <- (take_drop 12 l) at 1. f_equal. unfold zlen in *.
  apply list_eq_same_length with (n := 12%nat); [rewrite ?length_take; lia..|].
  intros i x y Hi Hx Hy. specialize (H (Z.of_nat i) ltac:(lia)).
  rewrite !aget_lookup, !Nat2Z.id, Hy in H by lia. rewrite lookup_take_lt in Hx by lia. rewrite Hx in H. done.
Qed.

Lemma upto12 (P : Z -> Prop) : (forall i, 0 <= i < 10 -> P i) -> P 10 -> P 11 -> forall i, 0 <= i < 12 -> P i.
Proof.
  intros H H10 H11 i Hi. destruct (Z.eq_dec i 10) as [->|]; [done|]. destruct (Z.eq_dec i 11) as [->|]; [done|].
  apply H. lia.
Qed.

Lemma mask_bytes_drop p : drop 12 (mask_bytes 16 p) = mask_bytes 4 (p - 96).
Proof.
  change 16 with (1 + (1 + (1 + (1 + (1 + (1 + (1 + (1 + (1 + (1 + (1 + (1 + 4)))))))))))).
  rewrite !mask_bytes_cons by lia. cbn [drop]. apply (f_equal (mask_bytes 4)). lia.
Qed.

Lemma aget_mask n p i : 0 <= i < n -> aget 0 (mask_bytes n p) i = mask_byte p i.
Proof.
  intros Hi. rewrite aget_lookup by lia. unfold mask_bytes. change (map (mask_byte p)) with (fmap (M := list) (mask_byte p)).
  rewrite list_lookup_fmap, lookup_seqZ_lt by lia. cbn. unfold id. f_equal. lia.
Qed.

Lemma mapped_network a m :
  network 16 a m -> mapped_cidr a m = true ->
  network 4 (drop 12 a) (drop 12 m) /\ a = pref96 ++ drop 12 a /\ m = replicate 12 255 ++ drop 12 m.
Proof.
  intros (Hl & Ha & (p & Hp & Hm) & Hz) [(A10 & A11 & M10 & M11) H]%mapped_cidr_spec.
  assert (Hlm : zlen m = 16) by (subst m; apply zlen_mask; lia).
  assert (Ea : a = pref96 ++ drop 12 a).
  { apply first12; [done|done|]. apply upto12; [|done|done]. intros i Hi. rewrite (proj1 (H i Hi)).
    rewrite aget_lookup by lia. rewrite lookup_app_l, lookup_replicate_2; [done|lia|cbn; lia]. }
  assert (Em : m = replicate 12 255 ++ drop 12 m).
  { apply first12; [done|done|]. assert (HR : forall i, 0 <= i < 12 -> aget 0 (replicate 12 255) i = 255).
    { intros i Hi. rewrite aget_lookup by lia. by rewrite lookup_replicate_2 by lia. }
    intros i Hi. rewrite HR by done. revert i Hi. apply upto12; [|done|done]. intros i Hi. apply H. done. }
  split_and!; [|done|done]. unfold network. split_and!.
  - unfold zlen in *. rewrite length_drop. lia.
  - by apply Forall_drop.
  - exists (p - 96). subst m. rewrite aget_mask in M11 by lia. split; [|apply mask_bytes_drop].
    unfold mask_byte in M11. set (k := 8 - _) in M11. destruct (Z.eq_dec k 0); [lia|].
    assert (2 ^ 1 <= 2 ^ k) by (apply Z.pow_le_mono_r; lia). lia.
  - rewrite <- Hz at 2. by rewrite zip_with_drop.
Qed.

Lemma land_ones8 (l : bytes) : is_bytes l -> zip_with Z.land l (replicate (length l) 255) = l.
Proof.
  induction 1 as [|x l Hx Hl IH]; [done|]. cbn. rewrite IH. f_equal. change 255 with (Z.ones 8).
  rewrite Z.land_ones by lia. apply Z.mod_small. exact Hx.
Qed.

Lemma mapped_match a m x :
  network 16 a m -> mapped_cidr a m = true ->
  (zip_with Z.land (v4mapped x) m = a <-> zip_with Z.land x (drop 12 m) = drop 12 a).
Proof.
  intros Hn Hm. destruct (mapped_network a m Hn Hm) as (_ & Ea & Em). unfold v4mapped.
  rewrite Em at 1. rewrite (app_assoc (replicate 10 0) [255; 255] x), zip_with_app by done.
  change (zip_with Z.land pref96 (replicate 12 255)) with pref96. rewrite Ea at 1.
  split; [apply (inj (app pref96))|by intros ->].
Qed.

Lemma unmapped_no_match a m x :
  network 16 a m -> mapped_cidr a m = true -> zlen x = 16 -> is_bytes x -> mapped_addr x = false ->
  zip_with Z.land x m <> a.
Proof.
  intros Hn Hm Hx Hb Hf E. destruct (mapped_network a m Hn Hm) as (_ & Ea & Em).
  assert (Ht : length (take 12 x) = 12%nat) by (rewrite length_take; unfold zlen in Hx; lia).
  rewrite <- (take_drop 12 x), Em, zip_with_app, Ea in E by (by rewrite Ht).
  apply app_inj_1 in E as [E _]; [|rewrite length_zip_with, Ht; done].
  rewrite <- Ht in E at 2. rewrite land_ones8 in E by (by apply Forall_take).
  assert (mapped_addr x = true); [|congruence]. apply mapped_addr_spec.
  assert (H : forall i, 0 <= i < 12 -> aget 0 x i = aget 0 pref96 i).
  { intros i Hi. rewrite <- E. symmetry. apply (aget_take 0 x 12). lia. }
  split; [split; rewrite H by lia; reflexivity|]. intros i Hi. rewrite H by lia.
  rewrite aget_lookup by lia. rewrite lookup_app_l, lookup_replicate_2; [done|lia|cbn; lia].
Qed.

Section cidrs.
Context {ptocidr : bytes -> option cidr_t} `{!PtoCidr ptocidr}.
Context {qsort : forall A : Type, (A -> A -> Z) -> list A -> list A} `{!QSort qsort}.

Definition parses (t : bytes) : Prop := exists c, ptocidr t = Some c /\ known c = true.

(** An entry that is pushed, and an entry that is refused. *)
Lemma entry_cidr_spec t mem r4 r6 :
  let '(rc, mem', r4', r6') := ngx_http_waf_ds_entry_cidr ptocidr t mem r4 r6 in
  (rc = NGX_OK /\ parses t /\ fst (alloc mem) = true /\ mem' = snd (alloc mem) /\
   r4' = r4 ++ omap (fun t => ptocidr t ≫= range4) [t] /\ r6' = r6 ++ omap (fun t => ptocidr t ≫= range6) [t]) \/
  (rc = NGX_ERROR /\ (parses t -> fst (alloc mem) = false)).
Proof.
  unfold ngx_http_waf_ds_entry_cidr, parses. cbn [omap list_omap]. destruct (ptocidr t) as [[a m|a m|]|] eqn:E;
    [| |right; split; [done|]; naive_solver..]; destruct (alloc mem) as [[] mem'] eqn:Em; cbn -[net4 net6 drop app].
  - left. rewrite app_nil_r. naive_solver.
  - right. naive_solver.
  - destruct (mapped_cidr a m); left; rewrite app_nil_r; naive_solver.
  - destruct (mapped_cidr a m); right; naive_solver.
Qed.

Lemma entries_loop_spec items mem r4 r6 mem' r4' r6' :
  entries_loop ptocidr items mem r4 r6 = (NGX_OK, mem', r4', r6') ->
  Forall parses items /\ r4' = r4 ++ omap (fun t => ptocidr t ≫= range4) items /\
  r6' = r6 ++ omap (fun t => ptocidr t ≫= range6) items.
Proof.
  revert mem r4 r6. induction items as [|t items IH]; intros mem r4 r6; cbn [entries_loop].
  { intros [= -> -> ->]. rewrite !app_nil_r. by repeat constructor. }
  pose proof (entry_cidr_spec t mem r4 r6) as H. destruct (ngx_http_waf_ds_entry_cidr _ _ _ _ _) as [[[rc m1] r41] r61].
  destruct H as [(-> & Ht & _ & -> & -> & ->)|(-> & _)]; [|done]. intros H. apply IH in H as (H1 & -> & ->).
  split; [by constructor|]. rewrite <- !app_assoc. cbn [omap list_omap].
  split; f_equal; destruct (ptocidr t ≫= _); done.
Qed.

Lemma entries_loop_runs items r4 r6 :
  Forall parses items -> exists r4' r6', entries_loop ptocidr items [] r4 r6 = (NGX_OK, [], r4', r6').
Proof.
  intros H. revert r4 r6. induction H as [|t items Ht _ IH]; intros r4 r6; cbn [entries_loop]; [by do 2 eexists|].
  pose proof (entry_cidr_spec t [] r4 r6) as H. destruct (ngx_http_waf_ds_entry_cidr _ _ _ _ _) as [[[rc m1] r41] r61].
  destruct H as [(-> & _ & _ & -> & _)|(_ & Hf)]; [apply IH|by specialize (Hf Ht)].
Qed.

Lemma range4_net c e x :
  (exists t, ptocidr t = Some c) -> range4 c = Some e -> zlen x = 4 -> is_bytes x ->
  (e.(r4_start) <= get_be32 x <= e.(r4_end) <-> cidr_has c 0 x).
Proof.
  intros [t Ht] He Hx Hb. destruct c as [a m|a m|]; cbn [range4 cidr_has Z.eqb] in *; [| |done].
  - injection He as <-. apply ptocidr_v4 in Ht. rewrite <- net4_spec by done. tauto.
  - destruct (mapped_cidr a m) eqn:Em; [|done]. injection He as <-. apply ptocidr_v6 in Ht.
    rewrite mapped_match by done. destruct (mapped_network a m Ht Em) as (Hn & _ & _).
    rewrite <- net4_spec by done. tauto.
Qed.

Lemma range4_none c x : range4 c = None -> ~ cidr_has c 0 x.
Proof. destruct c as [a m|a m|]; cbn; [done| |tauto]. destruct (mapped_cidr a m); [done|]. intros _ [H _]. done. Qed.

Lemma range6_net c e x :
  (exists t, ptocidr t = Some c) -> range6 c = Some e -> zlen x = 16 -> is_bytes x ->
  r6_ok e /\ (be_val e.(r6_start) <= be_val x <= be_val e.(r6_end) <-> cidr_has c 1 x).
Proof.
  intros [t Ht] He Hx Hb. destruct c as [a m|a m|]; cbn [range6 cidr_has Z.eqb] in *; [done| |done].
  destruct (mapped_cidr a m) eqn:Em; [done|]. injection He as <-. apply ptocidr_v6 in Ht.
  destruct (net6_spec a m x Ht Hx Hb) as (H1 & H2 & H3). split; [|by rewrite H3].
  destruct Ht as (? & ? & _). by split_and!.
Qed.

Lemma range6_none c x :
  (exists t, ptocidr t = Some c) -> range6 c = None -> address 1 x -> ~ cidr_has c 1 x.
Proof.
  intros [t Ht] Hn [Hb [[? _]|(_ & Hx & Hm)]]; [done|]. destruct c as [a m|a m|]; cbn in *; [by intros []| |tauto].
  destruct (mapped_cidr a m) eqn:Em; [|done]. apply ptocidr_v6 in Ht. by apply unmapped_no_match.
Qed.

Lemma omap_ranges {R} (f : cidr_t -> option R) (entries : list bytes) (P : R -> Prop) (Q : cidr_t -> Prop) :
  (forall t c, t ∈ entries -> ptocidr t = Some c -> match f c with Some e => P e <-> Q c | None => ~ Q c end) ->
  ((exists e, e ∈ omap (fun t => ptocidr t ≫= f) entries /\ P e) <->
   exists t c, t ∈ entries /\ ptocidr t = Some c /\ Q c).
Proof.
  intros H. split.
  - intros (e & (t & Ht & He)%list_elem_of_omap & Hp). destruct (ptocidr t) as [c|] eqn:E; [|done]. cbn in He.
    exists t, c. split_and!; [done|done|]. specialize (H t c Ht E). rewrite He in H. by apply H.
  - intros (t & c & Ht & E & Hq). specialize (H t c Ht E). destruct (f c) as [e|] eqn:Ef; [|done].
    exists e. split; [|by apply H]. apply list_elem_of_omap. exists t. split; [done|]. by rewrite E.
Qed.

(** The set of the ranges of [entries] contains the addresses of their
    networks and no others. *)
Lemma cidr_set_exact (entries : list bytes) set fam x :
  ngx_http_waf_ds_build_cidr true
    (ngx_http_waf_ds_sort_uniq qsort ngx_http_waf_ds_cmp_r4 (omap (fun t => ptocidr t ≫= range4) entries))
    (ngx_http_waf_ds_sort_uniq qsort ngx_http_waf_ds_cmp_r6 (omap (fun t => ptocidr t ≫= range6) entries)) = Some set ->
  address fam x ->
  (ngx_http_waf_ds_lookup_cidr set fam x = true <->
   exists t c, t ∈ entries /\ ptocidr t = Some c /\ cidr_has c fam x).
Proof.
  intros [= <-] Ha. set (l4 := omap _ entries). set (l6 := omap _ entries).
  pose proof Ha as [Hb [(-> & Hx)|(-> & Hx & Hm)]].
  - rewrite lookup4_spec.
    + setoid_rewrite (sort_uniq_elem ngx_http_waf_ds_cmp_r4); [|intros; by apply cmp_r4_eq].
      apply omap_ranges. intros t c _ Hc. destruct (range4 c) eqn:E; [|by apply range4_none].
      apply range4_net; eauto.
    + eapply ssorted_impl; [|apply sort_uniq_sorted, cmp_r4_orders]. intros ? ? _ _ ?%cmp_r4_le. lia.
  - assert (Hok : Forall r6_ok l6).
    { apply Forall_forall. intros e (t & _ & He)%list_elem_of_omap. destruct (ptocidr t) as [c|] eqn:E; [|done].
      eapply (range6_net c e x); eauto. }
    rewrite Forall_forall in Hok.
    assert (Hin : forall e, e ∈ ngx_http_waf_ds_sort_uniq qsort ngx_http_waf_ds_cmp_r6 l6 <-> e ∈ l6).
    { intros e. apply sort_uniq_elem. intros a b Hea Heb. apply cmp_r6_eq; auto. }
    rewrite lookup6_spec; [| |apply Forall_forall; intros e He; apply Hok, Hin, He|done|done].
    + setoid_rewrite Hin. apply omap_ranges. intros t c _ Hc. destruct (range6 c) eqn:E; [|apply range6_none; eauto].
      eapply range6_net; eauto.
    + eapply ssorted_impl; [|apply sort_uniq_sorted, cmp_r6_orders, Forall_forall, Hok].
      intros a b Hea%Hin Heb%Hin ?%cmp_r6_le; [lia|auto|auto].
Qed.

End cidrs.

End DsSetFacts.
