(* ===== verification/DsStrFacts.v ===== *)
(** The open-addressing table of strings: the probe ends and finds exactly
    the entries, and a dataset's set as a whole contains what its
    configuration lists. *)
From stdpp Require Import sets sorting.
From S2P Require Import Prelude Types RateFacts DsSet DsSetFacts.
Import RateFacts DsSet DsSetFacts.
#[local] Open Scope Z_scope.

Module DsStrFacts.

(** ** Entries of the blob *)

Lemma length_area s off len : 0 <= len -> zlen (area s off len) = len.
Proof. intros. unfold zlen, area. rewrite length_map, length_seqZ. lia. Qed.

Lemma area_ext s t off len :
  (forall i, off <= i < off + len -> aget 0 s i = aget 0 t i) -> area s off len = area t off len.
Proof. intros H. unfold area. apply map_ext_in. intros i Hi%list_elem_of_In%elem_of_seqZ. apply H. lia. Qed.

Lemma aget_app_l {A} (d : A) l k i : 0 <= i < zlen l -> aget d (l ++ k) i = aget d l i.
Proof. unfold zlen. intros. rewrite !aget_lookup by lia. by rewrite lookup_app_l by lia. Qed.

Lemma aget_app_r {A} (d : A) l k i : zlen l <= i -> aget d (l ++ k) i = aget d k (i - zlen l).
Proof.
  unfold zlen. intros. rewrite !aget_lookup by lia. rewrite lookup_app_r by lia. do 2 f_equal. lia.
Qed.

Lemma area_all s : area s 0 (zlen s) = s.
Proof.
  apply list_eq_same_length with (n := length s); [done|unfold area, zlen; rewrite length_map, length_seqZ; lia|].
  intros i x y Hi Hx Hy. unfold area in Hx. change (map (aget 0 s)) with (fmap (M := list) (aget 0 s)) in Hx.
  rewrite list_lookup_fmap, lookup_seqZ_lt in Hx by (unfold zlen; lia). injection Hx as <-.
  rewrite aget_lookup, Z.add_0_l, Nat2Z.id, Hy by lia. done.
Qed.

Definition entry_at (blob : bytes) (e : Z) (s : bytes) : Prop :=
  0 <= e /\ e + 2 + zlen s <= zlen blob /\
  Z.shiftl (aget 0 blob e) 8 + aget 0 blob (e + 1) = zlen s /\ area blob (e + 2) (zlen s) = s.

Lemma entry_at_app blob k e s : entry_at blob e s -> entry_at (blob ++ k) e s.
Proof.
  intros (H0 & H1 & H2 & H3). pose proof (zlen_nonneg s). unfold entry_at. rewrite zlen_app.
  pose proof (zlen_nonneg k). rewrite !aget_app_l by lia. split_and!; [done|lia|done|].
  rewrite <- H3 at 2. apply area_ext. intros i Hi. apply aget_app_l. lia.
Qed.

Lemma entry_at_new blob s :
  zlen s <= NGX_HTTP_WAF_DS_ENTRY_MAX ->
  entry_at (blob ++ [u8 (Z.shiftr (zlen s) 8); u8 (Z.land (zlen s) 255)] ++ s) (zlen blob) s.
Proof.
  intros Hs. unfold NGX_HTTP_WAF_DS_ENTRY_MAX in Hs. pose proof (zlen_nonneg s). pose proof (zlen_nonneg blob).
  unfold entry_at.
  assert (Hz : forall a b, zlen (blob ++ [a; b] ++ s) = zlen blob + 2 + zlen s)
    by (intros; rewrite !zlen_app; unfold zlen; cbn; lia).
  rewrite Hz. split_and!; [lia|lia| |].
  - rewrite (aget_app_r 0 blob _ (zlen blob)), (aget_app_r 0 blob _ (zlen blob + 1)) by lia.
    replace (zlen blob - zlen blob) with 0 by lia. replace (zlen blob + 1 - zlen blob) with 1 by lia.
    change (aget 0 ([?a; ?b] ++ s) 0) with a. change (aget 0 ([?a; ?b] ++ s) 1) with b.
    change 255 with (Z.ones 8). rewrite Z.land_ones, Z.shiftr_div_pow2, Z.shiftl_mul_pow2 by lia.
    unfold u8. change (2 ^ 8) with 256. rewrite !Z.mod_mod by lia.
    rewrite (Z.mod_small (zlen s / 256)) by (Z.to_euclidean_division_equations; lia).
    pose proof (Z.div_mod (zlen s) 256). lia.
  - etrans; [|apply area_all]. unfold area.
    replace (seqZ (zlen blob + 2) (zlen s)) with (map (Z.add (zlen blob + 2)) (seqZ 0 (zlen s)))
      by (rewrite <- (Z.add_0_r (zlen blob + 2)) at 2; apply fmap_add_seqZ).
    rewrite map_map. apply map_ext_in. intros i Hi%list_elem_of_In%elem_of_seqZ. rewrite app_assoc.
    assert (Hy : forall a b, zlen (blob ++ [a; b]) = zlen blob + 2) by (intros; by rewrite zlen_app).
    rewrite aget_app_r, Hy by (rewrite Hy; lia). f_equal. lia.
Qed.

Lemma entry_is_spec set e s d :
  entry_at set.(ss_blob) e s -> entry_is set (e + 1) d = bool_decide (d = s).
Proof.
  intros (H0 & H1 & H2 & H3). unfold entry_is. cbn zeta. replace (e + 1 - 1) with e by lia. rewrite H2.
  apply eq_true_iff_eq. rewrite andb_true_iff, !Z.eqb_eq, bool_decide_eq_true. split.
  - intros [Hl Hm]. rewrite <- Hl, H3 in Hm. symmetry. by apply memcmp_eq in Hm.
  - intros ->. split; [done|]. rewrite H3. by apply memcmp_eq.
Qed.

(** ** Linear probing *)

(** The cells of a table as a function; a taken cell holds an entry of the
    blob. *)
Definition cell (set : str_set) (i : Z) (o : option bytes) : Prop :=
  match o with
  | None => aget 0 set.(ss_table) i = 0
  | Some s => aget 0 set.(ss_table) i <> 0 /\ entry_at set.(ss_blob) (aget 0 set.(ss_table) i - 1) s
  end.

Section table.
Context (crc32_short : bytes -> Z).

Definition pos (n h d : Z) : Z := (h + d) mod n.
Definition home (n : Z) (s : bytes) : Z := crc32_short s mod n.

(** The [d] cells from the home of [x] are taken by other strings. *)
Definition passed (n : Z) (f : Z -> option bytes) (x : bytes) (d : Z) : Prop :=
  forall d', 0 <= d' < d -> exists s, f (pos n (home n x) d') = Some s /\ s <> x.

Record str_inv (set : str_set) (items : list bytes) (f : Z -> option bytes) : Prop := {
  si_mask : exists k, 0 <= k /\ set.(ss_mask) = 2 ^ k - 1;
  si_size : zlen set.(ss_table) = set.(ss_mask) + 1;
  si_cell : forall i, 0 <= i <= set.(ss_mask) -> cell set i (f i);
  si_path : forall i s, 0 <= i <= set.(ss_mask) -> f i = Some s ->
      exists d, 0 <= d <= set.(ss_mask) /\ i = pos (set.(ss_mask) + 1) (home (set.(ss_mask) + 1) s) d /\
                passed (set.(ss_mask) + 1) f s d;
  si_items : forall s, s ∈ items <-> exists i, 0 <= i <= set.(ss_mask) /\ f i = Some s;
  si_free : (length (filter (fun o : Z => o <> 0%Z) set.(ss_table)) <= length items)%nat
}.

Lemma land_mask_mod x m : (exists k, 0 <= k /\ m = 2 ^ k - 1) -> Z.land x m = x mod (m + 1).
Proof.
  intros (k & Hk & ->). pose proof (Z.ones_equiv k). replace (2 ^ k - 1) with (Z.ones k) by lia.
  rewrite Z.land_ones by done. f_equal. lia.
Qed.

Lemma mask_nonneg m : (exists k, 0 <= k /\ m = 2 ^ k - 1) -> 0 <= m.
Proof. intros (k & Hk & ->). assert (0 < 2 ^ k) by (apply Z.pow_pos_nonneg; lia). lia. Qed.

Lemma pos_range n h d : 0 < n -> 0 <= pos n h d < n.
Proof. intros. by apply Z.mod_pos_bound. Qed.

Lemma pos_step n h d : 0 < n -> (pos n h d + 1) mod n = pos n h (d + 1).
Proof. intros. unfold pos. rewrite Zplus_mod_idemp_l. f_equal. lia. Qed.

Lemma passed_step n f x d s :
  passed n f x d -> f (pos n (home n x) d) = Some s -> s <> x -> passed n f x (d + 1).
Proof.
  intros Hp Hs Hne d' Hd. destruct (Z.eq_dec d' d) as [->|]; [by exists s|]. apply Hp. lia.
Qed.

Lemma probe_loop_spec set f x fuel d :
  let n := set.(ss_mask) + 1 in
  (exists k, 0 <= k /\ set.(ss_mask) = 2 ^ k - 1) ->
  (forall i, 0 <= i <= set.(ss_mask) -> cell set i (f i)) ->
  0 <= d -> d + Z.of_nat fuel = n -> passed n f x d ->
  match probe_loop fuel set x (pos n (home n x) d) with
  | Some (hit, j) => exists D, 0 <= D < n /\ j = pos n (home n x) D /\ passed n f x D /\
                               f j = (if hit : bool then Some x else None)
  | None => passed n f x n
  end.
Proof.
  intros n Hm Hc. pose proof (mask_nonneg _ Hm) as Hm0. revert d. induction fuel as [|fuel IH]; intros d Hd Hf Hp; cbn [probe_loop].
  { by replace d with n in Hp by lia. }
  set (i := pos n (home n x) d).
  pose proof (pos_range n (home n x) d ltac:(lia)) as Hi. fold i in Hi.
  pose proof (Hc i ltac:(lia)) as Hci. destruct (f i) as [s|] eqn:Ei; cbn [cell] in Hci.
  - destruct Hci as [Hoff He]. rewrite (proj2 (Z.eqb_neq _ _) Hoff).
    set (off := aget 0 (ss_table set) i) in *.
    pose proof (entry_is_spec set (off - 1) s x He) as Ee. replace (off - 1 + 1) with off in Ee by lia.
    rewrite Ee. case_bool_decide as Hx.
    + subst s. exists d. split_and!; [lia|lia|done|done|done].
    + rewrite land_mask_mod by done. fold n. unfold i. rewrite pos_step by lia.
      apply IH; [lia|lia|]. eapply passed_step; [done|exact Ei|congruence].
  - rewrite Hci. exists d. split_and!; [lia|lia|done|done|done].
Qed.

(** Every cell is some distance away from the home of a string. *)
Lemma pos_reaches n h i : 0 < n -> 0 <= i < n -> exists d, 0 <= d < n /\ pos n h d = i.
Proof.
  intros Hn Hi. exists ((i - h) mod n). split; [by apply Z.mod_pos_bound|]. unfold pos.
  rewrite Zplus_mod_idemp_r. replace (h + (i - h)) with i by lia. by apply Z.mod_small.
Qed.

Lemma free_cell (l : list Z) : (length (filter (fun o : Z => o <> 0%Z) l) < length l)%nat -> exists i, 0 <= i < zlen l /\ aget 0 l i = 0.
Proof.
  induction l as [|x l IH]; [cbn; lia|]. rewrite filter_cons, zlen_cons. destruct (decide (x <> 0)) as [Hx|Hx].
  - cbn [length]. intros Hl. destruct IH as (i & Hi & E); [lia|]. exists (1 + i). split; [lia|].
    rewrite aget_lookup in * by lia. by replace (Z.to_nat (1 + i)) with (S (Z.to_nat i)) by lia.
  - intros _. exists 0. pose proof (zlen_nonneg l). split; [lia|]. change (aget 0 (x :: l) 0) with x.
    destruct (decide (x = 0)); [done|]. by destruct Hx.
Qed.

Lemma filter_aset (l : list Z) i v :
  (length (filter (fun o : Z => o <> 0%Z) (aset l i v)) <= S (length (filter (fun o : Z => o <> 0%Z) l)))%nat.
Proof.
  unfold aset. destruct (i <? 0); [lia|]. generalize (Z.to_nat i) as k. induction l as [|x l IH]; intros k; [destruct k; cbn; lia|].
  destruct k as [|k].
  - change (<[0%nat := v]> (x :: l)) with (v :: l). rewrite !filter_cons. repeat case_decide; cbn [length]; lia.
  - specialize (IH k). change (<[S k := v]> (x :: l)) with (x :: <[k := v]> l). rewrite !filter_cons. case_decide; cbn [length]; lia.
Qed.

(** The probe ends and answers membership. *)
Lemma probe_spec set items f x :
  str_inv set items f -> Z.of_nat (length items) < zlen set.(ss_table) ->
  let n := set.(ss_mask) + 1 in
  exists hit j D, ngx_http_waf_ds_str_probe crc32_short set x = Some (hit, j) /\
    (hit = true <-> x ∈ items) /\ 0 <= j < n /\ 0 <= D < n /\ j = pos n (home n x) D /\ passed n f x D /\
    f j = (if hit : bool then Some x else None).
Proof.
  intros Hi Hlen n. destruct Hi as [Hm Hsz Hc Hp Hit Hfree]. pose proof (mask_nonneg _ Hm) as Hm0.
  unfold ngx_http_waf_ds_str_probe. rewrite land_mask_mod by done. fold n. fold (home n x).
  pose proof (probe_loop_spec set f x (length (ss_table set)) 0 Hm Hc ltac:(lia)) as H. fold n in H.
  replace (pos n (home n x) 0) with (home n x) in H.
  2:{ unfold pos, home. rewrite Z.add_0_r, Z.mod_mod by lia. done. }
  specialize (H ltac:(unfold zlen in Hsz; lia) ltac:(intros ? ?; lia)).
  destruct (probe_loop _ _ _ _) as [[hit j]|].
  - destruct H as (D & HD & Hj & Hpass & Hf). exists hit, j, D.
    pose proof (pos_range n (home n x) D ltac:(lia)) as Hjr. rewrite <- Hj in Hjr.
    split; [done|]. split; [|split_and!; (done || lia)]. split.
    + intros ->. apply Hit. exists j. split; [lia|done].
    + intros (i & Hir & Hx)%Hit. destruct hit; [done|]. exfalso.
      destruct (Hp i x Hir Hx) as (d & Hd & Hid & Hpd). fold n in Hid, Hpd.
      destruct (Z.lt_trichotomy d D) as [Hlt|[->|Hgt]].
      * destruct (Hpass d ltac:(lia)) as (s & Hs & Hne). rewrite <- Hid in Hs. congruence.
      * congruence.
      * destruct (Hpd D ltac:(lia)) as (s & Hs & Hne). rewrite <- Hj in Hs. congruence.
  - exfalso. destruct (free_cell (ss_table set)) as (i & Hir & Ei); [unfold zlen in Hlen; lia|].
    destruct (pos_reaches n (home n x) i ltac:(lia) ltac:(lia)) as (d & Hd & Hdi).
    destruct (H d Hd) as (s & Hs & _). rewrite Hdi in Hs. pose proof (Hc i ltac:(lia)) as Hci.
    rewrite Hs in Hci. by destruct Hci.
Qed.

Lemma str_inv_blob set items f k :
  str_inv set items f -> str_inv (set <| ss_blob ::= fun b => b ++ k |>) items f.
Proof.
  intros [Hm Hsz Hc Hp Hit Hfree]. constructor; try done. cbn [ss_mask]. intros i Hi. specialize (Hc i Hi).
  unfold cell in *. cbn [ss_table ss_blob]. destruct (f i); [|done]. destruct Hc. split; [done|]. by apply entry_at_app.
Qed.

Lemma str_inv_put set items f x j D hit :
  let n := set.(ss_mask) + 1 in
  str_inv set items f -> 0 <= j < n -> 0 <= D < n -> j = pos n (home n x) D -> passed n f x D ->
  f j = (if hit : bool then Some x else None) ->
  forall v, v <> 0 -> entry_at set.(ss_blob) (v - 1) x ->
  str_inv (set <| ss_table ::= fun t => aset t j v |>) (items ++ [x]) (fun i => if i =? j then Some x else f i).
Proof.
  intros n [Hm Hsz Hc Hp Hit Hfree] Hj HD Hpos Hpass Hf v Hv He. set (f' := fun i => if i =? j then Some x else f i).
  assert (Hfj : forall i s, f i = Some s -> f' i = Some s).
  { intros i s Hs. unfold f'. destruct (Z.eqb_spec i j) as [->|]; [|done]. destruct hit; congruence. }
  assert (Hpp : forall s d, passed n f s d -> passed n f' s d).
  { intros s d H d' Hd. destruct (H d' Hd) as (s' & Hs & Hne). exists s'. split; [by apply Hfj|done]. }
  constructor; cbn [ss_mask ss_table ss_blob upd]; fold n.
  - done.
  - by rewrite zlen_aset.
  - intros i Hi. unfold f', cell. cbn [ss_table ss_blob upd]. destruct (Z.eqb_spec i j) as [->|Hne].
    + rewrite aget_aset_eq by lia. done.
    + rewrite aget_aset_ne by done. by apply (Hc i).
  - intros i s Hi Hs. unfold f' in Hs. destruct (Z.eqb_spec i j) as [->|Hne].
    + injection Hs as <-. exists D. split_and!; [lia|lia|done|by apply Hpp].
    + destruct (Hp i s Hi Hs) as (d & Hd & Hid & Hpd). exists d. split_and!; [lia|lia|done|by apply Hpp].
  - intros s. rewrite elem_of_app, list_elem_of_singleton, Hit. split.
    + intros [(i & Hi & Hs)| ->]; [exists i; split; [done|by apply Hfj]|].
      exists j. split; [lia|]. unfold f'. by rewrite Z.eqb_refl.
    + intros (i & Hi & Hs). unfold f' in Hs. destruct (Z.eqb_spec i j) as [->|]; [right; congruence|left; by exists i].
  - rewrite length_app. cbn [length]. pose proof (filter_aset (ss_table set) j v). lia.
Qed.

Lemma str_add_spec set items f x :
  str_inv set items f -> Z.of_nat (length items) < zlen set.(ss_table) ->
  zlen x <= NGX_HTTP_WAF_DS_ENTRY_MAX -> zlen set.(ss_blob) < 2 ^ 32 - 1 ->
  exists set' f', str_add crc32_short x set = Some set' /\ str_inv set' (items ++ [x]) f' /\
    set'.(ss_mask) = set.(ss_mask) /\ zlen set'.(ss_blob) = zlen set.(ss_blob) + 2 + zlen x.
Proof.
  intros Hi Hlen Hx Hb. unfold str_add. cbn zeta. set (k := [_; _] ++ x).
  set (set1 := set <| ss_blob ::= fun b => b ++ k |>).
  destruct (probe_spec set1 items f x (str_inv_blob _ _ _ k Hi) Hlen) as (hit & j & D & E & _ & Hj & HD & Hpos & Hpass & Hf).
  rewrite E. cbn [mbind option_bind]. eexists _, _. split; [reflexivity|].
  pose proof (zlen_nonneg (ss_blob set)).
  assert (Ev : u32 (u32 (zlen (ss_blob set)) + 1) = zlen (ss_blob set) + 1).
  { rewrite (u32_small (zlen _)) by (unfold is_u32; lia). apply u32_small. unfold is_u32. lia. }
  split; [|split; [done|]].
  - rewrite Ev. apply (str_inv_put set1 items f x j D hit); try done; [by apply str_inv_blob|lia|].
    replace (zlen (ss_blob set) + 1 - 1) with (zlen (ss_blob set)) by lia. by apply entry_at_new.
  - cbn [ss_blob upd set1]. unfold k. rewrite !zlen_app. change (zlen [?a; ?b]) with 2. lia.
Qed.

Lemma str_fill_spec items set done_ f :
  str_inv set done_ f -> Z.of_nat (length done_ + length items) <= zlen set.(ss_table) ->
  (forall x, x ∈ items -> zlen x <= NGX_HTTP_WAF_DS_ENTRY_MAX) ->
  zlen set.(ss_blob) + foldr (fun x n => 2 + zlen x + n) 0 items < 2 ^ 32 - 1 ->
  exists set' f', str_fill crc32_short items set = Some set' /\ str_inv set' (done_ ++ items) f' /\
    set'.(ss_mask) = set.(ss_mask).
Proof.
  revert set done_ f. induction items as [|x items IH]; intros set dn f Hi Hlen Hx Hb; cbn [str_fill].
  { exists set, f. rewrite app_nil_r. by split_and!. }
  cbn [foldr length] in *.
  assert (Hnn : 0 <= foldr (fun x n => 2 + zlen x + n) 0 items).
  { clear. induction items as [|y items IH]; cbn [foldr]; [lia|]. pose proof (zlen_nonneg y). lia. }
  pose proof (zlen_nonneg x).
  destruct (str_add_spec set dn f x Hi) as (set1 & f1 & E & Hi1 & Hm & Hbl); [lia|apply Hx; by left|lia|].
  rewrite E. cbn [mbind option_bind].
  assert (Hz : zlen (ss_table set1) = zlen (ss_table set)).
  { rewrite (si_size _ _ _ Hi1), (si_size _ _ _ Hi). by rewrite Hm. }
  destruct (IH set1 (dn ++ [x]) f1 Hi1) as (set2 & f2 & E2 & Hi2 & Hm2);
    [rewrite Hz, length_app; cbn [length]; lia|intros y Hy; apply Hx; by right|lia|].
  exists set2, f2. rewrite <- app_assoc in Hi2. split_and!; [done|done|by rewrite Hm2].
Qed.

(** ** The whole set *)

Definition blob_sum (items : list bytes) : Z := foldr (fun x n => 2 + zlen x + n) 0 items.

Lemma table_size_spec fuel k n :
  0 <= k -> n * 2 <= 2 ^ k * 2 ^ Z.of_nat fuel ->
  exists k', k <= k' /\ table_size fuel (2 ^ k) n = 2 ^ k' /\ n * 2 <= 2 ^ k'.
Proof.
  revert k. induction fuel as [|fuel IH]; intros k Hk Hn; cbn [table_size].
  - exists k. cbn in Hn. split_and!; [lia|done|lia].
  - destruct (Z.ltb_spec (2 ^ k) (n * 2)).
    + replace (2 ^ k * 2) with (2 ^ (k + 1)) by (rewrite Z.pow_add_r by lia; lia).
      destruct (IH (k + 1)) as (k' & Hk' & E & Hl); [lia| |exists k'; split_and!; [lia|done|done]].
      rewrite Nat2Z.inj_succ, Z.pow_succ_r in Hn by lia. rewrite Z.pow_add_r by lia. lia.
    + exists k. split_and!; [lia|done|done].
Qed.

Lemma blob_length_spec items b :
  match blob_length items b with
  | Some n => (forall x, x ∈ items -> zlen x <= NGX_HTTP_WAF_DS_ENTRY_MAX) /\ n = b + blob_sum items
  | None => exists x, x ∈ items /\ NGX_HTTP_WAF_DS_ENTRY_MAX < zlen x
  end.
Proof.
  revert b. induction items as [|x items IH]; intros b; cbn [blob_length blob_sum foldr]; [set_solver by lia|].
  destruct (Z.ltb_spec NGX_HTTP_WAF_DS_ENTRY_MAX (zlen x)) as [Hx|Hx]; [exists x; split; [by left|done]|].
  specialize (IH (b + 2 + zlen x)). destruct (blob_length _ _) as [n|].
  - destruct IH as [H1 ->]. split; [set_solver by lia|]. fold (blob_sum items). lia.
  - destruct IH as (y & Hy & ?). exists y. split; [by right|done].
Qed.

Lemma aget_replicate n i : aget 0 (replicate n 0) i = 0.
Proof.
  unfold aget. destruct (i <? 0); [done|]. rewrite nth_lookup. destruct (_ !! _) eqn:E; [|done].
  by apply lookup_replicate in E as [-> _].
Qed.

Lemma str_inv0 k : 0 <= k -> str_inv (mkStrSet 0 (2 ^ k - 1) (replicate (Z.to_nat (2 ^ k)) 0) []) [] (fun _ => None).
Proof.
  intros Hk. assert (0 < 2 ^ k) by (apply Z.pow_pos_nonneg; lia). constructor; cbn [ss_mask ss_table ss_blob].
  - by exists k.
  - unfold zlen. rewrite length_replicate. lia.
  - intros i Hi. apply aget_replicate.
  - done.
  - intros s. split; [by intros ?%elem_of_nil|by intros (? & _ & ?)].
  - induction (Z.to_nat (2 ^ k)) as [|m IH]; [done|]. cbn [replicate]. rewrite filter_cons_False by lia. done.
Qed.

(** Building never runs on; a set that is built answers membership. *)
Lemma build_str_spec ok items :
  exists r, ngx_http_waf_ds_build_str crc32_short ok items = Some r /\
  match r with
  | Some set => set.(ss_entries) = zlen items /\ (forall x, x ∈ items -> zlen x <= NGX_HTTP_WAF_DS_ENTRY_MAX) /\
                forall v, exists hit slot, ngx_http_waf_ds_str_probe crc32_short set v = Some (hit, slot) /\ (hit = true <-> v ∈ items)
  | None => ok = false \/ (exists x, x ∈ items /\ NGX_HTTP_WAF_DS_ENTRY_MAX < zlen x) \/ 2 ^ 32 - 1 <= blob_sum items
  end.
Proof.
  unfold ngx_http_waf_ds_build_str. cbn zeta. pose proof (blob_length_spec items 0) as Hb.
  destruct (blob_length items 0) as [n|]; [|eexists; split; [reflexivity|cbn]; right; by left].
  destruct Hb as [Hx Hn]. rewrite Z.add_0_l in Hn. subst n.
  destruct (Z.leb_spec 0xffffffff (blob_sum items)) as [Hl|Hl];
    [eexists; split; [reflexivity|cbn]; right; right; lia|].
  destruct ok; cbn [negb]; [|eexists; split; [reflexivity|cbn]; by left].
  destruct (table_size_spec (length items) 3 (zlen items)) as (k & Hk & E & Htn); [lia| |].
  { unfold zlen. pose proof (Z.pow_gt_lin_r 2 (Z.of_nat (length items))). lia. }
  change (2 ^ 3) with 8 in E. rewrite E. 
  assert (H0 : 2 ^ 3 <= 2 ^ k) by (apply Z.pow_le_mono_r; lia).
  assert (Hz : zlen (replicate (Z.to_nat (2 ^ k)) 0) = 2 ^ k) by (unfold zlen; rewrite length_replicate; lia).
  destruct (str_fill_spec items _ [] _ (str_inv0 k ltac:(lia))) as (set & f & Ef & Hi & Hm).
  { cbn [ss_table]. rewrite Hz. cbn [length]. unfold zlen in Htn. lia. }
  { done. }
  { cbn [ss_blob]. unfold blob_sum in Hl. rewrite zlen_nil. lia. }
  rewrite Ef. cbn [mbind option_bind]. eexists. split; [reflexivity|cbn]. split; [done|]. split; [done|]. intros v.
  assert (Hi' : str_inv (set <| ss_entries := zlen items |>) items f) by (destruct Hi; by constructor).
  destruct (probe_spec _ items f v Hi') as (hit & j & D & E1 & E2 & _).
  { pose proof (si_size _ _ _ Hi) as Hs. cbn [ss_table upd]. rewrite Hs, Hm. cbn [ss_mask]. unfold zlen in *. lia. }
  exists hit, j. done.
Qed.

End table.

(** Of nginx: [ngx_memn2cmp] tells different strings apart, and the parsers
    of addresses write four and sixteen bytes. *)
Class Memn2Cmp (memn2cmp : bytes -> bytes -> Z) := memn2cmp_zero : forall x y, memn2cmp x y = 0 -> x = y.
Class InetAddr (inet_addr inet6_addr : bytes -> option bytes) := {
  inet_addr_ok : forall v a, inet_addr v = Some a -> zlen a = 4 /\ is_bytes a;
  inet6_addr_ok : forall v a, inet6_addr v = Some a -> zlen a = 16 /\ is_bytes a
}.

Section datasets.
Context {ptocidr : bytes -> option cidr_t} `{!PtoCidr ptocidr}.
Context {qsort : forall A : Type, (A -> A -> Z) -> list A -> list A} `{!QSort qsort}.
Context {memn2cmp : bytes -> bytes -> Z} `{!Memn2Cmp memn2cmp}.
Context {inet_addr inet6_addr : bytes -> option bytes} `{!InetAddr inet_addr inet6_addr}.
Context (crc32_short : bytes -> Z).

Abbreviation build := (ngx_http_waf_ds_build ptocidr qsort crc32_short memn2cmp).

Lemma unmap_address x : zlen x = 16 -> is_bytes x -> address (fst (unmap x)) (snd (unmap x)).
Proof.
  intros Hx Hb. unfold unmap, address. destruct (mapped_addr x) eqn:E; cbn [fst snd].
  - split; [by apply Forall_take, Forall_drop|]. left. split; [done|]. unfold zlen in *.
    rewrite length_take, length_drop. lia.
  - split; [done|]. right. done.
Qed.

Lemma ds_addr_address v binary fam x :
  is_bytes v -> ngx_http_waf_ds_addr inet_addr inet6_addr v binary = Some (fam, x) -> address fam x.
Proof.
  intros Hv. unfold ngx_http_waf_ds_addr. destruct binary.
  - destruct (Z.eqb_spec (zlen v) 4); [intros [= <- <-]; split; [done|by left]|].
    destruct (Z.eqb_spec (zlen v) 16) as [E|]; [|done]. intros [= H].
    pose proof (unmap_address v E Hv) as Ha. by rewrite H in Ha.
  - destruct (inet_addr v) as [a|] eqn:E.
    + intros [= <- <-]. apply inet_addr_ok in E as [? ?]. split; [done|by left].
    + destruct (inet6_addr v) as [a|] eqn:E6; [|done]. intros [= H]. apply inet6_addr_ok in E6 as [E6 Hb].
      pose proof (unmap_address a E6 Hb) as Ha. by rewrite H in Ha.
Qed.

Lemma push_all_ok entries : push_all entries [] = (true, []).
Proof. unfold push_all. induction entries as [|e entries IH]; [done|]. exact IH. Qed.

Lemma build_cidr_runs entries :
  Forall (parses (ptocidr := ptocidr)) entries -> entries <> [] -> exists set, build DS_CIDR entries [] = Some (NGX_OK, Some (CidrSet set)).
Proof.
  intros Hp Hne. unfold ngx_http_waf_ds_build.
  destruct (Z.eqb_spec (zlen entries) 0) as [Hz|_]; [by destruct entries; [|rewrite zlen_cons in Hz; pose proof (zlen_nonneg entries); lia]|].
  destruct (entries_loop_runs entries [] [] Hp) as (r4 & r6 & E). cbn -[entries_loop ngx_http_waf_ds_build_cidr].
  rewrite E. by eexists.
Qed.

(** C32: A set built from a configuration's networks contains exactly the
    addresses of these networks: whatever text or binary value a request
    yields, once it is read as an address, the bisection over the sorted
    ranges and the running maximum of their ends answers whether the address
    agrees with one of the networks under its mask.  Overlapping and nested
    networks, duplicates, both families and IPv4 addresses in IPv6 notation
    included. *)
Theorem cidr_set_contains_networks entries mem set value binary fam x :
  build DS_CIDR entries mem = Some (NGX_OK, Some (CidrSet set)) ->
  is_bytes value -> ngx_http_waf_ds_addr inet_addr inet6_addr value binary = Some (fam, x) ->
  (ngx_http_waf_ds_lookup_cidr set fam x = true <->
   exists text net, text ∈ entries /\ ptocidr text = Some net /\ cidr_has net fam x).
Proof.
  intros Hb Hv Ha. apply ds_addr_address in Ha; [|done]. unfold ngx_http_waf_ds_build in Hb.
  destruct (zlen entries =? 0); [done|]. destruct (alloc mem) as [[] m1]; [|done]. cbn [negb] in Hb.
  change (DS_CIDR ==? DS_CIDR) with true in Hb. cbn iota in Hb.
  destruct (alloc m1) as [[] m2], (alloc m2) as [[] m3]; try done. cbn [negb orb] in Hb.
  destruct (entries_loop ptocidr entries m3 [] []) as [[[rc m4] r4] r6] eqn:El.
  destruct rc; try done. apply entries_loop_spec in El as (_ & -> & ->). rewrite !app_nil_l in Hb.
  cbn [rc_ok negb] in Hb. change (rc_ok NGX_OK) with true in Hb. cbn [negb] in Hb.
  destruct (fst (alloc m4)); [|done].
  destruct (ngx_http_waf_ds_build_cidr true _ _) as [s|] eqn:Es; [|done]. injection Hb as ->.
  by apply (cidr_set_exact entries set fam x Es).
Qed.

(** A set built from a configuration's strings answers exactly
    membership, and every probe of it ends: the table is never full, so that
    linear probing meets the string or a free cell. *)
Theorem str_set_contains_entries entries mem set value :
  build DS_STRING entries mem = Some (NGX_OK, Some (StrSet set)) ->
  exists hit slot, ngx_http_waf_ds_str_probe crc32_short set value = Some (hit, slot) /\
                   (hit = true <-> value ∈ entries).
Proof.
  unfold ngx_http_waf_ds_build. destruct (zlen entries =? 0); [done|]. destruct (alloc mem) as [[] m1]; [|done].
  change (DS_STRING ==? DS_CIDR) with false. cbn [negb]. cbn iota. destruct (alloc m1) as [[] m2]; [|done].
  destruct (push_all entries m2) as [[] m3]; [|done]. cbn [negb].
  set (str := ngx_http_waf_ds_sort_uniq _ _ _).
  destruct (build_str_spec crc32_short (fst (alloc m3)) str) as (r & -> & Hr). cbn [mbind option_bind].
  destruct r as [s|]; [|done]. intros [= ->]. destruct Hr as (_ & _ & Hr). destruct (Hr value) as (hit & slot & E & Hh).
  exists hit, slot. split; [done|]. rewrite Hh. apply sort_uniq_elem. intros a b _ _. apply memn2cmp_zero.
Qed.

Lemma blob_sum_perm l k : l ≡ₚ k -> blob_sum l = blob_sum k.
Proof. unfold blob_sum. induction 1; cbn [foldr]; lia. Qed.

Lemma blob_sum_sublist l k : l `sublist_of` k -> blob_sum l <= blob_sum k.
Proof.
  unfold blob_sum. induction 1 as [|x l k Hl IH|x l k Hl IH]; cbn [foldr]; [lia|lia|]. pose proof (zlen_nonneg x). lia.
Qed.

Lemma blob_sum_uniq (l : list bytes) (cmp : bytes -> bytes -> Z) : blob_sum (ngx_http_waf_ds_sort_uniq qsort cmp l) <= blob_sum l.
Proof.
  unfold ngx_http_waf_ds_sort_uniq. destruct (zlen l <? 2); [lia|]. rewrite <- (blob_sum_perm _ _ (qsort_perm bytes cmp l)).
  destruct (qsort bytes cmp l) as [|e rest]; [lia|]. apply blob_sum_sublist, sublist_skip, uniq_loop_sub.
Qed.

(** What the entries of a dataset must be for its set to be built. *)
Definition entry_ok (type : ds_type_e) (e : bytes) : Prop :=
  match type with DS_CIDR => parses (ptocidr := ptocidr) e | DS_STRING => zlen e <= NGX_HTTP_WAF_DS_ENTRY_MAX end.

Lemma build_cidr_shape entries mem :
  entries <> [] -> exists rc out, build DS_CIDR entries mem = Some (rc, out) /\
    (rc = NGX_ERROR /\ out = None \/
     rc = NGX_OK /\ Forall (entry_ok DS_CIDR) entries /\ exists set, out = Some (CidrSet set)).
Proof.
  intros Hne. unfold ngx_http_waf_ds_build. assert (Hfail : forall o : option (ngx_rc * option ds_set),
    o = Some (NGX_ERROR, None) -> exists rc out, o = Some (rc, out) /\ (rc = NGX_ERROR /\ out = None \/
      rc = NGX_OK /\ Forall (entry_ok DS_CIDR) entries /\ exists set, out = Some (CidrSet set))).
  { intros o ->. eexists _, _. split; [done|]. by left. }
  destruct (Z.eqb_spec (zlen entries) 0) as [Hz|_]; [by destruct entries|].
  destruct (alloc mem) as [[] m1]; [|by apply Hfail]. change (DS_CIDR ==? DS_CIDR) with true. cbn [negb]. cbn iota.
  destruct (alloc m1) as [[] m2], (alloc m2) as [[] m3]; try by apply Hfail. cbn [negb orb].
  destruct (entries_loop ptocidr entries m3 [] []) as [[[rc m4] r4] r6] eqn:El.
  destruct rc; try by apply Hfail. change (rc_ok NGX_OK) with true. cbn [negb].
  destruct (ngx_http_waf_ds_build_cidr _ _ _) as [set|]; [|by apply Hfail].
  apply entries_loop_spec in El as (Hp & _). eexists _, _. split; [done|]. right. split_and!; [done|done|by eexists].
Qed.

Lemma build_string_shape entries mem :
  entries <> [] -> exists rc out, build DS_STRING entries mem = Some (rc, out) /\
    (rc = NGX_ERROR /\ out = None \/
     rc = NGX_OK /\ Forall (entry_ok DS_STRING) entries /\ exists set, out = Some (StrSet set)).
Proof.
  intros Hne. unfold ngx_http_waf_ds_build. assert (Hfail : forall o : option (ngx_rc * option ds_set),
    o = Some (NGX_ERROR, None) -> exists rc out, o = Some (rc, out) /\ (rc = NGX_ERROR /\ out = None \/
      rc = NGX_OK /\ Forall (entry_ok DS_STRING) entries /\ exists set, out = Some (StrSet set))).
  { intros o ->. eexists _, _. split; [done|]. by left. }
  destruct (Z.eqb_spec (zlen entries) 0) as [Hz|_]; [by destruct entries|].
  destruct (alloc mem) as [[] m1]; [|by apply Hfail]. change (DS_STRING ==? DS_CIDR) with false. cbn [negb]. cbn iota.
  destruct (alloc m1) as [[] m2]; [|by apply Hfail]. destruct (push_all entries m2) as [[] m3]; [|by apply Hfail].
  cbn [negb]. set (str := ngx_http_waf_ds_sort_uniq _ _ _).
  destruct (build_str_spec crc32_short (fst (alloc m3)) str) as (r & -> & Hr). cbn [mbind option_bind].
  destruct r as [s|]; [|by apply Hfail]. eexists _, _. split; [done|]. right. split_and!; [done| |by eexists].
  apply Forall_forall. intros e He. apply Hr. apply sort_uniq_elem; [intros a b _ _; apply memn2cmp_zero|done].
Qed.

Lemma build_string_runs entries :
  Forall (entry_ok DS_STRING) entries -> entries <> [] -> blob_sum entries < 2 ^ 32 - 1 ->
  exists set, build DS_STRING entries [] = Some (NGX_OK, Some (StrSet set)).
Proof.
  intros Hok Hne Hsum. unfold ngx_http_waf_ds_build.
  destruct (Z.eqb_spec (zlen entries) 0) as [Hz|_]; [by destruct entries|]. cbn [alloc negb].
  change (DS_STRING ==? DS_CIDR) with false. cbn iota. rewrite push_all_ok. cbn [negb alloc fst].
  set (str := ngx_http_waf_ds_sort_uniq _ _ _).
  destruct (build_str_spec crc32_short true str) as (r & -> & Hr). cbn [mbind option_bind].
  destruct r as [s|]; [by exists s|]. exfalso. rewrite Forall_forall in Hok. destruct Hr as [?|[(x & Hx & Hl)|Hl]]; [done| |].
  - apply sort_uniq_elem in Hx; [|intros a b _ _; apply memn2cmp_zero]. specialize (Hok x Hx). cbn in Hok. lia.
  - pose proof (blob_sum_uniq entries (ngx_http_waf_ds_cmp_str memn2cmp)). fold str in H. lia.
Qed.

(** Building a dataset's set always ends, with a set of the declared type
    or with an error and no set; a configuration with an entry that is not a
    network, or longer than the limit, is refused, and one whose entries are
    all valid and fit four gigabytes is refused only for want of memory. *)
Theorem build_outcome type entries mem :
  exists rc out, build type entries mem = Some (rc, out) /\
    (rc = NGX_ERROR /\ out = None \/
     rc = NGX_OK /\ Forall (entry_ok type) entries /\
     match out with
     | None => entries = []
     | Some (CidrSet _) => type = DS_CIDR
     | Some (StrSet _) => type = DS_STRING
     end) /\
    (mem = [] -> Forall (entry_ok type) entries -> blob_sum entries < 2 ^ 32 - 1 -> rc = NGX_OK).
Proof.
  destruct (decide (entries = [])) as [->|Hne].
  { exists NGX_OK, None. split; [done|]. split; [right; by repeat constructor|done]. }
  destruct type.
  - destruct (build_cidr_shape entries mem Hne) as (rc & out & E & H). exists rc, out. split; [done|]. split.
    + destruct H as [?|(? & ? & set & ->)]; [by left|by right].
    + intros -> Hp _. destruct (build_cidr_runs entries Hp Hne) as (set & E'). congruence.
  - destruct (build_string_shape entries mem Hne) as (rc & out & E & H). exists rc, out. split; [done|]. split.
    + destruct H as [?|(? & ? & set & ->)]; [by left|by right].
    + intros -> Hp Hs. destruct (build_string_runs entries Hp Hne Hs) as (set & E'). congruence.
Qed.

End datasets.

(** ** Instances and examples *)

Fixpoint put_in {A} (cmp : A -> A -> Z) (x : A) (l : list A) : list A :=
  match l with [] => [x] | y :: l => if cmp x y <=? 0 then x :: y :: l else y :: put_in cmp x l end.
Definition isort (A : Type) (cmp : A -> A -> Z) (l : list A) : list A := foldr (put_in cmp) [] l.

Lemma put_in_perm {A} (cmp : A -> A -> Z) x l : put_in cmp x l ≡ₚ x :: l.
Proof.
  induction l as [|y l IH]; cbn; [done|]. destruct (_ <=? 0); [done|]. rewrite IH. constructor.
Qed.

Lemma put_in_sorted {A} (cmp : A -> A -> Z) x l :
  orders cmp (x :: l) -> StronglySorted (fun a b => cmp a b <= 0) l -> StronglySorted (fun a b => cmp a b <= 0) (put_in cmp x l).
Proof.
  intros [Ha Ht] Hs. induction Hs as [|y l Hs IH Hy]; cbn [put_in]; [by repeat constructor|].
  destruct (Z.leb_spec (cmp x y) 0) as [Hxy|Hxy].
  - constructor; [by constructor|]. constructor; [done|]. rewrite Forall_forall in *. intros z Hz.
    apply (Ht x y z); [set_solver..|auto].
  - constructor; [apply IH; [intros a b ? ?; apply Ha; set_solver|intros a b c ? ? ?; apply Ht; set_solver]|].
    rewrite Forall_forall in *. intros z Hz. rewrite put_in_perm in Hz. apply elem_of_cons in Hz as [->|Hz]; [|by apply Hy].
    apply Ha; [set_solver..|lia].
Qed.

#[export] Instance isort_qsort : QSort isort.
Proof.
  assert (Hp : forall A (cmp : A -> A -> Z) l, isort A cmp l ≡ₚ l).
  { intros A cmp l. induction l as [|x l IH]; [done|]. cbn. by rewrite put_in_perm, IH. }
  split; [done|]. intros A cmp l. induction l as [|x l IH]; intros [Ha Ht]; cbn; [constructor|].
  apply put_in_sorted.
  - split; [intros a b|intros a b c]; rewrite ?elem_of_cons, ?(Hp A cmp l); intros; [apply Ha|eapply (Ht a b c)]; set_solver.
  - apply IH. split; [intros a b ? ?; apply Ha; set_solver|intros a b c ? ? ?; apply Ht; set_solver].
Qed.

#[export] Instance lex_memn2cmp : Memn2Cmp lex.
Proof. intros x y. apply cmp_eq. Qed.

Definition no_text (_ : bytes) : option bytes := None.
#[export] Instance no_text_addr : InetAddr no_text no_text.
Proof. split; done. Qed.

(** A parser that knows four networks. *)
Definition demo_nets : list (bytes * cidr_t) :=
  [(lit "10.0.0.0/8", In4 [10; 0; 0; 0] (mask_bytes 4 8));
   (lit "10.1.2.0/24", In4 [10; 1; 2; 0] (mask_bytes 4 24));
   (lit "2001:db8::/33", In6 ([32; 1; 13; 184] ++ replicate 12 0) (mask_bytes 16 33));
   (lit "::ffff:192.0.2.0/120", In6 (pref96 ++ [192; 0; 2; 0]) (mask_bytes 16 120))].
Definition demo_ptocidr (text : bytes) : option cidr_t :=
  snd <$> find (fun e => bytes_eqb (fst e) text) demo_nets.

Lemma demo_networks text c :
  demo_ptocidr text = Some c -> match c with In4 a m => network 4 a m | In6 a m => network 16 a m | InOther => True end.
Proof.
  unfold demo_ptocidr. destruct (find _ demo_nets) as [[t c']|] eqn:E; [|done]. intros [= <-].
  apply find_some in E as [Hin _]. cbn [snd].
  assert (Hb : forall l, forallb (fun x => (0 <=? x) && (x <? 256)) l = true -> is_bytes l).
  { intros l Hl. apply Forall_forall. intros x Hx%list_elem_of_In. rewrite forallb_forall in Hl. specialize (Hl x Hx).
    unfold is_u8. lia. }
  destruct Hin as [[= <- <-]|[[= <- <-]|[[= <- <-]|[[= <- <-]|[]]]]]; (split; [reflexivity|]);
    (split; [apply Hb; vm_compute; reflexivity|]); (split; [eexists; split; [|reflexivity]; lia|reflexivity]).
Qed.

#[export] Instance demo_ptocidr_ok : PtoCidr demo_ptocidr.
Proof. split; intros text a m H; exact (demo_networks text _ H). Qed.

Definition demo_build := ngx_http_waf_ds_build demo_ptocidr isort zlen lex.
Definition demo_entries : list bytes := fst <$> demo_nets.
Definition demo_cidr_set : cidr_set :=
  match demo_build DS_CIDR demo_entries [] with Some (NGX_OK, Some (CidrSet s)) => s | _ => mkCidrSet [] [] [] [] end.
Definition demo_strings : list bytes := [lit "ab"; lit "x"; lit "cd"; lit "ab"; lit ""].
Definition demo_str_set : str_set :=
  match demo_build DS_STRING demo_strings [] with Some (NGX_OK, Some (StrSet s)) => s | _ => mkStrSet 0 0 [] [] end.

(** 10.200.0.1 lies in the outer of two nested networks, 192.0.2.9 in one
    written in IPv6 notation. *)
Lemma cidr_set_contains_networks_witness :
  (ngx_http_waf_ds_lookup_cidr demo_cidr_set 0 [10; 200; 0; 1] = true /\
   exists text net, text ∈ demo_entries /\ demo_ptocidr text = Some net /\ cidr_has net 0 [10; 200; 0; 1]) /\
  (ngx_http_waf_ds_lookup_cidr demo_cidr_set 0 [192; 0; 2; 9] = true /\
   exists text net, text ∈ demo_entries /\ demo_ptocidr text = Some net /\ cidr_has net 0 [192; 0; 2; 9]).
Proof.
  assert (Hb : forall a b c d, 0 <= a < 256 -> 0 <= b < 256 -> 0 <= c < 256 -> 0 <= d < 256 -> is_bytes [a; b; c; d])
    by (intros; repeat constructor; unfold is_u8; lia).
  split.
  - assert (H : ngx_http_waf_ds_lookup_cidr demo_cidr_set 0 [10; 200; 0; 1] = true) by (vm_compute; reflexivity).
    split; [exact H|]. refine (proj1 (cidr_set_contains_networks (memn2cmp := lex) (inet_addr := no_text) (inet6_addr := no_text)
      zlen demo_entries [] demo_cidr_set [10; 200; 0; 1] true 0 _ _ _ _) H);
      [vm_compute; reflexivity|apply Hb; lia|reflexivity].
  - assert (H : ngx_http_waf_ds_lookup_cidr demo_cidr_set 0 [192; 0; 2; 9] = true) by (vm_compute; reflexivity).
    split; [exact H|]. refine (proj1 (cidr_set_contains_networks (memn2cmp := lex) (inet_addr := no_text) (inet6_addr := no_text)
      zlen demo_entries [] demo_cidr_set [192; 0; 2; 9] true 0 _ _ _ _) H);
      [vm_compute; reflexivity|apply Hb; lia|reflexivity].
Defined.

(** "ab" and "cd" share a home; "ef", of the same home, is not there. *)
Lemma str_set_contains_entries_witness :
  ngx_http_waf_ds_str_probe zlen demo_str_set (lit "cd") = Some (true, 3) /\ lit "cd" ∈ demo_strings /\
  ngx_http_waf_ds_str_probe zlen demo_str_set (lit "ef") = Some (false, 4).
Proof.
  assert (H : ngx_http_waf_ds_str_probe zlen demo_str_set (lit "cd") = Some (true, 3)) by (vm_compute; reflexivity).
  split; [exact H|]. split; [|vm_compute; reflexivity].
  destruct (str_set_contains_entries (ptocidr := demo_ptocidr) (qsort := isort) (memn2cmp := lex) zlen demo_strings []
    demo_str_set (lit "cd")) as (hit & slot & E & Hh); [vm_compute; reflexivity|].
  apply Hh. rewrite H in E. injection E as <- _. reflexivity.
Defined.

Lemma build_outcome_witness :
  exists out, demo_build DS_STRING demo_strings [] = Some (NGX_OK, out) /\ Forall (entry_ok (ptocidr := demo_ptocidr) DS_STRING) demo_strings.
Proof.
  destruct (build_outcome (ptocidr := demo_ptocidr) (qsort := isort) (memn2cmp := lex) zlen DS_STRING demo_strings [])
    as (rc & out & E & H & _).
  assert (Er : option_map fst (demo_build DS_STRING demo_strings []) = Some NGX_OK) by (vm_compute; reflexivity).
  unfold demo_build in *. rewrite E in *. injection Er as ->. exists out. split; [done|].
  destruct H as [[? _]|(_ & H & _)]; [done|exact H].
Defined.

End DsStrFacts.
