(* ===== verification/DsLive.v ===== *)
(** The overlay of a dataset (local/ngx_http_waf_ds_live.c): the entries that
    packages, snapshots and local bans put there at run time, in a red-black
    tree by checksum and bytes, with the number of entries per prefix length,
    a running checksum of the whole and a generation per entry.

    Nodes live in a store by address; the tree holds addresses.  The balancing
    of the tree, its minimum and successor, [ngx_memn2cmp] and
    [ngx_crc32_long] are nginx's and parameters; outcomes of the slab
    allocator are inputs.  Each operation runs under the slot's lock, so it is
    one step. *)
From stdpp Require Import gmap.
From S2P Require Import Prelude Types Rate DsSet.
Import Rate DsSet.
#[local] Open Scope Z_scope.

Module DsLive.

Definition NGX_HTTP_WAF_DS_LIVE_MAX : Z := 10000.

(** [ln_hash] is the key of the tree node, [ln_data] the [len] bytes at
    [data]; [ln_h] the keyed checksum the entry adds to the whole, 0 for an
    entry of local origin. *)
Record live_node := mkLive {
  ln_hash : Z;
  ln_data : bytes;
  ln_gen : Z;
  ln_expires : Z;
  ln_h : Z
}.
#[export] Instance eta_live_node : Eta live_node := fun r =>
  mkLive r.(ln_hash) r.(ln_data) r.(ln_gen) r.(ln_expires) r.(ln_h).

(** [ngx_http_waf_ds_live_t]; [lv_lens] is [lens[2][129]] row by row,
    [lv_next] an address nothing was allocated at yet. *)
Record ds_live := mkOverlay {
  lv_nodes : gmap Z live_node;
  lv_tree : tree;
  lv_n : Z;
  lv_max : Z;
  lv_gen : Z;
  lv_lens : list Z;
  lv_next : Z
}.
#[export] Instance eta_ds_live : Eta ds_live := fun r =>
  mkOverlay r.(lv_nodes) r.(lv_tree) r.(lv_n) r.(lv_max) r.(lv_gen) r.(lv_lens) r.(lv_next).
Definition lens0 : list Z := replicate 258 0.
Definition lens_at (fam bits : Z) : Z := fam * 129 + bits.

Inductive ds_mode_e := MODE_UNSET | MODE_ACTIVE | MODE_INTERNAL.
#[export] Instance ds_mode_e_eq_dec : EqDecision ds_mode_e.
Proof. solve_decision. Defined.

(** [ngx_http_waf_ds_slot_t]: the fields an overlay and its synchronisation
    use; the published set and its readers are kept apart. *)
Record ds_slot := mkSlot {
  sl_type : ds_type_e;
  sl_live : option ds_live;
  sl_live_max : Z;
  sl_seq : Z;
  sl_epoch : Z;
  sl_key : bytes;
  sl_live_hash : Z;
  sl_seen : Z;
  sl_snapshot_at : Z;
  sl_silent : bool;
  sl_syncing : bool;
  sl_snap_bad : bool;
  (** the outcomes of the slab allocator to come *)
  sl_mem : alloc_stream
}.
#[export] Instance eta_ds_slot : Eta ds_slot := fun r =>
  mkSlot r.(sl_type) r.(sl_live) r.(sl_live_max) r.(sl_seq) r.(sl_epoch) r.(sl_key) r.(sl_live_hash)
         r.(sl_seen) r.(sl_snapshot_at) r.(sl_silent) r.(sl_syncing) r.(sl_snap_bad) r.(sl_mem).

Definition live_node0 : live_node := mkLive 0 [] 0 0 0.
Definition live_at (lv : ds_live) (a : Z) : live_node := default live_node0 (lv.(lv_nodes) !! a).

(** NGX_OK, NGX_DECLINED, NGX_BUSY and NGX_ERROR of [ngx_http_waf_ds_live_put]. *)
Inductive put_rc := PUT_OK | PUT_DECLINED | PUT_BUSY | PUT_ERROR.
#[export] Instance put_rc_eq_dec : EqDecision put_rc.
Proof. solve_decision. Defined.

Definition slab (s : ds_slot) : bool * ds_slot :=
  let '(ok, mem) := alloc s.(sl_mem) in (ok, s <| sl_mem := mem |>).

(** The family and the prefix length of a key, where the slot has networks. *)
Definition ngx_http_waf_ds_live_bits (type : ds_type_e) (key : bytes) : ngx_rc * Z * Z :=
  if negb (type ==? DS_CIDR) then (NGX_DECLINED, 0, 0)
  else if (zlen key =? 6) && (aget 0 key 0 =? 4) && (aget 0 key 1 <=? 32) then (NGX_OK, 0, aget 0 key 1)
  else if (zlen key =? 18) && (aget 0 key 0 =? 6) && (aget 0 key 1 <=? 128) then (NGX_OK, 1, aget 0 key 1)
  else (NGX_ERROR, 0, 0).

Definition ngx_http_waf_ds_live_ensure (s : ds_slot) : option ds_live * ds_slot :=
  let '(lv, s) :=
    match s.(sl_live) with
    | Some lv => (Some lv, s)
    | None => let '(ok, s) := slab s in
              if ok then (Some (mkOverlay ∅ Leaf 0 0 1 lens0 0), s) else (None, s)
    end in
  match lv with
  | None => (None, s)
  | Some lv =>
      let lv := lv <| lv_max := if negb (s.(sl_live_max) =? 0) then s.(sl_live_max)
                                else NGX_HTTP_WAF_DS_LIVE_MAX |> in
      (Some lv, s <| sl_live := Some lv |>)
  end.

Section live.
Context (memn2cmp : bytes -> bytes -> Z) (crc32_long : bytes -> Z).
Context (rebalance : tree -> tree) (rb_delete : tree -> Z -> tree).
(** [ngx_rbtree_min] and [ngx_rbtree_next]. *)
Context (rb_min : tree -> option Z) (rb_next : tree -> Z -> option Z).

(** ** The tree *)

Definition node_left (node temp : live_node) : bool :=
  if node.(ln_hash) <? temp.(ln_hash) then true
  else if temp.(ln_hash) <? node.(ln_hash) then false
  else memn2cmp node.(ln_data) temp.(ln_data) <? 0.

Fixpoint ngx_http_waf_ds_live_insert_value (lv : ds_live) (t : tree) (a : Z) : tree :=
  match t with
  | Leaf => Bin Leaf a Leaf
  | Bin l b r => if node_left (live_at lv a) (live_at lv b)
                 then Bin (ngx_http_waf_ds_live_insert_value lv l a) b r
                 else Bin l b (ngx_http_waf_ds_live_insert_value lv r a)
  end.

Fixpoint live_search (lv : ds_live) (t : tree) (key : bytes) (hash : Z) : option Z :=
  match t with
  | Leaf => None
  | Bin l a r =>
      let ln := live_at lv a in
      if hash <? ln.(ln_hash) then live_search lv l key hash
      else if ln.(ln_hash) <? hash then live_search lv r key hash
      else
        let rc := memn2cmp key ln.(ln_data) in
        if rc =? 0 then Some a
        else if rc <? 0 then live_search lv l key hash else live_search lv r key hash
  end.
Definition ngx_http_waf_ds_live_lookup (lv : ds_live) (key : bytes) (hash : Z) : option Z :=
  live_search lv lv.(lv_tree) key hash.

(** ** Changing the overlay *)

Definition ngx_http_waf_ds_live_delete (lv : ds_live) (a : Z) (s : ds_slot) : ds_slot :=
  let ln := live_at lv a in
  let '(rc, fam, bits) := ngx_http_waf_ds_live_bits s.(sl_type) ln.(ln_data) in
  let i := lens_at fam bits in
  let lv := if rc_ok rc && (0 <? aget 0 lv.(lv_lens) i)
            then lv <| lv_lens ::= fun l => aset l i (aget 0 l i - 1) |> else lv in
  let lv := lv <| lv_tree ::= fun t => rb_delete t a |> <| lv_nodes ::= delete a |>
               <| lv_n ::= fun n => if 0 <? n then n - 1 else n |> in
  s <| sl_live_hash ::= fun x => Z.lxor x ln.(ln_h) |> <| sl_live := Some lv |>.

Definition ngx_http_waf_ds_live_put (key : bytes) (expires h gen : Z) (s : ds_slot) : put_rc * ds_slot :=
  if (zlen key =? 0) || (NGX_HTTP_WAF_DS_ENTRY_MAX <? zlen key) then (PUT_ERROR, s)
  else
    let '(rc, fam, bits) := ngx_http_waf_ds_live_bits s.(sl_type) key in
    if rc ==? NGX_ERROR then (PUT_ERROR, s)
    else
      match ngx_http_waf_ds_live_ensure s with
      | (None, s) => (PUT_ERROR, s)
      | (Some lv, s) =>
          let hash := crc32_long key in
          match ngx_http_waf_ds_live_lookup lv key hash with
          | Some a =>
              let ln := (live_at lv a) <| ln_gen := gen |> in
              let write (ln : live_node) (s : ds_slot) :=
                s <| sl_live := Some (lv <| lv_nodes ::= insert a ln |>) |> in
              if negb (h =? 0) then
                let '(ln, s) :=
                  if negb (ln.(ln_h) =? h)
                  then (ln <| ln_h := h |>, s <| sl_live_hash ::= fun x => Z.lxor x (Z.lxor ln.(ln_h) h) |>)
                  else (ln, s) in
                if ln.(ln_expires) =? expires then (PUT_DECLINED, write ln s)
                else (PUT_OK, write (ln <| ln_expires := expires |>) s)
              else if negb (expires =? 0) && negb (ln.(ln_expires) =? 0) && (expires <=? ln.(ln_expires))
              then (PUT_DECLINED, write ln s)
              else (PUT_OK, write (ln <| ln_expires := expires |>) s)
          | None =>
              if lv.(lv_max) <=? lv.(lv_n) then (PUT_BUSY, s)
              else
                let '(ok, s) := slab s in
                if negb ok then (PUT_ERROR, s)
                else
                  let a := lv.(lv_next) in
                  let ln := mkLive hash key gen expires h in
                  let lv := lv <| lv_next ::= fun n => n + 1 |> <| lv_nodes ::= insert a ln |> in
                  let lv := lv <| lv_tree := rebalance (ngx_http_waf_ds_live_insert_value lv lv.(lv_tree) a) |>
                               <| lv_n ::= fun n => n + 1 |> in
                  let lv := if rc_ok rc
                            then lv <| lv_lens ::= fun l =>
                                   aset l (lens_at fam bits) (u32 (aget 0 l (lens_at fam bits) + 1)) |>
                            else lv in
                  (PUT_OK, s <| sl_live_hash ::= fun x => Z.lxor x h |> <| sl_live := Some lv |>)
          end
      end.

Definition ngx_http_waf_ds_live_drop (key : bytes) (s : ds_slot) : ngx_rc * ds_slot :=
  match s.(sl_live) with
  | None => (NGX_DECLINED, s)
  | Some lv =>
      if zlen key =? 0 then (NGX_DECLINED, s)
      else match ngx_http_waf_ds_live_lookup lv key (crc32_long key) with
           | None => (NGX_DECLINED, s)
           | Some a => (NGX_OK, ngx_http_waf_ds_live_delete lv a s)
           end
  end.

Definition ngx_http_waf_ds_live_mark (key : bytes) (gen : Z) (s : ds_slot) : ds_slot :=
  match s.(sl_live) with
  | None => s
  | Some lv =>
      if zlen key =? 0 then s
      else match ngx_http_waf_ds_live_lookup lv key (crc32_long key) with
           | None => s
           | Some a => s <| sl_live := Some (lv <| lv_nodes ::= insert a ((live_at lv a) <| ln_gen := gen |>) |>) |>
           end
  end.

(** [n] turns of the loop: the tree is not empty before each. *)
Fixpoint reset_loop (fuel : nat) (s : ds_slot) : ds_slot :=
  match fuel, s.(sl_live) with
  | S fuel, Some lv =>
      match rb_min lv.(lv_tree) with
      | None => s
      | Some a => reset_loop fuel (ngx_http_waf_ds_live_delete lv a s)
      end
  | _, _ => s
  end.
Definition ngx_http_waf_ds_live_reset (s : ds_slot) : ds_slot :=
  match s.(sl_live) with
  | None => s
  | Some lv =>
      let s := reset_loop (length (inorder lv.(lv_tree))) s in
      match s.(sl_live) with
      | None => s
      | Some lv => s <| sl_live := Some (lv <| lv_n := 0 |> <| lv_lens := lens0 |>) |> <| sl_live_hash := 0 |>
      end
  end.

(** 0: no memory for the overlay. *)
Definition ngx_http_waf_ds_live_begin (s : ds_slot) : Z * ds_slot :=
  match ngx_http_waf_ds_live_ensure s with
  | (None, s) => (0, s)
  | (Some lv, s) =>
      let gen := u32 (lv.(lv_gen) + 1) in
      let gen := if gen =? 0 then 1 else gen in
      (gen, s <| sl_live := Some (lv <| lv_gen := gen |>) |>)
  end.

Definition ngx_http_waf_ds_live_gen (s : ds_slot) : Z :=
  match s.(sl_live) with Some lv => lv.(lv_gen) | None => 1 end.

(** The cursor is [None] for NULL. *)
Fixpoint sweep_loop (batch : nat) (gen : Z) (node : option Z) (swept : Z) (s : ds_slot)
    : option Z * Z * ds_slot :=
  match batch, node, s.(sl_live) with
  | S batch, Some a, Some lv =>
      let next := rb_next lv.(lv_tree) a in
      if negb ((live_at lv a).(ln_gen) =? gen)
      then sweep_loop batch gen next (swept + 1) (ngx_http_waf_ds_live_delete lv a s)
      else sweep_loop batch gen next swept s
  | _, _, _ => (node, swept, s)
  end.
Definition ngx_http_waf_ds_live_sweep (gen : Z) (batch : nat) (cursor : option Z) (swept : Z) (s : ds_slot)
    : ngx_rc * option Z * Z * ds_slot :=
  match s.(sl_live) with
  | None => (NGX_OK, cursor, swept, s)
  | Some lv =>
      match lv.(lv_tree) with
      | Leaf => (NGX_OK, cursor, swept, s)
      | _ =>
          let node := match cursor with None => rb_min lv.(lv_tree) | Some a => Some a end in
          let '(node, swept, s) := sweep_loop batch gen node swept s in
          (match node with None => NGX_OK | Some _ => NGX_AGAIN end, node, swept, s)
      end
  end.

(** ** Looking up *)

Definition live_fresh (now : Z) (ln : live_node) : bool :=
  (ln.(ln_expires) =? 0) || (0 <=? msec_diff ln.(ln_expires) now).

Definition ngx_http_waf_ds_live_hit (now : Z) (value : bytes) (s : ds_slot) : bool :=
  match s.(sl_live) with
  | None => false
  | Some lv =>
      if zlen value =? 0 then false
      else match ngx_http_waf_ds_live_lookup lv value (crc32_long value) with
           | None => false
           | Some a => live_fresh now (live_at lv a)
           end
  end.

(** The first [bits] bits of the address, the others 0. *)
Definition keep_bits (bits : Z) (addr : bytes) (alen : Z) : bytes :=
  map (fun i => let keep := bits - i * 8 in
                if 8 <=? keep then aget 0 addr i
                else if keep <=? 0 then 0
                else Z.land (aget 0 addr i) (u8 (Z.shiftl 255 (8 - keep)))) (seqZ 0 alen).
Definition probe_key (fam bits : Z) (addr : bytes) : bytes :=
  (if fam =? 0 then 4 else 6) :: u8 bits :: keep_bits bits addr (if fam =? 0 then 4 else 16).

(** [n] prefix lengths are left, the longest is [n - 1]. *)
Fixpoint probe_lens (n : nat) (lv : ds_live) (now fam : Z) (addr : bytes) : bool :=
  match n with
  | O => false
  | S n =>
      let bits := Z.of_nat n in
      if aget 0 lv.(lv_lens) (lens_at fam bits) =? 0 then probe_lens n lv now fam addr
      else
        let key := probe_key fam bits addr in
        match ngx_http_waf_ds_live_lookup lv key (crc32_long key) with
        | Some a => if live_fresh now (live_at lv a) then true else probe_lens n lv now fam addr
        | None => probe_lens n lv now fam addr
        end
  end.
Definition ngx_http_waf_ds_live_probe (now fam : Z) (addr : bytes) (s : ds_slot) : bool :=
  match s.(sl_live) with
  | None => false
  | Some lv => probe_lens (Z.to_nat ((if fam =? 0 then 4 else 16) * 8 + 1)) lv now fam addr
  end.

(** ** A local ban *)

Context (inet_addr inet6_addr : bytes -> option bytes) (md5_hex : bytes -> bytes).

(** The key of a value: itself, or the network of its one address. *)
Definition ngx_http_waf_ds_material (type : ds_type_e) (value : bytes) (binary : bool) : option bytes :=
  if negb (type ==? DS_CIDR) then Some value
  else match ngx_http_waf_ds_addr inet_addr inet6_addr value binary with
       | None => None
       | Some (fam, a) => Some ((if fam =? 0 then 4 else 6) :: (if fam =? 0 then 32 else 128) :: a)
       end.

(** [ngx_http_waf_dataset_put] up to the event it publishes: the result, the
    key an event is due for, and the slot. *)
Definition ngx_http_waf_dataset_put (md5 : bool) (type : ds_type_e) (value : bytes) (binary : bool)
    (ttl now : Z) (s : ds_slot) : ngx_rc * option bytes * ds_slot :=
  if (zlen value =? 0) || (ttl =? 0) then (NGX_ERROR, None, s)
  else
    let value := if md5 then md5_hex value else value in
    match ngx_http_waf_ds_material type value binary with
    | None => (NGX_DECLINED, None, s)
    | Some key =>
        let '(rc, s) := ngx_http_waf_ds_live_put key (u64 (now + u64 (ttl * 1000))) 0
                          (ngx_http_waf_ds_live_gen s) s in
        match rc with
        | PUT_DECLINED => (NGX_DECLINED, None, s)
        | PUT_OK => (NGX_OK, Some key, s)
        | PUT_BUSY | PUT_ERROR => (NGX_ERROR, None, s)
        end
    end.

End live.
End DsLive.
