(* ===== verification/DsLiveFacts.v ===== *)
(** What the overlay promises: the tree, the counters per prefix length and
    the running checksum agree with its entries, every operation is the one
    of a finite map of entries, and the probe of an address is the search for
    a live network that holds it. *)
From stdpp Require Import gmap sorting.
From S2P Require Import Prelude Types Rate RateFacts DsSet DsSetFacts DsLive.
Import Rate RateFacts DsSet DsSetFacts DsLive.
#[local] Open Scope Z_scope.

Module DsLiveFacts.

(** What is used of nginx's tree beyond [RbTree]: its first node and the
    successor of a node. *)
Class RbWalk (rb_min : tree -> option Z) (rb_next : tree -> Z -> option Z) := {
  rb_min_head : forall t, rb_min t = head (inorder t);
  rb_next_succ : forall t l a k, inorder t = l ++ a :: k -> a ∉ l -> rb_next t a = head k
}.

(** ** Entries *)

(** What the overlay says of a key. *)
Record entry := mkEntry { e_gen : Z; e_expires : Z; e_h : Z }.
#[export] Instance eta_entry : Eta entry := fun r => mkEntry r.(e_gen) r.(e_expires) r.(e_h).
Definition entry_of (n : live_node) : entry := mkEntry n.(ln_gen) n.(ln_expires) n.(ln_h).

Definition hash_sum (ns : list live_node) : Z := foldr (fun n x => Z.lxor n.(ln_h) x) 0 ns.
Definition count (type : ds_type_e) (fam bits : Z) (ns : list live_node) : Z :=
  zlen (filter (fun n => ngx_http_waf_ds_live_bits type n.(ln_data) = (NGX_OK, fam, bits)) ns).
Definition overlay (ns : list live_node) : gmap bytes entry :=
  list_to_map ((fun n => (n.(ln_data), entry_of n)) <$> ns).

Definition key_ok (type : ds_type_e) (key : bytes) : Prop :=
  is_bytes key /\ 0 < zlen key <= NGX_HTTP_WAF_DS_ENTRY_MAX /\ fst (fst (ngx_http_waf_ds_live_bits type key)) <> NGX_ERROR.

Section entries.
Context (crc32_long : bytes -> Z) (type : ds_type_e).

Record good (ns : list live_node) (n : Z) (lens : list Z) (hash : Z) : Prop := {
  g_keys : Forall (fun x => x.(ln_hash) = crc32_long x.(ln_data) /\ key_ok type x.(ln_data)) ns;
  g_nodup : NoDup (ln_data <$> ns);
  g_n : n = zlen ns;
  g_lt : n < 2 ^ 32;
  g_size : zlen lens = 258;
  g_lens : forall fam bits, 0 <= fam <= 1 -> 0 <= bits <= 128 ->
      aget 0 lens (lens_at fam bits) = count type fam bits ns;
  g_hash : hash = hash_sum ns
}.

Lemma hash_sum_perm ns ms : ns ≡ₚ ms -> hash_sum ns = hash_sum ms.
Proof.
  unfold hash_sum. induction 1; cbn [foldr]; [done|congruence| |congruence].
  by rewrite <- !Z.lxor_assoc, (Z.lxor_comm (ln_h y)).
Qed.

Lemma count_perm fam bits ns ms : ns ≡ₚ ms -> count type fam bits ns = count type fam bits ms.
Proof. intros H. unfold count, zlen. by rewrite H. Qed.

Lemma overlay_perm ns ms : NoDup (ln_data <$> ns) -> ns ≡ₚ ms -> overlay ns = overlay ms.
Proof.
  intros Hn H. unfold overlay. apply list_to_map_proper; [|by rewrite H].
  rewrite <- list_fmap_compose. exact Hn.
Qed.

Lemma good_perm ns ms n lens hash : ns ≡ₚ ms -> good ns n lens hash -> good ms n lens hash.
Proof.
  intros H [G1 G2 G3 G4 G5 G6 G7]. constructor; try done.
  - by rewrite <- H.
  - by rewrite <- H.
  - unfold zlen in *. by rewrite <- H.
  - intros fam bits Hf Hb. rewrite G6 by done. by apply count_perm.
  - rewrite G7. by apply hash_sum_perm.
Qed.

Lemma bits_range key fam bits :
  is_bytes key -> ngx_http_waf_ds_live_bits type key = (NGX_OK, fam, bits) -> 0 <= fam <= 1 /\ 0 <= bits <= 128.
Proof.
  intros Hk. assert (H1 : 0 <= aget 0 key 1).
  { rewrite aget_lookup by lia. destruct (key !! _) eqn:E; [|done]. unfold is_bytes in Hk. rewrite Forall_lookup in Hk.
    apply Hk in E. unfold is_u8 in E. cbn. unfold id. lia. }
  unfold ngx_http_waf_ds_live_bits. destruct (negb _); [done|].
  destruct (_ && _ && _) eqn:E; [intros [= <- <-]; lia|]. clear E.
  destruct (_ && _ && _) eqn:E; [intros [= <- <-]; lia|done].
Qed.

Lemma count_cons fam bits x ns :
  count type fam bits (x :: ns) =
    (if decide (ngx_http_waf_ds_live_bits type x.(ln_data) = (NGX_OK, fam, bits)) then 1 else 0) + count type fam bits ns.
Proof. unfold count. rewrite filter_cons. case_decide; [rewrite zlen_cons; lia|lia]. Qed.

Lemma count_range fam bits ns : 0 <= count type fam bits ns <= zlen ns.
Proof.
  induction ns as [|x ns IH]; [done|]. rewrite count_cons, zlen_cons. case_decide; lia.
Qed.

Lemma lens_at_inj f b f' b' :
  0 <= f <= 1 -> 0 <= f' <= 1 -> 0 <= b <= 128 -> 0 <= b' <= 128 -> lens_at f b = lens_at f' b' -> f = f' /\ b = b'.
Proof. unfold lens_at. lia. Qed.

(** The counters after an entry came or went. *)
Definition lens_change (key : bytes) (g : Z -> Z) (lens : list Z) : list Z :=
  let '(rc, fam, bits) := ngx_http_waf_ds_live_bits type key in
  if rc_ok rc then aset lens (lens_at fam bits) (g (aget 0 lens (lens_at fam bits))) else lens.

Lemma lens_change_spec key g lens fam bits :
  is_bytes key -> zlen lens = 258 -> 0 <= fam <= 1 -> 0 <= bits <= 128 ->
  aget 0 (lens_change key g lens) (lens_at fam bits) =
    if decide (ngx_http_waf_ds_live_bits type key = (NGX_OK, fam, bits)) then g (aget 0 lens (lens_at fam bits))
    else aget 0 lens (lens_at fam bits).
Proof.
  intros Hk Hl Hf Hb. unfold lens_change. destruct (ngx_http_waf_ds_live_bits type key) as [[rc f] b] eqn:E.
  destruct rc; try (rewrite decide_False by congruence; done). change (rc_ok NGX_OK) with true. cbn iota.
  destruct (bits_range key f b Hk E) as [Hf' Hb'].
  destruct (decide (lens_at f b = lens_at fam bits)) as [He|He].
  - apply lens_at_inj in He as [-> ->]; try done. rewrite decide_True by done. apply aget_aset_eq.
    unfold lens_at. lia.
  - rewrite decide_False by congruence. by apply aget_aset_ne.
Qed.

Lemma lens_change_size key g lens : zlen (lens_change key g lens) = zlen lens.
Proof.
  unfold lens_change. destruct (ngx_http_waf_ds_live_bits type key) as [[rc f] b]. destruct (rc_ok rc); [|done].
  by rewrite zlen_aset.
Qed.

Lemma good_add x ns n lens hash :
  good ns n lens hash -> x.(ln_hash) = crc32_long x.(ln_data) -> key_ok type x.(ln_data) ->
  x.(ln_data) ∉ (ln_data <$> ns) -> n + 1 < 2 ^ 32 ->
  good (x :: ns) (n + 1) (lens_change x.(ln_data) (fun c => u32 (c + 1)) lens) (Z.lxor hash x.(ln_h)).
Proof.
  intros [G1 G2 G3 G4 G5 G6 G7] Hh Hk Hnew Hlt. pose proof (proj1 Hk) as Hb. constructor.
  - by constructor.
  - rewrite fmap_cons. by constructor.
  - rewrite zlen_cons. lia.
  - done.
  - by rewrite lens_change_size.
  - intros fam bits Hf Hbi. rewrite lens_change_spec, count_cons, G6 by done. case_decide; [|lia].
    pose proof (count_range fam bits ns). rewrite u32_small; [lia|]. unfold is_u32. lia.
  - cbn. rewrite G7. apply Z.lxor_comm.
Qed.

Lemma good_del x ns n lens hash :
  good (x :: ns) n lens hash ->
  good ns (if 0 <? n then n - 1 else n)
    (lens_change x.(ln_data) (fun c => if 0 <? c then c - 1 else c) lens) (Z.lxor hash x.(ln_h)).
Proof.
  intros [G1 G2 G3 G4 G5 G6 G7]. rewrite zlen_cons in G3. pose proof (zlen_nonneg ns).
  apply Forall_cons in G1 as [[_ [Hb _]] G1]. rewrite fmap_cons in G2. apply NoDup_cons in G2 as [_ G2].
  rewrite (proj2 (Z.ltb_lt 0 n)) by lia. constructor; try done; try lia.
  - by rewrite lens_change_size.
  - intros fam bits Hf Hbi. rewrite lens_change_spec, G6, count_cons by done.
    pose proof (count_range fam bits ns). case_decide; [|lia].
    rewrite (proj2 (Z.ltb_lt 0 _)) by lia. lia.
  - rewrite G7. cbn. rewrite Z.lxor_comm, <- Z.lxor_assoc, Z.lxor_nilpotent. apply Z.lxor_0_l.
Qed.

Lemma good_upd x y ns n lens hash :
  good (x :: ns) n lens hash -> y.(ln_data) = x.(ln_data) -> y.(ln_hash) = x.(ln_hash) ->
  good (y :: ns) n lens (Z.lxor hash (Z.lxor x.(ln_h) y.(ln_h))).
Proof.
  intros [G1 G2 G3 G4 G5 G6 G7] Hd Hh. apply Forall_cons in G1 as [G0 G1]. constructor; try done.
  - constructor; [by rewrite Hh, Hd|done].
  - by rewrite fmap_cons, Hd, <- fmap_cons.
  - intros fam bits Hf Hb. rewrite G6 by done. by rewrite !count_cons, Hd.
  - rewrite G7. cbn [hash_sum foldr]. fold (hash_sum ns).
    rewrite (Z.lxor_comm (ln_h x) (hash_sum ns)), Z.lxor_assoc, <- (Z.lxor_assoc (ln_h x)), Z.lxor_nilpotent, Z.lxor_0_l.
    apply Z.lxor_comm.
Qed.

End entries.

Lemma aset_same (l : list Z) i : aset l i (aget 0 l i) = l.
Proof.
  unfold aset. destruct (Z.ltb_spec i 0); [done|]. rewrite aget_lookup by lia.
  destruct (l !! Z.to_nat i) eqn:E; cbn; [by apply list_insert_id|].
  apply list_insert_ge. by apply lookup_ge_None.
Qed.

Section tree.
Context {memn2cmp : bytes -> bytes -> Z} {rebalance : tree -> tree} {rb_delete : tree -> Z -> tree}.
Context `{!RbTree memn2cmp rebalance rb_delete}.
Context {rb_min : tree -> option Z} {rb_next : tree -> Z -> option Z} `{!RbWalk rb_min rb_next}.
Context (crc32_long : bytes -> Z).

(** ** The tree, as the one of the rate limits with one signature *)

Definition emb_node (n : live_node) : rate_node := mkNode n.(ln_hash) 0 n.(ln_data) 0 0 0.
Definition emb (lv : ds_live) : rate_store := mkStore (emb_node <$> lv.(lv_nodes)) Leaf [] 0 0 [].

Lemma node_at_emb lv a : node_at (emb lv) a = emb_node (live_at lv a).
Proof. unfold node_at, live_at. cbn. rewrite lookup_fmap. by destruct (lv_nodes lv !! a). Qed.

Lemma search_emb lv t key hash :
  live_search memn2cmp lv t key hash = lookup_tree memn2cmp (emb lv) t 0 key hash.
Proof.
  induction t as [|l IHl a r IHr]; [done|]. cbn [live_search lookup_tree]. rewrite node_at_emb, IHl, IHr. done.
Qed.

Lemma left_emb n m : node_left memn2cmp n m = goes_left memn2cmp (emb_node n) (emb_node m).
Proof. done. Qed.

Lemma insert_emb lv t a :
  ngx_http_waf_ds_live_insert_value memn2cmp lv t a = ngx_http_waf_rate_insert_value memn2cmp (emb lv) t a.
Proof.
  induction t as [|l IHl b r IHr]; [done|].
  cbn [ngx_http_waf_ds_live_insert_value ngx_http_waf_rate_insert_value]. by rewrite !node_at_emb, left_emb, IHl, IHr.
Qed.

Abbreviation sorted_by := (sorted (memn2cmp := memn2cmp)).

Record wf (lv : ds_live) : Prop := {
  wf_sorted : sorted_by (emb lv) (inorder lv.(lv_tree));
  wf_dom : forall a, a ∈ inorder lv.(lv_tree) <-> is_Some (lv.(lv_nodes) !! a);
  wf_next : forall a, a ∈ inorder lv.(lv_tree) -> a < lv.(lv_next)
}.

Definition nodes_of (lv : ds_live) : list live_node := live_at lv <$> inorder lv.(lv_tree).

Definition live_inv (s : ds_slot) (lv : ds_live) : Prop :=
  wf lv /\ good crc32_long s.(sl_type) (nodes_of lv) lv.(lv_n) lv.(lv_lens) s.(sl_live_hash).
(** The invariant of a slot; an absent overlay is an empty one. *)
Definition slot_inv (s : ds_slot) : Prop :=
  0 <= s.(sl_live_max) < 2 ^ 32 /\
  match s.(sl_live) with None => s.(sl_live_hash) = 0 | Some lv => live_inv s lv end.
Definition entries (s : ds_slot) : gmap bytes entry :=
  match s.(sl_live) with None => ∅ | Some lv => overlay (nodes_of lv) end.

Lemma sorted_nodup st l : sorted_by st l -> NoDup l.
Proof.
  induction 1 as [|a l Hs IH Ha]; [constructor|]. constructor; [|done]. intros Hin.
  rewrite Forall_forall in Ha. exact (lt_node_irrefl (node_at st a) (Ha a Hin)).
Qed.

Lemma wf_nodup lv : wf lv -> NoDup (inorder lv.(lv_tree)).
Proof. intros H. eapply sorted_nodup, H. Qed.

Lemma overlay_lookup ns k e :
  NoDup (ln_data <$> ns) -> (overlay ns !! k = Some e <-> exists n, n ∈ ns /\ n.(ln_data) = k /\ entry_of n = e).
Proof.
  intros Hn. unfold overlay. rewrite <- elem_of_list_to_map.
  - rewrite list_elem_of_fmap. split.
    + intros (n & [= -> ->] & Hin). by exists n.
    + intros (n & Hin & <- & <-). by exists n.
  - rewrite <- list_fmap_compose. exact Hn.
Qed.

(** A search finds the node of the key, in the tree and in the map. *)
Lemma lookup_live s lv key :
  live_inv s lv ->
  match ngx_http_waf_ds_live_lookup memn2cmp lv key (crc32_long key) with
  | Some a => a ∈ inorder lv.(lv_tree) /\ (live_at lv a).(ln_data) = key /\
              overlay (nodes_of lv) !! key = Some (entry_of (live_at lv a))
  | None => overlay (nodes_of lv) !! key = None
  end.
Proof.
  intros [Hw [G1 G2 _ _ _ _ _]]. unfold ngx_http_waf_ds_live_lookup. rewrite search_emb.
  pose proof (lookup_tree_spec (emb lv) (lv_tree lv) 0 key (crc32_long key) (wf_sorted _ Hw)) as H.
  destruct (lookup_tree _ _ _ _ _ _) as [a|].
  - destruct H as (Ha & _ & _ & Hd). rewrite node_at_emb in Hd. cbn in Hd. split_and!; [done|done|].
    apply overlay_lookup; [done|]. exists (live_at lv a). split_and!; [|done|done]. by apply list_elem_of_fmap_2.
  - destruct (overlay (nodes_of lv) !! key) as [e|] eqn:E; [|done]. exfalso.
    apply overlay_lookup in E as (n & Hn & Hd & _); [|done]. rewrite Forall_forall in G1. pose proof (G1 n Hn) as [Hh _].
    apply list_elem_of_fmap in Hn as (a & -> & Ha). apply (H a Ha). rewrite node_at_emb.
    unfold same_node. cbn. by rewrite Hh, Hd.
Qed.

(** ** One node less, changed, more *)

Lemma overlay_cons x ns : overlay (x :: ns) = <[x.(ln_data) := entry_of x]> (overlay ns).
Proof. done. Qed.

Lemma overlay_not_in ns k : k ∉ (ln_data <$> ns) -> overlay ns !! k = None.
Proof.
  intros H. apply not_elem_of_list_to_map. rewrite <- list_fmap_compose. exact H.
Qed.

Lemma nodes_split lv a :
  wf lv -> a ∈ inorder lv.(lv_tree) ->
  nodes_of lv ≡ₚ live_at lv a :: (live_at lv <$> filter (fun b => b <> a) (inorder lv.(lv_tree))).
Proof.
  intros Hw Ha. unfold nodes_of. rewrite <- fmap_cons. apply Permutation_map. apply perm_filter_out; [|done].
  by apply wf_nodup.
Qed.

Lemma live_at_ext lv lv' (l : list Z) : (forall b, b ∈ l -> live_at lv' b = live_at lv b) -> live_at lv' <$> l = live_at lv <$> l.
Proof. intros H. apply list_fmap_ext. intros i b Hb. apply H. by eapply list_elem_of_lookup_2. Qed.

Definition frame (s s' : ds_slot) : Prop :=
  s' = s <| sl_live := sl_live s' |> <| sl_live_hash := sl_live_hash s' |> <| sl_mem := sl_mem s' |>.

#[local] Instance frame_preorder : PreOrder frame.
Proof.
  split.
  - intros []. reflexivity.
  - intros s1 s2 s3 H12 H23. unfold frame in *. rewrite H23, H12. reflexivity.
Qed.

Lemma frame_fields s s' :
  frame s s' -> sl_type s' = sl_type s /\ sl_live_max s' = sl_live_max s /\ sl_seq s' = sl_seq s /\
    sl_epoch s' = sl_epoch s /\ sl_key s' = sl_key s /\ sl_syncing s' = sl_syncing s /\ sl_snap_bad s' = sl_snap_bad s.
Proof. unfold frame. intros ->. by split_and!. Qed.

Lemma delete_spec s lv a :
  s.(sl_live) = Some lv -> slot_inv s -> a ∈ inorder lv.(lv_tree) ->
  let s' := ngx_http_waf_ds_live_delete rb_delete lv a s in
  slot_inv s' /\ frame s s' /\ entries s' = delete (live_at lv a).(ln_data) (entries s) /\
  exists lv', s'.(sl_live) = Some lv' /\ inorder lv'.(lv_tree) = filter (fun b => b <> a) (inorder lv.(lv_tree)) /\
    lv'.(lv_gen) = lv.(lv_gen) /\ forall b, b <> a -> live_at lv' b = live_at lv b.
Proof.
  intros Hl [Hmax Hi] Ha. rewrite Hl in Hi. destruct Hi as [Hw Hg].
  pose proof (nodes_split lv a Hw Ha) as Hsp. set (rest := live_at lv <$> _) in Hsp.
  pose proof (good_perm crc32_long _ _ _ _ _ _ Hsp Hg) as Hg'. pose proof (good_del crc32_long _ _ _ _ _ _ Hg') as Hd.
  set (x := live_at lv a) in *. set (lens' := lens_change _ _ _ _) in Hd.
  set (lv' := mkOverlay (delete a lv.(lv_nodes)) (rb_delete lv.(lv_tree) a) (if 0 <? lv_n lv then lv_n lv - 1 else lv_n lv)
                lv.(lv_max) lv.(lv_gen) lens' lv.(lv_next)).
  assert (Es : ngx_http_waf_ds_live_delete rb_delete lv a s =
               s <| sl_live_hash ::= fun y => Z.lxor y x.(ln_h) |> <| sl_live := Some lv' |>).
  { unfold ngx_http_waf_ds_live_delete, lv', lens', lens_change. fold x.
    destruct (ngx_http_waf_ds_live_bits _ _) as [[rc f] b]. destruct (rc_ok rc); [|done]. cbn [andb].
    destruct (0 <? aget 0 (lv_lens lv) (lens_at f b)); [done|]. by rewrite aset_same. }
  rewrite Es. cbn zeta.
  assert (Hin : inorder lv'.(lv_tree) = filter (fun b => b <> a) (inorder lv.(lv_tree))) by apply rb_delete_inorder.
  assert (Hat : forall b, b <> a -> live_at lv' b = live_at lv b).
  { intros b Hb. unfold lv', live_at. cbn. by rewrite lookup_delete_ne. }
  assert (Hnodes : nodes_of lv' = rest).
  { unfold nodes_of, rest. rewrite Hin. apply live_at_ext. intros b [Hb _]%list_elem_of_filter. by apply Hat. }
  assert (Hw' : wf lv').
  { constructor; rewrite Hin.
    - eapply (sorted_ext (emb lv)); [|apply sorted_filter, Hw]. intros b [Hb _]%list_elem_of_filter.
      by rewrite !node_at_emb, Hat.
    - intros b. rewrite list_elem_of_filter, (wf_dom _ Hw). cbn.
      destruct (decide (b = a)) as [->|Hb]; [rewrite lookup_delete_eq; split; [by intros []|by intros [? ?]]|].
      rewrite lookup_delete_ne by done. tauto.
    - intros b [_ Hb]%list_elem_of_filter. by apply (wf_next _ Hw) in Hb. }
  split_and!.
  - split; [done|]. cbn [sl_live upd]. split; [done|]. rewrite Hnodes. exact Hd.
  - unfold frame. destruct s. reflexivity.
  - unfold entries. rewrite Hl. cbn [sl_live upd]. rewrite Hnodes, (overlay_perm _ _ (g_nodup _ _ _ _ _ _ Hg) Hsp), overlay_cons.
    rewrite delete_insert_id; [done|]. apply overlay_not_in.
    pose proof (g_nodup _ _ _ _ _ _ Hg') as Hn. rewrite fmap_cons in Hn. by apply NoDup_cons in Hn as [Hn _].
  - exists lv'. by split_and!.
Qed.

Lemma update_spec s s' lv a ln :
  s.(sl_live) = Some lv -> slot_inv s -> a ∈ inorder lv.(lv_tree) ->
  ln.(ln_data) = (live_at lv a).(ln_data) -> ln.(ln_hash) = (live_at lv a).(ln_hash) ->
  frame s s' -> s'.(sl_live) = Some (lv <| lv_nodes ::= insert a ln |>) ->
  s'.(sl_live_hash) = Z.lxor s.(sl_live_hash) (Z.lxor (live_at lv a).(ln_h) ln.(ln_h)) ->
  slot_inv s' /\ entries s' = <[ln.(ln_data) := entry_of ln]> (entries s).
Proof.
  intros Hl [Hmax Hi] Ha Hd Hh Hf Hl' Hhash. rewrite Hl in Hi. destruct Hi as [Hw Hg].
  destruct (frame_fields _ _ Hf) as (Ft & Fm & _).
  pose proof (nodes_split lv a Hw Ha) as Hsp. set (rest := live_at lv <$> _) in Hsp.
  pose proof (good_perm crc32_long _ _ _ _ _ _ Hsp Hg) as Hg'. set (x := live_at lv a) in *.
  pose proof (good_upd crc32_long _ _ _ _ _ _ _ Hg' Hd Hh) as Hu.
  set (lv' := lv <| lv_nodes ::= insert a ln |>) in *.
  assert (Hat : forall b, live_at lv' b = if decide (b = a) then ln else live_at lv b).
  { intros b. unfold lv', live_at. cbn. destruct (decide (b = a)) as [->|]; [by rewrite lookup_insert_eq|].
    by rewrite lookup_insert_ne. }
  assert (Hw' : wf lv').
  { constructor.
    - eapply (sorted_ext (emb lv)); [|apply Hw]. intros b Hb. rewrite !node_at_emb, Hat.
      destruct (decide (b = a)) as [->|]; [|done]. unfold same_node. cbn. fold x. by rewrite Hd, Hh.
    - intros b. change (lv_tree lv') with (lv_tree lv). rewrite (wf_dom _ Hw). cbn.
      destruct (decide (b = a)) as [->|]; [|by rewrite lookup_insert_ne]. rewrite lookup_insert_eq, <- (wf_dom _ Hw).
      split; [by eexists|done].
    - apply Hw. }
  assert (Hsp' : nodes_of lv' ≡ₚ ln :: rest).
  { rewrite (nodes_split lv' a Hw' Ha), Hat, decide_True by done. f_equiv. change (lv_tree lv') with (lv_tree lv).
    unfold rest. erewrite live_at_ext; [done|]. intros b [Hb _]%list_elem_of_filter. by rewrite Hat, decide_False. }
  assert (Hgood : good crc32_long (sl_type s) (nodes_of lv') (lv_n lv) (lv_lens lv) (sl_live_hash s')).
  { rewrite Hhash. eapply good_perm; [symmetry; exact Hsp'|exact Hu]. }
  split.
  - split; [by rewrite Fm|]. rewrite Hl'. split; [done|]. by rewrite Ft.
  - unfold entries. rewrite Hl, Hl', (overlay_perm _ _ (g_nodup _ _ _ _ _ _ Hgood) Hsp'), overlay_cons.
    rewrite (overlay_perm _ _ (g_nodup _ _ _ _ _ _ Hg) Hsp), overlay_cons, <- Hd. by rewrite insert_insert_eq.
Qed.

Lemma add_spec s s' lv ln :
  s.(sl_live) = Some lv -> slot_inv s -> entries s !! ln.(ln_data) = None ->
  ln.(ln_hash) = crc32_long ln.(ln_data) -> key_ok s.(sl_type) ln.(ln_data) -> lv.(lv_n) + 1 < 2 ^ 32 ->
  frame s s' -> s'.(sl_live_hash) = Z.lxor s.(sl_live_hash) ln.(ln_h) ->
  (let lvx := lv <| lv_next ::= fun n => n + 1 |> <| lv_nodes ::= insert lv.(lv_next) ln |> in
   s'.(sl_live) = Some (lvx <| lv_tree := rebalance (ngx_http_waf_ds_live_insert_value memn2cmp lvx lv.(lv_tree) lv.(lv_next)) |>
      <| lv_n ::= fun n => n + 1 |>
      <| lv_lens := lens_change s.(sl_type) ln.(ln_data) (fun c => u32 (c + 1)) lv.(lv_lens) |>)) ->
  slot_inv s' /\ entries s' = <[ln.(ln_data) := entry_of ln]> (entries s).
Proof.
  cbn zeta. intros Hl [Hmax Hi] Hnew Hh Hk Hlt Hf Hhash Hl'. rewrite Hl in Hi. destruct Hi as [Hw Hg].
  destruct (frame_fields _ _ Hf) as (Ft & Fm & _). set (a := lv.(lv_next)) in *.
  set (lvx := lv <| lv_next ::= fun n => n + 1 |> <| lv_nodes ::= insert a ln |>) in *. set (lv' := lvx <| lv_tree := _ |> <| lv_n ::= _ |> <| lv_lens := _ |>) in Hl'.
  assert (Hne : forall b, b ∈ inorder (lv_tree lv) -> b <> a) by (intros b Hb ->; apply (wf_next _ Hw) in Hb; unfold a in Hb; lia).
  assert (Hat : forall b, live_at lvx b = if decide (b = a) then ln else live_at lv b).
  { intros b. unfold lvx, live_at. cbn. destruct (decide (b = a)) as [->|]; [by rewrite lookup_insert_eq|].
    by rewrite lookup_insert_ne. }
  assert (Hold : forall b, b ∈ inorder (lv_tree lv) -> live_at lvx b = live_at lv b).
  { intros b Hb. rewrite Hat, decide_False by (by apply Hne). done. }
  assert (Hkeys : ln.(ln_data) ∉ (ln_data <$> nodes_of lv)).
  { intros (n & Hn & Hin)%list_elem_of_fmap. unfold entries in Hnew. rewrite Hl in Hnew.
    assert (E : overlay (nodes_of lv) !! ln_data ln = Some (entry_of n)).
    { apply overlay_lookup; [apply Hg|]. by exists n. }
    congruence. }
  assert (Hin : inorder (lv_tree lv') = inorder (ngx_http_waf_rate_insert_value memn2cmp (emb lvx) (lv_tree lv) a)).
  { change (lv_tree lv') with (rebalance (ngx_http_waf_ds_live_insert_value memn2cmp lvx (lv_tree lv) a)).
    by rewrite rebalance_inorder, insert_emb. }
  assert (Hp : inorder (lv_tree lv') ≡ₚ a :: inorder (lv_tree lv)) by (rewrite Hin; apply insert_value_perm).
  assert (Hw' : wf lv').
  { constructor.
    - rewrite Hin. change (emb lv') with (emb lvx). apply insert_value_sorted.
      + eapply (sorted_ext (emb lv)); [|apply Hw]. intros b Hb. by rewrite !node_at_emb, Hold.
      + intros b Hb Hs. rewrite !node_at_emb, Hat, decide_True, Hold in Hs by done. destruct Hs as (_ & _ & Hd). cbn in Hd.
        apply Hkeys. apply list_elem_of_fmap. exists (live_at lv b). split; [done|]. by apply list_elem_of_fmap_2.
    - intros b. rewrite Hp, elem_of_cons, (wf_dom _ Hw). cbn. destruct (decide (b = a)) as [->|].
      + rewrite lookup_insert_eq. split; [by eexists|by left].
      + rewrite lookup_insert_ne by done. split; [by intros [->|]|by right].
    - intros b. rewrite Hp. cbn. intros [->|Hb]%elem_of_cons; [unfold a; lia|]. apply (wf_next _ Hw) in Hb. lia. }
  assert (Hsp : nodes_of lv' ≡ₚ ln :: nodes_of lv).
  { unfold nodes_of. rewrite Hp. change (live_at lv') with (live_at lvx). rewrite fmap_cons, Hat, decide_True by done.
    by rewrite (live_at_ext lv lvx _ Hold). }
  pose proof (good_add crc32_long _ ln _ _ _ _ Hg Hh Hk Hkeys Hlt) as Ha.
  assert (Hgood : good crc32_long (sl_type s) (nodes_of lv') (lv_n lv + 1) (lv_lens lv') (sl_live_hash s')).
  { rewrite Hhash. eapply good_perm; [symmetry; exact Hsp|exact Ha]. }
  split.
  - split; [by rewrite Fm|]. rewrite Hl'. split; [done|]. by rewrite Ft.
  - unfold entries. rewrite Hl, Hl'. fold lv'. rewrite (overlay_perm _ _ (g_nodup _ _ _ _ _ _ Hgood) Hsp). done.
Qed.

(** ** The operations *)

Definition cap (s : ds_slot) : Z :=
  if negb (s.(sl_live_max) =? 0) then s.(sl_live_max) else NGX_HTTP_WAF_DS_LIVE_MAX.

Lemma size_entries s lv : s.(sl_live) = Some lv -> slot_inv s -> lv.(lv_n) = Z.of_nat (size (entries s)).
Proof.
  intros Hl [_ Hi]. unfold entries. rewrite Hl in *. destruct Hi as [_ Hg]. rewrite (g_n _ _ _ _ _ _ Hg).
  unfold overlay. rewrite map_size_list_to_map.
  - unfold zlen. by rewrite length_fmap.
  - rewrite <- list_fmap_compose. apply Hg.
Qed.

Lemma empty_good type : good crc32_long type [] 0 lens0 0.
Proof.
  constructor; try done; try constructor. intros fam bits Hf Hb. unfold lens0, aget, lens_at.
  destruct (_ <? 0); [done|]. rewrite nth_lookup. destruct (_ !! _) eqn:E; [|done]. apply lookup_replicate in E as [-> _]. done.
Qed.

Lemma ensure_spec s :
  slot_inv s ->
  let '(o, s1) := ngx_http_waf_ds_live_ensure s in
  frame s s1 /\ slot_inv s1 /\ entries s1 = entries s /\ ngx_http_waf_ds_live_gen s1 = ngx_http_waf_ds_live_gen s /\
  sl_live_hash s1 = sl_live_hash s /\
  match o with
  | None => sl_live s1 = None /\ sl_live s = None
  | Some lv => sl_live s1 = Some lv /\ lv.(lv_max) = cap s /\ lv.(lv_gen) = ngx_http_waf_ds_live_gen s
  end.
Proof.
  intros [Hmax Hi]. unfold ngx_http_waf_ds_live_ensure, slab, ngx_http_waf_ds_live_gen, entries, slot_inv.
  destruct (sl_live s) as [lv|] eqn:El.
  - cbn -[Z.pow]. split; [unfold frame; destruct s; cbn in *; by subst|]. split_and!; try done; try lia.
    destruct Hi as [[W1 W2 W3] Hg]. split; [by constructor|exact Hg].
  - destruct (alloc (sl_mem s)) as [[] mem]; cbn -[Z.pow lens0].
    + split; [unfold frame; destruct s; cbn in *; by subst|]. split_and!; try done; try lia.
      split; [|cbn -[lens0]; rewrite Hi; apply empty_good]. constructor; cbn; [constructor| |].
      * intros a. rewrite lookup_empty. split; [by intros ?%elem_of_nil|by intros []].
      * intros a ?%elem_of_nil. done.
    + rewrite El. split; [unfold frame; destruct s; cbn in *; by subst|]. split_and!; done || lia.
Qed.

(** What a put makes of an entry: one with a checksum replaces it, one of
    local origin only prolongs it. *)
Definition merge (e : option entry) (expires h gen : Z) : entry :=
  match e with
  | None => mkEntry gen expires h
  | Some e =>
      if negb (h =? 0) then mkEntry gen expires h
      else if negb (expires =? 0) && negb (e.(e_expires) =? 0) && (expires <=? e.(e_expires))
      then mkEntry gen e.(e_expires) e.(e_h)
      else mkEntry gen expires e.(e_h)
  end.

Abbreviation put := (ngx_http_waf_ds_live_put memn2cmp crc32_long rebalance).

Lemma update_found s lv a key ln x s' :
  s.(sl_live) = Some lv -> slot_inv s -> a ∈ inorder lv.(lv_tree) -> (live_at lv a).(ln_data) = key ->
  ln.(ln_data) = (live_at lv a).(ln_data) -> ln.(ln_hash) = (live_at lv a).(ln_hash) ->
  x = Z.lxor (live_at lv a).(ln_h) ln.(ln_h) ->
  s' = (s <| sl_live_hash ::= fun y => Z.lxor y x |>) <| sl_live := Some (lv <| lv_nodes ::= insert a ln |>) |> ->
  slot_inv s' /\ frame s s' /\ ngx_http_waf_ds_live_gen s' = ngx_http_waf_ds_live_gen s /\
  entries s' = <[key := entry_of ln]> (entries s).
Proof.
  intros Hl Hi Ha Hk Hd Hh -> ->. set (s' := _ <| sl_live := _ |>).
  assert (Hf : frame s s') by (unfold frame; destruct s; reflexivity).
  destruct (update_spec s s' lv a ln Hl Hi Ha Hd Hh Hf) as [Hi' He]; [reflexivity|reflexivity|].
  split_and!; [done|done| |by rewrite He, Hd, Hk].
  unfold ngx_http_waf_ds_live_gen. rewrite Hl. reflexivity.
Qed.

Lemma xor0 s : s <| sl_live_hash ::= fun y => Z.lxor y 0 |> = s.
Proof. destruct s. cbn. by rewrite Z.lxor_0_r. Qed.

(** The branch of a key that is there. *)
Lemma put_found key expires h gen s lv a :
  s.(sl_live) = Some lv -> slot_inv s ->
  ngx_http_waf_ds_live_lookup memn2cmp lv key (crc32_long key) = Some a ->
  let ln := (live_at lv a) <| ln_gen := gen |> in
  let write (ln : live_node) (s : ds_slot) := s <| sl_live := Some (lv <| lv_nodes ::= insert a ln |>) |> in
  let '(rc, s') :=
    if negb (h =? 0) then
      let '(ln, s) :=
        if negb (ln.(ln_h) =? h)
        then (ln <| ln_h := h |>, s <| sl_live_hash ::= fun x => Z.lxor x (Z.lxor ln.(ln_h) h) |>)
        else (ln, s) in
      if ln.(ln_expires) =? expires then (PUT_DECLINED, write ln s)
      else (PUT_OK, write (ln <| ln_expires := expires |>) s)
    else if negb (expires =? 0) && negb (ln.(ln_expires) =? 0) && (expires <=? ln.(ln_expires))
    then (PUT_DECLINED, write ln s)
    else (PUT_OK, write (ln <| ln_expires := expires |>) s) in
  (rc = PUT_OK \/ rc = PUT_DECLINED) /\
  slot_inv s' /\ frame s s' /\ ngx_http_waf_ds_live_gen s' = ngx_http_waf_ds_live_gen s /\
  entries s' = <[key := merge (entries s !! key) expires h gen]> (entries s).
Proof.
  intros Hl Hi Hlk. pose proof Hi as [_ Hi']. rewrite Hl in Hi'. pose proof (lookup_live s lv key Hi') as H.
  rewrite Hlk in H. destruct H as (Ha & Hd & He). set (x := live_at lv a) in *.
  assert (Ee : entries s !! key = Some (entry_of x)) by (unfold entries; by rewrite Hl). rewrite Ee.
  assert (Hup : forall ln y s' e, ln_data ln = ln_data x -> ln_hash ln = ln_hash x -> y = Z.lxor (ln_h x) (ln_h ln) ->
    s' = (s <| sl_live_hash ::= fun z => Z.lxor z y |>) <| sl_live := Some (lv <| lv_nodes ::= insert a ln |>) |> ->
    entry_of ln = e ->
    slot_inv s' /\ frame s s' /\ ngx_http_waf_ds_live_gen s' = ngx_http_waf_ds_live_gen s /\
    entries s' = <[key := e]> (entries s)).
  { intros ln y s' e H1 H2 H3 H4 <-. eapply (update_found s lv a key ln y s'); eauto. }
  assert (Hup0 : forall ln s' e, ln_data ln = ln_data x -> ln_hash ln = ln_hash x -> ln_h ln = ln_h x ->
    s' = s <| sl_live := Some (lv <| lv_nodes ::= insert a ln |>) |> -> entry_of ln = e ->
    slot_inv s' /\ frame s s' /\ ngx_http_waf_ds_live_gen s' = ngx_http_waf_ds_live_gen s /\
    entries s' = <[key := e]> (entries s)).
  { intros ln s' e H1 H2 H3 H4 H5. apply (Hup ln 0 s' e); try done; [by rewrite H3, Z.lxor_nilpotent|]. by rewrite xor0. }
  cbn zeta. cbn [merge e_expires e_h entry_of].
  destruct (Z.eqb_spec h 0) as [->|Hh]; cbn [negb].
  - change (ln_expires (x <| ln_gen := gen |>)) with (ln_expires x).
    destruct (negb (expires =? 0) && negb (ln_expires x =? 0) && (expires <=? ln_expires x)).
    + split; [by right|]. by apply (Hup0 (x <| ln_gen := gen |>)).
    + split; [by left|]. by apply (Hup0 (x <| ln_gen := gen |> <| ln_expires := expires |>)).
  - change (ln_h (x <| ln_gen := gen |>)) with (ln_h x). destruct (Z.eqb_spec (ln_h x) h) as [Ehx|Ehx]; cbn [negb].
    + change (ln_expires (x <| ln_gen := gen |>)) with (ln_expires x).
      destruct (Z.eqb_spec (ln_expires x) expires) as [Eex|Eex]; (split; [by (left + right)|]).
      * apply (Hup0 (x <| ln_gen := gen |>)); try done. unfold entry_of; cbn; congruence.
      * apply (Hup0 (x <| ln_gen := gen |> <| ln_expires := expires |>)); try done. unfold entry_of; cbn; congruence.
    + change (ln_expires (x <| ln_gen := gen |> <| ln_h := h |>)) with (ln_expires x).
      destruct (Z.eqb_spec (ln_expires x) expires) as [Eex|Eex]; (split; [by (left + right)|]).
      * apply (Hup (x <| ln_gen := gen |> <| ln_h := h |>) (Z.lxor (ln_h x) h)); try done. unfold entry_of; cbn; congruence.
      * by apply (Hup (x <| ln_gen := gen |> <| ln_h := h |> <| ln_expires := expires |>) (Z.lxor (ln_h x) h)).
Qed.

Lemma slab_frame s : frame s (snd (slab s)) /\ sl_live (snd (slab s)) = sl_live s /\ sl_live_hash (snd (slab s)) = sl_live_hash s.
Proof. unfold slab, frame. destruct (alloc (sl_mem s)). by destruct s. Qed.

Lemma slot_inv_ext s s' :
  frame s s' -> sl_live s' = sl_live s -> sl_live_hash s' = sl_live_hash s -> slot_inv s -> slot_inv s' /\ entries s' = entries s.
Proof.
  intros Hf Hl Hh [Hm Hi]. destruct (frame_fields _ _ Hf) as (Ft & Fm & _). unfold slot_inv, entries, live_inv.
  rewrite Hl, Hh, Fm, Ft. done.
Qed.

Lemma put_spec key expires h gen s :
  slot_inv s -> is_bytes key ->
  let '(rc, s') := put key expires h gen s in
  slot_inv s' /\ frame s s' /\ ngx_http_waf_ds_live_gen s' = ngx_http_waf_ds_live_gen s /\
  match rc with
  | PUT_OK | PUT_DECLINED => key_ok s.(sl_type) key /\
      entries s' = <[key := merge (entries s !! key) expires h gen]> (entries s)
  | PUT_BUSY => entries s' = entries s /\ entries s !! key = None /\ cap s <= Z.of_nat (size (entries s))
  | PUT_ERROR => entries s' = entries s /\ (~ key_ok s.(sl_type) key \/ entries s !! key = None)
  end.
Proof.
  intros Hi Hb. unfold ngx_http_waf_ds_live_put.
  destruct ((zlen key =? 0) || (NGX_HTTP_WAF_DS_ENTRY_MAX <? zlen key)) eqn:Elen.
  { split_and!; try done. left. intros (_ & ? & _). lia. }
  destruct (ngx_http_waf_ds_live_bits (sl_type s) key) as [[rc fam] bits] eqn:Eb.
  destruct (decide (rc = NGX_ERROR)) as [->|Hrc]; [rewrite bool_decide_true by done|rewrite bool_decide_false by done].
  { split_and!; try done. left. intros (_ & _ & Hk). by rewrite Eb in Hk. }
  assert (Hkey : key_ok (sl_type s) key).
  { split; [done|]. split; [pose proof (zlen_nonneg key); lia|]. by rewrite Eb. }
  pose proof (ensure_spec s Hi) as He. destruct (ngx_http_waf_ds_live_ensure s) as [[lv|] s1].
  2:{ destruct He as (Hf & Hi1 & He & Hg & _ & Hl & Hl0). split_and!; try done. right. unfold entries. by rewrite Hl0. }
  destruct He as (Hf & Hi1 & He & Hg & Hhash & Hl & Hmx & Hlg). destruct (frame_fields _ _ Hf) as (Ft & Fm & _).
  destruct (ngx_http_waf_ds_live_lookup memn2cmp lv key (crc32_long key)) as [a|] eqn:Elk.
  { pose proof (put_found key expires h gen s1 lv a Hl Hi1 Elk) as Hfd. cbn zeta in Hfd |- *.
    destruct (if negb (h =? 0) then _ else _) as [rc' s'].
    destruct Hfd as (Hr & H1 & H2 & H3 & H4). rewrite He in H4. rewrite <- Hg.
    assert (frame s s') by (by transitivity s1). destruct Hr as [-> | ->]; by split_and!. }
  assert (Hnone : entries s !! key = None).
  { rewrite <- He. unfold entries. rewrite Hl. pose proof Hi1 as [_ Hi1']. rewrite Hl in Hi1'.
    pose proof (lookup_live s1 lv key Hi1') as H. by rewrite Elk in H. }
  pose proof (size_entries s1 lv Hl Hi1) as Hsz. rewrite He in Hsz. rewrite Hmx.
  destruct (Z.leb_spec (cap s) (lv_n lv)) as [Hcap|Hcap].
  { split_and!; try done. lia. }
  destruct (slab_frame s1) as (Sf & Sl & Sh). destruct (slab s1) as [ok s2]. cbn [snd] in *.
  destruct (slot_inv_ext s1 s2 Sf Sl Sh Hi1) as [Hi2 He2]. destruct ok; cbn [negb].
  2:{ split_and!; [done|by transitivity s1| |congruence|by right].
      rewrite <- Hg. unfold ngx_http_waf_ds_live_gen. by rewrite Sl. }
  destruct (frame_fields _ _ Sf) as (Ft2 & Fm2 & _). cbn zeta.
  set (ln := mkLive (crc32_long key) key gen expires h). set (lvx := lv <| lv_next ::= _ |> <| lv_nodes ::= _ |>).
  set (lvt := (lvx <| lv_tree := _ |>) <| lv_n ::= _ |>). set (s' := (s2 <| sl_live_hash ::= _ |>) <| sl_live := _ |>).
  assert (Hf' : frame s2 s') by (unfold frame; destruct s2; reflexivity).
  destruct (add_spec s2 s' lv ln) as [Hi' He']; try done.
  - by rewrite Sl.
  - cbn. by rewrite He2, He.
  - cbn. by rewrite Ft2, Ft.
  - unfold slot_inv in Hi. unfold cap, NGX_HTTP_WAF_DS_LIVE_MAX in Hcap. destruct (negb _); lia.
  - cbn zeta. cbn [sl_live s' upd ln_data ln]. unfold lens_change. rewrite Ft2, Ft, Eb. by destruct (rc_ok rc).
  - split_and!; [done|by transitivity s1; [done|transitivity s2]| |done|].
    + rewrite <- Hlg. unfold ngx_http_waf_ds_live_gen. cbn. by destruct (rc_ok rc).
    + rewrite Hnone. cbn [merge]. rewrite He', He2, He. done.
Qed.

(** *** When a put is taken *)

(** The allocations that will fail. *)
Fixpoint failures (mem : alloc_stream) : Z :=
  match mem with [] => 0 | ok :: mem => (if ok : bool then 0 else 1) + failures mem end.

Definition key_fits (type : ds_type_e) (key : bytes) : bool :=
  negb ((zlen key =? 0) || (NGX_HTTP_WAF_DS_ENTRY_MAX <? zlen key))
  && negb (fst (fst (ngx_http_waf_ds_live_bits type key)) ==? NGX_ERROR).
(** A key of the slot's type that is there already, or for which there is a
    place and memory is granted. *)
Definition admits (type : ds_type_e) (cap : Z) (key : bytes) (granted : bool) (m : gmap bytes entry) : bool :=
  key_fits type key && (bool_decide (is_Some (m !! key)) || ((Z.of_nat (size m) <? cap) && granted)).
Definition put_taken (rc : put_rc) : bool := match rc with PUT_OK | PUT_DECLINED => true | _ => false end.

Lemma slab_failures s ok s' : slab s = (ok, s') ->
  failures (sl_mem s') + (if ok then 0 else 1) = failures (sl_mem s).
Proof.
  unfold slab. destruct (sl_mem s) as [|b l]; cbn [alloc]; intros [= <- <-]; cbn; lia.
Qed.

Lemma ensure_failures s o s1 : ngx_http_waf_ds_live_ensure s = (o, s1) ->
  failures (sl_mem s1) + (match o with Some _ => 0 | None => 1 end) = failures (sl_mem s).
Proof.
  unfold ngx_http_waf_ds_live_ensure. destruct (sl_live s); [intros [= <- <-]; cbn; lia|].
  destruct (slab s) as [ok s2] eqn:E. apply slab_failures in E. destruct ok; intros [= <- <-]; exact E.
Qed.

Lemma put_decides key expires h gen s :
  slot_inv s ->
  let '(rc, s') := put key expires h gen s in
  exists granted : bool, put_taken rc = admits s.(sl_type) (cap s) key granted (entries s) /\
    failures (sl_mem s') + (if granted then 0 else 1) <= failures (sl_mem s).
Proof.
  intros Hi. unfold ngx_http_waf_ds_live_put, admits, key_fits.
  destruct ((zlen key =? 0) || (NGX_HTTP_WAF_DS_ENTRY_MAX <? zlen key)) eqn:Elen; cbn [negb andb].
  { exists true. split; [done|lia]. }
  destruct (ngx_http_waf_ds_live_bits (sl_type s) key) as [[rc fam] bits] eqn:Eb. cbn [fst].
  destruct (rc ==? NGX_ERROR); cbn [negb andb]; [exists true; split; [done|lia]|].
  pose proof (ensure_spec s Hi) as He. destruct (ngx_http_waf_ds_live_ensure s) as [[lv|] s1] eqn:Ee;
    apply ensure_failures in Ee.
  2:{ destruct He as (_ & _ & _ & _ & _ & _ & Hl0). exists false. split; [|lia].
      unfold entries. rewrite Hl0. by rewrite andb_false_r. }
  destruct He as (_ & Hi1 & He & _ & _ & Hl & Hmx & _).
  pose proof Hi1 as [_ Hi1']. rewrite Hl in Hi1'. pose proof (lookup_live s1 lv key Hi1') as Hlk.
  assert (Hent : entries s = overlay (nodes_of lv)) by (rewrite <- He; unfold entries; by rewrite Hl).
  destruct (ngx_http_waf_ds_live_lookup memn2cmp lv key (crc32_long key)) as [a|].
  { destruct Hlk as (_ & _ & Hin). rewrite Hent, Hin, bool_decide_true by done. cbn [orb].
    cbn zeta. destruct (negb (h =? 0)); [destruct (negb (_ =? h)); destruct (_ =? expires)|destruct (_ && _ && _)];
      exists true; (split; [done|cbn [sl_mem upd]; lia]). }
  rewrite Hent, Hlk, bool_decide_false by (by intros []). cbn [orb]. rewrite <- Hent.
  pose proof (size_entries s1 lv Hl Hi1) as Hsz. rewrite He in Hsz. rewrite Hmx, Hsz.
  destruct (Z.leb_spec (cap s) (Z.of_nat (size (entries s)))) as [Hcap|Hcap].
  { exists true. rewrite (proj2 (Z.ltb_ge _ _)) by lia. split; [done|lia]. }
  rewrite (proj2 (Z.ltb_lt _ _)) by lia. destruct (slab s1) as [ok s2] eqn:Es. apply slab_failures in Es.
  destruct ok; cbn [negb]; [exists true|exists false]; (split; [done|]); [cbn [sl_mem upd]|]; lia.
Qed.

Lemma empty_key s : slot_inv s -> entries s !! [] = None.
Proof.
  intros [_ Hi]. unfold entries. destruct (sl_live s) as [lv|]; [|done]. destruct Hi as [_ Hg].
  destruct (overlay (nodes_of lv) !! []) as [e|] eqn:E; [|done]. apply overlay_lookup in E as (n & Hn & Hd & _); [|apply Hg].
  pose proof (g_keys _ _ _ _ _ _ Hg) as Hk. rewrite Forall_forall in Hk. destruct (Hk n Hn) as [_ (_ & Hz & _)].
  rewrite Hd in Hz. change (zlen (@nil Z)) with 0 in Hz. lia.
Qed.

Lemma drop_spec key s :
  slot_inv s ->
  let '(rc, s') := ngx_http_waf_ds_live_drop memn2cmp crc32_long rb_delete key s in
  slot_inv s' /\ frame s s' /\ ngx_http_waf_ds_live_gen s' = ngx_http_waf_ds_live_gen s /\
  entries s' = delete key (entries s) /\ (rc = NGX_OK <-> is_Some (entries s !! key)).
Proof.
  intros Hi. unfold ngx_http_waf_ds_live_drop.
  assert (Hno : entries s !! key = None -> slot_inv s /\ frame s s /\ ngx_http_waf_ds_live_gen s = ngx_http_waf_ds_live_gen s /\
    entries s = delete key (entries s) /\ (NGX_DECLINED = NGX_OK <-> is_Some (entries s !! key))).
  { intros E. split_and!; try done. - by rewrite delete_id. - rewrite E. split; [done|by intros []]. }
  destruct (sl_live s) as [lv|] eqn:Hl; [|apply Hno; unfold entries; by rewrite Hl].
  destruct (Z.eqb_spec (zlen key) 0) as [Hz|Hz].
  { apply Hno. destruct key; [by apply empty_key|]. rewrite zlen_cons in Hz. pose proof (zlen_nonneg key). lia. }
  pose proof Hi as [_ Hi']. rewrite Hl in Hi'. pose proof (lookup_live s lv key Hi') as H.
  destruct (ngx_http_waf_ds_live_lookup _ _ _ _) as [a|]; [|apply Hno; unfold entries; by rewrite Hl].
  destruct H as (Ha & Hd & He). destruct (delete_spec s lv a Hl Hi Ha) as (H1 & H2 & H3 & lv' & H4 & _ & H5 & _).
  rewrite Hd in H3. split_and!; try done.
  - unfold ngx_http_waf_ds_live_gen. by rewrite H4, Hl, H5.
  - split; [|done]. intros _. unfold entries. rewrite Hl, He. by eexists.
Qed.

Lemma mark_spec key gen s :
  slot_inv s ->
  let s' := ngx_http_waf_ds_live_mark memn2cmp crc32_long key gen s in
  slot_inv s' /\ frame s s' /\ ngx_http_waf_ds_live_gen s' = ngx_http_waf_ds_live_gen s /\
  entries s' = alter (fun e => e <| e_gen := gen |>) key (entries s).
Proof.
  intros Hi. cbn zeta. unfold ngx_http_waf_ds_live_mark.
  assert (Hno : entries s !! key = None -> slot_inv s /\ frame s s /\ ngx_http_waf_ds_live_gen s = ngx_http_waf_ds_live_gen s /\
    entries s = alter (fun e => e <| e_gen := gen |>) key (entries s)).
  { intros E. split_and!; try done. apply map_eq. intros k. destruct (decide (k = key)) as [->|].
    - by rewrite lookup_alter_eq, E.
    - by rewrite lookup_alter_ne. }
  destruct (sl_live s) as [lv|] eqn:Hl; [|apply Hno; unfold entries; by rewrite Hl].
  destruct (Z.eqb_spec (zlen key) 0) as [Hz|Hz].
  { apply Hno. destruct key; [by apply empty_key|]. rewrite zlen_cons in Hz. pose proof (zlen_nonneg key). lia. }
  pose proof Hi as [_ Hi']. rewrite Hl in Hi'. pose proof (lookup_live s lv key Hi') as H.
  destruct (ngx_http_waf_ds_live_lookup _ _ _ _) as [a|]; [|apply Hno; unfold entries; by rewrite Hl].
  destruct H as (Ha & Hd & He). set (ln := (live_at lv a) <| ln_gen := gen |>).
  destruct (update_found s lv a key ln 0 (s <| sl_live := Some (lv <| lv_nodes ::= insert a ln |>) |>) Hl Hi Ha Hd)
    as (H1 & H2 & H3 & H4); [done|done|by cbn; rewrite Z.lxor_nilpotent|by rewrite xor0|].
  split_and!; [done|done|done|]. rewrite H4. apply map_eq. intros k.
  assert (Ee : entries s !! key = Some (entry_of (live_at lv a))) by (unfold entries; by rewrite Hl).
  destruct (decide (k = key)) as [->|].
  - by rewrite lookup_insert_eq, lookup_alter_eq, Ee.
  - by rewrite lookup_insert_ne, lookup_alter_ne.
Qed.

Lemma begin_spec s :
  slot_inv s ->
  let '(gen, s') := ngx_http_waf_ds_live_begin s in
  slot_inv s' /\ frame s s' /\ entries s' = entries s /\
  (gen = 0 /\ sl_live s' = None \/
   gen = ngx_http_waf_ds_live_gen s' /\ is_Some (sl_live s') /\ 0 < gen < 2 ^ 32 /\
   (0 < ngx_http_waf_ds_live_gen s < 2 ^ 32 -> gen <> ngx_http_waf_ds_live_gen s)).
Proof.
  intros Hi. unfold ngx_http_waf_ds_live_begin. pose proof (ensure_spec s Hi) as He.
  destruct (ngx_http_waf_ds_live_ensure s) as [[lv|] s1].
  2:{ destruct He as (Hf & Hi1 & He & Hg & _ & Hl & Hl0). split_and!; try done. by left. }
  destruct He as (Hf & Hi1 & He & Hg & Hhash & Hl & Hmx & Hlg). cbn zeta. set (g := if _ =? 0 then 1 else _).
  assert (Hgr : 0 < g < 2 ^ 32 /\ (0 < lv_gen lv < 2 ^ 32 -> g <> lv_gen lv)).
  { unfold g. pose proof (u32_range (lv_gen lv + 1)) as Hr. unfold is_u32 in Hr. split.
    - destruct (Z.eqb_spec (u32 (lv_gen lv + 1)) 0); lia.
    - intros Hlv. destruct (Z.eqb_spec (u32 (lv_gen lv + 1)) 0) as [E|E]; [|wordlia].
      assert (lv_gen lv = 2 ^ 32 - 1) by wordlia. lia. }
  split; [|split; [|split; [|right; split; [reflexivity|split; [by eexists|split; [lia|rewrite <- Hlg; apply Hgr]]]]]].
  - destruct Hi1 as [Hm Hi1]. rewrite Hl in Hi1. destruct Hi1 as [[W1 W2 W3] Hgd]. split; [done|]. cbn.
    split; [by constructor|exact Hgd].
  - unfold frame in *. rewrite Hf. destruct s. reflexivity.
  - rewrite <- He. unfold entries. by rewrite Hl.
Qed.

(** ** Sweeping *)

(** Everything before the cursor is of the generation, and the cursor is a
    node of the tree. *)
Definition swept_to (gen : Z) (node : option Z) (lv : ds_live) : Prop :=
  match node with
  | None => forall a, a ∈ inorder lv.(lv_tree) -> (live_at lv a).(ln_gen) = gen
  | Some c => exists l k, inorder lv.(lv_tree) = l ++ c :: k /\ forall a, a ∈ l -> (live_at lv a).(ln_gen) = gen
  end.

(** The number of nodes from the cursor on. *)
Fixpoint from_node (l : list Z) (c : Z) : nat :=
  match l with [] => O | a :: l' => if a =? c then length l else from_node l' c end.
Definition to_sweep (node : option Z) (lv : ds_live) : nat :=
  match node with None => O | Some c => from_node (inorder lv.(lv_tree)) c end.

Lemma from_node_app l c k : c ∉ l -> from_node (l ++ c :: k) c = S (length k).
Proof.
  induction l as [|a l IH]; intros Hc; cbn.
  - by rewrite Z.eqb_refl.
  - destruct (Z.eqb_spec a c) as [->|]; [destruct Hc; by left|]. apply IH. intros ?. apply Hc. by right.
Qed.

Lemma filter_not_in (l : list Z) c : c ∉ l -> filter (fun b => b <> c) l = l.
Proof.
  induction l as [|a l IH]; intros Hc; [done|]. rewrite filter_cons_True by (intros ->; apply Hc; by left).
  f_equal. apply IH. intros ?. apply Hc. by right.
Qed.

Lemma filter_out_app (l : list Z) c k : NoDup (l ++ c :: k) -> filter (fun b => b <> c) (l ++ c :: k) = l ++ k.
Proof.
  intros Hn. rewrite filter_app, filter_cons_False by (intros H; by apply H).
  apply NoDup_app in Hn as (_ & Hlk & Hk). apply NoDup_cons in Hk as [Hk _].
  rewrite !filter_not_in; [done|done|]. intros Hc. apply (Hlk c Hc). by left.
Qed.

Lemma head_swept gen l k lv :
  inorder lv.(lv_tree) = l ++ k -> (forall a, a ∈ l -> (live_at lv a).(ln_gen) = gen) -> swept_to gen (head k) lv.
Proof.
  intros Hin Hl. destruct k as [|c k]; cbn; [|by exists l, k]. rewrite Hin, app_nil_r. done.
Qed.

Lemma head_left l k lv : NoDup (inorder lv.(lv_tree)) -> inorder lv.(lv_tree) = l ++ k -> to_sweep (head k) lv = length k.
Proof.
  intros Hn Hin. destruct k as [|c k]; cbn; [done|]. rewrite Hin in *. apply from_node_app.
  apply NoDup_app in Hn as (_ & Hlk & _). intros Hc. apply (Hlk c Hc). by left.
Qed.

(** Entries that are kept, and entries that may be. *)
Definition kept (gen : Z) (m m' : gmap bytes entry) : Prop :=
  (forall k e, m' !! k = Some e -> m !! k = Some e) /\
  (forall k e, m !! k = Some e -> e.(e_gen) = gen -> m' !! k = Some e).

#[local] Instance kept_preorder gen : PreOrder (kept gen).
Proof.
  split; [by intros m|]. intros m1 m2 m3 [A1 A2] [B1 B2]. split; intros k e H; [by apply A1, B1|].
  intros Hg. apply B2; [by apply A2|done].
Qed.

Abbreviation sweep_nodes := (sweep_loop rb_delete rb_next).

Lemma nodup_fmap_inj {A B} (f : A -> B) (l : list A) x y :
  NoDup (f <$> l) -> x ∈ l -> y ∈ l -> f x = f y -> x = y.
Proof.
  induction l as [|a l IH]; [by intros _ ?%elem_of_nil|]. rewrite fmap_cons. intros [Ha Hn]%NoDup_cons.
  intros [->|Hx]%elem_of_cons [->|Hy]%elem_of_cons Hf; [done| | |by apply IH].
  - destruct Ha. rewrite Hf. by apply list_elem_of_fmap_2.
  - destruct Ha. rewrite <- Hf. by apply list_elem_of_fmap_2.
Qed.

(** One turn of the sweep. *)
Lemma sweep_turn gen c s lv :
  slot_inv s -> s.(sl_live) = Some lv -> swept_to gen (Some c) lv ->
  let s' := if negb ((live_at lv c).(ln_gen) =? gen) then ngx_http_waf_ds_live_delete rb_delete lv c s else s in
  let next := rb_next lv.(lv_tree) c in
  slot_inv s' /\ frame s s' /\ kept gen (entries s) (entries s') /\
  exists lv', s'.(sl_live) = Some lv' /\ lv'.(lv_gen) = lv.(lv_gen) /\ swept_to gen next lv' /\
    to_sweep (Some c) lv = S (to_sweep next lv').
Proof.
  intros Hi Hl (l & k & Hin & Hold). pose proof Hi as [_ Hi']. rewrite Hl in Hi'. destruct Hi' as [Hw Hg].
  pose proof (wf_nodup lv Hw) as Hn. rewrite Hin in Hn. pose proof Hn as (_ & Hlk & Hk)%NoDup_app.
  assert (Hcl : c ∉ l) by (intros Hc; apply (Hlk c Hc); by left). apply NoDup_cons in Hk as [Hck _].
  cbn zeta. rewrite (rb_next_succ _ l c k Hin Hcl).
  assert (Hleft : to_sweep (Some c) lv = S (length k)) by (cbn; rewrite Hin; by apply from_node_app).
  destruct (Z.eqb_spec (ln_gen (live_at lv c)) gen) as [Eg|Eg]; cbn [negb].
  - split_and!; try done. exists lv. assert (Hin' : inorder (lv_tree lv) = (l ++ [c]) ++ k) by (by rewrite <- app_assoc).
    split_and!; try done.
    + apply (head_swept gen (l ++ [c])); [done|]. intros a [Ha|Ha%list_elem_of_singleton]%elem_of_app; [by apply Hold|by subst].
    + rewrite Hleft. f_equal. symmetry. apply (head_left (l ++ [c])); [by apply wf_nodup|done].
  - assert (Ha : c ∈ inorder (lv_tree lv)) by (rewrite Hin; apply elem_of_app; right; by left).
    destruct (delete_spec s lv c Hl Hi Ha) as (H1 & H2 & H3 & lv' & H4 & H5 & H6 & H7).
    rewrite Hin, filter_out_app in H5 by done. split; [done|]. split; [done|]. split.
    + rewrite H3. split; intros key e He.
      * by apply lookup_delete_Some in He as [_ He].
      * intros Hge. apply lookup_delete_Some. split; [|done]. intros <-. apply Eg. rewrite <- Hge.
        unfold entries in He. rewrite Hl in He. apply overlay_lookup in He as (n & Hn1 & Hn2 & <-); [|apply Hg].
        apply list_elem_of_fmap in Hn1 as (a & -> & Ha1). assert (a = c) as ->; [|done].
        apply (nodup_fmap_inj (ln_data ∘ live_at lv) (inorder (lv_tree lv))); [|done|done|done].
        pose proof (g_nodup _ _ _ _ _ _ Hg) as Hnd. unfold nodes_of in Hnd. by rewrite <- list_fmap_compose in Hnd.
    + exists lv'. split_and!; try done.
      * apply (head_swept gen l); [done|]. intros a Ha1. rewrite H7; [by apply Hold|]. intros ->. done.
      * rewrite Hleft. f_equal. symmetry. apply (head_left l); [|done]. rewrite H5.
        apply NoDup_app in Hn as (N1 & N2 & N3). apply NoDup_cons in N3 as [_ N3]. apply NoDup_app.
        split_and!; [done| |done]. intros x Hx Hxk. apply (N2 x Hx). by right.
Qed.

Lemma sweep_loop_spec batch gen node swept s lv :
  slot_inv s -> s.(sl_live) = Some lv -> swept_to gen node lv ->
  let '(node', _, s') := sweep_nodes batch gen node swept s in
  slot_inv s' /\ frame s s' /\ kept gen (entries s) (entries s') /\
  exists lv', s'.(sl_live) = Some lv' /\ lv'.(lv_gen) = lv.(lv_gen) /\ swept_to gen node' lv' /\
    (node' = None \/ to_sweep node lv = (batch + to_sweep node' lv')%nat).
Proof.
  revert node swept s lv. induction batch as [|batch IH]; intros node swept s lv Hi Hl Hs.
  { cbn. destruct node; (split_and!; [done|done|done|exists lv; split_and!; [done|done|done|by right]]). }
  cbn [sweep_loop]. destruct node as [c|].
  2:{ split_and!; [done|done|done|exists lv; split_and!; [done|done|done|by left]]. }
  rewrite Hl. destruct (sweep_turn gen c s lv Hi Hl Hs) as (H1 & H2 & H3 & lv' & H4 & H5 & H6 & H7). cbn zeta.
  assert (Hgo : forall s1 sw, slot_inv s1 -> frame s s1 -> kept gen (entries s) (entries s1) -> sl_live s1 = Some lv' ->
    let '(node', _, s') := sweep_nodes batch gen (rb_next (lv_tree lv) c) sw s1 in
    slot_inv s' /\ frame s s' /\ kept gen (entries s) (entries s') /\
    exists lv2, s'.(sl_live) = Some lv2 /\ lv2.(lv_gen) = lv.(lv_gen) /\ swept_to gen node' lv2 /\
      (node' = None \/ to_sweep (Some c) lv = (S batch + to_sweep node' lv2)%nat)).
  { intros s1 sw G1 G2 G3 G4. pose proof (IH (rb_next (lv_tree lv) c) sw s1 lv' G1 G4 H6) as HI.
    destruct (sweep_nodes _ _ _ _ _) as [[node' sw'] s']. destruct HI as (I1 & I2 & I3 & lv2 & I4 & I5 & I6 & I7).
    split_and!; [done|by transitivity s1|by transitivity (entries s1)|].
    exists lv2. split_and!; [done|congruence|done|]. destruct I7 as [?|I7]; [by left|right]. rewrite H7, I7. done. }
  destruct (negb (ln_gen (live_at lv c) =? gen)) eqn:E; apply Hgo; done.
Qed.

Lemma swept_entries gen s lv :
  slot_inv s -> s.(sl_live) = Some lv -> swept_to gen None lv -> forall k e, entries s !! k = Some e -> e.(e_gen) = gen.
Proof.
  intros [_ Hi] Hl Hs k e. unfold entries. rewrite Hl in *. destruct Hi as [_ Hg].
  intros (n & Hn & _ & <-)%overlay_lookup; [|apply Hg]. apply list_elem_of_fmap in Hn as (a & -> & Ha). by apply Hs.
Qed.

(** Where a sweep stands: at a node, or not begun. *)
Definition sweeping (gen : Z) (cursor : option Z) (lv : ds_live) : Prop :=
  match cursor with None => True | Some c => swept_to gen (Some c) lv end.
Definition sweep_left (cursor : option Z) (lv : ds_live) : nat :=
  match cursor with None => length (inorder lv.(lv_tree)) | Some c => to_sweep (Some c) lv end.

Lemma sweep_spec gen batch cursor swept s lv :
  slot_inv s -> s.(sl_live) = Some lv -> sweeping gen cursor lv -> (0 < batch)%nat ->
  let '(rc, cursor', _, s') := ngx_http_waf_ds_live_sweep rb_delete rb_min rb_next gen batch cursor swept s in
  slot_inv s' /\ frame s s' /\ kept gen (entries s) (entries s') /\
  exists lv', s'.(sl_live) = Some lv' /\ lv'.(lv_gen) = lv.(lv_gen) /\
    (rc = NGX_OK /\ (forall k e, entries s' !! k = Some e -> e.(e_gen) = gen) \/
     rc = NGX_AGAIN /\ (exists c, cursor' = Some c) /\ sweeping gen cursor' lv' /\ (sweep_left cursor' lv' < sweep_left cursor lv)%nat).
Proof.
  intros Hi Hl Hs Hb. unfold ngx_http_waf_ds_live_sweep. rewrite Hl.
  destruct (lv_tree lv) as [|tl ta tr] eqn:Et.
  { split_and!; try done. exists lv. split_and!; try done. left. split; [done|].
    eapply swept_entries; [done|exact Hl|]. intros a. rewrite Et. cbn. by intros ?%elem_of_nil. }
  rewrite <- Et. clear Et tl ta tr. cbn zeta. set (node := match cursor with None => rb_min (lv_tree lv) | Some a => Some a end).
  assert (Hnode : swept_to gen node lv /\ to_sweep node lv = sweep_left cursor lv).
  { unfold node. destruct cursor as [c|]; [by split|]. rewrite rb_min_head.
    pose proof Hi as [_ Hi']. rewrite Hl in Hi'. destruct Hi' as [Hw _].
    split; [apply (head_swept gen []); [done|]; by intros a ?%elem_of_nil|]. by apply (head_left []); [apply wf_nodup|]. }
  destruct Hnode as [Hn Hleft]. pose proof (sweep_loop_spec batch gen node swept s lv Hi Hl Hn) as H.
  destruct (sweep_nodes _ _ _ _ _) as [[node' sw'] s']. destruct H as (H1 & H2 & H3 & lv' & H4 & H5 & H6 & H7).
  split_and!; [done|done|done|]. exists lv'. split_and!; [done|done|]. destruct node' as [c|].
  - right. split_and!; [done|by exists c|done|]. destruct H7 as [?|H7]; [done|]. rewrite <- Hleft, H7. cbn [sweep_left]. lia.
  - left. split; [done|]. by apply (swept_entries gen s' lv').
Qed.

Lemma reset_spec s :
  slot_inv s -> let s' := ngx_http_waf_ds_live_reset rb_delete rb_min s in
  slot_inv s' /\ frame s s' /\ entries s' = ∅.
Proof.
  intros Hi. cbn zeta. unfold ngx_http_waf_ds_live_reset. destruct (sl_live s) as [lv|] eqn:Hl.
  2:{ split_and!; try done. unfold entries. by rewrite Hl. }
  assert (H : forall n s lv, slot_inv s -> sl_live s = Some lv -> length (inorder (lv_tree lv)) = n ->
    let s' := reset_loop rb_delete rb_min n s in
    slot_inv s' /\ frame s s' /\ exists lv', sl_live s' = Some lv' /\ inorder (lv_tree lv') = []).
  { clear s lv Hi Hl. induction n as [|n IH]; intros s lv Hi Hl Hn.
    { cbn. destruct (sl_live s) as [lv0|]; [|done]. injection Hl as ->. split_and!; try done. exists lv. split; [done|].
      by destruct (inorder (lv_tree lv)). }
    cbn [reset_loop]. rewrite Hl, rb_min_head. pose proof Hi as [_ Hi']. rewrite Hl in Hi'. destruct Hi' as [Hw _].
    pose proof (wf_nodup lv Hw) as Hnd. destruct (inorder (lv_tree lv)) as [|a l] eqn:Ei; [done|]. cbn [head].
    destruct (delete_spec s lv a Hl Hi) as (H1 & H2 & _ & lv' & H4 & H5 & _ & _); [rewrite Ei; by left|].
    rewrite Ei in H5. pose proof (filter_out_app [] a l Hnd) as Hfo. cbn [app] in Hfo. rewrite Hfo in H5.
    destruct (IH _ lv' H1 H4) as (I1 & I2 & I3); [rewrite H5; cbn in Hn; lia|].
    split_and!; [done|by etransitivity|done]. }
  destruct (H _ s lv Hi Hl eq_refl) as (H1 & H2 & lv' & H3 & H4). rewrite H3. set (s1 := reset_loop _ _ _ _) in *.
  destruct H1 as [Hm Hi1]. rewrite H3 in Hi1. destruct Hi1 as [[W1 W2 W3] _]. split; [|split].
  - split; [done|]. cbn [sl_live upd]. split; [by constructor|]. cbn -[lens0]. unfold nodes_of. cbn. rewrite H4. apply empty_good.
  - unfold frame in *. rewrite H2. by destruct s.
  - unfold entries. cbn. unfold nodes_of. cbn. by rewrite H4.
Qed.

(** ** The checksum and the number of entries *)

Definition checksum (m : gmap bytes entry) : Z := map_fold (fun _ e x => Z.lxor e.(e_h) x) 0 m.

Lemma checksum_insert m k e : m !! k = None -> checksum (<[k := e]> m) = Z.lxor e.(e_h) (checksum m).
Proof.
  intros H. unfold checksum. apply (map_fold_insert_L (fun (_ : bytes) (e : entry) (x : Z) => Z.lxor e.(e_h) x)); [|done]. intros j1 j2 z1 z2 y _ _ _.
  by rewrite <- !Z.lxor_assoc, (Z.lxor_comm (e_h z1)).
Qed.

Lemma checksum_overlay ns : NoDup (ln_data <$> ns) -> checksum (overlay ns) = hash_sum ns.
Proof.
  induction ns as [|n ns IH]; [done|]. rewrite fmap_cons. intros [Hn Hns]%NoDup_cons.
  rewrite overlay_cons, checksum_insert by (by apply overlay_not_in). cbn. by rewrite IH.
Qed.

Lemma slot_checksum s : slot_inv s -> s.(sl_live_hash) = checksum (entries s).
Proof.
  intros [_ Hi]. unfold entries. destruct (sl_live s) as [lv|]; [|done]. destruct Hi as [_ Hg].
  rewrite checksum_overlay by apply Hg. apply Hg.
Qed.

(** ** Looking up *)

Definition live_entry (now : Z) (e : entry) : bool := (e.(e_expires) =? 0) || (0 <=? msec_diff e.(e_expires) now).

Lemma hit_spec now v s :
  slot_inv s ->
  (ngx_http_waf_ds_live_hit memn2cmp crc32_long now v s = true <->
   exists e, entries s !! v = Some e /\ live_entry now e = true).
Proof.
  intros Hi. unfold ngx_http_waf_ds_live_hit. destruct (sl_live s) as [lv|] eqn:Hl.
  2:{ unfold entries. rewrite Hl. split; [done|]. by intros (e & He & _). }
  destruct (Z.eqb_spec (zlen v) 0) as [Hz|Hz].
  { destruct v; [|rewrite zlen_cons in Hz; pose proof (zlen_nonneg v); lia]. rewrite empty_key by done.
    split; [done|]. by intros (e & He & _). }
  pose proof Hi as [_ Hi']. rewrite Hl in Hi'. pose proof (lookup_live s lv v Hi') as H. unfold entries. rewrite Hl.
  destruct (ngx_http_waf_ds_live_lookup _ _ _ _) as [a|].
  - destruct H as (_ & _ & ->). split; [intros Hf; by eexists|]. by intros (e & [= <-] & Hf).
  - rewrite H. split; [done|]. by intros (e & He & _).
Qed.

Definition addr_len (fam : Z) : Z := if fam =? 0 then 4 else 16.
Definition net_key (fam p : Z) (addr : bytes) : bytes := (if fam =? 0 then 4 else 6) :: p :: addr.
(** The network of [p] bits an address lies in. *)
Definition net_of (fam p : Z) (addr : bytes) : bytes :=
  net_key fam p (zip_with Z.land addr (mask_bytes (addr_len fam) p)).

Lemma zip_mask (addr : bytes) (n p : Z) :
  zlen addr = n -> zip_with Z.land addr (mask_bytes n p) = map (fun i => Z.land (aget 0 addr i) (mask_byte p i)) (seqZ 0 n).
Proof.
  intros Hl. pose proof (zlen_nonneg addr). unfold zlen in Hl.
  assert (E1 : length (mask_bytes n p) = length addr).
  { pose proof (zlen_mask n p ltac:(lia)) as E. unfold zlen in E. lia. }
  apply list_eq_same_length with (n := length addr).
  { rewrite length_map, length_seqZ. lia. }
  { rewrite length_zip_with, E1. lia. }
  intros i x y Hi Hx Hy. apply lookup_zip_with_Some in Hx as (a & b & -> & Ha & Hb).
  change (map ?f ?l) with (f <$> l) in Hy. unfold mask_bytes in Hb. change (map ?f ?l) with (f <$> l) in Hb.
  rewrite list_lookup_fmap, lookup_seqZ_lt in Hy, Hb by lia. injection Hy as <-. injection Hb as <-.
  rewrite aget_lookup, Z.add_0_l, Nat2Z.id, Ha by lia. done.
Qed.

Lemma keep_bits_mask fam p addr :
  zlen addr = addr_len fam -> is_bytes addr -> keep_bits p addr (addr_len fam) = zip_with Z.land addr (mask_bytes (addr_len fam) p).
Proof.
  intros Hl Hb. rewrite (zip_mask addr (addr_len fam) p Hl). unfold keep_bits. apply map_ext_in. intros i Hi%list_elem_of_In%elem_of_seqZ.
  assert (Ha : is_u8 (aget 0 addr i)).
  { rewrite aget_lookup by lia. destruct (addr !! Z.to_nat i) as [x|] eqn:E; [|cbn; unfold is_u8; lia].
    unfold is_bytes in Hb. rewrite Forall_lookup in Hb. by apply (Hb _ _ E). }
  cbn zeta. unfold mask_byte. replace (p - i * 8) with (p - 8 * i) by lia. set (k := p - 8 * i).
  destruct (Z.leb_spec 8 k) as [H8|H8].
  - replace (Z.max 0 (Z.min 8 k)) with 8 by lia. change (2 ^ 8 - 2 ^ (8 - 8)) with (Z.ones 8).
    rewrite Z.land_ones by lia. symmetry. by apply Z.mod_small.
  - destruct (Z.leb_spec k 0) as [H0|H0].
    + replace (Z.max 0 (Z.min 8 k)) with 0 by lia. by rewrite Z.land_0_r.
    + replace (Z.max 0 (Z.min 8 k)) with k by lia. f_equal.
      assert (H : k = 1 \/ k = 2 \/ k = 3 \/ k = 4 \/ k = 5 \/ k = 6 \/ k = 7) by lia.
      clearbody k. by repeat (destruct H as [->|H]; [reflexivity|]); subst.
Qed.

Lemma fam_cases fam : 0 <= fam <= 1 -> fam = 0 \/ fam = 1.
Proof. lia. Qed.

Lemma net_of_bits fam p addr :
  0 <= fam <= 1 -> 0 <= p <= 8 * addr_len fam -> zlen addr = addr_len fam ->
  ngx_http_waf_ds_live_bits DS_CIDR (net_of fam p addr) = (NGX_OK, fam, p).
Proof.
  intros Hf Hp Hl. assert (Hz : zlen (net_of fam p addr) = 2 + addr_len fam).
  { unfold net_of, net_key. rewrite !zlen_cons, zlen_zip; [lia|]. rewrite zlen_mask; [done|].
    unfold addr_len. destruct (fam =? 0); lia. }
  unfold ngx_http_waf_ds_live_bits. change (DS_CIDR ==? DS_CIDR) with true. cbn [negb]. rewrite Hz.
  change (aget 0 (net_of fam p addr) 1) with p. change (aget 0 (net_of fam p addr) 0) with (if fam =? 0 then 4 else 6).
  destruct (fam_cases fam Hf) as [-> | ->]; cbn in *.
  - rewrite (proj2 (Z.leb_le p 32)) by lia. done.
  - rewrite (proj2 (Z.leb_le p 128)) by lia. done.
Qed.

Lemma probe_lens_spec n now fam addr s lv :
  slot_inv s -> s.(sl_live) = Some lv -> s.(sl_type) = DS_CIDR ->
  0 <= fam <= 1 -> zlen addr = addr_len fam -> is_bytes addr -> Z.of_nat n <= 8 * addr_len fam + 1 ->
  (probe_lens memn2cmp crc32_long n lv now fam addr = true <->
   exists p e, 0 <= p < Z.of_nat n /\ entries s !! net_of fam p addr = Some e /\ live_entry now e = true).
Proof.
  intros Hi Hl Ht Hf Ha Hb. pose proof Hi as [_ Hi']. rewrite Hl in Hi'.
  assert (Hal : addr_len fam = 4 /\ fam = 0 \/ addr_len fam = 16 /\ fam = 1).
  { destruct (fam_cases fam Hf) as [-> | ->]; [by left|by right]. }
  induction n as [|n IH]; intros Hn.
  { split; [done|]. intros (p & e & Hp & _). lia. }
  cbn [probe_lens]. specialize (IH ltac:(lia)).
  assert (Hstep : (exists p e, 0 <= p < Z.of_nat (S n) /\ entries s !! net_of fam p addr = Some e /\ live_entry now e = true) <->
    (exists e, entries s !! net_of fam (Z.of_nat n) addr = Some e /\ live_entry now e = true) \/
    (exists p e, 0 <= p < Z.of_nat n /\ entries s !! net_of fam p addr = Some e /\ live_entry now e = true)).
  { split.
    - intros (p & e & Hp & He). destruct (Z.eq_dec p (Z.of_nat n)) as [->|]; [left; by exists e|right; exists p, e].
      split; [lia|done].
    - intros [(e & He)|(p & e & Hp & He)]; [exists (Z.of_nat n), e|exists p, e]; (split; [lia|done]). }
  rewrite Hstep, <- IH. clear Hstep IH. set (p := Z.of_nat n) in *.
  assert (Hkey : probe_key fam p addr = net_of fam p addr).
  { unfold probe_key, net_of, net_key. rewrite u8_small by (unfold is_u8; lia).
    replace (if fam =? 0 then 4 else 16) with (addr_len fam) by done. by rewrite keep_bits_mask. }
  destruct (Z.eqb_spec (aget 0 (lv_lens lv) (lens_at fam p)) 0) as [E0|E0].
  - assert (Hno : entries s !! net_of fam p addr = None).
    { destruct (entries s !! net_of fam p addr) as [e|] eqn:E; [|done]. exfalso. unfold entries in E. rewrite Hl in E.
      destruct Hi' as [_ Hg]. apply overlay_lookup in E as (x & Hx & Hd & _); [|apply Hg].
      rewrite (g_lens _ _ _ _ _ _ Hg) in E0 by lia. rewrite Ht in E0. apply elem_of_Permutation in Hx as [rest Hx].
      rewrite (count_perm _ _ _ _ _ Hx), count_cons, Hd in E0. rewrite net_of_bits in E0 by (done || lia).
      rewrite decide_True in E0 by done. pose proof (count_range DS_CIDR fam p rest). lia. }
    split; [by right|]. intros [(e & He & _)|]; [congruence|done].
  - cbn zeta. rewrite Hkey. pose proof (lookup_live s lv (net_of fam p addr) Hi') as H.
    assert (Ee : entries s = overlay (nodes_of lv)) by (unfold entries; by rewrite Hl). rewrite Ee.
    destruct (ngx_http_waf_ds_live_lookup _ _ _ _) as [a|].
    + destruct H as (_ & _ & ->). change (live_fresh now (live_at lv a)) with (live_entry now (entry_of (live_at lv a))).
      destruct (live_entry now (entry_of (live_at lv a))) eqn:Ef.
      * split; [intros _; left; by eexists|done].
      * split; [by right|]. intros [(e & [= <-] & ?)|]; [congruence|done].
    + rewrite H. split; [by right|]. intros [(e & ? & _)|]; done.
Qed.

(** C25: The probe of an address in an overlay of networks is exact: it
    answers yes exactly when some network of the overlay, of any prefix
    length, holds the address and has not expired.  Prefix lengths that no
    entry has are skipped without loss, and an expired narrow network does not
    hide a wider one. *)
Theorem overlay_probe_exact now fam addr s :
  slot_inv s -> s.(sl_type) = DS_CIDR -> 0 <= fam <= 1 -> zlen addr = addr_len fam -> is_bytes addr ->
  (ngx_http_waf_ds_live_probe memn2cmp crc32_long now fam addr s = true <->
   exists p e, 0 <= p <= 8 * addr_len fam /\ entries s !! net_of fam p addr = Some e /\ live_entry now e = true).
Proof.
  intros Hi Ht Hf Ha Hb. unfold ngx_http_waf_ds_live_probe. destruct (sl_live s) as [lv|] eqn:Hl.
  2:{ unfold entries. rewrite Hl. split; [done|]. by intros (p & e & _ & He & _). }
  replace (if fam =? 0 then 4 else 16) with (addr_len fam) by done.
  assert (0 < addr_len fam) by (unfold addr_len; destruct (fam =? 0); lia).
  rewrite (probe_lens_spec _ now fam addr s lv) by (done || lia). rewrite Z2Nat.id by lia.
  split; intros (p & e & Hp & He); exists p, e; (split; [lia|done]).
Qed.

(** ** The overlay as a finite map *)

Lemma count_overlay type fam p ns :
  NoDup (ln_data <$> ns) ->
  count type fam p ns = Z.of_nat (size (filter (fun ke : bytes * entry => ngx_http_waf_ds_live_bits type (fst ke) = (NGX_OK, fam, p)) (overlay ns))).
Proof.
  induction ns as [|n ns IH]; [change (overlay []) with (∅ : gmap bytes entry); by rewrite map_filter_empty, map_size_empty|]. rewrite fmap_cons. intros [Hn Hns]%NoDup_cons.
  rewrite count_cons, overlay_cons, map_filter_insert, IH by done. cbn [fst]. apply overlay_not_in in Hn. case_decide as Hd.
  - rewrite map_size_insert_None; [lia|]. apply map_lookup_filter_None. by left.
  - rewrite delete_id by done. lia.
Qed.

Inductive live_op :=
  | OpPut (key : bytes) (expires h gen : Z)
  | OpDrop (key : bytes)
  | OpMark (key : bytes) (gen : Z)
  | OpBegin
  | OpReset.

(** An operation of the code: whether it took, and the slot. *)
Definition live_do (o : live_op) (s : ds_slot) : bool * ds_slot :=
  match o with
  | OpPut key expires h gen =>
      let '(rc, s) := put key expires h gen s in
      (match rc with PUT_OK | PUT_DECLINED => true | _ => false end, s)
  | OpDrop key => let '(rc, s) := ngx_http_waf_ds_live_drop memn2cmp crc32_long rb_delete key s in (rc_ok rc, s)
  | OpMark key gen => (true, ngx_http_waf_ds_live_mark memn2cmp crc32_long key gen s)
  | OpBegin => let '(gen, s) := ngx_http_waf_ds_live_begin s in (negb (gen =? 0), s)
  | OpReset => (true, ngx_http_waf_ds_live_reset rb_delete rb_min s)
  end.

(** The same on a map of entries. *)
Definition map_do (o : live_op) (took : bool) (m : gmap bytes entry) : gmap bytes entry :=
  match o with
  | OpPut key expires h gen => if took then <[key := merge (m !! key) expires h gen]> m else m
  | OpDrop key => delete key m
  | OpMark key gen => alter (fun e => e <| e_gen := gen |>) key m
  | OpBegin => m
  | OpReset => ∅
  end.

(** What an operation may be refused for: an invalid key, or one that is not
    there yet when the overlay is full or the zone has no memory. *)
Definition refusal_ok (s : ds_slot) (o : live_op) (took : bool) : Prop :=
  match o with
  | OpPut key _ _ _ => took = false -> ~ key_ok s.(sl_type) key \/ entries s !! key = None
  | OpDrop key => took = true <-> is_Some (entries s !! key)
  | _ => True
  end.

Definition op_bytes (o : live_op) : Prop := match o with OpPut key _ _ _ => is_bytes key | _ => True end.

Lemma live_do_spec o s :
  slot_inv s -> op_bytes o ->
  let '(took, s') := live_do o s in
  slot_inv s' /\ frame s s' /\ entries s' = map_do o took (entries s) /\ refusal_ok s o took.
Proof.
  intros Hi Hb. destruct o as [key expires h gen|key|key gen| |]; cbn [live_do map_do refusal_ok].
  - pose proof (put_spec key expires h gen s Hi Hb) as H. destruct (put key expires h gen s) as [rc s'].
    destruct H as (H1 & H2 & _ & H3). destruct rc; split_and!; try done; try apply H3; tauto.
  - pose proof (drop_spec key s Hi) as H. destruct (ngx_http_waf_ds_live_drop _ _ _ _ _) as [rc s'].
    destruct H as (H1 & H2 & _ & H3 & H4). split_and!; try done. rewrite <- H4. by destruct rc.
  - destruct (mark_spec key gen s Hi) as (H1 & H2 & _ & H3). by split_and!.
  - pose proof (begin_spec s Hi) as H. destruct (ngx_http_waf_ds_live_begin s) as [gen s'].
    destruct H as (H1 & H2 & H3 & _). by split_and!.
  - destruct (reset_spec s Hi) as (H1 & H2 & H3). by split_and!.
Qed.

Fixpoint live_run (ops : list live_op) (s : ds_slot) : list bool * ds_slot :=
  match ops with
  | [] => ([], s)
  | o :: ops => let '(took, s) := live_do o s in let '(t, s) := live_run ops s in (took :: t, s)
  end.
Fixpoint map_run (ops : list live_op) (took : list bool) (m : gmap bytes entry) : gmap bytes entry :=
  match ops, took with
  | o :: ops, t :: took => map_run ops took (map_do o t m)
  | _, _ => m
  end.

(** C24: The overlay refines a finite map: whatever sequence of puts, drops,
    marks, new generations and resets runs over it, and whichever allocations
    fail, its entries are those of the map, its counter is their number, the
    per-prefix counters count them, and its checksum is the exclusive or of
    theirs.  The tree stays a search tree throughout. *)
Theorem overlay_refines_map ops s :
  slot_inv s -> Forall op_bytes ops ->
  let '(took, s') := live_run ops s in
  slot_inv s' /\ entries s' = map_run ops took (entries s) /\ s'.(sl_live_hash) = checksum (entries s') /\
  forall lv, s'.(sl_live) = Some lv ->
    lv.(lv_n) = Z.of_nat (size (entries s')) /\
    forall fam p, 0 <= fam <= 1 -> 0 <= p <= 128 ->
      aget 0 lv.(lv_lens) (lens_at fam p) =
        Z.of_nat (size (filter (fun ke => ngx_http_waf_ds_live_bits s'.(sl_type) (fst ke) = (NGX_OK, fam, p)) (entries s'))).
Proof.
  intros Hi Hb. assert (H : let '(took, s') := live_run ops s in slot_inv s' /\ entries s' = map_run ops took (entries s)).
  { revert s Hi. induction Hb as [|o ops Ho _ IH]; intros s Hi; cbn [live_run map_run]; [done|].
    pose proof (live_do_spec o s Hi Ho) as H. destruct (live_do o s) as [took s1]. destruct H as (H1 & _ & H2 & _).
    specialize (IH s1 H1). destruct (live_run ops s1) as [t s2]. destruct IH as [I1 I2]. split; [done|]. by rewrite I2, H2. }
  destruct (live_run ops s) as [took s']. destruct H as [H1 H2]. split_and!; [done|done|by apply slot_checksum|].
  intros lv Hl. split; [by apply size_entries|]. intros fam p Hf Hp.
  unfold entries. rewrite Hl. pose proof H1 as [_ Hi']. rewrite Hl in Hi'. destruct Hi' as [_ Hg].
  rewrite (g_lens _ _ _ _ _ _ Hg) by done. by apply count_overlay, Hg.
Qed.

End tree.

(** ** An instance and examples *)

Definition plain_min (t : tree) : option Z := head (inorder t).
Fixpoint succ_of (a : Z) (l : list Z) : option Z :=
  match l with [] => None | b :: l => if b =? a then head l else succ_of a l end.
Definition plain_next (t : tree) (a : Z) : option Z := succ_of a (inorder t).

#[export] Instance plain_walk : RbWalk plain_min plain_next.
Proof.
  split; [done|]. intros t l a k Hin Ha. unfold plain_next. rewrite Hin. clear Hin.
  induction l as [|b l IH]; cbn; [by rewrite Z.eqb_refl|].
  destruct (Z.eqb_spec b a) as [->|]; [destruct Ha; by left|]. apply IH. intros ?. apply Ha. by right.
Qed.

Definition slot0 (type : ds_type_e) (live_max : Z) (mem : alloc_stream) : ds_slot :=
  mkSlot type None live_max 0 0 [] 0 0 0 false false false mem.

Lemma slot0_inv {memn2cmp} crc32_long type live_max mem :
  0 <= live_max < 2 ^ 32 -> slot_inv (memn2cmp := memn2cmp) crc32_long (slot0 type live_max mem).
Proof. intros H. by split. Qed.

Abbreviation demo_inv := (slot_inv (memn2cmp := lex) zlen).
Abbreviation demo_run := (live_run (memn2cmp := lex) (rebalance := id) (rb_delete := plain_delete) (rb_min := plain_min) zlen).

(** 10.0.0.0/8 for good and 10.1.0.0/16 until the clock shows 500. *)
Definition demo_ops : list live_op :=
  [OpPut [4; 8; 10; 0; 0; 0] 0 77 1; OpPut [4; 16; 10; 1; 0; 0] 500 99 1; OpPut [6; 8] 0 5 1;
   OpPut [4; 24; 192; 0; 2; 0] 0 3 1; OpDrop [4; 24; 192; 0; 2; 0]].
Definition demo_live : ds_slot := snd (demo_run demo_ops (slot0 DS_CIDR 100 [])).

Lemma demo_ops_bytes : Forall op_bytes demo_ops.
Proof. repeat constructor; unfold is_u8; lia. Qed.

Lemma demo_live_inv : demo_inv demo_live.
Proof.
  unfold demo_live. assert (H : forall ops s, Forall op_bytes ops -> demo_inv s -> demo_inv (snd (demo_run ops s))).
  { intros ops s Hb. revert s. induction Hb as [|o ops Ho _ IH]; intros s Hi; [done|]. cbn [live_run].
    pose proof (live_do_spec (rb_delete := plain_delete) (rb_min := plain_min) (rb_next := plain_next) (rebalance := id) zlen o s Hi Ho) as H.
    destruct (live_do zlen o s) as [took s1]. destruct H as (H1 & _). specialize (IH s1 H1).
    by destruct (live_run zlen ops s1). }
  apply H; [apply demo_ops_bytes|]. apply slot0_inv. lia.
Qed.

(** After 10.1.0.0/16 expired its addresses still lie in 10.0.0.0/8. *)
Lemma overlay_probe_exact_witness :
  ngx_http_waf_ds_live_probe lex zlen 900 0 [10; 1; 2; 3] demo_live = true /\
  exists p e, 0 <= p <= 32 /\ entries demo_live !! net_of 0 p [10; 1; 2; 3] = Some e /\ live_entry 900 e = true.
Proof.
  assert (H : ngx_http_waf_ds_live_probe lex zlen 900 0 [10; 1; 2; 3] demo_live = true) by (vm_compute; reflexivity).
  split; [exact H|]. refine (proj1 (overlay_probe_exact (rebalance := id) (rb_delete := plain_delete) zlen 900 0 [10; 1; 2; 3]
    demo_live demo_live_inv _ _ _ _) H); [reflexivity|lia|reflexivity|repeat constructor; unfold is_u8; lia].
Defined.

Lemma overlay_refines_map_witness :
  fst (demo_run demo_ops (slot0 DS_CIDR 100 [])) = [true; true; false; true; true] /\
  entries demo_live = map_run demo_ops [true; true; false; true; true] ∅ /\
  demo_live.(sl_live_hash) = Z.lxor 77 99.
Proof.
  pose proof (overlay_refines_map (rb_delete := plain_delete) (rb_min := plain_min) (rb_next := plain_next) (rebalance := id) zlen
    demo_ops (slot0 DS_CIDR 100 []) ltac:(apply slot0_inv; lia) demo_ops_bytes) as H.
  split; [vm_compute; reflexivity|]. split; [|vm_compute; reflexivity].
  assert (E : fst (demo_run demo_ops (slot0 DS_CIDR 100 [])) = [true; true; false; true; true]) by (vm_compute; reflexivity).
  unfold demo_live. destruct (live_run _ _ _) as [took s']. cbn [fst] in E. subst took. cbn [snd]. apply H.
Defined.

End DsLiveFacts.
