(* ===== verification/DsPack.v ===== *)
(** Synchronisation of an overlay (local/ngx_http_waf_dataset.c): the binary
    format of packages and snapshots, the keyed checksum of an entry, and how
    a package or a snapshot is applied.

    Applying takes the slot's lock again for every batch of records, so that
    other workers get in between: it is a machine whose steps are the regions
    under the lock.  A worker's clock stands still while it applies; what
    other workers do in between is up to the run. *)
From S2P Require Import Prelude Types Rate DsSet DsLive.
Import Rate DsSet DsLive.
#[local] Open Scope Z_scope.

Module DsPack.

Definition NGX_HTTP_WAF_PACK_HEADER : Z := 52.
Definition NGX_HTTP_WAF_PACK_SNAPSHOT : Z := 1.
Definition NGX_HTTP_WAF_PACK_PACKAGE : Z := 2.
Definition NGX_HTTP_WAF_PACK_CIDR : Z := 1.
Definition NGX_HTTP_WAF_PACK_STRING : Z := 2.
Definition NGX_HTTP_WAF_PACK_REASONS : Z := 1.
Definition NGX_HTTP_WAF_PACK_ADD : Z := 1.
Definition NGX_HTTP_WAF_PACK_REMOVE : Z := 2.
Definition NGX_HTTP_WAF_DS_BATCH : nat := 1024.

Inductive ds_result := DS_APPLIED | DS_STALE | DS_GAP | DS_FOREIGN | DS_DIVERGED | DS_MALFORMED | DS_BUSY.
#[export] Instance ds_result_eq_dec : EqDecision ds_result.
Proof. solve_decision. Defined.

(** ** Numbers and checksums *)

Definition ngx_http_waf_ds_le64 (p : bytes) : Z :=
  let b (i : Z) := Z.shiftl (aget 0 p i) (8 * i) in
  Z.lor (Z.lor (Z.lor (Z.lor (Z.lor (Z.lor (Z.lor (b 0) (b 1)) (b 2)) (b 3)) (b 4)) (b 5)) (b 6)) (b 7).

Definition ngx_http_waf_ds_rotl (x b : Z) : Z := Z.lor (u64 (Z.shiftl x b)) (Z.shiftr x (64 - b)).

Definition ngx_http_waf_ds_sipround (v : Z * Z * Z * Z) : Z * Z * Z * Z :=
  let '(v0, v1, v2, v3) := v in
  let v0 := u64 (v0 + v1) in
  let v1 := Z.lxor (ngx_http_waf_ds_rotl v1 13) v0 in
  let v0 := ngx_http_waf_ds_rotl v0 32 in
  let v2 := u64 (v2 + v3) in
  let v3 := Z.lxor (ngx_http_waf_ds_rotl v3 16) v2 in
  let v0 := u64 (v0 + v3) in
  let v3 := Z.lxor (ngx_http_waf_ds_rotl v3 21) v0 in
  let v2 := u64 (v2 + v1) in
  let v1 := Z.lxor (ngx_http_waf_ds_rotl v1 17) v2 in
  let v2 := ngx_http_waf_ds_rotl v2 32 in
  (v0, v1, v2, v3).

(** Two rounds with a word of the message. *)
Definition sip_word (v : Z * Z * Z * Z) (m : Z) : Z * Z * Z * Z :=
  let '(v0, v1, v2, v3) := v in
  let '(v0, v1, v2, v3) :=
    ngx_http_waf_ds_sipround (ngx_http_waf_ds_sipround (v0, v1, v2, Z.lxor v3 m)) in
  (Z.lxor v0 m, v1, v2, v3).

Definition ngx_http_waf_ds_siphash (key data : bytes) : Z :=
  let len := zlen data in
  let k0 := ngx_http_waf_ds_le64 key in
  let k1 := ngx_http_waf_ds_le64 (drop 8 key) in
  let v := (Z.lxor k0 0x736f6d6570736575, Z.lxor k1 0x646f72616e646f6d,
            Z.lxor k0 0x6c7967656e657261, Z.lxor k1 0x7465646279746573) in
  let full := len - len mod 8 in
  let v := for_range (full / 8)
             (fun i v => sip_word v (ngx_http_waf_ds_le64 (drop (Z.to_nat (8 * i)) data))) v in
  let last := for_range (len - full)
                (fun i last => Z.lor last (Z.shiftl (aget 0 data (full + i)) (8 * i)))
                (u64 (Z.shiftl len 56)) in
  let '(v0, v1, v2, v3) := sip_word v last in
  let v := (v0, v1, Z.lxor v2 255, v3) in
  let '(v0, v1, v2, v3) := ngx_http_waf_ds_sipround (ngx_http_waf_ds_sipround
      (ngx_http_waf_ds_sipround (ngx_http_waf_ds_sipround v))) in
  Z.lxor (Z.lxor (Z.lxor v0 v1) v2) v3.

(** ** The format *)

Record pack_t := mkPack {
  ph_kind : Z;
  ph_type : Z;
  ph_flags : Z;
  ph_epoch : Z;
  ph_seq : Z;
  ph_hash : Z;
  ph_key : bytes;
  ph_count : Z
}.

(** [cu_rest]: the bytes from [p] up to [last]. *)
Record cursor_t := mkCursor { cu_rest : bytes; cu_type : Z; cu_flags : Z }.

Definition le16 (p : bytes) : Z := Z.lor (aget 0 p 0) (Z.shiftl (aget 0 p 1) 8).

Definition ngx_http_waf_ds_pack_head (data : bytes) : option (pack_t * cursor_t) :=
  if (zlen data <? NGX_HTTP_WAF_PACK_HEADER) || negb (bytes_eqb (take 4 data) (lit "WAFS"))
     || negb (aget 0 data 4 =? 1)
  then None
  else
    let type := aget 0 data 6 in
    let flags := aget 0 data 7 in
    Some (mkPack (aget 0 data 5) type flags
            (ngx_http_waf_ds_le64 (drop 8 data)) (ngx_http_waf_ds_le64 (drop 16 data))
            (ngx_http_waf_ds_le64 (drop 24 data)) (take 16 (drop 32 data))
            (Z.lor (Z.lor (aget 0 data 48) (Z.shiftl (aget 0 data 49) 8))
                   (Z.lor (Z.shiftl (aget 0 data 50) 16) (Z.shiftl (aget 0 data 51) 24))),
          mkCursor (drop (Z.to_nat NGX_HTTP_WAF_PACK_HEADER) data) type flags).

Record record_t := mkRecord { rec_op : Z; rec_key : bytes; rec_exp : Z }.

Inductive next_t := NextOk (r : record_t) (cur : cursor_t) | NextDone | NextError.

(** The key at [p], after the operation: its bytes and how many were read. *)
Definition pack_key (type : Z) (p : bytes) : option (bytes * bytes) :=
  if type =? NGX_HTTP_WAF_PACK_CIDR then
    if zlen p <? 2 then None
    else
      let family := aget 0 p 0 in
      if negb ((family =? 4) || (family =? 6)) then None
      else
        let n := if family =? 4 then 4 else 16 in
        if (n * 8 <? aget 0 p 1) || (zlen p <? 2 + n + 8) then None
        else Some (take (Z.to_nat (2 + n)) p, drop (Z.to_nat (2 + n)) p)
  else
    if zlen p <? 2 then None
    else
      let n := le16 p in
      let p := drop 2 p in
      if zlen p <? n + 8 then None else Some (take (Z.to_nat n) p, drop (Z.to_nat n) p).

Definition ngx_http_waf_ds_pack_next (cur : cursor_t) : next_t :=
  match cur.(cu_rest) with
  | [] => NextDone
  | op :: p =>
      match pack_key cur.(cu_type) p with
      | None => NextError
      | Some (key, p) =>
          let exp := s64 (ngx_http_waf_ds_le64 p) in
          let p := drop 8 p in
          let next (p : bytes) := NextOk (mkRecord op key exp) (mkCursor p cur.(cu_type) cur.(cu_flags)) in
          if (cur.(cu_type) =? NGX_HTTP_WAF_PACK_STRING)
             && negb (Z.land cur.(cu_flags) NGX_HTTP_WAF_PACK_REASONS =? 0)
          then if zlen p <? 2 then NextError
               else let n := le16 p in
                    let p := drop 2 p in
                    if zlen p <? n then NextError else next (drop (Z.to_nat n) p)
          else next p
      end
  end.

(** The passes that only count: records and records that add.  Every record
    takes a byte, so the length of the rest is enough fuel. *)
Fixpoint scan_loop (fuel : nat) (cur : cursor_t) (n adds : Z) : bool * Z * Z :=
  match fuel with
  | O => (false, n, adds)
  | S fuel =>
      match ngx_http_waf_ds_pack_next cur with
      | NextOk r cur => scan_loop fuel cur (n + 1)
                          (if r.(rec_op) =? NGX_HTTP_WAF_PACK_ADD then adds + 1 else adds)
      | NextDone => (true, n, adds)
      | NextError => (false, n, adds)
      end
  end.
Definition pack_scan (cur : cursor_t) : bool * Z * Z := scan_loop (S (length cur.(cu_rest))) cur 0 0.

Definition ngx_http_waf_ds_expires (exp now_ms now : Z) : Z :=
  if exp =? 0 then 0
  else
    let left := s64 (exp - now_ms) in
    if left <=? 0 then u64 (now - 1) else u64 (now + left).

Definition ngx_http_waf_ds_type_matches (type : ds_type_e) (h : pack_t) : bool :=
  if type ==? DS_CIDR then h.(ph_type) =? NGX_HTTP_WAF_PACK_CIDR
  else h.(ph_type) =? NGX_HTTP_WAF_PACK_STRING.

(** The dataset as it is declared; [None] for one that
    [ngx_http_waf_ds_locate] does not find. *)
Record ds_conf := mkDsConf { dc_type : ds_type_e; dc_max : Z }.

Section apply.
Context (memn2cmp : bytes -> bytes -> Z) (crc32_long : bytes -> Z).
Context (rebalance : tree -> tree) (rb_delete : tree -> Z -> tree).
Context (rb_min : tree -> option Z) (rb_next : tree -> Z -> option Z).
(** [ngx_current_msec] and [ngx_http_waf_ds_now_ms] of the worker. *)
Context (now now_ms : Z).

Abbreviation put := (ngx_http_waf_ds_live_put memn2cmp crc32_long rebalance).
Abbreviation drop_key := (ngx_http_waf_ds_live_drop memn2cmp crc32_long rb_delete).

(** The entry of a record that adds; true when it was lost. *)
Definition put_record (sipkey : bytes) (gen : Z) (r : record_t) (s : ds_slot) : bool * ds_slot :=
  let h := ngx_http_waf_ds_siphash sipkey r.(rec_key) in
  let '(rc, s) := put r.(rec_key) (ngx_http_waf_ds_expires r.(rec_exp) now_ms now) h gen s in
  ((rc ==? PUT_ERROR) || (rc ==? PUT_BUSY), s).

(** ** A package *)

Fixpoint package_batch (k : nat) (gen : Z) (cur : cursor_t) (lost : Z) (s : ds_slot)
    : bool * cursor_t * Z * ds_slot :=
  match k with
  | O => (true, cur, lost, s)
  | S k =>
      match ngx_http_waf_ds_pack_next cur with
      | NextOk r cur =>
          if r.(rec_op) =? NGX_HTTP_WAF_PACK_REMOVE then
            package_batch k gen cur lost (snd (drop_key r.(rec_key) s))
          else if negb (r.(rec_op) =? NGX_HTTP_WAF_PACK_ADD) then package_batch k gen cur lost s
          else
            let '(l, s) := put_record s.(sl_key) gen r s in
            package_batch k gen cur (if l then lost + 1 else lost) s
      | _ => (false, cur, lost, s)
      end
  end.

Inductive package_phase :=
  | PkgApply (head : pack_t) (gen : Z) (cur : cursor_t) (lost : Z)
  | PkgDone (res : ds_result).

(** Up to the first unlocking. *)
Definition package_start (conf : option ds_conf) (data : bytes) (s : ds_slot) : package_phase * ds_slot :=
  match conf with
  | None => (PkgDone DS_MALFORMED, s)
  | Some ds =>
      match ngx_http_waf_ds_pack_head data with
      | None => (PkgDone DS_MALFORMED, s)
      | Some (head, cur) =>
          if negb (head.(ph_kind) =? NGX_HTTP_WAF_PACK_PACKAGE) then (PkgDone DS_MALFORMED, s)
          else if negb (ngx_http_waf_ds_type_matches ds.(dc_type) head) then (PkgDone DS_FOREIGN, s)
          else if negb (fst (fst (pack_scan cur))) then (PkgDone DS_MALFORMED, s)
          else if (s.(sl_epoch) =? 0) || negb (head.(ph_epoch) =? s.(sl_epoch)) then (PkgDone DS_FOREIGN, s)
          else if s.(sl_syncing) then (PkgDone DS_BUSY, s)
          else if head.(ph_seq) <=? s.(sl_seq) then (PkgDone DS_STALE, s)
          else if negb (head.(ph_seq) =? u64 (s.(sl_seq) + 1)) then (PkgDone DS_GAP, s)
          else (PkgApply head (ngx_http_waf_ds_live_gen s) cur 0, s <| sl_syncing := true |>)
      end
  end.

(** A region under the lock. *)
Definition package_step (ph : package_phase) (s : ds_slot) : package_phase * ds_slot :=
  match ph with
  | PkgDone _ => (ph, s)
  | PkgApply head gen cur lost =>
      let '(more, cur, lost, s) := package_batch NGX_HTTP_WAF_DS_BATCH gen cur lost s in
      if more then (PkgApply head gen cur lost, s)
      else
        let s := s <| sl_seq := head.(ph_seq) |> <| sl_syncing := false |> in
        (PkgDone (if negb (s.(sl_live_hash) =? head.(ph_hash)) then DS_DIVERGED else DS_APPLIED), s)
  end.

(** ** A snapshot *)

Fixpoint mark_batch (k : nat) (gen : Z) (cur : cursor_t) (s : ds_slot) : bool * cursor_t * ds_slot :=
  match k with
  | O => (true, cur, s)
  | S k =>
      match ngx_http_waf_ds_pack_next cur with
      | NextOk r cur =>
          mark_batch k gen cur
            (if r.(rec_op) =? NGX_HTTP_WAF_PACK_ADD
             then ngx_http_waf_ds_live_mark memn2cmp crc32_long r.(rec_key) gen s else s)
      | _ => (false, cur, s)
      end
  end.

Fixpoint put_batch (k : nat) (sipkey : bytes) (gen : Z) (cur : cursor_t) (lost : Z) (s : ds_slot)
    : bool * cursor_t * Z * ds_slot :=
  match k with
  | O => (true, cur, lost, s)
  | S k =>
      match ngx_http_waf_ds_pack_next cur with
      | NextOk r cur =>
          if negb (r.(rec_op) =? NGX_HTTP_WAF_PACK_ADD) then put_batch k sipkey gen cur lost s
          else
            let '(l, s) := put_record sipkey gen r s in
            put_batch k sipkey gen cur (if l then lost + 1 else lost) s
      | _ => (false, cur, lost, s)
      end
  end.

Inductive snapshot_phase :=
  | SnapMark (cur : cursor_t)
  | SnapSweep (cursor : option Z) (swept : Z)
  | SnapPut (cur : cursor_t) (lost : Z)
  | SnapEnd (lost : Z)
  | SnapDone (res : ds_result).

(** Up to the first unlocking: the phase, and the head, the start of the
    records and the generation the rest goes by. *)
Definition snapshot_start (conf : option ds_conf) (data : bytes) (s : ds_slot)
    : (snapshot_phase * option (pack_t * cursor_t * Z)) * ds_slot :=
  match conf with
  | None => (SnapDone DS_MALFORMED, None, s)
  | Some ds =>
      match ngx_http_waf_ds_pack_head data with
      | None => (SnapDone DS_MALFORMED, None, s)
      | Some (head, start) =>
          if negb (head.(ph_kind) =? NGX_HTTP_WAF_PACK_SNAPSHOT) then (SnapDone DS_MALFORMED, None, s)
          else if negb (ngx_http_waf_ds_type_matches ds.(dc_type) head) then (SnapDone DS_FOREIGN, None, s)
          else
            let '(whole, n, adds) := pack_scan start in
            let cap := if negb (s.(sl_live_max) =? 0) then s.(sl_live_max) else NGX_HTTP_WAF_DS_LIVE_MAX in
            let cap := Z.min cap ds.(dc_max) in
            if negb whole then (SnapDone DS_MALFORMED, None, s)
            else if (cap <? head.(ph_count)) || (cap <? adds) then (SnapDone DS_MALFORMED, None, s)
            else if s.(sl_syncing) then (SnapDone DS_BUSY, None, s)
            else if negb (s.(sl_epoch) =? 0) && (head.(ph_epoch) =? s.(sl_epoch)) && (head.(ph_seq) <? s.(sl_seq))
            then (SnapDone DS_STALE, None, s)
            else
              let '(gen, s) := ngx_http_waf_ds_live_begin s in
              if gen =? 0 then (SnapDone DS_MALFORMED, None, s)
              else (SnapMark start, Some (head, start, gen), s <| sl_syncing := true |>)
      end
  end.

Definition snapshot_step (head : pack_t) (start : cursor_t) (gen : Z) (ph : snapshot_phase) (s : ds_slot)
    : snapshot_phase * ds_slot :=
  match ph with
  | SnapMark cur =>
      let '(more, cur, s) := mark_batch NGX_HTTP_WAF_DS_BATCH gen cur s in
      (if more then SnapMark cur else SnapSweep None 0, s)
  | SnapSweep cursor swept =>
      let '(rc, cursor, swept, s) :=
        ngx_http_waf_ds_live_sweep rb_delete rb_min rb_next gen NGX_HTTP_WAF_DS_BATCH cursor swept s in
      (if rc ==? NGX_AGAIN then SnapSweep cursor swept else SnapPut start 0, s)
  | SnapPut cur lost =>
      let '(more, cur, lost, s) := put_batch NGX_HTTP_WAF_DS_BATCH head.(ph_key) gen cur lost s in
      (if more then SnapPut cur lost else SnapEnd lost, s)
  | SnapEnd lost =>
      let s := s <| sl_epoch := head.(ph_epoch) |> <| sl_seq := head.(ph_seq) |> <| sl_key := head.(ph_key) |>
                 <| sl_syncing := false |> in
      let bad := negb (s.(sl_live_hash) =? head.(ph_hash)) in
      (SnapDone (if bad then DS_DIVERGED else DS_APPLIED), s <| sl_snap_bad := bad |>)
  | SnapDone res => (ph, s)
  end.

(** ** Runs of one worker alone *)

Fixpoint package_iter (fuel : nat) (ph : package_phase) (s : ds_slot) : option ds_result * ds_slot :=
  match ph, fuel with
  | PkgDone res, _ => (Some res, s)
  | _, O => (None, s)
  | _, S fuel => let '(ph, s) := package_step ph s in package_iter fuel ph s
  end.
(** [None]: the fuel was not enough, which the length of the data rules out. *)
Definition ngx_http_waf_dataset_apply_package (conf : option ds_conf) (data : bytes) (s : ds_slot)
    : option ds_result * ds_slot :=
  let '(ph, s) := package_start conf data s in package_iter (S (length data)) ph s.

Fixpoint snapshot_iter (fuel : nat) (head : pack_t) (start : cursor_t) (gen : Z) (ph : snapshot_phase) (s : ds_slot)
    : option ds_result * ds_slot :=
  match ph, fuel with
  | SnapDone res, _ => (Some res, s)
  | _, O => (None, s)
  | _, S fuel => let '(ph, s) := snapshot_step head start gen ph s in snapshot_iter fuel head start gen ph s
  end.
Definition ngx_http_waf_dataset_apply_snapshot (conf : option ds_conf) (data : bytes) (s : ds_slot)
    : option ds_result * ds_slot :=
  match snapshot_start conf data s with
  | (SnapDone res, _, s) => (Some res, s)
  | (ph, Some (head, start, gen), s) =>
      let entries := match s.(sl_live) with Some lv => length (inorder lv.(lv_tree)) | None => O end in
      snapshot_iter (2 * length data + entries + 5) head start gen ph s
  | (_, None, s) => (None, s)
  end.

End apply.

(** ** Ticks, silence and claims *)

(** [ngx_http_waf_dataset_verify]: the slot is read under one lock and, when
    the tick agrees, the mark of a bad snapshot is cleared under another. *)
Definition ngx_http_waf_dataset_verify (located : bool) (epoch seq hash : Z) (s : ds_slot) : ds_result * ds_slot :=
  if negb located then (DS_MALFORMED, s)
  else if (s.(sl_epoch) =? 0) || negb (epoch =? s.(sl_epoch)) then (DS_FOREIGN, s)
  else if s.(sl_syncing) then (DS_BUSY, s)
  else if s.(sl_seq) <? seq then (DS_GAP, s)
  else if seq <? s.(sl_seq) then (DS_STALE, s)
  else if negb (s.(sl_live_hash) =? hash) then (DS_DIVERGED, s)
  else (DS_APPLIED,
        if s.(sl_snap_bad)
        then if (s.(sl_epoch) =? epoch) && (s.(sl_seq) =? seq) && (s.(sl_live_hash) =? hash)
             then s <| sl_snap_bad := false |> else s
        else s).

Definition ngx_http_waf_dataset_snap_bad (located : bool) (s : ds_slot) : bool :=
  if located then s.(sl_snap_bad) else false.

Definition ngx_http_waf_dataset_state (located : bool) (s : ds_slot) : Z * Z :=
  if located then (s.(sl_epoch), s.(sl_seq)) else (0, 0).

(** The age of the last word, whether this is the first time it is found too
    old, and the slot. *)
Definition ngx_http_waf_dataset_seen (located touch asked : bool) (silence now : Z) (s : ds_slot)
    : Z * bool * ds_slot :=
  if negb located then (0, false, s)
  else if touch then (0, false, s <| sl_seen := now |> <| sl_silent := false |>)
  else
    let age := if s.(sl_seen) =? 0 then 0 else msec_diff now s.(sl_seen) in
    if asked && negb s.(sl_silent) && (s64 silence <? age)
    then (age, true, s <| sl_silent := true |>)
    else (age, false, s).

Definition ngx_http_waf_dataset_snapshot_claim (located : bool) (wait now : Z) (s : ds_slot) : ngx_rc * ds_slot :=
  if negb located then (NGX_DECLINED, s)
  else if negb (s.(sl_snapshot_at) =? 0) && (msec_diff now s.(sl_snapshot_at) <? s64 wait) then (NGX_DECLINED, s)
  else (NGX_OK, s <| sl_snapshot_at := now |>).

(** [ngx_http_waf_ds_slot_reset] but for the published set. *)
Definition slot_reset (rb_delete : tree -> Z -> tree) (rb_min : tree -> option Z) (s : ds_slot) : ds_slot :=
  let s := ngx_http_waf_ds_live_reset rb_delete rb_min s in
  s <| sl_seq := 0 |> <| sl_epoch := 0 |> <| sl_live_hash := 0 |> <| sl_seen := 0 |> <| sl_snapshot_at := 0 |>
    <| sl_silent := false |> <| sl_syncing := false |> <| sl_snap_bad := false |> <| sl_key := replicate 16 0 |>.

(** The reference vector of SipHash-2-4: key 00 .. 0f, message 00 .. 0e. *)
Example siphash_vector : ngx_http_waf_ds_siphash (seqZ 0 16) (seqZ 0 15) = 0xa129ca6149be45e5.
Proof. vm_compute. reflexivity. Qed.

End DsPack.
