(* ===== verification/DsPackFacts.v ===== *)
(** What synchronisation promises: the parser of packages always ends, a
    package changes the overlay by its records and the sequence number by one
    or changes nothing, and a snapshot leaves exactly its own entries and the
    bans that other workers made meanwhile. *)
From stdpp Require Import gmap sorting.
From S2P Require Import Prelude Types Rate RateFacts DsSet DsSetFacts DsLive DsLiveFacts DsPack.
Import Rate RateFacts DsSet DsSetFacts DsLive DsLiveFacts DsPack.
#[local] Open Scope Z_scope.

Module DsPackFacts.

#[local] Arguments NGX_HTTP_WAF_DS_BATCH : simpl never.

(** ** Records of a cursor *)

Inductive holds : cursor_t -> list record_t -> Prop :=
  | holds_done cur : ngx_http_waf_ds_pack_next cur = NextDone -> holds cur []
  | holds_next cur r cur' rs : ngx_http_waf_ds_pack_next cur = NextOk r cur' -> holds cur' rs -> holds cur (r :: rs).

Lemma is_bytes_take n l : is_bytes l -> is_bytes (take n l).
Proof. apply Forall_take. Qed.
Lemma is_bytes_drop n l : is_bytes l -> is_bytes (drop n l).
Proof. apply Forall_drop. Qed.

Lemma pack_key_spec type p key q :
  pack_key type p = Some (key, q) -> is_bytes p ->
  is_bytes key /\ is_bytes q /\ (length q < length p)%nat /\ 8 <= zlen q /\
  (type = NGX_HTTP_WAF_PACK_CIDR -> key_ok DS_CIDR key).
Proof.
  unfold pack_key. intros H Hp. destruct (Z.eqb_spec type NGX_HTTP_WAF_PACK_CIDR) as [->|Ht].
  - destruct (Z.ltb_spec (zlen p) 2) as [|H2]; [done|].
    destruct ((aget 0 p 0 =? 4) || (aget 0 p 0 =? 6)) eqn:Ef; [cbn [negb] in H|done]. cbn zeta in H.
    set (n := if aget 0 p 0 =? 4 then 4 else 16) in H.
    destruct ((n * 8 <? aget 0 p 1) || (zlen p <? 2 + n + 8)) eqn:E; [done|]. apply orb_false_iff in E as [E1 E2].
    apply Z.ltb_ge in E1, E2. assert (Hn : n = 4 /\ aget 0 p 0 = 4 \/ n = 16 /\ aget 0 p 0 = 6)
      by (unfold n; destruct (Z.eqb_spec (aget 0 p 0) 4); lia). clearbody n.
    injection H as <- <-. unfold zlen in *. split_and!; try (by apply is_bytes_take || by apply is_bytes_drop).
    + rewrite length_drop. lia.
    + rewrite length_drop. lia.
    + intros _. split; [by apply is_bytes_take|].
      assert (Hz : zlen (take (Z.to_nat (2 + n)) p) = 2 + n) by (unfold zlen; rewrite length_take; lia).
      rewrite Hz. unfold NGX_HTTP_WAF_DS_ENTRY_MAX. split; [lia|].
      unfold ngx_http_waf_ds_live_bits. change (DS_CIDR ==? DS_CIDR) with true. cbn [negb]. rewrite Hz, !aget_take by lia.
      destruct Hn as [[-> ->]|[-> ->]]; cbn -[Z.leb aget].
      * by rewrite (proj2 (Z.leb_le _ 32)) by lia.
      * by rewrite (proj2 (Z.leb_le _ 128)) by lia.
  - destruct (Z.ltb_spec (zlen p) 2) as [|H2]; [done|]. cbn zeta in H.
    destruct (Z.ltb_spec (zlen (drop 2 p)) (le16 p + 8)) as [|H3]; [done|]. injection H as <- <-.
    unfold zlen in *. rewrite length_drop in H3.
    assert (Hn : 0 <= le16 p).
    { assert (Ha : forall i, 0 <= i -> 0 <= aget 0 p i).
      { intros i Hi. rewrite aget_lookup by lia. destruct (p !! _) eqn:E; [|done]. unfold is_bytes in Hp.
        rewrite Forall_lookup in Hp. apply Hp in E. unfold is_u8 in E. cbn. unfold id. lia. }
      unfold le16. apply Z.lor_nonneg. split; [by apply Ha|]. apply Z.shiftl_nonneg, Ha. lia. }
    split_and!; try (by apply is_bytes_take, is_bytes_drop || by apply is_bytes_drop, is_bytes_drop); try done.
    + rewrite !length_drop. lia.
    + rewrite !length_drop. lia.
Qed.

(** A record is shorter than what was left, and its parts are bytes of it. *)
Lemma pack_next_spec cur r cur' :
  ngx_http_waf_ds_pack_next cur = NextOk r cur' -> is_bytes cur.(cu_rest) ->
  (length cur'.(cu_rest) < length cur.(cu_rest))%nat /\ is_bytes cur'.(cu_rest) /\ is_bytes r.(rec_key) /\
  cur'.(cu_type) = cur.(cu_type) /\ cur'.(cu_flags) = cur.(cu_flags) /\
  (cur.(cu_type) = NGX_HTTP_WAF_PACK_CIDR -> key_ok DS_CIDR r.(rec_key)).
Proof.
  unfold ngx_http_waf_ds_pack_next. destruct (cu_rest cur) as [|op p] eqn:E; [done|]. intros H [_ Hp]%Forall_cons.
  destruct (pack_key (cu_type cur) p) as [[key q]|] eqn:Ek; [|done].
  destruct (pack_key_spec _ _ _ _ Ek Hp) as (K1 & K2 & K3 & K4 & K5). cbn zeta in H.
  destruct (_ && _).
  - destruct (zlen (drop 8 q) <? 2); [done|]. destruct (zlen (drop 2 (drop 8 q)) <? le16 (drop 8 q)); [done|].
    injection H as <- <-. cbn [cu_rest cu_type cu_flags rec_key]. rewrite !length_drop.
    split_and!; try done; [cbn; lia|]. by repeat apply is_bytes_drop.
  - injection H as <- <-. cbn [cu_rest cu_type cu_flags rec_key]. rewrite length_drop.
    split_and!; try done; [cbn; lia|]. by apply is_bytes_drop.
Qed.

Lemma holds_inv cur rs :
  holds cur rs -> match rs with
                  | [] => ngx_http_waf_ds_pack_next cur = NextDone
                  | r :: rs' => exists cur', ngx_http_waf_ds_pack_next cur = NextOk r cur' /\ holds cur' rs'
                  end.
Proof. destruct 1; [done|]. by exists cur'. Qed.

Definition is_add (r : record_t) : bool := r.(rec_op) =? NGX_HTTP_WAF_PACK_ADD.
Definition is_remove (r : record_t) : bool := r.(rec_op) =? NGX_HTTP_WAF_PACK_REMOVE.
Definition adds_of (rs : list record_t) : list bytes := rec_key <$> filter (fun r => is_add r = true) rs.

Lemma scan_loop_spec fuel cur n adds n' adds' :
  scan_loop fuel cur n adds = (true, n', adds') ->
  exists rs, holds cur rs /\ n' = n + zlen rs /\ adds' = adds + zlen (adds_of rs).
Proof.
  revert cur n adds. induction fuel as [|fuel IH]; intros cur n adds H; [done|]. cbn [scan_loop] in H.
  destruct (ngx_http_waf_ds_pack_next cur) as [r cur'| |] eqn:E; [| |done].
  - apply IH in H as (rs & Hr & -> & ->). exists (r :: rs). split; [by econstructor|]. rewrite zlen_cons.
    split; [lia|]. unfold adds_of, is_add in *. rewrite filter_cons. unfold zlen. rewrite !length_fmap.
    destruct (Z.eqb_spec (rec_op r) NGX_HTTP_WAF_PACK_ADD); [rewrite decide_True by done|rewrite decide_False by done];
      cbn [length]; lia.
  - injection H as <- <-. exists []. split; [by constructor|]. rewrite zlen_nil. unfold adds_of. cbn. split; [lia|].
    unfold zlen. cbn. lia.
Qed.

(** The scan reads everything or finds a malformed record: its fuel suffices. *)
Lemma scan_loop_total fuel cur n adds :
  is_bytes cur.(cu_rest) -> (length cur.(cu_rest) < fuel)%nat ->
  forall rs, holds cur rs -> exists adds', scan_loop fuel cur n adds = (true, n + zlen rs, adds').
Proof.
  revert cur n adds. induction fuel as [|fuel IH]; intros cur n adds Hb Hf rs Hr; [lia|]. cbn [scan_loop].
  apply holds_inv in Hr. destruct rs as [|r rs].
  - rewrite Hr. rewrite zlen_nil, Z.add_0_r. by eexists.
  - destruct Hr as (cur' & E & Hr). rewrite E. destruct (pack_next_spec _ _ _ E Hb) as (P1 & P2 & _).
    destruct (IH cur' (n + 1) (if rec_op r =? NGX_HTTP_WAF_PACK_ADD then adds + 1 else adds) P2 ltac:(lia) rs Hr) as (a & Ea).
    exists a. rewrite Ea, zlen_cons. do 2 f_equal. lia.
Qed.

Lemma pack_scan_spec cur n adds :
  pack_scan cur = (true, n, adds) -> exists rs, holds cur rs /\ n = zlen rs /\ adds = zlen (adds_of rs).
Proof. intros H. unfold pack_scan in H. apply scan_loop_spec in H as (rs & H1 & -> & ->). exists rs. split_and!; [done|lia|lia]. Qed.

Section apply.
Context {memn2cmp : bytes -> bytes -> Z} {rebalance : tree -> tree} {rb_delete : tree -> Z -> tree}.
Context `{!RbTree memn2cmp rebalance rb_delete}.
Context {rb_min : tree -> option Z} {rb_next : tree -> Z -> option Z} `{!RbWalk rb_min rb_next}.
Context (crc32_long : bytes -> Z) (now now_ms : Z).

Abbreviation inv := (slot_inv (memn2cmp := memn2cmp) crc32_long).
Abbreviation put := (ngx_http_waf_ds_live_put memn2cmp crc32_long rebalance).
Abbreviation put_rec := (put_record memn2cmp crc32_long rebalance now now_ms).

#[local] Existing Instance frame_preorder.
#[local] Existing Instance kept_preorder.

(** ** What a record does to the map of entries *)

Definition rec_expires (r : record_t) : Z := ngx_http_waf_ds_expires r.(rec_exp) now_ms now.
Section records.
(** The type and the capacity of the overlay, the key of its checksums and its
    generation. *)
Context (type : ds_type_e) (max : Z) (sipkey : bytes) (gen : Z).

(** An addition is taken when its key suits the overlay and is in it already,
    or there is a place left; [granted] is false when the allocation for it
    failed. *)
Definition rec_do (r : record_t) (granted : bool) (m : gmap bytes entry) : gmap bytes entry :=
  if is_remove r then delete r.(rec_key) m
  else if negb (is_add r) then m
  else if admits type max r.(rec_key) granted m
  then <[r.(rec_key) := merge (m !! r.(rec_key)) (rec_expires r) (ngx_http_waf_ds_siphash sipkey r.(rec_key)) gen]> m
  else m.
Fixpoint recs_do (rs : list record_t) (grants : list bool) (m : gmap bytes entry) : gmap bytes entry :=
  match rs, grants with
  | r :: rs, g :: grants => recs_do rs grants (rec_do r g m)
  | _, _ => m
  end.

Lemma recs_do_app rs1 rs2 t1 t2 m :
  length t1 = length rs1 -> recs_do (rs1 ++ rs2) (t1 ++ t2) m = recs_do rs2 t2 (recs_do rs1 t1 m).
Proof.
  revert t1 m. induction rs1 as [|r rs1 IH]; intros [|t t1] m Hl; try done. cbn. apply IH. cbn in Hl. lia.
Qed.
End records.

Lemma failures_app l l' : failures (l ++ l') = failures l + failures l'.
Proof. induction l as [|b l IH]; cbn; [done|]. rewrite IH. lia. Qed.
Lemma failures_nonneg l : 0 <= failures l.
Proof. induction l as [|[] l IH]; cbn; lia. Qed.
Lemma no_failures l n : length l = n -> failures l <= 0 -> l = replicate n true.
Proof.
  intros <-. induction l as [|[] l IH]; cbn [failures length replicate]; intros H; [done|f_equal; apply IH; lia|].
  pose proof (failures_nonneg l). lia.
Qed.

Lemma put_record_spec sipkey gen r s :
  inv s -> is_bytes r.(rec_key) ->
  let '(l, s') := put_rec sipkey gen r s in
  inv s' /\ frame s s' /\ ngx_http_waf_ds_live_gen s' = ngx_http_waf_ds_live_gen s /\
  entries s' = (if l then entries s
                else <[r.(rec_key) := merge (entries s !! r.(rec_key)) (rec_expires r)
                                        (ngx_http_waf_ds_siphash sipkey r.(rec_key)) gen]> (entries s)).
Proof.
  intros Hi Hb. unfold put_record. cbn zeta. fold (rec_expires r).
  pose proof (put_spec (rebalance := rebalance) (rb_delete := rb_delete) crc32_long (rec_key r) (rec_expires r)
    (ngx_http_waf_ds_siphash sipkey (rec_key r)) gen s Hi Hb) as H.
  destruct (put _ _ _ _ _) as [rc s']. destruct H as (H1 & H2 & H3 & H4). destruct rc; cbn; split_and!; try done; apply H4.
Qed.

(** The record of a package that adds, with the grant of its allocation. *)
Lemma put_record_does gen r s :
  inv s -> is_bytes r.(rec_key) -> is_add r = true ->
  let '(l, s') := put_rec s.(sl_key) gen r s in
  inv s' /\ frame s s' /\ ngx_http_waf_ds_live_gen s' = ngx_http_waf_ds_live_gen s /\
  exists granted : bool, entries s' = rec_do s.(sl_type) (cap s) s.(sl_key) gen r granted (entries s) /\
    failures (sl_mem s') + (if granted then 0 else 1) <= failures (sl_mem s).
Proof.
  intros Hi Hb Ha. pose proof (put_record_spec (sl_key s) gen r s Hi Hb) as H. revert H.
  unfold put_record, rec_do. cbn zeta. fold (rec_expires r).
  assert (is_remove r = false) as ->.
  { unfold is_remove, is_add, NGX_HTTP_WAF_PACK_REMOVE, NGX_HTTP_WAF_PACK_ADD in *. lia. }
  rewrite Ha. cbn [negb]. set (h := ngx_http_waf_ds_siphash _ _).
  pose proof (put_decides (rebalance := rebalance) crc32_long (rec_key r) (rec_expires r) h gen s Hi) as G.
  destruct (put _ _ _ _ _) as [rc s']. intros (H1 & H2 & H3 & H4). destruct G as (g & G1 & G2).
  split_and!; [done..|]. exists g. split; [|done]. rewrite <- G1, H4. by destruct rc.
Qed.

Lemma drop_mem key s : sl_mem (snd (ngx_http_waf_ds_live_drop memn2cmp crc32_long rb_delete key s)) = sl_mem s.
Proof.
  unfold ngx_http_waf_ds_live_drop. destruct (sl_live s); [|done]. destruct (_ =? 0); [done|].
  destruct (ngx_http_waf_ds_live_lookup _ _ _ _); [|done]. unfold ngx_http_waf_ds_live_delete.
  by destruct (ngx_http_waf_ds_live_bits _ _) as [[[] ?] ?].
Qed.

(** A batch under the lock: the first [k] records. *)
Lemma package_batch_spec k gen cur rs lost s :
  inv s -> is_bytes cur.(cu_rest) -> holds cur rs ->
  let '(more, cur', lost', s') := package_batch memn2cmp crc32_long rebalance rb_delete now now_ms k gen cur lost s in
  inv s' /\ frame s s' /\ ngx_http_waf_ds_live_gen s' = ngx_http_waf_ds_live_gen s /\
  (exists grants, length grants = length (take k rs) /\
    entries s' = recs_do s.(sl_type) (cap s) s.(sl_key) gen (take k rs) grants (entries s) /\
    failures (sl_mem s') + failures grants <= failures (sl_mem s)) /\
  (more = true /\ (k <= length rs)%nat /\ holds cur' (drop k rs) /\ is_bytes cur'.(cu_rest) /\
     (length cur'.(cu_rest) + k <= length cur.(cu_rest))%nat \/
   more = false /\ (length rs < k)%nat).
Proof.
  revert cur rs lost s. induction k as [|k IH]; intros cur rs lost s Hi Hb Hr.
  { cbn. split_and!; try done; [exists []; by split_and!; [| |cbn; lia]|]. left. split_and!; try done; lia. }
  cbn [package_batch]. apply holds_inv in Hr. destruct rs as [|r rs].
  { rewrite Hr. split_and!; try done; [exists []; by split_and!; [| |cbn; lia]|]. right. split; [done|cbn; lia]. }
  destruct Hr as (cur' & E & Hr). rewrite E. destruct (pack_next_spec _ _ _ E Hb) as (P1 & P2 & P3 & _).
  cbn [take drop].
  assert (Hgo : forall s1 g l, inv s1 -> frame s s1 -> ngx_http_waf_ds_live_gen s1 = ngx_http_waf_ds_live_gen s ->
    entries s1 = rec_do s.(sl_type) (cap s) s.(sl_key) gen r g (entries s) ->
    failures (sl_mem s1) + (if g : bool then 0 else 1) <= failures (sl_mem s) ->
    let '(more, cur2, lost', s') := package_batch memn2cmp crc32_long rebalance rb_delete now now_ms k gen cur' l s1 in
    inv s' /\ frame s s' /\ ngx_http_waf_ds_live_gen s' = ngx_http_waf_ds_live_gen s /\
    (exists grants, length grants = length (r :: take k rs) /\
      entries s' = recs_do s.(sl_type) (cap s) s.(sl_key) gen (r :: take k rs) grants (entries s) /\
      failures (sl_mem s') + failures grants <= failures (sl_mem s)) /\
    (more = true /\ (S k <= length (r :: rs))%nat /\ holds cur2 (drop k rs) /\ is_bytes cur2.(cu_rest) /\
       (length cur2.(cu_rest) + S k <= length cur.(cu_rest))%nat \/
     more = false /\ (length (r :: rs) < S k)%nat)).
  { intros s1 g l G1 G2 G3 G4 G5. pose proof (IH cur' rs l s1 G1 P2 Hr) as H.
    destruct (package_batch _ _ _ _ _ _ k gen cur' l s1) as [[[more cur2] lost'] s'].
    destruct H as (H1 & H2 & H3 & (grants & H4 & H5 & H6) & H7). destruct (frame_fields _ _ G2) as (Ft & Fm & _ & _ & Fk & _).
    assert (Fc : cap s1 = cap s) by (unfold cap; by rewrite Fm).
    rewrite Ft, Fc, Fk, G4 in H5. split_and!; [done|by transitivity s1|congruence| |].
    { exists (g :: grants). split; [cbn [length]; congruence|]. split; [done|]. cbn [failures]. lia. }
    destruct H7 as [(H7 & H8 & H9 & H10 & H11)|[H7 H8]]; [left|right].
    - split_and!; try done; [cbn [length]; lia|lia].
    - split; [done|cbn [length]; lia]. }
  fold (is_remove r). fold (is_add r). destruct (is_remove r) eqn:Er.
  - pose proof (drop_spec (rebalance := rebalance) crc32_long (rec_key r) s Hi) as H. pose proof (drop_mem (rec_key r) s) as Hm.
    destruct (ngx_http_waf_ds_live_drop _ _ _ _ s) as [rc s1]. destruct H as (H1 & H2 & H3 & H4 & _). cbn [snd] in *.
    apply (Hgo s1 true lost); try done; [unfold rec_do; by rewrite Er|]. rewrite Hm. lia.
  - destruct (is_add r) eqn:Ea; cbn [negb].
    + pose proof (put_record_does gen r s Hi P3 Ea) as H. destruct (put_rec _ _ _ _) as [l s1].
      destruct H as (H1 & H2 & H3 & g & H4 & H5). by apply (Hgo s1 g).
    + apply (Hgo s true lost); try done; [unfold rec_do; by rewrite Er, Ea|lia].
Qed.

Lemma inv_fields s s' :
  s'.(sl_type) = s.(sl_type) -> s'.(sl_live) = s.(sl_live) -> s'.(sl_live_max) = s.(sl_live_max) ->
  s'.(sl_live_hash) = s.(sl_live_hash) -> inv s -> inv s' /\ entries s' = entries s.
Proof. intros Ht Hl Hm Hh. unfold slot_inv, entries, live_inv. by rewrite Ht, Hl, Hm, Hh. Qed.

Lemma frame_seq s s' seq sync :
  frame s s' -> frame (s <| sl_seq := seq |> <| sl_syncing := sync |>) (s' <| sl_seq := seq |> <| sl_syncing := sync |>).
Proof. unfold frame. destruct s, s'. cbn. intros H. injection H as -> -> -> -> -> -> -> -> -> ->. reflexivity. Qed.

Lemma frame_sync s s' sync : frame s s' -> frame (s <| sl_syncing := sync |>) (s' <| sl_syncing := sync |>).
Proof. unfold frame. destruct s, s'. cbn. intros H. injection H as -> -> -> -> -> -> -> -> -> ->. reflexivity. Qed.

(** The outcome of a comparison of checksums. *)
Definition verdict (s : ds_slot) (hash : Z) : ds_result :=
  if checksum (entries s) =? hash then DS_APPLIED else DS_DIVERGED.

Lemma package_iter_spec fuel head gen cur rs lost s :
  inv s -> is_bytes cur.(cu_rest) -> holds cur rs -> (length cur.(cu_rest) < fuel)%nat ->
  let '(res, s') := package_iter memn2cmp crc32_long rebalance rb_delete now now_ms fuel (PkgApply head gen cur lost) s in
  res = Some (verdict s' head.(ph_hash)) /\ inv s' /\ ngx_http_waf_ds_live_gen s' = ngx_http_waf_ds_live_gen s /\
  frame (s <| sl_seq := head.(ph_seq) |> <| sl_syncing := false |>) s' /\
  exists grants, length grants = length rs /\
    entries s' = recs_do s.(sl_type) (cap s) s.(sl_key) gen rs grants (entries s) /\ failures grants <= failures (sl_mem s).
Proof.
  revert cur rs lost s. induction fuel as [|fuel IH]; intros cur rs lost s Hi Hb Hr Hf; [lia|].
  cbn [package_iter package_step].
  pose proof (package_batch_spec NGX_HTTP_WAF_DS_BATCH gen cur rs lost s Hi Hb Hr) as H.
  destruct (package_batch _ _ _ _ _ _ NGX_HTTP_WAF_DS_BATCH gen cur lost s) as [[[more cur'] lost'] s1].
  destruct H as (H1 & H2 & Hgen & (grants & H3 & H4 & Hfl) & H5).
  destruct (frame_fields _ _ H2) as (Ft & Fm & _ & _ & Fk & _). assert (Fc : cap s1 = cap s) by (unfold cap; by rewrite Fm).
  destruct H5 as [(-> & H5 & H6 & H7 & H8)|[-> H5]].
  - unfold NGX_HTTP_WAF_DS_BATCH in H8 at 1. pose proof (IH cur' _ lost' s1 H1 H7 H6 ltac:(lia)) as H.
    destruct (package_iter _ _ _ _ _ _ fuel _ s1) as [res s']. destruct H as (I1 & I2 & Ig & I3 & grants2 & I4 & I5 & I6).
    split_and!; [done|done|congruence| |].
    + etransitivity; [|exact I3]. by apply frame_seq.
    + exists (grants ++ grants2). rewrite length_app, H3, I4, <- length_app, take_drop, failures_app. split; [done|]. split; [|lia].
      rewrite I5, Ft, Fc, Fk, H4, <- recs_do_app by done. by rewrite take_drop.
  - rewrite firstn_all2 in H3, H4 by lia. set (s' := (s1 <| sl_seq := _ |>) <| sl_syncing := false |>).
    destruct (inv_fields s1 s') as [Hi' He']; try done.
    assert (Hgr : exists grants, length grants = length rs /\
      entries s' = recs_do s.(sl_type) (cap s) s.(sl_key) gen rs grants (entries s) /\ failures grants <= failures (sl_mem s)).
    { exists grants. pose proof (failures_nonneg (sl_mem s1)). split_and!; [done|by rewrite He'|lia]. }
    destruct fuel as [|fuel']; cbn [package_iter]; (split; [|split; [done|split; [done|split; [|exact Hgr]]]]).
    1, 3: unfold verdict; rewrite <- (slot_checksum (memn2cmp := memn2cmp) crc32_long s' Hi'); by destruct (_ =? _).
    all: by apply frame_seq.
Qed.

(** Between synchronisations every entry is of the overlay's generation. *)
Definition settled (s : ds_slot) : Prop :=
  0 < ngx_http_waf_ds_live_gen s < 2 ^ 32 /\
  forall k e, entries s !! k = Some e -> e.(e_gen) = ngx_http_waf_ds_live_gen s.

Lemma merge_gen o expires h gen : e_gen (merge o expires h gen) = gen.
Proof. unfold merge. destruct o as [e|]; [|done]. destruct (negb _); [done|]. by destruct (_ && _ && _). Qed.

Lemma recs_do_gen type max sipkey gen rs grants m :
  (forall k e, m !! k = Some e -> e.(e_gen) = gen) ->
  forall k e, recs_do type max sipkey gen rs grants m !! k = Some e -> e.(e_gen) = gen.
Proof.
  revert grants m. induction rs as [|r rs IH]; intros [|g grants] m Hm; try done. cbn [recs_do]. apply IH.
  unfold rec_do. intros k e. destruct (is_remove r); [intros [_ ?]%lookup_delete_Some; by eapply Hm|].
  destruct (negb (is_add r)); [by apply Hm|]. destruct (admits _ _ _ _ _); [|by apply Hm].
  intros [[<- <-]|[_ ?]]%lookup_insert_Some; [apply merge_gen|by eapply Hm].
Qed.


(** ** A ban in the middle of a sweep *)

Lemma insert_value_inorder st t a :
  exists l k, inorder t = l ++ k /\ inorder (ngx_http_waf_rate_insert_value memn2cmp st t a) = l ++ a :: k.
Proof.
  induction t as [|tl (l1 & k1 & E1 & F1) b tr (l2 & k2 & E2 & F2)]; cbn; [by exists [], []|].
  destruct (goes_left _ _ _); cbn.
  - exists l1, (k1 ++ b :: inorder tr). rewrite E1, F1. by rewrite <- !app_assoc.
  - exists (inorder tl ++ b :: l2), k2. rewrite E2, F2. by rewrite <- !app_assoc.
Qed.

(** The overlay has gained at most one node, of the generation, and nodes
    changed only to the generation. *)
Definition grows (gen : Z) (lv lv' : ds_live) : Prop :=
  (inorder lv'.(lv_tree) = inorder lv.(lv_tree) \/
   exists l a k, inorder lv.(lv_tree) = l ++ k /\ inorder lv'.(lv_tree) = l ++ a :: k /\
     (live_at lv' a).(ln_gen) = gen /\ a ∉ inorder lv.(lv_tree)) /\
  forall b, b ∈ inorder lv.(lv_tree) -> live_at lv' b = live_at lv b \/ (live_at lv' b).(ln_gen) = gen.

Lemma put_grows key expires h gen s lv :
  inv s -> s.(sl_live) = Some lv ->
  exists lv', sl_live (snd (put key expires h gen s)) = Some lv' /\ grows gen lv lv'.
Proof.
  intros Hi Hl. assert (Hsame : grows gen lv lv) by (split; [by left|by left]).
  unfold ngx_http_waf_ds_live_put. destruct (_ || _); [by exists lv|].
  destruct (ngx_http_waf_ds_live_bits _ _) as [[rc fam] bits]. destruct (bool_decide _); [by exists lv|].
  unfold ngx_http_waf_ds_live_ensure. rewrite Hl. set (lv1 := lv <| lv_max := _ |>).
  assert (Hsame1 : grows gen lv lv1) by (split; [by left|by left]).
  assert (Hupd : forall a ln, ln_gen ln = gen -> grows gen lv (lv1 <| lv_nodes ::= insert a ln |>)).
  { intros a ln Hg. split; [by left|]. intros b _. unfold live_at. cbn. destruct (decide (b = a)) as [->|].
    - right. by rewrite lookup_insert_eq.
    - left. by rewrite lookup_insert_ne. }
  destruct (ngx_http_waf_ds_live_lookup _ lv1 _ _) as [a|].
  - cbn zeta. destruct (negb (h =? 0)).
    + destruct (negb (_ =? h)); (destruct (_ =? expires); (eexists; split; [reflexivity|by apply Hupd])).
    + destruct (_ && _ && _); (eexists; split; [reflexivity|by apply Hupd]).
  - destruct (_ <=? _); [by exists lv1|]. unfold slab. destruct (alloc _) as [[] mem]; cbn [negb]; [|by exists lv1].
    cbn zeta. set (ln := mkLive _ key gen expires h). set (lvx := (lv1 <| lv_next ::= _ |>) <| lv_nodes ::= _ |>).
    set (lvt := (lvx <| lv_tree := _ |>) <| lv_n ::= _ |>). set (lv' := if rc_ok rc then _ else lvt). exists lv'. split; [done|].
    pose proof Hi as [_ Hi']. rewrite Hl in Hi'. destruct Hi' as [Hw _].
    assert (Hnew : lv_next lv ∉ inorder (lv_tree lv)) by (intros Hin; apply (wf_next _ Hw) in Hin; lia).
    assert (Ht : lv_tree lv' = rebalance (ngx_http_waf_ds_live_insert_value memn2cmp lvx (lv_tree lv) (lv_next lv)))
      by (unfold lv'; by destruct (rc_ok rc)).
    assert (Hat : forall b, live_at lv' b = if decide (b = lv_next lv) then ln else live_at lv b).
    { intros b. replace (live_at lv' b) with (live_at lvx b) by (unfold lv'; by destruct (rc_ok rc)).
      unfold lvx, live_at. cbn. destruct (decide (b = lv_next lv)) as [->|]; [by rewrite lookup_insert_eq|].
      by rewrite lookup_insert_ne. }
    split.
    + right. rewrite Ht, rebalance_inorder, insert_emb.
      destruct (insert_value_inorder (emb lvx) (lv_tree lv) (lv_next lv)) as (l & k & E & F).
      exists l, (lv_next lv), k. split_and!; [done|done| |done]. by rewrite Hat, decide_True.
    + intros b Hb. left. rewrite Hat, decide_False; [done|]. by intros ->.
Qed.

Lemma app_split {A} (l k l' k' : list A) :
  l ++ k = l' ++ k' -> (exists m, l' = l ++ m /\ k = m ++ k') \/ (exists m, l = l' ++ m /\ k' = m ++ k).
Proof.
  revert l'. induction l as [|x l IH]; intros l' H; cbn in *; [left; by exists l'|].
  destruct l' as [|y l']; cbn in *; [right; by exists (x :: l)|]. injection H as -> H.
  destruct (IH l' H) as [(m & -> & ->)|(m & -> & ->)]; [left|right]; by exists m.
Qed.

(** A sweep goes on where it was after another worker's ban. *)
Lemma grows_sweeping gen cursor lv lv' :
  grows gen lv lv' -> NoDup (inorder lv.(lv_tree)) -> sweeping gen cursor lv ->
  sweeping gen cursor lv' /\ (sweep_left cursor lv' <= S (sweep_left cursor lv))%nat.
Proof.
  intros [Hin Hat] Hn. destruct cursor as [c|].
  2:{ intros _. split; [done|]. cbn. destruct Hin as [->|(l & a & k & -> & -> & _)]; [lia|].
      rewrite !length_app. cbn. lia. }
  cbn [sweeping swept_to sweep_left to_sweep]. intros (l & k & El & Hl).
  assert (Hcl : c ∉ l).
  { rewrite El in Hn. apply NoDup_app in Hn as (_ & H & _). intros Hc. apply (H c Hc). by left. }
  assert (Hl' : forall b, b ∈ l -> ln_gen (live_at lv' b) = gen).
  { intros b Hb. destruct (Hat b) as [->|]; [rewrite El; apply elem_of_app; by left|by apply Hl|done]. }
  destruct Hin as [->|(l1 & a & k1 & E1 & -> & Hg & Hnew)].
  { split; [|lia]. exists l, k. done. }
  rewrite El in E1. rewrite El in Hnew |- *. rewrite (from_node_app l c k Hcl).
  assert (Hac : a <> c) by (intros ->; apply Hnew, elem_of_app; right; by left).
  destruct (app_split _ _ _ _ E1) as [(m & -> & Em)|(m & -> & ->)].
  - destruct m as [|c' m]; cbn in Em.
    + subst k1. rewrite app_nil_r. split.
      * exists (l ++ [a]), k. rewrite <- app_assoc. split; [done|].
        intros b [Hb|Hb%list_elem_of_singleton]%elem_of_app; [by apply Hl'|by subst].
      * change (l ++ a :: c :: k) with (l ++ [a] ++ c :: k). rewrite (app_assoc l [a] (c :: k)). rewrite from_node_app; [lia|]. intros [?|?%list_elem_of_singleton]%elem_of_app; congruence.
    + injection Em as <- ->. split.
      * exists l, (m ++ a :: k1). rewrite <- app_assoc. done.
      * rewrite <- app_assoc. cbn [app]. rewrite from_node_app by done. rewrite !length_app. cbn. lia.
  - split.
    + exists (l1 ++ a :: m), k. rewrite <- app_assoc. split; [done|].
      intros b [Hb|[->|Hb]%elem_of_cons]%elem_of_app; [apply Hl', elem_of_app; by left|done|apply Hl', elem_of_app; by right].
    + replace (l1 ++ a :: m ++ c :: k) with ((l1 ++ a :: m) ++ c :: k) by (by rewrite <- app_assoc).
      rewrite from_node_app; [lia|]. intros [?|[?|?]%elem_of_cons]%elem_of_app; [|congruence|]; apply Hcl, elem_of_app; tauto.
Qed.

(** ** Snapshots among other workers *)

(** Entries changed only at keys of [ks] and to the generation; none left. *)
Definition evolves (gen : Z) (ks : list bytes) (m m' : gmap bytes entry) : Prop :=
  (forall k e', m' !! k = Some e' -> m !! k = Some e' \/ e_gen e' = gen /\ k ∈ ks) /\
  (forall k e, m !! k = Some e -> exists e', m' !! k = Some e' /\ (e' = e \/ e_gen e' = gen)).

Lemma evolves_refl gen ks m : evolves gen ks m m.
Proof. split; [by left|]. intros k e H. exists e. split; [done|by left]. Qed.

Lemma evolves_trans gen ks1 ks2 m1 m2 m3 :
  evolves gen ks1 m1 m2 -> evolves gen ks2 m2 m3 -> evolves gen (ks1 ++ ks2) m1 m3.
Proof.
  intros [A1 B1] [A2 B2]. split.
  - intros k e' H. apply A2 in H as [H|[Hg Hk]]; [apply A1 in H as [?|[? ?]]; [by left|]|];
      (right; split; [done|apply elem_of_app; tauto]).
  - intros k e H. apply B1 in H as (e1 & H1 & E1). destruct (B2 k e1 H1) as (e2 & H2 & E2). exists e2. split; [done|].
    destruct E2 as [->|]; [done|by right].
Qed.

Lemma evolves_insert gen m k e : e_gen e = gen -> evolves gen [k] m (<[k := e]> m).
Proof.
  intros Hg. split.
  - intros j e' [[<- <-]|[_ ?]]%lookup_insert_Some; [right; split; [done|by left]|by left].
  - intros j e0 Hj. destruct (decide (k = j)) as [->|]; [rewrite lookup_insert_eq|rewrite lookup_insert_ne by done];
      eexists; (split; [done|]); [by right|by left].
Qed.

Lemma evolves_alter gen m k : evolves gen [k] m (alter (fun e => e <| e_gen := gen |>) k m).
Proof.
  split.
  - intros j e'. destruct (decide (k = j)) as [->|]; [rewrite lookup_alter_eq|rewrite lookup_alter_ne by done; by left].
    destruct (m !! j) as [e|]; [|done]. intros [= <-]. right. split; [done|by left].
  - intros j e Hj. destruct (decide (k = j)) as [->|]; [rewrite lookup_alter_eq, Hj|rewrite lookup_alter_ne, Hj by done];
      eexists; (split; [done|]); [by right|by left].
Qed.

Lemma mark_batch_spec k gen cur rs s :
  inv s -> is_bytes cur.(cu_rest) -> holds cur rs ->
  let '(more, cur', s') := mark_batch memn2cmp crc32_long k gen cur s in
  inv s' /\ frame s s' /\ ngx_http_waf_ds_live_gen s' = ngx_http_waf_ds_live_gen s /\
  (is_Some (sl_live s) -> is_Some (sl_live s')) /\ evolves gen (adds_of (take k rs)) (entries s) (entries s') /\
  (more = true /\ holds cur' (drop k rs) /\ is_bytes cur'.(cu_rest) /\ (length cur'.(cu_rest) + k <= length cur.(cu_rest))%nat \/
   more = false).
Proof.
  revert cur rs s. induction k as [|k IH]; intros cur rs s Hi Hb Hr.
  { cbn. split_and!; try done; [apply evolves_refl|]. left. split_and!; try done. lia. }
  cbn [mark_batch]. apply holds_inv in Hr. destruct rs as [|r rs].
  { rewrite Hr. split_and!; try done; [apply evolves_refl|]. by right. }
  destruct Hr as (cur' & E & Hr). rewrite E. destruct (pack_next_spec _ _ _ E Hb) as (P1 & P2 & P3 & _).
  set (s1 := if _ =? _ then _ else s).
  assert (H1 : inv s1 /\ frame s s1 /\ ngx_http_waf_ds_live_gen s1 = ngx_http_waf_ds_live_gen s /\
    (is_Some (sl_live s) -> is_Some (sl_live s1)) /\ evolves gen (adds_of [r]) (entries s) (entries s1)).
  { unfold s1, adds_of. rewrite filter_cons. fold (is_add r). destruct (is_add r) eqn:Ea.
    - destruct (mark_spec (rebalance := rebalance) (rb_delete := rb_delete) crc32_long (rec_key r) gen s Hi) as (M1 & M2 & M3 & M4).
      split_and!; try done; [|rewrite M4; apply evolves_alter].
      unfold ngx_http_waf_ds_live_mark. intros [lv El]. rewrite El. destruct (_ =? 0); [by rewrite El|].
      destruct (ngx_http_waf_ds_live_lookup _ _ _ _); [by eexists|by rewrite El].
    - split_and!; try done. apply evolves_refl. }
  destruct H1 as (H1 & H2 & H3 & H4 & H5). pose proof (IH cur' rs s1 H1 P2 Hr) as H.
  destruct (mark_batch _ _ k gen cur' s1) as [[more cur2] s2]. destruct H as (I1 & I2 & I3 & I4 & I5 & I6).
  split_and!; [done|by transitivity s1|congruence|tauto| |].
  - cbn [take]. unfold adds_of in *. rewrite (filter_app _ [r] (take k rs)), fmap_app. by eapply evolves_trans.
  - cbn [drop]. destruct I6 as [(-> & J1 & J2 & J3)|J]; [left; split_and!; try done; lia|by right].
Qed.

Lemma put_live s key expires h gen : is_Some (sl_live s) -> inv s -> is_Some (sl_live (snd (put key expires h gen s))).
Proof. intros [lv Hl] Hi. destruct (put_grows key expires h gen s lv Hi Hl) as (lv' & -> & _). by eexists. Qed.

Lemma put_batch_spec k sipkey gen cur rs lost s :
  inv s -> is_bytes cur.(cu_rest) -> holds cur rs ->
  let '(more, cur', lost', s') := put_batch memn2cmp crc32_long rebalance now now_ms k sipkey gen cur lost s in
  inv s' /\ frame s s' /\ ngx_http_waf_ds_live_gen s' = ngx_http_waf_ds_live_gen s /\
  (is_Some (sl_live s) -> is_Some (sl_live s')) /\ evolves gen (adds_of (take k rs)) (entries s) (entries s') /\
  (more = true /\ holds cur' (drop k rs) /\ is_bytes cur'.(cu_rest) /\ (length cur'.(cu_rest) + k <= length cur.(cu_rest))%nat \/
   more = false).
Proof.
  revert cur rs lost s. induction k as [|k IH]; intros cur rs lost s Hi Hb Hr.
  { cbn. split_and!; try done; [apply evolves_refl|]. left. split_and!; try done. lia. }
  cbn [put_batch]. apply holds_inv in Hr. destruct rs as [|r rs].
  { rewrite Hr. split_and!; try done; [apply evolves_refl|]. by right. }
  destruct Hr as (cur' & E & Hr). rewrite E. destruct (pack_next_spec _ _ _ E Hb) as (P1 & P2 & P3 & _).
  assert (Hgo : forall s1 l, inv s1 -> frame s s1 -> ngx_http_waf_ds_live_gen s1 = ngx_http_waf_ds_live_gen s ->
    (is_Some (sl_live s) -> is_Some (sl_live s1)) -> evolves gen (adds_of [r]) (entries s) (entries s1) ->
    let '(more, cur2, lost', s') := put_batch memn2cmp crc32_long rebalance now now_ms k sipkey gen cur' l s1 in
    inv s' /\ frame s s' /\ ngx_http_waf_ds_live_gen s' = ngx_http_waf_ds_live_gen s /\
    (is_Some (sl_live s) -> is_Some (sl_live s')) /\ evolves gen (adds_of (take (S k) (r :: rs))) (entries s) (entries s') /\
    (more = true /\ holds cur2 (drop (S k) (r :: rs)) /\ is_bytes cur2.(cu_rest) /\
       (length cur2.(cu_rest) + S k <= length cur.(cu_rest))%nat \/ more = false)).
  { intros s1 l H1 H2 H3 H4 H5. pose proof (IH cur' rs l s1 H1 P2 Hr) as H.
    destruct (put_batch _ _ _ _ _ k sipkey gen cur' l s1) as [[[more cur2] l2] s2]. destruct H as (I1 & I2 & I3 & I4 & I5 & I6).
    split_and!; [done|by transitivity s1|congruence|tauto| |].
    - cbn [take]. unfold adds_of in *. rewrite (filter_app _ [r] (take k rs)), fmap_app. by eapply evolves_trans.
    - cbn [drop]. destruct I6 as [(-> & J1 & J2 & J3)|J]; [left; split_and!; try done; lia|by right]. }
  fold (is_add r). destruct (is_add r) eqn:Ea; cbn [negb]; [|apply (Hgo s lost); try done; apply evolves_refl].
  pose proof (put_record_spec sipkey gen r s Hi P3) as H.
  pose proof (put_live s (rec_key r) (rec_expires r) (ngx_http_waf_ds_siphash sipkey (rec_key r)) gen) as Hlv.
  assert (Es : snd (put_rec sipkey gen r s) = snd (put (rec_key r) (rec_expires r) (ngx_http_waf_ds_siphash sipkey (rec_key r)) gen s)).
  { unfold put_record. cbn zeta. fold (rec_expires r). by destruct (put _ _ _ _ s). }
  destruct (put_rec sipkey gen r s) as [l s1]. cbn [snd] in Es. destruct H as (H1 & H2 & H3 & H4).
  apply Hgo; try done; [intros Hs; rewrite Es; by apply Hlv|]. rewrite H4.
  destruct l; [apply evolves_refl|]. unfold adds_of. rewrite filter_cons_True by done. apply evolves_insert, merge_gen.
Qed.

Section snapshot.
Context (head : pack_t) (start : cursor_t) (gen : Z) (rs : list record_t).

Abbreviation step := (snapshot_step memn2cmp crc32_long rebalance rb_delete rb_min rb_next now now_ms head start gen).

(** What other workers do to the slot while it is synchronising: bans of
    their own, at the generation they find; packages and snapshots are
    turned away. *)
Definition ban (key : bytes) (expires : Z) (s : ds_slot) : bool * ds_slot :=
  let '(rc, s') := put key expires 0 (ngx_http_waf_ds_live_gen s) s in
  (match rc with PUT_OK | PUT_DECLINED => true | _ => false end, s').

(** A run: regions under the lock, with bans in between; the list has the
    banned keys and whether the ban was taken. *)
Inductive snap_run (ph0 : snapshot_phase) (s0 : ds_slot) : list (bytes * bool) -> snapshot_phase -> ds_slot -> Prop :=
  | run_here : snap_run ph0 s0 [] ph0 s0
  | run_step bans ph s : snap_run ph0 s0 bans ph s -> snap_run ph0 s0 bans (fst (step ph s)) (snd (step ph s))
  | run_ban bans ph s key expires :
      snap_run ph0 s0 bans ph s -> (forall res, ph <> SnapDone res) -> is_bytes key ->
      snap_run ph0 s0 ((key, fst (ban key expires s)) :: bans) ph (snd (ban key expires s)).

Definition of_records (cur : cursor_t) : Prop :=
  is_bytes cur.(cu_rest) /\ exists todo, holds cur todo /\ forall k, k ∈ adds_of todo -> k ∈ adds_of rs.
Definition all_of_gen (s : ds_slot) : Prop := forall k e, entries s !! k = Some e -> e.(e_gen) = gen.

Record snap_inv (bans : list (bytes * bool)) (ph : snapshot_phase) (s : ds_slot) : Prop := {
  sn_inv : inv s;
  sn_live : is_Some s.(sl_live);
  sn_gen : ngx_http_waf_ds_live_gen s = gen;
  sn_only : forall k e, entries s !! k = Some e -> e.(e_gen) = gen -> k ∈ adds_of rs \/ k ∈ bans.*1;
  sn_bans : forall k, (k, true) ∈ bans -> exists e, entries s !! k = Some e /\ e.(e_gen) = gen;
  sn_phase : match ph with
             | SnapMark cur => of_records cur
             | SnapSweep cursor _ => exists lv, s.(sl_live) = Some lv /\ sweeping gen cursor lv
             | SnapPut cur _ => of_records cur /\ all_of_gen s
             | SnapEnd _ => all_of_gen s
             | SnapDone res => all_of_gen s /\ res = verdict s head.(ph_hash) /\ s.(sl_epoch) = head.(ph_epoch) /\
                 s.(sl_seq) = head.(ph_seq) /\ s.(sl_key) = head.(ph_key) /\ s.(sl_syncing) = false /\
                 s.(sl_snap_bad) = negb (res ==? DS_APPLIED)
             end
}.

(** The parts that every change of entries to the generation keeps. *)
Lemma evolves_inv (bans : list (bytes * bool)) s s' ks :
  evolves gen ks (entries s) (entries s') -> (forall k, k ∈ ks -> k ∈ adds_of rs \/ k ∈ bans.*1) ->
  (forall k e, entries s !! k = Some e -> e.(e_gen) = gen -> k ∈ adds_of rs \/ k ∈ bans.*1) ->
  (forall k e, entries s' !! k = Some e -> e.(e_gen) = gen -> k ∈ adds_of rs \/ k ∈ bans.*1) /\
  (forall k, (exists e, entries s !! k = Some e /\ e.(e_gen) = gen) -> exists e, entries s' !! k = Some e /\ e.(e_gen) = gen) /\
  (all_of_gen s -> all_of_gen s').
Proof.
  intros [A B] Hks Honly. split_and!.
  - intros k e H Hg. apply A in H as [H|[_ Hk]]; [by eapply Honly|by apply Hks].
  - intros k (e & H & Hg). apply B in H as (e' & H & He). exists e'. split; [done|]. destruct He as [->|]; done.
  - intros Hall k e H. apply A in H as [H|[? _]]; [by eapply Hall|done].
Qed.

Lemma adds_take k rs' x : x ∈ adds_of (take k rs') -> x ∈ adds_of rs'.
Proof.
  unfold adds_of. rewrite !list_elem_of_fmap. intros (r & -> & [? Hr]%list_elem_of_filter). exists r. split; [done|].
  apply list_elem_of_filter. split; [done|]. apply list_elem_of_lookup in Hr as [i Hi].
  apply lookup_take_Some in Hi as [Hi _]. by eapply list_elem_of_lookup_2.
Qed.
Lemma adds_drop k rs' x : x ∈ adds_of (drop k rs') -> x ∈ adds_of rs'.
Proof.
  unfold adds_of. rewrite !list_elem_of_fmap. intros (r & -> & [? Hr]%list_elem_of_filter). exists r. split; [done|].
  apply list_elem_of_filter. split; [done|]. apply list_elem_of_lookup in Hr as [i Hi].
  rewrite lookup_drop in Hi. by eapply list_elem_of_lookup_2.
Qed.

Lemma snap_inv_step bans ph s : of_records start -> snap_inv bans ph s -> snap_inv bans (fst (step ph s)) (snd (step ph s)).
Proof.
  intros Hstart [Hi Hl Hg Ho Hb Hp]. destruct ph as [cur|cursor swept|cur lost|lost|res]; cbn [snapshot_step].
  - destruct Hp as (Hby & todo & Hh & Hsub).
    pose proof (mark_batch_spec NGX_HTTP_WAF_DS_BATCH gen cur todo s Hi Hby Hh) as H.
    destruct (mark_batch _ _ _ _ _ _) as [[more cur'] s']. destruct H as (H1 & H2 & H3 & H4 & H5 & H6). cbn [fst snd].
    destruct (evolves_inv bans s s' _ H5) as (E1 & E2 & E3); [intros k Hk; left; by apply Hsub, (adds_take NGX_HTTP_WAF_DS_BATCH)|done|].
    constructor; try done; [tauto|congruence|intros k Hk; by apply E2, Hb|].
    destruct H6 as [(-> & J1 & J2 & _)|J]; cbn iota.
    + split; [done|]. exists (drop NGX_HTTP_WAF_DS_BATCH todo). split; [done|]. intros k Hk. by apply Hsub, (adds_drop NGX_HTTP_WAF_DS_BATCH).
    + subst more. cbn iota. destruct (H4 Hl) as [lv Hlv]. by exists lv.
  - destruct Hp as (lv & Hlv & Hsw).
    pose proof (sweep_spec (rebalance := rebalance) crc32_long gen NGX_HTTP_WAF_DS_BATCH cursor swept s lv Hi Hlv Hsw
      ltac:(unfold NGX_HTTP_WAF_DS_BATCH; lia)) as H.
    destruct (ngx_http_waf_ds_live_sweep _ _ _ _ _ _ _ s) as [[[rc cursor'] swept'] s']. cbn [fst snd].
    destruct H as (H1 & H2 & [K1 K2] & lv' & H4 & H5 & H6).
    assert (Hg' : ngx_http_waf_ds_live_gen s' = gen).
    { unfold ngx_http_waf_ds_live_gen in *. rewrite H4, H5. by rewrite Hlv in Hg. }
    constructor; try done.
    + intros k e He. apply Ho. by apply K1.
    + intros k Hk. destruct (Hb k Hk) as (e & He & Hge). exists e. split; [by apply K2|done].
    + destruct H6 as [[-> H6]|(-> & (c & Hc) & H6 & _)]; cbn.
      * split; [done|exact H6].
      * rewrite Hc in *. by exists lv'.
  - destruct Hp as [(Hby & todo & Hh & Hsub) Hall].
    pose proof (put_batch_spec NGX_HTTP_WAF_DS_BATCH (ph_key head) gen cur todo lost s Hi Hby Hh) as H.
    destruct (put_batch _ _ _ _ _ _ _ _ _ _ _) as [[[more cur'] lost'] s']. destruct H as (H1 & H2 & H3 & H4 & H5 & H6). cbn [fst snd].
    destruct (evolves_inv bans s s' _ H5) as (E1 & E2 & E3); [intros k Hk; left; by apply Hsub, (adds_take NGX_HTTP_WAF_DS_BATCH)|done|].
    constructor; try done; [tauto|congruence|intros k Hk; by apply E2, Hb|].
    destruct H6 as [(-> & J1 & J2 & _)|J]; cbn iota.
    + split; [|by apply E3]. split; [done|]. exists (drop NGX_HTTP_WAF_DS_BATCH todo). split; [done|].
      intros k Hk. by apply Hsub, (adds_drop NGX_HTTP_WAF_DS_BATCH).
    + subst more. cbn iota. by apply E3.
  - set (s1 := (((s <| sl_epoch := _ |>) <| sl_seq := _ |>) <| sl_key := _ |>) <| sl_syncing := false |>). cbn zeta. cbn [fst snd].
    set (s' := s1 <| sl_snap_bad := _ |>). destruct (inv_fields s s') as [Hi' He]; try done.
    constructor; try done; rewrite ?He; try done.
    assert (Ec : checksum (entries s') = sl_live_hash s1).
    { rewrite <- (slot_checksum (memn2cmp := memn2cmp) crc32_long s' Hi'). done. }
    unfold all_of_gen, verdict. rewrite Ec, He. split_and!; try done.
    + by destruct (_ =? _).
    + cbn. by destruct (_ =? _).
  - by constructor.
Qed.

Lemma snap_inv_ban bans ph s key expires :
  snap_inv bans ph s -> (forall res, ph <> SnapDone res) -> is_bytes key ->
  snap_inv ((key, fst (ban key expires s)) :: bans) ph (snd (ban key expires s)).
Proof.
  intros [Hi Hl Hg Ho Hb Hp] Hnd Hk. pose proof Hl as [lv Hlv]. unfold ban. rewrite Hg.
  pose proof (put_spec (rebalance := rebalance) (rb_delete := rb_delete) crc32_long key expires 0 gen s Hi Hk) as H.
  destruct (put_grows key expires 0 gen s lv Hi Hlv) as (lv' & Hlv' & Hgr).
  destruct (put key expires 0 gen s) as [rc s']. cbn [snd] in Hlv'. destruct H as (H1 & H2 & H3 & H4). cbn [fst snd].
  set (took := match rc with PUT_OK | PUT_DECLINED => true | _ => false end).
  assert (Hev : evolves gen [key] (entries s) (entries s') /\
                (took = true -> exists e, entries s' !! key = Some e /\ e_gen e = gen)).
  { unfold took. destruct rc; try (destruct H4 as [-> _]; split; [apply evolves_refl|done]); destruct H4 as [_ ->];
      (split; [apply evolves_insert, merge_gen|intros _; eexists; split; [apply lookup_insert_eq|apply merge_gen]]). }
  destruct Hev as [Hev Htook].
  destruct (evolves_inv ((key, took) :: bans) s s' [key] Hev) as (E1 & E2 & E3).
  { intros k ->%list_elem_of_singleton. right. by left. }
  { intros k e He Hge. destruct (Ho k e He Hge); [by left|right; by right]. }
  constructor; try done; [congruence| |].
  - intros k [[= -> <-]|Hin]%elem_of_cons; [by apply Htook|]. by apply E2, Hb.
  - destruct ph as [cur|cursor swept|cur lost|lost|res]; [done| | |by apply E3|by destruct (Hnd res)].
    + destruct Hp as (lv0 & Hlv0 & Hsw). rewrite Hlv in Hlv0. injection Hlv0 as <-. exists lv'. split; [done|].
      eapply grows_sweeping; [exact Hgr| |done]. destruct Hi as [_ Hi]. rewrite Hlv in Hi. by apply wf_nodup, Hi.
    + destruct Hp as [? ?]. split; [done|by apply E3].
Qed.

End snapshot.

(** ** The start of a snapshot *)

Lemma pack_head_bytes data head cur :
  ngx_http_waf_ds_pack_head data = Some (head, cur) -> is_bytes data ->
  is_bytes cur.(cu_rest) /\ (length cur.(cu_rest) <= length data)%nat /\ cur.(cu_type) = head.(ph_type).
Proof.
  unfold ngx_http_waf_ds_pack_head. destruct (_ || _ || _); [done|]. intros [= <- <-] Hb. cbn [cu_rest cu_type ph_type].
  split_and!; [by apply is_bytes_drop|rewrite length_drop; lia|done].
Qed.

(** What a snapshot that is let in is. *)
Record admitted (conf : option ds_conf) (data : bytes) (s : ds_slot) (head : pack_t) (start : cursor_t) (rs : list record_t) : Prop := {
  ad_head : ngx_http_waf_ds_pack_head data = Some (head, start);
  ad_recs : holds start rs;
  ad_kind : head.(ph_kind) = NGX_HTTP_WAF_PACK_SNAPSHOT;
  ad_type : exists ds, conf = Some ds /\ ngx_http_waf_ds_type_matches ds.(dc_type) head = true /\
              zlen (adds_of rs) <= Z.min (cap s) ds.(dc_max);
  ad_seq : s.(sl_epoch) = 0 \/ head.(ph_epoch) <> s.(sl_epoch) \/ s.(sl_seq) <= head.(ph_seq);
  ad_free : s.(sl_syncing) = false
}.

Lemma snapshot_start_spec conf data s :
  inv s -> settled s -> is_bytes data ->
  match snapshot_start conf data s with
  | (SnapMark cur, Some (head, start, gen), s0) =>
      cur = start /\ exists rs, admitted conf data s head start rs /\ of_records rs start /\
        snap_inv head gen rs [] (SnapMark start) s0 /\ entries s0 = entries s /\
        frame (s <| sl_syncing := true |>) s0 /\ 0 < gen < 2 ^ 32
  | (SnapDone res, None, s0) =>
      (res = DS_MALFORMED \/ res = DS_FOREIGN \/ res = DS_BUSY \/ res = DS_STALE) /\
      inv s0 /\ frame s s0 /\ entries s0 = entries s
  | _ => False
  end.
Proof.
  intros Hi [Hgen Hset] Hb. unfold snapshot_start.
  assert (Hno : forall res, res = DS_MALFORMED \/ res = DS_FOREIGN \/ res = DS_BUSY \/ res = DS_STALE ->
    (res = DS_MALFORMED \/ res = DS_FOREIGN \/ res = DS_BUSY \/ res = DS_STALE) /\ inv s /\ frame s s /\ entries s = entries s).
  { intros res H. by split_and!. }
  destruct conf as [ds|]; [|by apply Hno; tauto].
  destruct (ngx_http_waf_ds_pack_head data) as [[head start]|] eqn:Eh; [|by apply Hno; tauto].
  destruct (Z.eqb_spec (ph_kind head) NGX_HTTP_WAF_PACK_SNAPSHOT) as [Ek|]; cbn [negb]; [|by apply Hno; tauto].
  destruct (ngx_http_waf_ds_type_matches (dc_type ds) head) eqn:Et; cbn [negb]; [|by apply Hno; tauto].
  destruct (pack_scan start) as [[whole n] adds] eqn:Es. cbn zeta. destruct whole; cbn [negb]; [|by apply Hno; tauto].
  change (if negb (sl_live_max s =? 0) then sl_live_max s else NGX_HTTP_WAF_DS_LIVE_MAX) with (cap s).
  destruct ((Z.min (cap s) (dc_max ds) <? ph_count head) || (Z.min (cap s) (dc_max ds) <? adds)) eqn:Ec; [by apply Hno; tauto|].
  destruct (sl_syncing s) eqn:Esy; [by apply Hno; tauto|].
  destruct (negb (sl_epoch s =? 0) && (ph_epoch head =? sl_epoch s) && (ph_seq head <? sl_seq s)) eqn:Est; [by apply Hno; tauto|].
  pose proof (begin_spec (memn2cmp := memn2cmp) crc32_long s Hi) as H.
  destruct (ngx_http_waf_ds_live_begin s) as [gen s1]. destruct H as (H1 & H2 & H3 & H4).
  destruct (Z.eqb_spec gen 0) as [E0|E0]; [by split_and!; tauto|].
  destruct H4 as [[? _]|(H4 & H5 & H6 & H7)]; [done|]. split; [done|].
  apply pack_scan_spec in Es as (rs & Hr & _ & ->). destruct (pack_head_bytes _ _ _ Eh Hb) as (B1 & B2 & _).
  exists rs. set (s0 := s1 <| sl_syncing := true |>). destruct (inv_fields s1 s0) as [Hi0 He0]; try done.
  split; [|split; [|split; [|split; [|split]]]].
  - constructor; try done; [exists ds; split_and!; [done|done|lia]|].
    destruct (Z.eqb_spec (sl_epoch s) 0); [by left|right]. destruct (Z.eqb_spec (ph_epoch head) (sl_epoch s)); [right; cbn in Est; lia|by left].
  - split; [done|]. exists rs. by split.
  - constructor; try done.
    + intros k e He Hg. exfalso. rewrite He0, H3 in He. apply Hset in He. apply H7; [done|congruence].
    + intros k Hk. by apply elem_of_nil in Hk.
    + split; [done|]. exists rs. by split.
  - by rewrite He0.
  - by apply frame_sync.
  - done.
Qed.

(** C9: A snapshot replaces the overlay, whatever other workers ban while it
    is loaded.  In every interleaving of its batches with their bans, once it
    is done every entry of the overlay is one the snapshot adds or one that
    was banned meanwhile, no ban that was taken meanwhile is gone, the epoch,
    the sequence number and the checksum key are the snapshot's, and the
    result tells whether the checksum of the overlay is the announced one. *)
Theorem snapshot_replaces conf data s head start gen s0 bans res s' :
  inv s -> settled s -> is_bytes data ->
  snapshot_start conf data s = (SnapMark start, Some (head, start, gen), s0) ->
  snap_run head start gen (SnapMark start) s0 bans (SnapDone res) s' ->
  inv s' /\ settled s' /\
  (exists rs, holds start rs /\ forall k, is_Some (entries s' !! k) -> k ∈ adds_of rs \/ k ∈ bans.*1) /\
  (forall k, (k, true) ∈ bans -> is_Some (entries s' !! k)) /\
  s'.(sl_epoch) = head.(ph_epoch) /\ s'.(sl_seq) = head.(ph_seq) /\ s'.(sl_key) = head.(ph_key) /\ s'.(sl_syncing) = false /\
  (res = DS_APPLIED /\ checksum (entries s') = head.(ph_hash) /\ s'.(sl_snap_bad) = false \/
   res = DS_DIVERGED /\ checksum (entries s') <> head.(ph_hash) /\ s'.(sl_snap_bad) = true).
Proof.
  intros Hi Hs Hb Hst Hrun. pose proof (snapshot_start_spec conf data s Hi Hs Hb) as H. rewrite Hst in H.
  destruct H as (_ & rs & Had & Hof & Hinv & _ & _ & Hgen).
  assert (Hfin : snap_inv head gen rs bans (SnapDone res) s').
  { remember (SnapDone res) as ph. clear Heqph. induction Hrun; [done|by apply snap_inv_step|by apply snap_inv_ban]. }
  destruct Hfin as [F1 F2 F3 F4 F5 (F6 & F7 & F8 & F9 & F10 & F11 & F12)].
  split_and!; try done.
  - split; [by rewrite F3|]. rewrite F3. exact F6.
  - exists rs. split; [apply Had|]. intros k [e He]. apply (F4 k e He). by eapply F6.
  - intros k Hk. destruct (F5 k Hk) as (e & He & _). by eexists.
  - subst res. unfold verdict in *. destruct (Z.eqb_spec (checksum (entries s')) (ph_hash head)); [left|right]; by split_and!.
Qed.

End apply.
End DsPackFacts.
