(* ===== verification/DsSnapFacts.v ===== *)
(** A snapshot that one worker loads undisturbed: it comes to an end, and
    with memory for it the overlay is then exactly the snapshot. *)
From stdpp Require Import gmap sorting.
From S2P Require Import Prelude Types Rate RateFacts DsSet DsSetFacts DsLive DsLiveFacts DsPack DsPackFacts.
Import Rate RateFacts DsSet DsSetFacts DsLive DsLiveFacts DsPack DsPackFacts.
#[local] Open Scope Z_scope.

Module DsSnapFacts.

Section alone.
Context {memn2cmp : bytes -> bytes -> Z} {rebalance : tree -> tree} {rb_delete : tree -> Z -> tree}.
Context `{!RbTree memn2cmp rebalance rb_delete}.
Context {rb_min : tree -> option Z} {rb_next : tree -> Z -> option Z} `{!RbWalk rb_min rb_next}.
Context (crc32_long : bytes -> Z) (now now_ms : Z).

Abbreviation inv := (slot_inv (memn2cmp := memn2cmp) crc32_long).
Abbreviation put := (ngx_http_waf_ds_live_put memn2cmp crc32_long rebalance).
Abbreviation put_rec := (put_record memn2cmp crc32_long rebalance now now_ms).

#[local] Existing Instance frame_preorder.

Lemma cap_frame s s' : frame s s' -> cap s' = cap s.
Proof. intros (_ & Fm & _)%frame_fields. unfold cap. by rewrite Fm. Qed.

(** ** Memory *)

Lemma put_mem key expires h gen s :
  inv s -> is_bytes key -> is_Some (sl_live s) -> s.(sl_mem) = [] -> key_ok s.(sl_type) key ->
  (is_Some (entries s !! key) \/ Z.of_nat (size (entries s)) < cap s) ->
  let '(rc, s') := put key expires h gen s in
  (rc = PUT_OK \/ rc = PUT_DECLINED) /\ s'.(sl_mem) = [].
Proof.
  intros Hi Hb [lv Hl] Hm (_ & Hlen & Hbits) Hroom.
  pose proof (put_spec (rebalance := rebalance) (rb_delete := rb_delete) crc32_long key expires h gen s Hi Hb) as Hp.
  revert Hp. unfold ngx_http_waf_ds_live_put.
  rewrite (proj2 (Z.eqb_neq (zlen key) 0)), (proj2 (Z.ltb_ge NGX_HTTP_WAF_DS_ENTRY_MAX (zlen key))) by lia. cbn [orb].
  destruct (ngx_http_waf_ds_live_bits _ _) as [[rc fam] bits]. cbn [fst] in Hbits. rewrite bool_decide_false by done.
  unfold ngx_http_waf_ds_live_ensure. rewrite Hl. set (lv1 := lv <| lv_max := _ |>).
  destruct (ngx_http_waf_ds_live_lookup _ lv1 _ _) as [a|].
  - cbn zeta. intros _. destruct (negb (h =? 0)).
    + destruct (negb (_ =? h)); (destruct (_ =? expires); (split; [tauto|exact Hm])).
    + destruct (_ && _ && _); (split; [tauto|exact Hm]).
  - destruct (_ <=? _).
    { intros (_ & _ & _ & _ & Hnone & Hcap). destruct Hroom as [[e He]|Hr]; [congruence|lia]. }
    unfold slab. cbn [sl_mem upd]. rewrite Hm. cbn [alloc negb]. intros _. split; [by left|].
    destruct (rc_ok rc); reflexivity.
Qed.

Lemma mark_mem key gen s :
  sl_mem (ngx_http_waf_ds_live_mark memn2cmp crc32_long key gen s) = sl_mem s.
Proof.
  unfold ngx_http_waf_ds_live_mark. destruct (sl_live s); [|done]. destruct (_ =? 0); [done|].
  by destruct (ngx_http_waf_ds_live_lookup _ _ _ _).
Qed.

Lemma mark_batch_mem k gen cur s : sl_mem (snd (mark_batch memn2cmp crc32_long k gen cur s)) = sl_mem s.
Proof.
  revert cur s. induction k as [|k IH]; intros cur s; cbn; [done|].
  destruct (ngx_http_waf_ds_pack_next cur) as [r cur'| |]; [|done|done]. rewrite IH.
  destruct (_ =? _); [apply mark_mem|done].
Qed.

Lemma delete_mem lv a s : sl_mem (ngx_http_waf_ds_live_delete rb_delete lv a s) = sl_mem s.
Proof. unfold ngx_http_waf_ds_live_delete. by destruct (ngx_http_waf_ds_live_bits _ _) as [[rc f] b]. Qed.

Lemma sweep_loop_mem batch gen node swept s : sl_mem (snd (sweep_loop rb_delete rb_next batch gen node swept s)) = sl_mem s.
Proof.
  revert node swept s. induction batch as [|batch IH]; intros node swept s; cbn; [by destruct node|].
  destruct node as [a|]; [|done]. destruct (sl_live s) as [lv|]; [|done].
  destruct (negb _); rewrite IH; [apply delete_mem|done].
Qed.

Lemma sweep_mem gen batch cursor swept s :
  sl_mem (snd (ngx_http_waf_ds_live_sweep rb_delete rb_min rb_next gen batch cursor swept s)) = sl_mem s.
Proof.
  unfold ngx_http_waf_ds_live_sweep. destruct (sl_live s) as [lv|]; [|done]. destruct (lv_tree lv) as [|l a r]; [done|].
  cbn zeta. pose proof (sweep_loop_mem batch gen (match cursor with None => rb_min (Bin l a r) | Some a => Some a end) swept s) as H.
  by destruct (sweep_loop _ _ _ _ _ _ s) as [[node' sw'] s'].
Qed.

(** ** The map of a snapshot *)

Definition valid (r : record_t) : bool :=
  is_add r && (0 <? zlen r.(rec_key)) && (zlen r.(rec_key) <=? NGX_HTTP_WAF_DS_ENTRY_MAX).
Definition snap_put (sipkey : bytes) (gen : Z) (m : gmap bytes entry) (r : record_t) : gmap bytes entry :=
  if valid r
  then <[r.(rec_key) := mkEntry gen (rec_expires now now_ms r) (ngx_http_waf_ds_siphash sipkey r.(rec_key))]> m
  else m.
(** Each key as the last record has it. *)
Definition snapshot_map (sipkey : bytes) (gen : Z) (rs : list record_t) : gmap bytes entry :=
  foldl (snap_put sipkey gen) ∅ rs.

Lemma snap_fold_other sipkey gen rs m k :
  (forall r, r ∈ rs -> valid r = true -> rec_key r <> k) -> foldl (snap_put sipkey gen) m rs !! k = m !! k.
Proof.
  revert m. induction rs as [|r rs IH]; intros m H; [done|]. cbn. rewrite IH by (intros r' Hr; apply H; by right).
  unfold snap_put. destruct (valid r) eqn:E; [|done]. apply lookup_insert_ne. apply H; [by left|done].
Qed.

(** Where every key is written the map before does not matter. *)
Lemma snap_fold_covered sipkey gen rs m m' k :
  (exists r, r ∈ rs /\ valid r = true /\ rec_key r = k) ->
  foldl (snap_put sipkey gen) m rs !! k = foldl (snap_put sipkey gen) m' rs !! k.
Proof.
  induction rs as [|r rs IH] using rev_ind; intros (r0 & Hr & Hv & Hk); [by apply elem_of_nil in Hr|].
  rewrite !foldl_app. cbn. unfold snap_put at 1 3. destruct (valid r) eqn:E.
  - destruct (decide (rec_key r = k)) as [<-|Hne]; [by rewrite !lookup_insert_eq|]. rewrite !lookup_insert_ne by done.
    apply IH. exists r0. apply elem_of_app in Hr as [Hr|Hr%list_elem_of_singleton]; [done|]. subst. done.
  - apply IH. exists r0. apply elem_of_app in Hr as [Hr|Hr%list_elem_of_singleton]; [done|]. subst. congruence.
Qed.

Lemma snap_fold_exact sipkey gen rs m :
  (forall k, is_Some (m !! k) -> exists r, r ∈ rs /\ valid r = true /\ rec_key r = k) ->
  foldl (snap_put sipkey gen) m rs = snapshot_map sipkey gen rs.
Proof.
  intros H. apply map_eq. intros k. unfold snapshot_map.
  destruct (decide (Exists (fun r => valid r = true /\ rec_key r = k) rs)) as [He|He].
  - apply snap_fold_covered. apply Exists_exists in He as (r & Hr & Hv & Hk). by exists r.
  - assert (Hno : forall r, r ∈ rs -> valid r = true -> rec_key r <> k).
    { intros r Hr Hv Hk. apply He, Exists_exists. by exists r. }
    rewrite !snap_fold_other by done. rewrite lookup_empty. destruct (m !! k) as [e|] eqn:E; [|done].
    destruct (H k) as (r & Hr & Hv & Hk); [by eexists|]. by destruct (Hno r Hr Hv).
Qed.

Lemma size_within (m : gmap bytes entry) (ks : list bytes) :
  (forall k, is_Some (m !! k) -> k ∈ ks) -> (size m <= length ks)%nat.
Proof.
  intros H. assert (Hs : (map_to_list m).*1 ⊆+ ks).
  { apply NoDup_submseteq; [apply NoDup_fst_map_to_list|]. intros k (x & -> & Hx)%list_elem_of_fmap. destruct x as [k e].
    apply elem_of_map_to_list in Hx. apply H. by eexists. }
  apply submseteq_length in Hs. rewrite length_fmap, length_map_to_list in Hs. exact Hs.
Qed.

Lemma merge_keyed o expires h gen : h <> 0 -> merge o expires h gen = mkEntry gen expires h.
Proof. intros Hh. unfold merge. destruct o; [|done]. by rewrite (proj2 (Z.eqb_neq h 0)). Qed.

Section records.
Context (head : pack_t) (rs : list record_t).

(** Of the records: their keys suit the slot, and their checksums are not 0. *)
Definition suits (type : ds_type_e) (r : record_t) : Prop :=
  is_bytes r.(rec_key) /\
  (valid r = true -> key_ok type r.(rec_key) /\ ngx_http_waf_ds_siphash head.(ph_key) r.(rec_key) <> 0).

(** What keeps the puts from being refused. *)
Definition room (s : ds_slot) : Prop :=
  is_Some s.(sl_live) /\ s.(sl_mem) = [] /\ zlen (adds_of rs) <= cap s /\
  forall k, is_Some (entries s !! k) -> k ∈ adds_of rs.

Lemma add_in r rs' : r ∈ rs' -> is_add r = true -> rec_key r ∈ adds_of rs'.
Proof. intros Hr Ha. apply list_elem_of_fmap. exists r. split; [done|]. by apply list_elem_of_filter. Qed.

Lemma put_record_alone gen r s :
  inv s -> room s -> r ∈ rs -> is_add r = true -> suits s.(sl_type) r ->
  let '(_, s') := put_rec head.(ph_key) gen r s in
  inv s' /\ frame s s' /\ room s' /\ entries s' = snap_put head.(ph_key) gen (entries s) r.
Proof.
  intros Hi (Hlv & Hm & Hcap & Hkeys) Hr Ha (Hb & Hs). unfold put_record. cbn zeta. fold (rec_expires now now_ms r).
  set (h := ngx_http_waf_ds_siphash _ _) in *.
  pose proof (put_spec (rebalance := rebalance) (rb_delete := rb_delete) crc32_long (rec_key r) (rec_expires now now_ms r) h gen s Hi Hb) as Hp.
  pose proof (put_live (rebalance := rebalance) crc32_long s (rec_key r) (rec_expires now now_ms r) h gen Hlv Hi) as Hl'.
  unfold snap_put. fold h. destruct (valid r) eqn:Ev.
  - destruct (Hs eq_refl) as [Hk Hh].
    pose proof (put_mem (rec_key r) (rec_expires now now_ms r) h gen s Hi Hb Hlv Hm Hk) as Hmem.
    assert (Hroom : is_Some (entries s !! rec_key r) \/ Z.of_nat (size (entries s)) < cap s).
    { destruct (entries s !! rec_key r) as [e|] eqn:E; [left; by eexists|right].
      assert (Hsz : (size (<[rec_key r := mkEntry 0 0 0]> (entries s)) <= length (adds_of rs))%nat).
      { apply size_within. intros k [e [[<- _]|[_ He]]%lookup_insert_Some]; [by apply add_in|]. apply Hkeys. by eexists. }
      rewrite map_size_insert_None in Hsz by done. unfold zlen in Hcap. lia. }
    specialize (Hmem Hroom). destruct (put _ _ h gen s) as [rc s']. cbn [snd] in Hl'. destruct Hmem as [Hrc Hm'].
    destruct Hp as (P1 & P2 & _ & P3). rewrite merge_keyed in P3 by done.
    assert (He : entries s' = <[rec_key r := mkEntry gen (rec_expires now now_ms r) h]> (entries s))
      by (destruct Hrc as [-> | ->]; apply P3).
    split_and!; [done|done| |done]. split_and!; [done|done| |].
    + destruct (frame_fields _ _ P2) as (_ & Fm & _). unfold cap in *. by rewrite Fm.
    + rewrite He. intros k [e [[<- _]|[_ Hke]]%lookup_insert_Some]; [by apply add_in|]. apply Hkeys. by eexists.
  - assert (Es : put (rec_key r) (rec_expires now now_ms r) h gen s = (PUT_ERROR, s)).
    { unfold ngx_http_waf_ds_live_put. unfold valid in Ev. rewrite Ha in Ev. cbn [andb] in Ev.
      replace ((zlen (rec_key r) =? 0) || (NGX_HTTP_WAF_DS_ENTRY_MAX <? zlen (rec_key r))) with true; [done|].
      pose proof (zlen_nonneg (rec_key r)). lia. }
    rewrite Es. split; [done|]. split; [reflexivity|]. split; [by split_and!|done].
Qed.

Lemma put_batch_alone k gen cur todo lost s :
  inv s -> room s -> is_bytes cur.(cu_rest) -> holds cur todo ->
  (forall r, r ∈ todo -> r ∈ rs /\ suits s.(sl_type) r) ->
  let '(_, _, _, s') := put_batch memn2cmp crc32_long rebalance now now_ms k head.(ph_key) gen cur lost s in
  room s' /\ entries s' = foldl (snap_put head.(ph_key) gen) (entries s) (take k todo).
Proof.
  revert cur todo lost s. induction k as [|k IH]; intros cur todo lost s Hi Hr Hb Hh Hall; [done|].
  cbn [put_batch]. apply holds_inv in Hh. destruct todo as [|r todo]; [by rewrite Hh|].
  destruct Hh as (cur' & E & Hh). rewrite E. destruct (pack_next_spec _ _ _ E Hb) as (P1 & P2 & P3 & _).
  destruct (Hall r ltac:(by left)) as [Hin Hsu]. fold (is_add r). cbn [take foldl].
  destruct (is_add r) eqn:Ea; cbn [negb].
  - pose proof (put_record_alone gen r s Hi Hr Hin Ea Hsu) as H. destruct (put_rec _ _ _ _) as [l s1].
    destruct H as (H1 & H2 & H3 & H4). destruct (frame_fields _ _ H2) as (Ft & _).
    rewrite <- H4. apply IH; try done. intros r' Hr'. rewrite Ft. apply Hall. by right.
  - replace (snap_put (ph_key head) gen (entries s) r) with (entries s) by (unfold snap_put, valid; by rewrite Ea).
    apply IH; try done. intros r' Hr'. apply Hall. by right.
Qed.

End records.

(** A batch that ends has read everything. *)
Lemma put_batch_more k sipkey gen cur todo lost s :
  holds cur todo ->
  fst (fst (fst (put_batch memn2cmp crc32_long rebalance now now_ms k sipkey gen cur lost s))) = false -> (length todo < k)%nat.
Proof.
  revert cur todo lost s. induction k as [|k IH]; intros cur todo lost s Hh; cbn [put_batch]; [done|].
  apply holds_inv in Hh. destruct todo as [|r todo]; [cbn; lia|]. destruct Hh as (cur' & E & Hh). rewrite E.
  destruct (negb _); [intros H; apply (IH _ todo) in H; [cbn; lia|done]|].
  destruct (put_rec sipkey gen r s) as [l s1]. intros H. apply (IH _ todo) in H; [cbn; lia|done].
Qed.

Lemma holds_keys cur rs :
  holds cur rs -> is_bytes cur.(cu_rest) ->
  forall r, r ∈ rs -> is_bytes r.(rec_key) /\ (cur.(cu_type) = NGX_HTTP_WAF_PACK_CIDR -> key_ok DS_CIDR r.(rec_key)).
Proof.
  induction 1 as [|cur r cur' rs E Hh IH]; intros Hb r' Hr; [by apply elem_of_nil in Hr|].
  destruct (pack_next_spec _ _ _ E Hb) as (P1 & P2 & P3 & P4 & P5 & P6).
  apply elem_of_cons in Hr as [->|Hr]; [by split|]. rewrite <- P4. by apply IH.
Qed.

(** ** The phases of a lone worker *)

Section phases.
Context (head : pack_t) (start : cursor_t) (gen : Z) (rs : list record_t) (type : ds_type_e) (room_for : Z).
Context (Hstart : is_bytes start.(cu_rest)) (Hrs : holds start rs).
Context (Hsuits : forall r, r ∈ rs -> suits head type r) (Hroom : zlen (adds_of rs) <= room_for).

Abbreviation step := (snapshot_step memn2cmp crc32_long rebalance rb_delete rb_min rb_next now now_ms head start gen).
Abbreviation iter := (snapshot_iter memn2cmp crc32_long rebalance rb_delete rb_min rb_next now now_ms).

Definition covered (m : gmap bytes entry) : Prop :=
  forall k, is_Some (m !! k) -> exists r, r ∈ rs /\ valid r = true /\ rec_key r = k.

Record lone (ph : snapshot_phase) (s : ds_slot) : Prop := {
  ln_snap : snap_inv (memn2cmp := memn2cmp) crc32_long head gen rs [] ph s;
  ln_type : s.(sl_type) = type;
  ln_cap : cap s = room_for;
  ln_phase : match ph with
             | SnapMark _ | SnapSweep _ _ => s.(sl_mem) = []
             | SnapPut cur _ => exists done_ todo m0, rs = done_ ++ todo /\ is_bytes cur.(cu_rest) /\ holds cur todo /\
                 room rs s /\ entries s = foldl (snap_put head.(ph_key) gen) m0 done_ /\ covered m0
             | SnapEnd _ | SnapDone _ => entries s = snapshot_map head.(ph_key) gen rs
             end
}.

Definition overlay_size (s : ds_slot) : nat :=
  match s.(sl_live) with Some lv => length (inorder lv.(lv_tree)) | None => O end.
(** Regions under the lock that are left, at most. *)
Definition regions (ph : snapshot_phase) (s : ds_slot) : nat :=
  let l := length start.(cu_rest) in
  match ph with
  | SnapMark cur => length cur.(cu_rest) + overlay_size s + l + 5
  | SnapSweep cursor _ => match s.(sl_live) with Some lv => sweep_left cursor lv | None => O end + l + 4
  | SnapPut cur _ => length cur.(cu_rest) + 2
  | SnapEnd _ => 1
  | SnapDone _ => O
  end.

Lemma batch_pos : (0 < NGX_HTTP_WAF_DS_BATCH)%nat.
Proof. unfold NGX_HTTP_WAF_DS_BATCH. lia. Qed.

Lemma mark_batch_size k g cur s : overlay_size (snd (mark_batch memn2cmp crc32_long k g cur s)) = overlay_size s.
Proof.
  revert cur s. induction k as [|k IH]; intros cur s; cbn; [done|].
  destruct (ngx_http_waf_ds_pack_next cur) as [r cur'| |]; [|done|done]. rewrite IH. destruct (_ =? _); [|done].
  unfold overlay_size, ngx_http_waf_ds_live_mark. destruct (sl_live s) as [lv|] eqn:E; [|by rewrite E].
  destruct (_ =? 0); [by rewrite E|]. destruct (ngx_http_waf_ds_live_lookup _ _ _ _); [done|by rewrite E].
Qed.

(** Every entry of the generation is one the snapshot writes again. *)
Lemma covered_entries s :
  inv s -> s.(sl_type) = type -> (forall k, is_Some (entries s !! k) -> k ∈ adds_of rs) -> covered (entries s).
Proof.
  intros Hi Ht Hk k He. pose proof (Hk k He) as (r & -> & [Ha Hr]%list_elem_of_filter)%list_elem_of_fmap.
  exists r. split_and!; [done| |done]. unfold valid. rewrite Ha. cbn [andb]. destruct He as [e He].
  destruct Hi as [_ Hi]. unfold entries in He. destruct (sl_live s) as [lv|]; [|done]. destruct Hi as [_ Hg].
  apply overlay_lookup in He as (n & Hn & Hd & _); [|apply Hg]. pose proof (g_keys _ _ _ _ _ _ Hg) as Hks.
  rewrite Forall_forall in Hks. destruct (Hks n Hn) as [_ (_ & Hz & _)]. rewrite Hd in Hz. lia.
Qed.

Lemma start_records : of_records rs start.
Proof. split; [done|]. exists rs. by split. Qed.

Lemma lone_snap ph s :
  lone ph s -> snap_inv (memn2cmp := memn2cmp) crc32_long head gen rs [] (fst (step ph s)) (snd (step ph s)).
Proof. intros [Hsn _ _ _]. apply snap_inv_step; [apply start_records|done]. Qed.

Definition advances (ph : snapshot_phase) (s : ds_slot) : Prop :=
  lone (fst (step ph s)) (snd (step ph s)) /\ Nat.lt (regions (fst (step ph s)) (snd (step ph s))) (regions ph s).

Lemma lone_mark cur s : lone (SnapMark cur) s -> advances (SnapMark cur) s.
Proof.
  intros Hlo. pose proof (lone_snap _ _ Hlo) as Hsn'. unfold advances. destruct Hlo as [[Hi Hl Hg Ho Hb Hph] Ht Hc Hp]. revert Hsn'.
  destruct Hph as (Hby & todo & Hh & Hsub). cbn [snapshot_step]. pose proof batch_pos as Hk.
  generalize NGX_HTTP_WAF_DS_BATCH Hk. clear Hk. intros k Hk.
  pose proof (mark_batch_spec (rebalance := rebalance) (rb_delete := rb_delete) crc32_long k gen cur todo s Hi Hby Hh) as H.
  pose proof (mark_batch_mem k gen cur s) as Hmem. pose proof (mark_batch_size k gen cur s) as Hsz.
  destruct (mark_batch _ _ _ _ _ _) as [[more cur'] s']. cbn [snd fst] in *. destruct H as (H1 & H2 & H3 & H4 & H5 & H6).
  destruct (frame_fields _ _ H2) as (Ft & Fm & _). intros Hsn'. split.
  - constructor; [done|congruence|by rewrite (cap_frame _ _ H2)|]. destruct more; congruence.
  - destruct H6 as [(-> & J1 & J2 & J3)| ->]; cbn [regions].
    + rewrite Hsz. lia.
    + unfold overlay_size in Hsz |- *. destruct (H4 Hl) as [lv' Hlv']. rewrite Hlv' in *. cbn [sweep_left]. lia.
Qed.

Lemma lone_sweep cursor swept s : lone (SnapSweep cursor swept) s -> advances (SnapSweep cursor swept) s.
Proof.
  intros Hlo. pose proof (lone_snap _ _ Hlo) as Hsn'. unfold advances. destruct Hlo as [[Hi Hl Hg Ho Hb Hph] Ht Hc Hp]. revert Hsn'.
  destruct Hph as (lv & Hlv & Hsw). cbn [snapshot_step]. pose proof batch_pos as Hk.
  generalize NGX_HTTP_WAF_DS_BATCH Hk. clear Hk. intros n Hk.
  pose proof (sweep_spec (rebalance := rebalance) crc32_long gen n cursor swept s lv Hi Hlv Hsw Hk) as H.
  pose proof (sweep_mem gen n cursor swept s) as Hmem.
  destruct (ngx_http_waf_ds_live_sweep _ _ _ _ _ _ _ s) as [[[rc cursor'] swept'] s']. cbn [fst snd] in *.
  destruct H as (H1 & H2 & [K1 K2] & lv' & H4 & H5 & H6). destruct (frame_fields _ _ H2) as (Ft & Fm & _).
  destruct H6 as [[-> H6]|(-> & _ & _ & H6)];
    [rewrite bool_decide_false by done|rewrite bool_decide_true by done]; intros Hsn'.
  - split; [|cbn [regions]; lia]. constructor; [done|congruence|by rewrite (cap_frame _ _ H2)|].
    assert (Hkeys : forall k, is_Some (entries s' !! k) -> k ∈ adds_of rs).
    { intros k [e He]. destruct (sn_only _ _ _ _ _ _ _ Hsn' k e He (H6 k e He)) as [?|Hno]; [done|].
      by apply elem_of_nil in Hno. }
    exists [], rs, (entries s'). split; [done|]. split; [done|]. split; [done|]. split; [|split; [done|]].
    + split; [apply Hsn'|]. split; [congruence|]. split; [rewrite (cap_frame _ _ H2); lia|done].
    + apply covered_entries; [done|congruence|done].
  - split; [|cbn [regions]; rewrite H4, Hlv; lia].
    constructor; [done|congruence|by rewrite (cap_frame _ _ H2)|congruence].
Qed.

Lemma lone_put cur lost s : lone (SnapPut cur lost) s -> advances (SnapPut cur lost) s.
Proof.
  intros Hlo. pose proof (lone_snap _ _ Hlo) as Hsn'. unfold advances. destruct Hlo as [[Hi Hl Hg Ho Hb Hph] Ht Hc Hp]. revert Hsn'.
  destruct Hp as (dn & todo & m0 & Ers & Hby & Hh & Hrm & He & Hcov). cbn [snapshot_step]. pose proof batch_pos as Hk.
  generalize NGX_HTTP_WAF_DS_BATCH Hk. clear Hk. intros n Hk.
  assert (Hall : forall r, r ∈ todo -> r ∈ rs /\ suits head (sl_type s) r).
  { intros r Hr. assert (r ∈ rs) by (rewrite Ers; apply elem_of_app; by right). split; [done|]. rewrite Ht. by apply Hsuits. }
  pose proof (put_batch_spec (rebalance := rebalance) (rb_delete := rb_delete) crc32_long now now_ms n (ph_key head) gen cur todo lost s Hi Hby Hh) as H.
  pose proof (put_batch_alone head rs n gen cur todo lost s Hi Hrm Hby Hh Hall) as Ha.
  pose proof (put_batch_more n (ph_key head) gen cur todo lost s Hh) as Hmore.
  destruct (put_batch _ _ _ _ _ _ _ _ _ _ _) as [[[more cur'] lost'] s']. cbn [fst snd] in *.
  destruct H as (H1 & H2 & H3 & H4 & H5 & H6). destruct Ha as [A1 A2]. destruct (frame_fields _ _ H2) as (Ft & Fm & _).
  destruct H6 as [(-> & J1 & J2 & J3)| ->]; intros Hsn'.
  - split; [|cbn [regions]; lia]. constructor; [done|congruence|by rewrite (cap_frame _ _ H2)|].
    exists (dn ++ take n todo), (drop n todo), m0. rewrite <- app_assoc, take_drop, foldl_app, A2, He. by split_and!.
  - split; [|cbn [regions]; lia]. constructor; [done|congruence|by rewrite (cap_frame _ _ H2)|].
    rewrite A2, He, (firstn_all2 todo) by (specialize (Hmore eq_refl); lia). rewrite <- foldl_app, <- Ers. by apply snap_fold_exact.
Qed.

Lemma lone_end lost s : lone (SnapEnd lost) s -> advances (SnapEnd lost) s.
Proof.
  intros Hlo. pose proof (lone_snap _ _ Hlo) as Hsn'. unfold advances. destruct Hlo as [_ Ht Hc Hp].
  split; [|cbn; lia]. by constructor.
Qed.

Lemma lone_step ph s : lone ph s -> (forall res, ph <> SnapDone res) -> advances ph s.
Proof.
  intros Hlo Hnd. destruct ph as [cur|cursor swept|cur lost|lost|res];
    [by apply lone_mark|by apply lone_sweep|by apply lone_put|by apply lone_end|by destruct (Hnd res)].
Qed.

Lemma snap_iter_step fuel ph s :
  (forall res, ph <> SnapDone res) ->
  iter (S fuel) head start gen ph s = iter fuel head start gen (fst (step ph s)) (snd (step ph s)).
Proof. intros Hnd. destruct ph; cbn [snapshot_iter]; try (by destruct (step _ s)). by destruct (Hnd res). Qed.

Lemma lone_iter fuel ph s :
  lone ph s -> Nat.le (regions ph s) fuel ->
  exists res s', iter fuel head start gen ph s = (Some res, s') /\ lone (SnapDone res) s'.
Proof.
  revert ph s. induction fuel as [|fuel IH]; intros ph s Hlo Hf.
  - destruct ph; cbn [regions] in Hf; try lia. by exists res, s.
  - assert (Hgo : (forall res, ph <> SnapDone res) ->
      exists res s', iter (S fuel) head start gen ph s = (Some res, s') /\ lone (SnapDone res) s').
    { intros Hnd. rewrite snap_iter_step by done. destruct (lone_step ph s Hlo Hnd) as [Hs Hr]. apply IH; [done|lia]. }
    destruct ph as [cur|cursor swept|cur lost|lost|res]; try (by apply Hgo). by exists res, s.
Qed.

End phases.

(** ** A whole load *)

Lemma start_mem conf data s : s.(sl_mem) = [] -> sl_mem (snd (snapshot_start conf data s)) = [].
Proof.
  intros Hm. unfold snapshot_start. destruct conf; [|done]. destruct (ngx_http_waf_ds_pack_head data) as [[? ?]|]; [|done].
  destruct (negb _); [done|]. destruct (negb _); [done|]. destruct (pack_scan _) as [[? ?] ?]. destruct (negb _); [done|].
  destruct (_ || _); [done|]. destruct (sl_syncing s); [done|]. destruct (_ && _ && _); [done|].
  unfold ngx_http_waf_ds_live_begin, ngx_http_waf_ds_live_ensure, slab. rewrite Hm. cbn [alloc].
  destruct (sl_live s); cbn zeta; destruct (_ =? 0); first [exact Hm|reflexivity].
Qed.

Lemma admitted_suits conf data s head start rs :
  is_bytes data -> admitted conf data s head start rs ->
  (forall ds, conf = Some ds -> ds.(dc_type) = s.(sl_type)) ->
  (forall k, k ∈ adds_of rs -> ngx_http_waf_ds_siphash head.(ph_key) k <> 0) ->
  forall r, r ∈ rs -> suits head s.(sl_type) r.
Proof.
  intros Hb [Hh Hr _ (ds & Hc & Hm & _) _ _] Ht Hk r Hin. destruct (pack_head_bytes _ _ _ Hh Hb) as (B1 & _ & B3).
  destruct (holds_keys _ _ Hr B1 r Hin) as [K1 K2]. split; [done|]. unfold valid. intros [[Ha H1]%andb_true_iff H2]%andb_true_iff.
  split; [|by apply Hk, add_in]. rewrite <- (Ht ds Hc). revert Hm. unfold ngx_http_waf_ds_type_matches.
  destruct (bool_decide_reflect (dc_type ds = DS_CIDR)) as [->|Hn].
  - intros Hm. apply K2. lia.
  - intros _. split; [done|]. split; [lia|]. unfold ngx_http_waf_ds_live_bits. by rewrite bool_decide_false.
Qed.

(** C8: A snapshot that one worker loads undisturbed, with memory for it,
    comes to an end, and what it leaves is the snapshot: when it is let in the
    overlay holds exactly the keys its records add, each with the expiry and
    the checksum of its last record, and the slot has the snapshot's epoch,
    sequence number and key; when it is refused (malformed, of another type,
    too long, an earlier one, or another worker is loading) the entries and
    the rest of the slot are as they were. *)
Theorem snapshot_exact conf data s :
  inv s -> settled s -> is_bytes data -> s.(sl_mem) = [] ->
  (forall ds, conf = Some ds -> ds.(dc_type) = s.(sl_type)) ->
  (forall head start rs k, ngx_http_waf_ds_pack_head data = Some (head, start) -> holds start rs ->
     k ∈ adds_of rs -> ngx_http_waf_ds_siphash head.(ph_key) k <> 0) ->
  exists res s',
    ngx_http_waf_dataset_apply_snapshot memn2cmp crc32_long rebalance rb_delete rb_min rb_next now now_ms conf data s
      = (Some res, s') /\ inv s' /\
    match res with
    | DS_APPLIED | DS_DIVERGED =>
        exists head start rs, admitted conf data s head start rs /\ settled s' /\
          entries s' = snapshot_map head.(ph_key) (ngx_http_waf_ds_live_gen s') rs /\
          s'.(sl_epoch) = head.(ph_epoch) /\ s'.(sl_seq) = head.(ph_seq) /\ s'.(sl_key) = head.(ph_key) /\
          s'.(sl_syncing) = false /\ (res = DS_APPLIED <-> checksum (entries s') = head.(ph_hash))
    | _ => entries s' = entries s /\ frame s s'
    end.
Proof.
  intros Hi Hset Hb Hm Ht Hk. pose proof (snapshot_start_spec (memn2cmp := memn2cmp) crc32_long conf data s Hi Hset Hb) as H.
  pose proof (start_mem conf data s Hm) as Hm0. unfold ngx_http_waf_dataset_apply_snapshot.
  destruct (snapshot_start conf data s) as [[ph [[[head start] gen]|]] s0].
  2:{ destruct ph as [| | | |res]; try done. destruct H as (Hr & H1 & H2 & H3). exists res, s0. split; [done|]. split; [done|].
      destruct Hr as [->|[->|[->| ->]]]; by split. }
  destruct ph as [cur| | | |]; try done. destruct H as (-> & rs & Had & Hof & Hsn & He & Hf & Hgen). cbn [snd] in Hm0.
  destruct (frame_fields _ _ Hf) as (Ft & Fm & _). cbn [sl_type sl_live_max upd] in Ft, Fm.
  pose proof Had as [Hh Hr _ (ds & Hc & _ & Hmax) _ _]. destruct (pack_head_bytes _ _ _ Hh Hb) as (B1 & B2 & _).
  pose proof (admitted_suits conf data s head start rs Hb Had Ht (fun k Hin => Hk head start rs k Hh Hr Hin)) as Hsu.
  destruct (lone_iter head start gen rs (sl_type s) (cap s) B1 Hr Hsu ltac:(lia)
    (2 * length data + match sl_live s0 with Some lv => length (inorder (lv_tree lv)) | None => O end + 5)%nat
    (SnapMark start) s0) as (res & s' & Hit & Hlo).
  - constructor; [done|done| |done]. unfold cap. by rewrite Fm.
  - cbn [regions]. unfold overlay_size. lia.
  - exists res, s'. split; [exact Hit|]. destruct Hlo as [[S1 S2 S3 S4 S5 (S6 & S7 & S8 & S9 & S10 & S11 & S12)] L1 L2 L3].
    split; [done|]. cbn in L3. rewrite S3 in *. assert (Hse : settled s').
    { split; rewrite S3; done. }
    unfold verdict in S7. destruct (Z.eqb_spec (checksum (entries s')) (ph_hash head)); subst res;
      exists head, start, rs; split_and!; done.
Qed.

End alone.
End DsSnapFacts.
