(* ===== verification/DsWitness.v ===== *)
(** Packages and snapshots on concrete bytes: that the theorems on
    synchronisation apply, and what a ban does to a permanent entry. *)
From stdpp Require Import gmap sorting.
From S2P Require Import Prelude Types Rate RateFacts DsSet DsSetFacts DsLive DsLiveFacts DsPack DsPackFacts DsSnapFacts.
Import Rate RateFacts DsSet DsSetFacts DsLive DsLiveFacts DsPack DsPackFacts DsSnapFacts.
#[local] Open Scope Z_scope.

Module DsWitness.

(** The bytes of a package or snapshot of networks. *)
Definition le_bytes (n : nat) (z : Z) : bytes := (fun i => Z.land (Z.shiftr z (8 * Z.of_nat i)) 255) <$> seq 0 n.
Definition demo_key : bytes := seqZ 1 16.
Definition demo_record (op : Z) (key : bytes) (exp : Z) : bytes := op :: key ++ le_bytes 8 exp.
Definition demo_pack (kind epoch seq hash count : Z) (records : list bytes) : bytes :=
  lit "WAFS" ++ [1; kind; NGX_HTTP_WAF_PACK_CIDR; 0] ++ le_bytes 8 epoch ++ le_bytes 8 seq ++ le_bytes 8 hash ++
  demo_key ++ le_bytes 4 count ++ concat records.

Definition ten : bytes := [4; 8; 10; 0; 0; 0].
Definition doc : bytes := [4; 24; 192; 0; 2; 0].
Definition demo_hash : Z := Z.lxor (ngx_http_waf_ds_siphash demo_key ten) (ngx_http_waf_ds_siphash demo_key doc).
Definition demo_snapshot : bytes :=
  demo_pack NGX_HTTP_WAF_PACK_SNAPSHOT 7 3 demo_hash 2
    [demo_record NGX_HTTP_WAF_PACK_ADD ten 0; demo_record NGX_HTTP_WAF_PACK_ADD doc 5000].
(** It takes 10.0.0.0/8 away again. *)
Definition demo_package : bytes :=
  demo_pack NGX_HTTP_WAF_PACK_PACKAGE 7 4 (ngx_http_waf_ds_siphash demo_key doc) 1
    [demo_record NGX_HTTP_WAF_PACK_REMOVE ten 0].
Definition demo_conf : option ds_conf := Some (mkDsConf DS_CIDR 50).

Abbreviation apply_snapshot :=
  (ngx_http_waf_dataset_apply_snapshot lex zlen id plain_delete plain_min plain_next 1000 4000 demo_conf).
Abbreviation apply_package := (ngx_http_waf_dataset_apply_package lex zlen id plain_delete 1000 4000 demo_conf).
Definition demo_synced : ds_slot := snd (apply_snapshot demo_snapshot demo_live).

Example demo_run_ok :
  fst (apply_snapshot demo_snapshot demo_live) = Some DS_APPLIED /\
  fst (apply_package demo_package demo_synced) = Some DS_APPLIED /\
  fst (apply_package demo_package (snd (apply_package demo_package demo_synced))) = Some DS_STALE.
Proof. vm_compute. done. Qed.

(** ** The theorems at these bytes *)

Ltac all_bytes := unfold is_bytes; repeat (apply Forall_cons_2; [unfold is_u8; first [done|lia]|]); apply Forall_nil_2.

Lemma le_bytes_bytes n z : is_bytes (le_bytes n z).
Proof.
  apply Forall_fmap, Forall_forall. intros i _. unfold is_u8. cbn.
  change 255 with (Z.ones 8). rewrite Z.land_ones by lia. apply Z.mod_pos_bound. lia.
Qed.
Lemma demo_pack_bytes kind epoch seq hash count records :
  is_u8 kind -> Forall is_bytes records -> is_bytes (demo_pack kind epoch seq hash count records).
Proof.
  intros Hk Hr. unfold demo_pack, is_bytes in *. rewrite !Forall_app. split_and!; try apply le_bytes_bytes.
  - change (is_bytes [87; 65; 70; 83]). all_bytes.
  - all_bytes.
  - change (is_bytes [1; 2; 3; 4; 5; 6; 7; 8; 9; 10; 11; 12; 13; 14; 15; 16]). all_bytes.
  - by apply Forall_concat.
Qed.
Lemma demo_record_bytes op key exp : is_u8 op -> is_bytes key -> is_bytes (demo_record op key exp).
Proof. intros H1 H2. constructor; [done|]. apply Forall_app. split; [done|apply le_bytes_bytes]. Qed.
Lemma demo_snapshot_bytes : is_bytes demo_snapshot.
Proof. apply demo_pack_bytes; [done|]. repeat (apply Forall_cons_2; [apply demo_record_bytes; [done|all_bytes]|]); apply Forall_nil_2. Qed.
Lemma demo_package_bytes : is_bytes demo_package.
Proof. apply demo_pack_bytes; [done|]. repeat (apply Forall_cons_2; [apply demo_record_bytes; [done|all_bytes]|]); apply Forall_nil_2. Qed.

Lemma demo_live_settled : settled demo_live.
Proof.
  split; [vm_compute; done|]. change (map_Forall (fun (_ : bytes) e => e.(e_gen) = ngx_http_waf_ds_live_gen demo_live) (entries demo_live)).
  refine (bool_decide_eq_true_1 _ _). vm_compute. reflexivity.
Qed.

Lemma holds_det cur rs1 rs2 : holds cur rs1 -> holds cur rs2 -> rs1 = rs2.
Proof.
  intros H. revert rs2. induction H as [cur E|cur r cur' rs E H IH]; intros rs2 H2; apply holds_inv in H2; destruct rs2 as [|r2 rs2].
  - done.
  - destruct H2 as (c & E2 & _). congruence.
  - congruence.
  - destruct H2 as (c & E2 & H2). rewrite E in E2. injection E2 as <- <-. f_equal. by apply IH.
Qed.

Definition demo_start : cursor_t := mkCursor (drop 52 demo_snapshot) NGX_HTTP_WAF_PACK_CIDR 0.
Lemma demo_holds : holds demo_start [mkRecord NGX_HTTP_WAF_PACK_ADD ten 0; mkRecord NGX_HTTP_WAF_PACK_ADD doc 5000].
Proof. eapply holds_next; [vm_compute; reflexivity|]. eapply holds_next; [vm_compute; reflexivity|]. by apply holds_done. Qed.

Lemma snapshot_exact_witness :
  exists s', apply_snapshot demo_snapshot demo_live = (Some DS_APPLIED, s') /\ s'.(sl_epoch) = 7 /\ s'.(sl_seq) = 3 /\
    checksum (entries s') = demo_hash.
Proof.
  destruct (snapshot_exact (rebalance := id) (rb_delete := plain_delete) (rb_min := plain_min) (rb_next := plain_next)
    zlen 1000 4000 demo_conf demo_snapshot demo_live demo_live_inv demo_live_settled demo_snapshot_bytes
    eq_refl) as (res & s' & E & Hi & H).
  - by intros ds [= <-].
  - intros head start rs k Hh Hr Hk. assert (E : ngx_http_waf_ds_pack_head demo_snapshot =
      Some (mkPack NGX_HTTP_WAF_PACK_SNAPSHOT NGX_HTTP_WAF_PACK_CIDR 0 7 3 demo_hash demo_key 2, demo_start)) by (vm_compute; reflexivity).
    rewrite E in Hh. injection Hh as <- <-. rewrite (holds_det _ _ _ Hr demo_holds) in Hk.
    change (k ∈ [ten; doc]) in Hk. rewrite elem_of_cons, list_elem_of_singleton in Hk. destruct Hk as [-> | ->]; vm_compute; done.
  - exists s'. assert (Er : fst (apply_snapshot demo_snapshot demo_live) = Some DS_APPLIED) by (vm_compute; reflexivity).
    rewrite E in Er. cbn [fst] in Er. injection Er as ->. split; [done|].
    destruct H as (head & start & rs & [Hh _ _ _ _ _] & _ & _ & H1 & H2 & _ & _ & H3).
    assert (Eh : ngx_http_waf_ds_pack_head demo_snapshot =
      Some (mkPack NGX_HTTP_WAF_PACK_SNAPSHOT NGX_HTTP_WAF_PACK_CIDR 0 7 3 demo_hash demo_key 2, demo_start)) by (vm_compute; reflexivity).
    rewrite Eh in Hh. injection Hh as <- <-. split; [done|]. split; [done|]. by apply H3.
Defined.

(** 10.0.0.0/8 and 10.1.0.0/16 at sequence number 3. *)
Definition at3 (s : ds_slot) : ds_slot := s <| sl_epoch := 7 |> <| sl_seq := 3 |> <| sl_key := demo_key |>.
Lemma at3_inv s : demo_inv s -> demo_inv (at3 s).
Proof. intros Hs. by apply (inv_fields (memn2cmp := lex) zlen s). Qed.
Lemma at3_settled s : settled s -> settled (at3 s).
Proof. intros [H1 H2]. split; [exact H1|exact H2]. Qed.
Abbreviation demo_at3 := (at3 demo_live).


(** The snapshot loaded while another worker bans 203.0.113.0/24: one region
    marks, one sweeps, one puts and one ends. *)
Definition demo_ban : bytes := [4; 24; 203; 0; 113; 0].
Abbreviation demo_begun := (snapshot_start demo_conf demo_snapshot demo_live).
Definition demo_head : pack_t := mkPack NGX_HTTP_WAF_PACK_SNAPSHOT NGX_HTTP_WAF_PACK_CIDR 0 7 3 demo_hash demo_key 2.
Section schedule.
Context (head : pack_t) (start : cursor_t) (gen : Z) (key : bytes) (expires : Z).

Abbreviation step := (snapshot_step lex zlen id plain_delete plain_min plain_next 1000 4000 head start gen).
Definition marked (s : ds_slot) := step (SnapMark start) s.
Definition banned (s : ds_slot) := ban (memn2cmp := lex) (rebalance := id) zlen key expires (snd (marked s)).
Definition swept (s : ds_slot) := step (fst (marked s)) (snd (banned s)).
Definition filled (s : ds_slot) := step (fst (swept s)) (snd (swept s)).
Definition ended (s : ds_slot) := step (fst (filled s)) (snd (filled s)).

Lemma ended_run s :
  (forall res, fst (marked s) <> SnapDone res) -> is_bytes key ->
  snap_run (memn2cmp := lex) (rebalance := id) (rb_delete := plain_delete) (rb_min := plain_min)
    (rb_next := plain_next) zlen 1000 4000 head start gen (SnapMark start) s [(key, fst (banned s))] (fst (ended s)) (snd (ended s)).
Proof.
  intros Hn Hk. unfold ended. apply run_step. unfold filled. apply run_step. unfold swept. apply run_step.
  unfold banned. apply run_ban; [|done|done]. unfold marked. apply run_step. apply run_here.
Qed.

End schedule.

Abbreviation demo_marked := (marked demo_head demo_start 2 (snd demo_begun)).
Abbreviation demo_banned := (banned demo_head demo_start 2 demo_ban 9000 (snd demo_begun)).
Abbreviation demo_ended := (ended demo_head demo_start 2 demo_ban 9000 (snd demo_begun)).

Lemma demo_ban_bytes : is_bytes demo_ban.
Proof. unfold demo_ban. all_bytes. Qed.

Lemma snapshot_replaces_witness :
  is_Some (entries (snd demo_ended) !! demo_ban) /\ sl_snap_bad (snd demo_ended) = false /\
  ngx_http_waf_ds_live_hit lex zlen 400 [4; 16; 10; 1; 0; 0] (snd demo_ended) = false.
Proof.
  assert (Hst : demo_begun = (SnapMark demo_start, Some (demo_head, demo_start, 2), snd demo_begun)) by (vm_compute; reflexivity).
  pose proof (ended_run demo_head demo_start 2 demo_ban 9000 (snd demo_begun)) as Hrun.
  assert (Hb : fst demo_banned = true) by (vm_compute; reflexivity).
  assert (Hm : fst demo_marked = SnapSweep None 0) by (vm_compute; reflexivity).
  assert (He : fst demo_ended = SnapDone DS_APPLIED) by (vm_compute; reflexivity).
  rewrite Hb, He, Hm in Hrun.
  pose proof (snapshot_replaces (rebalance := id) (rb_delete := plain_delete) (rb_min := plain_min) (rb_next := plain_next)
    zlen 1000 4000 demo_conf demo_snapshot demo_live demo_head demo_start 2 (snd demo_begun) [(demo_ban, true)] DS_APPLIED
    (snd demo_ended) demo_live_inv demo_live_settled demo_snapshot_bytes Hst) as H.
  specialize (H (Hrun (fun res => ltac:(discriminate)) demo_ban_bytes)).
  destruct H as (_ & _ & _ & H1 & _ & _ & _ & _ & H2).
  split_and!; [apply H1; by left| |vm_compute; reflexivity]. destruct H2 as [(_ & _ & H2)|(H2 & _)]; [exact H2|done].
Defined.

(** ** A ban makes a permanent entry temporary *)

(** A ban of a key that is in the overlay for good is taken, gives the entry
    its own expiry, and leaves the checksum as it is, so that no tick tells:
    once the ban has expired the key is no longer found. *)
Theorem ban_shortens_permanent {memn2cmp : bytes -> bytes -> Z} {rebalance : tree -> tree} {rb_delete : tree -> Z -> tree}
    `{!RbTree memn2cmp rebalance rb_delete} crc32_long key e expires gen now s :
  slot_inv (memn2cmp := memn2cmp) crc32_long s -> is_bytes key ->
  entries s !! key = Some e -> e.(e_expires) = 0 -> expires <> 0 -> msec_diff expires now < 0 ->
  let '(rc, s') := ngx_http_waf_ds_live_put memn2cmp crc32_long rebalance key expires 0 gen s in
  ngx_http_waf_ds_live_hit memn2cmp crc32_long now key s = true /\
  ngx_http_waf_ds_live_hit memn2cmp crc32_long now key s' = false /\ s'.(sl_live_hash) = s.(sl_live_hash).
Proof.
  intros Hi Hb He H0 Hx Hd.
  pose proof (put_spec (rebalance := rebalance) (rb_delete := rb_delete) crc32_long key expires 0 gen s Hi Hb) as Hp.
  destruct (ngx_http_waf_ds_live_put _ _ _ _ _ _ _ s) as [rc s']. destruct Hp as (H1 & _ & _ & H2).
  assert (Hok : key_ok (sl_type s) key).
  { destruct Hi as [_ Hi]. unfold entries in He. destruct (sl_live s) as [lv|]; [|done]. destruct Hi as [_ Hg].
    apply overlay_lookup in He as (n & Hn & Hdat & _); [|apply Hg]. pose proof (g_keys _ _ _ _ _ _ Hg) as Hks.
    rewrite Forall_forall in Hks. destruct (Hks n Hn) as [_ Hk]. by rewrite Hdat in Hk. }
  assert (Hm : entries s' = <[key := mkEntry gen expires e.(e_h)]> (entries s)).
  { destruct rc; [| |destruct H2 as (_ & Hn & _); congruence|destruct H2 as (_ & [Hn|Hn]); [done|congruence]];
      destruct H2 as [_ ->]; rewrite He; unfold merge; cbn [Z.eqb negb];
      rewrite H0, (proj2 (Z.eqb_neq expires 0)) by done; done. }
  split_and!.
  - apply (hit_spec (memn2cmp := memn2cmp) (rebalance := rebalance) (rb_delete := rb_delete)); [done|]. exists e. split; [done|].
    unfold live_entry. by rewrite H0.
  - apply not_true_iff_false. intros Hh. apply (hit_spec (memn2cmp := memn2cmp) (rebalance := rebalance) (rb_delete := rb_delete)) in Hh; [|done].
    destruct Hh as (e' & He' & Hl). rewrite Hm, lookup_insert_eq in He'. injection He' as <-. unfold live_entry in Hl. cbn in Hl. lia.
  - rewrite (slot_checksum (memn2cmp := memn2cmp) crc32_long s' H1), (slot_checksum (memn2cmp := memn2cmp) crc32_long s Hi), Hm.
    rewrite <- (insert_delete_eq (entries s) key (mkEntry _ _ _)). rewrite <- (insert_delete_id (entries s) key e He) at 2.
    rewrite !checksum_insert by apply lookup_delete_eq. done.
Qed.

Lemma ban_shortens_permanent_witness :
  ngx_http_waf_ds_live_hit lex zlen 5000 ten demo_live = true /\
  ngx_http_waf_ds_live_hit lex zlen 5000 ten (snd (ngx_http_waf_ds_live_put lex zlen id ten 4000 0 1 demo_live)) = false.
Proof.
  pose proof (ban_shortens_permanent (rebalance := id) (rb_delete := plain_delete) zlen ten (mkEntry 1 0 77) 4000 1 5000 demo_live
    demo_live_inv ltac:(all_bytes) ltac:(vm_compute; reflexivity) eq_refl ltac:(done) ltac:(vm_compute; reflexivity)) as H.
  destruct (ngx_http_waf_ds_live_put _ _ _ _ _ _ _ demo_live) as [rc s']. split; apply H.
Defined.

End DsWitness.
