(* ===== verification/DsPublish.v ===== *)
(** The published set of a dataset and its readers, from
    local/ngx_http_waf_dataset.c: [ngx_http_waf_ds_publish],
    [ngx_http_waf_ds_acquire], [ngx_http_waf_ds_release].

    Requests of any worker read the set without a lock; a reload swaps it
    under the mutex of the zone and frees the old one when it can.  The model
    has one step for each access to the memory the processes share
    ([readers], [set] and the frees) and lets any number of readers run in
    between; accesses happen in the order of the program, as the barriers of
    the code make them.  [retired] is the publisher's alone, so the loop over
    it before the readers are looked at is one step. *)
From stdpp Require Import gmap relations.
From S2P Require Import Prelude Types.
#[local] Open Scope Z_scope.

Module DsPublish.

Definition NGX_HTTP_WAF_DS_RETIRED : nat := 4.
Definition NGX_HTTP_WAF_DS_READERS_SPIN : Z := 4096.

(** The slot, the sets that are allocated, and those the log reports as
    leaked. *)
Record pub := mkPub {
  ps_set : option Z;
  ps_retired : list (option Z);
  ps_readers : Z;
  ps_heap : gset Z;
  ps_leaked : list Z
}.
#[export] Instance eta_pub : Eta pub :=
  fun r => mkPub r.(ps_set) r.(ps_retired) r.(ps_readers) r.(ps_heap) r.(ps_leaked).

(** ** Readers *)

(** [RLoaded (Some a)]: from the load of the set up to the release, with the
    lookup in between. *)
Inductive reader := RIdle | RCounted | RLoaded (set : option Z).

Definition ngx_http_waf_ds_acquire (r : reader) (p : pub) : reader * pub :=
  match r with
  | RIdle => (RCounted, p <| ps_readers ::= fun n => u64 (n + 1) |>)
  | RCounted => (RLoaded p.(ps_set), p)
  | RLoaded None => (RIdle, p <| ps_readers ::= fun n => u64 (n - 1) |>)
  | RLoaded (Some a) => (r, p)
  end.

Definition ngx_http_waf_ds_release (p : pub) : reader * pub :=
  (RIdle, p <| ps_readers ::= fun n => u64 (n - 1) |>).

Definition reader_step (r : reader) (p : pub) : reader * pub :=
  match r with
  | RLoaded (Some a) => ngx_http_waf_ds_release p
  | _ => ngx_http_waf_ds_acquire r p
  end.

(** ** The publisher *)

Inductive writer :=
  | WIdle
  | WSwapped (old : option Z)
  | WSpin (old : option Z) (n : Z)
  | WCheck (old : option Z)
  | WFree (old : option Z)
  | WSweep (i : nat).

(** The first free place takes the set; what is left of it otherwise. *)
Fixpoint retire (a : Z) (retired : list (option Z)) : option Z * list (option Z) :=
  match retired with
  | [] => (Some a, [])
  | None :: l => (None, Some a :: l)
  | Some b :: l => let '(old, l) := retire a l in (old, Some b :: l)
  end.

Definition publish_start (set : option Z) (p : pub) : writer * pub :=
  let old := p.(ps_set) in
  if bool_decide (old = set) then (WIdle, p) else (WSwapped old, p <| ps_set := set |>).

Definition free_set (set : option Z) (heap : gset Z) : gset Z :=
  match set with Some a => heap ∖ {[a]} | None => heap end.

Definition publish_step (w : writer) (p : pub) : writer * pub :=
  match w with
  | WIdle => (WIdle, p)
  | WSwapped None => (WSpin None 0, p)
  | WSwapped (Some a) =>
      let '(old, retired) := retire a p.(ps_retired) in (WSpin old 0, p <| ps_retired := retired |>)
  | WSpin old n =>
      if negb (p.(ps_readers) =? 0) && (n <? NGX_HTTP_WAF_DS_READERS_SPIN) then (WSpin old (n + 1), p)
      else (WCheck old, p)
  | WCheck old =>
      if negb (p.(ps_readers) =? 0) then (WIdle, p <| ps_leaked ::= app (option_list old) |>) else (WFree old, p)
  | WFree old => (WSweep 0, p <| ps_heap ::= free_set old |>)
  | WSweep i =>
      if (i <? NGX_HTTP_WAF_DS_RETIRED)%nat
      then (WSweep (S i), p <| ps_heap ::= free_set (mjoin (p.(ps_retired) !! i)) |>
                            <| ps_retired ::= insert i None |>)
      else (WIdle, p)
  end.

(** ** All processes *)

(** [wd_built]: sets that [ngx_http_waf_ds_build] allocated and nothing was
    done with yet. *)
Record world := mkWorld {
  wd_pub : pub;
  wd_readers : list reader;
  wd_writer : writer;
  wd_built : list Z
}.

Inductive step : world -> world -> Prop :=
  | step_reader p rs w built i r :
      rs !! i = Some r ->
      step (mkWorld p rs w built)
           (mkWorld (snd (reader_step r p)) (<[i := fst (reader_step r p)]> rs) w built)
  | step_writer p rs w built :
      step (mkWorld p rs w built) (mkWorld (snd (publish_step w p)) rs (fst (publish_step w p)) built)
  | step_publish_none p rs built :
      step (mkWorld p rs WIdle built)
           (mkWorld (snd (publish_start None p)) rs (fst (publish_start None p)) built)
  | step_publish p rs a built :
      step (mkWorld p rs WIdle (a :: built))
           (mkWorld (snd (publish_start (Some a) p)) rs (fst (publish_start (Some a) p)) built)
  | step_build p rs w built a :
      a ∉ p.(ps_heap) ->
      step (mkWorld p rs w built) (mkWorld (p <| ps_heap ::= union {[a]} |>) rs w (a :: built))
  | step_discard p rs w built a :
      step (mkWorld p rs w (a :: built)) (mkWorld (p <| ps_heap ::= free_set (Some a) |>) rs w built)
  | step_reorder p rs w built built' :
      built ≡ₚ built' -> step (mkWorld p rs w built) (mkWorld p rs w built').

Definition pub0 : pub := mkPub None (replicate NGX_HTTP_WAF_DS_RETIRED None) 0 ∅ [].
Definition world0 (n : nat) : world := mkWorld pub0 (replicate n RIdle) WIdle [].

(** ** The invariant *)

Definition pending (w : writer) : list Z :=
  match w with
  | WIdle | WSweep _ => []
  | WSwapped old | WSpin old _ | WCheck old | WFree old => option_list old
  end.
(** The sets a reader may have found published. *)
Definition held (p : pub) (w : writer) : list Z :=
  option_list p.(ps_set) ++ omap id p.(ps_retired) ++ pending w ++ p.(ps_leaked).
(** The sets the publisher has decided to free. *)
Definition doomed (p : pub) (w : writer) : list Z :=
  match w with
  | WFree old => option_list old ++ omap id p.(ps_retired)
  | WSweep _ => omap id p.(ps_retired)
  | _ => []
  end.

Definition busy (r : reader) : bool := match r with RIdle => false | _ => true end.
Fixpoint count (rs : list reader) : Z :=
  match rs with [] => 0 | r :: rs => Z.b2z (busy r) + count rs end.

Record world_inv (w : world) : Prop := {
  wi_heap : forall a, a ∈ w.(wd_pub).(ps_heap) <-> a ∈ held w.(wd_pub) w.(wd_writer) ++ w.(wd_built);
  wi_nodup : NoDup (held w.(wd_pub) w.(wd_writer) ++ w.(wd_built));
  wi_count : w.(wd_pub).(ps_readers) = count w.(wd_readers);
  wi_fits : zlen w.(wd_readers) < 2 ^ 64;
  wi_len : length w.(wd_pub).(ps_retired) = NGX_HTTP_WAF_DS_RETIRED;
  wi_loaded : forall i a, w.(wd_readers) !! i = Some (RLoaded (Some a)) ->
    a ∈ held w.(wd_pub) w.(wd_writer) /\ a ∉ doomed w.(wd_pub) w.(wd_writer)
}.

Lemma count_bounds rs : 0 <= count rs <= zlen rs.
Proof.
  induction rs as [|r rs IH]; [done|]. rewrite zlen_cons. cbn [count]. destruct (busy r); cbn [Z.b2z]; lia.
Qed.

Lemma count_insert rs i r r' :
  rs !! i = Some r -> count (<[i := r']> rs) = count rs - Z.b2z (busy r) + Z.b2z (busy r').
Proof.
  revert i. induction rs as [|x rs IH]; intros [|i] H; try done.
  - injection H as ->. cbn. lia.
  - change (count (x :: <[i := r']> rs) = count (x :: rs) - Z.b2z (busy r) + Z.b2z (busy r')). cbn [count].
    rewrite (IH i H). lia.
Qed.

Lemma count_zero rs i r : count rs = 0 -> rs !! i = Some r -> busy r = false.
Proof.
  revert i. induction rs as [|x rs IH]; intros [|i] H Hi; try done; cbn in *; pose proof (count_bounds rs).
  - injection Hi as ->. destruct (busy r); cbn in *; [lia|done].
  - apply (IH i); [|done]. destruct (busy x); cbn in *; lia.
Qed.

Lemma retire_perm a retired :
  option_list (fst (retire a retired)) ++ omap id (snd (retire a retired)) ≡ₚ a :: omap id retired.
Proof.
  induction retired as [|[b|] l IH]; [done| |done]. cbn. destruct (retire a l) as [old l']. cbn in *.
  rewrite (Permutation_swap b a), <- IH. symmetry. apply Permutation_middle.
Qed.

Lemma retire_length a retired : length (snd (retire a retired)) = length retired.
Proof. induction retired as [|[b|] l IH]; [done| |done]. cbn. destruct (retire a l) as [old l']. cbn in *. lia. Qed.

Lemma free_retired (retired : list (option Z)) i :
  omap id retired ≡ₚ option_list (mjoin (retired !! i)) ++ omap id (<[i := None]> retired).
Proof.
  revert i. induction retired as [|o l IH]; intros [|i]; try done.
  - cbn. by destruct o.
  - cbn. destruct o as [b|]; cbn; rewrite (IH i); [|done]. by rewrite Permutation_middle.
Qed.

Lemma elem_free_set a o heap : a ∈ free_set o heap <-> a ∈ heap /\ o <> Some a.
Proof. destruct o as [b|]; cbn; [|naive_solver]. rewrite elem_of_difference, elem_of_singleton. naive_solver. Qed.

Lemma elem_option_list (a : Z) (o : option Z) : a ∈ option_list o <-> o = Some a.
Proof. destruct o as [b|]; cbn; [|set_solver]. rewrite list_elem_of_singleton. naive_solver. Qed.

(** Freeing what is owned once. *)
Lemma heap_free heap o owned rest :
  (forall a, a ∈ heap <-> a ∈ owned) -> NoDup owned -> owned ≡ₚ option_list o ++ rest ->
  (forall a, a ∈ free_set o heap <-> a ∈ rest) /\ NoDup rest.
Proof.
  intros Hh Hn Hp. rewrite Hp in Hn. apply NoDup_app in Hn as (_ & Hd & Hn). split; [|done].
  intros a. rewrite elem_free_set, Hh, Hp, elem_of_app, elem_option_list. split; [naive_solver|].
  intros Ha. split; [by right|]. intros ->. apply (Hd a); [by left|done].
Qed.

(** ** Every step keeps it *)

Lemma inv_reader p rs w built i r :
  rs !! i = Some r -> world_inv (mkWorld p rs w built) ->
  world_inv (mkWorld (snd (reader_step r p)) (<[i := fst (reader_step r p)]> rs) w built).
Proof.
  intros Hr [Hh Hn Hc Hf Hlen Hl]. cbn in *.
  assert (Hp : exists n, snd (reader_step r p) = p <| ps_readers := n |> /\ n = count (<[i := fst (reader_step r p)]> rs)).
  { exists (ps_readers (snd (reader_step r p))). split; [destruct p, r as [| |[a|]]; reflexivity|].
    pose proof (count_bounds rs) as Hb. pose proof (count_bounds (<[i := fst (reader_step r p)]> rs)) as Hb'.
    revert Hb'. unfold zlen in *. rewrite length_insert, (count_insert rs i r) by done. rewrite <- Hc in *.
    destruct r as [| |[a|]]; cbn; intros Hb'; rewrite ?u64_small by (unfold is_u64; lia); lia. }
  destruct Hp as (n & -> & Hn'). constructor; cbn; try done.
  - unfold zlen in *. by rewrite length_insert.
  - intros j a [(-> & Ha & _)|[Hne Hj]]%list_lookup_insert_Some; [|by apply (Hl j)].
    destruct r as [| |[b|]]; cbn in Ha; try done. injection Ha as Ha.
    assert (Hs : a ∈ option_list (ps_set p)) by by apply elem_option_list.
    split; [unfold held; rewrite elem_of_app; by left|].
    intros Hd. revert Hn. unfold held. rewrite <- app_assoc. intros (_ & Hx & _)%NoDup_app. apply (Hx a Hs).
    rewrite !elem_of_app. destruct w; cbn in *; rewrite ?elem_of_app in *; set_solver.
Qed.

Lemma inv_same p rs w built p' w' built' :
  world_inv (mkWorld p rs w built) ->
  p'.(ps_heap) = p.(ps_heap) -> p'.(ps_readers) = p.(ps_readers) -> length p'.(ps_retired) = length p.(ps_retired) ->
  held p' w' ≡ₚ held p w -> built' ≡ₚ built ->
  (forall i a, rs !! i = Some (RLoaded (Some a)) -> a ∉ doomed p' w') ->
  world_inv (mkWorld p' rs w' built').
Proof.
  intros [Hh Hn Hc Hf Hlen Hl] E1 E2 E3 Hp Hb Hd. constructor; cbn in *; try congruence.
  - intros a. rewrite E1, Hh, Hp, Hb. done.
  - by rewrite Hp, Hb.
  - intros i a Hi. rewrite Hp. split; [by apply (Hl i)|by apply (Hd i)].
Qed.

Lemma inv_freed p rs w built o p' w' :
  world_inv (mkWorld p rs w built) ->
  p'.(ps_heap) = free_set o p.(ps_heap) -> p'.(ps_readers) = p.(ps_readers) -> length p'.(ps_retired) = length p.(ps_retired) ->
  held p w ≡ₚ option_list o ++ held p' w' ->
  (forall a, o = Some a -> a ∈ doomed p w) -> (forall a, a ∈ doomed p' w' -> a ∈ doomed p w) ->
  world_inv (mkWorld p' rs w' built).
Proof.
  intros [Hh Hn Hc Hf Hlen Hl] E1 E2 E3 Hp Ho Hd. cbn in *.
  destruct (heap_free (ps_heap p) o (held p w ++ built) (held p' w' ++ built)) as [F1 F2]; [done|done|by rewrite Hp, app_assoc|].
  constructor; cbn; try congruence.
  - intros a. by rewrite E1, F1.
  - intros i a Hi. destruct (Hl i a Hi) as [H1 H2]. split; [|by intros ?%Hd].
    rewrite Hp in H1. apply elem_of_app in H1 as [H1|H1]; [|done]. apply elem_option_list in H1. by destruct H2; apply Ho.
Qed.

Lemma inv_writer p rs w built :
  world_inv (mkWorld p rs w built) -> world_inv (mkWorld (snd (publish_step w p)) rs (fst (publish_step w p)) built).
Proof.
  intros Hi. pose proof Hi as [Hh Hn Hc Hf Hlen Hl]. cbn in Hh, Hn, Hc, Hf, Hlen, Hl. destruct w as [|[a|]|old n|old|old|i]; cbn [publish_step fst snd].
  - done.
  - pose proof (retire_perm a (ps_retired p)) as Hp. pose proof (retire_length a (ps_retired p)) as Hrl. destruct (retire a (ps_retired p)) as [old retired]. cbn in *.
    apply (inv_same p rs (WSwapped (Some a)) built); try done; [|set_solver].
    unfold held. cbn. apply Permutation_app_head. rewrite <- Permutation_middle.
    change (a :: omap id (ps_retired p) ++ ps_leaked p) with ((a :: omap id (ps_retired p)) ++ ps_leaked p).
    rewrite <- Hp, app_assoc. apply Permutation_app_tail, Permutation_app_comm.
  - apply (inv_same p rs (WSwapped None) built); try done. set_solver.
  - destruct (negb _ && _); apply (inv_same p rs (WSpin old n) built); try done; set_solver.
  - destruct (Z.eqb_spec (ps_readers p) 0) as [E|E]; cbn [negb fst snd].
    + apply (inv_same p rs (WCheck old) built); try done. intros i a Hr. rewrite Hc in E.
      by apply (count_zero _ _ _ E) in Hr.
    + apply (inv_same p rs (WCheck old) built); try done. set_solver.
  - apply (inv_freed p rs (WFree old) built old); try done.
    + unfold held. cbn. rewrite !app_assoc. apply Permutation_app_tail. rewrite <- !app_assoc.
      by rewrite (Permutation_app_comm _ (option_list old)), !app_assoc, (Permutation_app_comm _ (option_list old)).
    + intros a ->. cbn. by left.
    + cbn. intros a Ha. apply elem_of_app. by right.
  - destruct (i <? NGX_HTTP_WAF_DS_RETIRED)%nat; cbn [fst snd]; [|apply (inv_same p rs (WSweep i) built); try done; set_solver].
    pose proof (free_retired (ps_retired p) i) as Hp.
    apply (inv_freed p rs (WSweep i) built (mjoin (ps_retired p !! i))); try done.
    + apply length_insert.
    + unfold held. cbn. rewrite Hp. rewrite !app_assoc. apply Permutation_app_tail. by rewrite (Permutation_app_comm (option_list (ps_set p))).
    + intros a Ha. cbn. rewrite Hp, elem_of_app. left. by apply elem_option_list.
    + cbn. intros a Ha. rewrite Hp, elem_of_app. by right.
Qed.

Lemma inv_publish p rs o built :
  world_inv (mkWorld p rs WIdle (option_list o ++ built)) ->
  world_inv (mkWorld (snd (publish_start o p)) rs (fst (publish_start o p)) built).
Proof.
  intros [Hh Hn Hc Hf Hlen Hl]. cbn in *. unfold publish_start.
  destruct (bool_decide_reflect (ps_set p = o)) as [E|E]; cbn [fst snd].
  - destruct o as [a|]; [|by constructor]. exfalso. revert Hn. unfold held. rewrite E, <- app_assoc.
    intros (_ & Hx & _)%NoDup_app. apply (Hx a); [by left|]. rewrite elem_of_app. right. by left.
  - assert (Hp : held (p <| ps_set := o |>) (WSwapped (ps_set p)) ++ built ≡ₚ held p WIdle ++ option_list o ++ built).
    { unfold held. cbn. rewrite <- !app_assoc. rewrite (Permutation_app_swap_app (ps_leaked p) (option_list o)),
        (Permutation_app_swap_app (omap id (ps_retired p)) (option_list o)), (Permutation_app_swap_app (option_list (ps_set p)) (option_list o)).
      apply Permutation_app_head, Permutation_app_swap_app. }
    constructor; cbn; try done.
    + intros a. by rewrite Hh, Hp.
    + by rewrite Hp.
    + intros i a Hi. destruct (Hl i a Hi) as [H1 _]. split; [|set_solver]. revert H1. unfold held. cbn. rewrite !elem_of_app. set_solver.
Qed.

Lemma inv_step w w' : step w w' -> world_inv w -> world_inv w'.
Proof.
  destruct 1 as [p rs w built i r Hr|p rs w built|p rs built|p rs a built|p rs w built a Ha|p rs w built a|p rs w built built' Hp].
  - by apply inv_reader.
  - apply inv_writer.
  - apply (inv_publish p rs None built).
  - apply (inv_publish p rs (Some a) built).
  - intros [Hh Hn Hc Hf Hlen Hl]. constructor; cbn in *; try done.
    + intros b. rewrite elem_of_union, elem_of_singleton, Hh, !elem_of_app, elem_of_cons. unfold held. cbn. naive_solver.
    + change (held (p <| ps_heap ::= union {[a]} |>) w) with (held p w). rewrite <- Permutation_middle. constructor; [|done].
      by rewrite <- Hh.
  - intros [Hh Hn Hc Hf Hlen Hl]. cbn in *.
    destruct (heap_free (ps_heap p) (Some a) (held p w ++ a :: built) (held p w ++ built)) as [F1 F2]; [done|done| |].
    { cbn. by rewrite Permutation_middle. }
    by constructor.
  - intros Hi. apply (inv_same p rs w built); try done. intros i a Hr. by apply (wi_loaded _ Hi i).
Qed.

Lemma inv_world0 n : Z.of_nat n < 2 ^ 64 -> world_inv (world0 n).
Proof.
  intros Hn. constructor; cbn [world0 wd_pub wd_readers wd_writer wd_built].
  - set_solver.
  - constructor.
  - clear Hn. induction n as [|n IH]; [done|]. cbn [replicate count busy Z.b2z]. rewrite <- IH. done.
  - unfold zlen. by rewrite length_replicate.
  - done.
  - intros i a H. apply lookup_replicate in H as [H _]. done.
Qed.

(** ** The end of a publication *)

(** An upper bound of the publisher's own steps that are left. *)
Definition rank (w : writer) : Z :=
  let sweep := Z.of_nat NGX_HTTP_WAF_DS_RETIRED + 1 in
  match w with
  | WIdle => 0
  | WSweep i => Z.max 0 (Z.of_nat NGX_HTTP_WAF_DS_RETIRED - Z.of_nat i) + 1
  | WFree _ => sweep + 1
  | WCheck _ => sweep + 2
  | WSpin _ n => sweep + 3 + Z.max 0 (NGX_HTTP_WAF_DS_READERS_SPIN - n)
  | WSwapped _ => sweep + 4 + NGX_HTTP_WAF_DS_READERS_SPIN
  end.

Lemma rank_step w p : w = WIdle \/ 0 <= rank (fst (publish_step w p)) < rank w.
Proof.
  assert (Hs : NGX_HTTP_WAF_DS_READERS_SPIN = 4096) by done. assert (Hr : NGX_HTTP_WAF_DS_RETIRED = 4%nat) by done.
  destruct w as [|[a|]|old n|old|old|i]; [by left|right..]; cbn [publish_step].
  - destruct (retire a _). cbn [fst rank]. lia.
  - cbn [fst rank]. lia.
  - destruct (ps_readers p =? 0); cbn [negb andb fst rank]; [lia|].
    destruct (Z.ltb_spec n NGX_HTTP_WAF_DS_READERS_SPIN); cbn [fst rank]; lia.
  - destruct (ps_readers p =? 0); cbn [negb fst rank]; lia.
  - cbn [fst rank]. lia.
  - destruct (Nat.ltb_spec i NGX_HTTP_WAF_DS_RETIRED); cbn [fst rank]; lia.
Qed.

(** The publisher alone. *)
Fixpoint publish_iter (fuel : nat) (w : writer) (p : pub) : option pub :=
  match w, fuel with
  | WIdle, _ => Some p
  | _, O => None
  | _, S fuel => publish_iter fuel (fst (publish_step w p)) (snd (publish_step w p))
  end.
Definition ngx_http_waf_ds_publish (set : option Z) (p : pub) : option pub :=
  publish_iter (Z.to_nat (NGX_HTTP_WAF_DS_READERS_SPIN + 9)) (fst (publish_start set p)) (snd (publish_start set p)).

(** C7: A reader never looks into a set that was freed.  Whatever readers of
    any worker and whatever publications interleave, as long as a reader has
    a set in its hands that set is allocated; the number of readers is the
    number of those between acquire and release; and no set is lost: each one
    that is allocated is published, retired, in the hands of the publisher,
    not yet published, or reported in the log as leaked. *)
Theorem published_set_alive n w :
  Z.of_nat n < 2 ^ 64 -> rtc step (world0 n) w ->
  (forall i a, w.(wd_readers) !! i = Some (RLoaded (Some a)) -> a ∈ w.(wd_pub).(ps_heap)) /\
  w.(wd_pub).(ps_readers) = count w.(wd_readers) /\
  forall a, a ∈ w.(wd_pub).(ps_heap) <->
    w.(wd_pub).(ps_set) = Some a \/ Some a ∈ w.(wd_pub).(ps_retired) \/ a ∈ pending w.(wd_writer) \/
    a ∈ w.(wd_built) \/ a ∈ w.(wd_pub).(ps_leaked).
Proof.
  intros Hn Hr. assert (Hi : world_inv w).
  { apply (rtc_ind_r (R := step) world_inv (world0 n)); [by apply inv_world0| |done]. intros. by eapply inv_step. }
  destruct Hi as [Hh _ Hc _ _ Hl]. split_and!; [|done|].
  - intros i a Ha. apply Hh, elem_of_app. left. by apply (Hl i).
  - intros a. rewrite Hh. unfold held. rewrite !elem_of_app, elem_option_list.
    rewrite list_elem_of_omap. split; [naive_solver|]. intros H. destruct H as [H|[H|[H|[H|H]]]]; eauto 10.
Qed.

Lemma publish_iter_step fuel w p :
  w <> WIdle -> publish_iter (S fuel) w p = publish_iter fuel (fst (publish_step w p)) (snd (publish_step w p)).
Proof. by destruct w. Qed.

Lemma iter_spin k fuel old n p :
  p.(ps_readers) <> 0 -> n + Z.of_nat k = NGX_HTTP_WAF_DS_READERS_SPIN ->
  publish_iter (S (k + fuel)) (WSpin old n) p = publish_iter fuel (WCheck old) p.
Proof.
  intros Hr. revert n. induction k as [|k IH]; intros n Hn; cbn [publish_iter publish_step Nat.add].
  - rewrite (proj2 (Z.eqb_neq _ 0) Hr), (proj2 (Z.ltb_ge n _)) by lia. done.
  - rewrite (proj2 (Z.eqb_neq _ 0) Hr), (proj2 (Z.ltb_lt n _)) by lia. apply IH. lia.
Qed.

Lemma iter_sweep fuel p :
  length p.(ps_retired) = NGX_HTTP_WAF_DS_RETIRED ->
  exists heap, publish_iter (S (S (S (S (S fuel))))) (WSweep 0) p =
      Some (p <| ps_heap := heap |> <| ps_retired := replicate NGX_HTTP_WAF_DS_RETIRED None |>) /\
    forall a, a ∈ heap <-> a ∈ p.(ps_heap) /\ Some a ∉ p.(ps_retired).
Proof.
  destruct p as [set [|o1 [|o2 [|o3 [|o4 [|o5 l]]]]] readers heap leaked]; try done. intros _.
  exists (free_set o4 (free_set o3 (free_set o2 (free_set o1 heap)))). split; [by destruct fuel|].
  intros a. rewrite !elem_free_set. cbn. rewrite !elem_of_cons, elem_of_nil. naive_solver.
Qed.

(** [p] with the set swapped and the old one put away; what was left of it
    when there was no place. *)
Definition put_away (set : option Z) (p : pub) : option Z * pub :=
  match p.(ps_set) with
  | None => (None, p <| ps_set := set |>)
  | Some a => (fst (retire a p.(ps_retired)), p <| ps_set := set |> <| ps_retired := snd (retire a p.(ps_retired)) |>)
  end.

Lemma retire_elem a retired b :
  Some b ∈ snd (retire a retired) \/ fst (retire a retired) = Some b <-> b = a \/ Some b ∈ retired.
Proof.
  pose proof (retire_perm a retired) as Hp. assert (H : b ∈ option_list (fst (retire a retired)) ++ omap id (snd (retire a retired)) <-> b ∈ a :: omap id retired)
    by by rewrite Hp. revert H. rewrite elem_of_app, elem_of_cons, elem_option_list, !list_elem_of_omap. unfold id. naive_solver.
Qed.

Lemma retire_full a retired b : fst (retire a retired) = Some b -> b = a /\ Forall is_Some retired /\ snd (retire a retired) = retired.
Proof.
  induction retired as [|[c|] l IH]; [by intros [= ->]| |done]. cbn. destruct (retire a l) as [old l']. cbn in *. intros H.
  destruct (IH H) as (-> & H1 & ->). split; [done|]. split; [|done]. constructor; [by eexists|done].
Qed.

(** A publication always comes to an end, after at most 4096 looks at the
    readers.  When the new set is another one it is the published set from
    then on.  With no readers about, the old set and every retired set are
    freed and nothing else is; with readers that stay, nothing is freed, the
    old set is retired, and it is given up (with a line in the log) only when
    all the places for retired sets are taken. *)
Theorem publish_outcome set p :
  length p.(ps_retired) = NGX_HTTP_WAF_DS_RETIRED ->
  exists p', ngx_http_waf_ds_publish set p = Some p' /\ p'.(ps_set) = set /\ p'.(ps_readers) = p.(ps_readers) /\
  (p.(ps_set) = set -> p' = p) /\
  (p.(ps_set) <> set ->
   (p.(ps_readers) = 0 ->
      p'.(ps_retired) = replicate NGX_HTTP_WAF_DS_RETIRED None /\ p'.(ps_leaked) = p.(ps_leaked) /\
      forall a, a ∈ p'.(ps_heap) <-> a ∈ p.(ps_heap) /\ p.(ps_set) <> Some a /\ Some a ∉ p.(ps_retired)) /\
   (p.(ps_readers) <> 0 ->
      p'.(ps_heap) = p.(ps_heap) /\
      forall a, p.(ps_set) = Some a ->
        Some a ∈ p'.(ps_retired) /\ p'.(ps_leaked) = p.(ps_leaked) \/
        Forall is_Some p.(ps_retired) /\ p'.(ps_retired) = p.(ps_retired) /\ p'.(ps_leaked) = a :: p.(ps_leaked))).
Proof.
  intros Hlen. unfold ngx_http_waf_ds_publish, publish_start.
  destruct (bool_decide_reflect (ps_set p = set)) as [E|E]; cbn [fst snd].
  { exists p. replace (Z.to_nat _) with (S (Z.to_nat (NGX_HTTP_WAF_DS_READERS_SPIN + 8))) by (unfold NGX_HTTP_WAF_DS_READERS_SPIN; lia).
    by split_and!. }
  set (old := fst (put_away set p)). set (q := snd (put_away set p)).
  assert (Hq : publish_step (WSwapped (ps_set p)) (p <| ps_set := set |>) = (WSpin old 0, q)).
  { unfold old, q, put_away. destruct (ps_set p) as [a|]; [|done]. cbn. by destruct (retire a _). }
  assert (Hq1 : ps_set q = set /\ ps_readers q = ps_readers p /\ ps_heap q = ps_heap p /\ ps_leaked q = ps_leaked p /\
    length (ps_retired q) = NGX_HTTP_WAF_DS_RETIRED /\
    (forall b, Some b ∈ ps_retired q \/ old = Some b <-> ps_set p = Some b \/ Some b ∈ ps_retired p) /\
    (forall b, old = Some b -> ps_set p = Some b /\ Forall is_Some (ps_retired p) /\ ps_retired q = ps_retired p)).
  { unfold old, q, put_away. destruct (ps_set p) as [a|]; cbn [fst snd]; split_and!; try done; cbn.
    - by rewrite retire_length.
    - intros b. rewrite retire_elem. naive_solver.
    - intros b (-> & H1 & H2)%retire_full. done.
    - naive_solver. }
  clearbody old q. destruct Hq1 as (Q1 & Q2 & Q3 & Q4 & Q5 & Q6 & Q7).
  destruct (decide (ps_readers p = 0)) as [R|R].
  - replace (Z.to_nat _) with (9 + Z.to_nat NGX_HTTP_WAF_DS_READERS_SPIN)%nat by (unfold NGX_HTTP_WAF_DS_READERS_SPIN; lia).
    generalize (Z.to_nat NGX_HTTP_WAF_DS_READERS_SPIN). intros fuel. cbn [Nat.add].
    set (r := q <| ps_heap ::= free_set old |>). destruct (iter_sweep fuel r) as (heap & Hi & Hh); [exact Q5|].
    assert (Hrun : publish_iter (S (S (S (S (S (S (S (S (S fuel))))))))) (WSwapped (ps_set p)) (p <| ps_set := set |>) =
                   publish_iter (S (S (S (S (S fuel))))) (WSweep 0) r).
    { assert (E1 : publish_step (WSpin old 0) q = (WCheck old, q)) by (cbn [publish_step]; by rewrite Q2, R).
      assert (E2 : publish_step (WCheck old) q = (WFree old, q)) by (cbn [publish_step]; by rewrite Q2, R).
      rewrite publish_iter_step, Hq by done. cbn [fst snd]. rewrite publish_iter_step, E1 by done. cbn [fst snd].
      rewrite publish_iter_step, E2 by done. cbn [fst snd].
      rewrite (publish_iter_step _ (WFree old) q) by done. reflexivity. }
    rewrite Hrun, Hi. eexists. split; [done|]. cbn. split; [done|]. split; [done|]. split; [done|].
    intros _. split; [|done]. intros _. split_and!; try done. intros a. rewrite Hh. unfold r. cbn.
    rewrite elem_free_set, Q3. specialize (Q6 a). clear - Q6. tauto.
  - replace (Z.to_nat _) with (S (S (Z.to_nat NGX_HTTP_WAF_DS_READERS_SPIN + 7))) by (unfold NGX_HTTP_WAF_DS_READERS_SPIN; lia).
    assert (Hk : 0 + Z.of_nat (Z.to_nat NGX_HTTP_WAF_DS_READERS_SPIN) = NGX_HTTP_WAF_DS_READERS_SPIN)
      by (unfold NGX_HTTP_WAF_DS_READERS_SPIN; lia).
    revert Hk. generalize (Z.to_nat NGX_HTTP_WAF_DS_READERS_SPIN). intros k Hk.
    assert (Hrun : publish_iter (S (S (k + 7))) (WSwapped (ps_set p)) (p <| ps_set := set |>) =
                   Some (q <| ps_leaked ::= app (option_list old) |>)).
    { assert (Rq : ps_readers q <> 0) by (rewrite Q2; exact R).
      assert (E2 : publish_step (WCheck old) q = (WIdle, q <| ps_leaked ::= app (option_list old) |>)).
      { cbn [publish_step]. by rewrite (proj2 (Z.eqb_neq _ 0) Rq). }
      rewrite publish_iter_step, Hq by done. cbn [fst snd]. rewrite (iter_spin k 7 old 0 q Rq Hk), publish_iter_step, E2 by done. reflexivity. }
    rewrite Hrun. eexists. split; [done|]. cbn. split; [done|]. split; [done|]. split; [done|].
    intros _. split; [done|]. intros _. split; [done|]. intros a Ha.
    destruct old as [b|]; [right|left].
    + destruct (Q7 b eq_refl) as (F0 & F1 & F2). rewrite Ha in F0. injection F0 as <-. rewrite Q4. by split_and!.
    + split; [|done]. destruct (Q6 a) as [_ H]. destruct H as [H|H]; [by left|done|done].
Qed.

(** ** Concrete runs *)

(** A reader takes the set 7; the set is unpublished and retired while it is
    held. *)
Lemma published_set_alive_witness :
  exists w, rtc step (world0 1) w /\ w.(wd_readers) = [RLoaded (Some 7)] /\ w.(wd_pub).(ps_set) = None /\
    7 ∈ w.(wd_pub).(ps_heap).
Proof.
  assert (Hr : exists w, rtc step (world0 1) w /\ w.(wd_readers) = [RLoaded (Some 7)] /\ w.(wd_pub).(ps_set) = None).
  { eexists. split; [|split; [|]].
    - eapply rtc_l; [apply (step_build pub0 [RIdle] WIdle [] 7); set_solver|].
      eapply rtc_l; [apply step_publish|]. cbn [publish_start fst snd bool_decide ps_set pub0 upd].
      do 9 (eapply rtc_l; [apply step_writer|]; cbn [publish_step fst snd]).
      eapply rtc_l; [apply (step_reader _ _ _ _ 0 RIdle); reflexivity|].
      eapply rtc_l; [apply (step_reader _ _ _ _ 0 RCounted); reflexivity|].
      eapply rtc_l; [apply step_publish_none|]. eapply rtc_l; [apply step_writer|]. apply rtc_refl.
    - vm_compute. reflexivity.
    - vm_compute. reflexivity. }
  destruct Hr as (w & Hr & Hrs & Hs). exists w. split; [done|]. split; [done|]. split; [done|].
  apply (proj1 (published_set_alive 1 w ltac:(done) Hr) 0%nat 7). by rewrite Hrs.
Defined.

Definition demo_pub (readers : Z) : pub := mkPub (Some 1) [Some 2; Some 3; Some 4; Some 5] readers (list_to_set [1; 2; 3; 4; 5; 9]) [].
Lemma publish_outcome_witness :
  (exists p', ngx_http_waf_ds_publish (Some 9) (demo_pub 0) = Some p' /\ 9 ∈ p'.(ps_heap) /\ (1 ∉ p'.(ps_heap)) /\ (3 ∉ p'.(ps_heap))) /\
  (exists p', ngx_http_waf_ds_publish (Some 9) (demo_pub 1) = Some p' /\ p'.(ps_leaked) = [1]).
Proof.
  split.
  - destruct (publish_outcome (Some 9) (demo_pub 0) eq_refl) as (p' & E & _ & _ & _ & H).
    destruct (proj1 (H ltac:(done)) eq_refl) as (_ & _ & Hh). exists p'. split; [exact E|]. split_and!.
    + apply Hh. split_and!; [apply (bool_decide_unpack _); vm_compute; done|done|].
      apply (bool_decide_unpack _). vm_compute. done.
    + intros (_ & H1 & _)%Hh. by apply H1.
    + intros (_ & _ & H3)%Hh. apply H3. apply (bool_decide_unpack _). vm_compute. done.
  - destruct (publish_outcome (Some 9) (demo_pub 1) eq_refl) as (p' & E & _ & _ & _ & H).
    destruct (proj2 (H ltac:(done)) ltac:(done)) as (_ & Hl). exists p'. split; [exact E|].
    destruct (Hl 1 eq_refl) as [[H1 H2]|(_ & _ & H2)]; [|exact H2]. exfalso.
    assert (Eq : option_map ps_leaked (ngx_http_waf_ds_publish (Some 9) (demo_pub 1)) = Some [1]) by (vm_compute; reflexivity).
    revert Eq H2. rewrite E. cbn [option_map]. intros Eq H2. rewrite H2 in Eq. discriminate.
Defined.

End DsPublish.
