(* ===== verification/Select.v ===== *)
(** The operands of local rules and conditions (local/ngx_http_waf_select.c):
    a variable of nginx, or the arguments, cookies or headers of the request,
    all of them or the one with a name; how a token of the configuration
    becomes an operand, how arguments and cookies are cut into pairs, and when
    a value of an operand is in a dataset.

    [ngx_unescape_uri], the variables of nginx and the evaluation of a complex
    value are parameters; outcomes of allocations are inputs.  Whether a
    dataset has a value is the business of the datasets and comes in through
    the interface [DatasetOps]. *)
From S2P Require Import Prelude Types.
#[local] Open Scope Z_scope.

Module Select.

Inductive sel_e := SEL_VAR | SEL_ARGS | SEL_COOKIES | SEL_HEADERS.
#[export] Instance sel_e_eq_dec : EqDecision sel_e.
Proof. solve_decision. Defined.

(** [op_value] stands for the compiled complex value. *)
Record operand_t := mkOperand {
  op_object : sel_e;
  op_name : bytes;
  op_all : bool;
  op_binary : bool;
  op_value : Z
}.

Record pair_t := mkPair { pr_name : bytes; pr_value : bytes }.

(** ** Characters *)

Definition amp_c : Z := 38.
Definition eq_c : Z := 61.
Definition semi_c : Z := 59.
Definition plus_c : Z := 43.
Definition percent_c : Z := 37.
Definition quote_c : Z := 34.
Definition dot_c : Z := 46.

(** [ngx_strlchr]: the offset of the first [c]. *)
Fixpoint ngx_strlchr (p : bytes) (c : Z) : option nat :=
  match p with
  | [] => None
  | x :: p => if x =? c then Some O else S <$> ngx_strlchr p c
  end.

Definition ngx_tolower (c : Z) : Z := if (65 <=? c) && (c <=? 90) then Z.lor c 32 else c.
(** [ngx_strncmp] and [ngx_strncasecmp] of two strings of one length find no
    difference; both stop at a NUL. *)
Fixpoint strncmp_eq (fold : Z -> Z) (a b : bytes) : bool :=
  match a, b with
  | x :: a, y :: b => (fold x =? fold y) && ((fold x =? 0) || strncmp_eq fold a b)
  | _, _ => true
  end.

(** ** From a token to an operand *)

Definition SEL_PREFIX : bytes := Eval compute in lit "$waf_request_".

Definition starts_with (prefix s : bytes) : bool := bytes_eqb (take (length prefix) s) prefix.

Definition sel_object (object : bytes) : sel_e :=
  if bytes_eqb object (lit "args") then SEL_ARGS
  else if bytes_eqb object (lit "cookies") then SEL_COOKIES
  else if bytes_eqb object (lit "headers") then SEL_HEADERS
  else SEL_VAR.

(** [compile] is [ngx_http_compile_complex_value]. *)
Definition ngx_http_waf_operand_compile (compile : bytes -> option Z) (token : bytes) (all : bool) : option operand_t :=
  let binary := bytes_eqb token (lit "$binary_remote_addr") in
  if (5 <? zlen token) && starts_with (lit "$waf_") token
     && bool_decide (is_Some (ngx_strlchr token dot_c)) && negb (starts_with SEL_PREFIX token)
  then None
  else if (zlen token <=? zlen SEL_PREFIX) || negb (starts_with SEL_PREFIX token)
  then match compile token with
       | Some v => Some (mkOperand SEL_VAR [] false binary v)
       | None => None
       end
  else
    let p := drop (length SEL_PREFIX) token in
    match ngx_strlchr p dot_c with
    | None => None
    | Some dot =>
        let object := sel_object (take dot p) in
        let name := drop (S dot) p in
        if zlen name =? 0 then None
        else if object ==? SEL_VAR then None
        else if bytes_eqb name (lit "*")
        then if negb all then None else Some (mkOperand object [] true binary 0)
        else Some (mkOperand object name false binary 0)
    end.

(** ** Arguments *)

Section request.
(** [ngx_unescape_uri] on three bytes with type 0: the bytes it writes and how
    many it reads. *)
Context (unescape_uri : bytes -> bytes * nat).

Fixpoint unescape_loop (fuel : nat) (p : bytes) : option bytes :=
  match p, fuel with
  | [], _ => Some []
  | _, O => None
  | c :: rest, S fuel =>
      if c =? plus_c then (fun out => 32 :: out) <$> unescape_loop fuel rest
      else
        let plain := (fun out => c :: out) <$> unescape_loop fuel rest in
        if (c =? percent_c) && (3 <=? zlen p) then
          let '(d, n) := unescape_uri (take 3 p) in
          match d with
          | [] => plain
          | _ => (fun out => d ++ out) <$> unescape_loop fuel (drop n p)
          end
        else plain
  end.

(** [None] inside is [NGX_ERROR]; [None] outside a loop that did not end. *)
Definition ngx_http_waf_unescape (src : bytes) (mem : alloc_stream) : option (option bytes * alloc_stream) :=
  if zlen src =? 0 then Some (Some [], mem)
  else
    let '(ok, mem) := alloc mem in
    if negb ok then Some (None, mem)
    else out ← unescape_loop (length src) src; Some (Some out, mem).

(** The name and the value of a stretch up to the next separator. *)
Definition cut_pair (seg : bytes) : bytes * bytes :=
  match ngx_strlchr seg eq_c with
  | None => (seg, [])
  | Some e => (take e seg, drop (S e) seg)
  end.

Fixpoint args_loop (fuel : nat) (p : bytes) (pairs : list pair_t) (mem : alloc_stream)
    : option (option (list pair_t) * alloc_stream) :=
  match p, fuel with
  | [], _ => Some (Some pairs, mem)
  | _, O => None
  | _, S fuel =>
      let amp := default (length p) (ngx_strlchr p amp_c) in
      match amp with
      | O => args_loop fuel (drop 1 p) pairs mem
      | _ =>
          let '(raw_name, raw_value) := cut_pair (take amp p) in
          let '(ok, mem) := alloc mem in
          if negb ok then Some (None, mem)
          else
            name ← ngx_http_waf_unescape raw_name mem;
            match name with
            | (None, mem) => Some (None, mem)
            | (Some name, mem) =>
                value ← ngx_http_waf_unescape raw_value mem;
                match value with
                | (None, mem) => Some (None, mem)
                | (Some value, mem) => args_loop fuel (drop (S amp) p) (pairs ++ [mkPair name value]) mem
                end
            end
      end
  end.
Definition ngx_http_waf_pairs_args (args : bytes) (mem : alloc_stream) : option (option (list pair_t) * alloc_stream) :=
  args_loop (length args) args [] mem.

(** ** Cookies *)

Definition is_blank (c : Z) : bool := (c =? 32) || (c =? 9).
Fixpoint trim_left (s : bytes) : bytes :=
  match s with c :: s' => if is_blank c then trim_left s' else s | [] => [] end.
Definition trim (s : bytes) : bytes := rev (trim_left (rev (trim_left s))).
Definition unquote (s : bytes) : bytes :=
  if (2 <=? zlen s) && (aget 0 s 0 =? quote_c) && (aget 0 s (zlen s - 1) =? quote_c)
  then take (length s - 2) (drop 1 s) else s.

Fixpoint cookie_loop (fuel : nat) (p : bytes) (pairs : list pair_t) (mem : alloc_stream)
    : option (option (list pair_t) * alloc_stream) :=
  match p, fuel with
  | [], _ => Some (Some pairs, mem)
  | _, O => None
  | _, S fuel =>
      let semi := default (length p) (ngx_strlchr p semi_c) in
      match ngx_strlchr (take semi p) eq_c with
      | None => cookie_loop fuel (drop (S semi) p) pairs mem
      | Some e =>
          let '(ok, mem) := alloc mem in
          if negb ok then Some (None, mem)
          else
            let name := trim (take e (take semi p)) in
            let value := unquote (trim (drop (S e) (take semi p))) in
            cookie_loop fuel (drop (S semi) p) (pairs ++ [mkPair name value]) mem
      end
  end.
Definition ngx_http_waf_cookie_split (pairs : list pair_t) (value : bytes) (mem : alloc_stream)
    : option (option (list pair_t) * alloc_stream) :=
  cookie_loop (length value) value pairs mem.

Fixpoint ngx_http_waf_pairs_cookies (cookies : list bytes) (pairs : list pair_t) (mem : alloc_stream)
    : option (option (list pair_t) * alloc_stream) :=
  match cookies with
  | [] => Some (Some pairs, mem)
  | c :: cookies =>
      r ← ngx_http_waf_cookie_split pairs c mem;
      match r with
      | (None, mem) => Some (None, mem)
      | (Some pairs, mem) => ngx_http_waf_pairs_cookies cookies pairs mem
      end
  end.

(** ** Headers *)

(** [headers]: the parts of the list, one after the other. *)
Fixpoint ngx_http_waf_pairs_headers (headers : list pair_t) (pairs : list pair_t) (mem : alloc_stream)
    : option (list pair_t) * alloc_stream :=
  match headers with
  | [] => (Some pairs, mem)
  | h :: headers =>
      let '(ok, mem) := alloc mem in
      if negb ok then (None, mem) else ngx_http_waf_pairs_headers headers (pairs ++ [h]) mem
  end.

(** ** The pairs of a request *)

(** What of the request is read, and the part of the context that remembers
    what was parsed; [sx_pairs] is [None] for NULL. *)
Record sel_req := mkSelReq { rq_args : bytes; rq_cookies : list bytes; rq_headers : list pair_t }.
Record sel_ctx := mkSelCtx {
  sx_parsed : sel_e -> bool;
  sx_pairs : sel_e -> option (list pair_t);
  sx_mem : alloc_stream
}.
Definition sel_set {A} (f : sel_e -> A) (o : sel_e) (a : A) : sel_e -> A :=
  fun o' => if o' ==? o then a else f o'.

Context (rq : sel_req).

Definition ngx_http_waf_pairs_ready (object : sel_e) (x : sel_ctx) : option (ngx_rc * sel_ctx) :=
  if x.(sx_parsed) object
  then Some (match x.(sx_pairs) object with Some _ => NGX_OK | None => NGX_ERROR end, x)
  else
    let parsed := sel_set x.(sx_parsed) object true in
    let '(ok, mem) := alloc x.(sx_mem) in
    if negb ok then Some (NGX_ERROR, mkSelCtx parsed x.(sx_pairs) mem)
    else
      r ← match object with
          | SEL_ARGS => ngx_http_waf_pairs_args rq.(rq_args) mem
          | SEL_COOKIES => ngx_http_waf_pairs_cookies rq.(rq_cookies) [] mem
          | _ => Some (ngx_http_waf_pairs_headers rq.(rq_headers) [] mem)
          end;
      match r with
      | (None, mem) => Some (NGX_ERROR, mkSelCtx parsed x.(sx_pairs) mem)
      | (Some pairs, mem) => Some (NGX_OK, mkSelCtx parsed (sel_set x.(sx_pairs) object (Some pairs)) mem)
      end.

(** ** Operands of a request *)

Definition ngx_http_waf_pair_named (op : operand_t) (p : pair_t) : bool :=
  if op.(op_all) then true
  else if negb (zlen p.(pr_name) =? zlen op.(op_name)) then false
  else if op.(op_object) ==? SEL_HEADERS then strncmp_eq ngx_tolower p.(pr_name) op.(op_name)
  else strncmp_eq id p.(pr_name) op.(op_name).

(** [ngx_http_complex_value]. *)
Context (complex_value : Z -> option bytes).

Definition ngx_http_waf_operand_single (op : operand_t) (x : sel_ctx) : option (ngx_rc * bytes * sel_ctx) :=
  if op.(op_object) ==? SEL_VAR
  then Some (match complex_value op.(op_value) with Some v => (NGX_OK, v) | None => (NGX_ERROR, []) end, x)
  else
    r ← ngx_http_waf_pairs_ready op.(op_object) x;
    let '(rc, x) := r in
    if negb (rc_ok rc) then Some (NGX_ERROR, [], x)
    else
      let pairs := default [] (x.(sx_pairs) op.(op_object)) in
      match find (ngx_http_waf_pair_named op) pairs with
      | Some p => Some (NGX_OK, p.(pr_value), x)
      | None => Some (NGX_OK, [], x)
      end.

(** ** Datasets *)

(** What a dataset answers when it is asked for a value, in text or as the
    bytes of an address; an empty value is in no dataset. *)
Class DatasetOps (D : Type) := {
  dataset_hit : D -> bytes -> bool -> bool;
  dataset_hit_nil : forall d binary, dataset_hit d [] binary = false
}.

Section hits.
Context {D : Type} `{!DatasetOps D}.

(** The value that is in the dataset, [None] for [NGX_DECLINED]. *)
Definition ngx_http_waf_operand_hit (op : operand_t) (ds : D) (x : sel_ctx) : option (option bytes * sel_ctx) :=
  if op.(op_object) ==? SEL_VAR
  then Some (match complex_value op.(op_value) with
             | Some v => if dataset_hit ds v op.(op_binary) then Some v else None
             | None => None
             end, x)
  else
    r ← ngx_http_waf_pairs_ready op.(op_object) x;
    let '(rc, x) := r in
    if negb (rc_ok rc) then Some (None, x)
    else
      let pairs := default [] (x.(sx_pairs) op.(op_object)) in
      Some (pr_value <$> find (fun p => ngx_http_waf_pair_named op p && negb (zlen p.(pr_value) =? 0)
                                         && dataset_hit ds p.(pr_value) false) pairs, x).

Record cond_t := mkCond { cd_operand : operand_t; cd_dataset : D; cd_negate : bool }.

(** True for [NGX_OK]. *)
Fixpoint ngx_http_waf_cond_test (conds : list cond_t) (x : sel_ctx) : option (bool * sel_ctx) :=
  match conds with
  | [] => Some (true, x)
  | c :: conds =>
      r ← ngx_http_waf_operand_hit c.(cd_operand) c.(cd_dataset) x;
      let '(matched, x) := r in
      if Bool.eqb (bool_decide (is_Some matched)) c.(cd_negate) then Some (false, x)
      else ngx_http_waf_cond_test conds x
  end.

(** ** Checks against datasets *)

Inductive check_action_e := CHECK_BLOCK | CHECK_ALLOW | CHECK_WAVE.
Record check_rule_t := mkCheckRule {
  ck_operand : operand_t;
  ck_dataset : D;
  ck_conds : list cond_t;
  ck_action : check_action_e;
  ck_response : Z
}.

(** The outcome, with the rule that decided; the response is read only for a
    block. *)
Fixpoint ngx_http_waf_dataset_check (rules : list check_rule_t) (x : sel_ctx)
    : option (ngx_rc * option check_rule_t * sel_ctx) :=
  match rules with
  | [] => Some (NGX_DECLINED, None, x)
  | r :: rules =>
      t ← ngx_http_waf_cond_test r.(ck_conds) x;
      let '(ok, x) := t in
      if negb ok then ngx_http_waf_dataset_check rules x
      else
        h ← ngx_http_waf_operand_hit r.(ck_operand) r.(ck_dataset) x;
        let '(matched, x) := h in
        match matched with
        | None => ngx_http_waf_dataset_check rules x
        | Some _ =>
            Some (match r.(ck_action) with
                  | CHECK_ALLOW => NGX_OK
                  | CHECK_WAVE => NGX_DONE
                  | CHECK_BLOCK => NGX_ERROR
                  end, Some r, x)
        end
  end.

End hits.
End request.

Arguments cond_t : clear implicits.
Arguments check_rule_t : clear implicits.

End Select.
