(* ===== verification/SelectFacts.v ===== *)
(** What operands promise: arguments and cookies are cut exactly at their
    separators and decoded without growing, and a list of checks is decided by
    its first rule whose conditions hold and whose operand has a value in its
    dataset. *)
From S2P Require Import Prelude Types Select.
Import Select.
#[local] Open Scope Z_scope.

Module SelectFacts.

Definition hex_upper (d : Z) : Z := if d <? 10 then 48 + d else 55 + d.
Definition percent (b : Z) : bytes := [percent_c; hex_upper (b / 16); hex_upper (b mod 16)].

(** [ngx_unescape_uri] decodes a percent sign with two hexadecimal digits, and
    never writes more than it reads. *)
Class UnescapeUri (unescape_uri : bytes -> bytes * nat) := {
  uu_bounds : forall p, length p = 3%nat -> fst (unescape_uri p) <> [] ->
    (0 < snd (unescape_uri p) <= 3)%nat /\ (length (fst (unescape_uri p)) <= snd (unescape_uri p))%nat;
  uu_hex : forall b, is_u8 b -> unescape_uri (percent b) = ([b], 3%nat)
}.

(** ** Cutting at a separator *)

Fixpoint split_on (c : Z) (p : bytes) : list bytes :=
  match p with
  | [] => [[]]
  | x :: p => if x =? c then [] :: split_on c p
              else match split_on c p with [] => [[x]] | seg :: segs => (x :: seg) :: segs end
  end.

Lemma split_on_cons c p : exists seg segs, split_on c p = seg :: segs.
Proof. destruct p as [|x p]; cbn; [eauto|]. destruct (x =? c); [eauto|]. destruct (split_on c p); eauto. Qed.

Lemma strlchr_lt p c i : ngx_strlchr p c = Some i -> (i < length p)%nat.
Proof.
  revert i. induction p as [|x p IH]; intros i; cbn; [done|]. destruct (x =? c); [intros [= <-]; lia|].
  destruct (ngx_strlchr p c) as [j|]; cbn; [|done]. intros [= <-]. specialize (IH j eq_refl). lia.
Qed.

Lemma split_on_step c p :
  split_on c p = match ngx_strlchr p c with
                 | None => [p]
                 | Some i => take i p :: split_on c (drop (S i) p)
                 end.
Proof.
  induction p as [|x p IH]; cbn; [done|]. destruct (x =? c); [done|]. rewrite IH. by destruct (ngx_strlchr p c).
Qed.

(** One turn of a loop over the segments, where an empty one counts for
    nothing. *)
Lemma omap_segments {A} (f : bytes -> option A) c p :
  f [] = None ->
  let i := default (length p) (ngx_strlchr p c) in
  omap f (split_on c p) = omap f (take i p :: split_on c (drop (S i) p)).
Proof.
  intros Hf. cbn zeta. rewrite split_on_step at 1. destruct (ngx_strlchr p c) as [i|] eqn:E; cbn [default]; [done|].
  unfold id. rewrite firstn_all, drop_ge by lia. cbn. rewrite Hf. by destruct (f p).
Qed.

Lemma strlchr_app_none a b c : c ∉ a -> ngx_strlchr (a ++ c :: b) c = Some (length a).
Proof.
  induction a as [|x a IH]; intros H; cbn; [by rewrite Z.eqb_refl|].
  apply not_elem_of_cons in H as [H1 H2]. rewrite (proj2 (Z.eqb_neq x c)) by done. by rewrite IH.
Qed.
Lemma strlchr_none a c : c ∉ a -> ngx_strlchr a c = None.
Proof.
  induction a as [|x a IH]; intros H; cbn; [done|].
  apply not_elem_of_cons in H as [H1 H2]. rewrite (proj2 (Z.eqb_neq x c)) by done. by rewrite IH.
Qed.

Section request.
Context {unescape_uri : bytes -> bytes * nat} `{!UnescapeUri unescape_uri}.

Abbreviation unescape := (unescape_loop unescape_uri).

(** ** Decoding *)

(** It ends within its fuel, and fits where the text was. *)
Lemma unescape_total fuel p :
  (length p <= fuel)%nat -> exists out, unescape fuel p = Some out /\ (length out <= length p)%nat /\
    forall fuel', (length p <= fuel')%nat -> unescape fuel' p = Some out.
Proof.
  revert p. induction fuel as [|fuel IH]; intros p Hf.
  { destruct p; [|cbn in Hf; lia]. exists []. split_and!; [done|done|]. by intros []. }
  destruct p as [|c rest]; [exists []; split_and!; [done|done|]; by intros []|].
  cbn [length] in Hf. destruct (IH rest ltac:(lia)) as (out & E & Hl & Hany).
  assert (Hgo : forall d q out', unescape fuel q = Some out' ->
    (forall fuel', (length q <= fuel')%nat -> unescape fuel' q = Some out') ->
    (length d + length out' <= length (c :: rest))%nat -> (length q <= length rest)%nat ->
    (forall f, unescape (S f) (c :: rest) = (fun out => d ++ out) <$> unescape f q) ->
    exists out, unescape (S fuel) (c :: rest) = Some out /\ (length out <= length (c :: rest))%nat /\
      forall fuel', (length (c :: rest) <= fuel')%nat -> unescape fuel' (c :: rest) = Some out).
  { intros d q out' H1 H2 H3 H4 H5. exists (d ++ out'). rewrite H5, H1, length_app. split_and!; [done|done|].
    intros [|fuel'] Hf'; [cbn in Hf'; lia|]. rewrite H5, H2; [done|]. cbn [length] in Hf'. lia. }
  destruct (c =? plus_c) eqn:Ep.
  { apply (Hgo [32] rest out); try done; [cbn [length] in *; lia|]. intros f. cbn [unescape_loop]. by rewrite Ep. }
  destruct ((c =? percent_c) && (3 <=? zlen (c :: rest))) eqn:Ec.
  2:{ apply (Hgo [c] rest out); try done; [cbn [length] in *; lia|]. intros f. cbn [unescape_loop]. by rewrite Ep, Ec. }
  destruct (unescape_uri (take 3 (c :: rest))) as [d n] eqn:Eu. destruct d as [|d0 ds].
  { apply (Hgo [c] rest out); try done; [cbn [length] in *; lia|]. intros f. cbn [unescape_loop]. by rewrite Ep, Ec, Eu. }
  apply andb_true_iff in Ec as [Hpc H3%Z.leb_le]. unfold zlen in H3.
  destruct (uu_bounds (take 3 (c :: rest))) as [B1 B2]; [rewrite length_take; lia|by rewrite Eu|]. rewrite Eu in B1, B2. cbn [fst snd] in B1, B2.
  assert (Hq : (length (drop n (c :: rest)) <= length rest)%nat) by (rewrite length_drop; cbn [length]; lia).
  destruct (IH (drop n (c :: rest)) ltac:(lia)) as (out' & E' & Hl' & Hany').
  apply (Hgo (d0 :: ds) (drop n (c :: rest)) out'); try done.
  - rewrite length_drop in Hl'. cbn [length] in *. lia.
  - intros f. cbn [unescape_loop]. rewrite Ep, Hpc.
    rewrite (proj2 (Z.leb_le 3 (zlen (c :: rest)))) by (unfold zlen; lia). cbn [andb]. by rewrite Eu.
Qed.

Definition decode (p : bytes) : bytes := default [] (unescape (length p) p).

Lemma unescape_any fuel p : (length p <= fuel)%nat -> unescape fuel p = Some (decode p).
Proof.
  intros Hf. destruct (unescape_total (length p) p) as (out & E & _ & H); [done|]. unfold decode. rewrite E. by apply H.
Qed.

Lemma decode_fits p : (length (decode p) <= length p)%nat.
Proof. destruct (unescape_total (length p) p) as (out & E & H & _); [done|]. unfold decode. by rewrite E. Qed.

Lemma unescape_spec src mem :
  exists r mem', ngx_http_waf_unescape unescape_uri src mem = Some (r, mem') /\
    (r = Some (decode src) /\ (mem = [] -> mem' = []) \/ r = None /\ mem <> []).
Proof.
  unfold ngx_http_waf_unescape. destruct (Z.eqb_spec (zlen src) 0) as [E|E].
  { apply nil_length_inv in E || (destruct src; [|unfold zlen in E; cbn in E; lia]). eexists _, _. split; [done|]. by left. }
  destruct (alloc mem) as [ok mem'] eqn:Ea. destruct ok; cbn [negb].
  - rewrite unescape_any by done. eexists _, _. split; [done|]. left. split; [done|]. intros ->. by injection Ea.
  - eexists _, _. split; [done|]. right. split; [done|]. intros ->. done.
Qed.

(** ** Arguments *)

Definition arg_pair (seg : bytes) : option pair_t :=
  if bool_decide (seg = []) then None
  else Some (mkPair (decode (fst (cut_pair seg))) (decode (snd (cut_pair seg)))).
(** The pairs of an argument string: one for each stretch between ampersands
    that is not empty, cut at its first equals sign. *)
Definition args_pairs (args : bytes) : list pair_t := omap arg_pair (split_on amp_c args).

Lemma args_loop_spec fuel p pairs mem :
  (length p <= fuel)%nat ->
  exists r mem', args_loop unescape_uri fuel p pairs mem = Some (r, mem') /\
    (r = Some (pairs ++ args_pairs p) /\ (mem = [] -> mem' = []) \/ r = None /\ mem <> []).
Proof.
  revert p pairs mem. induction fuel as [|fuel IH]; intros p pairs mem Hf.
  { destruct p; [|cbn in Hf; lia]. eexists _, _. split; [done|]. left. by rewrite app_nil_r. }
  destruct p as [|x p']; [eexists _, _; split; [done|]; left; by rewrite app_nil_r|].
  set (p := x :: p') in *.
  assert (Hstep : args_loop unescape_uri (S fuel) p pairs mem =
    match default (length p) (ngx_strlchr p amp_c) with
    | O => args_loop unescape_uri fuel (drop 1 p) pairs mem
    | S amp' =>
        let '(raw_name, raw_value) := cut_pair (take (S amp') p) in
        let '(ok, mem) := alloc mem in
        if negb ok then Some (None, mem)
        else name ← ngx_http_waf_unescape unescape_uri raw_name mem;
             match name with
             | (None, mem) => Some (None, mem)
             | (Some name, mem) =>
                 value ← ngx_http_waf_unescape unescape_uri raw_value mem;
                 match value with
                 | (None, mem) => Some (None, mem)
                 | (Some value, mem) => args_loop unescape_uri fuel (drop (S (S amp')) p) (pairs ++ [mkPair name value]) mem
                 end
             end
    end).
  { unfold p. cbn [args_loop]. by destruct (default _ _). }
  rewrite Hstep. clear Hstep. pose proof (omap_segments arg_pair amp_c p eq_refl) as Hseg. cbn zeta in Hseg.
  assert (Hamp : (default (length p) (ngx_strlchr p amp_c) <= length p)%nat).
  { destruct (ngx_strlchr p amp_c) as [i|] eqn:E; [|done]. apply strlchr_lt in E. unfold default, id. lia. }
  assert (Hp : (0 < length p)%nat) by (unfold p; cbn; lia). clearbody p.
  destruct (default (length p) (ngx_strlchr p amp_c)) as [|amp'].
  { destruct (IH (drop 1 p) pairs mem) as (r & mem' & E & H); [rewrite length_drop; lia|].
    exists r, mem'. split; [exact E|]. unfold args_pairs. rewrite Hseg. exact H. }
  assert (Hne : take (S amp') p <> []) by (intros Hn; apply (f_equal length) in Hn; rewrite length_take in Hn; change (length (@nil Z)) with O in Hn; lia).
  assert (Hpairs : args_pairs p = mkPair (decode (fst (cut_pair (take (S amp') p)))) (decode (snd (cut_pair (take (S amp') p)))) ::
    args_pairs (drop (S (S amp')) p)).
  { unfold args_pairs. rewrite Hseg. cbn [omap list_omap]. unfold arg_pair at 1. by rewrite bool_decide_false. }
  rewrite Hpairs. clear Hpairs Hseg. destruct (cut_pair (take (S amp') p)) as [raw_name raw_value]. cbn [fst snd].
  destruct (alloc mem) as [ok mem1] eqn:Ea. destruct ok; cbn [negb].
  2:{ eexists _, _. split; [done|]. right. split; [done|]. intros ->. done. }
  assert (Hm1 : mem = [] -> mem1 = []) by (intros ->; by injection Ea).
  destruct (unescape_spec raw_name mem1) as (rn & mem2 & -> & [[-> Hm2]|[-> Hm2]]); cbn [mbind option_bind].
  2:{ eexists _, _. split; [done|]. right. split; [done|]. eauto. }
  destruct (unescape_spec raw_value mem2) as (rv & mem3 & -> & [[-> Hm3]|[-> Hm3]]); cbn [mbind option_bind].
  2:{ eexists _, _. split; [done|]. right. split; [done|]. naive_solver. }
  destruct (IH (drop (S (S amp')) p) (pairs ++ [mkPair (decode raw_name) (decode raw_value)]) mem3)
    as (r & mem4 & -> & [[-> H4]|[-> H4]]); [rewrite length_drop; lia| |].
  - eexists _, _. split; [done|]. left. rewrite <- app_assoc. split; [done|]. auto.
  - eexists _, _. split; [done|]. right. split; [done|]. naive_solver.
Qed.

(** ** A round trip *)

Definition encode (s : bytes) : bytes := s ≫= percent.
Definition query (ps : list pair_t) : bytes :=
  mjoin ((fun p => encode p.(pr_name) ++ [eq_c] ++ encode p.(pr_value) ++ [amp_c]) <$> ps).

Lemma percent_plain b c : is_u8 b -> c = amp_c \/ c = eq_c \/ c = plus_c -> c ∉ percent b.
Proof.
  intros Hb Hc. unfold percent, hex_upper. pose proof (Z.mod_pos_bound b 16). assert (0 <= b / 16 < 16).
  { unfold is_u8 in Hb. split; [apply Z.div_pos; lia|apply Z.div_lt_upper_bound; lia]. }
  unfold amp_c, eq_c, plus_c, percent_c in *.
  rewrite !elem_of_cons, elem_of_nil. destruct (Z.ltb_spec (b / 16) 10), (Z.ltb_spec (b mod 16) 10); lia.
Qed.

Lemma encode_plain s c : is_bytes s -> c = amp_c \/ c = eq_c \/ c = plus_c -> c ∉ encode s.
Proof.
  intros Hs Hc. induction Hs as [|b s Hb _ IH]; [by intros ?%elem_of_nil|].
  change (encode (b :: s)) with (percent b ++ encode s). rewrite elem_of_app.
  intros [H|H]; [by apply (percent_plain b c)|done].
Qed.

Lemma decode_encode s : is_bytes s -> decode (encode s) = s.
Proof.
  intros Hs. enough (H : forall fuel, (length (encode s) <= fuel)%nat -> unescape fuel (encode s) = Some s)
    by (specialize (H _ (le_n _)); unfold decode; by rewrite H).
  induction Hs as [|b s Hb _ IH]; intros fuel Hf; [by destruct fuel|].
  change (encode (b :: s)) with (percent b ++ encode s) in *. rewrite length_app in Hf.
  unfold percent in Hf |- *. cbn [length app] in Hf |- *. destruct fuel as [|fuel]; [lia|]. cbn [unescape_loop].
  change (percent_c =? plus_c) with false. change (percent_c =? percent_c) with true. cbn iota. cbn [andb].
  rewrite (proj2 (Z.leb_le 3 _)) by (rewrite !zlen_cons; pose proof (zlen_nonneg (encode s)); lia).
  change (take 3 (percent_c :: hex_upper (b / 16) :: hex_upper (b mod 16) :: encode s)) with (percent b).
  rewrite (uu_hex b Hb). change (drop 3 (percent_c :: hex_upper (b / 16) :: hex_upper (b mod 16) :: encode s)) with (encode s).
  rewrite IH by lia. done.
Qed.

Lemma split_on_app c a b : c ∉ a -> split_on c (a ++ c :: b) = a :: split_on c b.
Proof.
  intros H. rewrite split_on_step, strlchr_app_none by done. rewrite take_app_length.
  replace (drop (S (length a)) (a ++ c :: b)) with b; [done|].
  rewrite drop_app_ge by lia. replace (S (length a) - length a)%nat with 1%nat by lia. done.
Qed.

Lemma args_pairs_query ps :
  Forall (fun p => is_bytes p.(pr_name) /\ is_bytes p.(pr_value)) ps -> args_pairs (query ps) = ps.
Proof.
  induction 1 as [|[n v] ps [Hn Hv] _ IH]; [done|]. cbn [pr_name pr_value] in Hn, Hv.
  unfold query. cbn [fmap list_fmap mjoin list_join pr_name pr_value]. fold (query ps).
  change (mjoin ((fun p => encode p.(pr_name) ++ [eq_c] ++ encode p.(pr_value) ++ [amp_c]) <$> ps)) with (query ps).
  replace ((encode n ++ [eq_c] ++ encode v ++ [amp_c]) ++ query ps) with ((encode n ++ eq_c :: encode v) ++ amp_c :: query ps)
    by (rewrite <- !app_assoc; done).
  unfold args_pairs. rewrite split_on_app.
  - cbn [omap list_omap]. unfold arg_pair at 1. rewrite bool_decide_false by (by destruct (encode n)).
    unfold cut_pair. rewrite strlchr_app_none by (apply encode_plain; tauto). rewrite take_app_length.
    rewrite drop_app_ge by lia. replace (S (length (encode n)) - length (encode n))%nat with 1%nat by lia.
    cbn [fst snd]. change (drop 1 (eq_c :: encode v)) with (encode v). rewrite !decode_encode by done. f_equal. exact IH.
  - rewrite elem_of_app, elem_of_cons. intros [H|[H|H]]; [|done|]; revert H; apply encode_plain; tauto.
Qed.

(** Arguments are read back as they were written.  On every argument
    string the parser ends, with an error when an allocation fails and
    otherwise with one pair for each stretch between ampersands that is not
    empty, cut at its first equals sign and percent-decoded, which never makes
    it longer; and the pairs of a query string in which every byte of every
    name and value is percent-encoded are those names and values. *)
Theorem args_roundtrip args mem ps :
  Forall (fun p => is_bytes p.(pr_name) /\ is_bytes p.(pr_value)) ps ->
  (exists r mem', ngx_http_waf_pairs_args unescape_uri args mem = Some (r, mem') /\
     (r = Some (args_pairs args) \/ r = None /\ mem <> [])) /\
  (forall seg p, seg ∈ split_on amp_c args -> arg_pair seg = Some p ->
     (length p.(pr_name) + length p.(pr_value) <= length seg)%nat) /\
  ngx_http_waf_pairs_args unescape_uri (query ps) [] = Some (Some ps, []).
Proof.
  intros Hps. split_and!.
  - destruct (args_loop_spec (length args) args [] mem (le_n _)) as (r & mem' & E & H). exists r, mem'. split; [exact E|].
    destruct H as [[H _]|H]; [by left|by right].
  - intros seg p _. unfold arg_pair. case_bool_decide; [done|]. intros [= <-]. cbn [pr_name pr_value].
    pose proof (decode_fits (fst (cut_pair seg))) as H1. pose proof (decode_fits (snd (cut_pair seg))) as H2.
    enough (length (fst (cut_pair seg)) + length (snd (cut_pair seg)) <= length seg)%nat by lia.
    unfold cut_pair. destruct (ngx_strlchr seg eq_c) as [e|]; cbn [fst snd length]; [|lia]. rewrite length_take, length_drop. lia.
  - destruct (args_loop_spec (length (query ps)) (query ps) [] [] (le_n _)) as (r & mem' & E & H).
    unfold ngx_http_waf_pairs_args. rewrite E. destruct H as [[-> H]|[_ H]]; [|done].
    rewrite H by done. cbn [app]. by rewrite args_pairs_query.
Qed.

(** ** Cookies and headers *)

Definition cookie_pair (seg : bytes) : option pair_t :=
  match ngx_strlchr seg eq_c with
  | None => None
  | Some e => Some (mkPair (trim (take e seg)) (unquote (trim (drop (S e) seg))))
  end.
Definition cookie_pairs (value : bytes) : list pair_t := omap cookie_pair (split_on semi_c value).

Lemma cookie_loop_spec fuel p pairs mem :
  (length p <= fuel)%nat ->
  exists r mem', cookie_loop fuel p pairs mem = Some (r, mem') /\
    (r = Some (pairs ++ cookie_pairs p) /\ (mem = [] -> mem' = []) \/ r = None /\ mem <> []).
Proof.
  revert p pairs mem. induction fuel as [|fuel IH]; intros p pairs mem Hf.
  { destruct p; [|cbn in Hf; lia]. eexists _, _. split; [done|]. left. by rewrite app_nil_r. }
  destruct p as [|x p']; [eexists _, _; split; [done|]; left; by rewrite app_nil_r|].
  cbn [cookie_loop]. assert (Hp : (0 < length (x :: p'))%nat) by (cbn; lia). revert Hf Hp.
  generalize (x :: p'). clear x p'. intros p Hf Hp.
  pose proof (omap_segments cookie_pair semi_c p eq_refl) as Hseg. cbn zeta in Hseg. unfold cookie_pairs. rewrite Hseg. clear Hseg.
  generalize (default (length p) (ngx_strlchr p semi_c)). intros semi. cbn [omap list_omap]. unfold cookie_pair at 1 3.
  destruct (ngx_strlchr (take semi p) eq_c) as [e|].
  2:{ apply IH. rewrite length_drop. lia. }
  destruct (alloc mem) as [ok mem1] eqn:Ea. destruct ok; cbn [negb].
  2:{ eexists _, _. split; [done|]. right. split; [done|]. intros ->. done. }
  assert (Hm1 : mem = [] -> mem1 = []) by (intros ->; by injection Ea).
  set (pr := mkPair _ _). destruct (IH (drop (S semi) p) (pairs ++ [pr]) mem1) as (r & mem2 & -> & [[-> H]|[-> H]]);
    [rewrite length_drop; lia| |]; eexists _, _; (split; [done|]).
  - left. rewrite <- app_assoc. split; [done|auto].
  - right. split; [done|naive_solver].
Qed.

Lemma cookies_spec cookies pairs :
  ngx_http_waf_pairs_cookies cookies pairs [] = Some (Some (pairs ++ mjoin (cookie_pairs <$> cookies)), []).
Proof.
  revert pairs. induction cookies as [|c cookies IH]; intros pairs; cbn [ngx_http_waf_pairs_cookies]; [by rewrite app_nil_r|].
  unfold ngx_http_waf_cookie_split. destruct (cookie_loop_spec (length c) c pairs [] (le_n _)) as (r & mem' & -> & [[-> H]|[_ H]]); [|done].
  cbn [mbind option_bind]. rewrite H, IH by done. cbn [fmap list_fmap mjoin list_join]. by rewrite app_assoc.
Qed.

Lemma headers_spec headers pairs : ngx_http_waf_pairs_headers headers pairs [] = (Some (pairs ++ headers), []).
Proof.
  revert pairs. induction headers as [|h headers IH]; intros pairs; cbn [ngx_http_waf_pairs_headers alloc negb]; [by rewrite app_nil_r|].
  by rewrite IH, <- app_assoc.
Qed.

(** ** Operands *)

Section operands.
Context (rq : sel_req) (complex_value : Z -> option bytes).
Context {D : Type} `{!DatasetOps D}.

Definition pairs_of (o : sel_e) : list pair_t :=
  match o with
  | SEL_ARGS => args_pairs rq.(rq_args)
  | SEL_COOKIES => mjoin (cookie_pairs <$> rq.(rq_cookies))
  | _ => rq.(rq_headers)
  end.

(** Memory is there, and what is remembered was parsed from the request. *)
Definition ready (x : sel_ctx) : Prop :=
  x.(sx_mem) = [] /\ forall o, x.(sx_parsed) o = true -> x.(sx_pairs) o = Some (pairs_of o).

Lemma ready_spec o x :
  ready x -> exists x', ngx_http_waf_pairs_ready unescape_uri rq o x = Some (NGX_OK, x') /\ ready x' /\ x'.(sx_pairs) o = Some (pairs_of o).
Proof.
  intros [Hm Hr]. unfold ngx_http_waf_pairs_ready. destruct (sx_parsed x o) eqn:E.
  { rewrite (Hr o E). exists x. by split_and!; [|split|apply Hr]. }
  rewrite Hm. cbn [alloc negb]. set (x' := mkSelCtx (sel_set (sx_parsed x) o true) (sel_set (sx_pairs x) o (Some (pairs_of o))) []).
  assert (Hx' : ready x' /\ sx_pairs x' o = Some (pairs_of o)).
  { unfold x', ready, sel_set. cbn. split_and!; [done| |by rewrite bool_decide_true]. intros o'.
    destruct (bool_decide_reflect (o' = o)) as [->|]; [done|]. apply Hr. }
  exists x'. split; [|exact Hx']. destruct o; cbn [pairs_of] in *.
  - by rewrite headers_spec.
  - destruct (args_loop_spec (length (rq_args rq)) (rq_args rq) [] [] (le_n _)) as (r & mem' & E' & [[-> H]|[_ H]]); [|done].
    unfold ngx_http_waf_pairs_args. rewrite E', H by done. done.
  - by rewrite cookies_spec.
  - by rewrite headers_spec.
Qed.

(** The values of an operand. *)
Definition values (op : operand_t) : list bytes :=
  if op.(op_object) ==? SEL_VAR then option_list (complex_value op.(op_value))
  else pr_value <$> filter (fun p => ngx_http_waf_pair_named op p = true) (pairs_of op.(op_object)).
Definition as_address (op : operand_t) : bool := (op.(op_object) ==? SEL_VAR) && op.(op_binary).
Definition operand_in (op : operand_t) (ds : D) : bool := existsb (fun v => dataset_hit ds v (as_address op)) (values op).

Lemma operand_hit_spec op ds x :
  ready x -> exists matched x', ngx_http_waf_operand_hit unescape_uri rq complex_value op ds x = Some (matched, x') /\ ready x' /\
    bool_decide (is_Some matched) = operand_in op ds /\
    forall v, matched = Some v -> v ∈ values op /\ dataset_hit ds v (as_address op) = true.
Proof.
  intros Hx. unfold ngx_http_waf_operand_hit, operand_in, values, as_address.
  destruct (bool_decide_reflect (op_object op = SEL_VAR)) as [Ev|Ev]; cbn [andb].
  - eexists _, x. split; [done|]. split; [done|]. destruct (complex_value (op_value op)) as [v|]; cbn [option_list option_rect existsb orb]; [|done].
    destruct (dataset_hit ds v (op_binary op)) eqn:E; cbn [orb]; [|done]. split; [done|]. intros v' [= <-]. split; [by left|done].
  - destruct (ready_spec (op_object op) x Hx) as (x' & -> & Hx' & Hp). cbn [mbind option_bind rc_ok]. change (rc_ok NGX_OK) with true.
    cbn [negb]. rewrite Hp. cbn [default from_option id]. eexists _, x'. split; [done|]. split; [done|]. clear Hp.
    induction (pairs_of (op_object op)) as [|p ps IH]; [done|]. cbn [find]. rewrite filter_cons.
    destruct (ngx_http_waf_pair_named op p) eqn:En; cbn [andb].
    2:{ rewrite decide_False by done. exact IH. }
    rewrite decide_True by done. cbn [fmap list_fmap existsb].
    destruct (Z.eqb_spec (zlen (pr_value p)) 0) as [Ez|Ez]; cbn [negb andb].
    { assert (pr_value p = []) as -> by (apply nil_length_inv; unfold zlen in Ez; lia).
      rewrite dataset_hit_nil. cbn [orb]. destruct IH as [I1 I2]. split; [exact I1|]. intros v Hv. destruct (I2 v Hv). split; [by right|done]. }
    destruct (dataset_hit ds (pr_value p) false) eqn:Eh; cbn [orb].
    { split; [done|]. intros v [= <-]. split; [by left|done]. }
    destruct IH as [I1 I2]. split; [exact I1|]. intros v Hv. destruct (I2 v Hv). split; [by right|done].
Qed.

(** ** Conditions and checks *)

Definition cond_holds (c : cond_t D) : bool := xorb (operand_in c.(cd_operand) c.(cd_dataset)) c.(cd_negate).

Lemma cond_test_spec conds x :
  ready x -> exists x', ngx_http_waf_cond_test unescape_uri rq complex_value conds x = Some (forallb cond_holds conds, x') /\ ready x'.
Proof.
  revert x. induction conds as [|c conds IH]; intros x Hx; cbn [ngx_http_waf_cond_test forallb]; [by exists x|].
  destruct (operand_hit_spec (cd_operand c) (cd_dataset c) x Hx) as (m & x' & -> & Hx' & Hm & _). cbn [mbind option_bind].
  rewrite Hm. unfold cond_holds at 1. destruct (operand_in (cd_operand c) (cd_dataset c)), (cd_negate c); cbn [Bool.eqb xorb andb];
    first [by exists x'|by apply IH].
Qed.

Definition applies (r : check_rule_t D) : bool := forallb cond_holds r.(ck_conds) && operand_in r.(ck_operand) r.(ck_dataset).
Definition outcome (r : option (check_rule_t D)) : ngx_rc :=
  match r with
  | None => NGX_DECLINED
  | Some r => match r.(ck_action) with CHECK_ALLOW => NGX_OK | CHECK_WAVE => NGX_DONE | CHECK_BLOCK => NGX_ERROR end
  end.

(** C29: The checks of a location are decided by their first rule that
    applies: one whose conditions all hold, a plain one when some value of its
    operand is in its dataset and a negated one when none is, and whose own
    operand has a value in the rule's dataset.  The rule's action is the
    outcome; without such a rule the request goes on.  The values of an
    operand are those of the variable, or of every argument, cookie or header
    with its name, however often they are asked for. *)
Theorem first_rule_decides rules x :
  ready x ->
  exists x', ngx_http_waf_dataset_check unescape_uri rq complex_value rules x =
               Some (outcome (find applies rules), find applies rules, x') /\ ready x'.
Proof.
  revert x. induction rules as [|r rules IH]; intros x Hx; cbn [ngx_http_waf_dataset_check find]; [by exists x|].
  destruct (cond_test_spec (ck_conds r) x Hx) as (x1 & -> & H1). cbn [mbind option_bind]. unfold applies at 1 3.
  destruct (forallb cond_holds (ck_conds r)); cbn [negb andb]; [|by apply IH].
  destruct (operand_hit_spec (ck_operand r) (ck_dataset r) x1 H1) as (m & x2 & -> & H2 & <- & _). cbn [mbind option_bind].
  destruct m as [v|]; [rewrite bool_decide_true by (by eexists); by exists x2|].
  rewrite bool_decide_false by (by intros [? ?]). by apply IH.
Qed.

End operands.
End request.
(** ** An instance and examples *)

Definition hex_value (c : Z) : option Z :=
  if (48 <=? c) && (c <=? 57) then Some (c - 48)
  else if (65 <=? c) && (c <=? 70) then Some (c - 55)
  else if (97 <=? c) && (c <=? 102) then Some (c - 87)
  else None.
Definition plain_unescape (p : bytes) : bytes * nat :=
  match p with
  | [c; a; b] =>
      match hex_value a, hex_value b with
      | Some x, Some y => if c =? percent_c then ([16 * x + y], 3%nat) else ([], 0%nat)
      | _, _ => ([], 0%nat)
      end
  | _ => ([], 0%nat)
  end.

Lemma hex_value_upper d : 0 <= d < 16 -> hex_value (hex_upper d) = Some d.
Proof.
  intros Hd. unfold hex_value, hex_upper. destruct (Z.ltb_spec d 10).
  - rewrite (proj2 (Z.leb_le 48 _)), (proj2 (Z.leb_le _ 57)) by lia. cbn [andb]. f_equal. lia.
  - rewrite (proj2 (Z.leb_gt _ 57)) by lia. rewrite andb_false_r.
    rewrite (proj2 (Z.leb_le 65 _)), (proj2 (Z.leb_le _ 70)) by lia. cbn [andb]. f_equal. lia.
Qed.

#[export] Instance plain_unescape_uri : UnescapeUri plain_unescape.
Proof.
  split.
  - intros [|c [|a [|b [|x p]]]]; try done. cbn. intros _. destruct (hex_value a), (hex_value b); try done.
    destruct (c =? percent_c); cbn; [lia|done].
  - intros b Hb. unfold is_u8 in Hb. unfold percent, plain_unescape.
    rewrite !hex_value_upper; [|apply Z.mod_pos_bound; lia|split; [apply Z.div_pos; lia|apply Z.div_lt_upper_bound; lia]].
    change (percent_c =? percent_c) with true. do 2 f_equal. pose proof (Z.div_mod b 16). f_equal. lia.
Qed.

Definition demo_args : bytes := lit "a=1&&b=%41+x&c".
Lemma args_roundtrip_witness :
  ngx_http_waf_pairs_args plain_unescape demo_args [] =
    Some (Some [mkPair (lit "a") (lit "1"); mkPair (lit "b") (lit "A x"); mkPair (lit "c") []], []) /\
  ngx_http_waf_pairs_args plain_unescape (query [mkPair (lit "k&") (lit "=v")]) [] = Some (Some [mkPair (lit "k&") (lit "=v")], []).
Proof.
  split; [vm_compute; reflexivity|].
  apply (args_roundtrip demo_args [] [mkPair (lit "k&") (lit "=v")]).
  constructor; [|constructor]. split; [change (is_bytes [107; 38])|change (is_bytes [61; 118])];
    (repeat (apply Forall_cons_2; [unfold is_u8; lia|])); apply Forall_nil_2.
Defined.

(** Two datasets of one word each. *)
Definition word_hit (d v : bytes) (_ : bool) : bool := negb (zlen v =? 0) && bytes_eqb d v.
#[local] Instance word_ops : DatasetOps bytes := {| dataset_hit := word_hit; dataset_hit_nil := fun _ _ => eq_refl |}.
Definition demo_req : sel_req := mkSelReq demo_args [lit "sid= q ; t=9"] [mkPair (lit "X-Key") (lit "k")].
Definition demo_rules : list (check_rule_t bytes) :=
  [mkCheckRule (mkOperand SEL_COOKIES (lit "sid") false false 0) (lit "z") [] CHECK_ALLOW 0;
   mkCheckRule (mkOperand SEL_HEADERS (lit "x-key") false false 0) (lit "k")
     [mkCond (mkOperand SEL_ARGS [] true false 0) (lit "A x") false] CHECK_BLOCK 7].
Definition demo_ctx : sel_ctx := mkSelCtx (fun _ => false) (fun _ => None) [].

Lemma first_rule_decides_witness :
  exists x r, ngx_http_waf_dataset_check plain_unescape demo_req (fun _ => None) demo_rules demo_ctx = Some (NGX_ERROR, Some r, x) /\
    r.(ck_response) = 7.
Proof.
  destruct (first_rule_decides demo_req (fun _ => None) demo_rules demo_ctx) as (x & E & _); [by split|].
  exists x. eexists. split; [rewrite E; vm_compute; reflexivity|reflexivity].
Defined.

End SelectFacts.
