(* ===== verification/DsHit.v ===== *)
(** Asking a dataset for a value ([ngx_http_waf_dataset_hit] of
    local/ngx_http_waf_dataset.c): the published set of an internal dataset,
    the overlay of any other; and that a ban is found until it is over. *)
From stdpp Require Import gmap sorting.
From S2P Require Import Prelude Types Rate RateFacts DsSet DsSetFacts DsStrFacts DsLive DsLiveFacts Select.
Import Rate RateFacts DsSet DsSetFacts DsStrFacts DsLive DsLiveFacts Select.
#[local] Open Scope Z_scope.

Module DsHit.

(** A declared dataset, its slot and the set it holds; [None]: no zone, or an
    index that is out of range. *)
Record ds_view := mkView {
  dv_type : ds_type_e;
  dv_mode : ds_mode_e;
  dv_md5 : bool;
  dv_slot : option (ds_slot * option ds_set)
}.

Section hit.
Context (memn2cmp : bytes -> bytes -> Z) (crc32_long crc32_short : bytes -> Z) (md5_hex : bytes -> bytes).
Context (inet_addr inet6_addr : bytes -> option bytes) (now : Z).

Definition ngx_http_waf_dataset_hit (ds : ds_view) (value : bytes) (binary : bool) : bool :=
  if zlen value =? 0 then false
  else
    match ds.(dv_slot) with
    | None => false
    | Some (slot, set) =>
        if ds.(dv_type) ==? DS_CIDR then
          match ngx_http_waf_ds_addr inet_addr inet6_addr value binary with
          | None => false
          | Some (fam, addr) =>
              if negb (ds.(dv_mode) ==? MODE_INTERNAL)
              then ngx_http_waf_ds_live_probe memn2cmp crc32_long now fam addr slot
              else match set with
                   | Some (CidrSet s) => ngx_http_waf_ds_lookup_cidr s fam addr
                   | _ => false
                   end
          end
        else
          let value := if ds.(dv_md5) then md5_hex value else value in
          if negb (ds.(dv_mode) ==? MODE_INTERNAL)
          then ngx_http_waf_ds_live_hit memn2cmp crc32_long now value slot
          else match set with
               | Some (StrSet s) =>
                   negb (s.(ss_entries) =? 0)
                   && match ngx_http_waf_ds_str_probe crc32_short s value with Some (hit, _) => hit | None => false end
               | _ => false
               end
    end.

Lemma hit_nil ds binary : ngx_http_waf_dataset_hit ds [] binary = false.
Proof. done. Qed.
#[export] Instance view_ops : DatasetOps ds_view :=
  {| dataset_hit := ngx_http_waf_dataset_hit; dataset_hit_nil := hit_nil |}.

End hit.

Section bans.
Context {memn2cmp : bytes -> bytes -> Z} {rebalance : tree -> tree} {rb_delete : tree -> Z -> tree}.
Context `{!RbTree memn2cmp rebalance rb_delete}.
Context {inet_addr inet6_addr : bytes -> option bytes} `{!InetAddr inet_addr inet6_addr}.
Context (crc32_long crc32_short : bytes -> Z) (md5_hex : bytes -> bytes).

Abbreviation inv := (slot_inv (memn2cmp := memn2cmp) crc32_long).
Abbreviation put := (ngx_http_waf_ds_live_put memn2cmp crc32_long rebalance).

(** A put of local origin that is taken gives the entry its expiry. *)
Lemma put_ok_expires key expires gen s s' :
  inv s -> is_bytes key -> put key expires 0 gen s = (PUT_OK, s') ->
  inv s' /\ s'.(sl_type) = s.(sl_type) /\ key_ok s.(sl_type) key /\
  exists e, entries s' !! key = Some e /\ e.(e_expires) = expires.
Proof.
  intros Hi Hb Hput. pose proof (put_spec (rebalance := rebalance) (rb_delete := rb_delete) crc32_long key expires 0 gen s Hi Hb) as Hp.
  rewrite Hput in Hp. destruct Hp as (H1 & H2 & _ & Hk & He). split; [done|]. split; [by apply frame_fields in H2 as [-> _]|]. split; [done|].
  eexists. rewrite He, lookup_insert_eq. split; [done|]. destruct (entries s !! key) as [e0|] eqn:E0; [|done].
  revert Hput. unfold ngx_http_waf_ds_live_put. destruct ((zlen key =? 0) || _); [done|].
  destruct (ngx_http_waf_ds_live_bits _ _) as [[rc fam] bits]. destruct (rc ==? NGX_ERROR); [done|].
  pose proof (ensure_spec (memn2cmp := memn2cmp) crc32_long s Hi) as Hens. destruct (ngx_http_waf_ds_live_ensure s) as [[lv|] s1]; [|done].
  destruct Hens as (_ & Hi1 & He1 & _ & _ & Hl & _). pose proof Hi1 as [_ Hi1']. rewrite Hl in Hi1'.
  pose proof (lookup_live (rebalance := rebalance) (rb_delete := rb_delete) crc32_long s1 lv key Hi1') as Hlk.
  assert (Eo : entries s1 = overlay (nodes_of lv)) by (unfold entries; by rewrite Hl). rewrite <- He1, Eo in E0.
  destruct (ngx_http_waf_ds_live_lookup _ _ _ _) as [a|]; [|congruence]. destruct Hlk as (_ & _ & Hlk). rewrite Hlk in E0. injection E0 as <-.
  cbn zeta. unfold merge. change (0 =? 0) with true. cbn [negb]. change (e_expires (entry_of (live_at lv a))) with (ln_expires (live_at lv a)).
  change (ln_expires ((live_at lv a) <| ln_gen := gen |>)) with (ln_expires (live_at lv a)).
  destruct (negb (expires =? 0) && negb (ln_expires (live_at lv a) =? 0) && (expires <=? ln_expires (live_at lv a))); done.
Qed.

(** An address lies in the network of all its bits. *)
Lemma net_of_all fam a :
  zlen a = addr_len fam -> is_bytes a -> net_of fam (8 * addr_len fam) a = (if fam =? 0 then 4 else 6) :: (if fam =? 0 then 32 else 128) :: a.
Proof.
  intros Hl Hb. unfold net_of, net_key. rewrite <- keep_bits_mask by done.
  replace (keep_bits (8 * addr_len fam) a (addr_len fam)) with a; [unfold addr_len; by destruct (fam =? 0)|].
  unfold keep_bits. rewrite <- Hl. apply list_eq. intros i. change (map ?f ?l) with (f <$> l). rewrite list_lookup_fmap. unfold zlen.
  destruct (decide (i < length a)%nat) as [Hi|Hi].
  - rewrite lookup_seqZ_lt by lia. cbn [fmap option_fmap option_map]. cbn zeta.
    rewrite (proj2 (Z.leb_le 8 _)) by lia. rewrite aget_lookup, Z.add_0_l, Nat2Z.id by lia.
    destruct (lookup_lt_is_Some_2 a i Hi) as [x ->]. done.
  - rewrite lookup_seqZ_ge by lia. apply lookup_ge_None_2. lia.
Qed.

(** The time a ban has left. *)
Lemma ban_live now ttl later e :
  0 <= later <= ttl * 1000 -> ttl * 1000 < 2 ^ 63 -> e.(e_expires) = u64 (now + u64 (ttl * 1000)) ->
  live_entry (u64 (now + later)) e = true.
Proof.
  intros Hl Ht He. unfold live_entry. rewrite He. apply orb_true_iff. right.
  rewrite (u64_small (ttl * 1000)) by (unfold is_u64; lia). unfold msec_diff. apply Z.leb_le.
  replace (s64 (u64 (now + ttl * 1000) - u64 (now + later))) with (ttl * 1000 - later); [lia|].
  unfold s64, u64. rewrite <- (Zplus_mod_idemp_l (_ - _)). rewrite <- Zminus_mod. rewrite Zplus_mod_idemp_l.
  rewrite Z.mod_small by lia. lia.
Qed.

(** C30: A ban is found until it is over.  When a value is put into a dataset
    that is fed at run time and the overlay takes it, every request that
    carries the value within the ban's time is a hit, whether the value is a
    string, the digest of one, or an address in either family and in text or
    binary form. *)
Theorem ban_is_hit type mode md5 value binary ttl now later s key s' set :
  inv s -> is_bytes value -> (forall v, is_bytes (md5_hex v)) -> s.(sl_type) = type -> mode <> MODE_INTERNAL ->
  (type = DS_CIDR -> md5 = false) -> 0 <= later <= ttl * 1000 -> ttl * 1000 < 2 ^ 63 ->
  ngx_http_waf_dataset_put memn2cmp crc32_long rebalance inet_addr inet6_addr md5_hex md5 type value binary ttl now s
    = (NGX_OK, Some key, s') ->
  ngx_http_waf_dataset_hit memn2cmp crc32_long crc32_short md5_hex inet_addr inet6_addr (u64 (now + later))
    (mkView type mode md5 (Some (s', set))) value binary = true.
Proof.
  intros Hi Hv Hmd Ht Hmode Hmd5 Hl Httl. unfold ngx_http_waf_dataset_put, ngx_http_waf_dataset_hit.
  destruct (Z.eqb_spec (zlen value) 0) as [|Hz]; [done|]. cbn [orb]. destruct (ttl =? 0); [done|]. cbn [dv_slot dv_type dv_mode dv_md5].
  rewrite (bool_decide_false (mode = MODE_INTERNAL)) by done. cbn [negb]. unfold ngx_http_waf_ds_material.
  set (v := if md5 then md5_hex value else value). assert (Hvb : is_bytes v) by (unfold v; by destruct md5).
  assert (Hgo : forall k, is_bytes k ->
    (let '(rc, s0) := put k (u64 (now + u64 (ttl * 1000))) 0 (ngx_http_waf_ds_live_gen s) s in
     match rc with PUT_DECLINED => (NGX_DECLINED, None, s0) | PUT_OK => (NGX_OK, Some k, s0) | _ => (NGX_ERROR, None, s0) end)
    = (NGX_OK, Some key, s') ->
    inv s' /\ sl_type s' = type /\ k = key /\ key_ok type key /\
    exists e, entries s' !! key = Some e /\ live_entry (u64 (now + later)) e = true).
  { intros k Hk. destruct (put k _ 0 _ s) as [rc s0] eqn:Ep. destruct rc; try done. intros [= <- <-].
    destruct (put_ok_expires _ _ _ _ _ Hi Hk Ep) as (P1 & P2 & P3 & e & P4 & P5). rewrite Ht in *.
    split_and!; try done. exists e. split; [done|]. by eapply ban_live. }
  destruct (bool_decide_reflect (type = DS_CIDR)) as [Ec|Ec]; cbn [negb].
  - assert (Ev : v = value) by (unfold v; by rewrite Hmd5). rewrite Ev in *.
    destruct (ngx_http_waf_ds_addr inet_addr inet6_addr value binary) as [[fam a]|] eqn:Ea; [|done].
    destruct (ds_addr_address value binary fam a Hv Ea) as [Hab Hfa].
    intros Hput. set (k := _ :: _ :: a) in Hput. assert (Hk : is_bytes k).
    { unfold k. constructor; [destruct (fam =? 0); done|]. constructor; [destruct (fam =? 0); done|done]. }
    destruct (Hgo k Hk Hput) as (I1 & I2 & <- & I3 & e & I4 & I5).
    assert (Hf : 0 <= fam <= 1 /\ zlen a = addr_len fam) by (unfold addr_len; destruct Hfa as [[-> ?]|[-> ?]]; cbn; lia).
    destruct Hf as [Hf Hal]. unfold ngx_http_waf_ds_live_probe.
    destruct (sl_live s') as [lv|] eqn:Hlv; [|unfold entries in I4; by rewrite Hlv in I4].
    replace (if fam =? 0 then 4 else 16) with (addr_len fam) by done.
    assert (0 < addr_len fam) by (unfold addr_len; destruct (fam =? 0); lia).
    apply (probe_lens_spec (rebalance := rebalance) (rb_delete := rb_delete) crc32_long _ _ fam a s' lv); try done; [congruence|lia|].
    exists (8 * addr_len fam), e. split; [lia|]. split; [|done].
    by rewrite net_of_all.
  - intros Hput. destruct (Hgo v Hvb Hput) as (I1 & I2 & <- & _ & e & I4 & I5).
    apply (hit_spec (memn2cmp := memn2cmp) (rebalance := rebalance) (rb_delete := rb_delete)); [done|]. by exists e.
Qed.

End bans.
(** 192.0.2.7, banned for ten seconds, asked for nine seconds later. *)
Lemma ban_is_hit_witness :
  exists s', ngx_http_waf_dataset_put lex zlen id no_text no_text (fun _ => []) false DS_CIDR [192; 0; 2; 7] true 10 1000 (slot0 DS_CIDR 100 [])
    = (NGX_OK, Some [4; 32; 192; 0; 2; 7], s') /\
    ngx_http_waf_dataset_hit lex zlen zlen (fun _ => []) no_text no_text 10000 (mkView DS_CIDR MODE_ACTIVE false (Some (s', None))) [192; 0; 2; 7] true = true.
Proof.
  eexists. split; [vm_compute; reflexivity|].
  eapply (ban_is_hit (rebalance := id) (rb_delete := plain_delete) zlen zlen (fun _ => []) DS_CIDR MODE_ACTIVE false [192; 0; 2; 7] true
    10 1000 9000 (slot0 DS_CIDR 100 []) [4; 32; 192; 0; 2; 7]); try done; try lia.
  - repeat (apply Forall_cons_2; [unfold is_u8; lia|]); apply Forall_nil_2.
  - intros _. apply Forall_nil_2.
Defined.

End DsHit.
