(* ===== verification/DsZone.v ===== *)
(** The slots of the datasets in the shared zone
    ([ngx_http_waf_dataset_init_zone], [ngx_http_waf_dataset_bind] and
    [ngx_http_waf_ds_slot_reset] of local/ngx_http_waf_dataset.c): how the
    datasets a configuration declares find their slots when it is loaded,
    which slots are given up, and what is kept.

    The publication of a set is an assignment here; DsPublish.v has it against
    readers.  The names of the slots are in [zs_name], the rest of a slot in
    [zs_slot] and [zs_set]. *)
From stdpp Require Import gmap.
From S2P Require Import Prelude Types Rate DsSet DsLive DsPack.
Import Rate DsSet DsLive DsPack.
#[local] Open Scope Z_scope.

Module DsZone.

#[export] Instance ds_mode_e_eq_dec : EqDecision ds_mode_e.
Proof. solve_decision. Defined.

Record zslot := mkZslot {
  zs_bound : bool;
  zs_name : bytes;
  zs_mode : ds_mode_e;
  zs_gen : Z;
  zs_released : Z;
  zs_slot : ds_slot;
  zs_set : option ds_set
}.
#[export] Instance eta_zslot : Eta zslot := fun r =>
  mkZslot r.(zs_bound) r.(zs_name) r.(zs_mode) r.(zs_gen) r.(zs_released) r.(zs_slot) r.(zs_set).

Record zone := mkZone { zn_gen : Z; zn_committed : Z; zn_slots : list zslot }.

Record decl := mkDecl { d_name : bytes; d_type : ds_type_e; d_mode : ds_mode_e; d_live_max : Z; d_entries : list bytes }.

Section init.
Context (rb_delete : tree -> Z -> tree) (rb_min : tree -> option Z).
(** [ngx_http_waf_ds_build] on a declared dataset. *)
Context (build : decl -> ngx_rc * option ds_set).

Definition ngx_http_waf_ds_slot_reset (z : zslot) : zslot :=
  z <| zs_slot := slot_reset rb_delete rb_min z.(zs_slot) |> <| zs_set := None |>.

(** The first slot that is bound to the name. *)
Definition find_slot (zs : list zslot) (name : bytes) : option nat :=
  fst <$> list_find (fun z => z.(zs_bound) = true /\ z.(zs_name) = name) zs.

Definition changed (z : zslot) (d : decl) : bool :=
  negb (z.(zs_slot).(sl_type) ==? d.(d_type)) || ((z.(zs_mode) ==? MODE_ACTIVE) && (d.(d_mode) ==? MODE_INTERNAL)).

(** The slots the datasets have already, and those of them whose data go. *)
Definition known_slots (zs : list zslot) (ds : list decl) : list (option nat) := (fun d => find_slot zs d.(d_name)) <$> ds.
Definition known_reset (zs : list zslot) (ds : list decl) : gset nat :=
  list_to_set (omap (fun d => j ← find_slot zs d.(d_name); z ← zs !! j; if changed z d then Some j else None) ds).

(** A slot that no declaration named and no running worker names. *)
Definition given_up (committed : Z) (taken : gset nat) (j : nat) (z : zslot) : bool :=
  z.(zs_bound) && negb (bool_decide (j ∈ taken)) && (z.(zs_gen) <? committed).
Definition release (gen committed : Z) (taken : gset nat) (j : nat) (z : zslot) : zslot :=
  if given_up committed taken j z then z <| zs_bound := false |> <| zs_released := gen |> else z.
Definition freed_slots (committed : Z) (taken : gset nat) (zs : list zslot) : gset nat :=
  list_to_set (fst <$> filter (fun jz => given_up committed taken (fst jz) (snd jz) = true) (imap pair zs)).

(** The free slot that was given up first. *)
Fixpoint best_free (zs : list zslot) (taken : gset nat) (j : nat) (best : option (nat * Z)) : option nat :=
  match zs with
  | [] => fst <$> best
  | z :: zs =>
      best_free zs taken (S j)
        (if z.(zs_bound) || bool_decide (j ∈ taken) then best
         else match best with
              | None => Some (j, z.(zs_released))
              | Some (_, r) => if z.(zs_released) <? r then Some (j, z.(zs_released)) else best
              end)
  end.

(** The slots of all datasets; [None] when there is no slot left.  The slots
    that were free lose their data. *)
Fixpoint assign (zs : list zslot) (slots : list (option nat)) (taken reset : gset nat) : option (list nat) * gset nat :=
  match slots with
  | [] => (Some [], reset)
  | Some j :: slots => let '(idx, reset) := assign zs slots taken reset in (cons j <$> idx, reset)
  | None :: slots =>
      match best_free zs taken 0 None with
      | None => (None, reset)
      | Some b => let '(idx, reset) := assign zs slots ({[b]} ∪ taken) ({[b]} ∪ reset) in (cons b <$> idx, reset)
      end
  end.

Definition reset_slots (reset : gset nat) (zs : list zslot) : list zslot :=
  imap (fun j z => if bool_decide (j ∈ reset) then ngx_http_waf_ds_slot_reset z else z) zs.

(** The sets of the internal datasets; [None] when one could not be built. *)
Fixpoint build_sets (ds : list decl) : option (list (option ds_set)) :=
  match ds with
  | [] => Some []
  | d :: ds =>
      if negb (d.(d_mode) ==? MODE_INTERNAL) then cons None <$> build_sets ds
      else match build d with
           | (NGX_OK, set) => cons set <$> build_sets ds
           | _ => None
           end
  end.

Definition bind_slot (gen : Z) (d : decl) (set : option ds_set) (z : zslot) : zslot :=
  let z := if negb z.(zs_bound) then z <| zs_name := d.(d_name) |> <| zs_bound := true |> else z in
  let z := if negb (z.(zs_mode) ==? d.(d_mode))
           then z <| zs_slot ::= fun s => s <| sl_seq := 0 |> <| sl_epoch := 0 |> |> else z in
  let z := z <| zs_slot ::= fun s => s <| sl_type := d.(d_type) |> <| sl_live_max := d.(d_live_max) |> |>
             <| zs_mode := d.(d_mode) |> <| zs_gen := gen |> in
  if d.(d_mode) ==? MODE_INTERNAL
  then z <| zs_set := set |>
         <| zs_slot ::= fun s => s <| sl_seq := match set with Some _ => 1 | None => 0 end |> |>
  else z <| zs_set := None |>.

Fixpoint bind_all (gen : Z) (ds : list decl) (idx : list nat) (sets : list (option ds_set)) (zs : list zslot) : list zslot :=
  match ds, idx, sets with
  | d :: ds, j :: idx, set :: sets => bind_all gen ds idx sets (alter (bind_slot gen d set) j zs)
  | _, _, _ => zs
  end.

(** The result, the [index] of every dataset, and the zone. *)
Definition ngx_http_waf_dataset_init_zone (ds : list decl) (zn : zone) : ngx_rc * list nat * zone :=
  let gen := u64 (zn.(zn_gen) + 1) in
  let zs := zn.(zn_slots) in
  let known := known_slots zs ds in
  let taken : gset nat := list_to_set (omap id known) in
  let reset := known_reset zs ds ∪ freed_slots zn.(zn_committed) taken zs in
  let zs := imap (release gen zn.(zn_committed) taken) zs in
  let '(idx, reset) := assign zs known taken reset in
  let zs := reset_slots reset zs in
  match idx with
  | None => (NGX_ERROR, [], mkZone gen zn.(zn_committed) zs)
  | Some idx =>
      match build_sets ds with
      | None => (NGX_ERROR, [], mkZone gen zn.(zn_committed) zs)
      | Some sets => (NGX_OK, idx, mkZone gen zn.(zn_committed) (bind_all gen ds idx sets zs))
      end
  end.

(** The configuration of generation [gen] is the running one. *)
Definition ngx_http_waf_dataset_bind (gen : Z) (zn : zone) : zone :=
  if zn.(zn_committed) <? gen then mkZone zn.(zn_gen) gen zn.(zn_slots) else zn.

End init.
End DsZone.
