(* ===== verification/DsZoneFacts.v ===== *)
(** What loading a configuration promises to the datasets in the zone: every
    dataset gets a slot of its own, keeps the one it had, and what the running
    workers name is left alone; and what a load that fails does all the
    same. *)
From stdpp Require Import gmap.
From S2P Require Import Prelude Types Rate RateFacts DsSet DsLive DsLiveFacts DsPack DsZone.
Import Rate RateFacts DsSet DsLive DsLiveFacts DsPack DsZone.
#[local] Open Scope Z_scope.

Module DsZoneFacts.

Definition names_distinct (zs : list zslot) : Prop :=
  forall i j x y, zs !! i = Some x -> zs !! j = Some y -> x.(zs_bound) = true -> y.(zs_bound) = true ->
    x.(zs_name) = y.(zs_name) -> i = j.

Lemma find_slot_Some zs name j :
  find_slot zs name = Some j -> exists z, zs !! j = Some z /\ z.(zs_bound) = true /\ z.(zs_name) = name.
Proof.
  unfold find_slot. destruct (list_find _ zs) as [[i z]|] eqn:E; cbn; [|done]. intros [= <-].
  apply list_find_Some in E as (E & [H1 H2] & _). by exists z.
Qed.

Lemma find_slot_bound zs name j z :
  names_distinct zs -> zs !! j = Some z -> z.(zs_bound) = true -> z.(zs_name) = name -> find_slot zs name = Some j.
Proof.
  intros Hd Hj Hb Hn. unfold find_slot. destruct (list_find _ zs) as [[i z']|] eqn:E; cbn.
  - apply list_find_Some in E as (E & [H1 H2] & _). f_equal. eapply (Hd i j z' z); eauto. congruence.
  - apply list_find_None in E. rewrite Forall_lookup in E. by destruct (E j z Hj).
Qed.

Lemma best_free_spec zs taken k best b :
  best_free zs taken k best = Some b ->
  fst <$> best = Some b \/ exists i z, b = (k + i)%nat /\ zs !! i = Some z /\ z.(zs_bound) = false /\ b ∉ taken.
Proof.
  revert k best. induction zs as [|z zs IH]; intros k best; cbn [best_free]; [by left|]. intros H. apply IH in H.
  assert (Hz : (exists i z', b = (S k + i)%nat /\ zs !! i = Some z' /\ z'.(zs_bound) = false /\ b ∉ taken) ->
    exists i z', b = (k + i)%nat /\ (z :: zs) !! i = Some z' /\ z'.(zs_bound) = false /\ b ∉ taken).
  { intros (i & z' & -> & Hi & Hb & Ht). exists (S i), z'. split; [lia|]. by split_and!. }
  destruct H as [H|H]; [|right; by apply Hz].
  destruct (zs_bound z) eqn:Eb; cbn [orb] in H; [by left|]. destruct (bool_decide_reflect (k ∈ taken)) as [Ht|Ht]; [by left|].
  assert (Hk : b = k -> exists i z', b = (k + i)%nat /\ (z :: zs) !! i = Some z' /\ z'.(zs_bound) = false /\ b ∉ taken).
  { intros ->. exists 0%nat, z. split; [lia|]. by split_and!. }
  destruct best as [[j r]|]; [|right; apply Hk; cbn in H; congruence].
  destruct (zs_released z <? r); [right; apply Hk; cbn in H; congruence|by left].
Qed.

Lemma assign_spec zs slots taken reset idx reset' :
  NoDup (omap id slots) -> (forall j, j ∈ omap id slots -> j ∈ taken) ->
  assign zs slots taken reset = (Some idx, reset') ->
  length idx = length slots /\ NoDup idx /\ reset ⊆ reset' /\
  (forall i j, slots !! i = Some (Some j) -> idx !! i = Some j) /\
  (forall i j, slots !! i = Some None -> idx !! i = Some j ->
     (j ∉ taken) /\ j ∈ reset' /\ exists z, zs !! j = Some z /\ z.(zs_bound) = false) /\
  (forall j, j ∈ idx -> j ∈ omap id slots \/ j ∉ taken) /\
  (forall j, j ∈ reset' -> j ∈ reset \/ (j ∉ taken) /\ j ∈ idx).
Proof.
  revert taken reset idx reset'. induction slots as [|[j|] slots IH]; intros taken reset idx reset' Hn Ht; cbn [assign].
  { intros [= <- <-]. split_and!; try done; try set_solver. }
  - cbn in Hn. apply NoDup_cons in Hn as [Hj Hn]. destruct (assign zs slots taken reset) as [o r] eqn:E.
    destruct o as [idx0|]; [|done]. cbn. intros [= <- <-].
    destruct (IH taken reset idx0 r Hn) as (I1 & I2 & I3 & I4 & I5 & I6 & I7); [intros k Hk; apply Ht; cbn; by right|done|].
    split_and!; try done; [cbn; lia| | | | |].
    + constructor; [|done]. intros [H|H]%I6; [done|]. apply H, Ht. cbn. by left.
    + intros [|i] k; cbn; [by intros [= <-]|apply I4].
    + intros [|i] k; cbn; [done|apply I5].
    + intros k [->|Hk]%elem_of_cons; [left; by left|]. destruct (I6 k Hk); [left; by right|by right].
    + intros k Hk. destruct (I7 k Hk) as [|[? ?]]; [by left|right; split; [done|by right]].
  - destruct (best_free zs taken 0 None) as [b|] eqn:Eb; [|done].
    apply best_free_spec in Eb as [|(i & z & -> & Hz & Hzb & Hbt)]; [done|]. cbn [Nat.add] in *. rename i into b.
    destruct (assign zs slots ({[b]} ∪ taken) ({[b]} ∪ reset)) as [o r] eqn:E. destruct o as [idx0|]; [|done]. cbn. intros [= <- <-].
    destruct (IH ({[b]} ∪ taken) ({[b]} ∪ reset) idx0 r Hn) as (I1 & I2 & I3 & I4 & I5 & I6 & I7);
      [intros k Hk; apply elem_of_union; right; by apply Ht|done|].
    split_and!; try done; [cbn; lia| |set_solver| | | |].
    + constructor; [|done]. intros [H|H]%I6; [by apply Hbt, Ht|set_solver].
    + intros [|i] k; cbn; [done|apply I4].
    + intros [|i] k; cbn; [intros _ [= <-]|].
      * split_and!; [done|set_solver|by exists z].
      * intros H1 H2. destruct (I5 i k H1 H2) as (J1 & J2 & J3). split_and!; [set_solver|done|done].
    + intros k [->|Hk]%elem_of_cons; [by right|]. destruct (I6 k Hk); [by left|right; set_solver].
    + intros k Hk. destruct (I7 k Hk) as [Hk'|[? ?]].
      * apply elem_of_union in Hk' as [->%elem_of_singleton|?]; [right; split; [done|by left]|by left].
      * right. split; [set_solver|by right].
Qed.

Lemma assign_reset zs slots taken reset : reset ⊆ snd (assign zs slots taken reset).
Proof.
  revert taken reset. induction slots as [|[j|] slots IH]; intros taken reset; cbn [assign]; [done| |].
  - specialize (IH taken reset). by destruct (assign zs slots taken reset).
  - destruct (best_free zs taken 0 None) as [b|]; [|done]. specialize (IH ({[b]} ∪ taken) ({[b]} ∪ reset)).
    destruct (assign zs slots _ _) as [o r]. cbn [snd] in *. set_solver.
Qed.

Section init.
Context (rb_delete : tree -> Z -> tree) (rb_min : tree -> option Z).
Context (build : decl -> ngx_rc * option ds_set).

Lemma bind_all_spec gen ds idx sets zs j :
  NoDup idx -> length idx = length ds -> length sets = length ds ->
  bind_all gen ds idx sets zs !! j =
    match list_find (eq j) idx with
    | Some (i, _) => match ds !! i, sets !! i with
                     | Some d, Some set => bind_slot gen d set <$> zs !! j
                     | _, _ => None
                     end
    | None => zs !! j
    end.
Proof.
  revert idx sets zs. induction ds as [|d ds IH]; intros [|k idx] [|set sets] zs Hn H1 H2; try done.
  cbn [bind_all]. apply NoDup_cons in Hn as [Hk Hn]. cbn in H1, H2. rewrite IH by (done || lia). cbn [list_find].
  destruct (decide (j = k)) as [->|Hne].
  - assert (list_find (eq k) idx = None) as ->.
    { apply list_find_None. apply Forall_forall. intros x Hx <-. done. }
    by rewrite list_lookup_alter_eq.
  - rewrite list_lookup_alter_ne by done. destruct (list_find (eq j) idx) as [[i x]|]; done.
Qed.

Lemma build_sets_length ds sets : build_sets build ds = Some sets -> length sets = length ds.
Proof.
  revert sets. induction ds as [|d ds IH]; intros sets; cbn; [by intros [= <-]|].
  destruct (negb _).
  - destruct (build_sets build ds) as [l|]; cbn; [|done]. intros [= <-]. cbn. f_equal. by apply IH.
  - destruct (build d) as [[] set]; try done. destruct (build_sets build ds) as [l|]; cbn; [|done]. intros [= <-]. cbn. f_equal. by apply IH.
Qed.

Lemma freed_slots_spec committed taken zs j z :
  zs !! j = Some z -> (j ∈ freed_slots committed taken zs <-> given_up committed taken j z = true).
Proof.
  intros Hj. unfold freed_slots. rewrite elem_of_list_to_set, list_elem_of_fmap. split.
  - intros ([k z'] & -> & [Hg Hin]%list_elem_of_filter). cbn in *. apply list_elem_of_lookup in Hin as [i Hi].
    rewrite list_lookup_imap in Hi. destruct (zs !! i) as [y|] eqn:E; [|done]. cbn in Hi. injection Hi as -> ->. congruence.
  - intros Hg. exists (j, z). split; [done|]. apply list_elem_of_filter. split; [done|].
    apply (list_elem_of_lookup_2 _ j). rewrite list_lookup_imap, Hj. done.
Qed.

Lemma known_reset_spec zs ds j :
  j ∈ known_reset zs ds <->
  exists d z, d ∈ ds /\ find_slot zs d.(d_name) = Some j /\ zs !! j = Some z /\ changed z d = true.
Proof.
  unfold known_reset. rewrite elem_of_list_to_set, list_elem_of_omap. split.
  - intros (d & Hd & H). destruct (find_slot zs (d_name d)) as [k|] eqn:E; [|done]. cbn in H.
    destruct (zs !! k) as [z|] eqn:Ez; [|done]. cbn in H. destruct (changed z d) eqn:Ec; [|done]. injection H as ->. by exists d, z.
  - intros (d & z & Hd & H1 & H2 & H3). exists d. split; [done|]. rewrite H1. cbn. rewrite H2. cbn. by rewrite H3.
Qed.

(** What is left of a slot that is not reset, up to the binding. *)
Lemma bind_slot_fields gen d set z :
  (z.(zs_bound) = true -> z.(zs_name) = d.(d_name)) ->
  let z' := bind_slot gen d set z in
  z'.(zs_bound) = true /\ z'.(zs_name) = d.(d_name) /\ z'.(zs_mode) = d.(d_mode) /\ z'.(zs_gen) = gen /\
  z'.(zs_slot).(sl_type) = d.(d_type) /\ z'.(zs_slot).(sl_live_max) = d.(d_live_max) /\
  z'.(zs_slot).(sl_live) = z.(zs_slot).(sl_live) /\ z'.(zs_slot).(sl_live_hash) = z.(zs_slot).(sl_live_hash) /\
  z'.(zs_set) = if d.(d_mode) ==? MODE_INTERNAL then set else None.
Proof.
  intros Hn. unfold bind_slot. cbn zeta.
  destruct (zs_bound z) eqn:Eb; cbn [negb]; destruct (negb (_ ==? d_mode d)), (d_mode d ==? MODE_INTERNAL);
    split_and!; try done; cbn; by apply Hn.
Qed.

Definition zone_ok (zn : zone) : Prop := names_distinct zn.(zn_slots).

(** The zone before the sets are built. *)
Definition prepared (ds : list decl) (zn : zone) : option (list nat) * list zslot :=
  let gen := u64 (zn.(zn_gen) + 1) in
  let known := known_slots zn.(zn_slots) ds in
  let taken : gset nat := list_to_set (omap id known) in
  let zs := imap (release gen zn.(zn_committed) taken) zn.(zn_slots) in
  let '(idx, reset) := assign zs known taken (known_reset zn.(zn_slots) ds ∪ freed_slots zn.(zn_committed) taken zn.(zn_slots)) in
  (idx, reset_slots rb_delete rb_min reset zs).

Lemma init_prepared ds zn :
  ngx_http_waf_dataset_init_zone rb_delete rb_min build ds zn =
    let gen := u64 (zn.(zn_gen) + 1) in
    let '(idx, zs) := prepared ds zn in
    match idx with
    | None => (NGX_ERROR, [], mkZone gen zn.(zn_committed) zs)
    | Some idx =>
        match build_sets build ds with
        | None => (NGX_ERROR, [], mkZone gen zn.(zn_committed) zs)
        | Some sets => (NGX_OK, idx, mkZone gen zn.(zn_committed) (bind_all gen ds idx sets zs))
        end
    end.
Proof. unfold ngx_http_waf_dataset_init_zone, prepared. cbn zeta. by destruct (assign _ _ _ _). Qed.

Section spec.
Context (ds : list decl) (zn : zone).
Context (Hzn : zone_ok zn) (Hds : NoDup (d_name <$> ds)).

Abbreviation known := (known_slots zn.(zn_slots) ds).
Abbreviation taken := (list_to_set (omap id known) : gset nat).

Lemma known_lookup i j : known !! i = Some (Some j) <-> exists d, ds !! i = Some d /\ find_slot zn.(zn_slots) d.(d_name) = Some j.
Proof.
  unfold known_slots. rewrite list_lookup_fmap. destruct (ds !! i) as [d|]; cbn.
  - split; [intros [= H]; by exists d|]. intros (d' & [= <-] & H). by rewrite H.
  - split; [done|]. by intros (d' & ? & _).
Qed.

Lemma same_decl i k d d' : ds !! i = Some d -> ds !! k = Some d' -> d.(d_name) = d'.(d_name) -> i = k.
Proof.
  intros Hi Hk Hn. apply (NoDup_lookup _ i k (d_name d) Hds); rewrite list_lookup_fmap; [by rewrite Hi|rewrite Hk; cbn; by rewrite Hn].
Qed.

Lemma known_nodup : NoDup (omap id known).
Proof.
  assert (H : forall (l : list (option nat)) k, (forall i j j', l !! i = Some (Some j) -> l !! j' = Some (Some j) -> i = j') -> k = omap id l -> NoDup k).
  { induction l as [|[j|] l IH]; intros k H ->; cbn; [constructor| |].
    - constructor; [|apply (IH _ (fun i j a Hi Ha => eq_add_S _ _ (H (S i) j (S a) Hi Ha)) eq_refl)].
      intros (o & Ho & He)%list_elem_of_omap. unfold id in He. subst o. apply list_elem_of_lookup in Ho as [i Hi].
      specialize (H 0%nat j (S i) eq_refl Hi). done.
    - apply (IH _ (fun i j a Hi Ha => eq_add_S _ _ (H (S i) j (S a) Hi Ha)) eq_refl). }
  apply (H known); [|done]. intros i j k (d & Hd & Hj)%known_lookup (d' & Hd' & Hj')%known_lookup.
  apply find_slot_Some in Hj as (z & Hz & _ & Hn), Hj' as (z' & Hz' & _ & Hn'). eapply same_decl; eauto. congruence.
Qed.

Lemma taken_spec j : j ∈ taken <-> exists d, d ∈ ds /\ find_slot zn.(zn_slots) d.(d_name) = Some j.
Proof.
  rewrite elem_of_list_to_set, list_elem_of_omap. split.
  - intros (o & Ho & He). unfold id in He. subst o. apply list_elem_of_lookup in Ho as [i Hi]. apply known_lookup in Hi as (d & Hd & Hj).
    exists d. split; [by eapply list_elem_of_lookup_2|done].
  - intros (d & Hd & Hj). exists (Some j). split; [|done]. apply list_elem_of_lookup in Hd as [i Hi].
    apply (list_elem_of_lookup_2 _ i). apply known_lookup. by exists d.
Qed.

Lemma prepared_spec idx zs :
  prepared ds zn = (Some idx, zs) ->
  length idx = length ds /\ NoDup idx /\ length zs = length zn.(zn_slots) /\
  (forall i j, idx !! i = Some j -> (j < length zn.(zn_slots))%nat) /\
  (forall i d j, ds !! i = Some d -> find_slot zn.(zn_slots) d.(d_name) = Some j -> idx !! i = Some j) /\
  forall j z, zn.(zn_slots) !! j = Some z -> exists z', zs !! j = Some z' /\
    z'.(zs_name) = z.(zs_name) /\ (z'.(zs_bound) = true -> z.(zs_bound) = true) /\
    (z.(zs_bound) = true -> zn.(zn_committed) <= z.(zs_gen) -> z'.(zs_bound) = true) /\
    (j ∉ idx -> z'.(zs_bound) = true -> z' = z) /\
    (forall i d, ds !! i = Some d -> idx !! i = Some j ->
       (z'.(zs_bound) = true -> z'.(zs_name) = d.(d_name)) /\
       (find_slot zn.(zn_slots) d.(d_name) = Some j -> changed z d = false -> z' = z)).
Proof.
  unfold prepared. set (gen := u64 _). set (reset := known_reset _ _ ∪ _). set (zs1 := imap _ _).
  destruct (assign zs1 known taken reset) as [o reset'] eqn:E. intros [= -> <-].
  destruct (assign_spec _ _ _ _ _ _ known_nodup (fun j Hj => proj2 (elem_of_list_to_set j _) Hj) E) as (A1 & A2 & A3 & A4 & A5 & A6 & A7).
  assert (Hkidx : forall i d j, ds !! i = Some d -> find_slot (zn_slots zn) (d_name d) = Some j -> idx !! i = Some j).
  { intros i d j Hi Hj. apply A4, known_lookup. by exists d. }
  split; [by rewrite A1; unfold known_slots; rewrite length_fmap|]. split; [done|].
  split; [unfold reset_slots, zs1; by rewrite !length_imap|]. split; [|split; [done|]].
  { intros i j Hj. destruct (known !! i) as [[k|]|] eqn:Ek.
    - specialize (A4 i k Ek). apply known_lookup in Ek as (d & _ & (y & Hy & _)%find_slot_Some).
      assert (k = j) as -> by congruence. by apply lookup_lt_Some in Hy.
    - destruct (A5 i j Ek Hj) as (_ & _ & y & Hy & _). apply lookup_lt_Some in Hy. unfold zs1 in Hy. by rewrite length_imap in Hy.
    - apply lookup_ge_None in Ek. apply lookup_lt_Some in Hj. lia. }
  intros j z Hz. set (z1 := release gen (zn_committed zn) taken j z).
  set (z' := if bool_decide (j ∈ reset') then ngx_http_waf_ds_slot_reset rb_delete rb_min z1 else z1).
  exists z'. split.
  { unfold reset_slots, zs1. by rewrite !list_lookup_imap, Hz. }
  assert (Hb' : zs_bound z' = zs_bound z1) by (unfold z'; by case_bool_decide).
  assert (Hn' : zs_name z' = zs_name z1) by (unfold z'; by case_bool_decide).
  assert (Hn1 : zs_name z1 = zs_name z) by (unfold z1, release; by destruct (given_up _ _ _ _)).
  assert (Hb1 : zs_bound z1 = zs_bound z && negb (given_up (zn_committed zn) taken j z)).
  { unfold z1, release. destruct (given_up _ _ _ _) eqn:Eg; cbn [negb]; [by rewrite andb_false_r|by rewrite andb_true_r]. }
  assert (Hkeep : zs_bound z1 = true -> j ∉ reset' -> z' = z).
  { rewrite Hb1. intros [_ Hg]%andb_true_iff Hr. unfold z'. rewrite bool_decide_false by done. unfold z1, release.
    by destruct (given_up _ _ _ _). }
  assert (Hfreed : zs_bound z1 = true -> j ∉ freed_slots (zn_committed zn) taken (zn_slots zn)).
  { rewrite Hb1. intros [_ Hg]%andb_true_iff Hf. apply (freed_slots_spec _ _ _ _ _ Hz) in Hf. by rewrite Hf in Hg. }
  split; [congruence|]. split; [rewrite Hb', Hb1; by intros [? _]%andb_true_iff|]. split; [|split].
  - intros Hb Hg. rewrite Hb', Hb1, Hb. unfold given_up. rewrite (proj2 (Z.ltb_ge _ _) Hg), andb_false_r. done.
  - intros Hni. rewrite Hb'. intros Hb. apply Hkeep; [done|]. intros Hr. apply A7 in Hr as [Hr|[_ Hr]]; [|done].
    apply elem_of_union in Hr as [Hr|Hr]; [|by apply Hfreed in Hr]. apply known_reset_spec in Hr as (d & y & Hd & Hj & _).
    apply list_elem_of_lookup in Hd as [i Hi]. apply Hni. eapply list_elem_of_lookup_2, Hkidx; eauto.
  - intros i d Hi Hj. rewrite Hb', Hn', Hn1. split.
    + intros Hb. rewrite Hb1 in Hb. apply andb_true_iff in Hb as [Hb Hg].
      destruct (find_slot (zn_slots zn) (d_name d)) as [k|] eqn:Ef.
      * specialize (Hkidx i d k Hi Ef). assert (k = j) as -> by congruence. apply find_slot_Some in Ef as (y & Hy & _ & Hyn). congruence.
      * exfalso. assert (Hkn : known !! i = Some None) by (unfold known_slots; rewrite list_lookup_fmap, Hi; cbn; by rewrite Ef).
        destruct (A5 i j Hkn Hj) as (_ & _ & y & Hy & Hyb). unfold zs1 in Hy. rewrite list_lookup_imap, Hz in Hy. cbn in Hy.
        injection Hy as <-. fold z1 in Hyb. rewrite Hb1, Hb, Hg in Hyb. done.
    + intros Hf Hc. assert (Ht : j ∈ taken) by (apply taken_spec; exists d; split; [by eapply list_elem_of_lookup_2|done]).
      apply find_slot_Some in Hf as Hf'. destruct Hf' as (y & Hy & Hyb & Hyn). assert (y = z) as -> by congruence.
      assert (Hb : zs_bound z1 = true).
      { rewrite Hb1, Hyb. unfold given_up. rewrite (bool_decide_true (j ∈ taken)) by done. cbn [negb]. by rewrite andb_false_r. }
      apply Hkeep; [done|]. intros [Hr|[Hr _]]%A7; [|done]. apply elem_of_union in Hr as [Hr|Hr]; [|by apply Hfreed in Hr].
      apply known_reset_spec in Hr as (d' & y & Hd' & Hj' & Hy' & Hc'). apply list_elem_of_lookup in Hd' as [i' Hi'].
      apply find_slot_Some in Hj' as (w & Hw & _ & Hwn). assert (w = z) as -> by congruence. assert (y = z) as -> by congruence.
      assert (i' = i) as -> by (eapply same_decl; eauto; congruence). assert (d' = d) as -> by congruence. congruence.
Qed.

(** The slots once all are bound: those of the datasets, and the others. *)
Lemma bound_spec gen idx zs sets :
  prepared ds zn = (Some idx, zs) -> length sets = length ds ->
  let zs' := bind_all gen ds idx sets zs in
  (forall i d j, ds !! i = Some d -> idx !! i = Some j -> exists z z1 set,
    zn.(zn_slots) !! j = Some z /\ zs !! j = Some z1 /\ zs' !! j = Some (bind_slot gen d set z1) /\
    (z1.(zs_bound) = true -> z1.(zs_name) = d.(d_name)) /\
    (find_slot zn.(zn_slots) d.(d_name) = Some j -> changed z d = false -> z1 = z)) /\
  (forall j, j ∉ idx -> zs' !! j = zs !! j) /\
  (forall j z', j ∉ idx -> zs' !! j = Some z' -> z'.(zs_bound) = true -> zn.(zn_slots) !! j = Some z') /\
  (forall i d, ds !! i = Some d -> exists j z', idx !! i = Some j /\ zs' !! j = Some z' /\
     z'.(zs_bound) = true /\ z'.(zs_name) = d.(d_name) /\ z'.(zs_mode) = d.(d_mode) /\ z'.(zs_slot).(sl_type) = d.(d_type) /\ z'.(zs_gen) = gen) /\
  (forall j, j ∈ idx -> exists i d, ds !! i = Some d /\ idx !! i = Some j).
Proof.
  intros Ep Eb. apply prepared_spec in Ep as (P1 & P2 & Plen & Plt & P3 & P4). cbn zeta. set (zs' := bind_all gen ds idx sets zs).
  assert (Hin : forall i d j, ds !! i = Some d -> idx !! i = Some j -> exists z z1 set,
    zn_slots zn !! j = Some z /\ zs !! j = Some z1 /\ zs' !! j = Some (bind_slot gen d set z1) /\
    (zs_bound z1 = true -> zs_name z1 = d_name d) /\
    (find_slot (zn_slots zn) (d_name d) = Some j -> changed z d = false -> z1 = z)).
  { intros i d j Hi Hj. destruct (lookup_lt_is_Some_2 (zn_slots zn) j (Plt i j Hj)) as [z Hz].
    destruct (P4 j z Hz) as (z1 & Hz1 & _ & _ & _ & _ & Hd). exists z, z1. destruct (Hd i d Hi Hj) as [D1 D2].
    unfold zs'. rewrite bind_all_spec by done. assert (list_find (eq j) idx = Some (i, j)) as ->.
    { apply list_find_Some. split_and!; [done|done|]. intros k x Hk Hlt <-. pose proof (NoDup_lookup _ _ _ _ P2 Hk Hj). lia. }
    rewrite Hi, Hz1. destruct (lookup_lt_is_Some_2 sets i) as [set ->]; [apply lookup_lt_Some in Hi; lia|]. by exists set. }
  assert (Hsame : forall j, j ∉ idx -> zs' !! j = zs !! j).
  { intros j Hj. unfold zs'. rewrite bind_all_spec by done.
    assert (list_find (eq j) idx = None) as E by (apply list_find_None, Forall_forall; by intros x Hx <-). by rewrite E. }
  split; [done|]. split; [done|]. split; [|split].
  - intros j z' Hj Hz' Hb. rewrite Hsame in Hz' by done.
    destruct (lookup_lt_is_Some_2 (zn_slots zn) j) as [z Hz]; [apply lookup_lt_Some in Hz'; lia|].
    destruct (P4 j z Hz) as (z1 & Hz1 & _ & _ & _ & Hk & _). assert (z1 = z') as -> by congruence. by rewrite Hk.
  - intros i d Hi. destruct (lookup_lt_is_Some_2 idx i) as [j Hj]; [apply lookup_lt_Some in Hi; lia|].
    destruct (Hin i d j Hi Hj) as (z & z1 & set & _ & _ & Hz' & Hn & _).
    destruct (bind_slot_fields gen d set z1 Hn) as (B1 & B2 & B3 & B4 & B5 & _). exists j. eexists. by split_and!.
  - intros j [i Hi]%list_elem_of_lookup. destruct (lookup_lt_is_Some_2 ds i) as [d Hd]; [apply lookup_lt_Some in Hi; lia|]. by exists i, d.
Qed.

(** Names stay distinct. *)
Lemma bound_distinct gen idx zs sets :
  prepared ds zn = (Some idx, zs) -> length sets = length ds -> names_distinct (bind_all gen ds idx sets zs).
Proof.
  intros Ep Eb. pose proof (prepared_spec _ _ Ep) as (_ & _ & _ & _ & P3 & _).
  destruct (bound_spec gen idx zs sets Ep Eb) as (_ & _ & Hout & Hslot & Hmem). revert Hout Hslot.
  generalize (bind_all gen ds idx sets zs). intros zs' Hout Hslot.
  assert (Hmix : forall i j x y, zs' !! i = Some x -> zs' !! j = Some y -> zs_bound x = true -> zs_name x = zs_name y -> i ∉ idx -> j ∈ idx -> False).
  { intros i j x y Hx Hy Hbx Hxy Hi Hj. apply Hout in Hx; [|done|done]. destruct (Hmem j Hj) as (k & d & Hd & Hk).
    destruct (Hslot k d Hd) as (j' & z' & Hj' & Hz' & _ & Hn & _). assert (j' = j) as -> by congruence. assert (z' = y) as -> by congruence.
    apply Hi. eapply list_elem_of_lookup_2, P3; [done|]. eapply find_slot_bound; eauto. congruence. }
  intros i j x y Hx Hy Hbx Hby Hxy. destruct (decide (i ∈ idx)) as [Hi|Hi], (decide (j ∈ idx)) as [Hj|Hj].
  - destruct (Hmem i Hi) as (k & d & Hd & Hk), (Hmem j Hj) as (k' & d' & Hd' & Hk').
    destruct (Hslot k d Hd) as (i' & x' & Hi' & Hx' & _ & Hn & _), (Hslot k' d' Hd') as (j' & y' & Hj' & Hy' & _ & Hn' & _).
    assert (i' = i) as -> by congruence. assert (j' = j) as -> by congruence.
    assert (k = k') as -> by (eapply same_decl; eauto; congruence). congruence.
  - destruct (Hmix j i y x); try done.
  - destruct (Hmix i j x y); try done.
  - apply Hout in Hx, Hy; try done. eapply (Hzn i j x y); eauto.
Qed.

(** C31: Loading a configuration gives its datasets slots of their own and
    takes nothing from the running one.  When it succeeds, every dataset has a
    slot that is bound to its name and carries its type, mode and the new
    generation, no two datasets share one, and the names in the zone stay
    distinct; a dataset that had a slot keeps it, and unless its type changed
    or it turned from fed to internal, its overlay too; and a slot that the
    running configuration declares and this one does not is left as it was. *)
Theorem zone_slots_assigned idx zn' :
  ngx_http_waf_dataset_init_zone rb_delete rb_min build ds zn = (NGX_OK, idx, zn') ->
  zone_ok zn' /\ length idx = length ds /\ NoDup idx /\
  (forall i d, ds !! i = Some d -> exists j z', idx !! i = Some j /\ zn'.(zn_slots) !! j = Some z' /\
     z'.(zs_bound) = true /\ z'.(zs_name) = d.(d_name) /\ z'.(zs_mode) = d.(d_mode) /\
     z'.(zs_slot).(sl_type) = d.(d_type) /\ z'.(zs_gen) = zn'.(zn_gen)) /\
  (forall i d j z, ds !! i = Some d -> zn.(zn_slots) !! j = Some z -> z.(zs_bound) = true -> z.(zs_name) = d.(d_name) ->
     idx !! i = Some j /\
     (changed z d = false -> exists z', zn'.(zn_slots) !! j = Some z' /\ entries z'.(zs_slot) = entries z.(zs_slot))) /\
  (forall j z, zn.(zn_slots) !! j = Some z -> z.(zs_bound) = true -> zn.(zn_committed) <= z.(zs_gen) ->
     z.(zs_name) ∉ d_name <$> ds -> zn'.(zn_slots) !! j = Some z).
Proof.
  rewrite init_prepared. cbn zeta. destruct (prepared ds zn) as [o zs] eqn:Ep. destruct o as [idx0|]; [|done].
  destruct (build_sets build ds) as [sets|] eqn:Eb; [|done]. intros [= -> <-]. cbn [zn_slots zn_gen].
  apply build_sets_length in Eb. set (gen := u64 _). pose proof (bound_distinct gen idx zs sets Ep Eb) as Hdis.
  destruct (bound_spec gen idx zs sets Ep Eb) as (Hin & Hsame & _ & Hslot & Hmem).
  apply prepared_spec in Ep as (P1 & P2 & _ & _ & P3 & P4). split_and!; try done.
  - intros i d j z Hi Hz Hb Hn. assert (Hf : find_slot (zn_slots zn) (d_name d) = Some j) by (eapply find_slot_bound; eauto).
    split; [by eapply P3|]. intros Hc. destruct (Hin i d j Hi (P3 i d j Hi Hf)) as (z0 & z1 & set & Hz0 & _ & Hz' & Hn1 & Hk).
    assert (z0 = z) as -> by congruence. rewrite (Hk Hf Hc) in *. eexists. split; [done|].
    destruct (bind_slot_fields gen d set z Hn1) as (_ & _ & _ & _ & _ & _ & B & _). unfold entries. by rewrite B.
  - intros j z Hz Hb Hg Hn. destruct (P4 j z Hz) as (z2 & Hz2 & N2 & _ & B2 & K2 & _). assert (Hj : j ∉ idx).
    { intros (i & d & Hi & Hj)%Hmem. destruct (Hin i d j Hi Hj) as (z0 & z1 & set & Hz0 & Hz1 & _ & Hn1 & _).
      assert (z2 = z1) as -> by congruence.
      apply Hn, list_elem_of_fmap. exists d. split; [rewrite <- N2; by apply Hn1, B2|by eapply list_elem_of_lookup_2]. }
    rewrite Hsame, Hz2 by done. by rewrite (K2 Hj (B2 Hb Hg)).
Qed.

(** A load that fails has dropped data all the same.  When a declared
    dataset has a slot and its type changed (or it turned from fed to
    internal), and the load ends in an error, for want of a slot or because a
    set could not be built, the slot is still bound, but its published set and
    its synchronisation state are gone: the running workers, which go on with
    the old configuration, no longer find what was there. *)
Theorem failed_load_drops_data i d j z idx zn' :
  ngx_http_waf_dataset_init_zone rb_delete rb_min build ds zn = (NGX_ERROR, idx, zn') ->
  ds !! i = Some d -> zn.(zn_slots) !! j = Some z -> z.(zs_bound) = true -> z.(zs_name) = d.(d_name) -> changed z d = true ->
  exists z', zn'.(zn_slots) !! j = Some z' /\ z'.(zs_bound) = true /\ z'.(zs_name) = z.(zs_name) /\
    z'.(zs_set) = None /\ z'.(zs_slot).(sl_epoch) = 0.
Proof.
  intros Hinit Hi Hz Hb Hn Hc. assert (Hf : find_slot (zn_slots zn) (d_name d) = Some j) by (eapply find_slot_bound; eauto).
  assert (Ht : j ∈ taken) by (apply taken_spec; exists d; split; [by eapply list_elem_of_lookup_2|done]).
  assert (Hzs : zn_slots zn' = snd (prepared ds zn)).
  { rewrite init_prepared in Hinit. cbn zeta in Hinit. destruct (prepared ds zn) as [[o|] zs]; [|by injection Hinit as _ <-].
    destruct (build_sets build ds); [done|by injection Hinit as _ <-]. }
  rewrite Hzs. unfold prepared. set (gen := u64 _). set (reset := known_reset _ _ ∪ _). set (zs1 := imap _ _).
  pose proof (assign_reset zs1 known taken reset) as Hsub. destruct (assign zs1 known taken reset) as [o reset']. cbn [snd] in *.
  assert (Hr : j ∈ reset').
  { apply Hsub, elem_of_union. left. apply known_reset_spec. exists d, z. split_and!; try done. by eapply list_elem_of_lookup_2. }
  unfold reset_slots, zs1. rewrite !list_lookup_imap, Hz. cbn [fmap option_fmap option_map]. rewrite bool_decide_true by done.
  eexists. split; [done|]. unfold release, given_up. rewrite (bool_decide_true (j ∈ taken)) by done. cbn [negb]. rewrite andb_false_r.
  cbn [andb]. by split_and!.
Qed.

End spec.
End init.

(** ** Concrete zones *)

Definition empty_slot : zslot := mkZslot false [] MODE_UNSET 0 0 (slot0 DS_CIDR 0 []) None.
Definition word_set : ds_set := StrSet (mkStrSet 1 7 [] []).
(** One list of words, declared by the running configuration. *)
Definition words_slot : zslot := mkZslot true (lit "words") MODE_INTERNAL 4 0 (slot0 DS_STRING 10 []) (Some word_set).
Definition demo_zone : zone := mkZone 4 4 (words_slot :: replicate 127 empty_slot).
Definition demo_parse (d : decl) : ngx_rc * option ds_set :=
  if bytes_eqb d.(d_name) (lit "bad") then (NGX_ERROR, None) else (NGX_OK, Some word_set).
Definition nets_decl : decl := mkDecl (lit "nets") DS_CIDR MODE_ACTIVE 100 [].
(** The words are networks now, and another list does not parse. *)
Definition bad_decls : list decl :=
  [mkDecl (lit "words") DS_CIDR MODE_INTERNAL 10 []; mkDecl (lit "bad") DS_CIDR MODE_INTERNAL 10 []].
Abbreviation demo_init := (ngx_http_waf_dataset_init_zone plain_delete plain_min demo_parse).

Lemma demo_zone_ok : zone_ok demo_zone.
Proof.
  assert (H : forall i x, zn_slots demo_zone !! i = Some x -> x.(zs_bound) = true -> i = 0%nat).
  { intros [|i] x Hx Hb; [done|]. cbn [zn_slots demo_zone] in Hx. change ((words_slot :: replicate 127 empty_slot) !! S i) with
      (replicate 127 empty_slot !! i) in Hx. apply lookup_replicate in Hx as [-> _]. done. }
  intros i j x y Hx Hy Hbx Hby _. by rewrite (H i x Hx Hbx), (H j y Hy Hby).
Qed.

(** The list of networks goes to a slot of its own and the words stay. *)
Lemma zone_slots_assigned_witness :
  exists zn', demo_init [nets_decl] demo_zone = (NGX_OK, [1%nat], zn') /\ zn'.(zn_slots) !! 0%nat = Some words_slot.
Proof.
  destruct (demo_init [nets_decl] demo_zone) as [[rc idx] zn'] eqn:E.
  assert (Er : fst (demo_init [nets_decl] demo_zone) = (NGX_OK, [1%nat])) by (vm_compute; reflexivity).
  rewrite E in Er. injection Er as -> ->. exists zn'. split; [done|].
  apply (zone_slots_assigned plain_delete plain_min demo_parse [nets_decl] demo_zone demo_zone_ok
    ltac:(apply NoDup_singleton) [1%nat] zn' E); [done|done|done|].
  intros [H|H]%elem_of_cons; [discriminate|by apply elem_of_nil in H].
Defined.

Lemma failed_load_drops_data_witness :
  exists zn' z', demo_init bad_decls demo_zone = (NGX_ERROR, [], zn') /\ words_slot.(zs_set) = Some word_set /\
    zn'.(zn_slots) !! 0%nat = Some z' /\ z'.(zs_bound) = true /\ z'.(zs_set) = None.
Proof.
  destruct (demo_init bad_decls demo_zone) as [[rc idx] zn'] eqn:E.
  assert (Er : fst (demo_init bad_decls demo_zone) = (NGX_ERROR, [])) by (vm_compute; reflexivity).
  rewrite E in Er. injection Er as -> ->. exists zn'.
  destruct (failed_load_drops_data plain_delete plain_min demo_parse bad_decls demo_zone demo_zone_ok
    0%nat (mkDecl (lit "words") DS_CIDR MODE_INTERNAL 10 []) 0%nat words_slot [] zn' E
    eq_refl eq_refl eq_refl eq_refl eq_refl) as (z' & H1 & H2 & _ & H3 & _).
  exists z'. by split_and!.
Defined.

End DsZoneFacts.
