(* ===== verification/ApplyArgs.v ===== *)
(** The query string an inspector edits (runtime/ngx_http_waf_apply.c:
    [ngx_http_waf_args_split], [_args_unset], [_args_set] and the two loops of
    [ngx_http_waf_args_apply] that measure and write the new one), with a
    specification over lists of names and values: a query string is cut into
    pairs, pairs are removed and replaced, and what is printed is cut into the
    same pairs again. *)
From S2P Require Import Prelude Types ReplyText Select SelectFacts.
Import ReplyText Select SelectFacts.
#[local] Open Scope Z_scope.

Module ApplyArgs.

Record arg_pair_t := mkArg { ap_name : bytes; ap_value : bytes; ap_has_eq : bool; ap_dead : bool }.
#[export] Instance eta_arg_pair_t : Eta arg_pair_t := fun r => mkArg r.(ap_name) r.(ap_value) r.(ap_has_eq) r.(ap_dead).

(** The pair of a stretch between two separators. *)
Definition arg_pair_of (seg : bytes) : arg_pair_t :=
  match ngx_strlchr seg eq_c with
  | None => mkArg seg [] false false
  | Some e => mkArg (take e seg) (drop (S e) seg) true false
  end.

(** The endless loop; [None] inside is [NGX_ERROR], [None] outside is a loop
    that did not end. *)
Fixpoint split_loop (fuel : nat) (p : bytes) (pairs : list arg_pair_t) (mem : alloc_stream)
    : option (option (list arg_pair_t) * alloc_stream) :=
  match fuel with
  | O => None
  | S fuel =>
      let amp := default (length p) (ngx_strlchr p amp_c) in
      let '(ok, mem) := alloc mem in
      if negb ok then Some (None, mem)
      else
        let pairs := pairs ++ [arg_pair_of (take amp p)] in
        if Nat.eqb amp (length p) then Some (Some pairs, mem) else split_loop fuel (drop (S amp) p) pairs mem
  end.

Definition ngx_http_waf_args_split (args : bytes) (pairs : list arg_pair_t) (mem : alloc_stream)
    : option (option (list arg_pair_t) * alloc_stream) :=
  if zlen args =? 0 then Some (Some pairs, mem) else split_loop (S (length args)) args pairs mem.

Definition arg_is (name : bytes) (p : arg_pair_t) : bool := negb p.(ap_dead) && bytes_eqb p.(ap_name) name.

Definition ngx_http_waf_args_unset (name : bytes) (pairs : list arg_pair_t) : list arg_pair_t :=
  (fun p => if arg_is name p then p <| ap_dead := true |> else p) <$> pairs.

(** The loop of [ngx_http_waf_args_set] from index [i]: the first pair with
    the name is found, the others are dead. *)
Fixpoint set_scan (name : bytes) (i : nat) (found : option nat) (pairs : list arg_pair_t)
    : option nat * list arg_pair_t :=
  match pairs with
  | [] => (found, [])
  | p :: pairs =>
      if negb (arg_is name p) then let '(found, pairs) := set_scan name (S i) found pairs in (found, p :: pairs)
      else match found with
           | None => let '(found, pairs) := set_scan name (S i) (Some i) pairs in (found, p :: pairs)
           | Some _ => let '(found, pairs) := set_scan name (S i) found pairs in (found, p <| ap_dead := true |> :: pairs)
           end
  end.

Definition ngx_http_waf_args_set (kv : bytes * bytes) (pairs : list arg_pair_t) (mem : alloc_stream)
    : option (list arg_pair_t) * alloc_stream :=
  let '(found, pairs) := set_scan kv.1 0 None pairs in
  match found with
  | Some j => (Some (alter (fun p => p <| ap_value := kv.2 |> <| ap_has_eq := true |>) j pairs), mem)
  | None =>
      let '(ok, mem) := alloc mem in
      if negb ok then (None, mem) else (Some (pairs ++ [mkArg kv.1 kv.2 true false]), mem)
  end.

(** The length that is allocated. *)
Definition args_len_step (len : Z) (p : arg_pair_t) : Z :=
  if p.(ap_dead) then len
  else let len := len + zlen p.(ap_name) + 1 in
       if p.(ap_has_eq) then len + (1 + zlen p.(ap_value)) else len.
Definition args_len (pairs : list arg_pair_t) : Z :=
  let len := fold_left args_len_step pairs 0 in
  if negb (len =? 0) then len - 1 else len.

(** The bytes that are written. *)
Fixpoint args_write (first : bool) (pairs : list arg_pair_t) : bytes :=
  match pairs with
  | [] => []
  | p :: pairs =>
      if p.(ap_dead) then args_write first pairs
      else (if first then [] else [amp_c]) ++ p.(ap_name) ++ (if p.(ap_has_eq) then eq_c :: p.(ap_value) else [])
           ++ args_write false pairs
  end.

(** ** Specification: a list of names, each with a value or without *)

Definition arg := (bytes * option bytes)%type.

Definition arg_text (a : arg) : bytes := a.1 ++ match a.2 with Some v => eq_c :: v | None => [] end.
Fixpoint join (c : Z) (l : list bytes) : bytes :=
  match l with [] => [] | [s] => s | s :: l => s ++ c :: join c l end.
Definition print (l : list arg) : bytes := join amp_c (arg_text <$> l).

Definition arg_of (seg : bytes) : arg :=
  match ngx_strlchr seg eq_c with None => (seg, None) | Some e => (take e seg, Some (drop (S e) seg)) end.
Definition parse (args : bytes) : list arg := if bytes_eqb args [] then [] else arg_of <$> split_on amp_c args.

Definition without (name : bytes) (l : list arg) : list arg := filter (fun a : arg => a.1 <> name) l.
Fixpoint replaced (kv : bytes * bytes) (l : list arg) : list arg :=
  match l with
  | [] => [(kv.1, Some kv.2)]
  | a :: l => if bytes_eqb a.1 kv.1 then (kv.1, Some kv.2) :: without kv.1 l else a :: replaced kv l
  end.

(** The pairs that are left. *)
Definition arg_view (p : arg_pair_t) : option arg :=
  if p.(ap_dead) then None else Some (p.(ap_name), if p.(ap_has_eq) then Some p.(ap_value) else None).
Definition view (pairs : list arg_pair_t) : list arg := omap arg_view pairs.

(** ** Cutting *)

Lemma view_app l l' : view (l ++ l') = view l ++ view l'.
Proof. apply omap_app. Qed.

Lemma arg_view_of seg : arg_view (arg_pair_of seg) = Some (arg_of seg).
Proof. unfold arg_pair_of, arg_of. by destruct (ngx_strlchr seg eq_c). Qed.

Lemma split_loop_spec fuel p pairs mem :
  (length p < fuel)%nat ->
  exists r mem', split_loop fuel p pairs mem = Some (r, mem') /\ (mem = [] -> mem' = []) /\
    ((exists ps, r = Some (pairs ++ ps) /\ view ps = arg_of <$> split_on amp_c p) \/ r = None /\ mem <> []).
Proof.
  revert p pairs mem. induction fuel as [|fuel IH]; intros p pairs mem Hf; [lia|]. cbn [split_loop].
  rewrite (split_on_step amp_c p). destruct (alloc mem) as [ok mem1] eqn:Ea. destruct ok; cbn [negb].
  2:{ eexists _, _. split; [done|]. split; [by intros ->|]. right. split; [done|]. by intros ->. }
  assert (Hm : mem = [] -> mem1 = []) by (intros ->; by injection Ea).
  destruct (ngx_strlchr p amp_c) as [i|] eqn:E; cbn [default].
  2:{ unfold id. rewrite Nat.eqb_refl, firstn_all. eexists _, _. split; [done|]. split; [done|]. left. eexists. split; [done|].
      cbn. by rewrite arg_view_of. }
  pose proof (strlchr_lt _ _ _ E) as Hi. rewrite (proj2 (Nat.eqb_neq _ _)) by (unfold id; lia). unfold id.
  destruct (IH (drop (S i) p) (pairs ++ [arg_pair_of (take i p)]) mem1) as (r & mem' & -> & Hm' & H); [rewrite length_drop; lia|].
  eexists _, _. split; [done|]. split; [auto|]. destruct H as [(ps & -> & Hv)|[-> H]].
  - left. exists (arg_pair_of (take i p) :: ps). split; [by rewrite <- app_assoc|]. cbn. by rewrite arg_view_of, <- Hv.
  - right. split; [done|]. intros ->. auto.
Qed.

Lemma args_split_spec args mem :
  exists r mem', ngx_http_waf_args_split args [] mem = Some (r, mem') /\ (mem = [] -> mem' = []) /\
    ((exists ps, r = Some ps /\ view ps = parse args) \/ r = None /\ mem <> []).
Proof.
  unfold ngx_http_waf_args_split, parse. destruct (Z.eqb_spec (zlen args) 0) as [E|E].
  { destruct args; [|unfold zlen in E; cbn in E; lia]. eexists _, _. split; [done|]. split; [done|]. left. by exists []. }
  destruct (bytes_eqb args []) eqn:En; [apply bytes_eqb_eq in En as ->; done|].
  destruct (split_loop_spec (S (length args)) args [] mem ltac:(lia)) as (r & mem' & -> & H). exists r, mem'. by split.
Qed.

(** ** Removing and replacing *)

Lemma arg_is_view name p : arg_is name p = true <-> exists a, arg_view p = Some a /\ a.1 = name.
Proof.
  unfold arg_is, arg_view. destruct (ap_dead p); cbn; [split; [done|by intros (? & ? & _)]|].
  rewrite bytes_eqb_eq. split; [intros <-; by eexists|]. by intros (? & [= <-] & <-).
Qed.

Lemma without_cons name a l : without name (a :: l) = if bytes_eqb a.1 name then without name l else a :: without name l.
Proof.
  unfold without. rewrite filter_cons. destruct (bytes_eqb a.1 name) eqn:E.
  - apply bytes_eqb_eq in E. by rewrite decide_False by (intros H; by apply H).
  - rewrite decide_True; [done|]. intros Hn. apply bytes_eqb_eq in Hn. congruence.
Qed.

Lemma view_cons p ps : view (p :: ps) = match arg_view p with Some a => a :: view ps | None => view ps end.
Proof. done. Qed.

Lemma view_unset name ps : view (ngx_http_waf_args_unset name ps) = without name (view ps).
Proof.
  induction ps as [|p ps IH]; [done|].
  change (ngx_http_waf_args_unset name (p :: ps)) with
    ((if arg_is name p then p <| ap_dead := true |> else p) :: ngx_http_waf_args_unset name ps).
  rewrite !view_cons, IH. destruct (arg_is name p) eqn:E.
  - apply arg_is_view in E as (a & -> & Hn). rewrite without_cons, (proj2 (bytes_eqb_eq _ _) Hn). done.
  - destruct (arg_view p) as [a|] eqn:Ea; [|done]. rewrite without_cons. destruct (bytes_eqb a.1 name) eqn:En; [|done].
    exfalso. apply bytes_eqb_eq in En. enough (arg_is name p = true) by congruence. apply arg_is_view. eauto.
Qed.

(** Once a pair is found, the others go. *)
Lemma set_scan_found name i j ps : set_scan name i (Some j) ps = (Some j, ngx_http_waf_args_unset name ps).
Proof.
  revert i. induction ps as [|p ps IH]; intros i; [done|]. cbn. rewrite IH. by destruct (arg_is name p).
Qed.

Lemma set_scan_spec kv i ps :
  let '(found, ps') := set_scan kv.1 i None ps in
  match found with
  | Some j => (i <= j)%nat /\ view (alter (fun p => p <| ap_value := kv.2 |> <| ap_has_eq := true |>) (j - i)%nat ps') = replaced kv (view ps)
  | None => ps' = ps /\ replaced kv (view ps) = view ps ++ [(kv.1, Some kv.2)]
  end.
Proof.
  revert i. induction ps as [|p ps IH]; intros i; [by split|]. cbn [set_scan]. destruct (arg_is kv.1 p) eqn:E; cbn [negb].
  - rewrite set_scan_found. split; [lia|]. replace (i - i)%nat with 0%nat by lia. cbn [alter list_alter]. rewrite !view_cons.
    rewrite view_unset.
    apply arg_is_view in E as (a & Ha & Hn). rewrite Ha. cbn. rewrite (proj2 (bytes_eqb_eq _ _) Hn).
    unfold arg_view in *. cbn. destruct (ap_dead p); [done|]. injection Ha as <-. cbn in Hn. by rewrite Hn.
  - specialize (IH (S i)). assert (Hno : forall a, arg_view p = Some a -> bytes_eqb a.1 kv.1 = false).
    { intros a Ha. destruct (bytes_eqb a.1 kv.1) eqn:En; [|done]. apply bytes_eqb_eq in En.
      enough (arg_is kv.1 p = true) by congruence. apply arg_is_view. eauto. }
    destruct (set_scan kv.1 (S i) None ps) as [[j|] ps'].
    + destruct IH as [Hj Hv]. split; [lia|]. replace (j - i)%nat with (S (j - S i)) by lia. cbn [alter list_alter]. rewrite !view_cons.
      rewrite Hv. destruct (arg_view p) as [a|]; [|done]. cbn. by rewrite (Hno a eq_refl).
    + destruct IH as [-> Hv]. split; [done|]. cbn [alter list_alter]. rewrite !view_cons. destruct (arg_view p) as [a|]; [|done].
      cbn. by rewrite (Hno a eq_refl), Hv.
Qed.

Lemma args_set_spec kv ps mem :
  let '(r, mem') := ngx_http_waf_args_set kv ps mem in
  match r with Some ps' => view ps' = replaced kv (view ps) | None => mem <> [] end /\ (mem = [] -> mem' = []).
Proof.
  unfold ngx_http_waf_args_set. pose proof (set_scan_spec kv 0 ps) as H. destruct (set_scan kv.1 0 None ps) as [[j|] ps'].
  - destruct H as [_ H]. by rewrite Nat.sub_0_r in H.
  - destruct H as [-> H]. destruct (alloc mem) as [[] mem'] eqn:Ea; cbn [negb].
    + split; [by rewrite view_app, H|]. intros ->. by injection Ea.
    + split; intros ->; done.
Qed.

(** ** Writing *)

Lemma args_write_view first ps :
  args_write first ps = match view ps with [] => [] | _ => (if first then [] else [amp_c]) ++ print (view ps) end.
Proof.
  revert first. induction ps as [|p ps IH]; intros first; [done|]. cbn [args_write]. rewrite view_cons.
  unfold arg_view. destruct (ap_dead p); [by rewrite IH|]. f_equal. rewrite IH. unfold print. cbn [fmap list_fmap].
  assert (He : arg_text (ap_name p, if ap_has_eq p then Some (ap_value p) else None) =
    ap_name p ++ (if ap_has_eq p then eq_c :: ap_value p else [])) by (unfold arg_text; by destruct (ap_has_eq p)).
  destruct (view ps) as [|a l]; cbn [fmap list_fmap join]; rewrite He; [by rewrite app_nil_r|]. by rewrite <- app_assoc.
Qed.

Lemma args_written ps : args_write true ps = print (view ps).
Proof. rewrite args_write_view. by destruct (view ps). Qed.

Lemma args_len_fold ps len :
  fold_left args_len_step ps len = len + zlen (args_write false ps).
Proof.
  revert len. induction ps as [|p ps IH]; intros len; [cbn; unfold zlen; cbn; lia|]. cbn [fold_left]. rewrite IH.
  unfold args_len_step. cbn [args_write]. destruct (ap_dead p); [done|]. rewrite !zlen_app.
  destruct (ap_has_eq p); rewrite ?zlen_cons; change (zlen ([] : bytes)) with 0; change (zlen [amp_c]) with 1; lia.
Qed.

(** The buffer is filled to its end. *)
Lemma args_len_exact ps : args_len ps = zlen (args_write true ps).
Proof.
  unfold args_len. rewrite args_len_fold, Z.add_0_l. rewrite !args_write_view. destruct (view ps); [done|].
  rewrite !zlen_app. change (zlen [amp_c]) with 1. change (zlen ([] : bytes)) with 0.
  pose proof (zlen_nonneg (print (a :: l))). destruct (Z.eqb_spec (1 + zlen (print (a :: l))) 0); cbn [negb]; lia.
Qed.

(** ** Printing and cutting *)

(** No separator in a name or a value. *)
Definition arg_clean (a : arg) : Prop :=
  (amp_c ∉ a.1) /\ (eq_c ∉ a.1) /\ forall v, a.2 = Some v -> amp_c ∉ v.

Lemma arg_text_clean a : arg_clean a -> (amp_c ∉ arg_text a) /\ arg_of (arg_text a) = a.
Proof.
  destruct a as [n [v|]]; intros (H1 & H2 & H3); unfold arg_text, arg_of; cbn [fst snd] in *.
  - specialize (H3 v eq_refl). split; [apply not_elem_of_app; split; [done|by apply not_elem_of_cons]|].
    rewrite strlchr_app_none by done. rewrite take_app_length, (cons_middle eq_c n v), app_assoc, drop_app_length'
      by (rewrite length_app; cbn; lia). done.
  - rewrite app_nil_r, strlchr_none by done. done.
Qed.

Lemma split_join c l : l <> [] -> Forall (fun s => c ∉ s) l -> split_on c (join c l) = l.
Proof.
  intros Hl H. induction H as [|s l Hs Hr IH]; [done|]. destruct l as [|s' l].
  - cbn. by rewrite split_on_step, strlchr_none.
  - change (join c (s :: s' :: l)) with (s ++ c :: join c (s' :: l)).
    rewrite split_on_step, strlchr_app_none by done. rewrite take_app_length.
    rewrite (cons_middle c s), app_assoc, drop_app_length' by (rewrite length_app; cbn; lia). by rewrite IH.
Qed.

Lemma parse_print l : Forall arg_clean l -> l <> [([], None)] -> parse (print l) = l.
Proof.
  intros H Hne. destruct l as [|a l]; [done|]. unfold parse. destruct (bytes_eqb (print (a :: l)) []) eqn:E.
  - exfalso. apply bytes_eqb_eq in E. unfold print in E. destruct l as [|a' l].
    + cbn in E. apply Forall_cons in H as [H _]. apply arg_text_clean in H as [_ H]. rewrite E in H. apply Hne. by rewrite <- H.
    + cbn in E. apply (f_equal length) in E. rewrite length_app in E. cbn in E. lia.
  - unfold print. rewrite split_join; [|done|].
    + rewrite <- list_fmap_compose. rewrite <- (list_fmap_id (a :: l)) at 2. apply list_fmap_ext.
      intros i x Hx. cbn. apply arg_text_clean. eapply Forall_lookup_1; eauto.
    + apply Forall_fmap. eapply Forall_impl; [exact H|]. intros x Hx. by apply arg_text_clean.
Qed.

Lemma join_split c p : join c (split_on c p) = p.
Proof.
  induction p as [|x p IH]; [done|]. cbn [split_on]. destruct (split_on_cons c p) as (s & l & E). rewrite E in *.
  destruct (Z.eqb_spec x c) as [->|_].
  - change (join c ([] :: s :: l)) with (c :: join c (s :: l)). by rewrite IH.
  - destruct l; cbn in *; by rewrite IH.
Qed.

Lemma strlchr_some p c i : ngx_strlchr p c = Some i -> p = take i p ++ c :: drop (S i) p /\ (c ∉ take i p).
Proof.
  revert i. induction p as [|x p IH]; intros i; cbn [ngx_strlchr]; [done|]. destruct (Z.eqb_spec x c) as [->|Hx].
  - intros [= <-]. cbn. rewrite drop_0. split; [done|]. apply not_elem_of_nil.
  - destruct (ngx_strlchr p c) as [j|]; cbn; [|done]. intros [= <-]. destruct (IH j eq_refl) as [H1 H2].
    cbn. split; [by rewrite <- H1|]. apply not_elem_of_cons. split; [done|done].
Qed.
Lemma strlchr_absent p c : ngx_strlchr p c = None -> c ∉ p.
Proof.
  induction p as [|x p IH]; cbn; [intros _; apply not_elem_of_nil|]. destruct (Z.eqb_spec x c); [done|].
  destruct (ngx_strlchr p c); [done|]. intros _. apply not_elem_of_cons. split; [done|by apply IH].
Qed.

Lemma arg_text_of seg : arg_text (arg_of seg) = seg.
Proof.
  unfold arg_of, arg_text. destruct (ngx_strlchr seg eq_c) as [e|] eqn:E; cbn [fst snd]; [|apply app_nil_r].
  by apply strlchr_some in E as [<- _].
Qed.

Lemma print_parse args : print (parse args) = args.
Proof.
  unfold parse. destruct (bytes_eqb args []) eqn:E; [by apply bytes_eqb_eq in E as ->|]. unfold print.
  rewrite <- list_fmap_compose. rewrite (list_fmap_ext _ id); [by rewrite list_fmap_id, join_split|].
  intros i x _. apply arg_text_of.
Qed.

Lemma split_on_absent c p : Forall (fun s => c ∉ s) (split_on c p).
Proof.
  induction p as [|x p IH]; cbn; [repeat constructor; apply not_elem_of_nil|]. destruct (Z.eqb_spec x c).
  - constructor; [apply not_elem_of_nil|done].
  - destruct IH as [|s l Hs Hl]; [repeat constructor; apply not_elem_of_cons; split; [done|apply not_elem_of_nil]|].
    constructor; [|done]. by apply not_elem_of_cons.
Qed.

Lemma parse_clean args : Forall arg_clean (parse args).
Proof.
  unfold parse. destruct (bytes_eqb args []); [constructor|]. apply Forall_fmap. eapply Forall_impl; [apply split_on_absent|].
  intros s Hs. unfold compose, arg_of, arg_clean. destruct (ngx_strlchr s eq_c) as [e|] eqn:E; cbn [fst snd].
  - apply strlchr_some in E as [E1 E2]. rewrite E1 in Hs. apply not_elem_of_app in Hs as [H1 H2].
    apply not_elem_of_cons in H2 as [_ H2]. split_and!; [done|done|]. by intros v [= <-].
  - apply strlchr_absent in E. split_and!; [done|done|]. done.
Qed.

(** ** The edits of one inspector, first the removals *)

Definition edit (unset : list bytes) (set : list (bytes * bytes)) (l : list arg) : list arg :=
  fold_left (fun l kv => replaced kv l) set (fold_left (fun l n => without n l) unset l).

Lemma without_in n (l : list arg) a : a ∈ without n l <-> a ∈ l /\ a.1 <> n.
Proof. unfold without. rewrite list_elem_of_filter. tauto. Qed.

Lemma replaced_in kv l a : a ∈ replaced kv l -> a = (kv.1, Some kv.2) \/ a ∈ l /\ a.1 <> kv.1.
Proof.
  induction l as [|b l IH]; cbn [replaced]; [rewrite list_elem_of_singleton; tauto|].
  destruct (bytes_eqb b.1 kv.1) eqn:E; rewrite !elem_of_cons.
  - rewrite without_in. tauto.
  - intros [->|H]; [|apply IH in H; tauto]. right. split; [tauto|]. intros Hn. apply bytes_eqb_eq in Hn. congruence.
Qed.
Lemma replaced_set kv l : (kv.1, Some kv.2) ∈ replaced kv l.
Proof.
  induction l as [|b l IH]; cbn [replaced]; [by apply list_elem_of_singleton|].
  destruct (bytes_eqb b.1 kv.1); apply elem_of_cons; tauto.
Qed.
Lemma replaced_other kv l n : n <> kv.1 -> filter (fun a : arg => a.1 = n) (replaced kv l) = filter (fun a : arg => a.1 = n) l.
Proof.
  intros Hn. assert (Hw : forall l, filter (fun a : arg => a.1 = n) (without kv.1 l) = filter (fun a : arg => a.1 = n) l).
  { intros l'. unfold without. rewrite list_filter_filter. apply list_filter_iff. intros a. split; [tauto|]. intros <-. done. }
  induction l as [|b l IH]; cbn [replaced].
  - rewrite filter_cons_False; [done|]. cbn. congruence.
  - destruct (bytes_eqb b.1 kv.1) eqn:E.
    + apply bytes_eqb_eq in E. rewrite !filter_cons_False by (cbn; congruence). apply Hw.
    + rewrite !filter_cons. by rewrite IH.
Qed.

Lemma without_other m (l : list arg) n : n <> m -> filter (fun a : arg => a.1 = n) (without m l) = filter (fun a : arg => a.1 = n) l.
Proof.
  intros Hn. unfold without. rewrite list_filter_filter. apply list_filter_iff. intros a. split; [tauto|]. intros <-. done.
Qed.

Lemma edit_clean unset set l :
  Forall arg_clean l -> Forall (fun kv => arg_clean (kv.1, Some kv.2)) set -> Forall arg_clean (edit unset set l).
Proof.
  intros Hl Hs. unfold edit. assert (Hu : Forall arg_clean (fold_left (fun l n => without n l) unset l)).
  { revert l Hl. induction unset as [|n unset IH]; intros l Hl; [done|]. cbn. apply IH. rewrite Forall_forall in *.
    intros a Ha. apply Hl. by apply without_in in Ha as [? _]. }
  revert Hu. generalize (fold_left (fun l n => without n l) unset l). clear Hl. induction Hs as [|kv set Hk _ IH]; intros l' Hl'; [done|].
  cbn. apply IH. rewrite Forall_forall in *. intros a Ha. apply replaced_in in Ha as [->|[Ha _]]; [done|auto].
Qed.

(** Names that are not edited. *)
Lemma edit_other unset set l n : (n ∉ unset) -> (n ∉ set.*1) ->
  filter (fun a : arg => a.1 = n) (edit unset set l) = filter (fun a : arg => a.1 = n) l.
Proof.
  intros Hu Hs. unfold edit. transitivity (filter (fun a : arg => a.1 = n) (fold_left (fun l n => without n l) unset l)).
  - generalize (fold_left (fun l n => without n l) unset l). clear Hu. induction set as [|kv set IH]; intros l'; [done|]. cbn.
    cbn in Hs. apply not_elem_of_cons in Hs as [H1 H2]. rewrite IH by done. by apply replaced_other.
  - clear Hs. revert l. induction unset as [|m unset IH]; intros l; [done|]. cbn. apply not_elem_of_cons in Hu as [H1 H2].
    rewrite IH by done. by apply without_other.
Qed.

End ApplyArgs.
