(* ===== verification/Apply.v ===== *)
(** Carrying out a verdict (runtime/ngx_http_waf_apply.c): the answer to a
    denied or redirected request, the headers, cookies and query string that
    inspectors change, the body they replace and the form they deny with.

    A context keeps the fields of [ngx_http_waf_ctx_t], of its current phase
    and of [ngx_http_request_t] that this code reads or writes.  The lists of
    headers are their parts one after the other; a pointer into one is an
    index.  Outcomes of allocations and of the store are inputs; what nginx
    prints, hashes and finds in fresh memory are parameters, and so is the text
    of the debug header.  The log and the audit are recorded as calls. *)
From S2P Require Import Prelude Types Sha256 ReplyText Reply Handler ApplyArgs.
Import Sha256 ReplyText Reply Handler ApplyArgs.
#[local] Open Scope Z_scope.

Module Apply.

Definition NGX_HTTP_FORBIDDEN : Z := 403.
Definition NGX_HTTP_INTERNAL_SERVER_ERROR : Z := 500.
Definition NGX_HTTP_SERVICE_UNAVAILABLE : Z := 503.
Definition NGX_HTTP_WAF_FORM_MAX : Z := 1024 * 1024.
Definition NGX_HTTP_WAF_BODY_AVAILABLE : Z := 0.
Definition NGX_TIME_T_LEN : Z := 20.

(** ** Data *)

Inductive send_e := SEND_ORIGINAL | SEND_STORE.
Inductive deny_type_e := DENY_TYPE_HTTP | DENY_TYPE_GRPC | DENY_TYPE_WEBSOCKET.
#[export] Instance send_e_eq_dec : EqDecision send_e.
Proof. solve_decision. Defined.
#[export] Instance deny_type_e_eq_dec : EqDecision deny_type_e.
Proof. solve_decision. Defined.

(** The fields of [ngx_http_waf_deny_response_t] that are read here. *)
Record deny_response_t := mkDeny { dr_name : bytes; dr_type : deny_type_e; dr_status : Z }.

(** [ngx_table_elt_t]; an answer header with hash 0 is not sent. *)
Record elt_t := mkElt { h_hash : Z; h_key : bytes; h_value : bytes }.
#[export] Instance eta_elt_t : Eta elt_t := fun r => mkElt r.(h_hash) r.(h_key) r.(h_value).

(** What is read of the configuration; [None] in [ac_send] is unset. *)
Record aconf := mkAconf {
  ac_send : phase_e -> Z -> option send_e;
  ac_deny_default : bytes;
  ac_score_deny_response : phase_e -> bytes;
  ac_deny_responses : option (list deny_response_t);
  ac_body_limit : Z;
  ac_exception_body : policy_e;
  ac_cookie_same_site : Z;
  ac_cookie_http_only : bool;
  ac_cookie_secure : bool;
  ac_debug_header : bool;
  ac_args_cap : Z;
  ac_preview_sent : phase_e -> bool
}.

(** [ngx_http_waf_reply_t]: what the parser of replies filled, and the marks
    of its use. *)
Record areply := mkAreply {
  ar_msg : msg_t;
  ar_received : bool;
  ar_passive : bool;
  ar_vote : bool;
  ar_args_applied : bool;
  ar_rewrite_partial : bool;
  ar_rewrite_digest : bool
}.
#[export] Instance eta_areply : Eta areply := fun r =>
  mkAreply r.(ar_msg) r.(ar_received) r.(ar_passive) r.(ar_vote) r.(ar_args_applied) r.(ar_rewrite_partial)
    r.(ar_rewrite_digest).
Definition areply0 : areply := mkAreply msg0 false false false false false false.

(** [hr_body]: the bytes of [request_body->bufs] and [request_body->rest]. *)
Record areq := mkAreq {
  hr_args : bytes;
  hr_valid_unparsed_uri : bool;
  hr_in : list elt_t;
  hr_content_length_n : Z;
  hr_content_length : option nat;
  hr_body : option (bytes * Z);
  hr_out : list elt_t;
  hr_content_type : bytes;
  hr_charset : bytes;
  hr_server : option nat;
  hr_location : option nat
}.
#[export] Instance eta_areq : Eta areq := fun r =>
  mkAreq r.(hr_args) r.(hr_valid_unparsed_uri) r.(hr_in) r.(hr_content_length_n) r.(hr_content_length) r.(hr_body)
    r.(hr_out) r.(hr_content_type) r.(hr_charset) r.(hr_server) r.(hr_location).

Inductive acall :=
  | ACALL_GET (key : bytes) (max : Z) | ACALL_DEL (key : bytes) | ACALL_LOG_VERDICT | ACALL_DISCARD
  | ACALL_RESPONSE (status : Z) (ct body : bytes) | ACALL_RESUMED.

Record actx := mkActx {
  x_r : areq;
  x_phase : phase_e;
  x_verdict : verdict_e;
  x_code : code_e;
  x_by_score : bool;
  x_by_local : bool;
  x_decisive : option nat;
  x_replies : option (list areply);
  x_live : bool;
  x_rewrite_last : Z;
  x_locator : option locator_t;
  x_body_ready : bool;
  x_body_discarded : bool;
  x_preview_sent : bytes;
  x_exception_response : bytes;
  x_local_response : bytes;
  x_state : state_e;
  x_form_fetched : bool;
  x_form_op : option bytes;
  x_form_failed : bool;
  x_send_fetched : bool;
  x_send_body_done : bool;
  x_send_body_op : option bytes;
  x_send_body_index : nat;
  x_req_body_rewritten : bool;
  x_calls : list acall;
  x_mem : alloc_stream
}.
#[export] Instance eta_actx : Eta actx := fun r =>
  mkActx r.(x_r) r.(x_phase) r.(x_verdict) r.(x_code) r.(x_by_score) r.(x_by_local) r.(x_decisive) r.(x_replies) r.(x_live)
    r.(x_rewrite_last) r.(x_locator) r.(x_body_ready) r.(x_body_discarded) r.(x_preview_sent) r.(x_exception_response)
    r.(x_local_response) r.(x_state) r.(x_form_fetched) r.(x_form_op) r.(x_form_failed) r.(x_send_fetched)
    r.(x_send_body_done) r.(x_send_body_op) r.(x_send_body_index) r.(x_req_body_rewritten) r.(x_calls) r.(x_mem).

Definition acall_do (c : acall) (x : actx) : actx := x <| x_calls ::= fun l => l ++ [c] |>.
Definition on_r (f : areq -> areq) (x : actx) : actx := x <| x_r ::= f |>.
Definition draw (x : actx) : bool * actx := let '(ok, mem) := alloc x.(x_mem) in (ok, x <| x_mem := mem |>).
(** [ctx->ph->replies[i]], and an update of it. *)
Definition reply_at (x : actx) (i : nat) : areply := default areply0 (default [] x.(x_replies) !! i).
Definition on_reply (i : nat) (f : areply -> areply) (x : actx) : actx :=
  x <| x_replies ::= fun o => alter f i <$> o |>.

(** [ngx_list_push] on the headers of the answer. *)
Definition push_out (h : elt_t) (x : actx) : bool * actx :=
  let '(ok, x) := draw x in
  if negb ok then (false, x) else (true, on_r (fun r => r <| hr_out ::= fun l => l ++ [h] |>) x).

Section apply.
Context `{NgxString}.
(** [ngx_sprintf] with ["%O"] and ["%T"], [ngx_hash_key] of a lowercased name,
    a header list element and a SHA-256 state in fresh memory, and the text of
    the debug header. *)
Context (sprintf_i : Z -> bytes) (hash_key : bytes -> Z) (fresh_elt : elt_t) (fresh_sha : sha256_t)
  (debug_text : actx -> bytes).
Context (cf : aconf).

Definition ngx_http_waf_send_of (phase : phase_e) (obj : Z) : send_e :=
  match cf.(ac_send) phase obj with Some how => how | None => SEND_STORE end.

(** ** Headers *)

Definition name_is (a b : bytes) : bool := Nat.eqb (length a) (length b) && ngx_strncasecmp_eq a b (length b).

Definition ngx_http_waf_rsp_forbid_set : list bytes := map lit ["set-cookie"; "location"; "date"]%string.
Definition ngx_http_waf_rsp_forbid_unset : list bytes := map lit ["content-type"; "location"; "date"]%string.

Definition ngx_http_waf_header_listed (list : list bytes) (name : bytes) : bool :=
  existsb (fun l => name_is l name) list.

(** True for [NGX_OK]. *)
Definition ngx_http_waf_header_in_set (name value : bytes) (x : actx) : bool * actx :=
  if existsb (fun h => name_is h.(h_key) name) x.(x_r).(hr_in)
  then (true, on_r (fun r => r <| hr_in ::= fmap (fun h => if name_is h.(h_key) name then h <| h_value := value |> else h) |>) x)
  else
    let '(ok, x) := draw x in
    if negb ok then (false, x)
    else
      let '(ok, x) := draw x in
      let h := if ok then mkElt (hash_key (lowers name)) name value else fresh_elt in
      (ok, on_r (fun r => r <| hr_in ::= fun l => l ++ [h] |>) x).

Definition find_out (name : bytes) (x : actx) : option nat :=
  fst <$> list_find (fun h => name_is h.(h_key) name = true) x.(x_r).(hr_out).

Definition ngx_http_waf_header_out_set (name value : bytes) (x : actx) : bool * actx :=
  if name_is name (lit "Content-Type")
  then (true, on_r (fun r => r <| hr_content_type := value |> <| hr_charset := [] |>) x)
  else match find_out name x with
       | Some i =>
           (true, on_r (fun r => r <| hr_out ::= alter (fun h =>
              mkElt (if h.(h_hash) =? 0 then 1 else h.(h_hash)) h.(h_key) value) i |>) x)
       | None =>
           let at_ := length x.(x_r).(hr_out) in
           let '(ok, x) := push_out (mkElt 1 name value) x in
           if negb ok then (false, x)
           else (true, if name_is name (lit "Server") then on_r (fun r => r <| hr_server := Some at_ |>) x else x)
       end.

Definition ngx_http_waf_header_out_unset (name : bytes) (x : actx) : actx :=
  let x := on_r (fun r => r <| hr_out ::= fmap (fun h =>
             if negb (h.(h_hash) =? 0) && name_is h.(h_key) name then h <| h_hash := 0 |> else h) |>) x in
  if name_is name (lit "Server") && bool_decide (x.(x_r).(hr_server) = None)
  then
    let at_ := length x.(x_r).(hr_out) in
    let '(ok, x) := push_out (mkElt 0 (lit "Server") []) x in
    if negb ok then x else on_r (fun r => r <| hr_server := Some at_ |>) x
  else x.

(** The loops over the headers that a reply sets; they end at the first
    failure. *)
Fixpoint headers_in_loop (set : list (bytes * bytes)) (x : actx) : bool * actx :=
  match set with
  | [] => (true, x)
  | (k, v) :: set =>
      let '(ok, x) := ngx_http_waf_header_in_set k v x in
      if negb ok then (false, x) else headers_in_loop set x
  end.
Fixpoint headers_out_loop (set : list (bytes * bytes)) (x : actx) : bool * actx :=
  match set with
  | [] => (true, x)
  | (k, v) :: set =>
      if ngx_http_waf_header_listed ngx_http_waf_rsp_forbid_set k then headers_out_loop set x
      else
        let '(ok, x) := ngx_http_waf_header_out_set k v x in
        if negb ok then (false, x) else headers_out_loop set x
  end.
Definition unset_step (x : actx) (name : bytes) : actx :=
  if ngx_http_waf_header_listed ngx_http_waf_rsp_forbid_unset name then x else ngx_http_waf_header_out_unset name x.

Definition ngx_http_waf_apply_headers (reply : areply) (x : actx) : bool * actx :=
  let m := reply.(ar_msg) in
  let some := bool_decide (is_Some m.(m_headers_set)) || bool_decide (is_Some m.(m_headers_unset)) in
  if reply.(ar_passive) || reply.(ar_vote) then (true, x)
  else if some && (ngx_http_waf_send_of x.(x_phase) NGX_HTTP_WAF_OBJ_HEADERS ==? SEND_ORIGINAL) then (true, x)
  else if negb (x.(x_phase) ==? PHASE_REQUEST) then
    if negb some then (true, x)
    else if negb (x.(x_phase) ==? PHASE_RESPONSE) then (true, x)
    else
      let x := fold_left unset_step (default [] m.(m_headers_unset)) x in
      headers_out_loop (default [] m.(m_headers_set)) x
  else headers_in_loop (default [] m.(m_headers_set)) x.

Fixpoint override_loop (replies : list areply) (x : actx) : bool * actx :=
  match replies with
  | [] => (true, x)
  | reply :: replies =>
      if negb reply.(ar_received) then override_loop replies x
      else
        let '(ok, x) := ngx_http_waf_apply_headers reply x in
        if negb ok then (false, x) else override_loop replies x
  end.

(** ** Cookies *)

Definition ngx_http_waf_same_site_names : list bytes := [[]; lit "Lax"; lit "Strict"; lit "None"].
Definition same_site : bytes :=
  aget [] ngx_http_waf_same_site_names (if cf.(ac_cookie_same_site) <=? 3 then cf.(ac_cookie_same_site) else 0).

Definition cookie_len (ck : cookie_t) : Z :=
  zlen ck.(ck_name) + 1 + zlen ck.(ck_value) + zlen (lit "; Path=") + zlen ck.(ck_path)
  + zlen (lit "; Max-Age=") + NGX_TIME_T_LEN + zlen (lit "; HttpOnly") + zlen (lit "; Secure")
  + zlen (lit "; SameSite=") + zlen same_site.

Definition cookie_text (ck : cookie_t) : bytes :=
  ck.(ck_name) ++ [61] ++ ck.(ck_value)
  ++ (if negb (zlen ck.(ck_path) =? 0) then lit "; Path=" ++ ck.(ck_path) else [])
  ++ (if ck.(ck_max_age_set) then lit "; Max-Age=" ++ sprintf_i ck.(ck_max_age) else [])
  ++ (if cf.(ac_cookie_http_only) then lit "; HttpOnly" else [])
  ++ (if cf.(ac_cookie_secure) then lit "; Secure" else [])
  ++ (if negb (zlen same_site =? 0) then lit "; SameSite=" ++ same_site else []).

Definition ngx_http_waf_cookie_set (ck : cookie_t) (x : actx) : bool * actx :=
  let '(ok, x) := draw x in
  if negb ok then (false, x) else push_out (mkElt 1 (lit "Set-Cookie") (cookie_text ck)) x.

Fixpoint cookie_list (l : list cookie_t) (x : actx) : bool * actx :=
  match l with
  | [] => (true, x)
  | ck :: l => let '(ok, x) := ngx_http_waf_cookie_set ck x in if negb ok then (false, x) else cookie_list l x
  end.
Fixpoint cookies_loop (replies : list areply) (x : actx) : bool * actx :=
  match replies with
  | [] => (true, x)
  | reply :: replies =>
      if negb reply.(ar_received) || reply.(ar_passive) || reply.(ar_vote) then cookies_loop replies x
      else
        let '(ok, x) := cookie_list (default [] reply.(ar_msg).(m_cookies)) x in
        if negb ok then (false, x) else cookies_loop replies x
  end.
Definition ngx_http_waf_cookies (x : actx) : bool * actx := cookies_loop (default [] x.(x_replies)) x.

Definition ngx_http_waf_debug_header (x : actx) : bool * actx :=
  if negb cf.(ac_debug_header) then (true, x)
  else
    let '(ok, x) := draw x in
    if negb ok then (false, x) else push_out (mkElt 1 (lit "X-WAF-Debug") (debug_text x)) x.

Definition ngx_http_waf_apply_overrides (x : actx) : hrc * actx :=
  let '(ok, x) := override_loop (default [] x.(x_replies)) x in
  if negb ok then (HTTP NGX_HTTP_INTERNAL_SERVER_ERROR, x)
  else
    let '(ok, x) := ngx_http_waf_cookies x in
    if negb ok then (HTTP NGX_HTTP_INTERNAL_SERVER_ERROR, x)
    else
      let '(ok, x) := ngx_http_waf_debug_header x in
      if negb ok then (HTTP NGX_HTTP_INTERNAL_SERVER_ERROR, x) else (RC NGX_DECLINED, x).

(** ** Denying *)

Definition ngx_http_waf_deny_response_find (name : bytes) : option deny_response_t :=
  match cf.(ac_deny_responses) with
  | None => None
  | Some l => if zlen name =? 0 then None else find (fun dr => bytes_eqb dr.(dr_name) name) l
  end.

(** The name of the answer, [None] for the default of the location, which is
    told apart by its address. *)
Definition deny_name (x : actx) : option bytes :=
  if negb (zlen x.(x_exception_response) =? 0) then Some x.(x_exception_response)
  else if x.(x_by_local) then
    if negb (zlen x.(x_local_response) =? 0) then Some x.(x_local_response) else None
  else if x.(x_by_score) then
    if negb (zlen (cf.(ac_score_deny_response) x.(x_phase)) =? 0)
    then Some (cf.(ac_score_deny_response) x.(x_phase)) else None
  else match x.(x_decisive) with
       | Some i =>
           if negb (zlen (reply_at x i).(ar_msg).(m_response_name) =? 0)
           then Some (reply_at x i).(ar_msg).(m_response_name) else None
       | None => None
       end.

Definition ngx_http_waf_deny_entry (x : actx) : option deny_response_t :=
  let default_entry := ngx_http_waf_deny_response_find cf.(ac_deny_default) in
  match deny_name x with
  | None => default_entry
  | Some name =>
      match ngx_http_waf_deny_response_find name with
      | Some dr => Some dr
      | None => default_entry
      end
  end.

Definition ngx_http_waf_fail_status (x : actx) : Z :=
  if zlen x.(x_exception_response) =? 0 then NGX_HTTP_SERVICE_UNAVAILABLE
  else match ngx_http_waf_deny_entry x with
       | None => NGX_HTTP_SERVICE_UNAVAILABLE
       | Some dr => if negb (dr.(dr_type) ==? DENY_TYPE_HTTP) then NGX_HTTP_SERVICE_UNAVAILABLE else dr.(dr_status)
       end.

(** ** The form of a denial *)

Definition sha256_of (data : bytes) : bytes :=
  (ngx_http_waf_sha256_final (ngx_http_waf_sha256_update (ngx_http_waf_sha256_init fresh_sha) data)).2.

Definition ngx_http_waf_form_fail (x : actx) : actx := x <| x_form_failed := true |>.

(** [None] when the decisive reply is dereferenced and there is none. *)
Definition ngx_http_waf_deny_with_form (data : bytes) (status : Z) (x : actx) : option (hrc * actx) :=
  match x.(x_decisive) with
  | None => None
  | Some i =>
      let m := (reply_at x i).(ar_msg) in
      if negb (zlen data =? u64 m.(m_rewrite_size)) then Some (HTTP status, ngx_http_waf_form_fail x)
      else if m.(m_rewrite_sha256_set) && negb (bytes_eqb (sha256_of data) m.(m_rewrite_sha256))
      then Some (HTTP status, ngx_http_waf_form_fail x)
      else
        let x := if negb x.(x_body_ready) && negb x.(x_body_discarded)
                 then acall_do ACALL_DISCARD (x <| x_body_discarded := true |>) else x in
        let '(ok, x) := push_out (mkElt 1 (lit "Cache-Control") (lit "no-store")) x in
        if negb ok then Some (HTTP NGX_HTTP_INTERNAL_SERVER_ERROR, x)
        else
          let x := x <| x_state := ST_DONE |> in
          let ct := if negb (zlen m.(m_rewrite_content_type) =? 0) then m.(m_rewrite_content_type)
                    else lit "text/html; charset=utf-8" in
          Some (RC NGX_DONE, acall_do (ACALL_RESPONSE status ct data) x)
  end.

Definition ngx_http_waf_deny (x : actx) : option (hrc * actx) :=
  match ngx_http_waf_deny_entry x with
  | None => Some (HTTP NGX_HTTP_FORBIDDEN, x)
  | Some dr =>
      if negb (dr.(dr_type) ==? DENY_TYPE_HTTP) then Some (HTTP NGX_HTTP_FORBIDDEN, x)
      else match x.(x_form_op) with
           | Some data =>
               if negb x.(x_form_failed) then ngx_http_waf_deny_with_form data dr.(dr_status) x
               else Some (HTTP dr.(dr_status), x)
           | None => Some (HTTP dr.(dr_status), x)
           end
  end.

Definition ngx_http_waf_form_reply (x : actx) : option areply :=
  if negb (x.(x_phase) ==? PHASE_REQUEST) || negb (x.(x_verdict) ==? V_DENY) || x.(x_by_local) || x.(x_by_score)
  then None
  else match x.(x_decisive) with
       | None => None
       | Some i =>
           let reply := reply_at x i in
           if negb reply.(ar_received) || reply.(ar_passive) || reply.(ar_vote)
              || negb reply.(ar_msg).(m_rewrite_has) || negb reply.(ar_msg).(m_rewrite_body)
           then None else Some reply
       end.

(** What [ngx_http_waf_store_get] returns, with the status and the data of the
    operation where one was made. *)
Inductive get_r := GET_AGAIN | GET (rc : ngx_rc) (op : option (ngx_rc * bytes)).

(** True for [NGX_AGAIN]. *)
Definition ngx_http_waf_form_fetch (got : get_r) (x : actx) : bool * actx :=
  if x.(x_form_fetched) then (false, x)
  else
    let x := x <| x_form_fetched := true |> in
    match ngx_http_waf_form_reply x with
    | None => (false, x)
    | Some reply =>
        if NGX_HTTP_WAF_FORM_MAX <? reply.(ar_msg).(m_rewrite_size) then (false, ngx_http_waf_form_fail x)
        else
          let x := acall_do (ACALL_GET reply.(ar_msg).(m_rewrite_key) NGX_HTTP_WAF_FORM_MAX) x in
          match got with
          | GET_AGAIN => (true, x)
          | GET NGX_OK (Some (NGX_OK, data)) => (false, x <| x_form_op := Some data |>)
          | GET _ _ => (false, ngx_http_waf_form_fail x)
          end
    end.

Definition ngx_http_waf_form_fetched (status : ngx_rc) (data : bytes) (x : actx) : actx :=
  let x := match status with NGX_OK => x <| x_form_op := Some data |> | _ => ngx_http_waf_form_fail x end in
  acall_do ACALL_RESUMED x.

(** ** The body that is sent on *)

Definition ngx_http_waf_send_reply (x : actx) : Z :=
  if negb x.(x_live) then NGX_HTTP_WAF_MAX_INSPECTORS else x.(x_rewrite_last).

Definition ngx_http_waf_send_fail_code : bytes := lit "REWRITE_FAILED".

Definition ngx_http_waf_send_fail (x : actx) : actx :=
  let index := x.(x_send_body_index) in
  if negb (cf.(ac_exception_body) ==? POLICY_BLOCK) || (x.(x_verdict) ==? V_DENY) then x
  else
    let x := on_reply index (fun reply => reply <| ar_msg ::= fun m =>
               m <| m_verdict := V_DENY |> <| m_reason_code := ngx_http_waf_send_fail_code |> <| m_response_name := [] |> |>) x in
    x <| x_verdict := V_DENY |> <| x_decisive := Some index |> <| x_code := CODE_INSPECTOR |>.

Definition ngx_http_waf_send_settled (status : ngx_rc) (data : bytes) (x : actx) : actx :=
  match status with NGX_OK => x <| x_send_body_op := Some data |> | _ => ngx_http_waf_send_fail x end.

Definition ngx_http_waf_send_issue (got : get_r) (x : actx) : bool * actx :=
  if negb (x.(x_phase) ==? PHASE_REQUEST) || negb (x.(x_verdict) ==? V_ALLOW) || x.(x_by_local)
     || bool_decide (x.(x_replies) = None)
  then (false, x)
  else if negb (ngx_http_waf_send_of PHASE_REQUEST NGX_HTTP_WAF_OBJ_BODY ==? SEND_STORE) then (false, x)
  else
    let found := ngx_http_waf_send_reply x in
    if found =? NGX_HTTP_WAF_MAX_INSPECTORS then (false, x)
    else
      let index := Z.to_nat found in
      let x := x <| x_send_body_index := index |> in
      match x.(x_r).(hr_body), x.(x_locator) with
      | Some _, Some loc =>
          if negb (loc.(l_unavailable) =? NGX_HTTP_WAF_BODY_AVAILABLE) then (false, ngx_http_waf_send_fail x)
          else if loc.(l_truncated) || negb loc.(l_complete)
          then (false, ngx_http_waf_send_fail (on_reply index (fun r => r <| ar_rewrite_partial := true |>) x))
          else
            let m := (reply_at x index).(ar_msg) in
            if cf.(ac_body_limit) <? m.(m_rewrite_size) then (false, ngx_http_waf_send_fail x)
            else
              let x := acall_do (ACALL_GET m.(m_rewrite_key) cf.(ac_body_limit)) x in
              match got with
              | GET_AGAIN => (true, x)
              | GET NGX_OK (Some (status, data)) => (false, ngx_http_waf_send_settled status data x)
              | GET _ _ => (false, ngx_http_waf_send_fail x)
              end
      | _, _ => (false, ngx_http_waf_send_fail x)
      end.

Definition ngx_http_waf_send_fetch (got : get_r) (x : actx) : bool * actx :=
  if x.(x_send_fetched) then (false, x)
  else
    let '(again, x) := if negb x.(x_send_body_done)
                       then ngx_http_waf_send_issue got (x <| x_send_body_done := true |>) else (false, x) in
    if again then (true, x) else (false, x <| x_send_fetched := true |>).

(** [send_body_done] is set when an operation is under way, so that this
    fetch issues none. *)
Definition ngx_http_waf_send_body_fetched (status : ngx_rc) (data : bytes) (got : get_r) (x : actx) : actx :=
  let x := ngx_http_waf_send_settled status data x in
  let '(again, x) := ngx_http_waf_send_fetch got x in
  if again then x else acall_do ACALL_RESUMED x.

Definition ngx_http_waf_send_verify (data : bytes) (size : Z) (sha256 : bytes) (sha256_set : bool) : bool :=
  if negb (zlen data =? u64 size) then false
  else if sha256_set && negb (bytes_eqb (sha256_of data) sha256) then false
  else true.

Definition ngx_http_waf_send_swap_body (data : bytes) (x : actx) : bool * actx :=
  let index := x.(x_send_body_index) in
  let m := (reply_at x index).(ar_msg) in
  match x.(x_r).(hr_body) with
  | None => (false, x)
  | Some _ =>
      if negb (ngx_http_waf_send_verify data m.(m_rewrite_size) m.(m_rewrite_sha256) m.(m_rewrite_sha256_set))
      then (false, x)
      else
        let '(ok, x) := draw x in
        if negb ok then (false, x)
        else
          let '(ok, x) := draw x in
          if negb ok then (false, x)
          else
            let x := on_r (fun r => r <| hr_body := Some (data, 0) |> <| hr_content_length_n := zlen data |>) x in
            let '(ok, x) :=
              match x.(x_r).(hr_content_length) with
              | None => (true, x)
              | Some i =>
                  let '(ok, x) := draw x in
                  if negb ok then (false, x)
                  else (true, on_r (fun r => r <| hr_in ::= alter (fun h => h <| h_value := sprintf_i (zlen data) |>) i |>) x)
              end in
            if negb ok then (false, x)
            else
              let x := x <| x_req_body_rewritten := true |> in
              let x := on_reply index (fun reply =>
                         (if negb m.(m_rewrite_sha256_set)
                          then reply <| ar_msg ::= fun m => m <| m_rewrite_sha256 := sha256_of data |> |> else reply)
                         <| ar_rewrite_digest := true |>) x in
              let x := if cf.(ac_preview_sent) x.(x_phase) then x <| x_preview_sent := data |> else x in
              (true, acall_do (ACALL_DEL m.(m_rewrite_key)) x)
  end.

(** ** The query string *)

(** The inspectors that edit it, one after the other: what is left of the
    pairs, the replies and how many edited; [None] inside is [nomem]. *)
Definition args_author (reply : areply) : bool :=
  negb (negb reply.(ar_received) || reply.(ar_passive) || reply.(ar_vote)
        || (bool_decide (reply.(ar_msg).(m_args_set) = None) && bool_decide (reply.(ar_msg).(m_args_unset) = None))).

Fixpoint set_all (set : list (bytes * bytes)) (pairs : list arg_pair_t) (mem : alloc_stream)
    : option (list arg_pair_t) * alloc_stream :=
  match set with
  | [] => (Some pairs, mem)
  | kv :: set =>
      match ngx_http_waf_args_set kv pairs mem with
      | (None, mem) => (None, mem)
      | (Some pairs, mem) => set_all set pairs mem
      end
  end.

(** [pairs == NULL] makes the array and cuts the query string. *)
Definition args_pairs_of (args : bytes) (pairs : option (list arg_pair_t)) (mem : alloc_stream)
    : option (option (list arg_pair_t) * alloc_stream) :=
  match pairs with
  | Some pairs => Some (Some pairs, mem)
  | None =>
      let '(ok, mem) := alloc mem in
      if negb ok then Some (None, mem) else ngx_http_waf_args_split args [] mem
  end.

Fixpoint args_edit (args : bytes) (replies : list areply) (pairs : option (list arg_pair_t)) (mem : alloc_stream)
    : option (option (list areply * option (list arg_pair_t)) * alloc_stream) :=
  match replies with
  | [] => Some (Some ([], pairs), mem)
  | reply :: replies =>
      if negb (args_author reply) || negb (ngx_http_waf_send_of PHASE_REQUEST NGX_HTTP_WAF_OBJ_ARGS ==? SEND_STORE)
      then
        r ← args_edit args replies pairs mem;
        match r with
        | (None, mem) => Some (None, mem)
        | (Some (rest, pairs), mem) => Some (Some (reply :: rest, pairs), mem)
        end
      else
        p ← args_pairs_of args pairs mem;
        match p with
        | (None, mem) => Some (None, mem)
        | (Some pairs, mem) =>
            let pairs := fold_left (fun ps n => ngx_http_waf_args_unset n ps) (default [] reply.(ar_msg).(m_args_unset)) pairs in
            match set_all (default [] reply.(ar_msg).(m_args_set)) pairs mem with
            | (None, mem) => Some (None, mem)
            | (Some pairs, mem) =>
                r ← args_edit args replies (Some pairs) mem;
                match r with
                | (None, mem) => Some (None, mem)
                | (Some (rest, pairs), mem) => Some (Some (reply <| ar_args_applied := true |> :: rest, pairs), mem)
                end
            end
        end
  end.

(** The label [undo]. *)
Definition args_undo (x : actx) : actx :=
  x <| x_replies ::= fun o => map (fun r => r <| ar_args_applied := false |>) <$> o |>.

Definition ngx_http_waf_args_apply (x : actx) : option actx :=
  if negb (x.(x_phase) ==? PHASE_REQUEST) || negb (x.(x_verdict) ==? V_ALLOW) || x.(x_by_local) then Some x
  else match x.(x_replies) with
  | None => Some x
  | Some replies =>
      r ← args_edit x.(x_r).(hr_args) replies None x.(x_mem);
      match r with
      | (None, mem) => Some (args_undo (x <| x_mem := mem |>))
      | (Some (replies, None), mem) => Some (x <| x_replies := Some replies |> <| x_mem := mem |>)
      | (Some (replies, Some pairs), mem) =>
          let x := x <| x_replies := Some replies |> <| x_mem := mem |> in
          let len := args_len pairs in
          if cf.(ac_args_cap) <? len then Some (args_undo x)
          else
            let '(ok, x) := draw x in
            if negb ok then Some (args_undo x)
            else Some (on_r (fun r => r <| hr_args := args_write true pairs |> <| hr_valid_unparsed_uri := false |>) x)
      end
  end.

(** ** Applying *)

Definition ngx_http_waf_send_apply (x : actx) : option actx :=
  if negb (x.(x_phase) ==? PHASE_REQUEST) then Some x
  else
    let x := match x.(x_send_body_op) with
             | Some data =>
                 if x.(x_verdict) ==? V_ALLOW then
                   let '(ok, x) := ngx_http_waf_send_swap_body data x in
                   if negb ok then ngx_http_waf_send_fail x else x
                 else x
             | None => x
             end in
    ngx_http_waf_args_apply x.

Definition ngx_http_waf_redirect (x : actx) : option (hrc * actx) :=
  let at_ := length x.(x_r).(hr_out) in
  match x.(x_decisive) with
  | None => None
  | Some i =>
      let m := (reply_at x i).(ar_msg) in
      let '(ok, x) := push_out (mkElt 1 (lit "Location") m.(m_redirect_url)) x in
      if negb ok then Some (HTTP NGX_HTTP_INTERNAL_SERVER_ERROR, x)
      else Some (HTTP m.(m_status), on_r (fun r => r <| hr_location := Some at_ |>) x)
  end.

(** [None] is a loop that does not end or a decisive reply that is missing. *)
Definition ngx_http_waf_apply (x : actx) : option (hrc * actx) :=
  x ← ngx_http_waf_send_apply x;
  let x := acall_do ACALL_LOG_VERDICT x in
  let '(rc, x) := ngx_http_waf_apply_overrides x in
  if negb (rc ==? RC NGX_DECLINED) then Some (rc, x)
  else match x.(x_verdict) with
       | V_DENY => ngx_http_waf_deny x
       | V_REDIRECT => ngx_http_waf_redirect x
       | _ => Some (RC NGX_DECLINED, x)
       end.

Definition ngx_http_waf_result_status (x : actx) : Z :=
  match x.(x_verdict) with
  | V_DENY =>
      match ngx_http_waf_deny_entry x with
      | None => NGX_HTTP_FORBIDDEN
      | Some dr =>
          if negb (dr.(dr_type) ==? DENY_TYPE_HTTP) && negb (ngx_http_waf_phase_is_frame x.(x_phase))
          then NGX_HTTP_FORBIDDEN else dr.(dr_status)
      end
  | V_REDIRECT =>
      match x.(x_decisive) with
      | Some i => if negb ((reply_at x i).(ar_msg).(m_status) =? 0) then (reply_at x i).(ar_msg).(m_status)
                  else NGX_HTTP_MOVED_TEMPORARILY
      | None => NGX_HTTP_MOVED_TEMPORARILY
      end
  | _ => 0
  end.

End apply.
End Apply.
