(* ===== verification/ApplyHeaders.v ===== *)
(** Headers and cookies that inspectors change (Apply.v): which headers no
    reply can touch, what a header that is set looks like afterwards, that
    muted replies change nothing, and the text of a cookie. *)
From S2P Require Import Prelude Types ReplyText Reply ReplyFacts Json JsonTrip Handler Select SelectFacts ApplyArgs Apply.
Import ReplyText Reply ReplyFacts JsonTrip Handler Apply.
#[local] Open Scope Z_scope.

Module ApplyHeaders.

(** ** Lists of headers *)

(** [l'] has the entries of [l], with the same names and, where [may] does not
    hold of the name, unchanged, and after them entries whose names satisfy
    [added]. *)
Definition touched (may added : bytes -> Prop) (l l' : list elt_t) : Prop :=
  exists l1 l2, l' = l1 ++ l2 /\
    Forall2 (fun h h' => h' = h \/ may h.(h_key) /\ h'.(h_key) = h.(h_key)) l l1 /\
    Forall (fun h => added h.(h_key)) l2.

Lemma touched_refl may added l : touched may added l l.
Proof. exists l, []. rewrite app_nil_r. split_and!; [done| |done]. apply Forall_Forall2_diag, Forall_forall. auto. Qed.

Lemma touched_trans may added l l' l'' : touched may added l l' -> touched may added l' l'' -> touched may added l l''.
Proof.
  intros (l1 & l2 & -> & H1 & H2) (k1 & k2 & -> & H3 & H4).
  apply Forall2_app_inv_l in H3 as (k3 & k4 & H5 & H6 & ->). exists k3, (k4 ++ k2). rewrite app_assoc. split_and!; [done| |].
  - clear H6. revert k3 H5. induction H1 as [|a b l l1 Hab _ IH]; intros k3 H5; inversion H5 as [|? c ? k Hbc Hk]; subst; [done|].
    constructor; [|auto]. destruct Hab as [->|[Ha Ea]], Hbc as [->|[Hb Eb]]; auto. right. split; [done|congruence].
  - apply Forall_app. split; [|done]. clear H1 H5. induction H6 as [|a b q k Hab _ IH]; [done|].
    apply Forall_cons in H2 as [Ha H2]. constructor; [|auto]. by destruct Hab as [->|[_ ->]].
Qed.

Lemma touched_snoc may (added : bytes -> Prop) l h : added h.(h_key) -> touched may added l (l ++ [h]).
Proof.
  intros Hh. exists l, [h]. split_and!; [done| |by constructor]. apply Forall_Forall2_diag, Forall_forall. auto.
Qed.

Lemma touched_fmap (may added : bytes -> Prop) l f :
  (forall h, f h = h \/ may h.(h_key) /\ (f h).(h_key) = h.(h_key)) -> touched may added l (f <$> l).
Proof.
  intros Hf. exists (f <$> l), []. rewrite app_nil_r. split_and!; [done| |done]. apply Forall2_fmap_r, Forall_Forall2_diag, Forall_forall. auto.
Qed.

Lemma touched_alter (may added : bytes -> Prop) l i h f :
  l !! i = Some h -> may h.(h_key) -> (forall h, (f h).(h_key) = h.(h_key)) -> touched may added l (alter f i l).
Proof.
  intros Hi Hm Hk. exists (alter f i l), []. rewrite app_nil_r. split_and!; [done| |done].
  apply Forall2_same_length_lookup. split; [by rewrite length_alter|]. intros j a b Ha Hb. rewrite list_lookup_alter in Hb.
  case_decide as Hj; [|left; congruence]. subst j. rewrite Ha in Hb. injection Hb as <-. right.
  split; [by assert (a = h) as -> by congruence|done].
Qed.

(** An entry that may not be touched. *)
Lemma touched_kept may added l l' i h : touched may added l l' -> l !! i = Some h -> ~ may h.(h_key) -> l' !! i = Some h.
Proof.
  intros (l1 & l2 & -> & H1 & _) Hi Hm. eapply Forall2_lookup_l in H1 as (h' & Hh' & Hc); [|exact Hi].
  rewrite lookup_app_l by (eapply lookup_lt_Some; eauto). rewrite Hh'. destruct Hc as [->|[? _]]; done.
Qed.

Section headers.
Context `{HL : NgxStringLaws}.

Lemma name_is_lowers a b : name_is a b = true <-> lowers a = lowers b.
Proof.
  unfold name_is. rewrite andb_true_iff, Nat.eqb_eq. split.
  - intros [Hl Hc]. apply ngx_strncasecmp_spec in Hc; [|lia|lia]. rewrite firstn_all, take_ge in Hc by lia. done.
  - intros E. assert (Hl : length a = length b) by (apply (f_equal length) in E; unfold lowers in E; by rewrite !length_map in E).
    split; [done|]. apply ngx_strncasecmp_spec; [lia|lia|]. rewrite firstn_all, take_ge by lia. done.
Qed.

Lemma listed_lowers l a b : lowers a = lowers b -> ngx_http_waf_header_listed l a = ngx_http_waf_header_listed l b.
Proof.
  intros E. unfold ngx_http_waf_header_listed. induction l as [|n l IH]; [done|]. cbn. rewrite IH. f_equal.
  apply eq_true_iff_eq. rewrite !name_is_lowers, E. done.
Qed.

Lemma forbidden_listed n : ngx_http_waf_header_forbidden n = ngx_http_waf_header_listed ngx_http_waf_forbidden_headers n.
Proof. done. Qed.

(** The headers of an answer that belong to the server, and those that no
    reply may name. *)
Definition protected_out (k : bytes) : Prop :=
  ngx_http_waf_header_forbidden k = true \/ ngx_http_waf_header_listed (map lit ["location"; "date"]%string) k = true.
Definition protected_in (k : bytes) : Prop := ngx_http_waf_header_forbidden k = true.

Lemma protected_out_lowers a b : lowers a = lowers b -> protected_out a <-> protected_out b.
Proof. intros E. unfold protected_out. rewrite !forbidden_listed, !(listed_lowers _ a b E). done. Qed.
Lemma protected_in_lowers a b : lowers a = lowers b -> protected_in a <-> protected_in b.
Proof. intros E. unfold protected_in. rewrite !forbidden_listed, (listed_lowers _ a b E). done. Qed.

(** A list over another that has its names. *)
Lemma listed_sub l l' n : (forall a, a ∈ l -> a ∈ l') -> ngx_http_waf_header_listed l' n = false ->
  ngx_http_waf_header_listed l n = false.
Proof.
  intros Hs Hn. apply not_true_iff_false. intros H'. apply not_true_iff_false in Hn. apply Hn.
  unfold ngx_http_waf_header_listed in *. apply existsb_exists in H' as (a & Ha & E). apply existsb_exists.
  exists a. split; [|done]. apply list_elem_of_In, Hs. by apply list_elem_of_In.
Qed.

Lemma listed_lower_eq l n : (forall a, a ∈ l -> lowers a <> lowers n) -> ngx_http_waf_header_listed l n = false.
Proof.
  intros Hn. apply not_true_iff_false. intros H'. unfold ngx_http_waf_header_listed in H'.
  apply existsb_exists in H' as (a & Ha & E). apply name_is_lowers in E. apply (Hn a); [by apply list_elem_of_In|done].
Qed.

Lemma own_unprotected n : n ∈ [lit "Set-Cookie"; lit "Server"; lit "X-WAF-Debug"] -> ~ protected_out n.
Proof.
  intros Hn [Hp|Hp]; rewrite ?forbidden_listed in Hp; revert Hp; apply not_true_iff_false, listed_lower_eq; intros a Ha E.
  all: assert (Hb : existsb (fun n => existsb (fun a => bool_decide (lowers a = lowers n))
      (ngx_http_waf_forbidden_headers ++ map lit ["location"; "date"]%string))
      [lit "Set-Cookie"; lit "Server"; lit "X-WAF-Debug"] = false) by (vm_compute; reflexivity).
  all: apply not_true_iff_false in Hb; apply Hb, existsb_exists; exists n; (split; [by apply list_elem_of_In|]);
    apply existsb_exists; exists a; (split; [|by apply bool_decide_eq_true]); apply list_elem_of_In, elem_of_app; auto.
Qed.

Lemma server_unprotected : ~ protected_out (lit "Server").
Proof. apply own_unprotected. right. left. Qed.
Lemma cookie_unprotected : ~ protected_out (lit "Set-Cookie").
Proof. apply own_unprotected. left. Qed.
Lemma debug_unprotected : ~ protected_out (lit "X-WAF-Debug").
Proof. apply own_unprotected. right. right. left. Qed.

(** Names that replies may use. *)
Definition names_ok (m : msg_t) : Prop :=
  Forall (fun kv => ngx_http_waf_header_forbidden kv.1 = false) (default [] m.(m_headers_set)) /\
  Forall (fun n => ngx_http_waf_header_forbidden n = false) (default [] m.(m_headers_unset)).

Lemma msg_names_ok {cond} (e : env_t (cond := cond)) index m : msg_wf e index m -> names_ok m.
Proof.
  intros Hm. split; [eapply Forall_impl; [exact (w_headers _ _ _ Hm)|]; by intros kv ((_ & ?) & _)|].
  eapply Forall_impl; [exact (w_unset _ _ _ Hm)|]. by intros n (_ & ?).
Qed.

(** ** What the operations leave alone *)

(** Everything but the headers and the outcomes of allocations. *)
Definition rest (x : actx) : actx :=
  x <| x_mem := [] |> <| x_r ::= fun r => r <| hr_in := [] |> <| hr_out := [] |> <| hr_content_type := [] |>
                                            <| hr_charset := [] |> <| hr_server := None |> |>.

Record hdrs_changed (x x' : actx) : Prop := mkChanged {
  ch_rest : rest x' = rest x;
  ch_in : touched (fun k => ~ protected_in k) (fun k => ~ protected_in k) x.(x_r).(hr_in) x'.(x_r).(hr_in);
  ch_out : touched (fun k => ~ protected_out k) (fun k => ~ protected_out k) x.(x_r).(hr_out) x'.(x_r).(hr_out)
}.

Lemma changed_refl x : hdrs_changed x x.
Proof. constructor; [done|apply touched_refl|apply touched_refl]. Qed.
Lemma changed_trans x y z : hdrs_changed x y -> hdrs_changed y z -> hdrs_changed x z.
Proof. intros [A1 A2 A3] [B1 B2 B3]. constructor; [congruence|by eapply touched_trans|by eapply touched_trans]. Qed.
Lemma changed_same x x' : rest x' = rest x -> x'.(x_r).(hr_in) = x.(x_r).(hr_in) -> x'.(x_r).(hr_out) = x.(x_r).(hr_out) -> hdrs_changed x x'.
Proof. intros E1 E2 E3. constructor; [done| |]; rewrite ?E2, ?E3; apply touched_refl. Qed.

Lemma draw_same x ok x' : draw x = (ok, x') -> rest x' = rest x /\ x_r x' = x_r x.
Proof. unfold draw. destruct (alloc (x_mem x)). by intros [= <- <-]. Qed.

Lemma push_out_same h x ok x' : push_out h x = (ok, x') ->
  rest x' = rest x /\ hr_in (x_r x') = hr_in (x_r x) /\ hr_content_type (x_r x') = hr_content_type (x_r x) /\
  hr_out (x_r x') = if ok then hr_out (x_r x) ++ [h] else hr_out (x_r x).
Proof.
  unfold push_out. destruct (draw x) as [b y] eqn:E. apply draw_same in E as [E1 E2]. destruct b; cbn [negb]; intros [= <- <-].
  - split_and!; try (by rewrite <- E1); cbn; by rewrite E2.
  - by rewrite E2.
Qed.

Lemma push_out_changed h x x' : ~ protected_out h.(h_key) -> push_out h x = (true, x') -> hdrs_changed x x'.
Proof.
  intros Hh E. apply push_out_same in E as (E1 & E2 & _ & E3). constructor; [done|rewrite E2; apply touched_refl|].
  rewrite E3. by apply touched_snoc.
Qed.

Context (sprintf_i : Z -> bytes) (hash_key : bytes -> Z) (fresh_elt : elt_t) (debug_text : actx -> bytes) (cf : aconf).

Abbreviation in_set := (ngx_http_waf_header_in_set hash_key fresh_elt).

Lemma in_set_same n v x ok x' : in_set n v x = (ok, x') -> rest x' = rest x /\ hr_out (x_r x') = hr_out (x_r x).
Proof.
  unfold ngx_http_waf_header_in_set. destruct (existsb _ _); [by intros [= <- <-]|].
  destruct (draw x) as [b y] eqn:E. apply draw_same in E as [E1 E2]. destruct b; cbn [negb]; [|intros [= <- <-]; by rewrite E2].
  destruct (draw y) as [b z] eqn:E'. apply draw_same in E' as [E3 E4]. intros [= <- <-]. cbn. rewrite E4, E2. split; [|done].
  rewrite <- E1, <- E3. done.
Qed.

Lemma in_set_changed n v x x' : ngx_http_waf_header_forbidden n = false -> in_set n v x = (true, x') -> hdrs_changed x x'.
Proof.
  intros Hn E. pose proof (in_set_same _ _ _ _ _ E) as [H1 H2]. constructor; [done| |rewrite H2; apply touched_refl].
  assert (Hp : forall k, lowers k = lowers n -> ~ protected_in k).
  { intros k Hk Hp. apply (protected_in_lowers _ _ Hk) in Hp. unfold protected_in in Hp. congruence. }
  revert E. unfold ngx_http_waf_header_in_set. destruct (existsb _ _).
  - intros [= <-]. cbn. apply touched_fmap. intros h. destruct (name_is (h_key h) n) eqn:En; [|by left]. right.
    split; [|done]. apply Hp. by apply name_is_lowers.
  - destruct (draw x) as [b y] eqn:E. apply draw_same in E as [_ E2]. destruct b; cbn [negb]; [|done].
    destruct (draw y) as [b z] eqn:E'. apply draw_same in E' as [_ E4]. intros [= -> <-]. cbn. rewrite E4, E2.
    apply touched_snoc. by apply Hp.
Qed.

Lemma find_out_some n x i : find_out n x = Some i ->
  exists h, hr_out (x_r x) !! i = Some h /\ lowers h.(h_key) = lowers n.
Proof.
  unfold find_out. destruct (list_find _ _) as [[j h]|] eqn:E; [|done]. cbn. intros [= <-].
  apply list_find_Some in E as (E1 & E2 & _). exists h. split; [done|by apply name_is_lowers].
Qed.

Lemma out_set_same n v x ok x' : ngx_http_waf_header_out_set n v x = (ok, x') ->
  rest x' = rest x /\ hr_in (x_r x') = hr_in (x_r x).
Proof.
  unfold ngx_http_waf_header_out_set. destruct (name_is n _); [by intros [= <- <-]|].
  destruct (find_out n x); [by intros [= <- <-]|]. destruct (push_out _ x) as [b y] eqn:E.
  apply push_out_same in E as (E1 & E2 & _ & _). destruct b; cbn [negb]; intros [= <- <-]; [|done].
  destruct (name_is n _); cbn; rewrite ?E2; (split; [|done]); by rewrite <- E1.
Qed.

Lemma out_set_changed n v x x' : ~ protected_out n -> ngx_http_waf_header_out_set n v x = (true, x') -> hdrs_changed x x'.
Proof.
  intros Hn E. pose proof (out_set_same _ _ _ _ _ E) as [H1 H2]. constructor; [done|rewrite H2; apply touched_refl|].
  revert E. unfold ngx_http_waf_header_out_set. destruct (name_is n _); [intros [= <-]; apply touched_refl|].
  destruct (find_out n x) as [i|] eqn:Ef.
  - intros [= <-]. apply find_out_some in Ef as (h & Hi & Hk). cbn.
    eapply touched_alter; [exact Hi| |done]. intros Hp. by apply Hn, (protected_out_lowers _ _ Hk).
  - destruct (push_out _ x) as [b y] eqn:E. apply push_out_same in E as (_ & _ & _ & E3). destruct b; cbn [negb]; [|done].
    intros [= <-]. destruct (name_is n _); cbn; rewrite E3; by apply touched_snoc.
Qed.

Lemma out_unset_changed n x : ~ protected_out n -> hdrs_changed x (ngx_http_waf_header_out_unset n x).
Proof.
  intros Hn. unfold ngx_http_waf_header_out_unset. set (y := on_r _ x).
  assert (Hy : hdrs_changed x y).
  { constructor; [done|apply touched_refl|]. apply touched_fmap. intros h. destruct (negb _ && _) eqn:E; [|by left].
    right. split; [|done]. apply andb_true_iff in E as [_ E%name_is_lowers]. intros Hp. by apply Hn, (protected_out_lowers _ _ E). }
  destruct (name_is n _ && _); [|done]. destruct (push_out _ y) as [b z] eqn:E. destruct b; cbn [negb].
  - eapply changed_trans; [exact Hy|]. pose proof (push_out_changed (mkElt 0 (lit "Server") []) y z server_unprotected E) as Hz.
    destruct Hz as [Z1 Z2 Z3]. constructor; [|done|done]. rewrite <- Z1. done.
  - apply push_out_same in E as (E1 & E2 & _ & E3). eapply changed_trans; [exact Hy|]. by apply changed_same.
Qed.

(** A name that neither list of the answer forbids. *)
Lemma unlisted_out l n : (lit "location" ∈ l) -> (lit "date" ∈ l) -> ngx_http_waf_header_forbidden n = false ->
  ngx_http_waf_header_listed l n = false -> ~ protected_out n.
Proof.
  intros H1 H2 Hf Hl [Hp|Hp]; [congruence|]. rewrite (listed_sub _ l n) in Hp; [done| |done].
  intros a Ha. cbn in Ha. apply elem_of_cons in Ha as [->|Ha]; [done|]. by apply list_elem_of_singleton in Ha as ->.
Qed.

Lemma unset_changed names x :
  Forall (fun n => ngx_http_waf_header_forbidden n = false) names -> hdrs_changed x (fold_left unset_step names x).
Proof.
  intros Hn. revert x. induction Hn as [|n names Hn _ IH]; intros x; [apply changed_refl|]. cbn [fold_left].
  eapply changed_trans; [|apply IH]. unfold unset_step. destruct (ngx_http_waf_header_listed _ n) eqn:El; [apply changed_refl|].
  apply out_unset_changed. apply (unlisted_out ngx_http_waf_rsp_forbid_unset); [apply elem_of_cons; right; left|apply elem_of_cons; right; right; left|done|done].
Qed.

Lemma headers_out_changed set x x' :
  Forall (fun kv => ngx_http_waf_header_forbidden kv.1 = false) set -> headers_out_loop set x = (true, x') -> hdrs_changed x x'.
Proof.
  intros Hs. revert x. induction Hs as [|[k v] set Hk _ IH]; intros x; cbn [headers_out_loop]; [intros [= <-]; apply changed_refl|].
  destruct (ngx_http_waf_header_listed _ k) eqn:El; [apply IH|]. destruct (ngx_http_waf_header_out_set k v x) as [b y] eqn:E.
  destruct b; cbn [negb]; [|done]. intros Hl. eapply changed_trans; [|by apply IH]. eapply out_set_changed; [|exact E].
  apply (unlisted_out ngx_http_waf_rsp_forbid_set); [apply elem_of_cons; right; left|apply elem_of_cons; right; right; left|done|done].
Qed.

Lemma headers_in_changed set x x' :
  Forall (fun kv => ngx_http_waf_header_forbidden kv.1 = false) set ->
  headers_in_loop hash_key fresh_elt set x = (true, x') -> hdrs_changed x x'.
Proof.
  intros Hs. revert x. induction Hs as [|[k v] set Hk _ IH]; intros x; cbn [headers_in_loop]; [intros [= <-]; apply changed_refl|].
  destruct (in_set k v x) as [b y] eqn:E. destruct b; cbn [negb]; [|done]. intros Hl.
  eapply changed_trans; [|by apply IH]. by eapply in_set_changed.
Qed.

(** ** The rest stays, whatever the outcome *)

Lemma out_unset_rest n x : rest (ngx_http_waf_header_out_unset n x) = rest x /\
  hr_in (x_r (ngx_http_waf_header_out_unset n x)) = hr_in (x_r x).
Proof.
  unfold ngx_http_waf_header_out_unset. set (y := on_r _ x). assert (Hy : rest y = rest x) by done.
  destruct (name_is n _ && _); [|done]. destruct (push_out _ y) as [b z] eqn:E. apply push_out_same in E as (E1 & E2 & _ & _).
  destruct b; cbn [negb]; [|by rewrite E1, E2]. split; [rewrite <- Hy, <- E1; done|cbn; by rewrite E2].
Qed.

Lemma unset_rest names x : rest (fold_left unset_step names x) = rest x /\ hr_in (x_r (fold_left unset_step names x)) = hr_in (x_r x).
Proof.
  revert x. induction names as [|n names IH]; intros x; [done|]. cbn [fold_left].
  destruct (IH (unset_step x n)) as [-> ->]. unfold unset_step. destruct (ngx_http_waf_header_listed _ n); [done|apply out_unset_rest].
Qed.

Lemma headers_out_rest set x ok x' : headers_out_loop set x = (ok, x') -> rest x' = rest x /\ hr_in (x_r x') = hr_in (x_r x).
Proof.
  revert x. induction set as [|[k v] set IH]; intros x; cbn [headers_out_loop]; [by intros [= <- <-]|].
  destruct (ngx_http_waf_header_listed _ k); [apply IH|]. destruct (ngx_http_waf_header_out_set k v x) as [b y] eqn:E.
  apply out_set_same in E as [<- <-]. destruct b; cbn [negb]; [apply IH|by intros [= <- <-]].
Qed.

Lemma headers_in_rest set x ok x' : headers_in_loop hash_key fresh_elt set x = (ok, x') ->
  rest x' = rest x /\ hr_out (x_r x') = hr_out (x_r x).
Proof.
  revert x. induction set as [|[k v] set IH]; intros x; cbn [headers_in_loop]; [by intros [= <- <-]|].
  destruct (in_set k v x) as [b y] eqn:E. apply in_set_same in E as [<- <-].
  destruct b; cbn [negb]; [apply IH|by intros [= <- <-]].
Qed.

Abbreviation apply_headers := (ngx_http_waf_apply_headers hash_key fresh_elt cf).
Abbreviation overrides := (ngx_http_waf_apply_overrides sprintf_i hash_key fresh_elt debug_text cf).

Lemma apply_headers_rest r x ok x' : apply_headers r x = (ok, x') -> rest x' = rest x.
Proof.
  unfold ngx_http_waf_apply_headers. cbv zeta. destruct (_ || _); [by intros [= <- <-]|]. destruct (_ && _); [by intros [= <- <-]|].
  destruct (negb (x_phase x ==? PHASE_REQUEST)).
  - destruct (negb _); [by intros [= <- <-]|]. destruct (negb _); [by intros [= <- <-]|].
    intros E%headers_out_rest. destruct E as [-> _]. apply unset_rest.
  - intros E%headers_in_rest. apply E.
Qed.

Lemma apply_headers_changed r x x' : names_ok r.(ar_msg) -> apply_headers r x = (true, x') -> hdrs_changed x x'.
Proof.
  intros [H1 H2]. unfold ngx_http_waf_apply_headers. cbv zeta.
  destruct (_ || _); [intros [= <-]; apply changed_refl|]. destruct (_ && _); [intros [= <-]; apply changed_refl|].
  destruct (negb (x_phase x ==? PHASE_REQUEST)).
  - destruct (negb _); [intros [= <-]; apply changed_refl|]. destruct (negb _); [intros [= <-]; apply changed_refl|].
    intros E%headers_out_changed; [|done]. eapply changed_trans; [|exact E]. by apply unset_changed.
  - intros E%headers_in_changed; [done|done].
Qed.

(** The replies that count. *)
Definition active (r : areply) : bool := r.(ar_received) && negb r.(ar_passive) && negb r.(ar_vote).

Lemma apply_headers_muted r x : r.(ar_received) = true -> active r = false -> apply_headers r x = (true, x).
Proof.
  unfold active. intros ->. cbn [andb]. rewrite <- negb_orb, negb_false_iff. intros E.
  unfold ngx_http_waf_apply_headers. cbv zeta. by rewrite E.
Qed.

Lemma override_active replies x :
  override_loop hash_key fresh_elt cf replies x = override_loop hash_key fresh_elt cf (List.filter active replies) x.
Proof.
  revert x. induction replies as [|r replies IH]; intros x; [done|]. cbn [override_loop List.filter]. destruct (ar_received r) eqn:Er; cbn [negb].
  - destruct (active r) eqn:Ea.
    + cbn [override_loop]. rewrite Er. cbn [negb]. destruct (apply_headers r x) as [[] y]; cbn [negb]; auto.
    + rewrite apply_headers_muted by done. cbn [negb]. auto.
  - unfold active at 1. rewrite Er. cbn [andb]. auto.
Qed.

Lemma override_rest replies x ok x' : override_loop hash_key fresh_elt cf replies x = (ok, x') -> rest x' = rest x.
Proof.
  revert x. induction replies as [|r replies IH]; intros x; cbn [override_loop]; [by intros [= <- <-]|].
  destruct (negb (ar_received r)); [apply IH|]. destruct (apply_headers r x) as [b y] eqn:E. apply apply_headers_rest in E as <-.
  destruct b; cbn [negb]; [apply IH|by intros [= <- <-]].
Qed.

Lemma override_changed replies x x' :
  Forall (fun r => names_ok r.(ar_msg)) replies -> override_loop hash_key fresh_elt cf replies x = (true, x') -> hdrs_changed x x'.
Proof.
  intros Hr. revert x. induction Hr as [|r replies Hr _ IH]; intros x; cbn [override_loop]; [intros [= <-]; apply changed_refl|].
  destruct (negb (ar_received r)); [apply IH|]. destruct (apply_headers r x) as [b y] eqn:E. destruct b; cbn [negb]; [|done].
  intros Hl. eapply changed_trans; [by eapply apply_headers_changed|by apply IH].
Qed.

(** ** Cookies and the debug header *)

Lemma cookie_set_spec ck x ok x' : ngx_http_waf_cookie_set sprintf_i cf ck x = (ok, x') ->
  rest x' = rest x /\ hr_in (x_r x') = hr_in (x_r x) /\ hr_content_type (x_r x') = hr_content_type (x_r x) /\
  hr_out (x_r x') = if ok then hr_out (x_r x) ++ [mkElt 1 (lit "Set-Cookie") (cookie_text sprintf_i cf ck)] else hr_out (x_r x).
Proof.
  unfold ngx_http_waf_cookie_set. destruct (draw x) as [b y] eqn:E. apply draw_same in E as [E1 E2].
  destruct b; cbn [negb]; [|intros [= <- <-]; by rewrite E2].
  intros E. apply push_out_same in E as (E3 & E4 & E5 & E6). rewrite E3, E4, E5, E6, E1, E2. done.
Qed.

Lemma cookie_list_spec l x ok x' : cookie_list sprintf_i cf l x = (ok, x') ->
  rest x' = rest x /\ hr_in (x_r x') = hr_in (x_r x) /\ hr_content_type (x_r x') = hr_content_type (x_r x) /\
  exists n, hr_out (x_r x') = hr_out (x_r x) ++ ((fun ck => mkElt 1 (lit "Set-Cookie") (cookie_text sprintf_i cf ck)) <$> take n l) /\
    (ok = true -> n = length l).
Proof.
  revert x. induction l as [|ck l IH]; intros x; cbn [cookie_list].
  { intros [= <- <-]. split_and!; try done. exists 0%nat. by rewrite app_nil_r. }
  destruct (ngx_http_waf_cookie_set _ _ ck x) as [b y] eqn:E. apply cookie_set_spec in E as (E1 & E2 & E3 & E4).
  destruct b; cbn [negb].
  - intros Hl. apply IH in Hl as (-> & -> & -> & n & Hn & Hok). split_and!; [done..|]. exists (S n).
    rewrite Hn, E4, <- app_assoc. split; [done|]. intros Ho. cbn. by rewrite Hok.
  - intros [= <- <-]. split_and!; [done..|]. exists 0%nat. by rewrite app_nil_r.
Qed.

(** The cookies of the replies that count. *)
Definition all_cookies (replies : list areply) : list cookie_t :=
  concat ((fun r => default [] r.(ar_msg).(m_cookies)) <$> List.filter active replies).

Lemma cookies_loop_spec replies x ok x' : cookies_loop sprintf_i cf replies x = (ok, x') ->
  rest x' = rest x /\ hr_in (x_r x') = hr_in (x_r x) /\ hr_content_type (x_r x') = hr_content_type (x_r x) /\
  exists n, hr_out (x_r x') = hr_out (x_r x)
      ++ ((fun ck => mkElt 1 (lit "Set-Cookie") (cookie_text sprintf_i cf ck)) <$> take n (all_cookies replies)) /\
    (ok = true -> n = length (all_cookies replies)).
Proof.
  revert x. induction replies as [|r replies IH]; intros x; cbn [cookies_loop].
  { intros [= <- <-]. split_and!; try done. exists 0%nat. by rewrite app_nil_r. }
  assert (Ha : negb (ar_received r) || ar_passive r || ar_vote r = negb (active r))
    by (unfold active; by destruct (ar_received r), (ar_passive r), (ar_vote r)).
  rewrite Ha. unfold all_cookies. cbn [List.filter]. destruct (active r); cbn [negb]; [|apply IH].
  destruct (cookie_list _ _ _ x) as [b y] eqn:E. apply cookie_list_spec in E as (E1 & E2 & E3 & n & E4 & E5).
  cbn [fmap list_fmap concat]. fold (all_cookies replies). destruct b; cbn [negb].
  - intros Hl. apply IH in Hl as (-> & -> & -> & k & Hk & Hok). split_and!; [done..|].
    rewrite E5 in E4 by done. exists (length (default [] (m_cookies (ar_msg r))) + k)%nat.
    rewrite Hk, E4, take_app_add, <- app_assoc, firstn_all, fmap_app. split; [done|].
    intros Ho. rewrite length_app. by rewrite (Hok Ho).
  - intros [= <- <-]. split_and!; [done..|]. exists (n `min` length (default [] (m_cookies (ar_msg r))))%nat.
    rewrite E4. split; [|done]. do 2 f_equal. rewrite take_app_le by lia. apply list_eq. intros i.
    destruct (decide (i < n)%nat); [|rewrite !lookup_take_ge by lia; done].
    destruct (decide (i < length (default [] (m_cookies (ar_msg r))))%nat).
    + rewrite !lookup_take_lt by lia. done.
    + rewrite (lookup_take_ge _ (n `min` _)) by lia. rewrite lookup_take_lt by lia. by apply lookup_ge_None_2; lia.
Qed.

(** ** Headers of the request that are set *)

Definition named (k : bytes) (h : elt_t) : bool := bytes_eqb (lowers h.(h_key)) (lowers k).
(** The last of the values set for a name. *)
Fixpoint last_set (k : bytes) (sets : list (bytes * bytes)) : option bytes :=
  match sets with
  | [] => None
  | kv :: sets =>
      match last_set k sets with
      | Some v => Some v
      | None => if bytes_eqb (lowers kv.1) (lowers k) then Some kv.2 else None
      end
  end.
(** Every copy of the header has the value, and there is one; or the copies are
    as they were. *)
Definition set_to (k : bytes) (v : option bytes) (l l' : list elt_t) : Prop :=
  match v with
  | Some v => List.filter (named k) l' <> [] /\ Forall (fun h => h.(h_value) = v) (List.filter (named k) l')
  | None => List.filter (named k) l' = List.filter (named k) l
  end.

Lemma in_set_value n v x x' k : in_set n v x = (true, x') ->
  set_to k (if bytes_eqb (lowers n) (lowers k) then Some v else None) (hr_in (x_r x)) (hr_in (x_r x')).
Proof.
  assert (Hnm : forall h, name_is (h_key h) n = bytes_eqb (lowers (h_key h)) (lowers n)).
  { intros h. apply eq_true_iff_eq. by rewrite name_is_lowers, bytes_eqb_eq. }
  unfold ngx_http_waf_header_in_set. destruct (existsb _ _) eqn:Ee.
  - intros [= <-]. cbn. revert Ee. generalize (hr_in (x_r x)). intros l Hl. set (g := fun h => if name_is (h_key h) n then _ else h).
    assert (Hg : List.filter (named k) (g <$> l) = g <$> List.filter (named k) l).
    { clear Hl. induction l as [|h l IH]; [done|]. cbn. assert (named k (g h) = named k h) as ->.
      { unfold g, named. by destruct (name_is (h_key h) n). } rewrite IH. by destruct (named k h). }
    unfold set_to. rewrite Hg. destruct (bytes_eqb (lowers n) (lowers k)) eqn:Ek.
    + apply bytes_eqb_eq in Ek. assert (Hf : forall h, named k h = name_is (h_key h) n) by (intros h; unfold named; by rewrite Hnm, Ek).
      apply existsb_exists in Hl as (h & Hh & Hn). assert (Hin : h ∈ List.filter (named k) l) by (apply list_elem_of_In, filter_In; by rewrite Hf).
      split; [destruct (List.filter (named k) l); [by apply not_elem_of_nil in Hin|done]|]. apply Forall_fmap, Forall_forall.
      intros h' Hh'. apply list_elem_of_In, filter_In in Hh' as [_ Hh']. rewrite Hf in Hh'. unfold compose, g. by rewrite Hh'.
    + rewrite <- (list_fmap_id (List.filter (named k) l)) at 2. apply list_fmap_ext. intros i h Hi. apply list_elem_of_lookup_2 in Hi.
      apply list_elem_of_In, filter_In in Hi as [_ Hi]. unfold named in Hi. apply bytes_eqb_eq in Hi. unfold g. rewrite Hnm.
      destruct (bytes_eqb (lowers (h_key h)) (lowers n)) eqn:En; [|done]. apply bytes_eqb_eq in En.
      exfalso. apply not_true_iff_false in Ek. apply Ek, bytes_eqb_eq. congruence.
  - destruct (draw x) as [b y] eqn:E. apply draw_same in E as [_ E2]. destruct b; cbn [negb]; [|done].
    destruct (draw y) as [b z] eqn:E'. apply draw_same in E' as [_ E4]. intros [= -> <-]. cbn. rewrite E4, E2.
    assert (Hh : forall hash, named k (mkElt hash n v) = bytes_eqb (lowers n) (lowers k)) by done.
    unfold set_to. rewrite List.filter_app. cbn [List.filter]. rewrite Hh. destruct (bytes_eqb (lowers n) (lowers k)) eqn:Ek.
    2: by rewrite app_nil_r.
    split; [by destruct (List.filter _ _)|]. apply Forall_app. split; [|by constructor]. apply bytes_eqb_eq in Ek.
    apply Forall_forall. intros h Hi. exfalso. apply not_true_iff_false in Ee. apply Ee. apply existsb_exists. exists h.
    apply list_elem_of_In in Hi. apply filter_In in Hi as [Hi Hk]. split; [done|]. rewrite Hnm. unfold named in Hk. by rewrite Ek.
Qed.

Lemma headers_in_values sets x x' k : headers_in_loop hash_key fresh_elt sets x = (true, x') ->
  set_to k (last_set k sets) (hr_in (x_r x)) (hr_in (x_r x')).
Proof.
  revert x. induction sets as [|[n v] sets IH]; intros x; cbn [headers_in_loop]; [by intros [= <-]|].
  destruct (in_set n v x) as [b y] eqn:E. destruct b; cbn [negb]; [|done]. apply (in_set_value _ _ _ _ k) in E.
  intros Hl%IH. cbn [last_set fst snd]. destruct (last_set k sets); [done|]. unfold set_to in *.
  destruct (bytes_eqb (lowers n) (lowers k)); by rewrite Hl.
Qed.

(** The headers that the replies set on the request. *)
Definition all_sets (replies : list areply) : list (bytes * bytes) :=
  if ngx_http_waf_send_of cf PHASE_REQUEST NGX_HTTP_WAF_OBJ_HEADERS ==? SEND_ORIGINAL then []
  else concat ((fun r => default [] r.(ar_msg).(m_headers_set)) <$> List.filter active replies).

Lemma headers_in_app s1 s2 x :
  headers_in_loop hash_key fresh_elt (s1 ++ s2) x =
  let '(ok, y) := headers_in_loop hash_key fresh_elt s1 x in if negb ok then (false, y) else headers_in_loop hash_key fresh_elt s2 y.
Proof.
  revert x. induction s1 as [|[k v] s1 IH]; intros x; [done|]. cbn [headers_in_loop app].
  destruct (in_set k v x) as [[] y]; cbn [negb]; [apply IH|done].
Qed.

Lemma override_request replies x : x.(x_phase) = PHASE_REQUEST ->
  override_loop hash_key fresh_elt cf replies x = headers_in_loop hash_key fresh_elt (all_sets replies) x.
Proof.
  intros Hp. rewrite override_active. unfold all_sets.
  assert (Hf : Forall (fun r => active r = true) (List.filter active replies)).
  { apply Forall_forall. intros r Hr. apply list_elem_of_In, filter_In in Hr. apply Hr. }
  revert x Hp. induction Hf as [|r l Hr _ IH]; intros x Hp; [by destruct (_ ==? _)|]. cbn [override_loop fmap list_fmap concat].
  unfold active in Hr. apply andb_true_iff in Hr as [Hr Hv%negb_true_iff]. apply andb_true_iff in Hr as [Hr Hs%negb_true_iff].
  rewrite Hr. cbn [negb]. unfold ngx_http_waf_apply_headers. cbv zeta. rewrite Hv, Hs, Hp. cbn [orb].
  rewrite (bool_decide_eq_true_2 (PHASE_REQUEST = PHASE_REQUEST)) by done. cbn [negb].
  destruct (ngx_http_waf_send_of cf PHASE_REQUEST NGX_HTTP_WAF_OBJ_HEADERS ==? SEND_ORIGINAL) eqn:Es; cbn [app].
  - rewrite andb_true_r. rewrite <- IH by done. destruct (_ || _) eqn:Ea; [done|].
    apply orb_false_iff in Ea as [Ea _]. apply bool_decide_eq_false in Ea.
    destruct (m_headers_set (ar_msg r)) as [s|]; [exfalso; by apply Ea|]. done.
  - rewrite andb_false_r, headers_in_app. destruct (headers_in_loop _ _ (default [] _) x) as [ok y] eqn:E. destruct ok; cbn [negb]; [|done].
    apply IH. apply headers_in_rest in E as [E _]. apply (f_equal x_phase) in E. cbn in E. congruence.
Qed.

(** ** The whole *)

Definition is_protected_out (h : elt_t) : bool :=
  ngx_http_waf_header_forbidden h.(h_key) || ngx_http_waf_header_listed (map lit ["location"; "date"]%string) h.(h_key).
Definition is_protected_in (h : elt_t) : bool := ngx_http_waf_header_forbidden h.(h_key).

Lemma touched_filter (p : bytes -> bool) l l' :
  touched (fun k => ~ p k = true) (fun k => ~ p k = true) l l' ->
  List.filter (fun h => p h.(h_key)) l' = List.filter (fun h => p h.(h_key)) l.
Proof.
  intros (l1 & l2 & -> & H1 & H2). rewrite List.filter_app.
  assert (List.filter (fun h => p (h_key h)) l2 = []) as ->.
  { induction H2 as [|h l2 Hh _ IH]; [done|]. cbn. by rewrite (not_true_is_false _ Hh). }
  rewrite app_nil_r. induction H1 as [|h h' l l1 Hh _ IH]; [done|]. cbn. rewrite IH. destruct Hh as [->|[Hm Hk]]; [done|].
  by rewrite Hk, (not_true_is_false _ Hm).
Qed.

Lemma changed_filter x x' : hdrs_changed x x' ->
  List.filter is_protected_in (hr_in (x_r x')) = List.filter is_protected_in (hr_in (x_r x)) /\
  List.filter is_protected_out (hr_out (x_r x')) = List.filter is_protected_out (hr_out (x_r x)).
Proof.
  intros [_ H1 H2]. split; [by apply (touched_filter (fun k => ngx_http_waf_header_forbidden k))|].
  apply (touched_filter (fun k => ngx_http_waf_header_forbidden k || ngx_http_waf_header_listed (map lit ["location"; "date"]%string) k)).
  destruct H2 as (l1 & l2 & E & F1 & F2). exists l1, l2. split_and!; [done| |].
  - eapply Forall2_impl; [exact F1|]. cbn. intros h h' [->|[Hm Hk]]; [by left|]. right. split; [|done].
    intros Hp%orb_true_iff. by apply Hm.
  - eapply Forall_impl; [exact F2|]. cbn. intros h Hm Hp%orb_true_iff. by apply Hm.
Qed.

Lemma debug_spec x ok x' : ngx_http_waf_debug_header debug_text cf x = (ok, x') ->
  rest x' = rest x /\ hr_in (x_r x') = hr_in (x_r x) /\ (cf.(ac_debug_header) = false -> ok = true /\ x' = x) /\
  exists t, hr_out (x_r x') = hr_out (x_r x) ++ (if ok && cf.(ac_debug_header) then [mkElt 1 (lit "X-WAF-Debug") t] else []).
Proof.
  unfold ngx_http_waf_debug_header. destruct (ac_debug_header cf); cbn [negb].
  - destruct (draw x) as [b y] eqn:E. apply draw_same in E as [E1 E2]. destruct b; cbn [negb].
    + intros E. apply push_out_same in E as (E3 & E4 & _ & E6). rewrite E3, E4, E6, E1, E2. split_and!; try done.
      exists (debug_text y). destruct ok; [done|]. by rewrite app_nil_r.
    + intros [= <- <-]. rewrite E2. split_and!; try done. exists []. by rewrite app_nil_r.
  - intros [= <- <-]. split_and!; try done. exists []. by rewrite app_nil_r.
Qed.

Lemma overrides_rest x rc x' : overrides x = (rc, x') ->
  (rc = RC NGX_DECLINED \/ rc = HTTP NGX_HTTP_INTERNAL_SERVER_ERROR) /\ rest x' = rest x.
Proof.
  unfold ngx_http_waf_apply_overrides. destruct (override_loop _ _ _ _ x) as [b1 y1] eqn:E1. apply override_rest in E1.
  destruct b1; cbn [negb]; [|intros [= <- <-]; auto]. unfold ngx_http_waf_cookies.
  destruct (cookies_loop _ _ _ y1) as [b2 y2] eqn:E2. apply cookies_loop_spec in E2 as (E2 & _).
  destruct b2; cbn [negb]; [|intros [= <- <-]; rewrite E2; auto]. destruct (ngx_http_waf_debug_header _ _ y2) as [b3 y3] eqn:E3.
  apply debug_spec in E3 as (E3 & _). destruct b3; cbn [negb]; intros [= <- <-]; rewrite E3, E2; auto.
Qed.

Definition cookie_elts (replies : list areply) : list elt_t :=
  (fun ck => mkElt 1 (lit "Set-Cookie") (cookie_text sprintf_i cf ck)) <$> all_cookies replies.

(** C26: Inspectors change only the headers that are theirs to change.  What
    an accepted reply can name leaves the protected headers of the request
    (the host, the credentials, the framing of the body) and of the answer
    (these, the location and the date) exactly as they were, in order, and adds
    none; all else of the request stays as it was.  On the request phase,
    unless the location sends the original headers, every copy of a header that
    replies set has the last value set for its name, and there is one, every
    other header is as it was, and the answer gets the cookies of the replies
    and nothing more.  Passive, voting and missing replies count for nothing.
    The only failure is an internal error. *)
Theorem headers_confined x rc x' :
  Forall (fun r => active r = true -> names_ok r.(ar_msg)) (default [] x.(x_replies)) ->
  overrides x = (rc, x') ->
  (rc = RC NGX_DECLINED \/ rc = HTTP NGX_HTTP_INTERNAL_SERVER_ERROR) /\ rest x' = rest x /\
  (rc = RC NGX_DECLINED ->
     List.filter is_protected_in (hr_in (x_r x')) = List.filter is_protected_in (hr_in (x_r x)) /\
     List.filter is_protected_out (hr_out (x_r x')) = List.filter is_protected_out (hr_out (x_r x)) /\
     (x.(x_phase) = PHASE_REQUEST ->
        (forall k, set_to k (last_set k (all_sets (default [] x.(x_replies)))) (hr_in (x_r x)) (hr_in (x_r x'))) /\
        exists t, hr_out (x_r x') = hr_out (x_r x) ++ cookie_elts (default [] x.(x_replies))
                    ++ (if cf.(ac_debug_header) then [mkElt 1 (lit "X-WAF-Debug") t] else []))) /\
  (List.filter active (default [] x.(x_replies)) = [] -> cf.(ac_debug_header) = false -> rc = RC NGX_DECLINED /\ x' = x).
Proof.
  intros Hr Ho. destruct (overrides_rest _ _ _ Ho) as [H1 H2]. split; [done|]. split; [done|]. revert Ho.
  unfold ngx_http_waf_apply_overrides. set (rs := default [] (x_replies x)) in *.
  destruct (override_loop _ _ _ rs x) as [b1 y1] eqn:E1. pose proof (override_rest _ _ _ _ E1) as R1.
  assert (Hrs : default [] (x_replies y1) = rs) by (apply (f_equal x_replies) in R1; cbn in R1; by rewrite R1).
  unfold ngx_http_waf_cookies. rewrite Hrs. intros Ho. split.
  - intros ->. destruct b1; cbn [negb] in Ho; [|done].
    destruct (cookies_loop _ _ rs y1) as [b2 y2] eqn:E2. destruct b2; cbn [negb] in Ho; [|done].
    destruct (ngx_http_waf_debug_header _ _ y2) as [b3 y3] eqn:E3. destruct b3; cbn [negb] in Ho; [|done]. injection Ho as <-.
    apply cookies_loop_spec in E2 as (_ & C2 & _ & n & C4 & C5). rewrite (C5 eq_refl), firstn_all in C4.
    apply debug_spec in E3 as (_ & D2 & _ & tx & D4). cbn [andb] in D4.
    assert (Hc : hdrs_changed x y3).
    { rewrite override_active in E1. apply override_changed in E1 as Hc.
      2: { apply Forall_forall. intros r Hi. apply list_elem_of_In, filter_In in Hi as [Hi Ha]. apply list_elem_of_In in Hi.
           rewrite Forall_forall in Hr. by apply Hr. }
      destruct Hc as [_ I1 O1]. constructor; [done|by rewrite D2, C2|]. rewrite D4, C4, <- app_assoc.
      destruct O1 as (l1 & l2 & -> & F1 & F2). exists l1, (l2 ++ cookie_elts rs ++ (if ac_debug_header cf then [mkElt 1 (lit "X-WAF-Debug") tx] else [])).
      rewrite <- app_assoc. split_and!; [done|done|]. apply Forall_app. split; [done|]. apply Forall_app. split.
      - apply Forall_fmap, Forall_forall. intros ck _. apply cookie_unprotected.
      - destruct (ac_debug_header cf); [|done]. constructor; [apply debug_unprotected|done]. }
    apply changed_filter in Hc as [F1 F2]. split_and!; [done|done|]. intros Hp. rewrite override_request in E1 by done. split.
    + intros k. rewrite D2, C2. by apply headers_in_values.
    + exists tx. rewrite D4, C4. apply headers_in_rest in E1 as [_ ->]. by rewrite <- app_assoc.
  - intros Hn Hd. rewrite override_active, Hn in E1. injection E1 as <- <-. cbn [negb] in Ho.
    assert (Ec : forall l y, List.filter active l = [] -> cookies_loop sprintf_i cf l y = (true, y)).
    { clear. induction l as [|r l IH]; intros y; [done|]. cbn [cookies_loop List.filter].
      assert (Ha : negb (ar_received r) || ar_passive r || ar_vote r = negb (active r))
        by (unfold active; by destruct (ar_received r), (ar_passive r), (ar_vote r)).
      rewrite Ha. destruct (active r); cbn [negb]; [done|apply IH]. }
    rewrite Ec in Ho by done. cbn [negb] in Ho. unfold ngx_http_waf_debug_header in Ho. rewrite Hd in Ho. cbn in Ho.
    by injection Ho as <- <-.
Qed.

(** ** The text of a cookie *)

(** The attributes, as the client finds them between the semicolons. *)
Definition cookie_attrs (ck : cookie_t) : list bytes :=
  (if bytes_eqb ck.(ck_path) [] then [] else [lit "Path=" ++ ck.(ck_path)])
  ++ (if ck.(ck_max_age_set) then [lit "Max-Age=" ++ decimal ck.(ck_max_age)] else [])
  ++ (if cf.(ac_cookie_http_only) then [lit "HttpOnly"] else [])
  ++ (if cf.(ac_cookie_secure) then [lit "Secure"] else [])
  ++ (if bytes_eqb (same_site cf) [] then [] else [lit "SameSite=" ++ same_site cf]).

Lemma udec_length f k v : 0 <= v < 10 ^ (Z.of_nat k + 1) -> (k <= f)%nat -> (length (udec f v) <= S k)%nat.
Proof.
  revert k v. induction f as [|f IH]; intros k v Hv Hk; cbn [udec]; [cbn; lia|]. destruct (Z.ltb_spec v 10); [cbn; lia|].
  destruct k as [|k]; [change (10 ^ (Z.of_nat 0 + 1)) with 10 in Hv; lia|].
  assert (Hd : (length (udec f (v / 10)) <= S k)%nat).
  { apply IH; [|lia]. split; [apply Z.div_pos; lia|]. apply Z.div_lt_upper_bound; [lia|].
    replace (Z.of_nat (S k) + 1) with (Z.succ (Z.of_nat k + 1)) in Hv by lia. rewrite Z.pow_succ_r in Hv by lia. lia. }
  rewrite length_app. cbn [length]. lia.
Qed.

Lemma decimal_clean v : 0 <= v < 2 ^ 63 -> zlen (decimal v) <= NGX_TIME_T_LEN /\ Forall (fun c => Json.is_digit c = true) (decimal v).
Proof.
  intros Hv. unfold decimal. rewrite (proj2 (Z.ltb_ge _ _)) by lia. split.
  - pose proof (udec_length 20 18 v) as H'. unfold zlen, NGX_TIME_T_LEN. enough (length (udec 20 v) <= 19)%nat by lia.
    apply H'; [|lia]. split; [lia|]. apply (Z.lt_trans _ (2 ^ 63)); [lia|reflexivity].
  - apply udec_spec. split; [lia|]. apply (Z.lt_trans _ (2 ^ 63)); [lia|reflexivity].
Qed.

Lemma forallb_absent p (s : bytes) c : forallb p s = true -> p c = false -> c ∉ s.
Proof.
  intros Hs Hc Hi. rewrite forallb_forall in Hs. apply list_elem_of_In in Hi. specialize (Hs c Hi). congruence.
Qed.
Lemma Forall_absent p (s : bytes) c : Forall (fun c => p c = true) s -> p c = false -> c ∉ s.
Proof. intros Hs Hc Hi. rewrite Forall_forall in Hs. specialize (Hs c Hi). congruence. Qed.

Lemma cookie_value_absent s : ngx_http_waf_cookie_value_clean s = true -> 59 ∉ s.
Proof.
  unfold ngx_http_waf_cookie_value_clean. cbv zeta. destruct (_ && _ && _) eqn:Eq; intros Hc; pose proof (forallb_absent _ _ 59 Hc eq_refl) as Hn; [|done].
  apply andb_true_iff in Eq as [Eq E2]. apply andb_true_iff in Eq as [E0 E1]. apply Z.leb_le in E0. apply Z.eqb_eq in E1, E2.
  unfold zlen in *. rewrite aget_lookup in E1, E2 by lia. intros Hi. apply Hn. apply list_elem_of_lookup in Hi as (i & Hi).
  pose proof (lookup_lt_Some _ _ _ Hi) as Hl. apply list_elem_of_lookup. exists (i - 1)%nat.
  assert (i <> 0)%nat.
  { intros ->. change (Z.to_nat 0) with 0%nat in E1. by rewrite Hi in E1. }
  assert (i <> length s - 1)%nat.
  { intros ->. replace (Z.to_nat (Z.of_nat (length s) - 1)) with (length s - 1)%nat in E2 by lia. rewrite Hi in E2. done. }
  rewrite lookup_take_lt by lia. rewrite lookup_drop. by replace (1 + (i - 1))%nat with i by lia.
Qed.

Lemma join_cons c a l : ApplyArgs.join c (a :: l) = a ++ concat (cons c <$> l).
Proof.
  revert a. induction l as [|b l IH]; intros a; [by rewrite app_nil_r|].
  change (ApplyArgs.join c (a :: b :: l)) with (a ++ c :: ApplyArgs.join c (b :: l)). by rewrite IH.
Qed.

Lemma cookie_text_join ck : sprintf_i ck.(ck_max_age) = decimal ck.(ck_max_age) ->
  cookie_text sprintf_i cf ck = ApplyArgs.join 59 ((ck.(ck_name) ++ 61 :: ck.(ck_value)) :: (cons 32 <$> cookie_attrs ck)).
Proof.
  intros Hs. rewrite join_cons. unfold cookie_text, cookie_attrs. rewrite Hs. rewrite <- app_assoc. f_equal. cbn [app]. f_equal. f_equal.
  assert (Hz : forall s : bytes, negb (zlen s =? 0) = negb (bytes_eqb s [])) by (by intros []).
  rewrite !Hz. destruct (bytes_eqb (ck_path ck) []), (ck_max_age_set ck), (ac_cookie_http_only cf), (ac_cookie_secure cf), (bytes_eqb (same_site cf) []);
    cbn [negb]; rewrite ?fmap_app; cbn [fmap list_fmap concat app]; rewrite ?concat_app; cbn [concat app]; rewrite ?app_nil_r, <- ?app_assoc; reflexivity.
Qed.

(** A cookie an inspector asks for is written within the buffer computed
    for it, and cannot carry more than it says: what is accepted as a name, a
    value and a path has no semicolon, so that the client reads the name and
    the value and, after the semicolons, exactly the path, the age and the
    attributes of the location. *)
Theorem cookie_exact ck :
  (forall v, is_s64 v -> sprintf_i v = decimal v) ->
  cookie_ok ck -> ck.(ck_max_age) < 2 ^ 63 -> 0 <= cf.(ac_cookie_same_site) ->
  zlen (cookie_text sprintf_i cf ck) <= cookie_len cf ck /\
  SelectFacts.split_on 59 (cookie_text sprintf_i cf ck) =
    (ck.(ck_name) ++ 61 :: ck.(ck_value)) :: (cons 32 <$> cookie_attrs ck).
Proof.
  intros Hs (Hn & Hv & Hp & Ha) Hm Hss. assert (He : sprintf_i (ck_max_age ck) = decimal (ck_max_age ck)) by (apply Hs; unfold is_s64; lia).
  destruct (decimal_clean (ck_max_age ck) ltac:(lia)) as [Hd Hdig]. split.
  - unfold cookie_text, cookie_len. rewrite He, !zlen_app. pose proof (zlen_nonneg (ck_path ck)). pose proof (zlen_nonneg (same_site cf)).
    assert (Hi : forall (b : bool) (s : bytes), zlen (if b then s else []) <= zlen s) by (intros [] s; unfold zlen; cbn; lia).
    pose proof (Hi (negb (zlen (ck_path ck) =? 0)) (lit "; Path=" ++ ck_path ck)) as P1.
    pose proof (Hi (ck_max_age_set ck) (lit "; Max-Age=" ++ decimal (ck_max_age ck))) as P2.
    pose proof (Hi (ac_cookie_http_only cf) (lit "; HttpOnly")) as P3. pose proof (Hi (ac_cookie_secure cf) (lit "; Secure")) as P4.
    pose proof (Hi (negb (zlen (same_site cf) =? 0)) (lit "; SameSite=" ++ same_site cf)) as P5.
    rewrite zlen_app in P1, P2, P5. change (zlen [61]) with 1. lia.
  - rewrite cookie_text_join by done. apply ApplyArgs.split_join; [done|]. constructor.
    + apply not_elem_of_app. split; [|apply not_elem_of_cons; split; [done|by apply cookie_value_absent]].
      destruct Hn as [->|Hn]; [apply not_elem_of_nil|]. unfold ngx_http_waf_token_clean in Hn. destruct (_ || _); [done|].
      by eapply forallb_absent.
    + assert (Hpa : 59 ∉ ck_path ck) by (by eapply forallb_absent). assert (Hda : 59 ∉ decimal (ck_max_age ck)) by (by eapply Forall_absent).
      assert (Hsa : 59 ∉ same_site cf).
      { unfold same_site. destruct (Z.leb_spec (ac_cookie_same_site cf) 3) as [Hle|]; [|apply not_elem_of_nil].
        assert (Hc : ac_cookie_same_site cf = 0 \/ ac_cookie_same_site cf = 1 \/ ac_cookie_same_site cf = 2 \/ ac_cookie_same_site cf = 3) by lia.
        destruct Hc as [E|[E|[E|E]]]; rewrite E; apply (bool_decide_eq_true_1 (59 ∉ _)); reflexivity. }
      assert (Hl : forall s : bytes, forallb (fun c => negb (c =? 59)) s = true -> 59 ∉ s) by (intros s Hf; by eapply forallb_absent).
      apply Forall_fmap. unfold cookie_attrs.
      assert (Hcons : forall (b : bool) (s : bytes), (59 ∉ s) -> Forall ((fun s => 59 ∉ s) ∘ cons 32) (if b then [s] else [])).
      { intros [] s Hsn; constructor; [|constructor]. by apply not_elem_of_cons. }
      assert (Hcons' : forall (b : bool) (s : bytes), (59 ∉ s) -> Forall ((fun s => 59 ∉ s) ∘ cons 32) (if b then [] else [s])).
      { intros b s Hsn. destruct b; [constructor|]. by apply (Hcons true). }
      repeat (apply Forall_app; split); (apply Hcons || apply Hcons'); rewrite ?not_elem_of_app; repeat split; try done; by apply Hl.
Qed.

End headers.

(** ** Concrete requests *)

Definition demo_conf : aconf :=
  mkAconf (fun _ _ => None) (lit "std") (fun _ => []) (Some [mkDeny (lit "std") DENY_TYPE_HTTP 451]) 1000 POLICY_BLOCK
    2 true false false 100 (fun _ => false).
Definition demo_req : areq :=
  mkAreq (lit "a=1&b=2&a=3") true
    [mkElt 7 (lit "Host") (lit "h"); mkElt 8 (lit "X-User") (lit "eve"); mkElt 8 (lit "x-user") (lit "mal"); mkElt 9 (lit "Content-Length") (lit "3")]
    3 (Some 3%nat) (Some (lit "old", 0)) [] [] [] None None.
(** An inspector that sets a header, a cookie and an argument and removes
    another, and a passive one. *)
Definition demo_cookie : cookie_t := mkCookie (lit "sid") (lit "q1") (lit "/app") 60 true.
Definition demo_msg : msg_t :=
  msg0 <| m_headers_set := Some [(lit "X-USER", lit "bob")] |> <| m_cookies := Some [demo_cookie] |>
       <| m_args_set := Some [(lit "a", lit "9"); (lit "c", lit "x")] |> <| m_args_unset := Some [lit "b"] |>.
Definition demo_replies : list areply :=
  [mkAreply demo_msg true false false false false false;
   mkAreply (msg0 <| m_headers_set := Some [(lit "x-user", lit "nobody")] |>) true true false false false false].
Definition demo_ctx : actx :=
  mkActx demo_req PHASE_REQUEST V_ALLOW CODE_NONE false false None (Some demo_replies) false 0 None true false [] [] []
    ST_DONE true None false true true None 0 false [] [].

Abbreviation demo_overrides := (ngx_http_waf_apply_overrides decimal zlen (mkElt 0 [] []) (fun _ => []) demo_conf).

Lemma headers_confined_witness :
  exists x', demo_overrides demo_ctx = (RC NGX_DECLINED, x') /\
    (h_value <$> hr_in (x_r x')) = [lit "h"; lit "bob"; lit "bob"; lit "3"] /\
    (h_value <$> hr_out (x_r x')) = [lit "sid=q1; Path=/app; Max-Age=60; HttpOnly; SameSite=Strict"] /\
    List.filter is_protected_in (hr_in (x_r x')) = List.filter is_protected_in (hr_in demo_req).
Proof.
  pose proof (headers_confined decimal zlen (mkElt 0 [] []) (fun _ => []) demo_conf demo_ctx (demo_overrides demo_ctx).1 (demo_overrides demo_ctx).2) as Hc.
  destruct Hc as (_ & _ & Hc & _).
  - constructor; [|constructor; [done|constructor]]. intros _. split; repeat constructor.
  - by destruct (demo_overrides demo_ctx).
  - exists (demo_overrides demo_ctx).2. split; [reflexivity|]. split; [reflexivity|]. split; [reflexivity|].
    apply Hc. reflexivity.
Defined.

Lemma cookie_exact_witness :
  zlen (cookie_text decimal demo_conf demo_cookie) <= cookie_len demo_conf demo_cookie /\
  SelectFacts.split_on 59 (cookie_text decimal demo_conf demo_cookie) =
    [lit "sid=q1"; lit " Path=/app"; lit " Max-Age=60"; lit " HttpOnly"; lit " SameSite=Strict"].
Proof.
  apply (cookie_exact decimal demo_conf demo_cookie).
  - done.
  - split; [by right|]. split; [reflexivity|]. split; [reflexivity|]. cbn. lia.
  - cbn. lia.
  - cbn. lia.
Defined.

End ApplyHeaders.
