(* ===== verification/ApplyQuery.v ===== *)
(** The query string after the edits of the inspectors
    ([ngx_http_waf_args_apply]). *)
From S2P Require Import Prelude Types ReplyText Reply ReplyFacts Handler ApplyArgs Apply ApplyHeaders.
Import ReplyText Reply ReplyFacts Handler ApplyArgs Apply ApplyHeaders.
#[local] Open Scope Z_scope.

Module ApplyQuery.
Section query.
Context (cf : aconf).

(** The replies whose edits are carried out, and what one does. *)
Definition editor (r : areply) : bool :=
  args_author r && (ngx_http_waf_send_of cf PHASE_REQUEST NGX_HTTP_WAF_OBJ_ARGS ==? SEND_STORE).
Definition edit_reply (l : list arg) (r : areply) : list arg :=
  edit (default [] r.(ar_msg).(m_args_unset)) (default [] r.(ar_msg).(m_args_set)) l.
Definition marked (r : areply) : areply := if editor r then r <| ar_args_applied := true |> else r.

Lemma set_all_spec set ps mem :
  let '(r, mem') := set_all set ps mem in
  match r with Some ps' => view ps' = fold_left (fun l kv => replaced kv l) set (view ps) | None => mem <> [] end /\
  (mem = [] -> mem' = []).
Proof.
  revert ps mem. induction set as [|kv set IH]; intros ps mem; cbn [set_all fold_left]; [done|].
  pose proof (args_set_spec kv ps mem) as Hs. destruct (ngx_http_waf_args_set kv ps mem) as [[ps1|] mem1]; [|done].
  destruct Hs as [Hs Hm]. specialize (IH ps1 mem1). destruct (set_all set ps1 mem1) as [[ps2|] mem2].
  - destruct IH as [-> Hm2]. rewrite Hs. auto.
  - destruct IH as [IH Hm2]. split; auto.
Qed.

Lemma view_unset_all names ps :
  view (fold_left (fun ps n => ngx_http_waf_args_unset n ps) names ps) = fold_left (fun l n => without n l) names (view ps).
Proof. revert ps. induction names as [|n names IH]; intros ps; [done|]. cbn. by rewrite IH, view_unset. Qed.

Lemma args_pairs_spec args pairs mem :
  exists r mem', args_pairs_of args pairs mem = Some (r, mem') /\ (mem = [] -> mem' = []) /\
    ((exists ps, r = Some ps /\ view ps = from_option view (parse args) pairs) \/ r = None /\ mem <> []).
Proof.
  unfold args_pairs_of. destruct pairs as [ps|]; [eexists _, _; split; [done|]; split; [done|]; left; by exists ps|].
  destruct (alloc mem) as [ok mem1] eqn:Ea. destruct ok; cbn [negb].
  - destruct (args_split_spec args mem1) as (r & mem' & -> & Hm & H). eexists _, _. split; [done|].
    assert (Hm1 : mem = [] -> mem1 = []) by (intros ->; by injection Ea). split; [auto|]. destruct H as [H|[-> H]]; [by left|right; auto].
  - eexists _, _. split; [done|]. split; [by intros ->|]. right. split; [done|]. by intros ->.
Qed.

Lemma args_edit_spec args replies pairs mem :
  exists r mem', args_edit cf args replies pairs mem = Some (r, mem') /\ (mem = [] -> mem' = []) /\
    match r with
    | None => mem <> []
    | Some (replies', pairs') =>
        replies' = marked <$> replies /\
        match pairs' with
        | None => pairs = None /\ List.filter editor replies = []
        | Some ps' => view ps' = fold_left edit_reply (List.filter editor replies) (from_option view (parse args) pairs) /\
                      (pairs = None -> List.filter editor replies <> [])
        end
    end.
Proof.
  revert pairs mem. induction replies as [|r replies IH]; intros pairs mem; cbn [args_edit].
  { eexists _, _. split; [done|]. split; [done|]. cbn. split; [done|]. destruct pairs; [|done]. by split. }
  rewrite <- negb_andb. fold (editor r). cbn [List.filter fmap list_fmap]. unfold marked at 1. destruct (editor r) eqn:Er; cbn [negb].
  - destruct (args_pairs_spec args pairs mem) as (o & mem1 & -> & Hm1 & Ho). cbn [mbind option_bind].
    destruct Ho as [(ps & -> & Hps)|[-> Ho]]; [|eexists _, _; split; [done|]; by split].
    pose proof (set_all_spec (default [] (m_args_set (ar_msg r)))
      (fold_left (fun ps n => ngx_http_waf_args_unset n ps) (default [] (m_args_unset (ar_msg r))) ps) mem1) as Hs.
    destruct (set_all _ _ mem1) as [[ps2|] mem2]; [|eexists _, _; split; [done|]; split; [tauto|]; intros ->; tauto].
    destruct Hs as [Hs Hm2]. rewrite view_unset_all, Hps in Hs.
    destruct (IH (Some ps2) mem2) as (o & mem' & -> & Hm' & Hr). cbn [mbind option_bind].
    destruct o as [[rest' pairs']|]; [|eexists _, _; split; [done|]; split; [tauto|]; intros ->; tauto].
    destruct Hr as [-> Hp]. eexists _, _. split; [done|]. split; [tauto|]. split; [done|].
    destruct pairs' as [ps3|]; [|by destruct Hp]. destruct Hp as [Hp _]. split; [|done]. rewrite Hp. cbn [fold_left from_option]. by rewrite Hs.
  - destruct (IH pairs mem) as (o & mem' & -> & Hm' & Hr). cbn [mbind option_bind]. destruct o as [[rest' pairs']|].
    + destruct Hr as [-> Hp]. eexists _, _. split; [done|]. by split.
    + eexists _, _. split; [done|]. by split.
Qed.

(** Everything but the query string, the marks and the outcomes of
    allocations. *)
Definition rest_args (x : actx) : actx :=
  x <| x_mem := [] |> <| x_replies := None |> <| x_r ::= fun r => r <| hr_args := [] |> <| hr_valid_unparsed_uri := false |> |>.

(** The edits of accepted replies hold no separators. *)
Definition edits_ok (m : msg_t) : Prop := Forall (fun kv => arg_clean (kv.1, Some kv.2)) (default [] m.(m_args_set)).

Lemma msg_edits_ok `{NgxString} {cond} (e : env_t (cond := cond)) index m : msg_wf e index m -> edits_ok m.
Proof.
  intros Hm. eapply Forall_impl; [exact (w_args _ _ _ Hm)|]. intros [k v] (Hk & Hv & _). cbn [fst snd] in *.
  unfold ngx_http_waf_arg_clean in *. destruct (_ && _) in Hk; [done|]. cbn in Hv.
  split_and!; cbn [fst snd]; [by apply (forallb_absent _ _ _ Hk)|by apply (forallb_absent _ _ _ Hk)|].
  intros w [= <-]. by apply (forallb_absent _ _ _ Hv).
Qed.

Definition unmarked (r : areply) : areply := r <| ar_args_applied := false |>.

(** C27: The query string that goes on is the one the inspectors asked for.
    On an allowed request the edits of the replies that count are carried out
    one reply after the other, removals first, on the names and values of the
    original; the result is written into a buffer of exactly its length, cut
    again it gives these names and values and no others, and names that no
    reply mentions keep their values in order.  Only when the result is longer
    than the server takes, or memory runs out, or no reply edits, the original
    stays, and then no reply is marked as applied.  Nothing else of the request
    changes. *)
Theorem query_edit_exact x replies :
  x.(x_phase) = PHASE_REQUEST -> x.(x_verdict) = V_ALLOW -> x.(x_by_local) = false -> x.(x_replies) = Some replies ->
  Forall (fun r => edits_ok r.(ar_msg)) replies ->
  let editors := List.filter editor replies in
  let new := fold_left edit_reply editors (parse (hr_args (x_r x))) in
  exists x', ngx_http_waf_args_apply cf x = Some x' /\ rest_args x' = rest_args x /\
    ((editors <> [] /\ hr_args (x_r x') = print new /\ zlen (print new) <= cf.(ac_args_cap) /\
      hr_valid_unparsed_uri (x_r x') = false /\ x_replies x' = Some (marked <$> replies) /\
      (new <> [([], None)] -> parse (hr_args (x_r x')) = new) /\
      (forall n, Forall (fun r => (n ∉ default [] r.(ar_msg).(m_args_unset)) /\ (n ∉ (default [] r.(ar_msg).(m_args_set)).*1)) editors ->
         filter (fun a : arg => a.1 = n) new = filter (fun a : arg => a.1 = n) (parse (hr_args (x_r x)))))
     \/ (hr_args (x_r x') = hr_args (x_r x) /\ hr_valid_unparsed_uri (x_r x') = hr_valid_unparsed_uri (x_r x) /\
         (editors = [] /\ x_replies x' = Some replies \/
          x_replies x' = Some (unmarked <$> replies) /\ (cf.(ac_args_cap) < zlen (print new) \/ x_mem x <> [])))).
Proof.
  intros Hp Hv Hl Hr Hok editors new. unfold ngx_http_waf_args_apply. rewrite Hp, Hv, Hl, Hr.
  rewrite !bool_decide_eq_true_2 by done. cbn [negb orb].
  assert (Hun : map (fun r => r <| ar_args_applied := false |>) (marked <$> replies) = unmarked <$> replies).
  { clear. induction replies as [|r l IH]; [done|].
    change (marked <$> r :: l) with (marked r :: (marked <$> l)). change (unmarked <$> r :: l) with (unmarked r :: (unmarked <$> l)).
    cbn [map]. rewrite IH. f_equal. unfold marked. by destruct (editor r). }
  destruct (args_edit_spec (hr_args (x_r x)) replies None (x_mem x)) as (o & mem' & -> & Hm & Ho). cbn [mbind option_bind].
  destruct o as [[rs' [ps|]]|].
  - destruct Ho as (-> & Hps & Hne). fold editors in Hps, Hne. cbn [from_option] in Hps. fold new in Hps.
    rewrite args_len_exact, args_written, Hps. destruct (Z.ltb_spec (ac_args_cap cf) (zlen (print new))) as [Hc|Hc].
    + eexists. split; [done|]. split; [done|]. right. split; [done|]. split; [done|]. right.
      split; [exact (f_equal Some Hun)|by left].
    + set (y := x <| x_replies := _ |> <| x_mem := mem' |>). unfold draw. change (x_mem y) with mem'.
      destruct (alloc mem') as [ok mem2] eqn:Ea. destruct ok; cbn [negb].
      * eexists. split; [done|]. split; [done|]. left. split; [by apply Hne|]. cbn. split_and!; [done|done|done|done| |].
        -- intros Hn. apply parse_print; [|done]. unfold new. clear Hps Hn. assert (Hed : Forall (fun r => edits_ok (ar_msg r)) editors).
           { apply Forall_forall. intros r Hi. apply list_elem_of_In, filter_In in Hi as [Hi _]. apply list_elem_of_In in Hi.
             rewrite Forall_forall in Hok. by apply Hok. }
           revert Hed. generalize (parse_clean (hr_args (x_r x))). generalize (parse (hr_args (x_r x))).
           clear. induction editors as [|r l IH]; intros a Ha Hk; [done|]. cbn. apply Forall_cons in Hk as [Hk1 Hk2].
           apply IH; [|done]. by apply edit_clean.
        -- intros n Hn. unfold new. clear -Hn. generalize (parse (hr_args (x_r x))). induction Hn as [|r l [H1 H2] _ IH]; intros a; [done|].
           cbn. rewrite IH. by apply edit_other.
      * eexists. split; [done|]. split; [done|]. right. split; [done|]. split; [done|]. right. split; [exact (f_equal Some Hun)|].
        right. intros Hx. rewrite (Hm Hx) in Ea. done.
  - destruct Ho as (-> & _ & He). eexists. split; [done|]. split; [done|]. right. split; [done|]. split; [done|]. left.
    split; [done|]. cbn. f_equal. rewrite <- (list_fmap_id replies) at 2. apply list_fmap_ext. intros i r Hi. unfold marked.
    destruct (editor r) eqn:Ee; [|done]. exfalso. assert (Hin : In r (List.filter editor replies)); [|by rewrite He in Hin].
    apply filter_In. split; [|done]. apply list_elem_of_In. by eapply list_elem_of_lookup_2.
  - eexists. split; [done|]. split; [done|]. right. split; [done|]. split; [done|]. right. split; [|by right]. cbn. rewrite Hr. done.
Qed.

End query.
Lemma query_edit_exact_witness :
  exists x', ngx_http_waf_args_apply demo_conf demo_ctx = Some x' /\ rest_args x' = rest_args demo_ctx /\
    hr_args (x_r x') = lit "a=9&c=x" /\ parse (hr_args (x_r x')) = [(lit "a", Some (lit "9")); (lit "c", Some (lit "x"))].
Proof.
  destruct (query_edit_exact demo_conf demo_ctx demo_replies) as (x' & H1 & H2 & H3).
  - reflexivity.
  - reflexivity.
  - reflexivity.
  - reflexivity.
  - constructor; [|constructor; [constructor|constructor]].
    constructor; [|constructor; [|constructor]]; (split; [|split]; [| |intros v [= <-]]; refine (bool_decide_eq_true_1 _ _); reflexivity).
  - exists x'. split; [exact H1|]. split; [exact H2|]. destruct H3 as [(_ & E & _ & _ & _ & Hp & _)|(_ & _ & [[E _]|[_ [E|E]]])].
    + split; [exact E|apply Hp; discriminate].
    + discriminate.
    + vm_compute in E. discriminate.
    + by contradiction E.
Defined.

End ApplyQuery.
