(* ===== verification/ApplyFacts.v ===== *)
(** What becomes of a verdict (Apply.v): a denied request is refused, a
    redirected one is sent where its reply says, and a body that is replaced is
    the one that was announced. *)
From S2P Require Import Prelude Types Sha256 ReplyText Reply ReplyFacts JsonTrip Handler ApplyArgs Apply ApplyHeaders ApplyQuery.
Import Sha256 ReplyText Reply ReplyFacts JsonTrip Handler ApplyArgs Apply ApplyHeaders ApplyQuery.
#[local] Open Scope Z_scope.

Module ApplyFacts.

(** The last check of [ngx_http_waf_deny_response] on a declared answer. *)
Definition deny_response_ok (dr : deny_response_t) : bool :=
  negb ((dr.(dr_type) ==? DENY_TYPE_HTTP) && ((dr.(dr_status) <? 400) || (599 <? dr.(dr_status)))).

Section facts.
Context `{HL : NgxStringLaws}.
Context (sprintf_i : Z -> bytes) (hash_key : bytes -> Z) (fresh_elt : elt_t) (fresh_sha : sha256_t)
  (debug_text : actx -> bytes) (cf : aconf).

Abbreviation swap_body := (ngx_http_waf_send_swap_body sprintf_i fresh_sha cf).
Abbreviation send_apply := (ngx_http_waf_send_apply sprintf_i fresh_sha cf).
Abbreviation apply := (ngx_http_waf_apply sprintf_i hash_key fresh_elt fresh_sha debug_text cf).

Lemma sha256_of_spec data : length fresh_sha.(sh_block) = 64%nat -> sha256_of fresh_sha data = sha256 data.
Proof.
  intros Hb. unfold sha256_of. apply final_absorbed. apply (absorbed_update _ [] data). by apply absorbed_init.
Qed.

(** ** The body *)

(** The fields of the request that frame its body. *)
Definition body_frame (x : actx) := (hr_body (x_r x), hr_content_length_n (x_r x), hr_content_length (x_r x), hr_in (x_r x)).

(** The body [data] was put in, and the request says so. *)
Definition body_is (data : bytes) (x : actx) : Prop :=
  hr_body (x_r x) = Some (data, 0) /\ hr_content_length_n (x_r x) = zlen data /\
  (forall i h, hr_content_length (x_r x) = Some i -> hr_in (x_r x) !! i = Some h -> h.(h_value) = sprintf_i (zlen data)).

(** What the object was announced as. *)
Definition announced (data : bytes) (m : msg_t) : Prop :=
  zlen data = u64 m.(m_rewrite_size) /\ (m.(m_rewrite_sha256_set) = true -> sha256 data = m.(m_rewrite_sha256)).

(** The last allocation of a replacement failed: the announced object is in
    place and counted, the header still tells the old length. *)
Definition half_swapped (data : bytes) (x x' : actx) : Prop :=
  announced data (reply_at x x.(x_send_body_index)).(ar_msg) /\ (x.(x_mem) <> []) /\ is_Some (hr_content_length (x_r x)) /\
  body_frame x' = (Some (data, 0), zlen data, hr_content_length (x_r x), hr_in (x_r x)).

Lemma send_verify_spec data m : length fresh_sha.(sh_block) = 64%nat ->
  ngx_http_waf_send_verify fresh_sha data m.(m_rewrite_size) m.(m_rewrite_sha256) m.(m_rewrite_sha256_set) = true <-> announced data m.
Proof.
  intros Hb. unfold ngx_http_waf_send_verify, announced. rewrite sha256_of_spec by done.
  destruct (Z.eqb_spec (zlen data) (u64 (m_rewrite_size m))) as [E|E]; cbn [negb]; [|split; [done|by intros [? _]]].
  destruct (m_rewrite_sha256_set m); cbn [andb]; [|by split].
  destruct (bytes_eqb (sha256 data) (m_rewrite_sha256 m)) eqn:Es; cbn [negb].
  - apply bytes_eqb_eq in Es. by split.
  - split; [done|]. intros [_ Hs]. apply not_true_iff_false in Es. exfalso. apply Es, bytes_eqb_eq. auto.
Qed.

(** Everything a replacement does not touch: the verdict and what decides the
    answer. *)
Definition ruling (x : actx) :=
  (x.(x_phase), x.(x_verdict), x.(x_code), x.(x_by_score), x.(x_by_local), x.(x_decisive), x.(x_exception_response),
   x.(x_local_response), x.(x_form_op), x.(x_form_failed), hr_args (x_r x), hr_out (x_r x), x.(x_send_body_index)).

Lemma draw_ruling x ok y : draw x = (ok, y) -> ruling y = ruling x /\ body_frame y = body_frame x /\
  x_r y = x_r x /\ x_replies y = x_replies x /\ x_req_body_rewritten y = x_req_body_rewritten x /\
  (x.(x_mem) = [] -> ok = true /\ y.(x_mem) = []).
Proof.
  unfold draw. destruct (alloc (x_mem x)) as [b m] eqn:E. intros [= <- <-]. split_and!; try done.
  intros Hm. rewrite Hm in E. by injection E as <- <-.
Qed.

Lemma swap_body_spec data x ok x' :
  length fresh_sha.(sh_block) = 64%nat -> x.(x_req_body_rewritten) = false -> swap_body data x = (ok, x') ->
  ruling x' = ruling x /\ x'.(x_req_body_rewritten) = ok /\
  (if ok then announced data (reply_at x x.(x_send_body_index)).(ar_msg) /\ body_is data x' /\
              (forall r, default [] x.(x_replies) !! x.(x_send_body_index) = Some r ->
                 (reply_at x' x.(x_send_body_index)).(ar_msg).(m_rewrite_sha256) = sha256 data)
   else x'.(x_replies) = x.(x_replies) /\ (body_frame x' = body_frame x \/ half_swapped data x x') /\
        (x.(x_mem) = [] -> hr_body (x_r x) <> None -> ~ announced data (reply_at x x.(x_send_body_index)).(ar_msg))).
Proof.
  intros Hb Hrw. unfold ngx_http_waf_send_swap_body. cbv zeta. set (m := ar_msg (reply_at x (x_send_body_index x))).
  destruct (hr_body (x_r x)) as [old|] eqn:Eb; [|intros [= <- <-]; rewrite Hrw; split_and!; try done; by left].
  destruct (ngx_http_waf_send_verify _ _ _ _ _) eqn:Ev; cbn [negb].
  2:{ intros [= <- <-]. split_and!; try done; [by left|]. intros _ _ Ha. apply (send_verify_spec _ m Hb) in Ha. congruence. }
  apply (send_verify_spec _ m Hb) in Ev. destruct (draw x) as [b1 y1] eqn:E1. apply draw_ruling in E1 as (R1 & B1 & _ & P1 & W1 & M1).
  destruct b1; cbn [negb]; [|intros [= <- <-]; split_and!; try congruence; [by left|]; intros Hm; by destruct (M1 Hm)].
  destruct (draw y1) as [b2 y2] eqn:E2. apply draw_ruling in E2 as (R2 & B2 & _ & P2 & W2 & M2).
  destruct b2; cbn [negb]; [|intros [= <- <-]; split_and!; try congruence; [left; congruence|]; intros Hm; destruct (M1 Hm) as [_ Hm']; by destruct (M2 Hm')].
  set (y3 := on_r _ y2). assert (R3 : ruling y3 = ruling x) by (change (ruling y3) with (ruling y2); congruence).
  assert (P3 : x_replies y3 = x_replies x) by (change (x_replies y3) with (x_replies y2); congruence).
  assert (W3 : x_req_body_rewritten y3 = false) by (change (x_req_body_rewritten y3) with (x_req_body_rewritten y2); congruence).
  assert (H4 : forall b4 y4, (match hr_content_length (x_r y3) with
      | None => (true, y3)
      | Some i => let '(ok, x) := draw y3 in if negb ok then (false, x)
          else (true, on_r (fun r => r <| hr_in ::= alter (fun h => h <| h_value := sprintf_i (zlen data) |>) i |>) x)
      end) = (b4, y4) -> ruling y4 = ruling x /\ x_replies y4 = x_replies x /\ x_req_body_rewritten y4 = false /\
      (if b4 then body_is data y4 else (x.(x_mem) <> []) /\ half_swapped data x y4)).
  { intros b4 y4. destruct (hr_content_length (x_r y3)) as [i|] eqn:Ec.
    - destruct (draw y3) as [b y] eqn:E. apply draw_ruling in E as (R4 & B4 & Q4 & P4 & W4 & M4). destruct b; cbn [negb]; intros [= <- <-].
      + split; [change (ruling y = ruling x); congruence|]. split; [change (x_replies y = x_replies x); congruence|].
        split; [change (x_req_body_rewritten y = false); congruence|]. unfold body_is. cbn. rewrite Q4. split_and!; try done. intros j h Hj Hh. rewrite Ec in Hj. injection Hj as <-.
        rewrite list_lookup_alter_eq in Hh. destruct (hr_in (x_r y3) !! i); [|done]. by injection Hh as <-.
      + assert (Hm : x_mem x <> []) by (intros Hm; destruct (M1 Hm) as [_ Hm1]; destruct (M2 Hm1) as [_ Hm2]; by destruct (M4 Hm2)).
        assert (Hl : hr_content_length (x_r x) = Some i /\ hr_in (x_r y2) = hr_in (x_r x)).
        { unfold body_frame in B1, B2. injection B1 as _ _ B1 B1'. injection B2 as _ _ B2 B2'. change (hr_content_length (x_r y2) = Some i) in Ec. split; congruence. }
        destruct Hl as [Hl Hin]. split_and!; try congruence. split_and!; [exact Ev|done|by rewrite Hl; eexists|]. rewrite B4. unfold body_frame. cbn. by rewrite Hin, Hl, <- Ec.
    - intros [= <- <-]. split_and!; try done. unfold body_is. split_and!; try done. intros j h Hj. congruence. }
  destruct (match hr_content_length (x_r y3) with None => _ | Some _ => _ end) as [b4 y4]. destruct (H4 b4 y4 eq_refl) as (R4 & P4 & W4 & F4).
  clear H4. destruct b4; cbn [negb]; [|intros [= <- <-]; destruct F4 as [F4 F5]; split_and!; try done; by right].
  intros [= <- <-]. set (y5 := if ac_preview_sent cf _ then _ else _).
  assert (H5 : ruling y5 = ruling x /\ x_req_body_rewritten y5 = true /\ body_is data y5 /\
    x_replies y5 = alter (fun reply => (if negb (m_rewrite_sha256_set m)
        then reply <| ar_msg ::= fun m => m <| m_rewrite_sha256 := sha256_of fresh_sha data |> |> else reply)
        <| ar_rewrite_digest := true |>) (x_send_body_index x) <$> x_replies x).
  { unfold y5. rewrite <- P4. by destruct (ac_preview_sent cf _). }
  destruct H5 as (R5 & W5 & B5 & P5). split_and!; [done|done|done|done|].
  intros r Hr. unfold reply_at. change (x_replies (acall_do _ y5)) with (x_replies y5). rewrite P5.
  destruct (x_replies x) as [l|] eqn:El; [|done]. cbn [default from_option fmap option_fmap option_map id] in Hr |- *.
  unfold default, id in Hr. unfold default, id. rewrite list_lookup_alter_eq, Hr. cbn [fmap option_fmap option_map].
  assert (Hm : m = ar_msg r) by (unfold m, reply_at; rewrite El; cbn; by rewrite Hr).
  destruct Ev as [_ Ev]. destruct (m_rewrite_sha256_set m); cbn [negb].
  - change (m_rewrite_sha256 (ar_msg r) = sha256 data). rewrite <- Hm. symmetry. by apply Ev.
  - change (sha256_of fresh_sha data = sha256 data). by apply sha256_of_spec.
Qed.

(** The verdict stays, whatever the body was before. *)
Lemma swap_body_ruling data x ok x' : swap_body data x = (ok, x') -> ruling x' = ruling x.
Proof.
  unfold ngx_http_waf_send_swap_body. cbv zeta. destruct (hr_body (x_r x)); [|by intros [= <- <-]].
  destruct (negb (ngx_http_waf_send_verify _ _ _ _ _)); [by intros [= <- <-]|].
  destruct (draw x) as [b1 y1] eqn:E1. apply draw_ruling in E1 as (R1 & _). destruct b1; cbn [negb]; [|by intros [= <- <-]].
  destruct (draw y1) as [b2 y2] eqn:E2. apply draw_ruling in E2 as (R2 & _). destruct b2; cbn [negb]; [|intros [= <- <-]; by rewrite R2].
  set (y3 := on_r _ y2). assert (R3 : ruling y3 = ruling x) by (change (ruling y3) with (ruling y2); congruence).
  assert (H4 : forall b4 y4, (match hr_content_length (x_r y3) with
      | None => (true, y3)
      | Some i => let '(ok, x) := draw y3 in if negb ok then (false, x)
          else (true, on_r (fun r => r <| hr_in ::= alter (fun h => h <| h_value := sprintf_i (zlen data) |>) i |>) x)
      end) = (b4, y4) -> ruling y4 = ruling x).
  { intros b4 y4. destruct (hr_content_length (x_r y3)) as [i|]; [|by intros [= <- <-]].
    destruct (draw y3) as [b y] eqn:E. apply draw_ruling in E as (R4 & _). destruct b; cbn [negb]; intros [= <- <-]; [|congruence].
    change (ruling y = ruling x). congruence. }
  destruct (match hr_content_length (x_r y3) with None => _ | Some _ => _ end) as [b4 y4]. specialize (H4 b4 y4 eq_refl).
  destruct b4; cbn [negb]; intros [= <- <-]; [|done]. rewrite <- H4. by destruct (ac_preview_sent cf _).
Qed.

Lemma args_apply_total x : exists x', ngx_http_waf_args_apply cf x = Some x' /\ rest_args x' = rest_args x /\
  (x.(x_verdict) <> V_ALLOW -> x' = x).
Proof.
  unfold ngx_http_waf_args_apply. destruct (negb (x_phase x ==? PHASE_REQUEST) || _ || _) eqn:E; [by exists x|].
  apply orb_false_iff in E as [E _]. apply orb_false_iff in E as [_ E]. apply negb_false_iff, bool_decide_eq_true in E.
  destruct (x_replies x) as [l|]; [|by exists x].
  destruct (args_edit_spec cf (hr_args (x_r x)) l None (x_mem x)) as (o & mem' & -> & _ & _). cbn [mbind option_bind].
  assert (Hgo : forall y, rest_args y = rest_args x ->
    exists x', Some y = Some x' /\ rest_args x' = rest_args x /\ (x_verdict x <> V_ALLOW -> x' = x)) by (intros y Hy; by exists y).
  destruct o as [[rs' [ps|]]|]; [|by apply Hgo|by apply Hgo]. destruct (_ <? _); [by apply Hgo|].
  unfold draw. change (x_mem (x <| x_replies := Some rs' |> <| x_mem := mem' |>)) with mem'.
  destruct (alloc mem') as [[] mem2]; cbn [negb]; by apply Hgo.
Qed.

Lemma rest_args_fields x y : rest_args x = rest_args y ->
  x_verdict x = x_verdict y /\ x_decisive x = x_decisive y /\ x_form_op x = x_form_op y /\ body_frame x = body_frame y /\
  x_req_body_rewritten x = x_req_body_rewritten y.
Proof.
  intros E. assert (G : forall A (f : actx -> A), f (rest_args x) = f (rest_args y)) by (intros A f; by rewrite E).
  split_and!; [apply (G _ x_verdict)|apply (G _ x_decisive)|apply (G _ x_form_op)|apply (G _ body_frame)|apply (G _ x_req_body_rewritten)].
Qed.

Lemma send_fail_spec x :
  body_frame (ngx_http_waf_send_fail cf x) = body_frame x /\
  x_req_body_rewritten (ngx_http_waf_send_fail cf x) = x_req_body_rewritten x /\
  (cf.(ac_exception_body) <> POLICY_BLOCK -> ngx_http_waf_send_fail cf x = x) /\
  (x.(x_verdict) = V_DENY -> ngx_http_waf_send_fail cf x = x) /\
  (cf.(ac_exception_body) = POLICY_BLOCK -> x.(x_verdict) <> V_DENY ->
     x_verdict (ngx_http_waf_send_fail cf x) = V_DENY /\ x_decisive (ngx_http_waf_send_fail cf x) = Some x.(x_send_body_index)).
Proof.
  unfold ngx_http_waf_send_fail. destruct (decide (ac_exception_body cf = POLICY_BLOCK)) as [Hp|Hp].
  - rewrite (bool_decide_eq_true_2 _ Hp). cbn [negb orb]. case_bool_decide as Hv; split_and!; try done.
  - rewrite (bool_decide_eq_false_2 _ Hp). cbn [negb orb]. split_and!; try done.
Qed.

(** C6: The body that goes on is the one the inspector announced, or it does
    not go on.  When an object from the store takes the place of the body of
    an allowed request, it has the announced length and, where one was given,
    the announced SHA-256 digest; the request then carries exactly this object,
    and its length wherever it tells one.  When the replacement fails the
    request is denied or, where the location lets body failures pass, stays
    allowed; its body and its length are the original ones, but for one case:
    the announced object is in place and counted and the allocation for the
    text of its length failed.  With memory at hand and a body to replace, a
    replacement fails only for an object that was not the announced one. *)
Theorem rewritten_body_verified x data :
  length fresh_sha.(sh_block) = 64%nat -> x.(x_phase) = PHASE_REQUEST -> x.(x_verdict) = V_ALLOW ->
  x.(x_req_body_rewritten) = false -> x.(x_send_body_op) = Some data ->
  exists x', send_apply x = Some x' /\
    if x'.(x_req_body_rewritten)
    then x'.(x_verdict) = V_ALLOW /\ announced data (reply_at x x.(x_send_body_index)).(ar_msg) /\ body_is data x'
    else x'.(x_verdict) = (if cf.(ac_exception_body) ==? POLICY_BLOCK then V_DENY else V_ALLOW) /\
         (body_frame x' = body_frame x \/ half_swapped data x x') /\
         (x.(x_mem) = [] -> hr_body (x_r x) <> None -> ~ announced data (reply_at x x.(x_send_body_index)).(ar_msg)).
Proof.
  intros Hb Hp Hv Hr Ho. unfold ngx_http_waf_send_apply. rewrite Hp, Ho, Hv, !bool_decide_eq_true_2 by done. cbn [negb].
  destruct (swap_body data x) as [ok y] eqn:E. apply swap_body_spec in E as (R & W & S); [|done|done].
  assert (Vy : x_verdict y = V_ALLOW) by (unfold ruling in R; congruence).
  set (z := if negb ok then _ else y). destruct (args_apply_total z) as (x' & -> & Hx & _). exists x'. split; [done|].
  apply rest_args_fields in Hx as (V & _ & _ & B & W'). unfold z in *. destruct ok; cbn [negb] in *.
  - rewrite W', W, V. destruct S as (S1 & S2 & _). split_and!; [done|done|]. unfold body_frame in B. unfold body_is in *.
    injection B as B1 B2 B3 B4. by rewrite B1, B2, B3, B4.
  - destruct (send_fail_spec y) as (F1 & F2 & F3 & _ & F5). rewrite W', F2, W, V. destruct S as [_ S]. unfold half_swapped. rewrite B, F1. split; [|exact S].
    case_bool_decide as Hc; [by destruct (F5 Hc) as [-> _]; [congruence|]|by rewrite F3].
Qed.

(** A replacement that runs out of memory is left half done.  When the
    object is the announced one and the last of its allocations, the text of
    the new Content-Length header, fails, the new body is in place although the
    replacement counts as failed; where body failures pass, the request stays
    allowed and goes on with the new body and the old header. *)
Theorem failed_swap_keeps_new_body x data mem i :
  length fresh_sha.(sh_block) = 64%nat -> x.(x_phase) = PHASE_REQUEST -> x.(x_verdict) = V_ALLOW ->
  x.(x_req_body_rewritten) = false -> x.(x_send_body_op) = Some data -> hr_body (x_r x) <> None ->
  announced data (reply_at x x.(x_send_body_index)).(ar_msg) -> hr_content_length (x_r x) = Some i ->
  x.(x_mem) = true :: true :: false :: mem -> cf.(ac_exception_body) <> POLICY_BLOCK ->
  exists x', send_apply x = Some x' /\ x'.(x_verdict) = V_ALLOW /\ x'.(x_req_body_rewritten) = false /\
    hr_body (x_r x') = Some (data, 0) /\ hr_in (x_r x') = hr_in (x_r x).
Proof.
  intros Hb Hp Hv Hr Ho Hbody Ha Hi Hm Hc. unfold ngx_http_waf_send_apply. rewrite Hp, Ho, Hv, !bool_decide_eq_true_2 by done. cbn [negb].
  unfold ngx_http_waf_send_swap_body. cbv zeta. destruct (hr_body (x_r x)) as [old|] eqn:Eb; [|done].
  apply (send_verify_spec _ _ Hb) in Ha. rewrite Ha. cbn [negb].
  assert (Hdraw : forall y b m, x_mem y = b :: m -> draw y = (b, y <| x_mem := m |>)) by (intros y b m E; unfold draw; by rewrite E).
  rewrite (Hdraw x true _ Hm). cbn [negb]. set (x1 := x <| x_mem := true :: false :: mem |>).
  assert (M1 : x_mem x1 = true :: false :: mem) by done. rewrite (Hdraw x1 _ _ M1). cbn [negb]. set (x2 := x1 <| x_mem := false :: mem |>).
  set (y := on_r (fun r => r <| hr_body := Some (data, 0) |> <| hr_content_length_n := zlen data |>) x2).
  assert (M2 : x_mem y = false :: mem) by done.
  assert (Hy : hr_content_length (x_r y) = Some i) by done. rewrite Hy, (Hdraw y _ _ M2). cbn [negb].
  set (z := y <| x_mem := mem |>). destruct (send_fail_spec z) as (_ & _ & -> & _); [|done].
  destruct (args_apply_total z) as (x' & -> & Hx & _). exists x'. split; [done|].
  apply rest_args_fields in Hx as (V & _ & _ & B & W'). rewrite V, W'. unfold body_frame in B. injection B as -> _ _ ->. by split_and!.
Qed.

(** ** The answer *)

Definition ending (x : actx) := (x.(x_verdict), x.(x_decisive), x.(x_form_op), x.(x_replies)).

Lemma overrides_ending x rc x' : ngx_http_waf_apply_overrides sprintf_i hash_key fresh_elt debug_text cf x = (rc, x') ->
  (rc = RC NGX_DECLINED \/ rc = HTTP NGX_HTTP_INTERNAL_SERVER_ERROR) /\ ending x' = ending x.
Proof. intros E. apply overrides_rest in E as [H1 H2]. split; [done|]. apply (f_equal ending) in H2. exact H2. Qed.

Lemma deny_entry_ok x dr :
  forallb deny_response_ok (default [] cf.(ac_deny_responses)) = true -> ngx_http_waf_deny_entry cf x = Some dr ->
  dr.(dr_type) = DENY_TYPE_HTTP -> 400 <= dr.(dr_status) <= 599.
Proof.
  intros Hd He Ht. assert (Hf : forall n d, ngx_http_waf_deny_response_find cf n = Some d -> deny_response_ok d = true).
  { intros n d. unfold ngx_http_waf_deny_response_find. destruct (ac_deny_responses cf) as [l|]; [|done]. destruct (zlen n =? 0); [done|].
    intros Hn. apply find_some in Hn as [Hn _]. rewrite forallb_forall in Hd. by apply Hd. }
  assert (Hok : deny_response_ok dr = true).
  { unfold ngx_http_waf_deny_entry in He. cbv zeta in He. destruct (deny_name cf x) as [n|]; [|eauto].
    destruct (ngx_http_waf_deny_response_find cf n) eqn:E; [|eauto]. injection He as <-. eauto. }
  unfold deny_response_ok in Hok. rewrite Ht, (bool_decide_eq_true_2 (DENY_TYPE_HTTP = DENY_TYPE_HTTP)) in Hok by done. lia.
Qed.

(** An answer that is an error, or a page sent with an error status. *)
Definition refused (rc : hrc) (x : actx) : Prop :=
  (exists s, rc = HTTP s /\ 400 <= s <= 599) \/
  (rc = RC NGX_DONE /\ exists s ct body, last x.(x_calls) = Some (ACALL_RESPONSE s ct body) /\ 400 <= s <= 599).

Lemma deny_refuses x :
  forallb deny_response_ok (default [] cf.(ac_deny_responses)) = true -> (x.(x_form_op) <> None -> x.(x_decisive) <> None) ->
  exists rc x', ngx_http_waf_deny fresh_sha cf x = Some (rc, x') /\ refused rc x' /\ x_verdict x' = x_verdict x.
Proof.
  intros Hd Hf. unfold ngx_http_waf_deny. assert (H403 : forall y, refused (HTTP NGX_HTTP_FORBIDDEN) y).
  { intros y. left. eexists. split; [done|]. unfold NGX_HTTP_FORBIDDEN. lia. }
  destruct (ngx_http_waf_deny_entry cf x) as [dr|] eqn:E; [|eexists _, _; by split]. case_bool_decide as Ht; cbn [negb]; [|eexists _, _; by split].
  pose proof (deny_entry_ok _ _ Hd E Ht) as Hs. assert (Hst : forall y, refused (HTTP (dr_status dr)) y) by (intros y; left; eauto).
  destruct (x_form_op x) as [data|]; [|eexists _, _; by split]. destruct (negb (x_form_failed x)); [|eexists _, _; by split].
  unfold ngx_http_waf_deny_with_form. destruct (x_decisive x) as [i|]; [|exfalso; by apply Hf]. cbv zeta.
  destruct (negb (zlen data =? _)); [eexists _, _; by split|]. destruct (_ && _); [eexists _, _; by split|].
  set (y := if negb (x_body_ready x) && _ then _ else x). assert (Hy : x_verdict y = x_verdict x) by (unfold y; by destruct (_ && _)).
  destruct (push_out _ y) as [b z] eqn:Ep. apply push_out_same in Ep as (Ep & _). apply (f_equal x_verdict) in Ep. change (x_verdict z = x_verdict y) in Ep.
  destruct b; cbn [negb].
  - eexists _, _. split; [done|]. split; [|change (x_verdict z = x_verdict x); congruence]. right. split; [done|]. eexists _, _, _.
    split; [cbn; apply last_snoc|done].
  - eexists _, _. split; [done|]. split; [|congruence]. left. eexists. split; [done|]. unfold NGX_HTTP_INTERNAL_SERVER_ERROR. lia.
Qed.

(** What sending does to the verdict. *)
Lemma send_apply_verdict x :
  exists y, send_apply x = Some y /\ (x_verdict x <> V_ALLOW -> y = x) /\ x_form_op y = x_form_op x /\
    (x_verdict y = x_verdict x /\ x_decisive y = x_decisive x \/
     x_verdict x = V_ALLOW /\ x_verdict y = V_DENY /\ x_decisive y <> None /\ cf.(ac_exception_body) = POLICY_BLOCK).
Proof.
  unfold ngx_http_waf_send_apply. destruct (negb (x_phase x ==? PHASE_REQUEST)); [exists x; split_and!; auto|].
  assert (Hz : forall z, (x_verdict x <> V_ALLOW -> z = x) -> x_form_op z = x_form_op x ->
    (x_verdict z = x_verdict x /\ x_decisive z = x_decisive x \/
     x_verdict x = V_ALLOW /\ x_verdict z = V_DENY /\ x_decisive z <> None /\ cf.(ac_exception_body) = POLICY_BLOCK) ->
    exists y, ngx_http_waf_args_apply cf z = Some y /\ (x_verdict x <> V_ALLOW -> y = x) /\ x_form_op y = x_form_op x /\
    (x_verdict y = x_verdict x /\ x_decisive y = x_decisive x \/
     x_verdict x = V_ALLOW /\ x_verdict y = V_DENY /\ x_decisive y <> None /\ cf.(ac_exception_body) = POLICY_BLOCK)).
  { intros z H1 H2 H3. destruct (args_apply_total z) as (y & -> & Hy & Hs). exists y. split; [done|].
    apply rest_args_fields in Hy as (-> & -> & -> & _). split_and!; [|done|done]. intros Hn. specialize (H1 Hn). rewrite <- H1. apply Hs. congruence. }
  destruct (x_send_body_op x) as [data|]; [|apply Hz; auto]. case_bool_decide as Hv; [|apply Hz; auto].
  assert (Hs : forall ok y, swap_body data x = (ok, y) -> x_verdict y = x_verdict x /\ x_decisive y = x_decisive x /\ x_form_op y = x_form_op x).
  { intros ok y E. apply swap_body_ruling in E. unfold ruling in E. by injection E. }
  destruct (swap_body data x) as [ok y]. destruct (Hs ok y eq_refl) as (V & D & F). destruct ok; cbn [negb]; [apply Hz; [done|done|by left]|].
  destruct (send_fail_spec y) as (_ & _ & F3 & _ & F5).
  destruct (decide (ac_exception_body cf = POLICY_BLOCK)) as [Hp|Hp]; [|rewrite F3 by done; apply Hz; [done|done|by left]].
  destruct (F5 Hp) as [V' D']; [congruence|]. apply Hz; [done| |right; by rewrite V', D'].
  rewrite <- F. unfold ngx_http_waf_send_fail. destruct (_ || _); done.
Qed.

(** C5: Applying a verdict carries it out.  It always comes to an end, with
    declared answers as the directive admits them and the decisive reply of a
    redirect or a form in place.  A denied request is answered with a status
    from 400 to 599, or with the page of the inspector under such a status; a
    redirect is answered with the status of its reply and a Location header
    with its address, or with an internal error; any other request goes on, or
    ends with an internal error.  The verdict only ever changes from allow to
    deny, and only where the location blocks on body failures. *)
Theorem verdict_carried_out x :
  forallb deny_response_ok (default [] cf.(ac_deny_responses)) = true ->
  (x.(x_verdict) = V_REDIRECT -> x.(x_decisive) <> None) -> (x.(x_form_op) <> None -> x.(x_decisive) <> None) ->
  exists rc x', apply x = Some (rc, x') /\
    match x'.(x_verdict) with
    | V_DENY => refused rc x'
    | V_REDIRECT => rc = HTTP NGX_HTTP_INTERNAL_SERVER_ERROR \/
        exists i k, x.(x_decisive) = Some i /\ rc = HTTP (reply_at x i).(ar_msg).(m_status) /\
          hr_location (x_r x') = Some k /\
          hr_out (x_r x') !! k = Some (mkElt 1 (lit "Location") (reply_at x i).(ar_msg).(m_redirect_url))
    | _ => rc = RC NGX_DECLINED \/ rc = HTTP NGX_HTTP_INTERNAL_SERVER_ERROR
    end /\
    (x'.(x_verdict) = x.(x_verdict) \/
     x.(x_verdict) = V_ALLOW /\ x'.(x_verdict) = V_DENY /\ cf.(ac_exception_body) = POLICY_BLOCK).
Proof.
  intros Hd Hred Hform. unfold ngx_http_waf_apply.
  destruct (send_apply_verdict x) as (y & -> & Hsame & Hfo & Hv). cbn [mbind option_bind].
  set (y' := acall_do ACALL_LOG_VERDICT y). assert (Hy' : ending y' = ending y) by done.
  destruct (ngx_http_waf_apply_overrides _ _ _ _ _ y') as [rc z] eqn:Eo. apply overrides_ending in Eo as [Hrc He].
  rewrite Hy' in He. unfold ending in He. injection He as Vz Dz Fz Rz.
  assert (Hvz : x_verdict z = x_verdict x \/ x_verdict x = V_ALLOW /\ x_verdict z = V_DENY /\ ac_exception_body cf = POLICY_BLOCK)
    by (rewrite Vz; tauto).
  destruct Hrc as [Er|Er]; subst rc.
  2:{ exists (HTTP NGX_HTTP_INTERNAL_SERVER_ERROR), z. split; [done|]. split; [|done].
      destruct (x_verdict z); auto. left. eexists. split; [done|]. unfold NGX_HTTP_INTERNAL_SERVER_ERROR. lia. }
  rewrite bool_decide_eq_true_2 by done. cbn [negb]. destruct (x_verdict z) eqn:Ez.
  4:{ destruct (deny_refuses z Hd) as (rc & x' & -> & Hr & Hx).
      - rewrite Fz, Dz, Hfo. intros Hn. destruct Hv as [[_ ->]|(_ & _ & Hdn & _)]; auto.
      - exists rc, x'. split; [done|]. rewrite Hx, Ez. auto. }
  3:{ assert (Hxv : x_verdict x = V_REDIRECT) by (destruct Hvz as [|(_ & ? & _)]; congruence).
      assert (y = x) as -> by (apply Hsame; congruence). unfold ngx_http_waf_redirect. rewrite Dz.
      destruct (x_decisive x) as [i|] eqn:Ed; [|by apply Hred in Hxv].
      assert (Hre : reply_at z i = reply_at x i) by (unfold reply_at; by rewrite Rz). rewrite Hre.
      destruct (push_out _ z) as [b w] eqn:Ep. apply push_out_same in Ep as (Ep & _ & _ & Ew).
      apply (f_equal x_verdict) in Ep. change (x_verdict w = x_verdict z) in Ep. destruct b; cbn [negb].
      - eexists _, _. split; [done|]. cbn. rewrite Ep, Ez. split; [|by left]. right. exists i, (length (hr_out (x_r z))).
        split_and!; try done. rewrite Ew. by rewrite list_lookup_middle.
      - eexists _, _. split; [done|]. rewrite Ep, Ez. auto. }
  all: exists (RC NGX_DECLINED), z; split; [done|]; rewrite Ez; auto.
Qed.

End facts.

(** ** Concrete requests *)

Definition demo_sha : sha256_t := mkSha 0 [] (replicate 64 170) 0.
Definition demo_object : bytes := lit "newbody".
Definition demo_rewrite : msg_t :=
  msg0 <| m_rewrite_has := true |> <| m_rewrite_body := true |> <| m_rewrite_size := 7 |> <| m_rewrite_sha256_set := true |>
       <| m_rewrite_sha256 := sha256 demo_object |>.
Definition demo_sent (mem : alloc_stream) : actx :=
  demo_ctx <| x_replies := Some [mkAreply demo_rewrite true false false false false false] |> <| x_send_body_op := Some demo_object |>
           <| x_mem := mem |>.
Abbreviation demo_send := (ngx_http_waf_send_apply decimal demo_sha demo_conf).

Lemma demo_announced mem : announced demo_object (reply_at (demo_sent mem) 0).(ar_msg).
Proof. split; reflexivity. Qed.

Lemma rewritten_body_verified_witness :
  exists x', demo_send (demo_sent []) = Some x' /\ x_req_body_rewritten x' = true /\ x_verdict x' = V_ALLOW /\ body_is decimal demo_object x'.
Proof.
  destruct (rewritten_body_verified decimal demo_sha demo_conf (demo_sent []) demo_object) as (x' & H1 & H2).
  - reflexivity.
  - reflexivity.
  - reflexivity.
  - reflexivity.
  - reflexivity.
  - exists x'. split; [exact H1|]. destruct (x_req_body_rewritten x') eqn:E.
    + destruct H2 as (H2 & _ & H3). split; [reflexivity|]. split; [exact H2|exact H3].
    + destruct H2 as (_ & _ & H2). exfalso. apply (H2 eq_refl); [discriminate|apply demo_announced].
Defined.

(** Body failures pass, and the third allocation fails. *)
Definition pass_conf : aconf :=
  mkAconf (fun _ _ => None) (lit "std") (fun _ => []) (Some [mkDeny (lit "std") DENY_TYPE_HTTP 451]) 1000 POLICY_PASS
    2 true false false 100 (fun _ => false).

Lemma failed_swap_keeps_new_body_witness :
  exists x', ngx_http_waf_send_apply decimal demo_sha pass_conf (demo_sent [true; true; false]) = Some x' /\
    x_verdict x' = V_ALLOW /\ x_req_body_rewritten x' = false /\ hr_body (x_r x') = Some (demo_object, 0) /\
    (hr_in (x_r x') !! 3%nat) = Some (mkElt 9 (lit "Content-Length") (lit "3")).
Proof.
  destruct (failed_swap_keeps_new_body decimal demo_sha pass_conf (demo_sent [true; true; false]) demo_object [] 3) as (x' & H1 & H2 & H3 & H4 & H5).
  - reflexivity.
  - reflexivity.
  - reflexivity.
  - reflexivity.
  - reflexivity.
  - discriminate.
  - apply demo_announced.
  - reflexivity.
  - reflexivity.
  - discriminate.
  - exists x'. split; [exact H1|]. split; [exact H2|]. split; [exact H3|]. split; [exact H4|]. rewrite H5. reflexivity.
Defined.

(** A denial by the first inspector. *)
Definition demo_denied : actx := demo_ctx <| x_verdict := V_DENY |> <| x_decisive := Some 0%nat |>.

Lemma verdict_carried_out_witness :
  exists rc x', ngx_http_waf_apply decimal zlen (mkElt 0 [] []) demo_sha (fun _ => []) demo_conf demo_denied = Some (rc, x') /\
    refused rc x' /\ rc = HTTP 451.
Proof.
  destruct (verdict_carried_out decimal zlen (mkElt 0 [] []) demo_sha (fun _ => []) demo_conf demo_denied) as (rc & x' & H1 & H2 & H3).
  - reflexivity.
  - discriminate.
  - intros H. exfalso. by apply H.
  - exists rc, x'. split; [exact H1|]. assert (Hv : x_verdict x' = V_DENY) by (destruct H3 as [H3|(H3 & _)]; [exact H3|discriminate]).
    rewrite Hv in H2. split; [exact H2|]. assert (Hc : (fst <$> Some (rc, x')) = Some (HTTP 451)) by (rewrite <- H1; reflexivity).
    by injection Hc.
Defined.

End ApplyFacts.
