(* ===== verification/Link.v ===== *)
(** Connections to the bus and to the store (net/ngx_http_waf_link.c): the
    input buffer that a protocol reads from and the output buffer it writes
    to.

    The protocol comes in through parameters: what it does with the bytes that
    are buffered and when the link is closed.  What the socket returns is an
    input.  The bytes received are kept apart from the rest of the link. *)
From S2P Require Import Prelude Types.
#[local] Open Scope Z_scope.

Module Link.

(** What [recv] and [send] return. *)
Inductive recv_r := RECV (data : bytes) | RECV_AGAIN | RECV_EOF | RECV_ERROR.
Inductive send_r := SENT (n : nat) | SEND_AGAIN | SEND_ERROR.

(** The input buffer: the bytes up to [in_last], and [in_pos]. *)
Record inbuf := mkIn { i_data : bytes; i_pos : nat }.
(** The bytes that are still to be parsed. *)
Definition unread (b : inbuf) : bytes := drop b.(i_pos) b.(i_data).

(** The rest: [k_out] holds the bytes up to [out_last]; [k_conn] is
    [peer.connection != NULL], [k_timer] an armed [reconnect]. *)
Record link_t := mkLink {
  k_in_size : nat;
  k_out_max : Z;
  k_out_size : Z;
  k_out : bytes;
  k_out_pos : nat;
  k_conn : bool;
  k_connecting : bool;
  k_ready : bool;
  k_up : bool;
  k_failures : Z;
  k_timer : bool;
  k_next : nat;
  k_mem : alloc_stream
}.
#[export] Instance eta_link_t : Eta link_t := fun r =>
  mkLink r.(k_in_size) r.(k_out_max) r.(k_out_size) r.(k_out) r.(k_out_pos) r.(k_conn) r.(k_connecting)
    r.(k_ready) r.(k_up) r.(k_failures) r.(k_timer) r.(k_next) r.(k_mem).

(** ** Output *)

(** The loop that doubles the size. *)
Fixpoint grow (fuel : nat) (limit last len size : Z) : option (option Z) :=
  if len <=? size - last then Some (Some size)
  else if limit <=? size then Some None
  else match fuel with
       | O => None
       | S fuel => let size := size * 2 in grow fuel limit last len (if limit <? size then limit else size)
       end.

(** True for [NGX_OK]; [None] is a loop that does not end. *)
Definition ngx_http_waf_link_reserve (len : Z) (k : link_t) : option (bool * link_t) :=
  let k := if Nat.eqb k.(k_out_pos) (length k.(k_out)) then k <| k_out := [] |> <| k_out_pos := 0%nat |> else k in
  if len <=? k.(k_out_size) - zlen k.(k_out) then Some (true, k)
  else
    let moved := negb (Nat.eqb k.(k_out_pos) 0) in
    let k := if moved then k <| k_out := drop k.(k_out_pos) k.(k_out) |> <| k_out_pos := 0%nat |> else k in
    if moved && (len <=? k.(k_out_size) - zlen k.(k_out)) then Some (true, k)
    else
      size ← grow (Z.to_nat (Z.log2_up k.(k_out_max)) + 1) k.(k_out_max) (zlen k.(k_out)) len k.(k_out_size);
      match size with
      | None => Some (false, k)
      | Some size =>
          let '(ok, mem) := alloc k.(k_mem) in
          if negb ok then Some (false, k <| k_mem := mem |>)
          else Some (true, k <| k_mem := mem |> <| k_out_size := size |>)
      end.

Definition ngx_http_waf_link_out (data : bytes) (k : link_t) : option (bool * link_t) :=
  r ← ngx_http_waf_link_reserve (zlen data) k;
  let '(ok, k) := r in
  if negb ok then Some (false, k) else Some (true, k <| k_out ::= fun o => o ++ data |>).

(** ** Closing and connecting *)

Section protocol.
(** The state of a protocol and its [on_close], which is told whether the link
    was ready. *)
Context {P : Type} (on_close : bool -> P -> P).

Definition ngx_http_waf_link_close (s : link_t * P) : link_t * P :=
  let '(k, p) := s in
  let was_ready := k.(k_ready) in
  let k := k <| k_ready := false |> in
  let p := on_close was_ready p in
  (k <| k_conn := false |> <| k_connecting := false |> <| k_up := false |>, p).

Definition ngx_http_waf_link_drop (s : link_t * P) : link_t * P :=
  let up := (fst s).(k_up) in
  let '(k, p) := ngx_http_waf_link_close s in
  let k := if negb up then k <| k_failures ::= fun f => f + 1 |> else k in
  (k <| k_timer := true |>, p).

(** [link_stop] with the timer of the reconnection deleted. *)
Definition ngx_http_waf_link_stop (s : link_t * P) : link_t * P :=
  let '(k, p) := s in ngx_http_waf_link_close (k <| k_timer := false |>, p).

(** [sends]: the outcomes of the calls to the socket, which takes at most what
    it is given, and no more when none are left; [event] of
    [ngx_handle_write_event]. *)
Fixpoint flush_loop (sends : list send_r) (s : link_t * P) : bool * (link_t * P) :=
  let '(k, p) := s in
  if Nat.leb (length k.(k_out)) k.(k_out_pos) then (true, s)
  else match sends with
       | [] | SEND_AGAIN :: _ => (true, s)
       | SEND_ERROR :: _ => (false, ngx_http_waf_link_drop s)
       | SENT n :: sends => flush_loop sends (k <| k_out_pos ::= fun o => Nat.min (o + n) (length k.(k_out)) |>, p)
       end.

Definition ngx_http_waf_link_flush (sends : list send_r) (event : bool) (s : link_t * P) : link_t * P :=
  if negb (fst s).(k_conn) || (fst s).(k_connecting) then s
  else
    let '(go, s) := flush_loop sends s in
    if negb go then s
    else
      let '(k, p) := s in
      let k := if Nat.eqb k.(k_out_pos) (length k.(k_out)) then k <| k_out := [] |> <| k_out_pos := 0%nat |> else k in
      if event then (k, p) else ngx_http_waf_link_drop (k, p).

End protocol.

(** [link_up], without the messages of the log. *)
Definition ngx_http_waf_link_up (k : link_t) : link_t :=
  if k.(k_up) then k
  else let k := k <| k_up := true |> in if negb (k.(k_failures) =? 0) then k <| k_failures := 0 |> else k.

(** What is waiting to be sent. *)
Definition unsent (k : link_t) : bytes := drop k.(k_out_pos) k.(k_out).

(** ** Input *)

Section read.
(** The protocol's part of the state and its callbacks; [on_read] takes bytes
    off the buffer and tells whether all went well. *)
Context {P : Type} (on_close : bool -> P -> P).
Context (on_read : inbuf -> link_t * P -> option (bool * inbuf * (link_t * P))).

(** How a turn of the loop of the handler ends: [continue], [break], [return]. *)
Inductive read_end := READ_MORE | READ_BREAK | READ_RETURN.

(** One turn of the loop of [ngx_http_waf_link_read_handler].  [recv] is asked
    for at most so many bytes. *)
Definition read_turn (recv : nat -> recv_r) (b : inbuf) (s : link_t * P) : option (read_end * inbuf * (link_t * P)) :=
  let full := Nat.eqb (length b.(i_data)) (fst s).(k_in_size) in
  if full && Nat.eqb b.(i_pos) 0 then Some (READ_RETURN, b, ngx_http_waf_link_drop on_close s)
  else
    let b := if full then mkIn (unread b) 0 else b in
    match recv ((fst s).(k_in_size) - length b.(i_data))%nat with
    | RECV_AGAIN => Some (READ_BREAK, b, s)
    | RECV_EOF | RECV_ERROR => Some (READ_RETURN, b, ngx_http_waf_link_drop on_close s)
    | RECV data =>
        r ← on_read (mkIn (b.(i_data) ++ data) b.(i_pos)) s;
        let '(ok, b, s) := r in
        if negb (fst s).(k_conn) then Some (READ_RETURN, b, s)
        else if negb ok then Some (READ_RETURN, b, ngx_http_waf_link_drop on_close s)
        else Some (READ_MORE, b, s)
    end.

(** The loop: [recvs] are the outcomes of the socket, [AGAIN] when none are
    left; [event] of [ngx_handle_read_event].  [None] is a protocol that does
    not return. *)
Fixpoint ngx_http_waf_link_read_handler (recvs : list (nat -> recv_r)) (event : bool) (b : inbuf) (s : link_t * P)
    : option (inbuf * (link_t * P)) :=
  let recv := match recvs with [] => fun _ => RECV_AGAIN | r :: _ => r end in
  r ← read_turn recv b s;
  let '(how, b, s) := r in
  match how, recvs with
  | READ_MORE, _ :: recvs => ngx_http_waf_link_read_handler recvs event b s
  | READ_RETURN, _ => Some (b, s)
  | _, _ => Some (b, if event then s else ngx_http_waf_link_drop on_close s)
  end.

(** [ngx_http_waf_link_write_handler]: [None] for a connection that timed out,
    otherwise the outcomes of [ngx_tcp_nodelay] and [ngx_handle_read_event]
    and those of the socket. *)
Context (on_connected : link_t * P -> bool * (link_t * P)).
Definition ngx_http_waf_link_write_handler (how : option (bool * bool)) (sends : list send_r) (event : bool) (s : link_t * P)
    : link_t * P :=
  match how with
  | None => ngx_http_waf_link_drop on_close s
  | Some (nodelay, read_event) =>
      if (fst s).(k_connecting) then
        if negb nodelay then ngx_http_waf_link_drop on_close s
        else
          let '(k, p) := s in
          let '(ok, s) := on_connected (k <| k_connecting := false |>, p) in
          if negb ok then ngx_http_waf_link_drop on_close s
          else if negb read_event then ngx_http_waf_link_drop on_close s
          else ngx_http_waf_link_flush on_close sends event s
      else ngx_http_waf_link_flush on_close sends event s
  end.

(** [servers] is their number, [rc] what [ngx_event_connect_peer] returns. *)
Definition ngx_http_waf_link_connect (servers : nat) (rc : ngx_rc) (how : option (bool * bool)) (sends : list send_r)
    (event : bool) (b : inbuf) (s : link_t * P) : inbuf * (link_t * P) :=
  let '(k, p) := s in
  if Nat.eqb servers 0 || k.(k_conn) then (b, s)
  else
    let next := if Nat.leb servers k.(k_next) then 0%nat else k.(k_next) in
    let k := k <| k_next := S next |> in
    match rc with
    | NGX_ERROR | NGX_DECLINED => (b, ngx_http_waf_link_drop on_close (k <| k_conn := false |>, p))
    | _ =>
        let k := k <| k_conn := true |> <| k_out := [] |> <| k_out_pos := 0%nat |> <| k_ready := false |> <| k_up := false |>
                   <| k_connecting := true |> in
        match rc with
        | NGX_OK => (mkIn [] 0, ngx_http_waf_link_write_handler how sends event (k, p))
        | _ => (mkIn [] 0, (k, p))
        end
    end.

End read.

(** ** Parsers of a buffer *)

(** The end of one turn of the loop of a parser: [return NGX_OK] or [continue]
    after taking bytes off the buffer, or [return NGX_ERROR]. *)
Inductive turn_r {T : Type} := TURN_STOP (n : nat) (s : T) | TURN_GO (n : nat) (s : T) | TURN_FAIL (n : nat) (s : T).
Arguments turn_r : clear implicits.
(** How a parser ends: all bytes taken, waiting for more, or [NGX_ERROR]. *)
Inductive parse_end := END_EMPTY | END_WAIT | END_ERROR.

Section parser.
(** One turn with the unread bytes, which are not empty. *)
Context {T : Type} (turn : bytes -> T -> option (turn_r T)).

(** How many bytes were taken; [None] is a loop that does not end. *)
Fixpoint feed_loop (fuel : nat) (u : bytes) (s : T) : option (parse_end * nat * T) :=
  match u with
  | [] => Some (END_EMPTY, 0%nat, s)
  | _ =>
      match fuel with
      | O => None
      | S fuel =>
          t ← turn u s;
          match t with
          | TURN_STOP m s => Some (END_WAIT, m, s)
          | TURN_FAIL m s => Some (END_ERROR, m, s)
          | TURN_GO m s =>
              r ← feed_loop fuel (drop m u) s;
              let '(e, m', s) := r in Some (e, (m + m')%nat, s)
          end
      end
  end.

(** The whole parser: an empty buffer starts again. *)
Definition feed_buffer (b : inbuf) (s : T) : option (bool * inbuf * T) :=
  r ← feed_loop (length (unread b)) (unread b) s;
  let '(e, m, s) := r in
  let at_m := mkIn b.(i_data) (b.(i_pos) + m) in
  Some match e with
       | END_EMPTY => (true, mkIn [] 0, s)
       | END_WAIT => (true, at_m, s)
       | END_ERROR => (false, at_m, s)
       end.

End parser.

End Link.
