(* ===== verification/LinkFacts.v ===== *)
(** What a protocol may rely on of a link (Link.v): the output buffer grows
    within its limit and keeps its order, a flush sends a front part of it or
    drops the link, and a parser that takes bytes off the input buffer comes to
    an end. *)
From S2P Require Import Prelude Types Select Link.
Import Select Link.
#[local] Open Scope Z_scope.

Module LinkFacts.

(** ** Output *)

Lemma grow_spec fuel limit last len size :
  0 < size -> limit <= size * 2 ^ Z.of_nat fuel ->
  exists r, grow fuel limit last len size = Some r /\
    match r with Some size' => size <= size' /\ len <= size' - last /\ (size' <= size \/ size' <= limit) | None => limit - last < len end.
Proof.
  revert size. induction fuel as [|fuel IH]; intros size Hs Hl; cbn [grow]; destruct (Z.leb_spec len (size - last)) as [Hc|Hc].
  1,3: exists (Some size); split; [done|]; lia.
  - rewrite Z.mul_1_r in Hl. rewrite (proj2 (Z.leb_le _ _)) by done. exists None. split; [done|lia].
  - destruct (Z.leb_spec limit size); [exists None; split; [done|lia]|].
    destruct (IH (if limit <? size * 2 then limit else size * 2)) as (r & -> & Hr).
    + destruct (Z.ltb_spec limit (size * 2)); lia.
    + rewrite Nat2Z.inj_succ, Z.pow_succ_r in Hl by lia. pose proof (Z.pow_pos_nonneg 2 (Z.of_nat fuel) ltac:(lia) ltac:(lia)).
      destruct (Z.ltb_spec limit (size * 2)); nia.
    + exists r. split; [done|]. destruct r as [size'|]; [|done]. destruct (Z.ltb_spec limit (size * 2)); lia.
Qed.

(** A link whose output buffer has a size, within its limit, and holds what it
    says. *)
Definition out_wf (k : link_t) : Prop :=
  0 < k.(k_out_size) <= k.(k_out_max) /\ zlen k.(k_out) <= k.(k_out_size) /\ (k.(k_out_pos) <= length k.(k_out))%nat.

(** Everything but the output buffer. *)
Definition rest_out (k : link_t) : link_t := k <| k_out := [] |> <| k_out_pos := 0%nat |> <| k_out_size := 0 |> <| k_mem := [] |>.

Lemma reserve_spec len k : out_wf k -> 0 <= len ->
  exists ok k', ngx_http_waf_link_reserve len k = Some (ok, k') /\ out_wf k' /\ rest_out k' = rest_out k /\ unsent k' = unsent k /\
    (ok = true -> zlen k'.(k_out) + len <= k'.(k_out_size)).
Proof.
  intros (Hs & Ho & Hp) Hlen. unfold ngx_http_waf_link_reserve.
  set (k1 := if Nat.eqb (k_out_pos k) (length (k_out k)) then _ else k).
  assert (H1 : out_wf k1 /\ rest_out k1 = rest_out k /\ unsent k1 = unsent k).
  { unfold k1. destruct (Nat.eqb_spec (k_out_pos k) (length (k_out k))) as [E|E]; [|done]. split_and!; [|done|].
    - unfold out_wf. cbn. unfold zlen. cbn. lia.
    - unfold unsent. cbn. by rewrite E, drop_all. }
  clearbody k1. destruct H1 as (W1 & R1 & U1). destruct (Z.leb_spec len (k_out_size k1 - zlen (k_out k1))) as [Hc|Hc].
  { exists true, k1. split; [done|]. split_and!; [done|done|done|lia]. }
  set (k2 := if negb (Nat.eqb (k_out_pos k1) 0) then _ else k1).
  assert (H2 : out_wf k2 /\ rest_out k2 = rest_out k1 /\ unsent k2 = unsent k1).
  { unfold k2. destruct (negb _); [|done]. destruct W1 as (W1 & W2 & W3). split_and!; [|done|by unfold unsent; cbn; rewrite drop_0].
    unfold out_wf. cbn. unfold zlen in *. rewrite length_drop. lia. }
  destruct H2 as (W2 & R2 & U2). destruct (_ && _) eqn:Em.
  { apply andb_true_iff in Em as [_ Em]. apply Z.leb_le in Em. exists true, k2. split; [done|]. split_and!; [done|congruence|congruence|lia]. }
  destruct W2 as (V1 & V2 & V3).
  destruct (grow_spec (Z.to_nat (Z.log2_up (k_out_max k2)) + 1) (k_out_max k2) (zlen (k_out k2)) len (k_out_size k2)) as (r & -> & Hr).
  - lia.
  - pose proof (Z.log2_up_nonneg (k_out_max k2)) as Hn. rewrite Nat2Z.inj_add, Z2Nat.id by done.
    assert (Hl : k_out_max k2 <= 2 ^ Z.log2_up (k_out_max k2)).
    { destruct (Z.le_gt_cases (k_out_max k2) 1) as [Hle|Hgt].
      - pose proof (Z.pow_pos_nonneg 2 (Z.log2_up (k_out_max k2)) ltac:(lia) Hn). lia.
      - apply Z.log2_up_spec. lia. }
    rewrite Z.pow_add_r by lia. change (2 ^ Z.of_nat 1) with 2. nia.
  - cbn [mbind option_bind]. destruct r as [size|].
    + destruct (alloc (k_mem k2)) as [[] mem]; cbn [negb]; (eexists _, _; split; [done|]); (split; [|split; [|split]]).
      * unfold out_wf. cbn. lia.
      * change (rest_out k2 = rest_out k). congruence.
      * change (unsent k2 = unsent k). congruence.
      * intros _. cbn. lia.
      * unfold out_wf. cbn. lia.
      * change (rest_out k2 = rest_out k). congruence.
      * change (unsent k2 = unsent k). congruence.
      * done.
    + exists false, k2. split; [done|]. split_and!; [done|congruence|congruence|done].
Qed.

Lemma link_out_spec data k : out_wf k ->
  exists ok k', ngx_http_waf_link_out data k = Some (ok, k') /\ out_wf k' /\ rest_out k' = rest_out k /\
    unsent k' = unsent k ++ (if ok then data else []).
Proof.
  intros Hk. unfold ngx_http_waf_link_out. destruct (reserve_spec (zlen data) k Hk (zlen_nonneg data)) as (ok & k1 & -> & W & R & U & Hr).
  cbn [mbind option_bind]. destruct ok; cbn [negb].
  - eexists _, _. split; [done|]. specialize (Hr eq_refl). destruct W as (W1 & W2 & W3). split_and!; [|done|].
    + unfold out_wf. cbn. rewrite zlen_app, length_app. lia.
    + unfold unsent in *. cbn. rewrite drop_app_le by done. by rewrite U.
  - eexists _, _. split; [done|]. rewrite app_nil_r. done.
Qed.

(** ** A link that stays up *)

Section flush.
Context {P : Type} (on_close : bool -> P -> P).

Lemma drop_conn (s : link_t * P) : (fst (ngx_http_waf_link_drop on_close s)).(k_conn) = false.
Proof. destruct s as [k p]. unfold ngx_http_waf_link_drop. cbn. by destruct (negb (k_up k)). Qed.
Lemma drop_out_wf (s : link_t * P) : out_wf (fst s) -> out_wf (fst (ngx_http_waf_link_drop on_close s)).
Proof. destruct s as [k p]. unfold ngx_http_waf_link_drop. cbn. by destruct (negb (k_up k)). Qed.
Lemma drop_snd (s : link_t * P) : snd (ngx_http_waf_link_drop on_close s) = on_close (fst s).(k_ready) (snd s).
Proof. destruct s as [k p]. unfold ngx_http_waf_link_drop. cbn. by destruct (negb (k_up k)). Qed.

Lemma flush_loop_spec sends (s : link_t * P) : out_wf (fst s) ->
  let r := flush_loop on_close sends s in
  out_wf (fst (snd r)) /\
  (if fst r then snd (snd r) = snd s /\ rest_out (fst (snd r)) = rest_out (fst s) 
   else (fst (snd r)).(k_conn) = false /\ snd (snd r) = on_close (fst s).(k_ready) (snd s)).
Proof.
  revert s. induction sends as [|d sends IH]; intros [k p] Hw; cbn [flush_loop]; destruct (Nat.leb _ _); try done.
  destruct d as [n| |]; [|done|].
  - destruct Hw as (W1 & W2 & W3). specialize (IH (k <| k_out_pos ::= fun o => Nat.min (o + n) (length (k_out k)) |>, p)).
    apply IH. split; [exact W1|]. split; [exact W2|]. apply Nat.le_min_r.
  - cbn [fst snd]. split; [by apply drop_out_wf|]. split; [apply drop_conn|apply drop_snd].
Qed.

Lemma flush_spec sends event (s : link_t * P) : out_wf (fst s) ->
  let s' := ngx_http_waf_link_flush on_close sends event s in
  out_wf (fst s') /\
  ((snd s' = snd s /\ rest_out (fst s') = rest_out (fst s)) \/
   ((fst s').(k_conn) = false /\ snd s' = on_close (fst s).(k_ready) (snd s))).
Proof.
  intros Hw. cbn zeta. unfold ngx_http_waf_link_flush. destruct (_ || _); [auto|].
  pose proof (flush_loop_spec sends s Hw) as Hf. destruct (flush_loop on_close sends s) as [go [k p]]. cbn [fst snd] in Hf.
  destruct Hf as [W Hf]. destruct go; cbn [negb].
  - destruct Hf as [-> R]. set (k1 := if Nat.eqb _ _ then _ else k).
    assert (H1 : out_wf k1 /\ rest_out k1 = rest_out (fst s)).
    { unfold k1. destruct (Nat.eqb _ _); [|done]. split; [|done]. destruct W as (W1 & W2 & W3). unfold out_wf. cbn. unfold zlen. cbn. lia. }
    destruct H1 as [H1 H2]. destruct event; [auto|]. split; [by apply drop_out_wf|]. right. split; [apply drop_conn|].
    rewrite drop_snd. cbn [fst snd]. f_equal. apply (f_equal k_ready) in H2. exact H2.
  - cbn [fst snd]. auto.
Qed.

(** A link that a flush closes is not ready. *)
Lemma drop_ready (s : link_t * P) : (fst (ngx_http_waf_link_drop on_close s)).(k_ready) = false.
Proof. destruct s as [k p]. unfold ngx_http_waf_link_drop. cbn. by destruct (negb (k_up k)). Qed.
Lemma flush_ready sends event (s : link_t * P) : let s' := ngx_http_waf_link_flush on_close sends event s in
  (fst s).(k_conn) = true -> (fst s').(k_conn) = false -> (fst s').(k_ready) = false.
Proof.
  cbn zeta. intros Hc. unfold ngx_http_waf_link_flush. destruct (_ || _); [congruence|].
  assert (G : forall s : link_t * P, (fst s).(k_conn) = true -> let r := flush_loop on_close sends s in
    if fst r then (fst (snd r)).(k_conn) = true else (fst (snd r)).(k_ready) = false).
  { clear. induction sends as [|d sends IH]; intros [k p] Hk; cbn [flush_loop]; destruct (Nat.leb _ _); try done. destruct d as [n| |]; [|done|apply drop_ready].
    by apply IH. }
  specialize (G s Hc). destruct (flush_loop on_close sends s) as [go [k p]]. cbn [fst snd] in G. destruct go; cbn [negb]; [|done].
  destruct event; [|intros _; apply drop_ready]. cbn [fst]. destruct (Nat.eqb _ _); cbn; congruence.
Qed.

End flush.

(** ** Parsers *)

(** The end of a line does not move when more bytes come. *)
Lemma strlchr_app p d c i : ngx_strlchr p c = Some i -> ngx_strlchr (p ++ d) c = Some i.
Proof.
  revert i. induction p as [|x p IH]; intros i; cbn [ngx_strlchr app]; [done|]. destruct (x =? c); [done|].
  destruct (ngx_strlchr p c) as [j|]; cbn; [|done]. intros [= <-]. by rewrite (IH j eq_refl).
Qed.

(** The state in which a turn ends, and what it took. *)
Definition turn_state {T} (t : turn_r T) : T := match t with TURN_STOP _ s | TURN_GO _ s | TURN_FAIL _ s => s end.
Definition turn_took (u : bytes) {T} (t : turn_r T) : Prop :=
  match t with TURN_GO m _ => (0 < m <= length u)%nat | TURN_STOP m _ | TURN_FAIL m _ => (m <= length u)%nat end.

Section parser.
(** A parser whose turns are defined and keep an invariant, and a flag of the
    state that no turn sets. *)
Context {T : Type} (turn : bytes -> T -> option (turn_r T)) (ok : T -> Prop) (up : T -> bool).
Context (turn_total : forall u s, ok s -> u <> [] ->
  exists t, turn u s = Some t /\ ok (turn_state t) /\ (up (turn_state t) = true -> up s = true) /\ turn_took u t).

Lemma parse_total fuel u s : ok s -> (length u <= fuel)%nat ->
  exists e m s', feed_loop turn fuel u s = Some (e, m, s') /\ ok s' /\ (m <= length u)%nat /\
    (up s' = true -> up s = true) /\ (e = END_EMPTY -> drop m u = []).
Proof.
  revert u s. induction fuel as [|fuel IH]; intros u s W Hf; (destruct u as [|x u]; [by exists END_EMPTY, 0%nat, s|]); [cbn in Hf; lia|].
  cbn [feed_loop]. destruct (turn_total (x :: u) s W ltac:(done)) as (t & -> & T1 & T2 & T3). cbn [mbind option_bind].
  destruct t as [m s'|m s'|m s']; cbn [turn_state turn_took] in *.
  - by exists END_WAIT, m, s'.
  - destruct (IH (drop m (x :: u)) s' T1) as (e & m' & s2 & -> & I1 & I2 & I3 & I4); [rewrite length_drop; lia|]. cbn [mbind option_bind].
    exists e, (m + m')%nat, s2. rewrite length_drop in I2. split; [done|]. split; [done|]. split; [lia|]. split; [auto|].
    intros He. rewrite <- (I4 He). by rewrite drop_drop.
  - by exists END_ERROR, m, s'.
Qed.

Lemma parse_mono f1 f2 u s res : (f1 <= f2)%nat -> feed_loop turn f1 u s = Some res -> feed_loop turn f2 u s = Some res.
Proof.
  revert f2 u s res. induction f1 as [|f1 IH]; intros f2 u s res Hle Hq; destruct u; cbn in Hq; [by destruct f2|done|by destruct f2|].
  destruct f2 as [|f2]; [lia|]. cbn [feed_loop]. destruct (turn _ s) as [t|]; [|done]. cbn in Hq |- *. destruct t; try done.
  destruct (feed_loop turn f1 _ s0) as [r|] eqn:Er; [|done]. by rewrite (IH f2 _ _ r ltac:(lia) Er).
Qed.

(** A run that ends up was up all the way. *)
Lemma parse_up fuel u s e m s' : ok s -> feed_loop turn fuel u s = Some (e, m, s') -> up s' = true -> up s = true.
Proof.
  intros W Hp. destruct (parse_total (Nat.max fuel (length u)) u s W ltac:(lia)) as (e' & m' & s2 & E & _ & _ & G & _).
  apply (parse_mono _ (Nat.max fuel (length u))) in Hp; [|lia]. rewrite E in Hp. by injection Hp as <- <- <-.
Qed.

End parser.

End LinkFacts.
