(* ===== verification/Nats.v ===== *)
(** The NATS engine of the bus (bus/ngx_http_waf_bus_nats.c): the parser of
    what the server sends, which message a subject belongs to, keep-alive, and
    the writing of messages.

    The state is the link (Link.v) and the fields of [ngx_http_waf_nats_t];
    the calls into the rest of the module are recorded in [n_log].  Outcomes of
    the socket, of allocations and whether a call drops the link are inputs. *)
From S2P Require Import Prelude Types Slots ReplyText Select Link.
Import Slots.Rid Select Link.
#[local] Open Scope Z_scope.

Module Nats.

Definition NGX_HTTP_WAF_NATS_MAX_PING : Z := 2.
Definition NGX_HTTP_WAF_NATS_LINE_MAX : Z := 4096.
Definition NGX_HTTP_WAF_MAX_DATASETS : Z := 128.
Definition NGX_SIZE_T_LEN : Z := 20.

Inductive nats_state_e := ST_LINE | ST_PAYLOAD.
Inductive nats_kind_e := KIND_VERDICT | KIND_DATASET | KIND_JS_REPLY.
#[export] Instance nats_state_e_eq_dec : EqDecision nats_state_e.
Proof. solve_decision. Defined.
#[export] Instance nats_kind_e_eq_dec : EqDecision nats_kind_e.
Proof. solve_decision. Defined.

(** Calls into the module: replies and their absence, packages of datasets and
    answers of streams, the bus ready and lost; and what the server sent that
    concerns the connection. *)
Inductive nats_ev :=
  | EV_DISPATCH (rid index : Z) (payload : bytes) | EV_ABSENT (rid index : Z)
  | EV_DATASET (index : Z) (payload : bytes) | EV_JS_REPLY (index : Z) (payload : bytes)
  | EV_READY | EV_LOST | EV_PING | EV_PONG.
#[export] Instance nats_ev_eq_dec : EqDecision nats_ev.
Proof. solve_decision. Defined.

(** [n_big] holds the bytes up to [big_len].  [n_sock] are the outcomes of the
    coming flushes, [n_drops] tells for each coming call into the module
    whether it drops the link. *)
Record nats_t := mkNats {
  n_hello : bytes;
  n_payload_max : Z;
  n_state : nats_state_e;
  n_pings : Z;
  n_timer : bool;
  n_big_size : Z;
  n_big : bytes;
  n_skip : Z;
  n_rid : Z;
  n_index : Z;
  n_kind : nats_kind_e;
  n_hdr : Z;
  n_total : Z;
  n_valid : bool;
  n_collect : bool;
  n_log : list nats_ev;
  n_sock : list (list send_r * bool);
  n_drops : list bool;
  n_mem : alloc_stream
}.
#[export] Instance eta_nats_t : Eta nats_t := fun r =>
  mkNats r.(n_hello) r.(n_payload_max) r.(n_state) r.(n_pings) r.(n_timer) r.(n_big_size) r.(n_big) r.(n_skip) r.(n_rid)
    r.(n_index) r.(n_kind) r.(n_hdr) r.(n_total) r.(n_valid) r.(n_collect) r.(n_log) r.(n_sock) r.(n_drops) r.(n_mem).

Definition nst := (link_t * nats_t)%type.
Definition on_n (f : nats_t -> nats_t) (s : nst) : nst := (fst s, f (snd s)).
Definition on_k (f : link_t -> link_t) (s : nst) : nst := (f (fst s), snd s).
Definition note (e : nats_ev) (n : nats_t) : nats_t := n <| n_log ::= fun l => l ++ [e] |>.

Section nats.
Context `{NgxString}.

Definition ngx_http_waf_nats_on_connected (s : nst) : bool * nst :=
  (true, on_n (fun n => n <| n_state := ST_LINE |> <| n_pings := 0 |>) s).

Definition ngx_http_waf_nats_on_close (was_ready : bool) (n : nats_t) : nats_t :=
  let n := n <| n_timer := false |> in
  let n := if was_ready then note EV_LOST n else n in
  n <| n_collect := false |> <| n_big := [] |> <| n_skip := 0 |>.

Definition nats_drop : nst -> nst := ngx_http_waf_link_drop ngx_http_waf_nats_on_close.

(** [ngx_http_waf_link_flush] with the next outcomes of the socket, which
    takes nothing when none are given. *)
Definition nats_flush (s : nst) : nst :=
  let '(how, rest) := match (snd s).(n_sock) with [] => (([SEND_AGAIN], true), []) | h :: rest => (h, rest) end in
  ngx_http_waf_link_flush ngx_http_waf_nats_on_close how.1 how.2 (on_n (fun n => n <| n_sock := rest |>) s).

(** A call into the module, which may drop the link. *)
Definition nats_call (e : nats_ev) (s : nst) : nst :=
  let s := on_n (note e) s in
  match (snd s).(n_drops) with
  | [] => s
  | d :: rest => let s := on_n (fun n => n <| n_drops := rest |>) s in if d then nats_drop s else s
  end.

Definition ngx_http_waf_nats_on_ping (s : nst) : option nst :=
  let '(k, n) := s in
  if negb k.(k_ready) then Some s
  else if NGX_HTTP_WAF_NATS_MAX_PING <=? n.(n_pings) then Some (nats_drop s)
  else
    r ← ngx_http_waf_link_out (lit "PING" ++ [13; 10]) k;
    Some (on_n (fun n => n <| n_timer := true |>) (nats_flush (snd r, n <| n_pings ::= fun p => p + 1 |>))).

Definition ngx_http_waf_nats_handshake (s : nst) : option (bool * nst) :=
  r ← ngx_http_waf_link_out (snd s).(n_hello) (fst s);
  let '(ok, k) := r in
  if negb ok then Some (false, (k, snd s))
  else
    let s := nats_flush (k <| k_ready := true |>, (snd s) <| n_pings := 1 |>) in
    Some (true, nats_call EV_READY (on_n (fun n => n <| n_timer := true |>) s)).

(** ** Lines *)

Definition is_space (c : Z) : bool := (c =? 32) || (c =? 9).
Fixpoint skip_spaces (s : bytes) : bytes :=
  match s with c :: s' => if is_space c then skip_spaces s' else s | [] => [] end.
Fixpoint span_token (s : bytes) : bytes * bytes :=
  match s with
  | c :: s' => if is_space c then ([], s) else let '(t, rest) := span_token s' in (c :: t, rest)
  | [] => ([], [])
  end.
Definition ngx_http_waf_nats_token (s : bytes) : option (bytes * bytes) :=
  match skip_spaces s with [] => None | s => Some (span_token s) end.
(** [while (ntokens < 5)]. *)
Fixpoint tokens (n : nat) (s : bytes) : list bytes :=
  match n with
  | O => []
  | S n => match ngx_http_waf_nats_token s with None => [] | Some (t, rest) => t :: tokens n rest end
  end.

(** The part of the subject after the last dot, and the part before it. *)
Fixpoint last_dot (s : bytes) : option (bytes * bytes) :=
  match s with
  | [] => None
  | c :: s => match last_dot s with
              | Some (before, tail) => Some (c :: before, tail)
              | None => if c =? 46 then Some ([], s) else None
              end
  end.

(** The message a subscription and a subject stand for; a message that has
    none is not looked at again. *)
Record route_t := mkRoute { ro_kind : nats_kind_e; ro_index : Z; ro_rid : option Z }.

Definition ngx_http_waf_nats_route (sid subject : bytes) : option route_t :=
  match sid with
  | [] => None
  | c :: digits =>
      if c =? 100 then
        match ngx_atoi digits with
        | Some n => if n <? NGX_HTTP_WAF_MAX_DATASETS then Some (mkRoute KIND_DATASET n None) else None
        | None => None
        end
      else
        match last_dot subject with
        | None => None
        | Some (before, tail) =>
            if bytes_eqb sid (lit "2") then
              match ngx_atoi tail with
              | Some n => if n <? NGX_HTTP_WAF_MAX_DATASETS then Some (mkRoute KIND_JS_REPLY n None) else None
              | None => None
              end
            else
              match ngx_hextoi tail with
              | Some n =>
                  if NGX_HTTP_WAF_MAX_INSPECTORS <=? n then None
                  else if zlen before <? NGX_HTTP_WAF_RID_HEX_LEN then None
                  else match ngx_http_waf_rid_parse (drop (length before - Z.to_nat NGX_HTTP_WAF_RID_HEX_LEN) before) with
                       | Some rid => Some (mkRoute KIND_VERDICT n (Some rid))
                       | None => None
                       end
              | None => None
              end
        end
  end.

(** The numbers at the end of the header line: the length of the message and
    of its own headers. *)
Record header_t := mkHeader { hd_subject : bytes; hd_sid : bytes; hd_total : Z; hd_hdr : Z }.

Definition msg_header (line : bytes) (with_headers : bool) : option header_t :=
  let toks := tokens 5 line in
  if Nat.ltb (length toks) (if with_headers then 4 else 3) then None
  else
    let tok (i : nat) := default [] (toks !! i) in
    let n := ngx_atoi (tok (length toks - 1)%nat) in
    if with_headers then
      match n, ngx_atoi (tok (length toks - 2)%nat) with
      | Some n, Some hdr => if n <? hdr then None else Some (mkHeader (tok 0%nat) (tok 1%nat) n hdr)
      | _, _ => None
      end
    else match n with Some n => Some (mkHeader (tok 0%nat) (tok 1%nat) n 0) | None => None end.

(** True for [NGX_OK]. *)
Definition ngx_http_waf_nats_collect (need : Z) (n : nats_t) : bool * nats_t :=
  if need <=? n.(n_big_size) then (true, n)
  else
    let '(ok, mem) := alloc n.(n_mem) in
    let n := n <| n_mem := mem |> in
    if negb ok then (false, n) else (true, n <| n_big := [] |> <| n_big_size := need |>).

Definition ngx_http_waf_nats_msg_line (line : bytes) (with_headers : bool) (s : nst) : bool * nst :=
  match msg_header line with_headers with
  | None => (false, s)
  | Some h =>
      let '(k, n) := s in
      let n := n <| n_total := h.(hd_total) |> <| n_hdr := h.(hd_hdr) |> <| n_valid := false |> <| n_collect := false |>
                 <| n_skip := 0 |> <| n_state := ST_PAYLOAD |> in
      let n := match ngx_http_waf_nats_route h.(hd_sid) h.(hd_subject) with
               | Some r => n <| n_kind := r.(ro_kind) |> <| n_index := r.(ro_index) |>
                             <| n_rid ::= fun rid => default rid r.(ro_rid) |> <| n_valid := true |>
               | None => n
               end in
      if n.(n_total) + 2 <=? Z.of_nat k.(k_in_size) then (true, (k, n))
      else
        let drop n := (true, (k, n <| n_valid := false |> <| n_skip := n.(n_total) + 2 |>)) in
        if n.(n_valid) && (n.(n_kind) ==? KIND_DATASET) && (n.(n_total) <=? n.(n_payload_max)) then
          let '(ok, n) := ngx_http_waf_nats_collect (n.(n_total) + 2) n in
          if ok then (true, (k, n <| n_collect := true |> <| n_big := [] |>)) else drop n
        else drop n
  end.

Definition ngx_http_waf_nats_deliver (msg : bytes) (s : nst) : nst :=
  let n := snd s in
  if negb (n.(n_hdr) =? 0) && (zlen msg <? n.(n_hdr)) then s
  else if negb (n.(n_hdr) =? 0) && (n.(n_kind) ==? KIND_VERDICT) && (12 <=? n.(n_hdr))
          && starts_with (lit "NATS/1.0 503") msg
  then nats_call (EV_ABSENT n.(n_rid) n.(n_index)) s
  else
    let payload := drop (Z.to_nat n.(n_hdr)) msg in
    nats_call (match n.(n_kind) with
               | KIND_DATASET => EV_DATASET n.(n_index) payload
               | KIND_JS_REPLY => EV_JS_REPLY n.(n_index) payload
               | KIND_VERDICT => EV_DISPATCH n.(n_rid) n.(n_index) payload
               end) s.

(** [None] is a loop that does not end. *)
Definition ngx_http_waf_nats_line (line : bytes) (s : nst) : option (bool * nst) :=
  if starts_with (lit "MSG ") line then Some (ngx_http_waf_nats_msg_line (drop 4 line) false s)
  else if starts_with (lit "HMSG ") line then Some (ngx_http_waf_nats_msg_line (drop 5 line) true s)
  else if starts_with (lit "PING") line then
    r ← ngx_http_waf_link_out (lit "PONG" ++ [13; 10]) (fst s);
    Some (true, nats_flush (snd r, note EV_PING (snd s)))
  else if starts_with (lit "PONG") line then
    Some (true, (ngx_http_waf_link_up (fst s), note EV_PONG ((snd s) <| n_pings := 0 |>)))
  else if starts_with (lit "INFO") line then
    if (fst s).(k_ready) then Some (true, s) else ngx_http_waf_nats_handshake s
  else if starts_with (lit "-ERR") line then Some (false, s)
  else if starts_with (lit "+OK") line then Some (true, s)
  else if zlen line =? 0 then Some (true, s)
  else Some (false, s).

(** ** The parser *)

(** The line up to an LF at [i], without a CR before it. *)
Definition line_at (u : bytes) (i : nat) : bytes :=
  take (if bool_decide (u !! (i - 1)%nat = Some 13) && negb (Nat.eqb i 0) then i - 1 else i) u.

(** One turn with the unread bytes [u], which are not empty. *)
Definition nats_turn (u : bytes) (s : nst) : option (turn_r nst) :=
  let n := snd s in
  let line := on_n (fun n : nats_t => n <| n_state := ST_LINE |>) in
  match n.(n_state) with
  | ST_PAYLOAD =>
      if negb (n.(n_skip) =? 0) then
        let took := Nat.min (length u) (Z.to_nat n.(n_skip)) in
        let s := on_n (fun n => n <| n_skip ::= fun k => k - Z.of_nat took |>) s in
        Some (if negb ((snd s).(n_skip) =? 0) then TURN_STOP took s else TURN_GO took (line s))
      else if n.(n_collect) then
        let took := Nat.min (length u) (Z.to_nat (n.(n_total) + 2 - zlen n.(n_big))) in
        let s := on_n (fun n => n <| n_big ::= fun b => b ++ take took u |>) s in
        if zlen (snd s).(n_big) <? n.(n_total) + 2 then Some (TURN_STOP took s)
        else
          let s := ngx_http_waf_nats_deliver (take (Z.to_nat n.(n_total)) (snd s).(n_big)) s in
          Some (TURN_GO took (on_n (fun n : nats_t => n <| n_collect := false |> <| n_big := [] |> <| n_state := ST_LINE |>) s))
      else if Z.of_nat (length u) <? n.(n_total) + 2 then Some (TURN_STOP 0 s)
      else
        let s := if n.(n_valid) then ngx_http_waf_nats_deliver (take (Z.to_nat n.(n_total)) u) s else s in
        Some (TURN_GO (Z.to_nat (n.(n_total) + 2)) (line s))
  | ST_LINE =>
      match ngx_strlchr u 10 with
      | None => Some (TURN_STOP 0 s)
      | Some i =>
          match ngx_http_waf_nats_line (line_at u i) s with
          | None => None
          | Some (ok, s) => Some (if ok : bool then TURN_GO (S i) s else TURN_FAIL 0 s)
          end
      end
  end.

Definition ngx_http_waf_nats_parse : inbuf -> nst -> option (bool * inbuf * nst) := feed_buffer nats_turn.
Definition ngx_http_waf_nats_on_read := ngx_http_waf_nats_parse.

(** ** Publishing *)

Context (sprintf_uz : Z -> bytes).

Definition pub_line (inbox subject : bytes) (reply : option bytes) (len : Z) : bytes :=
  lit "PUB " ++ subject
  ++ match reply with Some r => lit " " ++ inbox ++ lit "." ++ r | None => [] end
  ++ lit " " ++ sprintf_uz len ++ [13; 10].

(** [NGX_OK], [NGX_DECLINED] or [NGX_ERROR]. *)
Definition ngx_http_waf_nats_pub (inbox subject : bytes) (reply : option bytes) (payload : bytes) (s : nst)
    : option (ngx_rc * nst) :=
  let len := 7 + zlen subject + NGX_SIZE_T_LEN in
  let len := match reply with Some r => len + 2 + zlen inbox + zlen r | None => len end in
  if NGX_HTTP_WAF_NATS_LINE_MAX <? len then Some (NGX_DECLINED, s)
  else
    r ← ngx_http_waf_link_reserve (len + zlen payload + 2) (fst s);
    let '(ok, k) := r in
    if negb ok then Some (NGX_ERROR, (k, snd s))
    else
      let text := take (Z.to_nat len) (pub_line inbox subject reply (zlen payload)) ++ payload ++ [13; 10] in
      Some (NGX_OK, nats_flush (k <| k_out ::= fun o => o ++ text |>, snd s)).

Inductive bus_status_e := BUS_OK | BUS_UNAVAILABLE | BUS_OVERFLOW | BUS_TOO_LARGE.

(** The subject a verdict comes back on, below the inbox; ["%02xi"] prints at
    least two hexadecimal digits. *)
Context (sprintf_02x : Z -> bytes).
Definition reply_subject (rid inspector : Z) : bytes :=
  lit "v." ++ ngx_http_waf_rid_hex rid ++ lit "." ++ sprintf_02x inspector.

Definition ngx_http_waf_nats_publish (inbox subject payload : bytes) (rid inspector : Z) (s : nst)
    : option (bus_status_e * nst) :=
  if negb (fst s).(k_ready) then Some (BUS_UNAVAILABLE, s)
  else if (snd s).(n_payload_max) <? zlen payload then Some (BUS_TOO_LARGE, s)
  else
    r ← ngx_http_waf_nats_pub inbox subject (Some (reply_subject rid inspector)) payload s;
    let '(rc, s) := r in
    Some (match rc with NGX_OK => BUS_OK | NGX_DECLINED => BUS_TOO_LARGE | _ => BUS_OVERFLOW end, s).

(** [publish_audit] and [request]: true for [NGX_OK]. *)
Definition ngx_http_waf_nats_request (inbox subject : bytes) (reply : option bytes) (payload : bytes) (s : nst)
    : option (bool * nst) :=
  if negb (fst s).(k_ready) then Some (false, s)
  else
    r ← ngx_http_waf_nats_pub inbox subject reply payload s;
    let '(rc, s) := r in Some (rc_ok rc, s).

End nats.
End Nats.
