(* ===== verification/NatsFacts.v ===== *)
(** The parser of the bus (Nats.v) does not depend on how the bytes arrive:
    whatever pieces the socket returns, the calls into the module are those of
    the whole stream, message by message. *)
From S2P Require Import Prelude Types Slots ReplyText Select SelectFacts ApplyArgs Link LinkFacts Nats.
Import Slots.Rid Select SelectFacts Link LinkFacts Nats.
#[local] Open Scope Z_scope.

Module NatsFacts.

(** The registers of the parser; the buffer of a large message may hold
    [slack] bytes more than the parser leaves in it. *)
Record nwf_upto (slack : Z) (s : nst) : Prop := mkNwf {
  nw_out : out_wf (fst s);
  nw_total : 0 <= (snd s).(n_total);
  nw_skip : 0 <= (snd s).(n_skip);
  nw_big : (snd s).(n_state) = ST_PAYLOAD -> (snd s).(n_collect) = true ->
           zlen (snd s).(n_big) < (snd s).(n_total) + 2 + slack /\ (snd s).(n_total) + 2 <= (snd s).(n_big_size)
}.
Definition nwf : nst -> Prop := nwf_upto 0.

Section nats.
Context `{HL : NgxStringLaws}.

(** Without the inputs that are used up and the state of the keep-alive. *)
Definition core (n : nats_t) : nats_t := n <| n_sock := [] |> <| n_drops := [] |> <| n_pings := 0 |> <| n_timer := false |>.
(** [s'] is [s], but for what was sent. *)
Definition alike (s s' : nst) : Prop := rest_out (fst s') = rest_out (fst s) /\ core (snd s') = core (snd s).

Lemma alike_trans s1 s2 s3 : alike s1 s2 -> alike s2 s3 -> alike s1 s3.
Proof. intros [A1 A2] [B1 B2]. split; congruence. Qed.
Lemma alike_fields s s' : alike s s' ->
  (fst s').(k_in_size) = (fst s).(k_in_size) /\ (fst s').(k_ready) = (fst s).(k_ready) /\ (fst s').(k_conn) = (fst s).(k_conn) /\
  (snd s').(n_log) = (snd s).(n_log) /\ (snd s').(n_state) = (snd s).(n_state) /\ (snd s').(n_mem) = (snd s).(n_mem) /\
  (snd s').(n_payload_max) = (snd s).(n_payload_max).
Proof.
  intros [A B]. assert (GA : forall T (f : link_t -> T), f (rest_out (fst s')) = f (rest_out (fst s))) by (intros T f; by rewrite A).
  assert (GB : forall T (f : nats_t -> T), f (core (snd s')) = f (core (snd s))) by (intros T f; by rewrite B).
  split_and!; [apply (GA _ k_in_size)|apply (GA _ k_ready)|apply (GA _ k_conn)|apply (GB _ n_log)|apply (GB _ n_state)|apply (GB _ n_mem)|apply (GB _ n_payload_max)].
Qed.

Lemma nwf_regs {sl} s s' : nwf_upto sl s -> out_wf (fst s') ->
  (snd s').(n_total) = (snd s).(n_total) -> (snd s').(n_skip) = (snd s).(n_skip) \/ (snd s').(n_skip) = 0 ->
  (snd s').(n_collect) = false \/
  ((snd s').(n_state) = (snd s).(n_state) /\ (snd s').(n_collect) = (snd s).(n_collect) /\ (snd s').(n_big) = (snd s).(n_big) /\
   (snd s').(n_big_size) = (snd s).(n_big_size)) -> nwf_upto sl s'.
Proof.
  intros [A B C D] W E1 E2 E3. constructor; [done|by rewrite E1|destruct E2 as [->| ->]; lia|].
  destruct E3 as [E3|(F1 & F2 & F3 & F4)]; [congruence|]. by rewrite F1, F2, F3, F4, E1.
Qed.

Lemma drop_nwf {sl} s : nwf_upto sl s -> nwf_upto sl (nats_drop s).
Proof.
  intros W. eapply nwf_regs; [exact W|apply drop_out_wf; apply W|..]; unfold nats_drop; rewrite drop_snd; unfold ngx_http_waf_nats_on_close;
    destruct (k_ready (fst s)); cbn; auto.
Qed.

Lemma flush_nats {sl} s : nwf_upto sl s -> let s' := nats_flush s in
  nwf_upto sl s' /\ (alike s s' \/ (fst s').(k_conn) = false).
Proof.
  intros W. cbn zeta. unfold nats_flush. destruct (match n_sock (snd s) with [] => _ | _ :: _ => _ end) as [how rest].
  set (s1 := on_n _ s). pose proof (flush_spec ngx_http_waf_nats_on_close how.1 how.2 s1 (nw_out _ _ W)) as [F1 F2].
  destruct F2 as [[F2 F3]|[F2 F3]].
  - split; [|left; split; [done|by rewrite F2]]. eapply nwf_regs; [exact W|done|..]; rewrite F2; cbn; auto.
  - split; [|by right]. eapply nwf_regs; [exact W|done|..]; rewrite F3; unfold ngx_http_waf_nats_on_close; destruct (k_ready (fst s1)); cbn; auto.
Qed.

Lemma call_nats {sl} e s : nwf_upto sl s -> let s' := nats_call e s in
  nwf_upto sl s' /\ (alike (on_n (note e) s) s' \/ (fst s').(k_conn) = false).
Proof.
  intros W. cbn zeta. unfold nats_call. assert (W1 : nwf_upto sl (on_n (note e) s)) by (eapply nwf_regs; [exact W|apply W|..]; cbn; auto).
  destruct (n_drops (snd (on_n (note e) s))) as [|d rest]; [split; [done|by left; split]|].
  set (s1 := on_n (fun n => n <| n_drops := rest |>) (on_n (note e) s)).
  assert (W2 : nwf_upto sl s1) by (eapply nwf_regs; [exact W1|apply W1|..]; cbn; auto).
  destruct d; [|split; [done|by left; split]]. split; [by apply drop_nwf|]. right. apply drop_conn.
Qed.

(** The calls for a message. *)
Definition events_of (kind : nats_kind_e) (rid index hdr : Z) (msg : bytes) : list nats_ev :=
  if negb (hdr =? 0) && (zlen msg <? hdr) then []
  else if negb (hdr =? 0) && (kind ==? KIND_VERDICT) && (12 <=? hdr) && starts_with (lit "NATS/1.0 503") msg then [EV_ABSENT rid index]
  else let payload := drop (Z.to_nat hdr) msg in
       [match kind with
        | KIND_DATASET => EV_DATASET index payload
        | KIND_JS_REPLY => EV_JS_REPLY index payload
        | KIND_VERDICT => EV_DISPATCH rid index payload
        end].
Definition logged (evs : list nats_ev) (s : nst) : nst := on_n (fun n => n <| n_log ::= fun l => l ++ evs |>) s.

Lemma deliver_nats {sl} msg s : nwf_upto sl s -> let s' := ngx_http_waf_nats_deliver msg s in
  nwf_upto sl s' /\ (alike (logged (events_of (snd s).(n_kind) (snd s).(n_rid) (snd s).(n_index) (snd s).(n_hdr) msg) s) s' \/ (fst s').(k_conn) = false).
Proof.
  intros W. cbn zeta. unfold ngx_http_waf_nats_deliver, events_of.
  destruct (negb (n_hdr (snd s) =? 0) && (zlen msg <? n_hdr (snd s))).
  { split; [done|]. left. unfold logged, alike, on_n, core. cbn. by rewrite app_nil_r. }
  destruct (_ && _ && _ && _); [apply (call_nats (EV_ABSENT (n_rid (snd s)) (n_index (snd s))) s W)|].
  apply (call_nats _ s W).
Qed.

(** ** One line *)

(** What a line asks for, apart from what is written back: calls, a message, or
    the end of the connection. *)
Inductive line_r := LINE_DO (evs : list nats_ev) (ready : bool) | LINE_MSG (h : header_t) | LINE_BAD.
Definition line_msg (line : bytes) (with_headers : bool) : line_r :=
  match msg_header line with_headers with Some h => LINE_MSG h | None => LINE_BAD end.
Definition read_line (ready : bool) (line : bytes) : line_r :=
  if starts_with (lit "MSG ") line then line_msg (drop 4 line) false
  else if starts_with (lit "HMSG ") line then line_msg (drop 5 line) true
  else if starts_with (lit "PING") line then LINE_DO [EV_PING] ready
  else if starts_with (lit "PONG") line then LINE_DO [EV_PONG] ready
  else if starts_with (lit "INFO") line then LINE_DO (if ready then [] else [EV_READY]) true
  else if starts_with (lit "-ERR") line then LINE_BAD
  else if starts_with (lit "+OK") line || (zlen line =? 0) then LINE_DO [] ready
  else LINE_BAD.

(** A message is taken when it is routed and fits the buffer, or is a dataset
    within the limit on payloads. *)
Definition accept (in_size : nat) (payload_max : Z) (h : header_t) : option route_t :=
  r ← ngx_http_waf_nats_route h.(hd_sid) h.(hd_subject);
  if (h.(hd_total) + 2 <=? Z.of_nat in_size) || (r.(ro_kind) ==? KIND_DATASET) && (h.(hd_total) <=? payload_max) then Some r else None.
Definition msg_events (in_size : nat) (payload_max : Z) (h : header_t) (msg : bytes) : list nats_ev :=
  match accept in_size payload_max h with
  | Some r => events_of r.(ro_kind) (default 0 r.(ro_rid)) r.(ro_index) h.(hd_hdr) msg
  | None => []
  end.

(** From [s] to [s'] the calls [evs] were made, and the link is ready or not. *)
Record told (evs : list nats_ev) (ready : bool) (s s' : nst) : Prop := mkTold {
  to_in : (fst s').(k_in_size) = (fst s).(k_in_size);
  to_max : (snd s').(n_payload_max) = (snd s).(n_payload_max);
  to_mem : (snd s).(n_mem) = [] -> (snd s').(n_mem) = [];
  to_ready : (fst s').(k_ready) = ready;
  to_log : (snd s').(n_log) = (snd s).(n_log) ++ evs
}.

Lemma told_alike evs ready s s1 s2 : told evs ready s s1 -> alike s1 s2 -> told evs ready s s2.
Proof.
  intros [A B C D E] F. apply alike_fields in F as (F1 & F2 & F3 & F4 & F5 & F6 & F7).
  constructor; [congruence|congruence|intros; rewrite F6; auto|congruence|congruence].
Qed.
Lemma told_logged evs s : told evs (fst s).(k_ready) s (logged evs s).
Proof. by constructor. Qed.
Lemma told_trans e1 e2 r1 r2 s1 s2 s3 : told e1 r1 s1 s2 -> told e2 r2 s2 s3 -> told (e1 ++ e2) r2 s1 s3.
Proof.
  intros [A B C D E] [A' B' C' D' E']. constructor; [congruence|congruence|auto|done|]. by rewrite E', E, app_assoc.
Qed.

(** The registers hold the message with the header [h], of which [t] was taken
    off the buffer. *)
Definition holds (h : header_t) (t : bytes) (s : nst) : Prop :=
  let n := snd s in let k := fst s in
  let acc := accept k.(k_in_size) n.(n_payload_max) h in
  n.(n_state) = ST_PAYLOAD /\ n.(n_total) = h.(hd_total) /\ n.(n_hdr) = h.(hd_hdr) /\ n.(n_valid) = bool_decide (is_Some acc) /\
  (forall r, acc = Some r -> n.(n_kind) = r.(ro_kind) /\ n.(n_index) = r.(ro_index) /\ (forall rid, r.(ro_rid) = Some rid -> n.(n_rid) = rid)) /\
  if h.(hd_total) + 2 <=? Z.of_nat k.(k_in_size) then n.(n_skip) = 0 /\ n.(n_collect) = false /\ t = []
  else if n.(n_valid) then n.(n_skip) = 0 /\ n.(n_collect) = true /\ n.(n_big) = t
  else n.(n_skip) = h.(hd_total) + 2 - zlen t.

Lemma header_total line wh h : msg_header line wh = Some h -> 0 <= h.(hd_total).
Proof.
  assert (Ha : forall t n, ngx_atoi t = Some n -> 0 <= n).
  { intros t n Hn. apply ngx_atoi_spec in Hn as (D & _ & ->). unfold dec_value. assert (G : forall v, 0 <= v -> 0 <= fold_left (fun v c => v * 10 + (c - 48)) t v); [|by apply G].
    induction D as [|c t Hc D IH]; intros v Hv; cbn [fold_left]; [done|]. apply IH. unfold digit in Hc. lia. }
  unfold msg_header. destruct (Nat.ltb _ _); [done|]. destruct (ngx_atoi _) as [n|] eqn:En; destruct wh; try done.
  - destruct (ngx_atoi (default [] (tokens 5 line !! (length (tokens 5 line) - 2)%nat))) as [hdr|]; [|done]. destruct (n <? hdr); [done|].
    intros [= <-]. cbn. eauto.
  - intros [= <-]. cbn. eauto.
Qed.

Lemma route_rid sid subject r : ngx_http_waf_nats_route sid subject = Some r -> r.(ro_kind) = KIND_VERDICT -> is_Some r.(ro_rid).
Proof.
  unfold ngx_http_waf_nats_route. intros Hr Hk. repeat case_match; simplify_eq; cbn in *; first [done | eauto].
Qed.

Lemma collect_spec need n : let r := ngx_http_waf_nats_collect need n in
  exists big size mem, snd r = n <| n_mem := mem |> <| n_big := big |> <| n_big_size := size |> /\
    (fst r = true -> need <= size) /\ (n.(n_mem) = [] -> fst r = true /\ mem = []).
Proof.
  cbn zeta. unfold ngx_http_waf_nats_collect. destruct (Z.leb_spec need (n_big_size n)) as [Hc|Hc].
  { exists (n_big n), (n_big_size n), (n_mem n). split; [by destruct n|]. done. }
  destruct (n_mem n) as [|b mem] eqn:Em; cbn [alloc].
  - exists [], need, []. split; [done|]. split; [intros _; lia|done].
  - destruct b; cbn [negb fst snd].
    + exists [], need, mem. split; [done|]. split; [intros _; reflexivity|done].
    + exists (n_big n), (n_big_size n), mem. split; [by destruct n|done].
Qed.

Lemma msg_line_spec line wh h s : nwf s -> msg_header line wh = Some h ->
  let r := ngx_http_waf_nats_msg_line line wh s in
  fst r = true /\ nwf (snd r) /\ fst (snd r) = fst s /\ told [] (fst s).(k_ready) s (snd r) /\ ((snd s).(n_mem) = [] -> holds h [] (snd r)).
Proof.
  intros W Eh. pose proof (header_total _ _ _ Eh) as Ht. cbn zeta. unfold ngx_http_waf_nats_msg_line. rewrite Eh. destruct s as [k n].
  set (n0 := n <| n_total := _ |> <| n_hdr := _ |> <| n_valid := _ |> <| n_collect := _ |> <| n_skip := _ |> <| n_state := _ |>).
  set (ro := ngx_http_waf_nats_route (hd_sid h) (hd_subject h)). set (n1 := match ro with Some _ => _ | None => n0 end).
  assert (R : n_total n1 = hd_total h /\ n_hdr n1 = hd_hdr h /\ n_skip n1 = 0 /\ n_collect n1 = false /\ n_state n1 = ST_PAYLOAD /\
              n_payload_max n1 = n_payload_max n /\ n_mem n1 = n_mem n /\ n_log n1 = n_log n /\ n_valid n1 = bool_decide (is_Some ro) /\
              forall r, ro = Some r -> n_kind n1 = ro_kind r /\ n_index n1 = ro_index r /\ (forall rid, ro_rid r = Some rid -> n_rid n1 = rid)).
  { unfold n1. destruct ro as [r|]; [|by split_and!]. split_and!; try done. intros r' [= <-]. split_and!; [done|done|].
    intros rid Hr. cbn. by rewrite Hr. }
  destruct R as (R1 & R2 & R3 & R4 & R5 & R6 & R7 & R8 & R9 & R10). clearbody n1. cbn [fst snd]. rewrite R1, R6.
  assert (T : forall n2, n_payload_max n2 = n_payload_max n -> (n_mem n = [] -> n_mem n2 = []) -> n_log n2 = n_log n -> told [] (k_ready k) (k, n) (k, n2)).
  { intros n2 A B C. constructor; cbn; try done. by rewrite C, app_nil_r. }
  destruct (Z.leb_spec (hd_total h + 2) (Z.of_nat (k_in_size k))) as [Hf|Hf].
  { split_and!; [done| |done|apply T; [done|congruence|done]|].
    - constructor; cbn; [apply W|lia|lia|congruence].
    - intros _. unfold holds. cbn. unfold accept. fold ro. rewrite (proj2 (Z.leb_le _ _) Hf). cbn [orb].
      destruct ro as [r|]; cbn; split_and!; try done. }
  assert (Hd : forall big size mem, (n_mem n = [] -> mem = []) -> (n_mem n = [] -> accept (k_in_size k) (n_payload_max n) h = None) ->
    let n2 := n1 <| n_mem := mem |> <| n_big := big |> <| n_big_size := size |> in
    let s2 := (k, n2 <| n_valid := false |> <| n_skip := n_total n2 + 2 |>) in
    nwf s2 /\ told [] (k_ready k) (k, n) s2 /\ (n_mem n = [] -> holds h [] s2)).
  { intros big size mem Hm Ha. cbn zeta. split_and!.
    - constructor; cbn; [apply W|lia|lia|congruence].
    - by apply T.
    - intros Em. unfold holds. cbn. rewrite R6, Ha by done. split_and!; try done.
      destruct (Z.leb_spec (hd_total h + 2) (Z.of_nat (k_in_size k))); [lia|]. change (zlen []) with 0. lia. }
  destruct (n_valid n1 && (n_kind n1 ==? KIND_DATASET) && (hd_total h <=? n_payload_max n)) eqn:Ed.
  - pose proof (collect_spec (hd_total h + 2) n1) as (big & size & mem & E2 & E3 & E4).
    destruct (ngx_http_waf_nats_collect (hd_total h + 2) n1) as [ok n2]. cbn [fst snd] in *. subst n2. destruct ok.
    + cbn [fst snd]. specialize (E3 eq_refl). split_and!; [done| |done|apply T; cbn; [done|rewrite <- R7; intros Hm; by apply E4|done]|].
      * constructor; cbn; [apply W|lia|lia|]. intros _ _. rewrite R1. change (zlen []) with 0. lia.
      * intros _. unfold holds. cbn. rewrite R6. unfold accept. fold ro. destruct ro as [r|] eqn:Er; cbn in R9; rewrite R9 in Ed; [|done].
        destruct (R10 r eq_refl) as (K1 & K2 & K3). rewrite K1 in Ed. cbn [andb] in Ed.
        destruct (Z.leb_spec (hd_total h + 2) (Z.of_nat (k_in_size k))); [lia|]. cbn [mbind option_bind orb]. rewrite Ed.
        split_and!; try done.
        by rewrite R9.
    + cbn [fst snd]. destruct (Hd big size mem) as (A & B & C).
      * intros Em. apply E4. congruence.
      * intros Em. destruct E4 as [E4 _]; congruence.
      * done.
  - cbn [fst snd]. destruct (Hd (n_big n1) (n_big_size n1) (n_mem n1)) as (A & B & C).
    + congruence.
    + intros _. unfold accept. fold ro. destruct ro as [r|] eqn:Er; [|done]. destruct (R10 r eq_refl) as (K1 & K2 & K3).
      cbn in R9. rewrite R9, K1 in Ed. cbn [andb] in Ed. cbn [mbind option_bind]. rewrite Ed.
      destruct (Z.leb_spec (hd_total h + 2) (Z.of_nat (k_in_size k))); [lia|done].
    + replace (n1 <| n_mem := n_mem n1 |> <| n_big := n_big n1 |> <| n_big_size := n_big_size n1 |>) with n1 in A, B, C by (by destruct n1).
      by rewrite R1 in A, B, C.
Qed.

(** What a step leaves of the link when it ends still connected. *)
Definition kept (evs : list nats_ev) (ready : bool) (s s' : nst) : Prop :=
  (fst s').(k_conn) = true -> (fst s).(k_conn) = true /\ told evs ready s s' /\ (snd s').(n_state) = (snd s).(n_state).

Lemma kept_alike evs ready s s1 s2 : (fst s1).(k_conn) = (fst s).(k_conn) -> told evs ready s s1 -> (snd s1).(n_state) = (snd s).(n_state) ->
  alike s1 s2 \/ (fst s2).(k_conn) = false -> kept evs ready s s2.
Proof.
  intros Hc Ht Hs [Ha|Hf] Hk; [|congruence]. split_and!; [|by eapply told_alike|].
  - apply alike_fields in Ha. destruct Ha as (_ & _ & Ha & _). congruence.
  - apply alike_fields in Ha. destruct Ha as (_ & _ & _ & _ & Ha & _). congruence.
Qed.

Lemma handshake_spec s : nwf s ->
  exists ok s', ngx_http_waf_nats_handshake s = Some (ok, s') /\ nwf s' /\
    ((fst s').(k_conn) = true -> (fst s).(k_conn) = true) /\ (ok = true -> kept [EV_READY] true s s').
Proof.
  intros W. unfold ngx_http_waf_nats_handshake. destruct (link_out_spec (n_hello (snd s)) (fst s) (nw_out _ _ W)) as (ok & k & -> & K1 & K2 & _).
  assert (Kc : k_conn k = k_conn (fst s)) by exact (f_equal k_conn K2). assert (Ki : k_in_size k = k_in_size (fst s)) by exact (f_equal k_in_size K2).
  cbn [mbind option_bind]. destruct ok; cbn [negb]; (eexists _, _; split; [reflexivity|]).
  2: { split_and!; [|intros Hk; by rewrite <- Kc|done]. by eapply nwf_regs; [exact W|..]; cbn; auto. }
  set (s1 := (k <| k_ready := true |>, (snd s) <| n_pings := 1 |>) : nst).
  assert (W1 : nwf s1) by (eapply nwf_regs; [exact W|exact K1|..]; cbn; auto).
  destruct (flush_nats s1 W1) as [W2 F2]. set (s2 := nats_flush s1) in *. set (s3 := on_n (fun n => n <| n_timer := true |>) s2).
  assert (W3 : nwf s3) by (eapply nwf_regs; [exact W2|apply W2|..]; cbn; auto).
  destruct (call_nats EV_READY s3 W3) as [W4 F4].
  assert (G : kept [EV_READY] true s (nats_call EV_READY s3)).
  { intros Hk. destruct F4 as [F4|F4]; [|congruence].
    pose proof (alike_fields _ _ F4) as (_ & _ & C4 & _ & S4 & _). destruct F2 as [F2|F2]; [|exfalso; rewrite Hk in C4; cbn in C4; congruence].
    pose proof (alike_fields _ _ F2) as (I2 & R2 & C2 & L2 & S2 & M2 & P2). cbn in I2, R2, C2, L2, S2, M2, P2.
    split_and!.
    - rewrite <- Kc, <- C2. rewrite Hk in C4. cbn in C4. congruence.
    - eapply told_alike; [|exact F4]. constructor; cbn; [congruence|congruence|intros; congruence|congruence|by rewrite L2].
    - rewrite S4. exact S2. }
  split_and!; [done| |done]. intros Hk. by apply G.
Qed.

Lemma line_spec line s : nwf s -> (snd s).(n_state) = ST_LINE ->
  exists ok s', ngx_http_waf_nats_line line s = Some (ok, s') /\ nwf s' /\ ((fst s').(k_conn) = true -> (fst s).(k_conn) = true) /\
    (ok = true -> (fst s').(k_conn) = true ->
     match read_line (fst s).(k_ready) line with
     | LINE_DO evs ready => told evs ready s s' /\ (snd s').(n_state) = ST_LINE
     | LINE_MSG h => told [] (fst s).(k_ready) s s' /\ 0 <= h.(hd_total) /\ (snd s').(n_state) = ST_PAYLOAD /\ ((snd s).(n_mem) = [] -> holds h [] s')
     | LINE_BAD => False
     end).
Proof.
  intros W St. unfold ngx_http_waf_nats_line, read_line.
  assert (Hm : forall l wh, exists ok s', ngx_http_waf_nats_msg_line l wh s = (ok, s') /\ nwf s' /\
    ((fst s').(k_conn) = true -> (fst s).(k_conn) = true) /\
    (ok = true -> exists h, line_msg l wh = LINE_MSG h /\ told [] (fst s).(k_ready) s s' /\ 0 <= h.(hd_total) /\ (snd s').(n_state) = ST_PAYLOAD /\ ((snd s).(n_mem) = [] -> holds h [] s'))).
  { intros l wh. unfold line_msg. destruct (msg_header l wh) as [h|] eqn:Eh.
    - pose proof (msg_line_spec l wh h s W Eh) as (M1 & M2 & M3 & M4 & M5). destruct (ngx_http_waf_nats_msg_line l wh s) as [ok s'] eqn:El. cbn [fst snd] in *.
      exists ok, s'. split; [done|]. split; [done|]. split; [by rewrite M3|]. intros _. exists h. split_and!; [done|done|by eapply header_total| |done].
      unfold ngx_http_waf_nats_msg_line in El. rewrite Eh in El. destruct s as [k n]. 
      repeat (case_match; simplify_eq; cbn); try done. all: unfold ngx_http_waf_nats_collect in *; repeat (case_match; simplify_eq; cbn); try done.
    - exists false, s. unfold ngx_http_waf_nats_msg_line. rewrite Eh. done. }
  destruct (starts_with (lit "MSG ") line).
  { destruct (Hm (drop 4 line) false) as (ok & s' & -> & M1 & M2 & M3). exists ok, s'. split_and!; try done. intros Ho _.
    destruct (M3 Ho) as (h & -> & M4). done. }
  destruct (starts_with (lit "HMSG ") line).
  { destruct (Hm (drop 5 line) true) as (ok & s' & -> & M1 & M2 & M3). exists ok, s'. split_and!; try done. intros Ho _.
    destruct (M3 Ho) as (h & -> & M4). done. }
  clear Hm. destruct (starts_with (lit "PING") line).
  { destruct (link_out_spec (lit "PONG" ++ [13; 10]) (fst s) (nw_out _ _ W)) as (ok & k & -> & K1 & K2 & _). cbn [mbind option_bind snd].
    set (s1 := (k, note EV_PING (snd s)) : nst). assert (W1 : nwf s1) by (eapply nwf_regs; [exact W|exact K1|..]; cbn; auto).
    destruct (flush_nats s1 W1) as [W2 F2]. eexists _, _. split; [reflexivity|]. split; [done|].
    assert (G : kept [EV_PING] (k_ready (fst s)) s (nats_flush s1)).
    { eapply kept_alike; [| | |exact F2]; [exact (f_equal k_conn K2)| |done].
      constructor; cbn; [exact (f_equal k_in_size K2)|done|done|exact (f_equal k_ready K2)|done]. }
    split; [intros Hk; by apply G|]. intros _ Hk. destruct (G Hk) as (_ & G1 & G2). by rewrite G2. }
  destruct (starts_with (lit "PONG") line).
  { eexists _, _. split; [reflexivity|].
    assert (Hu : forall T (f : link_t -> T), (forall k u, f (k <| k_up := u |>) = f k) -> (forall k u, f (k <| k_failures := u |>) = f k) -> f (ngx_http_waf_link_up (fst s)) = f (fst s)).
    { intros T f A B. unfold ngx_http_waf_link_up. destruct (k_up (fst s)); [done|]. cbv zeta. destruct (negb _); by rewrite ?B, ?A. }
    assert (Ho : out_wf (ngx_http_waf_link_up (fst s))).
    { pose proof (nw_out _ _ W). unfold out_wf in *. by rewrite (Hu _ k_out_size), (Hu _ k_out_max), (Hu _ k_out), (Hu _ k_out_pos). }
    split_and!.
    - eapply nwf_regs; [exact W|exact Ho|..]; cbn; auto.
    - cbn. by rewrite (Hu _ k_conn).
    - intros _ _. split; [|done]. constructor; cbn; [by rewrite (Hu _ k_in_size)|done|done|by rewrite (Hu _ k_ready)|done]. }
  destruct (starts_with (lit "INFO") line).
  { destruct (k_ready (fst s)) eqn:Er.
    - eexists _, _. split; [reflexivity|]. split_and!; [done|done|]. intros _ _. split; [|done]. constructor; try done. by rewrite app_nil_r.
    - destruct (handshake_spec s W) as (ok & s' & -> & H1 & H2 & H3). exists ok, s'. split_and!; try done. intros Ho Hk.
      destruct (H3 Ho Hk) as (_ & H4 & H5). by rewrite H5. }
  destruct (starts_with (lit "-ERR") line); [by exists false, s|].
  assert (Hn : told [] (k_ready (fst s)) s s) by (constructor; try done; by rewrite app_nil_r).
  destruct (starts_with (lit "+OK") line); cbn [orb]; [by exists true, s|].
  destruct (zlen line =? 0); [by exists true, s|]. by exists false, s.
Qed.

End nats.

End NatsFacts.
