(* ===== verification/NatsStream.v ===== *)
(** What the module is told depends on the stream of the server alone, not on
    how the socket cuts it: an abstract reading of the whole stream, line by
    line and message by message, and that the parser of Nats.v implements it
    with its bounded buffer, whatever is sent and published in between. *)
From S2P Require Import Prelude Types Slots ReplyText Select SelectFacts ApplyArgs Link LinkFacts Nats NatsFacts.
Import Slots.Rid Select SelectFacts Link LinkFacts Nats NatsFacts.
#[local] Open Scope Z_scope.

Module NatsStream.

Section stream.
Context `{HL : NgxStringLaws}.

(** ** The stream *)

(** The calls for a stream, by a link that is ready or not and has room for
    [in_size] bytes. *)
Fixpoint stream_loop (fuel in_size : nat) (payload_max : Z) (ready : bool) (u : bytes) : list nats_ev :=
  match fuel, ngx_strlchr u 10 with
  | S fuel, Some i =>
      let rest := drop (S i) u in
      match read_line ready (line_at u i) with
      | LINE_BAD => []
      | LINE_DO evs ready => evs ++ stream_loop fuel in_size payload_max ready rest
      | LINE_MSG h =>
          let n := Z.to_nat (h.(hd_total) + 2) in
          if Nat.ltb (length rest) n then []
          else msg_events in_size payload_max h (take (Z.to_nat h.(hd_total)) rest)
               ++ stream_loop fuel in_size payload_max ready (drop n rest)
      end
  | _, _ => []
  end.
Definition stream_events in_size payload_max ready u := stream_loop (length u) in_size payload_max ready u.

Lemma line_at_app u d i : (i < length u)%nat -> line_at (u ++ d) i = line_at u i.
Proof.
  intros Hi. unfold line_at. rewrite lookup_app_l by lia. by destruct (_ && _); rewrite take_app_le by lia.
Qed.

Lemma stream_fuel in_size pm n m ready u : (length u <= n)%nat -> (length u <= m)%nat ->
  stream_loop n in_size pm ready u = stream_loop m in_size pm ready u.
Proof.
  revert m ready u. induction n as [|n IH]; intros m ready u Hn Hm.
  { destruct u; [|cbn in Hn; lia]. by destruct m. }
  destruct m as [|m]; [by destruct u; [|cbn in Hm; lia]|]. cbn [stream_loop].
  destruct (ngx_strlchr u 10) as [i|] eqn:Ei; [|done]. apply strlchr_lt in Ei.
  destruct (read_line ready (line_at u i)) as [evs r|h|]; [| |done].
  - f_equal. apply IH; rewrite length_drop; lia.
  - destruct (Nat.ltb _ _); [done|]. f_equal. apply IH; rewrite !length_drop; lia.
Qed.

Lemma stream_line in_size pm ready r d i evs ready' : ngx_strlchr r 10 = Some i -> read_line ready (line_at r i) = LINE_DO evs ready' ->
  stream_events in_size pm ready (r ++ d) = evs ++ stream_events in_size pm ready' (drop (S i) r ++ d).
Proof.
  intros Ei El. pose proof (strlchr_lt _ _ _ Ei) as Hi. unfold stream_events at 1.
  destruct (length (r ++ d)) as [|n] eqn:En; [rewrite length_app in En; lia|]. cbn [stream_loop].
  rewrite (strlchr_app _ _ _ _ Ei), line_at_app, El, drop_app_le by lia. f_equal. rewrite length_app in En.
  apply stream_fuel; rewrite length_app, length_drop; lia.
Qed.

Lemma stream_msg in_size pm ready r d i h : ngx_strlchr r 10 = Some i -> read_line ready (line_at r i) = LINE_MSG h ->
  let rest := drop (S i) r in let n := Z.to_nat (hd_total h + 2) in
  (n <= length rest)%nat -> 0 <= hd_total h ->
  stream_events in_size pm ready (r ++ d) =
    msg_events in_size pm h (take (Z.to_nat (hd_total h)) rest) ++ stream_events in_size pm ready (drop n rest ++ d).
Proof.
  intros Ei El rest n Hn Ht. pose proof (strlchr_lt _ _ _ Ei) as Hi. unfold stream_events at 1.
  destruct (length (r ++ d)) as [|k] eqn:En; [rewrite length_app in En; lia|]. cbn [stream_loop].
  rewrite (strlchr_app _ _ _ _ Ei), line_at_app, El, drop_app_le by lia. fold rest n.
  assert (Hr : length rest = (length r - S i)%nat) by (unfold rest; by rewrite length_drop).
  destruct (Nat.ltb_spec (length (rest ++ d)) n) as [Hl|Hl]; [rewrite length_app in Hl; lia|].
  rewrite take_app_le, (drop_app_le rest) by lia. f_equal. rewrite length_app in En.
  apply stream_fuel; rewrite length_app, length_drop; lia.
Qed.

Lemma stream_wait in_size pm ready r :
  match ngx_strlchr r 10 with
  | None => True
  | Some i => exists h, read_line ready (line_at r i) = LINE_MSG h /\ (length (drop (S i) r) < Z.to_nat (hd_total h + 2))%nat
  end -> stream_events in_size pm ready r = [].
Proof.
  unfold stream_events. destruct (length r) as [|n]; [done|]. cbn [stream_loop]. destruct (ngx_strlchr r 10) as [i|]; [|done].
  intros (h & -> & Hl). by rewrite (proj2 (Nat.ltb_lt _ _) Hl).
Qed.

(** ** The parser within the stream *)

(** With [u] unread, the parser is somewhere in [r], the stream since the last
    message or line that was done with. *)
Definition mid (r u : bytes) (s : nst) : Prop :=
  match (snd s).(n_state) with
  | ST_LINE => r = u
  | ST_PAYLOAD => exists i h t, ngx_strlchr r 10 = Some i /\ read_line (fst s).(k_ready) (line_at r i) = LINE_MSG h /\
      drop (S i) r = t ++ u /\ 0 <= zlen t < h.(hd_total) + 2 /\ 0 <= h.(hd_total) /\ holds h t s
  end.

(** It can do no more without more bytes. *)
Definition stuck (u : bytes) (s : nst) : Prop :=
  match (snd s).(n_state) with
  | ST_LINE => ngx_strlchr u 10 = None
  | ST_PAYLOAD => u = [] \/ (zlen u < (snd s).(n_total) + 2 <= Z.of_nat (fst s).(k_in_size))
  end.

Lemma mid_app r u d s : mid r u s -> mid (r ++ d) (u ++ d) s.
Proof.
  unfold mid. destruct (n_state (snd s)); [by intros ->|]. intros (i & h & t & A & B & C & D). pose proof (strlchr_lt _ _ _ A).
  exists i, h, t. split; [by apply strlchr_app|]. split; [by rewrite line_at_app by lia|]. split; [|exact D].
  rewrite drop_app_le by lia. by rewrite C, app_assoc.
Qed.

Lemma mid_alike r u s s' : alike s s' -> mid r u s -> mid r u s'.
Proof.
  intros [A B]. change (mid r u (rest_out (fst s), core (snd s)) -> mid r u (rest_out (fst s'), core (snd s'))). by rewrite A, B.
Qed.
Lemma stuck_alike u s s' : alike s s' -> stuck u s -> stuck u s'.
Proof.
  intros [A B]. change (stuck u (rest_out (fst s), core (snd s)) -> stuck u (rest_out (fst s'), core (snd s'))). by rewrite A, B.
Qed.

Lemma to_line_nwf s : nwf s -> nwf (on_n (fun n : nats_t => n <| n_state := ST_LINE |>) s).
Proof. intros [A B C D]. by constructor. Qed.

Lemma deliver_conn {sl} msg s : nwf_upto sl s -> (fst (ngx_http_waf_nats_deliver msg s)).(k_conn) = true -> (fst s).(k_conn) = true.
Proof.
  intros W Hk. destruct (deliver_nats msg s W) as [_ [F|F]]; [|congruence]. apply alike_fields in F. destruct F as (_ & _ & F & _). by rewrite <- Hk, F.
Qed.

Lemma turn_total u s : nwf s -> u <> [] ->
  exists t, nats_turn u s = Some t /\ nwf (turn_state t) /\ ((fst (turn_state t)).(k_conn) = true -> (fst s).(k_conn) = true) /\ turn_took u t.
Proof.
  intros W Hu. pose proof W as [W1 W2 W3 W4]. assert (Hl : (0 < length u)%nat) by (destruct u; [done|cbn; lia]). unfold nats_turn.
  destruct (n_state (snd s)) eqn:St.
  - destruct (ngx_strlchr u 10) as [i|] eqn:Ei; [|eexists; split; [reflexivity|]; cbn; split_and!; [done|done|lia]].
    apply strlchr_lt in Ei. destruct (line_spec (line_at u i) s W St) as (ok & s' & -> & L1 & L2 & _).
    destruct ok; (eexists; split; [reflexivity|]); cbn; split_and!; try done; lia.
  - destruct (Z.eqb_spec (n_skip (snd s)) 0) as [Es|Es]; cbn [negb].
    + destruct (n_collect (snd s)) eqn:Ec.
      * specialize (W4 eq_refl eq_refl). set (took := Nat.min _ _). assert (Ht : (0 < took <= length u)%nat) by (unfold took; lia).
        set (s1 := on_n _ s). assert (Hb : zlen (n_big (snd s1)) = zlen (n_big (snd s)) + Z.of_nat took).
        { unfold s1. cbn. rewrite zlen_app. f_equal. unfold zlen. rewrite length_take. lia. }
        destruct (Z.ltb_spec (zlen (n_big (snd s1))) (n_total (snd s) + 2)) as [Hc|Hc]; (eexists; split; [reflexivity|]); cbn [turn_state turn_took].
        { split_and!; [|done|lia]. constructor; cbn; [done|lia|lia|]. intros _ _. unfold s1 in Hc. cbn in Hc. lia. }
        assert (Wx : nwf_upto 1 s1) by (constructor; cbn; [done|lia|lia|]; intros _ _; unfold took; rewrite zlen_app; unfold zlen in *; rewrite length_take; lia).
        split_and!; [|exact (deliver_conn _ s1 Wx)|lia|lia].
        destruct (deliver_nats (take (Z.to_nat (n_total (snd s))) (n_big (snd s1))) s1 Wx) as [[A B C D] _]. by constructor.
      * destruct (Z.ltb_spec (Z.of_nat (length u)) (n_total (snd s) + 2)) as [Hc|Hc]; (eexists; split; [reflexivity|]); cbn [turn_state turn_took]; [split_and!; [done|done|lia]|].
        destruct (n_valid (snd s)).
        -- split_and!; [apply to_line_nwf; by apply deliver_nats|exact (deliver_conn _ s W)|lia|lia].
        -- split_and!; [by apply to_line_nwf|done|lia|lia].
    + set (took := Nat.min _ _). set (s1 := on_n _ s).
      assert (Wx : nwf s1) by (constructor; cbn; [done|done|lia|intros _; by apply W4]).
      destruct (negb _); (eexists; split; [reflexivity|]); cbn [turn_state turn_took]; split_and!; try done; try lia. by apply to_line_nwf.
Qed.

(** The stream as the link of [s] reads it. *)
Definition events_in (s : nst) (ready : bool) (u : bytes) : list nats_ev := stream_events (fst s).(k_in_size) (snd s).(n_payload_max) ready u.

Lemma held_events h t s msg : holds h t s ->
  (if (snd s).(n_valid) then events_of (snd s).(n_kind) (snd s).(n_rid) (snd s).(n_index) (snd s).(n_hdr) msg else [])
  = msg_events (fst s).(k_in_size) (snd s).(n_payload_max) h msg.
Proof.
  intros (_ & _ & Eh & Ev & Er & _). rewrite Ev, Eh. unfold msg_events. destruct (accept _ _ h) as [r|] eqn:Ea; cbn; [|done].
  destruct (Er r eq_refl) as (-> & -> & Hr). destruct (ro_kind r) eqn:Ek.
  2,3: unfold events_of; rewrite !(bool_decide_eq_false_2 (_ = KIND_VERDICT)) by done; by rewrite !andb_false_r.
  assert (Hs : is_Some (ro_rid r)).
  { unfold accept in Ea. destruct (ngx_http_waf_nats_route (hd_sid h) (hd_subject h)) as [r'|] eqn:Eo; [|done]. cbn in Ea.
    destruct (_ || _); [|done]. injection Ea as ->. by eapply route_rid. }
  destruct Hs as [rid Hs]. by rewrite (Hr rid Hs), Hs.
Qed.

(** Delivering the message that is held, and going back to lines. *)
Lemma deliver_told {sl} msg s (f : nats_t -> nats_t) :
  nwf_upto sl s -> (forall n, core (f n) <| n_collect := false |> <| n_big := [] |> <| n_state := ST_LINE |> = core n <| n_collect := false |> <| n_big := [] |> <| n_state := ST_LINE |>) ->
  let s' := on_n f (ngx_http_waf_nats_deliver msg s) in
  (fst s').(k_conn) = true ->
  told (events_of (snd s).(n_kind) (snd s).(n_rid) (snd s).(n_index) (snd s).(n_hdr) msg) (fst s).(k_ready) s s'.
Proof.
  intros W Hf s' Hk. destruct (deliver_nats msg s W) as [_ [F|F]]; [|unfold s' in Hk; cbn in Hk; congruence].
  destruct (told_alike _ _ _ _ _ (told_logged _ s) F) as [A B C D E].
  pose proof (Hf (snd (ngx_http_waf_nats_deliver msg s))) as G.
  constructor; cbn; [done|rewrite <- B; exact (f_equal n_payload_max G)|intros Hm; rewrite <- (C Hm); exact (f_equal n_mem G)|done|rewrite <- E; exact (f_equal n_log G)].
Qed.

(** What a turn that ends in a connected link has done with the stream. *)
Definition turn_reads (r u : bytes) (s : nst) (t : turn_r nst) : Prop :=
  match t with
  | TURN_GO m s' => exists evs r', told evs (fst s').(k_ready) s s' /\ mid r' (drop m u) s' /\
      forall d, events_in s (fst s).(k_ready) (r ++ d) = evs ++ events_in s (fst s').(k_ready) (r' ++ d)
  | TURN_STOP m s' => told [] (fst s).(k_ready) s s' /\ mid r (drop m u) s' /\ stuck (drop m u) s'
  | TURN_FAIL _ _ => True
  end.

(** Within a message, [t0] of it taken off the buffer and [u] in it. *)
Definition in_msg (r u : bytes) (s : nst) (i : nat) (h : header_t) (t0 : bytes) : Prop :=
  ngx_strlchr r 10 = Some i /\ read_line (fst s).(k_ready) (line_at r i) = LINE_MSG h /\ drop (S i) r = t0 ++ u /\
  0 <= zlen t0 < hd_total h + 2 /\ 0 <= hd_total h /\ holds h t0 s.

Lemma msg_done r u s i h t0 m s' : in_msg r u s i h t0 -> Z.of_nat m = hd_total h + 2 - zlen t0 -> (m <= length u)%nat -> (snd s').(n_state) = ST_LINE ->
  told (msg_events (fst s).(k_in_size) (snd s).(n_payload_max) h (take (Z.to_nat (hd_total h)) (t0 ++ u))) (fst s).(k_ready) s s' ->
  turn_reads r u s (TURN_GO m s').
Proof.
  intros (Ei & El & Erest & Ht & Htot & Hh) Em Hmu Hs T. unfold turn_reads. rewrite (to_ready _ _ _ _ T). eexists _, _. split; [exact T|]. split; [unfold mid; rewrite Hs; reflexivity|].
  intros d. unfold events_in. unfold zlen in *. rewrite (stream_msg _ _ _ r d i h Ei El).
  - rewrite Erest. f_equal. f_equal. f_equal. rewrite drop_app_ge by lia. f_equal. lia.
  - rewrite Erest, length_app. lia.
  - done.
Qed.

Lemma msg_goes_on r u s i h t0 t1 m s' : in_msg r u s i h t0 -> drop (S i) r = t1 ++ drop m u -> zlen t1 < hd_total h + 2 -> told [] (fst s).(k_ready) s s' -> holds h t1 s' ->
  mid r (drop m u) s'.
Proof.
  intros (Ei & El & Erest & Ht & Htot & Hh) A B T D. unfold mid. pose proof D as (-> & _). exists i, h, t1. rewrite (to_ready _ _ _ _ T).
  split_and!; try done. apply zlen_nonneg.
Qed.

Lemma buffered_mid r u s i h t0 t : nwf s -> (snd s).(n_state) = ST_PAYLOAD -> in_msg r u s i h t0 -> hd_total h + 2 <= Z.of_nat (fst s).(k_in_size) -> nats_turn u s = Some t -> (fst (turn_state t)).(k_conn) = true -> turn_reads r u s t.
Proof.
  intros W St M Hf Et Hk. pose proof M as (Ei & El & Erest & Ht & Htot & Hh). unfold nats_turn in Et. rewrite St in Et. pose proof Hh as (_ & H1 & H2 & H3 & H4 & H5). rewrite (proj2 (Z.leb_le _ _) Hf) in H5.
  destruct H5 as (H5 & H6 & H7). subst t0. rewrite H5, H6 in Et. cbn [negb Z.eqb] in Et. rewrite H1 in Et. change (zlen []) with 0 in *.
  destruct (Z.ltb_spec (Z.of_nat (length u)) (hd_total h + 2)) as [Hc|Hc]; simplify_eq.
  - cbn [turn_reads]. rewrite drop_0. assert (T : told [] (k_ready (fst s)) s s) by (constructor; try done; by rewrite app_nil_r).
    split_and!; [done| |].
    { apply (msg_goes_on _ _ _ _ _ _ [] 0%nat s M); [by rewrite Erest, drop_0|change (zlen []) with 0; lia|done|done]. }
    unfold stuck. rewrite St, H1. right. unfold zlen. lia.
  - eapply msg_done; [exact M|change (zlen []) with 0; lia|lia|by destruct (n_valid (snd s))|]. cbn [app]. rewrite <- (held_events h [] s _ Hh). cbn [turn_state] in Hk.
    destruct (n_valid (snd s)); [pose (f := fun n : nats_t => n <| n_state := ST_LINE |>); exact (deliver_told _ s f W (fun _ => eq_refl) Hk)|]. constructor; try done. by rewrite app_nil_r.
Qed.

Lemma collected_mid r u s i h t0 t : nwf s -> (snd s).(n_state) = ST_PAYLOAD -> in_msg r u s i h t0 -> Z.of_nat (fst s).(k_in_size) < hd_total h + 2 -> (snd s).(n_valid) = true -> nats_turn u s = Some t ->
  (fst (turn_state t)).(k_conn) = true -> turn_reads r u s t.
Proof.
  intros W St M Hf Ev Et Hk. pose proof M as (Ei & El & Erest & Ht & Htot & Hh). unfold nats_turn in Et. rewrite St in Et. pose proof Hh as (_ & H1 & H2 & H3 & H4 & H5). rewrite (proj2 (Z.leb_gt _ _) Hf), Ev in H5.
  destruct H5 as (H5 & H6 & H7). rewrite H5, H6, H7, H1 in Et. cbn [negb Z.eqb] in Et. set (took := Nat.min _ _) in Et. set (s1 := on_n _ s) in Et.
  assert (Hb : n_big (snd s1) = t0 ++ take took u) by (unfold s1; cbn; by rewrite H7).
  assert (Hl : zlen (take took u) = Z.of_nat took) by (unfold zlen; rewrite length_take; unfold took; lia).
  assert (T1 : told [] (k_ready (fst s)) s s1) by (constructor; try done; by rewrite app_nil_r).
  assert (Hh1 : holds h (t0 ++ take took u) s1).
  { unfold holds. unfold s1. cbn. rewrite H1, H2, H3, H5, H6, H7, St. rewrite <- H3, Ev. destruct (Z.leb_spec (hd_total h + 2) (Z.of_nat (k_in_size (fst s)))); [lia|]. by split_and!. }
  rewrite Hb in Et. destruct (Z.ltb_spec (zlen (t0 ++ take took u)) (hd_total h + 2)) as [Hc|Hc]; injection Et as <-; cbn [turn_state] in Hk.
  - assert (Hd : drop took u = []) by (apply drop_ge; rewrite zlen_app, Hl in Hc; unfold took, zlen in *; lia).
     cbn [turn_reads]. split_and!; [done| |unfold stuck; change (n_state (snd s1)) with (n_state (snd s)); rewrite St; by left].
     apply (msg_goes_on _ _ _ _ _ _ (t0 ++ take took u) _ _ M); [|done|done|done]. by rewrite Erest, <- app_assoc, take_drop.
  - rewrite zlen_app, Hl in Hc. eapply msg_done; [exact M|unfold took, zlen in *; lia|unfold took; lia|done|].
     assert (Hsl : nwf_upto 1 s1).
     { destruct W as [W1 W2 W3 W4]. constructor; cbn; [done|lia|lia|]. intros _ _. rewrite H7, zlen_app, Hl. specialize (W4 St H6). rewrite H1, H7 in *.
       unfold took, zlen in *. lia. }
     pose (f := fun n : nats_t => n <| n_collect := false |> <| n_big := [] |> <| n_state := ST_LINE |>).
     pose proof (deliver_told (take (Z.to_nat (hd_total h)) (t0 ++ take took u)) s1 f Hsl (fun _ => eq_refl) Hk) as T2.
     pose proof (told_trans _ _ _ _ _ _ _ T1 T2) as T3. cbn [app] in T3.
     change (k_ready (fst s1)) with (k_ready (fst s)) in T3.
     pose proof (held_events h _ s1 (take (Z.to_nat (hd_total h)) (t0 ++ take took u)) Hh1) as Hev.
     change (n_valid (snd s1)) with (n_valid (snd s)) in Hev. rewrite Ev in Hev. rewrite Hev in T3.
     change (k_in_size (fst s1)) with (k_in_size (fst s)) in T3. change (n_payload_max (snd s1)) with (n_payload_max (snd s)) in T3.
     replace (take (Z.to_nat (hd_total h)) (t0 ++ u)) with (take (Z.to_nat (hd_total h)) (t0 ++ take took u)); [exact T3|].
     unfold zlen in *. rewrite <- (take_drop took u) at 2. rewrite (app_assoc t0), (take_app_le (t0 ++ take took u)); [done|]. rewrite length_app. lia.
Qed.

Lemma skipped_mid r u s i h t0 t : nwf s -> (snd s).(n_state) = ST_PAYLOAD -> in_msg r u s i h t0 -> Z.of_nat (fst s).(k_in_size) < hd_total h + 2 -> (snd s).(n_valid) = false -> nats_turn u s = Some t ->
  (fst (turn_state t)).(k_conn) = true -> turn_reads r u s t.
Proof.
  intros W St M Hf Ev Et Hk. pose proof M as (Ei & El & Erest & Ht & Htot & Hh). unfold nats_turn in Et. rewrite St in Et. pose proof Hh as (_ & H1 & H2 & H3 & H4 & H5). rewrite (proj2 (Z.leb_gt _ _) Hf), Ev in H5.
  rewrite H5 in Et. destruct (Z.eqb_spec (hd_total h + 2 - zlen t0) 0) as [Hz|Hz]; [lia|]. cbn [negb] in Et.
  set (took := Nat.min _ _) in Et. set (s1 := on_n _ s) in Et.
  assert (Hsk : n_skip (snd s1) = hd_total h + 2 - zlen t0 - Z.of_nat took) by (unfold s1; cbn; by rewrite H5).
  assert (Hl : zlen (take took u) = Z.of_nat took) by (unfold zlen; rewrite length_take; unfold took; lia).
  assert (T1 : told [] (k_ready (fst s)) s s1) by (constructor; try done; by rewrite app_nil_r).
  rewrite Hsk in Et. destruct (Z.eqb_spec (hd_total h + 2 - zlen t0 - Z.of_nat took) 0) as [Hc|Hc]; cbn [negb] in Et; injection Et as <-; cbn [turn_state] in Hk.
  - eapply msg_done; [exact M|lia|unfold took; lia|done|]. rewrite <- (held_events h t0 s _ Hh), Ev.
     destruct T1 as [A B C D E]. by constructor.
  - assert (Hd : drop took u = []) by (apply drop_ge; unfold took, zlen in *; lia).
     cbn [turn_reads]. split_and!; [done| |unfold stuck; change (n_state (snd s1)) with (n_state (snd s)); rewrite St; by left].
     apply (msg_goes_on _ _ _ _ _ _ (t0 ++ take took u) _ _ M); [by rewrite Erest, <- app_assoc, take_drop|rewrite zlen_app, Hl; unfold took, zlen in *; lia|done|].
     unfold holds. cbn [fst snd]. change (fst s1) with (fst s). change (n_state (snd s1)) with (n_state (snd s)). change (n_valid (snd s1)) with (n_valid (snd s)).
     change (n_total (snd s1)) with (n_total (snd s)). change (n_hdr (snd s1)) with (n_hdr (snd s)). change (n_payload_max (snd s1)) with (n_payload_max (snd s)).
     split_and!; try done. destruct (Z.leb_spec (hd_total h + 2) (Z.of_nat (k_in_size (fst s)))); [lia|]. rewrite Ev, zlen_app, Hl. lia.
Qed.

Lemma turn_mid r u s t : nwf s -> (snd s).(n_mem) = [] -> u <> [] -> mid r u s -> nats_turn u s = Some t ->
  (fst (turn_state t)).(k_conn) = true -> turn_reads r u s t.
Proof.
  intros W Hm Hu Hr Et Hk. unfold mid in Hr. destruct (n_state (snd s)) eqn:St.
  - unfold nats_turn in Et. rewrite St in Et. subst r. destruct (ngx_strlchr u 10) as [i|] eqn:Ei.
    + destruct (line_spec (line_at u i) s W St) as (ok & s' & El & L1 & L2 & L3). rewrite El in Et. destruct ok; simplify_eq; [|done].
      cbn [turn_state] in Hk. specialize (L3 eq_refl Hk). cbn [turn_reads]. destruct (read_line (k_ready (fst s)) (line_at u i)) as [evs ready|h|] eqn:Er; [| |done].
      * destruct L3 as [L3 L4]. pose proof (to_ready _ _ _ _ L3) as <-. exists evs, (drop (S i) u). split; [done|]. split; [unfold mid; by rewrite L4|].
        intros d. by apply stream_line.
      * destruct L3 as (L3 & L4 & L5 & L6). rewrite (to_ready _ _ _ _ L3). exists [], u. split; [done|]. split; [|done].
        unfold mid. rewrite L5. exists i, h, []. split_and!; [done|by rewrite (to_ready _ _ _ _ L3)|done|done|change (zlen []) with 0; lia|done|by apply L6].
    + simplify_eq. cbn [turn_reads]. rewrite drop_0. split_and!; [constructor; try done; by rewrite app_nil_r|unfold mid; by rewrite St|unfold stuck; by rewrite St].
  - destruct Hr as (i & h & t0 & M). change (in_msg r u s i h t0) in M.
    destruct (Z.le_gt_cases (hd_total h + 2) (Z.of_nat (k_in_size (fst s)))); [by eapply buffered_mid|].
    destruct (n_valid (snd s)) eqn:Ev; [by eapply collected_mid|by eapply skipped_mid].
Qed.

Lemma stuck_events r u s : mid r u s -> stuck u s -> events_in s (fst s).(k_ready) r = [].
Proof.
  unfold mid, stuck. destruct (n_state (snd s)).
  - intros ->. intros Hn. apply stream_wait. by rewrite Hn.
  - intros (i & h & t & Ei & El & Er & Ht & Htot & Hh) Hu. apply stream_wait. rewrite Ei. exists h. split; [done|]. rewrite Er, length_app.
    destruct Hh as (_ & H1 & _ & _ & _ & H5). unfold zlen in *. destruct Hu as [->|Hu]; [cbn; lia|].
    rewrite H1 in Hu. destruct (Z.leb_spec (hd_total h + 2) (Z.of_nat (k_in_size (fst s)))); [|lia]. destruct H5 as (_ & _ & ->). cbn. lia.
Qed.

(** ** The whole parser *)

Lemma parse_mid fuel r u s e m s' : nwf s -> (snd s).(n_mem) = [] -> mid r u s -> feed_loop nats_turn fuel u s = Some (e, m, s') ->
  (fst s').(k_conn) = true -> e <> END_ERROR ->
  exists evs r', told evs (fst s').(k_ready) s s' /\ mid r' (drop m u) s' /\ stuck (drop m u) s' /\
    forall d, events_in s (fst s).(k_ready) (r ++ d) = evs ++ events_in s (fst s').(k_ready) (r' ++ d).
Proof.
  assert (Tr : forall s : nst, told [] (fst s).(k_ready) s s) by (intros s0; constructor; try done; by rewrite app_nil_r).
  revert r u s m. induction fuel as [|fuel IH]; intros r u s m W Hm Hr Hp Hk He.
  { destruct u; [|done]. cbn in Hp. simplify_eq. exists [], r. rewrite drop_0. split_and!; try done. unfold stuck. destruct (n_state _); [done|by left]. }
  destruct u as [|x u].
  { cbn in Hp. simplify_eq. exists [], r. rewrite drop_0. split_and!; try done. unfold stuck. destruct (n_state _); [done|by left]. }
  cbn [feed_loop] in Hp. destruct (turn_total (x :: u) s W ltac:(done)) as (t & Et & T1 & T2 & T3). rewrite Et in Hp. cbn [mbind option_bind] in Hp.
  destruct t as [m1 s1|m1 s1|m1 s1]; cbn [turn_state] in *.
  - simplify_eq. destruct (turn_mid r (x :: u) s _ W Hm ltac:(done) Hr Et Hk) as (U1 & U2 & U3). exists [], r.
    rewrite (to_ready _ _ _ _ U1). by split_and!.
  - destruct (feed_loop nats_turn fuel (drop m1 (x :: u)) s1) as [[[e2 m2] s2]|] eqn:El; [|done]. cbn [mbind option_bind] in Hp. simplify_eq.
    pose proof (parse_up nats_turn nwf (fun s => k_conn (fst s)) turn_total fuel _ s1 _ _ _ T1 El Hk) as Hk1. cbn beta in Hk1.
    destruct (turn_mid r (x :: u) s _ W Hm ltac:(done) Hr Et Hk1) as (evs1 & r1 & U1 & U2 & U3).
    destruct (IH r1 _ s1 m2 T1 (to_mem _ _ _ _ U1 Hm) U2 El Hk He) as (evs2 & r2 & V1 & V2 & V3 & V4).
    exists (evs1 ++ evs2), r2. rewrite <- drop_drop. split_and!; [by eapply told_trans|done|done|]. intros d. rewrite U3, <- app_assoc. f_equal.
    destruct U1 as [A B _ _ _]. unfold events_in in *. rewrite <- A, <- B. apply V4.
  - simplify_eq.
Qed.

End stream.

End NatsStream.
