(* ===== verification/NatsRun.v ===== *)
(** The bus in operation: reads of any sizes, interleaved with publishing,
    keep-alive and writes, tell the module what the stream of the server says;
    and what is published comes back to the request it was published for. *)
From S2P Require Import Prelude Types Slots ReplyText Select SelectFacts ApplyArgs Link LinkFacts Nats NatsFacts NatsStream.
Import Slots.Rid Select SelectFacts ApplyArgs Link LinkFacts Nats NatsFacts NatsStream.
#[local] Open Scope Z_scope.

Module NatsRun.

(** ** Events of the worker *)

(** What happens to an established connection: bytes arrive in pieces, the
    socket can be written, the timer of the keep-alive, and what the rest of
    the module sends. *)
Inductive act :=
  | ACT_READ (pieces : list bytes) (event : bool)
  | ACT_WRITE (sends : list send_r) (event : bool)
  | ACT_PING
  | ACT_PUBLISH (subject payload : bytes) (rid inspector : Z)
  | ACT_REQUEST (subject : bytes) (reply : option bytes) (payload : bytes).

Section run.
Context `{HL : NgxStringLaws}.
Context (sprintf_uz sprintf_02x : Z -> bytes) (inbox : bytes).

Definition nats_read := ngx_http_waf_link_read_handler ngx_http_waf_nats_on_close ngx_http_waf_nats_on_read.

Definition do_act (a : act) (b : inbuf) (s : nst) : option (inbuf * nst) :=
  match a with
  | ACT_READ pieces event => nats_read ((fun d _ => RECV d) <$> pieces) event b s
  | ACT_WRITE sends event => Some (b, ngx_http_waf_link_flush ngx_http_waf_nats_on_close sends event s)
  | ACT_PING => s ← ngx_http_waf_nats_on_ping s; Some (b, s)
  | ACT_PUBLISH subject payload rid inspector =>
      r ← ngx_http_waf_nats_publish sprintf_uz sprintf_02x inbox subject payload rid inspector s; Some (b, snd r)
  | ACT_REQUEST subject reply payload => r ← ngx_http_waf_nats_request sprintf_uz inbox subject reply payload s; Some (b, snd r)
  end.
Fixpoint do_acts (acts : list act) (b : inbuf) (s : nst) : option (inbuf * nst) :=
  match acts with
  | [] => Some (b, s)
  | a :: acts => r ← do_act a b s; do_acts acts (fst r) (snd r)
  end.

(** What was received. *)
Definition received (a : act) : bytes := match a with ACT_READ pieces _ => concat pieces | _ => [] end.

(** ** The invariant *)

(** From [s0] on the stream was [w]. *)
Record inv (s0 : nst) (w : bytes) (b : inbuf) (s : nst) : Prop := mkInv {
  iv_wf : nwf s;
  iv_pos : (b.(i_pos) <= length b.(i_data))%nat;
  iv_conn : (fst s).(k_conn) = true -> exists evs r, told evs (fst s).(k_ready) s0 s /\ mid r (unread b) s /\ stuck (unread b) s /\
    forall d, events_in s0 (fst s0).(k_ready) (w ++ d) = evs ++ events_in s0 (fst s).(k_ready) (r ++ d)
}.

Lemma inv_gone s0 w b s : nwf s -> (b.(i_pos) <= length b.(i_data))%nat -> (fst s).(k_conn) = false -> inv s0 w b s.
Proof. intros. constructor; [done|done|congruence]. Qed.

Lemma inv_alike s0 w b s s' : inv s0 w b s -> nwf s' -> alike s s' \/ (fst s').(k_conn) = false -> inv s0 w b s'.
Proof.
  intros [A B C] W [D|D]; [|by apply inv_gone]. constructor; [done|done|]. intros Hk.
  pose proof (alike_fields _ _ D) as (_ & F2 & F3 & _). destruct C as (evs & r & C1 & C2 & C3 & C4); [congruence|].
  exists evs, r. rewrite F2. split_and!; [by eapply told_alike|by eapply mid_alike|by eapply stuck_alike|done].
Qed.

Lemma inv_compact s0 w b s : inv s0 w b s -> inv s0 w (mkIn (unread b) 0) s.
Proof.
  intros [A B C]. constructor; [done|cbn; lia|]. change (unread (mkIn (unread b) 0)) with (drop 0 (unread b)). by rewrite drop_0.
Qed.

Lemma unread_app b d : (b.(i_pos) <= length b.(i_data))%nat -> unread (mkIn (b.(i_data) ++ d) b.(i_pos)) = unread b ++ d.
Proof. intros Hp. unfold unread. cbn. by rewrite drop_app_le. Qed.

Lemma inv_parse s0 w b s d : (snd s0).(n_mem) = [] -> inv s0 w b s ->
  exists ok b' s', ngx_http_waf_nats_on_read (mkIn (b.(i_data) ++ d) b.(i_pos)) s = Some (ok, b', s') /\ nwf s' /\
    (b'.(i_pos) <= length b'.(i_data))%nat /\ (ok = true -> inv s0 (w ++ d) b' s').
Proof.
  intros Hm0 [A B C]. unfold ngx_http_waf_nats_on_read, ngx_http_waf_nats_parse, feed_buffer. rewrite unread_app by done. set (u := unread b ++ d).
  destruct (parse_total nats_turn nwf (fun s => k_conn (fst s)) turn_total (length u) u s A (Nat.le_refl _)) as (e & m & s' & Ep & P1 & P2 & P3 & P4). rewrite Ep. cbn [mbind option_bind].
  assert (Hpos : (i_pos b + m <= length (i_data b ++ d))%nat).
  { unfold u, unread in P2. rewrite length_app, length_drop in P2. rewrite length_app. lia. }
  assert (Hun : unread (mkIn (i_data b ++ d) (i_pos b + m)) = drop m u).
  { unfold u. rewrite <- (unread_app b d B). unfold unread. cbn. by rewrite drop_drop. }
  assert (Hi : forall b', e <> END_ERROR -> (i_pos b' <= length (i_data b'))%nat -> unread b' = drop m u -> inv s0 (w ++ d) b' s').
  { intros b' He Hb' Hu'. constructor; [done|done|]. intros Hk. destruct (C (P3 Hk)) as (evs & r & C1 & C2 & _ & C4).
    destruct (parse_mid (length u) (r ++ d) u s e m s' A (to_mem _ _ _ _ C1 Hm0) (mid_app _ _ _ _ C2) Ep Hk He) as (evs2 & r2 & D1 & D2 & D3 & D4).
    exists (evs ++ evs2), r2. rewrite Hu'. split_and!; [by eapply told_trans|done|done|]. intros d'.
    rewrite <- app_assoc, C4, <- app_assoc. f_equal. rewrite app_assoc. destruct C1 as [E1 E2 _ _ _]. unfold events_in in *. rewrite <- E1, <- E2. apply D4. }
  destruct e; (eexists _, _, _; split; [reflexivity|]); (split; [done|]).
  - split; [cbn; lia|]. intros _. apply Hi; [done|cbn; lia|]. by rewrite P4.
  - split; [done|]. intros _. by apply Hi.
  - by split.
Qed.

Lemma inv_turn s0 w b s d : (snd s0).(n_mem) = [] -> inv s0 w b s ->
  exists how b' s', read_turn ngx_http_waf_nats_on_close ngx_http_waf_nats_on_read (fun _ => RECV d) b s = Some (how, b', s') /\
    match how with READ_MORE => inv s0 (w ++ d) b' s' | READ_BREAK => False | READ_RETURN => forall w', inv s0 w' b' s' end.
Proof.
  intros Hm0 I. pose proof I as [A B C]. unfold read_turn.
  assert (Hd : forall b' s', nwf s' -> (i_pos b' <= length (i_data b'))%nat -> forall w', inv s0 w' b' (nats_drop s')).
  { intros b' s' W' P' w'. apply inv_gone; [by apply drop_nwf|done|apply drop_conn]. }
  destruct (_ && _); [eexists _, _, _; split; [reflexivity|]; intros w'; by apply Hd|].
  set (b1 := if Nat.eqb _ _ then _ else b). assert (I1 : inv s0 w b1 s) by (unfold b1; destruct (Nat.eqb _ _); [by apply inv_compact|done]).
  destruct (inv_parse s0 w b1 s d Hm0 I1) as (ok & b2 & s2 & -> & J1 & J2 & J3). cbn [mbind option_bind].
  destruct (k_conn (fst s2)) eqn:Ek; cbn [negb].
  - destruct ok; cbn [negb]; (eexists _, _, _; split; [reflexivity|]); [by apply J3|intros w'; by apply Hd].
  - eexists _, _, _. split; [reflexivity|]. intros w'. by apply inv_gone.
Qed.

Lemma inv_read s0 w b s pieces event : (snd s0).(n_mem) = [] -> inv s0 w b s ->
  exists b' s', nats_read ((fun d _ => RECV d) <$> pieces) event b s = Some (b', s') /\ inv s0 (w ++ concat pieces) b' s'.
Proof.
  intros Hm0. revert w b s. induction pieces as [|d pieces IH]; intros w b s I.
  - rewrite app_nil_r. unfold nats_read. cbn [fmap list_fmap ngx_http_waf_link_read_handler]. pose proof I as [A B C]. unfold read_turn.
    assert (Hd : forall b', (i_pos b' <= length (i_data b'))%nat -> inv s0 w b' (nats_drop s)).
    { intros b' P'. apply inv_gone; [by apply drop_nwf|done|apply drop_conn]. }
    destruct (_ && _); cbn [mbind option_bind]; [eexists _, _; split; [reflexivity|]; by apply Hd|].
    set (b1 := if Nat.eqb _ _ then _ else b). assert (I1 : inv s0 w b1 s) by (unfold b1; destruct (Nat.eqb _ _); [by apply inv_compact|done]).
    eexists _, _. split; [reflexivity|]. destruct event; [done|]. apply Hd. apply I1.
  - unfold nats_read. cbn [fmap list_fmap ngx_http_waf_link_read_handler].
    destruct (inv_turn s0 w b s d Hm0 I) as (how & b' & s' & -> & J). cbn [mbind option_bind]. destruct how; [|done|].
    + destruct (IH (w ++ d) b' s' J) as (b2 & s2 & E & J2). unfold nats_read in E. exists b2, s2. split; [exact E|]. cbn [concat]. by rewrite app_assoc.
    + exists b', s'. split; [done|]. apply J.
Qed.

(** ** What is sent leaves the parser alone *)

Lemma write_spec sends event s : nwf s -> let s' := ngx_http_waf_link_flush ngx_http_waf_nats_on_close sends event s in
  nwf s' /\ (alike s s' \/ (fst s').(k_conn) = false).
Proof.
  intros W. cbn zeta. destruct (flush_spec ngx_http_waf_nats_on_close sends event s (nw_out _ _ W)) as [F1 [[F2 F3]|[F2 F3]]].
  - split; [|left; split; [done|by rewrite F2]]. eapply nwf_regs; [exact W|done|..]; rewrite F2; auto.
  - split; [|by right]. eapply nwf_regs; [exact W|done|..]; rewrite F3; unfold ngx_http_waf_nats_on_close; destruct (k_ready (fst s)); cbn; auto.
Qed.

(** A flush after the link got more to send. *)
Lemma flush_after k s n : nwf s -> out_wf k -> rest_out k = rest_out (fst s) -> core n = core (snd s) -> 
  nwf (nats_flush (k, n)) /\ (alike s (nats_flush (k, n)) \/ (fst (nats_flush (k, n))).(k_conn) = false).
Proof.
  intros W Hk Hr Hn. assert (W1 : nwf (k, n)).
  { eapply nwf_regs; [exact W|exact Hk|exact (f_equal n_total Hn)|left; exact (f_equal n_skip Hn)|right].
    split_and!; [exact (f_equal n_state Hn)|exact (f_equal n_collect Hn)|exact (f_equal n_big Hn)|exact (f_equal n_big_size Hn)]. }
  destruct (flush_nats (k, n) W1) as [W2 [F|F]]; (split; [done|]); [left|by right]. eapply alike_trans; [|exact F]. by split.
Qed.

Lemma ping_spec s : nwf s -> exists s', ngx_http_waf_nats_on_ping s = Some s' /\ nwf s' /\ (alike s s' \/ (fst s').(k_conn) = false).
Proof.
  intros W. unfold ngx_http_waf_nats_on_ping. destruct s as [k n]. destruct (negb (k_ready k)); [exists (k, n); split_and!; [done|done|by left; split]|].
  destruct (_ <=? _); [exists (nats_drop (k, n)); split_and!; [done|by apply drop_nwf|right; apply drop_conn]|].
  destruct (link_out_spec (lit "PING" ++ [13; 10]) k (nw_out _ _ W)) as (ok & k1 & -> & K1 & K2 & _). cbn [mbind option_bind snd].
  set (n1 := n <| n_pings ::= _ |>). destruct (flush_after k1 (k, n) n1 W K1 K2 eq_refl) as [W2 F2].
  eexists. split; [reflexivity|]. split; [eapply nwf_regs; [exact W2|exact (nw_out _ _ W2)|..]; cbn; auto|]. destruct F2 as [F2|F2]; [left|by right].
  eapply alike_trans; [exact F2|by split].
Qed.

Lemma pub_spec subject reply payload s : nwf s ->
  exists rc s', ngx_http_waf_nats_pub sprintf_uz inbox subject reply payload s = Some (rc, s') /\ nwf s' /\ (alike s s' \/ (fst s').(k_conn) = false).
Proof.
  intros W. unfold ngx_http_waf_nats_pub. set (len := match reply with Some r => _ | None => _ end).
  assert (Hlen : 0 <= len) by (unfold len, NGX_SIZE_T_LEN; pose proof (zlen_nonneg subject); pose proof (zlen_nonneg inbox); destruct reply as [r|]; [pose proof (zlen_nonneg r)|]; lia).
  clearbody len. destruct (_ <? len); [exists NGX_DECLINED, s; split_and!; [done|done|by left; split]|].
  destruct (reserve_spec (len + zlen payload + 2) (fst s) (nw_out _ _ W)) as (ok & k & -> & K1 & K2 & _ & K4); [pose proof (zlen_nonneg payload); lia|].
  cbn [mbind option_bind]. destruct ok; cbn [negb]; (eexists _, _; split; [reflexivity|]).
  - specialize (K4 eq_refl). set (line := take (Z.to_nat len) _).
    assert (Hline : zlen line <= len) by (unfold zlen, line; rewrite length_take; lia). clearbody line. apply flush_after; [done| |done|done]. destruct K1 as (K1 & K1' & K1''). unfold out_wf. cbn.
    rewrite !zlen_app, !length_app. change (zlen [13; 10]) with 2. lia.
  - split; [|left; by split]. eapply nwf_regs; [exact W|exact K1|..]; cbn; auto.
Qed.

Lemma inv_act s0 w b s a : (snd s0).(n_mem) = [] -> inv s0 w b s ->
  exists b' s', do_act a b s = Some (b', s') /\ inv s0 (w ++ received a) b' s'.
Proof.
  intros Hm0 I. pose proof I as [W _ _]. destruct a as [pieces event|sends event| |subject payload rid inspector|subject reply payload]; cbn [do_act received];
    rewrite ?app_nil_r.
  - by apply inv_read.
  - destruct (write_spec sends event s W) as [W1 F1]. eexists _, _. split; [reflexivity|]. by eapply inv_alike.
  - destruct (ping_spec s W) as (s' & -> & W1 & F1). eexists _, _. split; [reflexivity|]. by eapply inv_alike.
  - unfold ngx_http_waf_nats_publish. destruct (negb _); [by exists b, s|]. destruct (_ <? _); [by exists b, s|].
    destruct (pub_spec subject (Some (reply_subject sprintf_02x rid inspector)) payload s W) as (rc & s' & -> & W1 & F1).
    eexists _, _. split; [reflexivity|]. by eapply inv_alike.
  - unfold ngx_http_waf_nats_request. destruct (negb _); [by exists b, s|].
    destruct (pub_spec subject reply payload s W) as (rc & s' & -> & W1 & F1). eexists _, _. split; [reflexivity|]. by eapply inv_alike.
Qed.

Lemma inv_acts s0 w b s acts : (snd s0).(n_mem) = [] -> inv s0 w b s ->
  exists b' s', do_acts acts b s = Some (b', s') /\ inv s0 (w ++ concat (received <$> acts)) b' s'.
Proof.
  intros Hm0. revert w b s. induction acts as [|a acts IH]; intros w b s I; cbn [do_acts fmap list_fmap concat].
  - exists b, s. by rewrite app_nil_r.
  - destruct (inv_act s0 w b s a Hm0 I) as (b1 & s1 & -> & I1). cbn [mbind option_bind fst snd].
    destruct (IH (w ++ received a) b1 s1 I1) as (b2 & s2 & -> & I2). exists b2, s2. split; [done|]. by rewrite app_assoc.
Qed.

(** A connection as it is once established. *)
Record nats_fresh (s : nst) : Prop := mkFresh {
  fr_out : out_wf (fst s);
  fr_total : 0 <= (snd s).(n_total);
  fr_skip : 0 <= (snd s).(n_skip);
  fr_state : (snd s).(n_state) = ST_LINE;
  fr_mem : (snd s).(n_mem) = []
}.
Lemma fresh_inv s : nats_fresh s -> inv s [] (mkIn [] 0) s.
Proof.
  intros [A B C D E]. constructor; [by constructor; rewrite ?D|cbn; lia|]. intros _. exists [], []. split_and!.
  - constructor; try done. by rewrite app_nil_r.
  - unfold mid. by rewrite D.
  - unfold stuck. by rewrite D.
  - done.
Qed.

Lemma acts_exact acts s : nats_fresh s ->
  exists b s', do_acts acts (mkIn [] 0) s = Some (b, s') /\
    ((fst s').(k_conn) = true ->
     (snd s').(n_log) = (snd s).(n_log) ++ stream_events (fst s).(k_in_size) (snd s).(n_payload_max) (fst s).(k_ready) (concat (received <$> acts))).
Proof.
  intros F. destruct (inv_acts s [] (mkIn [] 0) s acts (fr_mem _ F) (fresh_inv s F)) as (b & s' & -> & [_ _ I]). exists b, s'. split; [done|].
  intros Hk. destruct (I Hk) as (evs & r & T & M & S & E). rewrite (to_log _ _ _ _ T). f_equal. specialize (E []). rewrite !app_nil_r in E.
  cbn [app] in E. unfold events_in in E. rewrite E. pose proof (stuck_events _ _ _ M S) as G. unfold events_in in G.
  rewrite (to_in _ _ _ _ T), (to_max _ _ _ _ T) in G. by rewrite G, app_nil_r.
Qed.

(** C10: the refinement of the stream by the bounded buffer: whatever the
    pieces in which the bytes arrive, and whatever is published, answered,
    pinged and flushed in between, no operation of the bus fails to return,
    and while the connection holds the calls into the rest of the module are
    those that reading the concatenated stream line by line and message by
    message gives — each message once, in order, to the request, dataset or
    stream its subject names, nothing lost to a boundary or to the compaction
    of the buffer. *)
Theorem nats_stream_exact acts s : nats_fresh s ->
  exists b s', do_acts acts (mkIn [] 0) s = Some (b, s') /\
    ((fst s').(k_conn) = true ->
     (snd s').(n_log) = (snd s).(n_log) ++ stream_events (fst s).(k_in_size) (snd s).(n_payload_max) (fst s).(k_ready) (concat (received <$> acts))).
Proof. apply acts_exact. Qed.

Lemma more_conn b s d b' s' : read_turn ngx_http_waf_nats_on_close ngx_http_waf_nats_on_read (fun _ => RECV d) b s = Some (READ_MORE, b', s') ->
  (fst s').(k_conn) = true.
Proof.
  unfold read_turn. destruct (_ && _); [done|]. destruct (ngx_http_waf_nats_on_read _ s) as [[[ok b1] s1]|]; [|done]. cbn [mbind option_bind].
  destruct (k_conn (fst s1)) eqn:Ek; [|done]. destruct ok; [|done]. cbn. congruence.
Qed.

(** The input buffer is given up as too small only for a line: after any
    sequence of operations on the bus and one more piece read, a buffer that is
    full with nothing taken off it, for which the next read gives up the
    connection, is one in which the parser waits for the end of a line that has
    not come; a message, of any size, never fills it. *)
Theorem nats_full_is_line acts s b s1 d b' s' : nats_fresh s -> (0 < (fst s).(k_in_size))%nat ->
  do_acts acts (mkIn [] 0) s = Some (b, s1) ->
  read_turn ngx_http_waf_nats_on_close ngx_http_waf_nats_on_read (fun _ => RECV d) b s1 = Some (READ_MORE, b', s') ->
  length b'.(i_data) = (fst s').(k_in_size) -> b'.(i_pos) = 0%nat ->
  (snd s').(n_state) = ST_LINE /\ (10 ∉ b'.(i_data)).
Proof.
  intros F Hs Ha Ht Hl Hp. destruct (inv_acts s [] (mkIn [] 0) s acts (fr_mem _ F) (fresh_inv s F)) as (b1 & s2 & E & I).
  rewrite E in Ha. injection Ha as -> ->. pose proof (more_conn _ _ _ _ _ Ht) as Hk.
  destruct (inv_turn s _ b s1 d (fr_mem _ F) I) as (how & b2 & s2 & E2 & J). rewrite E2 in Ht. injection Ht as -> -> ->.
  destruct J as [_ _ J]. destruct (J Hk) as (evs & r & T & M & S & _). pose proof (to_in _ _ _ _ T) as Hi.
  unfold unread in *. rewrite Hp, drop_0 in *. unfold stuck in S. destruct (n_state (snd s')).
  - split; [done|]. by apply strlchr_absent.
  - exfalso. destruct S as [S|S]; [rewrite S in Hl; cbn in Hl; lia|]. unfold zlen in S. lia.
Qed.

End run.

End NatsRun.
