(* ===== verification/NatsReply.v ===== *)
(** Request and reply over the bus: the subject that a request is published
    with brings the answer back to that request and that inspector, and the
    text that is published is what a server reads. *)
From S2P Require Import Prelude Types Slots Json JsonTrip ReplyText Reply ReplyFacts Select SelectFacts ApplyArgs Link LinkFacts Nats NatsFacts NatsStream NatsRun.
Import Slots.Rid ReplyFacts Select SelectFacts ApplyArgs Link LinkFacts Nats NatsFacts NatsStream NatsRun.
#[local] Open Scope Z_scope.

(** What nginx documents of [ngx_sprintf] with ["%uz"] and ["%02xi"]: decimal
    digits that [ngx_atoi] reads, and hexadecimal digits that [ngx_hextoi]
    reads. *)
Class NgxPrint `{NgxString} (sprintf_uz sprintf_02x : Z -> bytes) : Prop := {
  uz_digits n : 0 <= n < 2 ^ 63 -> Forall (fun c => digit c = true) (sprintf_uz n) /\ sprintf_uz n <> [];
  uz_atoi n : 0 <= n < 2 ^ 63 -> ngx_atoi (sprintf_uz n) = Some n;
  uz_len n : 0 <= n < 2 ^ 63 -> zlen (sprintf_uz n) <= NGX_SIZE_T_LEN;
  x02_digits n : 0 <= n < 256 -> Forall (fun c => is_Some (xdigit c)) (sprintf_02x n);
  x02_hextoi n : 0 <= n < 256 -> ngx_hextoi (sprintf_02x n) = Some n
}.

Module NatsReply.

(** A word: no space, tab or line end. *)
Definition word (s : bytes) : Prop := Forall (fun c => is_space c = false /\ c <> 10) s.

Lemma word_app a b : word a -> word b -> word (a ++ b).
Proof. apply Forall_app_2. Qed.

Lemma span_word t rest : word t -> head rest = Some 32 \/ rest = [] -> span_token (t ++ rest) = (t, rest).
Proof.
  intros Ht Hr. induction Ht as [|c t [Hc _] Ht IH]; cbn [app span_token].
  - destruct rest as [|x rest]; [done|]. destruct Hr as [Hr|Hr]; [|done]. cbn in Hr. injection Hr as ->. done.
  - by rewrite Hc, IH.
Qed.
Lemma token_word t rest : word t -> t <> [] -> head rest = Some 32 \/ rest = [] -> ngx_http_waf_nats_token (t ++ rest) = Some (t, rest).
Proof.
  intros Ht Hn Hr. unfold ngx_http_waf_nats_token. rewrite <- (span_word t rest Ht Hr).
  destruct Ht as [|c t [Hc _] Ht]; [done|]. cbn [app skip_spaces]. by rewrite Hc.
Qed.
Lemma tokens_word n t rest : word t -> t <> [] -> head rest = Some 32 \/ rest = [] ->
  tokens (S n) (t ++ rest) = t :: tokens n rest.
Proof. intros. cbn [tokens]. by rewrite token_word. Qed.
Lemma tokens_space n s : tokens n (32 :: s) = tokens n s.
Proof. by destruct n. Qed.

Lemma tokens_last n t : word t -> t <> [] -> tokens (S n) t = [t].
Proof. intros Ht Hn. rewrite <- (app_nil_r t) at 1. rewrite tokens_word by auto. by destruct n. Qed.

Lemma last_dot_app a t : Forall (fun c => c <> 46) t -> last_dot (a ++ 46 :: t) = Some (a, t).
Proof.
  intros Ht. assert (Hn : last_dot t = None).
  { induction Ht as [|c t Hc Ht IH]; [done|]. cbn. rewrite IH. by rewrite (proj2 (Z.eqb_neq _ _) Hc). }
  induction a as [|c a IH]; cbn; [by rewrite Hn|by rewrite IH].
Qed.

Lemma hex64_digits v : Forall (fun c => is_Some (xdigit c)) (ngx_http_waf_hex64 v).
Proof.
  unfold ngx_http_waf_hex64. assert (G : forall n v dst, Forall (fun c => is_Some (xdigit c)) dst -> Forall (fun c => is_Some (xdigit c)) (hex64_loop n v dst)).
  { induction n as [|n IH]; intros w dst Hd; cbn; [done|]. apply IH. constructor; [|done].
    assert (Hl : 0 <= Z.land w 15 < 16) by (change 15 with (Z.ones 4); rewrite Z.land_ones by lia; apply Z.mod_pos_bound; lia).
    revert Hl. generalize (Z.land w 15). clear. intros z Hz.
    assert (G : Forall (fun z => is_Some (xdigit (hex_digit z))) (seqZ 0 16)) by (vm_compute; repeat constructor; eauto).
    rewrite Forall_forall in G. apply G. apply elem_of_seqZ. lia. }
  by apply G.
Qed.

Lemma xdigit_plain c : is_Some (xdigit c) -> is_space c = false /\ c <> 10 /\ c <> 46.
Proof.
  unfold xdigit, digit, lower, is_space. intros [x Hx]. destruct ((48 <=? c) && (c <=? 57)) eqn:E1; [lia|].
  destruct ((65 <=? c) && (c <=? 90)) eqn:E2; [lia|]. destruct ((97 <=? c) && (c <=? 102)) eqn:E3; [lia|done].
Qed.
Lemma xdigits_word s : Forall (fun c => is_Some (xdigit c)) s -> word s /\ Forall (fun c => c <> 46) s.
Proof. intros Hs. split; (eapply Forall_impl; [exact Hs|]); intros c Hc; apply xdigit_plain in Hc; tauto. Qed.
Lemma digits_word s : Forall (fun c => digit c = true) s -> word s.
Proof. intros Hs. eapply Forall_impl; [exact Hs|]. intros c Hc. unfold digit in Hc. unfold is_space. lia. Qed.

Section reply.
Context `{HL : NgxStringLaws} (sprintf_uz sprintf_02x : Z -> bytes) `{HP : !NgxPrint sprintf_uz sprintf_02x}.
Context (inbox : bytes) (Hinbox : word inbox).

(** The subject of an answer. *)
Definition answer_subject (rid inspector : Z) : bytes := inbox ++ lit "." ++ reply_subject sprintf_02x rid inspector.

Lemma answer_word rid inspector : 0 <= inspector < 256 -> word (answer_subject rid inspector) /\ answer_subject rid inspector <> [].
Proof.
  intros Hi. unfold answer_subject, reply_subject. split; [|by destruct inbox].
  repeat apply word_app; [done|by repeat constructor|by repeat constructor|apply xdigits_word, hex64_digits|by repeat constructor|].
  by apply xdigits_word, x02_digits.
Qed.

Lemma route_back rid inspector : is_u64 rid -> 0 <= inspector < NGX_HTTP_WAF_MAX_INSPECTORS ->
  ngx_http_waf_nats_route (lit "1") (answer_subject rid inspector) = Some (mkRoute KIND_VERDICT inspector (Some rid)).
Proof.
  intros Hr Hi. unfold NGX_HTTP_WAF_MAX_INSPECTORS in Hi. change (lit "1") with [49]. unfold ngx_http_waf_nats_route. cbn [Z.eqb Pos.eqb].
  unfold answer_subject, reply_subject.
  replace (inbox ++ lit "." ++ lit "v." ++ ngx_http_waf_rid_hex rid ++ lit "." ++ sprintf_02x inspector)
    with ((inbox ++ lit ".v." ++ ngx_http_waf_rid_hex rid) ++ 46 :: sprintf_02x inspector) by (by rewrite <- !app_assoc).
  rewrite last_dot_app by (apply xdigits_word, x02_digits; lia). change (bytes_eqb [49] (lit "2")) with false. cbn iota.
  rewrite x02_hextoi by lia. unfold NGX_HTTP_WAF_MAX_INSPECTORS. rewrite (proj2 (Z.leb_gt 64 inspector)) by lia.
  assert (Hl : length (ngx_http_waf_rid_hex rid) = 16%nat) by (unfold ngx_http_waf_rid_hex, ngx_http_waf_hex64; by rewrite hex64_loop_length).
  set (before := inbox ++ lit ".v." ++ ngx_http_waf_rid_hex rid).
  assert (Hb : length before = (length inbox + 3 + 16)%nat) by (unfold before; rewrite !length_app, Hl; cbn; lia).
  destruct (Z.ltb_spec (zlen before) NGX_HTTP_WAF_RID_HEX_LEN) as [Hz|_]; [unfold zlen, NGX_HTTP_WAF_RID_HEX_LEN in Hz; lia|].
  change (Z.to_nat NGX_HTTP_WAF_RID_HEX_LEN) with 16%nat.
  replace (drop (length before - 16) before) with (ngx_http_waf_rid_hex rid).
  - by rewrite rid_hex_parse.
  - unfold before. rewrite app_assoc, drop_app_ge; rewrite <- app_assoc; fold before; rewrite Hb, !length_app; [|cbn; lia].
    replace (_ - _)%nat with 0%nat by (cbn; lia). by rewrite drop_0.
Qed.

(** ** What the server sends for a request *)

(** An inspector answers, or nobody listens on its subject. *)
Inductive answer_t := ANSWER (rid inspector : Z) (payload : bytes) | NO_RESPONDERS (rid inspector : Z).
Definition status_503 : bytes := lit "NATS/1.0 503" ++ [13; 10; 13; 10].

Definition msg_line_of (a : answer_t) : bytes :=
  match a with
  | ANSWER rid i payload => lit "MSG " ++ answer_subject rid i ++ lit " 1 " ++ sprintf_uz (zlen payload)
  | NO_RESPONDERS rid i => lit "HMSG " ++ answer_subject rid i ++ lit " 1 " ++ sprintf_uz (zlen status_503) ++ lit " " ++ sprintf_uz (zlen status_503)
  end.
Definition msg_body_of (a : answer_t) : bytes := match a with ANSWER _ _ payload => payload | NO_RESPONDERS _ _ => status_503 end.
Definition msg_text (a : answer_t) : bytes := msg_line_of a ++ [13; 10] ++ msg_body_of a ++ [13; 10].
Definition told_of (a : answer_t) : nats_ev :=
  match a with ANSWER rid i payload => EV_DISPATCH rid i payload | NO_RESPONDERS rid i => EV_ABSENT rid i end.

(** An answer to a request that was published, within the buffer. *)
Definition answer_ok (in_size : nat) (a : answer_t) : Prop :=
  let '(rid, i) := match a with ANSWER rid i _ | NO_RESPONDERS rid i => (rid, i) end in
  is_u64 rid /\ 0 <= i < NGX_HTTP_WAF_MAX_INSPECTORS /\ zlen (msg_body_of a) + 2 <= Z.of_nat in_size /\ Z.of_nat in_size < 2 ^ 63.

Lemma strlchr_at p c rest : c ∉ p -> ngx_strlchr (p ++ c :: rest) c = Some (length p).
Proof.
  induction p as [|x p IH]; cbn [app ngx_strlchr length]; [by rewrite Z.eqb_refl|]. intros Hc. apply not_elem_of_cons in Hc as [H1 H2].
  rewrite (proj2 (Z.eqb_neq x c)) by congruence. by rewrite IH.
Qed.
Lemma line_found l rest : (10 ∉ l) -> let r := l ++ [13; 10] ++ rest in
  ngx_strlchr r 10 = Some (S (length l)) /\ line_at r (S (length l)) = l /\ drop (S (S (length l))) r = rest.
Proof.
  intros Hl. cbn zeta. split_and!.
  - change (l ++ [13; 10] ++ rest) with (l ++ [13] ++ 10 :: rest). rewrite app_assoc, strlchr_at; [by rewrite length_app, Nat.add_comm|].
    apply not_elem_of_app. split; [done|]. intros Hin. by apply list_elem_of_singleton in Hin.
  - unfold line_at. replace (S (length l) - 1)%nat with (length l) by lia.
    change ([13; 10] ++ rest) with (13 :: 10 :: rest). rewrite list_lookup_middle, bool_decide_eq_true_2 by done. cbn. by rewrite take_app_length.
  - rewrite app_assoc. apply drop_app_length'. rewrite length_app. cbn. lia.
Qed.
Lemma word_no_lf s : word s -> 10 ∉ s.
Proof. intros Hs Hin. unfold word in Hs. rewrite Forall_forall in Hs. by destruct (Hs 10 Hin). Qed.

Lemma uz_word n : 0 <= n < 2 ^ 63 -> word (sprintf_uz n) /\ sprintf_uz n <> [].
Proof. intros Hn. destruct (uz_digits n Hn) as [H1 H2]. split; [by apply digits_word|done]. Qed.

(** The line of an answer, read. *)
Lemma line_of_answer in_size ready a : answer_ok in_size a ->
  exists h, read_line ready (msg_line_of a) = LINE_MSG h /\ hd_total h = zlen (msg_body_of a) /\
    (forall pm, msg_events in_size pm h (msg_body_of a) = [told_of a]).
Proof.
  destruct a as [rid i payload|rid i]; intros (Hr & Hi & Hb & Hm); cbn [msg_body_of] in *; pose proof (answer_word rid i ltac:(unfold NGX_HTTP_WAF_MAX_INSPECTORS in Hi; lia)) as [Hs1 Hs2].
  - pose proof (zlen_nonneg payload). destruct (uz_word (zlen payload) ltac:(lia)) as [Hu1 Hu2].
    assert (Ht : tokens 5 (drop 4 (msg_line_of (ANSWER rid i payload))) = [answer_subject rid i; lit "1"; sprintf_uz (zlen payload)]).
    { cbn [msg_line_of]. change (drop 4 (lit "MSG " ++ ?x)) with x. change (lit " 1 " ++ ?x) with ([32] ++ lit "1" ++ [32] ++ x).
      cbn [app]. rewrite tokens_word by auto. rewrite tokens_space. change (49 :: ?x) with (lit "1" ++ x). rewrite tokens_word; [|by repeat constructor|done|by left].
      by rewrite tokens_space, tokens_last. }
    exists (mkHeader (answer_subject rid i) (lit "1") (zlen payload) 0). split_and!.
    + unfold read_line. change (starts_with (lit "MSG ") (msg_line_of (ANSWER rid i payload))) with true. cbn iota. unfold line_msg, msg_header. rewrite Ht.
      cbn [length Nat.ltb Nat.leb Nat.sub lookup list_lookup default]. cbn. rewrite uz_atoi by lia. done.
    + done.
    + intros pm. unfold msg_events, accept. cbn [hd_sid hd_subject hd_total hd_hdr]. rewrite route_back by done. cbn [mbind option_bind].
      rewrite (proj2 (Z.leb_le _ _) Hb). done.
  - destruct (uz_word (zlen status_503) ltac:(done)) as [Hu1 Hu2].
    assert (Ht : tokens 5 (drop 5 (msg_line_of (NO_RESPONDERS rid i))) = [answer_subject rid i; lit "1"; sprintf_uz (zlen status_503); sprintf_uz (zlen status_503)]).
    { cbn [msg_line_of]. change (drop 5 (lit "HMSG " ++ ?x)) with x. change (lit " 1 " ++ ?x) with ([32] ++ lit "1" ++ [32] ++ x). change (lit " " ++ ?x) with ([32] ++ x).
      cbn [app]. rewrite tokens_word by auto. rewrite tokens_space. change (49 :: ?x) with (lit "1" ++ x). rewrite tokens_word; [|by repeat constructor|done|by left].
      rewrite tokens_space, tokens_word by auto. by rewrite tokens_space, tokens_last. }
    exists (mkHeader (answer_subject rid i) (lit "1") (zlen status_503) (zlen status_503)). split_and!.
    + unfold read_line. change (starts_with (lit "MSG ") (msg_line_of (NO_RESPONDERS rid i))) with false.
      change (starts_with (lit "HMSG ") (msg_line_of (NO_RESPONDERS rid i))) with true. cbn iota. unfold line_msg, msg_header. rewrite Ht.
      change (zlen status_503) with 16. cbn [length Nat.ltb Nat.leb Nat.sub lookup list_lookup default]. cbn. rewrite uz_atoi by done. done.
    + done.
    + intros pm. unfold msg_events, accept. cbn [hd_sid hd_subject hd_total hd_hdr]. rewrite route_back by done. cbn [mbind option_bind].
      rewrite (proj2 (Z.leb_le _ _) Hb). done.
Qed.

Lemma msg_line_word a in_size : answer_ok in_size a -> 10 ∉ msg_line_of a.
Proof.
  destruct a as [rid i payload|rid i]; intros (Hr & Hi & Hb & Hm); cbn [msg_line_of];
    pose proof (answer_word rid i ltac:(unfold NGX_HTTP_WAF_MAX_INSPECTORS in Hi; lia)) as [Hs1 _]; apply word_no_lf in Hs1.
  - pose proof (zlen_nonneg payload). cbn [msg_body_of] in Hb. destruct (uz_word (zlen payload) ltac:(lia)) as [Hu _]. apply word_no_lf in Hu.
    rewrite !not_elem_of_app; split_and!; try done; intros Hin; repeat (apply elem_of_cons in Hin as [Hin|Hin]; [done|]); by apply elem_of_nil in Hin.
  - destruct (uz_word (zlen status_503) ltac:(done)) as [Hu _]. apply word_no_lf in Hu.
    rewrite !not_elem_of_app; split_and!; try done; intros Hin; repeat (apply elem_of_cons in Hin as [Hin|Hin]; [done|]); by apply elem_of_nil in Hin.
Qed.

Lemma stream_answer in_size pm ready a d : answer_ok in_size a ->
  stream_events in_size pm ready (msg_text a ++ d) = told_of a :: stream_events in_size pm ready d.
Proof.
  intros Ha. destruct (line_found (msg_line_of a) (msg_body_of a ++ [13; 10]) (msg_line_word a in_size Ha)) as (L1 & L2 & L3).
  destruct (line_of_answer in_size ready a Ha) as (h & H1 & H2 & H3). rewrite <- L2 in H1. pose proof (zlen_nonneg (msg_body_of a)) as Hn.
  unfold msg_text. rewrite (stream_msg in_size pm ready _ d _ h L1 H1); rewrite ?L3, ?H2.
  - unfold zlen. rewrite Nat2Z.id, take_app_length, H3. cbn [app]. f_equal.
    replace (Z.to_nat (Z.of_nat (length (msg_body_of a)) + 2)) with (length (msg_body_of a ++ [13; 10])) by (rewrite length_app; cbn; lia).
    by rewrite drop_all.
  - rewrite length_app. unfold zlen. cbn. lia.
  - done.
Qed.

Lemma stream_answers in_size pm ready answers : Forall (answer_ok in_size) answers ->
  stream_events in_size pm ready (concat (msg_text <$> answers)) = told_of <$> answers.
Proof.
  induction 1 as [|a answers Ha _ IH]; [done|]. cbn [fmap list_fmap concat]. rewrite stream_answer by done. by rewrite IH.
Qed.

(** C11: the round trip of request and reply: a request published for an
    inspector names the subject that the answer comes back on; when the server
    sends the answers, or that nobody listens, for any list of published
    requests, every one is handed to exactly the request and the inspector it
    was published for, with the payload as it was sent, in order, however the
    socket cuts the bytes and whatever else the worker sends meanwhile. *)
Theorem nats_answers_return acts s answers : nats_fresh s -> Forall (answer_ok (fst s).(k_in_size)) answers ->
  concat (received <$> acts) = concat (msg_text <$> answers) ->
  exists b s', do_acts sprintf_uz sprintf_02x inbox acts (mkIn [] 0) s = Some (b, s') /\
    ((fst s').(k_conn) = true -> (snd s').(n_log) = (snd s).(n_log) ++ (told_of <$> answers)).
Proof.
  intros F Ha Hr. destruct (acts_exact sprintf_uz sprintf_02x inbox acts s F) as (b & s' & E1 & E2). exists b, s'. split; [done|].
  intros Hk. rewrite (E2 Hk), Hr. f_equal. by apply stream_answers.
Qed.

(** ** What is published *)

Lemma flush_unsent sends event (s : nst) : let s' := ngx_http_waf_link_flush ngx_http_waf_nats_on_close sends event s in
  out_wf (fst s) -> (fst s').(k_conn) = true -> exists j, (j <= length (unsent (fst s)))%nat /\ unsent (fst s') = drop j (unsent (fst s)).
Proof.
  cbn zeta. intros W. unfold ngx_http_waf_link_flush. destruct (_ || _); [intros _; exists 0%nat; split; [lia|by rewrite drop_0]|].
  assert (G : forall s : nst, out_wf (fst s) -> let r := flush_loop ngx_http_waf_nats_on_close sends s in
    fst r = true -> out_wf (fst (snd r)) /\ exists j, (j <= length (unsent (fst s)))%nat /\ unsent (fst (snd r)) = drop j (unsent (fst s))).
  { clear. induction sends as [|d sends IH]; intros [k p] W; cbn [flush_loop]; (destruct (Nat.leb _ _); [intros _; split; [done|]; exists 0%nat; split; [lia|by rewrite drop_0]|]).
    { intros _. split; [done|]. exists 0%nat. split; [lia|by rewrite drop_0]. }
    destruct d as [n| |]; [|intros _; split; [done|]; exists 0%nat; split; [lia|by rewrite drop_0]|done].
    set (k1 := k <| k_out_pos ::= _ |>). destruct W as (W1 & W2 & W3). assert (W' : out_wf k1) by (split; [done|]; split; [done|]; apply Nat.le_min_r).
    intros Hr. destruct (IH (k1, p) W' Hr) as (I0 & j & I1 & I2). split; [done|].
    exists (Nat.min (k_out_pos k + n) (length (k_out k)) - k_out_pos k + j)%nat. cbn [fst snd] in *.
    rewrite I2. unfold unsent in *. cbn in I1 |- *. rewrite length_drop in *. split; [lia|]. rewrite !drop_drop. f_equal. lia. }
  specialize (G s W). pose proof (flush_loop_spec ngx_http_waf_nats_on_close sends s W) as [_ L]. destruct (flush_loop _ sends s) as [go [k p]]. cbn [fst snd] in G, L.
  destruct go; cbn [negb]; [|].
  - destruct (G eq_refl) as (W1 & j & G1 & G2). destruct event; [|intros Hk; exfalso; revert Hk; by rewrite drop_conn].
    intros _. exists j. split; [done|]. cbn [fst]. rewrite <- G2. destruct (Nat.eqb_spec (k_out_pos k) (length (k_out k))) as [E|E]; [|done].
    unfold unsent. cbn. by rewrite E, drop_all.
  - intros Hk. cbn [fst] in Hk. destruct L as [L _]. congruence.
Qed.

Lemma nats_flush_unsent (s : nst) : out_wf (fst s) -> (fst (nats_flush s)).(k_conn) = true ->
  exists j, (j <= length (unsent (fst s)))%nat /\ unsent (fst (nats_flush s)) = drop j (unsent (fst s)).
Proof.
  intros W. unfold nats_flush. destruct (match n_sock (snd s) with [] => _ | _ :: _ => _ end) as [how rest].
  exact (flush_unsent how.1 how.2 (on_n (fun n => n <| n_sock := rest |>) s) W).
Qed.

(** The text of a message, in full. *)
Definition pub_text (subject : bytes) (reply : option bytes) (payload : bytes) : bytes :=
  pub_line sprintf_uz inbox subject reply (zlen payload) ++ payload ++ [13; 10].

Lemma pub_unsent subject reply payload s rc s' : out_wf (fst s) -> zlen payload < 2 ^ 63 ->
  ngx_http_waf_nats_pub sprintf_uz inbox subject reply payload s = Some (rc, s') ->
  match rc with
  | NGX_OK => (fst s').(k_conn) = true ->
      exists j, (j <= length (unsent (fst s) ++ pub_text subject reply payload))%nat /\
        unsent (fst s') = drop j (unsent (fst s) ++ pub_text subject reply payload)
  | _ => unsent (fst s') = unsent (fst s)
  end.
Proof.
  intros W Hp. unfold ngx_http_waf_nats_pub. set (len := match reply with Some r => _ | None => _ end). pose proof (zlen_nonneg payload) as Hp0.
  assert (Hline : zlen (pub_line sprintf_uz inbox subject reply (zlen payload)) <= len /\ 0 <= len).
  { pose proof (uz_len (zlen payload) ltac:(lia)) as Hu. unfold NGX_SIZE_T_LEN in Hu. unfold pub_line, len, NGX_SIZE_T_LEN. pose proof (zlen_nonneg subject). pose proof (zlen_nonneg inbox).
    destruct reply as [r|]; [pose proof (zlen_nonneg r)|]; rewrite !zlen_app; change (zlen [13; 10]) with 2; change (zlen (lit "PUB ")) with 4;
      change (zlen (lit " ")) with 1; try change (zlen (lit ".")) with 1; try change (zlen []) with 0; lia. }
  clearbody len. destruct Hline as [Hline Hlen]. destruct (_ <? len); [by intros [= <- <-]|].
  destruct (reserve_spec (len + zlen payload + 2) (fst s) W ltac:(lia)) as (ok & k & -> & K1 & K2 & K3 & K4). cbn [mbind option_bind].
  destruct ok; cbn [negb]; intros E; injection E as <- <-; [|done].
  rewrite take_ge by (unfold zlen in *; lia). fold (pub_text subject reply payload). set (text := pub_text subject reply payload).
  assert (Ht : zlen text <= len + zlen payload + 2) by (unfold text, pub_text; rewrite !zlen_app; change (zlen [13; 10]) with 2; lia). clearbody text.
  set (k1 := k <| k_out ::= fun o => o ++ text |>). specialize (K4 eq_refl). destruct K1 as (V1 & V2 & V3).
  assert (Hu : unsent k1 = unsent (fst s) ++ text) by (unfold k1, unsent in *; cbn; rewrite drop_app_le by done; by rewrite K3).
  intros Hk. destruct (nats_flush_unsent (k1, snd s)) as (j & J1 & J2); [|done|].
  - unfold out_wf, k1. cbn. rewrite zlen_app, length_app. lia.
  - exists j. cbn [fst] in J1, J2. rewrite Hu in J1, J2. done.
Qed.

(** C28: publishing a request: accepted, its whole line and payload, with the
    subject the answer shall come back on, are put behind everything that waits
    to be sent and nothing but a front part of that has been sent; refused, for
    a bus that is not ready, a payload above the limit, a subject that is too
    long or a full buffer, nothing is added to the output. *)
Theorem nats_publish_frames subject payload rid inspector s st s' : out_wf (fst s) -> zlen payload < 2 ^ 63 ->
  ngx_http_waf_nats_publish sprintf_uz sprintf_02x inbox subject payload rid inspector s = Some (st, s') ->
  let text := pub_text subject (Some (reply_subject sprintf_02x rid inspector)) payload in
  match st with
  | BUS_OK => (fst s).(k_ready) = true /\ zlen payload <= (snd s).(n_payload_max) /\
      ((fst s').(k_conn) = true -> exists j, (j <= length (unsent (fst s) ++ text))%nat /\ unsent (fst s') = drop j (unsent (fst s) ++ text))
  | _ => unsent (fst s') = unsent (fst s)
  end.
Proof.
  intros W Hp. unfold ngx_http_waf_nats_publish. destruct (k_ready (fst s)) eqn:Er; cbn [negb]; [|by intros [= <- <-]].
  destruct (Z.ltb_spec (n_payload_max (snd s)) (zlen payload)); [by intros [= <- <-]|].
  destruct (ngx_http_waf_nats_pub sprintf_uz inbox subject (Some (reply_subject sprintf_02x rid inspector)) payload s) as [[rc s1]|] eqn:Eb; [|done].
  cbn [mbind option_bind]. intros E. injection E as <- <-. pose proof (pub_unsent _ _ _ _ _ _ W Hp Eb) as G. destruct rc; done.
Qed.

End reply.

(** ** A connection *)

(** ["%02xi"] of a number below 256. *)
Definition x02_ref (n : Z) : bytes := [hex_digit (n / 16); hex_digit (n mod 16)].

Lemma udec_len f v k : 0 <= v < 10 ^ Z.of_nat k -> (0 < k)%nat -> zlen (JsonTrip.udec f v) <= Z.of_nat k.
Proof.
  revert v k. induction f as [|f IH]; intros v k Hv Hk; cbn [JsonTrip.udec]; [unfold zlen; cbn; lia|].
  destruct (Z.ltb_spec v 10); [unfold zlen; cbn; lia|]. destruct k as [|[|k]]; [lia|change (10 ^ Z.of_nat 1) with 10 in Hv; lia|].
  rewrite zlen_app. specialize (IH (v / 10) (S k)). rewrite (Nat2Z.inj_succ (S k)), Z.pow_succ_r in Hv by lia.
  assert (0 <= v / 10 < 10 ^ Z.of_nat (S k)) by (split; [apply Z.div_pos; lia|apply Z.div_lt_upper_bound; lia]).
  unfold zlen at 2. cbn [length]. lia.
Qed.

#[export] Instance ngx_print_ref : NgxPrint JsonTrip.decimal x02_ref.
Proof.
  assert (Hu : forall n, 0 <= n < 2 ^ 63 -> JsonTrip.decimal n = JsonTrip.udec 20 n /\ 0 <= n < 10 ^ (Z.of_nat 20 + 1)).
  { intros n Hn. unfold JsonTrip.decimal. split; [|lia]. by destruct (Z.ltb_spec n 0); [lia|]. }
  assert (Hx : Forall (fun n => Forall (fun c => is_Some (xdigit c)) (x02_ref n) /\ ngx_hextoi (x02_ref n) = Some n) (seqZ 0 256)).
  { assert (G : forallb (fun n => forallb (fun c => bool_decide (is_Some (xdigit c))) (x02_ref n) && bool_decide (ngx_hextoi (x02_ref n) = Some n)) (seqZ 0 256) = true) by (by vm_compute).
    rewrite forallb_forall in G. apply Forall_forall. intros n Hn. apply list_elem_of_In, G, andb_true_iff in Hn as [H1 H2]. split; [|by apply bool_decide_eq_true in H2].
    rewrite forallb_forall in H1. apply Forall_forall. intros c Hc. apply list_elem_of_In, H1 in Hc. by apply bool_decide_eq_true in Hc. }
  rewrite Forall_forall in Hx. constructor.
  - intros n Hn. destruct (Hu n Hn) as [-> Hd]. destruct (JsonTrip.udec_spec 20 n Hd) as (H1 & H2 & H3). split; [exact H1|].
    intros E. rewrite E in H3. destruct H3 as [H3|(c & ds & H3 & _)]; done.
  - intros n Hn. destruct (Hu n Hn) as [-> Hd]. destruct (JsonTrip.udec_spec 20 n Hd) as (H1 & H2 & H3). cbn [ngx_atoi ngx_string_ref].
    assert (Hf : forallb digit (JsonTrip.udec 20 n) = true) by (apply forallb_forall; intros c Hc; apply list_elem_of_In in Hc; rewrite Forall_forall in H1; exact (H1 c Hc)).
    rewrite Hf. assert (Hz : zlen (JsonTrip.udec 20 n) <> 0) by (destruct H3 as [-> |(c & ds & -> & _)]; [done|rewrite zlen_cons; pose proof (zlen_nonneg ds); lia]).
    rewrite (proj2 (Z.eqb_neq _ _) Hz). cbn [andb negb]. f_equal. exact H2.
  - intros n Hn. destruct (Hu n Hn) as [-> _]. apply (udec_len 20 n 20); [change (10 ^ Z.of_nat 20) with 100000000000000000000; lia|lia].
  - intros n Hn. apply Hx. apply elem_of_seqZ. lia.
  - intros n Hn. apply Hx. apply elem_of_seqZ. lia.
Qed.

Definition demo_inbox : bytes := lit "_INBOX.n1".
Definition demo_link : link_t := mkLink 64 4096 256 [] 0 true false true true 0 false 0 [].
Definition demo_bus : nats_t := mkNats (lit "CONNECT {}") 1024 ST_LINE 0 true 0 [] 0 0 0 KIND_VERDICT 0 0 false false [] [] [] [].
Definition demo_answers : list answer_t := [ANSWER 4660 3 (lit "{}"); NO_RESPONDERS 4661 63; ANSWER 4662 0 []].
Definition demo_stream : bytes := concat (msg_text JsonTrip.decimal x02_ref demo_inbox <$> demo_answers).
(** Seven bytes, then the rest in two pieces, with a request in between. *)
Definition demo_acts : list act :=
  [ACT_READ [take 7 demo_stream] true; ACT_PUBLISH (lit "waf.bot") (lit "{}") 4663 1; ACT_PING;
   ACT_READ [take 50 (drop 7 demo_stream); take 60 (drop 57 demo_stream)] true; ACT_WRITE [SENT 5] true; ACT_READ [drop 117 demo_stream] true].

Lemma demo_fresh : nats_fresh (demo_link, demo_bus).
Proof. by constructor. Qed.

Lemma nats_answers_return_witness :
  exists b s', do_acts JsonTrip.decimal x02_ref demo_inbox demo_acts (mkIn [] 0) (demo_link, demo_bus) = Some (b, s') /\
    (snd s').(n_log) = [EV_DISPATCH 4660 3 (lit "{}"); EV_ABSENT 4661 63; EV_DISPATCH 4662 0 []].
Proof.
  destruct (nats_answers_return JsonTrip.decimal x02_ref demo_inbox ltac:(repeat constructor; done) demo_acts (demo_link, demo_bus) demo_answers) as (b & s' & E1 & E2).
  - exact demo_fresh.
  - unfold demo_answers. repeat constructor; (cbn; lia || done).
  - by vm_compute.
  - exists b, s'. split; [exact E1|]. apply E2. clear E2. vm_compute in E1. by injection E1 as <- <-.
Defined.

(** A new connection: the handshake, a package of a dataset that does not fit
    the buffer, a reply that is too large, and one that is not. *)
Definition crlf : bytes := [13; 10].
Definition new_link : link_t := mkLink 64 4096 256 [] 0 true false false false 0 false 0 [].
Definition long_text (n : nat) : bytes := replicate n 97.
Definition new_stream : bytes :=
  lit "INFO {}" ++ crlf ++ lit "MSG ds.bans d7 90" ++ crlf ++ long_text 90 ++ crlf ++ lit "PING" ++ crlf
  ++ lit "MSG " ++ answer_subject x02_ref demo_inbox 4660 3 ++ lit " 1 70" ++ crlf ++ long_text 70 ++ crlf
  ++ msg_text JsonTrip.decimal x02_ref demo_inbox (ANSWER 4660 5 (lit "{}")).
Definition in_pieces (n : nat) (s : bytes) : list bytes := (fun i => take n (drop (i * n) s)) <$> seq 0 (length s / n + 1).

Lemma nats_stream_exact_witness :
  exists b s', do_acts JsonTrip.decimal x02_ref demo_inbox [ACT_READ (in_pieces 11 new_stream) true] (mkIn [] 0) (new_link, demo_bus) = Some (b, s') /\
    (snd s').(n_log) = [EV_READY; EV_DATASET 7 (long_text 90); EV_PING; EV_DISPATCH 4660 5 (lit "{}")].
Proof.
  destruct (nats_stream_exact JsonTrip.decimal x02_ref demo_inbox [ACT_READ (in_pieces 11 new_stream) true] (new_link, demo_bus)) as (b & s' & E1 & E2).
  - by constructor.
  - exists b, s'. split; [exact E1|]. rewrite E2; [by vm_compute|]. clear E2. vm_compute in E1. by injection E1 as <- <-.
Defined.

(** A line of 64 bytes and no end. *)
Lemma nats_full_is_line_witness :
  exists b' s', read_turn ngx_http_waf_nats_on_close ngx_http_waf_nats_on_read (fun _ => RECV (long_text 64)) (mkIn [] 0) (demo_link, demo_bus)
      = Some (READ_MORE, b', s') /\
    (snd s').(n_state) = ST_LINE /\ (10 ∉ b'.(i_data)).
Proof.
  eexists _, _. split; [reflexivity|].
  apply (nats_full_is_line JsonTrip.decimal x02_ref demo_inbox [] (demo_link, demo_bus) (mkIn [] 0) (demo_link, demo_bus) (long_text 64)); try reflexivity.
  - by constructor.
  - cbn. lia.
Defined.

Lemma nats_publish_frames_witness :
  exists s', ngx_http_waf_nats_publish JsonTrip.decimal x02_ref demo_inbox (lit "waf.bot") (lit "{}") 4660 3 (demo_link, demo_bus) = Some (BUS_OK, s') /\
    exists j, (j <= 51)%nat /\ unsent (fst s') = drop j (lit "PUB waf.bot _INBOX.n1.v.0000000000001234.03 2" ++ crlf ++ lit "{}" ++ crlf).
Proof.
  eexists. split; [reflexivity|].
  destruct (nats_publish_frames JsonTrip.decimal x02_ref demo_inbox (lit "waf.bot") (lit "{}") 4660 3 (demo_link, demo_bus) BUS_OK
    (snd (default (BUS_OK, (demo_link, demo_bus)) (ngx_http_waf_nats_publish JsonTrip.decimal x02_ref demo_inbox (lit "waf.bot") (lit "{}") 4660 3 (demo_link, demo_bus)))))
    as (_ & _ & G).
  - by constructor.
  - by vm_compute.
  - by vm_compute.
  - destruct G as (j & G1 & G2); [by vm_compute|]. exists j.
    split; [vm_compute in G1; lia|]. exact G2.
Defined.

(** A connection that a call into the module drops, for one that answers a
    request and finds the socket closed, while an [INFO] line is still
    buffered: the handshake is done again on the link that is gone, and
    publishing then reports success. *)
Lemma info_after_drop_ready :
  exists b s' s2, do_acts JsonTrip.decimal x02_ref demo_inbox
      [ACT_READ [msg_text JsonTrip.decimal x02_ref demo_inbox (ANSWER 4660 5 (lit "{}")) ++ lit "INFO {}" ++ crlf] true]
      (mkIn [] 0) (demo_link, demo_bus <| n_drops := [true] |>) = Some (b, s') /\
    (fst s').(k_conn) = false /\ (fst s').(k_ready) = true /\
    ngx_http_waf_nats_publish JsonTrip.decimal x02_ref demo_inbox (lit "waf.bot") (lit "{}") 4661 3 s' = Some (BUS_OK, s2).
Proof. eexists _, _, _. split; [vm_compute; reflexivity|]. by vm_compute. Qed.

End NatsReply.
