(* ===== verification/Redis.v ===== *)
(** The store driver for Redis (body/drv_redis.c): the queue of operations that
    wait for an answer, the commands that are written for them, the parser of
    the answers, time limits, and what happens when a request goes away or the
    connection is lost.

    The state is a link (Link.v) and the fields of
    [ngx_http_waf_redis_conn_t].  An entry of the queue has an identity, which
    timers and cleanups refer to; [r_cln] are the cleanups of operations whose
    handler is set, with the entry they detach.  The calls of [op->handler] are
    recorded in [r_log]; what such a call asks of this connection in turn, and
    the outcomes of allocations, are inputs. *)
From stdpp Require Import base list gmap.
From S2P Require Import Prelude Types ReplyText Select Link.
Import Select Link.
#[local] Open Scope Z_scope.

Module Redis.

Record redis_conf_t := mkRedisConf {
  rc_ttl : Z;
  rc_retain_ttl : Z;
  rc_max : Z;
  rc_user : bytes;
  rc_password : bytes;
  rc_db : Z
}.

(** An operation: its identity and [len], the size of what is put or the cap on
    what is read. *)
Record op_t := mkOp { o_id : Z; o_len : Z }.
#[export] Instance op_t_eq_dec : EqDecision op_t.
Proof. solve_decision. Defined.

(** [e_cln] is the operation whose cleanup the entry knows. *)
Record entry_t := mkEntry { e_id : nat; e_op : option op_t; e_bulk : bool; e_timer : bool; e_cln : option Z }.
#[export] Instance eta_entry_t : Eta entry_t := fun r => mkEntry r.(e_id) r.(e_op) r.(e_bulk) r.(e_timer) r.(e_cln).

(** What the rest of the module asks for. *)
Inductive req_t :=
  | REQ_PUT (op : op_t) (key data : bytes) (retain : bool)
  | REQ_GET (op : op_t) (key : bytes)
  | REQ_DEL (key : bytes).

(** An operation was accepted, completed with a status and, for an object that
    was read, its bytes, or forgotten with its request. *)
Inductive redis_ev := REV_QUEUED (op : Z) | REV_DONE (op : Z) (status : ngx_rc) (data : option bytes) | REV_GONE (op : Z).

(** [r_bulk] holds the bytes up to [bulk_got] of the buffer, when there is one;
    [r_next] is the identity of the next entry that is allocated, [r_calls]
    what the coming calls of handlers ask for. *)
Record redis_t := mkRedis {
  r_conf : redis_conf_t;
  r_queue : list entry_t;
  r_free : list nat;
  r_next : nat;
  r_inflight : Z;
  r_skip : Z;
  r_skip_err : bool;
  r_bulk : option bytes;
  r_bulk_size : Z;
  r_bulk_need : Z;
  r_cln : gmap Z nat;
  r_log : list redis_ev;
  r_calls : list (list req_t);
  r_mem : alloc_stream
}.
#[export] Instance eta_redis_t : Eta redis_t := fun r =>
  mkRedis r.(r_conf) r.(r_queue) r.(r_free) r.(r_next) r.(r_inflight) r.(r_skip) r.(r_skip_err) r.(r_bulk) r.(r_bulk_size)
    r.(r_bulk_need) r.(r_cln) r.(r_log) r.(r_calls) r.(r_mem).

Definition rst := (link_t * redis_t)%type.
Definition on_r (f : redis_t -> redis_t) (s : rst) : rst := (fst s, f (snd s)).
Definition noted (e : redis_ev) (r : redis_t) : redis_t := r <| r_log ::= fun l => l ++ [e] |>.

(** ** Entries *)

Definition ngx_http_waf_redis_entry_get (r : redis_t) : option nat * redis_t :=
  match r.(r_free) with
  | i :: free => (Some i, r <| r_free := free |>)
  | [] =>
      let '(ok, mem) := alloc r.(r_mem) in
      let r := r <| r_mem := mem |> in
      if ok then (Some r.(r_next), r <| r_next ::= S |>) else (None, r)
  end.
(** The entry as it is got. *)
Definition entry0 (i : nat) : entry_t := mkEntry i None false false None.

Definition ngx_http_waf_redis_entry_push (e : entry_t) (r : redis_t) : redis_t :=
  r <| r_queue ::= fun q => q ++ [e] |> <| r_inflight ::= fun n => n + 1 |>.

Definition ngx_http_waf_redis_entry_free (e : entry_t) (r : redis_t) : redis_t :=
  r <| r_cln ::= fun m => match e.(e_cln) with Some o => delete o m | None => m end |> <| r_free ::= fun f => e.(e_id) :: f |>.

(** The head of the queue is taken off and freed, as both ends of an operation
    do it. *)
Definition entry_pop (r : redis_t) : option (option op_t * redis_t) :=
  match r.(r_queue) with
  | [] => None
  | e :: q => Some (e.(e_op), ngx_http_waf_redis_entry_free e (r <| r_queue := q |> <| r_inflight ::= fun n => n - 1 |>))
  end.

Section redis.
Context `{NgxString} (sprintf_ui : Z -> bytes).

(** ** Commands *)

Definition cmd_head (argc : Z) : bytes := lit "*" ++ sprintf_ui argc ++ [13; 10].
Definition arg_head (arg : bytes) : bytes := lit "$" ++ sprintf_ui (zlen arg) ++ [13; 10].
(** The writes of a command, one after the other. *)
Definition cmd_pieces (argv : list bytes) : list bytes :=
  cmd_head (zlen argv) :: concat ((fun a => arg_head a :: (if zlen a =? 0 then [] else [a]) ++ [[13; 10]]) <$> argv).

Fixpoint out_all (pieces : list bytes) (k : link_t) : option link_t :=
  match pieces with
  | [] => Some k
  | p :: pieces => r ← ngx_http_waf_link_out p k; out_all pieces (snd r)
  end.

(** True for [NGX_OK]; [None] is a loop that does not end. *)
Definition ngx_http_waf_redis_command (argv : list bytes) (k : link_t) : option (bool * link_t) :=
  let size := zlen (cmd_head (zlen argv)) + foldr Z.add 0 ((fun a => zlen (arg_head a) + zlen a + 2) <$> argv) in
  r ← ngx_http_waf_link_reserve size k;
  let '(ok, k) := r in
  if negb ok then Some (false, k) else k ← out_all (cmd_pieces argv) k; Some (true, k).

Definition ngx_http_waf_redis_queue (argv : list bytes) (s : rst) : option (bool * rst) :=
  let '(k, r) := s in
  match ngx_http_waf_redis_entry_get r with
  | (None, r) => Some (false, (k, r))
  | (Some i, r) =>
      c ← ngx_http_waf_redis_command argv k;
      let '(ok, k) := c in
      if negb ok then Some (false, (k, ngx_http_waf_redis_entry_free (entry0 i) r))
      else Some (true, (k, ngx_http_waf_redis_entry_push (entry0 i) r))
  end.

(** What [put] and [get] share: true when the operation waits for an answer.
    The write goes out later, from a posted event. *)
Definition op_queue (op : op_t) (bulk : bool) (argv : list bytes) (s : rst) : option (bool * rst) :=
  let '(k, r) := s in
  match ngx_http_waf_redis_entry_get r with
  | (None, r) => Some (false, (k, r))
  | (Some i, r) =>
      let '(ok, mem) := alloc r.(r_mem) in
      let r := r <| r_mem := mem |> in
      if negb ok then Some (false, (k, ngx_http_waf_redis_entry_free (entry0 i) r))
      else
        let e := mkEntry i (Some op) bulk false (Some op.(o_id)) in
        let r := r <| r_cln ::= <[op.(o_id) := i]> |> in
        c ← ngx_http_waf_redis_command argv k;
        let '(ok, k) := c in
        if negb ok then Some (false, (k, ngx_http_waf_redis_entry_free e r))
        else Some (true, (k, noted (REV_QUEUED op.(o_id)) (ngx_http_waf_redis_entry_push (e <| e_timer := true |>) r)))
  end.

Definition put_argv (c : redis_conf_t) (key data : bytes) (retain : bool) : list bytes :=
  let ttl := if retain && negb (c.(rc_ttl) =? 0) then c.(rc_retain_ttl) else c.(rc_ttl) in
  [lit "SET"; key; data] ++ if negb (ttl =? 0) then [lit "PX"; sprintf_ui ttl] else [].

Definition ngx_http_waf_drv_redis_put (op : op_t) (key data : bytes) (retain : bool) (s : rst) : option (bool * rst) :=
  let c := (snd s).(r_conf) in
  if c.(rc_max) <? op.(o_len) then Some (false, s)
  else op_queue op false (put_argv c key data retain) s.
Definition ngx_http_waf_drv_redis_get (op : op_t) (key : bytes) (s : rst) : option (bool * rst) :=
  op_queue op true [lit "GET"; key] s.
Definition ngx_http_waf_drv_redis_del (key : bytes) (s : rst) : option rst :=
  r ← ngx_http_waf_redis_queue [lit "DEL"; key] s; Some (snd r).

(** A request for a connection, which is chosen only when it is ready. *)
Definition do_req (q : req_t) (s : rst) : option rst :=
  if negb (fst s).(k_ready) then Some s
  else match q with
       | REQ_PUT op key data retain => r ← ngx_http_waf_drv_redis_put op key data retain s; Some (snd r)
       | REQ_GET op key => r ← ngx_http_waf_drv_redis_get op key s; Some (snd r)
       | REQ_DEL key => ngx_http_waf_drv_redis_del key s
       end.
Fixpoint do_reqs (qs : list req_t) (s : rst) : option rst :=
  match qs with [] => Some s | q :: qs => s ← do_req q s; do_reqs qs s end.

(** ** Ends of operations *)

(** [op->handler(op)].  The handler may start operations; those of its request
    that it would tear down are torn down by events of their own. *)
Definition op_handler (op : op_t) (status : ngx_rc) (data : option bytes) (s : rst) : option rst :=
  let s := on_r (noted (REV_DONE op.(o_id) status data)) s in
  match (snd s).(r_calls) with
  | [] => Some s
  | qs :: calls => do_reqs qs (on_r (fun r => r <| r_calls := calls |>) s)
  end.

Definition ngx_http_waf_redis_entry_done (status : ngx_rc) (s : rst) : option rst :=
  match entry_pop (snd s) with
  | None => Some s
  | Some (None, r) => Some (fst s, r)
  | Some (Some op, r) => op_handler op status None (fst s, r)
  end.

Definition bulk_clear (r : redis_t) : redis_t := r <| r_bulk := None |> <| r_bulk_size := 0 |>.

Definition ngx_http_waf_redis_bulk_ready (s : rst) : option rst :=
  let '(k, r) := s in
  match entry_pop r with
  | None => Some (k, bulk_clear r)
  | Some (None, r) => Some (k, bulk_clear r)
  | Some (Some op, r) =>
      let '(ok, mem) := alloc r.(r_mem) in
      let r := r <| r_mem := mem |> in
      let data := take (Z.to_nat r.(r_bulk_size)) (default [] r.(r_bulk)) in
      op_handler op (if ok then NGX_OK else NGX_ERROR) (if ok then Some data else None) (k, bulk_clear r)
  end.

(** The timer of the entry [i]. *)
Definition ngx_http_waf_redis_on_timeout (i : nat) (s : rst) : option rst :=
  match list_find (fun e => e.(e_id) = i) (snd s).(r_queue) with
  | Some (j, e) =>
      let s := on_r (fun r => r <| r_queue ::= <[j := e <| e_timer := false |> <| e_op := None |>]> |>) s in
      match e.(e_op) with
      | None => Some s
      | Some op => op_handler op NGX_ERROR None s
      end
  | None => Some s
  end.

(** The cleanup of an operation runs when its request goes away. *)
Definition ngx_http_waf_redis_detach (i : nat) (r : redis_t) : redis_t :=
  match list_find (fun e => e.(e_id) = i) r.(r_queue) with
  | Some (j, e) =>
      let r := r <| r_queue ::= <[j := e <| e_timer := false |> <| e_op := None |> <| e_cln := None |>]> |> in
      match e.(e_op) with Some op => noted (REV_GONE op.(o_id)) r | None => r end
  | None => r
  end.
Definition op_cleanup (o : Z) (r : redis_t) : redis_t :=
  match r.(r_cln) !! o with
  | Some i => ngx_http_waf_redis_detach i (r <| r_cln ::= delete o |>)
  | None => r
  end.

(** [drain], for a link that is not ready any more, so that the handlers ask
    nothing of this connection. *)
Definition drain_one (r : redis_t) : redis_t :=
  match entry_pop r with
  | None => r
  | Some (None, r) => r
  | Some (Some op, r) => let r := noted (REV_DONE op.(o_id) NGX_ERROR None) r in r <| r_calls ::= tail |>
  end.
Definition ngx_http_waf_redis_drain (r : redis_t) : redis_t :=
  let r := Nat.iter (length r.(r_queue)) drain_one r in
  r <| r_skip := 0 |> <| r_skip_err := false |> <| r_bulk := None |> <| r_bulk_size := 0 |> <| r_bulk_need := 0 |>.
Definition ngx_http_waf_redis_on_close (was_ready : bool) (r : redis_t) : redis_t := ngx_http_waf_redis_drain r.

(** ** Connecting *)

Definition ngx_http_waf_redis_hello (s : rst) : option (bool * rst) :=
  let c := (snd s).(r_conf) in
  r ← (if zlen c.(rc_password) =? 0 then Some (true, s)
       else ngx_http_waf_redis_queue ([lit "AUTH"] ++ (if zlen c.(rc_user) =? 0 then [] else [c.(rc_user)]) ++ [c.(rc_password)]) s);
  let '(ok, s) := r in
  if negb ok then Some (false, s)
  else if c.(rc_db) =? 0 then Some (true, s)
  else ngx_http_waf_redis_queue [lit "SELECT"; sprintf_ui c.(rc_db)] s.

Definition ngx_http_waf_redis_on_connected (s : rst) : option (bool * rst) :=
  r ← ngx_http_waf_redis_hello s;
  let '(ok, s) := r in
  if negb ok then Some (false, s) else Some (true, ((fst s) <| k_ready := true |>, snd s)).

(** ** Answers *)

(** What a line starts with. *)
Definition colon_c : Z := 58.
Definition minus_c : Z := 45.
Definition dollar_c : Z := 36.

(** The announcement of [n] bytes. *)
Definition bulk_line (n : Z) (r : redis_t) : redis_t :=
  let refuse r := r <| r_skip := n + 2 |> <| r_skip_err := true |> in
  match head r.(r_queue) with
  | Some e =>
      if e.(e_bulk) then
        match e.(e_op) with
        | None => refuse r
        | Some op =>
            if op.(o_len) <? n then refuse r
            else
              let '(ok, mem) := alloc r.(r_mem) in
              let r := r <| r_mem := mem |> in
              if negb ok then refuse (r <| r_bulk := None |>)
              else r <| r_bulk := Some [] |> <| r_bulk_size := n |> <| r_bulk_need := n + 2 |>
        end
      else r <| r_skip := n + 2 |>
  | None => r <| r_skip := n + 2 |>
  end.
(** [n < 0]: no such key, or the answer to a command that reads nothing. *)
Definition nil_status (r : redis_t) : ngx_rc :=
  match head r.(r_queue) with Some e => if e.(e_bulk) then NGX_DECLINED else NGX_OK | None => NGX_OK end.

Definition resp_turn (u : bytes) (s : rst) : option (turn_r rst) :=
  let r := snd s in
  if negb (r.(r_bulk_need) =? 0) then
    let took := Nat.min (length u) (Z.to_nat r.(r_bulk_need)) in
    let got := zlen (default [] r.(r_bulk)) in
    let len := if got <? r.(r_bulk_size) then Z.min (Z.of_nat took) (r.(r_bulk_size) - got) else 0 in
    let s := on_r (fun r => r <| r_bulk ::= fmap (fun b => b ++ take (Z.to_nat len) u) |>
                              <| r_bulk_need ::= fun n => n - Z.of_nat took |>) s in
    if negb ((snd s).(r_bulk_need) =? 0) then Some (TURN_STOP took s)
    else s ← ngx_http_waf_redis_bulk_ready s; Some (TURN_GO took s)
  else if negb (r.(r_skip) =? 0) then
    let took := Nat.min (length u) (Z.to_nat r.(r_skip)) in
    let s := on_r (fun r => r <| r_skip ::= fun n => n - Z.of_nat took |>) s in
    if negb ((snd s).(r_skip) =? 0) then Some (TURN_STOP took s)
    else
      s ← (if (snd s).(r_skip_err)
           then ngx_http_waf_redis_entry_done NGX_ERROR (on_r (fun r => r <| r_skip_err := false |>) s)
           else ngx_http_waf_redis_entry_done NGX_OK s);
      Some (TURN_GO took s)
  else
    match ngx_strlchr u 10 with
    | None => Some (TURN_STOP 0 s)
    | Some i =>
        let line := take (if negb (Nat.eqb i 0) && bool_decide (u !! (i - 1)%nat = Some 13) then i - 1 else i) u in
        let c := default 0 (head u) in
        let go s := Some (TURN_GO (S i) s) in
        if (c =? plus_c) || (c =? colon_c) then s ← ngx_http_waf_redis_entry_done NGX_OK s; go s
        else if c =? minus_c then s ← ngx_http_waf_redis_entry_done NGX_ERROR s; go s
        else if c =? dollar_c then
          match ngx_atoi (drop 1 line) with
          | None => s ← ngx_http_waf_redis_entry_done (nil_status (snd s)) s; go s
          | Some n => go (on_r (bulk_line n) s)
          end
        else Some (TURN_FAIL (S i) s)
    end.

Definition ngx_http_waf_redis_parse : inbuf -> rst -> option (bool * inbuf * rst) := feed_buffer resp_turn.
Definition ngx_http_waf_redis_on_read := ngx_http_waf_redis_parse.

End redis.

(** ** The choice of a connection *)

Record peer_t := mkPeer { p_ready : bool; p_name : option bytes; p_inflight : Z }.

Definition pick_match (hint : bytes) (p : peer_t) : bool :=
  p.(p_ready) && ((zlen hint =? 0) || match p.(p_name) with Some n => bytes_eqb n hint | None => false end).
(** The loop over the connections from [i] on, with the best so far. *)
Fixpoint pick_loop (hint : bytes) (conns : list peer_t) (i : nat) (best : option (nat * Z)) : option (nat * Z) :=
  match conns with
  | [] => best
  | p :: conns =>
      let best := if pick_match hint p && match best with None => true | Some (_, n) => p.(p_inflight) <? n end
                  then Some (i, p.(p_inflight)) else best in
      pick_loop hint conns (S i) best
  end.
Definition ngx_http_waf_redis_pick (conns : list peer_t) (hint : bytes) : option nat :=
  match pick_loop hint conns 0 None with
  | Some (i, _) => Some i
  | None => if negb (zlen hint =? 0) then fst <$> pick_loop [] conns 0 None else None
  end.

End Redis.
