(* ===== verification/RedisFacts.v ===== *)
(** Facts about the Redis driver (Redis.v): a command is written as a whole or
    not at all, and every operation that is accepted ends exactly once. *)
From stdpp Require Import base list gmap.
From S2P Require Import Prelude Types ReplyText Select Link LinkFacts Redis.
Import Select Link LinkFacts Redis.
#[local] Open Scope Z_scope.

Module RedisFacts.

(** ** Commands *)

Section commands.
Context (sprintf_ui : Z -> bytes).

(** The text of a command, in the protocol of Redis. *)
Definition resp_arg (a : bytes) : bytes := arg_head sprintf_ui a ++ a ++ [13; 10].
Definition resp_text (argv : list bytes) : bytes := cmd_head sprintf_ui (zlen argv) ++ concat (resp_arg <$> argv).

Lemma pieces_text argv : concat (cmd_pieces sprintf_ui argv) = resp_text argv.
Proof.
  unfold cmd_pieces, resp_text. cbn [concat]. f_equal. induction argv as [|a argv IH]; [done|]. cbn [fmap list_fmap concat app].
  rewrite concat_app, IH. unfold resp_arg. rewrite <- !app_assoc. f_equal.
  destruct (Z.eqb_spec (zlen a) 0) as [E|E]; cbn [app concat]; rewrite <- ?app_assoc; [|done].
  destruct a; [done|]. rewrite zlen_cons in E. pose proof (zlen_nonneg a). lia.
Qed.

(** With room for it, a piece goes out and takes no more than its size. *)
Lemma out_room data k : out_wf k -> zlen (k_out k) + zlen data <= k_out_size k ->
  exists k', ngx_http_waf_link_out data k = Some (true, k') /\ out_wf k' /\ rest_out k' = rest_out k /\ k_out_size k' = k_out_size k /\
    unsent k' = unsent k ++ data /\ zlen (k_out k') <= zlen (k_out k) + zlen data.
Proof.
  intros (W1 & W2 & W3) Hr. unfold ngx_http_waf_link_out, ngx_http_waf_link_reserve. pose proof (zlen_nonneg data). pose proof (zlen_nonneg (k_out k)).
  destruct (Nat.eqb_spec (k_out_pos k) (length (k_out k))) as [E|E]; cbn [k_out_size k_out k_out_pos].
  - set (k1 := k <| k_out := [] |> <| k_out_pos := 0%nat |>). change (k_out_size k1) with (k_out_size k). change (k_out k1) with (@nil Z).
    change (zlen []) with 0. rewrite (proj2 (Z.leb_le _ _)) by (pose proof (zlen_nonneg (k_out k)); lia). cbn [mbind option_bind negb].
    eexists. split; [reflexivity|]. split; [unfold out_wf; cbn; lia|]. split_and!; try done.
    + unfold unsent. cbn. by rewrite E, drop_all, drop_0.
    + cbn. lia.
  - rewrite (proj2 (Z.leb_le _ _)) by lia. cbn [mbind option_bind negb]. eexists. split; [reflexivity|]. split; [unfold out_wf; cbn; rewrite zlen_app, length_app; lia|]. split_and!; try done.
    + unfold unsent. cbn. by rewrite drop_app_le.
    + cbn. rewrite zlen_app. lia.
Qed.

Lemma out_all_room pieces k : out_wf k -> zlen (k_out k) + zlen (concat pieces) <= k_out_size k ->
  exists k', out_all pieces k = Some k' /\ out_wf k' /\ rest_out k' = rest_out k /\ unsent k' = unsent k ++ concat pieces.
Proof.
  revert k. induction pieces as [|p pieces IH]; intros k W Hr; cbn [out_all concat].
  { exists k. by rewrite app_nil_r. }
  cbn [concat] in Hr. rewrite zlen_app in Hr. pose proof (zlen_nonneg (concat pieces)).
  destruct (out_room p k W) as (k1 & -> & W1 & R1 & S1 & U1 & L1); [lia|]. cbn [mbind option_bind snd].
  destruct (IH k1 W1) as (k2 & -> & W2 & R2 & U2); [lia|]. exists k2. split_and!; [done|done|congruence|]. by rewrite U2, U1, app_assoc.
Qed.

Lemma cmd_size argv : zlen (cmd_head sprintf_ui (zlen argv)) + foldr Z.add 0 ((fun a => zlen (arg_head sprintf_ui a) + zlen a + 2) <$> argv) = zlen (resp_text argv).
Proof.
  unfold resp_text. rewrite zlen_app. f_equal. induction argv as [|a argv IH]; [done|]. cbn [fmap list_fmap foldr concat]. rewrite IH. unfold resp_arg.
  rewrite !zlen_app. change (zlen [13; 10]) with 2. lia.
Qed.

Lemma command_spec argv k : out_wf k ->
  exists ok k', ngx_http_waf_redis_command sprintf_ui argv k = Some (ok, k') /\ out_wf k' /\ rest_out k' = rest_out k /\
    unsent k' = unsent k ++ (if ok then resp_text argv else []).
Proof.
  intros W. unfold ngx_http_waf_redis_command. rewrite cmd_size.
  destruct (reserve_spec (zlen (resp_text argv)) k W (zlen_nonneg _)) as (ok & k1 & -> & W1 & R1 & U1 & S1). cbn [mbind option_bind].
  destruct ok; cbn [negb].
  - destruct (out_all_room (cmd_pieces sprintf_ui argv) k1 W1) as (k2 & -> & W2 & R2 & U2); [rewrite pieces_text; auto|]. cbn [mbind option_bind].
    exists true, k2. rewrite U2, U1, pieces_text. split_and!; [done|done|congruence|done].
  - exists false, k1. rewrite app_nil_r. split_and!; done.
Qed.

End commands.

(** ** The queue *)

Definition queued_of (e : redis_ev) : option Z := match e with REV_QUEUED o => Some o | _ => None end.
Definition ended_of (e : redis_ev) : option Z := match e with REV_DONE o _ _ | REV_GONE o => Some o | REV_QUEUED _ => None end.
(** Operations that were accepted, that have ended, that wait. *)
Definition queued (r : redis_t) : list Z := omap queued_of r.(r_log).
Definition ended (r : redis_t) : list Z := omap ended_of r.(r_log).
Definition waiting (r : redis_t) : list Z := o_id <$> omap e_op r.(r_queue).
Definition entry_ids (r : redis_t) : list nat := (e_id <$> r.(r_queue)) ++ r.(r_free).

Record rwf (r : redis_t) : Prop := mkRwf {
  rw_ids : NoDup (entry_ids r);
  rw_next : Forall (fun i => (i < r.(r_next))%nat) (entry_ids r);
  rw_inflight : r.(r_inflight) = zlen r.(r_queue);
  rw_op : forall e o, e ∈ r.(r_queue) -> e.(e_op) = Some o -> e.(e_cln) = Some o.(o_id) /\ e.(e_timer) = true;
  rw_cln : forall e x, e ∈ r.(r_queue) -> e.(e_cln) = Some x -> r.(r_cln) !! x = Some e.(e_id);
  rw_back : forall x i, r.(r_cln) !! x = Some i -> exists e, e ∈ r.(r_queue) /\ e.(e_id) = i /\ e.(e_cln) = Some x;
  rw_known : forall x, is_Some (r.(r_cln) !! x) -> x ∈ queued r;
  rw_once : NoDup (queued r);
  rw_sum : queued r ≡ₚ ended r ++ waiting r
}.

Definition req_ids (q : req_t) : list Z := match q with REQ_PUT op _ _ _ | REQ_GET op _ => [op.(o_id)] | REQ_DEL _ => [] end.
Definition calls_ids (r : redis_t) : list Z := concat (r.(r_calls)) ≫= req_ids.
(** The operations of [ids] and of the calls to come are new. *)
Definition new_ids (ids : list Z) (r : redis_t) : Prop :=
  NoDup (ids ++ calls_ids r) /\ (forall x, x ∈ ids ++ calls_ids r -> x ∉ queued r).

Lemma new_ids_sub ids ids' r r' : new_ids ids r -> ids' ++ calls_ids r' ⊆+ ids ++ calls_ids r -> queued r' = queued r -> new_ids ids' r'.
Proof.
  intros [H1 H2] Hs Hq. split.
  - apply submseteq_Permutation in Hs as [k Hk]. rewrite Hk in H1. by apply NoDup_app in H1 as [H1 _].
  - rewrite Hq. intros x Hx. apply H2. by eapply elem_of_submseteq.
Qed.

(** Fields that the queue does not depend on. *)
Definition same_queue (r r' : redis_t) : Prop :=
  r'.(r_queue) = r.(r_queue) /\ r'.(r_free) = r.(r_free) /\ r'.(r_next) = r.(r_next) /\ r'.(r_inflight) = r.(r_inflight) /\
  r'.(r_cln) = r.(r_cln) /\ r'.(r_log) = r.(r_log).
Lemma rwf_same r r' : same_queue r r' -> rwf r -> rwf r'.
Proof.
  intros (E1 & E2 & E3 & E4 & E5 & E6) W. destruct r, r'. cbn in *. subst. destruct W as [A B C D E F G I J]. by constructor.
Qed.

Lemma entry_get_spec r : rwf r ->
  let '(i, r') := ngx_http_waf_redis_entry_get r in
  r'.(r_queue) = r.(r_queue) /\ r'.(r_inflight) = r.(r_inflight) /\ r'.(r_cln) = r.(r_cln) /\ r'.(r_log) = r.(r_log) /\
  r'.(r_calls) = r.(r_calls) /\ r'.(r_conf) = r.(r_conf) /\
  match i with
  | Some i => NoDup (i :: entry_ids r') /\ Forall (fun j => (j < r'.(r_next))%nat) (i :: entry_ids r')
  | None => r'.(r_free) = r.(r_free) /\ r'.(r_next) = r.(r_next)
  end.
Proof.
  intros W. pose proof (rw_ids _ W) as H1. pose proof (rw_next _ W) as H2. unfold ngx_http_waf_redis_entry_get. destruct (r_free r) as [|i free] eqn:Ef.
  - destruct (alloc (r_mem r)) as [[] mem]; [|by split_and!]. split_and!; try done.
    + constructor; [|exact H1]. intros Hin. rewrite Forall_forall in H2. specialize (H2 _ Hin). cbn in H2. lia.
    + constructor; [cbn; lia|]. eapply Forall_impl; [exact H2|]. cbn. intros j Hj. lia.
  - split_and!; try done; unfold entry_ids in *; rewrite Ef in *; cbn.
    + rewrite Permutation_middle. exact H1.
    + rewrite Permutation_middle. exact H2.
Qed.

(** An entry that was got and is given back. *)
Lemma free_unused i r : rwf r -> NoDup (i :: entry_ids r) -> Forall (fun j => (j < r.(r_next))%nat) (i :: entry_ids r) ->
  rwf (ngx_http_waf_redis_entry_free (entry0 i) r).
Proof.
  intros [A B C D E F G I J] H1 H2. constructor; cbn; try done; unfold entry_ids; cbn.
  - by rewrite <- Permutation_middle.
  - by rewrite <- Permutation_middle.
Qed.

Lemma omap_snoc {A B} (f : A -> option B) l x : omap f (l ++ [x]) = omap f l ++ option_list (f x).
Proof. rewrite omap_app. cbn. by destruct (f x). Qed.

(** An entry for a command that nobody waits for. *)
Lemma push_idle i r : rwf r -> NoDup (i :: entry_ids r) -> Forall (fun j => (j < r.(r_next))%nat) (i :: entry_ids r) ->
  rwf (ngx_http_waf_redis_entry_push (entry0 i) r).
Proof.
  intros [A B C D E F G I J] H1 H2. constructor; cbn; try done; unfold entry_ids, waiting; cbn.
  - rewrite fmap_app, <- app_assoc. cbn. by rewrite <- Permutation_middle.
  - rewrite fmap_app, <- app_assoc. cbn. by rewrite <- Permutation_middle.
  - rewrite C, zlen_snoc. lia.
  - intros e o He. apply elem_of_app in He as [He|He]; [by apply D|]. apply list_elem_of_singleton in He as ->. done.
  - intros e x He. apply elem_of_app in He as [He|He]; [by apply E|]. apply list_elem_of_singleton in He as ->. done.
  - intros x j Hx. destruct (F x j Hx) as (e & He & H'). exists e. split; [apply elem_of_app; by left|done].
  - rewrite omap_snoc. cbn. by rewrite app_nil_r.
Qed.

(** The entry of an operation that is new. *)
Lemma push_op i op bulk r : rwf r -> NoDup (i :: entry_ids r) -> Forall (fun j => (j < r.(r_next))%nat) (i :: entry_ids r) -> op.(o_id) ∉ queued r ->
  rwf (noted (REV_QUEUED op.(o_id)) (ngx_http_waf_redis_entry_push (mkEntry i (Some op) bulk true (Some op.(o_id))) (r <| r_cln ::= <[op.(o_id) := i]> |>))).
Proof.
  intros [A B C D E F G I J] H1 H2 Hn. assert (Hnc : r_cln r !! o_id op = None) by (destruct (r_cln r !! o_id op) eqn:Ex; [|done]; exfalso; apply Hn, G; by eexists).
  constructor; cbn; unfold entry_ids, waiting, queued, ended; cbn; rewrite ?omap_snoc; cbn.
  - rewrite fmap_app, <- app_assoc. cbn. by rewrite <- Permutation_middle.
  - rewrite fmap_app, <- app_assoc. cbn. by rewrite <- Permutation_middle.
  - rewrite C, zlen_snoc. lia.
  - intros e o He. apply elem_of_app in He as [He|He]; [by apply D|]. apply list_elem_of_singleton in He as ->. cbn. by intros [= ->].
  - intros e x He Hx. apply elem_of_app in He as [He|He].
    + rewrite lookup_insert_ne; [by apply E|]. intros <-. by rewrite (E e _ He Hx) in Hnc.
    + apply list_elem_of_singleton in He as ->. cbn in Hx. injection Hx as <-. cbn. by rewrite lookup_insert_eq.
  - intros x j Hx. destruct (decide (x = o_id op)) as [->|Hne].
    + rewrite lookup_insert_eq in Hx. injection Hx as <-. eexists. split; [apply elem_of_app; right; by apply list_elem_of_singleton|done].
    + rewrite lookup_insert_ne in Hx by done. destruct (F x j Hx) as (e & He & H'). exists e. split; [apply elem_of_app; by left|done].
  - intros x Hx. apply elem_of_app. destruct (decide (x = o_id op)) as [->|Hne]; [right; by apply list_elem_of_singleton|left].
    rewrite lookup_insert_ne in Hx by done. by apply G.
  - apply NoDup_app. split; [done|]. split; [|apply NoDup_singleton]. intros x Hx Hy. apply list_elem_of_singleton in Hy as ->. done.
  - rewrite fmap_app, app_nil_r. cbn. unfold queued, ended, waiting in J. rewrite J. by rewrite app_assoc.
Qed.

(** The head of the queue, taken off. *)
Lemma pop_spec r op r' : rwf r -> entry_pop r = Some (op, r') ->
  r'.(r_log) = r.(r_log) /\ r'.(r_calls) = r.(r_calls) /\ r'.(r_conf) = r.(r_conf) /\
  (exists e, r.(r_queue) = e :: r'.(r_queue) /\ e.(e_op) = op) /\
  forall evs, omap queued_of evs = [] -> omap ended_of evs = option_list (o_id <$> op) -> rwf (r' <| r_log := r.(r_log) ++ evs |>).
Proof.
  intros [A B C D E F G I J]. unfold entry_pop. destruct (r_queue r) as [|e q] eqn:Eq; [done|]. intros [= <- <-].
  unfold ngx_http_waf_redis_entry_free.
  set (cln := match e_cln e with Some o => delete o (r_cln r) | None => r_cln r end).
  split_and!; try done; [by exists e|].
  assert (Hid : forall e', e' ∈ q -> e_id e' <> e_id e).
  { intros e' He' Hid. unfold entry_ids in A. rewrite Eq in A. cbn in A. apply NoDup_cons in A as [A _]. apply A. apply elem_of_app. left.
    apply list_elem_of_fmap. by exists e'. }
  assert (Hcl : forall x j, cln !! x = Some j -> r_cln r !! x = Some j /\ e_cln e <> Some x).
  { intros x j. unfold cln. destruct (e_cln e) as [o|] eqn:Ec; [|done]. rewrite lookup_delete_Some. intros [Hne Hx]. split; [done|congruence]. }
  intros evs Hq He. constructor; cbn; unfold entry_ids, waiting, queued, ended in *; cbn; rewrite ?omap_app, ?Hq, ?He, ?app_nil_r; rewrite ?Eq in *; cbn in *.
  - by rewrite <- Permutation_middle.
  - by rewrite <- Permutation_middle.
  - rewrite C, zlen_cons. lia.
  - intros e' o He'. apply D. by right.
  - intros e' x He' Hx. pose proof (E e' x ltac:(by right) Hx) as H1. unfold cln. destruct (e_cln e) as [o|] eqn:Ec; [|done].
    rewrite lookup_delete_ne; [done|]. intros ->. pose proof (E e x ltac:(by left) Ec) as H2. rewrite H1 in H2. injection H2 as H2. by apply (Hid e').
  - intros x j Hx. destruct (Hcl x j Hx) as [H1 H2]. destruct (F x j H1) as (e' & He' & H3 & H4). exists e'. split; [|done].
    apply elem_of_cons in He' as [->|He']; [congruence|done].
  - intros x [j Hx]. destruct (Hcl x j Hx) as [H1 _]. apply G. by eexists.
  - done.
  - rewrite J. destruct (e_op e) as [o|]; cbn; rewrite <- !app_assoc; cbn; [|done]. done.
Qed.

(** An entry that stays in the queue, its operation gone. *)
Lemma clear_spec r j e e' cln evs : rwf r -> r.(r_queue) !! j = Some e -> e'.(e_id) = e.(e_id) -> e'.(e_op) = None ->
  (e'.(e_cln) = e.(e_cln) /\ cln = r.(r_cln) \/ e'.(e_cln) = None /\ exists o, e.(e_cln) = Some o /\ cln = delete o r.(r_cln)) ->
  omap queued_of evs = [] -> omap ended_of evs = option_list (o_id <$> e.(e_op)) ->
  rwf (r <| r_queue := <[j := e']> r.(r_queue) |> <| r_cln := cln |> <| r_log := r.(r_log) ++ evs |>).
Proof.
  intros [A B C D E F G I J] Hj Hid Hop Hcl Hq He. pose proof (lookup_lt_Some _ _ _ Hj) as Hlt.
  assert (Hids : e_id <$> <[j := e']> (r_queue r) = e_id <$> r_queue r).
  { rewrite list_fmap_insert, Hid. apply list_insert_id. by rewrite list_lookup_fmap, Hj. }
  assert (Hein : e ∈ r_queue r) by (by eapply list_elem_of_lookup_2).
  assert (Hin' : e' ∈ <[j := e']> (r_queue r)) by (eapply list_elem_of_lookup_2; by apply list_lookup_insert_eq).
  assert (Hat : forall k x, r_queue r !! k = Some x -> e_id x = e_id e -> j = k).
  { intros k x Hk Hxi. unfold entry_ids in A. apply NoDup_app in A as [A _].
    eapply (NoDup_lookup (e_id <$> r_queue r)); [exact A| |]; rewrite list_lookup_fmap; [by rewrite Hj|]. by rewrite Hk, <- Hxi. }
  assert (Hsame : forall x, x ∈ r_queue r -> e_id x = e_id e -> x = e).
  { intros x Hx Hxi. apply list_elem_of_lookup in Hx as [k Hk]. pose proof (Hat k x Hk Hxi) as ->. congruence. }
  assert (Hmem : forall x, x ∈ <[j := e']> (r_queue r) -> x = e' \/ x ∈ r_queue r /\ e_id x <> e_id e).
  { intros x Hx. apply list_elem_of_lookup in Hx as [k Hk]. apply list_lookup_insert_Some in Hk as [(-> & <- & _)|(Hne & Hk)]; [by left|right].
    split; [by eapply list_elem_of_lookup_2|]. intros Hxi. apply Hne. by apply (Hat k x). }
  assert (Hother : forall x, x ∈ r_queue r -> e_id x <> e_id e -> x ∈ <[j := e']> (r_queue r)).
  { intros x Hx Hxi. apply list_elem_of_lookup in Hx as [k Hk]. eapply (list_elem_of_lookup_2 _ k). rewrite list_lookup_insert_ne; [done|]. congruence. }
  constructor; cbn; unfold entry_ids, waiting, queued, ended in *; cbn; rewrite ?omap_app, ?Hq, ?He, ?app_nil_r, ?Hids; try done.
  - rewrite C. unfold zlen. by rewrite length_insert.
  - intros x o Hx Hxo. apply Hmem in Hx as [->|[Hx _]]; [congruence|by eapply D].
  - intros x y Hx Hy. apply Hmem in Hx as [->|[Hx H4]].
    + destruct Hcl as [[H1 ->]|[H1 _]]; [|congruence]. rewrite Hid. apply E; [done|congruence].
    + pose proof (E x y Hx Hy) as H1. destruct Hcl as [[_ ->]|(H2 & o & H3 & ->)]; [done|].
      rewrite lookup_delete_ne; [done|]. intros ->. pose proof (E e y Hein H3). congruence.
  - intros x i Hx. destruct Hcl as [[H1 ->]|(H1 & o & H2 & ->)].
    + destruct (F x i Hx) as (y & Hy & H3 & H4). destruct (decide (e_id y = e_id e)) as [H5|H5].
      * pose proof (Hsame y Hy H5) as ->. exists e'. split_and!; [done|congruence|congruence].
      * exists y. auto.
    + apply lookup_delete_Some in Hx as [Hne Hx]. destruct (F x i Hx) as (y & Hy & H3 & H4). exists y. split; [|done].
      apply Hother; [done|]. intros H5. pose proof (Hsame y Hy H5) as ->. congruence.
  - intros x Hx. apply G. destruct Hcl as [[_ ->]|(_ & o & _ & ->)]; [done|]. destruct Hx as [i Hx]. apply lookup_delete_Some in Hx as [_ Hx]. by eexists.
  - rewrite J. rewrite insert_take_drop by done. rewrite <- (take_drop_middle _ _ _ Hj) at 1. rewrite !omap_app, !fmap_app. cbn. rewrite Hop.
    destruct (e_op e) as [o|]; cbn; [|by rewrite app_nil_r]. rewrite <- !app_assoc. apply Permutation_app_head. by rewrite <- Permutation_middle.
Qed.

(** ** Requests *)

Record rinv (ids : list Z) (s : rst) : Prop := mkRinv { ri_out : out_wf (fst s); ri_wf : rwf (snd s); ri_new : new_ids ids (snd s) }.

(** The registers of the parser. *)
Definition regs (r : redis_t) := (r.(r_skip), r.(r_skip_err), r.(r_bulk), r.(r_bulk_size), r.(r_bulk_need), r.(r_conf)).
(** From [s] to [s'] entries were put behind the queue and bytes behind the
    output. *)
Record grown (s s' : rst) : Prop := mkGrown {
  gr_link : rest_out (fst s') = rest_out (fst s);
  gr_regs : regs (snd s') = regs (snd s);
  gr_queue : exists es, (snd s').(r_queue) = (snd s).(r_queue) ++ es;
  gr_mem : (snd s).(r_mem) = [] -> (snd s').(r_mem) = []
}.
Lemma rgrown_refl s : grown s s.
Proof. constructor; try done. exists []. by rewrite app_nil_r. Qed.
Lemma grown_trans s1 s2 s3 : grown s1 s2 -> grown s2 s3 -> grown s1 s3.
Proof.
  intros [A B [es C] D] [A' B' [es' C'] D']. constructor; [congruence|congruence| |auto]. exists (es ++ es'). by rewrite C', C, app_assoc.
Qed.
Lemma rest_ready k k' : rest_out k' = rest_out k -> k'.(k_ready) = k.(k_ready).
Proof. intros E. exact (f_equal k_ready E). Qed.
Lemma rest_conn k k' : rest_out k' = rest_out k -> k'.(k_conn) = k.(k_conn).
Proof. intros E. exact (f_equal k_conn E). Qed.

(** The same without the queue. *)
Definition held (s s' : rst) : Prop :=
  rest_out (fst s') = rest_out (fst s) /\ regs (snd s') = regs (snd s) /\ ((snd s).(r_mem) = [] -> (snd s').(r_mem) = []).
Lemma grown_held s s' : grown s s' -> held s s'.
Proof. by intros [A B _ D]. Qed.
Lemma held_trans s1 s2 s3 : held s1 s2 -> held s2 s3 -> held s1 s3.
Proof. intros (A & B & C) (A' & B' & C'). split_and!; [congruence|congruence|auto]. Qed.

Lemma get_grown r : r_mem r = [] -> r_mem (snd (ngx_http_waf_redis_entry_get r)) = [].
Proof. unfold ngx_http_waf_redis_entry_get. intros E. destruct (r_free r); [|done]. by rewrite E. Qed.
Lemma get_regs r : regs (snd (ngx_http_waf_redis_entry_get r)) = regs r.
Proof. unfold ngx_http_waf_redis_entry_get. destruct (r_free r); [|done]. by destruct (alloc (r_mem r)) as [[] mem]. Qed.

Section requests.
Context `{NgxString} (sprintf_ui : Z -> bytes).

Lemma got_wf r i r1 : rwf r -> ngx_http_waf_redis_entry_get r = (i, r1) -> rwf r1.
Proof.
  intros W Eg. pose proof (entry_get_spec r W) as Hs. rewrite Eg in Hs. destruct Hs as (H1 & H2 & H3 & H4 & H5 & H6 & H7).
  destruct W as [A B C D E F G I J]. destruct i as [i|].
  - destruct H7 as [H7 H8]. apply NoDup_cons in H7 as [_ H7]. apply Forall_cons in H8 as [_ H8].
    constructor; unfold queued, ended, waiting in *; rewrite ?H1, ?H2, ?H3, ?H4; try done.
  - destruct H7 as [H7 H8]. constructor; unfold entry_ids, queued, ended, waiting in *; rewrite ?H1, ?H2, ?H3, ?H4, ?H7, ?H8; try done.
Qed.

Lemma queue_spec argv ids s : rinv ids s ->
  exists ok s', ngx_http_waf_redis_queue sprintf_ui argv s = Some (ok, s') /\ rinv ids s' /\ grown s s' /\
    (ok = true -> unsent (fst s') = unsent (fst s) ++ resp_text sprintf_ui argv) /\ (ok = false -> unsent (fst s') = unsent (fst s)).
Proof.
  intros [O W N]. destruct s as [k r]. cbn [fst snd] in *. unfold ngx_http_waf_redis_queue.
  destruct (ngx_http_waf_redis_entry_get r) as [i r1] eqn:Eg. pose proof (got_wf r i r1 W Eg) as W1.
  pose proof (entry_get_spec r W) as Hs. rewrite Eg in Hs. destruct Hs as (H1 & H2 & H3 & H4 & H5 & H6 & H7).
  pose proof (get_grown r) as M1. rewrite Eg in M1. pose proof (get_regs r) as G1. rewrite Eg in G1. cbn [snd] in M1, G1.
  assert (N1 : forall r2, r_calls r2 = r_calls r -> r_log r2 = r_log r -> new_ids ids r2).
  { intros r2 Ec El. unfold new_ids, calls_ids, queued. by rewrite Ec, El. }
  destruct i as [i|].
  - destruct H7 as [H7 H8]. destruct (command_spec sprintf_ui argv k O) as (ok & k1 & -> & O1 & R1 & U1). cbn [mbind option_bind].
    destruct ok; cbn [negb]; (eexists _, _; split; [reflexivity|]).
    + split; [constructor; cbn; [done|by apply push_idle|by apply N1]|]. split; [|by split].
      constructor; cbn; [done|done|by eexists; rewrite H1|auto].
    + rewrite app_nil_r in U1. split; [constructor; cbn; [done|by apply free_unused|by apply N1]|]. split; [|by split].
      constructor; cbn; [done|done|exists []; by rewrite H1, app_nil_r|auto].
  - eexists _, _. split; [reflexivity|]. split; [by constructor; cbn; [done|done|apply N1]|]. split; [|done].
    constructor; cbn; try done. exists []. by rewrite H1, app_nil_r.
Qed.

Lemma op_queue_spec op bulk argv ids s : rinv (op.(o_id) :: ids) s ->
  exists ok s', op_queue sprintf_ui op bulk argv s = Some (ok, s') /\ rinv ids s' /\ grown s s' /\
    (if ok then unsent (fst s') = unsent (fst s) ++ resp_text sprintf_ui argv /\ (snd s').(r_log) = (snd s).(r_log) ++ [REV_QUEUED op.(o_id)]
     else unsent (fst s') = unsent (fst s) /\ (snd s').(r_log) = (snd s).(r_log)).
Proof.
  intros [O W N]. destruct s as [k r]. cbn [fst snd] in *. unfold op_queue.
  destruct (ngx_http_waf_redis_entry_get r) as [i r1] eqn:Eg. pose proof (got_wf r i r1 W Eg) as W1.
  pose proof (entry_get_spec r W) as Hs. rewrite Eg in Hs. destruct Hs as (H1 & H2 & H3 & H4 & H5 & H6 & H7).
  pose proof (get_grown r) as M1. rewrite Eg in M1. pose proof (get_regs r) as G1. rewrite Eg in G1. cbn [snd] in M1, G1.
  assert (N1 : forall r2, r_calls r2 = r_calls r -> r_log r2 = r_log r -> new_ids ids r2).
  { intros r2 Ec El. eapply new_ids_sub; [exact N| |unfold queued; by rewrite El]. unfold calls_ids. rewrite Ec. cbn. by apply submseteq_cons. }
  assert (Gr : forall k' r2, rest_out k' = rest_out k -> regs r2 = regs r1 -> r_queue r2 = r_queue r -> (r_mem r1 = [] -> r_mem r2 = []) -> grown (k, r) (k', r2)).
  { intros k' r2 A B C D. constructor; cbn; [done|congruence|exists []; by rewrite C, app_nil_r|auto]. }
  destruct i as [i|].
  2: { eexists _, _. split; [reflexivity|]. split; [by constructor; cbn; [done|done|apply N1]|]. split; [by apply Gr|done]. }
  destruct H7 as [H7 H8]. destruct (alloc (r_mem r1)) as [oka mem] eqn:Ea.
  set (r2 := r1 <| r_mem := mem |>). assert (W2 : rwf r2) by (by eapply rwf_same; [|exact W1]).
  assert (M2 : r_mem r1 = [] -> mem = []) by (intros Em; rewrite Em in Ea; cbn in Ea; congruence).
  destruct oka; cbn [negb].
  2: { eexists _, _. split; [reflexivity|]. split; [constructor; cbn; [done|by apply free_unused|by apply N1]|]. split; [by apply Gr|done]. }
  destruct (command_spec sprintf_ui argv k O) as (ok & k1 & -> & O1 & R1 & U1). cbn [mbind option_bind].
  assert (Hq : o_id op ∉ queued r2).
  { destruct N as [_ N]. unfold queued. change (r_log r2) with (r_log r1). rewrite H4. apply N. cbn. by left. }
  destruct ok; cbn [negb]; (eexists _, _; split; [reflexivity|]).
  - split; [constructor; [done|exact (push_op i op bulk r2 W2 H7 H8 Hq)|]|].
    + destruct N as [Na Nb]. split; [|].
      * unfold calls_ids in *. cbn in *. rewrite H5. by apply NoDup_cons in Na as [_ Na].
      * unfold calls_ids, queued in *. cbn in *. rewrite H5, H4, omap_snoc. cbn. intros x Hx Hy. apply elem_of_app in Hy as [Hy|Hy].
        -- apply (Nb x); [by right|done].
        -- apply list_elem_of_singleton in Hy as ->. apply NoDup_cons in Na as [Na _]. done.
    + split; [constructor; cbn; [done|done| |auto]|].
      * by eexists; rewrite H1.
      * cbn [fst snd]. split; [done|]. cbn. by rewrite H4.
  - rewrite app_nil_r in U1. split; [constructor; [done| |by apply N1]|].
    + apply (rwf_same (ngx_http_waf_redis_entry_free (entry0 i) r2)); [|by apply free_unused].
      split_and!; try done. cbn. rewrite delete_insert_id; [done|].
      destruct (r_cln r1 !! o_id op) as [j|] eqn:Ej; [|done]. exfalso. apply Hq. apply (rw_known _ W2). by exists j.
    + split; [by apply Gr|by split].
Qed.

Lemma rinv_sub ids ids' s : rinv ids s -> ids' ⊆+ ids -> rinv ids' s.
Proof.
  intros [O W N] Hs. constructor; [done|done|]. eapply new_ids_sub; [exact N| |done]. by apply submseteq_skips_r.
Qed.

Lemma do_req_spec q ids s : rinv (req_ids q ++ ids) s -> exists s', do_req sprintf_ui q s = Some s' /\ rinv ids s' /\ grown s s'.
Proof.
  intros I. assert (Hs : rinv ids s) by (eapply rinv_sub; [exact I|by apply submseteq_inserts_l]).
  unfold do_req. destruct (negb _); [exists s; split_and!; [done|done|apply rgrown_refl]|].
  destruct q as [op key data retain|op key|key]; cbn [req_ids app] in I.
  - unfold ngx_http_waf_drv_redis_put. destruct (_ <? _); [exists s; split_and!; [done|done|apply rgrown_refl]|].
    destruct (op_queue_spec op false (put_argv sprintf_ui (r_conf (snd s)) key data retain) ids s I) as (ok & s' & -> & I' & G & _). by exists s'.
  - unfold ngx_http_waf_drv_redis_get. destruct (op_queue_spec op true [lit "GET"; key] ids s I) as (ok & s' & -> & I' & G & _). by exists s'.
  - unfold ngx_http_waf_drv_redis_del. destruct (queue_spec [lit "DEL"; key] ids s I) as (ok & s' & -> & I' & G & _). by exists s'.
Qed.

Lemma do_reqs_spec qs ids s : rinv ((qs ≫= req_ids) ++ ids) s -> exists s', do_reqs sprintf_ui qs s = Some s' /\ rinv ids s' /\ grown s s'.
Proof.
  revert s. induction qs as [|q qs IH]; intros s I; cbn [do_reqs]; [exists s; split_and!; [done|done|apply rgrown_refl]|].
  cbn in I. rewrite <- app_assoc in I. destruct (do_req_spec q _ s I) as (s1 & -> & I1 & G1). cbn [mbind option_bind].
  destruct (IH s1 I1) as (s2 & -> & I2 & G2). exists s2. split_and!; [done|done|by eapply grown_trans].
Qed.

(** The call of a handler, once the operation is out of the queue. *)
Lemma handler_spec op status data ids s : out_wf (fst s) -> new_ids ids (snd s) -> rwf (noted (REV_DONE op.(o_id) status data) (snd s)) ->
  exists s', op_handler sprintf_ui op status data s = Some s' /\ rinv ids s' /\ grown s s'.
Proof.
  intros O N W. unfold op_handler. set (s1 := on_r _ s).
  assert (Eq1 : queued (snd s1) = queued (snd s)) by (unfold s1, queued; cbn; rewrite omap_snoc; cbn; apply app_nil_r).
  assert (G1 : forall c, grown s (on_r (fun r => r <| r_calls := c |>) s1)) by (intros c; constructor; try done; exists []; by rewrite app_nil_r).
  change (r_calls (snd s1)) with (r_calls (snd s)). destruct (r_calls (snd s)) as [|qs calls] eqn:Ec.
  - exists s1. split; [done|]. split; [|specialize (G1 (r_calls (snd s))); unfold s1 in *; by destruct s as [k []]].
    constructor; [done|exact W|]. eapply new_ids_sub; [exact N|done|exact Eq1].
  - set (s2 := on_r _ s1). assert (I2 : rinv ((qs ≫= req_ids) ++ ids) s2).
    { constructor; [done|by eapply rwf_same; [|exact W]|]. eapply new_ids_sub; [exact N| |exact Eq1].
      unfold calls_ids. rewrite Ec. unfold s2. cbn. rewrite bind_app. rewrite <- !app_assoc, Permutation_app_swap_app. done. }
    destruct (do_reqs_spec qs ids s2 I2) as (s3 & -> & I3 & G3). exists s3. split_and!; [done|done|]. eapply grown_trans; [apply G1|exact G3].
Qed.

(** ** Ends of operations *)

Lemma pop_new ids r op r' : rwf r -> entry_pop r = Some (op, r') -> new_ids ids r -> new_ids ids r'.
Proof.
  intros W Ep N. destruct (pop_spec r op r' W Ep) as (H1 & H2 & _). unfold new_ids, calls_ids, queued. by rewrite H1, H2.
Qed.

Lemma pop_held k r op r' : entry_pop r = Some (op, r') -> held (k, r) (k, r').
Proof. unfold entry_pop. destruct (r_queue r); [done|]. intros [= <- <-]. done. Qed.

Lemma done_spec status ids s : rinv ids s ->
  exists s', ngx_http_waf_redis_entry_done sprintf_ui status s = Some s' /\ rinv ids s' /\ held s s'.
Proof.
  intros [O W N]. unfold ngx_http_waf_redis_entry_done. destruct (entry_pop (snd s)) as [[op r']|] eqn:Ep; [|by exists s].
  pose proof (pop_held (fst s) _ _ _ Ep) as Hh. change (held s (fst s, r')) in Hh.
  pose proof (pop_new ids _ _ _ W Ep N) as N'. destruct (pop_spec _ _ _ W Ep) as (H1 & H2 & _ & _ & H5). destruct op as [op|].
  - destruct (handler_spec op status None ids (fst s, r') O N') as (s' & -> & I & G); [|exists s'; split_and!; [done|done|eapply held_trans; [exact Hh|by apply grown_held]]].
    specialize (H5 [REV_DONE (o_id op) status None] eq_refl eq_refl). eapply rwf_same; [|exact H5]. split_and!; try done. cbn. by rewrite H1.
  - exists (fst s, r'). split; [done|]. split; [|done]. constructor; [done| |done]. specialize (H5 [] eq_refl eq_refl). rewrite app_nil_r, <- H1 in H5. by destruct r'.
Qed.

Lemma bulk_clear_wf r : rwf (bulk_clear r) <-> rwf r.
Proof. split; intros W; (eapply rwf_same; [|exact W]); done. Qed.

Lemma bulk_ready_spec ids s : rinv ids s -> exists s', ngx_http_waf_redis_bulk_ready sprintf_ui s = Some s' /\ rinv ids s' /\ held (on_r bulk_clear s) s'.
Proof.
  intros [O W N]. destruct s as [k r]. cbn [fst snd] in *. unfold ngx_http_waf_redis_bulk_ready.
  assert (Hh : forall op r', entry_pop r = Some (op, r') -> forall mem, (r_mem r' = [] -> mem = []) ->
    held (on_r bulk_clear (k, r)) (k, bulk_clear (r' <| r_mem := mem |>))).
  { intros op r' Ep mem Hm. pose proof (pop_held k _ _ _ Ep) as (_ & H1 & H2). unfold regs in H1. cbn in H1. unfold held, regs. cbn.
    split; [done|]. split; [congruence|auto]. }
  destruct (entry_pop r) as [[op r']|] eqn:Ep.
  2: { eexists. split; [reflexivity|]. split; [|done]. constructor; [done|by apply bulk_clear_wf|done]. }
  pose proof (pop_new ids _ _ _ W Ep N) as N'. destruct (pop_spec _ _ _ W Ep) as (H1 & H2 & _ & _ & H5). destruct op as [op|].
  - destruct (alloc (r_mem r')) as [ok mem] eqn:Ea. set (st := if ok then NGX_OK else NGX_ERROR). set (data := if ok then Some _ else None).
    destruct (handler_spec op st data ids (k, bulk_clear (r' <| r_mem := mem |>)) O) as (s' & E & I & G);
      [done| |exists s'; split; [exact E|split; [done|]]].
    2: { eapply held_trans; [|by apply grown_held]. apply (Hh _ _ eq_refl). intros Em. rewrite Em in Ea. cbn in Ea. congruence. }
    specialize (H5 [REV_DONE (o_id op) st data] eq_refl eq_refl). eapply rwf_same; [|exact H5]. split_and!; try done. cbn. by rewrite H1.
  - eexists. split; [reflexivity|]. split.
    2: { specialize (Hh None r' eq_refl (r_mem r') ltac:(done)). by destruct r'. }
    constructor; [done| |done]. apply bulk_clear_wf. specialize (H5 [] eq_refl eq_refl). rewrite app_nil_r, <- H1 in H5. by destruct r'.
Qed.

Lemma timeout_spec i ids s : rinv ids s ->
  exists s', ngx_http_waf_redis_on_timeout sprintf_ui i s = Some s' /\ rinv ids s' /\ held s s'.
Proof.
  intros [O W N]. unfold ngx_http_waf_redis_on_timeout. destruct (list_find _ _) as [[j e]|] eqn:Ef; [|by exists s].
  apply list_find_Some in Ef as (Hj & _ & _). set (e' := e <| e_timer := false |> <| e_op := None |>). set (s1 := on_r _ s).
  assert (N1 : new_ids ids (snd s1)) by done.
  assert (C : forall evs, omap queued_of evs = [] -> omap ended_of evs = option_list (o_id <$> e_op e) ->
    rwf ((snd s1) <| r_log := r_log (snd s) ++ evs |>)).
  { intros evs H1 H2. eapply rwf_same; [|eapply (clear_spec (snd s) j e e' (r_cln (snd s)) evs W Hj); [done|done|by left|done|done]]. done. }
  destruct (e_op e) as [op|] eqn:Eo.
  - destruct (handler_spec op NGX_ERROR None ids s1 O N1) as (s' & E & I & G);
      [|exists s'; split; [exact E|split; [done|eapply held_trans; [|by apply grown_held]; done]]].
    eapply rwf_same; [|exact (C [REV_DONE (o_id op) NGX_ERROR None] eq_refl eq_refl)]. done.
  - exists s1. split; [done|]. split; [|done]. constructor; [done| |done]. eapply rwf_same; [|exact (C [] eq_refl eq_refl)]. split_and!; try done. cbn. by rewrite app_nil_r.
Qed.

(** The cleanup of an operation detaches the entry of that operation, which is
    in the queue. *)
Lemma cleanup_spec o ids (s : rst) : rinv ids s -> rinv ids (on_r (op_cleanup o) s).
Proof.
  intros [O W N]. unfold op_cleanup, on_r. destruct s as [k r]. cbn [fst snd] in *. destruct (r_cln r !! o) as [i|] eqn:Ei; [|done].
  destruct (rw_back _ W o i Ei) as (e & He & Hi & Hc). apply list_elem_of_lookup in He as [j0 Hj0].
  unfold ngx_http_waf_redis_detach. set (r1 := r <| r_cln ::= delete o |>). change (r_queue r1) with (r_queue r).
  destruct (list_find (fun e => e_id e = i) (r_queue r)) as [[j e1]|] eqn:Ef.
  2: { exfalso. apply list_find_None in Ef. rewrite Forall_forall in Ef. apply (Ef e); [by eapply list_elem_of_lookup_2|done]. }
  apply list_find_Some in Ef as (Hj & Hi1 & _).
  assert (j = j0) as ->.
  { pose proof (rw_ids _ W) as Hn. unfold entry_ids in Hn. apply NoDup_app in Hn as [Hn _].
    eapply (NoDup_lookup (e_id <$> r_queue r)); [exact Hn| |]; rewrite list_lookup_fmap; [by rewrite Hj|]. rewrite Hj0. cbn. congruence. }
  rewrite Hj0 in Hj. injection Hj as <-.
  set (e' := e <| e_timer := false |> <| e_op := None |> <| e_cln := None |>).
  assert (C : forall evs, omap queued_of evs = [] -> omap ended_of evs = option_list (o_id <$> e_op e) ->
    rwf (r <| r_queue := <[j0 := e']> (r_queue r) |> <| r_cln := delete o (r_cln r) |> <| r_log := r_log r ++ evs |>)).
  { intros evs H1 H2. apply (clear_spec r j0 e e' _ evs W Hj0); [done|done|right; split; [done|by exists o]|done|done]. }
  destruct (e_op e) as [op|] eqn:Eo; constructor; try done.
  - eapply rwf_same; [|exact (C [REV_GONE (o_id op)] eq_refl eq_refl)]. done.
  - destruct N as [N1 N2]. split; [exact N1|]. unfold queued in *. cbn. rewrite omap_snoc. cbn. by rewrite app_nil_r.
  - eapply rwf_same; [|exact (C [] eq_refl eq_refl)]. split_and!; try done. cbn. by rewrite app_nil_r.
Qed.

Lemma drain_one_spec ids r : rwf r -> new_ids ids r ->
  rwf (drain_one r) /\ new_ids ids (drain_one r) /\ r_queue (drain_one r) = tail (r_queue r).
Proof.
  intros W N. unfold drain_one. destruct (entry_pop r) as [[op r']|] eqn:Ep.
  2: { unfold entry_pop in Ep. destruct (r_queue r) eqn:Eq; [|done]. by split_and!. }
  pose proof (pop_new ids _ _ _ W Ep N) as N'. destruct (pop_spec _ _ _ W Ep) as (H1 & H2 & _ & (e & H4 & _) & H5). rewrite H4. cbn [tail].
  destruct op as [op|].
  - split_and!; [|  |done].
    + eapply rwf_same; [|exact (H5 [REV_DONE (o_id op) NGX_ERROR None] eq_refl eq_refl)]. split_and!; try done. cbn. by rewrite H1.
    + eapply new_ids_sub; [exact N'| |].
      * unfold calls_ids. cbn. destruct (r_calls r') as [|qs calls]; [done|]. cbn. rewrite bind_app. apply submseteq_skips_l. by apply submseteq_inserts_l.
      * unfold queued. cbn. rewrite omap_snoc. cbn. apply app_nil_r.
  - split_and!; [|done|done]. specialize (H5 [] eq_refl eq_refl). rewrite app_nil_r, <- H1 in H5. by destruct r'.
Qed.

Lemma drain_spec ids r : rwf r -> new_ids ids r ->
  let r' := ngx_http_waf_redis_drain r in rwf r' /\ new_ids ids r' /\ r'.(r_queue) = [] /\ r'.(r_bulk_need) = 0 /\ r'.(r_skip) = 0.
Proof.
  intros W N. cbn zeta. unfold ngx_http_waf_redis_drain.
  assert (G : forall n r, rwf r -> new_ids ids r -> rwf (Nat.iter n drain_one r) /\ new_ids ids (Nat.iter n drain_one r) /\
    r_queue (Nat.iter n drain_one r) = drop n (r_queue r)).
  { induction n as [|n IH]; intros r0 W0 N0; [by rewrite drop_0|]. change (Nat.iter (S n) drain_one r0) with (drain_one (Nat.iter n drain_one r0)). destruct (IH r0 W0 N0) as (I1 & I2 & I3).
    destruct (drain_one_spec ids _ I1 I2) as (D1 & D2 & D3). split_and!; [done|done|]. rewrite D3, I3.
    assert (Ht : forall l : list entry_t, tail l = drop 1 l) by (by intros []). rewrite Ht, drop_drop. f_equal. lia. }
  destruct (G (length (r_queue r)) r W N) as (G1 & G2 & G3). split_and!; try done.
  - eapply rwf_same; [|exact G1]. done.
  - cbn. rewrite G3. apply drop_all.
Qed.

Definition redis_drop : rst -> rst := ngx_http_waf_link_drop ngx_http_waf_redis_on_close.
Lemma rdrop_spec ids s : rinv ids s -> rinv ids (redis_drop s) /\ (fst (redis_drop s)).(k_conn) = false /\ (snd (redis_drop s)).(r_queue) = [].
Proof.
  intros [O W N]. destruct (drain_spec ids (snd s) W N) as (D1 & D2 & D3 & _). unfold redis_drop. split_and!; [constructor|apply drop_conn|];
    rewrite ?drop_snd; try done. by apply drop_out_wf.
Qed.

End requests.

(** ** The choice of a connection *)

(** The first of the least busy among those that match. *)
Definition least (hint : bytes) (conns : list peer_t) (i : nat) : Prop :=
  exists p, conns !! i = Some p /\ pick_match hint p = true /\
    forall j q, conns !! j = Some q -> pick_match hint q = true -> p.(p_inflight) <= q.(p_inflight) /\ (p.(p_inflight) = q.(p_inflight) -> (i <= j)%nat).

Lemma pick_loop_spec hint seen todo best :
  (match best with
   | Some (i, n) => least hint seen i /\ (p_inflight <$> seen !! i) = Some n
   | None => Forall (fun p => pick_match hint p = false) seen
   end) ->
  match pick_loop hint todo (length seen) best with
  | Some (i, _) => least hint (seen ++ todo) i
  | None => Forall (fun p => pick_match hint p = false) (seen ++ todo)
  end.
Proof.
  revert seen best. induction todo as [|p todo IH]; intros seen best Hb; cbn [pick_loop].
  { rewrite app_nil_r. destruct best as [[i n]|]; [apply Hb|done]. }
  specialize (IH (seen ++ [p])). rewrite length_app, Nat.add_1_r, <- app_assoc in IH. apply IH. clear IH.
  assert (Hlast : forall j q, (seen ++ [p]) !! j = Some q -> seen !! j = Some q \/ (j = length seen /\ q = p)).
  { intros j q Hj. apply lookup_app_Some in Hj as [Hj|[Hge Hj]]; [by left|right]. apply list_lookup_singleton_Some in Hj as [Hj <-]. split; [lia|done]. }
  destruct (pick_match hint p) eqn:Em; cbn [andb].
  - destruct best as [[i n]|].
    + destruct Hb as [(b & B1 & B2 & B3) Hn]. rewrite B1 in Hn. cbn in Hn. injection Hn as <-. pose proof (lookup_lt_Some _ _ _ B1).
      destruct (Z.ltb_spec (p_inflight p) (p_inflight b)) as [Hlt|Hge].
      * split; [|by rewrite lookup_app_r, Nat.sub_diag by lia]. exists p. rewrite lookup_app_r, Nat.sub_diag by lia. split_and!; [done|done|].
        intros j q Hj Hq. destruct (Hlast j q Hj) as [Hj'|[-> ->]]; [|lia]. destruct (B3 j q Hj' Hq). lia.
      * split; [|by rewrite lookup_app_l, B1 by lia]. exists b. rewrite lookup_app_l by lia. split_and!; [done|done|].
        intros j q Hj Hq. destruct (Hlast j q Hj) as [Hj'|[-> ->]]; [by apply B3|lia].
    + split; [|by rewrite lookup_app_r, Nat.sub_diag by lia]. exists p. rewrite lookup_app_r, Nat.sub_diag by lia. split_and!; [done|done|].
      intros j q Hj Hq. destruct (Hlast j q Hj) as [Hj'|[-> ->]]; [|lia]. rewrite Forall_lookup in Hb. rewrite (Hb j q Hj') in Hq. done.
  - destruct best as [[i n]|]; [|apply Forall_app; split; [done|by repeat constructor]].
    destruct Hb as [(b & B1 & B2 & B3) Hn]. pose proof (lookup_lt_Some _ _ _ B1). rewrite lookup_app_l by lia. split; [|done].
    exists b. rewrite lookup_app_l by lia. split_and!; [done|done|]. intros j q Hj Hq. destruct (Hlast j q Hj) as [Hj'|[-> ->]]; [by apply B3|congruence].
Qed.

(** A connection is chosen whenever one is ready: the first of the least busy
    among those to the server that is asked for, if any of them is ready,
    otherwise among all. *)
Theorem pick_least_busy conns hint :
  match ngx_http_waf_redis_pick conns hint with
  | Some i => least hint conns i \/ Forall (fun p => pick_match hint p = false) conns /\ least [] conns i
  | None => Forall (fun p => p.(p_ready) = false) conns
  end.
Proof.
  unfold ngx_http_waf_redis_pick. pose proof (pick_loop_spec hint [] conns None ltac:(constructor)) as H1. cbn [length app] in H1.
  pose proof (pick_loop_spec [] [] conns None ltac:(constructor)) as H2. cbn [length app] in H2.
  destruct (pick_loop hint conns 0 None) as [[i n]|]; [by left|].
  assert (Hr : Forall (fun p => pick_match [] p = false) conns -> Forall (fun p => p_ready p = false) conns).
  { intros Hf. eapply Forall_impl; [exact Hf|]. intros p. unfold pick_match. change (zlen [] =? 0) with true. cbn. by rewrite andb_true_r. }
  destruct (Z.eqb_spec (zlen hint) 0) as [Eh|Eh]; cbn [negb].
  - apply Hr. replace hint with (@nil Z) in H1; [done|]. destruct hint; [done|]. rewrite zlen_cons in Eh. pose proof (zlen_nonneg hint). lia.
  - destruct (pick_loop [] conns 0 None) as [[i n]|]; cbn; [by right|by apply Hr].
Qed.

End RedisFacts.
