(* ===== verification/RedisRun.v ===== *)
(** The Redis driver in operation: answers in pieces of any size, new requests,
    time limits and requests that go away, in any order.  Every operation that
    is accepted ends exactly once. *)
From stdpp Require Import base list gmap.
From S2P Require Import Prelude Types ReplyText Select SelectFacts Link LinkFacts Redis RedisFacts.
Import Select SelectFacts Link LinkFacts Redis RedisFacts.
#[local] Open Scope Z_scope.

Module RedisRun.

(** What happens to a connection.  A time limit names the entry it belongs to,
    a cleanup the operation. *)
Inductive ract :=
  | RACT_READ (pieces : list bytes) (event : bool)
  | RACT_WRITE (sends : list send_r) (event : bool)
  | RACT_REQ (q : req_t)
  | RACT_TIMEOUT (i : nat)
  | RACT_CLEANUP (o : Z).

Section run.
Context `{HL : NgxStringLaws} (sprintf_ui : Z -> bytes).

Definition redis_read := ngx_http_waf_link_read_handler ngx_http_waf_redis_on_close (ngx_http_waf_redis_on_read sprintf_ui).

(** Events of the socket come as long as there is one. *)
Definition do_ract (a : ract) (b : inbuf) (s : rst) : option (inbuf * rst) :=
  match a with
  | RACT_READ pieces event =>
      if negb (fst s).(k_conn) then Some (b, s) else redis_read ((fun d _ => RECV d) <$> pieces) event b s
  | RACT_WRITE sends event =>
      if negb (fst s).(k_conn) then Some (b, s)
      else Some (b, ngx_http_waf_link_flush ngx_http_waf_redis_on_close sends event s)
  | RACT_REQ q => s ← do_req sprintf_ui q s; Some (b, s)
  | RACT_TIMEOUT i => s ← ngx_http_waf_redis_on_timeout sprintf_ui i s; Some (b, s)
  | RACT_CLEANUP o => Some (b, on_r (op_cleanup o) s)
  end.
Fixpoint do_racts (acts : list ract) (b : inbuf) (s : rst) : option (inbuf * rst) :=
  match acts with [] => Some (b, s) | a :: acts => r ← do_ract a b s; do_racts acts (fst r) (snd r) end.

(** The operations that are asked for. *)
Definition act_ids (a : ract) : list Z := match a with RACT_REQ q => req_ids q | _ => [] end.

(** ** The parser keeps the invariant *)

Definition pok (ids : list Z) (s : rst) : Prop := rinv ids s /\ 0 <= (snd s).(r_skip) /\ 0 <= (snd s).(r_bulk_need).

Lemma atoi_nonneg t n : ngx_atoi t = Some n -> 0 <= n.
Proof.
  intros Hn. apply ngx_atoi_spec in Hn as (D & _ & ->). unfold dec_value.
  assert (G : forall v, 0 <= v -> 0 <= fold_left (fun v c => v * 10 + (c - 48)) t v); [|by apply G].
  induction D as [|c t Hc D IH]; intros v Hv; cbn [fold_left]; [done|]. apply IH. unfold digit in Hc. lia.
Qed.

Lemma held_regs s s' : held s s' -> (snd s').(r_skip) = (snd s).(r_skip) /\ (snd s').(r_bulk_need) = (snd s).(r_bulk_need).
Proof. intros (_ & H1 & _). unfold regs in H1. by injection H1. Qed.

Lemma rinv_regs ids s s' : rinv ids s -> fst s' = fst s -> same_queue (snd s) (snd s') -> (snd s').(r_calls) = (snd s).(r_calls) -> rinv ids s'.
Proof.
  intros [O W N] E1 E2 E3. constructor; [by rewrite E1|by eapply rwf_same|]. destruct E2 as (_ & _ & _ & _ & _ & E2).
  unfold new_ids, calls_ids, queued. by rewrite E2, E3.
Qed.

Lemma bulk_line_same n r : same_queue r (bulk_line n r) /\ r_calls (bulk_line n r) = r_calls r /\
  (0 <= n -> 0 <= r_skip r -> 0 <= r_bulk_need r -> 0 <= r_skip (bulk_line n r) /\ 0 <= r_bulk_need (bulk_line n r)).
Proof.
  unfold bulk_line. destruct (head (r_queue r)) as [e|]; [|split_and!; try done; cbn; lia]. destruct (e_bulk e); [|split_and!; try done; cbn; lia].
  destruct (e_op e) as [op|]; [|split_and!; try done; cbn; lia]. destruct (_ <? _); [split_and!; try done; cbn; lia|].
  destruct (alloc (r_mem r)) as [[] mem]; split_and!; try done; cbn; lia.
Qed.

Lemma resp_total ids u s : pok ids s -> u <> [] ->
  exists t, resp_turn sprintf_ui u s = Some t /\ pok ids (turn_state t) /\ rest_out (fst (turn_state t)) = rest_out (fst s) /\ turn_took u t.
Proof.
  intros (I & Hs & Hn) Hu. assert (Hl : (0 < length u)%nat) by (destruct u; [done|cbn; lia]). unfold resp_turn.
  assert (Hd : forall st s1, pok ids s1 -> rest_out (fst s1) = rest_out (fst s) -> exists s2, ngx_http_waf_redis_entry_done sprintf_ui st s1 = Some s2 /\ pok ids s2 /\
    rest_out (fst s2) = rest_out (fst s)).
  { intros st s1 (I1 & Hs1 & Hn1) E1. destruct (done_spec sprintf_ui st ids s1 I1) as (s2 & -> & I2 & H2). exists s2. split; [done|].
    pose proof (held_regs _ _ H2) as [R1 R2]. split; [split; [done|by rewrite R1, R2]|]. destruct H2 as [H2 _]. congruence. }
  destruct (Z.eqb_spec (r_bulk_need (snd s)) 0) as [En|En]; cbn [negb].
  - destruct (Z.eqb_spec (r_skip (snd s)) 0) as [Es|Es]; cbn [negb].
    + destruct (ngx_strlchr u 10) as [i|] eqn:Ei; [|eexists; split; [reflexivity|]; cbn; split_and!; try done; lia].
      apply strlchr_lt in Ei. set (line := take _ u).
      assert (Gd : forall st, exists t, (s ← ngx_http_waf_redis_entry_done sprintf_ui st s; Some (TURN_GO (S i) s)) = Some t /\ pok ids (turn_state t) /\
        rest_out (fst (turn_state t)) = rest_out (fst s) /\ turn_took u t).
      { intros st. destruct (Hd st s (conj I (conj Hs Hn)) eq_refl) as (s2 & -> & P2 & C2). eexists. split; [reflexivity|]. cbn. split_and!; try done; lia. }
      destruct (_ || _); [apply Gd|]. destruct (_ =? minus_c); [apply Gd|].
      destruct (_ =? dollar_c).
      2: { eexists. split; [reflexivity|]. cbn. split_and!; try done; lia. }
      destruct (ngx_atoi (drop 1 line)) as [n|] eqn:Ea; [|apply Gd]. eexists. split; [reflexivity|]. cbn [turn_state turn_took].
      destruct (bulk_line_same n (snd s)) as (B1 & B2 & B3). split_and!; try done; try lia.
      split; [by eapply rinv_regs; [exact I|..]|]. apply B3; [by eapply atoi_nonneg|done|done].
    + set (took := Nat.min _ _). set (s1 := on_r _ s). assert (P1 : pok ids s1).
      { split; [by eapply rinv_regs; [exact I|..]|]. split; [|done]. unfold s1, took. cbn. lia. }
      destruct (negb _); [eexists; split; [reflexivity|]; cbn [turn_state turn_took]; split_and!; try done; try apply P1; unfold took; lia|].
      assert (G : exists s2, (if r_skip_err (snd s1) then ngx_http_waf_redis_entry_done sprintf_ui NGX_ERROR (on_r (fun r => r <| r_skip_err := false |>) s1)
                    else ngx_http_waf_redis_entry_done sprintf_ui NGX_OK s1) = Some s2 /\ pok ids s2 /\ rest_out (fst s2) = rest_out (fst s)).
      { destruct (r_skip_err (snd s1)); apply Hd; try done. destruct P1 as (Q1 & Q2 & Q3). split; [by eapply rinv_regs; [exact Q1|..]|done]. }
      destruct G as (s2 & -> & P2 & C2). eexists. split; [reflexivity|]. cbn [turn_state turn_took]. split_and!; try done; unfold took; lia.
  - set (took := Nat.min _ _). set (s1 := on_r _ s). assert (P1 : pok ids s1).
    { split; [by eapply rinv_regs; [exact I|..]|]. split; [done|]. unfold s1, took. cbn. lia. }
    destruct (negb _) eqn:Ez; [eexists; split; [reflexivity|]; cbn [turn_state turn_took]; split_and!; try done; try apply P1; unfold took; lia|].
    destruct P1 as (Q1 & Q2 & Q3). destruct (bulk_ready_spec sprintf_ui ids s1 Q1) as (s2 & -> & I2 & H2). eexists. split; [reflexivity|].
    cbn [turn_state turn_took]. pose proof (held_regs _ _ H2) as [R1 R2]. split_and!; try done; try (unfold took; lia).
    + split; [done|]. by rewrite R1, R2.
    + by destruct H2 as [H2 _].
Qed.

End run.

End RedisRun.
