(* ===== verification/RedisStream.v ===== *)
(** The answers of Redis as a sequence: an abstract connection takes whole
    answers off the stream and gives each to the operation at the head of the
    queue; the parser of Redis.v does the same whatever the pieces in which the
    bytes arrive. *)
From stdpp Require Import base list gmap.
From S2P Require Import Prelude Types ReplyText Select SelectFacts Link LinkFacts Redis RedisFacts RedisRun.
Import Select SelectFacts Link LinkFacts Redis RedisFacts RedisRun.
#[local] Open Scope Z_scope.

Module RedisStream.

(** ** Answers *)

Inductive resp_t := RP_OK | RP_ERR | RP_NIL | RP_BULK (data : bytes).
(** What a line is: an answer, or the announcement of so many bytes. *)
Inductive rline_t := RLINE (rp : resp_t) | RLINE_BULK (n : Z) | RLINE_BAD.

(** The outcome for the operation of an entry. *)
Definition outcome (e : entry_t) (op : op_t) (rp : resp_t) : ngx_rc * option bytes :=
  match rp with
  | RP_OK => (NGX_OK, None)
  | RP_ERR => (NGX_ERROR, None)
  | RP_NIL => (if e.(e_bulk) then NGX_DECLINED else NGX_OK, None)
  | RP_BULK data =>
      if e.(e_bulk) then if zlen data <=? op.(o_len) then (NGX_OK, Some data) else (NGX_ERROR, None)
      else (NGX_OK, None)
  end.

Section stream.
Context `{HL : NgxStringLaws} (sprintf_ui : Z -> bytes).

(** An answer goes to the head of the queue; [None] if there is none. *)
Definition serve (rp : resp_t) (s : rst) : option rst :=
  e ← head (snd s).(r_queue);
  p ← entry_pop (snd s);
  match p with
  | (None, r) => Some (fst s, r)
  | (Some op, r) => let '(st, data) := outcome e op rp in op_handler sprintf_ui op st data (fst s, r)
  end.
Fixpoint serve_all (rps : list resp_t) (s : rst) : option rst :=
  match rps with [] => Some s | rp :: rps => s ← serve rp s; serve_all rps s end.

Definition rline (u : bytes) (i : nat) : rline_t :=
  let line := take (if negb (Nat.eqb i 0) && bool_decide (u !! (i - 1)%nat = Some 13) then i - 1 else i) u in
  let c := default 0 (head u) in
  if (c =? plus_c) || (c =? colon_c) then RLINE RP_OK
  else if c =? minus_c then RLINE RP_ERR
  else if c =? dollar_c then match ngx_atoi (drop 1 line) with None => RLINE RP_NIL | Some n => RLINE_BULK n end
  else RLINE_BAD.

(** The whole answers at the front of a stream, and what is left. *)
Fixpoint frames_loop (fuel : nat) (u : bytes) : list resp_t * bytes :=
  match fuel, ngx_strlchr u 10 with
  | S fuel, Some i =>
      let rest := drop (S i) u in
      match rline u i with
      | RLINE rp => let '(rps, rest) := frames_loop fuel rest in (rp :: rps, rest)
      | RLINE_BULK n =>
          if Nat.ltb (length rest) (Z.to_nat (n + 2)) then ([], u)
          else let '(rps, rest') := frames_loop fuel (drop (Z.to_nat (n + 2)) rest) in (RP_BULK (take (Z.to_nat n) rest) :: rps, rest')
      | RLINE_BAD => ([], u)
      end
  | _, _ => ([], u)
  end.
Definition frames (u : bytes) : list resp_t * bytes := frames_loop (length u) u.

Lemma frames_fuel n m u : (length u <= n)%nat -> (length u <= m)%nat -> frames_loop n u = frames_loop m u.
Proof.
  revert m u. induction n as [|n IH]; intros m u Hn Hm.
  { destruct u; [|cbn in Hn; lia]. by destruct m. }
  destruct m as [|m]; [by destruct u; [|cbn in Hm; lia]|]. cbn [frames_loop].
  destruct (ngx_strlchr u 10) as [i|] eqn:Ei; [|done]. apply strlchr_lt in Ei. destruct (rline u i) as [rp|k|]; [| |done].
  - rewrite (IH m); [done| |]; rewrite length_drop; lia.
  - destruct (Nat.ltb _ _); [done|]. rewrite (IH m); [done| |]; rewrite !length_drop; lia.
Qed.

(** The equation of [frames]. *)
Lemma frames_unfold u : frames u =
  match ngx_strlchr u 10 with
  | Some i =>
      let rest := drop (S i) u in
      match rline u i with
      | RLINE rp => let '(rps, rest) := frames rest in (rp :: rps, rest)
      | RLINE_BULK n =>
          if Nat.ltb (length rest) (Z.to_nat (n + 2)) then ([], u)
          else let '(rps, rest') := frames (drop (Z.to_nat (n + 2)) rest) in (RP_BULK (take (Z.to_nat n) rest) :: rps, rest')
      | RLINE_BAD => ([], u)
      end
  | None => ([], u)
  end.
Proof.
  unfold frames at 1. destruct (ngx_strlchr u 10) as [i|] eqn:Ei.
  - pose proof (strlchr_lt _ _ _ Ei) as Hi. destruct (length u) as [|n] eqn:En; [lia|]. cbn [frames_loop]. rewrite Ei. unfold frames.
    destruct (rline u i) as [rp|k|]; [| |done].
    + rewrite (frames_fuel n (length (drop (S i) u))); [done| |]; rewrite length_drop; lia.
    + destruct (Nat.ltb _ _); [done|]. rewrite (frames_fuel n (length (drop (Z.to_nat (k + 2)) (drop (S i) u)))); [done| |]; rewrite !length_drop; lia.
  - destruct (length u); cbn [frames_loop]; [done|]. by rewrite Ei.
Qed.

(** ** Registers *)

(** Without what the parser keeps of an answer that is not complete. *)
Definition idle (r : redis_t) : redis_t :=
  r <| r_skip := 0 |> <| r_skip_err := false |> <| r_bulk := None |> <| r_bulk_size := 0 |> <| r_bulk_need := 0 |>.
Definition on_idle (s : rst) : rst := (fst s, idle (snd s)).

Lemma op_queue_idle op bulk argv s : op_queue sprintf_ui op bulk argv (on_idle s) = (prod_map id on_idle) <$> op_queue sprintf_ui op bulk argv s.
Proof.
  destruct s as [k r]. unfold op_queue, on_idle, ngx_http_waf_redis_entry_get. cbn.
  destruct (r_free r) as [|i free]; cbn; destruct (alloc (r_mem r)) as [[] mem]; cbn; try done.
  - destruct (alloc mem) as [[] mem']; cbn; [|done]. destruct (ngx_http_waf_redis_command sprintf_ui argv k) as [[[] k']|]; done.
  - destruct (ngx_http_waf_redis_command sprintf_ui argv k) as [[[] k']|]; done.
Qed.
Lemma queue_idle argv s : ngx_http_waf_redis_queue sprintf_ui argv (on_idle s) = (prod_map id on_idle) <$> ngx_http_waf_redis_queue sprintf_ui argv s.
Proof.
  destruct s as [k r]. unfold ngx_http_waf_redis_queue, on_idle, ngx_http_waf_redis_entry_get. cbn.
  destruct (r_free r) as [|i free]; cbn; [destruct (alloc (r_mem r)) as [[] mem]; cbn; [|done]|];
    destruct (ngx_http_waf_redis_command sprintf_ui argv k) as [[[] k']|]; done.
Qed.

Lemma do_req_idle q s : do_req sprintf_ui q (on_idle s) = on_idle <$> do_req sprintf_ui q s.
Proof.
  unfold do_req. change (k_ready (fst (on_idle s))) with (k_ready (fst s)). destruct (negb _); [done|].
  destruct q as [op key data retain|op key|key].
  - unfold ngx_http_waf_drv_redis_put. change (r_conf (snd (on_idle s))) with (r_conf (snd s)). destruct (_ <? _); [done|].
    rewrite op_queue_idle. by destruct (op_queue sprintf_ui op false _ s) as [[ok s']|].
  - unfold ngx_http_waf_drv_redis_get. rewrite op_queue_idle. by destruct (op_queue sprintf_ui op true _ s) as [[ok s']|].
  - unfold ngx_http_waf_drv_redis_del. rewrite queue_idle. by destruct (ngx_http_waf_redis_queue sprintf_ui _ s) as [[ok s']|].
Qed.
Lemma do_reqs_idle qs s : do_reqs sprintf_ui qs (on_idle s) = on_idle <$> do_reqs sprintf_ui qs s.
Proof.
  revert s. induction qs as [|q qs IH]; intros s; cbn [do_reqs]; [done|]. rewrite do_req_idle.
  destruct (do_req sprintf_ui q s) as [s'|]; [|done]. cbn. apply IH.
Qed.
Lemma handler_idle op st data s : op_handler sprintf_ui op st data (on_idle s) = on_idle <$> op_handler sprintf_ui op st data s.
Proof.
  unfold op_handler. change (r_calls (snd (on_r (noted (REV_DONE (o_id op) st data)) (on_idle s)))) with (r_calls (snd s)).
  change (r_calls (snd (on_r (noted (REV_DONE (o_id op) st data)) s))) with (r_calls (snd s)). destruct (r_calls (snd s)) as [|qs calls]; [done|].
  exact (do_reqs_idle qs (on_r (fun r => r <| r_calls := calls |>) (on_r (noted (REV_DONE (o_id op) st data)) s))).
Qed.
Lemma pop_idle r : entry_pop (idle r) = (prod_map id idle) <$> entry_pop r.
Proof. unfold entry_pop. change (r_queue (idle r)) with (r_queue r). by destruct (r_queue r). Qed.
Lemma timeout_idle i s : ngx_http_waf_redis_on_timeout sprintf_ui i (on_idle s) = on_idle <$> ngx_http_waf_redis_on_timeout sprintf_ui i s.
Proof.
  unfold ngx_http_waf_redis_on_timeout. change (r_queue (snd (on_idle s))) with (r_queue (snd s)).
  destruct (list_find _ _) as [[j e]|]; [|done]. destruct (e_op e) as [op|]; [|done].
  exact (handler_idle op NGX_ERROR None (on_r (fun r => r <| r_queue ::= <[j := e <| e_timer := false |> <| e_op := None |>]> |>) s)).
Qed.
Lemma cleanup_idle o r : op_cleanup o (idle r) = idle (op_cleanup o r).
Proof.
  unfold op_cleanup. change (r_cln (idle r)) with (r_cln r). destruct (r_cln r !! o) as [i|]; [|done]. unfold ngx_http_waf_redis_detach. cbn.
  destruct (list_find _ _) as [[j e]|]; [|done]. by destruct (e_op e).
Qed.

(** ** The parser within the stream *)

Lemma rline_app u d i : (i < length u)%nat -> rline (u ++ d) i = rline u i.
Proof.
  intros Hi. unfold rline. rewrite lookup_app_l by lia. replace (head (u ++ d)) with (head u) by (by destruct u; [cbn in Hi; lia|]).
  by destruct (_ && _); rewrite take_app_le by lia.
Qed.

(** Of the announced [n] bytes and their line end, [t] was taken off. *)
Definition taking (w u : bytes) (n : Z) (t : bytes) : Prop :=
  exists i, ngx_strlchr w 10 = Some i /\ rline w i = RLINE_BULK n /\ drop (S i) w = t ++ u /\ 0 <= n /\ zlen t < n + 2.

(** With [u] unread, the parser is somewhere in [w], the stream since the last
    whole answer. *)
Definition rmid (w u : bytes) (s : rst) : Prop :=
  let r := snd s in
  if negb (r.(r_bulk_need) =? 0) then
    exists n t e, taking w u n t /\ r.(r_bulk_need) = n + 2 - zlen t /\ r.(r_bulk) = Some (take (Z.to_nat n) t) /\ r.(r_bulk_size) = n /\
      r.(r_skip) = 0 /\ r.(r_skip_err) = false /\ head r.(r_queue) = Some e /\ e.(e_bulk) = true /\ (forall op, e.(e_op) = Some op -> n <= op.(o_len))
  else
    r.(r_bulk) = None /\ r.(r_bulk_size) = 0 /\
    if negb (r.(r_skip) =? 0) then
      exists n t e, taking w u n t /\ r.(r_skip) = n + 2 - zlen t /\ head r.(r_queue) = Some e /\
        if r.(r_skip_err) then e.(e_bulk) = true /\ (forall op, e.(e_op) = Some op -> op.(o_len) < n) else e.(e_bulk) = false
    else w = u /\ r.(r_skip_err) = false.

Lemma taking_app w u n t d : taking w u n t -> taking (w ++ d) (u ++ d) n t.
Proof.
  intros (i & A & B & C & D). pose proof (strlchr_lt _ _ _ A). exists i. split; [by apply strlchr_app|]. split; [by rewrite rline_app|].
  split; [|done]. rewrite drop_app_le by lia. by rewrite C, app_assoc.
Qed.
Lemma rmid_app w u s d : rmid w u s -> rmid (w ++ d) (u ++ d) s.
Proof.
  unfold rmid. destruct (negb (r_bulk_need _ =? 0)).
  - intros (n & t & e & A & B). exists n, t, e. split; [by apply taking_app|done].
  - intros (A & B & C). split_and!; [done|done|]. destruct (negb _).
    + destruct C as (n & t & e & C & D). exists n, t, e. split; [by apply taking_app|done].
    + by destruct C as [-> C].
Qed.

(** The answer that is complete, and one that is not. *)
Lemma frames_taken w u n t m : taking w u n t -> Z.of_nat m = n + 2 - zlen t -> (m <= length u)%nat ->
  frames w = (RP_BULK (take (Z.to_nat n) (t ++ u)) :: fst (frames (drop m u)), snd (frames (drop m u))).
Proof.
  intros (i & A & B & C & D & E) Hm Hu. rewrite frames_unfold, A, B. cbn zeta. rewrite C. unfold zlen in *.
  destruct (Nat.ltb_spec (length (t ++ u)) (Z.to_nat (n + 2))) as [Hl|_]; [rewrite length_app in Hl; lia|].
  replace (drop (Z.to_nat (n + 2)) (t ++ u)) with (drop m u); [by destruct (frames (drop m u))|].
  rewrite drop_app_ge by lia. f_equal. lia.
Qed.
Lemma frames_taking w u n t : taking w u n t -> zlen t + zlen u < n + 2 -> frames w = ([], w) /\ w <> [].
Proof.
  intros (i & A & B & C & D & E) Hl. rewrite frames_unfold, A, B. cbn zeta. rewrite C. unfold zlen in *.
  destruct (Nat.ltb_spec (length (t ++ u)) (Z.to_nat (n + 2))) as [_|Hg]; [split; [done|by intros ->]|rewrite length_app in Hg; lia].
Qed.

(** What the abstract connection makes of the bytes [w]. *)
Definition reads (w : bytes) (s a : rst) : Prop :=
  serve_all (fst (frames w)) s = Some a /\ (snd (frames w) <> [] -> (snd a).(r_queue) <> []).

(** Serving the head: what both kinds of ends of an answer come to. *)
Lemma done_serve rp e s st : head (snd s).(r_queue) = Some e -> (forall op, e.(e_op) = Some op -> outcome e op rp = (st, None)) ->
  serve rp (on_idle s) = on_idle <$> ngx_http_waf_redis_entry_done sprintf_ui st s.
Proof.
  intros He Ho. unfold serve, ngx_http_waf_redis_entry_done. destruct s as [k r]. cbn [fst snd] in *.
  change (r_queue (snd (on_idle (k, r)))) with (r_queue r). rewrite He. cbn [mbind option_bind].
  change (snd (on_idle (k, r))) with (idle r). rewrite pop_idle. unfold entry_pop. destruct (r_queue r) as [|e' q]; [done|].
  cbn in He. injection He as ->. cbn. destruct (e_op e) as [op|]; [|done]. rewrite (Ho op eq_refl).
  set (r1 := ngx_http_waf_redis_entry_free e _). exact (handler_idle op st None (k, r1)).
Qed.

Lemma bulk_serve data e s : head (snd s).(r_queue) = Some e -> e.(e_bulk) = true -> (forall op, e.(e_op) = Some op -> zlen data <= op.(o_len)) ->
  (snd s).(r_mem) = [] -> (snd s).(r_bulk) = Some data -> (snd s).(r_bulk_size) = zlen data ->
  serve (RP_BULK data) (on_idle s) = on_idle <$> ngx_http_waf_redis_bulk_ready sprintf_ui s.
Proof.
  intros He Hb Ho Hm Hd Hs. unfold serve, ngx_http_waf_redis_bulk_ready. destruct s as [k r]. cbn [fst snd] in *.
  change (r_queue (snd (on_idle (k, r)))) with (r_queue r). rewrite He. cbn [mbind option_bind].
  change (snd (on_idle (k, r))) with (idle r). rewrite pop_idle. unfold entry_pop. destruct (r_queue r) as [|e' q]; [done|].
  cbn in He. injection He as ->. cbn. destruct (e_op e) as [op|]; [|done]. rewrite Hb, (proj2 (Z.leb_le _ _) (Ho op eq_refl)), Hm, Hd, Hs. cbn.
  replace (take (Z.to_nat (zlen data)) data) with data by (unfold zlen; by rewrite Nat2Z.id, firstn_all).
  pose proof (handler_idle op NGX_OK (Some data) (k, bulk_clear (ngx_http_waf_redis_entry_free e (r <| r_queue := q |> <| r_inflight ::= fun n => n - 1 |>)))) as G.
  etrans; [|etrans; [exact G|]]; [|].
  - unfold on_idle. cbn. by rewrite Hm.
  - do 2 f_equal. unfold bulk_clear. cbn. by rewrite Hm.
Qed.

Lemma held_all s s' : held s s' ->
  (snd s').(r_skip) = (snd s).(r_skip) /\ (snd s').(r_skip_err) = (snd s).(r_skip_err) /\ (snd s').(r_bulk) = (snd s).(r_bulk) /\
  (snd s').(r_bulk_size) = (snd s).(r_bulk_size) /\ (snd s').(r_bulk_need) = (snd s).(r_bulk_need).
Proof. intros (_ & H1 & _). unfold regs in H1. injection H1 as H1 H2 H3 H4 H5 _. by split_and!. Qed.

Lemma rmid_idle u s : (snd s).(r_skip) = 0 -> (snd s).(r_skip_err) = false -> (snd s).(r_bulk) = None -> (snd s).(r_bulk_size) = 0 ->
  (snd s).(r_bulk_need) = 0 -> rmid u u s.
Proof. intros A B C D E. unfold rmid. by rewrite A, B, C, D, E. Qed.

(** What a turn has done with the stream. *)
Definition turn_serves (w u : bytes) (s a : rst) (t : turn_r rst) : Prop :=
  match t with
  | TURN_GO m s' => (snd s').(r_mem) = [] /\ exists w', rmid w' (drop m u) s' /\ reads w' (on_idle s') a /\ snd (frames w') = snd (frames w)
  | TURN_STOP m s' => (snd s').(r_mem) = [] /\ frames w = ([], w) /\ on_idle s' = on_idle s /\ rmid w (drop m u) s'
  | TURN_FAIL _ _ => True
  end.

(** An answer was served. *)
Lemma served w rp w' s s' a : reads w (on_idle s) a -> frames w = (rp :: fst (frames w'), snd (frames w')) ->
  serve rp (on_idle s) = Some (on_idle s') -> reads w' (on_idle s') a /\ snd (frames w') = snd (frames w).
Proof. intros [R1 R2] Ef Es. rewrite Ef in R1, R2. cbn [fst snd serve_all] in R1, R2. rewrite Es in R1. rewrite Ef. by split. Qed.

Lemma took_all (u : bytes) (k : Z) : 0 < k -> k - Z.of_nat (Nat.min (length u) (Z.to_nat k)) <> 0 -> Nat.min (length u) (Z.to_nat k) = length u /\ zlen u < k.
Proof. intros Hk Hn. unfold zlen. lia. Qed.

Lemma bulk_turn ids w u s a t : pok ids s -> (snd s).(r_mem) = [] -> u <> [] -> rmid w u s -> (snd s).(r_bulk_need) <> 0 ->
  reads w (on_idle s) a -> resp_turn sprintf_ui u s = Some t -> turn_serves w u s a t.
Proof.
  intros (I & Hs & Hn) Hm Hu M Hne R Et. unfold resp_turn in Et. unfold rmid in M. rewrite (proj2 (Z.eqb_neq _ _) Hne) in Et, M. cbn [negb] in Et, M.
  destruct M as (n & t0 & e & T & Bn & Bb & Bs & Bk & Be & He & Heb & Heo). pose proof T as (i & A & B & C & D & E).
  set (took := Nat.min _ _) in Et. set (len := if _ <? _ then _ else 0) in Et. set (s1 := on_r _ s) in Et.
  assert (Hneed : r_bulk_need (snd s1) = n + 2 - zlen t0 - Z.of_nat took) by (unfold s1; cbn; by rewrite Bn).
  assert (Hbulk : r_bulk (snd s1) = Some (take (Z.to_nat n) (t0 ++ take took u))).
  { unfold s1. cbn. rewrite Bb. cbn. f_equal. unfold len. rewrite Bb, Bs. change (default [] (Some ?x)) with x. unfold zlen in *. rewrite length_take.
    destruct (Z.ltb_spec (Z.of_nat (Nat.min (Z.to_nat n) (length t0))) n) as [Hc|Hc].
    - rewrite (take_ge t0), take_app_ge by lia. f_equal. rewrite take_take. f_equal. lia.
    - rewrite take_app_le by lia. cbn. by rewrite app_nil_r. }
  assert (Htk : zlen (take took u) = Z.of_nat took) by (unfold zlen; rewrite length_take; unfold took; lia).
  assert (Hi1 : on_idle s1 = on_idle s) by done.
  assert (I1 : rinv ids s1) by (by eapply rinv_regs; [exact I|..]).
  rewrite Hneed in Et. destruct (Z.eqb_spec (n + 2 - zlen t0 - Z.of_nat took) 0) as [Hz|Hz]; cbn [negb] in Et.
  - destruct (bulk_ready_spec sprintf_ui ids s1 I1) as (s2 & Eb & I2 & H2). rewrite Eb in Et. cbn in Et. injection Et as <-. cbn [turn_serves].
    pose proof (held_all _ _ H2) as (G1 & G2 & G3 & G4 & G5). split; [apply H2; exact Hm|]. exists (drop took u).
    split; [apply rmid_idle; [rewrite G1; exact Bk|rewrite G2; exact Be|rewrite G3; done|rewrite G4; done|rewrite G5; cbn; rewrite Bn; lia]|].
    set (data := take (Z.to_nat n) (t0 ++ u)).
    assert (Hdata : take (Z.to_nat n) (t0 ++ take took u) = data).
    { unfold data. unfold zlen in *. rewrite <- (take_drop took u) at 2. rewrite app_assoc, (take_app_le (t0 ++ take took u)); [done|]. rewrite length_app. lia. }
    assert (Hzd : zlen data = n) by (unfold data, zlen in *; rewrite length_take, length_app; unfold took in *; lia).
    eapply (served w (RP_BULK data) (drop took u) s s2 a R).
    + eapply frames_taken; [exact T|lia|unfold took; lia].
    + rewrite <- Hi1, (bulk_serve data e s1); [by rewrite Eb|exact He|done|by rewrite Hzd|exact Hm|by rewrite Hbulk, Hdata|]. unfold s1. cbn. by rewrite Bs, Hzd.
  - injection Et as <-. cbn [turn_serves]. destruct (took_all u (r_bulk_need (snd s))) as [Ht Hlt]; [lia|fold took; lia|]. fold took in Ht.
    destruct (frames_taking w u n t0 T) as [Hf _]; [lia|]. split_and!; [exact Hm|exact Hf|done|].
    unfold rmid. rewrite (proj2 (Z.eqb_neq _ _)) by lia. cbn [negb]. exists n, (t0 ++ take took u), e. split_and!; try done.
    + exists i. split_and!; try done; [by rewrite C, <- app_assoc, take_drop|rewrite zlen_app, Htk; unfold took in *; lia].
    + rewrite Hneed, zlen_app, Htk. lia.
Qed.

(** The end of an answer that was skipped. *)
Lemma skip_turn ids w u s a t : pok ids s -> (snd s).(r_mem) = [] -> u <> [] -> rmid w u s -> (snd s).(r_bulk_need) = 0 -> (snd s).(r_skip) <> 0 ->
  reads w (on_idle s) a -> resp_turn sprintf_ui u s = Some t -> turn_serves w u s a t.
Proof.
  intros (I & Hs & Hn) Hm Hu M Hb Hne R Et. unfold resp_turn in Et. unfold rmid in M. rewrite (proj2 (Z.eqb_neq _ _) Hne), Hb in Et, M. cbn [negb Z.eqb] in Et, M.
  destruct M as (Mb & Ms & n & t0 & e & T & Bn & He & Hk). pose proof T as (i & A & B & C & D & E).
  set (took := Nat.min _ _) in Et. set (s1 := on_r _ s) in Et.
  assert (Hskip : r_skip (snd s1) = n + 2 - zlen t0 - Z.of_nat took) by (unfold s1; cbn; by rewrite Bn).
  assert (Htk : zlen (take took u) = Z.of_nat took) by (unfold zlen; rewrite length_take; unfold took; lia).
  rewrite Hskip in Et. destruct (Z.eqb_spec (n + 2 - zlen t0 - Z.of_nat took) 0) as [Hz|Hz]; cbn [negb] in Et.
  - set (data := take (Z.to_nat n) (t0 ++ u)).
    assert (Hzd : zlen data = n) by (unfold data, zlen in *; rewrite length_take, length_app; unfold took in *; lia).
    set (st := if r_skip_err (snd s) then NGX_ERROR else NGX_OK).
    set (s2 := on_r (fun r => r <| r_skip_err := false |>) s1).
    assert (Et' : (s3 ← ngx_http_waf_redis_entry_done sprintf_ui st s2; Some (TURN_GO took s3)) = Some t).
    { rewrite <- Et. unfold st. change (r_skip_err (snd s1)) with (r_skip_err (snd s)). destruct (r_skip_err (snd s)) eqn:Ee; [done|].
      replace s2 with s1; [done|]. unfold s2, s1. clear -Ee. destruct s as [k []]. cbn in *. by subst. }
    assert (I2 : rinv ids s2) by (by eapply rinv_regs; [exact I|..]).
    destruct (done_spec sprintf_ui st ids s2 I2) as (s3 & Ed & I3 & H3). rewrite Ed in Et'. cbn in Et'. injection Et' as <-. cbn [turn_serves].
    pose proof (held_all _ _ H3) as (G1 & G2 & G3 & G4 & G5). split; [apply H3; exact Hm|]. exists (drop took u).
    split; [apply rmid_idle; [rewrite G1; change (r_skip (snd s2)) with (r_skip (snd s1)); lia|by rewrite G2|by rewrite G3|by rewrite G4|by rewrite G5]|].
    eapply (served w (RP_BULK data) (drop took u) s s3 a R).
    + eapply frames_taken; [exact T|lia|unfold took; lia].
    + change (on_idle s) with (on_idle s2). rewrite (done_serve (RP_BULK data) e s2 st); [by rewrite Ed|exact He|].
      intros op Ho. unfold outcome, st. rewrite Hzd. destruct (r_skip_err (snd s)); [|by rewrite Hk].
      destruct Hk as [-> Hk]. specialize (Hk op Ho). by rewrite (proj2 (Z.leb_gt _ _)) by lia.
  - injection Et as <-. cbn [turn_serves]. destruct (took_all u (r_skip (snd s))) as [Ht Hlt]; [lia|fold took; lia|]. fold took in Ht.
    destruct (frames_taking w u n t0 T) as [Hf _]; [lia|]. split_and!; [exact Hm|exact Hf|done|].
    unfold rmid. change (r_bulk_need (snd s1)) with (r_bulk_need (snd s)). rewrite Hb, Hskip, (proj2 (Z.eqb_neq _ _) Hz). cbn [negb Z.eqb].
    split_and!; [done|done|]. exists n, (t0 ++ take took u), e. split_and!; try done.
    + exists i. split_and!; try done; [by rewrite C, <- app_assoc, take_drop|rewrite zlen_app, Htk; unfold took in *; lia].
    + rewrite zlen_app, Htk. lia.
Qed.

(** The announcement of an object: what follows is taken or skipped. *)
Lemma bulk_line_rmid n e w u s : (snd s).(r_bulk_need) = 0 -> (snd s).(r_skip) = 0 -> (snd s).(r_skip_err) = false -> (snd s).(r_bulk) = None ->
  (snd s).(r_bulk_size) = 0 -> (snd s).(r_mem) = [] -> head (snd s).(r_queue) = Some e -> taking w u n [] ->
  rmid w u (on_r (bulk_line n) s) /\ on_idle (on_r (bulk_line n) s) = on_idle s /\ (snd (on_r (bulk_line n) s)).(r_mem) = [].
Proof.
  intros A B C D E F He T. destruct s as [k r]. cbn [fst snd] in *. pose proof T as (i & _ & _ & _ & Hn & _).
  assert (Hz : n + 2 <> 0) by lia. unfold on_r, bulk_line, on_idle. cbn [fst snd]. rewrite He.
  assert (Hsk : forall er : bool, (if er then e_bulk e = true /\ (forall op, e_op e = Some op -> o_len op < n) else e_bulk e = false) ->
    rmid w u (k, r <| r_skip := n + 2 |> <| r_skip_err := er |>)).
  { intros er Her. unfold rmid. cbn. rewrite A, (proj2 (Z.eqb_neq _ _) Hz). cbn. split_and!; [done|done|]. exists n, [], e. split_and!; try done. change (zlen []) with 0. lia. }
  destruct (e_bulk e) eqn:Eb.
  2: { split_and!; [|done|done]. specialize (Hsk false eq_refl). destruct r. cbn in *. by subst. }
  destruct (e_op e) as [op|] eqn:Eo; [|split_and!; [by apply (Hsk true)|done|done]].
  destruct (Z.ltb_spec (o_len op) n) as [Hl|Hl]; [split_and!; [apply (Hsk true); split; [done|]; by intros ? [= <-]|done|done]|].
  rewrite F. cbn [alloc negb]. split_and!; [|destruct r; cbn in *; by subst|done]. unfold rmid. cbn. rewrite (proj2 (Z.eqb_neq _ _) Hz). cbn.
  exists n, [], e. split_and!; try done; [change (zlen []) with 0; lia|by rewrite take_nil|]. rewrite Eo. by intros ? [= <-].
Qed.

Lemma reads_head w s a rp rps rest : reads w s a -> frames w = (rp :: rps, rest) -> exists e, head (snd s).(r_queue) = Some e.
Proof.
  intros [R _] Ef. rewrite Ef in R. cbn [fst serve_all] in R. unfold serve in R. destruct (head (r_queue (snd s))) as [e|]; [by exists e|done].
Qed.

Lemma atoi_line u i n : rline u i = RLINE_BULK n -> 0 <= n.
Proof.
  unfold rline. destruct (_ || _); [done|]. destruct (_ =? minus_c); [done|]. destruct (_ =? dollar_c); [|done].
  destruct (ngx_atoi _) as [m|] eqn:Ea; [|done]. intros [= <-]. by eapply atoi_nonneg.
Qed.

(** Between answers. *)
Lemma line_turn ids u s a t : pok ids s -> (snd s).(r_mem) = [] -> u <> [] -> rmid u u s -> (snd s).(r_bulk_need) = 0 -> (snd s).(r_skip) = 0 ->
  reads u (on_idle s) a -> resp_turn sprintf_ui u s = Some t -> turn_serves u u s a t.
Proof.
  intros (I & _ & _) Hm Hu M Hb Hsk R Et. unfold resp_turn in Et. unfold rmid in M. rewrite Hsk, Hb in Et, M. cbn [negb Z.eqb] in Et, M.
  destruct M as (Mb & Ms & _ & Me). pose proof (frames_unfold u) as Ef.
  destruct (ngx_strlchr u 10) as [i|] eqn:Ei.
  2: { injection Et as <-. cbn [turn_serves]. rewrite drop_0. split_and!; [done|done|done|]. by apply rmid_idle. }
  assert (Hd : forall rp st, rline u i = RLINE rp -> (forall e op, head (r_queue (snd s)) = Some e -> outcome e op rp = (st, None)) ->
    (s ← ngx_http_waf_redis_entry_done sprintf_ui st s; Some (TURN_GO (S i) s)) = Some t -> turn_serves u u s a t).
  { intros rp st El Ho Et'. rewrite El in Ef. cbn zeta in Ef. set (w' := drop (S i) u) in Ef.
    assert (Ef' : frames u = (rp :: fst (frames w'), snd (frames w'))) by (rewrite Ef; by destruct (frames w')).
    destruct (reads_head _ _ _ _ _ _ R Ef') as [e He].
    destruct (done_spec sprintf_ui st ids s I) as (s2 & Ed & I2 & H2). rewrite Ed in Et'. cbn in Et'. injection Et' as <-. cbn [turn_serves].
    pose proof (held_all _ _ H2) as (G1 & G2 & G3 & G4 & G5). split; [apply H2; exact Hm|]. exists w'.
    split; [apply rmid_idle; congruence|]. eapply (served u rp w' s s2 a R Ef').
    rewrite (done_serve rp e s st); [by rewrite Ed|exact He|]. intros op _. by apply Ho. }
  unfold rline in Hd, Ef. destruct (_ || _) eqn:Eo; [by apply (Hd RP_OK NGX_OK)|]. destruct (_ =? minus_c) eqn:Em; [by apply (Hd RP_ERR NGX_ERROR)|].
  destruct (_ =? dollar_c) eqn:Ec; [|injection Et as <-; done].
  destruct (ngx_atoi _) as [n|] eqn:Ea.
  2: { apply (Hd RP_NIL (nil_status (snd s))); [done| |done]. intros e op He. unfold nil_status. by rewrite He. }
  injection Et as <-. cbn [turn_serves]. clear Hd. pose proof (atoi_nonneg _ _ Ea) as Hn. pose proof (strlchr_lt _ _ _ Ei) as Hi.
  assert (He : exists e, head (r_queue (snd s)) = Some e).
  { cbn zeta in Ef. destruct (Nat.ltb _ _).
    - destruct R as [R1 R2]. rewrite Ef in R1, R2. cbn in R1. injection R1 as <-. specialize (R2 Hu). cbn in R2. destruct (r_queue (snd s)) as [|e q]; [done|by exists e].
    - destruct (frames (drop (Z.to_nat (n + 2)) _)) as [rps rest]. exact (reads_head _ _ _ _ _ _ R Ef). }
  destruct He as [e He]. destruct (bulk_line_rmid n e u (drop (S i) u) s) as (B1 & B2 & B3); try done.
  { exists i. split_and!; try done; [|change (zlen []) with 0; lia]. unfold rline. rewrite Eo, Em, Ec. by rewrite Ea. }
  split; [done|]. exists u. split_and!; [exact B1|by rewrite B2|done].
Qed.

Lemma turn_reads ids w u s a t : pok ids s -> (snd s).(r_mem) = [] -> u <> [] -> rmid w u s ->
  reads w (on_idle s) a -> resp_turn sprintf_ui u s = Some t -> turn_serves w u s a t.
Proof.
  intros P Hm Hu M R Et. destruct (decide (r_bulk_need (snd s) = 0)) as [Hb|Hb]; [|by eapply bulk_turn].
  destruct (decide (r_skip (snd s) = 0)) as [Hs|Hs]; [|by eapply skip_turn].
  pose proof M as M'. unfold rmid in M'. rewrite Hb, Hs in M'. destruct M' as (_ & _ & <- & _). by eapply line_turn.
Qed.

(** A parser with nothing to read has served all the whole answers. *)
Lemma rmid_nil w s : rmid w [] s -> frames w = ([], w).
Proof.
  unfold rmid. destruct (negb _).
  - intros (n & t & e & T & _). apply (frames_taking w [] n t T). destruct T as (i & _ & _ & _ & _ & T). change (zlen []) with 0. lia.
  - intros (_ & _ & M). destruct (negb _).
    + destruct M as (n & t & e & T & _). apply (frames_taking w [] n t T). destruct T as (i & _ & _ & _ & _ & T). change (zlen []) with 0. lia.
    + by destruct M as [-> _].
Qed.

Lemma feed_reads ids fuel w u s a e m s' : pok ids s -> (snd s).(r_mem) = [] -> rmid w u s -> reads w (on_idle s) a ->
  feed_loop (resp_turn sprintf_ui) fuel u s = Some (e, m, s') -> e <> END_ERROR ->
  on_idle s' = a /\ (snd s').(r_mem) = [] /\ rmid (snd (frames w)) (drop m u) s'.
Proof.
  revert w u s m. induction fuel as [|fuel IH]; intros w u s m P Hm M R Ef He.
  all: destruct u as [|x u].
  1, 3: cbn in Ef; injection Ef as <- <- <-; pose proof (rmid_nil w s M) as Hf; destruct R as [R _]; rewrite Hf in R |- *; cbn in R; injection R as <-; by split_and!.
  { done. }
  cbn [feed_loop] in Ef. destruct (resp_total sprintf_ui ids (x :: u) s P ltac:(done)) as (t & Et & P' & _ & _). rewrite Et in Ef. cbn [mbind option_bind] in Ef.
  pose proof (turn_reads ids w (x :: u) s a t P Hm ltac:(done) M R Et) as T. destruct t as [k s1|k s1|k s1]; cbn [turn_serves turn_state] in T, P'.
  - injection Ef as <- <- <-. destruct T as (T1 & T2 & T3 & T4). destruct R as [R _]. rewrite T2 in R |- *. cbn in R. injection R as <-. by split_and!.
  - destruct T as (T1 & w' & T2 & T3 & T4). destruct (feed_loop _ fuel _ s1) as [[[e' m'] s2]|] eqn:E2; [|done]. cbn in Ef. injection Ef as <- <- <-.
    destruct (IH w' (drop k (x :: u)) s1 m' P' T1 T2 T3 E2 He) as (I1 & I2 & I3). split_and!; [done|done|]. by rewrite <- T4, <- drop_drop.
  - by injection Ef as <- <- <-.
Qed.

(** ** Pieces of a stream *)

Lemma rest_nil w rps rest : frames w = (rps, rest) -> (w = [] -> rps = [] /\ rest = []) /\ (rps = [] -> rest = w).
Proof.
  intros Ef. split; [intros ->; cbn in Ef; by injection Ef as <- <-|]. intros ->. rewrite frames_unfold in Ef.
  destruct (ngx_strlchr w 10) as [i|]; [|by injection Ef]. cbn zeta in Ef. destruct (rline w i) as [rp|n|]; [| |by injection Ef].
  - by destruct (frames _).
  - destruct (Nat.ltb _ _); [by injection Ef|]. by destruct (frames (drop (Z.to_nat _) _)).
Qed.

(** The answers of a stream are those of its front, and then those of what was
    left of it with the rest. *)
Lemma frames_app w d : frames (w ++ d) =
  (fst (frames w) ++ fst (frames (snd (frames w) ++ d)), snd (frames (snd (frames w) ++ d))).
Proof.
  remember (length w) as n eqn:Hn. assert (Hle : (length w <= n)%nat) by lia. clear Hn. revert w Hle. induction n as [|n IH]; intros w Hle.
  { destruct w; [|cbn in Hle; lia]. change (frames []) with (@nil resp_t, @nil Z). cbn [fst snd app]. by destruct (frames d). }
  rewrite (frames_unfold w). destruct (ngx_strlchr w 10) as [i|] eqn:Ei; [|cbn [fst snd app]; by destruct (frames (w ++ d))].
  pose proof (strlchr_lt _ _ _ Ei) as Hi. cbn zeta. destruct (rline w i) as [rp|k|] eqn:El.
  - destruct (frames (drop (S i) w)) as [rps rest] eqn:Ef. cbn [fst snd app].
    rewrite (frames_unfold (w ++ d)), (strlchr_app _ _ _ _ Ei), rline_app, El, drop_app_le by lia. cbn zeta. rewrite IH by (rewrite length_drop; lia). by rewrite Ef.
  - destruct (Nat.ltb_spec (length (drop (S i) w)) (Z.to_nat (k + 2))) as [Hl|Hl]; [cbn [fst snd app]; by destruct (frames (w ++ d))|].
    destruct (frames (drop (Z.to_nat (k + 2)) (drop (S i) w))) as [rps rest] eqn:Ef. cbn [fst snd app].
    rewrite (frames_unfold (w ++ d)), (strlchr_app _ _ _ _ Ei), rline_app, El, drop_app_le by lia. cbn zeta.
    destruct (Nat.ltb_spec (length (drop (S i) w ++ d)) (Z.to_nat (k + 2))) as [Hl'|_]; [rewrite length_app in Hl'; lia|].
    pose proof (atoi_line _ _ _ El). rewrite drop_app_le, take_app_le by lia. rewrite IH by (rewrite !length_drop; lia). by rewrite Ef.
  - cbn [fst snd app]. by destruct (frames (w ++ d)).
Qed.

Lemma serve_all_app r1 r2 s : serve_all (r1 ++ r2) s = (s ← serve_all r1 s; serve_all r2 s).
Proof. revert s. induction r1 as [|rp r1 IH]; intros s; cbn [app serve_all]; [done|]. destruct (serve rp s) as [s1|]; [|done]. cbn. apply IH. Qed.

Lemma reads_app w d s a : reads (w ++ d) s a -> exists a1, reads w s a1 /\ reads (snd (frames w) ++ d) a1 a.
Proof.
  intros [R1 R2]. rewrite frames_app in R1, R2. cbn [fst snd] in R1, R2. rewrite serve_all_app in R1.
  destruct (serve_all (fst (frames w)) s) as [a1|] eqn:E1; [|done]. cbn in R1. exists a1. split; [|by split]. split; [done|]. intros Hr Hq.
  destruct (frames (snd (frames w) ++ d)) as [rps rest] eqn:Ef. cbn [fst snd] in R1, R2. destruct (rest_nil _ _ _ Ef) as [_ Hn]. destruct rps as [|rp rps].
  - cbn in R1. injection R1 as <-. rewrite (Hn eq_refl) in R2. apply R2; [|done]. intros H0. apply app_nil in H0 as [H0 _]. done.
  - cbn in R1. unfold serve in R1. by rewrite Hq in R1.
Qed.

End stream.

End RedisStream.
