(* ===== verification/RedisPair.v ===== *)
(** Answers and operations: the connection, with its buffer, its registers and
    the pieces in which the bytes arrive, against the sequence of answers, each
    of which goes to the operation at the head of the queue. *)
From stdpp Require Import base list gmap.
From S2P Require Import Prelude Types JsonTrip ReplyText ReplyFacts Select SelectFacts Link LinkFacts Redis RedisFacts RedisRun RedisStream.
Import ReplyFacts Select SelectFacts Link LinkFacts Redis RedisFacts RedisRun RedisStream.
#[local] Open Scope Z_scope.

Module RedisPair.

Section pair.
Context `{HL : NgxStringLaws} (sprintf_ui : Z -> bytes).

(** ** The abstract connection *)

(** The stream that was not served yet, and the driver without its registers. *)
Definition ast := (bytes * rst)%type.

(** Bytes make answers, served in order; [None] when Redis sends what was not
    asked for. *)
Definition spec_bytes (d : bytes) (x : ast) : option ast :=
  let '(w, s) := x in
  let '(rps, rest) := frames (w ++ d) in
  s ← serve_all sprintf_ui rps s;
  if negb (zlen rest =? 0) && (zlen (snd s).(r_queue) =? 0) then None else Some (rest, s).

Definition spec_act (a : ract) (x : ast) : option ast :=
  let '(w, s) := x in
  match a with
  | RACT_READ pieces _ => spec_bytes (concat pieces) x
  | RACT_WRITE sends event => Some (w, ngx_http_waf_link_flush ngx_http_waf_redis_on_close sends event s)
  | RACT_REQ q => s ← do_req sprintf_ui q s; Some (w, s)
  | RACT_TIMEOUT i => s ← ngx_http_waf_redis_on_timeout sprintf_ui i s; Some (w, s)
  | RACT_CLEANUP o => Some (w, on_r (op_cleanup o) s)
  end.
Fixpoint spec_acts (acts : list ract) (x : ast) : option ast :=
  match acts with [] => Some x | a :: acts => x ← spec_act a x; spec_acts acts x end.

(** ** What happens between reads *)

(** The head of a queue, its operation perhaps gone. *)
Definition softer (r r' : redis_t) : Prop :=
  forall e, head r.(r_queue) = Some e -> exists e', head r'.(r_queue) = Some e' /\ e'.(e_bulk) = e.(e_bulk) /\ (e'.(e_op) = e.(e_op) \/ e'.(e_op) = None).

Lemma rmid_soft w u s s' : held s s' -> softer (snd s) (snd s') -> rmid w u s -> rmid w u s'.
Proof.
  intros Hh Hsf. pose proof (held_all _ _ Hh) as (G1 & G2 & G3 & G4 & G5). unfold rmid. rewrite G1, G2, G3, G4, G5. destruct (negb _).
  - intros (n & t & e & T & A & B & C & D & E & Q1 & Q2 & Q3). destruct (Hsf e Q1) as (e' & E1 & E2 & E3).
    exists n, t, e'. split_and!; try done; [by rewrite E2|]. intros op Ho. apply Q3. destruct E3 as [<-|E3]; [done|congruence].
  - intros (A & B & C). split_and!; [done|done|]. destruct (negb _); [|done]. destruct C as (n & t & e & T & D & Q1 & Q2). destruct (Hsf e Q1) as (e' & E1 & E2 & E3).
    exists n, t, e'. split_and!; try done. destruct (r_skip_err (snd s)); rewrite E2; [|done]. destruct Q2 as [Q2 Q3]. split; [done|].
    intros op Ho. apply Q3. destruct E3 as [<-|E3]; [done|congruence].
Qed.

Lemma grown_soft s s' : grown s s' -> softer (snd s) (snd s').
Proof.
  intros [_ _ [l Hl] _] e He. exists e. rewrite Hl. destruct (r_queue (snd s)); [done|]. cbn in *. auto.
Qed.
Lemma softer_trans r1 r2 r3 : softer r1 r2 -> softer r2 r3 -> softer r1 r3.
Proof.
  intros H1 H2 e He. destruct (H1 e He) as (e' & A & B & C). destruct (H2 e' A) as (e2 & D & E & F). exists e2. split_and!; [done|congruence|].
  destruct F as [F|F]; [|by right]. destruct C as [C|C]; [left|right]; congruence.
Qed.
Lemma insert_soft r r' j e e' : r.(r_queue) !! j = Some e -> r'.(r_queue) = <[j := e']> r.(r_queue) -> e'.(e_bulk) = e.(e_bulk) -> e'.(e_op) = None -> softer r r'.
Proof.
  intros Hj Hq Hb Ho x Hx. destruct (r_queue r) as [|y q]; [done|]. cbn in Hx. injection Hx as ->. rewrite Hq. destruct j as [|j].
  - cbn in Hj. injection Hj as ->. exists e'. cbn. auto.
  - exists x. cbn. auto.
Qed.

Lemma timeout_soft i ids s s' : rinv ids s -> ngx_http_waf_redis_on_timeout sprintf_ui i s = Some s' -> softer (snd s) (snd s').
Proof.
  intros [O W N]. unfold ngx_http_waf_redis_on_timeout. destruct (list_find _ _) as [[j e]|] eqn:Ef; [|intros [= <-]; intros e He; exists e; auto].
  apply list_find_Some in Ef as (Hj & _ & _). set (e' := e <| e_timer := false |> <| e_op := None |>). set (s1 := on_r _ s).
  assert (S1 : softer (snd s) (snd s1)) by (by eapply (insert_soft _ _ j e e')).
  destruct (e_op e) as [op|] eqn:Eo; [|by intros [= <-]]. intros Eh.
  destruct (handler_spec sprintf_ui op NGX_ERROR None ids s1 O N) as (s2 & E & I & G).
  - eapply rwf_same; [|eapply (clear_spec (snd s) j e e' (r_cln (snd s)) [REV_DONE (o_id op) NGX_ERROR None] W Hj); [done|done|by left|done|by rewrite Eo]]. done.
  - rewrite E in Eh. injection Eh as <-. eapply softer_trans; [exact S1|by apply grown_soft].
Qed.

Lemma cleanup_soft o (s : rst) : softer (snd s) (op_cleanup o (snd s)) /\ held s (on_r (op_cleanup o) s).
Proof.
  destruct s as [k r]. unfold on_r, op_cleanup. cbn [fst snd]. destruct (r_cln r !! o) as [i|]; [|split; [intros e He; exists e; auto|done]].
  unfold ngx_http_waf_redis_detach. cbn. destruct (list_find _ _) as [[j e]|] eqn:Ef; [|split; [intros e He; exists e; auto|done]].
  apply list_find_Some in Ef as (Hj & _ & _). set (e' := mkEntry _ _ _ _ _).
  destruct (e_op e); (split; [by eapply (insert_soft _ _ j e e')|done]).
Qed.

(** ** Reading *)

Lemma spec_bytes_reads d w s rest a : spec_bytes d (w, s) = Some (rest, a) -> reads sprintf_ui (w ++ d) s a /\ rest = snd (frames (w ++ d)).
Proof.
  unfold spec_bytes, reads. destruct (frames (w ++ d)) as [rps rest']. cbn [fst snd]. destruct (serve_all _ rps s) as [s'|]; [|done]. cbn.
  destruct (Z.eqb_spec (zlen rest') 0) as [E|E]; cbn [negb andb].
  - intros [= <- <-]. split_and!; try done. intros Hn. destruct rest'; [done|]. rewrite zlen_cons in E. pose proof (zlen_nonneg rest'). lia.
  - destruct (Z.eqb_spec (zlen (r_queue (snd s'))) 0) as [E2|E2]; [done|]. intros [= <- <-]. split_and!; try done. intros _ Hq. by rewrite Hq in E2.
Qed.
Lemma reads_spec_bytes d w s a : reads sprintf_ui (w ++ d) s a -> spec_bytes d (w, s) = Some (snd (frames (w ++ d)), a).
Proof.
  unfold spec_bytes, reads. destruct (frames (w ++ d)) as [rps rest']. cbn [fst snd]. intros [-> R2]. cbn.
  destruct (Z.eqb_spec (zlen rest') 0) as [E|E]; [done|]. cbn [negb andb].
  destruct (Z.eqb_spec (zlen (r_queue (snd a))) 0) as [E2|E2]; [|done]. exfalso. apply R2; [by intros ->|]. destruct (r_queue (snd a)); [done|].
  rewrite zlen_cons in E2. pose proof (zlen_nonneg l). lia.
Qed.

Lemma spec_bytes_app d1 d2 x z : spec_bytes (d1 ++ d2) x = Some z -> exists y, spec_bytes d1 x = Some y /\ spec_bytes d2 y = Some z.
Proof.
  destruct x as [w s], z as [rest a]. intros Hs. apply spec_bytes_reads in Hs as [R ->]. rewrite app_assoc in R. apply reads_app in R as (a1 & R1 & R2).
  eexists. split; [by apply reads_spec_bytes|]. rewrite (reads_spec_bytes _ _ _ _ R2). by rewrite app_assoc, (frames_app (w ++ d1) d2).
Qed.

Lemma rest_rest w : frames (snd (frames w)) = ([], snd (frames w)).
Proof.
  pose proof (frames_app w []) as E. rewrite !app_nil_r in E. destruct (frames w) as [rps rest] eqn:Ef. cbn [fst snd] in *.
  destruct (frames rest) as [rps' rest']. cbn [fst snd] in E. injection E as E <-. f_equal.
  apply (f_equal length) in E. rewrite length_app in E. destruct rps'; [done|cbn in E; lia].
Qed.

(** The invariant: with the operations of [ids] to come, and [x] the abstract
    connection, if it follows. *)
Record pinv (ids : list Z) (x : option ast) (b : inbuf) (s : rst) : Prop := mkPinv {
  pi_ok : pok ids s;
  pi_pos : (b.(i_pos) <= length b.(i_data))%nat;
  pi_gone : (fst s).(k_conn) = false -> (fst s).(k_ready) = false /\ (snd s).(r_queue) = [];
  pi_spec : forall w a, x = Some (w, a) -> (fst s).(k_conn) = true ->
    (snd s).(r_mem) = [] /\ rmid w (unread b) s /\ frames w = ([], w) /\ on_idle s = a
}.

Lemma pinv_weaken ids x y b s : pinv ids x b s -> (forall z, y = Some z -> x = Some z) -> pinv ids y b s.
Proof. intros [A B C D] Hy. constructor; try done. intros w a Ea. apply D. by apply Hy. Qed.

Lemma pinv_drop ids x b b' s : pinv ids x b s -> (b'.(i_pos) <= length b'.(i_data))%nat -> forall y, pinv ids y b' (redis_drop s).
Proof.
  intros [(A & _) _ _ _] Hp y. destruct (rdrop_spec ids s A) as (D1 & D2 & D3). destruct A as [_ A1 A2]. constructor; [|done| |congruence].
  - destruct (drain_spec ids (snd s) A1 A2) as (_ & _ & _ & E1 & E2). split; [done|]. unfold redis_drop. rewrite drop_snd.
    unfold ngx_http_waf_redis_on_close. rewrite E1, E2. lia.
  - intros _. split; [apply drop_ready|done].
Qed.

Lemma pinv_compact ids x b s : pinv ids x b s -> pinv ids x (mkIn (unread b) 0) s.
Proof.
  intros [A B C D]. constructor; [done|cbn; lia|done|]. intros w a Ex Hk. destruct (D w a Ex Hk) as (D1 & D2 & D3).
  split; [done|]. change (unread (mkIn (unread b) 0)) with (drop 0 (unread b)). by rewrite drop_0.
Qed.

Lemma unread_more b d : (b.(i_pos) <= length b.(i_data))%nat -> unread (mkIn (b.(i_data) ++ d) b.(i_pos)) = unread b ++ d.
Proof. intros Hp. unfold unread. cbn. by rewrite drop_app_le. Qed.

(** The parser returns, with the link as it was but for what it sends. *)
Lemma feed_total ids u s : pok ids s ->
  exists e m s', feed_loop (resp_turn sprintf_ui) (length u) u s = Some (e, m, s') /\ pok ids s' /\ (m <= length u)%nat /\
    (fst s').(k_conn) = (fst s).(k_conn) /\ (e = END_EMPTY -> drop m u = []).
Proof.
  intros P. set (c := k_conn (fst s)).
  assert (Ht : forall u s, pok ids s /\ k_conn (fst s) = c -> u <> [] -> exists t, resp_turn sprintf_ui u s = Some t /\
    (pok ids (turn_state t) /\ k_conn (fst (turn_state t)) = c) /\ (true = true -> true = true) /\ turn_took u t).
  { intros u' s1 [P1 C1] Hu. destruct (resp_total sprintf_ui ids u' s1 P1 Hu) as (t & Et & T1 & T2 & T3). exists t. split_and!; try done.
    by rewrite (rest_conn _ _ T2). }
  destruct (parse_total (resp_turn sprintf_ui) _ (fun _ => true) Ht (length u) u s (conj P eq_refl) (Nat.le_refl _)) as (e & m & s' & E1 & [E2 E3] & E4 & _ & E5).
  by exists e, m, s'.
Qed.

Lemma pinv_parse ids x b s d : pinv ids x b s -> (fst s).(k_conn) = true ->
  exists ok b' s', ngx_http_waf_redis_on_read sprintf_ui (mkIn (b.(i_data) ++ d) b.(i_pos)) s = Some (ok, b', s') /\ (fst s').(k_conn) = true /\
    pinv ids None b' s' /\ (ok = true -> pinv ids (x ≫= spec_bytes d) b' s').
Proof.
  intros [A B C D] Hc. unfold ngx_http_waf_redis_on_read, ngx_http_waf_redis_parse, feed_buffer. rewrite unread_more by done. set (u := unread b ++ d).
  destruct (feed_total ids u s A) as (e & m & s' & Ep & P1 & P2 & P3 & P4). rewrite Ep. cbn [mbind option_bind]. rewrite Hc in P3.
  assert (Hpos : (i_pos b + m <= length (i_data b ++ d))%nat).
  { unfold u, unread in P2. rewrite length_app, length_drop in P2. rewrite length_app. lia. }
  assert (Hun : unread (mkIn (i_data b ++ d) (i_pos b + m)) = drop m u).
  { unfold u. rewrite <- (unread_more b d B). unfold unread. cbn. by rewrite drop_drop. }
  assert (H0 : forall b', (i_pos b' <= length (i_data b'))%nat -> pinv ids None b' s') by (intros b' Hb'; constructor; [done|done|congruence|done]).
  assert (Hi : forall b', e <> END_ERROR -> (i_pos b' <= length (i_data b'))%nat -> unread b' = drop m u -> pinv ids (x ≫= spec_bytes d) b' s').
  { intros b' He Hb' Hu'. constructor; [done|done|congruence|]. intros w' a' Hx _. destruct x as [[w a]|]; [|done]. cbn in Hx.
    destruct (D w a eq_refl Hc) as (D1 & D2 & D3 & <-). apply spec_bytes_reads in Hx as [R ->].
    destruct (feed_reads sprintf_ui ids (length u) (w ++ d) u s a' e m s' A D1 (rmid_app _ _ _ _ D2) R Ep He) as (F1 & F2 & F3).
    rewrite Hu'. split_and!; try done. apply rest_rest. }
  destruct e; (eexists _, _, _; split; [reflexivity|]); (split; [done|]).
  - split; [apply H0; cbn; lia|]. intros _. apply Hi; [done|cbn; lia|]. by rewrite P4.
  - split; [by apply H0|]. intros _. by apply Hi.
  - split; [by apply H0|done].
Qed.

Lemma pinv_turn ids x b s d : pinv ids x b s -> (fst s).(k_conn) = true ->
  exists how b' s', read_turn ngx_http_waf_redis_on_close (ngx_http_waf_redis_on_read sprintf_ui) (fun _ => RECV d) b s = Some (how, b', s') /\
    match how with
    | READ_MORE => pinv ids (x ≫= spec_bytes d) b' s' /\ (fst s').(k_conn) = true
    | READ_BREAK => False
    | READ_RETURN => forall y, pinv ids y b' s'
    end.
Proof.
  intros I Hc. unfold read_turn. destruct (_ && _); [eexists _, _, _; split; [reflexivity|]; exact (pinv_drop _ _ _ _ _ I (pi_pos _ _ _ _ I))|].
  set (b1 := if Nat.eqb _ _ then _ else b). assert (I1 : pinv ids x b1 s) by (unfold b1; destruct (Nat.eqb _ _); [by apply pinv_compact|done]).
  destruct (pinv_parse ids x b1 s d I1 Hc) as (ok & b2 & s2 & -> & J1 & J2 & J3). cbn [mbind option_bind]. rewrite J1. cbn [negb].
  destruct ok; cbn [negb]; (eexists _, _, _; split; [reflexivity|]); [by split; [apply J3|]|exact (pinv_drop _ _ _ _ _ J2 (pi_pos _ _ _ _ J2))].
Qed.

(** A read of nothing. *)
Lemma spec_nothing w a z : frames w = ([], w) -> spec_bytes [] (w, a) = Some z -> z = (w, a).
Proof. unfold spec_bytes. rewrite app_nil_r. intros ->. cbn. destruct (_ && _); [done|]. by intros [= <-]. Qed.

Lemma pinv_read ids x b s pieces event : pinv ids x b s -> (fst s).(k_conn) = true ->
  exists b' s', redis_read sprintf_ui ((fun d _ => RECV d) <$> pieces) event b s = Some (b', s') /\ pinv ids (x ≫= spec_bytes (concat pieces)) b' s'.
Proof.
  revert x b s. induction pieces as [|d pieces IH]; intros x b s I Hc.
  - unfold redis_read. cbn [fmap list_fmap ngx_http_waf_link_read_handler]. unfold read_turn.
    destruct (_ && _); cbn [mbind option_bind]; [eexists _, _; split; [reflexivity|]; eapply pinv_drop; [exact I|apply I]|].
    set (b1 := if Nat.eqb _ _ then _ else b). assert (I1 : pinv ids x b1 s) by (unfold b1; destruct (Nat.eqb _ _); [by apply pinv_compact|done]).
    eexists _, _. split; [reflexivity|]. destruct event; [|eapply pinv_drop; [exact I1|apply I1]]. eapply pinv_weaken; [exact I1|].
    intros z Hz. destruct x as [[w a]|]; [|done]. cbn in Hz. destruct I1 as [_ _ _ D]. destruct (D w a eq_refl Hc) as (_ & _ & D3 & _).
    by rewrite (spec_nothing w a z D3 Hz).
  - unfold redis_read. cbn [fmap list_fmap ngx_http_waf_link_read_handler].
    destruct (pinv_turn ids x b s d I Hc) as (how & b' & s' & -> & J). cbn [mbind option_bind]. destruct how; [|done|by exists b', s'].
    destruct J as [J1 J2]. destruct (IH _ b' s' J1 J2) as (b2 & s2 & E & J3). unfold redis_read in E. exists b2, s2. split; [exact E|].
    eapply pinv_weaken; [exact J3|]. intros z Hz. destruct x as [x|]; [|done]. cbn in Hz |- *. apply spec_bytes_app in Hz as (y & Y1 & Y2). by rewrite Y1.
Qed.

(** ** Any sequence of operations *)

(** A step that leaves the registers alone. *)
Lemma pinv_held ids ids' x y b s s' : pinv ids' x b s -> rinv ids s' -> held s s' -> softer (snd s) (snd s') ->
  ((fst s).(k_conn) = false -> (snd s').(r_queue) = []) ->
  (forall w a, y = Some (w, a) -> x = Some (w, on_idle s) -> a = on_idle s') -> (forall w a, y = Some (w, a) -> exists a', x = Some (w, a')) ->
  pinv ids y b s'.
Proof.
  intros [(_ & A1 & A2) B C D] R Hh Hsf Hq Hy Hx. pose proof (held_regs _ _ Hh) as [G1 G2]. constructor; [split; [done|by rewrite G1, G2]|done| |].
  - pose proof Hh as (Hr & _). rewrite (rest_conn _ _ Hr), (rest_ready _ _ Hr). intros Hk. split; [by apply C|auto].
  - intros w a Ey. pose proof Hh as (Hr & _ & Hm). rewrite (rest_conn _ _ Hr). intros Hk. destruct (Hx w a Ey) as [a' Ex].
    destruct (D w a' Ex Hk) as (D1 & D2 & D3 & D4). split_and!; [auto|by eapply rmid_soft|done|]. symmetry. apply (Hy w); [done|]. by rewrite D4.
Qed.

Lemma pinv_gone ids x y b s : pinv ids x b s -> (fst s).(k_conn) = false -> pinv ids y b s.
Proof. intros [A B C D] Hk. constructor; try done. congruence. Qed.
Lemma pinv_sub ids ids' x b s : pinv ids x b s -> ids' ⊆+ ids -> pinv ids' x b s.
Proof. intros [[A1 A2] B C D] Hs. constructor; try done. split; [by eapply rinv_sub|done]. Qed.

Definition redis_flush (sends : list send_r) (event : bool) : rst -> rst := ngx_http_waf_link_flush ngx_http_waf_redis_on_close sends event.

(** What is sent does not depend on the queue. *)
Lemma drop_link k p p' : fst (redis_drop (k, p)) = fst (redis_drop (k, p')).
Proof. unfold redis_drop, ngx_http_waf_link_drop. cbn. by destruct (negb (k_up k)). Qed.
Lemma flush_link sends event k p p' : fst (redis_flush sends event (k, p)) = fst (redis_flush sends event (k, p')).
Proof.
  unfold redis_flush, ngx_http_waf_link_flush. cbn [fst]. destruct (_ || _); [done|].
  assert (G : forall k, fst (flush_loop ngx_http_waf_redis_on_close sends (k, p)) = fst (flush_loop ngx_http_waf_redis_on_close sends (k, p')) /\
    fst (snd (flush_loop ngx_http_waf_redis_on_close sends (k, p))) = fst (snd (flush_loop ngx_http_waf_redis_on_close sends (k, p')))).
  { clear. induction sends as [|d sends IH]; intros k; cbn [flush_loop]; destruct (Nat.leb _ _); try done. by destruct d. }
  specialize (G k). destruct (flush_loop _ sends (k, p)) as [go [k1 p1]], (flush_loop _ sends (k, p')) as [go' [k1' p1']]. cbn [fst snd] in G.
  destruct G as [<- <-]. destruct go; cbn [negb fst]; [|done]. destruct event; [done|]. apply drop_link.
Qed.

Lemma pinv_flush ids x b s sends event : pinv ids x b s -> (fst s).(k_conn) = true ->
  pinv ids (x ≫= spec_act (RACT_WRITE sends event)) b (redis_flush sends event s).
Proof.
  intros I Hc. pose proof I as [([O W N] & _) B _ _]. set (s' := redis_flush sends event s).
  destruct (flush_spec ngx_http_waf_redis_on_close sends event s O) as [F1 F2]. fold (redis_flush sends event s) in F1, F2. fold s' in F1, F2.
  destruct (k_conn (fst s')) eqn:Ek.
  - destruct F2 as [[F2 F3]|[F2 _]]; [|congruence]. assert (Hs : s' = (fst s', snd s)) by (rewrite <- F2; by destruct s').
    eapply (pinv_held ids ids x _ b s s' I); [| | | | |].
    + constructor; [done|by rewrite F2|by rewrite F2].
    + split; [done|]. by rewrite F2.
    + rewrite F2. intros e He. exists e. auto.
    + congruence.
    + intros w a Ey ->. cbn in Ey. injection Ey as <-. unfold on_idle in *. rewrite F2. fold (redis_flush sends event (fst s, idle (snd s))).
      pose proof (flush_link sends event (fst s) (snd s) (idle (snd s))) as Hl. replace (redis_flush sends event (fst s, snd s)) with s' in Hl by (unfold s'; by destruct s).
      destruct (flush_spec ngx_http_waf_redis_on_close sends event (fst s, idle (snd s)) O) as [_ [[G _]|[G _]]]; fold (redis_flush sends event (fst s, idle (snd s))) in G.
      * rewrite Hl. rewrite (surjective_pairing (redis_flush _ _ _)) at 1. f_equal. exact G.
      * rewrite <- Hl in G. congruence.
    + intros w a Ey. destruct x as [[w' a']|]; [|done]. cbn in Ey. injection Ey as <- _. by exists a'.
  - destruct F2 as [[_ F3]|[_ F3]]; [rewrite (rest_conn _ _ F3) in Ek; congruence|].
    destruct (drain_spec ids (snd s) W N) as (D1 & D2 & D3 & D4 & D5). unfold ngx_http_waf_redis_on_close in F3.
    constructor; [split; [constructor; [done|by rewrite F3|by rewrite F3]|rewrite F3, D4, D5; lia]|done| |congruence].
    intros _. split; [by apply (flush_ready ngx_http_waf_redis_on_close sends event s)|by rewrite F3].
Qed.

Lemma pinv_act ids x b s a : pinv (act_ids a ++ ids) x b s ->
  exists b' s', do_ract sprintf_ui a b s = Some (b', s') /\ pinv ids (x ≫= spec_act a) b' s'.
Proof.
  intros I. assert (I0 : pinv ids x b s) by (eapply pinv_sub; [exact I|by apply submseteq_inserts_l]).
  assert (Hb : forall (w : bytes) (a0 : rst) (f : rst -> option rst) y, (forall s, f (on_idle s) = on_idle <$> f s) -> f s = Some y ->
    (s ← f (on_idle s); Some (w, s)) = Some (w, a0) -> a0 = on_idle y).
  { intros w a0 f y Hf Ef. rewrite Hf, Ef. cbn. congruence. }
  assert (Hw : forall (f : rst -> option rst) (w : bytes) (a0 : rst), (x ≫= (fun '(w, s) => s ← f s; Some (w, s))) = Some (w, a0) -> exists a', x = Some (w, a')).
  { intros f w a0. destruct x as [[w' a']|]; [|done]. cbn. destruct (f a'); [|done]. cbn. intros [= <- _]. by exists a'. }
  destruct a as [pieces event|sends event|q|i|o]; cbn [do_ract].
  - destruct (k_conn (fst s)) eqn:Hc; cbn [negb]; [by destruct x as [[w a]|]; [apply (pinv_read ids (Some (w, a)))|apply (pinv_read ids None)]|]. exists b, s. split; [done|]. by eapply pinv_gone.
  - destruct (k_conn (fst s)) eqn:Hc; cbn [negb]; [|exists b, s; split; [done|by eapply pinv_gone]].
    eexists _, _. split; [reflexivity|]. by apply pinv_flush.
  - destruct (do_req_spec sprintf_ui q ids s (proj1 (pi_ok _ _ _ _ I))) as (s' & E & R & G). rewrite E. cbn. exists b, s'. split; [done|].
    eapply (pinv_held ids _ x _ b s s' I0 R (grown_held _ _ G) (grown_soft _ _ G)).
    + intros Hk. destruct (pi_gone _ _ _ _ I Hk) as [H1 H2]. unfold do_req in E. rewrite H1 in E. cbn in E. by injection E as <-.
    + intros w a Ey ->. by apply (Hb w a (do_req sprintf_ui q) s'); [apply do_req_idle|..].
    + apply (Hw (do_req sprintf_ui q)).
  - destruct (timeout_spec sprintf_ui i ids s (proj1 (pi_ok _ _ _ _ I0))) as (s' & E & R & G). rewrite E. cbn. exists b, s'. split; [done|].
    eapply (pinv_held ids _ x _ b s s' I0 R G); [by eapply timeout_soft; [exact (proj1 (pi_ok _ _ _ _ I0))|]| | |].
    + intros Hk. destruct (pi_gone _ _ _ _ I Hk) as [H1 H2]. unfold ngx_http_waf_redis_on_timeout in E. rewrite H2 in E. cbn in E. by injection E as <-.
    + intros w a Ey ->. by apply (Hb w a (ngx_http_waf_redis_on_timeout sprintf_ui i) s'); [apply timeout_idle|..].
    + apply (Hw (ngx_http_waf_redis_on_timeout sprintf_ui i)).
  - destruct (cleanup_soft o s) as [C1 C2]. eexists _, _. split; [reflexivity|].
    eapply (pinv_held ids _ x _ b s _ I0 (cleanup_spec o ids s (proj1 (pi_ok _ _ _ _ I0))) C2 C1).
    + intros Hk. destruct (pi_gone _ _ _ _ I Hk) as [H1 H2]. cbn. unfold op_cleanup. destruct (_ !! o); [|done]. unfold ngx_http_waf_redis_detach. cbn. by rewrite H2.
    + intros w a Ey ->. cbn in Ey. injection Ey as <-. unfold on_idle, on_r. cbn. by rewrite cleanup_idle.
    + intros w a Ey. destruct x as [[w' a']|]; [|done]. cbn in Ey. injection Ey as <- _. by exists a'.
Qed.

Lemma pinv_acts x b s acts : pinv (acts ≫= act_ids) x b s ->
  exists b' s', do_racts sprintf_ui acts b s = Some (b', s') /\ pinv [] (x ≫= spec_acts acts) b' s'.
Proof.
  revert x b s. induction acts as [|a acts IH]; intros x b s I; cbn [do_racts].
  - exists b, s. split; [done|]. eapply pinv_weaken; [exact I|]. by destruct x.
  - destruct (pinv_act (mbind (M := list) act_ids acts) x b s a I) as (b1 & s1 & -> & I1). cbn [mbind option_bind fst snd].
    destruct (IH _ b1 s1 I1) as (b2 & s2 & -> & I2). exists b2, s2. split; [done|]. eapply pinv_weaken; [exact I2|].
    intros z Hz. destruct x as [x|]; [|done]. exact Hz.
Qed.

(** ** Theorems *)

(** A connection that is established, nothing read yet, with the operations of
    [ids] to come. *)
Record redis_fresh (ids : list Z) (s : rst) : Prop := mkRedisFresh {
  rf_inv : rinv ids s;
  rf_conn : (fst s).(k_conn) = true;
  rf_idle : on_idle s = s
}.

Lemma fresh_pinv ids s x : redis_fresh ids s -> x = None \/ x = Some ([], s) /\ (snd s).(r_mem) = [] -> pinv ids x (mkIn [] 0) s.
Proof.
  intros [A B C] Hx. apply (f_equal snd) in C as D. cbn in D. 
  assert (E : r_skip (snd s) = 0 /\ r_skip_err (snd s) = false /\ r_bulk (snd s) = None /\ r_bulk_size (snd s) = 0 /\ r_bulk_need (snd s) = 0) by (rewrite <- D; by split_and!).
  destruct E as (E1 & E2 & E3 & E4 & E5). constructor; [split; [done|lia]|cbn; lia|congruence|].
  intros w a -> _. destruct Hx as [|[Hx Hm]]; [done|]. injection Hx as -> ->. split_and!; [done|by apply rmid_idle|done|done].
Qed.

(** C22: the refinement of the sequence of answers by the connection: whatever
    the pieces in which the bytes of Redis arrive, and whatever requests, time
    limits, cleanups and writes fall between them, an object half read
    included, every operation of the driver returns, and while the connection
    holds, the completions, the queue and the output are those of taking the
    whole answers off the concatenated stream and giving each to the entry at
    the head of the queue, provided Redis sends no more answers than it was
    asked for. *)
Theorem redis_pairs_answers acts s w a : redis_fresh (acts ≫= act_ids) s -> (snd s).(r_mem) = [] -> spec_acts acts ([], s) = Some (w, a) ->
  exists b s', do_racts sprintf_ui acts (mkIn [] 0) s = Some (b, s') /\
    ((fst s').(k_conn) = true -> on_idle s' = a /\ rmid w (unread b) s').
Proof.
  intros F Hm Hs. destruct (pinv_acts (Some ([], s)) (mkIn [] 0) s acts (fresh_pinv _ _ _ F (or_intror (conj eq_refl Hm)))) as (b & s' & E & I).
  exists b, s'. split; [done|]. intros Hk. cbn in I. destruct (pi_spec _ _ _ _ I w a Hs Hk) as (_ & I2 & _ & I4). done.
Qed.

(** C12: every operation of the store that the driver accepts ends exactly once:
    through any sequence of reads, writes, requests, time limits and cleanups,
    failed allocations and Redis answering anything at all included, the
    operations that were accepted are those that have ended and those that
    wait, none twice; one that waits is in the queue with its timer armed and
    its cleanup pointing to its own entry, and once the connection is lost none
    waits any more. *)
Theorem redis_ops_end_once acts s : redis_fresh (acts ≫= act_ids) s ->
  exists b s', do_racts sprintf_ui acts (mkIn [] 0) s = Some (b, s') /\
    let r := snd s' in
    NoDup (queued r) /\ queued r ≡ₚ ended r ++ waiting r /\ r.(r_inflight) = zlen r.(r_queue) /\
    (forall e op, e ∈ r.(r_queue) -> e.(e_op) = Some op -> e.(e_timer) = true /\ r.(r_cln) !! op.(o_id) = Some e.(e_id)) /\
    ((fst s').(k_conn) = false -> (fst s').(k_ready) = false /\ queued r ≡ₚ ended r).
Proof.
  intros F. destruct (pinv_acts None (mkIn [] 0) s acts (fresh_pinv _ _ None F (or_introl eq_refl))) as (b & s' & E & I).
  exists b, s'. split; [done|]. destruct I as [([_ W _] & _) _ C _]. cbn zeta. split_and!; [apply W|apply W|apply W| |].
  - intros e op He Ho. destruct (rw_op _ W e op He Ho) as [H1 H2]. split; [done|]. by apply (rw_cln _ W).
  - intros Hk. destruct (C Hk) as [C1 C2]. split; [done|]. rewrite (rw_sum _ W) at 1. unfold waiting. rewrite C2. cbn. by rewrite app_nil_r.
Qed.

(** *** Answers on the wire *)

(** An answer with the text of its line: of a status or an error, or of the
    length of an object. *)
Definition wire_text (x : resp_t * bytes) : bytes :=
  match fst x with
  | RP_OK | RP_ERR => snd x ++ [13; 10]
  | RP_NIL => lit "$" ++ snd x ++ [13; 10]
  | RP_BULK data => lit "$" ++ snd x ++ [13; 10] ++ data ++ [13; 10]
  end.
Definition wire_ok (x : resp_t * bytes) : Prop :=
  (10 ∉ snd x) /\
  match fst x with
  | RP_OK => head (snd x) = Some plus_c \/ head (snd x) = Some colon_c
  | RP_ERR => head (snd x) = Some minus_c
  | RP_NIL => ngx_atoi (snd x) = None
  | RP_BULK data => ngx_atoi (snd x) = Some (zlen data)
  end.

Lemma wire_line (l rest : bytes) : 10 ∉ l -> 
  ngx_strlchr (l ++ [13; 10] ++ rest) 10 = Some (S (length l)) /\ drop (S (S (length l))) (l ++ [13; 10] ++ rest) = rest /\
  forall c, head l = Some c -> rline (l ++ [13; 10] ++ rest) (S (length l)) =
    if (c =? plus_c) || (c =? colon_c) then RLINE RP_OK
    else if c =? minus_c then RLINE RP_ERR
    else if c =? dollar_c then match ngx_atoi (drop 1 l) with None => RLINE RP_NIL | Some n => RLINE_BULK n end
    else RLINE_BAD.
Proof.
  intros Hl. split_and!.
  - change (l ++ [13; 10] ++ rest) with (l ++ [13] ++ 10 :: rest). rewrite app_assoc, strlchr_app_none; [f_equal; rewrite length_app; cbn; lia|].
    intros Hin. apply elem_of_app in Hin as [Hin|Hin]; [done|]. by apply list_elem_of_singleton in Hin.
  - rewrite drop_app_ge by lia. by replace (S (S (length l)) - length l)%nat with 2%nat by lia.
  - intros c Hc. unfold rline. replace (head (l ++ [13; 10] ++ rest)) with (Some c) by (by destruct l). cbn [default Nat.eqb negb andb Nat.sub].
    rewrite Nat.sub_0_r, lookup_app_r, Nat.sub_diag by lia. cbn [lookup list_lookup app]. rewrite bool_decide_eq_true_2 by done. cbn [andb].
    change (id c) with c. rewrite take_app_length. done.
Qed.

Lemma frames_wire x rest : wire_ok x -> frames (wire_text x ++ rest) = (fst x :: fst (frames rest), snd (frames rest)).
Proof.
  destruct x as [rp text]. intros [Hn Hx]. cbn [fst snd] in *. unfold wire_text. cbn [fst snd].
  assert (Hd : 10 ∉ lit "$" ++ text) by (intros Hin; apply elem_of_app in Hin as [Hin|Hin]; [by apply list_elem_of_singleton in Hin|done]).
  rewrite frames_unfold. destruct rp as [| | |data].
  - rewrite <- app_assoc. destruct (wire_line text rest Hn) as (-> & -> & G). cbn zeta. destruct Hx as [Hx|Hx]; rewrite (G _ Hx); cbn; by destruct (frames rest).
  - rewrite <- app_assoc. destruct (wire_line text rest Hn) as (-> & -> & G). cbn zeta. rewrite (G _ Hx). cbn. by destruct (frames rest).
  - rewrite !app_assoc, <- (app_assoc (lit "$" ++ text)). destruct (wire_line (lit "$" ++ text) rest Hd) as (-> & -> & G). cbn zeta. rewrite (G dollar_c eq_refl).
    change (drop 1 (lit "$" ++ text)) with (drop 0 text). rewrite drop_0, Hx. cbn. by destruct (frames rest).
  - replace ((lit "$" ++ text ++ [13; 10] ++ data ++ [13; 10]) ++ rest) with ((lit "$" ++ text) ++ [13; 10] ++ (data ++ [13; 10] ++ rest)) by (by rewrite <- !app_assoc).
    destruct (wire_line (lit "$" ++ text) (data ++ [13; 10] ++ rest) Hd) as (-> & -> & G). cbn zeta. rewrite (G dollar_c eq_refl).
    change (drop 1 (lit "$" ++ text)) with (drop 0 text). rewrite drop_0, Hx.
    change (if (dollar_c =? plus_c) || (dollar_c =? colon_c) then _ else ?y) with y. cbn [Z.eqb].
    change (if dollar_c =? minus_c then _ else if dollar_c =? dollar_c then ?y else _) with y. cbv iota.
    pose proof (zlen_nonneg data). replace (Z.to_nat (zlen data)) with (length data) by (unfold zlen; lia).
    replace (Z.to_nat (zlen data + 2)) with (length data + 2)%nat by (unfold zlen; lia).
    destruct (Nat.ltb_spec (length (data ++ [13; 10] ++ rest)) (length data + 2)) as [Hc|_]; [rewrite !length_app in Hc; cbn in Hc; lia|].
    rewrite take_app_length. rewrite drop_app_ge by lia. replace (length data + 2 - length data)%nat with 2%nat by lia. change (drop 2 ([13; 10] ++ rest)) with (drop 0 rest). rewrite drop_0. by destruct (frames rest).
Qed.

Lemma frames_wires xs : Forall wire_ok xs -> frames (concat (wire_text <$> xs)) = (fst <$> xs, []).
Proof.
  induction 1 as [|x xs Hx _ IH]; [done|]. cbn [fmap list_fmap concat]. rewrite (frames_wire _ _ Hx). by rewrite IH.
Qed.

(** What the entry at the head hears. *)
Definition answered (e : entry_t) (rp : resp_t) : option redis_ev :=
  op ← e.(e_op); Some (REV_DONE op.(o_id) (fst (outcome e op rp)) (snd (outcome e op rp))).

Lemma serve_one rp k r e q : r.(r_calls) = [] -> r.(r_queue) = e :: q ->
  exists r2, serve sprintf_ui rp (k, r) = Some (k, r2) /\ r_queue r2 = q /\ r_calls r2 = [] /\ r_log r2 = r_log r ++ option_list (answered e rp).
Proof.
  intros Hc Eq. unfold serve, entry_pop, answered. cbn [fst snd]. rewrite Eq. cbn [head mbind option_bind].
  destruct (e_op e) as [op|]; [|eexists; split; [reflexivity|]; cbn; rewrite app_nil_r; by split_and!].
  cbn [mbind option_bind]. destruct (outcome e op rp) as [st data]. unfold op_handler. cbn. rewrite Hc. eexists. split; [reflexivity|]. by split_and!.
Qed.

Lemma serve_all_queue rps s : (snd s).(r_calls) = [] -> (length rps <= length (snd s).(r_queue))%nat ->
  exists s', serve_all sprintf_ui rps s = Some s' /\ (snd s').(r_queue) = drop (length rps) (snd s).(r_queue) /\ (snd s').(r_calls) = [] /\
    (snd s').(r_log) = (snd s).(r_log) ++ omap id (zip_with answered (snd s).(r_queue) rps).
Proof.
  revert s. induction rps as [|rp rps IH]; intros [k r] Hc Hl; cbn [fst snd] in *; cbn [serve_all length].
  { exists (k, r). split_and!; [done|by rewrite drop_0|done|]. destruct (r_queue r); cbn; by rewrite app_nil_r. }
  cbn [length] in Hl. destruct (r_queue r) as [|e q] eqn:Eq; [cbn in Hl; lia|].
  destruct (serve_one rp k r e q Hc Eq) as (r2 & -> & G2 & G3 & G4). cbn [mbind option_bind].
  destruct (IH (k, r2)) as (s' & E & Q & C & L); cbn [fst snd] in *; [done|rewrite G2; cbn in Hl; lia|]. exists s'. rewrite G2 in Q, L. split_and!; [done|done|done|].
  rewrite L, G4, <- app_assoc. f_equal. cbn [zip_with omap list_omap]. unfold id. by destruct (answered e rp).
Qed.

(** C23: the answers come back to the operations they answer: when as many
    answers as there are commands waiting, or fewer, arrive in pieces of any
    size, the i-th answer completes the operation of the i-th command — stored,
    refused, absent, or read, with exactly the bytes of the object if they are
    within the cap of the operation — and the commands that are left stay in
    order. *)
Theorem redis_answers_return pieces event s xs : redis_fresh [] s -> (snd s).(r_mem) = [] -> (snd s).(r_calls) = [] ->
  Forall wire_ok xs -> concat pieces = concat (wire_text <$> xs) -> (length xs <= length (snd s).(r_queue))%nat ->
  exists b s', do_racts sprintf_ui [RACT_READ pieces event] (mkIn [] 0) s = Some (b, s') /\
    ((fst s').(k_conn) = true ->
     (snd s').(r_log) = (snd s).(r_log) ++ omap id (zip_with answered (snd s).(r_queue) (fst <$> xs)) /\
     (snd s').(r_queue) = drop (length xs) (snd s).(r_queue)).
Proof.
  intros F Hm Hc Hw Hp Hl. destruct (serve_all_queue (fst <$> xs) s Hc) as (a & Ea & Qa & _ & La); [by rewrite length_fmap|]. rewrite length_fmap in Qa.
  destruct (pinv_acts (Some ([], s)) (mkIn [] 0) s [RACT_READ pieces event] (fresh_pinv _ _ _ F (or_intror (conj eq_refl Hm)))) as (b & s' & E & I).
  exists b, s'. split; [done|]. intros Hk. destruct (pi_spec _ _ _ _ I [] a) as (_ & _ & _ & I4); [|done|].
  - cbn [mbind option_bind spec_acts spec_act]. unfold spec_bytes. rewrite Hp. change ([] ++ ?l) with l. rewrite (frames_wires xs Hw), Ea. done.
  - rewrite <- I4 in La, Qa. done.
Qed.

(** *** How a connection gets there *)

Lemma grown_fresh ids ids' s s' : redis_fresh ids' s -> rinv ids s' -> grown s s' -> redis_fresh ids s'.
Proof.
  intros [A B C] R G. destruct G as [G1 G2 _ _]. constructor; [done|by rewrite (rest_conn _ _ G1)|].
  apply (f_equal snd) in C. cbn in C. unfold regs in G2. injection G2 as E1 E2 E3 E4 E5 _. unfold on_idle. rewrite (surjective_pairing s') at 3. f_equal.
  rewrite <- C in E1, E2, E3, E4, E5. cbn in E1, E2, E3, E4, E5. destruct (snd s'). cbn in *. by subst.
Qed.

(** The commands of a new connection are in the queue before it is ready. *)
Lemma hello_fresh ids s : redis_fresh ids s ->
  exists ok s', ngx_http_waf_redis_on_connected sprintf_ui s = Some (ok, s') /\ redis_fresh ids s' /\ (ok = true -> (fst s').(k_ready) = true).
Proof.
  intros F. unfold ngx_http_waf_redis_on_connected, ngx_http_waf_redis_hello. set (c := r_conf (snd s)).
  assert (Hq : forall argv s, redis_fresh ids s -> exists ok s', ngx_http_waf_redis_queue sprintf_ui argv s = Some (ok, s') /\ redis_fresh ids s').
  { intros argv s1 F1. destruct (queue_spec sprintf_ui argv ids s1 (rf_inv _ _ F1)) as (ok & s2 & E & I & G & _). exists ok, s2. split; [done|]. by eapply grown_fresh. }
  assert (H1 : exists ok s1, (if zlen (rc_password c) =? 0 then Some (true, s)
    else ngx_http_waf_redis_queue sprintf_ui ([lit "AUTH"] ++ (if zlen (rc_user c) =? 0 then [] else [rc_user c]) ++ [rc_password c]) s) = Some (ok, s1) /\ redis_fresh ids s1).
  { destruct (_ =? 0); [by exists true, s|by apply Hq]. }
  destruct H1 as (ok1 & s1 & E1 & F1). rewrite E1. cbn [mbind option_bind]. destruct ok1; cbn [negb]; [|by eexists _, _; split; [reflexivity|split]].
  assert (H2 : exists ok s2, (if rc_db c =? 0 then Some (true, s1) else ngx_http_waf_redis_queue sprintf_ui [lit "SELECT"; sprintf_ui (rc_db c)] s1) = Some (ok, s2) /\ redis_fresh ids s2).
  { clear E1; destruct (rc_db c =? 0); [by exists true, s1|by apply Hq]. }
  destruct H2 as (ok2 & s2 & E2 & F2). rewrite E2. cbn [mbind option_bind]. destruct ok2; cbn [negb]; (eexists _, _; split; [reflexivity|]); [|by split].
  split; [|done]. destruct F2 as [[O W N] B C]. constructor; [by constructor|done|]. apply (f_equal snd) in C. cbn in C. unfold on_idle. cbn. by rewrite C.
Qed.

End pair.

(** ** A connection *)

Definition demo_rconf : redis_conf_t := mkRedisConf 60000 120000 1024 [] (lit "secret") 2.
Definition demo_rlink : link_t := mkLink 64 4096 256 [] 0 true false true true 0 false 0 [].
Definition demo_redis : redis_t := mkRedis demo_rconf [] [] 0 0 0 false None 0 0 ∅ [] [] [].

Lemma demo_redis_fresh ids : NoDup ids -> redis_fresh ids (demo_rlink, demo_redis).
Proof.
  intros Hn. constructor; [|done|done]. constructor; [unfold out_wf, zlen; cbn; lia| |].
  - constructor; try done; try (cbn; set_solver); try constructor. intros x [i Hi]. cbn in Hi; by rewrite lookup_empty in Hi.
  - split; [by rewrite app_nil_r|]. intros x _ Hx. by apply not_elem_of_nil in Hx.
Qed.

(** An object is written and one is read; the request that writes goes away
    while the answers arrive, in pieces of five bytes. *)
Definition demo_get : op_t := mkOp 8 16.
Definition demo_put : op_t := mkOp 7 3.
Definition demo_replies : list (resp_t * bytes) := [(RP_OK, lit "+OK"); (RP_BULK (lit "payload"), lit "7")].
Definition demo_wire : bytes := concat (wire_text <$> demo_replies).
Definition demo_pieces (n : nat) (s : bytes) : list bytes := (fun i => take n (drop (i * n) s)) <$> seq 0 (length s / n + 1).
Definition demo_racts : list ract :=
  [RACT_REQ (REQ_PUT demo_put (lit "k") (lit "abc") false); RACT_REQ (REQ_GET demo_get (lit "k")); RACT_WRITE [SENT 20] true;
   RACT_READ [take 3 demo_wire] true; RACT_CLEANUP 7; RACT_READ (demo_pieces 5 (drop 3 demo_wire)) true].
Definition demo_log : list redis_ev := [REV_QUEUED 7; REV_QUEUED 8; REV_GONE 7; REV_DONE 8 NGX_OK (Some (lit "payload"))].

Lemma redis_pairs_answers_witness :
  exists b s', do_racts JsonTrip.decimal demo_racts (mkIn [] 0) (demo_rlink, demo_redis) = Some (b, s') /\ (snd s').(r_log) = demo_log.
Proof.
  destruct (spec_acts JsonTrip.decimal demo_racts ([], (demo_rlink, demo_redis))) as [[w a]|] eqn:Es; [|by vm_compute in Es].
  destruct (redis_pairs_answers JsonTrip.decimal demo_racts (demo_rlink, demo_redis) w a) as (b & s' & E & G).
  - apply demo_redis_fresh. apply (bool_decide_eq_true_1 _). by vm_compute.
  - reflexivity.
  - exact Es.
  - exists b, s'. split; [exact E|]. destruct G as [G _]; [vm_compute in E; by injection E as <- <-|].
    apply (f_equal (fun s => r_log (snd s))) in G. etrans; [exact G|]. vm_compute in Es. by injection Es as <- <-.
Defined.

Lemma redis_ops_end_once_witness :
  exists b s', do_racts JsonTrip.decimal (demo_racts ++ [RACT_REQ (REQ_GET (mkOp 9 4) (lit "k")); RACT_WRITE [SEND_ERROR] true]) (mkIn [] 0) (demo_rlink, demo_redis) = Some (b, s') /\
    NoDup (queued (snd s')) /\ queued (snd s') ≡ₚ ended (snd s') /\ queued (snd s') = [7; 8; 9].
Proof.
  destruct (redis_ops_end_once JsonTrip.decimal (demo_racts ++ [RACT_REQ (REQ_GET (mkOp 9 4) (lit "k")); RACT_WRITE [SEND_ERROR] true]) (demo_rlink, demo_redis))
    as (b & s' & E & G1 & _ & _ & _ & G5).
  - apply demo_redis_fresh. apply (bool_decide_eq_true_1 _). by vm_compute.
  - exists b, s'. split; [exact E|]. split; [exact G1|]. assert (Hc : k_conn (fst s') = false) by (vm_compute in E; by injection E as <- <-).
    split; [apply G5, Hc|]. vm_compute in E. by injection E as <- <-.
Defined.

(** The connection with the two requests, as it is once they are queued. *)
Definition demo_asked : rst :=
  default (demo_rlink, demo_redis) (do_reqs JsonTrip.decimal [REQ_PUT demo_put (lit "k") (lit "abc") false; REQ_GET demo_get (lit "k")] (demo_rlink, demo_redis)).
Lemma demo_asked_fresh : redis_fresh [] demo_asked.
Proof.
  destruct (do_reqs_spec JsonTrip.decimal [REQ_PUT demo_put (lit "k") (lit "abc") false; REQ_GET demo_get (lit "k")] [] (demo_rlink, demo_redis)) as (s' & E & I & G).
  - apply demo_redis_fresh. apply (bool_decide_eq_true_1 _). by vm_compute.
  - unfold demo_asked. rewrite E. cbn [default]. eapply grown_fresh; [exact (demo_redis_fresh [] ltac:(constructor))|exact I|exact G].
Qed.

Lemma redis_answers_return_witness :
  exists b s', do_racts JsonTrip.decimal [RACT_READ (demo_pieces 4 demo_wire) true] (mkIn [] 0) demo_asked = Some (b, s') /\
    (snd s').(r_log) = [REV_QUEUED 7; REV_QUEUED 8; REV_DONE 7 NGX_OK None; REV_DONE 8 NGX_OK (Some (lit "payload"))].
Proof.
  destruct (redis_answers_return JsonTrip.decimal (demo_pieces 4 demo_wire) true demo_asked demo_replies) as (b & s' & E & G).
  - exact demo_asked_fresh.
  - by vm_compute.
  - by vm_compute.
  - repeat constructor; try (by left); try (vm_compute; reflexivity); vm_compute; set_solver.
  - by vm_compute.
  - vm_compute; lia.
  - exists b, s'. split; [exact E|]. destruct G as [G _]; [vm_compute in E; by injection E as <- <-|]. rewrite G. by vm_compute.
Defined.

End RedisPair.
